(* ===== verification/_CoqProject ===== *)
-Q . S2P
Prelude.v
Effects.v
Bytes.v
BlkDescs.v
DmaSgl.v
DmaWqe.v
CqRing.v
DmaDv.v
DmaInv.v
DmaComp.v
DmaSys.v
DmaFlush.v
DmaProps.v
DpMap.v
PollGroups.v
Virtq.v
BlkVirtq.v
VirtqInv.v
VirtqSys.v
BlkCreate.v
VirtqProps.v
VirtqOrder.v
VirtqServe.v
Ctrl.v
CtrlInv.v
CtrlProps.v
CtrlRun.v
CtrlState.v
StateFields.v
CtrlStateProps.v
CtrlStateRun.v
Vq.v
VqInv.v
VqProps.v
VqAdm.v
VqAdmProps.v
VqData.v
AdmCmd.v
AdmCmdProps.v
AdmVf.v
AdmRun.v
Chan.v
ChanBits.v
ChanSys.v
ChanInv.v
ChanMark.v
ChanProps.v
ChanTrack.v
ChanState.v
ChanLive.v
ChanConn.v
ChanConnProps.v
ChanOpen.v
ChanReg.v
ChanRun.v
ChanCtrl.v
DpaRt.v
DpaVq.v
DpaVqProps.v
DpaUsed.v
DpaServe.v
DpaUsedProps.v
DpaCmd.v
DpaCmdProps.v
DpaRun.v
DpaNvme.v
DpaNvmeProps.v
Env.v
