(* ===== verification/Prelude.v ===== *)
(** * A verification library for the SNAP RDMA virtio stack

    The repository is the data path and control path of emulated virtio devices on a DPU.
    A host driver puts requests on virtqueues; the firmware forwards them as messages on an
    RDMA queue; the library serves them with a block device and moves the data with DMA.

    ** The program and its parts

    - DMA queue (src/src/snap_dma.c, snap_dma_dv.c, snap_dma_internal.h, snap_dma.h): posts
      work requests to a hardware send queue, polls its completion ring and gives credits
      back.  It is used by every component that touches host memory.
    - Completion ring (snap_dma_internal.h, snap_qp.c): ring with owner bits.
    - Virtqueue core (src/ctrl/virtq_common.c and .h): one state machine per command, the
      in-order completion, suspend; it calls a device type through a record of operations.
    - Block virtqueue (src/ctrl/snap_virtio_blk_virtq.c): the device type modelled here; it
      calls the DMA queue and the block device, which call it back.
    - Controller (src/ctrl/snap_virtio_common_ctrl.c): owns the queues of a device, follows
      the configuration space the host writes, spreads the queues over polling groups
      (src/ctrl/snap_poll_groups.c), and implements live migration: dirty pages
      (src/ctrl/snap_dp_map.c), the states of the migration and the saved state
      (src/ctrl/snap_virtio_state.h).
    - Admin queue (src/ctrl/snap_vq.c, snap_vq_adm.c): a second, smaller virtqueue, on which
      a host sends the commands that migrate virtual functions to the controller of the
      physical function (src/ctrl/snap_virtio_blk_ctrl.c), which carries them out on the
      controllers of the virtual functions.
    - Migration channel (src/src/snap_rdma_channel.c, snap_channel.c): the other way to
      migrate a controller.  Migration software connects over RDMA and sends commands; a
      thread of the channel carries them out on the controller, and the controller reports
      to the channel the guest memory it writes.
    - DPA virtqueues (src/dpa/dpa_virtq_split.c, src/src/snap_dpa_p2p.c, snap_dpa_virtq.c,
      snap_dpa_rt.c): a thread of a data path accelerator watches the available ring of a
      queue and sends the new heads to the DPU, which serves them and writes the used ring;
      the DPU commands the thread over a mailbox.  Another program of the accelerator
      (src/dpa/dpa_nvme.c) does the same for submission queues.
    - Environment variables (src/src/snap_env.c), which configure the other parts.

    ** Files

    - Prelude: machine integers, the macros of snap_macros.h, results ([res]: a value, an
      error code, undefined behaviour [Oob], a loop that ran out of fuel), assignment to
      record fields, reachability, shared lemmas, the hint database [snap].  Effects: the
      state and error monad [M], its postconditions [post], the lists of sys/queue.h.
    - BlkDescs: [virtq_blk_process_desc], [virtq_sequential_data_descs_merge],
      [arrange_descs] on C arrays (lists with bounds).
    - DmaSgl: [snap_dma_build_sgl].  DmaWqe: the layout of work queue entries in the ring
      (put_* are the parts of the do_dv_* functions that write the buffer).
    - CqRing: [snap_dv_poll_cq] against a FIFO queue.
    - DmaDv: state and operations of the DMA queue; DmaInv, DmaComp: its invariant; DmaSys:
      the device as an executable environment and the steps of the pair; DmaFlush:
      [dv_dma_q_flush]; DmaProps: theorems about created queues.
    - DpMap: dirty pages.  PollGroups: polling groups.
    - Virtq: virtq_common.c as functions on the state of a queue; everything outside is
      reached through [call], which records the call in the [world] and takes the answer of
      an arbitrary environment.  BlkVirtq: the handlers of the block device.  VirtqInv: what
      each handler does; VirtqSys: events of the surroundings and the invariant; BlkCreate:
      creation and destruction; VirtqProps, VirtqOrder, VirtqServe: theorems.
    - Ctrl: the controller as a state and error monad over a heap of queues; the queue
      implementation, the configuration space and the callbacks are the class [CtrlOps],
      what the controller relies on the class [CtrlLaws].  CtrlInv: the invariant and the
      specification of every operation; CtrlProps: theorems; CtrlRun: runs on a small
      device.
    - Bytes: memory as bytes.  CtrlState: saving and restoring the state of a controller in
      both formats; StateFields: fields in memory; CtrlStateProps: theorems; CtrlStateRun:
      a migration from one controller to another.
    - Vq: snap_vq.c over a DMA queue that executes the posted work in order, for any protocol
      ([handle] and its callbacks); VqInv: the invariant; VqProps: runs, for protocols that
      satisfy the class [VqClient].  VqAdm: snap_vq_adm.c for a controller; VqAdmProps: it is
      a [VqClient] when the controller is an [AdmClient]; VqData: the data that is moved.
    - AdmCmd: the admin commands of the block controller and snap_buf.c, over controllers of
      virtual functions with the operations [VfCtrl]; AdmCmdProps: the commands are an
      [AdmClient] when the virtual functions satisfy [VfLaws] and the host sends one command
      at a time; AdmVf: the controller of Ctrl as a [VfCtrl]; AdmRun: runs.
    - Chan: state and operations of the migration channel, over a heap of buffers, memory
      regions and the queues of its connection; the controller is the class [MigOps].
      ChanBits: bits and counts of the bitmap; ChanSys: the peer, the device and the threads
      as an environment, and the invariant of the memory; ChanInv: every operation keeps it,
      for controllers that satisfy [MigLaws]; ChanMark: a report of dirty memory; ChanProps,
      ChanTrack, ChanState, ChanLive: theorems on runs, on the log of dirty pages, on the
      state of the device, and on answers.  ChanConn: connections, opening and closing;
      ChanConnProps, ChanOpen: what they release.  ChanReg: the registry of channels by
      name.  ChanRun: runs with a small controller.  ChanCtrl: the controller of Ctrl as the
      controller of a channel, and a migration over it.
    - DpaVq: messages between DPA and DPU, the thread of a queue and its commands; DpaVqProps:
      what it sends.  DpaUsed: the DPU side of a queue; DpaServe: heads become requests;
      DpaUsedProps: completions reach the used ring.  DpaRt: cores and threads of the
      runtime.  DpaCmd, DpaCmdProps: commands over the mailbox, creation and destruction.
      DpaRun: runs.  DpaNvme, DpaNvmeProps: submission queues.
    - Env: the table of environment variables.

    Definitions have the names of the C functions they translate; a loop of a function is a
    definition of its own.  Pointers to user data are numbers, C arrays are lists whose
    bounds are checked, and fixed-width arithmetic wraps where the code does.

    ** What is proved

    - DMA queue: an invariant of every reachable state that ties credits, completion slots,
      ring buffer and device together ([dma_reachable_inv]); no entry point has undefined
      behaviour ([dma_call_safe]), but [snap_dma_q_send] in one window at the end of the
      send queue ([send_window_undefined]); completions are delivered in order
      ([progress_tx_completions]); flushing terminates ([flush_always_completes]) below an
      inline size of 1052 bytes; above, it may not ([flush_deadlock]).
    - Virtqueues: the counters are exact ([queue_counters_exact]), a suspended queue is idle
      ([suspended_queue_idle]), completions are in order when forced
      ([completions_in_order]), what is done for a read and a write
      ([read_request_served], [write_request_served]), how errors end.
    - Descriptors: merging refines a reference definition, splitting keeps the bytes.
    - Controller: an invariant of every reachable state ([ctrl_reachable_inv]), every call
      returns ([ctrl_calls_return]), nothing runs while migration has the controller
      quiesced ([migration_quiet]); the state survives a migration ([state_roundtrip_v2]).
    - Admin queue: an invariant of every reachable state, with completion in order
      ([vq_reachable]); the transfers copy consecutive bytes of a descriptor chain
      ([data_moves_chain]); every call returns ([adm_calls_return]); two commands at a time
      use a freed buffer ([overlapping_saves_use_freed_buffer]).
    - Dirty pages: of the pages that were added, those of the range asked for are reported
      and the others stay ([dp_map_roundtrip]).
    - Migration channel: in every state it reaches the next event is handled without
      undefined behaviour ([chan_events_handled]), a command is answered
      in every schedule in which its requests succeed ([command_answered]), no dirty page is
      lost while they do ([no_dirty_page_lost]) and a report marks the pages of its range
      ([mark_dirty_page_marks], [get_num_elements_counts]); the state that is read is the one
      that was saved ([read_state_sends_saved]); a channel leaves nothing behind
      ([open_close_released]), a connection its identifier and what the device refuses to
      release ([connection_released]).  But the
      copy of the log is never released, so later pages are not sent
      ([log_copy_never_released]), a state that is written is restored before it has arrived
      ([write_state_restores_zeros]), and a missing variable blocks all later channels
      ([missing_port_blocks]).
    - DPA virtqueues: a turn of the thread sends each new entry of the available ring once and
      in order, or a beginning of them and disables the queue ([progress_sends_new_heads]) and each becomes a request of the DPU
      ([new_heads_become_requests]); completions fill the used ring in order and the index
      never runs ahead of them ([completions_fill_used_ring]); a stopped queue is silent
      ([stopped_queue_is_silent]); nothing leaks when a creation fails
      ([create_destroy_balanced]); new entries of submission queues
      are copied to their shadows ([nvme_turn_copies_new_entries]); a suspended queue reports its index, unless the address of
      its descriptors is not a multiple of 256 ([suspended_queue_reports]).
    - Error theorems show what the code does outside of these conditions: overflows, lost
      references and hangs that follow from an input or a failing call.

    ** Fuel and bounds

    The state machine of a command gets [sm_fuel] = 14 handlers per call: the numbers of the
    states it runs through increase strictly, so it never runs out.  The loop over unordered
    completions gets one iteration per command and one more.  [snap_virtio_ctrl_progress]
    gets the number of nested calls it may make; 1 suffices for a device that is not
    transitional.  The loop over the fields of a saved state gets one iteration per byte of
    the buffer: each field takes at least eight.  Loops of the DMA queue are bounded by the
    number of completions that are polled at once.  The migration channel handles at least
    one completion per turn and stops after 64, so 64 turns are enough (the DPA thread takes at
    least one message and sends at least one head per turn of its loops); a command is retried
    five times as in the code; the size of the bitmap doubles at most 64 times, after which
    it would be zero for ever.

    ** Assumptions

    - The device, the block device and the memory pool answer in any order, but only what
      was asked; a host reuses a descriptor chain after it was completed.  In the theorems
      on counters, suspension and completions the DMA queue accepts data writes
      ([no_refused]), and a queue that logs the writes of the device does so through a
      migration channel and not a dirty page map ([create_ok]); [BdevLaws] and the hypotheses
      of the theorems say what else is used.  The block device calls back after the call
      that submitted the request has returned, as a device that works does; the null device
      of src/blk, which calls back before, is not such a device.
    - Calls of one controller are atomic: the locks of the code are modelled as such, and
      blocking on a lock that is held is [OutOfFuel].  Callbacks do not call back into the
      controller.
    - [CtrlLaws]: queues can be created and resumed, the start callback succeeds, the device
      is not transitional, no queue wakes up by itself.  What happens otherwise is the subject
      of [transitional_reset_unlocks_twice] and [failed_start_dangles].  [migration_quiet]
      is about applications that do not call [snap_virtio_ctrl_resume] themselves.
      [StateLaws]: a queue that the device type has set up can be asked for its indices;
      [state_roundtrip_v2] is about controllers all of whose queues have been.
    - [adm_calls_return]: the DMA queue accepts the work that is posted (it may fail later),
      a chain has no more descriptors than the pool, the buffers of saved states and the
      keys of dirty page maps can be allocated, and the virtual functions return from every
      call ([VfLaws]), from the restoring of a state when it is one they accept; the steps of
      the queue say that the states the host sends are ([lm_fits]).  The controller of Ctrl
      accepts states that name only queues it has ([restore_queue_index_oob]).  A quiesce command that a virtual function
      answers later, from its own progress, stays in flight in these runs.
    - The migration channel: each handler and each report runs to its end before the next,
      as the locks of the code make them; memory can be allocated and polling succeeds in
      the theorems on runs, pages are at most 2^27 bytes, and [MigLaws] says that the
      operations of the controller return.  ChanRun shows what happens otherwise.  The
      controller of Ctrl is such a controller when its quiesce ends and the state it is given
      is no shorter than the headers in it ([short_state_overread]).
    - DPA virtqueues: sizes are powers of two and rings lie in the address space; the
      theorems on completions and on requests assume that posts are accepted, and DpaRun
      shows what a refused one leads to.  Messages arrive in order and complete.

    - The page set of DpMap is kept in a table of src/src/khash.h, a generic library of macros
      that is a parameter with the laws [PageTableLaws]; [gset_table] satisfies them.
    - BlkCreate models where the pieces of the memory of a queue lie, and not the size that
      is passed to the allocator.  The dump of a state that [snap_virtio_ctrl_state_restore_v2]
      writes to the log before it looks at the length is not modelled.
    - [snap_dpa_virtq_create] and [poll_turn] model code that needs two lines mended or a
      macro defined to compile or run, as their comments say.

    ** Not modelled

    The layers that only send commands to the firmware or to libibverbs (snap.c,
    snap_virtio_*.c under src/src, snap_nvme.c, snap_umr.c, snap_crypto.c, the creation of
    queue pairs in snap_dma_control.c, snap_dma_verbs.c): their behaviour is that of the
    device, whose side is not in the repository.  Of the DPA,
    the loading of programs and memory (snap_dpa.c), which depends on a vendor library that
    is not in the repository, and its multipath application.  The file system and network controllers, which use the same core, the
    configuration space and queue callbacks of the block controller, logging and dumps, and
    the programs under src/tests. *)

From stdpp Require Export base numbers list.
From Stdlib Require Export ZArith Lia.

(** * Notations and scopes *)

Declare Scope snap_scope.
Delimit Scope snap_scope with snap.
Open Scope snap_scope.
Open Scope Z_scope.

(** * Machine integers

    A w-bit unsigned integer of the C code is an integer [x] with
    [0 <= x < 2 ^ w]; every arithmetic operation whose result is stored in
    such a variable is followed by the wrap of its width. *)

Definition uwrap (w x : Z) : Z := x mod 2 ^ w.
Definition u8 (x : Z) : Z := uwrap 8 x.
Definition u16 (x : Z) : Z := uwrap 16 x.
Definition u32 (x : Z) : Z := uwrap 32 x.
Definition u64 (x : Z) : Z := uwrap 64 x.

(** Conversion to a 32-bit [int]: two's complement, as gcc defines it. *)
Definition i32 (x : Z) : Z := uwrap 32 (x + 2 ^ 31) - 2 ^ 31.

(** [x & f] used as a C condition. *)
Definition has_flag (x f : Z) : bool := negb (Z.land x f =? 0).

Arguments uwrap : simpl never.
Arguments u8 : simpl never.
Arguments u16 : simpl never.
Arguments u32 : simpl never.
Arguments u64 : simpl never.
Arguments i32 : simpl never.

(** * Error codes (errno values of the Linux ABI, returned negated) *)

Definition EAGAIN : Z := 11.
Definition ENOMEM : Z := 12.
Definition EBUSY : Z := 16.
Definition ENODEV : Z := 19.
Definition EINVAL : Z := 22.
Definition ENOTSUP : Z := 95.

(** * Macros of src/src/snap_macros.h *)

Definition snap_min (a b : Z) : Z := if a <? b then a else b.
Definition snap_max (a b : Z) : Z := if b <? a then a else b.

(** [SNAP_ALIGN_FLOOR(val, align)] on a 64-bit [val]: the mask is the
    complement, at the width of [val], of [align - 1]. *)
Definition SNAP_ALIGN_FLOOR (val align : Z) : Z :=
  Z.land val (u64 (Z.lnot (u64 (align - 1)))).

(** [SNAP_ALIGN_CEIL(val, align)] on a 64-bit [val]. *)
Definition SNAP_ALIGN_CEIL (val align : Z) : Z :=
  SNAP_ALIGN_FLOOR (u64 (val + u64 (align - 1))) align.

Definition SNAP_IS_POW2_OR_ZERO (n : Z) : bool := Z.land n (n - 1) =? 0.

Definition SNAP_IS_POW2 (n : Z) : bool := (0 <? n) && SNAP_IS_POW2_OR_ZERO n.

(** The loop of [SNAP_ROUNDUP_POW2(n)] on a 32-bit [n]: 32 doublings pass every
    [n] up to [2 ^ 31]; beyond, the C loop does not end. *)
Fixpoint roundup_pow2_loop (fuel : nat) (pow2 n : Z) : Z :=
  if pow2 <? n then
    match fuel with
    | O => pow2
    | S fuel' => roundup_pow2_loop fuel' (u32 (Z.shiftl pow2 1)) n
    end
  else pow2.

Definition SNAP_ROUNDUP_POW2 (n : Z) : Z := roundup_pow2_loop 32 1 n.

Definition SNAP_ROUNDUP_POW2_OR0 (n : Z) : Z := if n =? 0 then 0 else SNAP_ROUNDUP_POW2 n.

(** * Results of fallible, fuelled computations

    [Err] is an error code the code returns, [Oob] an access outside an array
    (undefined behaviour of the C program), [OutOfFuel] a loop that was not
    given enough iterations. *)

Inductive res (A : Type) : Type :=
| Ok (a : A)
| Err (code : Z)
| Oob
| OutOfFuel.
Arguments Ok {A} a.
Arguments Err {A} code.
Arguments Oob {A}.
Arguments OutOfFuel {A}.

Definition res_bind {A B : Type} (r : res A) (f : A -> res B) : res B :=
  match r with
  | Ok a => f a
  | Err e => Err e
  | Oob => Oob
  | OutOfFuel => OutOfFuel
  end.

Notation "'let?' x ':=' r 'in' k" := (res_bind r (fun x => k))
  (at level 100, x binder, r at next level, right associativity) : snap_scope.

(** * Sums *)

Definition sumZ (l : list Z) : Z := foldr Z.add 0 l.

(** * Address ranges

    The [n] byte addresses that start at [a], at 64-bit width. *)
Definition addr_seq (a n : Z) : list Z :=
  map (fun k => u64 (a + Z.of_nat k)) (seq 0 (Z.to_nat n)).

(** * Arrays

    A C array is a list; reading is stdpp's [!!], and [aset] is an assignment
    [a[i] = x] that has no value when [i] is outside the array. *)

Definition aset {A : Type} (l : list A) (i : nat) (x : A) : option (list A) :=
  if decide (i < length l)%nat then Some (<[i := x]> l) else None.

(** * Reachability

    [star R s s'] : [s'] is reached from [s] by finitely many [R] steps. *)

Inductive star {S : Type} (R : S -> S -> Prop) : S -> S -> Prop :=
| star_refl s : star R s s
| star_step s1 s2 s3 : R s1 s2 -> star R s2 s3 -> star R s1 s3.

(** * Assignment to the field of a record

    [r ⦇ f := v ⦈] is the record [r] with the field [f] set to [v]. A record type
    declares how its values are rebuilt from their fields ([Settable]); the
    setter of a field is found from it, and checked against the field. *)

Class Settable (R : Type) := rebuild : R -> R.
Class Setter {R A : Type} (field : R -> A) := upd_field : (A -> A) -> R -> R.
Arguments upd_field {R A} field {_} _ _ /.

Ltac field_setter :=
  match goal with
  | |- @Setter ?R ?A ?field =>
      let copy := eval hnf in (@rebuild R _) in
      match eval pattern field in copy with
      | ?abs _ =>
          let t := eval cbv beta in (fun (upd : A -> A) => abs (fun r => upd (field r))) in
          let _ := constr:((fun upd r => eq_refl) : forall upd r, field (t upd r) = upd (field r)) in
          exact t
      end
  end.

#[export] Hint Extern 1 (Setter _) => field_setter : typeclass_instances.

Notation "r ⦇ f := v ⦈" := (upd_field f (fun _ => v) r)
  (at level 1, left associativity, f at level 0, v at level 200, format "r ⦇ f  :=  v ⦈") : snap_scope.

(** * Tactics *)

(** Case analysis on the conditions and the matches the goal computes with. *)
Ltac split_cond :=
  repeat (case_match || case_bool_decide || case_decide); simplify_eq/=.

(** Membership in a list that is written out. *)
Ltac in_list := apply list_elem_of_In; cbn; auto.

(** Turn boolean comparisons in the context into propositions. *)
Ltac bool_to_prop :=
  repeat match goal with
  | H : _ && _ = true |- _ => apply andb_prop in H; destruct H
  | H : _ && _ = false |- _ => apply andb_false_iff in H
  | H : _ || _ = true |- _ => apply orb_prop in H
  | H : _ || _ = false |- _ => apply orb_false_elim in H; destruct H
  | H : negb _ = true |- _ => apply negb_true_iff in H
  | H : negb _ = false |- _ => apply negb_false_iff in H
  | H : (_ =? _) = true |- _ => apply Z.eqb_eq in H
  | H : (_ =? _) = false |- _ => apply Z.eqb_neq in H
  | H : (_ <? _) = true |- _ => apply Z.ltb_lt in H
  | H : (_ <? _) = false |- _ => apply Z.ltb_ge in H
  | H : (_ <=? _) = true |- _ => apply Z.leb_le in H
  | H : (_ <=? _) = false |- _ => apply Z.leb_gt in H
  end.

Create HintDb snap discriminated.

(** * Lemmas on machine integers *)

Lemma uwrap_range w x : 0 <= w -> 0 <= uwrap w x < 2 ^ w.
Proof. intros Hw. apply Z.mod_pos_bound, Z.pow_pos_nonneg; lia. Qed.

Lemma uwrap_small w x : 0 <= x < 2 ^ w -> uwrap w x = x.
Proof. apply Z.mod_small. Qed.

Lemma uwrap_idemp w x : uwrap w (uwrap w x) = uwrap w x.
Proof. apply Zmod_mod. Qed.

Lemma uwrap_add_l w x y : uwrap w (uwrap w x + y) = uwrap w (x + y).
Proof. apply Zplus_mod_idemp_l. Qed.

Lemma uwrap_add_r w x y : uwrap w (x + uwrap w y) = uwrap w (x + y).
Proof. apply Zplus_mod_idemp_r. Qed.

Lemma u16_range x : 0 <= u16 x < 2 ^ 16.
Proof. by apply uwrap_range. Qed.
Lemma u32_range x : 0 <= u32 x < 2 ^ 32.
Proof. by apply uwrap_range. Qed.
Lemma u64_range x : 0 <= u64 x < 2 ^ 64.
Proof. by apply uwrap_range. Qed.
Lemma u16_small x : 0 <= x < 2 ^ 16 -> u16 x = x.
Proof. apply uwrap_small. Qed.
Lemma u32_small x : 0 <= x < 2 ^ 32 -> u32 x = x.
Proof. apply uwrap_small. Qed.
Lemma u64_small x : 0 <= x < 2 ^ 64 -> u64 x = x.
Proof. apply uwrap_small. Qed.
Lemma u64_add_l x y : u64 (u64 x + y) = u64 (x + y).
Proof. apply uwrap_add_l. Qed.
Lemma u64_add_r x y : u64 (x + u64 y) = u64 (x + y).
Proof. apply uwrap_add_r. Qed.
Lemma u32_add_l x y : u32 (u32 x + y) = u32 (x + y).
Proof. apply uwrap_add_l. Qed.

Lemma i32_small x : - 2 ^ 31 <= x < 2 ^ 31 -> i32 x = x.
Proof. intros H. unfold i32. rewrite uwrap_small; lia. Qed.

#[export] Hint Rewrite u64_add_l u64_add_r u32_add_l : snap.
#[export] Hint Resolve u16_range u32_range u64_range : snap.

(** ** Masks and alignment *)

Lemma land_mask x k : 0 <= k -> Z.land x (2 ^ k - 1) = x mod 2 ^ k.
Proof.
  intros Hk. rewrite <- Z.land_ones by done.
  by rewrite Z.ones_equiv, Z.sub_1_r.
Qed.

(** Masking a wrapped counter is taking the counter modulo the mask. *)
Lemma uwrap_mask w k x :
  0 <= k <= w -> Z.land (uwrap w x) (2 ^ k - 1) = x mod 2 ^ k.
Proof.
  intros Hk. rewrite land_mask by lia. unfold uwrap.
  replace (2 ^ w) with (2 ^ (w - k) * 2 ^ k) by (rewrite <- Z.pow_add_r; [f_equal|..]; lia).
  rewrite Z.mul_comm. rewrite Z.rem_mul_r by (try apply Z.pow_pos_nonneg; try apply Z.pow_nonzero; lia).
  rewrite Z.mul_comm, Z_mod_plus_full. by rewrite Z.mod_mod by (apply Z.pow_nonzero; lia).
Qed.

(** A power-of-two test of the C code decides what its name says. *)
Lemma SNAP_IS_POW2_spec n :
  SNAP_IS_POW2 n = true <-> exists k, 0 <= k /\ n = 2 ^ k.
Proof.
  unfold SNAP_IS_POW2, SNAP_IS_POW2_OR_ZERO. split.
  - intros [Hpos%Z.ltb_lt Hland%Z.eqb_eq]%andb_prop.
    exists (Z.log2 n). split; [apply Z.log2_nonneg|].
    destruct (Z.log2_spec n Hpos) as [Hlo Hhi].
    destruct (decide (n = 2 ^ Z.log2 n)) as [|Hne]; [done|exfalso].
    assert (Z.testbit (Z.land n (n - 1)) (Z.log2 n) = true) as Hbit.
    { rewrite Z.land_spec, Z.bit_log2 by done. cbn [andb].
      assert (Z.log2 (n - 1) = Z.log2 n) as <-.
      { apply Z.log2_unique; [apply Z.log2_nonneg|lia]. }
      apply Z.bit_log2. destruct (decide (n = 1)) as [->|]; [done|lia]. }
    rewrite Hland, Z.bits_0 in Hbit. done.
  - intros (k & Hk & ->).
    assert (0 < 2 ^ k) by (apply Z.pow_pos_nonneg; lia).
    apply andb_true_intro; split; [by apply Z.ltb_lt|].
    apply Z.eqb_eq. rewrite land_mask by done.
    by rewrite Z.mod_same by lia.
Qed.

Lemma roundup_pow2_loop_spec n : forall fuel k,
  0 <= k -> n <= 2 ^ 31 -> k + Z.of_nat fuel = 32 -> (k = 0 \/ 2 ^ (k - 1) < n) ->
  exists j, k <= j <= 31 /\ roundup_pow2_loop fuel (2 ^ k) n = 2 ^ j /\ n <= 2 ^ j /\
    (j = 0 \/ 2 ^ (j - 1) < n).
Proof.
  induction fuel as [|fuel IH]; intros k Hk Hn Hf Hlow; cbn [roundup_pow2_loop].
  - assert (k = 32) as -> by lia. destruct Hlow as [|Hlow]; [lia|]. change (32 - 1) with 31 in Hlow. lia.
  - destruct (Z.ltb_spec (2 ^ k) n) as [Hlt|Hge].
    + assert (k < 31) by (apply (Z.pow_lt_mono_r_iff 2); lia).
      assert (u32 (Z.shiftl (2 ^ k) 1) = 2 ^ (k + 1)) as ->.
      { rewrite Z.shiftl_mul_pow2, <- Z.pow_add_r by lia. apply u32_small. split; [apply Z.pow_nonneg; lia|].
        apply Z.pow_lt_mono_r; lia. }
      destruct (IH (k + 1)) as (j & Hj & Hrest); [lia|done|lia| |].
      { right. by replace (k + 1 - 1) with k by lia. }
      exists j. split; [lia|done].
    + exists k. split; [|done]. split; [lia|]. destruct Hlow as [->|Hlow]; [lia|].
      assert (k - 1 < 31); [|lia]. apply (Z.pow_lt_mono_r_iff 2); lia.
Qed.

(** [SNAP_ROUNDUP_POW2] is the least power of two that is not below [n]. *)
Lemma SNAP_ROUNDUP_POW2_spec n :
  n <= 2 ^ 31 -> exists k, 0 <= k <= 31 /\ SNAP_ROUNDUP_POW2 n = 2 ^ k /\ n <= 2 ^ k /\
    (k = 0 \/ 2 ^ (k - 1) < n).
Proof. intros Hn. apply (roundup_pow2_loop_spec n 32 0); auto; lia. Qed.

(** Rounding down to a power of two, as an integer division. *)
Lemma SNAP_ALIGN_FLOOR_pow2 v k :
  0 <= v < 2 ^ 64 -> 0 <= k < 64 ->
  SNAP_ALIGN_FLOOR v (2 ^ k) = v / 2 ^ k * 2 ^ k.
Proof.
  intros Hv Hk. unfold SNAP_ALIGN_FLOOR.
  assert (2 ^ k < 2 ^ 64) by (apply Z.pow_lt_mono_r; lia).
  rewrite (u64_small (2 ^ k - 1)) by lia.
  unfold u64, uwrap. rewrite <- Z.land_ones by lia.
  replace (2 ^ k - 1) with (Z.ones k) by (rewrite Z.ones_equiv; lia).
  rewrite (Z.land_comm (Z.lnot _)), Z.land_assoc, Z.land_ones, Z.mod_small by lia.
  rewrite <- Z.ldiff_land, Z.ldiff_ones_r by lia.
  by rewrite Z.shiftl_mul_pow2, Z.shiftr_div_pow2 by lia.
Qed.

Lemma SNAP_ALIGN_FLOOR_bounds v k :
  0 <= v < 2 ^ 64 -> 0 <= k < 64 ->
  SNAP_ALIGN_FLOOR v (2 ^ k) <= v < SNAP_ALIGN_FLOOR v (2 ^ k) + 2 ^ k.
Proof.
  intros Hv Hk. rewrite SNAP_ALIGN_FLOOR_pow2 by done.
  assert (0 < 2 ^ k) by (apply Z.pow_pos_nonneg; lia).
  pose proof (Z.mod_pos_bound v (2 ^ k)). pose proof (Z.div_mod v (2 ^ k)). lia.
Qed.

(** Rounding up, when the sum does not wrap. *)
Lemma SNAP_ALIGN_CEIL_pow2 v k :
  0 <= v -> 0 <= k < 64 -> v + 2 ^ k <= 2 ^ 64 ->
  SNAP_ALIGN_CEIL v (2 ^ k) = (v + 2 ^ k - 1) / 2 ^ k * 2 ^ k.
Proof.
  intros Hv Hk Hmax. unfold SNAP_ALIGN_CEIL.
  assert (0 < 2 ^ k) by (apply Z.pow_pos_nonneg; lia).
  rewrite (u64_small (2 ^ k - 1)), u64_small by lia.
  rewrite SNAP_ALIGN_FLOOR_pow2 by lia.
  by rewrite Z.add_sub_assoc.
Qed.

(** ** Sums *)

Lemma sumZ_cons x l : sumZ (x :: l) = x + sumZ l.
Proof. done. Qed.

Lemma sumZ_app l1 l2 : sumZ (l1 ++ l2) = sumZ l1 + sumZ l2.
Proof. induction l1 as [|x l1 IH]; simpl; [done|]. rewrite IH. lia. Qed.

Lemma sumZ_nonneg l : Forall (fun x => 0 <= x) l -> 0 <= sumZ l.
Proof. induction 1; simpl; lia. Qed.

Lemma sumZ_take_le l n : Forall (fun x => 0 <= x) l -> sumZ (take n l) <= sumZ l.
Proof.
  intros Hl. rewrite <- (take_drop n l) at 2. rewrite sumZ_app.
  pose proof (sumZ_nonneg (drop n l) (Forall_drop _ n _ Hl)). lia.
Qed.

#[export] Hint Rewrite sumZ_cons sumZ_app : snap.

(** ** Lists *)

Lemma map_add_seq a n : forall b, map (Nat.add a) (seq b n) = seq (a + b)%nat n.
Proof. induction n as [|n IH]; intros b; cbn; [done|]. by rewrite IH, Nat.add_succ_r. Qed.

Lemma list_insert_lookup_alter {A} (f : A -> A) (l : list A) : forall i d,
  l !! i = Some d -> <[i := f d]> l = alter f i l.
Proof.
  induction l as [|x l IH]; intros [|i] d Hd; cbn in *; simplify_eq; [done|].
  f_equal. by apply IH.
Qed.

(** ** Address ranges *)

Lemma addr_seq_length a n : 0 <= n -> Z.of_nat (length (addr_seq a n)) = n.
Proof. intros Hn. unfold addr_seq. rewrite length_map, length_seq. lia. Qed.

Lemma addr_seq_u64 a n : addr_seq (u64 a) n = addr_seq a n.
Proof. apply map_ext. intros k. apply u64_add_l. Qed.

(** A range is the concatenation of its two parts. *)
Lemma addr_seq_split a n k :
  0 <= k <= n -> addr_seq a n = addr_seq a k ++ addr_seq (a + k) (n - k).
Proof.
  intros Hk. unfold addr_seq.
  replace (Z.to_nat n) with (Z.to_nat k + Z.to_nat (n - k))%nat by lia.
  rewrite seq_app, map_app. f_equal.
  replace (seq (0 + Z.to_nat k) (Z.to_nat (n - k)))
    with (map (Nat.add (Z.to_nat k)) (seq 0 (Z.to_nat (n - k))))
    by (rewrite map_add_seq; f_equal; lia).
  rewrite map_map. apply map_ext. intros i. f_equal. lia.
Qed.

(** ** Arrays *)

Lemma aset_Some {A} (l : list A) i x :
  (i < length l)%nat -> aset l i x = Some (<[i := x]> l).
Proof. intros H. unfold aset. by rewrite decide_True. Qed.

Lemma aset_None {A} (l : list A) i x : (length l <= i)%nat -> aset l i x = None.
Proof. intros H. unfold aset. rewrite decide_False; [done|lia]. Qed.

Lemma aset_length {A} (l l' : list A) i x : aset l i x = Some l' -> length l' = length l.
Proof. unfold aset. case_decide; [|done]. intros [= <-]. apply length_insert. Qed.

(** Assigning the element that follows a prefix. *)
Lemma aset_middle {A} (l1 l2 : list A) i x y :
  length l1 = i -> aset (l1 ++ x :: l2) i y = Some (l1 ++ y :: l2).
Proof.
  intros <-. rewrite aset_Some by (rewrite length_app; simpl; lia).
  f_equal. by rewrite insert_app_r_alt, Nat.sub_diag by lia.
Qed.

Lemma lookup_middle {A} (l1 l2 : list A) i x :
  length l1 = i -> (l1 ++ x :: l2) !! i = Some x.
Proof. intros <-. by apply list_lookup_middle. Qed.

(** ** Reachability *)

Lemma star_trans {S} (R : S -> S -> Prop) s1 s2 s3 :
  star R s1 s2 -> star R s2 s3 -> star R s1 s3.
Proof. induction 1; eauto using star. Qed.

(** An invariant holds in every reachable state. *)
Lemma star_invariant {S} (R : S -> S -> Prop) (I : S -> Prop) s s' :
  (forall a b, I a -> R a b -> I b) -> I s -> star R s s' -> I s'.
Proof. intros Hpres HI. induction 1; eauto. Qed.
