(* ===== verification/Effects.v ===== *)
(** Operations with state and errors, the lists of sys/queue.h, and postconditions.

    The controller and the admin queue are written in the monad [M]; [post m P s] says that
    the operation [m] returns when it is run in [s], without undefined behaviour, and that
    its result satisfies [P]. *)

From S2P Require Import Prelude.

(** * A monad of state and errors

    [Oob] is undefined behaviour (freed memory, a lock that is not held), [OutOfFuel] a
    call that does not return (a lock that is held already). *)
Definition M (S A : Type) : Type := S -> res (S * A).

Definition mreturn {S A} (a : A) : M S A := fun s => Ok (s, a).
Definition m_bind {S A B} (m : M S A) (f : A -> M S B) : M S B :=
  fun s => let? r := m s in let '(s', a) := r in f a s'.
Definition gets {S A} (f : S -> A) : M S A := fun s => Ok (s, f s).
Definition modify {S} (f : S -> S) : M S unit := fun s => Ok (f s, tt).
Definition undefined {S A} : M S A := fun _ => Oob.
Definition never_returns {S A} : M S A := fun _ => OutOfFuel.

Notation "'let!' x ':=' m 'in' k" := (m_bind m (fun x => k))
  (at level 100, x binder, m at next level, right associativity) : snap_scope.
Notation "'do!' m 'in' k" := (m_bind m (fun _ => k))
  (at level 100, m at next level, right associativity) : snap_scope.

Definition m_res {S A} (r : res A) : M S A := fun s => let? a := r in Ok (s, a).
Definition m_when {S} (b : bool) (m : M S unit) : M S unit := if b then m else mreturn tt.
Definition m_opt {S A} (dflt : M S A) (o : option A) : M S A := match o with Some a => mreturn a | None => dflt end.

(** [TAILQ_REMOVE] of an element of the list. *)
Fixpoint TAILQ_REMOVE (x : nat) (l : list nat) : option (list nat) :=
  match l with
  | [] => None
  | y :: l => if decide (x = y) then Some l else l' ← TAILQ_REMOVE x l; Some (y :: l')
  end.

Lemma tailq_remove_ok x l : x ∈ l -> exists l1 l2, l = l1 ++ x :: l2 /\ TAILQ_REMOVE x l = Some (l1 ++ l2).
Proof.
  induction l as [|y l IH]; [by intros ?%elem_of_nil|]. cbn [TAILQ_REMOVE]. destruct (decide (x = y)) as [<-|Hne].
  - intros _. by exists [], l.
  - intros [?|Hx]%elem_of_cons; [done|]. destruct (IH Hx) as (l1 & l2 & -> & ->). by exists (y :: l1), l2.
Qed.

Lemma tailq_remove_mid x l1 l2 : x ∉ l1 -> TAILQ_REMOVE x (l1 ++ x :: l2) = Some (l1 ++ l2).
Proof.
  induction l1 as [|y l1 IH]; cbn [app TAILQ_REMOVE]; intros Hx; [by rewrite decide_True|].
  apply not_elem_of_cons in Hx as [Hne Hx]. by rewrite decide_False, IH.
Qed.

(** * Postconditions *)

Definition post {S A} (m : M S A) (P : A -> S -> Prop) (s : S) : Prop :=
  match m s with Ok (s', a) => P a s' | _ => False end.

Section Post.
Context {S : Type}.

Lemma post_mono {A} (m : M S A) (P P' : A -> S -> Prop) s :
  post m P s -> (forall a s', P a s' -> P' a s') -> post m P' s.
Proof. unfold post. destruct (m s) as [[s' a]| | |]; auto. Qed.

Lemma post_bind {A B} (m : M S A) (f : A -> M S B) P s :
  post m (fun a s' => post (f a) P s') s -> post (m_bind m f) P s.
Proof. unfold post, m_bind. by destruct (m s) as [[s' a]| | |]. Qed.

Lemma post_bind_mono {A B} (m : M S A) (f : A -> M S B) P P' s :
  post m P s -> (forall a s', P a s' -> post (f a) P' s') -> post (m_bind m f) P' s.
Proof. intros Hm Hf. apply post_bind. eapply post_mono; eauto. Qed.

Lemma post_return {A} (a : A) (P : A -> S -> Prop) s : P a s -> post (mreturn a) P s.
Proof. done. Qed.

Lemma post_gets {A B} (g : S -> A) (f : A -> M S B) P s : post (f (g s)) P s -> post (m_bind (gets g) f) P s.
Proof. done. Qed.

Lemma post_modify {B} (g : S -> S) (f : unit -> M S B) P s : post (f tt) P (g s) -> post (m_bind (modify g) f) P s.
Proof. done. Qed.

Lemma post_assoc {A B B'} (m : M S A) (f : A -> M S B) (g : B -> M S B') P s :
  post (m_bind m (fun a => m_bind (f a) g)) P s -> post (m_bind (m_bind m f) g) P s.
Proof. unfold post, m_bind. by destruct (m s) as [[s' a]| | |]. Qed.

Lemma post_nest {A B B'} (m : M S A) (f : A -> M S B) (g : B -> M S B') P s :
  post (m_bind (m_bind m f) g) P s -> post (m_bind m (fun a => m_bind (f a) g)) P s.
Proof. unfold post, m_bind. by destruct (m s) as [[s' a]| | |]. Qed.

Lemma post_seq {A B B' C} (m1 : M S A) (m2 : M S B) (m3 : A -> M S B') (k : M S C) R P s :
  post (let! g := m1 in do! m2 in m3 g) R s -> (forall b s', R b s' -> post k P s') ->
  post (let! g := m1 in do! m2 in do! m3 g in k) P s.
Proof.
  unfold post, m_bind. destruct (m1 s) as [[s1 g]| | |]; cbn [res_bind]; try done.
  destruct (m2 s1) as [[s2 b]| | |]; cbn [res_bind]; try done. destruct (m3 g s2) as [[s3 b']| | |]; cbn [res_bind]; try done. intros Hr Hk. exact (Hk _ _ Hr).
Qed.

Lemma post_run {A} (m : M S A) P s : post m P s -> exists s' a, m s = Ok (s', a) /\ P a s'.
Proof. unfold post. destruct (m s) as [[s' a]| | |]; [eauto|done..]. Qed.

Lemma run_post {A} (m : M S A) P s s' a : post m P s -> m s = Ok (s', a) -> P a s'.
Proof. intros Hp Hrun. unfold post in Hp. by rewrite Hrun in Hp. Qed.

End Post.

(** * Observations that an operation does not change *)

Section Preserves.
Context {S B : Type} (f : S -> B).

Definition preserves {A} (m : M S A) : Prop := forall s s' a, m s = Ok (s', a) -> f s' = f s.

Lemma preserves_bind {A A'} (m : M S A) (k : A -> M S A') : preserves m -> (forall a, preserves (k a)) -> preserves (m_bind m k).
Proof.
  intros Hm Hk s s' a' Hrun. unfold m_bind in Hrun. destruct (m s) as [[s1 a]| | |] eqn:E; try done.
  cbn in Hrun. rewrite (Hk _ _ _ _ Hrun). by eapply Hm.
Qed.
Lemma preserves_return {A} (a : A) : preserves (mreturn a).
Proof. by intros s s' a' [= <- _]. Qed.
Lemma preserves_gets {A} (g : S -> A) : preserves (gets g).
Proof. by intros s s' a' [= <- _]. Qed.
Lemma preserves_modify (g : S -> S) : (forall s, f (g s) = f s) -> preserves (modify g).
Proof. intros Hg s s' a' [= <- _]. apply Hg. Qed.
Lemma preserves_undefined {A} : preserves (@undefined S A).
Proof. by intros s s' a'. Qed.
Lemma preserves_never {A} : preserves (@never_returns S A).
Proof. by intros s s' a'. Qed.
Lemma preserves_res {A} (r : res A) : preserves (m_res r).
Proof. intros s s' a'. unfold m_res. destruct r; cbn; try done. by intros [= <- _]. Qed.

Lemma post_preserves {A} (m : M S A) P s : preserves m -> post m P s -> post m (fun a s' => P a s' /\ f s' = f s) s.
Proof. intros Hm Hp. destruct (post_run m P s Hp) as (s' & a & Hrun & Hpa). unfold post. rewrite Hrun. split; [done|]. by eapply Hm. Qed.

End Preserves.

Create HintDb preserves discriminated.
#[export] Hint Resolve preserves_return preserves_gets preserves_undefined preserves_never preserves_res : preserves.

(** Decompose an operation down to its changes of the state, which are computed. *)
Ltac solve_preserves :=
  repeat (first
    [ assumption
    | solve [auto 2 with preserves nocore]
    | apply preserves_bind; [|intros ?]
    | apply preserves_modify; reflexivity
    | match goal with |- preserves _ (match ?x with _ => _ end) => destruct x end ]).
