(* ===== verification/Bytes.v ===== *)
(** Memory as bytes: little-endian numbers, packed structures and a buffer that is read and
    written at an offset.  Used for the state that live migration transfers. *)

From S2P Require Import Prelude.

(** * Little-endian numbers *)

Fixpoint le (n : nat) (x : Z) : list Z :=
  match n with O => [] | S n' => x mod 2 ^ 8 :: le n' (x / 2 ^ 8) end.

Fixpoint unle (l : list Z) : Z :=
  match l with [] => 0 | b :: l' => b + 2 ^ 8 * unle l' end.

Lemma le_length n : forall x, length (le n x) = n.
Proof. induction n as [|n IH]; intros x; cbn [le length]; [done|]. by rewrite IH. Qed.

Lemma unle_le n : forall x, unle (le n x) = x mod 2 ^ (8 * Z.of_nat n).
Proof.
  induction n as [|n IH]; intros x; cbn [le unle]; [by rewrite Z.mod_1_r|]. rewrite IH.
  replace (8 * Z.of_nat (S n)) with (8 + 8 * Z.of_nat n) by lia.
  rewrite Z.pow_add_r, Z.rem_mul_r by (try apply Z.pow_pos_nonneg; try apply Z.pow_nonzero; lia). lia.
Qed.

Lemma unle_le_small n x : 0 <= x < 2 ^ (8 * Z.of_nat n) -> unle (le n x) = x.
Proof. intros Hx. rewrite unle_le. by apply Z.mod_small. Qed.

(** * Packed structures

    A field is its width in bytes and its value. *)

Definition pack (l : list (nat * Z)) : list Z := concat (map (fun p => le (fst p) (snd p)) l).

Definition width (ws : list nat) : nat := sum_list ws.

(** The values of the fields of the widths [ws] at the start of a list of bytes. *)
Fixpoint unpack (ws : list nat) (l : list Z) : list Z :=
  match ws with [] => [] | w :: ws' => unle (take w l) :: unpack ws' (drop w l) end.

Definition fits (p : nat * Z) : Prop := 0 <= snd p < 2 ^ (8 * Z.of_nat (fst p)).

Lemma pack_cons p l : pack (p :: l) = le (fst p) (snd p) ++ pack l.
Proof. done. Qed.

Lemma pack_length l : length (pack l) = width (map fst l).
Proof. induction l as [|p l IH]; [done|]. rewrite pack_cons, length_app, le_length, IH. done. Qed.

Lemma unpack_pack l : forall rest, Forall fits l -> unpack (map fst l) (pack l ++ rest) = map snd l.
Proof.
  induction l as [|[w v] l IH]; intros rest Hf; [done|]. apply Forall_cons in Hf as [Hv Hf].
  rewrite pack_cons, <- app_assoc. cbn [map unpack fst snd].
  rewrite take_app_length', drop_app_length' by (by rewrite le_length).
  rewrite unle_le_small by done. by rewrite IH.
Qed.

(** * Buffers *)

(** [n] bytes at the offset [off]. *)
Definition rd (buf : list Z) (off n : Z) : res (list Z) :=
  if (0 <=? off) && (off + n <=? Z.of_nat (length buf)) then Ok (take (Z.to_nat n) (drop (Z.to_nat off) buf)) else Oob.

(** The bytes [l] stored at the offset [off]. *)
Definition wr (buf : list Z) (off : Z) (l : list Z) : res (list Z) :=
  if (0 <=? off) && (off + Z.of_nat (length l) <=? Z.of_nat (length buf))
  then Ok (take (Z.to_nat off) buf ++ l ++ drop (Z.to_nat off + length l) buf) else Oob.

(** A number of [n] bytes. *)
Definition rd_le (buf : list Z) (off : Z) (n : nat) : res Z :=
  let? l := rd buf off (Z.of_nat n) in Ok (unle l).

(** The fields of a structure. *)
Definition rd_fields (buf : list Z) (off : Z) (ws : list nat) : res (list Z) :=
  let? l := rd buf off (Z.of_nat (width ws)) in Ok (unpack ws l).

(** A buffer is split around the place that is read or written. *)
Lemma rd_mid a b c off n :
  off = Z.of_nat (length a) -> n = Z.of_nat (length b) -> rd (a ++ b ++ c) off n = Ok b.
Proof.
  intros -> ->. unfold rd. rewrite !length_app, !Nat2Z.inj_add.
  rewrite (proj2 (Z.leb_le 0 _)), (proj2 (Z.leb_le (_ + _) _)) by lia. cbn [andb].
  by rewrite !Nat2Z.id, drop_app_length, take_app_length.
Qed.

Lemma wr_mid a b c l off :
  off = Z.of_nat (length a) -> length l = length b -> wr (a ++ b ++ c) off l = Ok (a ++ l ++ c).
Proof.
  intros -> Hl. unfold wr. rewrite !length_app, !Nat2Z.inj_add, Hl.
  rewrite (proj2 (Z.leb_le 0 _)), (proj2 (Z.leb_le (_ + _) _)) by lia. cbn [andb].
  rewrite Nat2Z.id, take_app_length. do 3 f_equal.
  rewrite drop_app_add. by rewrite drop_app_length.
Qed.

Lemma rd_le_mid a c n x off :
  off = Z.of_nat (length a) -> rd_le (a ++ le n x ++ c) off n = Ok (x mod 2 ^ (8 * Z.of_nat n)).
Proof. intros Hoff. unfold rd_le. rewrite rd_mid; [|done|by rewrite le_length]. cbn [res_bind]. by rewrite unle_le. Qed.

Lemma rd_fields_mid a c l off :
  off = Z.of_nat (length a) -> Forall fits l -> rd_fields (a ++ pack l ++ c) off (map fst l) = Ok (map snd l).
Proof.
  intros Hoff Hf. unfold rd_fields. rewrite rd_mid; [|done|by rewrite pack_length]. cbn [res_bind].
  rewrite <- (app_nil_r (pack l)), unpack_pack by done. done.
Qed.

Lemma wr_length buf off l buf' : wr buf off l = Ok buf' -> length buf' = length buf.
Proof.
  unfold wr. destruct ((0 <=? off) && _) eqn:Hb; [|done]. intros [= <-]. bool_to_prop.
  rewrite !length_app, length_take, length_drop. lia.
Qed.

(** At the start of a buffer. *)
Lemma rd_le_start n x c : rd_le (le n x ++ c) 0 n = Ok (x mod 2 ^ (8 * Z.of_nat n)).
Proof. exact (rd_le_mid [] c n x 0 eq_refl). Qed.

Lemma wr_start b c l : length l = length b -> wr (b ++ c) 0 l = Ok (l ++ c).
Proof. exact (wr_mid [] b c l 0 eq_refl). Qed.
