(* ===== verification/BlkDescs.v ===== *)
(** Descriptor processing of the block virtqueue
    (src/ctrl/snap_virtio_blk_virtq.c, src/ctrl/virtq_common.c): splitting the
    request header and footer from the data, merging adjacent data
    descriptors in place, and walking descriptor tables. *)

From S2P Require Import Prelude.

(** * Data *)

(** [struct vring_desc] of linux/virtio_ring.h: a 64-bit address, a 32-bit
    length, 16-bit flags and a 16-bit index of the next descriptor. *)
Record vring_desc := mk_desc {
  d_addr : Z;
  d_len : Z;
  d_flags : Z;
  d_next : Z
}.

#[export] Instance vring_desc_eq_dec : EqDecision vring_desc.
Proof. solve_decision. Defined.

Definition VRING_DESC_F_NEXT : Z := 1.
Definition VRING_DESC_F_WRITE : Z := 2.
Definition VRING_DESC_F_INDIRECT : Z := 4.

(** [sizeof] of the structures the code computes with. *)
Definition sizeof_vring_desc : Z := 16.
Definition sizeof_virtio_blk_outhdr : Z := 16.
Definition sizeof_virtio_blk_outftr : Z := 1.

Definition NUM_HDR_FTR_DESCS : nat := 2.
Definition VIRTIO_NUM_DESC (seg_max : nat) : nat := (seg_max + NUM_HDR_FTR_DESCS)%nat.

(** * In-place merge of sequential data descriptors *)

(** The condition of the merge: [d] starts where [m] ends and goes in the
    same direction. *)
Definition desc_mergeable (m d : vring_desc) : bool :=
  (d_addr d =? u64 (d_addr m + d_len m))
  && (Z.land (d_flags m) VRING_DESC_F_WRITE =? Z.land (d_flags d) VRING_DESC_F_WRITE).

Definition desc_merge (m d : vring_desc) : vring_desc :=
  mk_desc (d_addr m) (u32 (d_len m + d_len d)) (d_flags m) (d_next d).

(** The local variables of the loop. *)
Record merge_st := mk_merge_st {
  ms_descs : list vring_desc;
  ms_merged_desc_num : Z;
  ms_merged_index : nat;
  ms_index_to_copy_to : nat;
  ms_num_merges : Z
}.

(** One iteration; [None] is an access outside the array. *)
Definition merge_body (i : nat) (s : merge_st) : option merge_st :=
  di ← ms_descs s !! i;
  dm ← ms_descs s !! ms_merged_index s;
  if desc_mergeable dm di then
    descs ← aset (ms_descs s) (ms_merged_index s) (desc_merge dm di);
    Some (mk_merge_st descs (u32 (ms_merged_desc_num s - 1)) (ms_merged_index s)
            (ms_index_to_copy_to s) (u32 (ms_num_merges s + 1)))
  else
    descs ← (if (i =? ms_index_to_copy_to s)%nat then Some (ms_descs s)
             else aset (ms_descs s) (ms_index_to_copy_to s) di);
    Some (mk_merge_st descs (ms_merged_desc_num s) (ms_index_to_copy_to s)
            (S (ms_index_to_copy_to s)) (ms_num_merges s)).

Fixpoint merge_loop (n i : nat) (s : merge_st) : option (nat * merge_st) :=
  match n with
  | O => Some (i, s)
  | S n' => s' ← merge_body i s; merge_loop n' (S i) s'
  end.

(** [for (i = 2; i < num_desc - 1; i++)] makes [num_desc - 3] iterations when
    [num_desc >= 1]; for [num_desc = 0] the unsigned bound wraps and the loop
    runs out of the array. *)
Definition virtq_sequential_data_descs_merge (descs : list vring_desc) (num_desc : nat)
  : option (list vring_desc * Z * Z) :=
  match num_desc with
  | O => None
  | S _ =>
    '(i, s) ← merge_loop (num_desc - 3) 2
                (mk_merge_st descs (u32 (Z.of_nat num_desc)) 1 2 0);
    descs' ← (if (i =? ms_index_to_copy_to s)%nat then Some (ms_descs s)
              else d ← ms_descs s !! i; aset (ms_descs s) (ms_index_to_copy_to s) d);
    Some (descs', ms_merged_desc_num s, ms_num_merges s)
  end.

(** The reference: merge along the list of data descriptors. *)
Fixpoint merge_data (cur : vring_desc) (l : list vring_desc) : list vring_desc :=
  match l with
  | [] => [cur]
  | d :: l' => if desc_mergeable cur d then merge_data (desc_merge cur d) l'
               else cur :: merge_data d l'
  end.

(** * Separating header, data and footer *)

(** [for (i = num_desc; i > 0; i--)]: move every descriptor one slot up,
    leaving the [next] fields in place. *)
Fixpoint shift_descs (i : nat) (descs : list vring_desc) : option (list vring_desc) :=
  match i with
  | O => Some descs
  | S i' =>
    src ← descs !! i';
    dst ← descs !! i;
    descs' ← aset descs i (mk_desc (d_addr src) (d_len src) (d_flags src) (d_next dst));
    shift_descs i' descs'
  end.

Definition upd_desc (descs : list vring_desc) (i : nat) (f : vring_desc -> vring_desc)
  : option (list vring_desc) :=
  d ← descs !! i; aset descs i (f d).

Definition set_len (l : Z) (d : vring_desc) := mk_desc (d_addr d) l (d_flags d) (d_next d).
Definition set_addr (a : Z) (d : vring_desc) := mk_desc a (d_len d) (d_flags d) (d_next d).
Definition set_flags (f : Z) (d : vring_desc) := mk_desc (d_addr d) (d_len d) f (d_next d).
Definition set_next (n : Z) (d : vring_desc) := mk_desc (d_addr d) (d_len d) (d_flags d) n.

(** The branch of [virtq_blk_process_desc] for a header that carries data. *)
Definition split_header (descs : list vring_desc) (num_desc : nat) : option (list vring_desc) :=
  descs ← shift_descs num_desc descs;
  descs ← upd_desc descs 0 (set_len sizeof_virtio_blk_outhdr);
  descs ← upd_desc descs 1 (fun d => set_addr (u64 (d_addr d + sizeof_virtio_blk_outhdr)) d);
  descs ← upd_desc descs 1 (fun d => set_len (u32 (d_len d - sizeof_virtio_blk_outhdr)) d);
  descs ← upd_desc descs (num_desc - 1) (fun d => set_flags (Z.lor (d_flags d) VRING_DESC_F_NEXT) d);
  descs ← upd_desc descs (num_desc - 1) (set_next (u16 (Z.of_nat num_desc)));
  upd_desc descs num_desc (set_next 0).

(** The branch for a footer that carries data. *)
Definition split_footer (descs : list vring_desc) (num_desc : nat) : option (list vring_desc) :=
  descs ← upd_desc descs (num_desc - 1)
            (fun d => set_len (u32 (d_len d - sizeof_virtio_blk_outftr)) d);
  descs ← upd_desc descs (num_desc - 1) (fun d => set_flags (Z.lor (d_flags d) VRING_DESC_F_NEXT) d);
  descs ← upd_desc descs (num_desc - 1) (set_next (u16 (Z.of_nat num_desc)));
  last ← descs !! (num_desc - 1)%nat;
  descs ← upd_desc descs num_desc (set_addr (u64 (d_addr last + d_len last)));
  descs ← upd_desc descs num_desc (set_len sizeof_virtio_blk_outftr);
  upd_desc descs num_desc (set_flags (d_flags last)).

(** Result: the descriptors, their number, and the number of merges, which is
    left as it was when nothing is merged. *)
Definition virtq_blk_process_desc (descs : list vring_desc) (num_desc : nat)
    (num_merges : Z) (merge_descs : bool) : option (list vring_desc * Z * Z) :=
  if (num_desc <? NUM_HDR_FTR_DESCS)%nat then
    Some (descs, Z.of_nat num_desc, num_merges)
  else
    first ← descs !! 0%nat;
    '(descs', n) ←
      (if negb (d_len first =? sizeof_virtio_blk_outhdr) then
         ds ← split_header descs num_desc; Some (ds, S num_desc)
       else
         last ← descs !! (num_desc - 1)%nat;
         if negb (d_len last =? sizeof_virtio_blk_outftr) then
           ds ← split_footer descs num_desc; Some (ds, S num_desc)
         else Some (descs, num_desc));
    if merge_descs then virtq_sequential_data_descs_merge descs' n
    else Some (descs', Z.of_nat n, num_merges).

(** [for (i = 1; i < num_desc - 1; i++) total_seg_len += descs[i].len]. *)
Definition total_data_len (descs : list vring_desc) (num_desc : nat) (total : Z) : Z :=
  fold_left (fun t d => u32 (t + d_len d)) (take (num_desc - 2) (drop 1 descs)) total.

(** * Walking a descriptor table *)

(** [arrange_descs]: follow the [next] indices from the head until a
    descriptor without the NEXT flag. The code checks no index: one outside
    the table is [Oob]. *)
Fixpoint arrange_loop (fuel : nat) (table : list vring_desc) (curr : vring_desc)
    (arranged : list vring_desc) : res (list vring_desc) :=
  match fuel with
  | O => OutOfFuel
  | S fuel' =>
    if has_flag (d_flags curr) VRING_DESC_F_NEXT then
      match table !! Z.to_nat (d_next curr) with
      | Some d => arrange_loop fuel' table d (arranged ++ [d])
      | None => Oob
      end
    else Ok arranged
  end.

Definition arrange_descs (fuel : nat) (table : list vring_desc) (header_idx : Z)
  : res (list vring_desc) :=
  match table !! Z.to_nat header_idx with
  | Some d => arrange_loop fuel table d [d]
  | None => Oob
  end.

(** * Meaning of descriptors

    The guest-memory bytes a descriptor denotes, in order, each with the
    direction of the transfer ([true]: the device writes it). *)
Definition desc_bytes (d : vring_desc) : list (Z * bool) :=
  map (fun a => (a, has_flag (d_flags d) VRING_DESC_F_WRITE)) (addr_seq (d_addr d) (d_len d)).

Definition chain_bytes (l : list vring_desc) : list (Z * bool) := flat_map desc_bytes l.

(** Field ranges of a descriptor. *)
Definition desc_wf (d : vring_desc) : Prop :=
  0 <= d_addr d < 2 ^ 64 /\ 0 <= d_len d < 2 ^ 32.

Definition data_len (l : list vring_desc) : Z := sumZ (map d_len l).

(** * Lemmas on the merge *)

Lemma desc_mergeable_dir m d :
  desc_mergeable m d = true ->
  d_addr d = u64 (d_addr m + d_len m) /\
  has_flag (d_flags d) VRING_DESC_F_WRITE = has_flag (d_flags m) VRING_DESC_F_WRITE.
Proof.
  unfold desc_mergeable, has_flag. intros H. bool_to_prop. split; [done|congruence].
Qed.

Lemma desc_merge_bytes m d :
  desc_wf m -> desc_wf d -> d_len m + d_len d < 2 ^ 32 -> desc_mergeable m d = true ->
  desc_bytes (desc_merge m d) = desc_bytes m ++ desc_bytes d.
Proof.
  intros [_ Hm] [_ Hd] Hsum [Haddr Hdir]%desc_mergeable_dir.
  unfold desc_bytes, desc_merge; cbn [d_addr d_len d_flags].
  rewrite u32_small, (addr_seq_split _ (d_len m + d_len d) (d_len m)), map_app by lia.
  rewrite Hdir, Haddr, addr_seq_u64. by replace (d_len m + d_len d - d_len m) with (d_len d) by lia.
Qed.

Lemma desc_merge_wf m d :
  desc_wf m -> desc_wf d -> d_len m + d_len d < 2 ^ 32 -> desc_wf (desc_merge m d).
Proof.
  intros [Ha Hm] [_ Hd] Hsum. unfold desc_wf; cbn. rewrite u32_small by lia. lia.
Qed.

Lemma data_len_cons d l : data_len (d :: l) = d_len d + data_len l.
Proof. done. Qed.

Lemma data_len_nonneg l : Forall desc_wf l -> 0 <= data_len l.
Proof. induction 1 as [|d l [_ ?] ? IH]; [done|]. rewrite data_len_cons. lia. Qed.

(** Merging along a list keeps the bytes, their order and their direction. *)
Lemma merge_data_bytes l : forall cur,
  desc_wf cur -> Forall desc_wf l -> d_len cur + data_len l < 2 ^ 32 ->
  chain_bytes (merge_data cur l) = desc_bytes cur ++ chain_bytes l.
Proof.
  induction l as [|d l IH]; intros cur Hcur Hl Hsum; cbn; [done|].
  inversion Hl as [|? ? Hd Hl']; subst. rewrite data_len_cons in Hsum.
  pose proof (data_len_nonneg l Hl').
  destruct (desc_mergeable cur d) eqn:E; cbn.
  - pose proof Hcur as [_ ?]. pose proof Hd as [_ ?].
    assert (d_len cur + d_len d < 2 ^ 32) by lia.
    rewrite IH by (try apply desc_merge_wf; cbn; try rewrite u32_small; done || lia).
    by rewrite desc_merge_bytes, app_assoc by done.
  - f_equal. rewrite IH; [done..|]. destruct Hcur; lia.
Qed.

Lemma merge_data_length cur l : (1 <= length (merge_data cur l) <= S (length l))%nat.
Proof. revert cur. induction l as [|d l IH]; intros cur; cbn; [lia|]. 
  destruct (desc_mergeable cur d); cbn; [specialize (IH (desc_merge cur d))|specialize (IH d)]; lia.
Qed.

(** One iteration on an array split at the current descriptor: [junk] are the
    slots between it and the descriptor under inspection. *)
Lemma merge_body_step pre cur junk d rest mdn nm :
  let m := length pre in
  0 < mdn < 2 ^ 32 -> 0 <= nm < 2 ^ 32 - 1 ->
  exists junk',
    merge_body (S m + length junk)
      (mk_merge_st (pre ++ cur :: junk ++ d :: rest) mdn m (S m) nm) =
    Some (if desc_mergeable cur d
          then mk_merge_st (pre ++ desc_merge cur d :: junk' ++ rest) (mdn - 1) m (S m) (nm + 1)
          else mk_merge_st ((pre ++ [cur]) ++ d :: junk' ++ rest) mdn (S m) (S (S m)) nm)
    /\ length junk' = (length junk + if desc_mergeable cur d then 1 else 0)%nat.
Proof.
  intros m Hmdn Hnm. unfold merge_body; cbn [ms_descs ms_merged_index ms_index_to_copy_to].
  replace ((pre ++ cur :: junk ++ d :: rest) !! (S m + length junk)%nat) with (Some d).
  2:{ change (cur :: junk ++ d :: rest) with ((cur :: junk) ++ d :: rest).
      rewrite app_assoc. symmetry. apply lookup_middle.
      rewrite length_app. cbn. lia. }
  rewrite (lookup_middle pre _ m) by done. cbn [mbind option_bind].
  destruct (desc_mergeable cur d) eqn:E.
  - rewrite aset_middle by done. cbn. exists (junk ++ [d]).
    rewrite !u32_small by (cbn in *; lia).
    rewrite length_app, <- app_assoc; cbn. split; [done|lia].
  - destruct junk as [|x junk]; cbn [length Nat.add app].
    + exists []. rewrite Nat.add_0_r, Nat.eqb_refl. cbn. by rewrite <- app_assoc.
    + exists (junk ++ [d]).
      replace (_ =? _)%nat with false by (symmetry; apply Nat.eqb_neq; lia).
      replace (pre ++ cur :: x :: junk ++ d :: rest)
        with ((pre ++ [cur]) ++ x :: junk ++ d :: rest) by by rewrite <- app_assoc.
      rewrite aset_middle by (rewrite length_app; cbn; lia). cbn.
      rewrite length_app, <- !app_assoc; cbn. split; [done|lia].
Qed.

(** Rewrite the loop counter of the goal to an equal one. *)
Ltac loop_index e :=
  match goal with |- context [merge_loop _ ?i _] => replace i with e by lia end.

(** The loop computes the reference merge in the slots it has read. *)
Lemma merge_loop_spec rest : forall pre cur junk tl mdn nm,
  let m := length pre in
  Z.of_nat (length rest) < mdn < 2 ^ 32 ->
  0 <= nm -> nm + Z.of_nat (length rest) < 2 ^ 32 ->
  let out := merge_data cur rest in
  let k := (S (length rest) - length out)%nat in
  exists junk',
    merge_loop (length rest) (S m + length junk)
      (mk_merge_st (pre ++ cur :: junk ++ rest ++ tl) mdn m (S m) nm) =
    Some ((S m + length junk + length rest)%nat,
          mk_merge_st (pre ++ out ++ junk' ++ tl) (mdn - Z.of_nat k)
            (m + length out - 1)%nat (m + length out)%nat (nm + Z.of_nat k))
    /\ length junk' = (length junk + k)%nat.
Proof.
  induction rest as [|d rest IH]; intros pre cur junk tl mdn nm m Hmdn Hnm Hmax out k.
  { exists junk. subst out k; cbn. split; [|lia]. do 2 f_equal; [lia|]. f_equal; lia. }
  destruct (merge_body_step pre cur junk d (rest ++ tl) mdn nm) as (junk1 & Hbody & Hj1);
    [cbn in *; lia..|].
  cbn [length merge_loop app] in *. fold m in Hbody. rewrite Hbody. cbn [mbind option_bind].
  subst out k. cbn [merge_data]. destruct (desc_mergeable cur d) eqn:E.
  - destruct (IH pre (desc_merge cur d) junk1 tl (mdn - 1) (nm + 1)) as (junk' & Hloop & Hj');
      [lia..|].
    fold m in Hloop. pose proof (merge_data_length (desc_merge cur d) rest).
    exists junk'. loop_index (S m + length junk1)%nat. rewrite Hloop. split; [|lia].
    do 2 f_equal; [lia|]. f_equal; lia.
  - destruct (IH (pre ++ [cur]) d junk1 tl mdn nm) as (junk' & Hloop & Hj'); [lia..|].
    rewrite length_app in Hloop; cbn [length] in Hloop.
    replace (length pre + 1)%nat with (S m) in Hloop by lia.
    pose proof (merge_data_length d rest).
    exists junk'. loop_index (S (S m) + length junk1)%nat. rewrite Hloop. cbn [length]. split; [|lia].
    rewrite <- !app_assoc; cbn [app]. do 2 f_equal; [lia|]. f_equal; lia.
Qed.

(** The in-place routine on a request with a header [h], data descriptors
    [d :: mid] and a footer [f]: the header stays, the data part becomes the
    reference merge, the footer follows it, and the slots after are spare. *)
Lemma merge_in_place h d mid f tl :
  let n := (length mid + 3)%nat in
  let out := merge_data d mid in
  Z.of_nat n < 2 ^ 32 ->
  exists tl',
    virtq_sequential_data_descs_merge (h :: d :: mid ++ f :: tl) n =
    Some (h :: out ++ f :: tl', Z.of_nat (length out + 2), Z.of_nat (S (length mid) - length out))
    /\ length (h :: out ++ f :: tl') = length (h :: d :: mid ++ f :: tl).
Proof.
  intros n out Hn. unfold virtq_sequential_data_descs_merge.
  destruct n as [|n'] eqn:En; [lia|]. rewrite <- En in *. clear n' En.
  replace (n - 3)%nat with (length mid) by lia.
  destruct (merge_loop_spec mid [h] d [] (f :: tl) (Z.of_nat n) 0) as (junk & Hloop & Hj);
    [cbn; lia..|].
  cbn [app length Nat.add] in Hloop, Hj. rewrite u32_small by lia. rewrite Hloop.
  cbn [mbind option_bind ms_descs ms_index_to_copy_to ms_merged_desc_num ms_num_merges].
  fold out in Hj |- *. pose proof (merge_data_length d mid) as Hlen. fold out in Hlen.
  replace (Z.of_nat n - Z.of_nat (S (length mid) - length out))
    with (Z.of_nat (length out + 2)) by lia.
  rewrite Z.add_0_l.
  destruct junk as [|x junk]; cbn [length] in Hj.
  - replace (_ =? _)%nat with true by (symmetry; apply Nat.eqb_eq; lia).
    exists tl. cbn. rewrite !length_app; cbn. split; [done|lia].
  - replace (_ =? _)%nat with false by (symmetry; apply Nat.eqb_neq; lia).
    replace ((h :: out ++ (x :: junk) ++ f :: tl) !! S (S (length mid))) with (Some f).
    2:{ replace (h :: out ++ (x :: junk) ++ f :: tl) with ((h :: out ++ x :: junk) ++ f :: tl)
          by (cbn; by rewrite <- app_assoc).
        symmetry. apply lookup_middle. cbn. rewrite length_app. cbn. lia. }
    cbn [mbind option_bind app].
    replace (h :: out ++ x :: junk ++ f :: tl) with ((h :: out) ++ x :: junk ++ f :: tl) by done.
    rewrite aset_middle by done.
    exists (junk ++ f :: tl). cbn. rewrite !length_app; cbn. rewrite !length_app; cbn.
    split; [done|lia].
Qed.

(** A request without data descriptors is left alone. *)
Lemma merge_no_data h f tl :
  virtq_sequential_data_descs_merge (h :: f :: tl) 2 = Some (h :: f :: tl, 2, 0).
Proof. reflexivity. Qed.

(** * Lemmas on the separation of header and footer *)

(** The fields the bytes of a descriptor depend on. *)
Definition desc_key (d : vring_desc) : Z * Z * Z := (d_addr d, d_len d, d_flags d).

Lemma desc_bytes_key d1 d2 : desc_key d1 = desc_key d2 -> desc_bytes d1 = desc_bytes d2.
Proof. unfold desc_key, desc_bytes. by intros [= -> -> ->]. Qed.

Lemma chain_bytes_key l1 l2 : map desc_key l1 = map desc_key l2 -> chain_bytes l1 = chain_bytes l2.
Proof.
  revert l2. induction l1 as [|d l1 IH]; intros [|d2 l2]; try done.
  intros [= Ha Hn Hf H2]. cbn. f_equal; [apply desc_bytes_key|by apply IH].
  unfold desc_key. congruence.
Qed.

Lemma desc_wf_key l1 l2 :
  map desc_key l1 = map desc_key l2 -> Forall desc_wf l2 -> Forall desc_wf l1.
Proof.
  revert l2. induction l1 as [|d l1 IH]; intros [|d2 l2]; try done.
  intros [= Ha Hn _ H2] [Hd Hl]%Forall_cons. constructor; [|eauto].
  unfold desc_wf in *. by rewrite Ha, Hn.
Qed.

Lemma chain_bytes_app l1 l2 : chain_bytes (l1 ++ l2) = chain_bytes l1 ++ chain_bytes l2.
Proof. apply flat_map_app. Qed.

(** The NEXT flag does not change the direction. *)
Lemma has_write_lor_next f :
  has_flag (Z.lor f VRING_DESC_F_NEXT) VRING_DESC_F_WRITE = has_flag f VRING_DESC_F_WRITE.
Proof.
  unfold has_flag. do 2 f_equal. rewrite Z.land_lor_distr_l. apply Z.lor_0_r.
Qed.

Lemma upd_desc_app l tl i f :
  (i < length l)%nat -> upd_desc (l ++ tl) i f = Some (alter f i l ++ tl).
Proof.
  intros Hi. unfold upd_desc.
  destruct (lookup_lt_is_Some_2 l i Hi) as [d Hd].
  rewrite lookup_app_l, Hd by done. cbn.
  rewrite aset_Some by (rewrite length_app; lia).
  rewrite insert_app_l by done. by rewrite (list_insert_lookup_alter f l i d).
Qed.

Lemma alter_chain_bytes f l i :
  (forall d, desc_bytes (f d) = desc_bytes d) -> chain_bytes (alter f i l) = chain_bytes l.
Proof.
  intros Hf. revert i. induction l as [|d l IH]; intros [|i]; cbn; [done..| |].
  - by rewrite Hf.
  - f_equal. apply IH.
Qed.

(** Cutting a descriptor in two keeps its bytes. *)
Lemma desc_bytes_split d k d1 d2 :
  desc_wf d -> 0 <= k <= d_len d ->
  desc_key d1 = (d_addr d, k, d_flags d) ->
  desc_key d2 = (u64 (d_addr d + k), u32 (d_len d - k), d_flags d) ->
  desc_bytes d1 ++ desc_bytes d2 = desc_bytes d.
Proof.
  intros [_ Hlen] Hk [= Ha1 Hl1 Hf1] [= Ha2 Hl2 Hf2].
  unfold desc_bytes. rewrite Ha1, Hl1, Hf1, Ha2, Hl2, Hf2, u32_small, addr_seq_u64 by lia.
  by rewrite <- map_app, <- addr_seq_split by lia.
Qed.

Lemma shift_descs_spec l : forall x tl,
  exists l',
    shift_descs (length l) (l ++ x :: tl) = Some (l' ++ tl) /\
    map desc_key l' = desc_key (hd x l) :: map desc_key l.
Proof.
  induction l as [|d l IH] using rev_ind; intros x tl.
  { exists [x]. done. }
  rewrite length_app, Nat.add_1_r. cbn [shift_descs].
  rewrite <- app_assoc; cbn [app].
  rewrite (lookup_middle l _ (length l)) by done. cbn [mbind option_bind].
  replace (l ++ d :: x :: tl) with ((l ++ [d]) ++ x :: tl) by by rewrite <- app_assoc.
  rewrite lookup_middle by (rewrite length_app; cbn; lia). cbn [mbind option_bind].
  rewrite aset_middle by (rewrite length_app; cbn; lia). cbn [mbind option_bind].
  set (x' := mk_desc _ _ _ _).
  destruct (IH d (x' :: tl)) as (l' & Hs & Hk).
  rewrite <- app_assoc; cbn [app]. rewrite Hs.
  exists (l' ++ [x']). rewrite <- app_assoc. split; [done|].
  rewrite !map_app, Hk. cbn. by destruct l.
Qed.

(** The field updates of the splits keep the fields in range. *)
Ltac desc_wf_tac :=
  unfold desc_wf, sizeof_virtio_blk_outhdr; cbn; intros [? ?];
  repeat match goal with
  | |- context [u64 ?x] => pose proof (u64_range x); generalize dependent (u64 x)
  | |- context [u32 ?x] => pose proof (u32_range x); generalize dependent (u32 x)
  end; lia.

Lemma split_header_spec l x tl first rest :
  l = first :: rest -> rest <> [] ->
  Forall desc_wf l -> sizeof_virtio_blk_outhdr <= d_len first ->
  exists h l',
    split_header (l ++ x :: tl) (length l) = Some (h :: l' ++ tl) /\
    length l' = length l /\
    Forall desc_wf (h :: l') /\
    d_len h = sizeof_virtio_blk_outhdr /\ d_addr h = d_addr first /\
    chain_bytes (h :: l') = chain_bytes l.
Proof.
  intros Hl Hrest Hwf Hlen. unfold split_header.
  destruct (shift_descs_spec l x tl) as (ls & Hs & Hk). rewrite Hs. cbn [mbind option_bind].
  assert (length ls = S (length l)) as Hls.
  { rewrite <- (length_map desc_key ls), Hk. cbn. by rewrite length_map. }
  subst l. destruct rest as [|d2 rest]; [done|].
  assert (Forall desc_wf ls) as Hlswf.
  { apply (desc_wf_key ls (first :: first :: d2 :: rest)); [done|].
    constructor; [by inversion Hwf|done]. }
  destruct ls as [|a [|b ls]]; [done..|]. cbn in Hk. injection Hk as Ha La Fa Hb Lb Fb Hr.
  change (length (first :: d2 :: rest) - 1)%nat with (length (d2 :: rest)).
  do 5 (rewrite upd_desc_app by (rewrite ?length_alter; cbn in *; lia); cbn [mbind option_bind]).
  rewrite upd_desc_app by (rewrite ?length_alter; cbn in *; lia).
  match goal with |- context [Some (?l ++ tl)] => destruct l as [|h l'] eqn:El end.
  { apply (f_equal length) in El. by rewrite !length_alter in El. }
  exists h, l'. split; [done|].
  assert (length (h :: l') = length (a :: b :: ls)) as Hlen'.
  { by rewrite <- El, !length_alter. }
  split; [cbn in *; lia|].
  split; [rewrite <- El; by repeat (apply Forall_alter; [|intros ? _; desc_wf_tac])|].
  assert (h = set_len sizeof_virtio_blk_outhdr a) as ->.
  { apply (f_equal (fun l => l !! 0%nat)) in El. cbn in El. by simplify_eq. }
  do 2 (split; [done|]).
  rewrite <- El. rewrite !alter_chain_bytes by (intros d; unfold desc_bytes; cbn; try rewrite has_write_lor_next; done).
  cbn [alter list_alter chain_bytes flat_map].
  rewrite app_assoc. inversion Hwf as [|? ? Hf _]; subst.
  rewrite (desc_bytes_split first sizeof_virtio_blk_outhdr); [|done|unfold sizeof_virtio_blk_outhdr in *; lia|..].
  2, 3: unfold desc_key; cbn; congruence.
  cbn. f_equal. change (desc_bytes d2 ++ flat_map desc_bytes rest) with (chain_bytes (d2 :: rest)).
  apply chain_bytes_key. cbn. exact Hr.
Qed.

Lemma split_footer_spec l1 c x tl :
  Forall desc_wf (l1 ++ [c]) -> sizeof_virtio_blk_outftr <= d_len c ->
  exists c' x',
    split_footer ((l1 ++ [c]) ++ x :: tl) (length (l1 ++ [c])) = Some ((l1 ++ [c'; x']) ++ tl) /\
    desc_wf c' /\ desc_wf x' /\
    d_len x' = sizeof_virtio_blk_outftr /\
    d_addr x' = u64 (d_addr c + (d_len c - sizeof_virtio_blk_outftr)) /\
    desc_bytes c' ++ desc_bytes x' = desc_bytes c.
Proof.
  intros Hwf Hlen. apply Forall_app in Hwf as [_ Hc]. inversion Hc as [|? ? Hwf _]; subst.
  pose proof Hwf as [_ Hrange]. unfold split_footer.
  rewrite length_app, Nat.add_1_r, Nat.sub_succ, Nat.sub_0_r.
  assert (forall y f, alter f (length l1) (l1 ++ [y]) = l1 ++ [f y]) as Halter.
  { intros y f. rewrite <- (Nat.add_0_r (length l1)). by rewrite alter_app_r. }
  do 3 (rewrite upd_desc_app by (rewrite length_app; cbn; lia); cbn [mbind option_bind];
        rewrite Halter).
  rewrite <- app_assoc; cbn [app].
  rewrite (lookup_middle l1 _ (length l1)) by done. cbn [mbind option_bind].
  assert (forall y z f, upd_desc (l1 ++ y :: z :: tl) (S (length l1)) f
                        = Some (l1 ++ y :: f z :: tl)) as Hupd.
  { intros y z f. replace (l1 ++ y :: z :: tl) with ((l1 ++ [y; z]) ++ tl)
      by by rewrite <- app_assoc.
    rewrite upd_desc_app by (rewrite length_app; cbn; lia).
    replace (S (length l1)) with (length l1 + 1)%nat by lia.
    rewrite alter_app_r. by rewrite <- app_assoc. }
  do 2 (rewrite Hupd; cbn [mbind option_bind]). rewrite Hupd.
  eexists _, _. split; [rewrite <- app_assoc; reflexivity|]. cbn.
  unfold sizeof_virtio_blk_outftr in *. rewrite u32_small by lia.
  split; [unfold desc_wf in *; cbn; lia|].
  split; [split; cbn; [apply u64_range|lia]|]. do 2 (split; [done|]).
  assert (forall d1 d2 : vring_desc,
    d_addr d1 = d_addr d2 -> d_len d1 = d_len d2 ->
    has_flag (d_flags d1) VRING_DESC_F_WRITE = has_flag (d_flags d2) VRING_DESC_F_WRITE ->
    desc_bytes d1 = desc_bytes d2) as Hb.
  { intros d1 d2 H1 H2 H3. unfold desc_bytes. by rewrite H1, H2, H3. }
  rewrite <- (desc_bytes_split c (d_len c - 1)
      (mk_desc (d_addr c) (d_len c - 1) (d_flags c) 0)
      (mk_desc (u64 (d_addr c + (d_len c - 1))) (u32 (d_len c - (d_len c - 1))) (d_flags c) 0));
    [|done|lia|done..].
  f_equal; apply Hb; cbn; try apply has_write_lor_next; try done.
  rewrite u32_small; lia.
Qed.

(** Splitting needs one slot more than the request uses. *)
Lemma split_header_oob l : l <> [] -> split_header l (length l) = None.
Proof.
  intros Hl. unfold split_header.
  destruct (length l) as [|n] eqn:En; [by destruct l|]. cbn [shift_descs].
  destruct (lookup_lt_is_Some_2 l n) as [d ->]; [lia|]. cbn [mbind option_bind].
  by rewrite (lookup_ge_None_2 l (S n)) by lia.
Qed.

Lemma chain_bytes_length l : Forall desc_wf l -> Z.of_nat (length (chain_bytes l)) = data_len l.
Proof.
  induction 1 as [|d l [_ Hd] _ IH]; [done|].
  rewrite data_len_cons, <- IH. unfold chain_bytes. cbn [flat_map]. rewrite length_app.
  unfold desc_bytes. rewrite length_map. pose proof (addr_seq_length (d_addr d) (d_len d)). lia.
Qed.

(** The merge of a whole request: the bytes stay, the first and the last
    descriptor stay, and the count goes down by the number of merges. *)
Lemma merge_request h l f tl :
  let req := h :: l ++ [f] in
  Z.of_nat (length req) < 2 ^ 32 -> Forall desc_wf req -> data_len req < 2 ^ 32 ->
  exists l' tl',
    virtq_sequential_data_descs_merge (req ++ tl) (length req) =
      Some ((h :: l' ++ [f]) ++ tl', Z.of_nat (length (h :: l' ++ [f])),
            Z.of_nat (length l - length l')) /\
    (length l' <= length l)%nat /\
    length ((h :: l' ++ [f]) ++ tl') = length (req ++ tl) /\
    chain_bytes l' = chain_bytes l.
Proof.
  intros req Hn Hwf Hlen. subst req. inversion Hwf as [|? ? Hh Hwf1]; subst.
  apply Forall_app in Hwf1 as [Hl Hf]. destruct l as [|d mid].
  { exists [], tl. cbn. repeat split; lia. }
  destruct (merge_in_place h d mid f tl) as (tl' & Hm & Hlen').
  { cbn in *. rewrite length_app in Hn. cbn in Hn. lia. }
  pose proof (merge_data_length d mid) as Hout.
  exists (merge_data d mid), tl'.
  cbn [length app] in Hm, Hlen' |- *. rewrite !length_app in *. cbn [length] in *.
  rewrite <- !app_assoc. cbn [app].
  replace (S (S (length mid + 1))) with (length mid + 3)%nat by lia.
  rewrite Hm. split; [do 2 f_equal; f_equal; lia|].
  split; [lia|]. split.
  { rewrite !length_app in *. cbn [length] in *. lia. }
  apply Forall_cons in Hl as [Hd Hmid]. rewrite merge_data_bytes; [done..|].
  cbn [app] in Hlen. rewrite !data_len_cons in Hlen.
  assert (data_len (mid ++ [f]) = data_len mid + d_len f) as Hsum.
  { unfold data_len. rewrite map_app, sumZ_app. cbn. lia. }
  inversion Hf as [|? ? [_ ?] _]; subst. destruct Hh. lia.
Qed.

(** The descriptors before the merge: [h] holds exactly the header. *)
Lemma split_request first mid lst x tl :
  let req := first :: mid ++ [lst] in
  Forall desc_wf req ->
  sizeof_virtio_blk_outhdr <= d_len first -> sizeof_virtio_blk_outftr <= d_len lst ->
  exists h body f tl',
    (if negb (d_len first =? sizeof_virtio_blk_outhdr) then
       ds ← split_header (req ++ x :: tl) (length req); Some (ds, S (length req))
     else
       last ← (req ++ x :: tl) !! (length req - 1)%nat;
       if negb (d_len last =? sizeof_virtio_blk_outftr) then
         ds ← split_footer (req ++ x :: tl) (length req); Some (ds, S (length req))
       else Some (req ++ x :: tl, length req))
    = Some ((h :: body ++ [f]) ++ tl', length (h :: body ++ [f])) /\
    Forall desc_wf (h :: body ++ [f]) /\
    chain_bytes (h :: body ++ [f]) = chain_bytes req /\
    d_len h = sizeof_virtio_blk_outhdr /\ d_addr h = d_addr first /\
    (d_len first = sizeof_virtio_blk_outhdr -> d_len f = sizeof_virtio_blk_outftr) /\
    length ((h :: body ++ [f]) ++ tl') = length (req ++ x :: tl) /\
    (length (h :: body ++ [f]) <= S (length req))%nat.
Proof.
  intros req Hwf Hfirst Hlst.
  assert (length req = S (S (length mid))) as Hreq.
  { subst req. cbn. rewrite length_app. cbn. lia. }
  destruct (d_len first =? sizeof_virtio_blk_outhdr) eqn:Ef; cbn [negb].
  - apply Z.eqb_eq in Ef.
    replace (req ++ x :: tl) with ((first :: mid) ++ lst :: x :: tl)
      by (subst req; cbn; by rewrite <- app_assoc).
    rewrite (lookup_middle (first :: mid)) by (rewrite Hreq; cbn; lia). cbn [mbind option_bind].
    destruct (d_len lst =? sizeof_virtio_blk_outftr) eqn:El; cbn [negb].
    + apply Z.eqb_eq in El. exists first, mid, lst, (x :: tl).
      subst req. cbn [app]. rewrite <- app_assoc. cbn [app]. repeat split; try done; try lia.
    + destruct (split_footer_spec (first :: mid) lst x tl) as (c' & x' & Hs & Hc & Hx & Hlx & _ & Hb);
        [done..|].
      change ((first :: mid) ++ lst :: x :: tl) with (first :: mid ++ [lst] ++ x :: tl).
      replace (first :: mid ++ [lst] ++ x :: tl) with (((first :: mid) ++ [lst]) ++ x :: tl)
        by by rewrite <- app_assoc.
      change req with ((first :: mid) ++ [lst]). rewrite Hs. cbn [mbind option_bind].
      exists first, (mid ++ [c']), x', tl.
      assert (((first :: mid) ++ [c'; x']) = first :: (mid ++ [c']) ++ [x']) as ->
        by (cbn; by rewrite <- app_assoc).
      inversion Hwf as [|? ? Hh Hwf']; subst. apply Forall_app in Hwf' as [Hmid _].
      split; [f_equal; f_equal; cbn; rewrite !length_app; cbn; lia|].
      split; [constructor; [done|]; rewrite !Forall_app; auto|].
      split.
      { cbn. unfold chain_bytes. rewrite !flat_map_app. cbn. rewrite <- Hb, !app_nil_r.
        by rewrite !app_assoc. }
      repeat split; try done; cbn; rewrite ?length_app; cbn; rewrite ?length_app; cbn; lia.
  - destruct (split_header_spec req x tl first (mid ++ [lst])) as (h & l' & Hs & Hlen & Hwf' & Hh & Ha & Hb);
      [done|by destruct mid|done|done|].
    rewrite Hs. cbn [mbind option_bind].
    rewrite Hreq in Hlen |- *.
    destruct l' as [|z l' _] using rev_ind; [cbn in Hlen; lia|].
    exists h, l', z, tl. cbn [app]. apply Z.eqb_neq in Ef. rewrite length_app in Hlen. cbn in Hlen.
    split; [do 2 f_equal; cbn; rewrite length_app; cbn; lia|].
    repeat split; try done; cbn; rewrite ?length_app; cbn; lia.
Qed.

(** * Properties *)

(** Descriptor processing keeps the request. For every request whose
    header descriptor has room for the header and whose footer descriptor has
    room for the status, with one spare slot in the descriptor array,
    [virtq_blk_process_desc] succeeds; the processed descriptors denote the
    same guest bytes, in the same order and with the same directions, as the
    ones received; the first processed descriptor is exactly the 16-byte
    header, and the last is exactly the 1-byte footer unless the header had to
    be split; the array keeps its size. *)
Theorem process_desc_preserves_bytes first mid lst x tl nm merge_descs :
  let req := first :: mid ++ [lst] in
  Forall desc_wf req -> data_len req < 2 ^ 32 -> Z.of_nat (length req) + 1 < 2 ^ 32 ->
  sizeof_virtio_blk_outhdr <= d_len first -> sizeof_virtio_blk_outftr <= d_len lst ->
  exists h body f tl' nm',
    virtq_blk_process_desc (req ++ x :: tl) (length req) nm merge_descs =
      Some ((h :: body ++ [f]) ++ tl', Z.of_nat (length (h :: body ++ [f])), nm') /\
    chain_bytes (h :: body ++ [f]) = chain_bytes req /\
    d_len h = sizeof_virtio_blk_outhdr /\ d_addr h = d_addr first /\
    (d_len first = sizeof_virtio_blk_outhdr -> d_len f = sizeof_virtio_blk_outftr) /\
    length ((h :: body ++ [f]) ++ tl') = length (req ++ x :: tl).
Proof.
  intros req Hwf Hdata Hn Hfirst Hlst.
  destruct (split_request first mid lst x tl)
    as (h & body & f & t & Hs & Hwf' & Hb & Hh & Ha & Hf & Ht & Hle); [done..|].
  fold req in Hs, Hb, Ht, Hle. unfold virtq_blk_process_desc.
  replace (_ <? _)%nat with false
    by (symmetry; apply Nat.ltb_ge; subst req; unfold NUM_HDR_FTR_DESCS; cbn; rewrite length_app; cbn; lia).
  change ((req ++ x :: tl) !! 0%nat) with (Some first). cbn [mbind option_bind].
  unfold mbind, option_bind in Hs |- *. rewrite Hs.
  destruct merge_descs; [|by exists h, body, f, t, nm].
  destruct (merge_request h body f t) as (body' & t' & Hm & Hle' & Hlen & Hbody); [lia|done| |].
  { rewrite <- chain_bytes_length, Hb, chain_bytes_length; done. }
  rewrite Hm. exists h, body', f, t', (Z.of_nat (length body - length body')).
  repeat split; try done; [|by rewrite Hlen].
  rewrite <- Hb. unfold chain_bytes in *. cbn. rewrite !flat_map_app. by rewrite Hbody.
Qed.

Lemma process_desc_preserves_bytes_witness :
  let first := mk_desc 4096 24 1 1 in
  let d1 := mk_desc 8192 512 1 2 in
  let d2 := mk_desc 8704 512 1 3 in
  let lst := mk_desc 65536 1 2 0 in
  let spare := mk_desc 0 0 0 0 in
  exists h body f tl' nm',
    virtq_blk_process_desc ([first; d1; d2; lst] ++ [spare]) 4 0 true =
      Some ((h :: body ++ [f]) ++ tl', Z.of_nat (length (h :: body ++ [f])), nm') /\
    chain_bytes (h :: body ++ [f]) = chain_bytes [first; d1; d2; lst] /\
    d_len h = 16 /\ d_addr h = 4096 /\
    (d_len first = sizeof_virtio_blk_outhdr -> d_len f = sizeof_virtio_blk_outftr) /\
    length ((h :: body ++ [f]) ++ tl') = 5%nat.
Proof.
  intros first d1 d2 lst spare.
  apply (process_desc_preserves_bytes first [d1; d2] lst spare [] 0 true).
  - repeat constructor; cbn; lia.
  - vm_compute. reflexivity.
  - vm_compute. reflexivity.
  - vm_compute. discriminate.
  - vm_compute. discriminate.
Defined.

(** C30: the in-place merge computes the reference merge: header and footer
    stay, the data descriptors become [merge_data], and the number returned
    is their number plus two. *)
Theorem merge_refines_reference h d mid f tl :
  Z.of_nat (length mid + 3) < 2 ^ 32 ->
  exists tl',
    virtq_sequential_data_descs_merge (h :: d :: mid ++ f :: tl) (length mid + 3) =
    Some (h :: merge_data d mid ++ f :: tl',
          Z.of_nat (length (merge_data d mid) + 2),
          Z.of_nat (S (length mid) - length (merge_data d mid))).
Proof. intros Hn. destruct (merge_in_place h d mid f tl Hn) as (tl' & H & _). by exists tl'. Qed.

Lemma merge_refines_reference_witness :
  exists tl',
    virtq_sequential_data_descs_merge
      [mk_desc 0 16 1 1; mk_desc 4096 512 1 2; mk_desc 4608 512 1 3; mk_desc 9000 1 2 0] 4 =
    Some (mk_desc 0 16 1 1 :: [mk_desc 4096 1024 1 3] ++ mk_desc 9000 1 2 0 :: tl', 3, 1).
Proof.
  apply (merge_refines_reference (mk_desc 0 16 1 1) (mk_desc 4096 512 1 2)
           [mk_desc 4608 512 1 3] (mk_desc 9000 1 2 0) []).
  vm_compute. reflexivity.
Defined.

(** A request that fills the descriptor array cannot be split: with
    [num_desc] descriptors in an array of [num_desc] slots and a header
    descriptor that carries data, [virtq_blk_process_desc] accesses
    [descs[num_desc]], one past the end. *)
Theorem process_desc_full_array_oob first rest nm merge_descs :
  rest <> [] -> d_len first <> sizeof_virtio_blk_outhdr ->
  virtq_blk_process_desc (first :: rest) (length (first :: rest)) nm merge_descs = None.
Proof.
  intros Hrest Hlen. unfold virtq_blk_process_desc.
  replace (_ <? _)%nat with false
    by (symmetry; apply Nat.ltb_ge; destruct rest; [done|unfold NUM_HDR_FTR_DESCS; cbn; lia]).
  change ((first :: rest) !! 0%nat) with (Some first). cbn [mbind option_bind].
  apply Z.eqb_neq in Hlen as ->. cbn [negb].
  by rewrite split_header_oob.
Qed.

Lemma process_desc_full_array_oob_witness :
  virtq_blk_process_desc [mk_desc 0 24 1 1; mk_desc 4096 512 1 2; mk_desc 9000 1 2 0] 3 0 true = None.
Proof.
  apply (process_desc_full_array_oob (mk_desc 0 24 1 1) [mk_desc 4096 512 1 2; mk_desc 9000 1 2 0] 0 true).
  - discriminate.
  - vm_compute. discriminate.
Defined.

(** ** Table walk *)

(** The chain of descriptors that starts at [d] in a table. *)
Inductive desc_chain (table : list vring_desc) : vring_desc -> list vring_desc -> Prop :=
| chain_end d :
    has_flag (d_flags d) VRING_DESC_F_NEXT = false -> desc_chain table d [d]
| chain_next d d' l :
    has_flag (d_flags d) VRING_DESC_F_NEXT = true ->
    table !! Z.to_nat (d_next d) = Some d' ->
    desc_chain table d' l -> desc_chain table d (d :: l).

Lemma arrange_loop_complete table d l : desc_chain table d l -> forall fuel acc,
  (length l <= fuel)%nat ->
  arrange_loop fuel table d (acc ++ [d]) = Ok (acc ++ l).
Proof.
  induction 1 as [d Hd|d d' l Hd Hnext Hl IH]; intros fuel acc Hfuel;
    (destruct fuel as [|fuel]; [cbn in Hfuel; lia|]); cbn; rewrite Hd; [done|].
  rewrite Hnext, IH by (cbn in Hfuel; lia). by rewrite <- app_assoc.
Qed.

Lemma arrange_loop_sound table fuel : forall d acc out,
  arrange_loop fuel table d (acc ++ [d]) = Ok out ->
  exists l, out = acc ++ l /\ desc_chain table d l.
Proof.
  induction fuel as [|fuel IH]; intros d acc out; cbn; [done|].
  destruct (has_flag _ _) eqn:Hd.
  - destruct (table !! _) as [d'|] eqn:Hnext; [|done].
    intros (l & -> & Hl)%IH. exists (d :: l). rewrite <- app_assoc. eauto using desc_chain.
  - intros [= <-]. eauto using desc_chain.
Qed.

(** C31: [arrange_descs] returns, with exactly the descriptors of the chain in
    order, if and only if the chain from the head descriptor ends; a chain
    that runs in a cycle makes it loop for ever, and nothing else bounds it. *)
Theorem arrange_descs_correct table header_idx d l :
  table !! Z.to_nat header_idx = Some d ->
  (exists fuel, arrange_descs fuel table header_idx = Ok l) <-> desc_chain table d l.
Proof.
  intros Hd. unfold arrange_descs. rewrite Hd. split.
  - intros [fuel H]. by destruct (arrange_loop_sound table fuel d [] l H) as (l' & -> & Hl).
  - intros Hl. exists (length l). by apply (arrange_loop_complete table d l Hl _ []).
Qed.

Lemma arrange_descs_correct_witness :
  let table := [mk_desc 10 16 1 2; mk_desc 20 1 2 0; mk_desc 30 512 1 1] in
  (exists fuel, arrange_descs fuel table 0 =
                Ok [mk_desc 10 16 1 2; mk_desc 30 512 1 1; mk_desc 20 1 2 0]) <->
  desc_chain table (mk_desc 10 16 1 2) [mk_desc 10 16 1 2; mk_desc 30 512 1 1; mk_desc 20 1 2 0].
Proof. intros table. apply (arrange_descs_correct table 0). reflexivity. Defined.
