(* ===== verification/DmaSgl.v ===== *)
(** The scatter-gather builder of the DMA queue: [snap_dma_build_sgl] of
    src/src/snap_dma_internal.h, which turns a local and a remote io vector
    into work requests of at most 20 local segments each. *)

From S2P Require Import Prelude.

(** * Data *)

Definition SNAP_DMA_Q_MAX_IOV_CNT : Z := 128.
Definition SNAP_DMA_Q_MAX_SGE_NUM : nat := 20.
Definition SNAP_DMA_Q_MAX_WR_CNT : nat := 128.

Record iovec := mk_iovec { iov_base : Z; iov_len : Z }.

(** [struct ibv_sge]: 64-bit address, 32-bit length, 32-bit key. *)
Record ibv_sge := mk_sge { sge_addr : Z; sge_length : Z; sge_lkey : Z }.

(** The io-vector part of [struct snap_dma_q_io_attr]; the counts are the
    lengths of [liov] and [riov]. *)
Record snap_dma_q_io_attr := mk_io_attr {
  io_lkey : list Z;
  io_liov : list iovec;
  io_rkey : list Z;
  io_riov : list iovec
}.

(** Entry [k] of the output arrays: the local segments [l_sgl[k][0 ..
    num_sge[k])] and the remote segment [r_sgl[k]]. *)
Record work_req := mk_wr { wr_l_sgl : list ibv_sge; wr_r_sge : ibv_sge }.

(** * Operations *)

(** [round_up] of snap_dma_internal.h works on 16-bit values. *)
Definition round_up (x d : Z) : Z := u16 ((u16 x + u16 d - 1) / u16 d).

(** Basic blocks of a work request with [sge_cnt] local segments. *)
Definition wqe_bb (sge_cnt : Z) : Z :=
  if sge_cnt <=? 2 then 1 else 1 + round_up (sge_cnt - 2) 4.

(** The local variables: [j], [left], [offset] walk the local vector;
    [len_to_handle], [sge_total_len], [wr_consumed_len] belong to the remote
    element under work; [cur] holds the segments of the open work request
    ([sge_cnt] is its length) and [wrs] the closed ones ([k] is its length). *)
Record sgl_st := mk_sgl {
  st_j : nat;
  st_left : Z;
  st_offset : Z;
  st_len_to_handle : Z;
  st_sge_total_len : Z;
  st_wr_consumed_len : Z;
  st_cur : list ibv_sge;
  st_wrs : list work_req;
  st_n_bb : Z
}.

(** Close the open work request against remote element [riov] with key [rkey]. *)
Definition close_wr (riov : iovec) (rkey : Z) (s : sgl_st) : list work_req * Z :=
  (st_wrs s ++
     [mk_wr (st_cur s)
            (mk_sge (u64 (iov_base riov + st_wr_consumed_len s)) (u32 (st_sge_total_len s)) rkey)],
   st_n_bb s + wqe_bb (Z.of_nat (length (st_cur s)))).

(** The part of local element [iov] taken by one iteration: the new [j],
    [left], [offset], [len_to_handle], and the address and length stored in
    the segment. *)
Definition take_local (iov : iovec) (s : sgl_st) : nat * Z * Z * Z * (Z * Z) :=
  let len := st_len_to_handle s in
  let lft := st_left s in
  if negb (lft =? 0) then
    if lft <=? len then
      (S (st_j s), 0, 0, len - lft, (u64 (iov_base iov + st_offset s), lft))
    else
      (st_j s, lft - len, st_offset s + len, 0, (u64 (iov_base iov + st_offset s), len))
  else if iov_len iov <=? len then
    (S (st_j s), lft, st_offset s, len - iov_len iov, (u64 (iov_base iov), iov_len iov))
  else
    (st_j s, iov_len iov - len, len, 0, (u64 (iov_base iov), len)).

(** One iteration of the inner loop. *)
Definition sgl_iter (io : snap_dma_q_io_attr) (riov : iovec) (rkey : Z) (s : sgl_st)
  : res sgl_st :=
  match io_liov io !! st_j s, io_lkey io !! st_j s with
  | Some iov, Some lkey =>
    if (length (st_wrs s) <? SNAP_DMA_Q_MAX_WR_CNT)%nat
       && (length (st_cur s) <? SNAP_DMA_Q_MAX_SGE_NUM)%nat then
      let '(j, lft, offset, len, (addr, n)) := take_local iov s in
      let cur := st_cur s ++ [mk_sge addr (u32 n) lkey] in
      let s' := mk_sgl j lft offset len (st_sge_total_len s + n) (st_wr_consumed_len s)
                  cur (st_wrs s) (st_n_bb s) in
      if (length cur =? SNAP_DMA_Q_MAX_SGE_NUM)%nat && (0 <? len) then
        let '(wrs, n_bb) := close_wr riov rkey s' in
        if (SNAP_DMA_Q_MAX_WR_CNT <=? length wrs)%nat then Err (-1)
        else Ok (mk_sgl j lft offset len 0 (st_wr_consumed_len s + st_sge_total_len s') []
                   wrs n_bb)
      else Ok s'
    else Oob
  | _, _ => Oob
  end.

(** [while (j < liov_cnt && len_to_handle > 0)]. *)
Fixpoint sgl_while (fuel : nat) (io : snap_dma_q_io_attr) (riov : iovec) (rkey : Z)
    (s : sgl_st) : res sgl_st :=
  if (st_j s <? length (io_liov io))%nat && (0 <? st_len_to_handle s) then
    match fuel with
    | O => OutOfFuel
    | S fuel' => let? s' := sgl_iter io riov rkey s in sgl_while fuel' io riov rkey s'
    end
  else Ok s.

(** One iteration of the outer loop, on remote element [riov]. *)
Definition sgl_remote (fuel : nat) (io : snap_dma_q_io_attr) (riov : iovec) (rkey : Z)
    (s : sgl_st) : res sgl_st :=
  if (SNAP_DMA_Q_MAX_WR_CNT <=? length (st_wrs s))%nat then Err (-1)
  else
    let? s' := sgl_while fuel io riov rkey
                 (mk_sgl (st_j s) (st_left s) (st_offset s) (iov_len riov) 0 0 []
                    (st_wrs s) (st_n_bb s)) in
    let '(wrs, n_bb) := close_wr riov rkey s' in
    Ok (mk_sgl (st_j s') (st_left s') (st_offset s') (st_len_to_handle s')
          (st_sge_total_len s') (st_wr_consumed_len s') (st_cur s') wrs n_bb).

Fixpoint sgl_for (fuel : nat) (io : snap_dma_q_io_attr) (rs : list iovec) (rkeys : list Z)
    (s : sgl_st) : res sgl_st :=
  match rs with
  | [] => Ok s
  | r :: rs' =>
    match rkeys with
    | [] => Oob
    | rkey :: rkeys' => let? s' := sgl_remote fuel io r rkey s in sgl_for fuel io rs' rkeys' s'
    end
  end.

Definition sgl_init : sgl_st := mk_sgl 0 0 0 0 0 0 [] [] 0.

(** [snap_dma_build_sgl]: the work requests and the number of basic blocks.
    One more iteration than there are local elements is enough for each run
    of the inner loop. *)
Definition snap_dma_build_sgl (io : snap_dma_q_io_attr) : res (list work_req * Z) :=
  let? s := sgl_for (S (length (io_liov io))) io (io_riov io) (io_rkey io) sgl_init in
  Ok (st_wrs s, st_n_bb s).

(** * Meaning *)

(** The bytes of a segment, each with its key. *)
Definition seg_bytes (addr len key : Z) : list (Z * Z) :=
  map (fun a => (a, key)) (addr_seq addr len).

Definition sge_bytes (s : ibv_sge) : list (Z * Z) :=
  seg_bytes (sge_addr s) (sge_length s) (sge_lkey s).

(** The bytes of an io vector with one key per element. *)
Definition iov_bytes (iov : list iovec) (keys : list Z) : list (Z * Z) :=
  flat_map (fun '(v, k) => seg_bytes (iov_base v) (iov_len v) k) (zip iov keys).

(** What a work request moves: its local bytes, in order, to (or from) its
    remote bytes. *)
Definition wr_transfer (w : work_req) : list ((Z * Z) * (Z * Z)) :=
  zip (flat_map sge_bytes (wr_l_sgl w)) (sge_bytes (wr_r_sge w)).

Definition transfer (wrs : list work_req) : list ((Z * Z) * (Z * Z)) :=
  flat_map wr_transfer wrs.

(** Work request bounds and balance. *)
Definition wr_ok (w : work_req) : Prop :=
  (length (wr_l_sgl w) <= SNAP_DMA_Q_MAX_SGE_NUM)%nat /\
  length (flat_map sge_bytes (wr_l_sgl w)) = length (sge_bytes (wr_r_sge w)).

(** Well-formed attributes: one key per element, lengths that fit a segment. *)
Definition iov_wf (v : iovec) : Prop := 0 <= iov_len v < 2 ^ 32.

Record io_attr_wf (io : snap_dma_q_io_attr) : Prop := {
  wf_lkey : length (io_lkey io) = length (io_liov io);
  wf_rkey : length (io_rkey io) = length (io_riov io);
  wf_liov : Forall iov_wf (io_liov io);
  wf_riov : Forall iov_wf (io_riov io)
}.

(** * Invariants *)

Lemma seg_bytes_split a n k key :
  0 <= k <= n -> seg_bytes a n key = seg_bytes a k key ++ seg_bytes (a + k) (n - k) key.
Proof. intros Hk. unfold seg_bytes. by rewrite (addr_seq_split a n k), map_app by done. Qed.

Lemma seg_bytes_u64 a n key : seg_bytes (u64 a) n key = seg_bytes a n key.
Proof. unfold seg_bytes. by rewrite addr_seq_u64. Qed.

Lemma seg_bytes_length a n key : 0 <= n -> Z.of_nat (length (seg_bytes a n key)) = n.
Proof. intros Hn. unfold seg_bytes. rewrite length_map. by apply addr_seq_length. Qed.

Lemma iov_bytes_app l1 l2 k1 k2 :
  length l1 = length k1 -> iov_bytes (l1 ++ l2) (k1 ++ k2) = iov_bytes l1 k1 ++ iov_bytes l2 k2.
Proof. intros H. unfold iov_bytes. by rewrite zip_with_app, flat_map_app by done. Qed.

(** The local and the remote bytes of the work requests, in order. *)
Definition local_out (wrs : list work_req) (cur : list ibv_sge) : list (Z * Z) :=
  flat_map sge_bytes (flat_map wr_l_sgl wrs ++ cur).

Definition remote_out (wrs : list work_req) : list (Z * Z) :=
  flat_map (fun w => sge_bytes (wr_r_sge w)) wrs.

(** Basic blocks of the work requests. *)
Definition bb_sum (wrs : list work_req) : Z :=
  sumZ (map (fun w => wqe_bb (Z.of_nat (length (wr_l_sgl w)))) wrs).

Ltac sgl_proj := cbn [st_j st_left st_offset st_len_to_handle st_sge_total_len
  st_wr_consumed_len st_cur st_wrs st_n_bb].

Ltac sgl_proj_in H1 H2 H3 := cbn [st_j st_left st_offset st_len_to_handle st_sge_total_len
  st_wr_consumed_len st_cur st_wrs st_n_bb] in H1, H2, H3.

Section Builder.
Context (io : snap_dma_q_io_attr) (Hwf : io_attr_wf io).

(** The local bytes before the cursor. *)
Definition consumed (j : nat) (offset : Z) : list (Z * Z) :=
  iov_bytes (take j (io_liov io)) (take j (io_lkey io)) ++
  match io_liov io !! j, io_lkey io !! j with
  | Some v, Some k => seg_bytes (iov_base v) offset k
  | _, _ => []
  end.

Definition cursor_ok (j : nat) (lft offset : Z) : Prop :=
  (j <= length (io_liov io))%nat /\
  ((lft = 0 /\ offset = 0) \/
   exists v, io_liov io !! j = Some v /\ 0 < offset /\ 0 < lft /\ offset + lft = iov_len v).

Lemma lkey_lookup j v : io_liov io !! j = Some v -> exists k, io_lkey io !! j = Some k.
Proof.
  intros Hv%lookup_lt_Some. apply lookup_lt_is_Some_2. by rewrite (wf_lkey io Hwf).
Qed.

Lemma consumed_0 j : consumed j 0 = iov_bytes (take j (io_liov io)) (take j (io_lkey io)).
Proof. unfold consumed. repeat case_match; by rewrite ?app_nil_r. Qed.

(** A whole local element. *)
Lemma consumed_S j v k :
  io_liov io !! j = Some v -> io_lkey io !! j = Some k ->
  consumed (S j) 0 = consumed j (iov_len v).
Proof.
  intros Hv Hk. rewrite consumed_0. unfold consumed. rewrite Hv, Hk.
  rewrite (take_S_r _ _ _ Hv), (take_S_r _ _ _ Hk), iov_bytes_app.
  - cbn. by rewrite app_nil_r.
  - rewrite !length_take. by rewrite (wf_lkey io Hwf).
Qed.

Lemma consumed_add j v k o n :
  io_liov io !! j = Some v -> io_lkey io !! j = Some k -> 0 <= o -> 0 <= n ->
  consumed j (o + n) = consumed j o ++ seg_bytes (iov_base v + o) n k.
Proof.
  intros Hv Hk Ho Hn. unfold consumed. rewrite Hv, Hk, <- app_assoc. f_equal.
  rewrite (seg_bytes_split _ (o + n) o) by lia. by replace (o + n - o) with n by lia.
Qed.

Lemma consumed_init j v k n :
  io_liov io !! j = Some v -> io_lkey io !! j = Some k -> 0 <= n ->
  consumed j n = consumed j 0 ++ seg_bytes (iov_base v) n k.
Proof.
  intros Hv Hk Hn. pose proof (consumed_add j v k 0 n Hv Hk) as H.
  rewrite Z.add_0_l, Z.add_0_r in H. apply H; lia.
Qed.

(** One step of the cursor takes exactly the next bytes of the local vector. *)
Lemma take_local_spec s v k j' lft' offset' len' addr n :
  cursor_ok (st_j s) (st_left s) (st_offset s) -> 0 < st_len_to_handle s ->
  io_liov io !! st_j s = Some v -> io_lkey io !! st_j s = Some k ->
  take_local v s = (j', lft', offset', len', (addr, n)) ->
  cursor_ok j' lft' offset' /\
  consumed j' offset' = consumed (st_j s) (st_offset s) ++ seg_bytes addr n k /\
  0 <= n < 2 ^ 32 /\ 0 <= len' /\ n + len' = st_len_to_handle s /\
  (j' = S (st_j s) \/ (j' = st_j s /\ len' = 0)).
Proof.
  intros [Hj Hcur] Hlen Hv Hk Htake.
  assert (iov_wf v) as Hvwf by (eapply Forall_lookup_1; [apply (wf_liov io Hwf)|done]).
  unfold iov_wf in Hvwf. pose proof (lookup_lt_Some _ _ _ Hv) as Hlt.
  unfold take_local in Htake.
  destruct Hcur as [[Hl Ho]|(v' & Hv' & Ho & Hl & Hsum)].
  - rewrite Hl, Ho in Htake. rewrite Ho. cbn in Htake.
    destruct (iov_len v <=? st_len_to_handle s) eqn:E; bool_to_prop; simplify_eq.
    + rewrite (consumed_S _ v k), seg_bytes_u64 by done.
      rewrite (consumed_init _ v k) by (done || lia). unfold cursor_ok. repeat split; try lia; try (by left).
    + rewrite seg_bytes_u64, (consumed_init _ v k) by (done || lia). unfold cursor_ok. repeat split; try lia.
      right. exists v. repeat split; done || lia.
  - assert (v' = v) as -> by congruence. replace (st_left s =? 0) with false in Htake by (symmetry; apply Z.eqb_neq; lia).
    cbn in Htake.
    destruct (st_left s <=? st_len_to_handle s) eqn:E; bool_to_prop; simplify_eq.
    + rewrite (consumed_S _ v k), seg_bytes_u64, <- Hsum, (consumed_add _ v k) by (done || lia).
      unfold cursor_ok. repeat split; try lia; try (by left).
    + rewrite seg_bytes_u64, (consumed_add _ v k) by (done || lia).
      unfold cursor_ok. repeat split; try lia.
      right. exists v. repeat split; done || lia.
Qed.

(** The number of work requests: one per remote element already closed
    ([i] of them), and the others hold the maximal number of segments; a
    segment ends a local or a remote element. *)
Definition count_ok (i : nat) (wrs : list work_req) (segs : nat) : Prop :=
  exists full, length wrs = (i + full)%nat /\
    (SNAP_DMA_Q_MAX_SGE_NUM * full <= length (flat_map wr_l_sgl wrs))%nat /\
    (length (flat_map wr_l_sgl wrs) <= segs + i)%nat.

(** Enough work requests for the vectors, whatever their lengths. *)
Definition sgl_fits : Prop :=
  (SNAP_DMA_Q_MAX_SGE_NUM * length (io_riov io) + length (io_riov io) + length (io_liov io)
   < SNAP_DMA_Q_MAX_SGE_NUM * SNAP_DMA_Q_MAX_WR_CNT)%nat.

Lemma count_ok_fits i wrs segs :
  count_ok i wrs segs -> (i < length (io_riov io))%nat -> (segs <= length (io_liov io))%nat ->
  (SNAP_DMA_Q_MAX_WR_CNT <= length wrs)%nat -> ~ sgl_fits.
Proof. intros (full & H1 & H2 & H3) Hi Hs Hk. unfold sgl_fits, SNAP_DMA_Q_MAX_SGE_NUM, SNAP_DMA_Q_MAX_WR_CNT in *. lia. Qed.

(** The invariant of the inner loop, on remote element number [i], [r], with
    key [rkey], when the work requests of the elements before it cover
    [rout]. *)
Record while_inv (i : nat) (r : iovec) (rkey : Z) (rout : list (Z * Z)) (s : sgl_st) : Prop := {
  wi_cursor : cursor_ok (st_j s) (st_left s) (st_offset s);
  wi_local : local_out (st_wrs s) (st_cur s) = consumed (st_j s) (st_offset s);
  wi_remote : remote_out (st_wrs s) = rout ++ seg_bytes (iov_base r) (st_wr_consumed_len s) rkey;
  wi_total : Z.of_nat (length (flat_map sge_bytes (st_cur s))) = st_sge_total_len s;
  wi_consumed : 0 <= st_wr_consumed_len s;
  wi_len : 0 <= st_len_to_handle s;
  wi_sum : st_wr_consumed_len s + st_sge_total_len s + st_len_to_handle s = iov_len r;
  wi_wrs : Forall wr_ok (st_wrs s);
  wi_cur : (length (st_cur s) <= SNAP_DMA_Q_MAX_SGE_NUM)%nat;
  wi_k : (length (st_wrs s) < SNAP_DMA_Q_MAX_WR_CNT)%nat;
  wi_bb : st_n_bb s = bb_sum (st_wrs s);
  wi_count : count_ok i (st_wrs s) (st_j s);
  wi_segs : (length (flat_map wr_l_sgl (st_wrs s)) + length (st_cur s) <=
             st_j s + i + (if (st_len_to_handle s =? 0)%Z then 1 else 0))%nat
}.

(** There is room for another segment while bytes are left. *)
Definition has_room (s : sgl_st) : Prop :=
  0 < st_len_to_handle s -> (length (st_cur s) < SNAP_DMA_Q_MAX_SGE_NUM)%nat.

(** Closing a work request adds a balanced one. *)
Lemma close_wr_spec i r rkey rout s wrs n_bb :
  iov_wf r -> while_inv i r rkey rout s -> close_wr r rkey s = (wrs, n_bb) ->
  Forall wr_ok wrs /\ local_out wrs [] = consumed (st_j s) (st_offset s) /\
  remote_out wrs = rout ++ seg_bytes (iov_base r) (st_wr_consumed_len s + st_sge_total_len s) rkey /\
  length wrs = S (length (st_wrs s)) /\ n_bb = bb_sum wrs /\
  length (flat_map wr_l_sgl wrs) = (length (flat_map wr_l_sgl (st_wrs s)) + length (st_cur s))%nat.
Proof.
  intros Hr [Hc Hl Hrem Htot Hcon Hlen Hsum Hwrs Hcur Hk Hbb _ _] [= <- <-].
  unfold iov_wf in Hr.
  set (w := mk_wr _ _).
  assert (sge_bytes (wr_r_sge w) =
          seg_bytes (iov_base r + st_wr_consumed_len s) (st_sge_total_len s) rkey) as Hw.
  { unfold sge_bytes, w; cbn [wr_r_sge sge_addr sge_length sge_lkey].
    rewrite seg_bytes_u64, u32_small by lia. done. }
  split; [|split; [|split; [|split; [|split]]]].
  - apply Forall_app; split; [done|]. constructor; [|done]. split; [done|].
    rewrite Hw. cbn [wr_l_sgl w].
    pose proof (seg_bytes_length (iov_base r + st_wr_consumed_len s) (st_sge_total_len s) rkey). lia.
  - rewrite <- Hl. unfold local_out. rewrite app_nil_r, (flat_map_app wr_l_sgl).
    cbn. by rewrite app_nil_r.
  - unfold remote_out in *. rewrite flat_map_app, Hrem. cbn [flat_map]. rewrite Hw, app_nil_r, <- app_assoc.
    f_equal. rewrite (seg_bytes_split _ (_ + _) (st_wr_consumed_len s)) by lia.
    do 2 f_equal. lia.
  - rewrite length_app. cbn. lia.
  - unfold bb_sum in *. rewrite map_app, sumZ_app, Hbb. cbn. lia.
  - rewrite flat_map_app, length_app. cbn. by rewrite app_nil_r.
Qed.

Lemma sgl_iter_spec i r rkey rout s :
  (i < length (io_riov io))%nat -> iov_wf r -> while_inv i r rkey rout s -> has_room s ->
  (st_j s < length (io_liov io))%nat -> 0 < st_len_to_handle s ->
  (sgl_iter io r rkey s = Err (-1) /\ ~ sgl_fits) \/
  exists s', sgl_iter io r rkey s = Ok s' /\ while_inv i r rkey rout s' /\ has_room s' /\
    (st_j s' = S (st_j s) \/ (st_j s' = st_j s /\ st_len_to_handle s' = 0)).
Proof.
  intros Hi Hr Hinv Hroom Hj Hlen.
  pose proof Hinv as [Hc Hl Hrem Htot Hcon _ Hsum Hwrs Hcur Hk Hbb Hcount Hsegs].
  replace (st_len_to_handle s =? 0) with false in Hsegs by (symmetry; apply Z.eqb_neq; lia).
  destruct (lookup_lt_is_Some_2 _ _ Hj) as [v Hv]. destruct (lkey_lookup _ _ Hv) as [k Hkey].
  unfold sgl_iter. rewrite Hv, Hkey. specialize (Hroom Hlen).
  rewrite (proj2 (Nat.ltb_lt _ _) Hk), (proj2 (Nat.ltb_lt _ _) Hroom). cbn [andb].
  destruct (take_local v s) as [[[[j' lft'] offset'] len'] [addr n]] eqn:Htake.
  destruct (take_local_spec s v k _ _ _ _ _ _ Hc Hlen Hv Hkey Htake)
    as (Hc' & Hcons & Hn & Hlen' & Hsplit & Hprog).
  set (cur := st_cur s ++ [mk_sge addr (u32 n) k]).
  set (s' := mk_sgl j' lft' offset' len' (st_sge_total_len s + n) (st_wr_consumed_len s)
               cur (st_wrs s) (st_n_bb s)).
  assert (length cur = S (length (st_cur s))) as Hcurlen.
  { unfold cur. rewrite length_app. cbn. lia. }
  assert (sge_bytes (mk_sge addr (u32 n) k) = seg_bytes addr n k) as Hsge.
  { unfold sge_bytes; cbn. by rewrite u32_small by lia. }
  assert (count_ok i (st_wrs s) j') as Hcount'.
  { destruct Hcount as (full & ? & ? & ?). exists full. lia. }
  assert (while_inv i r rkey rout s') as Hinv'.
  { constructor; unfold s'; sgl_proj; try done; try lia.
    - unfold local_out in *. unfold cur.
      rewrite app_assoc, flat_map_app, Hl, Hcons. cbn. by rewrite Hsge, app_nil_r.
    - unfold cur. rewrite flat_map_app, length_app; cbn [flat_map].
      rewrite Hsge, app_nil_r, Nat2Z.inj_add, Htot, seg_bytes_length; lia.
    - destruct Hprog as [->|[-> ->]]; [case_match|rewrite Z.eqb_refl]; lia. }
  destruct (length cur =? SNAP_DMA_Q_MAX_SGE_NUM)%nat eqn:Efull.
  2:{ right. exists s'. cbn [andb]. split; [done|]. split; [done|]. split; [|done].
      intros _. cbn. apply Nat.eqb_neq in Efull. lia. }
  destruct (0 <? len') eqn:Elen; cbn [andb]; bool_to_prop.
  2:{ right. exists s'. split; [done|]. split; [done|]. split; [|done].
      intros ?. cbn in *. lia. }
  destruct (close_wr r rkey s') as [wrs n_bb] eqn:Hclose.
  destruct (close_wr_spec _ _ _ _ _ _ _ Hr Hinv' Hclose) as (H1 & H2 & H3 & H4 & H5 & H6).
  assert (count_ok i wrs j') as Hcount2.
  { destruct Hcount as (full & ? & ? & ?). exists (S full).
    pose proof (wi_segs _ _ _ _ _ Hinv') as Hs'. unfold s' in *. sgl_proj_in H4 H6 Hs'.
    replace (len' =? 0) with false in Hs' by (symmetry; apply Z.eqb_neq; lia).
    apply Nat.eqb_eq in Efull. rewrite H4, H6. unfold SNAP_DMA_Q_MAX_SGE_NUM in *. lia. }
  destruct (_ <=? _)%nat eqn:Ek.
  { left. split; [done|]. apply Nat.leb_le in Ek. destruct Hc'.
    by apply (count_ok_fits i wrs j'). }
  right. eexists. split; [done|].
  apply Nat.leb_gt in Ek. split; [|split; [intros _; cbn; unfold SNAP_DMA_Q_MAX_SGE_NUM; lia|done]].
  destruct Hcount2 as (full & ? & ? & ?).
  constructor; cbn in *; try done; try lia. by exists full.
Qed.

(** The inner loop ends within its fuel, in a state where the remote element
    or the local vector is used up. *)
Lemma sgl_while_spec i r rkey rout fuel : forall s,
  (i < length (io_riov io))%nat -> iov_wf r -> while_inv i r rkey rout s -> has_room s ->
  (length (io_liov io) - st_j s < fuel)%nat ->
  (sgl_while fuel io r rkey s = Err (-1) /\ ~ sgl_fits) \/
  exists s', sgl_while fuel io r rkey s = Ok s' /\ while_inv i r rkey rout s' /\
    (st_len_to_handle s' = 0 \/ st_j s' = length (io_liov io)).
Proof.
  induction fuel as [|fuel IH]; intros s Hi Hr Hinv Hroom Hfuel; [lia|]. cbn [sgl_while].
  pose proof (proj1 (wi_cursor _ _ _ _ _ Hinv)). pose proof (wi_len _ _ _ _ _ Hinv).
  destruct (_ && _) eqn:E; bool_to_prop.
  - apply Nat.ltb_lt in H1.
    destruct (sgl_iter_spec i r rkey rout s) as [[-> ?]|(s1 & -> & Hinv1 & Hroom1 & Hprog)];
      [done..|by left|]. cbn [res_bind].
    destruct Hprog as [Hj|[Hj Hz]]; [apply IH; [done..|lia]|].
    right. exists s1. rewrite <- Hj in *. split; [|split; [done|by left]].
    destruct fuel; cbn [sgl_while]; rewrite Hz, andb_false_r; done.
  - right. exists s. split; [done|]. split; [done|].
    destruct E as [E%Nat.ltb_ge|E%Z.ltb_ge]; [right|left]; lia.
Qed.

(** The invariant of the outer loop, after [i] remote elements with bytes
    [rdone]. *)
Record for_inv (i : nat) (rdone : list (Z * Z)) (s : sgl_st) : Prop := {
  fi_cursor : cursor_ok (st_j s) (st_left s) (st_offset s);
  fi_local : local_out (st_wrs s) [] = consumed (st_j s) (st_offset s);
  fi_wrs : Forall wr_ok (st_wrs s);
  fi_k : (length (st_wrs s) <= SNAP_DMA_Q_MAX_WR_CNT)%nat;
  fi_bb : st_n_bb s = bb_sum (st_wrs s);
  fi_count : count_ok i (st_wrs s) (st_j s);
  fi_prefix : remote_out (st_wrs s) `prefix_of` rdone;
  fi_remote : remote_out (st_wrs s) = rdone \/ st_j s = length (io_liov io)
}.

Lemma while_inv_start i r rkey rdone s :
  iov_wf r -> for_inv i rdone s -> (length (st_wrs s) < SNAP_DMA_Q_MAX_WR_CNT)%nat ->
  while_inv i r rkey (remote_out (st_wrs s))
    (mk_sgl (st_j s) (st_left s) (st_offset s) (iov_len r) 0 0 [] (st_wrs s) (st_n_bb s)).
Proof.
  intros Hr [Hc Hl Hw Hk Hbb Hcount _ _] Hlt. unfold iov_wf in Hr.
  constructor; cbn; try done; try lia; [by rewrite app_nil_r|].
  destruct Hcount as (full & ? & ? & ?). lia.
Qed.

Lemma sgl_remote_spec i r rkey rdone s :
  (i < length (io_riov io))%nat -> iov_wf r -> for_inv i rdone s ->
  (sgl_remote (S (length (io_liov io))) io r rkey s = Err (-1) /\ ~ sgl_fits) \/
  exists s', sgl_remote (S (length (io_liov io))) io r rkey s = Ok s' /\
    for_inv (S i) (rdone ++ seg_bytes (iov_base r) (iov_len r) rkey) s'.
Proof.
  intros Hi Hr Hfor. pose proof Hfor as [Hc Hl Hw Hk Hbb Hcount Hpre Hrem]. unfold sgl_remote.
  destruct (_ <=? _)%nat eqn:Ek.
  { left. split; [done|]. apply Nat.leb_le in Ek. destruct Hc.
    by apply (count_ok_fits i (st_wrs s) (st_j s)). }
  apply Nat.leb_gt in Ek.
  pose proof (while_inv_start i r rkey rdone s Hr Hfor Ek) as Hinv.
  set (s0 := mk_sgl _ _ _ _ _ _ _ _ _) in *.
  destruct (decide (st_j s = length (io_liov io))) as [Hend|Hmore].
  - assert (sgl_while (S (length (io_liov io))) io r rkey s0 = Ok s0) as ->.
    { cbn [sgl_while]. by rewrite (proj2 (Nat.ltb_ge _ _)) by (cbn; lia). }
    cbn [res_bind]. destruct (close_wr r rkey s0) as [wrs n_bb] eqn:Hclose.
    destruct (close_wr_spec _ _ _ _ _ _ _ Hr Hinv Hclose) as (H1 & H2 & H3 & H4 & H5 & H6).
    cbn in H3, H4, H6. rewrite app_nil_r in H3.
    right. eexists. split; [done|]. constructor; sgl_proj; try done; [lia| | |by right].
    { destruct Hcount as (full & ? & ? & ?). exists full. rewrite H4, H6. change (st_j s0) with (st_j s). lia. }
    rewrite H3. by apply prefix_app_r.
  - destruct Hrem as [Hrem|?]; [|done]. rewrite Hrem in Hinv.
    destruct (sgl_while_spec i r rkey rdone (S (length (io_liov io))) s0)
      as [[-> ?]|(s' & -> & Hinv' & Hdone)];
      [done|done|done|intros _; unfold SNAP_DMA_Q_MAX_SGE_NUM; cbn; lia|cbn; lia|by left|].
    cbn [res_bind]. destruct (close_wr r rkey s') as [wrs n_bb] eqn:Hclose.
    destruct (close_wr_spec _ _ _ _ _ _ _ Hr Hinv' Hclose) as (H1 & H2 & H3 & H4 & H5 & H6).
    pose proof Hinv' as [Hc' _ _ Htot Hcon Hlen Hsum _ _ Hk' _ (full & Hf1 & Hf2 & Hf3) Hsegs].
    right. eexists. split; [done|]. constructor; sgl_proj; try done; [lia| | |].
    { exists full. case_match; lia. }
    + rewrite H3. apply prefix_app. rewrite (seg_bytes_split _ (iov_len r)
        (st_wr_consumed_len s' + st_sge_total_len s')) by lia. by apply prefix_app_r.
    + destruct Hdone as [Hz|Hj]; [left|by right]. rewrite H3. do 2 f_equal. lia.
Qed.

Lemma sgl_for_spec rs : forall i rkeys rdone s,
  (i + length rs = length (io_riov io))%nat ->
  Forall iov_wf rs -> length rkeys = length rs -> for_inv i rdone s ->
  (sgl_for (S (length (io_liov io))) io rs rkeys s = Err (-1) /\ ~ sgl_fits) \/
  exists s', sgl_for (S (length (io_liov io))) io rs rkeys s = Ok s' /\
    for_inv (length (io_riov io)) (rdone ++ iov_bytes rs rkeys) s'.
Proof.
  induction rs as [|r rs IH]; intros i [|rkey rkeys] rdone s Hi Hrs Hlen Hfor; try done.
  - right. exists s. cbn in *. rewrite app_nil_r, <- Hi, Nat.add_0_r. done.
  - inversion Hrs as [|? ? Hr Hrs']; subst. cbn [sgl_for].
    destruct (sgl_remote_spec i r rkey rdone s) as [[-> ?]|(s1 & -> & Hfor1)];
      [cbn in Hi; lia|done|done|by left|].
    cbn [res_bind]. unfold iov_bytes in *. cbn [zip_with flat_map].
    rewrite app_assoc. apply (IH (S i)); [cbn in Hi; lia|done|by injection Hlen|done].
Qed.

Lemma for_inv_init : for_inv 0 [] sgl_init.
Proof.
  unfold sgl_init. constructor; sgl_proj; try done;
    [|by rewrite consumed_0|cbn; lia|by exists 0%nat|by left].
  split; [lia|by left].
Qed.

Lemma consumed_prefix j lft offset :
  cursor_ok j lft offset -> consumed j offset `prefix_of` iov_bytes (io_liov io) (io_lkey io).
Proof.
  intros [Hj Hcur].
  rewrite <- (take_drop j (io_liov io)) at 1. rewrite <- (take_drop j (io_lkey io)) at 1.
  rewrite iov_bytes_app by (rewrite !length_take, (wf_lkey io Hwf); done).
  apply prefix_app. destruct (io_liov io !! j) as [v|] eqn:Hv; [|apply prefix_nil].
  destruct (lkey_lookup j v Hv) as [k Hk]. rewrite Hk.
  rewrite (drop_S _ _ _ Hv), (drop_S _ _ _ Hk). cbn. apply prefix_app_r.
  assert (iov_wf v) as Hvwf by (eapply Forall_lookup_1; [apply (wf_liov io Hwf)|done]).
  unfold iov_wf in Hvwf.
  rewrite (seg_bytes_split _ (iov_len v) offset); [by apply prefix_app_r|].
  destruct Hcur as [[-> ->]|(v' & ? & ?)]; [lia|]. simplify_eq. lia.
Qed.

Lemma consumed_end : consumed (length (io_liov io)) 0 = iov_bytes (io_liov io) (io_lkey io).
Proof. rewrite consumed_0, firstn_all. by rewrite <- (wf_lkey io Hwf), firstn_all. Qed.
End Builder.

(** The transfer of balanced work requests pairs their local and remote bytes. *)
Lemma transfer_zip wrs :
  Forall wr_ok wrs -> transfer wrs = zip (local_out wrs []) (remote_out wrs) /\
  length (local_out wrs []) = length (remote_out wrs).
Proof.
  unfold transfer, local_out, remote_out. rewrite app_nil_r.
  induction 1 as [|w wrs [_ Hw] _ [IH1 IH2]]; [done|]. cbn [flat_map].
  rewrite flat_map_app, zip_with_app, !length_app by done. by rewrite IH1, IH2, Hw.
Qed.

Lemma zip_prefix {A B} (l1 l1' : list A) (l2 l2' : list B) :
  length l1 = length l2 -> l1 `prefix_of` l1' -> l2 `prefix_of` l2' ->
  l1 = l1' \/ l2 = l2' -> zip l1 l2 = zip l1' l2'.
Proof.
  intros Hlen [x ->] [y ->] H. rewrite zip_with_app by done.
  enough (zip x y = []) as -> by by rewrite app_nil_r.
  destruct H as [H|H]; apply (f_equal length) in H; rewrite length_app in H;
    [destruct x; [done|cbn in H; lia]|destruct y; [by destruct x|cbn in H; lia]].
Qed.

(** The part of the result the posting loop relies on. *)
Lemma build_sgl_ok io :
  io_attr_wf io ->
  snap_dma_build_sgl io = Err (-1) \/
  exists wrs, snap_dma_build_sgl io = Ok (wrs, bb_sum wrs) /\ Forall wr_ok wrs.
Proof.
  intros Hwf. unfold snap_dma_build_sgl.
  destruct (sgl_for_spec io Hwf (io_riov io) 0 (io_rkey io) [] sgl_init) as [[-> ?]|(s & -> & Hinv)];
    [done|apply (wf_riov io Hwf)|apply (wf_rkey io Hwf)|apply (for_inv_init io)|by left|].
  destruct Hinv as [_ _ Hw _ Hbb _ _ _]. right. exists (st_wrs s). cbn [res_bind]. by rewrite Hbb.
Qed.

(** * Properties *)

(** C28: the work requests [snap_dma_build_sgl] builds move exactly what the io
    vectors describe: the n-th byte of the local vector, with its key, is
    paired with the n-th byte of the remote vector, up to the end of the
    shorter one. Every work request has at most 20 local segments, whose
    lengths add up to its remote length; there are at most 128; and the
    number of basic blocks is the sum of theirs. The builder always returns:
    it fails only with -1 and only when the vectors can need more than 128
    work requests. *)
Theorem build_sgl_transfer io :
  io_attr_wf io ->
  (snap_dma_build_sgl io = Err (-1) /\ ~ sgl_fits io) \/
  exists wrs n_bb,
    snap_dma_build_sgl io = Ok (wrs, n_bb) /\
    transfer wrs = zip (iov_bytes (io_liov io) (io_lkey io)) (iov_bytes (io_riov io) (io_rkey io)) /\
    Forall wr_ok wrs /\ (length wrs <= SNAP_DMA_Q_MAX_WR_CNT)%nat /\ n_bb = bb_sum wrs.
Proof.
  intros Hwf. unfold snap_dma_build_sgl.
  destruct (sgl_for_spec io Hwf (io_riov io) 0 (io_rkey io) [] sgl_init) as [[-> ?]|(s & -> & Hinv)];
    [done|apply (wf_riov io Hwf)|apply (wf_rkey io Hwf)|apply (for_inv_init io)|by left|].
  right. exists (st_wrs s), (st_n_bb s). split; [done|].
  destruct Hinv as [Hc Hl Hw Hk Hbb _ Hpre Hrem]. cbn [app] in Hpre, Hrem.
  split; [|done]. destruct (transfer_zip _ Hw) as [-> Hlen].
  apply zip_prefix; [done|rewrite Hl; by eapply consumed_prefix|done|].
  destruct Hrem as [Hrem|Hj]; [by right|left].
  rewrite Hl, Hj. destruct Hc as [_ [[_ ->]|(v & Hv & _)]]; [by apply consumed_end|].
  rewrite Hj in Hv. apply lookup_lt_Some in Hv. lia.
Qed.

Lemma build_sgl_transfer_witness :
  let io := mk_io_attr [7; 8] [mk_iovec 4096 300; mk_iovec 8192 100]
                       [9; 9] [mk_iovec 65536 100; mk_iovec 131072 300] in
  (snap_dma_build_sgl io = Err (-1) /\ ~ sgl_fits io) \/
  exists wrs n_bb,
    snap_dma_build_sgl io = Ok (wrs, n_bb) /\
    transfer wrs = zip (iov_bytes (io_liov io) (io_lkey io)) (iov_bytes (io_riov io) (io_rkey io)) /\
    Forall wr_ok wrs /\ (length wrs <= SNAP_DMA_Q_MAX_WR_CNT)%nat /\ n_bb = bb_sum wrs.
Proof.
  intros io. apply (build_sgl_transfer io).
  constructor; [done|done|repeat constructor; cbn; lia..].
Defined.

(** A run of the builder, evaluated. *)
Example build_sgl_example :
  snap_dma_build_sgl
    (mk_io_attr [7; 8] [mk_iovec 4096 300; mk_iovec 8192 100]
                [9; 9] [mk_iovec 65536 100; mk_iovec 131072 300]) =
  Ok ([mk_wr [mk_sge 4096 100 7] (mk_sge 65536 100 9);
       mk_wr [mk_sge 4196 200 7; mk_sge 8192 100 8] (mk_sge 131072 300 9)], 2).
Proof. reflexivity. Qed.

(** when the vectors have the same number of bytes and no local element is
    empty, the builder uses up the local vector, as the comment after its
    loops expects: the cursor is past the last element and nothing is left of
    it. *)
Theorem build_sgl_uses_all io s :
  io_attr_wf io -> Forall (fun v => 0 < iov_len v) (io_liov io) ->
  length (iov_bytes (io_liov io) (io_lkey io)) = length (iov_bytes (io_riov io) (io_rkey io)) ->
  sgl_for (S (length (io_liov io))) io (io_riov io) (io_rkey io) sgl_init = Ok s ->
  st_j s = length (io_liov io) /\ st_left s = 0.
Proof.
  intros Hwf Hpos Heq Hok.
  destruct (sgl_for_spec io Hwf (io_riov io) 0 (io_rkey io) [] sgl_init) as [[? ?]|(s' & Hs' & Hinv)];
    [done|apply (wf_riov io Hwf)|apply (wf_rkey io Hwf)|apply (for_inv_init io)|congruence|].
  rewrite Hok in Hs'. injection Hs' as <-.
  destruct Hinv as [Hc Hl Hw _ _ _ _ Hrem]. cbn [app] in Hrem.
  destruct (transfer_zip _ Hw) as [_ Hlen].
  assert (st_j s = length (io_liov io)) as Hj.
  { destruct Hrem as [Hrem|?]; [|done].
    destruct (decide (st_j s < length (io_liov io))%nat) as [Hlt|]; [exfalso|destruct Hc; lia].
    destruct (lookup_lt_is_Some_2 _ _ Hlt) as [v Hv].
    destruct (lkey_lookup io Hwf _ _ Hv) as [k Hk].
    assert (0 < iov_len v) as Hv0 by (eapply Forall_lookup_1 in Hpos; eauto).
    assert (iov_wf v) as Hvwf by (eapply Forall_lookup_1; [apply (wf_liov io Hwf)|done]).
    unfold iov_wf in Hvwf.
    assert (st_offset s < iov_len v /\ 0 <= st_offset s) as [Ho1 Ho2].
    { destruct Hc as [_ [[_ ->]|(v' & ? & ?)]]; [lia|]. simplify_eq. lia. }
    assert (cursor_ok io (S (st_j s)) 0 0) as Hc' by (split; [lia|by left]).
    pose proof (prefix_length _ _ (consumed_prefix io Hwf _ _ _ Hc')) as Hmax.
    rewrite (consumed_S io Hwf _ v k Hv Hk) in Hmax.
    rewrite <- (Zplus_minus (st_offset s) (iov_len v)), (consumed_add io _ v k) in Hmax by (done || lia).
    rewrite length_app in Hmax.
    pose proof (seg_bytes_length (iov_base v + st_offset s) (iov_len v - st_offset s) k).
    rewrite <- Hl, Hlen, Hrem in Hmax. lia. }
  split; [done|]. destruct Hc as [_ [[-> _]|(v & Hv & _)]]; [done|].
  rewrite Hj in Hv. apply lookup_lt_Some in Hv. lia.
Qed.

Lemma build_sgl_uses_all_witness :
  let io := mk_io_attr [7] [mk_iovec 4096 300] [9; 9] [mk_iovec 65536 100; mk_iovec 131072 200] in
  exists s, sgl_for 2 io (io_riov io) (io_rkey io) sgl_init = Ok s /\
            st_j s = 1%nat /\ st_left s = 0.
Proof.
  intros io.
  assert (exists s, sgl_for 2 io (io_riov io) (io_rkey io) sgl_init = Ok s) as [s Hs].
  { eexists. vm_compute. reflexivity. }
  exists s. split; [done|]. apply (build_sgl_uses_all io s); [|by repeat constructor|by vm_compute|done].
  constructor; [done|done|repeat constructor; cbn; lia..].
Defined.
