(* ===== verification/DmaWqe.v ===== *)
(** Work-queue entries in the send-queue buffer of a DMA queue
    (src/src/snap_dma_dv.c, src/src/snap_dma_internal.h): how the control,
    address and data segments and the inline payload of an entry are laid out
    in the circular buffer. *)

From S2P Require Import Prelude DmaSgl.

(** * Symbolic memory

    The segments are built with helpers of rdma-core ([mlx5dv_set_ctrl_seg],
    [mlx5dv_set_data_seg]) whose bit layout the code does not depend on. A
    byte of the buffer is therefore a payload byte, or the [k]-th byte of a
    segment with given fields. *)

Record ctrl_seg := mk_ctrl {
  cs_pi : Z;
  cs_opcode : Z;
  cs_opmod : Z;
  cs_fm_ce_se : Z;
  cs_ds : Z;
  cs_imm : Z
}.

Inductive segment :=
| SegCtrl (c : ctrl_seg)
| SegRaddr (raddr rkey : Z)
| SegData (byte_count lkey addr : Z)
| SegInl (byte_count : Z).

Inductive memval :=
| Undef
| Byte (b : Z)
| Frag (s : segment) (k : nat).

#[export] Instance memval_inhabited : Inhabited memval := populate Undef.

(** Bytes the code writes for a segment: the reserved word of a remote-address
    segment is not written. *)
Definition seg_size (s : segment) : nat :=
  match s with
  | SegCtrl _ => 16
  | SegRaddr _ _ => 12
  | SegData _ _ _ => 16
  | SegInl _ => 4
  end.

Definition seg_frags (s : segment) : list memval := map (Frag s) (seq 0 (seg_size s)).

Definition MLX5_SEND_WQE_BB : nat := 64.

Definition MLX5_OPCODE_RDMA_WRITE : Z := 8.
Definition MLX5_OPCODE_SEND : Z := 10.
Definition MLX5_OPCODE_SEND_IMM : Z := 11.
Definition MLX5_OPCODE_RDMA_READ : Z := 16.
Definition MLX5_OPCODE_MMO : Z := 47.
Definition MLX5_OPC_MOD_MMO_DMA : Z := 1.

(** [memcpy(dst + off, src, n)]: [None] when it reads past [src] or writes
    past the buffer. *)
Definition memcpy (dst : list memval) (off : nat) (src : list memval) (n : nat)
  : option (list memval) :=
  if decide (n <= length src /\ off + n <= length dst)%nat
  then Some (take off dst ++ take n src ++ drop (off + n) dst)
  else None.

Definition store (buf : list memval) (off : nat) (l : list memval) : option (list memval) :=
  memcpy buf off l (length l).

(** [n] bytes from [off], around the end of the buffer. *)
Definition circ_read (buf : list memval) (off n : nat) : list memval :=
  map (fun k => buf !!! ((off + k) mod length buf)%nat) (seq 0 n).

(** Reference store: [l] is written at distance [a] from [bb], byte by byte,
    around the end of the buffer. *)
Definition circ_store (buf : list memval) (bb a : nat) (l : list memval) : list memval :=
  imap (fun i x =>
    let k := ((i + (length buf - bb)) mod length buf)%nat in
    if decide (a <= k < a + length l)%nat then l !!! (k - a)%nat else x) buf.

(** * Layout of the entries *)

(** [snap_dv_get_wqe_bb]: offset of the basic block of producer index [pi]. *)
Definition snap_dv_get_wqe_bb (wqe_cnt pi : Z) : nat :=
  (Z.to_nat (Z.land pi (wqe_cnt - 1)) * MLX5_SEND_WQE_BB)%nat.

(** The entry of [do_dv_dma_xfer]: control, remote address and one data
    segment, all in one basic block. *)
Definition put_xfer (buf : list memval) (bb : nat) (c : ctrl_seg) (raddr rkey len lkey addr : Z)
  : option (list memval) :=
  buf ← store buf bb (seg_frags (SegCtrl c));
  buf ← store buf (bb + 16) (seg_frags (SegRaddr raddr rkey));
  store buf (bb + 32) (seg_frags (SegData len lkey addr)).

(** The entry of [do_dv_xfer_inline]. [to_end] is the room between the payload
    and the end of the buffer. *)
Definition put_inline (buf : list memval) (wqe_cnt : Z) (bb : nat) (c : ctrl_seg)
    (is_write is_flush : bool) (raddr rkey : Z) (src : list memval) (len : nat)
  : option (list memval) :=
  buf ← store buf bb (seg_frags (SegCtrl c));
  buf ← (if is_write then store buf (bb + 16) (seg_frags (SegRaddr raddr rkey)) else Some buf);
  let dseg := (if is_write then bb + 32 else bb + 16)%nat in
  buf ← store buf dseg (seg_frags (SegInl (Z.of_nat len)));
  let pdata := (dseg + 4)%nat in
  let to_end := (Z.to_nat wqe_cnt * MLX5_SEND_WQE_BB - pdata)%nat in
  if is_flush then Some buf
  else if (to_end <? len)%nat then
    buf ← memcpy buf pdata src to_end;
    memcpy buf 0 (drop to_end src) (len - to_end)
  else memcpy buf pdata src len.

(** [sizeof(struct mlx5_wqe_inl_data_seg) + in_len] rounded up to 16 bytes
    takes [complement] more bytes. *)
Definition inl_complement (in_len : nat) : nat :=
  if ((4 + in_len) mod 16 =? 0)%nat then 0%nat else (16 - (4 + in_len) mod 16)%nat.

(** The entry of [do_dv_send]: control, inline segment and one data segment.
    The size of the second copy, [in_len - to_end], is unsigned: when it is
    negative the copy has no bound. *)
Definition put_send (buf : list memval) (wqe_cnt : Z) (bb : nat) (c : ctrl_seg)
    (in_buf : list memval) (in_len : nat) (len key addr : Z) : option (list memval) :=
  let complement := inl_complement in_len in
  buf ← store buf bb (seg_frags (SegCtrl c));
  buf ← store buf (bb + 16) (seg_frags (SegInl (Z.of_nat in_len)));
  let pdata := (bb + 20)%nat in
  let to_end := (Z.to_nat wqe_cnt * MLX5_SEND_WQE_BB - pdata)%nat in
  if (to_end <? in_len + complement + 16)%nat then
    buf ← memcpy buf pdata in_buf to_end;
    if (in_len <? to_end)%nat then None
    else
      buf ← memcpy buf 0 (drop to_end in_buf) (in_len - to_end);
      store buf (in_len - to_end + complement) (seg_frags (SegData len key addr))
  else
    buf ← memcpy buf pdata in_buf in_len;
    store buf (pdata + in_len + complement) (seg_frags (SegData len key addr)).

(** The data segments of [do_dv_dma_xfer_v2v]: [dseg] is the offset of the
    next segment and [to_end] the room from there to the end of the buffer. *)
Fixpoint put_dsegs (buf : list memval) (size dseg to_end : nat) (sges : list ibv_sge)
  : option (list memval) :=
  match sges with
  | [] => Some buf
  | s :: sges' =>
    buf ← store buf dseg (seg_frags (SegData (sge_length s) (sge_lkey s) (sge_addr s)));
    let to_end := (to_end - 16)%nat in
    if (to_end =? 0)%nat then put_dsegs buf size 0 size sges'
    else put_dsegs buf size (dseg + 16) to_end sges'
  end.

(** One entry of [do_dv_dma_xfer_v2v], which also clears the reserved word. *)
Definition put_v2v (buf : list memval) (wqe_cnt : Z) (bb : nat) (c : ctrl_seg) (w : work_req)
  : option (list memval) :=
  let size := (Z.to_nat wqe_cnt * MLX5_SEND_WQE_BB)%nat in
  buf ← store buf bb (seg_frags (SegCtrl c));
  buf ← store buf (bb + 16)
          (seg_frags (SegRaddr (sge_addr (wr_r_sge w)) (sge_lkey (wr_r_sge w))) ++ replicate 4 (Byte 0));
  put_dsegs buf size (bb + 32) (size - bb - 32) (wr_l_sgl w).

(** The entry of [do_gga_dma_xfer]: control, the 16 bytes of [gga_ctrl2],
    [opaque_lkey] and [opaque_vaddr], a gather and a scatter segment. *)
Definition put_gga (buf : list memval) (bb : nat) (c : ctrl_seg)
    (len s_lkey saddr d_lkey daddr : Z) (opaque : list memval) : option (list memval) :=
  buf ← store buf bb (seg_frags (SegCtrl c));
  buf ← store buf (bb + 16) opaque;
  buf ← store buf (bb + 32) (seg_frags (SegData len s_lkey saddr));
  store buf (bb + 48) (seg_frags (SegData len d_lkey daddr)).

(** * Lemmas *)

Lemma memcpy_Some dst off src n :
  (n <= length src)%nat -> (off + n <= length dst)%nat -> exists d, memcpy dst off src n = Some d.
Proof. intros H1 H2. unfold memcpy. rewrite decide_True by lia. eauto. Qed.

Lemma memcpy_length dst off src n d : memcpy dst off src n = Some d -> length d = length dst.
Proof.
  unfold memcpy. case_decide as H; [|done]. intros [= <-].
  rewrite !length_app, length_take, length_take, length_drop. lia.
Qed.

Lemma memcpy_lookup dst off src n d i :
  memcpy dst off src n = Some d ->
  d !!! i = if decide (off <= i < off + n)%nat then src !!! (i - off)%nat else dst !!! i.
Proof.
  unfold memcpy. case_decide as H; [|done]. intros [= <-].
  rewrite !list_lookup_total_alt.
  destruct (decide (i < off)%nat) as [Hlt|Hge].
  { rewrite decide_False by lia. rewrite lookup_app_l by (rewrite length_take; lia).
    by rewrite lookup_take_lt by lia. }
  rewrite lookup_app_r by (rewrite length_take; lia). rewrite length_take, Nat.min_l by lia.
  case_decide.
  - rewrite lookup_app_l by (rewrite length_take; lia). by rewrite lookup_take_lt by lia.
  - rewrite lookup_app_r by (rewrite length_take; lia). rewrite length_take, Nat.min_l by lia.
    rewrite lookup_drop. do 2 f_equal. lia.
Qed.

(** The position [k] bytes after [bb] in a circular buffer. *)
Lemma circ_index size bb k :
  (bb < size)%nat -> (k < size)%nat ->
  ((bb + k) mod size)%nat = if decide (bb + k < size)%nat then (bb + k)%nat else (bb + k - size)%nat.
Proof.
  intros Hbb Hk. case_decide; [by apply Nat.mod_small|].
  replace (bb + k)%nat with (bb + k - size + 1 * size)%nat at 1 by lia.
  rewrite Nat.Div0.mod_add. apply Nat.mod_small. lia.
Qed.

(** A byte of a buffer, by its distance from the start of an entry. *)
Definition at_dist (buf : list memval) (bb k : nat) : memval :=
  buf !!! ((bb + k) mod length buf)%nat.

(** Buffers are equal when they agree at every distance. *)
Lemma at_dist_ext b1 b2 bb :
  (bb < length b1)%nat -> length b2 = length b1 ->
  (forall k, (k < length b1)%nat -> at_dist b1 bb k = at_dist b2 bb k) -> b1 = b2.
Proof.
  intros Hbb Hlen Hk. apply list_eq_same_length with (length b1); [done..|].
  intros i x y Hi Hx Hy.
  pose proof (list_lookup_total_correct _ _ _ Hx) as <-.
  pose proof (list_lookup_total_correct _ _ _ Hy) as <-.
  destruct (decide (bb <= i)%nat).
  - specialize (Hk (i - bb)%nat). unfold at_dist in Hk. rewrite Hlen, !circ_index in Hk by lia.
    rewrite decide_True in Hk by lia. replace (bb + (i - bb))%nat with i in Hk by lia. apply Hk. lia.
  - specialize (Hk (length b1 - bb + i)%nat). unfold at_dist in Hk.
    rewrite Hlen, !circ_index in Hk by lia. rewrite decide_False in Hk by lia.
    replace (bb + (length b1 - bb + i) - length b1)%nat with i in Hk by lia. apply Hk. lia.
Qed.

Lemma circ_store_length buf bb a l : length (circ_store buf bb a l) = length buf.
Proof. apply length_imap. Qed.

Lemma circ_store_at buf bb a l k :
  (bb < length buf)%nat -> (k < length buf)%nat ->
  at_dist (circ_store buf bb a l) bb k =
    if decide (a <= k < a + length l)%nat then l !!! (k - a)%nat else at_dist buf bb k.
Proof.
  intros Hbb Hk. unfold at_dist. rewrite circ_store_length.
  set (i := ((bb + k) mod length buf)%nat).
  assert (i < length buf)%nat by (apply Nat.mod_upper_bound; lia).
  rewrite !(list_lookup_total_alt _ i). unfold circ_store. rewrite list_lookup_imap.
  destruct (lookup_lt_is_Some_2 buf i) as [x Hx]; [done|]. rewrite Hx. cbn.
  replace ((i + (length buf - bb)) mod length buf)%nat with k; [done|].
  unfold i. rewrite Nat.Div0.add_mod_idemp_l.
  replace (bb + k + (length buf - bb))%nat with (k + 1 * length buf)%nat by lia.
  by rewrite Nat.Div0.mod_add, Nat.mod_small.
Qed.

(** A circular read depends on the bytes it covers only. *)
Lemma circ_read_ext b1 b2 bb n :
  length b1 = length b2 -> (n <= length b1)%nat ->
  (forall k, (k < n)%nat -> at_dist b1 bb k = at_dist b2 bb k) ->
  circ_read b1 bb n = circ_read b2 bb n.
Proof.
  intros Hl Hn Hk. apply map_ext_in. intros k [_ Hin]%in_seq. apply Hk. lia.
Qed.

(** What was stored is read back. *)
Lemma circ_store_read buf bb a l :
  (bb < length buf)%nat -> (a + length l <= length buf)%nat ->
  circ_read (circ_store buf bb a l) (bb + a) (length l) = l.
Proof.
  intros Hbb Hl. apply list_eq. intros i. unfold circ_read.
  change (map ?f) with (fmap (M:=list) f). rewrite list_lookup_fmap.
  destruct (decide (i < length l)%nat) as [Hi|Hi].
  - rewrite lookup_seq_lt by done. cbn. rewrite <- Nat.add_assoc.
    change (?b !!! ((bb + (a + i)) mod _)%nat) with (at_dist b bb (a + i)).
    rewrite circ_store_at, decide_True by lia.
    replace (a + i - a)%nat with i by lia. symmetry. by apply list_lookup_lookup_total_lt.
  - rewrite !lookup_ge_None_2; [done|lia|rewrite length_seq; lia].
Qed.

(** Consecutive stores are one store. *)
Lemma circ_store_app buf bb a l1 l2 b :
  (bb < length buf)%nat -> b = (a + length l1)%nat ->
  circ_store (circ_store buf bb a l1) bb b l2 = circ_store buf bb a (l1 ++ l2).
Proof.
  intros Hbb ->. apply (at_dist_ext _ _ bb); rewrite ?circ_store_length; [done..|].
  intros k Hk. rewrite !circ_store_at by (rewrite ?circ_store_length; lia).
  rewrite length_app, !list_lookup_total_alt.
  destruct (decide (a + length l1 <= k < a + length l1 + length l2)%nat).
  - rewrite decide_True by lia. rewrite lookup_app_r by lia. do 2 f_equal. lia.
  - case_decide.
    + rewrite decide_True by lia. by rewrite lookup_app_l by lia.
    + by rewrite decide_False by lia.
Qed.

(** A copy inside the entry that stays before the end of the buffer. *)
Lemma memcpy_circ dst bb a src n :
  (bb + a + n <= length dst)%nat -> (bb < length dst)%nat -> (n <= length src)%nat ->
  memcpy dst (bb + a) src n = Some (circ_store dst bb a (take n src)).
Proof.
  intros Ha Hbb Hn. destruct (memcpy_Some dst (bb + a) src n) as [d Hd]; [done..|].
  rewrite Hd. f_equal. pose proof (memcpy_length _ _ _ _ _ Hd) as Hl.
  apply (at_dist_ext _ _ bb); [lia|by rewrite circ_store_length|].
  intros k Hk. rewrite circ_store_at by lia. unfold at_dist.
  rewrite Hl, (memcpy_lookup _ _ _ _ _ _ Hd), circ_index, length_take, Nat.min_l by lia.
  destruct (decide (a <= k < a + n)%nat).
  - rewrite (decide_True (P := (bb + k < length dst)%nat)) by lia. rewrite decide_True by lia.
    rewrite !list_lookup_total_alt, lookup_take_lt by lia. do 2 f_equal. lia.
  - rewrite (decide_False (P := (bb + a <= _ < _)%nat)); [done|]. case_decide; lia.
Qed.

(** A copy to the start of the buffer: the wrapped part of the entry. *)
Lemma memcpy_circ_wrap dst bb src n :
  (n <= bb)%nat -> (bb < length dst)%nat -> (n <= length src)%nat ->
  memcpy dst 0 src n = Some (circ_store dst bb (length dst - bb) (take n src)).
Proof.
  intros Hbn Hbb Hn. destruct (memcpy_Some dst 0 src n) as [d Hd]; [lia..|].
  rewrite Hd. f_equal. pose proof (memcpy_length _ _ _ _ _ Hd) as Hl.
  apply (at_dist_ext _ _ bb); [lia|by rewrite circ_store_length|].
  intros k Hk. rewrite circ_store_at by lia. unfold at_dist.
  rewrite Hl, (memcpy_lookup _ _ _ _ _ _ Hd), circ_index, length_take, Nat.min_l by lia.
  destruct (decide (length dst - bb <= k < length dst - bb + n)%nat).
  - rewrite (decide_False (P := (bb + k < length dst)%nat)) by lia. rewrite decide_True by lia.
    rewrite !list_lookup_total_alt, lookup_take_lt by lia. do 2 f_equal. lia.
  - rewrite (decide_False (P := (0 <= _ < _)%nat)); [done|]. case_decide; lia.
Qed.

Lemma store_circ dst bb a l :
  (bb + a + length l <= length dst)%nat -> (bb < length dst)%nat ->
  store dst (bb + a) l = Some (circ_store dst bb a l).
Proof. intros H1 H2. unfold store. rewrite memcpy_circ by lia. by rewrite firstn_all. Qed.

Lemma store_circ_wrap dst bb k l :
  (k + length l <= bb)%nat -> (bb < length dst)%nat ->
  store dst k l = Some (circ_store dst bb (length dst - bb + k) l).
Proof.
  intros Hk Hbb. destruct (memcpy_Some dst k l (length l)) as [d Hd]; [lia..|].
  unfold store. rewrite Hd. f_equal. pose proof (memcpy_length _ _ _ _ _ Hd) as Hl.
  apply (at_dist_ext _ _ bb); [lia|by rewrite circ_store_length|].
  intros j Hj. rewrite circ_store_at by lia. unfold at_dist.
  rewrite Hl, (memcpy_lookup _ _ _ _ _ _ Hd), circ_index by lia.
  destruct (decide (length dst - bb + k <= j < length dst - bb + k + length l)%nat).
  - rewrite (decide_False (P := (bb + j < length dst)%nat)) by lia. rewrite decide_True by lia.
    f_equal. lia.
  - rewrite (decide_False (P := (k <= _ < _)%nat)); [done|]. case_decide; lia.
Qed.

(** A copy at distance [hdr], cut in two at the end of the buffer when it does
    not fit, is a circular store. *)
Lemma put_payload dst bb hdr src len :
  (bb + hdr <= length dst)%nat -> (bb < length dst)%nat -> (hdr + len <= length dst)%nat ->
  (len <= length src)%nat ->
  let to_end := (length dst - (bb + hdr))%nat in
  (if (to_end <? len)%nat then
     buf ← memcpy dst (bb + hdr) src to_end; memcpy buf 0 (drop to_end src) (len - to_end)
   else memcpy dst (bb + hdr) src len) = Some (circ_store dst bb hdr (take len src)).
Proof.
  intros Hhdr Hbb Hfit Hsrc to_end.
  destruct (Nat.ltb_spec to_end len) as [E|E]; [|by rewrite memcpy_circ by lia].
  rewrite memcpy_circ by lia. cbn [mbind option_bind].
  rewrite (memcpy_circ_wrap _ bb) by (rewrite ?circ_store_length, ?length_drop; lia).
  rewrite circ_store_length, circ_store_app; [|done|rewrite length_take; lia].
  rewrite take_take_drop. do 3 f_equal. lia.
Qed.

Lemma seg_frags_length s : length (seg_frags s) = seg_size s.
Proof. unfold seg_frags. by rewrite length_map, length_seq. Qed.

(** * The entries are laid out circularly

    [size] is the length of the buffer in bytes; the entry starts at a basic
    block [bb] and must fit in the buffer. *)

(** Storing a whole list of segments. *)
Definition seg_list (l : list segment) : list memval := concat (map seg_frags l).

Ltac store_step :=
  rewrite store_circ by (rewrite ?circ_store_length, ?seg_frags_length; cbn [seg_size]; lia);
  cbn [mbind option_bind].

Lemma put_xfer_circ buf bb c raddr rkey len lkey addr :
  (bb + MLX5_SEND_WQE_BB <= length buf)%nat ->
  put_xfer buf bb c raddr rkey len lkey addr =
    Some (circ_store (circ_store buf bb 0 (seg_list [SegCtrl c; SegRaddr raddr rkey])) bb 32
            (seg_frags (SegData len lkey addr))).
Proof.
  intros Hbb. unfold MLX5_SEND_WQE_BB in Hbb. unfold put_xfer.
  rewrite <- (Nat.add_0_r bb) at 1. store_step. store_step.
  rewrite (circ_store_app _ _ _ _ _ 16) by (rewrite ?seg_frags_length; done || lia).
  rewrite store_circ by (rewrite ?circ_store_length, ?seg_frags_length; cbn [seg_size]; lia).
  do 2 f_equal.
Qed.

Lemma put_gga_circ buf bb c len s_lkey saddr d_lkey daddr opaque :
  (bb + MLX5_SEND_WQE_BB <= length buf)%nat -> length opaque = 16%nat ->
  put_gga buf bb c len s_lkey saddr d_lkey daddr opaque =
    Some (circ_store buf bb 0 (seg_frags (SegCtrl c) ++ opaque ++
            seg_frags (SegData len s_lkey saddr) ++ seg_frags (SegData len d_lkey daddr))).
Proof.
  intros Hbb Hop. unfold MLX5_SEND_WQE_BB in Hbb. unfold put_gga.
  rewrite <- (Nat.add_0_r bb) at 1. store_step. store_step. store_step.
  rewrite store_circ by (rewrite ?circ_store_length, ?seg_frags_length; cbn [seg_size]; lia).
  f_equal. rewrite !circ_store_app by (rewrite ?circ_store_length, ?length_app, ?seg_frags_length; cbn [seg_size]; lia).
  done.
Qed.

(** Distance of the inline payload from the start of the entry. *)
Definition inline_hdr (is_write : bool) : nat := if is_write then 36%nat else 20%nat.

(** The reference layout of an inline entry. *)
Definition inline_ref (buf : list memval) (bb : nat) (c : ctrl_seg) (is_write : bool)
    (raddr rkey : Z) (len : nat) (payload : list memval) : list memval :=
  circ_store
    (circ_store buf bb 0 (seg_list (SegCtrl c :: if is_write then [SegRaddr raddr rkey] else [])))
    bb (inline_hdr is_write - 4) (seg_frags (SegInl (Z.of_nat len)) ++ payload).

Lemma put_inline_circ buf wqe_cnt bb c (is_write is_flush : bool) raddr rkey src len :
  length buf = (Z.to_nat wqe_cnt * MLX5_SEND_WQE_BB)%nat ->
  (bb + MLX5_SEND_WQE_BB <= length buf)%nat -> (inline_hdr is_write + len <= length buf)%nat ->
  (len <= length src)%nat ->
  put_inline buf wqe_cnt bb c is_write is_flush raddr rkey src len =
    Some (inline_ref buf bb c is_write raddr rkey len (if is_flush then [] else take len src)).
Proof.
  intros Hsize Hbb Hfit Hsrc. unfold put_inline. rewrite <- Hsize.
  unfold MLX5_SEND_WQE_BB in *. clear Hsize.
  rewrite <- (Nat.add_0_r bb) at 1. store_step.
  set (b1 := circ_store buf bb 0 (seg_list (SegCtrl c :: if is_write then [SegRaddr raddr rkey] else []))).
  assert ((if is_write then store (circ_store buf bb 0 (seg_frags (SegCtrl c))) (bb + 16)
             (seg_frags (SegRaddr raddr rkey)) else Some (circ_store buf bb 0 (seg_frags (SegCtrl c))))
          = Some b1) as ->.
  { subst b1. destruct is_write; [|done]. store_step. f_equal.
    rewrite circ_store_app by (rewrite ?seg_frags_length; cbn [seg_size]; lia).
    unfold seg_list. cbn [map concat]. by rewrite app_nil_r. }
  cbn [mbind option_bind].
  assert (length b1 = length buf) as Hb1 by apply circ_store_length.
  replace (if is_write then (bb + 32)%nat else (bb + 16)%nat) with (bb + (inline_hdr is_write - 4))%nat
    by (destruct is_write; cbn; lia).
  assert (20 <= inline_hdr is_write <= 36)%nat as Hh by (destruct is_write; cbn; lia).
  unfold inline_ref. fold b1. set (hdr := inline_hdr is_write) in *.
  store_step. set (b2 := circ_store b1 _ _ _).
  assert (length b2 = length buf) as Hb2 by (subst b2; by rewrite circ_store_length).
  destruct is_flush; [by rewrite app_nil_r|].
  replace (bb + (hdr - 4) + 4)%nat with (bb + hdr)%nat by lia. rewrite <- Hb2.
  rewrite put_payload by lia. subst b2. rewrite circ_store_app; [done|lia|].
  rewrite seg_frags_length. cbn [seg_size]. lia.
Qed.

Lemma put_dsegs_circ bb size : forall sges buf a dseg to_end,
  length buf = size -> (bb < size)%nat -> (size mod 16 = 0)%nat -> (bb mod 16 = 0)%nat -> (a mod 16 = 0)%nat ->
  (a + 16 * length sges <= size)%nat -> (a < size)%nat ->
  dseg = ((bb + a) mod size)%nat -> to_end = (size - dseg)%nat ->
  put_dsegs buf size dseg to_end sges =
    Some (circ_store buf bb a
            (seg_list (map (fun s => SegData (sge_length s) (sge_lkey s) (sge_addr s)) sges))).
Proof.
  induction sges as [|s sges IH]; intros buf a dseg to_end Hsize Hbb Hs Hb Ha Hfit Hlt -> ->; cbn [put_dsegs].
  - f_equal. apply (at_dist_ext _ _ bb); rewrite ?circ_store_length; [lia..|].
    intros k Hk. rewrite circ_store_at by lia. by rewrite decide_False by (cbn; lia).
  - set (f := seg_frags _). cbn [length] in Hfit.
    assert (length f = 16%nat) as Hf by apply seg_frags_length.
    assert (store buf ((bb + a) mod size) f = Some (circ_store buf bb a f)) as ->.
    { rewrite circ_index by done. case_decide.
      - apply store_circ; [|lia]. rewrite Hf.
        pose proof (Nat.div_mod size 16). pose proof (Nat.div_mod bb 16).
        pose proof (Nat.div_mod a 16). lia.
      - rewrite (store_circ_wrap _ bb) by (rewrite ?Hf; lia). do 2 f_equal. lia. }
    cbn [mbind option_bind map]. unfold seg_list. cbn [map concat]. fold f.
    change (concat (map seg_frags (map ?g sges))) with (seg_list (map g sges)).
    rewrite <- (circ_store_app _ _ _ _ _ (a + 16)) by (rewrite ?Hf; lia).
    pose proof (Nat.div_mod size 16). pose proof (Nat.div_mod bb 16). pose proof (Nat.div_mod a 16).
    destruct sges as [|s' sges'].
    { cbn [put_dsegs]. rewrite Tauto.if_same. f_equal. cbn [map]. symmetry.
      apply (at_dist_ext _ _ bb); rewrite ?circ_store_length; [lia..|].
      intros k Hk. rewrite circ_store_at by (rewrite ?circ_store_length; lia).
      by rewrite decide_False by (cbn; lia). }
    cbn [length] in Hfit.
    assert (((a + 16) mod 16)%nat = 0%nat) by (replace (a + 16)%nat with (a + 1 * 16)%nat by lia; by rewrite Nat.Div0.mod_add).
    destruct (Nat.eqb_spec (size - (bb + a) mod size - 16) 0) as [E|E].
    + apply IH; rewrite ?circ_store_length; cbn [length]; try (done || lia).
      * rewrite circ_index in E |- * by lia. repeat case_decide; lia.
    + apply IH; rewrite ?circ_store_length; cbn [length]; try (done || lia).
      * rewrite circ_index in E |- * by lia. rewrite circ_index by lia. repeat case_decide; lia.
Qed.

Lemma put_v2v_circ buf wqe_cnt bb c w :
  length buf = (Z.to_nat wqe_cnt * MLX5_SEND_WQE_BB)%nat ->
  (bb + MLX5_SEND_WQE_BB <= length buf)%nat -> (bb mod MLX5_SEND_WQE_BB = 0)%nat ->
  (32 + 16 * length (wr_l_sgl w) <= length buf)%nat ->
  put_v2v buf wqe_cnt bb c w =
    Some (circ_store buf bb 0
      (seg_list [SegCtrl c; SegRaddr (sge_addr (wr_r_sge w)) (sge_lkey (wr_r_sge w))] ++
       replicate 4 (Byte 0) ++
       seg_list (map (fun s => SegData (sge_length s) (sge_lkey s) (sge_addr s)) (wr_l_sgl w)))).
Proof.
  intros Hsize Hbb Halign Hfit. unfold put_v2v. rewrite <- Hsize.
  unfold MLX5_SEND_WQE_BB in *.
  rewrite <- (Nat.add_0_r bb) at 1. store_step.
  rewrite store_circ by (rewrite ?circ_store_length, ?length_app, ?seg_frags_length; cbn; lia).
  cbn [mbind option_bind].
  pose proof (Nat.div_mod bb 64).
  rewrite (put_dsegs_circ bb (length buf) _ _ 32); rewrite ?circ_store_length; try (done || lia).
  - rewrite !circ_store_app by (rewrite ?circ_store_length, ?length_app, ?seg_frags_length; cbn; lia).
    unfold seg_list at 2. cbn [map concat]. by rewrite app_nil_r, <- !app_assoc.
  - rewrite Hsize. replace (Z.to_nat wqe_cnt * 64)%nat with (0 + Z.to_nat wqe_cnt * 4 * 16)%nat by lia.
    by rewrite Nat.Div0.mod_add.
  - replace bb with (0 + (bb / 64) * 4 * 16)%nat by lia. by rewrite Nat.Div0.mod_add.
  - rewrite Nat.mod_small; lia.
Qed.

(** The bytes of an entry of [do_dv_dma_xfer_v2v]. *)
Definition v2v_bytes (c : ctrl_seg) (w : work_req) : list memval :=
  seg_list [SegCtrl c; SegRaddr (sge_addr (wr_r_sge w)) (sge_lkey (wr_r_sge w))] ++
  replicate 4 (Byte 0) ++
  seg_list (map (fun s => SegData (sge_length s) (sge_lkey s) (sge_addr s)) (wr_l_sgl w)).

Lemma seg_list_data_length (f : ibv_sge -> segment) (l : list ibv_sge) :
  (forall s, seg_size (f s) = 16%nat) -> length (seg_list (map f l)) = (16 * length l)%nat.
Proof.
  intros Hf. induction l as [|s l IH]; [done|].
  unfold seg_list in *. cbn [map concat length]. rewrite length_app, seg_frags_length, Hf, IH. lia.
Qed.

Lemma v2v_bytes_length c w : length (v2v_bytes c w) = (32 + 16 * length (wr_l_sgl w))%nat.
Proof.
  unfold v2v_bytes. rewrite !length_app, length_replicate, (seg_list_data_length _ (wr_l_sgl w)) by done.
  cbn. lia.
Qed.

(** An entry of [do_dv_dma_xfer_v2v] read circularly from its first byte is
    its control segment, its remote address and its local segments one after
    the other, also when the entry goes around the end of the send-queue
    buffer; the bytes of the buffer outside of the entry are unchanged. *)
Theorem put_v2v_layout buf wqe_cnt bb c w :
  length buf = (Z.to_nat wqe_cnt * MLX5_SEND_WQE_BB)%nat ->
  (bb + MLX5_SEND_WQE_BB <= length buf)%nat -> (bb mod MLX5_SEND_WQE_BB = 0)%nat ->
  (32 + 16 * length (wr_l_sgl w) <= length buf)%nat ->
  exists buf',
    put_v2v buf wqe_cnt bb c w = Some buf' /\
    circ_read buf' bb (32 + 16 * length (wr_l_sgl w)) = v2v_bytes c w /\
    forall k, (32 + 16 * length (wr_l_sgl w) <= k < length buf)%nat ->
      at_dist buf' bb k = at_dist buf bb k.
Proof.
  intros Hsize Hbb Hal Hfit. eexists. split; [by apply put_v2v_circ|].
  fold (v2v_bytes c w). pose proof (v2v_bytes_length c w) as Hl.
  unfold MLX5_SEND_WQE_BB in Hbb. split.
  - rewrite <- Hl. pose proof (circ_store_read buf bb 0 (v2v_bytes c w)) as Hr.
    rewrite Nat.add_0_r in Hr. apply Hr; lia.
  - intros k Hk. rewrite circ_store_at by lia. by rewrite decide_False by lia.
Qed.

(** The payload of an inline entry ([do_dv_xfer_inline]) is found right
    after the inline segment when the buffer is read circularly, also when the
    copy is cut in two at the end of the buffer; the control segment is at the
    start of the entry, and the bytes outside of the entry are unchanged. *)
Theorem put_inline_layout buf wqe_cnt bb c (is_write : bool) raddr rkey src len :
  length buf = (Z.to_nat wqe_cnt * MLX5_SEND_WQE_BB)%nat ->
  (bb + MLX5_SEND_WQE_BB <= length buf)%nat -> (inline_hdr is_write + len <= length buf)%nat ->
  (len <= length src)%nat ->
  exists buf',
    put_inline buf wqe_cnt bb c is_write false raddr rkey src len = Some buf' /\
    length buf' = length buf /\
    circ_read buf' bb 16 = seg_frags (SegCtrl c) /\
    circ_read buf' (bb + (inline_hdr is_write - 4)) (4 + len) =
      seg_frags (SegInl (Z.of_nat len)) ++ take len src /\
    forall k, (inline_hdr is_write + len <= k < length buf)%nat ->
      at_dist buf' bb k = at_dist buf bb k.
Proof.
  intros Hsize Hbb Hfit Hsrc. exists (inline_ref buf bb c is_write raddr rkey len (take len src)).
  rewrite put_inline_circ by done. unfold inline_ref, MLX5_SEND_WQE_BB in *.
  assert (20 <= inline_hdr is_write <= 36)%nat as Hh by (destruct is_write; cbn; lia).
  set (pl := seg_frags (SegInl _) ++ take len src).
  assert (length pl = (4 + len)%nat) as Hpl
    by (subst pl; rewrite length_app, seg_frags_length, length_take; cbn [seg_size]; lia).
  set (b1 := circ_store buf bb 0 _).
  assert (length b1 = length buf) as Hb1 by apply circ_store_length.
  split; [done|]. split; [by rewrite circ_store_length|]. split; [|split].
  - replace 16%nat with (length (seg_frags (SegCtrl c))) by apply seg_frags_length.
    transitivity (circ_read (circ_store buf bb 0 (seg_frags (SegCtrl c))) (bb + 0) (length (seg_frags (SegCtrl c)))).
    + rewrite Nat.add_0_r. apply circ_read_ext; rewrite ?circ_store_length, ?seg_frags_length; cbn [seg_size]; [lia..|].
      intros k Hk.
      rewrite circ_store_at by lia. rewrite decide_False by lia. subst b1.
      rewrite !circ_store_at by lia. unfold seg_list. cbn [map concat].
      rewrite !decide_True by (rewrite ?length_app, ?seg_frags_length; cbn; lia).
      rewrite !list_lookup_total_alt, lookup_app_l by (rewrite ?seg_frags_length; cbn; lia). done.
    + apply circ_store_read; rewrite ?seg_frags_length; cbn [seg_size]; lia.
  - rewrite <- Hpl. apply circ_store_read; lia.
  - intros k Hk. rewrite circ_store_at by lia. rewrite decide_False by lia. subst b1.
    rewrite circ_store_at, decide_False by (try lia; destruct is_write; cbn in *; lia). done.
Qed.

(** What [do_dv_send] writes, exactly: a control segment, the inline
    segment with its payload and, after the padding, the data segment, laid
    out circularly; except when the payload ends before the end of the buffer
    and the data segment does not, where the size [in_len - to_end] of the
    second copy is negative, that is, has no bound as a [size_t]. *)
Theorem put_send_layout buf wqe_cnt bb c in_buf in_len len key addr :
  length buf = (Z.to_nat wqe_cnt * MLX5_SEND_WQE_BB)%nat ->
  (bb + MLX5_SEND_WQE_BB <= length buf)%nat ->
  (20 + in_len + inl_complement in_len + 16 <= length buf)%nat ->
  length in_buf = in_len ->
  let to_end := (length buf - (bb + 20))%nat in
  put_send buf wqe_cnt bb c in_buf in_len len key addr =
    if (in_len <? to_end)%nat && (to_end <? in_len + inl_complement in_len + 16)%nat then None
    else Some
      (circ_store
        (circ_store buf bb 0 (seg_list [SegCtrl c; SegInl (Z.of_nat in_len)] ++ in_buf))
        bb (20 + in_len + inl_complement in_len) (seg_frags (SegData len key addr))).
Proof.
  intros Hsize Hbb Hfit Hin to_end. unfold put_send. rewrite <- Hsize. fold to_end.
  unfold MLX5_SEND_WQE_BB in *. set (cpl := inl_complement in_len) in *.
  rewrite <- (Nat.add_0_r bb) at 1. store_step. store_step.
  set (b2 := circ_store _ bb 16 _).
  assert (length b2 = length buf) as Hb2 by (subst b2; by rewrite !circ_store_length).
  assert (forall l, circ_store b2 bb 20 l =
    circ_store buf bb 0 (seg_list [SegCtrl c; SegInl (Z.of_nat in_len)] ++ l)) as Happ.
  { intros l. subst b2.
    rewrite !circ_store_app by (rewrite ?circ_store_length, ?length_app, ?seg_frags_length; cbn; lia).
    unfold seg_list. cbn [map concat]. by rewrite app_nil_r, <- app_assoc. }
  destruct (Nat.ltb_spec to_end (in_len + cpl + 16)) as [E|E].
  - destruct (Nat.ltb_spec in_len to_end) as [E'|E']; cbn [andb].
    { destruct (memcpy _ _ _ _); done. }
    rewrite (memcpy_circ b2) by lia. cbn [mbind option_bind].
    rewrite (memcpy_circ_wrap _ bb) by (rewrite ?circ_store_length, ?length_drop; lia).
    cbn [mbind option_bind]. rewrite circ_store_length, circ_store_app; [|lia|rewrite length_take; lia].
    rewrite take_take_drop, Happ. replace (to_end + (in_len - to_end))%nat with in_len by lia.
    rewrite (firstn_all2 in_buf) by lia.
    rewrite (store_circ_wrap _ bb) by (rewrite ?circ_store_length, ?seg_frags_length; cbn [seg_size]; lia).
    rewrite circ_store_length. do 2 f_equal. lia.
  - rewrite andb_false_r. rewrite memcpy_circ by lia. cbn [mbind option_bind].
    rewrite (firstn_all2 in_buf) by lia. rewrite Happ.
    replace (bb + 20 + in_len + cpl)%nat with (bb + (20 + in_len + cpl))%nat by lia.
    rewrite store_circ by (rewrite ?circ_store_length, ?seg_frags_length; cbn [seg_size]; lia). done.
Qed.

(** * Concrete entries: a queue of two basic blocks, the entry in the last one *)

Definition ex_buf : list memval := replicate 128 Undef.
Definition ex_ctrl : ctrl_seg := mk_ctrl 1 MLX5_OPCODE_SEND 0 8 4 0.
Definition ex_payload (n : nat) : list memval := map (fun k => Byte (Z.of_nat k)) (seq 0 n).

Lemma put_v2v_layout_witness :
  let w := mk_wr [mk_sge 4096 8 1; mk_sge 8192 8 2; mk_sge 12288 8 3] (mk_sge 65536 24 7) in
  exists buf',
    put_v2v ex_buf 2 64 ex_ctrl w = Some buf' /\
    circ_read buf' 64 (32 + 16 * length (wr_l_sgl w)) = v2v_bytes ex_ctrl w /\
    forall k, (32 + 16 * length (wr_l_sgl w) <= k < length ex_buf)%nat ->
      at_dist buf' 64 k = at_dist ex_buf 64 k.
Proof.
  intros w. apply put_v2v_layout; [reflexivity|unfold MLX5_SEND_WQE_BB; cbn; lia|reflexivity|cbn; lia].
Defined.

Lemma put_inline_layout_witness :
  exists buf', put_inline ex_buf 2 64 ex_ctrl true false 65536 7 (ex_payload 40) 40 = Some buf' /\
    length buf' = length ex_buf /\
    circ_read buf' 64 16 = seg_frags (SegCtrl ex_ctrl) /\
    circ_read buf' (64 + (inline_hdr true - 4)) (4 + 40) =
      seg_frags (SegInl 40) ++ take 40 (ex_payload 40) /\
    forall k, (inline_hdr true + 40 <= k < length ex_buf)%nat ->
      at_dist buf' 64 k = at_dist ex_buf 64 k.
Proof.
  apply (put_inline_layout ex_buf 2 64 ex_ctrl true 65536 7 (ex_payload 40) 40);
    [reflexivity|unfold MLX5_SEND_WQE_BB; cbn; lia|cbn; lia|cbn; lia].
Defined.

(** In the last basic block, 30 bytes of inline payload do not fit with their
    data segment, but end before the end of the buffer. *)
Lemma put_send_layout_witness :
  put_send ex_buf 2 64 ex_ctrl (ex_payload 30) 30 8 9 4096 = None /\
  put_send ex_buf 2 0 ex_ctrl (ex_payload 30) 30 8 9 4096 <> None.
Proof.
  split.
  - rewrite put_send_layout; [reflexivity|reflexivity|unfold MLX5_SEND_WQE_BB; cbn; lia|cbn; lia|reflexivity].
  - rewrite put_send_layout; [done|reflexivity|unfold MLX5_SEND_WQE_BB; cbn; lia|cbn; lia|reflexivity].
Defined.
