(* ===== verification/CqRing.v ===== *)
(** Completion queues polled by the software (src/src/snap_dma_internal.h,
    [snap_dv_get_cqe], [snap_dv_poll_cq], [snap_dv_arm_cq]; src/src/snap_qp.c,
    [cq_init_buf]): a ring shared with the device, in which the owner bit of an
    entry tells whose turn it is. The ring is shown to be a FIFO queue. *)

From S2P Require Import Prelude DmaWqe.

(** * Entries *)

Definition MLX5_CQE_OWNER_MASK : Z := 1.
Definition MLX5_INLINE_SCATTER_32 : Z := 4.
Definition MLX5_INLINE_SCATTER_64 : Z := 8.
Definition MLX5_CQE_REQ : Z := 0.
Definition MLX5_CQE_RESP_SEND : Z := 2.
Definition MLX5_CQE_RESP_SEND_IMM : Z := 3.
Definition MLX5_CQE_INVALID : Z := 15.

(** The fields of [struct mlx5_cqe64] and [struct mlx5_err_cqe] the code reads;
    [data] is what the device scattered into the entry. *)
Record mlx5_cqe64 := mk_cqe {
  op_own : Z;
  wqe_counter : Z;
  byte_cnt : Z;
  srqn_uidx : Z;
  imm_inval_pkey : Z;
  syndrome : Z;
  cqe_data : list memval
}.

Definition mlx5dv_get_cqe_owner (e : mlx5_cqe64) : Z := Z.land (op_own e) MLX5_CQE_OWNER_MASK.
Definition mlx5dv_get_cqe_opcode (e : mlx5_cqe64) : Z := Z.shiftr (op_own e) 4.

Record snap_hw_cq := mk_cq {
  cqe_cnt : Z;
  cq_ci : Z;
  cq_sn : Z;
  cq_ring : list mlx5_cqe64
}.

Definition set_cq_ci (c : snap_hw_cq) (v : Z) : snap_hw_cq :=
  mk_cq (cqe_cnt c) v (cq_sn c) (cq_ring c).
Definition set_cq_sn (c : snap_hw_cq) (v : Z) : snap_hw_cq :=
  mk_cq (cqe_cnt c) (cq_ci c) v (cq_ring c).
Definition set_cq_ring (c : snap_hw_cq) (v : list mlx5_cqe64) : snap_hw_cq :=
  mk_cq (cqe_cnt c) (cq_ci c) (cq_sn c) v.

(** * Operations *)

Definition cq_init_entry : mlx5_cqe64 :=
  mk_cqe (Z.lor (Z.shiftl MLX5_CQE_INVALID 4) MLX5_CQE_OWNER_MASK) 0 0 0 0 0 [].

(** [cq_init_buf]: every entry is invalid. *)
Definition cq_init_buf (cnt : Z) : list mlx5_cqe64 := replicate (Z.to_nat cnt) cq_init_entry.

(** [snap_dv_get_cqe]: index of the next entry. *)
Definition snap_dv_get_cqe (c : snap_hw_cq) : option mlx5_cqe64 :=
  cq_ring c !! Z.to_nat (Z.land (cq_ci c) (cqe_cnt c - 1)).

(** [snap_dv_poll_cq]: the entry, or [None] when it is still the device's.
    The outer option is the access to the ring. *)
Definition snap_dv_poll_cq (c : snap_hw_cq) : option (option mlx5_cqe64 * snap_hw_cq) :=
  match snap_dv_get_cqe c with
  | None => None
  | Some e =>
    if mlx5dv_get_cqe_owner e =? Z.b2z (Z.land (cq_ci c) (cqe_cnt c) =? 0) then Some (None, c)
    else if mlx5dv_get_cqe_opcode e =? MLX5_CQE_INVALID then Some (None, c)
    else Some (Some e, set_cq_ci c (u32 (cq_ci c + 1)))
  end.

(** [snap_dv_arm_cq]: the doorbell record [(sn << 28) | ci] and the next
    sequence number. *)
Definition snap_dv_arm_cq (c : snap_hw_cq) : Z * snap_hw_cq :=
  let sn := Z.land (cq_sn c) 3 in
  let ci := Z.land (cq_ci c) 16777215 in
  (Z.lor (u32 (Z.shiftl sn 28)) ci, set_cq_sn c (u32 (cq_sn c + 1))).

(** * The device

    The device writes its [n]-th entry at index [n mod cqe_cnt], with an owner
    bit that changes at each turn around the ring. *)

Definition owner_bit (cnt n : Z) : Z := (n / cnt) mod 2.

Definition set_owner (e : mlx5_cqe64) (b : Z) : mlx5_cqe64 :=
  mk_cqe (Z.lor (Z.shiftl (Z.shiftr (op_own e) 1) 1) b) (wqe_counter e) (byte_cnt e)
    (srqn_uidx e) (imm_inval_pkey e) (syndrome e) (cqe_data e).

Definition hw_write_cqe (c : snap_hw_cq) (n : Z) (e : mlx5_cqe64) : snap_hw_cq :=
  set_cq_ring c (<[Z.to_nat (n mod cqe_cnt c) := set_owner e (owner_bit (cqe_cnt c) n)]> (cq_ring c)).

(** * The ring as a queue

    [C] counts the entries the software has consumed, [pend] lists the
    entries written by the device and not consumed yet, oldest first. *)

Definition cqe_valid (e : mlx5_cqe64) : Prop := mlx5dv_get_cqe_opcode e <> MLX5_CQE_INVALID.

Record cq_inv (c : snap_hw_cq) (C : Z) (pend : list mlx5_cqe64) : Prop := {
  cqi_cnt : exists k, 0 <= k <= 31 /\ cqe_cnt c = 2 ^ k;
  cqi_len : Z.of_nat (length (cq_ring c)) = cqe_cnt c;
  cqi_ci : 0 <= C /\ cq_ci c = u32 C;
  cqi_room : Z.of_nat (length pend) <= cqe_cnt c;
  cqi_pend : forall i e, pend !! i = Some e ->
    cq_ring c !! Z.to_nat ((C + Z.of_nat i) mod cqe_cnt c) = Some e /\ cqe_valid e /\
    mlx5dv_get_cqe_owner e = owner_bit (cqe_cnt c) (C + Z.of_nat i);
  cqi_free : forall i e, Z.of_nat (length pend) <= i < cqe_cnt c ->
    cq_ring c !! Z.to_nat ((C + i) mod cqe_cnt c) = Some e ->
    mlx5dv_get_cqe_opcode e = MLX5_CQE_INVALID \/
    mlx5dv_get_cqe_owner e = 1 - owner_bit (cqe_cnt c) (C + i)
}.

(** ** Lemmas on indices and owner bits *)

Lemma owner_bit_range cnt n : 0 <= owner_bit cnt n < 2.
Proof. apply Z.mod_pos_bound. lia. Qed.

Lemma owner_bit_turn cnt n : 0 < cnt -> owner_bit cnt (n + cnt) = 1 - owner_bit cnt n.
Proof.
  intros Hc. unfold owner_bit. replace (n + cnt) with (n + 1 * cnt) by lia.
  rewrite Z.div_add by lia. pose proof (Z.mod_pos_bound (n / cnt) 2).
  pose proof (Z.mod_pos_bound (n / cnt + 1) 2).
  pose proof (Z.div_mod (n / cnt) 2). pose proof (Z.div_mod (n / cnt + 1) 2). lia.
Qed.

(** The test [ci & cqe_cnt] reads the owner bit of the consumer counter. *)
Lemma ci_owner_test k C :
  0 <= k <= 31 -> 0 <= C ->
  Z.b2z (Z.land (u32 C) (2 ^ k) =? 0) = 1 - owner_bit (2 ^ k) C.
Proof.
  intros Hk HC. unfold owner_bit, u32, uwrap.
  assert (Z.land (C mod 2 ^ 32) (2 ^ k) = if Z.testbit C k then 2 ^ k else 0) as ->.
  { apply Z.bits_inj'. intros n Hn. rewrite Z.land_spec, Z.pow2_bits_eqb by lia.
    destruct (Z.eqb_spec k n) as [<-|Hne].
    - rewrite andb_true_r, Z.mod_pow2_bits_low by lia.
      destruct (Z.testbit C k); [by rewrite Z.pow2_bits_true by lia|by rewrite Z.bits_0].
    - rewrite andb_false_r. destruct (Z.testbit C k); [|by rewrite Z.bits_0].
      by rewrite Z.pow2_bits_eqb, (proj2 (Z.eqb_neq k n)) by lia. }
  rewrite <- Z.testbit_spec' by lia. assert (0 < 2 ^ k) by (apply Z.pow_pos_nonneg; lia).
  destruct (Z.testbit C k); [|done]. rewrite (proj2 (Z.eqb_neq _ _)); [done|lia].
Qed.

(** The index of the next entry. *)
Lemma ci_index k C :
  0 <= k <= 31 -> Z.land (u32 C) (2 ^ k - 1) = C mod 2 ^ k.
Proof. intros Hk. apply uwrap_mask. lia. Qed.

(** Distinct offsets below the size are distinct indices. *)
Lemma mod_offset_ne cnt C i j :
  0 <= i < cnt -> 0 <= j < cnt -> i <> j -> (C + i) mod cnt <> (C + j) mod cnt.
Proof.
  intros Hi Hj Hne Heq. apply Hne.
  assert ((C + i - (C + j)) mod cnt = 0) as Hd.
  { rewrite Zminus_mod, Heq, Z.sub_diag. apply Zmod_0_l. }
  replace (C + i - (C + j)) with (i - j) in Hd by lia.
  apply Z.mod_divide in Hd; [|lia]. destruct Hd as [q Hq].
  assert (q = 0) by nia. lia.
Qed.

Lemma set_owner_owner e b : 0 <= b < 2 -> mlx5dv_get_cqe_owner (set_owner e b) = b.
Proof.
  intros Hb. unfold mlx5dv_get_cqe_owner, set_owner, MLX5_CQE_OWNER_MASK. cbn [op_own].
  assert (forall x, Z.land x 1 = x mod 2) as Hl by (intros x; apply (Z.land_ones x 1); lia).
  rewrite Z.land_lor_distr_l, !Hl, Z.shiftl_mul_pow2 by lia. change (2 ^ 1) with 2.
  rewrite Z.mod_mul, Z.lor_0_l by lia. apply Z.mod_small. lia.
Qed.

Lemma set_owner_opcode e b :
  0 <= b < 2 -> mlx5dv_get_cqe_opcode (set_owner e b) = mlx5dv_get_cqe_opcode e.
Proof.
  intros Hb. unfold mlx5dv_get_cqe_opcode, set_owner. cbn [op_own].
  apply Z.bits_inj'. intros n Hn.
  rewrite !Z.shiftr_spec, Z.lor_spec, Z.shiftl_spec, Z.shiftr_spec by lia.
  replace (n + 4 - 1 + 1) with (n + 4) by lia.
  assert (Z.testbit b (n + 4) = false) as ->; [|apply orb_false_r].
  destruct (decide (b = 0)) as [->|]; [apply Z.bits_0|].
  apply Z.bits_above_log2; [lia|]. replace b with 1 by lia. cbn. lia.
Qed.

(** ** The invariant *)

Lemma cq_init_inv k sn :
  0 <= k <= 31 -> cq_inv (mk_cq (2 ^ k) 0 sn (cq_init_buf (2 ^ k))) 0 [].
Proof.
  intros Hk. assert (0 < 2 ^ k) by (apply Z.pow_pos_nonneg; lia).
  split; cbn [cqe_cnt cq_ring cq_ci length]; [by eauto|..].
  - unfold cq_init_buf. rewrite length_replicate. lia.
  - done.
  - lia.
  - intros i e He. done.
  - intros i e _ He. left. apply lookup_replicate_1 in He. destruct He as [-> _]. reflexivity.
Qed.

(** One poll takes the head of [pend]. *)
Lemma poll_cq_spec c C pend :
  cq_inv c C pend ->
  match pend with
  | [] => snap_dv_poll_cq c = Some (None, c)
  | e :: pend' => exists c', snap_dv_poll_cq c = Some (Some e, c') /\ cq_inv c' (C + 1) pend'
  end.
Proof.
  intros [(k & Hk & Hcnt) Hlen [HC Hci] Hroom Hpend Hfree].
  assert (0 < 2 ^ k) by (apply Z.pow_pos_nonneg; lia).
  unfold snap_dv_poll_cq, snap_dv_get_cqe. rewrite Hci, Hcnt, ci_index, ci_owner_test by lia.
  pose proof (owner_bit_range (2 ^ k) C) as Hob. pose proof (Z.mod_pos_bound C (2 ^ k)).
  destruct pend as [|e pend'].
  - destruct (lookup_lt_is_Some_2 (cq_ring c) (Z.to_nat (C mod 2 ^ k))) as [e He]; [lia|].
    rewrite He. specialize (Hfree 0 e). rewrite Hcnt, Z.add_0_r in Hfree.
    destruct Hfree as [Hop|Hown]; [cbn; lia|done|..].
    + rewrite Hop. by case_match.
    + by rewrite Hown, Z.eqb_refl.
  - destruct (Hpend 0%nat e) as (Hr & Hv & Hown); [done|].
    rewrite Hcnt, Z.add_0_r in *. rewrite Hr, Hown.
    rewrite (proj2 (Z.eqb_neq _ (1 - _))) by lia. rewrite (proj2 (Z.eqb_neq _ _) Hv).
    eexists. split; [reflexivity|]. cbn [length] in *.
    split; cbn [cqe_cnt cq_ring cq_ci set_cq_ci]; rewrite ?Hcnt; [by eauto|lia|..].
    + rewrite u32_add_l. split; [lia|done].
    + lia.
    + intros i e' He'. specialize (Hpend (S i) e' He').
      replace (C + 1 + Z.of_nat i) with (C + Z.of_nat (S i)) by lia. done.
    + intros i e' Hi He'. destruct (decide (i = 2 ^ k - 1)) as [->|].
      * replace (C + 1 + (2 ^ k - 1)) with (C + 2 ^ k) in * by lia.
        replace (C + 2 ^ k) with (C + 1 * 2 ^ k) in He' by lia.
        rewrite Z_mod_plus_full, Hr in He'. injection He' as <-.
        right. rewrite owner_bit_turn by lia. lia.
      * replace (C + 1 + i) with (C + (i + 1)) in * by lia.
        specialize (Hfree (i + 1) e'). apply Hfree; [lia|done].
Qed.

(** The device adds an entry. *)
Lemma hw_write_cqe_inv c C pend e :
  cq_inv c C pend -> Z.of_nat (length pend) < cqe_cnt c -> cqe_valid e ->
  let n := C + Z.of_nat (length pend) in
  cq_inv (hw_write_cqe c n e) C (pend ++ [set_owner e (owner_bit (cqe_cnt c) n)]).
Proof.
  intros [(k & Hk & Hcnt) Hlen [HC Hci] Hroom Hpend Hfree] Hlt Hv n.
  assert (0 < 2 ^ k) by (apply Z.pow_pos_nonneg; lia).
  pose proof (owner_bit_range (cqe_cnt c) n) as Hob.
  split; cbn [cqe_cnt cq_ring cq_ci hw_write_cqe set_cq_ring];
    rewrite ?length_app, ?length_insert; cbn [length]; [by eauto|lia|done|lia|..].
  - intros i e' [He'|[-> Heq]]%lookup_snoc_Some.
    + destruct He' as [Hi He']. destruct (Hpend i e' He') as (Hr & ? & ?).
      split; [|done]. rewrite list_lookup_insert_ne; [done|].
      intros Heq%Z2Nat.inj; [|apply Z.mod_pos_bound; lia..].
      revert Heq. apply mod_offset_ne; lia.
    + subst e'. split; [|split].
      * apply list_lookup_insert_eq. pose proof (Z.mod_pos_bound n (cqe_cnt c)). unfold n in *. lia.
      * unfold cqe_valid. rewrite set_owner_opcode by lia. done.
      * by apply set_owner_owner.
  - intros i e' Hi He'. rewrite list_lookup_insert_ne in He'.
    + apply (Hfree i e'); [lia|done].
    + intros Heq%Z2Nat.inj; [|apply Z.mod_pos_bound; lia..].
      revert Heq. apply mod_offset_ne; lia.
Qed.

(** Polling up to [n] entries, as the progress loops do. *)
Fixpoint poll_list (n : nat) (c : snap_hw_cq) : option (list mlx5_cqe64 * snap_hw_cq) :=
  match n with
  | O => Some ([], c)
  | S n' =>
    match snap_dv_poll_cq c with
    | None => None
    | Some (None, c') => Some ([], c')
    | Some (Some e, c') =>
      match poll_list n' c' with
      | None => None
      | Some (l, c'') => Some (e :: l, c'')
      end
    end
  end.

(** C29: the completion queue is a FIFO queue: polling it up to [n] times
    returns the oldest entries the device has written and the software has
    not consumed, in the order of the writes, each once, and stops early
    exactly when there are no more; the owner-bit protocol is not confused by
    the wrap of the consumer index around the ring or around 32 bits. *)
Theorem poll_cq_fifo n : forall c C pend,
  cq_inv c C pend ->
  exists c', poll_list n c = Some (take n pend, c') /\
    cq_inv c' (C + Z.of_nat (length (take n pend))) (drop n pend).
Proof.
  induction n as [|n IH]; intros c C pend Hinv.
  { exists c. cbn. by rewrite Z.add_0_r. }
  pose proof (poll_cq_spec c C pend Hinv) as Hpoll. cbn [poll_list].
  destruct pend as [|e pend].
  - rewrite Hpoll. exists c. cbn. by rewrite Z.add_0_r.
  - destruct Hpoll as (c1 & Hc1 & Hinv1). rewrite Hc1.
    destruct (IH c1 (C + 1) pend Hinv1) as (c2 & Hc2 & Hinv2). rewrite Hc2.
    exists c2. split; [done|]. cbn [take drop length].
    by replace (C + Z.of_nat (S (length (take n pend))))
      with (C + 1 + Z.of_nat (length (take n pend))) by lia.
Qed.

Lemma poll_cq_fifo_witness :
  exists c', poll_list 3 (hw_write_cqe (mk_cq 4 0 0 (cq_init_buf 4)) 0 (mk_cqe 0 7 0 0 0 0 []))
    = Some ([mk_cqe 0 7 0 0 0 0 []], c') /\ cq_inv c' 1 [].
Proof.
  apply (poll_cq_fifo 3 _ 0 [mk_cqe 0 7 0 0 0 0 []]).
  apply (hw_write_cqe_inv _ 0 [] (mk_cqe 0 7 0 0 0 0 [])).
  - apply (cq_init_inv 2). lia.
  - cbn. lia.
  - discriminate.
Defined.
