(* ===== verification/DmaDv.v ===== *)
(** The DMA queue in direct-verbs mode: the state and the operations of
    src/src/snap_dma_dv.c, src/src/snap_dma_internal.h and of the entry points
    of src/src/snap_dma.c. *)

From stdpp Require Import gmap.
From S2P Require Import Prelude DmaSgl DmaWqe CqRing.

(** * State *)

(** [struct snap_dv_dma_completion]: what completes with an entry of the send
    queue. A user completion ([struct snap_dma_completion *]) is a number, a
    user buffer an address. *)
Record snap_dv_dma_completion := mk_slot {
  slot_n_outstanding : Z;
  slot_read_payload : option Z;
  slot_comp : option nat
}.

Inductive snap_db_ring_flag :=
| SNAP_DB_RING_BATCH
| SNAP_DB_RING_IMM
| SNAP_DB_RING_API.

(** [q->ops]: the direct-verbs or the GGA table. *)
Inductive snap_dma_q_mode :=
| SNAP_DMA_Q_MODE_DV
| SNAP_DMA_Q_MODE_GGA.

(** [struct snap_dv_qp] with its [hw_qp]. [qp_ctrl] is the offset in [sq_buf]
    of the control segment kept for the next doorbell, [bf_reg] what was last
    written to the doorbell register, [opaque] the 16 bytes of a GGA entry that
    describe the opaque buffer. *)
Record snap_dv_qp := mk_qp {
  sq_pi : Z;
  sq_wqe_cnt : Z;
  sq_buf : list memval;
  snd_dbr : Z;
  bf_reg : list memval;
  n_outstanding : Z;
  comps : list snap_dv_dma_completion;
  opaque : list memval;
  db_flag : snap_db_ring_flag;
  tx_need_ring_db : bool;
  qp_ctrl : nat;
  tx_total_dbs : Z;
  tx_total_completed : Z;
  rq_ci : Z;
  rq_wqe_cnt : Z;
  rcv_dbr : Z;
  rx_total_dbs : Z;
  rx_total_completed : Z
}.

(** [struct snap_dma_q]. [counts] holds the [count] field of the user
    completions, [scattered] the copies made into user buffers, oldest first;
    [worker_pending] is the list of queues with a pending doorbell of the
    worker the queue belongs to, if any. *)
Record snap_dma_q := mk_q {
  q_id : nat;
  q_mode : snap_dma_q_mode;
  tx_available : Z;
  tx_elem_size : Z;
  rx_elem_size : Z;
  dv_qp : snap_dv_qp;
  dv_tx_cq : snap_hw_cq;
  dv_rx_cq : snap_hw_cq;
  counts : gmap nat Z;
  scattered : list (Z * list memval);
  worker_pending : option (list nat)
}.

(** ** Assignments to fields *)

Definition set_tx_available (q : snap_dma_q) (v : Z) : snap_dma_q :=
  mk_q (q_id q) (q_mode q) v (tx_elem_size q) (rx_elem_size q) (dv_qp q) (dv_tx_cq q) (dv_rx_cq q)
    (counts q) (scattered q) (worker_pending q).
Definition set_dv_qp (q : snap_dma_q) (v : snap_dv_qp) : snap_dma_q :=
  mk_q (q_id q) (q_mode q) (tx_available q) (tx_elem_size q) (rx_elem_size q) v (dv_tx_cq q)
    (dv_rx_cq q) (counts q) (scattered q) (worker_pending q).
Definition set_tx_cq (q : snap_dma_q) (v : snap_hw_cq) : snap_dma_q :=
  mk_q (q_id q) (q_mode q) (tx_available q) (tx_elem_size q) (rx_elem_size q) (dv_qp q) v
    (dv_rx_cq q) (counts q) (scattered q) (worker_pending q).
Definition set_rx_cq (q : snap_dma_q) (v : snap_hw_cq) : snap_dma_q :=
  mk_q (q_id q) (q_mode q) (tx_available q) (tx_elem_size q) (rx_elem_size q) (dv_qp q) (dv_tx_cq q)
    v (counts q) (scattered q) (worker_pending q).
Definition set_count (q : snap_dma_q) (c : nat) (v : Z) : snap_dma_q :=
  mk_q (q_id q) (q_mode q) (tx_available q) (tx_elem_size q) (rx_elem_size q) (dv_qp q) (dv_tx_cq q)
    (dv_rx_cq q) (<[c := v]> (counts q)) (scattered q) (worker_pending q).
Definition add_scattered (q : snap_dma_q) (v : Z * list memval) : snap_dma_q :=
  mk_q (q_id q) (q_mode q) (tx_available q) (tx_elem_size q) (rx_elem_size q) (dv_qp q) (dv_tx_cq q)
    (dv_rx_cq q) (counts q) (scattered q ++ [v]) (worker_pending q).
Definition set_worker_pending (q : snap_dma_q) (v : option (list nat)) : snap_dma_q :=
  mk_q (q_id q) (q_mode q) (tx_available q) (tx_elem_size q) (rx_elem_size q) (dv_qp q) (dv_tx_cq q)
    (dv_rx_cq q) (counts q) (scattered q) v.

Definition set_sq (p : snap_dv_qp) (pi : Z) (buf : list memval) : snap_dv_qp :=
  mk_qp pi (sq_wqe_cnt p) buf (snd_dbr p) (bf_reg p) (n_outstanding p) (comps p) (opaque p)
    (db_flag p) (tx_need_ring_db p) (qp_ctrl p) (tx_total_dbs p) (tx_total_completed p) (rq_ci p)
    (rq_wqe_cnt p) (rcv_dbr p) (rx_total_dbs p) (rx_total_completed p).
Definition set_doorbell (p : snap_dv_qp) (dbr : Z) (bf : list memval) (dbs : Z) : snap_dv_qp :=
  mk_qp (sq_pi p) (sq_wqe_cnt p) (sq_buf p) dbr bf (n_outstanding p) (comps p) (opaque p)
    (db_flag p) (tx_need_ring_db p) (qp_ctrl p) dbs (tx_total_completed p) (rq_ci p)
    (rq_wqe_cnt p) (rcv_dbr p) (rx_total_dbs p) (rx_total_completed p).
Definition set_pending_db (p : snap_dv_qp) (need : bool) (ctrl : nat) : snap_dv_qp :=
  mk_qp (sq_pi p) (sq_wqe_cnt p) (sq_buf p) (snd_dbr p) (bf_reg p) (n_outstanding p) (comps p)
    (opaque p) (db_flag p) need ctrl (tx_total_dbs p) (tx_total_completed p) (rq_ci p)
    (rq_wqe_cnt p) (rcv_dbr p) (rx_total_dbs p) (rx_total_completed p).
Definition set_db_flag (p : snap_dv_qp) (f : snap_db_ring_flag) : snap_dv_qp :=
  mk_qp (sq_pi p) (sq_wqe_cnt p) (sq_buf p) (snd_dbr p) (bf_reg p) (n_outstanding p) (comps p)
    (opaque p) f (tx_need_ring_db p) (qp_ctrl p) (tx_total_dbs p) (tx_total_completed p) (rq_ci p)
    (rq_wqe_cnt p) (rcv_dbr p) (rx_total_dbs p) (rx_total_completed p).
Definition set_comps (p : snap_dv_qp) (n : Z) (l : list snap_dv_dma_completion) : snap_dv_qp :=
  mk_qp (sq_pi p) (sq_wqe_cnt p) (sq_buf p) (snd_dbr p) (bf_reg p) n l (opaque p)
    (db_flag p) (tx_need_ring_db p) (qp_ctrl p) (tx_total_dbs p) (tx_total_completed p) (rq_ci p)
    (rq_wqe_cnt p) (rcv_dbr p) (rx_total_dbs p) (rx_total_completed p).
Definition set_tx_completed (p : snap_dv_qp) (v : Z) : snap_dv_qp :=
  mk_qp (sq_pi p) (sq_wqe_cnt p) (sq_buf p) (snd_dbr p) (bf_reg p) (n_outstanding p) (comps p)
    (opaque p) (db_flag p) (tx_need_ring_db p) (qp_ctrl p) (tx_total_dbs p) v (rq_ci p)
    (rq_wqe_cnt p) (rcv_dbr p) (rx_total_dbs p) (rx_total_completed p).
Definition set_rq (p : snap_dv_qp) (ci dbr dbs completed : Z) : snap_dv_qp :=
  mk_qp (sq_pi p) (sq_wqe_cnt p) (sq_buf p) (snd_dbr p) (bf_reg p) (n_outstanding p) (comps p)
    (opaque p) (db_flag p) (tx_need_ring_db p) (qp_ctrl p) (tx_total_dbs p) (tx_total_completed p)
    ci (rq_wqe_cnt p) dbr dbs completed.

Definition of_option {A} (o : option A) : res A :=
  match o with Some a => Ok a | None => Oob end.

(** * Helpers of snap_dma_internal.h *)

Definition MLX5_WQE_CTRL_CQ_UPDATE : Z := 8.
Definition MLX5_WQE_CTRL_INITIATOR_SMALL_FENCE : Z := 32.
Definition SNAP_DMA_Q_TX_MOD_COUNT : Z := 16.

Definition qp_can_tx (q : snap_dma_q) (bb_needed : Z) : bool := bb_needed <=? tx_available q.

Definition snap_dma_q_dv_get_tx_avail_max (q : snap_dma_q) : Z :=
  snap_min (sq_wqe_cnt (dv_qp q)) (cqe_cnt (dv_tx_cq q)).

Definition snap_dv_get_cq_update (p : snap_dv_qp) (comp : option nat) : Z :=
  if bool_decide (is_Some comp) || (SNAP_DMA_Q_TX_MOD_COUNT <=? n_outstanding p + 1)
  then MLX5_WQE_CTRL_CQ_UPDATE else 0.

(** [snap_dv_ring_tx_db]: the doorbell record, then the doorbell register,
    which receives the first 8 bytes of the control segment. *)
Definition snap_dv_ring_tx_db (p : snap_dv_qp) (ctrl : nat) : snap_dv_qp :=
  set_doorbell p (sq_pi p) (take 8 (drop ctrl (sq_buf p))) (tx_total_dbs p + 1).

(** [snap_dv_wqe_submit]; a queue of a worker is linked to its list of pending
    doorbells the first time. *)
Definition snap_dv_wqe_submit (q : snap_dma_q) (ctrl : nat) : snap_dma_q :=
  let p := set_sq (dv_qp q) (u16 (sq_pi (dv_qp q) + 1)) (sq_buf (dv_qp q)) in
  match db_flag p with
  | SNAP_DB_RING_BATCH =>
    let q := match worker_pending q with
             | Some l => if negb (tx_need_ring_db p) then set_worker_pending q (Some (q_id q :: l)) else q
             | None => q
             end in
    set_dv_qp q (set_pending_db p true ctrl)
  | _ => set_dv_qp q (snap_dv_ring_tx_db p ctrl)
  end.

Definition snap_dv_tx_complete (p : snap_dv_qp) : snap_dv_qp :=
  if tx_need_ring_db p then snap_dv_ring_tx_db (set_pending_db p false (qp_ctrl p)) (qp_ctrl p) else p.

Definition snap_dv_set_comp (p : snap_dv_qp) (pi : Z) (comp : option nat) (fm_ce_se n_bb : Z)
  : res snap_dv_qp :=
  let? s := of_option (comps p !! Z.to_nat pi) in
  if negb (Z.land fm_ce_se MLX5_WQE_CTRL_CQ_UPDATE =? MLX5_WQE_CTRL_CQ_UPDATE) then
    Ok (set_comps p (n_outstanding p + n_bb)
          (<[Z.to_nat pi := mk_slot 0 (slot_read_payload s) comp]> (comps p)))
  else
    Ok (set_comps p 0
          (<[Z.to_nat pi := mk_slot (n_outstanding p + n_bb) (slot_read_payload s) comp]> (comps p))).

Definition snap_dv_set_comp_payload (p : snap_dv_qp) (pi : Z) (buf : Z) : res snap_dv_qp :=
  let? s := of_option (comps p !! Z.to_nat pi) in
  Ok (set_comps p (n_outstanding p)
        (<[Z.to_nat pi := mk_slot (slot_n_outstanding s) (Some buf) (slot_comp s)]> (comps p))).

(** * Posting operations of snap_dma_dv.c

    The functions of the operation table return [n_bb] through a pointer: the
    result is the return code, [n_bb] where there is one, and the queue. *)

(** Offset of the next entry. *)
Definition next_bb (p : snap_dv_qp) : nat := snap_dv_get_wqe_bb (sq_wqe_cnt p) (sq_pi p).

Definition do_dv_dma_xfer (q : snap_dma_q) (buf len lkey raddr rkey op flags : Z)
    (comp : option nat) (use_fence : bool) : res (Z * snap_dma_q) :=
  let p := dv_qp q in
  let fm := Z.lor (u8 flags) (snap_dv_get_cq_update p comp) in
  let fm := if use_fence then Z.lor fm MLX5_WQE_CTRL_INITIATOR_SMALL_FENCE else fm in
  let ctrl := next_bb p in
  let? b := of_option (put_xfer (sq_buf p) ctrl (mk_ctrl (sq_pi p) op 0 fm 3 0) raddr rkey
                         (u32 len) lkey buf) in
  let q := snap_dv_wqe_submit (set_dv_qp q (set_sq p (sq_pi p) b)) ctrl in
  let comp_idx := Z.land (sq_pi (dv_qp q) - 1) (sq_wqe_cnt (dv_qp q) - 1) in
  let? p := snap_dv_set_comp (dv_qp q) comp_idx comp fm 1 in
  let? p := (if negb (flags =? 0) then snap_dv_set_comp_payload p comp_idx buf else Ok p) in
  Ok (0, set_dv_qp q p).

Definition dv_dma_q_write (q : snap_dma_q) (src_buf len lkey dstaddr rmkey : Z) (comp : option nat) :=
  do_dv_dma_xfer q src_buf len lkey dstaddr rmkey MLX5_OPCODE_RDMA_WRITE 0 comp false.

Definition dv_dma_q_read (q : snap_dma_q) (dst_buf len lkey srcaddr rmkey : Z) (comp : option nat) :=
  let flags := if len <=? 32 then MLX5_WQE_CTRL_CQ_UPDATE else 0 in
  do_dv_dma_xfer q dst_buf len lkey srcaddr rmkey MLX5_OPCODE_RDMA_READ flags comp false.

Definition dv_dma_q_read_short (q : snap_dma_q) (dst_buf len srcaddr rmkey : Z) (comp : option nat) :=
  do_dv_dma_xfer q dst_buf len 0 srcaddr rmkey MLX5_OPCODE_RDMA_READ MLX5_WQE_CTRL_CQ_UPDATE comp false.

(** [do_dv_dma_xfer_v2v]: one entry per work request; only the last one carries
    the completion. *)
Fixpoint do_dv_dma_xfer_v2v (q : snap_dma_q) (op : Z) (wrs : list work_req) (comp : option nat)
  : res (Z * snap_dma_q) :=
  match wrs with
  | [] => Ok (0, q)
  | w :: wrs' =>
    let p := dv_qp q in
    let c_comp := match wrs' with [] => comp | _ => None end in
    let fm := snap_dv_get_cq_update p c_comp in
    let pi := Z.land (sq_pi p) (sq_wqe_cnt p - 1) in
    let ctrl := next_bb p in
    let num_sge := Z.of_nat (length (wr_l_sgl w)) in
    let? b := of_option (put_v2v (sq_buf p) (sq_wqe_cnt p) ctrl
                           (mk_ctrl (sq_pi p) op 0 fm (u8 (2 + num_sge)) 0) w) in
    let bbs := wqe_bb num_sge in
    let q := snap_dv_wqe_submit (set_dv_qp q (set_sq p (u16 (sq_pi p + (bbs - 1))) b)) ctrl in
    let? p := snap_dv_set_comp (dv_qp q) pi c_comp fm bbs in
    do_dv_dma_xfer_v2v (set_dv_qp q p) op wrs' comp
  end.

Definition dv_dma_q_writev2v (q : snap_dma_q) (io : snap_dma_q_io_attr) (comp : option nat)
  : res (Z * Z * snap_dma_q) :=
  match snap_dma_build_sgl io with
  | Err _ => Ok (- EINVAL, 0, q)
  | Oob => Oob
  | OutOfFuel => OutOfFuel
  | Ok (wrs, n_bb) =>
    if negb (qp_can_tx q n_bb) then Ok (- EAGAIN, n_bb, q)
    else
      let? '(rc, q) := do_dv_dma_xfer_v2v q MLX5_OPCODE_RDMA_WRITE wrs comp in
      Ok (rc, n_bb, q)
  end.

(** [dv_dma_q_readv2v] has the body of [dv_dma_q_writev2v]: it posts writes too,
    and its caller swaps the source and the destination. *)
Definition dv_dma_q_readv2v (q : snap_dma_q) (io : snap_dma_q_io_attr) (comp : option nat)
  : res (Z * Z * snap_dma_q) :=
  dv_dma_q_writev2v q io comp.

(** [do_dv_xfer_inline]; [src] is the content of the source buffer. *)
Definition do_dv_xfer_inline (q : snap_dma_q) (src : list memval) (len op raddr rkey : Z)
    (flush_comp : option nat) (is_flush : bool) : res (Z * Z * snap_dma_q) :=
  let p := dv_qp q in
  let is_write := op =? MLX5_OPCODE_RDMA_WRITE in
  let wqe_size := u16 (16 + 4 + len) in
  let wqe_size := if is_write then u16 (wqe_size + 16) else wqe_size in
  let wqe_size := if is_flush then u16 (wqe_size - 4) else wqe_size in
  let n_bb := round_up wqe_size 64 in
  if negb (qp_can_tx q n_bb) then Ok (- EAGAIN, n_bb, q)
  else
    let fm := if is_flush then MLX5_WQE_CTRL_CQ_UPDATE else snap_dv_get_cq_update p flush_comp in
    let ctrl := next_bb p in
    let pi := Z.land (sq_pi p) (sq_wqe_cnt p - 1) in
    let? b := of_option (put_inline (sq_buf p) (sq_wqe_cnt p) ctrl
                           (mk_ctrl (sq_pi p) op 0 fm (u8 (round_up wqe_size 16)) 0)
                           is_write is_flush raddr rkey src (Z.to_nat len)) in
    let q := snap_dv_wqe_submit (set_dv_qp q (set_sq p (u16 (sq_pi p + (n_bb - 1))) b)) ctrl in
    let? p := snap_dv_set_comp (dv_qp q) pi flush_comp fm n_bb in
    Ok (0, n_bb, set_dv_qp q p).

Definition dv_dma_q_send_completion (q : snap_dma_q) (src : list memval) (len : Z) :=
  do_dv_xfer_inline q src len MLX5_OPCODE_SEND 0 0 None false.

Definition dv_dma_q_write_short (q : snap_dma_q) (src : list memval) (len dstaddr rmkey : Z) :=
  do_dv_xfer_inline q src len MLX5_OPCODE_RDMA_WRITE dstaddr rmkey None false.

Definition dv_dma_q_flush_nowait (q : snap_dma_q) (comp : option nat) :=
  do_dv_xfer_inline q [] 0 MLX5_OPCODE_RDMA_WRITE 0 0 comp true.

(** [do_dv_send] *)
Definition do_dv_send (q : snap_dma_q) (in_buf : list memval) (in_len addr len key op imm : Z)
  : res (Z * Z * snap_dma_q) :=
  let p := dv_qp q in
  let complement := Z.of_nat (inl_complement (Z.to_nat in_len)) in
  let wqe_size := u16 (16 + 16 + 4 + in_len + complement) in
  let n_bb := round_up wqe_size 64 in
  if negb (qp_can_tx q n_bb) then Ok (- EAGAIN, n_bb, q)
  else
    let fm := snap_dv_get_cq_update p None in
    let ctrl := next_bb p in
    let pi := Z.land (sq_pi p) (sq_wqe_cnt p - 1) in
    let? b := of_option (put_send (sq_buf p) (sq_wqe_cnt p) ctrl
                           (mk_ctrl (sq_pi p) op 0 fm (u8 (round_up wqe_size 16)) imm)
                           in_buf (Z.to_nat in_len) (u32 len) key addr) in
    let q := snap_dv_wqe_submit (set_dv_qp q (set_sq p (u16 (sq_pi p + (n_bb - 1))) b)) ctrl in
    let? p := snap_dv_set_comp (dv_qp q) pi None fm n_bb in
    Ok (0, n_bb, set_dv_qp q p).

Definition dv_dma_q_send (q : snap_dma_q) (in_buf : list memval) (in_len addr len key : Z)
    (imm : option Z) : res (Z * Z * snap_dma_q) :=
  match imm with
  | Some i => do_dv_send q in_buf in_len addr len key MLX5_OPCODE_SEND_IMM i
  | None => do_dv_send q in_buf in_len addr len key MLX5_OPCODE_SEND 0
  end.

(** [do_gga_dma_xfer] *)
Definition do_gga_dma_xfer (q : snap_dma_q) (saddr len s_lkey daddr d_lkey : Z) (comp : option nat)
    (use_fence : bool) : res (Z * snap_dma_q) :=
  let p := dv_qp q in
  let comp_idx := Z.land (sq_pi p) (sq_wqe_cnt p - 1) in
  let fm := snap_dv_get_cq_update p comp in
  let fm := if use_fence then Z.lor fm MLX5_WQE_CTRL_INITIATOR_SMALL_FENCE else fm in
  let ctrl := next_bb p in
  let? b := of_option (put_gga (sq_buf p) ctrl
                         (mk_ctrl (sq_pi p) MLX5_OPCODE_MMO MLX5_OPC_MOD_MMO_DMA fm 4 0)
                         (u32 len) s_lkey saddr d_lkey daddr (opaque p)) in
  let q := snap_dv_wqe_submit (set_dv_qp q (set_sq p (sq_pi p) b)) ctrl in
  let? p := snap_dv_set_comp (dv_qp q) comp_idx comp fm 1 in
  Ok (0, set_dv_qp q p).

Definition gga_dma_q_write (q : snap_dma_q) (src_buf len lkey dstaddr rmkey : Z) (comp : option nat) :=
  do_gga_dma_xfer q src_buf len lkey dstaddr rmkey comp false.

Definition gga_dma_q_read (q : snap_dma_q) (dst_buf len lkey srcaddr rmkey : Z) (comp : option nat) :=
  do_gga_dma_xfer q srcaddr len rmkey dst_buf lkey comp false.

(** * Entry points of snap_dma.c: they check and charge the credits *)

(** The tail of the entry points: keep the queue on an error, charge [n_bb]
    credits otherwise. *)
Definition charge (rc n_bb : Z) (q : snap_dma_q) : res (Z * snap_dma_q) :=
  if negb (rc =? 0) then Ok (rc, q) else Ok (0, set_tx_available q (tx_available q - n_bb)).

Definition snap_dma_q_write (q : snap_dma_q) (src_buf len lkey dstaddr rmkey : Z) (comp : option nat)
  : res (Z * snap_dma_q) :=
  if negb (qp_can_tx q 1) then Ok (- EAGAIN, q)
  else
    let? '(rc, q) := match q_mode q with
                     | SNAP_DMA_Q_MODE_DV => dv_dma_q_write q src_buf len lkey dstaddr rmkey comp
                     | SNAP_DMA_Q_MODE_GGA => gga_dma_q_write q src_buf len lkey dstaddr rmkey comp
                     end in
    charge rc 1 q.

Definition snap_dma_q_read (q : snap_dma_q) (dst_buf len lkey srcaddr rmkey : Z) (comp : option nat)
  : res (Z * snap_dma_q) :=
  if negb (qp_can_tx q 1) then Ok (- EAGAIN, q)
  else
    let? '(rc, q) := match q_mode q with
                     | SNAP_DMA_Q_MODE_DV => dv_dma_q_read q dst_buf len lkey srcaddr rmkey comp
                     | SNAP_DMA_Q_MODE_GGA => gga_dma_q_read q dst_buf len lkey srcaddr rmkey comp
                     end in
    charge rc 1 q.

Definition snap_dma_q_read_short (q : snap_dma_q) (dst_buf len srcaddr rmkey : Z) (comp : option nat)
  : res (Z * snap_dma_q) :=
  if 32 <? len then Ok (- EINVAL, q)
  else if negb (qp_can_tx q 1) then Ok (- EAGAIN, q)
  else
    let? '(rc, q) := dv_dma_q_read_short q dst_buf len srcaddr rmkey comp in
    charge rc 1 q.

(** The keys of an io vector: one shared key, or one per element. *)
Definition iov_keys (share : bool) (mkey : list Z) (iov : list iovec) : res (list Z) :=
  if share then
    match iov, mkey with
    | [], _ => Ok []
    | _, k :: _ => Ok (replicate (length iov) k)
    | _, [] => Oob
    end
  else Ok mkey.

Definition snap_dma_q_writev2v (q : snap_dma_q) (src_mkey : list Z) (src_iov : list iovec)
    (dst_mkey : list Z) (dst_iov : list iovec) (share_src_mkey share_dst_mkey : bool)
    (comp : option nat) : res (Z * snap_dma_q) :=
  let? lkey := iov_keys share_src_mkey src_mkey src_iov in
  let? rkey := iov_keys share_dst_mkey dst_mkey dst_iov in
  let? '(rc, n_bb, q) := dv_dma_q_writev2v q (mk_io_attr lkey src_iov rkey dst_iov) comp in
  charge rc n_bb q.

(** [snap_dma_q_readv2v] posts writes, with the source as the local side. *)
Definition snap_dma_q_readv2v (q : snap_dma_q) (dst_mkey : list Z) (dst_iov : list iovec)
    (src_mkey : list Z) (src_iov : list iovec) (share_dst_mkey share_src_mkey : bool)
    (comp : option nat) : res (Z * snap_dma_q) :=
  let? lkey := iov_keys share_src_mkey src_mkey src_iov in
  let? rkey := iov_keys share_dst_mkey dst_mkey dst_iov in
  let? '(rc, n_bb, q) := dv_dma_q_readv2v q (mk_io_attr lkey src_iov rkey dst_iov) comp in
  charge rc n_bb q.

Definition snap_dma_q_write_short (q : snap_dma_q) (src : list memval) (len dstaddr rmkey : Z)
  : res (Z * snap_dma_q) :=
  if tx_elem_size q <? len then Ok (- EINVAL, q)
  else
    let? '(rc, n_bb, q) := dv_dma_q_write_short q src len dstaddr rmkey in
    charge rc n_bb q.

Definition snap_dma_q_send_completion (q : snap_dma_q) (src : list memval) (len : Z)
  : res (Z * snap_dma_q) :=
  if tx_elem_size q <? len then Ok (- EINVAL, q)
  else
    let? '(rc, n_bb, q) := dv_dma_q_send_completion q src len in
    charge rc n_bb q.

Definition snap_dma_q_send (q : snap_dma_q) (in_buf : list memval) (in_len addr len key : Z)
    (imm : option Z) : res (Z * snap_dma_q) :=
  let? '(rc, n_bb, q) := dv_dma_q_send q in_buf in_len addr len key imm in
  charge rc n_bb q.

Definition snap_dma_q_flush_nowait (q : snap_dma_q) (comp : option nat) : res (Z * snap_dma_q) :=
  let? '(rc, n_bb, q) := dv_dma_q_flush_nowait q comp in
  charge rc n_bb q.

(** [snap_dma_q_empty] *)
Definition snap_dma_q_empty (q : snap_dma_q) : bool :=
  tx_available q =? snap_dma_q_dv_get_tx_avail_max q.

(** * Completions *)

Definition SNAP_DMA_MAX_TX_COMPLETIONS : Z := 128.
Definition SNAP_DMA_MAX_RX_COMPLETIONS : Z := 128.
Definition SNAP_DMA_Q_ERR_HANDLED : Z := 0.

(** [count] of a user completion. *)
Definition get_count (q : snap_dma_q) (c : nat) : Z := default 0 (counts q !! c).

(** [dv_dma_q_get_comp]: return the credits of the entry the completion is for
    and everything unsignalled before it; copy scattered read data. *)
Definition dv_dma_q_get_comp (q : snap_dma_q) (e : mlx5_cqe64) : res (option nat * snap_dma_q) :=
  let p := dv_qp q in
  let comp_idx := Z.land (wqe_counter e) (sq_wqe_cnt p - 1) in
  let? s := of_option (comps p !! Z.to_nat comp_idx) in
  let q := set_tx_available q (tx_available q + slot_n_outstanding s) in
  match has_flag (op_own e) MLX5_INLINE_SCATTER_32, slot_read_payload s with
  | true, Some buf =>
    let q := add_scattered q (buf, take (Z.to_nat (byte_cnt e)) (cqe_data e)) in
    let p := set_comps p (n_outstanding p)
               (<[Z.to_nat comp_idx := mk_slot (slot_n_outstanding s) None (slot_comp s)]> (comps p)) in
    Ok (slot_comp s, set_dv_qp q p)
  | _, _ => Ok (slot_comp s, q)
  end.

(** [--comp->count == 0] *)
Definition dec_count (q : snap_dma_q) (c : nat) : bool * snap_dma_q :=
  let v := get_count q c - 1 in (v =? 0, set_count q c v).

(** Where the data of a received message is: before the completion entry, in
    it, or in the receive buffer at an offset. *)
Inductive rx_data :=
| RxScatter64 (data : list memval)
| RxScatter32 (data : list memval)
| RxBuf (off : Z).

Record snap_rx_completion := mk_rx {
  rx_where : rx_data;
  rx_byte_len : Z;
  rx_imm_data : Z
}.

Definition dv_dma_q_get_rx_comp (q : snap_dma_q) (e : mlx5_cqe64) : snap_rx_completion :=
  let rq_mask := rq_wqe_cnt (dv_qp q) - 1 in
  let w := if has_flag (op_own e) MLX5_INLINE_SCATTER_64 then RxScatter64 (cqe_data e)
           else if has_flag (op_own e) MLX5_INLINE_SCATTER_32 then RxScatter32 (cqe_data e)
           else RxBuf (Z.land (wqe_counter e) rq_mask * rx_elem_size q) in
  mk_rx w (byte_cnt e) (imm_inval_pkey e).

Definition is_recv (e : mlx5_cqe64) : bool :=
  (mlx5dv_get_cqe_opcode e =? MLX5_CQE_RESP_SEND) || (mlx5dv_get_cqe_opcode e =? MLX5_CQE_RESP_SEND_IMM).

(** [rq.ci += n] and the receive doorbell. *)
Definition rq_consume (p : snap_dv_qp) (n completed : Z) : snap_dv_qp :=
  let ci := u16 (rq_ci p + n) in
  set_rq p ci ci (rx_total_dbs p + 1) (rx_total_completed p + completed).

(** The polling loop shared by [dv_dma_q_progress_rx] and [dv_dma_q_poll_rx]:
    [true] when it stopped at an error completion. *)
Fixpoint rx_poll (max : nat) (q : snap_dma_q) (acc : list snap_rx_completion)
  : res (bool * list snap_rx_completion * snap_dma_q) :=
  match max with
  | O => Ok (false, acc, q)
  | S max' =>
    let? '(oe, cq) := of_option (snap_dv_poll_cq (dv_rx_cq q)) in
    let q := set_rx_cq q cq in
    match oe with
    | None => Ok (false, acc, q)
    | Some e =>
      if negb (is_recv e) then Ok (true, acc, q)
      else rx_poll max' q (acc ++ [dv_dma_q_get_rx_comp q e])
    end
  end.

(** [dv_dma_q_poll_rx]; the loop is a do-while: it polls at least once. *)
Definition dv_dma_q_poll_rx (q : snap_dma_q) (max_completions : Z)
  : res (list snap_rx_completion * snap_dma_q) :=
  let? '(err, l, q) := rx_poll (Nat.max 1 (Z.to_nat max_completions)) q [] in
  if err : bool then Ok (l, q)
  else match l with
       | [] => Ok ([], q)
       | _ => Ok (l, set_dv_qp q (rq_consume (dv_qp q) (Z.of_nat (length l)) 0))
       end.

Section progress.
(** The user's callbacks: [comp->func(comp, status)], [q->dv_err_cb(q, cqe)]
    and [q->rx_cb]. *)
Context (func : nat -> Z -> snap_dma_q -> res snap_dma_q).
Context (dv_err_cb : option (mlx5_cqe64 -> snap_dma_q -> Z * snap_dma_q)).
Context (rx_cb : snap_rx_completion -> snap_dma_q -> res snap_dma_q).

(** The do-while of [dv_dma_q_progress_tx]: a completion handled by
    [dv_err_cb] is not counted, so the number of iterations is not bounded
    by [max]. *)
Fixpoint progress_tx_poll (fuel : nat) (max : Z) (q : snap_dma_q)
    (acc : list (mlx5_cqe64 * option nat)) : res (list (mlx5_cqe64 * option nat) * snap_dma_q) :=
  match fuel with
  | O => OutOfFuel
  | S fuel' =>
    let? '(oe, cq) := of_option (snap_dv_poll_cq (dv_tx_cq q)) in
    let q := set_tx_cq q cq in
    match oe with
    | None => Ok (acc, q)
    | Some e =>
      let '(handled, q) :=
        if negb (mlx5dv_get_cqe_opcode e =? MLX5_CQE_REQ) then
          match dv_err_cb with
          | Some h => let '(ret, q) := h e q in (ret =? SNAP_DMA_Q_ERR_HANDLED, q)
          | None => (false, q)
          end
        else (false, q) in
      let? '(c, q) := dv_dma_q_get_comp q e in
      let acc := if handled : bool then acc else acc ++ [(e, c)] in
      if Z.of_nat (length acc) <? max then progress_tx_poll fuel' max q acc else Ok (acc, q)
    end
  end.

Definition tx_status (e : mlx5_cqe64) : Z :=
  if negb (mlx5dv_get_cqe_opcode e =? MLX5_CQE_REQ) then syndrome e else 0.

(** The loop that calls the completion functions. *)
Fixpoint progress_tx_call (l : list (mlx5_cqe64 * option nat)) (q : snap_dma_q) : res snap_dma_q :=
  match l with
  | [] => Ok q
  | (e, None) :: l' => progress_tx_call l' q
  | (e, Some c) :: l' =>
    let '(zero, q) := dec_count q c in
    let? q := (if zero : bool then func c (tx_status e) q else Ok q) in
    progress_tx_call l' q
  end.

Definition dv_dma_q_progress_tx (fuel : nat) (q : snap_dma_q) (max_tx_comp : Z)
  : res (Z * snap_dma_q) :=
  let max := if max_tx_comp =? -1 then SNAP_DMA_MAX_TX_COMPLETIONS else u16 max_tx_comp in
  let? '(l, q) := (if max =? 0 then Ok ([], q) else progress_tx_poll fuel max q []) in
  let? q := progress_tx_call l q in
  let n := Z.of_nat (length l) in
  let p := snap_dv_tx_complete (dv_qp q) in
  Ok (n, set_dv_qp q (set_tx_completed p (tx_total_completed p + n))).

(** [dv_dma_q_poll_tx]: completions whose count drops to zero are returned;
    the others do not count against [max]. *)
Fixpoint poll_tx_loop (fuel : nat) (max : Z) (q : snap_dma_q) (acc : list nat)
  : res (list nat * snap_dma_q) :=
  match fuel with
  | O => OutOfFuel
  | S fuel' =>
    let? '(oe, cq) := of_option (snap_dv_poll_cq (dv_tx_cq q)) in
    let q := set_tx_cq q cq in
    match oe with
    | None => Ok (acc, q)
    | Some e =>
      let? '(c, q) := dv_dma_q_get_comp q e in
      let '(acc, q) :=
        match c with
        | Some c => let '(zero, q) := dec_count q c in (if zero : bool then acc ++ [c] else acc, q)
        | None => (acc, q)
        end in
      if Z.of_nat (length acc) <? max then poll_tx_loop fuel' max q acc else Ok (acc, q)
    end
  end.

Definition dv_dma_q_poll_tx (fuel : nat) (q : snap_dma_q) (max_completions : Z)
  : res (list nat * snap_dma_q) :=
  poll_tx_loop fuel max_completions (set_dv_qp q (snap_dv_tx_complete (dv_qp q))) [].

Fixpoint rx_call (l : list snap_rx_completion) (q : snap_dma_q) : res snap_dma_q :=
  match l with
  | [] => Ok q
  | r :: l' => let? q := rx_cb r q in rx_call l' q
  end.

(** [dv_dma_q_progress_rx] *)
Definition dv_dma_q_progress_rx (q : snap_dma_q) : res (Z * snap_dma_q) :=
  let? '(err, l, q) := rx_poll (Z.to_nat SNAP_DMA_MAX_RX_COMPLETIONS) q [] in
  let n := Z.of_nat (length l) in
  if err : bool then Ok (n, q)
  else
    let? q := rx_call l q in
    if n =? 0 then Ok (0, q)
    else Ok (n, set_dv_qp q (rq_consume (dv_qp q) n n)).

(** [snap_dma_q_progress] *)
Definition snap_dma_q_progress (fuel : nat) (q : snap_dma_q) : res (Z * snap_dma_q) :=
  let? '(n, q) := dv_dma_q_progress_tx fuel q (-1) in
  let? '(m, q) := dv_dma_q_progress_rx q in
  Ok (n + m, q).

(** [dv_dma_q_arm]: the two doorbell values and the queue. *)
Definition dv_dma_q_arm (q : snap_dma_q) : list Z * snap_dma_q :=
  let q := set_dv_qp q (set_db_flag (snap_dv_tx_complete (dv_qp q)) SNAP_DB_RING_IMM) in
  let '(d1, q) := if negb (cqe_cnt (dv_tx_cq q) =? 0) then
                    let '(d, c) := snap_dv_arm_cq (dv_tx_cq q) in ([d], set_tx_cq q c) else ([], q) in
  let '(d2, q) := if negb (cqe_cnt (dv_rx_cq q) =? 0) then
                    let '(d, c) := snap_dv_arm_cq (dv_rx_cq q) in ([d], set_rx_cq q c) else ([], q) in
  (d1 ++ d2, q).

(** [dv_dma_q_flush]. [env] is what the device, whose state is of type [D],
    does while the loop spins: it runs before each call of
    [dv_dma_q_progress_tx]. *)
Context {D : Type} (env : D -> snap_dma_q -> D * snap_dma_q).

(** [while (q->tx_available < need) n += dv_dma_q_progress_tx(q, -1)] *)
Fixpoint flush_wait (fuel pfuel : nat) (need n : Z) (d : D) (q : snap_dma_q)
  : res (Z * D * snap_dma_q) :=
  if need <=? tx_available q then Ok (n, d, q)
  else
    match fuel with
    | O => OutOfFuel
    | S fuel' =>
      let '(d, q) := env d q in
      let? '(m, q) := dv_dma_q_progress_tx pfuel q (-1) in
      flush_wait fuel' pfuel need (n + m) d q
    end.

Definition dv_dma_q_flush (fuel pfuel : nat) (d : D) (q : snap_dma_q) : res (Z * D * snap_dma_q) :=
  let? '(n, d, q) := flush_wait fuel pfuel 1 0 d q in
  let n_out := n_outstanding (dv_qp q) in
  let? '(n, q) :=
    (if negb (n_out =? 0) then
       let? '(rc, n_bb, q) := do_dv_xfer_inline q [] 0 MLX5_OPCODE_RDMA_WRITE 0 0 None true in
       Ok (n - 1, set_tx_available q (tx_available q - n_bb))
     else Ok (n, q)) in
  let? '(n, d, q) := flush_wait fuel pfuel (snap_dma_q_dv_get_tx_avail_max q) n d q in
  Ok (n_out + n, d, q).
End progress.

(** * Creation and reconnection (src/src/snap_dma_control.c) *)

(** The send-queue size of a queue: never so small that no entry would ask for
    a completion. *)
Definition sw_tx_qsize (tx_qsize : Z) : Z :=
  if (tx_qsize <=? SNAP_DMA_Q_TX_MOD_COUNT) && (0 <? tx_qsize) then SNAP_DMA_Q_TX_MOD_COUNT + 8
  else tx_qsize.

Definition cq_create (cqe_cnt : Z) : snap_hw_cq :=
  let cnt := SNAP_ROUNDUP_POW2 cqe_cnt in mk_cq cnt 0 0 (cq_init_buf cnt).

(** A queue as [snap_create_sw_qp] leaves it, with its queue pair and completion
    queues created through devx: the structure is zeroed, the rings are sized by
    the queue sizes rounded up, all the credits are available. *)
Definition dma_q_create (id : nat) (mode : snap_dma_q_mode) (flag : snap_db_ring_flag)
    (tx_qsize rx_qsize tx_elem rx_elem : Z) (opaque_seg : list memval) : snap_dma_q :=
  let sq_size := SNAP_ROUNDUP_POW2_OR0 (sw_tx_qsize tx_qsize) in
  let rq_size := SNAP_ROUNDUP_POW2_OR0 (2 * rx_qsize) in
  let p := mk_qp 0 sq_size (replicate (Z.to_nat sq_size * MLX5_SEND_WQE_BB) Undef) 0 [] 0
             (replicate (Z.to_nat sq_size) (mk_slot 0 None None)) opaque_seg flag false 0 0 0
             0 rq_size 0 0 0 in
  let q := mk_q id mode 0 tx_elem rx_elem p (cq_create (sw_tx_qsize tx_qsize)) (cq_create (2 * rx_qsize))
             ∅ [] None in
  set_tx_available q (snap_dma_q_dv_get_tx_avail_max q).

(** What [snap_dma_ep_reconnect] does to each of the two queues before it resets
    their queue pairs. *)
Definition ep_reconnect_q (q : snap_dma_q) : snap_dma_q :=
  let p := set_sq (dv_qp q) 0 (sq_buf (dv_qp q)) in
  let p := set_pending_db p false (qp_ctrl p) in
  set_tx_available (set_dv_qp q p) (snap_dma_q_dv_get_tx_avail_max q).
