(* ===== verification/DmaInv.v ===== *)
(** The invariant of a DMA queue: what the counters, the completion slots and
    the send-queue buffer say about the entries the device still works on, and
    that posting preserves it. *)

From stdpp Require Import gmap.
From S2P Require Import Prelude DmaSgl DmaWqe CqRing DmaDv.

(** * Entries in flight

    [w_pos] counts the basic blocks posted before the entry since the queue was
    created (the producer index without its wrap), [w_bb] is its size,
    [w_sig] whether it asks for a completion. *)
Record wqe := mk_w {
  w_pos : Z;
  w_bb : Z;
  w_sig : bool;
  w_comp : option nat;
  w_payload : option Z;
  w_ctrl : ctrl_seg
}.

(** The credits each signalled entry returns: its own blocks and those of the
    unsignalled entries before it; [acc] blocks are already pending. *)
Fixpoint sig_groups (acc : Z) (l : list wqe) : list (wqe * Z) :=
  match l with
  | [] => []
  | w :: l' => if w_sig w then (w, acc + w_bb w) :: sig_groups 0 l' else sig_groups (acc + w_bb w) l'
  end.

(** Blocks of the unsignalled entries after the last signalled one. *)
Fixpoint sig_tail (acc : Z) (l : list wqe) : Z :=
  match l with
  | [] => acc
  | w :: l' => if w_sig w then sig_tail 0 l' else sig_tail (acc + w_bb w) l'
  end.

Definition bb_total (l : list wqe) : Z := sumZ (map w_bb l).

(** Entries are contiguous from block [P] to block [P']. *)
Fixpoint chain (P : Z) (l : list wqe) (P' : Z) : Prop :=
  match l with
  | [] => P = P'
  | w :: l' => w_pos w = P /\ 0 < w_bb w /\ chain (P + w_bb w) l' P'
  end.

(** The slot of an entry in an array indexed by masked producer index. *)
Definition slot_of (cnt : Z) (w : wqe) : Z := w_pos w mod cnt.

(** The slot of a signalled entry holds its credits, its completion and the
    buffer its scattered data goes to. *)
Definition slot_ok (p : snap_dv_qp) (wg : wqe * Z) : Prop :=
  exists s, comps p !! Z.to_nat (slot_of (sq_wqe_cnt p) wg.1) = Some s /\
    slot_n_outstanding s = wg.2 /\ slot_comp s = w_comp wg.1 /\
    (forall b, w_payload wg.1 = Some b -> slot_read_payload s = Some b).

(** The control segment of an entry is intact in the buffer. *)
Definition ctrl_ok (p : snap_dv_qp) (w : wqe) : Prop :=
  circ_read (sq_buf p) (Z.to_nat (slot_of (sq_wqe_cnt p) w) * MLX5_SEND_WQE_BB) 16 =
    seg_frags (SegCtrl (w_ctrl w)).

(** A completion entry for a work-queue entry. *)
Definition cqe_for (w : wqe) (e : mlx5_cqe64) : Prop := wqe_counter e = u16 (w_pos w).

(** The static part of a queue pair, whose next entry starts at block [P]; the
    doorbell record is up to date unless a doorbell is pending. *)
Record qp_wf (p : snap_dv_qp) (P : Z) : Prop := {
  wf_cnt : exists k, 0 <= k <= 15 /\ sq_wqe_cnt p = 2 ^ k;
  wf_comps : Z.of_nat (length (comps p)) = sq_wqe_cnt p;
  wf_buf : length (sq_buf p) = (Z.to_nat (sq_wqe_cnt p) * MLX5_SEND_WQE_BB)%nat;
  wf_opaque : length (opaque p) = 16%nat;
  wf_pi : 0 <= P /\ sq_pi p = u16 P;
  wf_db : tx_need_ring_db p = false -> snd_dbr p = sq_pi p
}.

(** What the control segment tells the device about an entry. *)
Definition wqe_coherent (w : wqe) : Prop :=
  cs_pi (w_ctrl w) = u16 (w_pos w) /\
  has_flag (cs_fm_ce_se (w_ctrl w)) MLX5_WQE_CTRL_CQ_UPDATE = w_sig w /\
  round_up (cs_ds (w_ctrl w)) 4 = w_bb w.

(** The invariant: [infl] are the entries in flight, oldest first, [P] the
    first block of the next entry, [C] the completions consumed so far and
    [pend] the completions the device has written and the queue has not polled:
    those of the oldest signalled entries. *)
Record dv_inv (q : snap_dma_q) (infl : list wqe) (P C : Z) (pend : list mlx5_cqe64) : Prop := {
  inv_wf : qp_wf (dv_qp q) P;
  inv_chain : chain (P - bb_total infl) infl P;
  inv_start : 0 <= P - bb_total infl;
  inv_credit : tx_available q + bb_total infl = snap_dma_q_dv_get_tx_avail_max q;
  inv_avail : 0 <= tx_available q;
  inv_tail : n_outstanding (dv_qp q) = sig_tail 0 infl;
  inv_slots : Forall (slot_ok (dv_qp q)) (sig_groups 0 infl);
  inv_ctrl : Forall (ctrl_ok (dv_qp q)) infl;
  inv_coherent : Forall wqe_coherent infl;
  inv_cq : cq_inv (dv_tx_cq q) C pend;
  inv_pend : Forall2 cqe_for (take (length pend) (filter (fun w => w_sig w = true) infl)) pend
}.

(** * Lemmas on lists of entries *)

Lemma bb_total_cons w l : bb_total (w :: l) = w_bb w + bb_total l.
Proof. done. Qed.
Lemma bb_total_app l1 l2 : bb_total (l1 ++ l2) = bb_total l1 + bb_total l2.
Proof. unfold bb_total. by rewrite map_app, sumZ_app. Qed.

Lemma bb_total_nonneg l : Forall (fun w => 0 < w_bb w) l -> 0 <= bb_total l.
Proof. induction 1 as [|w l Hw Hl IH]; [done|]. rewrite bb_total_cons. lia. Qed.

Lemma chain_app P l1 P' l2 P'' : chain P l1 P' -> chain P' l2 P'' -> chain P (l1 ++ l2) P''.
Proof.
  revert P. induction l1 as [|w l1 IH]; intros P H1 H2; cbn in *; [by subst|].
  destruct H1 as (? & ? & ?). eauto.
Qed.

Lemma chain_app_inv l1 : forall P l2 P',
  chain P (l1 ++ l2) P' -> chain P l1 (P + bb_total l1) /\ chain (P + bb_total l1) l2 P'.
Proof.
  induction l1 as [|w l1 IH]; intros P l2 P' H; cbn [app chain] in *.
  { unfold bb_total. cbn. by rewrite Z.add_0_r. }
  destruct H as (Hw & Hb & H). apply IH in H. rewrite bb_total_cons.
  replace (P + (w_bb w + bb_total l1)) with (P + w_bb w + bb_total l1) by lia. tauto.
Qed.

Lemma chain_bb l : forall P P', chain P l P' -> P' = P + bb_total l /\ Forall (fun w => 0 < w_bb w) l.
Proof.
  induction l as [|w l IH]; intros P P' H; cbn [chain] in H.
  { unfold bb_total. cbn. split; [lia|constructor]. }
  destruct H as (? & ? & H). apply IH in H. rewrite bb_total_cons.
  split; [lia|]. constructor; tauto.
Qed.

(** Every entry of a chain lies between its ends. *)
Lemma chain_in l : forall P P' w, chain P l P' -> w ∈ l ->
  P <= w_pos w /\ 0 < w_bb w /\ w_pos w + w_bb w <= P'.
Proof.
  induction l as [|w' l IH]; intros P P' w H Hin; [by apply elem_of_nil in Hin|].
  cbn [chain] in H. destruct H as (? & ? & H). apply elem_of_cons in Hin.
  destruct Hin as [->|Hin].
  - destruct (chain_bb _ _ _ H) as [-> Hb].
    pose proof (bb_total_nonneg _ Hb). lia.
  - destruct (IH _ _ _ H Hin). lia.
Qed.

Lemma sig_groups_snoc l : forall acc w,
  sig_groups acc (l ++ [w]) =
    sig_groups acc l ++ (if w_sig w then [(w, sig_tail acc l + w_bb w)] else []).
Proof.
  induction l as [|w' l IH]; intros acc w; cbn [app sig_groups sig_tail].
  - by destruct (w_sig w).
  - destruct (w_sig w'); rewrite IH; done.
Qed.

Lemma sig_tail_snoc l : forall acc w,
  sig_tail acc (l ++ [w]) = if w_sig w then 0 else sig_tail acc l + w_bb w.
Proof.
  induction l as [|w' l IH]; intros acc w; cbn [app sig_tail].
  - by destruct (w_sig w).
  - destruct (w_sig w'); apply IH.
Qed.

Lemma sig_groups_in l : forall acc wg, wg ∈ sig_groups acc l -> wg.1 ∈ l /\ w_sig wg.1 = true.
Proof.
  induction l as [|w l IH]; intros acc wg H; cbn [sig_groups] in H; [by apply elem_of_nil in H|].
  destruct (w_sig w) eqn:E.
  - apply elem_of_cons in H. destruct H as [->|H]; [split; [constructor|done]|].
    apply IH in H. split; [constructor|]; tauto.
  - apply IH in H. split; [constructor|]; tauto.
Qed.

(** The tail is at most the sum. *)
Lemma sig_tail_bounds l : forall acc, 0 <= acc -> Forall (fun w => 0 < w_bb w) l ->
  0 <= sig_tail acc l <= acc + bb_total l.
Proof.
  induction l as [|w l IH]; intros acc Hacc Hl; cbn [sig_tail].
  { unfold bb_total. cbn. lia. }
  inversion_clear Hl. rewrite bb_total_cons.
  destruct (w_sig w); [specialize (IH 0)|specialize (IH (acc + w_bb w))];
    destruct IH; try done; lia.
Qed.

(** The oldest signalled entry, and what its completion pays for. *)
Lemma sig_groups_first l : forall acc w g rest,
  sig_groups acc l = (w, g) :: rest ->
  exists pre suf, l = pre ++ w :: suf /\ Forall (fun w => w_sig w = false) pre /\
    w_sig w = true /\ g = acc + bb_total (pre ++ [w]) /\ rest = sig_groups 0 suf.
Proof.
  induction l as [|w' l IH]; intros acc w g rest H; cbn [sig_groups] in H; [done|].
  destruct (w_sig w') eqn:E.
  - injection H as -> <- <-. exists [], l. split; [done|]. split; [constructor|]. split; [done|].
    split; [unfold bb_total; cbn; lia|done].
  - destruct (IH _ _ _ _ H) as (pre & suf & -> & Hpre & Hw & -> & ->).
    exists (w' :: pre), suf. split; [done|]. split; [by constructor|]. split; [done|].
    split; [|done]. cbn [app]. rewrite bb_total_cons. lia.
Qed.

Lemma sig_groups_filter l : forall acc, map fst (sig_groups acc l) = filter (fun w => w_sig w = true) l.
Proof.
  induction l as [|w l IH]; intros acc; cbn [sig_groups]; [done|].
  destruct (w_sig w) eqn:E.
  - rewrite filter_cons_True by done. cbn. by rewrite IH.
  - rewrite filter_cons_False by congruence. apply IH.
Qed.

Lemma sig_tail_first pre w suf acc :
  w_sig w = true -> sig_tail acc (pre ++ w :: suf) = sig_tail 0 suf.
Proof.
  intros Hw. revert acc. induction pre as [|w' pre IH]; intros acc; cbn [app sig_tail].
  - by rewrite Hw.
  - destruct (w_sig w'); apply IH.
Qed.

(** Signalled entries are not more than the blocks in flight. *)
Lemma filter_sig_length l :
  Forall (fun w => 0 < w_bb w) l ->
  Z.of_nat (length (filter (fun w => w_sig w = true) l)) <= bb_total l.
Proof.
  induction 1 as [|w l Hw Hl IH]; [done|]. rewrite filter_cons, bb_total_cons.
  case_decide; cbn [length]; lia.
Qed.

(** * Posting an entry *)

(** The buffer after an entry of [n] blocks was written at [bb]. *)
Record entry_written (buf buf' : list memval) (bb n : nat) (c : ctrl_seg) : Prop := {
  ew_len : length buf' = length buf;
  ew_ctrl : circ_read buf' bb 16 = seg_frags (SegCtrl c);
  ew_frame : forall k, (n * MLX5_SEND_WQE_BB <= k < length buf)%nat ->
    at_dist buf' bb k = at_dist buf bb k
}.

(** In batch mode the doorbell record is left alone; in the other modes it is
    brought up to date, unless nothing was posted. *)
Definition db_step (p p' : snap_dv_qp) : Prop :=
  db_flag p' = db_flag p /\
  match db_flag p with
  | SNAP_DB_RING_BATCH => snd_dbr p' = snd_dbr p
  | _ => snd_dbr p' = sq_pi p' \/ (snd_dbr p' = snd_dbr p /\ sq_pi p' = sq_pi p)
  end.

#[export] Instance db_step_preorder : PreOrder db_step.
Proof.
  unfold db_step. split.
  - intros p. destruct (db_flag p); auto.
  - intros p1 p2 p3 [-> H12] [-> H23]. destruct (db_flag p1); intuition congruence.
Qed.

(** [p'] is [p] with entry [w] posted at block [P]. *)
Record posted (p p' : snap_dv_qp) (P : Z) (w : wqe) : Prop := {
  po_pos : w_pos w = P;
  po_bb : 0 < w_bb w;
  po_wf : qp_wf p' (P + w_bb w);
  po_cnt : sq_wqe_cnt p' = sq_wqe_cnt p;
  po_coherent : wqe_coherent w;
  po_buf : entry_written (sq_buf p) (sq_buf p')
             (Z.to_nat (slot_of (sq_wqe_cnt p) w) * MLX5_SEND_WQE_BB) (Z.to_nat (w_bb w)) (w_ctrl w);
  po_out : n_outstanding p' = if w_sig w then 0 else n_outstanding p + w_bb w;
  po_slot : exists s, comps p' = <[Z.to_nat (slot_of (sq_wqe_cnt p) w) := s]> (comps p) /\
    (w_sig w = true -> slot_n_outstanding s = n_outstanding p + w_bb w /\ slot_comp s = w_comp w /\
       forall b, w_payload w = Some b -> slot_read_payload s = Some b);
  po_db : db_step p p';
  po_mod : w_sig w = false -> n_outstanding p + 1 < SNAP_DMA_Q_TX_MOD_COUNT
}.

Lemma slot_range cnt w : 0 < cnt -> 0 <= slot_of cnt w < cnt.
Proof. apply Z.mod_pos_bound. Qed.

Lemma slot_inj cnt w w' :
  0 < cnt -> w_pos w < w_pos w' < w_pos w + cnt -> slot_of cnt w <> slot_of cnt w'.
Proof.
  intros Hc H. unfold slot_of.
  pose proof (mod_offset_ne cnt (w_pos w) 0 (w_pos w' - w_pos w)) as Hne.
  rewrite Z.add_0_r in Hne. replace (w_pos w + (w_pos w' - w_pos w)) with (w_pos w') in Hne by lia.
  apply Hne; lia.
Qed.

(** The bytes of an entry, seen from another entry posted later. *)
Lemma at_dist_slot buf cnt w w' j :
  0 < cnt -> length buf = (Z.to_nat cnt * MLX5_SEND_WQE_BB)%nat ->
  w_pos w <= w_pos w' <= w_pos w + cnt ->
  at_dist buf (Z.to_nat (slot_of cnt w) * MLX5_SEND_WQE_BB) j =
  at_dist buf (Z.to_nat (slot_of cnt w') * MLX5_SEND_WQE_BB)
    (Z.to_nat (w_pos w + cnt - w_pos w') * MLX5_SEND_WQE_BB + j).
Proof.
  intros Hc Hlen Hpos. unfold at_dist. f_equal. rewrite Hlen. unfold MLX5_SEND_WQE_BB.
  pose proof (slot_range cnt w Hc). pose proof (slot_range cnt w' Hc).
  apply Nat2Z.inj. rewrite !Nat2Z.inj_mod, !Nat2Z.inj_add, !Nat2Z.inj_mul, !Z2Nat.id by lia.
  unfold slot_of. rewrite (Z.mod_eq (w_pos w)), (Z.mod_eq (w_pos w')) by lia.
  change (Z.of_nat 64) with 64.
  match goal with |- ?a mod ?m = ?b mod ?m =>
    replace b with (a + (w_pos w / cnt - w_pos w' / cnt + 1) * m) by ring end.
  by rewrite Z_mod_plus_full.
Qed.

Lemma posted_ctrl_ok p p' P w w' :
  posted p p' P w -> length (sq_buf p) = (Z.to_nat (sq_wqe_cnt p) * MLX5_SEND_WQE_BB)%nat ->
  0 < sq_wqe_cnt p -> w_pos w' < P -> P + w_bb w <= w_pos w' + sq_wqe_cnt p ->
  ctrl_ok p w' -> ctrl_ok p' w'.
Proof.
  intros Hp Hlen Hc H1 H2. destruct Hp as [Hpos Hbb _ Hcnt _ [Hl _ Hframe] _ _ _ _].
  unfold ctrl_ok. rewrite Hcnt. intros <-.
  assert (64 <= length (sq_buf p))%nat by (rewrite Hlen; unfold MLX5_SEND_WQE_BB; lia).
  apply circ_read_ext; [done|lia|].
  intros k Hk. rewrite !(at_dist_slot _ (sq_wqe_cnt p) w' w) by (done || lia || congruence).
  apply Hframe. rewrite Hlen. unfold MLX5_SEND_WQE_BB. lia.
Qed.

Lemma posted_slot_ok p p' P w wg :
  posted p p' P w -> 0 < sq_wqe_cnt p ->
  w_pos wg.1 < P -> P < w_pos wg.1 + sq_wqe_cnt p -> slot_ok p wg -> slot_ok p' wg.
Proof.
  intros Hp Hc H1 H2 (s & Hs & Hrest). destruct Hp as [Hpos _ _ Hcnt _ _ _ (s' & Hcomps & _) _ _].
  exists s. rewrite Hcnt, Hcomps. split; [|done]. rewrite list_lookup_insert_ne; [done|].
  intros Heq. pose proof (slot_range (sq_wqe_cnt p) w Hc). pose proof (slot_range (sq_wqe_cnt p) wg.1 Hc).
  apply Z2Nat.inj in Heq; [|lia..]. symmetry in Heq. revert Heq. apply slot_inj; lia.
Qed.

Lemma posted_slot_new p p' P w :
  posted p p' P w -> Z.of_nat (length (comps p)) = sq_wqe_cnt p -> 0 < sq_wqe_cnt p ->
  w_sig w = true -> slot_ok p' (w, n_outstanding p + w_bb w).
Proof.
  intros [_ _ _ Hcnt _ _ _ (s & Hcomps & Hs) _ _] Hlen Hc Hsig.
  destruct (Hs Hsig) as (H1 & H2 & H3). exists s. rewrite Hcnt, Hcomps. split; [|done].
  apply list_lookup_insert_eq. pose proof (slot_range (sq_wqe_cnt p) w Hc). cbn. lia.
Qed.

Lemma qp_wf_cnt_pos p P : qp_wf p P -> 0 < sq_wqe_cnt p.
Proof. intros [(k & Hk & ->) _ _ _ _ _]. apply Z.pow_pos_nonneg; lia. Qed.

Lemma take_app_prefix {A} (l l' : list A) n : (n <= length l)%nat -> take n (l ++ l') = take n l.
Proof. intros H. by rewrite take_app_le. Qed.

(** Posting an entry that has credits preserves the invariant. *)
Lemma post_inv q q' infl P C pend w :
  dv_inv q infl P C pend -> posted (dv_qp q) (dv_qp q') P w ->
  dv_tx_cq q' = dv_tx_cq q -> w_bb w <= tx_available q ->
  tx_available q' = tx_available q - w_bb w ->
  dv_inv q' (infl ++ [w]) (P + w_bb w) C pend.
Proof.
  intros [Hwf Hchain Hstart Hcred Hav Htail Hslots Hctrl Hcoh Hcq Hpend] Hp Hcqs Hbb Hav'.
  pose proof (qp_wf_cnt_pos _ _ Hwf) as Hc.
  assert (snap_dma_q_dv_get_tx_avail_max q <= sq_wqe_cnt (dv_qp q)) as Hmax.
  { unfold snap_dma_q_dv_get_tx_avail_max, snap_min. case_match; bool_to_prop; lia. }
  pose proof (po_bb _ _ _ _ Hp) as Hb. pose proof (po_pos _ _ _ _ Hp) as Hpos.
  assert (forall w', w' ∈ infl -> w_pos w' < P /\ P + w_bb w <= w_pos w' + sq_wqe_cnt (dv_qp q)) as Hin.
  { intros w' Hw'. destruct (chain_in _ _ _ _ Hchain Hw') as (? & ? & ?). lia. }
  assert (bb_total (infl ++ [w]) = bb_total infl + w_bb w) as Htot.
  { rewrite bb_total_app. unfold bb_total at 2. cbn. lia. }
  split; rewrite ?Htot.
  - apply Hp.
  - apply chain_app with P; [|cbn; lia]. by replace (P + w_bb w - (bb_total infl + w_bb w))
      with (P - bb_total infl) by lia.
  - lia.
  - rewrite Hav'. unfold snap_dma_q_dv_get_tx_avail_max in *. rewrite Hcqs, (po_cnt _ _ _ _ Hp). lia.
  - lia.
  - rewrite sig_tail_snoc, <- Htail. apply Hp.
  - rewrite sig_groups_snoc. apply Forall_app. split.
    + rewrite Forall_forall in *. intros wg Hwg. destruct (sig_groups_in _ _ _ Hwg) as [Hw _].
      destruct (Hin _ Hw). apply (posted_slot_ok (dv_qp q) _ P w); [done|done|lia|lia|by apply Hslots].
    + rewrite <- Htail. destruct (w_sig w) eqn:Hsig; [|constructor].
      constructor; [|constructor]. by eapply posted_slot_new; [|apply Hwf|..].
  - apply Forall_app. split.
    + rewrite Forall_forall in *. intros w' Hw'. destruct (Hin _ Hw').
      apply (posted_ctrl_ok (dv_qp q) _ P w); [done|apply Hwf|done|lia|lia|by apply Hctrl].
    + constructor; [|constructor]. unfold ctrl_ok. rewrite (po_cnt _ _ _ _ Hp). apply Hp.
  - apply Forall_app. split; [done|]. constructor; [apply Hp|constructor].
  - by rewrite Hcqs.
  - rewrite filter_app, take_app_prefix; [done|].
    apply Forall2_length in Hpend. rewrite length_take in Hpend. lia.
Qed.

(** * What the posting functions write *)

Lemma ew_first buf bb n c rest :
  (bb < length buf)%nat -> (16 <= length buf)%nat -> (16 + length rest <= n * MLX5_SEND_WQE_BB)%nat ->
  entry_written buf (circ_store buf bb 0 (seg_frags (SegCtrl c) ++ rest)) bb n c.
Proof.
  intros Hbb Hlen Hn. split.
  - apply circ_store_length.
  - transitivity (circ_read (circ_store buf bb 0 (seg_frags (SegCtrl c))) (bb + 0) (length (seg_frags (SegCtrl c)))).
    + rewrite Nat.add_0_r, seg_frags_length. apply circ_read_ext; rewrite ?circ_store_length; [done|done|].
      intros k Hk. cbn [seg_size] in Hk.
      rewrite !circ_store_at by lia.
      rewrite !decide_True by (rewrite ?length_app, seg_frags_length; cbn [seg_size]; lia).
      rewrite !list_lookup_total_alt, lookup_app_l by (rewrite seg_frags_length; cbn [seg_size]; lia). done.
    + apply circ_store_read; [done|]. rewrite seg_frags_length. cbn [seg_size]. lia.
  - intros k Hk. rewrite circ_store_at by lia.
    rewrite decide_False; [done|]. rewrite length_app, seg_frags_length. cbn [seg_size]. lia.
Qed.

Lemma ew_more buf b1 bb n c a l :
  entry_written buf b1 bb n c -> (bb < length buf)%nat -> (16 <= length buf)%nat ->
  (16 <= a)%nat -> (a + length l <= n * MLX5_SEND_WQE_BB)%nat ->
  entry_written buf (circ_store b1 bb a l) bb n c.
Proof.
  intros [Hl Hc Hf] Hbb Hlen Ha Hn. split.
  - by rewrite circ_store_length.
  - rewrite <- Hc. apply circ_read_ext; rewrite ?circ_store_length; [done|lia|].
    intros k Hk. rewrite circ_store_at by lia. rewrite decide_False by lia. done.
  - intros k Hk. rewrite circ_store_at by lia. rewrite decide_False by lia. by apply Hf.
Qed.

Ltac seg_len :=
  unfold seg_list; cbn [map concat]; rewrite ?app_nil_r;
  rewrite ?length_app, ?seg_frags_length, ?length_replicate; cbn [seg_size]; try lia.

Lemma put_xfer_written buf bb c raddr rkey len lkey addr :
  (bb + MLX5_SEND_WQE_BB <= length buf)%nat ->
  exists b, put_xfer buf bb c raddr rkey len lkey addr = Some b /\ entry_written buf b bb 1 c.
Proof.
  intros Hbb. eexists. split; [by apply put_xfer_circ|].
  unfold MLX5_SEND_WQE_BB in Hbb. unfold seg_list. cbn [map concat].
  apply ew_more; [apply ew_first|..]; try lia; unfold MLX5_SEND_WQE_BB; seg_len.
Qed.

Lemma put_gga_written buf bb c len s_lkey saddr d_lkey daddr op :
  (bb + MLX5_SEND_WQE_BB <= length buf)%nat -> length op = 16%nat ->
  exists b, put_gga buf bb c len s_lkey saddr d_lkey daddr op = Some b /\ entry_written buf b bb 1 c.
Proof.
  intros Hbb Hop. eexists. split; [by apply put_gga_circ|].
  unfold MLX5_SEND_WQE_BB in Hbb. apply ew_first; try lia. unfold MLX5_SEND_WQE_BB. seg_len.
Qed.

Lemma put_inline_written buf wqe_cnt bb c (is_write is_flush : bool) raddr rkey src len n :
  length buf = (Z.to_nat wqe_cnt * MLX5_SEND_WQE_BB)%nat ->
  (bb + MLX5_SEND_WQE_BB <= length buf)%nat -> (inline_hdr is_write + len <= length buf)%nat ->
  (len <= length src)%nat -> (inline_hdr is_write + len <= n * MLX5_SEND_WQE_BB)%nat ->
  exists b, put_inline buf wqe_cnt bb c is_write is_flush raddr rkey src len = Some b /\
    entry_written buf b bb n c.
Proof.
  intros Hsize Hbb Hfit Hsrc Hn. eexists. split; [by apply put_inline_circ|].
  unfold MLX5_SEND_WQE_BB in Hbb, Hn. unfold inline_ref, seg_list. cbn [map concat].
  apply ew_more; [apply ew_first|..]; try lia; unfold MLX5_SEND_WQE_BB.
  - destruct is_write; cbn [inline_hdr] in *; seg_len; cbn; lia.
  - destruct is_write; cbn; lia.
  - rewrite length_app, seg_frags_length. cbn [seg_size].
    assert (length (if is_flush then [] else take len src) <= len)%nat
      by (destruct is_flush; rewrite ?length_take; cbn; lia).
    assert (20 <= inline_hdr is_write)%nat by (destruct is_write; cbn; lia). lia.
Qed.

Lemma put_v2v_written buf wqe_cnt bb c w n :
  length buf = (Z.to_nat wqe_cnt * MLX5_SEND_WQE_BB)%nat ->
  (bb + MLX5_SEND_WQE_BB <= length buf)%nat -> (bb mod MLX5_SEND_WQE_BB = 0)%nat ->
  (32 + 16 * length (wr_l_sgl w) <= length buf)%nat ->
  (32 + 16 * length (wr_l_sgl w) <= n * MLX5_SEND_WQE_BB)%nat ->
  exists b, put_v2v buf wqe_cnt bb c w = Some b /\ entry_written buf b bb n c.
Proof.
  intros Hsize Hbb Hal Hfit Hn. eexists. split; [by apply put_v2v_circ|].
  unfold MLX5_SEND_WQE_BB in Hbb. unfold seg_list at 1. cbn [map concat].
  rewrite <- app_assoc. apply ew_first; try lia.
  rewrite !length_app, seg_frags_length, length_replicate, seg_list_data_length by done.
  cbn [seg_size length]. lia.
Qed.

(** * The posting functions *)

Lemma land8 x : Z.land x 8 = if Z.testbit x 3 then 8 else 0.
Proof.
  apply Z.bits_inj'. intros n Hn. rewrite Z.land_spec. change 8 with (2 ^ 3).
  rewrite Z.pow2_bits_eqb by lia. destruct (Z.eqb_spec 3 n) as [<-|Hne].
  - rewrite andb_true_r. destruct (Z.testbit x 3); [by rewrite Z.pow2_bits_true|by rewrite Z.bits_0].
  - rewrite andb_false_r. destruct (Z.testbit x 3); [|by rewrite Z.bits_0].
    by rewrite Z.pow2_bits_eqb, (proj2 (Z.eqb_neq 3 n)) by lia.
Qed.

(** The two ways the code tests for the completion flag agree. *)
Lemma cq_update_test fm :
  (Z.land fm MLX5_WQE_CTRL_CQ_UPDATE =? MLX5_WQE_CTRL_CQ_UPDATE) = has_flag fm MLX5_WQE_CTRL_CQ_UPDATE.
Proof. unfold has_flag, MLX5_WQE_CTRL_CQ_UPDATE. rewrite land8. by destruct (Z.testbit fm 3). Qed.

(** [q'] differs from [q] in its queue pair and the worker's list only. *)
Definition q_same (q q' : snap_dma_q) : Prop :=
  q' = set_worker_pending (set_dv_qp q (dv_qp q')) (worker_pending q').

Lemma q_same_dv q q1 p p' : q_same q (set_dv_qp q1 p) -> q_same q (set_dv_qp q1 p').
Proof. unfold q_same. destruct q, q1. cbn. intros H. by injection H as -> -> -> -> -> -> -> -> ->. Qed.

Lemma submit_fields q ctrl :
  let q' := snap_dv_wqe_submit q ctrl in
  let p := dv_qp q in let p' := dv_qp q' in
  q_same q q' /\ sq_pi p' = u16 (sq_pi p + 1) /\ sq_wqe_cnt p' = sq_wqe_cnt p /\
  sq_buf p' = sq_buf p /\ comps p' = comps p /\ n_outstanding p' = n_outstanding p /\
  opaque p' = opaque p /\ (tx_need_ring_db p' = false -> snd_dbr p' = sq_pi p') /\
  db_flag p' = db_flag p /\
  match db_flag p with SNAP_DB_RING_BATCH => snd_dbr p' = snd_dbr p | _ => snd_dbr p' = sq_pi p' end.
Proof.
  unfold q_same, snap_dv_wqe_submit. cbn [set_sq db_flag tx_need_ring_db].
  destruct (db_flag (dv_qp q)) eqn:E, q as [? ? ? ? ? p ? ? ? ? [l|]]; cbn in *; rewrite ?E; try (by auto 10).
  all: destruct (tx_need_ring_db p); cbn; rewrite ?E; by auto 15.
Qed.

Lemma qp_wf_index p P : qp_wf p P -> Z.land (sq_pi p) (sq_wqe_cnt p - 1) = P mod sq_wqe_cnt p.
Proof.
  intros [(k & Hk & Hcnt) _ _ _ [_ Hpi] _]. rewrite Hpi, Hcnt. apply uwrap_mask. lia.
Qed.

Lemma prev_index k P : 0 <= k <= 15 -> Z.land (u16 (P + 1) - 1) (2 ^ k - 1) = P mod 2 ^ k.
Proof.
  intros Hk. rewrite land_mask, Zminus_mod by lia.
  assert (u16 (P + 1) mod 2 ^ k = (P + 1) mod 2 ^ k) as ->.
  { rewrite <- (uwrap_mask 16 k (P + 1)) by lia. by rewrite land_mask by lia. }
  rewrite <- Zminus_mod. f_equal. lia.
Qed.

Lemma next_bb_eq p P : qp_wf p P -> next_bb p = (Z.to_nat (P mod sq_wqe_cnt p) * MLX5_SEND_WQE_BB)%nat.
Proof. intros H. unfold next_bb, snap_dv_get_wqe_bb. by rewrite (qp_wf_index p P). Qed.

Lemma next_bb_fits p P :
  qp_wf p P -> (next_bb p + MLX5_SEND_WQE_BB <= length (sq_buf p))%nat /\
    (next_bb p mod MLX5_SEND_WQE_BB = 0)%nat.
Proof.
  intros H. rewrite (next_bb_eq p P H), (wf_buf p P H). pose proof (qp_wf_cnt_pos _ _ H) as Hc.
  pose proof (Z.mod_pos_bound P _ Hc). split; [unfold MLX5_SEND_WQE_BB; lia|].
  by rewrite Nat.Div0.mod_mul.
Qed.

(** The common end of the posting functions: the producer index moves past the
    entry, the doorbell is rung or kept pending, the slot is filled. *)
Lemma finish_post q P b n fm comp c ctrl :
  qp_wf (dv_qp q) P -> 0 < n ->
  entry_written (sq_buf (dv_qp q)) b (next_bb (dv_qp q)) (Z.to_nat n) c ->
  cs_pi c = u16 P -> cs_fm_ce_se c = fm -> round_up (cs_ds c) 4 = n ->
  (has_flag fm MLX5_WQE_CTRL_CQ_UPDATE = false -> n_outstanding (dv_qp q) + 1 < SNAP_DMA_Q_TX_MOD_COUNT) ->
  let q1 := snap_dv_wqe_submit (set_dv_qp q (set_sq (dv_qp q) (u16 (sq_pi (dv_qp q) + (n - 1))) b)) ctrl in
  exists p2,
    snap_dv_set_comp (dv_qp q1) (P mod sq_wqe_cnt (dv_qp q)) comp fm n = Ok p2 /\
    posted (dv_qp q) p2 P (mk_w P n (has_flag fm MLX5_WQE_CTRL_CQ_UPDATE) comp None c) /\
    q_same q (set_dv_qp q1 p2).
Proof.
  intros Hwf Hn Hew Hpi Hfm Hds Hmod q1. pose proof (qp_wf_cnt_pos _ _ Hwf) as Hc.
  destruct (submit_fields (set_dv_qp q (set_sq (dv_qp q) (u16 (sq_pi (dv_qp q) + (n - 1))) b)) ctrl)
    as (Hsame & Epi & Ecnt & Ebuf & Ecomps & Eout & Eop & Edb & Edb').
  fold q1 in Hsame, Epi, Ecnt, Ebuf, Ecomps, Eout, Eop, Edb, Edb'.
  cbn [dv_qp set_dv_qp set_sq sq_pi sq_wqe_cnt sq_buf comps n_outstanding opaque] in *.
  rewrite (next_bb_eq _ _ Hwf) in Hew.
  pose proof (Z.mod_pos_bound P _ Hc) as Hslot. destruct Hwf as [Hcnt Hcomps Hbuf Hop [HP Hsq] Hdb].
  destruct (lookup_lt_is_Some_2 (comps (dv_qp q)) (Z.to_nat (P mod sq_wqe_cnt (dv_qp q)))) as [s Hs]; [lia|].
  unfold snap_dv_set_comp. rewrite Ecomps, Hs. cbn [of_option res_bind]. rewrite cq_update_test.
  assert (sq_pi (dv_qp q1) = u16 (P + n)) as Hpi'.
  { rewrite Epi, Hsq. unfold u16. rewrite uwrap_add_l, <- Z.add_assoc, uwrap_add_l. f_equal. lia. }
  set (sig := has_flag fm MLX5_WQE_CTRL_CQ_UPDATE).
  exists (set_comps (dv_qp q1) (if sig then 0 else n_outstanding (dv_qp q1) + n)
    (<[Z.to_nat (P mod sq_wqe_cnt (dv_qp q)) :=
       mk_slot (if sig then n_outstanding (dv_qp q1) + n else 0) (slot_read_payload s) comp]> (comps (dv_qp q)))).
  split; [by destruct sig|]. split.
  - split; cbn [w_pos w_bb w_sig w_comp w_payload w_ctrl set_comps sq_wqe_cnt sq_buf n_outstanding comps];
      rewrite ?Ebuf, ?Eout; try done.
    + split; cbn [set_comps sq_pi sq_wqe_cnt sq_buf comps n_outstanding opaque tx_need_ring_db snd_dbr];
        rewrite ?length_insert, ?Ecnt, ?Ebuf, ?Eop; try done.
      * by rewrite (ew_len _ _ _ _ _ Hew).
      * split; [lia|done].
    + unfold wqe_coherent. cbn [w_pos w_bb w_sig w_ctrl]. by rewrite Hpi, Hfm.
    + eexists. split; [done|]. intros Hsig. cbn. by rewrite Hsig.
    + destruct Edb' as [Ef Ed]. cbn [db_flag snd_dbr set_sq] in Ef, Ed.
      split; cbn [set_comps db_flag snd_dbr sq_pi]; [done|]. destruct (db_flag (dv_qp q)); auto.
  - unfold q_same in *. rewrite Hsame. by destruct q.
Qed.

(** Filling in the buffer of a short read. *)
Lemma posted_payload p p' P w buf :
  posted p p' P w -> qp_wf p P ->
  exists p2, snap_dv_set_comp_payload p' (P mod sq_wqe_cnt p) buf = Ok p2 /\
    posted p p2 P (mk_w (w_pos w) (w_bb w) (w_sig w) (w_comp w) (Some buf) (w_ctrl w)).
Proof.
  intros [Hpos Hbb Hwf' Hcnt Hcoh Hbuf Hout (s & Hcomps & Hs) Hdb Hmod] Hwf.
  pose proof (qp_wf_cnt_pos _ _ Hwf) as Hc. pose proof (wf_comps _ _ Hwf) as Hl.
  unfold slot_of in *. rewrite Hpos in *.
  pose proof (Z.mod_pos_bound P _ Hc).
  unfold snap_dv_set_comp_payload. rewrite Hcomps, list_lookup_insert_eq by lia.
  cbn [of_option res_bind]. eexists. split; [done|].
  rewrite list_insert_insert_eq.
  split; cbn [w_pos w_bb w_sig w_comp w_payload w_ctrl set_comps sq_wqe_cnt sq_buf n_outstanding comps];
    unfold slot_of; cbn [w_pos]; rewrite ?Hpos; try done.
  - destruct Hwf' as [H1 H2 H3 H4 H5 H6].
    split; cbn [set_comps sq_pi sq_wqe_cnt sq_buf comps n_outstanding opaque tx_need_ring_db snd_dbr]; try done.
    rewrite length_insert. rewrite Hcomps, length_insert in H2. done.
  - unfold wqe_coherent in *. cbn. by rewrite <- Hpos.
  - eexists. split; [done|]. intros Hsig. destruct (Hs Hsig) as (? & ? & ?). cbn.
    split; [done|]. split; [done|]. intros b [= <-]. done.
Qed.

Lemma cq_update_sig p comp fm :
  has_flag (Z.lor fm (snap_dv_get_cq_update p comp)) MLX5_WQE_CTRL_CQ_UPDATE =
    has_flag fm MLX5_WQE_CTRL_CQ_UPDATE || bool_decide (is_Some comp)
      || (SNAP_DMA_Q_TX_MOD_COUNT <=? n_outstanding p + 1).
Proof.
  unfold has_flag, MLX5_WQE_CTRL_CQ_UPDATE, snap_dv_get_cq_update. rewrite !land8.
  rewrite Z.lor_spec. rewrite <- orb_assoc. destruct (_ || (SNAP_DMA_Q_TX_MOD_COUNT <=? _)).
  - rewrite orb_true_r. by destruct (Z.testbit fm 3).
  - rewrite Z.bits_0, !orb_false_r. by destruct (Z.testbit fm 3).
Qed.

(** Whether an entry is signalled: it has a completion, or the moderation
    count is reached. *)
Definition tx_signalled (p : snap_dv_qp) (comp : option nat) : bool :=
  bool_decide (is_Some comp) || (SNAP_DMA_Q_TX_MOD_COUNT <=? n_outstanding p + 1).

Lemma signalled_mod p comp (b : bool) :
  b || tx_signalled p comp = false -> n_outstanding p + 1 < SNAP_DMA_Q_TX_MOD_COUNT.
Proof. unfold tx_signalled. intros H. bool_to_prop. lia. Qed.

Lemma fence_sig fm :
  has_flag (Z.lor fm MLX5_WQE_CTRL_INITIATOR_SMALL_FENCE) MLX5_WQE_CTRL_CQ_UPDATE =
  has_flag fm MLX5_WQE_CTRL_CQ_UPDATE.
Proof.
  unfold has_flag, MLX5_WQE_CTRL_CQ_UPDATE, MLX5_WQE_CTRL_INITIATOR_SMALL_FENCE. rewrite !land8.
  rewrite Z.lor_spec. change (Z.testbit 32 3) with false. by rewrite orb_false_r.
Qed.

Lemma xfer_posted q P buf len lkey raddr rkey op flags comp use_fence :
  qp_wf (dv_qp q) P -> flags = 0 \/ flags = MLX5_WQE_CTRL_CQ_UPDATE ->
  exists q' w,
    do_dv_dma_xfer q buf len lkey raddr rkey op flags comp use_fence = Ok (0, q') /\
    posted (dv_qp q) (dv_qp q') P w /\ q_same q q' /\ w_bb w = 1 /\ w_comp w = comp /\
    w_sig w = negb (flags =? 0) || tx_signalled (dv_qp q) comp /\
    w_payload w = (if flags =? 0 then None else Some buf).
Proof.
  intros Hwf Hflags. unfold do_dv_dma_xfer.
  set (fm := if use_fence then _ else _).
  assert (has_flag fm MLX5_WQE_CTRL_CQ_UPDATE = negb (flags =? 0) || tx_signalled (dv_qp q) comp) as Hsig.
  { transitivity (has_flag (Z.lor (u8 flags) (snap_dv_get_cq_update (dv_qp q) comp)) MLX5_WQE_CTRL_CQ_UPDATE).
    - subst fm. destruct use_fence; [apply fence_sig|done].
    - rewrite cq_update_sig, <- orb_assoc. by destruct Hflags as [->| ->]. }
  destruct (next_bb_fits _ _ Hwf) as [Hfit _].
  set (c := mk_ctrl (sq_pi (dv_qp q)) op 0 fm 3 0).
  destruct (put_xfer_written (sq_buf (dv_qp q)) (next_bb (dv_qp q)) c raddr rkey (u32 len) lkey buf Hfit)
    as (b & Hb & Hew).
  rewrite Hb. cbn [of_option res_bind].
  pose proof (wf_pi _ _ Hwf) as [HP Hpi]. destruct (wf_cnt _ _ Hwf) as (k & Hk & Hcnt).
  destruct (finish_post q P b 1 fm comp c (next_bb (dv_qp q)) Hwf) as (p2 & Hp2 & Hpost & Hsame);
    [lia|done|done|done|done|rewrite Hsig; apply signalled_mod|].
  assert (u16 (sq_pi (dv_qp q) + (1 - 1)) = sq_pi (dv_qp q)) as E.
  { rewrite Z.add_0_r, Hpi. apply uwrap_idemp. }
  rewrite E in Hp2, Hsame. set (q1 := snap_dv_wqe_submit _ _) in *.
  destruct (submit_fields (set_dv_qp q (set_sq (dv_qp q) (sq_pi (dv_qp q)) b)) (next_bb (dv_qp q)))
    as (_ & Epi & Ecnt & _).
  fold q1 in Epi, Ecnt. cbn [dv_qp set_dv_qp set_sq sq_pi sq_wqe_cnt] in Epi, Ecnt.
  assert (Z.land (sq_pi (dv_qp q1) - 1) (sq_wqe_cnt (dv_qp q1) - 1) = P mod sq_wqe_cnt (dv_qp q)) as ->.
  { rewrite Epi, Ecnt, Hpi, Hcnt. unfold u16. rewrite uwrap_add_l. by apply prev_index. }
  rewrite Hp2. cbn [res_bind].
  destruct (Z.eqb_spec flags 0) as [Hf|Hf]; cbn [negb orb] in *.
  - cbn [res_bind]. do 2 eexists. split; [done|]. split; [apply Hpost|]. by rewrite <- Hsig.
  - destruct (posted_payload _ _ _ _ buf Hpost Hwf) as (p3 & Hp3 & Hpost3). rewrite Hp3. cbn [res_bind].
    do 2 eexists. split; [done|]. split; [apply Hpost3|]. split; [|by rewrite Hsig].
    by eapply q_same_dv.
Qed.

Lemma gga_posted q P saddr len s_lkey daddr d_lkey comp use_fence :
  qp_wf (dv_qp q) P ->
  exists q' w,
    do_gga_dma_xfer q saddr len s_lkey daddr d_lkey comp use_fence = Ok (0, q') /\
    posted (dv_qp q) (dv_qp q') P w /\ q_same q q' /\ w_bb w = 1 /\ w_comp w = comp /\
    w_sig w = tx_signalled (dv_qp q) comp.
Proof.
  intros Hwf. unfold do_gga_dma_xfer. rewrite (qp_wf_index _ _ Hwf).
  set (fm := if use_fence then _ else _).
  assert (has_flag fm MLX5_WQE_CTRL_CQ_UPDATE = tx_signalled (dv_qp q) comp) as Hsig.
  { transitivity (has_flag (Z.lor 0 (snap_dv_get_cq_update (dv_qp q) comp)) MLX5_WQE_CTRL_CQ_UPDATE).
    - subst fm. rewrite Z.lor_0_l. destruct use_fence; [apply fence_sig|done].
    - by rewrite cq_update_sig. }
  destruct (next_bb_fits _ _ Hwf) as [Hfit _].
  set (c := mk_ctrl _ _ _ fm _ _).
  destruct (put_gga_written (sq_buf (dv_qp q)) (next_bb (dv_qp q)) c (u32 len) s_lkey saddr d_lkey daddr
              (opaque (dv_qp q)) Hfit (wf_opaque _ _ Hwf)) as (b & Hb & Hew).
  rewrite Hb. cbn [of_option res_bind]. pose proof (wf_pi _ _ Hwf) as [HP Hpi].
  destruct (finish_post q P b 1 fm comp c (next_bb (dv_qp q)) Hwf) as (p2 & Hp2 & Hpost & Hsame);
    [lia|done|done|done|done|rewrite Hsig; apply (signalled_mod _ _ false)|].
  assert (u16 (sq_pi (dv_qp q) + (1 - 1)) = sq_pi (dv_qp q)) as E.
  { rewrite Z.add_0_r, Hpi. apply uwrap_idemp. }
  rewrite E in Hp2, Hsame. rewrite Hp2. cbn [res_bind].
  do 2 eexists. split; [done|]. split; [apply Hpost|]. by rewrite <- Hsig.
Qed.

(** Rounding up in 16 bits. *)
Lemma round_up_eq x d : 0 <= x < 2 ^ 16 -> 0 < d < 2 ^ 16 -> round_up x d = (x + d - 1) / d.
Proof.
  intros Hx Hd. unfold round_up. rewrite (u16_small x), (u16_small d) by lia. apply u16_small.
  split; [apply Z.div_pos; lia|]. apply Z.div_lt_upper_bound; nia.
Qed.

(** The size in the control segment, in 16-byte units, and the number of
    blocks agree. *)
Lemma round_up_ds ws :
  0 <= ws <= 4080 -> round_up (u8 (round_up ws 16)) 4 = round_up ws 64.
Proof.
  intros Hws. rewrite (round_up_eq ws 16), (round_up_eq ws 64) by lia.
  assert (0 <= (ws + 16 - 1) / 16 < 256) by (Z.to_euclidean_division_equations; lia).
  unfold u8. rewrite uwrap_small, round_up_eq by lia. Z.to_euclidean_division_equations. lia.
Qed.

(** Size and blocks of an inline entry. *)
Definition inline_size (is_write is_flush : bool) (len : Z) : Z :=
  20 + len + (if is_write then 16 else 0) - (if is_flush then 4 else 0).
Definition inline_bb (is_write is_flush : bool) (len : Z) : Z := round_up (inline_size is_write is_flush len) 64.

Lemma inline_bb_bounds is_write is_flush len :
  0 <= len <= 4044 ->
  0 < inline_bb is_write is_flush len /\ inline_size is_write is_flush len <= 64 * inline_bb is_write is_flush len.
Proof.
  intros Hlen. unfold inline_bb.
  assert (16 <= inline_size is_write is_flush len <= 4080)
    by (unfold inline_size; destruct is_write, is_flush; lia).
  rewrite round_up_eq by lia. Z.to_euclidean_division_equations. lia.
Qed.

Lemma inline_posted q P src len op raddr rkey comp is_flush :
  qp_wf (dv_qp q) P -> 0 <= len <= 4044 -> (Z.to_nat len <= length src)%nat ->
  (is_flush = true -> len = 0 /\ op = MLX5_OPCODE_RDMA_WRITE) ->
  tx_available q <= sq_wqe_cnt (dv_qp q) ->
  let n := inline_bb (op =? MLX5_OPCODE_RDMA_WRITE) is_flush len in
  (tx_available q < n /\
     do_dv_xfer_inline q src len op raddr rkey comp is_flush = Ok (- EAGAIN, n, q)) \/
  (n <= tx_available q /\ exists q' w,
     do_dv_xfer_inline q src len op raddr rkey comp is_flush = Ok (0, n, q') /\
     posted (dv_qp q) (dv_qp q') P w /\ q_same q q' /\ w_bb w = n /\ w_comp w = comp /\
     w_sig w = is_flush || tx_signalled (dv_qp q) comp).
Proof.
  intros Hwf Hlen Hsrc Hflush Hav n. set (is_write := op =? MLX5_OPCODE_RDMA_WRITE) in *.
  destruct (inline_bb_bounds is_write is_flush len Hlen) as [Hn Hsize]. fold n in Hn, Hsize.
  unfold do_dv_xfer_inline. fold is_write.
  assert ((if is_flush then u16 ((if is_write then u16 (u16 (16 + 4 + len) + 16) else u16 (16 + 4 + len)) - 4)
           else if is_write then u16 (u16 (16 + 4 + len) + 16) else u16 (16 + 4 + len))
          = inline_size is_write is_flush len) as ->.
  { unfold inline_size. rewrite (u16_small (16 + 4 + len)), (u16_small (16 + 4 + len + 16)) by lia.
    destruct is_write, is_flush; rewrite ?u16_small by lia; lia. }
  change (round_up (inline_size is_write is_flush len) 64) with n.
  unfold qp_can_tx. destruct (Z.leb_spec n (tx_available q)) as [Hcan|Hcan]; cbn [negb]; [right|by left].
  split; [done|]. rewrite (qp_wf_index _ _ Hwf).
  set (fm := if is_flush then _ else _).
  assert (has_flag fm MLX5_WQE_CTRL_CQ_UPDATE = is_flush || tx_signalled (dv_qp q) comp) as Hsig.
  { subst fm. destruct is_flush; [done|].
    rewrite <- (Z.lor_0_l (snap_dv_get_cq_update _ _)). by rewrite cq_update_sig. }
  destruct (next_bb_fits _ _ Hwf) as [Hfit _]. pose proof (wf_buf _ _ Hwf) as Hbuf.
  set (c := mk_ctrl _ _ _ fm _ _).
  assert (Z.of_nat (inline_hdr is_write) + len <= 64 * n) as Hhdr.
  { unfold inline_size in Hsize. destruct is_flush.
    - destruct Hflush as [-> ->]; [done|]. subst is_write. cbn. lia.
    - destruct is_write; cbn in *; lia. }
  destruct (put_inline_written (sq_buf (dv_qp q)) (sq_wqe_cnt (dv_qp q)) (next_bb (dv_qp q)) c
              is_write is_flush raddr rkey src (Z.to_nat len) (Z.to_nat n)) as (b & Hb & Hew);
    [done|done|rewrite Hbuf; unfold MLX5_SEND_WQE_BB; lia|done|unfold MLX5_SEND_WQE_BB; lia|].
  rewrite Hb. cbn [of_option res_bind]. pose proof (wf_pi _ _ Hwf) as [HP Hpi].
  destruct (finish_post q P b n fm comp c (next_bb (dv_qp q)) Hwf) as (p2 & Hp2 & Hpost & Hsame);
    [lia|done|done|done| |rewrite Hsig; apply signalled_mod|].
  { apply round_up_ds. unfold inline_size. destruct is_write, is_flush; lia. }
  rewrite Hp2. cbn [res_bind].
  do 2 eexists. split; [done|]. split; [apply Hpost|]. by rewrite <- Hsig.
Qed.

(** Bytes from the inline data of the next entry to the end of the send queue, and the window
    in which [do_dv_send] computes a negative size: the inline data ends before the end of the
    queue, the data segment does not. *)
Definition send_to_end (p : snap_dv_qp) : Z := (sq_wqe_cnt p - Z.land (sq_pi p) (sq_wqe_cnt p - 1)) * 64 - 20.
Definition send_window (p : snap_dv_qp) (in_len : Z) : Prop :=
  in_len < send_to_end p < in_len + Z.of_nat (inl_complement (Z.to_nat in_len)) + 16.

(** Size and blocks of an entry of [do_dv_send]. *)
Definition send_size (in_len : Z) : Z := 36 + in_len + Z.of_nat (inl_complement (Z.to_nat in_len)).
Definition send_bb (in_len : Z) : Z := round_up (send_size in_len) 64.

Lemma inl_complement_Z in_len : 0 <= in_len ->
  0 <= Z.of_nat (inl_complement (Z.to_nat in_len)) < 16 /\ (4 + in_len + Z.of_nat (inl_complement (Z.to_nat in_len))) mod 16 = 0.
Proof.
  intros H. unfold inl_complement. assert (Z.of_nat ((4 + Z.to_nat in_len) mod 16) = (4 + in_len) mod 16) as Hm
    by (rewrite Nat2Z.inj_mod, Nat2Z.inj_add, Z2Nat.id by lia; done).
  pose proof (Z.mod_pos_bound (4 + in_len) 16 ltac:(lia)). pose proof (Z.div_mod (4 + in_len) 16 ltac:(lia)).
  destruct (Nat.eqb_spec ((4 + Z.to_nat in_len) mod 16) 0) as [E|E].
  - rewrite E in Hm. split; [lia|]. rewrite Z.add_0_r. lia.
  - rewrite Nat2Z.inj_sub by lia. rewrite Hm. split; [lia|]. symmetry. apply (Z.mod_unique_pos _ _ ((4 + in_len) / 16 + 1)); lia.
Qed.

Lemma send_bb_bounds in_len : 0 <= in_len <= 4044 ->
  0 < send_bb in_len /\ 36 <= send_size in_len <= 4080 /\ send_size in_len <= 64 * send_bb in_len.
Proof.
  intros Hlen. destruct (inl_complement_Z in_len) as [Hc Hm]; [lia|]. unfold send_bb.
  assert (36 <= send_size in_len <= 4080) by (unfold send_size; Z.to_euclidean_division_equations; lia).
  rewrite round_up_eq by lia. Z.to_euclidean_division_equations. lia.
Qed.

Lemma send_posted q P in_buf in_len addr len key op imm :
  qp_wf (dv_qp q) P -> 0 <= in_len <= 4044 -> Z.of_nat (length in_buf) = in_len -> ~ send_window (dv_qp q) in_len ->
  tx_available q <= sq_wqe_cnt (dv_qp q) ->
  (tx_available q < send_bb in_len /\ do_dv_send q in_buf in_len addr len key op imm = Ok (- EAGAIN, send_bb in_len, q)) \/
  (send_bb in_len <= tx_available q /\ exists q' w,
     do_dv_send q in_buf in_len addr len key op imm = Ok (0, send_bb in_len, q') /\
     posted (dv_qp q) (dv_qp q') P w /\ q_same q q' /\ w_bb w = send_bb in_len /\ w_comp w = None).
Proof.
  intros Hwf Hlen Hin Hwin Hav. destruct (send_bb_bounds in_len Hlen) as (Hn & Hs1 & Hs2).
  unfold do_dv_send. rewrite (u16_small (16 + 16 + 4 + in_len + _)) by (unfold send_size in Hs1; lia).
  change (16 + 16 + 4 + in_len + Z.of_nat (inl_complement (Z.to_nat in_len))) with (send_size in_len).
  change (round_up (send_size in_len) 64) with (send_bb in_len). set (n := send_bb in_len) in *.
  unfold qp_can_tx. destruct (Z.leb_spec n (tx_available q)) as [Hcan|Hcan]; cbn [negb]; [right|by left].
  split; [done|]. unfold send_window, send_to_end in Hwin. rewrite (qp_wf_index _ _ Hwf) in Hwin |- *.
  destruct (next_bb_fits _ _ Hwf) as [Hfit _]. pose proof (wf_buf _ _ Hwf) as Hbuf. pose proof (qp_wf_cnt_pos _ _ Hwf) as Hcnt.
  pose proof (Z.mod_pos_bound P _ Hcnt) as Hslot. pose proof (next_bb_eq _ _ Hwf) as Hbb. unfold MLX5_SEND_WQE_BB in Hbb, Hbuf, Hfit.
  set (c := mk_ctrl _ _ _ _ _ _). set (cpl := inl_complement (Z.to_nat in_len)) in *. unfold send_size in Hs2. fold cpl in Hs2.
  rewrite put_send_layout; [|unfold MLX5_SEND_WQE_BB; lia|unfold MLX5_SEND_WQE_BB; lia|fold cpl; lia|lia]. fold cpl.
  match goal with |- context [if ?b then None else _] => replace b with false by (symmetry; apply andb_false_iff; rewrite !Nat.ltb_ge; lia) end.
  cbn [of_option res_bind]. pose proof (wf_pi _ _ Hwf) as [HP Hpi].
  match goal with |- context [set_sq _ _ ?b] => assert (entry_written (sq_buf (dv_qp q)) b (next_bb (dv_qp q)) (Z.to_nat n) c) as Hew end.
  { apply ew_more; [unfold seg_list; cbn [map concat]; rewrite app_nil_r, <- app_assoc; apply ew_first|..]; unfold MLX5_SEND_WQE_BB;
      rewrite ?length_app, ?seg_frags_length; cbn [seg_size]; lia. }
  destruct (finish_post q P _ n (snap_dv_get_cq_update (dv_qp q) None) None c (next_bb (dv_qp q)) Hwf Hn Hew) as (p2 & Hp2 & Hpost & Hsame);
    [by rewrite <- Hpi|done|by apply round_up_ds; lia| |].
  { rewrite <- (Z.lor_0_l (snap_dv_get_cq_update _ _)), cq_update_sig. apply (signalled_mod _ None false). }
  rewrite Hp2. cbn [res_bind]. do 2 eexists. split; [done|]. split; [apply Hpost|]. by split_and!.
Qed.

(** Blocks of a work request, from the size in its control segment. *)
Lemma wqe_bb_ds n :
  0 <= n <= 20 -> round_up (u8 (2 + n)) 4 = wqe_bb n /\ 0 < wqe_bb n /\ 2 + n <= 4 * wqe_bb n /\ wqe_bb n <= 6.
Proof.
  intros Hn. unfold u8. rewrite uwrap_small, round_up_eq by lia.
  unfold wqe_bb. destruct (Z.leb_spec n 2); [Z.to_euclidean_division_equations; lia|].
  rewrite round_up_eq by lia. Z.to_euclidean_division_equations. lia.
Qed.

(** One work request of [do_dv_dma_xfer_v2v]. *)
Lemma v2v_posted q P w op comp fm :
  qp_wf (dv_qp q) P -> (length (wr_l_sgl w) <= SNAP_DMA_Q_MAX_SGE_NUM)%nat ->
  let n := Z.of_nat (length (wr_l_sgl w)) in
  wqe_bb n <= sq_wqe_cnt (dv_qp q) -> fm = snap_dv_get_cq_update (dv_qp q) comp ->
  let p := dv_qp q in
  let c := mk_ctrl (sq_pi p) op 0 fm (u8 (2 + n)) 0 in
  exists b p2,
    put_v2v (sq_buf p) (sq_wqe_cnt p) (next_bb p) c w = Some b /\
    let q1 := snap_dv_wqe_submit (set_dv_qp q (set_sq p (u16 (sq_pi p + (wqe_bb n - 1))) b)) (next_bb p) in
    snap_dv_set_comp (dv_qp q1) (P mod sq_wqe_cnt p) comp fm (wqe_bb n) = Ok p2 /\
    posted p p2 P (mk_w P (wqe_bb n) (has_flag fm MLX5_WQE_CTRL_CQ_UPDATE) comp None c) /\
    q_same q (set_dv_qp q1 p2).
Proof.
  intros Hwf Hsge n Hfit Hfm p c. unfold SNAP_DMA_Q_MAX_SGE_NUM in Hsge.
  destruct (wqe_bb_ds n) as (Hds & Hpos & Hbb & _); [lia|].
  destruct (next_bb_fits _ _ Hwf) as [Hroom Hal]. pose proof (wf_buf _ _ Hwf) as Hbuf.
  destruct (put_v2v_written (sq_buf p) (sq_wqe_cnt p) (next_bb p) c w (Z.to_nat (wqe_bb n)))
    as (b & Hb & Hew); [done|done|done|..].
  { unfold p. rewrite Hbuf. unfold MLX5_SEND_WQE_BB. lia. }
  { unfold MLX5_SEND_WQE_BB. lia. }
  destruct (finish_post q P b (wqe_bb n) fm comp c (next_bb p) Hwf) as (p2 & Hp2 & Hpost & Hsame);
    [lia|done|apply Hwf|done|done| |].
  { rewrite Hfm, <- (Z.lor_0_l (snap_dv_get_cq_update _ _)), cq_update_sig. apply (signalled_mod _ _ false). }
  exists b, p2. done.
Qed.

(** * Calls

    A call of an entry point with its arguments. *)
Inductive dma_call :=
| CallWrite (src_buf len lkey dstaddr rmkey : Z) (comp : option nat)
| CallRead (dst_buf len lkey srcaddr rmkey : Z) (comp : option nat)
| CallReadShort (dst_buf len srcaddr rmkey : Z) (comp : option nat)
| CallWritev2v (src_mkey : list Z) (src_iov : list iovec) (dst_mkey : list Z) (dst_iov : list iovec)
    (share_src share_dst : bool) (comp : option nat)
| CallReadv2v (dst_mkey : list Z) (dst_iov : list iovec) (src_mkey : list Z) (src_iov : list iovec)
    (share_dst share_src : bool) (comp : option nat)
| CallWriteShort (src : list memval) (len dstaddr rmkey : Z)
| CallSendCompletion (src : list memval) (len : Z)
| CallSend (in_buf : list memval) (in_len addr len key : Z) (imm : option Z)
| CallFlushNowait (comp : option nat).

Definition run_call (q : snap_dma_q) (c : dma_call) : res (Z * snap_dma_q) :=
  match c with
  | CallWrite b l k d r comp => snap_dma_q_write q b l k d r comp
  | CallRead b l k s r comp => snap_dma_q_read q b l k s r comp
  | CallReadShort b l s r comp => snap_dma_q_read_short q b l s r comp
  | CallWritev2v sk si dk di ss sd comp => snap_dma_q_writev2v q sk si dk di ss sd comp
  | CallReadv2v dk di sk si sd ss comp => snap_dma_q_readv2v q dk di sk si sd ss comp
  | CallWriteShort s l d r => snap_dma_q_write_short q s l d r
  | CallSendCompletion s l => snap_dma_q_send_completion q s l
  | CallSend b n a l k imm => snap_dma_q_send q b n a l k imm
  | CallFlushNowait comp => snap_dma_q_flush_nowait q comp
  end.

(** Arguments a caller may pass: buffers as long as their lengths say, inline
    data the size field of an entry can count, one key per io vector element
    (or a shared one), element lengths of 32 bits; for [snap_dma_q_send] the sizes that its
    documentation allows, outside the window in which its copy underflows. *)
Definition keys_ok (share : bool) (mkey : list Z) (iov : list iovec) : Prop :=
  if share then (1 <= length mkey)%nat else length mkey = length iov.

Definition call_ok (q : snap_dma_q) (c : dma_call) : Prop :=
  match c with
  | CallWrite _ _ _ _ _ _ | CallRead _ _ _ _ _ _ | CallReadShort _ _ _ _ _ | CallFlushNowait _ => True
  | CallWritev2v sk si dk di ss sd _ | CallReadv2v dk di sk si sd ss _ =>
    keys_ok ss sk si /\ keys_ok sd dk di /\ Forall iov_wf si /\ Forall iov_wf di
  | CallWriteShort s l _ _ | CallSendCompletion s l =>
    0 <= l <= Z.of_nat (length s) /\ tx_elem_size q <= 4044
  | CallSend b n _ l _ _ =>
    Z.of_nat (length b) = n /\ 0 <= l /\ n + l <= tx_elem_size q <= 4044 /\ ~ send_window (dv_qp q) n
  end.

(** The completion of a call. *)
Definition call_comp (c : dma_call) : option nat :=
  match c with
  | CallWrite _ _ _ _ _ comp | CallRead _ _ _ _ _ comp | CallReadShort _ _ _ _ comp
  | CallWritev2v _ _ _ _ _ _ comp | CallReadv2v _ _ _ _ _ _ comp | CallFlushNowait comp => comp
  | _ => None
  end.

(** The completion of a call is that of its last entry. *)
Definition last_comp (comp : option nat) (ws : list wqe) : Prop :=
  exists ws0 w, ws = ws0 ++ [w] /\ w_comp w = comp /\ Forall (fun w => w_comp w = None) ws0 /\
    (is_Some comp -> w_sig w = true).

(** The largest entry a call can post: a work request of 20 segments, or inline
    data of the size the queue was created for. *)
Definition entry_bb_max (elem_size : Z) : Z := Z.max 6 (inline_bb true false elem_size).

(** Moderation: unsignalled blocks do not pile up. *)
Definition out_step (m : Z) (p p' : snap_dv_qp) : Prop :=
  n_outstanding p' <= Z.max (n_outstanding p) (14 + m).

Lemma posted_out p p' P w m : posted p p' P w -> 0 <= m -> w_bb w <= m -> out_step m p p'.
Proof.
  intros Hp Hm Hbb. unfold out_step. rewrite (po_out _ _ _ _ Hp). destruct (w_sig w) eqn:E; [lia|].
  pose proof (po_mod _ _ _ _ Hp E). unfold SNAP_DMA_Q_TX_MOD_COUNT in *. lia.
Qed.

(** What a caller may rely on. Either the call is refused with an error code
    and nothing has changed, or the entries [ws] are in flight after those
    already there, the credits of all of them are charged, and the completion
    of the call is that of the last entry. *)
Definition call_spec (q : snap_dma_q) (infl : list wqe) (P C : Z) (pend : list mlx5_cqe64)
    (comp : option nat) (r : res (Z * snap_dma_q)) : Prop :=
  (exists rc, r = Ok (rc, q) /\ (rc = - EAGAIN \/ rc = - EINVAL)) \/
  exists q' ws,
    r = Ok (0, q') /\
    dv_inv q' (infl ++ ws) (P + bb_total ws) C pend /\
    tx_available q' = tx_available q - bb_total ws /\
    q_same (set_tx_available q (tx_available q')) q' /\ db_step (dv_qp q) (dv_qp q') /\
    out_step (entry_bb_max (tx_elem_size q)) (dv_qp q) (dv_qp q') /\ (ws = [] \/ last_comp comp ws).

Lemma avail_le_cnt q infl P C pend : dv_inv q infl P C pend ->
  tx_available q <= sq_wqe_cnt (dv_qp q) /\ tx_available q <= cqe_cnt (dv_tx_cq q).
Proof.
  intros H. pose proof (inv_credit _ _ _ _ _ H) as Hc.
  destruct (chain_bb _ _ _ (inv_chain _ _ _ _ _ H)) as [_ Hb].
  pose proof (bb_total_nonneg _ Hb).
  unfold snap_dma_q_dv_get_tx_avail_max, snap_min in Hc. case_match; bool_to_prop; lia.
Qed.

(** A call that posts one entry and is then charged. *)
Lemma one_entry_spec q infl P C pend comp q1 w :
  dv_inv q infl P C pend -> posted (dv_qp q) (dv_qp q1) P w -> q_same q q1 ->
  w_bb w <= tx_available q -> w_bb w <= entry_bb_max (tx_elem_size q) ->
  w_comp w = comp -> (is_Some comp -> w_sig w = true) ->
  call_spec q infl P C pend comp (charge 0 (w_bb w) q1).
Proof.
  intros Hinv Hpost Hsame Hbb Hmax Hcomp Hsig. right.
  assert (tx_available q1 = tx_available q) as Hav by (by rewrite Hsame).
  assert (bb_total [w] = w_bb w) as Ht by (unfold bb_total; cbn; lia).
  exists (set_tx_available q1 (tx_available q1 - w_bb w)), [w]. rewrite Ht.
  split; [done|]. split; [|split; [cbn; lia|split]].
  - apply (post_inv q); try done; cbn; [by rewrite Hsame|lia].
  - unfold q_same in *. cbn [tx_available set_tx_available]. rewrite Hsame. by destruct q.
  - split; [apply Hpost|]. split; [|right; by exists [], w].
    apply (posted_out _ _ P w); [done|unfold entry_bb_max; lia|done].
Qed.

Lemma set_tx_available_twice q a b : set_tx_available (set_tx_available q a) b = set_tx_available q b.
Proof. by destruct q. Qed.

Lemma bb_sum_cons w l : bb_sum (w :: l) = wqe_bb (Z.of_nat (length (wr_l_sgl w))) + bb_sum l.
Proof. done. Qed.

Lemma bb_sum_nonneg l : Forall wr_ok l -> 0 <= bb_sum l.
Proof.
  induction 1 as [|w l [Hw _] Hl IH]; [done|]. rewrite bb_sum_cons.
  destruct (wqe_bb_ds (Z.of_nat (length (wr_l_sgl w)))) as (_ & ? & _);
    unfold SNAP_DMA_Q_MAX_SGE_NUM in Hw; lia.
Qed.

Lemma cq_update_comp p comp :
  is_Some comp -> has_flag (snap_dv_get_cq_update p comp) MLX5_WQE_CTRL_CQ_UPDATE = true.
Proof.
  intros Hc. rewrite <- (Z.lor_0_l (snap_dv_get_cq_update _ _)), cq_update_sig.
  by rewrite bool_decide_true, orb_true_r.
Qed.

(** The loop of [do_dv_dma_xfer_v2v], with [v] credits left: the credits are
    charged after the loop. *)
Lemma v2v_loop op comp : forall wrs q v infl P C pend,
  Forall wr_ok wrs -> bb_sum wrs <= v ->
  dv_inv (set_tx_available q v) infl P C pend ->
  exists q' ws,
    do_dv_dma_xfer_v2v q op wrs comp = Ok (0, q') /\
    dv_inv (set_tx_available q' (v - bb_sum wrs)) (infl ++ ws) (P + bb_sum wrs) C pend /\
    bb_total ws = bb_sum wrs /\ q_same q q' /\
    db_step (dv_qp q) (dv_qp q') /\ out_step 6 (dv_qp q) (dv_qp q') /\
    match wrs with [] => ws = [] | _ => last_comp comp ws end.
Proof.
  induction wrs as [|w wrs IH]; intros q v infl P C pend Hok Hv Hinv.
  { exists q, []. rewrite app_nil_r. change (bb_sum []) with 0 in *. rewrite Z.sub_0_r, Z.add_0_r.
    split; [done|]. split; [done|]. split; [done|]. split; [by destruct q|]. split; [reflexivity|]. split; [unfold out_step; lia|done]. }
  rewrite bb_sum_cons in Hv |- *. inversion_clear Hok as [|? ? Hw Hwrs].
  pose proof (bb_sum_nonneg _ Hwrs) as Hnn. destruct (avail_le_cnt _ _ _ _ _ Hinv) as [Hcnt _].
  pose proof (inv_wf _ _ _ _ _ Hinv) as Hwf. cbn [set_tx_available tx_available dv_qp] in Hcnt, Hwf.
  set (n := Z.of_nat (length (wr_l_sgl w))) in *. cbn [do_dv_dma_xfer_v2v]. fold n.
  set (c_comp := match wrs with [] => comp | _ => None end).
  set (fm := snap_dv_get_cq_update (dv_qp q) c_comp).
  rewrite (qp_wf_index _ _ Hwf).
  destruct (v2v_posted q P w op c_comp fm Hwf) as (b & p2 & Hb & Hp2 & Hpost & Hsame);
    [apply Hw|cbv zeta; fold n; lia|done|]. fold n in Hb, Hp2, Hpost, Hsame.
  rewrite Hb. cbn [of_option res_bind]. rewrite Hp2. cbn [res_bind].
  set (q1 := set_dv_qp _ p2) in *. set (w' := mk_w P (wqe_bb n) _ c_comp None _) in *.
  assert (dv_inv (set_tx_available q1 (v - wqe_bb n)) (infl ++ [w']) (P + wqe_bb n) C pend) as Hinv1.
  { change (P + wqe_bb n) with (P + w_bb w').
    apply (post_inv (set_tx_available q v)); try done; cbn [set_tx_available dv_tx_cq tx_available w_bb w'];
      [by rewrite Hsame|lia]. }
  destruct (IH q1 (v - wqe_bb n) (infl ++ [w']) (P + wqe_bb n) C pend) as (q' & ws & Hq' & Hinv' & Htot & Hs' & Hdb & Hout & Hws);
    [done|lia|done|].
  exists q', (w' :: ws). split; [done|]. split; [|split; [|split; [|split; [|split]]]].
  - rewrite Z.sub_add_distr, Z.add_assoc. change (w' :: ws) with ([w'] ++ ws). by rewrite app_assoc.
  - rewrite bb_total_cons, Htot. done.
  - unfold q_same in *. rewrite Hs', Hsame. by destruct q.
  - etrans; [|done]. apply Hpost.
  - assert (out_step 6 (dv_qp q) (dv_qp q1)) as H1; [|unfold out_step in *; lia].
    apply (posted_out _ _ P w'); [done|lia|]. cbn [w_bb w']. destruct Hw as [Hw _].
    destruct (wqe_bb_ds n) as (_ & _ & _ & ?); unfold SNAP_DMA_Q_MAX_SGE_NUM in Hw; lia.
  - destruct wrs as [|w2 wrs].
    + subst ws. exists [], w'. split; [done|]. split; [done|]. split; [constructor|apply cq_update_comp].
    + destruct Hws as (ws0 & w0 & -> & Hc & Hn & Hs).
      exists (w' :: ws0), w0. split; [done|]. split; [done|]. split; [by constructor|done].
Qed.

Lemma iov_keys_ok share mkey iov :
  keys_ok share mkey iov -> exists k, iov_keys share mkey iov = Ok k /\ length k = length iov.
Proof.
  unfold keys_ok, iov_keys. destruct share; intros H; [|eauto].
  destruct iov as [|v iov]; [by exists []|]. destruct mkey as [|k mkey]; [cbn in H; lia|].
  eexists. split; [done|]. by rewrite length_replicate.
Qed.

Lemma writev2v_spec q infl P C pend sk si dk di ss sd comp :
  dv_inv q infl P C pend -> keys_ok ss sk si -> keys_ok sd dk di -> Forall iov_wf si -> Forall iov_wf di ->
  call_spec q infl P C pend comp (snap_dma_q_writev2v q sk si dk di ss sd comp).
Proof.
  intros Hinv Hs Hd Hsi Hdi. unfold snap_dma_q_writev2v.
  destruct (iov_keys_ok _ _ _ Hs) as (lk & -> & Hlk). destruct (iov_keys_ok _ _ _ Hd) as (rk & -> & Hrk).
  cbn [res_bind]. unfold dv_dma_q_writev2v.
  destruct (build_sgl_ok (mk_io_attr lk si rk di)) as [->|(wrs & -> & Hok)]; [done| |].
  { left. exists (- EINVAL). split; [done|by right]. }
  unfold qp_can_tx. destruct (Z.leb_spec (bb_sum wrs) (tx_available q)) as [Hcan|Hcan]; cbn [negb].
  2: { left. exists (- EAGAIN). split; [done|by left]. }
  assert (set_tx_available q (tx_available q) = q) as Hq by (by destruct q).
  destruct (v2v_loop MLX5_OPCODE_RDMA_WRITE comp wrs q (tx_available q) infl P C pend)
    as (q' & ws & Hq' & Hinv' & Htot & Hsame & Hdb & Hout & Hws); [done|done|by rewrite Hq|].
  rewrite Hq'. cbn [res_bind]. right. exists (set_tx_available q' (tx_available q - bb_sum wrs)), ws.
  rewrite Htot. split; [|split; [done|split; [done|split]]].
  - unfold charge. cbn [negb Z.eqb]. by rewrite Hsame.
  - unfold q_same in *. rewrite Hsame. by destruct q.
  - split; [done|]. split; [unfold out_step, entry_bb_max in *; cbn [set_tx_available dv_qp]; lia|].
    destruct wrs; [by left|by right].
Qed.

Lemma inline_bb_max q is_write (is_flush : bool) len :
  0 <= len <= 4044 -> (is_flush = true -> len = 0) -> (is_flush = false -> len <= tx_elem_size q <= 4044) ->
  inline_bb is_write is_flush len <= entry_bb_max (tx_elem_size q).
Proof.
  intros Hlen Hf Hel. unfold entry_bb_max, inline_bb, inline_size. destruct is_flush.
  - rewrite (Hf eq_refl). transitivity 6; [by destruct is_write|lia].
  - specialize (Hel eq_refl). destruct is_write; cbv iota; rewrite !round_up_eq by lia;
      Z.to_euclidean_division_equations; lia.
Qed.

Lemma inline_spec q infl P C pend src len op raddr rkey comp is_flush :
  dv_inv q infl P C pend -> 0 <= len <= 4044 -> (Z.to_nat len <= length src)%nat ->
  (is_flush = true -> len = 0 /\ op = MLX5_OPCODE_RDMA_WRITE) ->
  (is_flush = false -> len <= tx_elem_size q <= 4044) ->
  call_spec q infl P C pend comp
    (let? '(rc, n_bb, q) := do_dv_xfer_inline q src len op raddr rkey comp is_flush in charge rc n_bb q).
Proof.
  intros Hinv Hlen Hsrc Hflush Helem. destruct (avail_le_cnt _ _ _ _ _ Hinv) as [Hav _].
  destruct (inline_posted q P src len op raddr rkey comp is_flush (inv_wf _ _ _ _ _ Hinv) Hlen Hsrc Hflush Hav)
    as [[_ ->]|(Hcan & q' & w & -> & Hpost & Hsame & Hbb & Hcomp & Hsig)]; cbn [res_bind].
  - left. exists (- EAGAIN). split; [done|by left].
  - assert (w_bb w <= entry_bb_max (tx_elem_size q)) by (rewrite Hbb; apply inline_bb_max; [done|by intros [? _]%Hflush|done]).
    rewrite <- Hbb in Hcan |- *. apply (one_entry_spec q); try done.
    intros Hc. rewrite Hsig. unfold tx_signalled. rewrite bool_decide_true by done. by rewrite orb_true_r.
Qed.

Lemma tx_signalled_comp p comp : is_Some comp -> tx_signalled p comp = true.
Proof. intros Hc. unfold tx_signalled. by rewrite bool_decide_true. Qed.

Lemma xfer_spec q infl P C pend buf len lkey raddr rkey op flags comp :
  dv_inv q infl P C pend -> 1 <= tx_available q -> flags = 0 \/ flags = MLX5_WQE_CTRL_CQ_UPDATE ->
  call_spec q infl P C pend comp
    (let? '(rc, q) := do_dv_dma_xfer q buf len lkey raddr rkey op flags comp false in charge rc 1 q).
Proof.
  intros Hinv Hav Hf.
  destruct (xfer_posted q P buf len lkey raddr rkey op flags comp false (inv_wf _ _ _ _ _ Hinv) Hf)
    as (q' & w & -> & Hpost & Hsame & Hbb & Hcomp & Hsig & _). cbn [res_bind]. rewrite <- Hbb.
  apply (one_entry_spec q); try done; [lia|unfold entry_bb_max; lia|].
  intros Hc. by rewrite Hsig, tx_signalled_comp, orb_true_r.
Qed.

Lemma gga_spec q infl P C pend saddr len s_lkey daddr d_lkey comp :
  dv_inv q infl P C pend -> 1 <= tx_available q ->
  call_spec q infl P C pend comp
    (let? '(rc, q) := do_gga_dma_xfer q saddr len s_lkey daddr d_lkey comp false in charge rc 1 q).
Proof.
  intros Hinv Hav.
  destruct (gga_posted q P saddr len s_lkey daddr d_lkey comp false (inv_wf _ _ _ _ _ Hinv))
    as (q' & w & -> & Hpost & Hsame & Hbb & Hcomp & Hsig). cbn [res_bind]. rewrite <- Hbb.
  apply (one_entry_spec q); try done; [lia|unfold entry_bb_max; lia|].
  intros Hc. by rewrite Hsig, tx_signalled_comp.
Qed.

Lemma send_bb_max q in_len : 0 <= in_len <= tx_elem_size q -> tx_elem_size q <= 4044 -> send_bb in_len <= entry_bb_max (tx_elem_size q).
Proof.
  intros Hlen Hel. destruct (inl_complement_Z in_len) as [Hc Hm]; [lia|]. destruct (send_bb_bounds in_len) as (_ & Hs & _); [lia|].
  unfold entry_bb_max, send_bb, inline_bb, inline_size. rewrite !round_up_eq by lia. unfold send_size. Z.to_euclidean_division_equations. lia.
Qed.

(** In the window the copy is undefined. *)
Lemma send_window_undefined q infl P C pend in_buf in_len addr len key imm :
  dv_inv q infl P C pend -> Z.of_nat (length in_buf) = in_len -> in_len <= 4044 -> send_bb in_len <= tx_available q ->
  send_window (dv_qp q) in_len -> snap_dma_q_send q in_buf in_len addr len key imm = Oob.
Proof.
  intros Hinv Hin Hlen Hav Hwin. pose proof (inv_wf _ _ _ _ _ Hinv) as Hwf. destruct (avail_le_cnt _ _ _ _ _ Hinv) as [Hcan _].
  destruct (send_bb_bounds in_len ltac:(lia)) as (Hn & Hs1 & Hs2). unfold send_window, send_to_end in Hwin. rewrite (qp_wf_index _ _ Hwf) in Hwin.
  destruct (next_bb_fits _ _ Hwf) as [Hfit _]. pose proof (wf_buf _ _ Hwf) as Hbuf. pose proof (qp_wf_cnt_pos _ _ Hwf) as Hcnt.
  pose proof (Z.mod_pos_bound P _ Hcnt) as Hslot. pose proof (next_bb_eq _ _ Hwf) as Hbb. unfold MLX5_SEND_WQE_BB in Hbb, Hbuf, Hfit.
  assert (forall op i, do_dv_send q in_buf in_len addr len key op i = Oob) as E; [|unfold snap_dma_q_send, dv_dma_q_send; by destruct imm; rewrite E].
  intros op i. unfold do_dv_send. rewrite (u16_small (16 + 16 + 4 + in_len + _)) by (unfold send_size in Hs1; lia).
  change (16 + 16 + 4 + in_len + Z.of_nat (inl_complement (Z.to_nat in_len))) with (send_size in_len).
  change (round_up (send_size in_len) 64) with (send_bb in_len). unfold qp_can_tx. rewrite (proj2 (Z.leb_le _ _) Hav). cbn [negb].
  unfold send_size in Hs2. rewrite put_send_layout; [|unfold MLX5_SEND_WQE_BB; lia|unfold MLX5_SEND_WQE_BB; lia|lia|lia].
  match goal with |- context [if ?b then None else _] => replace b with true by (symmetry; apply andb_true_iff; rewrite !Nat.ltb_lt; lia) end. done.
Qed.

Lemma send_spec q infl P C pend in_buf in_len addr len key op imm :
  dv_inv q infl P C pend -> Z.of_nat (length in_buf) = in_len -> in_len <= tx_elem_size q <= 4044 -> ~ send_window (dv_qp q) in_len ->
  call_spec q infl P C pend None (let? '(rc, n_bb, q) := do_dv_send q in_buf in_len addr len key op imm in charge rc n_bb q).
Proof.
  intros Hinv Hin Hel Hwin. destruct (avail_le_cnt _ _ _ _ _ Hinv) as [Hav _].
  destruct (send_posted q P in_buf in_len addr len key op imm (inv_wf _ _ _ _ _ Hinv) ltac:(lia) Hin Hwin Hav)
    as [[_ ->]|(Hcan & q' & w & -> & Hpost & Hsame & Hbb & Hcomp)]; cbn [res_bind].
  - left. exists (- EAGAIN). split; [done|by left].
  - rewrite <- Hbb in Hcan |- *. apply (one_entry_spec q); try done. rewrite Hbb. apply send_bb_max; lia.
Qed.

(** A refused call. *)
Ltac refused rc := left; exists rc; split; [done|auto].

Lemma run_call_spec q infl P C pend c :
  dv_inv q infl P C pend -> call_ok q c -> call_spec q infl P C pend (call_comp c) (run_call q c).
Proof.
  intros Hinv Hok. destruct c; cbn [run_call call_comp call_ok] in *.
  - unfold snap_dma_q_write, qp_can_tx. destruct (Z.leb_spec 1 (tx_available q)); [|refused (- EAGAIN)].
    cbn [negb]. destruct (q_mode q); [by apply xfer_spec; auto|by apply gga_spec].
  - unfold snap_dma_q_read, qp_can_tx. destruct (Z.leb_spec 1 (tx_available q)); [|refused (- EAGAIN)].
    cbn [negb]. destruct (q_mode q); [|by apply gga_spec].
    apply xfer_spec; [done|done|]. case_match; auto.
  - unfold snap_dma_q_read_short, qp_can_tx. destruct (32 <? len); [refused (- EINVAL)|].
    destruct (Z.leb_spec 1 (tx_available q)); [|refused (- EAGAIN)].
    by apply xfer_spec; auto.
  - destruct Hok as (? & ? & ? & ?). by apply writev2v_spec.
  - destruct Hok as (? & ? & ? & ?). by apply writev2v_spec.
  - unfold snap_dma_q_write_short. destruct (Z.ltb_spec (tx_elem_size q) len); [refused (- EINVAL)|].
    apply inline_spec; try done; lia.
  - unfold snap_dma_q_send_completion. destruct (Z.ltb_spec (tx_elem_size q) len); [refused (- EINVAL)|].
    apply inline_spec; try done; lia.
  - destruct Hok as (Hin & Hl & Hel & Hwin). unfold snap_dma_q_send, dv_dma_q_send. destruct imm; (apply send_spec; [done|done|lia|done]).
  - apply inline_spec; try done; cbn; lia.
Qed.
