(* ===== verification/DmaComp.v ===== *)
(** Completions of a DMA queue: polling a completion returns the credits of the
    entries it covers, in order, and preserves the invariant of the queue. *)

From stdpp Require Import gmap.
From S2P Require Import Prelude DmaSgl DmaWqe CqRing DmaDv DmaInv.

(** * One completion *)

Lemma filter_unsig pre : Forall (fun w => w_sig w = false) pre -> filter (fun w => w_sig w = true) pre = [].
Proof.
  induction 1 as [|w l Hw Hl IH]; [done|]. rewrite filter_cons_False; [done|congruence].
Qed.

(** The oldest pending completion is for the oldest signalled entry. *)
Lemma pend_first q infl P C e pend :
  dv_inv q infl P C (e :: pend) ->
  exists pre w suf, infl = pre ++ w :: suf /\ Forall (fun w => w_sig w = false) pre /\
    w_sig w = true /\ cqe_for w e /\
    Forall2 cqe_for (take (length pend) (filter (fun w => w_sig w = true) suf)) pend /\
    slot_ok (dv_qp q) (w, bb_total (pre ++ [w])) /\ Forall (slot_ok (dv_qp q)) (sig_groups 0 suf).
Proof.
  intros H. pose proof (inv_pend _ _ _ _ _ H) as Hp. pose proof (inv_slots _ _ _ _ _ H) as Hs.
  cbn [length] in Hp. pose proof (sig_groups_filter infl 0) as Hf.
  destruct (sig_groups 0 infl) as [|[w g] rest] eqn:Eg.
  { cbn in Hf. rewrite <- Hf in Hp. inversion Hp. }
  destruct (sig_groups_first _ _ _ _ _ Eg) as (pre & suf & -> & Hpre & Hw & -> & ->).
  exists pre, w, suf. split; [done|]. split; [done|]. split; [done|].
  rewrite filter_app, filter_unsig, filter_cons_True in Hp by done. cbn [app take] in Hp.
  inversion_clear Hp. inversion_clear Hs. done.
Qed.

(** Clearing the read buffer of one slot. *)
Lemma slot_ok_clear p wg i s :
  0 < sq_wqe_cnt p -> Z.to_nat (slot_of (sq_wqe_cnt p) wg.1) <> i -> slot_ok p wg ->
  slot_ok (set_comps p (n_outstanding p) (<[i := s]> (comps p))) wg.
Proof.
  intros Hc Hne (s' & Hs' & Hrest). exists s'. cbn [set_comps comps sq_wqe_cnt].
  rewrite list_lookup_insert_ne by done. done.
Qed.

Lemma qp_wf_set_slot p P i s :
  qp_wf p P -> qp_wf (set_comps p (n_outstanding p) (<[i := s]> (comps p))) P.
Proof.
  intros [H1 H2 H3 H4 H5 H6]. split; try done. cbn [set_comps comps sq_wqe_cnt]. by rewrite length_insert.
Qed.

(** The entries after a polled one. *)
Lemma inv_suffix q q' pre w suf P C pend :
  dv_inv q (pre ++ w :: suf) P (C - 1) pend -> w_sig w = true ->
  forall pend',
  qp_wf (dv_qp q') P -> tx_available q' = tx_available q + bb_total (pre ++ [w]) ->
  sq_wqe_cnt (dv_qp q') = sq_wqe_cnt (dv_qp q) -> sq_buf (dv_qp q') = sq_buf (dv_qp q) ->
  n_outstanding (dv_qp q') = n_outstanding (dv_qp q) -> cqe_cnt (dv_tx_cq q') = cqe_cnt (dv_tx_cq q) ->
  Forall (slot_ok (dv_qp q')) (sig_groups 0 suf) -> cq_inv (dv_tx_cq q') C pend' ->
  Forall2 cqe_for (take (length pend') (filter (fun w => w_sig w = true) suf)) pend' ->
  dv_inv q' suf P C pend'.
Proof.
  intros [Hwf Hchain Hstart Hcred Hav Htail Hslots Hctrl Hcoh Hcq Hpend] Hw pend' Hwf' Hav' Ecnt Ebuf Eout Ecq
    Hslots' Hcq' Hpend'.
  replace (pre ++ w :: suf) with ((pre ++ [w]) ++ suf) in * by (by rewrite <- app_assoc).
  rewrite (bb_total_app (pre ++ [w])) in Hchain, Hstart, Hcred. apply chain_app_inv in Hchain as [Hc1 Hc2].
  assert (0 <= bb_total (pre ++ [w])).
  { destruct (chain_bb _ _ _ Hc1) as [_ Hb]. by apply bb_total_nonneg. }
  split; try done.
  - by replace (P - (bb_total (pre ++ [w]) + bb_total suf) + bb_total (pre ++ [w]))
      with (P - bb_total suf) in Hc2 by lia.
  - lia.
  - unfold snap_dma_q_dv_get_tx_avail_max in *. rewrite Ecnt, Ecq. lia.
  - lia.
  - rewrite Eout, Htail, <- app_assoc. by apply sig_tail_first.
  - apply Forall_app in Hctrl as [_ Hctrl]. unfold ctrl_ok in *. rewrite Ecnt, Ebuf. done.
  - by apply Forall_app in Hcoh as [_ ?].
Qed.

(** Entries in flight after another one have other slots. *)
Lemma suffix_slot_ne q pre w suf P C pend w' :
  dv_inv q (pre ++ w :: suf) P C pend -> w' ∈ suf ->
  Z.to_nat (slot_of (sq_wqe_cnt (dv_qp q)) w') <> Z.to_nat (slot_of (sq_wqe_cnt (dv_qp q)) w).
Proof.
  intros Hinv Hin. pose proof (qp_wf_cnt_pos _ _ (inv_wf _ _ _ _ _ Hinv)) as Hc.
  pose proof (inv_chain _ _ _ _ _ Hinv) as Hch.
  destruct (chain_bb _ _ _ Hch) as [_ Hall]. apply Forall_app in Hall as [Hall _].
  pose proof (bb_total_nonneg _ Hall). apply chain_app_inv in Hch as [_ Hch].
  cbn [chain] in Hch. destruct Hch as (Hpos & Hbb & Hch).
  destruct (chain_in _ _ _ _ Hch Hin) as (? & ? & ?).
  pose proof (inv_credit _ _ _ _ _ Hinv) as Hcr. pose proof (inv_avail _ _ _ _ _ Hinv) as Hav.
  pose proof (slot_range _ w Hc). pose proof (slot_range _ w' Hc).
  intros Heq. apply Z2Nat.inj in Heq; [|lia..]. symmetry in Heq. revert Heq. apply slot_inj; [done|].
  rewrite bb_total_app, bb_total_cons in *.
  unfold snap_dma_q_dv_get_tx_avail_max, snap_min in Hcr. case_match; bool_to_prop; lia.
Qed.

Lemma get_comp_spec q infl P C e pend :
  dv_inv q infl P C (e :: pend) ->
  exists cq pre w suf q',
    snap_dv_poll_cq (dv_tx_cq q) = Some (Some e, cq) /\
    infl = pre ++ w :: suf /\ Forall (fun w => w_sig w = false) pre /\ w_sig w = true /\ cqe_for w e /\
    dv_dma_q_get_comp (set_tx_cq q cq) e = Ok (w_comp w, q') /\
    dv_inv q' suf P (C + 1) pend /\
    tx_available q' = tx_available q + bb_total (pre ++ [w]) /\
    counts q' = counts q /\ tx_elem_size q' = tx_elem_size q /\
    snd_dbr (dv_qp q') = snd_dbr (dv_qp q) /\
    (forall b, w_payload w = Some b -> has_flag (op_own e) MLX5_INLINE_SCATTER_32 = true ->
       scattered q' = scattered q ++ [(b, take (Z.to_nat (byte_cnt e)) (cqe_data e))]).
Proof.
  intros Hinv. destruct (pend_first _ _ _ _ _ _ Hinv) as (pre & w & suf & -> & Hpre & Hw & He & Hpend & Hsl & Hsls).
  pose proof (poll_cq_spec _ _ _ (inv_cq _ _ _ _ _ Hinv)) as (cq & Hpoll & Hcq).
  pose proof (inv_wf _ _ _ _ _ Hinv) as Hwf. pose proof (qp_wf_cnt_pos _ _ Hwf) as Hc.
  destruct Hsl as (s & Hs & Hn & Hcomp & Hpay). cbn [fst snd] in *.
  unfold dv_dma_q_get_comp. cbn [set_tx_cq dv_qp].
  destruct (wf_cnt _ _ Hwf) as (k & Hk & Hcnt).
  assert (Z.land (wqe_counter e) (sq_wqe_cnt (dv_qp q) - 1) = slot_of (sq_wqe_cnt (dv_qp q)) w) as ->.
  { rewrite He, Hcnt. apply uwrap_mask. lia. }
  rewrite Hs. cbn [of_option res_bind].
  assert (cqe_cnt cq = cqe_cnt (dv_tx_cq q)) as Hcc.
  { unfold snap_dv_poll_cq in Hpoll. repeat case_match; simplify_eq; done. }
  assert (forall q',
    qp_wf (dv_qp q') P -> tx_available q' = tx_available q + bb_total (pre ++ [w]) ->
    sq_wqe_cnt (dv_qp q') = sq_wqe_cnt (dv_qp q) -> sq_buf (dv_qp q') = sq_buf (dv_qp q) ->
    n_outstanding (dv_qp q') = n_outstanding (dv_qp q) -> dv_tx_cq q' = cq ->
    Forall (slot_ok (dv_qp q')) (sig_groups 0 suf) -> dv_inv q' suf P (C + 1) pend) as Hsuf.
  { intros q' H1 H2 H3 H4 H5 H6 H7. apply (inv_suffix q q' pre w suf P (C + 1) (e :: pend)); try done.
    - by replace (C + 1 - 1) with C by lia.
    - by rewrite H6.
    - by rewrite H6. }
  rewrite Hcomp, Hn.
  destruct (has_flag (op_own e) MLX5_INLINE_SCATTER_32) eqn:Esc, (slot_read_payload s) as [b|] eqn:Ep.
  all: eexists cq, pre, w, suf, _; split; [done|]; split; [done|]; split; [done|]; split; [done|];
    split; [done|]; split; [done|]; split; [apply Hsuf; try done|]; try (split; [done|]).
  all: cbn [set_dv_qp add_scattered set_tx_available set_tx_cq dv_qp counts tx_elem_size scattered].
  - by apply qp_wf_set_slot.
  - rewrite Forall_forall in *. intros wg Hwg. apply slot_ok_clear; [done| |by apply Hsls].
    destruct (sig_groups_in _ _ _ Hwg) as [Hin _]. by eapply suffix_slot_ne.
  - split; [done|]. split; [done|]. split; [done|]. intros b' Hb' _. specialize (Hpay _ Hb'). by simplify_eq.
  - split; [done|]. split; [done|]. split; [done|]. intros b' Hb' _. specialize (Hpay _ Hb'). by simplify_eq.
  - done.
  - done.
Qed.

(** * Ringing the doorbell does not change the entries *)

Lemma tx_complete_inv q infl P C pend :
  dv_inv q infl P C pend ->
  let q' := set_dv_qp q (snap_dv_tx_complete (dv_qp q)) in
  dv_inv q' infl P C pend /\ tx_need_ring_db (dv_qp q') = false /\ snd_dbr (dv_qp q') = sq_pi (dv_qp q').
Proof.
  intros [Hwf Hchain Hstart Hcred Hav Htail Hslots Hctrl Hcoh Hcq Hpend].
  unfold snap_dv_tx_complete. destruct (tx_need_ring_db (dv_qp q)) eqn:E.
  - cbn. split; [|done]. destruct Hwf as [W1 W2 W3 W4 W5 W6]. by split.
  - cbn [set_dv_qp dv_qp]. split; [|split; [done|by apply (wf_db _ _ Hwf)]].
    split; done.
Qed.

Lemma set_completed_inv q infl P C pend v :
  dv_inv q infl P C pend -> dv_inv (set_dv_qp q (set_tx_completed (dv_qp q) v)) infl P C pend.
Proof.
  intros [Hwf Hchain Hstart Hcred Hav Htail Hslots Hctrl Hcoh Hcq Hpend].
  destruct Hwf as [W1 W2 W3 W4 W5 W6]. by split.
Qed.

Lemma set_count_inv q infl P C pend c v :
  dv_inv q infl P C pend -> dv_inv (set_count q c v) infl P C pend.
Proof.
  intros [Hwf Hchain Hstart Hcred Hav Htail Hslots Hctrl Hcoh Hcq Hpend]. by split.
Qed.

(** * The progress loop *)

Section progress_spec.
(** An error callback that looks at the completion and leaves the queue to
    the library. *)
Context (err_ret : option (mlx5_cqe64 -> Z)).
Let err_cb : option (mlx5_cqe64 -> snap_dma_q -> Z * snap_dma_q) :=
  (fun r e q => (r e, q)) <$> err_ret.

Definition err_handled (e : mlx5_cqe64) : bool :=
  negb (mlx5dv_get_cqe_opcode e =? MLX5_CQE_REQ) &&
  match err_ret with Some r => r e =? SNAP_DMA_Q_ERR_HANDLED | None => false end.

Lemma err_cb_eq e q :
  (if negb (mlx5dv_get_cqe_opcode e =? MLX5_CQE_REQ) then
     match err_cb with
     | Some h => let '(ret, q) := h e q in (ret =? SNAP_DMA_Q_ERR_HANDLED, q)
     | None => (false, q)
     end
   else (false, q)) = (err_handled e, q).
Proof. unfold err_handled, err_cb. destruct (negb _), err_ret; done. Qed.

(** What a run of the polling loop did: the completions [done] were consumed,
    they covered the entries [gone], and their owners are in [l]. *)
Definition owners (l : list (mlx5_cqe64 * option nat)) : list (mlx5_cqe64 * option nat) :=
  filter (fun ec => err_handled ec.1 = false) l.

Record drained (q q' : snap_dma_q) (infl infl' : list wqe) (P C : Z) (pend pend' : list mlx5_cqe64)
    (l : list (mlx5_cqe64 * option nat)) : Prop := {
  dr_gone : exists gone dn, infl = gone ++ infl' /\ pend = dn ++ pend' /\
    tx_available q' = tx_available q + bb_total gone /\
    length dn = length (filter (fun w => w_sig w = true) gone) /\
    (gone = [] \/ exists g w, gone = g ++ [w] /\ w_sig w = true) /\
    dv_inv q' infl' P (C + Z.of_nat (length dn)) pend' /\
    l = owners (zip dn (map w_comp (filter (fun w => w_sig w = true) gone)));
  dr_elem : tx_elem_size q' = tx_elem_size q;
  dr_db : snd_dbr (dv_qp q') = snd_dbr (dv_qp q)
}.

Lemma drained_step q q1 q' e c pre w suf infl' P C pend pend' l :
  Forall (fun w => w_sig w = false) pre -> w_sig w = true -> c = w_comp w ->
  tx_available q1 = tx_available q + bb_total (pre ++ [w]) ->
  tx_elem_size q1 = tx_elem_size q -> snd_dbr (dv_qp q1) = snd_dbr (dv_qp q) ->
  drained q1 q' suf infl' P (C + 1) pend pend' l ->
  drained q q' (pre ++ w :: suf) infl' P C (e :: pend) pend' (owners [(e, c)] ++ l).
Proof.
  intros Hpre Hw -> Hav He Ht [(gone & dn & -> & -> & Hav' & Hlen & Hlast & Hinv & ->) He' Ht'].
  split; [|congruence..]. exists (pre ++ w :: gone), (e :: dn).
  split; [by rewrite <- app_assoc|]. split; [done|]. split; [|split; [|split; [|split]]].
  - rewrite Hav', Hav, !bb_total_app, !bb_total_cons. change (bb_total []) with 0. lia.
  - rewrite filter_app, filter_unsig, filter_cons_True by done. cbn. lia.
  - right. destruct Hlast as [->|(g & w' & -> & Hw')]; [by exists pre, w|].
    exists (pre ++ w :: g), w'. by rewrite <- app_assoc.
  - cbn [length]. by replace (C + Z.of_nat (S (length dn))) with (C + 1 + Z.of_nat (length dn)) by lia.
  - rewrite filter_app, (filter_unsig pre), filter_cons_True by done. cbn [app map zip].
    unfold owners. by rewrite <- filter_app.
Qed.

Lemma drained_refl q infl P C pend : dv_inv q infl P C pend -> drained q q infl infl P C pend pend [].
Proof.
  intros Hinv. split; [|done..]. exists [], []. change (bb_total []) with 0.
  rewrite !Z.add_0_r. do 4 (split; [done|]). split; [by left|done].
Qed.

Lemma progress_tx_poll_spec : forall fuel max q acc infl P C pend,
  dv_inv q infl P C pend -> (length pend < fuel)%nat -> Z.of_nat (length acc) < max ->
  exists q' l infl' pend',
    progress_tx_poll err_cb fuel max q acc = Ok (acc ++ l, q') /\
    drained q q' infl infl' P C pend pend' l /\
    (pend' = [] \/ max <= Z.of_nat (length (acc ++ l))).
Proof.
  induction fuel as [|fuel IH]; intros max q acc infl P C pend Hinv Hfuel Hmax; [lia|].
  cbn [progress_tx_poll]. destruct pend as [|e pend].
  - rewrite (poll_cq_spec _ _ _ (inv_cq _ _ _ _ _ Hinv)). cbn [of_option res_bind].
    replace (set_tx_cq q (dv_tx_cq q)) with q by (by destruct q).
    exists q, [], infl, []. rewrite app_nil_r. split; [done|]. split; [by apply drained_refl|by left].
  - destruct (get_comp_spec _ _ _ _ _ _ Hinv)
      as (cq & pre & w & suf & q1 & Hpoll & -> & Hpre & Hw & He & Hget & Hinv1 & Hav & Hc & Hm & Ht & _).
    rewrite Hpoll. cbn [of_option res_bind]. rewrite err_cb_eq. rewrite Hget. cbn [res_bind].
    cbn [length] in Hfuel.
    assert ((if err_handled e then acc else acc ++ [(e, w_comp w)]) = acc ++ owners [(e, w_comp w)]) as ->.
    { unfold owners. rewrite filter_cons, filter_nil. cbn [fst].
      destruct (err_handled e); case_decide; try done. by rewrite app_nil_r. }
    destruct (Z.ltb_spec (Z.of_nat (length (acc ++ owners [(e, w_comp w)]))) max) as [Hlt|Hge].
    + destruct (IH max q1 (acc ++ owners [(e, w_comp w)]) suf P (C + 1) pend Hinv1)
        as (q' & l & infl' & pend' & Hrun & Hdr & Hend); [lia|done|].
      exists q', (owners [(e, w_comp w)] ++ l), infl', pend'. rewrite app_assoc.
      split; [done|]. split; [|done]. by eapply drained_step.
    + exists q1, (owners [(e, w_comp w)] ++ []), suf, pend. rewrite app_nil_r.
      split; [done|]. split; [|by right]. rewrite <- (app_nil_r (owners _)).
      eapply drained_step; try done. by apply drained_refl.
Qed.
End progress_spec.

(** [dv_dma_q_poll_tx] consumes completions the same way. *)
Lemma poll_tx_loop_spec : forall fuel max q acc infl P C pend,
  dv_inv q infl P C pend -> (length pend < fuel)%nat ->
  exists q' l acc' infl' pend',
    poll_tx_loop fuel max q acc = Ok (acc', q') /\ drained None q q' infl infl' P C pend pend' l /\
    (pend' = [] \/ max <= Z.of_nat (length acc')).
Proof.
  induction fuel as [|fuel IH]; intros max q acc infl P C pend Hinv Hfuel; [lia|].
  cbn [poll_tx_loop]. destruct pend as [|e pend].
  - rewrite (poll_cq_spec _ _ _ (inv_cq _ _ _ _ _ Hinv)). cbn [of_option res_bind].
    replace (set_tx_cq q (dv_tx_cq q)) with q by (by destruct q).
    exists q, [], acc, infl, []. split; [done|]. split; [by apply drained_refl|by left].
  - destruct (get_comp_spec _ _ _ _ _ _ Hinv)
      as (cq & pre & w & suf & q1 & Hpoll & -> & Hpre & Hw & He & Hget & Hinv1 & Hav & _ & Hel & Hdb & _).
    rewrite Hpoll. cbn [of_option res_bind]. rewrite Hget. cbn [res_bind length] in *.
    set (r := match w_comp w with Some c => _ | None => _ end).
    assert (exists acc1 q2, r = (acc1, q2) /\ dv_inv q2 suf P (C + 1) pend /\
      tx_available q2 = tx_available q1 /\ tx_elem_size q2 = tx_elem_size q1 /\
      snd_dbr (dv_qp q2) = snd_dbr (dv_qp q1))
      as (acc1 & q2 & -> & Hinv2 & Hav2 & Hel2 & Hdb2).
    { subst r. destruct (w_comp w) as [c|]; cbn; eauto 10 using set_count_inv. }
    destruct (Z.of_nat (length acc1) <? max) eqn:Elt; bool_to_prop.
    + destruct (IH max q2 acc1 suf P (C + 1) pend Hinv2) as (q' & l & acc' & infl' & pend' & Hrun & Hdr & Hend); [lia|].
      exists q', (owners None [(e, w_comp w)] ++ l), acc', infl', pend'.
      split; [done|]. split; [|done]. apply (drained_step None q q2); try done; lia || congruence.
    + exists q2, (owners None [(e, w_comp w)] ++ []), acc1, suf, pend.
      split; [done|]. split; [|by right]. apply (drained_step None q q2); try done; [lia|congruence..|]. by apply drained_refl.
Qed.
