(* ===== verification/DmaSys.v ===== *)
(** The DMA queue with the device it shares its rings with: an executable model
    of what the device does with the send queue and the completion queue, the
    invariant of the pair, and the properties of the whole. *)

From stdpp Require Import gmap.
From S2P Require Import Prelude DmaSgl DmaWqe CqRing DmaDv DmaInv DmaComp.

(** * The device

    The device fetches the entry at its own consumer index as long as that is
    not the index of the doorbell record, executes it, moves its index past
    the entry by the size found in the control segment, and writes a
    completion when the control segment asks for one. *)

Record device := mk_dev { dev_ci : Z; dev_cq_pi : Z }.

Section device.
(** The completion the device writes for a control segment at an index: any
    success or error, scattered data or not. *)
Context (outcome : ctrl_seg -> Z -> mlx5_cqe64).

Definition dev_step (d : device) (q : snap_dma_q) : option (device * snap_dma_q) :=
  if dev_ci d =? snd_dbr (dv_qp q) then None
  else
    match sq_buf (dv_qp q) !! snap_dv_get_wqe_bb (sq_wqe_cnt (dv_qp q)) (dev_ci d) with
    | Some (Frag (SegCtrl c) O) =>
      let sig := has_flag (cs_fm_ce_se c) MLX5_WQE_CTRL_CQ_UPDATE in
      Some (mk_dev (u16 (dev_ci d + round_up (cs_ds c) 4)) (dev_cq_pi d + Z.b2z sig),
            if sig then set_tx_cq q (hw_write_cqe (dv_tx_cq q) (dev_cq_pi d) (outcome c (dev_ci d))) else q)
    | _ => None
    end.

(** The device runs until it has nothing left to do. *)
Fixpoint dev_run (fuel : nat) (d : device) (q : snap_dma_q) : device * snap_dma_q :=
  match fuel with
  | O => (d, q)
  | S fuel' => match dev_step d q with None => (d, q) | Some (d', q') => dev_run fuel' d' q' end
  end.
End device.

(** A device reports the index of the entry, with a valid opcode. *)
Class Outcome (outcome : ctrl_seg -> Z -> mlx5_cqe64) : Prop := {
  outcome_counter : forall c i, wqe_counter (outcome c i) = i;
  outcome_valid : forall c i, cqe_valid (outcome c i)
}.

(** Every entry succeeds. *)
Definition outcome_ok (c : ctrl_seg) (i : Z) : mlx5_cqe64 := mk_cqe 0 i 0 0 0 0 [].
#[export] Instance outcome_ok_spec : Outcome outcome_ok.
Proof. split; done. Qed.

(** * The invariant of the pair

    Of the entries in flight, the device has executed [dn], it has been told
    about [ann] and not about [unann] yet. *)
Record sys_inv (d : device) (q : snap_dma_q) (infl : list wqe) (P C : Z) (pend : list mlx5_cqe64)
    (dn ann unann : list wqe) : Prop := {
  sys_dv : dv_inv q infl P C pend;
  sys_split : infl = dn ++ ann ++ unann;
  sys_pend : length pend = length (filter (fun w => w_sig w = true) dn);
  sys_ci : dev_ci d = u16 (P - bb_total (ann ++ unann));
  sys_dbr : snd_dbr (dv_qp q) = u16 (P - bb_total unann);
  sys_cq : dev_cq_pi d = C + Z.of_nat (length pend)
}.

Lemma infl_bounds q infl P C pend :
  dv_inv q infl P C pend ->
  Forall (fun w => 0 < w_bb w) infl /\ 0 <= bb_total infl <= 2 ^ 15 /\
  bb_total infl <= cqe_cnt (dv_tx_cq q).
Proof.
  intros H. destruct (chain_bb _ _ _ (inv_chain _ _ _ _ _ H)) as [_ Hb].
  pose proof (bb_total_nonneg _ Hb). pose proof (inv_credit _ _ _ _ _ H) as Hc.
  pose proof (inv_avail _ _ _ _ _ H) as Ha. destruct (wf_cnt _ _ (inv_wf _ _ _ _ _ H)) as (k & Hk & Hcnt).
  assert (2 ^ k <= 2 ^ 15) by (apply Z.pow_le_mono_r; lia).
  unfold snap_dma_q_dv_get_tx_avail_max, snap_min in Hc. case_match; bool_to_prop; split; auto; lia.
Qed.

(** 16-bit indices less than a whole turn apart are equal only when they are. *)
Lemma u16_sub_eq P a b : 0 <= a <= b -> b - a < 2 ^ 16 -> u16 (P - b) = u16 (P - a) -> a = b.
Proof.
  intros Hab Hd Heq. unfold u16, uwrap in Heq.
  destruct (decide (a = b)) as [|Hne]; [done|exfalso].
  apply (mod_offset_ne (2 ^ 16) (P - b) 0 (b - a)); [lia..|].
  rewrite Z.add_0_r, Heq. f_equal. lia.
Qed.

Lemma ctrl_ok_head p w :
  ctrl_ok p w -> length (sq_buf p) <> 0%nat ->
  (Z.to_nat (slot_of (sq_wqe_cnt p) w) * MLX5_SEND_WQE_BB < length (sq_buf p))%nat ->
  sq_buf p !! (Z.to_nat (slot_of (sq_wqe_cnt p) w) * MLX5_SEND_WQE_BB)%nat = Some (Frag (SegCtrl (w_ctrl w)) 0).
Proof.
  unfold ctrl_ok. intros H Hl Hlt. apply (f_equal head) in H. cbn in H. injection H as H.
  rewrite Nat.add_0_r, Nat.mod_small in H by done. by rewrite <- H, <- list_lookup_lookup_total_lt.
Qed.

(** Adding a completion for the next executed entry. *)
Lemma dv_inv_write q infl P C pend e :
  dv_inv q infl P C pend -> cqe_valid e ->
  Forall2 cqe_for (take (S (length pend)) (filter (fun w => w_sig w = true) infl)) (pend ++ [e]) ->
  let n := C + Z.of_nat (length pend) in
  dv_inv (set_tx_cq q (hw_write_cqe (dv_tx_cq q) n e)) infl P C
    (pend ++ [set_owner e (owner_bit (cqe_cnt (dv_tx_cq q)) n)]).
Proof.
  intros Hinv He Hp n. destruct (infl_bounds _ _ _ _ _ Hinv) as (Hb & _ & Hcq).
  pose proof (filter_sig_length _ Hb) as Hf. pose proof (Forall2_length _ _ _ Hp) as Hlen.
  rewrite length_take, length_app in Hlen. cbn [length] in Hlen.
  destruct Hinv as [Hwf Hchain Hstart Hcred Hav Htail Hslots Hctrl Hcoh Hcqi Hpend].
  split; try done.
  - apply hw_write_cqe_inv; [done|lia|done].
  - rewrite length_app, Nat.add_1_r. apply Forall2_app_inv_r in Hp as (l1 & l2 & Hl1 & Hl2 & ->).
    apply Forall2_app; [done|]. inversion Hl2 as [|? ? ? ? Hw Hn]. inversion Hn. constructor; [done|constructor].
Qed.

Lemma take_filter_app (dn rest : list wqe) :
  take (length (filter (fun w => w_sig w = true) dn)) (filter (fun w => w_sig w = true) (dn ++ rest)) =
  filter (fun w => w_sig w = true) dn.
Proof. rewrite filter_app. apply take_app_length. Qed.

Lemma dev_step_spec `{Outcome outcome} d q infl P C pend dn ann unann :
  sys_inv d q infl P C pend dn ann unann ->
  match ann with
  | [] => dev_step outcome d q = None
  | w :: ann' => exists d' q' pend',
    dev_step outcome d q = Some (d', q') /\
    sys_inv d' q' infl P C pend' (dn ++ [w]) ann' unann /\
    q' = set_tx_cq q (dv_tx_cq q')
  end.
Proof.
  intros [Hdv -> Hlen Hci Hdbr Hcq]. unfold dev_step. rewrite Hci, Hdbr.
  destruct (infl_bounds _ _ _ _ _ Hdv) as (Hb & Htot & _).
  destruct ann as [|w ann]; [by rewrite Z.eqb_refl|].
  apply Forall_app in Hb as [Hb1 Hb2]. pose proof (bb_total_nonneg _ Hb1).
  apply Forall_app in Hb2 as [Hb2 Hb3]. pose proof (bb_total_nonneg _ Hb3).
  inversion_clear Hb2 as [|? ? Hw Hb4]. pose proof (bb_total_nonneg _ Hb4).
  rewrite !bb_total_app, bb_total_cons in Htot.
  assert (bb_total ((w :: ann) ++ unann) = w_bb w + bb_total ann + bb_total unann) as Ht
    by (rewrite bb_total_app, bb_total_cons; lia).
  rewrite Ht. destruct (Z.eqb_spec (u16 (P - (w_bb w + bb_total ann + bb_total unann))) (u16 (P - bb_total unann))) as [E|_].
  { apply u16_sub_eq in E; lia. }
  assert (w_pos w = P - (w_bb w + bb_total ann + bb_total unann)) as Hpos.
  { pose proof (inv_chain _ _ _ _ _ Hdv) as Hch. apply chain_app_inv in Hch as [_ Hch].
    destruct Hch as [-> _]. rewrite bb_total_app, Ht. lia. }
  rewrite <- Hpos. pose proof (inv_wf _ _ _ _ _ Hdv) as Hwf. pose proof (qp_wf_cnt_pos _ _ Hwf) as Hc.
  destruct (wf_cnt _ _ Hwf) as (k & Hk & Hcnt). pose proof (wf_buf _ _ Hwf) as Hbuf.
  assert (w ∈ dn ++ (w :: ann) ++ unann) as Hin by (apply elem_of_app; right; constructor).
  assert (snap_dv_get_wqe_bb (sq_wqe_cnt (dv_qp q)) (u16 (w_pos w)) =
          (Z.to_nat (slot_of (sq_wqe_cnt (dv_qp q)) w) * MLX5_SEND_WQE_BB)%nat) as ->.
  { unfold snap_dv_get_wqe_bb, slot_of. rewrite Hcnt. do 2 f_equal. apply uwrap_mask. lia. }
  pose proof (slot_range _ w Hc) as Hslot.
  pose proof (proj1 (Forall_forall _ _) (inv_ctrl _ _ _ _ _ Hdv) w Hin) as Hctrl.
  rewrite (ctrl_ok_head _ _ Hctrl) by (rewrite Hbuf; unfold MLX5_SEND_WQE_BB; lia).
  destruct (proj1 (Forall_forall _ _) (inv_coherent _ _ _ _ _ Hdv) w Hin) as (_ & Esig & Ebb).
  rewrite Esig, Ebb.
  assert (u16 (u16 (w_pos w) + w_bb w) = u16 (P - bb_total (ann ++ unann))) as Hci'.
  { unfold u16. rewrite uwrap_add_l, bb_total_app. f_equal. lia. }
  assert (dn ++ (w :: ann) ++ unann = (dn ++ [w]) ++ ann ++ unann) as Esplit by (by rewrite <- app_assoc).
  destruct (w_sig w) eqn:Ew; do 3 eexists; (split; [done|]); (split; [|by destruct q]).
  - split; cbn [dev_ci dev_cq_pi set_tx_cq dv_qp]; try done.
    + rewrite Hcq. apply dv_inv_write; [done|apply outcome_valid|].
      pose proof (inv_pend _ _ _ _ _ Hdv) as Hp. rewrite Hlen, take_filter_app in Hp.
      rewrite Hlen, Esplit. replace (S (length (filter (fun w => w_sig w = true) dn)))
        with (length (filter (fun w => w_sig w = true) (dn ++ [w])))
        by (rewrite filter_app, filter_cons_True, length_app by done; cbn; lia).
      rewrite take_filter_app, filter_app, filter_cons_True by done.
      apply Forall2_app; [done|]. constructor; [apply outcome_counter|constructor].
    + rewrite length_app, filter_app, filter_cons_True, length_app, Hlen by done. done.
    + rewrite length_app, Hcq. cbn. lia.
  - split; cbn [dev_ci dev_cq_pi]; try done.
    + rewrite filter_app, filter_cons_False, app_nil_r by (by rewrite Ew). done.
    + rewrite Z.add_0_r. done.
Qed.

Lemma dev_run_spec `{Outcome outcome} : forall fuel d q infl P C pend dn ann unann,
  sys_inv d q infl P C pend dn ann unann -> (length ann <= fuel)%nat ->
  exists d' q' pend', dev_run outcome fuel d q = (d', q') /\
    sys_inv d' q' infl P C pend' (dn ++ ann) [] unann /\ q' = set_tx_cq q (dv_tx_cq q').
Proof.
  induction fuel as [|fuel IH]; intros d q infl P C pend dn ann unann Hinv Hf.
  { destruct ann; [|cbn in Hf; lia]. exists d, q, pend. rewrite app_nil_r.
    split; [done|]. split; [done|by destruct q]. }
  pose proof (dev_step_spec _ _ _ _ _ _ _ _ _ Hinv) as Hs. cbn [dev_run].
  destruct ann as [|w ann].
  - rewrite Hs. exists d, q, pend. rewrite app_nil_r. split; [done|]. split; [done|by destruct q].
  - destruct Hs as (d1 & q1 & pend1 & Hs & Hinv1 & Hq1). rewrite Hs.
    destruct (IH d1 q1 infl P C pend1 (dn ++ [w]) ann unann Hinv1) as (d2 & q2 & pend2 & Hr & Hinv2 & Hq2);
      [cbn in Hf; lia|].
    exists d2, q2, pend2. split; [done|]. rewrite <- app_assoc in Hinv2. split; [done|].
    rewrite Hq2, Hq1. by destruct q.
Qed.

(** * Progress *)

(** The credits, the inline size and the unsignalled blocks of a queue, and
    what posting [ws] does to them. *)
Definition observe (q : snap_dma_q) : Z * Z * Z :=
  (tx_available q, tx_elem_size q, n_outstanding (dv_qp q)).

Definition posts (a b : Z * Z * Z) (ws : list wqe) : Prop :=
  let '(av, el, out) := a in let '(av', el', out') := b in
  av' = av - bb_total ws /\ el' = el /\ out' <= Z.max out (14 + entry_bb_max el).

Lemma posts_nil a : posts a a [].
Proof. destruct a as [[av el] out]. unfold posts. change (bb_total []) with 0. lia. Qed.

Lemma posts_app a b c ws ws' : posts a b ws -> posts b c ws' -> posts a c (ws ++ ws').
Proof.
  destruct a as [[? ?] ?], b as [[? ?] ?], c as [[? ?] ?]. unfold posts.
  intros (-> & -> & ?) (-> & -> & ?). rewrite bb_total_app. lia.
Qed.

(** A completion function a user may install: it may post on the queue through
    the entry points, and must leave the rest of it alone. *)
Class CompFunc (func : nat -> Z -> snap_dma_q -> res snap_dma_q) : Prop :=
  func_ok : forall c st q infl P C pend, dv_inv q infl P C pend ->
    exists q' ws, func c st q = Ok q' /\ dv_inv q' (infl ++ ws) (P + bb_total ws) C pend /\
      posts (observe q) (observe q') ws /\ db_step (dv_qp q) (dv_qp q').

Lemma dv_inv_nil q infl P C pend :
  dv_inv q infl P C pend -> dv_inv q (infl ++ []) (P + bb_total []) C pend.
Proof. rewrite app_nil_r. change (bb_total []) with 0. by rewrite Z.add_0_r. Qed.

(** A function that does not touch the queue. *)
Definition func_quiet (c : nat) (st : Z) (q : snap_dma_q) : res snap_dma_q := Ok q.
#[export] Instance func_quiet_ok : CompFunc func_quiet.
Proof.
  intros c st q infl P C pend Hinv. exists q, [].
  split; [done|]. split; [by apply dv_inv_nil|]. split; [apply posts_nil|reflexivity].
Qed.

(** A function that posts the next write of a stream. *)
Definition func_write (addr : nat -> Z) (c : nat) (st : Z) (q : snap_dma_q) : res snap_dma_q :=
  let? '(rc, q) := run_call q (CallWrite (addr c) 4096 1 (addr c) 2 (Some c)) in Ok q.
#[export] Instance func_write_ok addr : CompFunc (func_write addr).
Proof.
  intros c st q infl P C pend Hinv. unfold func_write.
  destruct (run_call_spec q infl P C pend (CallWrite (addr c) 4096 1 (addr c) 2 (Some c)) Hinv I)
    as [(rc & -> & _)|(q' & ws & -> & Hinv' & Hav & Hsame & Hdb & Hout & _)]; cbn [res_bind].
  - exists q, []. split; [done|]. split; [by apply dv_inv_nil|]. split; [apply posts_nil|reflexivity].
  - exists q', ws. split; [done|]. split; [done|]. split; [|done].
    unfold posts, observe. by rewrite Hav, Hsame.
Qed.

Lemma progress_tx_call_spec `{CompFunc func} : forall l q infl P C pend,
  dv_inv q infl P C pend ->
  exists q' ws, progress_tx_call func l q = Ok q' /\
    dv_inv q' (infl ++ ws) (P + bb_total ws) C pend /\ posts (observe q) (observe q') ws.
Proof.
  induction l as [|[e [c|]] l IH]; intros q infl P C pend Hinv; cbn [progress_tx_call].
  - exists q, []. split; [done|]. split; [by apply dv_inv_nil|apply posts_nil].
  - unfold dec_count. set (q1 := set_count q c _).
    assert (dv_inv q1 infl P C pend) as Hinv1 by by apply set_count_inv.
    assert (exists q2 ws, (if get_count q c - 1 =? 0 then func c (tx_status e) q1 else Ok q1) = Ok q2 /\
      dv_inv q2 (infl ++ ws) (P + bb_total ws) C pend /\ posts (observe q) (observe q2) ws)
      as (q2 & ws & -> & Hinv2 & Hav2).
    { destruct (get_count q c - 1 =? 0).
      - destruct (func_ok c (tx_status e) q1 _ _ _ _ Hinv1) as (q2 & ws & ? & ? & ? & _). by exists q2, ws.
      - exists q1, []. split; [done|]. split; [by apply dv_inv_nil|apply posts_nil]. }
    cbn [res_bind]. destruct (IH q2 (infl ++ ws) (P + bb_total ws) C pend Hinv2) as (q3 & ws' & -> & Hinv3 & Hav3).
    exists q3, (ws ++ ws'). rewrite app_assoc, bb_total_app, Z.add_assoc.
    split; [done|]. split; [done|]. by eapply posts_app.
  - by apply IH.
Qed.

(** The effective bound of [dv_dma_q_progress_tx]. *)
Definition tx_comp_max (max_tx_comp : Z) : Z :=
  if max_tx_comp =? -1 then SNAP_DMA_MAX_TX_COMPLETIONS else u16 max_tx_comp.

Notation sigs l := (filter (fun w => w_sig w = true) l).

(** The error callback of a user who looks at the completion only. *)
Definition err_cb_of (err_ret : option (mlx5_cqe64 -> Z))
  : option (mlx5_cqe64 -> snap_dma_q -> Z * snap_dma_q) := (fun r e q => (r e, q)) <$> err_ret.

(** What [dv_dma_q_progress_tx] did: the completions [dn] covered the entries
    [gone]; [l] are those handed to the completion functions, which posted
    [ws]; the device has been told about everything posted. *)
Record progressed (err_ret : option (mlx5_cqe64 -> Z)) (q' : snap_dma_q) (infl gone infl' : list wqe)
    (P C : Z) (pend dn pend' : list mlx5_cqe64) (l : list (mlx5_cqe64 * option nat)) (ws : list wqe) : Prop := {
  pr_infl : infl = gone ++ infl';
  pr_pend : pend = dn ++ pend';
  pr_len : length dn = length (sigs gone);
  pr_last : gone = [] \/ exists g w, gone = g ++ [w] /\ w_sig w = true;
  pr_owners : l = owners err_ret (zip dn (map w_comp (sigs gone)));
  pr_inv : dv_inv q' (infl' ++ ws) (P + bb_total ws) (C + Z.of_nat (length dn)) pend';
  pr_rung : snd_dbr (dv_qp q') = sq_pi (dv_qp q')
}.

(** The completions that are taken before the functions run. *)
Lemma progress_tx_taken err_ret fuel max q infl P C pend :
  dv_inv q infl P C pend -> (length pend < fuel)%nat ->
  exists l q1 infl' pend',
    (if tx_comp_max max =? 0 then Ok ([], q) else progress_tx_poll (err_cb_of err_ret) fuel (tx_comp_max max) q [])
      = Ok (l, q1) /\
    drained err_ret q q1 infl infl' P C pend pend' l /\
    (pend' = [] \/ tx_comp_max max <= Z.of_nat (length l)).
Proof.
  intros Hinv Hfuel. destruct (Z.eqb_spec (tx_comp_max max) 0) as [->|Hne].
  - exists [], q, infl, pend. split; [done|]. split; [by apply drained_refl|by right].
  - destruct (progress_tx_poll_spec err_ret fuel (tx_comp_max max) q [] infl P C pend)
      as (q1 & l & infl' & pend' & Hrun & Hdr & Hend); [done|done| |by exists l, q1, infl', pend'].
    cbn [length]. unfold tx_comp_max, SNAP_DMA_MAX_TX_COMPLETIONS in *.
    destruct (max =? -1); [lia|]. pose proof (u16_range max). lia.
Qed.

(** [Q] relates the queue before and after the completion functions run and
    the entries they post. *)
Lemma progress_tx_gen (Q : Z * Z * Z -> Z * Z * Z -> list wqe -> Prop) func err_ret fuel q max infl P C pend :
  (forall l q infl P C pend, dv_inv q infl P C pend ->
     exists q' ws, progress_tx_call func l q = Ok q' /\
       dv_inv q' (infl ++ ws) (P + bb_total ws) C pend /\ Q (observe q) (observe q') ws) ->
  dv_inv q infl P C pend -> (length pend < fuel)%nat ->
  exists l q' gone infl' dn pend' ws,
    dv_dma_q_progress_tx func (err_cb_of err_ret) fuel q max = Ok (Z.of_nat (length l), q') /\
    progressed err_ret q' infl gone infl' P C pend dn pend' l ws /\
    Q (tx_available q + bb_total gone, tx_elem_size q, n_outstanding (dv_qp q)) (observe q') ws /\
    (pend' = [] \/ tx_comp_max max <= Z.of_nat (length l)).
Proof.
  intros Hcall Hinv Hfuel. unfold dv_dma_q_progress_tx. fold (tx_comp_max max).
  destruct (progress_tx_taken err_ret fuel max q infl P C pend Hinv Hfuel) as (l & q1 & infl' & pend' & -> & Hdr & Hend).
  destruct Hdr as [(gone & dn & Hi & Hp & Hav & Hlen & Hlast & Hinv1 & Hl) Hel _]. cbn [res_bind].
  destruct (Hcall l q1 _ _ _ _ Hinv1) as (q2 & ws & -> & Hinv2 & HQ). cbn [res_bind].
  destruct (tx_complete_inv _ _ _ _ _ Hinv2) as (Hinv3 & _ & Hdb).
  assert (n_outstanding (dv_qp q) = n_outstanding (dv_qp q1)) as Hout.
  { rewrite (inv_tail _ _ _ _ _ Hinv), (inv_tail _ _ _ _ _ Hinv1), Hi.
    destruct Hlast as [->|(g & w & -> & Hw)]; [done|]. rewrite <- app_assoc. by apply sig_tail_first. }
  eexists l, _, gone, infl', dn, pend', ws. rewrite <- Hav, <- Hel, Hout. split; [done|]. split; [|split; [|done]].
  2: { unfold observe in *. cbn. unfold snap_dv_tx_complete. by destruct (tx_need_ring_db (dv_qp q2)). }
  split; try done. by apply (set_completed_inv (set_dv_qp q2 (snap_dv_tx_complete (dv_qp q2)))).
Qed.

Lemma progress_tx_spec `{CompFunc func} err_ret fuel q max infl P C pend :
  dv_inv q infl P C pend -> (length pend < fuel)%nat ->
  exists l q' gone infl' dn pend' ws,
    dv_dma_q_progress_tx func (err_cb_of err_ret) fuel q max = Ok (Z.of_nat (length l), q') /\
    progressed err_ret q' infl gone infl' P C pend dn pend' l ws /\
    posts (tx_available q + bb_total gone, tx_elem_size q, n_outstanding (dv_qp q)) (observe q') ws /\
    (pend' = [] \/ tx_comp_max max <= Z.of_nat (length l)).
Proof.
  apply (progress_tx_gen posts). intros l' q1 ? ? ? ? Hinv1.
  by apply progress_tx_call_spec.
Qed.

(** Completion functions that leave the queue alone. *)
Lemma progress_tx_call_quiet : forall l q infl P C pend,
  dv_inv q infl P C pend ->
  exists q' ws, progress_tx_call func_quiet l q = Ok q' /\
    dv_inv q' (infl ++ ws) (P + bb_total ws) C pend /\ (ws = [] /\ observe q' = observe q).
Proof.
  induction l as [|[e [c|]] l IH]; intros q infl P C pend Hinv; cbn [progress_tx_call].
  - exists q, []. split; [done|]. split; [by apply dv_inv_nil|done].
  - unfold dec_count, func_quiet. rewrite Tauto.if_same. cbn [res_bind].
    apply (IH (set_count q c (get_count q c - 1))). by apply set_count_inv.
  - by apply IH.
Qed.

(** The entries that are gone were executed. *)
Lemma gone_executed (gone infl' dn rest : list wqe) :
  gone ++ infl' = dn ++ rest -> (length (sigs gone) <= length (sigs dn))%nat ->
  (gone = [] \/ exists g w, gone = g ++ [w] /\ w_sig w = true) ->
  exists dn', dn = gone ++ dn' /\ infl' = dn' ++ rest.
Proof.
  intros Heq Hlen Hlast. apply app_eq_inv in Heq as [(k & -> & ->)|(k & -> & ->)].
  - destruct k as [|w k _] using rev_ind.
    { exists []. by rewrite !app_nil_r. }
    exfalso. destruct Hlast as [Hnil|(g & w' & Hg & Hw')].
    + apply (f_equal length) in Hnil. rewrite !length_app in Hnil. cbn in Hnil. lia.
    + rewrite app_assoc in Hg. apply app_inj_tail in Hg as [_ ->].
      rewrite !filter_app, filter_cons_True, !length_app in Hlen by done. cbn in Hlen. lia.
  - by exists k.
Qed.

Lemma sys_progress d q infl P C pend dn0 ann unann err_ret q' gone infl' dn pend' l ws :
  sys_inv d q infl P C pend dn0 ann unann ->
  progressed err_ret q' infl gone infl' P C pend dn pend' l ws ->
  exists dn', dn0 = gone ++ dn' /\
    sys_inv d q' (infl' ++ ws) (P + bb_total ws) (C + Z.of_nat (length dn)) pend' dn' (ann ++ unann ++ ws) [].
Proof.
  intros [Hdv -> Hlen Hci Hdbr Hcq] [Hi -> Hl Hlast _ Hinv Hrung].
  rewrite length_app in Hlen. symmetry in Hi.
  destruct (gone_executed gone infl' dn0 (ann ++ unann)) as (dn' & -> & ->); [done|lia|done|].
  exists dn'. split; [done|]. rewrite filter_app, length_app in Hlen.
  split; try done.
  - by rewrite app_nil_r, !app_assoc.
  - lia.
  - rewrite Hci, app_nil_r. f_equal. rewrite !bb_total_app. lia.
  - rewrite Hrung. change (bb_total []) with 0. rewrite Z.sub_0_r.
    by destruct (wf_pi _ _ (inv_wf _ _ _ _ _ Hinv)) as [_ ?].
  - rewrite Hcq, length_app. lia.
Qed.

(** * The other steps of the pair *)

(** Entries posted behind those in flight, with the doorbell record rung or
    left alone. *)
Lemma sys_extend d q q' infl P C pend dn ann unann ws :
  sys_inv d q infl P C pend dn ann unann ->
  dv_inv q' (infl ++ ws) (P + bb_total ws) C pend -> db_step (dv_qp q) (dv_qp q') ->
  exists ann' unann', sys_inv d q' (infl ++ ws) (P + bb_total ws) C pend dn ann' unann'.
Proof.
  intros [Hdv -> Hlen Hci Hdbr Hcq] Hinv [_ Hdb].
  assert (snd_dbr (dv_qp q') = sq_pi (dv_qp q') \/ snd_dbr (dv_qp q') = snd_dbr (dv_qp q)) as [Hr|Hr].
  { destruct (db_flag (dv_qp q)); intuition. }
  - exists (ann ++ unann ++ ws), []. split; try done.
    + by rewrite app_nil_r, !app_assoc.
    + rewrite Hci, app_nil_r. f_equal. rewrite !bb_total_app. lia.
    + rewrite Hr. change (bb_total []) with 0. rewrite Z.sub_0_r.
      by destruct (wf_pi _ _ (inv_wf _ _ _ _ _ Hinv)) as [_ ?].
  - exists ann, (unann ++ ws). split; try done.
    + by rewrite !app_assoc.
    + rewrite Hci. f_equal. rewrite !bb_total_app. lia.
    + rewrite Hr, Hdbr, bb_total_app. f_equal. lia.
Qed.

Lemma sys_tx_complete d q infl P C pend dn ann unann :
  sys_inv d q infl P C pend dn ann unann ->
  sys_inv d (set_dv_qp q (snap_dv_tx_complete (dv_qp q))) infl P C pend dn (ann ++ unann) [].
Proof.
  intros [Hdv -> Hlen Hci Hdbr Hcq]. destruct (tx_complete_inv _ _ _ _ _ Hdv) as (Hinv & _ & Hr).
  split; try done.
  - by rewrite app_nil_r.
  - by rewrite app_nil_r.
  - rewrite Hr. change (bb_total []) with 0. rewrite Z.sub_0_r.
    by destruct (wf_pi _ _ (inv_wf _ _ _ _ _ Hinv)) as [_ ?].
Qed.

(** More polls than the ring has entries are enough for a run of the loops. *)
Definition poll_fuel (q : snap_dma_q) : nat := S (Z.to_nat (cqe_cnt (dv_tx_cq q))).

Lemma poll_fuel_ok q infl P C pend : dv_inv q infl P C pend -> (length pend < poll_fuel q)%nat.
Proof.
  intros H. pose proof (cqi_room _ _ _ (inv_cq _ _ _ _ _ H)). unfold poll_fuel. lia.
Qed.

Lemma sig_tail_gone (gone infl' : list wqe) :
  (gone = [] \/ exists g w, gone = g ++ [w] /\ w_sig w = true) ->
  sig_tail 0 (gone ++ infl') = sig_tail 0 infl'.
Proof.
  intros [->|(g & w & -> & Hw)]; [done|]. rewrite <- app_assoc. by apply sig_tail_first.
Qed.

Lemma poll_tx_spec d q max infl P C pend dn ann unann :
  sys_inv d q infl P C pend dn ann unann ->
  exists l q' gone infl' C' pend' dn' ann',
    dv_dma_q_poll_tx (poll_fuel q) q max = Ok (l, q') /\
    sys_inv d q' infl' P C' pend' dn' ann' [] /\ infl = gone ++ infl' /\
    observe q' = (tx_available q + bb_total gone, tx_elem_size q, n_outstanding (dv_qp q)).
Proof.
  intros Hsys. pose proof (sys_tx_complete _ _ _ _ _ _ _ _ _ Hsys) as Hsys1.
  unfold dv_dma_q_poll_tx. set (q1 := set_dv_qp _ _) in *.
  pose proof (sys_dv _ _ _ _ _ _ _ _ _ Hsys1) as Hdv1.
  destruct (poll_tx_loop_spec (poll_fuel q) max q1 [] infl P C pend Hdv1) as (q' & l & acc & infl' & pend' & Hrun & Hdr & _).
  { by apply (poll_fuel_ok q1 infl P C). }
  destruct Hdr as [(gone & dnc & Hi & Hp & Hav & Hlen & Hlast & Hinv & Hl) Hel Hdb].
  assert (progressed None q' infl gone infl' P C pend dnc pend' l []) as Hpr.
  { split; try done; [by apply dv_inv_nil|].
    rewrite Hdb, (sys_dbr _ _ _ _ _ _ _ _ _ Hsys1). change (bb_total []) with 0. rewrite Z.sub_0_r.
    by destruct (wf_pi _ _ (inv_wf _ _ _ _ _ Hinv)) as [_ ?]. }
  destruct (sys_progress _ _ _ _ _ _ _ _ _ _ _ _ _ _ _ _ _ Hsys1 Hpr) as (dn' & _ & Hsys2).
  rewrite app_nil_r in Hsys2. change (bb_total []) with 0 in Hsys2. rewrite Z.add_0_r in Hsys2.
  do 8 eexists. split; [done|]. split; [done|]. split; [done|].
  pose proof (inv_tail _ _ _ _ _ (sys_dv _ _ _ _ _ _ _ _ _ Hsys)) as Ht.
  unfold observe. rewrite Hav, Hel, (inv_tail _ _ _ _ _ Hinv), Ht, Hi, sig_tail_gone by done. done.
Qed.

Lemma cq_inv_sn c C pend v : cq_inv c C pend -> cq_inv (set_cq_sn c v) C pend.
Proof. intros []. by split. Qed.

Lemma arm_eq q : exists sn1 sn2,
  (dv_dma_q_arm q).2 =
    set_rx_cq (set_tx_cq (set_dv_qp q (set_db_flag (snap_dv_tx_complete (dv_qp q)) SNAP_DB_RING_IMM))
                 (set_cq_sn (dv_tx_cq q) sn1)) (set_cq_sn (dv_rx_cq q) sn2).
Proof.
  unfold dv_dma_q_arm. destruct q as [? ? ? ? ? p [c1 i1 s1 r1] [c2 i2 s2 r2] ? ? ?]. cbn.
  destruct (c1 =? 0); cbn; destruct (c2 =? 0); cbn.
  all: unfold set_rx_cq, set_tx_cq, set_dv_qp, set_cq_sn; cbn; do 2 eexists; reflexivity.
Qed.

Lemma arm_spec d q infl P C pend dn ann unann :
  sys_inv d q infl P C pend dn ann unann ->
  exists ann', sys_inv d (dv_dma_q_arm q).2 infl P C pend dn ann' [].
Proof.
  intros Hsys. exists (ann ++ unann). apply sys_tx_complete in Hsys.
  destruct (arm_eq q) as (sn1 & sn2 & ->).
  destruct Hsys as [Hdv H1 H2 H3 H4 H5]. split; try done.
  destruct Hdv as [[W1 W2 W3 W4 W5 W6] V2 V3 V4 V5 V6 V7 V8 V9 V10 V11].
  split; try done. by apply cq_inv_sn.
Qed.

(** * Reachable states *)

Section reachable.
Context (outcome : ctrl_seg -> Z -> mlx5_cqe64) `{!Outcome outcome}.
Context (func : nat -> Z -> snap_dma_q -> res snap_dma_q) `{!CompFunc func}.
Context (err_ret : option (mlx5_cqe64 -> Z)).

(** The user calls an entry point, progresses or polls the queue, arms it;
    the device executes an entry. *)
Inductive sys_step : device * snap_dma_q -> device * snap_dma_q -> Prop :=
| step_call d q c rc q' : call_ok q c -> run_call q c = Ok (rc, q') -> sys_step (d, q) (d, q')
| step_progress d q max n q' :
    dv_dma_q_progress_tx func (err_cb_of err_ret) (poll_fuel q) q max = Ok (n, q') -> sys_step (d, q) (d, q')
| step_poll_tx d q max l q' : dv_dma_q_poll_tx (poll_fuel q) q max = Ok (l, q') -> sys_step (d, q) (d, q')
| step_arm d q : sys_step (d, q) (d, (dv_dma_q_arm q).2)
| step_device d q d' q' : dev_step outcome d q = Some (d', q') -> sys_step (d, q) (d', q').

Lemma dev_run_star fuel d q : star sys_step (d, q) (dev_run outcome fuel d q).
Proof.
  revert d q. induction fuel as [|fuel IH]; intros d q; cbn [dev_run]; [constructor|].
  destruct (dev_step outcome d q) as [[d' q']|] eqn:E; [|constructor]. eapply star_step; [by eapply step_device|apply IH].
Qed.

(** The pair satisfies its invariant; [E] is the inline size and [M] the
    number of credits of the queue. *)
Definition sys_good (E M : Z) (s : device * snap_dma_q) : Prop :=
  exists infl P C pend dn ann unann,
    sys_inv s.1 s.2 infl P C pend dn ann unann /\ tx_elem_size s.2 = E /\
    tx_available s.2 + bb_total infl = M /\ n_outstanding (dv_qp s.2) <= 14 + entry_bb_max E.

Lemma posts_good E M q q' infl gone infl' ws :
  infl = gone ++ infl' -> tx_elem_size q = E -> tx_available q + bb_total infl = M ->
  n_outstanding (dv_qp q) <= 14 + entry_bb_max E ->
  posts (tx_available q + bb_total gone, tx_elem_size q, n_outstanding (dv_qp q)) (observe q') ws ->
  tx_elem_size q' = E /\ tx_available q' + bb_total (infl' ++ ws) = M /\
  n_outstanding (dv_qp q') <= 14 + entry_bb_max E.
Proof.
  intros -> <- HM Hout (Hav & Hel & Ho). rewrite bb_total_app in *. split; [done|]. lia.
Qed.

Lemma sys_step_good E M s s' : sys_good E M s -> sys_step s s' -> sys_good E M s'.
Proof.
  intros (infl & P & C & pend & dn & ann & unann & Hsys & HE & HM & Hout) Hstep.
  pose proof (sys_dv _ _ _ _ _ _ _ _ _ Hsys) as Hdv. unfold sys_good.
  destruct Hstep as [d q c rc q' Hok Hrun|d q max n q' Hrun|d q max l q' Hrun|d q|d q d' q' Hrun]; cbn [fst snd] in *.
  - destruct (run_call_spec q infl P C pend c Hdv Hok) as [(rc' & Er & _)|(q2 & ws & Er & Hinv & Hav & Hsame & Hdb & Ho & _)];
      rewrite Er in Hrun; injection Hrun as <- <-; [eauto 15|].
    destruct (sys_extend _ _ _ _ _ _ _ _ _ _ _ Hsys Hinv Hdb) as (ann' & unann' & ?).
    do 7 eexists. split; [done|]. apply (posts_good E M q _ infl []); try done.
    change (bb_total []) with 0. unfold posts, observe. rewrite Z.add_0_r, Hav, Hsame. done.
  - destruct (progress_tx_spec err_ret (poll_fuel q) q max infl P C pend Hdv)
      as (l & q2 & gone & infl' & dnc & pend' & ws & Er & Hpr & Hposts & _); [by eapply poll_fuel_ok|].
    rewrite Er in Hrun. injection Hrun as <- <-.
    destruct (sys_progress _ _ _ _ _ _ _ _ _ _ _ _ _ _ _ _ _ Hsys Hpr) as (dn' & _ & ?).
    do 7 eexists. split; [done|]. apply (posts_good E M q _ infl gone); try done. apply Hpr.
  - destruct (poll_tx_spec d q max _ _ _ _ _ _ _ Hsys)
      as (l2 & q2 & gone & infl' & C' & pend' & dn' & ann' & Er & ? & Hi & Hobs).
    rewrite Er in Hrun. injection Hrun as <- <-. do 7 eexists. split; [done|].
    rewrite <- (app_nil_r infl'). apply (posts_good E M q _ infl gone); try done.
    rewrite Hobs. apply posts_nil.
  - destruct (arm_spec _ _ _ _ _ _ _ _ _ Hsys) as (ann' & ?). do 7 eexists. split; [done|].
    destruct (arm_eq q) as (sn1 & sn2 & ->). cbn. unfold snap_dv_tx_complete. by destruct (tx_need_ring_db (dv_qp q)).
  - pose proof (dev_step_spec _ _ _ _ _ _ _ _ _ Hsys) as Hs. destruct ann as [|w ann]; [by rewrite Hs in Hrun|].
    destruct Hs as (d2 & q2 & pend2 & Er & Hinv & Hq2). rewrite Er in Hrun. injection Hrun as <- <-.
    do 7 eexists. split; [done|]. by rewrite Hq2.
Qed.
End reachable.
