(* ===== verification/DmaFlush.v ===== *)
(** Flushing a DMA queue: [dv_dma_q_flush] of src/src/snap_dma_dv.c returns, with
    every entry completed and every credit back, except when unsignalled entries
    hold all the credits. *)

From stdpp Require Import gmap.
From S2P Require Import Prelude DmaSgl DmaWqe CqRing DmaDv DmaInv DmaComp DmaSys.

Lemma length_le_bb l : Forall (fun w => 0 < w_bb w) l -> Z.of_nat (length l) <= bb_total l.
Proof. induction 1 as [|w l Hw Hl IH]; [done|]. rewrite bb_total_cons. cbn [length]. lia. Qed.

Section flush.
Context (outcome : ctrl_seg -> Z -> mlx5_cqe64) `{!Outcome outcome}.
Context (err_ret : option (mlx5_cqe64 -> Z)).

(** Between two polls the device executes what it has been told about: no
    more entries than the send queue has blocks. *)
Definition flush_env (d : device) (q : snap_dma_q) : device * snap_dma_q :=
  dev_run outcome (Z.to_nat (sq_wqe_cnt (dv_qp q))) d q.

Lemma infl_length_bound q infl P C pend :
  dv_inv q infl P C pend -> (length infl <= Z.to_nat (sq_wqe_cnt (dv_qp q)))%nat.
Proof.
  intros H. destruct (infl_bounds _ _ _ _ _ H) as (Hb & _ & _).
  pose proof (length_le_bb _ Hb) as Hl.
  pose proof (inv_credit _ _ _ _ _ H) as Hc. pose proof (inv_avail _ _ _ _ _ H) as Ha.
  unfold snap_dma_q_dv_get_tx_avail_max, snap_min in Hc. case_match; bool_to_prop; lia.
Qed.

(** No completion function posts: one round of the wait loop. *)
Lemma flush_round d q infl P C pend dn ann unann pfuel :
  sys_inv d q infl P C pend dn ann unann -> (length infl < pfuel)%nat ->
  exists d1 q1 m q2 gone infl' C' pend' dn',
    flush_env d q = (d1, q1) /\
    dv_dma_q_progress_tx func_quiet (err_cb_of err_ret) pfuel q1 (-1) = Ok (m, q2) /\
    sys_inv d1 q2 infl' P C' pend' dn' unann [] /\
    infl = gone ++ infl' /\ tx_available q2 = tx_available q + bb_total gone /\
    sig_tail 0 infl' = sig_tail 0 infl /\
    (sigs (dn ++ ann) = [] \/ (length (sigs infl') < length (sigs infl))%nat) /\
    (sigs infl = [] -> gone = []).
Proof.
  intros Hsys Hpf.
  assert (length ann <= Z.to_nat (sq_wqe_cnt (dv_qp q)))%nat as Hann.
  { pose proof (infl_length_bound _ _ _ _ _ (sys_dv _ _ _ _ _ _ _ _ _ Hsys)) as Hl.
    rewrite (sys_split _ _ _ _ _ _ _ _ _ Hsys), !length_app in Hl. lia. }
  destruct (dev_run_spec _ _ _ _ _ _ _ _ _ _ Hsys Hann) as (d1 & q1 & pend1 & Hrun & Hsys1 & Hq1).
  pose proof (sys_dv _ _ _ _ _ _ _ _ _ Hsys1) as Hdv1.
  pose proof (sys_pend _ _ _ _ _ _ _ _ _ Hsys1) as Hlen1.
  assert (length pend1 < pfuel)%nat as Hpf1.
  { rewrite Hlen1. rewrite (sys_split _ _ _ _ _ _ _ _ _ Hsys1) in Hpf. rewrite length_app in Hpf.
    pose proof (length_filter (fun w => w_sig w = true) (dn ++ ann)). lia. }
  destruct (progress_tx_gen (fun a b ws => ws = [] /\ b = a) func_quiet err_ret pfuel q1 (-1) infl P C pend1)
    as (l & q2 & gone & infl' & dnc & pend' & ws & Hprog & Hpr & [-> Hav] & Hend);
    [apply progress_tx_call_quiet|done|done|].
  destruct (sys_progress _ _ _ _ _ _ _ _ _ _ _ _ _ _ _ _ _ Hsys1 Hpr) as (dn' & Hdn & Hsys2).
  rewrite !app_nil_r in Hsys2. change (bb_total []) with 0 in Hsys2. rewrite Z.add_0_r in Hsys2.
  pose proof (pr_infl _ _ _ _ _ _ _ _ _ _ _ _ Hpr) as Hi.
  pose proof (pr_len _ _ _ _ _ _ _ _ _ _ _ _ Hpr) as Hgl.
  pose proof (pr_last _ _ _ _ _ _ _ _ _ _ _ _ Hpr) as Hlast.
  do 9 eexists. split; [exact Hrun|]. split; [exact Hprog|]. split; [exact Hsys2|].
  split; [exact Hi|]. split; [by injection Hav as -> _ _; rewrite Hq1|]. split; [|split].
  - rewrite Hi. destruct Hlast as [->|(g & w & -> & Hw)]; [done|].
    rewrite <- app_assoc. symmetry. by apply sig_tail_first.
  - destruct (decide (sigs (dn ++ ann) = [])) as [|Hne]; [by left|right].
    rewrite Hi, filter_app, length_app.
    assert (0 < length dnc)%nat; [|lia].
    assert (0 < length pend1)%nat as Hp1 by (rewrite Hlen1; destruct (sigs (dn ++ ann)); [done|cbn; lia]).
    pose proof (pr_pend _ _ _ _ _ _ _ _ _ _ _ _ Hpr) as Hp. rewrite Hp, length_app in Hp1.
    destruct Hend as [->|Hmax]; [cbn in Hp1; lia|].
    rewrite (pr_owners _ _ _ _ _ _ _ _ _ _ _ _ Hpr) in Hmax. unfold owners in Hmax.
    match type of Hmax with _ <= Z.of_nat (length (filter ?f ?z)) => pose proof (length_filter f z) as Hf end.
    rewrite length_zip in Hf. unfold tx_comp_max, SNAP_DMA_MAX_TX_COMPLETIONS in Hmax. cbn in Hmax. lia.
  - intros Hns. rewrite Hi, filter_app in Hns. apply app_eq_nil in Hns as [Hns _].
    destruct Hlast as [->|(g & w & -> & Hw)]; [done|exfalso].
    rewrite filter_app, filter_cons_True in Hns by done. by apply app_eq_nil in Hns as [_ ?].
Qed.

Notation wait := (flush_wait func_quiet (err_cb_of err_ret) flush_env).

Lemma sigs_nil_tail l : forall acc, sigs l = [] -> sig_tail acc l = acc + bb_total l.
Proof.
  induction l as [|w l IH]; intros acc H; cbn [sig_tail].
  - change (bb_total []) with 0. lia.
  - rewrite filter_cons in H. case_decide as Hw; [done|].
    destruct (w_sig w); [done|]. rewrite IH, bb_total_cons by done. lia.
Qed.

(** What the wait loop establishes. *)
Definition waited (q : snap_dma_q) (infl : list wqe) (P need : Z) (r : res (Z * device * snap_dma_q)) : Prop :=
  exists n d' q' gone infl' C' pend' dn' ann' unann',
    r = Ok (n, d', q') /\ sys_inv d' q' infl' P C' pend' dn' ann' unann' /\
    need <= tx_available q' /\ infl = gone ++ infl' /\ sig_tail 0 infl' = sig_tail 0 infl /\
    tx_available q' + bb_total infl' = tx_available q + bb_total infl.

(** Everything in flight has been announced: each round completes an entry. *)
Lemma wait_announced need pfuel : forall fuel d q infl P C pend dn ann n,
  sys_inv d q infl P C pend dn ann [] -> (length (sigs infl) <= fuel)%nat -> (length infl < pfuel)%nat ->
  need + sig_tail 0 infl <= tx_available q + bb_total infl ->
  waited q infl P need (wait fuel pfuel need n d q).
Proof.
  induction fuel as [|fuel IH]; intros d q infl P C pend dn ann n Hsys Hf Hpf Hneed.
  - assert (sigs infl = []) as Hns by (destruct (sigs infl); [done|cbn in Hf; lia]).
    rewrite (sigs_nil_tail _ _ Hns) in Hneed. cbn [flush_wait].
    rewrite (proj2 (Z.leb_le need _)) by lia.
    exists n, d, q, []. do 6 eexists. split; [done|]. split; [done|]. split; [lia|done].
  - cbn [flush_wait]. destruct (Z.leb_spec need (tx_available q)) as [Hge|Hlt].
    { exists n, d, q, []. do 6 eexists. split; [done|]. split; [done|]. split; [lia|done]. }
    destruct (flush_round d q infl P C pend dn ann [] pfuel Hsys Hpf)
      as (d1 & q1 & m & q2 & gone & infl' & C' & pend' & dn' & -> & Hprog & Hsys2 & Hi & Hav & Htail & Hdec & _).
    rewrite Hprog. cbn [res_bind].
    pose proof (sys_split _ _ _ _ _ _ _ _ _ Hsys) as Hsp. rewrite app_nil_r in Hsp.
    destruct Hdec as [Hns|Hdec].
    { exfalso. rewrite <- Hsp in Hns. rewrite (sigs_nil_tail _ _ Hns) in Hneed. lia. }
    assert (tx_available q2 + bb_total infl' = tx_available q + bb_total infl) as Hsum
      by (rewrite Hi, bb_total_app; lia).
    destruct (IH d1 q2 infl' P C' pend' dn' [] (n + m) Hsys2)
      as (n' & d' & q' & gone' & infl'' & C'' & pend'' & dn'' & ann'' & un'' & -> & ? & ? & -> & ? & ?);
      [lia|rewrite Hi, length_app in Hpf; lia|lia|].
    exists n', d', q', (gone ++ gone'). do 6 eexists. split; [done|]. split; [done|]. split; [done|].
    split; [by rewrite <- app_assoc|]. split; [congruence|lia].
Qed.

(** From any state: the first round announces what was pending. *)
Lemma wait_spec need pfuel fuel d q infl P C pend dn ann unann n :
  sys_inv d q infl P C pend dn ann unann -> (length (sigs infl) < fuel)%nat -> (length infl < pfuel)%nat ->
  need + sig_tail 0 infl <= tx_available q + bb_total infl ->
  waited q infl P need (wait fuel pfuel need n d q).
Proof.
  intros Hsys Hf Hpf Hneed. destruct fuel as [|fuel]; [lia|]. cbn [flush_wait].
  destruct (Z.leb_spec need (tx_available q)) as [Hge|Hlt].
  { exists n, d, q, []. do 6 eexists. split; [done|]. split; [done|]. split; [lia|done]. }
  destruct (flush_round d q infl P C pend dn ann unann pfuel Hsys Hpf)
    as (d1 & q1 & m & q2 & gone & infl' & C' & pend' & dn' & -> & Hprog & Hsys2 & Hi & Hav & Htail & _ & _).
  rewrite Hprog. cbn [res_bind].
  assert (tx_available q2 + bb_total infl' = tx_available q + bb_total infl) as Hsum
    by (rewrite Hi, bb_total_app; lia).
  destruct (wait_announced need pfuel fuel d1 q2 infl' P C' pend' dn' unann (n + m) Hsys2)
    as (n' & d' & q' & gone' & infl'' & C'' & pend'' & dn'' & ann'' & un'' & -> & ? & ? & -> & ? & ?);
    [rewrite Hi, filter_app, length_app in Hf; lia|rewrite Hi, length_app in Hpf; lia|lia|].
  exists n', d', q', (gone ++ gone'). do 6 eexists. split; [done|]. split; [done|]. split; [done|].
  split; [by rewrite <- app_assoc|]. split; [congruence|lia].
Qed.

(** The zero-length write of the flush. *)
Lemma flush_post d q infl P C pend dn ann unann :
  sys_inv d q infl P C pend dn ann unann -> 1 <= tx_available q ->
  exists q' w ann' unann',
    do_dv_xfer_inline q [] 0 MLX5_OPCODE_RDMA_WRITE 0 0 None true = Ok (0, 1, q') /\
    let q'' := set_tx_available q' (tx_available q' - 1) in
    sys_inv d q'' (infl ++ [w]) (P + 1) C pend dn ann' unann' /\ w_sig w = true /\
    tx_available q'' + bb_total (infl ++ [w]) = tx_available q + bb_total infl /\
    snap_dma_q_dv_get_tx_avail_max q'' = snap_dma_q_dv_get_tx_avail_max q.
Proof.
  intros Hsys Hav. pose proof (sys_dv _ _ _ _ _ _ _ _ _ Hsys) as Hdv.
  destruct (avail_le_cnt _ _ _ _ _ Hdv) as [Hcnt _].
  destruct (inline_posted q P [] 0 MLX5_OPCODE_RDMA_WRITE 0 0 None true (inv_wf _ _ _ _ _ Hdv))
    as [[Hlt _]|(_ & q' & w & Hrun & Hpost & Hsame & Hbb & _ & Hsig)]; [lia|cbn; lia|done|done| |].
  { change (inline_bb _ true 0) with 1 in Hlt. lia. }
  change (inline_bb _ true 0) with 1 in Hrun, Hbb.
  assert (tx_available q' = tx_available q) as Hav' by (by rewrite Hsame).
  assert (bb_total [w] = 1) as Hb1 by (unfold bb_total; cbn; lia).
  set (q'' := set_tx_available q' (tx_available q' - 1)).
  assert (dv_inv q'' (infl ++ [w]) (P + bb_total [w]) C pend) as Hinv.
  { rewrite Hb1, <- Hbb. apply (post_inv q); try done; cbn; [by rewrite Hsame|lia|lia]. }
  destruct (sys_extend d q q'' infl P C pend dn ann unann [w] Hsys Hinv) as (ann' & unann' & Hsys');
    [apply Hpost|].
  rewrite Hb1 in Hsys'. exists q', w, ann', unann'. split; [done|]. split; [done|]. split; [done|].
  split; [rewrite bb_total_app, Hb1; cbn; lia|].
  unfold snap_dma_q_dv_get_tx_avail_max. cbn. by rewrite (po_cnt _ _ _ _ Hpost), Hsame.
Qed.

Lemma drained_empty d q infl P C pend dn ann unann :
  sys_inv d q infl P C pend dn ann unann -> bb_total infl = 0 ->
  infl = [] /\ sys_inv d q [] P C [] [] [] [].
Proof.
  intros Hsys H0. pose proof (sys_dv _ _ _ _ _ _ _ _ _ Hsys) as Hdv.
  destruct (infl_bounds _ _ _ _ _ Hdv) as (Hb & _ & _).
  assert (infl = []) as ->.
  { destruct Hb as [|w l Hw Hl]; [done|]. pose proof (bb_total_nonneg _ Hl).
    rewrite bb_total_cons in H0. lia. }
  split; [done|]. pose proof (sys_split _ _ _ _ _ _ _ _ _ Hsys) as Hsp. symmetry in Hsp.
  apply app_eq_nil in Hsp as [-> Hsp]. apply app_eq_nil in Hsp as [-> ->].
  pose proof (sys_pend _ _ _ _ _ _ _ _ _ Hsys) as Hp. destruct pend; done.
Qed.

(** The queue once the wait for a credit is over. *)
Lemma flush_rest fuel pfuel d q infl P C pend dn ann unann n :
  sys_inv d q infl P C pend dn ann unann -> 1 <= tx_available q ->
  (length infl + 1 < fuel)%nat -> (length infl + 1 < pfuel)%nat ->
  let n_out := n_outstanding (dv_qp q) in
  exists n' d' q' P' C',
    (let? '(n, q) :=
      (if negb (n_out =? 0) then
         let? '(rc, n_bb, q) := do_dv_xfer_inline q [] 0 MLX5_OPCODE_RDMA_WRITE 0 0 None true in
         Ok (n - 1, set_tx_available q (tx_available q - n_bb))
       else Ok (n, q)) in
     let? '(n, d, q) := wait fuel pfuel (snap_dma_q_dv_get_tx_avail_max q) n d q in
     Ok (n_out + n, d, q)) = Ok (n', d', q') /\
    sys_inv d' q' [] P' C' [] [] [] [].
Proof.
  intros Hsys Hav Hf Hpf n_out. pose proof (sys_dv _ _ _ _ _ _ _ _ _ Hsys) as Hdv.
  pose proof (inv_credit _ _ _ _ _ Hdv) as Hcr. pose proof (length_filter (fun w => w_sig w = true) infl) as Hfl.
  assert (exists n1 q1 infl1 P1 ann1 unann1,
    (if negb (n_out =? 0) then
       let? '(rc, n_bb, q) := do_dv_xfer_inline q [] 0 MLX5_OPCODE_RDMA_WRITE 0 0 None true in
       Ok (n - 1, set_tx_available q (tx_available q - n_bb))
     else Ok (n, q)) = Ok (n1, q1) /\
    sys_inv d q1 infl1 P1 C pend dn ann1 unann1 /\ sig_tail 0 infl1 = 0 /\
    (length (sigs infl1) < fuel)%nat /\ (length infl1 < pfuel)%nat)
    as (n1 & q1 & infl1 & P1 & ann1 & unann1 & -> & Hsys1 & Htail1 & Hf1 & Hpf1).
  { destruct (Z.eqb_spec n_out 0) as [E|E]; cbn [negb].
    - do 6 eexists. split; [done|]. split; [done|]. split; [|lia].
      rewrite <- (inv_tail _ _ _ _ _ Hdv). done.
    - destruct (flush_post _ _ _ _ _ _ _ _ _ Hsys Hav) as (q' & w & ann' & unann' & -> & Hsys' & Hw & _ & _).
      cbn [res_bind]. do 6 eexists. split; [done|]. split; [done|].
      rewrite sig_tail_snoc, Hw, filter_app, !length_app. split; [done|].
      pose proof (length_filter (fun w => w_sig w = true) [w]). cbn [length] in *. lia. }
  cbn [res_bind]. pose proof (inv_credit _ _ _ _ _ (sys_dv _ _ _ _ _ _ _ _ _ Hsys1)) as Hcr1.
  destruct (wait_spec (snap_dma_q_dv_get_tx_avail_max q1) pfuel fuel d q1 infl1 P1 C pend dn ann1 unann1 n1 Hsys1)
    as (n' & d' & q' & gone & infl' & C' & pend' & dn' & ann' & un' & -> & Hsys' & Hge & _ & _ & Hsum); [lia..|].
  cbn [res_bind]. do 5 eexists. split; [done|].
  destruct (infl_bounds _ _ _ _ _ (sys_dv _ _ _ _ _ _ _ _ _ Hsys')) as (_ & Hbt & _).
  apply (drained_empty _ _ _ _ _ _ _ _ _ Hsys'). lia.
Qed.

Lemma flush_returns fuel pfuel d q infl P C pend dn ann unann :
  sys_inv d q infl P C pend dn ann unann ->
  n_outstanding (dv_qp q) < snap_dma_q_dv_get_tx_avail_max q ->
  (length infl + 1 < fuel)%nat -> (length infl + 1 < pfuel)%nat ->
  exists n d' q' P' C',
    dv_dma_q_flush func_quiet (err_cb_of err_ret) flush_env fuel pfuel d q = Ok (n, d', q') /\
    snap_dma_q_empty q' = true /\ sys_inv d' q' [] P' C' [] [] [] [].
Proof.
  intros Hsys Hout Hf Hpf. pose proof (sys_dv _ _ _ _ _ _ _ _ _ Hsys) as Hdv.
  pose proof (inv_credit _ _ _ _ _ Hdv) as Hcr. rewrite (inv_tail _ _ _ _ _ Hdv) in Hout.
  pose proof (length_filter (fun w => w_sig w = true) infl).
  unfold dv_dma_q_flush.
  destruct (wait_spec 1 pfuel fuel d q infl P C pend dn ann unann 0 Hsys)
    as (n1 & d1 & q1 & gone & infl1 & C1 & pend1 & dn1 & ann1 & un1 & -> & Hsys1 & Hge & -> & _ & _); [lia..|].
  rewrite length_app in Hf, Hpf. cbn [res_bind].
  destruct (flush_rest fuel pfuel d1 q1 infl1 P C1 pend1 dn1 ann1 un1 n1 Hsys1)
    as (n' & d' & q' & P' & C' & -> & Hsys'); [lia..|].
  do 5 eexists. split; [done|]. split; [|done].
  pose proof (inv_credit _ _ _ _ _ (sys_dv _ _ _ _ _ _ _ _ _ Hsys')) as Hcr'.
  change (bb_total []) with 0 in Hcr'. unfold snap_dma_q_empty. apply Z.eqb_eq. lia.
Qed.

Lemma tail_all_unsig l :
  Forall (fun w => 0 < w_bb w) l -> forall acc, 0 <= acc -> sig_tail acc l = acc + bb_total l -> sigs l = [].
Proof.
  induction 1 as [|w l Hw Hl IH]; intros acc Hacc Ht; [done|]. cbn [sig_tail] in Ht. rewrite bb_total_cons in Ht.
  rewrite filter_cons. case_decide as Hs.
  - rewrite Hs in Ht. pose proof (sig_tail_bounds l 0 ltac:(lia) Hl). lia.
  - destruct (w_sig w); [done|]. apply (IH (acc + w_bb w)); lia.
Qed.

Lemma wait_stuck pfuel : forall fuel d q infl P C pend dn ann unann n,
  sys_inv d q infl P C pend dn ann unann -> (length infl < pfuel)%nat ->
  sigs infl = [] -> tx_available q = 0 -> wait fuel pfuel 1 n d q = OutOfFuel.
Proof.
  induction fuel as [|fuel IH]; intros d q infl P C pend dn ann unann n Hsys Hpf Hns Hav; cbn [flush_wait];
    rewrite Hav; [done|]. cbn.
  destruct (flush_round d q infl P C pend dn ann unann pfuel Hsys Hpf)
    as (d1 & q1 & m & q2 & gone & infl' & C' & pend' & dn' & -> & Hprog & Hsys2 & Hi & Hav2 & _ & _ & Hgone).
  rewrite Hprog. cbn [res_bind]. specialize (Hgone Hns). subst gone. cbn [app] in Hi. subst infl'.
  change (bb_total []) with 0 in Hav2. by eapply IH; [| | |lia].
Qed.

(** When unsignalled entries hold every credit of the queue, no completion
    will ever come, and [dv_dma_q_flush] (like any caller that waits for a
    credit) spins forever. *)
Theorem flush_deadlock fuel pfuel d q infl P C pend dn ann unann :
  sys_inv d q infl P C pend dn ann unann ->
  n_outstanding (dv_qp q) = snap_dma_q_dv_get_tx_avail_max q ->
  (length infl < pfuel)%nat ->
  dv_dma_q_flush func_quiet (err_cb_of err_ret) flush_env fuel pfuel d q = OutOfFuel.
Proof.
  intros Hsys Hout Hpf. pose proof (sys_dv _ _ _ _ _ _ _ _ _ Hsys) as Hdv.
  pose proof (inv_credit _ _ _ _ _ Hdv) as Hcr. pose proof (inv_avail _ _ _ _ _ Hdv) as Hav.
  rewrite (inv_tail _ _ _ _ _ Hdv) in Hout. destruct (infl_bounds _ _ _ _ _ Hdv) as (Hb & _ & _).
  pose proof (sig_tail_bounds infl 0 ltac:(lia) Hb) as Hbd.
  unfold dv_dma_q_flush. erewrite wait_stuck; [done|done|done| |lia].
  apply (tail_all_unsig infl Hb 0); lia.
Qed.
End flush.
