(* ===== verification/DmaProps.v ===== *)
(** Properties of the DMA queue as a whole: queues the library creates, every
    state they can reach, and what the entry points promise there. *)

From stdpp Require Import gmap.
From S2P Require Import Prelude DmaSgl DmaWqe CqRing DmaDv DmaInv DmaComp DmaSys DmaFlush.

(** * Created queues *)

Lemma sw_tx_qsize_bounds n : 1 <= n <= 2 ^ 15 -> 17 <= sw_tx_qsize n <= 2 ^ 15.
Proof.
  intros Hn. unfold sw_tx_qsize, SNAP_DMA_Q_TX_MOD_COUNT.
  destruct (n <=? 16) eqn:E1, (0 <? n) eqn:E2; cbn; bool_to_prop; lia.
Qed.

(** Rings of at least 32 and at most 2^15 entries. *)
Lemma sq_size_pow2 n :
  1 <= n <= 2 ^ 15 -> exists k, 5 <= k <= 15 /\ SNAP_ROUNDUP_POW2 (sw_tx_qsize n) = 2 ^ k.
Proof.
  intros Hn. pose proof (sw_tx_qsize_bounds n Hn) as Hb.
  destruct (SNAP_ROUNDUP_POW2_spec (sw_tx_qsize n)) as (k & Hk & -> & Hge & Hlow); [lia|].
  exists k. split; [|done]. split.
  - assert (4 < k); [|lia]. apply (Z.pow_lt_mono_r_iff 2); [lia..|]. change (2 ^ 4) with 16. lia.
  - destruct Hlow as [|Hlow]; [lia|]. assert (k - 1 < 15); [|lia].
    apply (Z.pow_lt_mono_r_iff 2); lia.
Qed.

Section created.
Context (id : nat) (mode : snap_dma_q_mode) (flag : snap_db_ring_flag).
Context (tx_qsize rx_qsize tx_elem rx_elem : Z) (opaque_seg : list memval).
Hypothesis (Htx : 1 <= tx_qsize <= 2 ^ 15) (Hop : length opaque_seg = 16%nat).

Definition q0 : snap_dma_q :=
  dma_q_create id mode flag tx_qsize rx_qsize tx_elem rx_elem opaque_seg.
Definition credits : Z := SNAP_ROUNDUP_POW2 (sw_tx_qsize tx_qsize).

Lemma q0_avail : tx_available q0 = credits /\ 32 <= credits.
Proof.
  destruct (sq_size_pow2 _ Htx) as (k & Hk & E). pose proof (sw_tx_qsize_bounds _ Htx).
  unfold q0, dma_q_create, snap_dma_q_dv_get_tx_avail_max, SNAP_ROUNDUP_POW2_OR0, credits, snap_min.
  rewrite (proj2 (Z.eqb_neq (sw_tx_qsize tx_qsize) 0)) by lia.
  cbn [tx_available set_tx_available dv_qp sq_wqe_cnt dv_tx_cq cq_create cqe_cnt]. rewrite Z.ltb_irrefl.
  split; [done|]. rewrite E. change 32 with (2 ^ 5). apply Z.pow_le_mono_r; lia.
Qed.

Lemma q0_inv : dv_inv q0 [] 0 0 [].
Proof.
  destruct (sq_size_pow2 _ Htx) as (k & Hk & E). pose proof (sw_tx_qsize_bounds _ Htx).
  assert (0 < 2 ^ k) by (apply Z.pow_pos_nonneg; lia). destruct q0_avail as [Hav Hc].
  assert (sq_wqe_cnt (dv_qp q0) = 2 ^ k) as Hcnt.
  { unfold q0, dma_q_create. cbn [set_tx_available dv_qp sq_wqe_cnt].
    unfold SNAP_ROUNDUP_POW2_OR0. by rewrite (proj2 (Z.eqb_neq (sw_tx_qsize tx_qsize) 0)) by lia. }
  split; try done.
  - split; try done.
    + exists k. split; [lia|done].
    + rewrite Hcnt. unfold q0, dma_q_create in *. cbn [set_tx_available dv_qp sq_wqe_cnt comps] in *.
      rewrite length_replicate, Hcnt. lia.
    + unfold q0, dma_q_create. cbn [set_tx_available dv_qp sq_wqe_cnt sq_buf]. by rewrite length_replicate.
  - unfold bb_total. cbn [map sumZ foldr]. rewrite Z.add_0_r. done.
  - rewrite Hav. lia.
  - unfold q0, dma_q_create, cq_create. cbn [set_tx_available dv_tx_cq]. rewrite E. apply cq_init_inv. lia.
Qed.

Lemma q0_good : sys_good tx_elem credits (mk_dev 0 0, q0).
Proof.
  exists [], 0, 0, [], [], [], []. split; [|split; [done|split]].
  - split; try done. apply q0_inv.
  - cbn [snd]. destruct q0_avail as [-> _]. change (bb_total []) with 0. lia.
  - cbn. unfold entry_bb_max. lia.
Qed.
End created.

(** * Reachable states *)

Section reachable_props.
Context (outcome : ctrl_seg -> Z -> mlx5_cqe64) `{!Outcome outcome}.
Context (func : nat -> Z -> snap_dma_q -> res snap_dma_q) `{!CompFunc func}.
Context (err_ret : option (mlx5_cqe64 -> Z)).
Context (id : nat) (mode : snap_dma_q_mode) (flag : snap_db_ring_flag).
Context (tx_qsize rx_qsize tx_elem rx_elem : Z) (opaque_seg : list memval).
Hypothesis (Htx : 1 <= tx_qsize <= 2 ^ 15) (Hop : length opaque_seg = 16%nat).

#[local] Abbreviation start := (mk_dev 0 0, q0 id mode flag tx_qsize rx_qsize tx_elem rx_elem opaque_seg).
#[local] Abbreviation M := (credits tx_qsize).

Lemma reachable_good s : star (sys_step outcome func err_ret) start s -> sys_good tx_elem M s.
Proof.
  apply star_invariant; [apply sys_step_good; done|by apply q0_good].
Qed.

Lemma dma_reach_sys d q :
  star (sys_step outcome func err_ret) start (d, q) ->
  exists infl P C pend dn ann unann,
    sys_inv d q infl P C pend dn ann unann /\ tx_available q + bb_total infl = M.
Proof.
  intros (infl & P & C & pend & dn & ann & unann & Hsys & _ & HM & _)%reachable_good. eauto 10.
Qed.

(** C3: In every state a created queue reaches, under any sequence of calls of the posting
    entry points with valid arguments ([snap_dma_q_send] outside the window in which its copy
    underflows), polls, doorbells, completion functions that post again and device steps:
    the entries in flight are contiguous, their control segments are intact
    in the send-queue buffer, every credit is either available or held by an
    entry in flight, the completion slots say what each signalled entry
    returns, the unread completions are those of the oldest signalled
    entries, the device's indices agree with the queue's, and the moderation
    of completions bounds the unsignalled blocks. *)
Theorem dma_reachable_inv d q :
  star (sys_step outcome func err_ret) start (d, q) ->
  exists infl P C pend dn ann unann,
    sys_inv d q infl P C pend dn ann unann /\ tx_available q + bb_total infl = M /\
    n_outstanding (dv_qp q) <= 14 + entry_bb_max tx_elem.
Proof.
  intros (infl & P & C & pend & dn & ann & unann & Hsys & _ & HM & Hout)%reachable_good. eauto 10.
Qed.

(** C17: The nine posting entry points of the DMA queue (writes, reads, short writes and reads,
    the vectored ones, [snap_dma_q_send_completion], [snap_dma_q_send] and
    [snap_dma_q_flush_nowait]) have no undefined behaviour in a reachable state, when they are
    called with valid arguments: buffers as long as their lengths say, a key for every element
    of a vector or a shared one, for inline data a queue whose inline size is at most 4044
    bytes, and for [snap_dma_q_send] sizes as its documentation allows, outside the window at
    the end of the send queue in which its copy underflows (there it is undefined:
    [send_window_undefined]).  Such a call either is refused with -EAGAIN or -EINVAL and leaves
    the queue as it was, or is accepted, never with more credits than there were, and leaves a
    state in which all of this still holds. *)
Theorem dma_call_safe d q c :
  star (sys_step outcome func err_ret) start (d, q) -> call_ok q c ->
  exists rc q', run_call q c = Ok (rc, q') /\
    ((rc = - EAGAIN \/ rc = - EINVAL) /\ q' = q \/
     rc = 0 /\ 0 <= tx_available q' <= tx_available q /\ sys_good tx_elem M (d, q')).
Proof.
  intros Hgood%reachable_good Hok.
  pose proof (sys_step_good outcome func err_ret tx_elem M (d, q)) as Hstep. pose proof Hgood as Hgood0.
  destruct Hgood as (infl & P & C & pend & dn & ann & unann & Hsys & _).
  destruct (run_call_spec q infl P C pend c (sys_dv _ _ _ _ _ _ _ _ _ Hsys) Hok)
    as [(rc & E & Hrc)|(q' & ws & E & Hinv & Hav & _)]; rewrite E; do 2 eexists; (split; [done|]).
  - left. done.
  - right. split; [done|]. split; [|by eapply Hstep; [|by eapply step_call]].
    pose proof (inv_avail _ _ _ _ _ Hinv). destruct (infl_bounds _ _ _ _ _ Hinv) as (Hb & _).
    apply Forall_app in Hb as [_ Hb]. pose proof (bb_total_nonneg _ Hb). lia.
Qed.

(** C24: In every state a created queue reaches, the device finds an intact entry whatever
    the doorbell record announces: as long as its index is not that of the doorbell record
    it can execute the next entry, and the completion it may write finds room in the
    completion queue, without overwriting an unread one. *)
Theorem device_never_stuck d q :
  star (sys_step outcome func err_ret) start (d, q) ->
  dev_ci d <> snd_dbr (dv_qp q) ->
  exists d' q', dev_step outcome d q = Some (d', q') /\ sys_good tx_elem M (d', q').
Proof.
  intros Hgood%reachable_good Hne.
  pose proof (sys_step_good outcome func err_ret tx_elem M (d, q)) as Hstep. pose proof Hgood as Hgood0.
  destruct Hgood as (infl & P & C & pend & dn & ann & unann & Hsys & _).
  pose proof (dev_step_spec (outcome := outcome) _ _ _ _ _ _ _ _ _ Hsys) as Hs.
  destruct ann as [|w ann].
  - exfalso. apply Hne. cbn [fst snd] in Hsys. rewrite (sys_ci _ _ _ _ _ _ _ _ _ Hsys), (sys_dbr _ _ _ _ _ _ _ _ _ Hsys). done.
  - destruct Hs as (d' & q' & pend' & E & _ & _). exists d', q'. split; [done|].
    eapply Hstep; [done|]. by eapply step_device.
Qed.

(** C18: The moderation of completions cannot stall the flush of a created queue whose inline
    data is at most 1052 bytes: in every reachable state unsignalled entries hold less than all
    the credits, so that a flush returns with the queue empty, when the completion functions
    that run during the flush post nothing and the device carries out what is announced to it
    between two polls.  (Functions that post in turn can keep a flush running for ever; those
    that ran before the flush may have posted.) *)
Theorem flush_always_completes d q :
  star (sys_step outcome func err_ret) start (d, q) -> 0 <= tx_elem <= 1052 ->
  let fuel := (Z.to_nat M + 2)%nat in
  exists n d' q',
    dv_dma_q_flush func_quiet (err_cb_of err_ret) (flush_env outcome) fuel fuel d q = Ok (n, d', q') /\
    snap_dma_q_empty q' = true.
Proof.
  intros Hgood%reachable_good Hel fuel.
  destruct Hgood as (infl & P & C & pend & dn & ann & unann & Hsys & HE & HM & Hout). cbn [fst snd] in *.
  pose proof (proj2 (q0_avail id mode flag tx_qsize rx_qsize tx_elem rx_elem opaque_seg Htx Hop)) as Hc.
  pose proof (inv_credit _ _ _ _ _ (sys_dv _ _ _ _ _ _ _ _ _ Hsys)) as Hcr.
  assert (entry_bb_max tx_elem <= 17) as Hmax.
  { unfold entry_bb_max, inline_bb, inline_size. rewrite round_up_eq by lia.
    Z.to_euclidean_division_equations. lia. }
  pose proof (inv_avail _ _ _ _ _ (sys_dv _ _ _ _ _ _ _ _ _ Hsys)) as Hav.
  destruct (infl_bounds _ _ _ _ _ (sys_dv _ _ _ _ _ _ _ _ _ Hsys)) as (Hb & _ & _).
  pose proof (length_le_bb _ Hb).
  destruct (flush_returns outcome err_ret fuel fuel d q infl P C pend dn ann unann)
    as (n & d' & q' & P' & C' & E & Hemp & _); [done|lia|unfold fuel; lia|unfold fuel; lia|].
  by exists n, d', q'.
Qed.
End reachable_props.

(** * Completions, reads and reconnection *)


(** A short read ([snap_dma_q_read_short]) on an idle queue delivers: once
    the device has executed it and scattered the data into the completion, a
    poll copies the data to the caller's buffer and reports the caller's
    completion. *)
Theorem read_short_delivers q P C buf len srcaddr rmkey c e :
  dv_inv q [] P C [] -> 1 <= tx_available q -> len <= 32 ->
  wqe_counter e = sq_pi (dv_qp q) -> has_flag (op_own e) MLX5_INLINE_SCATTER_32 = true -> cqe_valid e ->
  exists q1 q2,
    snap_dma_q_read_short q buf len srcaddr rmkey (Some c) = Ok (0, q1) /\
    dv_dma_q_get_comp q1 e = Ok (Some c, q2) /\
    scattered q2 = scattered q ++ [(buf, take (Z.to_nat (byte_cnt e)) (cqe_data e))] /\
    tx_available q2 = tx_available q.
Proof.
  intros Hinv Hav Hlen He Hsc Hv. unfold snap_dma_q_read_short, qp_can_tx.
  rewrite (proj2 (Z.ltb_ge 32 len)), (proj2 (Z.leb_le 1 (tx_available q))) by lia. cbn [negb].
  destruct (xfer_posted q P buf len 0 srcaddr rmkey MLX5_OPCODE_RDMA_READ MLX5_WQE_CTRL_CQ_UPDATE (Some c) false
              (inv_wf _ _ _ _ _ Hinv)) as (q1 & w & Hrun & Hpost & Hsame & Hbb & Hcomp & Hsig & Hpay); [by right|].
  unfold dv_dma_q_read_short. rewrite Hrun. cbn [res_bind charge Z.eqb negb].
  set (q1' := set_tx_available q1 (tx_available q1 - 1)).
  assert (tx_available q1 = tx_available q) as Hav1 by (by rewrite Hsame).
  pose proof (inv_wf _ _ _ _ _ Hinv) as Hwf. pose proof (qp_wf_cnt_pos _ _ Hwf) as Hc.
  destruct (posted_slot_new _ _ _ _ Hpost (wf_comps _ _ Hwf) Hc) as (s & Hs & Hn & Hsc' & Hsp); [by rewrite Hsig|].
  cbn [fst snd] in *. exists q1'. unfold dv_dma_q_get_comp. cbn [q1' set_tx_available dv_qp].
  rewrite He, (po_cnt _ _ _ _ Hpost), (qp_wf_index _ _ Hwf).
  unfold slot_of in Hs. rewrite (po_pos _ _ _ _ Hpost), (po_cnt _ _ _ _ Hpost) in Hs. rewrite Hs.
  cbn [of_option res_bind]. rewrite Hsc, (Hsp buf) by (by rewrite Hpay).
  eexists. split; [done|]. rewrite Hsc', Hcomp. split; [done|].
  cbn [set_dv_qp add_scattered set_tx_available scattered tx_available].
  change (scattered q1') with (scattered q1). change (tx_available q1') with (tx_available q1 - 1).
  split; [by rewrite Hsame|]. rewrite Hn, Hbb, (inv_tail _ _ _ _ _ Hinv). cbn. lia.
Qed.

(** A write posted right after a reconnection: its slot counts the unsignalled
    blocks from before. *)
Lemma reconnect_posted q P buf len lkey dst rkey c :
  qp_wf (dv_qp q) P ->
  exists q1 s,
    do_dv_dma_xfer (ep_reconnect_q q) buf len lkey dst rkey MLX5_OPCODE_RDMA_WRITE 0 (Some c) false = Ok (0, q1) /\
    sq_wqe_cnt (dv_qp q1) = sq_wqe_cnt (dv_qp q) /\
    comps (dv_qp q1) !! 0%nat = Some s /\ slot_n_outstanding s = n_outstanding (dv_qp q) + 1 /\
    slot_comp s = Some c /\ q_same (ep_reconnect_q q) q1.
Proof.
  intros Hwf. pose proof (qp_wf_cnt_pos _ _ Hwf) as Hc. destruct Hwf as [(k & Hk & Hcnt) Hcomps Hbuf Hop [HP Hpi] Hdb].
  set (qr := ep_reconnect_q q). unfold do_dv_dma_xfer.
  assert (next_bb (dv_qp qr) = 0%nat) as Hbb by done. rewrite Hbb.
  set (fm := Z.lor (u8 0) (snap_dv_get_cq_update (dv_qp qr) (Some c))). set (ct := mk_ctrl _ _ _ fm _ _).
  destruct (put_xfer_written (sq_buf (dv_qp qr)) 0 ct dst rkey (u32 len) lkey buf) as (b & Hb & _).
  { cbn. rewrite Hbuf. unfold MLX5_SEND_WQE_BB. lia. }
  rewrite Hb. cbn [of_option res_bind].
  destruct (submit_fields (set_dv_qp qr (set_sq (dv_qp qr) (sq_pi (dv_qp qr)) b)) 0)
    as (Hsame & Epi & Ecnt & _ & Ecomps & Eout & _).
  set (q1 := snap_dv_wqe_submit _ _) in *.
  cbn [set_dv_qp set_sq dv_qp qr ep_reconnect_q set_tx_available set_pending_db sq_pi sq_wqe_cnt comps n_outstanding] in Epi, Ecnt, Ecomps, Eout.
  rewrite Epi, Ecnt, Hcnt. change (Z.land (u16 (0 + 1) - 1) (2 ^ k - 1)) with (Z.land 0 (2 ^ k - 1)). rewrite Z.land_0_l.
  destruct (comps (dv_qp q)) as [|s0 l0] eqn:El; [cbn in Hcomps; lia|].
  unfold snap_dv_set_comp. rewrite Ecomps. cbn [lookup list_lookup Z.to_nat of_option res_bind].
  assert (has_flag fm MLX5_WQE_CTRL_CQ_UPDATE = true) as Hfm.
  { subst fm. rewrite cq_update_sig. cbn. done. }
  rewrite cq_update_test, Hfm. cbn [negb res_bind Z.eqb].
  do 2 eexists. split; [done|]. cbn [dv_qp set_dv_qp set_comps sq_wqe_cnt comps].
  split; [by rewrite Ecnt|]. split; [done|]. split; [by rewrite Eout|]. split; [done|].
  unfold q_same in *. rewrite Hsame. by destruct q.
Qed.

(** [snap_dma_ep_reconnect] resets the producer index and the credits of a
    queue, but not its count of unsignalled blocks: the first completion after
    the reconnection returns those credits again, and the queue then believes
    it has more credits than it has blocks. *)
Theorem reconnect_inflates_credits q infl P C pend buf len lkey dst rkey c e :
  dv_inv q infl P C pend -> q_mode q = SNAP_DMA_Q_MODE_DV ->
  1 <= snap_dma_q_dv_get_tx_avail_max q -> wqe_counter e = 0 ->
  exists q1 q2,
    snap_dma_q_write (ep_reconnect_q q) buf len lkey dst rkey (Some c) = Ok (0, q1) /\
    dv_dma_q_get_comp q1 e = Ok (Some c, q2) /\
    tx_available q2 = snap_dma_q_dv_get_tx_avail_max q2 + n_outstanding (dv_qp q).
Proof.
  intros Hinv Hmode Hmax He. set (qr := ep_reconnect_q q).
  pose proof (inv_wf _ _ _ _ _ Hinv) as Hwf0.
  unfold snap_dma_q_write, qp_can_tx. cbn [qr ep_reconnect_q set_tx_available tx_available q_mode set_dv_qp].
  rewrite (proj2 (Z.leb_le 1 (snap_dma_q_dv_get_tx_avail_max q))), Hmode by lia. cbn [negb].
  fold (ep_reconnect_q q). fold qr.
  destruct (reconnect_posted q P buf len lkey dst rkey c Hwf0) as (q1 & s & Hrun & Hcnt & Hs & Hn & Hsc & Hsame).
  fold qr in Hrun, Hsame. unfold dv_dma_q_write. rewrite Hrun. cbn [res_bind charge Z.eqb negb].
  exists (set_tx_available q1 (tx_available q1 - 1)).
  unfold dv_dma_q_get_comp. cbn [set_tx_available dv_qp tx_available]. rewrite He, Hcnt.
  replace (Z.land 0 (sq_wqe_cnt (dv_qp q) - 1)) with 0 by (by rewrite Z.land_0_l).
  change (Z.to_nat 0) with 0%nat. rewrite Hs.
  cbn [of_option res_bind]. assert (tx_available q1 = snap_dma_q_dv_get_tx_avail_max q) as Hav by (by rewrite Hsame).
  assert (dv_tx_cq q1 = dv_tx_cq q) as Hcq by (by rewrite Hsame).
  destruct (has_flag (op_own e) MLX5_INLINE_SCATTER_32), (slot_read_payload s);
    rewrite Hsc; eexists; (split; [done|]); (split; [done|]);
    unfold snap_dma_q_dv_get_tx_avail_max in *;
    cbn [set_dv_qp add_scattered set_tx_available set_comps tx_available dv_qp dv_tx_cq sq_wqe_cnt];
    rewrite Hcnt, Hcq, Hav, Hn; lia.
Qed.

(** * Concrete queues *)

(** A client that makes one call after the other. *)
Fixpoint run_calls (q : snap_dma_q) (cs : list dma_call) : res snap_dma_q :=
  match cs with
  | [] => Ok q
  | c :: cs' => let? '(_, q) := run_call q c in run_calls q cs'
  end.

Lemma run_calls_star outcome `{!Outcome outcome} func `{!CompFunc func} err_ret E M d : forall cs q q',
  run_calls q cs = Ok q' -> Forall (fun c => forall q, tx_elem_size q = E -> call_ok q c) cs ->
  sys_good E M (d, q) -> star (sys_step outcome func err_ret) (d, q) (d, q').
Proof.
  induction cs as [|c cs IH]; intros q q' Hrun Hcs Hgood; cbn [run_calls] in Hrun.
  { injection Hrun as <-. constructor. }
  inversion_clear Hcs as [|? ? Hc Hcs'].
  assert (tx_elem_size q = E) as HE by (by destruct Hgood as (? & ? & ? & ? & ? & ? & ? & _ & HE & _)).
  destruct (run_call q c) as [[rc q1]| | |] eqn:E1; [|discriminate Hrun..]. cbn [res_bind] in Hrun.
  assert (sys_step outcome func err_ret (d, q) (d, q1)) as Hstep by (eapply step_call; [by apply Hc|done]).
  eapply star_step; [done|]. apply (IH q1 q' Hrun Hcs'). by eapply sys_step_good.
Qed.

Definition ex_opaque : list memval := replicate 16 (Byte 0).
Definition ex_q (tx_elem : Z) : snap_dma_q :=
  q0 0 SNAP_DMA_Q_MODE_DV SNAP_DB_RING_IMM 16 16 tx_elem 64 ex_opaque.

(** The state after some calls. *)
Definition after (q : snap_dma_q) (cs : list dma_call) : snap_dma_q :=
  match run_calls q cs with Ok q' => q' | _ => q end.

Definition is_ok {A} (r : res A) : bool := match r with Ok _ => true | _ => false end.

Lemma after_eq q cs : is_ok (run_calls q cs) = true -> run_calls q cs = Ok (after q cs).
Proof. unfold after. by destruct (run_calls q cs). Qed.

Definition ex_write (comp : option nat) : dma_call := CallWrite 4096 512 1 65536 2 comp.
Definition ex_calls : list dma_call := [ex_write None; ex_write (Some 3%nat)].

Notation ex_step := (sys_step outcome_ok func_quiet None).

Lemma ex_reach : star ex_step (mk_dev 0 0, ex_q 64) (mk_dev 0 0, after (ex_q 64) ex_calls).
Proof.
  apply (run_calls_star outcome_ok func_quiet None 64 (credits 16) _ ex_calls).
  - apply after_eq. vm_compute. reflexivity.
  - repeat constructor.
  - apply q0_good; [lia|reflexivity].
Qed.

Lemma dma_reachable_inv_witness :
  exists infl P C pend dn ann unann,
    sys_inv (mk_dev 0 0) (after (ex_q 64) ex_calls) infl P C pend dn ann unann /\
    tx_available (after (ex_q 64) ex_calls) + bb_total infl = credits 16 /\
    n_outstanding (dv_qp (after (ex_q 64) ex_calls)) <= 14 + entry_bb_max 64.
Proof.
  apply (dma_reachable_inv outcome_ok func_quiet None 0 SNAP_DMA_Q_MODE_DV SNAP_DB_RING_IMM 16 16 64 64 ex_opaque);
    [lia|reflexivity|apply ex_reach].
Defined.

Lemma dma_call_safe_witness :
  exists rc q', run_call (after (ex_q 64) ex_calls) (CallSendCompletion (replicate 64 (Byte 7)) 64) = Ok (rc, q') /\
    ((rc = - EAGAIN \/ rc = - EINVAL) /\ q' = after (ex_q 64) ex_calls \/
     rc = 0 /\ 0 <= tx_available q' <= tx_available (after (ex_q 64) ex_calls) /\
     sys_good 64 (credits 16) (mk_dev 0 0, q')).
Proof.
  apply (dma_call_safe outcome_ok func_quiet None 0 SNAP_DMA_Q_MODE_DV SNAP_DB_RING_IMM 16 16 64 64 ex_opaque);
    [lia|reflexivity|apply ex_reach|vm_compute; intuition discriminate].
Defined.

Lemma device_never_stuck_witness :
  exists d' q', dev_step outcome_ok (mk_dev 0 0) (after (ex_q 64) ex_calls) = Some (d', q') /\
    sys_good 64 (credits 16) (d', q').
Proof.
  apply (device_never_stuck outcome_ok func_quiet None 0 SNAP_DMA_Q_MODE_DV SNAP_DB_RING_IMM 16 16 64 64 ex_opaque);
    [lia|reflexivity|apply ex_reach|vm_compute; discriminate].
Defined.

Lemma flush_always_completes_witness :
  exists n d' q',
    dv_dma_q_flush func_quiet (err_cb_of None) (flush_env outcome_ok) (Z.to_nat (credits 16) + 2)
      (Z.to_nat (credits 16) + 2) (mk_dev 0 0) (after (ex_q 64) ex_calls) = Ok (n, d', q') /\
    snap_dma_q_empty q' = true.
Proof.
  apply (flush_always_completes outcome_ok func_quiet None 0 SNAP_DMA_Q_MODE_DV SNAP_DB_RING_IMM 16 16 64 64 ex_opaque);
    [lia|reflexivity|apply ex_reach|lia].
Defined.

(** 14 unsignalled writes and 1100 bytes of inline data hold all the 32 credits
    of a queue created with 16 entries. *)
Definition stall_calls : list dma_call :=
  replicate 14 (ex_write None) ++ [CallWriteShort (replicate 1100 (Byte 0)) 1100 65536 2].

Lemma flush_deadlock_witness :
  dv_dma_q_flush func_quiet (err_cb_of None) (flush_env outcome_ok) 1000 1000
    (mk_dev 0 0) (after (ex_q 1100) stall_calls) = OutOfFuel.
Proof.
  assert (star ex_step (mk_dev 0 0, ex_q 1100) (mk_dev 0 0, after (ex_q 1100) stall_calls)) as Hr.
  { apply (run_calls_star outcome_ok func_quiet None 1100 (credits 16) _ stall_calls).
    - apply after_eq. vm_compute. reflexivity.
    - unfold stall_calls. apply Forall_app. split; [by apply Forall_replicate|].
      constructor; [|constructor]. intros q Hq. cbn [call_ok]. rewrite length_replicate. lia.
    - apply q0_good; [lia|reflexivity]. }
  destruct (dma_reach_sys outcome_ok func_quiet None 0 SNAP_DMA_Q_MODE_DV SNAP_DB_RING_IMM 16 16 1100 64 ex_opaque
              ltac:(lia) eq_refl _ _ Hr) as (infl & P & C & pend & dn & ann & unann & Hsys & HM).
  apply (flush_deadlock outcome_ok None 1000 1000 _ _ infl P C pend dn ann unann Hsys).
  - vm_compute. reflexivity.
  - destruct (infl_bounds _ _ _ _ _ (sys_dv _ _ _ _ _ _ _ _ _ Hsys)) as (Hb & _ & _).
    pose proof (length_le_bb _ Hb). pose proof (inv_avail _ _ _ _ _ (sys_dv _ _ _ _ _ _ _ _ _ Hsys)).
    change (credits 16) with 32 in HM. lia.
Defined.

(** The device has carried out both entries and completed the second, which was signalled. *)
Definition ex_done : device * snap_dma_q := dev_run outcome_ok 2 (mk_dev 0 0) (after (ex_q 64) ex_calls).
Lemma ex_done_reach : star ex_step (mk_dev 0 0, ex_q 64) ex_done.
Proof. apply (star_trans _ _ (mk_dev 0 0, after (ex_q 64) ex_calls)); [apply ex_reach|apply dev_run_star]. Qed.


Lemma read_short_delivers_witness :
  exists q1 q2,
    snap_dma_q_read_short (ex_q 64) 4096 4 65536 2 (Some 5%nat) = Ok (0, q1) /\
    dv_dma_q_get_comp q1 (mk_cqe 4 0 4 0 0 0 (replicate 32 (Byte 9))) = Ok (Some 5%nat, q2) /\
    scattered q2 = scattered (ex_q 64) ++ [(4096, replicate 4 (Byte 9))] /\
    tx_available q2 = tx_available (ex_q 64).
Proof.
  apply (read_short_delivers (ex_q 64) 0 0 4096 4 65536 2 5 (mk_cqe 4 0 4 0 0 0 (replicate 32 (Byte 9))));
    [apply q0_inv; [lia|reflexivity]|vm_compute; discriminate|lia|reflexivity|reflexivity|discriminate].
Defined.

Lemma reconnect_inflates_credits_witness :
  exists q1 q2,
    snap_dma_q_write (ep_reconnect_q (after (ex_q 64) [ex_write None])) 0 8 1 0 2 (Some 3%nat) = Ok (0, q1) /\
    dv_dma_q_get_comp q1 (mk_cqe 0 0 0 0 0 0 []) = Ok (Some 3%nat, q2) /\
    tx_available q2 = snap_dma_q_dv_get_tx_avail_max q2 + n_outstanding (dv_qp (after (ex_q 64) [ex_write None])).
Proof.
  assert (star ex_step (mk_dev 0 0, ex_q 64) (mk_dev 0 0, after (ex_q 64) [ex_write None])) as Hr.
  { apply (run_calls_star outcome_ok func_quiet None 64 (credits 16) _ [ex_write None]).
    - apply after_eq. vm_compute. reflexivity.
    - repeat constructor.
    - apply q0_good; [lia|reflexivity]. }
  destruct (dma_reach_sys outcome_ok func_quiet None 0 SNAP_DMA_Q_MODE_DV SNAP_DB_RING_IMM 16 16 64 64 ex_opaque
              ltac:(lia) eq_refl _ _ Hr) as (infl & P & C & pend & dn & ann & unann & Hsys & HM).
  eapply reconnect_inflates_credits;
    [apply (sys_dv _ _ _ _ _ _ _ _ _ Hsys)|reflexivity|vm_compute; discriminate|reflexivity].
Defined.
