(* ===== verification/DpMap.v ===== *)
(** Dirty-page tracking of live migration: src/ctrl/snap_dp_map.c.

    [PageTable] is what the page set needs of the khash table it is kept in
    (src/src/khash.h), with its laws; [Section PageSet] models the set of dirty
    pages the controller accumulates ([snap_dp_map_add_range]) and reports
    ([snap_dp_map_serialize], [snap_dp_map_serialize_sort]); [Section Bmap] the
    byte or bit map that lives in host memory ([snap_dp_bmap_*]).  The spin lock
    that makes every operation of the page set atomic is not modelled: each
    operation is one step. *)

From stdpp Require Import sorting gmap.
From S2P Require Import Prelude.

(** * The table of pages

    [kh_keys] lists the keys in the order of the buckets, which is the order the
    iterations of the code follow; [kh_put] returns the new table and khash's
    result, [-1] when the table cannot grow; [kh_del] deletes a key that is
    present. *)

Class PageTable (T : Type) := {
  kh_empty : T;
  kh_keys : T -> list Z;
  kh_put : T -> Z -> T * Z;
  kh_del : T -> Z -> T;
}.

Class PageTableLaws (T : Type) `{PageTable T} : Prop := {
  kh_keys_empty : kh_keys kh_empty = [];
  kh_keys_NoDup t : NoDup (kh_keys t);
  kh_put_fails t k t' : kh_put t k = (t', -1) -> kh_keys t' ≡ₚ kh_keys t;
  kh_put_present t k t' r :
    kh_put t k = (t', r) -> r <> -1 -> k ∈ kh_keys t -> kh_keys t' ≡ₚ kh_keys t;
  kh_put_absent t k t' r :
    kh_put t k = (t', r) -> r <> -1 -> k ∉ kh_keys t -> kh_keys t' ≡ₚ k :: kh_keys t;
  kh_del_present t k : k ∈ kh_keys t -> kh_keys t ≡ₚ k :: kh_keys (kh_del t k);
}.

(** * The page set *)

Section PageSet.
Context {T : Type} `{PageTable T}.

Record snap_dp_map := mk_dp_map { dp_set : T; page_size : Z }.

(** [calloc] is the answer of the allocator. *)
Definition snap_dp_map_create (calloc : bool) (page_size : Z) : option snap_dp_map :=
  if negb (SNAP_IS_POW2 page_size) || (page_size <=? 1) then None
  else if calloc then Some (mk_dp_map kh_empty page_size) else None.

(** The loop of [snap_dp_map_add_range]; [last] is the value of [pa + length]. *)
Fixpoint add_range_loop (fuel : nat) (set : T) (page last psz : Z) : res (T * Z) :=
  if page <? last then
    match fuel with
    | O => OutOfFuel
    | S fuel' =>
        let '(set', ret) := kh_put set page in
        if ret =? -1 then Ok (set', ret)
        else add_range_loop fuel' set' (u64 (page + psz)) last psz
    end
  else Ok (set, 0).

Definition snap_dp_map_add_range (map : snap_dp_map) (pa length : Z) : res (snap_dp_map * Z) :=
  let psz := page_size map in
  let? r := add_range_loop (Z.to_nat (length / psz + 2)) (dp_set map)
              (Z.land pa (u64 (Z.lnot (psz - 1)))) (u64 (pa + length)) psz in
  Ok (mk_dp_map (fst r) psz, snd r).

Definition in_range (pa length page : Z) : bool :=
  negb ((u64 (pa + length) <=? page) || (page <? pa)).

Definition del_keys (set : T) (l : list Z) : T := fold_left kh_del l set.

(** [calloc n] is the answer of the allocator for the temporary buffer.  The
    result is the map, the value returned and the contents of the buffer. *)
Definition snap_dp_map_serialize_sort (calloc : Z -> bool) (map : snap_dp_map)
    (pa length buf_len : Z) : snap_dp_map * Z * list Z :=
  let found := base.filter (fun page => in_range pa length page = true) (kh_keys (dp_set map)) in
  let i := Z.of_nat (List.length found) in
  if (buf_len <? i * 8) && negb (calloc i) then (map, -1, [])
  else
    let sorted := merge_sort Z.le found in
    let j := snap_min (buf_len / 8) i in
    let out := take (Z.to_nat j) sorted in
    (mk_dp_map (del_keys (dp_set map) out) (page_size map), j, out).

Definition snap_dp_map_get_size (map : snap_dp_map) : Z :=
  u64 (Z.of_nat (List.length (kh_keys (dp_set map))) * 8).

(** [kh_del] on the bucket the iteration stands on does not move the others, so
    the loop takes the first keys of the initial order. *)
Definition snap_dp_map_serialize (map : snap_dp_map) (length : Z) : snap_dp_map * Z * list Z :=
  let nelems := length / 8 in
  let out := take (Z.to_nat nelems) (kh_keys (dp_set map)) in
  (mk_dp_map (del_keys (dp_set map) out) (page_size map), Z.of_nat (List.length out), out).

End PageSet.
Arguments snap_dp_map : clear implicits.

(** * The host byte or bit map *)

Record snap_vq_adm_sge := mk_sge { sge_addr : Z; sge_len : Z }.

Record snap_dp_bmap := mk_bmap {
  sge_list : list snap_vq_adm_sge;
  bmap_page_size : Z;
  is_bytemap : bool;
  start_pa : Z;
  host_key : Z;
}.

(** [calloc] and [malloc] are the answers of the allocator for the map and for
    the copy of the list. *)
Definition snap_dp_bmap_create (calloc malloc : bool) (sges : list snap_vq_adm_sge)
    (psz : Z) (bytemap : bool) : option snap_dp_bmap :=
  if negb (SNAP_IS_POW2 psz) || (psz <=? 1) then None
  else if negb calloc then None
  else if negb malloc then None
  else Some (mk_bmap sges psz bytemap 0 0).

Definition snap_dp_bmap_set_mkey (map : snap_dp_bmap) (mkey : Z) : snap_dp_bmap :=
  mk_bmap (sge_list map) (bmap_page_size map) (is_bytemap map) (start_pa map) mkey.

Definition snap_dp_bmap_get_mkey (map : snap_dp_bmap) : Z := host_key map.

Definition snap_dp_bmap_range_size (map : snap_dp_bmap) (pa length : Z) : Z :=
  let psz := bmap_page_size map in
  let start_page := SNAP_ALIGN_FLOOR pa psz in
  let end_page := SNAP_ALIGN_CEIL (u64 (pa + length)) psz in
  let range_size := u32 (u64 (end_page - start_page) / psz) in
  if is_bytemap map then range_size else u32 (u32 (8 + range_size) - 1) / 8.

Definition snap_dp_bmap_size_to_len (map : snap_dp_bmap) (size : Z) : Z :=
  if is_bytemap map then size else u32 (8 * size).

(** The search for the entry that holds the page: the entry, the guest address
    its range starts at and the length of the range. *)
Fixpoint bmap_find (map : snap_dp_bmap) (sges : list snap_vq_adm_sge) (range_pa start_page : Z)
    : option (snap_vq_adm_sge * Z * Z) :=
  match sges with
  | [] => None
  | sge :: sges' =>
      let range_len := u64 (bmap_page_size map * snap_dp_bmap_size_to_len map (sge_len sge)) in
      if (range_pa <=? start_page) && (start_page <? u64 (range_pa + range_len))
      then Some (sge, range_pa, range_len)
      else bmap_find map sges' (u64 (range_pa + range_len)) start_page
  end.

(** The returned length and, when the page was found, the outputs [*start_pa],
    [*byte_offset] and [*size], which stay unset otherwise. *)
Definition snap_dp_bmap_get_start_pa (map : snap_dp_bmap) (pa length : Z)
    : Z * option (Z * Z * Z) :=
  let psz := bmap_page_size map in
  let start_page := SNAP_ALIGN_FLOOR pa psz in
  match bmap_find map (sge_list map) (start_pa map) start_page with
  | None => (0, None)
  | Some (sge, range_pa, range_len) =>
      let inside := u64 (pa + length) <? u64 (range_pa + range_len) in
      let size := if inside then snap_dp_bmap_range_size map pa length
                  else snap_dp_bmap_range_size map pa (u32 (range_len - pa)) in
      let ret_len := if inside then length else range_len in
      let page := u64 (start_page - range_pa) / psz in
      let start := if is_bytemap map then u64 (sge_addr sge + page)
                   else u64 (sge_addr sge + page / 8) in
      let offset := if is_bytemap map then 0 else Z.land page 7 in
      (u32 ret_len, Some (start, offset, size))
  end.

(** * The page set: lemmas *)

Section PageSetLemmas.
Context {T : Type} `{PageTable T} `{!PageTableLaws T}.

(** A put that does not fail adds its key and nothing else. *)
Lemma kh_put_elem t k t' r p :
  kh_put t k = (t', r) -> r <> -1 -> p ∈ kh_keys t' <-> p = k \/ p ∈ kh_keys t.
Proof.
  intros Hput Hr. destruct (decide (k ∈ kh_keys t)) as [Hin|Hout].
  - rewrite (kh_put_present _ _ _ _ Hput Hr Hin). naive_solver.
  - rewrite (kh_put_absent _ _ _ _ Hput Hr Hout). set_solver.
Qed.

Lemma del_keys_perm l : forall t,
  NoDup l -> l ⊆ kh_keys t -> kh_keys t ≡ₚ l ++ kh_keys (del_keys t l).
Proof.
  induction l as [|k l IH]; intros t Hnd Hsub; [done|].
  apply NoDup_cons in Hnd as [Hk Hnd]. cbn [del_keys fold_left].
  assert (kh_keys t ≡ₚ k :: kh_keys (kh_del t k)) as Hperm by (apply kh_del_present; set_solver).
  rewrite Hperm. cbn [app]. f_equiv. apply IH; [done|].
  intros p Hp. specialize (Hsub p). rewrite Hperm in Hsub. set_solver.
Qed.

Lemma page_step page psz p :
  0 < psz -> page mod psz = 0 -> p mod psz = 0 -> page <= p -> p = page \/ page + psz <= p.
Proof.
  intros Hpsz Hp1 Hp2 Hle. apply Z.mod_divide in Hp1 as [a ->]; [|lia].
  apply Z.mod_divide in Hp2 as [b ->]; [|lia]. destruct (decide (a = b)) as [->|]; [by left|right].
  nia.
Qed.

(** The pages of the range [page, last) are added, and only they. *)
Lemma add_range_loop_spec psz last (Hpsz : 0 < psz) (Hlast : last + psz <= 2 ^ 64) :
  forall fuel set page,
  0 <= page -> page mod psz = 0 -> last - page <= Z.of_nat fuel * psz ->
  exists set' r, add_range_loop fuel set page last psz = Ok (set', r) /\ (r = 0 \/ r = -1) /\
    (forall p, p ∈ kh_keys set -> p ∈ kh_keys set') /\
    (forall p, p ∈ kh_keys set' -> p ∈ kh_keys set \/ page <= p < last /\ p mod psz = 0) /\
    (r = 0 -> forall p, page <= p < last -> p mod psz = 0 -> p ∈ kh_keys set').
Proof.
  induction fuel as [|fuel IH]; intros set page Hpage Hmod Hfuel; cbn [add_range_loop].
  - destruct (Z.ltb_spec page last); [lia|]. exists set, 0. split_and!; auto. lia.
  - destruct (Z.ltb_spec page last) as [Hlt|Hge].
    2:{ exists set, 0. split_and!; auto. lia. }
    destruct (kh_put set page) as [set1 r1] eqn:Hput.
    destruct (Z.eqb_spec r1 (-1)) as [->|Hr1].
    + pose proof (kh_put_fails _ _ _ Hput) as Hperm. exists set1, (-1).
      split_and!; auto; [intros p; by rewrite Hperm|intros p; rewrite Hperm; auto|lia].
    + rewrite u64_small by lia.
      destruct (IH set1 (page + psz)) as (set' & r & -> & Hr & Hkeep & Honly & Hall); [lia| |lia|].
      { rewrite Z.add_mod, Hmod, Z.mod_same by lia. by rewrite Z.mod_0_l by lia. }
      exists set', r. split; [done|]. split; [done|]. split_and!.
      * intros p Hp. apply Hkeep. rewrite (kh_put_elem _ _ _ _ _ Hput Hr1). auto.
      * intros p [Hp|[Hp Hpm]]%Honly; [|right; split; [lia|done]].
        rewrite (kh_put_elem _ _ _ _ _ Hput Hr1) in Hp. destruct Hp as [->|Hp]; [right; split; [lia|done]|auto].
      * intros Hr0 p Hp Hpm. destruct (page_step page psz p) as [->|]; [lia|done|done|lia| |].
        -- apply Hkeep. rewrite (kh_put_elem _ _ _ _ _ Hput Hr1). auto.
        -- apply Hall; [done|lia|done].
Qed.

(** The first page of a range, as the code masks it. *)
Lemma first_page_spec pa k :
  0 <= pa < 2 ^ 64 -> 0 <= k < 64 ->
  let page := Z.land pa (u64 (Z.lnot (2 ^ k - 1))) in
  page = pa / 2 ^ k * 2 ^ k /\ 0 <= page <= pa /\ pa < page + 2 ^ k /\ page mod 2 ^ k = 0.
Proof.
  intros Hpa Hk. assert (0 < 2 ^ k) by (apply Z.pow_pos_nonneg; lia).
  assert (2 ^ k < 2 ^ 64) by (apply Z.pow_lt_mono_r; lia).
  assert (Z.land pa (u64 (Z.lnot (2 ^ k - 1))) = pa / 2 ^ k * 2 ^ k) as ->.
  { rewrite <- SNAP_ALIGN_FLOOR_pow2 by lia. unfold SNAP_ALIGN_FLOOR. by rewrite (u64_small (2 ^ k - 1)) by lia. }
  cbv zeta. pose proof (Z.mod_pos_bound pa (2 ^ k)). pose proof (Z.div_mod pa (2 ^ k)).
  split_and!; try lia. 
  - apply Z.mul_nonneg_nonneg; [apply Z.div_pos|]; lia.
  - apply Z.mod_mul. lia.
Qed.

(** [snap_dp_map_add_range] on a range that does not reach the last page of the
    address space: it returns, and adds the pages of the range and nothing else
    unless the table cannot grow. *)
Lemma add_range_ok map pa length k :
  page_size map = 2 ^ k -> 0 <= k < 32 -> 0 <= pa -> 0 <= length -> pa + length + 2 ^ k <= 2 ^ 64 ->
  exists map' r, snap_dp_map_add_range map pa length = Ok (map', r) /\ page_size map' = page_size map /\
    (r = 0 \/ r = -1) /\
    (forall p, p ∈ kh_keys (dp_set map) -> p ∈ kh_keys (dp_set map')) /\
    (forall p, p ∈ kh_keys (dp_set map') ->
       p ∈ kh_keys (dp_set map) \/ pa / 2 ^ k * 2 ^ k <= p < pa + length /\ p mod 2 ^ k = 0) /\
    (r = 0 -> forall p, pa / 2 ^ k * 2 ^ k <= p < pa + length -> p mod 2 ^ k = 0 ->
       p ∈ kh_keys (dp_set map')).
Proof.
  intros Hpsz Hk Hpa Hlen Hmax. assert (0 < 2 ^ k) by (apply Z.pow_pos_nonneg; lia).
  unfold snap_dp_map_add_range. rewrite Hpsz, (u64_small (pa + length)) by lia.
  destruct (first_page_spec pa k) as (Heq & Hge & Hlt & Hmod); [lia|lia|].
  destruct (add_range_loop_spec (2 ^ k) (pa + length) ltac:(lia) ltac:(lia)
    (Z.to_nat (length / 2 ^ k + 2)) (dp_set map) (Z.land pa (u64 (Z.lnot (2 ^ k - 1)))))
    as (set' & r & Hrun & Hr & Hkeep & Honly & Hall); [lia|done| |].
  { pose proof (Z.div_mod length (2 ^ k)). pose proof (Z.mod_pos_bound length (2 ^ k)).
    pose proof (Z.div_pos length (2 ^ k)). rewrite Z2Nat.id by lia. lia. }
  rewrite Hrun. cbn [res_bind fst snd]. exists (mk_dp_map set' (2 ^ k)), r. rewrite Heq in *.
  split_and!; auto.
Qed.

(** What is taken from the front of a sorted list is below the rest. *)
Lemma take_below_drop n l p q :
  Sorted Z.le l -> NoDup l -> p ∈ take n l -> q ∈ drop n l -> p < q.
Proof.
  intros Hs Hnd Hp Hq. apply (Sorted_StronglySorted Z.le) in Hs. rewrite <- (take_drop n l) in Hs, Hnd.
  pose proof (StronglySorted_app_1_elem_of _ _ _ _ _ Hs Hp Hq).
  apply NoDup_app in Hnd as (_ & Hdisj & _). destruct (decide (p = q)) as [->|]; [|lia]. by destruct (Hdisj q).
Qed.

Lemma Sorted_take n l : Sorted Z.le l -> Sorted Z.le (take n l).
Proof.
  intros Hs. apply (Sorted_StronglySorted Z.le) in Hs. rewrite <- (take_drop n l) in Hs.
  by apply StronglySorted_app_1_l, StronglySorted_Sorted in Hs.
Qed.

(** Deleting the first keys of a sorted selection leaves the rest of it. *)
Lemma del_selected (P : Z -> bool) t sorted n (out := take n sorted) :
  sorted ≡ₚ base.filter (fun p => P p = true) (kh_keys t) ->
  NoDup sorted /\ Forall (fun p => P p = true) out /\
  kh_keys t ≡ₚ out ++ kh_keys (del_keys t out) /\
  (forall p, p ∈ kh_keys (del_keys t out) -> P p = true -> p ∈ drop n sorted).
Proof.
  intros Hperm. pose proof (kh_keys_NoDup t) as Hnk.
  assert (NoDup sorted) as Hnds by (rewrite Hperm; by apply NoDup_filter).
  assert (forall p, p ∈ out -> p ∈ kh_keys t /\ P p = true) as Hin.
  { intros p Hp. assert (p ∈ sorted) as Hs by (rewrite <- (take_drop n); apply elem_of_app; by left).
    rewrite Hperm in Hs. apply list_elem_of_filter in Hs. tauto. }
  assert (kh_keys t ≡ₚ out ++ kh_keys (del_keys t out)) as Hkeys.
  { apply del_keys_perm; [|intros p Hp; by apply Hin].
    rewrite <- (take_drop n sorted) in Hnds. apply NoDup_app in Hnds as (Hndt & _). exact Hndt. }
  split_and!; [done|apply Forall_forall; intros p Hp; by apply Hin|done|].
  intros p Hp HP. assert (p ∈ sorted) as Hps.
  { rewrite Hperm. apply list_elem_of_filter. split; [done|]. rewrite Hkeys. set_solver. }
  rewrite <- (take_drop n sorted) in Hps. apply elem_of_app in Hps as [Hps|Hps]; [|done].
  rewrite Hkeys in Hnk. apply NoDup_app in Hnk. set_solver.
Qed.

(** The pages returned are the lowest ones of the range, in order, and leave the
    set; what stays of the range did not fit in the buffer. *)
Lemma serialize_sort_ok calloc map pa length buf_len map' n out :
  snap_dp_map_serialize_sort calloc map pa length buf_len = (map', n, out) -> 0 <= buf_len -> n <> -1 ->
  n = Z.of_nat (List.length out) /\ 8 * n <= buf_len /\ Sorted Z.le out /\
  kh_keys (dp_set map) ≡ₚ out ++ kh_keys (dp_set map') /\
  Forall (fun p => in_range pa length p = true) out /\
  (forall p q, p ∈ kh_keys (dp_set map') -> in_range pa length p = true -> q ∈ out -> q < p) /\
  (forall p, p ∈ kh_keys (dp_set map') -> in_range pa length p = true -> n = buf_len / 8).
Proof.
  unfold snap_dp_map_serialize_sort.
  set (found := base.filter (fun p => in_range pa length p = true) (kh_keys (dp_set map))).
  set (sorted := merge_sort Z.le found). set (j := snap_min _ _).
  destruct (_ && _); [intros [= <- <- <-]; lia|]. intros [= <- <- <-] Hbuf Hn. cbn [dp_set].
  assert (sorted ≡ₚ found) as Hperm by apply merge_sort_Permutation.
  assert (Sorted Z.le sorted) as Hsorted by apply (Sorted_merge_sort Z.le).
  assert (0 <= j <= Z.of_nat (List.length sorted) /\ 8 * j <= buf_len /\
          (j < Z.of_nat (List.length sorted) -> j = buf_len / 8)) as (Hj1 & Hj2 & Hj3).
  { unfold j, snap_min. rewrite Hperm. pose proof (Z.div_mod buf_len 8). pose proof (Z.mod_pos_bound buf_len 8).
    destruct (Z.ltb_spec (buf_len / 8) (Z.of_nat (List.length found))); lia. }
  destruct (del_selected (in_range pa length) (dp_set map) sorted (Z.to_nat j) Hperm) as (Hnd & Hall & Hkeys & Hrest).
  split_and!; [rewrite length_take; lia|lia|by apply Sorted_take|done|done| |].
  - intros p q Hp Hr Hq. eapply take_below_drop; eauto.
  - intros p Hp Hr. specialize (Hrest p Hp Hr). apply Hj3.
    destruct (decide (j < Z.of_nat (List.length sorted))); [done|].
    rewrite drop_ge in Hrest by lia. by apply not_elem_of_nil in Hrest.
Qed.

End PageSetLemmas.

(** A table that never fails to grow, with the keys in the order of a finite set:
    the laws can hold. *)
#[export] Instance gset_table : PageTable (gset Z) := {
  kh_empty := ∅;
  kh_keys := elements;
  kh_put t k := ({[k]} ∪ t, if decide (k ∈ t) then 0 else 1);
  kh_del t k := t ∖ {[k]};
}.

#[export] Instance gset_table_laws : PageTableLaws (gset Z).
Proof.
  split.
  - done.
  - intros t. apply NoDup_elements.
  - intros t k t' [= _ Hr]. case_decide; lia.
  - intros t k t' r [= <- _] _ Hk%elem_of_elements. cbn. f_equiv. set_solver.
  - intros t k t' r [= <- _] _ Hk. cbn in *. rewrite elem_of_elements in Hk.
    by apply elements_union_singleton.
  - intros t k Hk%elem_of_elements. cbn. rewrite <- elements_union_singleton by set_solver.
    f_equiv. intros p. destruct (decide (p = k)); set_solver.
Qed.

(** * Claims on the page set *)

(** The pages that hold a byte of one of the ranges. *)
Definition dirty_page (k : Z) (ranges : list (Z * Z)) (p : Z) : Prop :=
  exists pa length x, (pa, length) ∈ ranges /\ pa <= x < pa + length /\ p = x / 2 ^ k * 2 ^ k.

(** Ranges that end below the last page of the address space. *)
Definition range_fits (k : Z) (r : Z * Z) : Prop := 0 <= r.1 /\ 0 < r.2 /\ r.1 + r.2 + 2 ^ k <= 2 ^ 64.

Section PageSetClaims.
Context {T : Type} `{PageTable T} `{!PageTableLaws T}.

(** [snap_dp_map_add_range] returns for every range that ends below the last
    page of the address space.  It keeps the pages already in the set and adds
    only pages that meet the range; when it returns 0 the page of every byte of
    the range is in the set, so no write of the device is missed. *)
Theorem dp_add_range_covers map pa length k :
  page_size map = 2 ^ k -> 0 <= k < 32 -> 0 <= pa -> 0 < length -> pa + length + 2 ^ k <= 2 ^ 64 ->
  exists map' r, snap_dp_map_add_range map pa length = Ok (map', r) /\ (r = 0 \/ r = -1) /\
    kh_keys (dp_set map) ⊆ kh_keys (dp_set map') /\
    (forall p, p ∈ kh_keys (dp_set map') -> p ∈ kh_keys (dp_set map) \/
       exists x, pa <= x < pa + length /\ p = x / 2 ^ k * 2 ^ k) /\
    (r = 0 -> forall x, pa <= x < pa + length -> x / 2 ^ k * 2 ^ k ∈ kh_keys (dp_set map')).
Proof.
  intros Hpsz Hk Hpa Hlen Hmax. assert (0 < 2 ^ k) by (apply Z.pow_pos_nonneg; lia).
  destruct (add_range_ok map pa length k) as (map' & r & Hrun & _ & Hr & Hkeep & Honly & Hall); try done; [lia|].
  exists map', r. split_and!; [done|done|done| |].
  - intros p [Hp|[Hp Hm]]%Honly; [by left|right]. exists (Z.max pa p). split; [lia|].
    apply Z.mod_divide in Hm as [a ->]; [|lia].
    assert (Z.max pa (a * 2 ^ k) / 2 ^ k = a) as ->; [|done].
    symmetry. apply (Z.div_unique _ _ _ (Z.max pa (a * 2 ^ k) - a * 2 ^ k)); [left|lia].
    pose proof (Z.div_mod pa (2 ^ k)). pose proof (Z.mod_pos_bound pa (2 ^ k)). nia.
  - intros Hr0 x Hx. apply Hall; [done| |apply Z.mod_mul; lia].
    pose proof (Z.div_mod x (2 ^ k)). pose proof (Z.mod_pos_bound x (2 ^ k)).
    pose proof (Z.div_le_mono pa x (2 ^ k)). nia.
Qed.

(** [snap_dp_map_serialize_sort] reports each page once: the pages it returns
    are in ascending order, lie in the range, fit in the buffer and are removed
    from the set, which keeps every other page.  They are the lowest of the range,
    and a page of the range stays behind only when the buffer is full. *)
Theorem dp_serialize_sort_exact calloc map pa length buf_len map' n out :
  snap_dp_map_serialize_sort calloc map pa length buf_len = (map', n, out) -> 0 <= buf_len -> n <> -1 ->
  n = Z.of_nat (List.length out) /\ 8 * n <= buf_len /\ Sorted Z.le out /\
  kh_keys (dp_set map) ≡ₚ out ++ kh_keys (dp_set map') /\
  Forall (fun p => pa <= p < u64 (pa + length)) out /\
  (forall p q, p ∈ kh_keys (dp_set map') -> pa <= p < u64 (pa + length) -> q ∈ out -> q < p) /\
  (forall p, p ∈ kh_keys (dp_set map') -> pa <= p < u64 (pa + length) -> n = buf_len / 8).
Proof.
  intros Hrun Hbuf Hn.
  assert (forall p, pa <= p < u64 (pa + length) <-> in_range pa length p = true) as Hiff.
  { intros p. unfold in_range. rewrite negb_true_iff, orb_false_iff, Z.leb_gt, Z.ltb_ge. lia. }
  destruct (serialize_sort_ok _ _ _ _ _ _ _ _ Hrun Hbuf Hn) as (? & ? & ? & ? & Hall & ? & ?).
  split_and!; [done..| | |].
  - eapply Forall_impl; [exact Hall|]. intros p. apply Hiff.
  - intros p q Hp Hr. apply Hiff in Hr. eauto.
  - intros p Hp Hr. apply Hiff in Hr. eauto.
Qed.

(** Ranges marked one after the other, each with success. *)
Inductive marks : snap_dp_map T -> list (Z * Z) -> snap_dp_map T -> Prop :=
| marks_none map : marks map [] map
| marks_range map map1 map2 pa length rs :
    snap_dp_map_add_range map pa length = Ok (map1, 0) -> marks map1 rs map2 -> marks map ((pa, length) :: rs) map2.

Lemma marks_keys k map rs map' :
  0 <= k < 32 -> marks map rs map' -> page_size map = 2 ^ k -> Forall (range_fits k) rs ->
  forall p, p ∈ kh_keys (dp_set map') <-> p ∈ kh_keys (dp_set map) \/ dirty_page k rs p.
Proof.
  intros Hk. induction 1 as [map|map map1 map2 pa length rs Hadd _ IH]; intros Hpsz Hfit p.
  - split; [by left|]. intros [?|(? & ? & ? & ?%not_elem_of_nil & _)]; done.
  - apply Forall_cons in Hfit as [(Hpa & Hlen & Hmax) Hfit]. cbn [fst snd] in *.
    assert (page_size map1 = page_size map) as Hpsz1.
    { destruct (add_range_ok map pa length k) as (? & ? & Hrun & ? & _); try done; [lia|]. rewrite Hadd in Hrun. by simplify_eq. }
    destruct (dp_add_range_covers map pa length k) as (? & ? & Hrun & _ & Hkeep & Honly & Hall); try done.
    rewrite Hadd in Hrun. simplify_eq. rewrite IH by (done || congruence). split.
    + intros [[Hp|(y & Hy & ->)]%Honly|(pa1 & length1 & y & Hin & Hy)]; [by left|right..].
      * exists pa, length, y. split; [by left|done].
      * exists pa1, length1, y. split; [by right|done].
    + intros [Hp|(pa1 & length1 & y & [[= -> ->]|Hin]%elem_of_cons & Hy & ->)]; [left; auto..|right].
      by exists pa1, length1, y.
Qed.

Lemma ascending l : Sorted Z.le l -> NoDup l -> StronglySorted Z.lt l.
Proof.
  intros Hs. apply (Sorted_StronglySorted Z.le) in Hs. induction Hs as [|p l Hs IH Hall]; intros Hnd; [constructor|].
  apply NoDup_cons in Hnd as [Hp Hnd]. constructor; [by apply IH|]. rewrite Forall_forall in *. intros q Hq.
  specialize (Hall q Hq). destruct (decide (p = q)) as [->|]; [done|lia].
Qed.

(** C26: any ranges marked one after the other in a new map, and then reported for any range
    of addresses into a buffer of any size: the pages that are reported and those that stay
    in the map are together exactly the pages that hold a byte of a marked range, no page is
    both, the reported ones are in ascending order, start inside the range asked for and fit
    in the buffer; a page that starts inside the range stays behind only when the buffer is
    full, and then those reported are lower.  (The page of an unaligned start of the range
    asked for begins below it, and is not reported.)  Each marking succeeds, each marked range
    ends below the last page of the address space, and memory for the temporary list is
    available. *)
Theorem dp_map_roundtrip calloc k rs map0 map1 pa length buf_len
    (Hcreate : snap_dp_map_create true (2 ^ k) = Some map0) (Hk : 0 <= k < 32)
    (Hfit : Forall (range_fits k) rs) (Hmarks : marks map0 rs map1)
    (Hcalloc : forall n, calloc n = true) (Hpa : 0 <= pa) (Hlen : 0 <= length) (Hmax : pa + length < 2 ^ 64) (Hbuf : 0 <= buf_len) :
  exists map2 out, snap_dp_map_serialize_sort calloc map1 pa length buf_len = (map2, Z.of_nat (List.length out), out) /\
    (forall p, dirty_page k rs p <-> p ∈ out \/ p ∈ kh_keys (dp_set map2)) /\
    (forall p, p ∈ out -> p ∉ kh_keys (dp_set map2) /\ pa <= p < pa + length) /\
    StronglySorted Z.lt out /\ 8 * Z.of_nat (List.length out) <= buf_len /\
    (forall p, p ∈ kh_keys (dp_set map2) -> pa <= p < pa + length ->
       Z.of_nat (List.length out) = buf_len / 8 /\ Forall (fun q => q < p) out).
Proof.
  assert (page_size map0 = 2 ^ k /\ kh_keys (dp_set map0) = []) as [Hpsz Hempty].
  { unfold snap_dp_map_create in Hcreate. destruct (_ || _); simplify_eq. split; [done|apply kh_keys_empty]. }
  pose proof (marks_keys k map0 rs map1 Hk Hmarks Hpsz Hfit) as Hkeys.
  destruct (snap_dp_map_serialize_sort calloc map1 pa length buf_len) as [[map2 n] out] eqn:Hser.
  assert (n <> -1) as Hn.
  { revert Hser. unfold snap_dp_map_serialize_sort. rewrite Hcalloc, andb_false_r. intros [= _ <- _].
    pose proof (Z.div_pos buf_len 8). unfold snap_min. case_match; lia. }
  destruct (dp_serialize_sort_exact _ _ _ _ _ _ _ _ Hser Hbuf Hn) as (-> & Hfits & Hs & Hperm & Hin & Hlow & Hfull).
  rewrite u64_small in Hin, Hlow, Hfull by lia. pose proof (kh_keys_NoDup (dp_set map1)) as Hnd.
  rewrite Hperm in Hnd. apply NoDup_app in Hnd as (Hnd & Hdisj & _). exists map2, out. split_and!; try done.
  - intros p. rewrite <- elem_of_app, <- Hperm, Hkeys, Hempty. split; [by right|]. intros [?%not_elem_of_nil|?]; done.
  - intros p Hp. rewrite Forall_forall in Hin. split; [by apply Hdisj|by apply Hin].
  - by apply ascending.
  - intros p Hp Hr. split; [by apply (Hfull p)|]. apply Forall_forall. eauto.
Qed.

End PageSetClaims.

(** * The host map: lemmas and claims *)

(** Where the host keeps the byte of the [n]-th page: the entries of the list, one
    after the other, hold one byte per page. *)
Fixpoint page_byte (sges : list snap_vq_adm_sge) (n : Z) : option Z :=
  match sges with
  | [] => None
  | sge :: sges' => if n <? sge_len sge then Some (sge_addr sge + n) else page_byte sges' (n - sge_len sge)
  end.

Section BmapLemmas.
Context (map : snap_dp_bmap) (k : Z).
Context (Hpsz : bmap_page_size map = 2 ^ k) (Hk : 0 <= k < 32).

Lemma psz_pos : 0 < 2 ^ k.
Proof. apply Z.pow_pos_nonneg; lia. Qed.

(** The number of pages a range meets. *)
Definition npages (pa length : Z) : Z := (pa + length + 2 ^ k - 1) / 2 ^ k - pa / 2 ^ k.

Lemma npages_last pa length x :
  0 < length -> pa <= x < pa + length -> 0 <= x / 2 ^ k - pa / 2 ^ k < npages pa length.
Proof.
  intros Hlen Hx. pose proof psz_pos. unfold npages.
  replace (pa + length + 2 ^ k - 1) with (pa + length - 1 + 1 * 2 ^ k) by lia.
  rewrite Z.div_add by lia. pose proof (Z.div_le_mono pa x (2 ^ k)).
  pose proof (Z.div_le_mono x (pa + length - 1) (2 ^ k)). lia.
Qed.

Lemma npages_page pa length j :
  0 < length -> 0 <= j < npages pa length ->
  exists x, pa <= x < pa + length /\ x / 2 ^ k = pa / 2 ^ k + j.
Proof.
  intros Hlen Hj. pose proof psz_pos. unfold npages in Hj.
  replace (pa + length + 2 ^ k - 1) with (pa + length - 1 + 1 * 2 ^ k) in Hj by lia.
  rewrite Z.div_add in Hj by lia.
  pose proof (Z.div_mod pa (2 ^ k)). pose proof (Z.mod_pos_bound pa (2 ^ k)).
  pose proof (Z.div_mod (pa + length - 1) (2 ^ k)). pose proof (Z.mod_pos_bound (pa + length - 1) (2 ^ k)).
  exists (Z.max pa ((pa / 2 ^ k + j) * 2 ^ k)). split; [nia|].
  symmetry. apply (Z.div_unique _ _ _ (Z.max pa ((pa / 2 ^ k + j) * 2 ^ k) - (pa / 2 ^ k + j) * 2 ^ k));
    [left|]; nia.
Qed.

Lemma npages_bound pa length : 0 <= pa -> 0 <= length < 2 ^ 31 -> 0 <= npages pa length < 2 ^ 32.
Proof.
  intros Hpa Hlen. pose proof psz_pos. unfold npages.
  pose proof (Z.div_le_mono pa (pa + length + 2 ^ k - 1) (2 ^ k)).
  pose proof (Z.div_mod pa (2 ^ k)). pose proof (Z.mod_pos_bound pa (2 ^ k)).
  pose proof (Z.div_mod (pa + length + 2 ^ k - 1) (2 ^ k)).
  pose proof (Z.mod_pos_bound (pa + length + 2 ^ k - 1) (2 ^ k)). split; [lia|]. nia.
Qed.

(** [snap_dp_bmap_range_size] counts the pages, and rounds up to bytes of bits. *)
Lemma range_size_ok pa length :
  0 <= pa -> 0 <= length < 2 ^ 31 -> pa + length + 2 ^ k <= 2 ^ 64 ->
  snap_dp_bmap_range_size map pa length =
    if is_bytemap map then npages pa length else u32 (u32 (8 + npages pa length) - 1) / 8.
Proof.
  intros Hpa Hlen Hmax. pose proof psz_pos. unfold snap_dp_bmap_range_size. rewrite Hpsz.
  rewrite (u64_small (pa + length)), SNAP_ALIGN_FLOOR_pow2, SNAP_ALIGN_CEIL_pow2 by lia.
  rewrite <- Z.mul_sub_distr_r. fold (npages pa length).
  pose proof (npages_bound pa length Hpa Hlen).
  assert (npages pa length * 2 ^ k < 2 ^ 64).
  { unfold npages. pose proof (Z.div_mod (pa + length + 2 ^ k - 1) (2 ^ k)).
    pose proof (Z.mod_pos_bound (pa + length + 2 ^ k - 1) (2 ^ k)). pose proof (Z.div_pos pa (2 ^ k)). nia. }
  rewrite (u64_small (_ * _)), Z.div_mul, u32_small by nia. done.
Qed.

(** The entry the search returns holds the page it looked for, and the entries
    before it those below. *)
Lemma bmap_find_ok (Hbyte : is_bytemap map = true) sges : forall n0 page sge range_pa range_len,
  Forall (fun s => 0 <= sge_len s) sges -> 0 <= n0 ->
  (n0 + sumZ (List.map sge_len sges)) * 2 ^ k < 2 ^ 64 ->
  bmap_find map sges (n0 * 2 ^ k) page = Some (sge, range_pa, range_len) ->
  exists n1, range_pa = n1 * 2 ^ k /\ range_len = sge_len sge * 2 ^ k /\ n0 <= n1 /\ 0 <= sge_len sge /\
    (n1 + sge_len sge) * 2 ^ k < 2 ^ 64 /\ range_pa <= page < range_pa + range_len /\
    forall m, n1 <= m < n1 + sge_len sge -> page_byte sges (m - n0) = Some (sge_addr sge + (m - n1)).
Proof.
  pose proof psz_pos. induction sges as [|s sges IH]; intros n0 page sge range_pa range_len Hall Hn0 Hmax Hfind; [done|].
  apply Forall_cons in Hall as [Hs Hall]. cbn [bmap_find List.map] in *. rewrite sumZ_cons in Hmax.
  pose proof (sumZ_nonneg (List.map sge_len sges)) as Hsum. rewrite Forall_map in Hsum. specialize (Hsum Hall).
  unfold snap_dp_bmap_size_to_len in Hfind. rewrite Hbyte, Hpsz in Hfind.
  rewrite (u64_small (2 ^ k * sge_len s)) in Hfind by nia.
  replace (n0 * 2 ^ k + 2 ^ k * sge_len s) with ((n0 + sge_len s) * 2 ^ k) in Hfind by lia.
  rewrite (u64_small ((n0 + sge_len s) * 2 ^ k)) in Hfind by nia.
  destruct (_ && _) eqn:Hc.
  - bool_to_prop. simplify_eq. exists n0. split_and!; try nia. intros m Hm. cbn [page_byte].
    destruct (Z.ltb_spec (m - n0) (sge_len sge)); [done|lia].
  - destruct (IH (n0 + sge_len s) page sge range_pa range_len) as (n1 & -> & -> & Hn1 & Hlen & Hb & Hp & Hm);
      [done|lia|nia|done|].
    exists n1. split_and!; try lia. intros m Hm'. cbn [page_byte].
    destruct (Z.ltb_spec (m - n0) (sge_len s)); [lia|]. rewrite <- (Hm m Hm'). f_equal. lia.
Qed.

End BmapLemmas.

(** the byte map of the host: for a range that ends inside the entry of its
    first page, [snap_dp_bmap_get_start_pa] returns the length of the range, and
    the bytes of the host that stand for the pages of the range are exactly the
    [size] bytes at [start_pa]. *)
Theorem bytemap_start_pa_exact map k sges pa length sge range_pa range_len :
  snap_dp_bmap_create true true sges (2 ^ k) true = Some map -> 0 <= k < 32 ->
  Forall (fun s => 0 <= sge_len s /\ 0 <= sge_addr s /\ sge_addr s + sge_len s < 2 ^ 64) sges ->
  sumZ (List.map sge_len sges) * 2 ^ k < 2 ^ 64 ->
  0 <= pa -> 0 < length < 2 ^ 31 -> pa + length + 2 ^ k <= 2 ^ 64 ->
  bmap_find map sges 0 (SNAP_ALIGN_FLOOR pa (2 ^ k)) = Some (sge, range_pa, range_len) ->
  pa + length < range_pa + range_len ->
  exists start, snap_dp_bmap_get_start_pa map pa length = (length, Some (start, 0, npages k pa length)) /\
    (forall x, pa <= x < pa + length -> page_byte sges (x / 2 ^ k) = Some (start + (x / 2 ^ k - pa / 2 ^ k)) /\
       0 <= x / 2 ^ k - pa / 2 ^ k < npages k pa length) /\
    (forall j, 0 <= j < npages k pa length ->
       exists x, pa <= x < pa + length /\ page_byte sges (x / 2 ^ k) = Some (start + j)).
Proof.
  intros Hcreate Hk Hall Hsum Hpa Hlen Hmax Hfind Hin. pose proof (psz_pos k Hk) as Hpos.
  unfold snap_dp_bmap_create in Hcreate. destruct (_ || _); [done|]. cbn in Hcreate.
  assert (map = mk_bmap sges (2 ^ k) true 0 0) as Hmap by congruence.
  assert (bmap_page_size map = 2 ^ k) as Hpsz by by rewrite Hmap.
  assert (sge ∈ sges) as Hsge.
  { clear - Hfind. revert Hfind. generalize 0 as rpa. induction sges as [|s sges IH]; intros rpa; cbn; [done|].
    destruct (_ && _); [intros [= -> _ _]; by left|]. intros ?%IH. by right. }
  rewrite Forall_forall in Hall. destruct (Hall sge Hsge) as (Hsl & Hsa & Hsm).
  destruct (bmap_find_ok map k Hpsz Hk ltac:(by rewrite Hmap) sges 0
    (SNAP_ALIGN_FLOOR pa (2 ^ k)) sge range_pa range_len)
    as (n1 & -> & -> & Hn1 & _ & Hb & Hp & Hbyte); [|lia|lia|done|].
  { apply Forall_forall. intros s Hs. by apply Hall. }
  rewrite SNAP_ALIGN_FLOOR_pow2 in Hp, Hfind by lia.
  assert (n1 <= pa / 2 ^ k) by nia.
  assert (forall x, pa <= x < pa + length -> n1 <= x / 2 ^ k < n1 + sge_len sge) as Hx.
  { intros x Hx. pose proof (Z.div_le_mono pa x (2 ^ k)). split; [lia|]. apply Z.div_lt_upper_bound; nia. }
  exists (sge_addr sge + (pa / 2 ^ k - n1)). split.
  - unfold snap_dp_bmap_get_start_pa. rewrite Hpsz, SNAP_ALIGN_FLOOR_pow2 by lia.
    replace (sge_list map) with sges by (by rewrite Hmap). replace (DpMap.start_pa map) with 0 by (by rewrite Hmap).
    rewrite Hfind. replace (is_bytemap map) with true by (by rewrite Hmap).
    assert (pa / 2 ^ k * 2 ^ k <= pa) by (rewrite Z.mul_comm; apply Z.mul_div_le; lia).
    rewrite (u64_small (pa + length)), (u64_small (n1 * 2 ^ k + sge_len sge * 2 ^ k)),
      (u64_small (pa / 2 ^ k * 2 ^ k - n1 * 2 ^ k)) by lia. destruct (Z.ltb_spec (pa + length) (n1 * 2 ^ k + sge_len sge * 2 ^ k)); [|lia].
    rewrite (range_size_ok map k) by (try done; lia). replace (is_bytemap map) with true by (by rewrite Hmap).
    rewrite u32_small by lia. rewrite <- Z.mul_sub_distr_r, Z.div_mul by lia.
    specialize (Hx pa). rewrite u64_small by lia. done.
  - split.
    + intros x Hxr. specialize (Hx x Hxr). split; [|apply (npages_last k Hk); lia].
      specialize (Hbyte (x / 2 ^ k) Hx). rewrite Z.sub_0_r in Hbyte. rewrite Hbyte. f_equal. lia.
    + intros j Hj. destruct (npages_page k Hk pa length j) as (x & Hxr & Hxj); [lia|done|].
      exists x. split; [done|]. specialize (Hx x Hxr). specialize (Hbyte (x / 2 ^ k) Hx).
      rewrite Z.sub_0_r in Hbyte. rewrite Hbyte. f_equal. lia.
Qed.

Lemma bits_to_bytes p n :
  0 <= p -> 0 < n ->
  (p + n - 1) / 8 < p / 8 + (n + 7) / 8 <-> p mod 8 + n <= 8 * ((n + 7) / 8).
Proof. intros Hp Hn. Z.to_euclidean_division_equations. lia. Qed.

(** The bit map of the host: [snap_dp_bmap_get_start_pa] sizes the answer by
    the number of pages and not by where the first bit stands in its byte, so the
    bit of the last page of the range is among the [size] bytes at [start_pa]
    only when the offset of the first bit and the pages together fit in them. *)
Theorem bitmap_last_page_bit map k sge pa length :
  snap_dp_bmap_create true true [sge] (2 ^ k) false = Some map -> 0 <= k < 32 ->
  0 <= sge_len sge < 2 ^ 28 -> 0 <= sge_addr sge -> sge_addr sge + sge_len sge < 2 ^ 64 ->
  0 <= pa -> 0 < length < 2 ^ 31 -> pa + length < 8 * sge_len sge * 2 ^ k ->
  let n := npages k pa length in
  let first := pa / 2 ^ k in
  let last := (pa + length - 1) / 2 ^ k in
  exists start size, snap_dp_bmap_get_start_pa map pa length = (length, Some (start, first mod 8, size)) /\
    start = sge_addr sge + first / 8 /\ size = (n + 7) / 8 /\
    (start <= sge_addr sge + last / 8 < start + size <-> first mod 8 + n <= 8 * size).
Proof.
  intros Hcreate Hk Hsl Hsa Hsm Hpa Hlen Hin n first last. pose proof (psz_pos k Hk) as Hpos.
  assert (2 ^ k <= 2 ^ 31) by (apply Z.pow_le_mono_r; lia).
  unfold snap_dp_bmap_create in Hcreate. destruct (_ || _); [done|]. cbn in Hcreate. injection Hcreate as <-.
  assert (pa / 2 ^ k * 2 ^ k <= pa) by (rewrite Z.mul_comm; apply Z.mul_div_le; lia).
  assert (0 <= first) by (apply Z.div_pos; lia). assert (first <= last) by (apply Z.div_le_mono; lia).
  assert (last = first + n - 1) as Hlast.
  { unfold last, first, n, npages. replace (pa + length + 2 ^ k - 1) with (pa + length - 1 + 1 * 2 ^ k) by lia.
    rewrite Z.div_add by lia. lia. }
  assert (last < 8 * sge_len sge) by (apply Z.div_lt_upper_bound; lia).
  pose proof (npages_bound k Hk pa length Hpa ltac:(lia)) as Hn. fold n in Hn.
  exists (sge_addr sge + first / 8), ((n + 7) / 8). split_and!; [|done|done|].
  - unfold snap_dp_bmap_get_start_pa, snap_dp_bmap_size_to_len. cbn [bmap_page_size sge_list start_pa is_bytemap bmap_find].
    unfold snap_dp_bmap_size_to_len. cbn [bmap_page_size sge_list start_pa is_bytemap].
    rewrite (u32_small (8 * _)), SNAP_ALIGN_FLOOR_pow2, (u64_small (2 ^ k * _)), Z.add_0_l,
      (u64_small (2 ^ k * _)) by nia.
    fold first. destruct (Z.leb_spec 0 (first * 2 ^ k)); [|nia].
    destruct (Z.ltb_spec (first * 2 ^ k) (2 ^ k * (8 * sge_len sge))); [|lia]. cbn [andb].
    rewrite Z.add_0_l, Z.sub_0_r, (u64_small (2 ^ k * _)), (u64_small (pa + length)),
      (u64_small (first * 2 ^ k)), Z.div_mul by nia.
    destruct (Z.ltb_spec (pa + length) (2 ^ k * (8 * sge_len sge))); [|lia].
    rewrite (range_size_ok _ k) by (try done; nia). cbn [is_bytemap]. fold n.
    rewrite (u32_small length) by lia. rewrite (u32_small (8 + n)), u32_small by nia.
    rewrite (u64_small (sge_addr sge + first / 8)) by (Z.to_euclidean_division_equations; lia).
    change (Z.land first 7) with (Z.land first (2 ^ 3 - 1)). rewrite land_mask by lia. do 3 f_equal. f_equal. lia.
  - rewrite <- bits_to_bytes by lia. rewrite Hlast.
    pose proof (Z.div_le_mono first (first + n - 1) 8). lia.
Qed.

(** ** Witnesses *)

Lemma dp_add_range_covers_witness :
  exists map' r, snap_dp_map_add_range (mk_dp_map (∅ : gset Z) 4096) 8000 5000 = Ok (map', r) /\
    (r = 0 -> forall x, 8000 <= x < 13000 -> x / 2 ^ 12 * 2 ^ 12 ∈ kh_keys (dp_set map')).
Proof.
  destruct (dp_add_range_covers (mk_dp_map (∅ : gset Z) 4096) 8000 5000 12 eq_refl) as (map' & r & H1 & _ & _ & _ & H2);
    [lia..|]. exists map', r. split; [exact H1|exact H2].
Defined.

Lemma dp_serialize_sort_exact_witness :
  exists map' n out,
    snap_dp_map_serialize_sort (fun _ => true) (mk_dp_map ({[4096; 12288; 8192]} : gset Z) 4096) 0 20000 16
      = (map', n, out) /\ n = 2 /\ out = [4096; 8192] /\ Sorted Z.le out.
Proof.
  destruct (snap_dp_map_serialize_sort (fun _ => true) (mk_dp_map ({[4096; 12288; 8192]} : gset Z) 4096) 0 20000 16)
    as [[map' n] out] eqn:Hrun. exists map', n, out.
  assert (n = 2 /\ out = [4096; 8192]) as [Hn Hout] by (vm_compute in Hrun; by inversion Hrun).
  destruct (dp_serialize_sort_exact _ _ _ _ _ _ _ _ Hrun) as (_ & _ & Hs & _); [lia|lia|].
  split_and!; [done|done|done|exact Hs].
Defined.

(** Two ranges that share a page, asked for from 8000 on into a buffer of one entry: the page
    at 4096 starts below and stays, as does the one that does not fit. *)
Lemma dp_map_roundtrip_witness :
  exists map0 map1 map2, snap_dp_map_create (T := gset Z) true 4096 = Some map0 /\ marks map0 [(8000, 5000); (12288, 1)] map1 /\
    snap_dp_map_serialize_sort (fun _ => true) map1 8000 5000 8 = (map2, 1, [8192]) /\
    4096 ∈ kh_keys (dp_set map2) /\ 12288 ∈ kh_keys (dp_set map2).
Proof.
  destruct (snap_dp_map_create (T := gset Z) true 4096) as [map0|] eqn:H0; [|vm_compute in H0; discriminate H0].
  assert (map0 = mk_dp_map ∅ 4096) as -> by (vm_compute in H0; by injection H0).
  eexists _, _. eassert (Hm : marks (mk_dp_map (∅ : gset Z) 4096) [(8000, 5000); (12288, 1)] _).
  { eapply marks_range; [vm_compute; reflexivity|]. eapply marks_range; [vm_compute; reflexivity|]. apply marks_none. }
  destruct (dp_map_roundtrip (fun _ => true) 12 [(8000, 5000); (12288, 1)] _ _ 8000 5000 8 H0 ltac:(lia) ltac:(repeat constructor; cbn; lia) Hm) as (map2 & out & Hser & Hiff & Hout & _);
    [done|lia..|].
  assert (out = [8192]) as -> by (vm_compute in Hser; by injection Hser).
  exists map2. split; [reflexivity|]. split; [exact Hm|]. split; [exact Hser|].
  split; [destruct (Hiff 4096) as [[Hp|Hp] _]|destruct (Hiff 12288) as [[Hp|Hp] _]]; try exact Hp.
  - exists 8000, 5000, 8000. split; [by left|]. split; [lia|reflexivity].
  - apply list_elem_of_singleton in Hp. discriminate Hp.
  - exists 8000, 5000, 12288. split; [by left|]. split; [lia|reflexivity].
  - apply list_elem_of_singleton in Hp. discriminate Hp.
Defined.

Lemma bytemap_start_pa_exact_witness :
  exists start, snap_dp_bmap_get_start_pa (mk_bmap [mk_sge 1000 4; mk_sge 5000 16] 4096 true 0 0) 20000 10000
    = (10000, Some (start, 0, 4)) /\ page_byte [mk_sge 1000 4; mk_sge 5000 16] (20000 / 2 ^ 12) = Some (start + 0).
Proof.
  destruct (bytemap_start_pa_exact (mk_bmap [mk_sge 1000 4; mk_sge 5000 16] 4096 true 0 0) 12
    [mk_sge 1000 4; mk_sge 5000 16] 20000 10000 (mk_sge 5000 16) 16384 65536) as (start & H1 & H2 & _);
    [reflexivity|lia|repeat constructor; cbn; lia|vm_compute; reflexivity|lia|lia|lia|reflexivity|lia|].
  exists start. split; [exact H1|]. destruct (H2 20000) as [H3 _]; [lia|]. exact H3.
Defined.

(** Two pages that straddle the end of a byte of bits: one byte is returned, and
    the bit of the second page is in the next one. *)
Lemma bitmap_last_page_bit_witness :
  exists start size,
    snap_dp_bmap_get_start_pa (mk_bmap [mk_sge 1000 4] 4096 false 0 0) (7 * 4096) 8192 = (8192, Some (start, 7, size)) /\
    ~ (start <= 1000 + (7 * 4096 + 8191) / 4096 / 8 < start + size).
Proof.
  destruct (bitmap_last_page_bit (mk_bmap [mk_sge 1000 4] 4096 false 0 0) 12 (mk_sge 1000 4) (7 * 4096) 8192)
    as (start & size & H1 & H2 & H3 & H4); [reflexivity|cbn; lia..|].
  exists start, size. split; [exact H1|]. intros Hc. apply H4 in Hc. subst size. vm_compute in Hc. by destruct Hc.
Defined.
