(* ===== verification/PollGroups.v ===== *)
(** Polling groups of the virtio controllers: src/ctrl/snap_poll_groups.c.

    A controller spreads its queues over polling groups, one per thread.  The
    usage counters are shared by all controllers of the process ([usage] and
    [ref_count] are the static variables of the file), the groups and their locks
    belong to one controller.  [pg_step] is the life of the module: contexts are
    allocated and freed, queues are added to and removed from groups. *)

From S2P Require Import Prelude.

(** * State *)

(** [locked] is the state of the spin lock of a group. *)
Record snap_pg := mk_pg { pg_id : Z; locked : bool }.

Record snap_pg_ctx := mk_ctx { pgs : list snap_pg; npgs : Z }.

(** The static variables: [None] is the null pointer. *)
Record pg_globals := mk_globals {
  virtio_pg_usage : option (list Z);
  virtio_pg_ref_count : Z;
}.

(** * Operations *)

Definition snap_pgs_free (g : pg_globals) (ctx : snap_pg_ctx) : pg_globals :=
  if npgs ctx =? 0 then g
  else
    let refs := u64 (virtio_pg_ref_count g - 1) in
    mk_globals (if refs =? 0 then None else virtio_pg_usage g) refs.

(** [calloc1] and [calloc2] are the answers of the allocator for the groups and
    for the usage counters.  The result is the state, the context and the value
    returned. *)
Definition snap_pgs_alloc (calloc1 calloc2 : bool) (g : pg_globals) (n : Z)
    : pg_globals * snap_pg_ctx * Z :=
  if negb calloc1 then (g, mk_ctx [] 0, -1)
  else
    let groups := repeat (mk_pg 0 false) (Z.to_nat n) in
    match virtio_pg_usage g with
    | None =>
        if negb calloc2 then (g, mk_ctx [] 0, -1)
        else (mk_globals (Some (repeat 0 (Z.to_nat n))) (u64 (0 + 1)), mk_ctx groups n, 0)
    | Some usage => (mk_globals (Some usage) (u64 (virtio_pg_ref_count g + 1)), mk_ctx groups n, 0)
    end.

(** Taking a lock that is held spins for ever, and releasing one that is free is
    an error of the caller: neither has a value. *)
Fixpoint lock_groups (l : list snap_pg) : option (list snap_pg) :=
  match l with
  | [] => Some []
  | pg :: l' =>
      if locked pg then None
      else l'' ← lock_groups l'; Some (mk_pg (pg_id pg) true :: l'')
  end.

Fixpoint unlock_groups (l : list snap_pg) : option (list snap_pg) :=
  match l with
  | [] => Some []
  | pg :: l' =>
      l'' ← unlock_groups l';
      if locked pg then Some (mk_pg (pg_id pg) false :: l'') else None
  end.

Definition snap_pgs_suspend (ctx : snap_pg_ctx) : option snap_pg_ctx :=
  l ← lock_groups (pgs ctx); Some (mk_ctx l (npgs ctx)).

Definition snap_pgs_resume (ctx : snap_pg_ctx) : option snap_pg_ctx :=
  l ← unlock_groups (pgs ctx); Some (mk_ctx l (npgs ctx)).

(** The search of [snap_pg_get_next]: [n] groups are still to be compared, from
    the [i]-th on. *)
Fixpoint least_used (usage : list Z) (n i best : nat) : res nat :=
  match n with
  | O => Ok best
  | S n' =>
      match usage !! i, usage !! best with
      | Some ui, Some ub => least_used usage n' (S i) (if ui <? ub then i else best)
      | _, _ => Oob
      end
  end.

(** Dereferencing a null [virtio_pg_usage] or going past its end is [Oob]. *)
Definition snap_pg_get_next (g : pg_globals) (ctx : snap_pg_ctx) : res (pg_globals * snap_pg_ctx * nat) :=
  match virtio_pg_usage g with
  | None => Oob
  | Some usage =>
      let? best := least_used usage (Z.to_nat (npgs ctx) - 1) 1 0 in
      match usage !! best, pgs ctx !! best with
      | Some u, Some pg =>
          Ok (mk_globals (Some (<[best := u64 (u + 1)]> usage)) (virtio_pg_ref_count g),
              mk_ctx (<[best := mk_pg (Z.of_nat best) (locked pg)]> (pgs ctx)) (npgs ctx), best)
      | _, _ => Oob
      end
  end.

Definition snap_pg_usage_decrease (g : pg_globals) (i : nat) : res pg_globals :=
  match virtio_pg_usage g with
  | None => Oob
  | Some usage =>
      match usage !! i with
      | Some u => Ok (mk_globals (Some (<[i := u64 (u - 1)]> usage)) (virtio_pg_ref_count g))
      | None => Oob
      end
  end.

Definition snap_pg_get_admin (ctx : snap_pg_ctx) : res snap_pg_ctx :=
  match pgs ctx !! 0%nat with
  | Some pg => Ok (mk_ctx (<[0%nat := mk_pg 0 (locked pg)]> (pgs ctx)) (npgs ctx))
  | None => Oob
  end.

(** * The life of the module

    [ctxs] are the controllers that exist, each with the groups of its queues. *)

Record pg_sys := mk_sys { glob : pg_globals; ctxs : list (snap_pg_ctx * list nat) }.

Definition pg_init : pg_sys := mk_sys (mk_globals None 0) [].

(** All controllers of the process are configured with the same number [n] of
    groups, one per thread of the application; there are fewer of them than
    addresses.  A controller is freed when its queues are gone. *)
Inductive pg_step (n : Z) : pg_sys -> pg_sys -> Prop :=
| pg_alloc c1 c2 g l g' ctx r :
    snap_pgs_alloc c1 c2 g n = (g', ctx, r) -> Z.of_nat (length l) + 1 < 2 ^ 64 ->
    pg_step n (mk_sys g l) (mk_sys g' (if r =? 0 then (ctx, []) :: l else l))
| pg_free g l1 l2 ctx :
    pg_step n (mk_sys g (l1 ++ (ctx, []) :: l2)) (mk_sys (snap_pgs_free g ctx) (l1 ++ l2))
| pg_add g l1 l2 ctx qs g' ctx' i :
    snap_pg_get_next g ctx = Ok (g', ctx', i) ->
    pg_step n (mk_sys g (l1 ++ (ctx, qs) :: l2)) (mk_sys g' (l1 ++ (ctx', i :: qs) :: l2))
| pg_remove g l1 l2 ctx qs1 qs2 i g' :
    snap_pg_usage_decrease g i = Ok g' ->
    pg_step n (mk_sys g (l1 ++ (ctx, qs1 ++ i :: qs2) :: l2)) (mk_sys g' (l1 ++ (ctx, qs1 ++ qs2) :: l2)).

(** The queues in group [i], over all controllers. *)
Definition queues_in (i : nat) (l : list (snap_pg_ctx * list nat)) : Z :=
  sumZ (map (fun c => Z.of_nat (count_occ Nat.eq_dec (snd c) i)) l).

(** The counters count: the reference count is the number of controllers, the
    usage table exists while there is one, and it holds the number of queues of
    each group. *)
Record pg_inv (n : Z) (s : pg_sys) : Prop := {
  inv_refs : virtio_pg_ref_count (glob s) = Z.of_nat (length (ctxs s));
  inv_bound : Z.of_nat (length (ctxs s)) < 2 ^ 64;
  inv_null : ctxs s = [] -> virtio_pg_usage (glob s) = None;
  inv_usage : ctxs s <> [] -> exists usage, virtio_pg_usage (glob s) = Some usage /\
    Z.of_nat (length usage) = n /\
    forall i u, usage !! i = Some u -> u = u64 (queues_in i (ctxs s));
  inv_ctx : Forall (fun c => npgs (fst c) = n /\ Z.of_nat (length (pgs (fst c))) = n /\
    Forall (fun i => (i < Z.to_nat n)%nat) (snd c)) (ctxs s);
}.

(** * Lemmas *)

Lemma queues_in_app i l1 l2 : queues_in i (l1 ++ l2) = queues_in i l1 + queues_in i l2.
Proof. unfold queues_in. by rewrite map_app, sumZ_app. Qed.

Lemma queues_in_cons i c l : queues_in i (c :: l) = Z.of_nat (count_occ Nat.eq_dec (snd c) i) + queues_in i l.
Proof. done. Qed.

(** The search stays in the table and finds an index with a least counter. *)
Lemma least_used_ok usage : forall n i best,
  (best < i)%nat -> (i + n <= length usage)%nat ->
  (forall j uj ub, (j < i)%nat -> usage !! j = Some uj -> usage !! best = Some ub -> ub <= uj) ->
  exists b, least_used usage n i best = Ok b /\ (b < i + n)%nat /\
    forall j uj ub, (j < i + n)%nat -> usage !! j = Some uj -> usage !! b = Some ub -> ub <= uj.
Proof.
  induction n as [|n IH]; intros i best Hb Hlen Hmin; cbn [least_used].
  - exists best. rewrite Nat.add_0_r. done.
  - destruct (lookup_lt_is_Some_2 usage i) as [ui Hui]; [lia|].
    destruct (lookup_lt_is_Some_2 usage best) as [ub Hub]; [lia|]. rewrite Hui, Hub.
    destruct (IH (S i) (if ui <? ub then i else best)) as (b & Hrun & Hbn & Hbm); [case_match; lia|lia| |].
    { intros j uj ubest Hj Huj. destruct (Z.ltb_spec ui ub) as [Hlt|Hge]; intros Hbest.
      - destruct (decide (j = i)) as [->|]; [simplify_eq; lia|]. specialize (Hmin j uj ub ltac:(lia) Huj Hub).
        simplify_eq. lia.
      - destruct (decide (j = i)) as [->|]; [simplify_eq; lia|]. apply (Hmin j uj ubest); [lia|done|done]. }
    exists b. rewrite Nat.add_succ_r in *. done.
Qed.

(** [snap_pg_get_next] on a table that covers the groups of the controller. *)
Lemma get_next_ok g ctx usage :
  virtio_pg_usage g = Some usage -> 0 < npgs ctx -> npgs ctx <= Z.of_nat (length usage) ->
  Z.of_nat (length (pgs ctx)) = npgs ctx ->
  exists i u pg, (i < Z.to_nat (npgs ctx))%nat /\ usage !! i = Some u /\
    (forall j uj, (j < Z.to_nat (npgs ctx))%nat -> usage !! j = Some uj -> u <= uj) /\
    pgs ctx !! i = Some pg /\
    snap_pg_get_next g ctx =
      Ok (mk_globals (Some (<[i := u64 (u + 1)]> usage)) (virtio_pg_ref_count g),
          mk_ctx (<[i := mk_pg (Z.of_nat i) (locked pg)]> (pgs ctx)) (npgs ctx), i).
Proof.
  intros Hu Hn Hlen Hpgs. unfold snap_pg_get_next. rewrite Hu.
  destruct (least_used_ok usage (Z.to_nat (npgs ctx) - 1) 1 0) as (b & -> & Hb & Hmin); [lia|lia| |].
  { intros [|j] uj ub Hj Huj Hub; [simplify_eq; lia|lia]. }
  cbn [res_bind]. replace (1 + (Z.to_nat (npgs ctx) - 1))%nat with (Z.to_nat (npgs ctx)) in * by lia.
  destruct (lookup_lt_is_Some_2 usage b) as [u Hub]; [lia|].
  destruct (lookup_lt_is_Some_2 (pgs ctx) b) as [pg Hpg]; [lia|].
  rewrite Hub, Hpg. exists b, u, pg. split_and!; auto.
  intros j uj Hj Huj. eapply Hmin; eauto.
Qed.

Lemma u64_succ_eq x y d : x = u64 y -> u64 (x + d) = u64 (y + d).
Proof. intros ->. by rewrite u64_add_l. Qed.

(** Adding a queue to a group, or removing one, keeps the counters right. *)
Lemma usage_update (usage : list Z) (i : nat) d l l' :
  (forall j, queues_in j l' = queues_in j l + if decide (j = i) then d else 0) ->
  (forall j u, usage !! j = Some u -> u = u64 (queues_in j l)) ->
  forall j u ui, usage !! i = Some ui -> <[i := u64 (ui + d)]> usage !! j = Some u -> u = u64 (queues_in j l').
Proof.
  intros Hl Hold j u ui Hi Hj. rewrite Hl. destruct (decide (j = i)) as [->|Hne].
  - rewrite list_lookup_insert_eq in Hj by (by eapply lookup_lt_Some). simplify_eq. by apply u64_succ_eq, Hold.
  - rewrite list_lookup_insert_ne in Hj by done. rewrite Z.add_0_r. by apply Hold.
Qed.

Lemma count_occ_middle (i j : nat) l1 l2 :
  Z.of_nat (count_occ Nat.eq_dec (l1 ++ i :: l2) j)
  = Z.of_nat (count_occ Nat.eq_dec (l1 ++ l2) j) + if decide (j = i) then 1 else 0.
Proof.
  rewrite !count_occ_app. cbn [count_occ]. destruct (Nat.eq_dec i j), (decide (j = i)); try congruence; lia.
Qed.

Lemma queues_in_repl j l1 l2 ctx ctx' qs qs' :
  queues_in j (l1 ++ (ctx, qs) :: l2) = queues_in j (l1 ++ (ctx', qs') :: l2)
    + (Z.of_nat (count_occ Nat.eq_dec qs j) - Z.of_nat (count_occ Nat.eq_dec qs' j)).
Proof. rewrite !queues_in_app, !queues_in_cons. cbn [snd]. lia. Qed.

(** ** The invariant *)

Lemma pg_inv_init n : pg_inv n pg_init.
Proof. by split. Qed.

Lemma alloc_inv n c1 c2 g l g' ctx r :
  0 < n -> pg_inv n (mk_sys g l) -> snap_pgs_alloc c1 c2 g n = (g', ctx, r) -> Z.of_nat (length l) + 1 < 2 ^ 64 ->
  pg_inv n (mk_sys g' (if r =? 0 then (ctx, []) :: l else l)).
Proof.
  intros Hn Hinv Halloc Hb. pose proof Hinv as [Hrefs _ Hnull Husage Hctx]. cbn [glob ctxs] in *.
  unfold snap_pgs_alloc in Halloc. destruct c1; cbn [negb] in Halloc; [|by simplify_eq].
  assert (npgs (mk_ctx (repeat (mk_pg 0 false) (Z.to_nat n)) n) = n /\
    Z.of_nat (length (repeat (mk_pg 0 false) (Z.to_nat n))) = n) as Hnew by (rewrite repeat_length; cbn; lia).
  destruct (virtio_pg_usage g) as [usage|] eqn:Hu.
  - simplify_eq. cbn [Z.eqb]. split; cbn [glob ctxs virtio_pg_ref_count virtio_pg_usage length].
    + rewrite Hrefs, u64_small; lia.
    + lia.
    + done.
    + intros _. destruct l as [|c l]; [by specialize (Hnull eq_refl)|].
      destruct Husage as (usage' & Hu' & Hlen & Hq); [done|]. simplify_eq. exists usage'. split_and!; [done|done|].
      intros i u Hi. rewrite queues_in_cons. cbn [snd count_occ Z.of_nat]. by apply Hq.
    + constructor; [|done]. cbn [fst snd]. naive_solver.
  - assert (l = []) as ->.
    { destruct l as [|c l]; [done|]. destruct Husage as (? & ? & _); [done|]. simplify_eq. }
    destruct c2; cbn [negb] in Halloc; [|by simplify_eq]. simplify_eq. cbn [Z.eqb].
    split; cbn [glob ctxs virtio_pg_ref_count virtio_pg_usage length].
    + done.
    + lia.
    + done.
    + intros _. exists (repeat 0 (Z.to_nat n)). rewrite repeat_length. split_and!; [done|lia|].
      intros i u Hi. apply list_elem_of_lookup_2, list_elem_of_In, repeat_spec in Hi. by subst u.
    + constructor; [|done]. cbn [fst snd]. naive_solver.
Qed.

Lemma free_inv n g l1 l2 ctx :
  0 < n -> pg_inv n (mk_sys g (l1 ++ (ctx, []) :: l2)) -> pg_inv n (mk_sys (snap_pgs_free g ctx) (l1 ++ l2)).
Proof.
  intros Hn [Hrefs Hb Hnull Husage Hctx]. cbn [glob ctxs] in *.
  apply Forall_app in Hctx as [Hc1 [[Hnp _] Hc2]%Forall_cons]. cbn [fst] in Hnp.
  destruct Husage as (usage & Hu & Hlen & Hq); [by destruct l1|].
  unfold snap_pgs_free. destruct (Z.eqb_spec (npgs ctx) 0); [lia|].
  rewrite length_app in *. cbn [length] in *. rewrite (u64_small (_ - 1)) by lia.
  split; cbn [glob ctxs virtio_pg_ref_count virtio_pg_usage].
  - rewrite length_app. lia.
  - rewrite length_app. lia.
  - intros He. apply app_eq_nil in He as [-> ->]. cbn in Hrefs. destruct (Z.eqb_spec (virtio_pg_ref_count g - 1) 0); [done|lia].
  - intros He. destruct (Z.eqb_spec (virtio_pg_ref_count g - 1) 0) as [Hz|_].
    { exfalso. apply He. assert (length l1 = 0 /\ length l2 = 0)%nat as [?%nil_length_inv ?%nil_length_inv] by lia.
      by subst. }
    exists usage. split_and!; [done|done|]. intros i u Hi. rewrite (Hq i u Hi), !queues_in_app, queues_in_cons. done.
  - by apply Forall_app.
Qed.

Lemma add_inv n g l1 l2 ctx qs g' ctx' i :
  0 < n -> pg_inv n (mk_sys g (l1 ++ (ctx, qs) :: l2)) -> snap_pg_get_next g ctx = Ok (g', ctx', i) ->
  pg_inv n (mk_sys g' (l1 ++ (ctx', i :: qs) :: l2)).
Proof.
  intros Hn [Hrefs Hb Hnull Husage Hctx] Hrun. cbn [glob ctxs] in *.
  apply Forall_app in Hctx as [Hc1 [(Hnp & Hpl & Hqs) Hc2]%Forall_cons]. cbn [fst snd] in *.
  destruct Husage as (usage & Hu & Hlen & Hq); [by destruct l1|].
  destruct (get_next_ok g ctx usage Hu) as (b & u & pg & Hbn & Hub & _ & _ & Hok); [lia..|].
  rewrite Hrun in Hok. simplify_eq. rewrite length_app in *. cbn [length] in *.
  split; cbn [glob ctxs virtio_pg_ref_count virtio_pg_usage]; try (rewrite length_app; cbn [length]; lia).
  - by destruct l1.
  - intros _. eexists. split; [done|]. rewrite length_insert. split; [lia|].
    intros j uj Hj. eapply (usage_update usage b 1 _ _); [|exact Hq|exact Hub|exact Hj].
    intros k. rewrite (queues_in_repl k l1 l2 _ ctx (b :: qs) qs). f_equal.
    pose proof (count_occ_middle b k [] qs) as Hm. cbn [app] in Hm. lia.
  - apply Forall_app. split; [done|]. constructor; [|done]. cbn [fst snd npgs pgs]. rewrite length_insert.
    split_and!; [lia|lia|]. constructor; [lia|done].
Qed.

Lemma remove_inv n g l1 l2 ctx qs1 qs2 i g' :
  pg_inv n (mk_sys g (l1 ++ (ctx, qs1 ++ i :: qs2) :: l2)) -> snap_pg_usage_decrease g i = Ok g' ->
  pg_inv n (mk_sys g' (l1 ++ (ctx, qs1 ++ qs2) :: l2)).
Proof.
  intros [Hrefs Hb Hnull Husage Hctx] Hrun. cbn [glob ctxs] in *.
  apply Forall_app in Hctx as [Hc1 [(Hnp & Hpl & Hqs) Hc2]%Forall_cons]. cbn [fst snd] in *.
  destruct Husage as (usage & Hu & Hlen & Hq); [by destruct l1|].
  unfold snap_pg_usage_decrease in Hrun. rewrite Hu in Hrun. destruct (usage !! i) as [u|] eqn:Hui; simplify_eq.
  rewrite length_app in *. cbn [length] in *.
  split; cbn [glob ctxs virtio_pg_ref_count virtio_pg_usage]; try (rewrite length_app; cbn [length]; lia).
  - by destruct l1.
  - intros _. eexists. split; [done|]. rewrite length_insert. split; [lia|].
    intros j uj Hj. eapply (usage_update usage i (-1) _ _); [|exact Hq|exact Hui|exact Hj].
    intros k. rewrite (queues_in_repl k l1 l2 ctx ctx (qs1 ++ qs2) (qs1 ++ i :: qs2)). f_equal.
    rewrite count_occ_middle. destruct (decide (k = i)); lia.
  - apply Forall_app. split; [done|]. constructor; [|done]. cbn [fst snd]. split_and!; [lia|lia|].
    apply Forall_app in Hqs as [? [_ ?]%Forall_cons]. by apply Forall_app.
Qed.

#[export] Hint Resolve pg_inv_init alloc_inv free_inv add_inv remove_inv : snap.

Lemma pg_step_inv n s s' : 0 < n -> pg_inv n s -> pg_step n s s' -> pg_inv n s'.
Proof. intros Hn Hinv Hstep. destruct Hstep; eauto with snap. Qed.

(** Locking all groups and unlocking them restores the context. *)
Lemma suspend_resume ctx :
  Forall (fun pg => locked pg = false) (pgs ctx) ->
  exists ctx', snap_pgs_suspend ctx = Some ctx' /\ Forall (fun pg => locked pg = true) (pgs ctx') /\
    snap_pgs_suspend ctx' = (if pgs ctx is [] then Some ctx' else None) /\ snap_pgs_resume ctx' = Some ctx.
Proof.
  destruct ctx as [l n]. unfold snap_pgs_suspend, snap_pgs_resume. cbn [pgs npgs]. intros Hl.
  assert (exists l', lock_groups l = Some l' /\ Forall (fun pg => locked pg = true) l' /\
    lock_groups l' = (if l is [] then Some l' else None) /\ unlock_groups l' = Some l) as (l' & -> & Hall & Hlk & Hun).
  { induction Hl as [|[id lk] l Hpg Hl (l' & Hlk & Hall & Hd & Hun)]; [by exists []|]. cbn in Hpg. subst lk.
    exists (mk_pg id true :: l'). cbn. rewrite Hlk, Hun. split_and!; auto. }
  exists (mk_ctx l' n). cbn. rewrite Hlk, Hun. split_and!; auto. by destruct l.
Qed.

(** A search past the end of the table leaves it. *)
Lemma least_used_oob (usage : list Z) : forall n i best,
  (best < length usage)%nat -> (i <= length usage)%nat -> (length usage < i + n)%nat ->
  least_used usage n i best = Oob.
Proof.
  induction n as [|n IH]; intros i best Hb Hi Hlen; [lia|]. cbn [least_used].
  destruct (usage !! i) as [ui|] eqn:Hui; [|done]. apply lookup_lt_Some in Hui.
  destruct (lookup_lt_is_Some_2 usage best Hb) as [ub ->]. apply IH; [case_match; lia|lia|lia].
Qed.

(** * Claims *)


(** The usage table is sized by the first controller: for a controller with
    more groups than the one that allocated it, [snap_pg_get_next] reads past its
    end. *)
Theorem pg_larger_ctx_oob n m c1 c2 c3 c4 g1 ctx1 g2 ctx2 :
  0 < n < m -> snap_pgs_alloc c1 c2 (mk_globals None 0) n = (g1, ctx1, 0) ->
  snap_pgs_alloc c3 c4 g1 m = (g2, ctx2, 0) -> snap_pg_get_next g2 ctx2 = Oob.
Proof.
  intros Hnm H1 H2. unfold snap_pgs_alloc in H1. cbn [virtio_pg_usage] in H1.
  destruct c1; cbn [negb] in H1; [|simplify_eq]. destruct c2; cbn [negb] in H1; [|simplify_eq]. simplify_eq.
  unfold snap_pgs_alloc in H2. cbn [virtio_pg_usage] in H2. destruct c3; cbn [negb] in H2; simplify_eq.
  unfold snap_pg_get_next. cbn [virtio_pg_usage npgs]. rewrite least_used_oob; [done|rewrite repeat_length; lia..].
Qed.

(** ** Witnesses *)

Definition two_ctx : pg_sys :=
  mk_sys (mk_globals (Some [1; 0]) 2)
    [(mk_ctx [mk_pg 0 false; mk_pg 0 false] 2, []); (mk_ctx [mk_pg 0 false; mk_pg 0 false] 2, [0%nat])].


Lemma pg_larger_ctx_oob_witness :
  exists g1 ctx1 g2 ctx2, snap_pgs_alloc true true (mk_globals None 0) 1 = (g1, ctx1, 0) /\
    snap_pgs_alloc true true g1 4 = (g2, ctx2, 0) /\ snap_pg_get_next g2 ctx2 = Oob.
Proof.
  do 4 eexists. split; [reflexivity|]. split; [reflexivity|].
  apply (pg_larger_ctx_oob 1 4 true true true true _ _ _ _ ltac:(lia) eq_refl eq_refl).
Defined.
