(* ===== verification/Virtq.v ===== *)
(** The virtqueue of a controller: src/ctrl/virtq_common.c and virtq_common.h.

    A command of the host is served by a state machine; [virtq_cmd_progress]
    runs the handler of the current state until one of them waits for a
    completion.  The handlers here are common to all device types; what a device
    type adds is the record [virtq_impl_ops] and the table of handlers, as in the
    code.  Everything outside (DMA queue, block device, memory, firmware) is
    reached through [call], the answers being those of an arbitrary environment;
    the calls made and the operations in flight are recorded in the [world]. *)

From S2P Require Import Prelude BlkDescs DpMap.

(** * The environment *)

(** What a short inline write carries. *)
Inductive payload :=
| PStatus (status : Z)
| PUsedElem (id len : Z)
| PUsedIdx (idx : Z)
| PDirty (n : Z).

(** The calls that leave the component.  The first argument of an operation that
    completes later is the index of its command; [laddr]/[lkey] are the address
    and the key on our side, [raddr]/[rkey] those of the host. *)
Inductive ext_op :=
| DmaRead (cmd : nat) (laddr len lkey raddr rkey : Z)
| DmaWrite (cmd : nat) (laddr len lkey raddr rkey : Z)
| DmaWriteShort (data : payload) (len raddr rkey : Z)
| DmaSendCompletion (descr_head_idx len : Z)
| DmaFlush
| DpaSendStatus (status len raddr : Z)
| DpaComplete (id len : Z)
| BdevRead (cmd : nat) (buf offset len pg : Z)
| BdevWrite (cmd : nat) (buf offset len pg : Z)
| BdevReadv (cmd : nat) (iov : list (Z * Z)) (offset_blocks num_blocks pg : Z)
| BdevWritev (cmd : nat) (iov : list (Z * Z)) (offset_blocks num_blocks pg : Z)
| BdevFlush (cmd : nat) (offset len pg : Z)
| BdevNumBlocks
| BdevBlockSize
| BdevZcopyValidate (iov : list (Z * Z)) (offset len : Z)
| BdevPrintName (buf size : Z)
| DmaMalloc (len : Z)
| DmaFree (ptr : Z)
| PoolMalloc (cmd : nat) (len : Z)
| PoolFree (ptr : Z)
| Calloc (len : Z)
| Free (ptr : Z)
| RegMr (ptr len : Z)
| DeregMr (mr : Z)
| ChannelMarkDirty (pa len : Z)
| QueueModifySuspend.

#[export] Instance payload_eq_dec : EqDecision payload.
Proof. solve_decision. Defined.
#[export] Instance ext_op_eq_dec : EqDecision ext_op.
Proof. solve_decision. Defined.

(** An environment answers a call with a number: an error code, a pointer, a
    size. *)
Class Env (E : Type) := call : E -> ext_op -> E * Z.

(** The environment, the calls made with their answers, oldest first, and the
    commands with an operation in flight, one entry per operation. *)
Record world (E : Type) := mk_world {
  env : E;
  trace : list (ext_op * Z);
  in_dma : list nat;
  in_bdev : list nat;
  in_pool : list nat
}.
Arguments mk_world {E}.
Arguments env {E}.
Arguments trace {E}.
Arguments in_dma {E}.
Arguments in_bdev {E}.
Arguments in_pool {E}.
#[export] Instance world_settable E : Settable (world E) :=
  fun r => mk_world (env r) (trace r) (in_dma r) (in_bdev r) (in_pool r).

(** An accepted operation is in flight until its completion. *)
Definition do_call {E} `{Env E} (w : world E) (op : ext_op) : world E * Z :=
  let '(e, ret) := call (env w) op in
  let w := w ⦇ env := e ⦈ ⦇ trace := trace w ++ [(op, ret)] ⦈ in
  match op with
  | DmaRead i _ _ _ _ _ | DmaWrite i _ _ _ _ _ =>
      (if ret =? 0 then w ⦇ in_dma := i :: in_dma w ⦈ else w, ret)
  | BdevRead i _ _ _ _ | BdevWrite i _ _ _ _ | BdevReadv i _ _ _ _ | BdevWritev i _ _ _ _ | BdevFlush i _ _ _ =>
      (if ret =? 0 then w ⦇ in_bdev := i :: in_bdev w ⦈ else w, ret)
  | PoolMalloc i _ => (if ret =? 0 then w ⦇ in_pool := i :: in_pool w ⦈ else w, ret)
  | _ => (w, ret)
  end.

(** * The states of a command and of a queue *)

Inductive virtq_cmd_sm_op_status := VIRTQ_CMD_SM_OP_OK | VIRTQ_CMD_SM_OP_ERR.

Inductive virtq_sw_state := SW_VIRTQ_RUNNING | SW_VIRTQ_FLUSHING | SW_VIRTQ_SUSPENDED.

#[export] Instance virtq_sw_state_eq_dec : EqDecision virtq_sw_state.
Proof. solve_decision. Defined.

(** [enum virtq_cmd_sm_state]; the code keeps it in an integer and indexes the
    table of handlers with it. *)
Definition VIRTQ_CMD_STATE_IDLE : Z := 0.
Definition VIRTQ_CMD_STATE_FETCH_CMD_DESCS : Z := 1.
Definition VIRTQ_CMD_STATE_READ_HEADER : Z := 2.
Definition VIRTQ_CMD_STATE_PARSE_HEADER : Z := 3.
Definition VIRTQ_CMD_STATE_READ_DATA : Z := 4.
Definition VIRTQ_CMD_STATE_HANDLE_REQ : Z := 5.
Definition VIRTQ_CMD_STATE_OUT_DATA_DONE : Z := 6.
Definition VIRTQ_CMD_STATE_IN_DATA_DONE : Z := 7.
Definition VIRTQ_CMD_STATE_WRITE_STATUS : Z := 8.
Definition VIRTQ_CMD_STATE_SEND_COMP : Z := 9.
Definition VIRTQ_CMD_STATE_SEND_IN_ORDER_COMP : Z := 10.
Definition VIRTQ_CMD_STATE_RELEASE : Z := 11.
Definition VIRTQ_CMD_STATE_FATAL_ERR : Z := 12.
Definition VIRTQ_CMD_NUM_OF_STATES : Z := 13.

Inductive virtq_fetch_desc_status := VIRTQ_FETCH_DESC_DONE | VIRTQ_FETCH_DESC_ERR | VIRTQ_FETCH_DESC_READ.

(** ** Statistics: [struct snap_virtio_ctrl_queue_counter], one per kind of
    request of [struct snap_virtio_ctrl_queue_stats]. *)
Inductive io_kind := IoRead | IoWrite | IoFlush.

Record io_counter := mk_io {
  st_total : Z;
  st_success : Z;
  st_fail : Z;
  st_unordered : Z;
  st_merged_desc : Z;
  st_long_desc_chain : Z;
  st_large_in_buf : Z
}.
#[export] Instance io_counter_settable : Settable io_counter :=
  fun r =>
    mk_io (st_total r) (st_success r) (st_fail r) (st_unordered r) (st_merged_desc r)
      (st_long_desc_chain r) (st_large_in_buf r).

(** * Commands and queues *)

(** Where the descriptors of a command are kept: in the memory of the queue, or
    in a block of their own from [calloc]. *)
Inductive mem_src := InQueueData | OnHeap.

(** [struct virtq_cmd].  [descs] are the descriptors at [aux], up to the size of
    that memory, [slot_descs] the contents of the place for them in the memory of the
    queue while [aux] is elsewhere; a memory region is a number; [io_cmd_stat] says which counters it
    points to; [impl] is what the device type adds ([struct blk_virtq_cmd]). *)
Record virtq_cmd (X : Type) := mk_cmd {
  cmd_idx : nat;
  descr_head_idx : Z;
  num_desc : Z;
  num_merges : Z;
  cmd_state : Z;
  buf : Z;
  req_size : Z;
  aux : Z;
  aux_src : mem_src;
  aux_mr : Z;
  descs : list vring_desc;
  slot_descs : list vring_desc;
  mr : Z;
  req_buf : Z;
  req_mr : Z;
  dma_count : Z;
  total_seg_len : Z;
  total_in_len : Z;
  use_dmem : bool;
  io_cmd_stat : option io_kind;
  cmd_available_index : Z;
  indirect_pos : Z;
  indirect_len : Z;
  use_seg_dmem : bool;
  is_indirect : bool;
  impl : X
}.
Arguments mk_cmd {X}.
Arguments cmd_idx {X}.
Arguments descr_head_idx {X}.
Arguments num_desc {X}.
Arguments num_merges {X}.
Arguments cmd_state {X}.
Arguments buf {X}.
Arguments req_size {X}.
Arguments aux {X}.
Arguments aux_src {X}.
Arguments aux_mr {X}.
Arguments descs {X}.
Arguments slot_descs {X}.
Arguments mr {X}.
Arguments req_buf {X}.
Arguments req_mr {X}.
Arguments dma_count {X}.
Arguments total_seg_len {X}.
Arguments total_in_len {X}.
Arguments use_dmem {X}.
Arguments io_cmd_stat {X}.
Arguments cmd_available_index {X}.
Arguments indirect_pos {X}.
Arguments indirect_len {X}.
Arguments use_seg_dmem {X}.
Arguments is_indirect {X}.
Arguments impl {X}.
#[export] Instance virtq_cmd_settable X : Settable (virtq_cmd X) :=
  fun r =>
    mk_cmd (cmd_idx r) (descr_head_idx r) (num_desc r) (num_merges r) (cmd_state r) (buf r)
      (req_size r) (aux r) (aux_src r) (aux_mr r) (descs r) (slot_descs r) (mr r) (req_buf r) (req_mr r)
      (dma_count r) (total_seg_len r) (total_in_len r) (use_dmem r) (io_cmd_stat r)
      (cmd_available_index r) (indirect_pos r) (indirect_len r) (use_seg_dmem r) (is_indirect r)
      (impl r).

(** [struct virtq_priv] with what it points to: the counters [cmd_cntrs], the
    attributes [vattr] of the queue ([vq_*], [dma_mkey], [hw_used_index]), the
    controller's migration state ([log_writes_to_host], [lm_channel], [dp_map]) and
    detach flag, and the statistics.  The memory pool and zero-copy switches are
    [use_mem_pool] and [zcopy_on]. *)
Record virtq_priv := mk_priv {
  swq_state : virtq_sw_state;
  fatal_err : bool;
  outstanding_total : Z;
  outstanding_in_bdev : Z;
  outstanding_to_host : Z;
  fatal : Z;
  seg_max : Z;
  size_max : Z;
  pg_id : Z;
  ctrl_available_index : Z;
  force_in_order : bool;
  ctrl_used_index : Z;
  zcopy_on : bool;
  merge_descs : bool;
  use_mem_pool : bool;
  thread_id : Z;
  vq_size : Z;
  vq_desc : Z;
  vq_device : Z;
  dma_mkey : Z;
  hw_used_index : Z;
  log_writes_to_host : bool;
  lm_channel : bool;
  dp_map : option snap_dp_bmap;
  pending_bdev_detach : bool;
  uncomp_bdev_cmds : Z;
  stat_read : io_counter;
  stat_write : io_counter;
  stat_flush : io_counter
}.
#[export] Instance virtq_priv_settable : Settable virtq_priv :=
  fun r =>
    mk_priv (swq_state r) (fatal_err r) (outstanding_total r) (outstanding_in_bdev r)
      (outstanding_to_host r) (fatal r) (seg_max r) (size_max r) (pg_id r)
      (ctrl_available_index r) (force_in_order r) (ctrl_used_index r) (zcopy_on r)
      (merge_descs r) (use_mem_pool r) (thread_id r) (vq_size r) (vq_desc r) (vq_device r)
      (dma_mkey r) (hw_used_index r) (log_writes_to_host r) (lm_channel r) (dp_map r)
      (pending_bdev_detach r) (uncomp_bdev_cmds r) (stat_read r) (stat_write r) (stat_flush r).

Definition stat_of (k : io_kind) (p : virtq_priv) : io_counter :=
  match k with IoRead => stat_read p | IoWrite => stat_write p | IoFlush => stat_flush p end.

Definition set_stat (k : io_kind) (v : io_counter) (p : virtq_priv) : virtq_priv :=
  match k with
  | IoRead => p ⦇ stat_read := v ⦈
  | IoWrite => p ⦇ stat_write := v ⦈
  | IoFlush => p ⦇ stat_flush := v ⦈
  end.

(** What a handler works on: the world, the queue and the command. *)
Record vst (E X : Type) := mk_vst {
  vw : world E;
  vp : virtq_priv;
  vc : virtq_cmd X
}.
Arguments mk_vst {E X}.
Arguments vw {E X}.
Arguments vp {E X}.
Arguments vc {E X}.
#[export] Instance vst_settable E X : Settable (vst E X) := fun r => mk_vst (vw r) (vp r) (vc r).

Definition set_state {E X} (s : vst E X) (v : Z) : vst E X := s ⦇ vc := (vc s) ⦇ cmd_state := v ⦈ ⦈.

(** A call that leaves the component. *)
Definition ext {E X} `{Env E} (s : vst E X) (op : ext_op) : vst E X * Z :=
  let '(w, ret) := do_call (vw s) op in (s ⦇ vw := w ⦈, ret).

(** * What a device type provides: [struct virtq_impl_ops], and its table of
    handlers [custom_sm] ([VirtqSm]).  [status_data] returns the status, its size and the
    index of the descriptor it goes to; [descs_at] is the address of the
    descriptors. *)
Class VirtqImpl (E X : Type) := {
  descs_at : virtq_cmd X -> Z;
  error_status : virtq_cmd X -> virtq_cmd X;
  clear_status : virtq_cmd X -> virtq_cmd X;
  status_data : virtq_cmd X -> Z * Z * Z;
  release_cmd : vst E X -> vst E X;
  descs_processing : vst E X -> res (vst E X);
  mem_pool_release : vst E X -> vst E X;
  seg_dmem : vst E X -> res (vst E X * Z);
  seg_dmem_release : vst E X -> res (vst E X * bool);
  send_comp : vst E X -> vst E X * Z;
  send_status : option (Z -> Z -> Z -> ext_op);
}.

Class VirtqSm (E X : Type) :=
  sm_array : list (vst E X -> virtq_cmd_sm_op_status -> res (vst E X * bool)).

Section Common.
Context {E X : Type} `{Env E} `{VirtqImpl E X}.
#[local] Abbreviation st := (vst E X).

(** * Fetching the descriptors of a command *)

(** The loop that follows the [next] links of an indirect table from its first
    entry: the entries visited and the value [i] ends with. *)
Fixpoint indirect_loop (n i : nat) (j : Z) (table tmp : list vring_desc) : res (nat * list vring_desc) :=
  match n with
  | O => Ok (i, tmp)
  | S n' =>
      match table !! Z.to_nat j with
      | None => Oob
      | Some d =>
          if has_flag (d_flags d) VRING_DESC_F_NEXT
          then indirect_loop n' (S i) (d_next d) table (tmp ++ [d])
          else Ok (i, tmp ++ [d])
      end
  end.

(** The descriptor [d] with its first [r] bytes cleared (little endian). *)
Definition zero_prefix (r : Z) (d : vring_desc) : vring_desc :=
  let clear lo w v := let k := 8 * Z.min w (Z.max 0 (r - lo)) in Z.shiftl (Z.shiftr v k) k in
  mk_desc (clear 0 8 (d_addr d)) (clear 8 4 (d_len d)) (clear 12 2 (d_flags d)) (clear 14 2 (d_next d)).

Definition zero_desc : vring_desc := mk_desc 0 0 0 0.

(** [memcpy(descs_indrect, descs_tmp, indirect_len)]: the entries visited, zeros
    up to the length of the table, and the bytes of a last entry cut short. *)
Definition indirect_write_back (table tmp : list vring_desc) (len : Z) : res (list vring_desc) :=
  let n := Z.to_nat (len / sizeof_vring_desc) in
  if Z.of_nat (length table) * sizeof_vring_desc <? len then Oob
  else
    let rest := drop n table in
    let rest := if len mod sizeof_vring_desc =? 0 then rest
                else match rest with [] => [] | d :: l => zero_prefix (len mod sizeof_vring_desc) d :: l end in
    Ok (take n (tmp ++ repeat zero_desc n) ++ rest).

Definition fetch_indirect (s : st) : res (st * virtq_fetch_desc_status) :=
  let c := vc s in
  let '(s, tmp) := ext s (Calloc (indirect_len c)) in
  if tmp =? 0 then Ok (s, VIRTQ_FETCH_DESC_ERR)
  else
    let table := drop (Z.to_nat (indirect_pos c)) (descs c) in
    let indirect_num := u16 (indirect_len c / sizeof_vring_desc) in
    let? r := indirect_loop (Z.to_nat indirect_num) 0 0 table [] in
    let '(i, visited) := r in
    let? table' := indirect_write_back table visited (indirect_len c) in
    let c := c ⦇ num_desc := u64 (num_desc c + Z.of_nat i + 1) ⦈
               ⦇ descs := take (Z.to_nat (indirect_pos c)) (descs c) ++ table' ⦈ in
    let '(s, _) := ext (s ⦇ vc := c ⦈) (Free tmp) in
    Ok (s, VIRTQ_FETCH_DESC_DONE).

(** Where the next descriptors are read from, their length, and the command
    after the case analysis; [None] when there is nothing more to read. *)
Definition next_desc_src (p : virtq_priv) (c : virtq_cmd X) : res (option (Z * Z * virtq_cmd X)) :=
  let in_ring i := u64 (vq_desc p + u16 i * sizeof_vring_desc) in
  if num_desc c =? 0 then Ok (Some (in_ring (descr_head_idx c mod vq_size p), sizeof_vring_desc, c))
  else
    match descs c !! Z.to_nat (num_desc c - 1) with
    | None => Oob
    | Some d =>
        if has_flag (d_flags d) VRING_DESC_F_NEXT
        then Ok (Some (in_ring (d_next d), sizeof_vring_desc, c))
        else if has_flag (d_flags d) VRING_DESC_F_INDIRECT
        then Ok (Some (d_addr d, d_len d,
               c ⦇ num_desc := num_desc c - 1 ⦈ ⦇ is_indirect := true ⦈
                 ⦇ indirect_pos := u16 (num_desc c - 1) ⦈ ⦇ indirect_len := u16 (d_len d) ⦈))
        else Ok None
    end.

Definition fetch_next_desc (s : st) : res (st * virtq_fetch_desc_status) :=
  if is_indirect (vc s) then fetch_indirect s
  else
    let? src := next_desc_src (vp s) (vc s) in
    match src with
    | None => Ok (s, VIRTQ_FETCH_DESC_DONE)
    | Some (srcaddr, len, c) =>
        let? r := seg_dmem (s ⦇ vc := c ⦈) in
        let '(s, ret) := r in
        if negb (ret =? 0) then Ok (s, VIRTQ_FETCH_DESC_ERR)
        else
          let s := s ⦇ vc := (vc s) ⦇ dma_count := 1 ⦈ ⦈ in
          let c := vc s in
          let '(s, ret) := ext s (DmaRead (cmd_idx c) (u64 (descs_at c + num_desc c * sizeof_vring_desc)) len
                                    (aux_mr c) srcaddr (dma_mkey (vp s))) in
          if negb (ret =? 0) then Ok (s, VIRTQ_FETCH_DESC_ERR)
          else
            let c := vc s in
            let c := if is_indirect c then c else c ⦇ num_desc := u64 (num_desc c + 1) ⦈ in
            let p := vp s in
            Ok (s ⦇ vc := c ⦈ ⦇ vp := p ⦇ outstanding_to_host := u32 (outstanding_to_host p + 1) ⦈ ⦈,
                VIRTQ_FETCH_DESC_READ)
    end.

(** * The common handlers *)

Definition virtq_sm_idle (s : st) (status : virtq_cmd_sm_op_status) : res (st * bool) := Ok (s, false).

Definition virtq_sm_fetch_cmd_descs (s : st) (status : virtq_cmd_sm_op_status) : res (st * bool) :=
  match status with
  | VIRTQ_CMD_SM_OP_ERR =>
      let c := vc s in
      Ok (set_state (s ⦇ vc := c ⦇ num_desc := u64 (num_desc c - 1) ⦈ ⦈) VIRTQ_CMD_STATE_FATAL_ERR, true)
  | VIRTQ_CMD_SM_OP_OK =>
      let? r := fetch_next_desc s in
      let '(s, ret) := r in
      match ret with
      | VIRTQ_FETCH_DESC_ERR => Ok (set_state s VIRTQ_CMD_STATE_FATAL_ERR, true)
      | VIRTQ_FETCH_DESC_DONE =>
          let? s := descs_processing s in
          if cmd_state (vc s) =? VIRTQ_CMD_STATE_FATAL_ERR then Ok (s, true)
          else Ok (set_state s VIRTQ_CMD_STATE_READ_HEADER, true)
      | VIRTQ_FETCH_DESC_READ => Ok (s, false)
      end
  end.

Definition virtq_sm_write_back_done (s : st) (status : virtq_cmd_sm_op_status) : res (st * bool) :=
  let s := set_state s VIRTQ_CMD_STATE_WRITE_STATUS in
  match status with
  | VIRTQ_CMD_SM_OP_OK => Ok (s, true)
  | VIRTQ_CMD_SM_OP_ERR => Ok (s ⦇ vc := error_status (vc s) ⦈, true)
  end.

(** ** Logging of dirty memory *)

Definition sizeof_virtq_split_tunnel_comp : Z := 8.

(** The inner loop: [size] bytes of the host map are set, eight at a time. *)
Fixpoint dirty_writes (fuel : nat) (s : st) (size start mkey : Z) : res (st * Z) :=
  match fuel with
  | O => OutOfFuel
  | S fuel' =>
      let to_write := if size <=? sizeof_virtq_split_tunnel_comp then size else sizeof_virtq_split_tunnel_comp in
      let '(s, rc) := ext s (DmaWriteShort (PDirty to_write) to_write start mkey) in
      if rc <? 0 then Ok (s, rc)
      else
        let size := u32 (size - to_write) in
        if 0 <? size then dirty_writes fuel' s size start mkey else Ok (s, rc)
  end.

(** The outer loop.  Outputs of [snap_dp_bmap_get_start_pa] that it did not set
    are read when it found nothing. *)
Fixpoint dirty_loop (fuel : nat) (s : st) (map : snap_dp_bmap) (pa len total_size : Z) : res st :=
  match fuel with
  | O => OutOfFuel
  | S fuel' =>
      let '(ret, out) := snap_dp_bmap_get_start_pa map pa len in
      if i32 ret <? 0 then Ok s
      else
        match out with
        | None => Oob
        | Some (start, _, size) =>
            let total_size := total_size - i32 ret in
            let? r := dirty_writes (S (Z.to_nat (size / 8))) s size start (snap_dp_bmap_get_mkey map) in
            let '(s, rc) := r in
            if rc <? 0 then Ok s
            else if 0 <? total_size then dirty_loop fuel' s map pa len total_size else Ok s
        end
  end.

Definition virtq_mark_dirty_mem (s : st) (pa len : Z) (is_completion : bool) : res st :=
  let p := vp s in
  if negb (log_writes_to_host p) then Ok s
  else
    let pa := if is_completion then vq_device p else pa in
    let len := if is_completion then u32 (6 + 8 * vq_size p) else len in
    if lm_channel p then Ok (fst (ext s (ChannelMarkDirty pa len)))
    else
      match dp_map p with
      | Some map => dirty_loop (S (Z.to_nat len)) s map pa len len
      | None => Ok s
      end.

(** ** Status and completion *)

Definition virtq_sm_write_status (s : st) (status : virtq_cmd_sm_op_status) : res (st * bool) :=
  let s := match status with
           | VIRTQ_CMD_SM_OP_OK => s
           | VIRTQ_CMD_SM_OP_ERR => s ⦇ vc := error_status (vc s) ⦈
           end in
  let '(us_status, status_size, desc) := status_data (vc s) in
  match descs (vc s) !! Z.to_nat desc with
  | None => Oob
  | Some d =>
      let op := match send_status with
                | Some f => f us_status status_size (d_addr d)
                | None => DmaWriteShort (PStatus us_status) status_size (d_addr d) (dma_mkey (vp s))
                end in
      let '(s, ret) := ext s op in
      if negb (ret =? 0) then Ok (set_state s VIRTQ_CMD_STATE_FATAL_ERR, true)
      else
        let? s := virtq_mark_dirty_mem s (d_addr d) status_size false in
        let c := vc s in
        Ok (set_state (s ⦇ vc := c ⦇ total_in_len := u32 (total_in_len c + status_size) ⦈ ⦈)
              VIRTQ_CMD_STATE_SEND_COMP, true)
  end.

Definition offsetof_used_ring (i : Z) : Z := 4 + 8 * i.
Definition offsetof_used_idx : Z := 2.

Definition virtq_sw_send_comp (s : st) : st * Z :=
  let p := vp s in
  let c := vc s in
  let elem_addr := u64 (vq_device p + offsetof_used_ring (hw_used_index p mod vq_size p)) in
  let '(s, ret) := ext s (DmaWriteShort (PUsedElem (descr_head_idx c) (total_in_len c)) 8 elem_addr (dma_mkey p)) in
  if negb (ret =? 0) then (s, ret)
  else
    let p := vp s in
    let s := s ⦇ vp := p ⦇ hw_used_index := u16 (hw_used_index p + 1) ⦈ ⦈ in
    ext s (DmaWriteShort (PUsedIdx (hw_used_index (vp s))) 2 (u64 (vq_device p + offsetof_used_idx)) (dma_mkey p)).

Definition virtq_dpa_send_comp (s : st) : st * Z :=
  ext s (DpaComplete (descr_head_idx (vc s)) (total_in_len (vc s))).

Definition virtq_tunnel_send_comp (s : st) : st * Z :=
  ext s (DmaSendCompletion (descr_head_idx (vc s)) (total_in_len (vc s))).

Definition virtq_sm_send_completion (s : st) (status : virtq_cmd_sm_op_status) : res (st * bool) :=
  match status with
  | VIRTQ_CMD_SM_OP_ERR => Ok (set_state s VIRTQ_CMD_STATE_FATAL_ERR, true)
  | VIRTQ_CMD_SM_OP_OK =>
      let unordered := negb (cmd_available_index (vc s) =? ctrl_used_index (vp s)) in
      let s := match io_cmd_stat (vc s) with
               | Some k =>
                   if unordered
                   then s ⦇ vp := set_stat k ((stat_of k (vp s))
                              ⦇ st_unordered := u64 (st_unordered (stat_of k (vp s)) + 1) ⦈) (vp s) ⦈
                   else s
               | None => s
               end in
      if force_in_order (vp s) && unordered
      then Ok (set_state s VIRTQ_CMD_STATE_SEND_IN_ORDER_COMP, false)
      else
        let '(s, ret) := send_comp s in
        if negb (ret =? 0) then Ok (set_state s VIRTQ_CMD_STATE_FATAL_ERR, true)
        else
          let? s := virtq_mark_dirty_mem s 0 0 true in
          let s := set_state s VIRTQ_CMD_STATE_RELEASE in
          let p := vp s in
          Ok (s ⦇ vp := p ⦇ ctrl_used_index := u16 (ctrl_used_index p + 1) ⦈ ⦈, true)
  end.

(** ** Release *)

Definition virtq_rel_req_dbuf (s : st) : st :=
  let '(s, _) := ext s (DeregMr (req_mr (vc s))) in
  let s := release_cmd s in
  let c := vc s in
  s ⦇ vc := c ⦇ req_buf := buf c ⦈ ⦇ req_mr := mr c ⦈ ⦇ use_dmem := false ⦈ ⦈.

Definition virtq_common_release (s : st) : res (st * bool) :=
  let s := if use_dmem (vc s) then virtq_rel_req_dbuf s else s in
  let s := if use_mem_pool (vp s) then mem_pool_release s else s in
  if use_seg_dmem (vc s) then seg_dmem_release s else Ok (s, false).

Definition virtq_sm_release (s : st) (status : virtq_cmd_sm_op_status) : res (st * bool) :=
  let? r := virtq_common_release s in
  let '(s, repeat) := r in
  let p := vp s in
  Ok (s ⦇ vp := p ⦇ outstanding_total := u32 (outstanding_total p - 1) ⦈ ⦈, repeat).

Definition virtq_sm_fatal_error (s : st) (status : virtq_cmd_sm_op_status) : res (st * bool) :=
  let? r := virtq_common_release s in
  let '(s, _) := r in
  let p := vp s in
  Ok (s ⦇ vp := p ⦇ fatal_err := true ⦈ ⦇ fatal := u32 (fatal p + 1) ⦈ ⦈, false).

End Common.

(** * The state machine *)

Section StateMachine.
Context {E X : Type} `{VirtqSm E X}.

Fixpoint virtq_cmd_progress (fuel : nat) (s : vst E X) (status : virtq_cmd_sm_op_status) : res (vst E X) :=
  match fuel with
  | O => OutOfFuel
  | S fuel' =>
      if cmd_state (vc s) <? VIRTQ_CMD_NUM_OF_STATES then
        if cmd_state (vc s) <? 0 then Oob
        else
          match sm_array !! Z.to_nat (cmd_state (vc s)) with
          | None => Oob
          | Some sm_handler =>
              let? r := sm_handler s status in
              let '(s, repeat) := r in
              if repeat : bool then virtq_cmd_progress fuel' s status else Ok s
          end
      else Ok s
  end.

End StateMachine.

(** * The queue *)

(** The commands are the array [cmd_arr]; [get_avail_cmd] indexes it. *)
Record virtq (E X : Type) := mk_virtq {
  qw : world E;
  qp : virtq_priv;
  cmd_arr : list (virtq_cmd X)
}.
Arguments mk_virtq {E X}.
Arguments qw {E X}.
Arguments qp {E X}.
Arguments cmd_arr {E X}.
#[export] Instance virtq_settable E X : Settable (virtq E X) := fun r => mk_virtq (qw r) (qp r) (cmd_arr r).

(** A command received from the host: the fields of the header, the descriptors
    that follow it, and the descriptor table its pointer refers to. *)
Record tunnel_req := mk_req {
  rq_descr_head_idx : Z;
  rq_num_desc : Z;
  rq_dpa_vq_table_flag : Z;
  rq_descs : list vring_desc;
  rq_table : list vring_desc
}.

Definition VQ_TABLE_REC : Z := 5.

(** Enough iterations for the state machine: every handler that asks for another
    round moves to a later state. *)
Definition sm_fuel : nat := 14.

Section Queue.
Context {E X : Type} `{Env E} `{VirtqImpl E X} `{VirtqSm E X}.
#[local] Abbreviation st := (vst E X).
#[local] Abbreviation vq := (virtq E X).

(** Running [f] on the [i]-th command. *)
Definition on_cmd {A} (q : vq) (i : nat) (f : st -> res (st * A)) : res (vq * A) :=
  match cmd_arr q !! i with
  | None => Oob
  | Some c =>
      let? r := f (mk_vst (qw q) (qp q) c) in
      let '(s, a) := r in
      Ok (mk_virtq (vw s) (vp s) (<[i := vc s]> (cmd_arr q)), a)
  end.

Definition progress_cmd (s : st) (status : virtq_cmd_sm_op_status) : res (st * unit) :=
  let? s := virtq_cmd_progress sm_fuel s status in Ok (s, tt).

(** ** New commands *)

Definition rx_slot (p : virtq_priv) (m : tunnel_req) : nat :=
  Z.to_nat (if force_in_order p then ctrl_available_index p mod vq_size p
            else rq_descr_head_idx m mod vq_size p).

Definition virtq_rx_cb_common_set (s : st) (m : tunnel_req) : st :=
  let c := (vc s) ⦇ num_desc := rq_num_desc m ⦈ ⦇ descr_head_idx := rq_descr_head_idx m ⦈
             ⦇ total_seg_len := 0 ⦈ ⦇ total_in_len := 0 ⦈ in
  let c := clear_status c in
  s ⦇ vc := c ⦇ use_dmem := false ⦈ ⦇ use_seg_dmem := false ⦈ ⦇ req_buf := buf c ⦈ ⦇ req_mr := mr c ⦈
              ⦇ cmd_available_index := ctrl_available_index (vp s) ⦈ ⦇ is_indirect := false ⦈ ⦈.

(** Copying [l] to the start of the descriptors of the command. *)
Definition copy_descs (c : virtq_cmd X) (l : list vring_desc) : res (virtq_cmd X) :=
  if (length (descs c) <? length l)%nat then Oob
  else Ok (c ⦇ descs := l ++ drop (length l) (descs c) ⦈).

Definition rx_inline_descs (c : virtq_cmd X) (m : tunnel_req) : res (virtq_cmd X) :=
  if rq_num_desc m =? 0 then Ok c
  else if Z.of_nat (length (rq_descs m)) <? rq_num_desc m then Oob
  else copy_descs c (take (Z.to_nat (rq_num_desc m)) (rq_descs m)).

(** [arrange_descs] into the descriptors of the command: a chain longer than the
    memory, in particular a cyclic one, is written past its end. *)
Definition rx_table_descs (c : virtq_cmd X) (m : tunnel_req) : res (virtq_cmd X) :=
  if rq_dpa_vq_table_flag m =? VQ_TABLE_REC then
    match arrange_descs (S (length (descs c))) (rq_table m) (rq_descr_head_idx m) with
    | Ok l => let? c := copy_descs c l in Ok (c ⦇ num_desc := Z.of_nat (length l) ⦈)
    | _ => Oob
    end
  else Ok c.

(** The result tells whether the command was given to the state machine. *)
Definition virtq_rx_cb_common_proc (s : st) (m : tunnel_req) : res (st * bool) :=
  if decide (swq_state (vp s) = SW_VIRTQ_FLUSHING) then Ok (s, false)
  else
    let? c := rx_inline_descs (vc s) m in
    let? c := rx_table_descs c m in
    let p := vp s in
    let p := p ⦇ outstanding_total := u32 (outstanding_total p + 1) ⦈
               ⦇ ctrl_available_index := u16 (ctrl_available_index p + 1) ⦈ in
    let s := set_state (s ⦇ vc := c ⦈ ⦇ vp := p ⦈) VIRTQ_CMD_STATE_FETCH_CMD_DESCS in
    let? s := virtq_cmd_progress sm_fuel s VIRTQ_CMD_SM_OP_OK in
    Ok (s, true).

(** ** Progress *)

(** The loop of [virtq_progress_unordered]: complete the commands that wait for
    their turn. *)
Fixpoint unordered_loop (fuel : nat) (q : vq) : res vq :=
  match fuel with
  | O => OutOfFuel
  | S fuel' =>
      let i := Z.to_nat (ctrl_used_index (qp q) mod vq_size (qp q)) in
      match cmd_arr q !! i with
      | None => Oob
      | Some c =>
          if (cmd_state c =? VIRTQ_CMD_STATE_SEND_IN_ORDER_COMP)
             && (cmd_available_index c =? ctrl_used_index (qp q))
          then
            let? r := on_cmd q i (fun s => progress_cmd s VIRTQ_CMD_SM_OP_OK) in
            unordered_loop fuel' (fst r)
          else Ok q
      end
  end.

Definition virtq_progress_unordered (q : vq) : res vq := unordered_loop (S (length (cmd_arr q))) q.

Definition virtq_check_outstanding_progress_suspend (p : virtq_priv) : bool :=
  if negb (fatal p =? 0) then (outstanding_in_bdev p =? 0) && (outstanding_to_host p =? 0)
  else (outstanding_total p =? 0) && (outstanding_in_bdev p =? 0) && (outstanding_to_host p =? 0).

(** [flushed] is what the flush of the DMA queue does to the queue: the callbacks
    of the operations it completes. *)
Definition virtq_progress_suspend (flushed : vq -> res vq) (q : vq) : res vq :=
  if negb (virtq_check_outstanding_progress_suspend (qp q)) then Ok q
  else
    let '(w, _) := do_call (qw q) DmaFlush in
    let? q := flushed (q ⦇ qw := w ⦈) in
    let '(w, _) := do_call (qw q) QueueModifySuspend in
    let p := qp q in
    Ok (q ⦇ qw := w ⦈ ⦇ qp := p ⦇ swq_state := SW_VIRTQ_SUSPENDED ⦈ ⦈).

(** [polled] is what [snap_dma_q_progress] does to the queue: the callbacks of the
    completions and commands it finds. *)
Definition virtq_progress (polled flushed : vq -> res vq) (q : vq) (tid : Z) : res vq :=
  if decide (swq_state (qp q) = SW_VIRTQ_SUSPENDED) then Ok q
  else
    let p := qp q in
    let? q := polled (q ⦇ qp := p ⦇ thread_id := tid ⦈ ⦈) in
    let? q := if force_in_order (qp q) then virtq_progress_unordered q else Ok q in
    if decide (swq_state (qp q) = SW_VIRTQ_FLUSHING) then virtq_progress_suspend flushed q else Ok q.

Definition virtq_start (q : vq) (pg : Z) : vq := let p := qp q in q ⦇ qp := p ⦇ pg_id := pg ⦈ ⦈.

Definition virtq_suspend (q : vq) : vq * Z :=
  if decide (swq_state (qp q) = SW_VIRTQ_RUNNING)
  then let p := qp q in (q ⦇ qp := p ⦇ swq_state := SW_VIRTQ_FLUSHING ⦈ ⦈, 0)
  else (q, - EBUSY).

Definition virtq_is_suspended (q : vq) : bool := bool_decide (swq_state (qp q) = SW_VIRTQ_SUSPENDED).

End Queue.
