(* ===== verification/BlkVirtq.v ===== *)
(** The block virtqueue: src/ctrl/snap_virtio_blk_virtq.c on top of the common
    queue of Virtq.v: the command context, the operations and handlers of the
    block device, their table [blk_sm_arr], and the callbacks that resume a
    command (DMA completion, block device completion, memory ready, new
    command). *)

From S2P Require Import Prelude BlkDescs DpMap Virtq.

(** * Data *)

(** Request types and status values of linux/virtio_blk.h. *)
Definition VIRTIO_BLK_T_IN : Z := 0.
Definition VIRTIO_BLK_T_OUT : Z := 1.
Definition VIRTIO_BLK_T_FLUSH : Z := 4.
Definition VIRTIO_BLK_T_GET_ID : Z := 8.
Definition VIRTIO_BLK_S_OK : Z := 0.
Definition VIRTIO_BLK_S_IOERR : Z := 1.
Definition VIRTIO_BLK_S_UNSUPP : Z := 2.

Definition BDEV_SECTOR_SIZE : Z := 512.
Definition sizeof_blk_virtq_cmd_aux : Z := 16.

(** [struct blk_virtq_cmd] without the common part: the request header in [aux],
    the status in the footer, and the io vector. *)
Record blk_virtq_cmd := mk_blk {
  hdr_type : Z;
  hdr_sector : Z;
  ftr_status : Z;
  zcopy : bool;
  pool_thread_id : Z;
  offset_blocks : Z;
  num_blocks : Z;
  in_bdev_detach : bool;
  max_iov_cnt : Z;
  iov : list (Z * Z)
}.
#[export] Instance blk_settable : Settable blk_virtq_cmd :=
  fun r => mk_blk (hdr_type r) (hdr_sector r) (ftr_status r) (zcopy r) (pool_thread_id r) (offset_blocks r)
             (num_blocks r) (in_bdev_detach r) (max_iov_cnt r) (iov r).

#[global] Abbreviation bcmd := (virtq_cmd blk_virtq_cmd).

Definition set_status (v : Z) (c : bcmd) : bcmd := c ⦇ impl := (impl c) ⦇ ftr_status := v ⦈ ⦈.

(** Who completes the commands, and whether the block device checks zero-copy
    requests: what [blk_virtq_create] reads from its environment. *)
Inductive q_provider := SNAP_HW_Q_PROVIDER | SNAP_SW_Q_PROVIDER | SNAP_DPA_Q_PROVIDER.

Class BlkConfig := {
  provider : q_provider;
  has_zcopy_validate : bool;
}.

(** * The operations of the block device type *)

Section Blk.
Context {E : Type} `{Env E} `{BlkConfig}.
#[local] Abbreviation st := (vst E blk_virtq_cmd).

Definition blk_virtq_get_descs (c : bcmd) : Z := u64 (aux c + sizeof_blk_virtq_cmd_aux).

Definition blk_virtq_error_status (c : bcmd) : bcmd := set_status VIRTIO_BLK_S_IOERR c.

Definition blk_virtq_clear_status (c : bcmd) : bcmd := set_status VIRTIO_BLK_S_OK c.

Definition blk_virtq_status_data (c : bcmd) : Z * Z * Z :=
  (ftr_status (impl c), sizeof_virtio_blk_outftr, u16 (num_desc c - 1)).

Definition blk_virtq_release_cmd (s : st) : st := fst (ext s (DmaFree (req_buf (vc s)))).

Definition set_aux (c : bcmd) (ptr : Z) (src : mem_src) (key : Z) (l : list vring_desc) : bcmd :=
  c ⦇ aux := ptr ⦈ ⦇ aux_src := src ⦈ ⦇ aux_mr := key ⦈ ⦇ descs := l ⦈.

(** [free(cmd->aux)]: memory inside the block of the queue cannot be freed. *)
Definition free_aux (s : st) : res st :=
  match aux_src (vc s) with
  | InQueueData => Oob
  | OnHeap => Ok (fst (ext s (Free (aux (vc s)))))
  end.

Definition alloc_aux (s : st) (n : Z) : st * Z :=
  let num := VIRTIO_NUM_DESC (Z.to_nat n) in
  let aux_size := sizeof_blk_virtq_cmd_aux + Z.of_nat num * sizeof_vring_desc in
  let '(s, ptr) := ext s (Calloc aux_size) in
  if ptr =? 0 then (s ⦇ vc := (vc s) ⦇ aux := 0 ⦈ ⦈, - ENOMEM)
  else
    let '(s, key) := ext s (RegMr ptr aux_size) in
    if key =? 0 then
      let '(s, _) := ext s (Free ptr) in (s ⦇ vc := (vc s) ⦇ aux := ptr ⦈ ⦇ aux_mr := 0 ⦈ ⦈, -1)
    else (s ⦇ vc := set_aux (vc s) ptr OnHeap key (repeat zero_desc num) ⦈, 0).

Definition virtq_alloc_desc_buf (s : st) (old_len len : Z) : res (st * Z) :=
  let aux_size := i32 (len * sizeof_vring_desc + sizeof_virtio_blk_outhdr) in
  let '(s, ptr) := ext s (Calloc aux_size) in
  if ptr =? 0 then Ok (s ⦇ vc := set_status VIRTIO_BLK_S_IOERR (vc s) ⦈, -1)
  else
    let '(s, key) := ext s (RegMr ptr aux_size) in
    if key =? 0 then
      let '(s, _) := ext s (Free ptr) in
      Ok (s ⦇ vc := set_status VIRTIO_BLK_S_IOERR (vc s) ⦈, -1)
    else if (Z.of_nat (length (descs (vc s))) <? old_len) || (len <? old_len) then Oob
    else
      let l := take (Z.to_nat old_len) (descs (vc s)) ++ repeat zero_desc (Z.to_nat (len - old_len)) in
      let? s := if use_mem_pool (vp s) || use_seg_dmem (vc s)
                then let '(s, _) := ext s (DeregMr (aux_mr (vc s))) in free_aux s
                else Ok s in
      let c := vc s in
      let c := match aux_src c with InQueueData => c ⦇ slot_descs := descs c ⦈ | OnHeap => c end in
      Ok (s ⦇ vc := (set_aux c ptr OnHeap key l) ⦇ use_seg_dmem := true ⦈ ⦈, 0).

Definition blk_seg_dmem (s : st) : res (st * Z) :=
  if Z.of_nat (VIRTIO_NUM_DESC (Z.to_nat (seg_max (vp s)))) <=? num_desc (vc s) then
    let? r := virtq_alloc_desc_buf s (num_desc (vc s)) (vq_size (vp s)) in
    let '(s, ret) := r in
    Ok (s, if negb (ret =? 0) then -1 else 0)
  else Ok (s, 0).

Definition blk_virtq_proc_desc (s : st) : res st :=
  let c := vc s in
  match virtq_blk_process_desc (descs c) (Z.to_nat (num_desc c)) (num_merges c) (merge_descs (vp s)) with
  | None => Oob
  | Some (l, n, merges) =>
      let c := c ⦇ descs := l ⦈ ⦇ num_desc := n ⦈ ⦇ num_merges := merges ⦈ in
      let s := s ⦇ vc := c ⦈ in
      if n <? Z.of_nat NUM_HDR_FTR_DESCS then Ok (set_state s VIRTQ_CMD_STATE_FATAL_ERR)
      else if Z.of_nat (length l) <? n - 1 then Oob
      else Ok (s ⦇ vc := c ⦇ total_seg_len := total_data_len l (Z.to_nat n) (total_seg_len c) ⦈ ⦈)
  end.

Definition virtq_rel_req_mempool_buf (s : st) : st :=
  if negb (req_buf (vc s) =? 0) then fst (ext s (PoolFree (req_buf (vc s)))) else s.

Definition virtq_rel_req_desc (s : st) : res (st * bool) :=
  let '(s, _) := ext s (DeregMr (aux_mr (vc s))) in
  let? s := free_aux s in
  if use_mem_pool (vp s) then
    let '(s, ret) := alloc_aux s (seg_max (vp s)) in
    let '(s, repeat) :=
      if negb (ret =? 0) then (set_state s VIRTQ_CMD_STATE_FATAL_ERR, true) else (s, false) in
    Ok (s ⦇ vc := (vc s) ⦇ use_seg_dmem := false ⦈ ⦈, repeat)
  else
    (* back to the descriptors that follow the buffer of the command *)
    let c := vc s in
    let c := set_aux c (u64 (buf c + req_size c)) InQueueData (mr c) (slot_descs c) in
    Ok (s ⦇ vc := c ⦇ use_seg_dmem := false ⦈ ⦈, false).

Definition blk_send_comp (s : st) : st * Z :=
  match provider with
  | SNAP_HW_Q_PROVIDER => virtq_tunnel_send_comp s
  | SNAP_SW_Q_PROVIDER => virtq_sw_send_comp s
  | SNAP_DPA_Q_PROVIDER => virtq_dpa_send_comp s
  end.

Definition blk_send_status : option (Z -> Z -> Z -> ext_op) :=
  match provider with SNAP_DPA_Q_PROVIDER => Some DpaSendStatus | _ => None end.

#[export] Instance blk_impl_ops : VirtqImpl E blk_virtq_cmd := {
  descs_at := blk_virtq_get_descs;
  error_status := blk_virtq_error_status;
  clear_status := blk_virtq_clear_status;
  status_data := blk_virtq_status_data;
  release_cmd := blk_virtq_release_cmd;
  descs_processing := blk_virtq_proc_desc;
  mem_pool_release := virtq_rel_req_mempool_buf;
  seg_dmem := blk_seg_dmem;
  seg_dmem_release := virtq_rel_req_desc;
  send_comp := blk_send_comp;
  send_status := blk_send_status;
}.

(** * The handlers *)

(** The data descriptors, between the header and the footer; a command with fewer
    than [lo] descriptors makes the unsigned bound of the loop wrap. *)
Definition data_descs (lo : Z) (c : bcmd) : res (list vring_desc) :=
  if num_desc c <? lo then Oob
  else if Z.of_nat (length (descs c)) <? num_desc c - 1 then Oob
  else Ok (take (Z.to_nat (num_desc c - 2)) (drop 1 (descs c))).

Definition first_desc (c : bcmd) : res vring_desc :=
  match descs c !! 0%nat with Some d => Ok d | None => Oob end.

Definition incr_to_host (s : st) : st :=
  let p := vp s in s ⦇ vp := p ⦇ outstanding_to_host := u32 (outstanding_to_host p + 1) ⦈ ⦈.

(** Answer the host with an I/O error. *)
Definition fail_request (s : st) : st :=
  set_state (s ⦇ vc := set_status VIRTIO_BLK_S_IOERR (vc s) ⦈) VIRTQ_CMD_STATE_WRITE_STATUS.

Definition virtq_alloc_req_dbuf (s : st) (len : Z) : st * Z :=
  let '(s, ptr) := ext s (DmaMalloc len) in
  if ptr =? 0 then (fail_request (s ⦇ vc := (vc s) ⦇ req_buf := buf (vc s) ⦈ ⦈), -1)
  else
    let '(s, key) := ext s (RegMr ptr len) in
    if key =? 0 then
      let '(s, _) := ext s (Free ptr) in
      let c := vc s in
      (fail_request (s ⦇ vc := c ⦇ req_mr := mr c ⦈ ⦇ req_buf := buf c ⦈ ⦈), -1)
    else (s ⦇ vc := (vc s) ⦇ req_buf := ptr ⦈ ⦇ req_mr := key ⦈ ⦇ use_dmem := true ⦈ ⦈, 0).

Definition blk_virtq_sm_read_header (s : st) (status : virtq_cmd_sm_op_status) : res (st * bool) :=
  let s := set_state s VIRTQ_CMD_STATE_PARSE_HEADER in
  let s := s ⦇ vc := (vc s) ⦇ dma_count := 1 ⦈ ⦈ in
  let c := vc s in
  let? d := first_desc c in
  let '(s, ret) := ext s (DmaRead (cmd_idx c) (aux c) (d_len d) (aux_mr c) (d_addr d) (dma_mkey (vp s))) in
  if negb (ret =? 0) then Ok (set_state s VIRTQ_CMD_STATE_FATAL_ERR, true)
  else Ok (incr_to_host s, false).

Definition virtq_descs_to_iovec (c : bcmd) : res (bcmd * Z) :=
  if max_iov_cnt (impl c) <? num_desc c - 2 then Ok (c, -1)
  else
    let? l := data_descs 2 c in
    Ok (c ⦇ impl := (impl c) ⦇ iov := map (fun d => (d_addr d, d_len d)) l ⦈ ⦈, 0).

Definition zcopy_prepare (s : st) : res (st * bool) :=
  let c := vc s in
  let offset := u64 (hdr_sector (impl c) * BDEV_SECTOR_SIZE) in
  if negb (zcopy_on (vp s)) then Ok (s, false)
  else if num_desc c =? Z.of_nat NUM_HDR_FTR_DESCS then Ok (s, false)
  else if hdr_type (impl c) =? VIRTIO_BLK_T_GET_ID then Ok (s, false)
  else if negb has_zcopy_validate then Ok (s, false)
  else
    let? r := virtq_descs_to_iovec c in
    let '(c, ret) := r in
    let s := s ⦇ vc := c ⦈ in
    if negb (ret =? 0) then Ok (s, false)
    else
      let '(s, valid) := ext s (BdevZcopyValidate (iov (impl c)) offset (total_seg_len c)) in
      if valid =? 0 then Ok (s, false)
      else
        let '(s, block_size) := ext s BdevBlockSize in
        let c := vc s in
        if block_size =? 0 then Oob
        else Ok (s ⦇ vc := c ⦇ impl := (impl c) ⦇ offset_blocks := offset / block_size ⦈
                                     ⦇ num_blocks := total_seg_len c / block_size ⦈ ⦈ ⦈, true).

Definition blk_virtq_sm_parse_header (s : st) (status : virtq_cmd_sm_op_status) : res (st * bool) :=
  match status with
  | VIRTQ_CMD_SM_OP_ERR => Ok (fail_request s, true)
  | VIRTQ_CMD_SM_OP_OK =>
      let? r := zcopy_prepare s in
      let '(s, zc) := r in
      let s := s ⦇ vc := (vc s) ⦇ impl := (impl (vc s)) ⦇ zcopy := zc ⦈ ⦈ ⦈ in
      if zc : bool then Ok (set_state s VIRTQ_CMD_STATE_HANDLE_REQ, true)
      else
        let type := hdr_type (impl (vc s)) in
        let '(req_len, next) :=
          if type =? VIRTIO_BLK_T_OUT then (total_seg_len (vc s), VIRTQ_CMD_STATE_READ_DATA)
          else if (type =? VIRTIO_BLK_T_IN) || (type =? VIRTIO_BLK_T_GET_ID)
          then (total_seg_len (vc s), VIRTQ_CMD_STATE_HANDLE_REQ)
          else (0, VIRTQ_CMD_STATE_HANDLE_REQ) in
        let s := set_state s next in
        if use_mem_pool (vp s) then
          if req_len =? 0 then Ok (s, true)
          else
            let '(s, rc) := ext s (PoolMalloc (cmd_idx (vc s)) req_len) in
            if negb (rc =? 0) then Ok (fail_request s, true) else Ok (s, false)
        else if req_size (vc s) <? total_seg_len (vc s) then
          let '(s, _) := virtq_alloc_req_dbuf s (total_seg_len (vc s)) in Ok (s, true)
        else Ok (s, true)
  end.

(** Reading the data of the request; the result is the value of [ret]. *)
Fixpoint read_data_loop (l : list vring_desc) (s : st) (offset : Z) : st * Z :=
  match l with
  | [] => (s, 0)
  | d :: l' =>
      if has_flag (d_flags d) VRING_DESC_F_WRITE then read_data_loop l' s offset
      else
        let c := vc s in
        let '(s, ret) := ext s (DmaRead (cmd_idx c) (u64 (req_buf c + offset)) (d_len d) (req_mr c)
                                  (d_addr d) (dma_mkey (vp s))) in
        if negb (ret =? 0) then (s, ret) else read_data_loop l' s (offset + d_len d)
  end.

Definition blk_virtq_sm_read_data (s : st) (status : virtq_cmd_sm_op_status) : res (st * bool) :=
  let s := set_state s VIRTQ_CMD_STATE_HANDLE_REQ in
  let? l := data_descs 1 (vc s) in
  let count := Z.of_nat (length (base.filter (fun d => has_flag (d_flags d) VRING_DESC_F_WRITE = false) l)) in
  let s := s ⦇ vc := (vc s) ⦇ dma_count := count ⦈ ⦈ in
  if count =? 0 then Ok (s, true)
  else
    let '(s, ret) := read_data_loop l s 0 in
    if negb (ret =? 0) then Ok (set_state s VIRTQ_CMD_STATE_FATAL_ERR, true)
    else Ok (incr_to_host s, false).

(** ** Handing the request to the block device: one definition per case of the
    [switch], each with the value of [ret]. *)

Definition sector_offset (c : bcmd) : Z := u64 (hdr_sector (impl c) * BDEV_SECTOR_SIZE).

Definition handle_out (s : st) : st * Z :=
  let s := set_state (s ⦇ vc := (vc s) ⦇ io_cmd_stat := Some IoWrite ⦈ ⦈) VIRTQ_CMD_STATE_OUT_DATA_DONE in
  let c := vc s in
  if zcopy (impl c)
  then ext s (BdevWritev (cmd_idx c) (iov (impl c)) (offset_blocks (impl c)) (num_blocks (impl c)) (pg_id (vp s)))
  else ext s (BdevWrite (cmd_idx c) (req_buf c) (sector_offset c) (total_seg_len c) (pg_id (vp s))).

Definition handle_in (s : st) : st * Z :=
  let s := s ⦇ vc := (vc s) ⦇ io_cmd_stat := Some IoRead ⦈ ⦈ in
  let c := vc s in
  if zcopy (impl c) then
    let s := set_state (s ⦇ vc := c ⦇ total_in_len := u32 (total_in_len c + total_seg_len c) ⦈ ⦈)
               VIRTQ_CMD_STATE_WRITE_STATUS in
    ext s (BdevReadv (cmd_idx c) (iov (impl c)) (offset_blocks (impl c)) (num_blocks (impl c)) (pg_id (vp s)))
  else
    let s := set_state s VIRTQ_CMD_STATE_IN_DATA_DONE in
    ext s (BdevRead (cmd_idx c) (req_buf c) (sector_offset c) (total_seg_len c) (pg_id (vp s))).

Definition handle_flush (s : st) : st * Z :=
  let s := s ⦇ vc := (vc s) ⦇ io_cmd_stat := Some IoFlush ⦈ ⦈ in
  if negb (hdr_sector (impl (vc s)) =? 0) then (s, -1)
  else
    let s := set_state s VIRTQ_CMD_STATE_WRITE_STATUS in
    let '(s, nb) := ext s BdevNumBlocks in
    let '(s, bs) := ext s BdevBlockSize in
    ext s (BdevFlush (cmd_idx (vc s)) 0 (u64 (nb * bs)) (pg_id (vp s))).

(** The result is [inl ret], or [inr tt] when the name could not be printed. *)
Definition handle_get_id (s : st) : res (st * (Z + unit)) :=
  let s := set_state s VIRTQ_CMD_STATE_WRITE_STATUS in
  let '(s, ret) := ext s (BdevPrintName (req_buf (vc s)) (req_size (vc s))) in
  if ret <? 0 then Ok (s ⦇ vc := set_status VIRTIO_BLK_S_UNSUPP (vc s) ⦈, inr tt)
  else
    let c := (vc s) ⦇ dma_count := 1 ⦈ in
    match descs c !! 1%nat with
    | None => Oob
    | Some d =>
        let len := snap_min (ret + 1) (d_len d) in
        let c := c ⦇ total_in_len := u32 (total_in_len c + len) ⦈ in
        let '(s, ret) := ext (s ⦇ vc := c ⦈) (DmaWrite (cmd_idx c) (req_buf c) len (req_mr c) (d_addr d) (dma_mkey (vp s))) in
        let? s := virtq_mark_dirty_mem s (d_addr d) len false in
        Ok (s, inl ret)
    end.

Definition count_request (s : st) (ret : Z) : st :=
  match io_cmd_stat (vc s) with
  | None => s
  | Some k =>
      let c := vc s in
      let io := stat_of k (vp s) in
      let io := io ⦇ st_total := u64 (st_total io + 1) ⦈ in
      let io := if negb (ret =? 0) then io ⦇ st_fail := u64 (st_fail io + 1) ⦈ else io in
      let io := if merge_descs (vp s) then io ⦇ st_merged_desc := u64 (st_merged_desc io + num_merges c) ⦈ else io in
      let io := if use_dmem c then io ⦇ st_large_in_buf := u64 (st_large_in_buf io + 1) ⦈ else io in
      let io := if use_seg_dmem c then io ⦇ st_long_desc_chain := u64 (st_long_desc_chain io + 1) ⦈ else io in
      s ⦇ vp := set_stat k io (vp s) ⦈
  end.

Definition after_request (s : st) (type ret : Z) : res (st * bool) :=
  let s := count_request s ret in
  if negb (ret =? 0) then Ok (fail_request s, true)
  else if type =? VIRTIO_BLK_T_GET_ID then Ok (incr_to_host s, false)
  else
    let p := vp s in
    Ok (s ⦇ vp := p ⦇ outstanding_in_bdev := u32 (outstanding_in_bdev p + 1) ⦈
                    ⦇ uncomp_bdev_cmds := u32 (uncomp_bdev_cmds p + 1) ⦈ ⦈, false).

Definition blk_virtq_sm_handle_req (s : st) (status : virtq_cmd_sm_op_status) : res (st * bool) :=
  let type := hdr_type (impl (vc s)) in
  match status with
  | VIRTQ_CMD_SM_OP_ERR => Ok (fail_request s, true)
  | VIRTQ_CMD_SM_OP_OK =>
      let detach := pending_bdev_detach (vp s) in
      let s := s ⦇ vc := (vc s) ⦇ impl := (impl (vc s)) ⦇ in_bdev_detach := detach ⦈ ⦈ ⦈ in
      if detach : bool then Ok (fail_request s, true)
      else
        let s := s ⦇ vc := (vc s) ⦇ io_cmd_stat := None ⦈ ⦈ in
        if type =? VIRTIO_BLK_T_OUT then let '(s, ret) := handle_out s in after_request s type ret
        else if type =? VIRTIO_BLK_T_IN then let '(s, ret) := handle_in s in after_request s type ret
        else if type =? VIRTIO_BLK_T_FLUSH then let '(s, ret) := handle_flush s in after_request s type ret
        else if type =? VIRTIO_BLK_T_GET_ID then
          let? r := handle_get_id s in
          match r with
          | (s, inl ret) => after_request s type ret
          | (s, inr _) => Ok (s, true)
          end
        else
          Ok (set_state (s ⦇ vc := set_status VIRTIO_BLK_S_UNSUPP (vc s) ⦈) VIRTQ_CMD_STATE_WRITE_STATUS, true)
  end.

(** ** Returning the data that was read *)

Fixpoint in_data_loop (l : list vring_desc) (s : st) (offset : Z) : res (st * Z) :=
  match l with
  | [] => Ok (s, 0)
  | d :: l' =>
      let c := vc s in
      let '(s, ret) := ext s (DmaWrite (cmd_idx c) (u64 (req_buf c + offset)) (d_len d) (req_mr c)
                                (d_addr d) (dma_mkey (vp s))) in
      if negb (ret =? 0) then Ok (s, ret)
      else
        let? s := virtq_mark_dirty_mem s (d_addr d) (d_len d) false in
        let c := vc s in
        in_data_loop l' (s ⦇ vc := c ⦇ total_in_len := u32 (total_in_len c + d_len d) ⦈ ⦈) (offset + d_len d)
  end.

Definition blk_virtq_sm_handle_in_iov_done (s : st) (status : virtq_cmd_sm_op_status) : res (st * bool) :=
  match status with
  | VIRTQ_CMD_SM_OP_ERR => Ok (fail_request s, true)
  | VIRTQ_CMD_SM_OP_OK =>
      let? l := data_descs 2 (vc s) in
      let s := set_state (s ⦇ vc := (vc s) ⦇ dma_count := i32 (num_desc (vc s) - 2) ⦈ ⦈) VIRTQ_CMD_STATE_WRITE_STATUS in
      let? r := in_data_loop l s 0 in
      let '(s, ret) := r in
      if negb (ret =? 0) then Ok (fail_request s, true) else Ok (incr_to_host s, false)
  end.

Definition blk_virtq_sm_release (s : st) (status : virtq_cmd_sm_op_status) : res (st * bool) :=
  let b := impl (vc s) in
  let p := vp s in
  let p := if negb (in_bdev_detach b) && negb (hdr_type b =? VIRTIO_BLK_T_GET_ID)
           then if 0 <? uncomp_bdev_cmds p then p ⦇ uncomp_bdev_cmds := u32 (uncomp_bdev_cmds p - 1) ⦈ else p
           else p in
  virtq_sm_release (s ⦇ vp := p ⦈) status.

#[export] Instance blk_sm_arr : VirtqSm E blk_virtq_cmd := [
  virtq_sm_idle;
  virtq_sm_fetch_cmd_descs;
  blk_virtq_sm_read_header;
  blk_virtq_sm_parse_header;
  blk_virtq_sm_read_data;
  blk_virtq_sm_handle_req;
  virtq_sm_write_back_done;
  blk_virtq_sm_handle_in_iov_done;
  virtq_sm_write_status;
  virtq_sm_send_completion;
  virtq_sm_send_completion;
  blk_virtq_sm_release;
  virtq_sm_fatal_error
].

(** * Callbacks *)

Definition sm_dma_cb (s : st) (status : virtq_cmd_sm_op_status) : res (st * unit) :=
  let p := vp s in
  progress_cmd (s ⦇ vp := p ⦇ outstanding_to_host := u32 (outstanding_to_host p - 1) ⦈ ⦈) status.

(** [success] is whether the operation of the block device succeeded; counting it
    without counters would dereference a null pointer. *)
Definition bdev_io_comp_cb (s : st) (success : bool) : res (st * unit) :=
  match io_cmd_stat (vc s) with
  | None => Oob
  | Some k =>
      let io := stat_of k (vp s) in
      let s := if success then s else
                 set_state (s ⦇ vc := set_status VIRTIO_BLK_S_IOERR (vc s) ⦈) VIRTQ_CMD_STATE_WRITE_STATUS in
      let io := if success then io ⦇ st_success := u64 (st_success io + 1) ⦈
                else io ⦇ st_fail := u64 (st_fail io + 1) ⦈ in
      let p := set_stat k io (vp s) in
      progress_cmd (s ⦇ vp := p ⦇ outstanding_in_bdev := u32 (outstanding_in_bdev p - 1) ⦈ ⦈) VIRTQ_CMD_SM_OP_OK
  end.

Definition virtq_mem_ready (s : st) (data key : Z) : res (st * unit) :=
  progress_cmd (s ⦇ vc := (vc s) ⦇ req_buf := data ⦈ ⦇ req_mr := key ⦈ ⦈) VIRTQ_CMD_SM_OP_OK.

Definition blk_virtq_rx_cb (q : virtq E blk_virtq_cmd) (m : tunnel_req) : res (virtq E blk_virtq_cmd * bool) :=
  on_cmd q (rx_slot (qp q) m) (fun s =>
    let s := virtq_rx_cb_common_set s m in
    let s := s ⦇ vc := (vc s) ⦇ impl := (impl (vc s)) ⦇ pool_thread_id := thread_id (vp s) ⦈ ⦈ ⦈ in
    virtq_rx_cb_common_proc s m).

End Blk.
