(* ===== verification/VirtqInv.v ===== *)
(** The state machine of a block command: what each handler does to the command,
    to the counters of the queue and to the operations in flight.

    [ready] holds when a handler is about to run, [settled] when the state machine
    has stopped and the command waits for something; [handles] relates a handler
    to both, and [progress_settles] is the resulting fact about
    [virtq_cmd_progress]: it returns, without undefined behaviour once the
    descriptors are known. *)

From S2P Require Import Prelude BlkDescs DpMap Virtq BlkVirtq.

(** Reducing the fields of updated records. All projections are reduced together:
    an update that is unfolded without them copies the record once per field. *)
Tactic Notation "rec_simpl" :=
  cbn
    [env trace in_dma in_bdev in_pool cmd_idx descr_head_idx num_desc num_merges
       cmd_state buf req_size aux aux_src aux_mr descs slot_descs mr req_buf req_mr
       dma_count total_seg_len total_in_len use_dmem io_cmd_stat cmd_available_index
       indirect_pos indirect_len use_seg_dmem is_indirect impl swq_state fatal_err
       outstanding_total outstanding_in_bdev outstanding_to_host fatal seg_max size_max
       pg_id ctrl_available_index force_in_order ctrl_used_index zcopy_on merge_descs
       use_mem_pool thread_id vq_size vq_desc vq_device dma_mkey hw_used_index
       log_writes_to_host lm_channel dp_map pending_bdev_detach uncomp_bdev_cmds stat_read
       stat_write stat_flush vw vp vc hdr_type hdr_sector ftr_status zcopy pool_thread_id
       offset_blocks num_blocks in_bdev_detach max_iov_cnt iov upd_field set_state set_status set_aux incr_to_host error_status blk_virtq_error_status
       res_bind fst snd].
Tactic Notation "rec_simpl" "in" hyp(H) :=
  cbn
    [env trace in_dma in_bdev in_pool cmd_idx descr_head_idx num_desc num_merges
       cmd_state buf req_size aux aux_src aux_mr descs slot_descs mr req_buf req_mr
       dma_count total_seg_len total_in_len use_dmem io_cmd_stat cmd_available_index
       indirect_pos indirect_len use_seg_dmem is_indirect impl swq_state fatal_err
       outstanding_total outstanding_in_bdev outstanding_to_host fatal seg_max size_max
       pg_id ctrl_available_index force_in_order ctrl_used_index zcopy_on merge_descs
       use_mem_pool thread_id vq_size vq_desc vq_device dma_mkey hw_used_index
       log_writes_to_host lm_channel dp_map pending_bdev_detach uncomp_bdev_cmds stat_read
       stat_write stat_flush vw vp vc hdr_type hdr_sector ftr_status zcopy pool_thread_id
       offset_blocks num_blocks in_bdev_detach max_iov_cnt iov upd_field set_state set_status set_aux incr_to_host error_status blk_virtq_error_status
       res_bind fst snd] in H.
Tactic Notation "rec_simpl" "in" "*" :=
  cbn
    [env trace in_dma in_bdev in_pool cmd_idx descr_head_idx num_desc num_merges
       cmd_state buf req_size aux aux_src aux_mr descs slot_descs mr req_buf req_mr
       dma_count total_seg_len total_in_len use_dmem io_cmd_stat cmd_available_index
       indirect_pos indirect_len use_seg_dmem is_indirect impl swq_state fatal_err
       outstanding_total outstanding_in_bdev outstanding_to_host fatal seg_max size_max
       pg_id ctrl_available_index force_in_order ctrl_used_index zcopy_on merge_descs
       use_mem_pool thread_id vq_size vq_desc vq_device dma_mkey hw_used_index
       log_writes_to_host lm_channel dp_map pending_bdev_detach uncomp_bdev_cmds stat_read
       stat_write stat_flush vw vp vc hdr_type hdr_sector ftr_status zcopy pool_thread_id
       offset_blocks num_blocks in_bdev_detach max_iov_cnt iov upd_field set_state set_status set_aux incr_to_host error_status blk_virtq_error_status
       res_bind fst snd] in *.

(** * Calls *)

Definition op_dma (op : ext_op) : option nat :=
  match op with DmaRead i _ _ _ _ _ | DmaWrite i _ _ _ _ _ => Some i | _ => None end.

Definition op_bdev (op : ext_op) : option nat :=
  match op with
  | BdevRead i _ _ _ _ | BdevWrite i _ _ _ _ | BdevReadv i _ _ _ _ | BdevWritev i _ _ _ _ | BdevFlush i _ _ _ => Some i
  | _ => None
  end.

Definition op_pool (op : ext_op) : option nat := match op with PoolMalloc i _ => Some i | _ => None end.

(** [l] with the command of an accepted operation in front. *)
Definition flight (o : option nat) (ret : Z) (l : list nat) : list nat :=
  match o with Some i => if ret =? 0 then i :: l else l | None => l end.

(** [w'] is [w] after the call [op] was answered by [ret]. *)
Record called {E} (op : ext_op) (ret : Z) (w w' : world E) : Prop := {
  called_trace : trace w' = trace w ++ [(op, ret)];
  called_dma : in_dma w' = flight (op_dma op) ret (in_dma w);
  called_bdev : in_bdev w' = flight (op_bdev op) ret (in_bdev w);
  called_pool : in_pool w' = flight (op_pool op) ret (in_pool w);
}.

Lemma ext_called {E X} `{Env E} (s : vst E X) (op : ext_op) :
  exists w ret, ext s op = (mk_vst w (vp s) (vc s), ret) /\ called op ret (vw s) w.
Proof.
  unfold ext, do_call. destruct (call (env (vw s)) op) as [e ret].
  destruct op; cbn; try destruct (ret =? 0) eqn:Hr; do 2 eexists; (split; [reflexivity|]); split; cbn; by rewrite ?Hr.
Qed.

(** Case analysis on the answer of the next call of the goal. *)
Ltac step_call :=
  match goal with
  | |- context [ext ?s ?op] =>
      let w := fresh "w" in let ret := fresh "ret" in let Hc := fresh "Hcall" in
      destruct (ext_called s op) as (w & ret & -> & Hc); rec_simpl in Hc; rec_simpl
  end.

(** * Predicates *)

Definition n_dma {E} (w : world E) (i : nat) : nat := count_occ Nat.eq_dec (in_dma w) i.
Definition n_bdev {E} (w : world E) (i : nat) : nat := count_occ Nat.eq_dec (in_bdev w) i.
Definition n_pool {E} (w : world E) (i : nat) : nat := count_occ Nat.eq_dec (in_pool w) i.

(** No data write was refused by the DMA queue. *)
Definition no_refused {E} (w : world E) : Prop :=
  Forall (fun x => match fst x with DmaWrite _ _ _ _ _ _ => snd x = 0 | _ => True end) (trace w).

(** The descriptors of the command are in its memory. *)
Definition desc_ok (c : bcmd) : Prop := 2 <= num_desc c <= Z.of_nat (length (descs c)) /\ num_desc c <= 2 ^ 16.

(** The tables of descriptors are not longer than a queue can be; they are on the heap exactly while the command uses an extended
    table, which the memory pool mode never survives. *)
Definition mem_ok (p : virtq_priv) (c : bcmd) : Prop :=
  (Z.of_nat (length (descs c)) <= 2 ^ 16 /\ Z.of_nat (length (slot_descs c)) <= 2 ^ 16 /\ vq_size p <= 2 ^ 16) /\
  if use_mem_pool p then aux_src c = InQueueData /\ use_seg_dmem c = false
  else aux_src c = if use_seg_dmem c then OnHeap else InQueueData.

(** Dirty memory is not logged, or logged through the migration channel. *)
Definition dirty_ok (p : virtq_priv) : Prop := log_writes_to_host p = true -> lm_channel p = true.

Section Predicates.
Context {E : Type}.
#[local] Abbreviation st := (vst E blk_virtq_cmd).

Definition quiet (w : world E) (c : bcmd) : Prop :=
  n_dma w (cmd_idx c) = 0%nat /\ n_bdev w (cmd_idx c) = 0%nat /\ n_pool w (cmd_idx c) = 0%nat.

(** A dead command may have reads in flight, but never all those it counted. *)
Definition dead_ok (w : world E) (c : bcmd) : Prop :=
  n_bdev w (cmd_idx c) = 0%nat /\ n_pool w (cmd_idx c) = 0%nat /\
  (n_dma w (cmd_idx c) = 0%nat \/ Z.of_nat (n_dma w (cmd_idx c)) < dma_count c).

Definition ready (w : world E) (p : virtq_priv) (c : bcmd) : Prop :=
  1 <= cmd_state c <= 12 /\ mem_ok p c /\ dirty_ok p /\
  (2 <= cmd_state c <= 10 -> desc_ok c) /\
  (no_refused w -> if cmd_state c =? 12 then dead_ok w c else quiet w c).

Definition waits_dma (w : world E) (c : bcmd) : Prop :=
  (cmd_state c = 1 \/ cmd_state c = 3 \/ cmd_state c = 5 \/ cmd_state c = 8) /\
  n_bdev w (cmd_idx c) = 0%nat /\ n_pool w (cmd_idx c) = 0%nat /\
  Z.of_nat (n_dma w (cmd_idx c)) = dma_count c /\ (0 < dma_count c \/ cmd_state c = 8 /\ num_desc c = 2).

Definition waits_bdev (w : world E) (c : bcmd) : Prop :=
  (cmd_state c = 6 \/ cmd_state c = 7 \/ cmd_state c = 8) /\ io_cmd_stat c <> None /\
  n_dma w (cmd_idx c) = 0%nat /\ n_pool w (cmd_idx c) = 0%nat /\ n_bdev w (cmd_idx c) = 1%nat.

Definition waits_pool (w : world E) (c : bcmd) : Prop :=
  (cmd_state c = 4 \/ cmd_state c = 5) /\
  n_dma w (cmd_idx c) = 0%nat /\ n_bdev w (cmd_idx c) = 0%nat /\ n_pool w (cmd_idx c) = 1%nat.

Definition waits_order (w : world E) (p : virtq_priv) (c : bcmd) : Prop :=
  cmd_state c = 10 /\ force_in_order p = true /\ quiet w c.

Definition free_slot (c : bcmd) : Prop := cmd_state c = 0 \/ cmd_state c = 11.

Definition settled (w : world E) (p : virtq_priv) (c : bcmd) : Prop :=
  mem_ok p c /\ dirty_ok p /\ (2 <= cmd_state c <= 10 -> desc_ok c) /\
  (free_slot c /\ aux_src c = InQueueData /\ quiet w c \/ cmd_state c = 12 /\ dead_ok w c \/
   waits_dma w c \/ waits_bdev w c \/ waits_pool w c \/ waits_order w p c).

(** ** What a command contributes to the counters of the queue *)

Definition host_c (w : world E) (c : bcmd) : Z :=
  if ((cmd_state c =? 1) || (cmd_state c =? 3) || (cmd_state c =? 5) || (cmd_state c =? 8))
     && (n_bdev w (cmd_idx c) =? 0)%nat && (n_pool w (cmd_idx c) =? 0)%nat then 1 else 0.
Definition bdev_c (w : world E) (c : bcmd) : Z := Z.of_nat (n_bdev w (cmd_idx c)).
Definition total_c (c : bcmd) : Z := if (cmd_state c =? 0) || (cmd_state c =? 11) then 0 else 1.
Definition fatal_c (c : bcmd) : Z := if cmd_state c =? 12 then 1 else 0.

(** ** What no handler changes *)

(** The calls of a handler only add operations of its own command. *)
Record world_frame (i : nat) (w w' : world E) : Prop := {
  wf_trace : trace w `prefix_of` trace w';
  wf_dma j : j <> i -> n_dma w' j = n_dma w j;
  wf_bdev j : j <> i -> n_bdev w' j = n_bdev w j;
  wf_pool j : j <> i -> n_pool w' j = n_pool w j;
}.

Record priv_frame (p p' : virtq_priv) : Prop := {
  pf_swq : swq_state p' = swq_state p;
  pf_avail : ctrl_available_index p' = ctrl_available_index p;
  pf_order : force_in_order p' = force_in_order p;
  pf_pool : use_mem_pool p' = use_mem_pool p;
  pf_size : vq_size p' = vq_size p;
  pf_log : log_writes_to_host p' = log_writes_to_host p;
  pf_chan : lm_channel p' = lm_channel p;
}.

Record cmd_frame (c c' : bcmd) : Prop := {
  cf_idx : cmd_idx c' = cmd_idx c;
  cf_head : descr_head_idx c' = descr_head_idx c;
  cf_avail : cmd_available_index c' = cmd_available_index c;
}.

Definition frame (s s' : st) : Prop :=
  world_frame (cmd_idx (vc s)) (vw s) (vw s') /\ priv_frame (vp s) (vp s') /\ cmd_frame (vc s) (vc s').

(** The counters after the command settled, from those while it was served. *)
Record counted (s s' : st) : Prop := {
  ct_host : outstanding_to_host (vp s') = u32 (outstanding_to_host (vp s) + host_c (vw s') (vc s'));
  ct_bdev : outstanding_in_bdev (vp s') = u32 (outstanding_in_bdev (vp s) + bdev_c (vw s') (vc s'));
  ct_total : outstanding_total (vp s') = u32 (outstanding_total (vp s) + total_c (vc s') - 1);
  ct_fatal : fatal (vp s') = u32 (fatal (vp s) + fatal_c (vc s'));
}.

Record same_counters (p p' : virtq_priv) : Prop := {
  sc_host : outstanding_to_host p' = outstanding_to_host p;
  sc_bdev : outstanding_in_bdev p' = outstanding_in_bdev p;
  sc_total : outstanding_total p' = outstanding_total p;
  sc_fatal : fatal p' = fatal p;
}.

(** The counters hold 32-bit values. *)
Record counters_ok (p : virtq_priv) : Prop := {
  co_host : 0 <= outstanding_to_host p < 2 ^ 32;
  co_bdev : 0 <= outstanding_in_bdev p < 2 ^ 32;
  co_total : 0 <= outstanding_total p < 2 ^ 32;
  co_fatal : 0 <= fatal p < 2 ^ 32;
}.

(** What running a handler in [s] gives. Undefined behaviour is only possible
    while the descriptors are fetched. *)
Definition handles (s : st) (r : res (st * bool)) : Prop :=
  match r with
  | Ok (s', rep) =>
      frame s s' /\
      if rep then ready (vw s') (vp s') (vc s') /\ cmd_state (vc s) < cmd_state (vc s') /\
                  same_counters (vp s) (vp s')
      else no_refused (vw s') -> settled (vw s') (vp s') (vc s') /\ counted s s'
  | Oob => cmd_state (vc s) = 1
  | Err _ | OutOfFuel => False
  end.

End Predicates.

(** What the queue relies on of the block device: its block size is not zero. *)
Class BdevLaws (E : Type) `{Env E} : Prop :=
  block_size_nonzero e e' r : call e BdevBlockSize = (e', r) -> r <> 0.

(** * Frames *)

Section Frames.
Context {E : Type}.
#[local] Abbreviation st := (vst E blk_virtq_cmd).

(** Calls that leave nothing in flight and are no refused writes. *)
Record same_pending (w w' : world E) : Prop := {
  sp_trace : trace w `prefix_of` trace w';
  sp_write : no_refused w -> no_refused w';
  sp_dma : in_dma w' = in_dma w;
  sp_bdev : in_bdev w' = in_bdev w;
  sp_pool : in_pool w' = in_pool w;
}.

Lemma same_pending_refl w : same_pending w w.
Proof. by split. Qed.

Lemma same_pending_trans w1 w2 w3 : same_pending w1 w2 -> same_pending w2 w3 -> same_pending w1 w3.
Proof. intros [] []. split; [by etrans|auto|congruence..]. Qed.

(** Whether a call is a data write. *)
Definition is_write (op : ext_op) : bool := match op with DmaWrite _ _ _ _ _ _ => true | _ => false end.

Lemma called_no_refused op ret (w w' : world E) :
  called op ret w w' -> is_write op = false \/ ret = 0 -> no_refused w -> no_refused w'.
Proof.
  intros [Ht _ _ _] Hop Hn. unfold no_refused in *. rewrite Ht. apply Forall_app. split; [done|]. constructor; [|done].
  destruct op; cbn in *; try done. by destruct Hop.
Qed.

Lemma called_sync op ret (w w' : world E) :
  called op ret w w' -> op_dma op = None -> op_bdev op = None -> op_pool op = None -> same_pending w w'.
Proof.
  intros Hc Ed Eb Ep. pose proof Hc as [Ht Hd Hb Hp]. rewrite Ed, Eb, Ep in *. split; [rewrite Ht; by apply prefix_app_r| |done..].
  eapply called_no_refused; [exact Hc|left; by destruct op].
Qed.

(** A refused operation is not in flight. *)
Lemma called_not_flying op ret (w w' : world E) :
  called op ret w w' -> ret <> 0 -> in_dma w' = in_dma w /\ in_bdev w' = in_bdev w /\ in_pool w' = in_pool w.
Proof.
  intros [_ Hd Hb Hp] Hr. unfold flight in *. apply Z.eqb_neq in Hr. rewrite Hr in *.
  by destruct (op_dma op), (op_bdev op), (op_pool op).
Qed.

Lemma called_refused op ret (w w' : world E) :
  called op ret w w' -> ret <> 0 -> is_write op = false -> same_pending w w'.
Proof.
  intros Hc Hr Hop. destruct (called_not_flying _ _ _ _ Hc Hr) as (? & ? & ?). split; [|by eapply called_no_refused; eauto|done..].
  rewrite (called_trace _ _ _ _ Hc). by apply prefix_app_r.
Qed.

Lemma same_pending_frame i w w' : same_pending w w' -> world_frame i w w'.
Proof. intros [? _ Hd Hb Hp]. split; [done|unfold n_dma, n_bdev, n_pool; intros; congruence..]. Qed.

Lemma flight_other o ret l i j :
  (o = Some i \/ o = None) -> j <> i -> count_occ Nat.eq_dec (flight o ret l) j = count_occ Nat.eq_dec l j.
Proof.
  intros [-> | ->] Hj; [|done]. unfold flight. destruct (ret =? 0); [|done]. by rewrite count_occ_cons_neq.
Qed.

Lemma called_frame op ret (w w' : world E) i :
  called op ret w w' ->
  (op_dma op = Some i \/ op_dma op = None) -> (op_bdev op = Some i \/ op_bdev op = None) ->
  (op_pool op = Some i \/ op_pool op = None) -> world_frame i w w'.
Proof.
  intros [Ht Hd Hb Hp] Ed Eb Ep. unfold n_dma, n_bdev, n_pool in *.
  split; unfold n_dma, n_bdev, n_pool; [rewrite Ht; by apply prefix_app_r|intros j Hj..].
  - rewrite Hd. by apply (flight_other _ _ _ i).
  - rewrite Hb. by apply (flight_other _ _ _ i).
  - rewrite Hp. by apply (flight_other _ _ _ i).
Qed.

Lemma world_frame_refl i (w : world E) : world_frame i w w.
Proof. by split. Qed.

Lemma world_frame_trans i (w1 w2 w3 : world E) : world_frame i w1 w2 -> world_frame i w2 w3 -> world_frame i w1 w3.
Proof.
  intros [? Hd Hb Hp] [? Hd' Hb' Hp']. split; [by etrans|intros j Hj..].
  - by rewrite Hd', Hd.
  - by rewrite Hb', Hb.
  - by rewrite Hp', Hp.
Qed.

Lemma priv_frame_refl p : priv_frame p p.
Proof. by split. Qed.

Lemma priv_frame_trans p1 p2 p3 : priv_frame p1 p2 -> priv_frame p2 p3 -> priv_frame p1 p3.
Proof. intros [] []. split; congruence. Qed.

Lemma cmd_frame_refl c : cmd_frame c c.
Proof. by split. Qed.

Lemma cmd_frame_trans c1 c2 c3 : cmd_frame c1 c2 -> cmd_frame c2 c3 -> cmd_frame c1 c3.
Proof. intros [] []. split; congruence. Qed.

Lemma frame_trans (s1 s2 s3 : st) : frame s1 s2 -> frame s2 s3 -> frame s1 s3.
Proof.
  intros (Hw & Hp & Hc) (Hw' & Hp' & Hc'). split; [|split].
  - rewrite (cf_idx _ _ Hc) in Hw'. by eapply world_frame_trans.
  - by eapply priv_frame_trans.
  - by eapply cmd_frame_trans.
Qed.

Lemma no_refused_prefix (w w' : world E) : trace w `prefix_of` trace w' -> no_refused w' -> no_refused w.
Proof. intros [t Ht] Hn. unfold no_refused in *. rewrite Ht in Hn. by apply Forall_app in Hn as [? _]. Qed.

Lemma no_refused_frame i (w w' : world E) : world_frame i w w' -> no_refused w' -> no_refused w.
Proof. intros Hw. apply no_refused_prefix, (wf_trace _ _ _ Hw). Qed.

(** An accepted data write, from the calls made after it. *)
Lemma no_refused_write (w w' w'' : world E) i la ln lk ra rk ret :
  called (DmaWrite i la ln lk ra rk) ret w w' -> trace w' `prefix_of` trace w'' -> no_refused w'' -> ret = 0.
Proof.
  intros [Ht _ _ _] Hpre Hn. apply (no_refused_prefix _ _ Hpre) in Hn. unfold no_refused in Hn. rewrite Ht in Hn.
  apply Forall_app in Hn as [_ [Hr _]%Forall_cons]. exact Hr.
Qed.

Lemma same_pending_quiet w w' c : same_pending w w' -> quiet w c -> quiet w' c.
Proof. intros [_ _ Hd Hb Hp]. unfold quiet, n_dma, n_bdev, n_pool. by rewrite Hd, Hb, Hp. Qed.

Lemma same_pending_dead w w' c : same_pending w w' -> dead_ok w c -> dead_ok w' c.
Proof. intros [_ _ Hd Hb Hp]. unfold dead_ok, n_dma, n_bdev, n_pool. by rewrite Hd, Hb, Hp. Qed.

Lemma same_counters_refl p : same_counters p p.
Proof. by split. Qed.

Lemma quiet_dead (w : world E) c : quiet w c -> dead_ok w c.
Proof. intros (? & ? & ?). split_and!; auto. Qed.

End Frames.

#[export] Hint Resolve same_pending_refl world_frame_refl priv_frame_refl cmd_frame_refl same_counters_refl
  quiet_dead same_pending_frame : snap.

(** Close the frame and counter facts of a straight-line handler. *)
Ltac frame_solve :=
  repeat match goal with
  | |- frame _ _ => split; [|split]
  | |- priv_frame _ _ => split; reflexivity
  | |- cmd_frame _ _ => split; reflexivity
  | |- same_counters _ _ => split; reflexivity
  | |- world_frame _ ?w ?w => apply world_frame_refl
  end; rec_simpl.

(** Arithmetic on state numbers. *)
Ltac st_lia :=
  unfold fail_request in *; cbn [error_status blk_impl_ops] in *; rec_simpl in *;
  unfold VIRTQ_CMD_STATE_FETCH_CMD_DESCS, VIRTQ_CMD_STATE_READ_HEADER, VIRTQ_CMD_STATE_PARSE_HEADER,
    VIRTQ_CMD_STATE_READ_DATA, VIRTQ_CMD_STATE_HANDLE_REQ, VIRTQ_CMD_STATE_OUT_DATA_DONE,
    VIRTQ_CMD_STATE_IN_DATA_DONE, VIRTQ_CMD_STATE_WRITE_STATUS, VIRTQ_CMD_STATE_SEND_COMP,
    VIRTQ_CMD_STATE_SEND_IN_ORDER_COMP, VIRTQ_CMD_STATE_RELEASE, VIRTQ_CMD_STATE_FATAL_ERR in *;
  lia.

(** * Bounds of the descriptor processing *)

Lemma merge_body_bounds i s s' :
  merge_body i s = Some s' ->
  length (ms_descs s') = length (ms_descs s) /\
  (ms_merged_desc_num s' = ms_merged_desc_num s \/ ms_merged_desc_num s' = u32 (ms_merged_desc_num s - 1)).
Proof.
  unfold merge_body. intros Hm. repeat (case_match || simplify_option_eq); cbn [ms_descs ms_merged_desc_num];
    split; eauto using aset_length.
Qed.

Lemma merge_loop_bounds n : forall i s i' s',
  merge_loop n i s = Some (i', s') -> Z.of_nat n <= ms_merged_desc_num s < 2 ^ 32 ->
  length (ms_descs s') = length (ms_descs s) /\
  ms_merged_desc_num s - Z.of_nat n <= ms_merged_desc_num s' <= ms_merged_desc_num s.
Proof.
  induction n as [|n IH]; intros i s i' s' Hrun Hb; cbn [merge_loop] in Hrun; [simplify_eq; split; [done|lia]|].
  destruct (merge_body i s) as [s1|] eqn:Hbody; [cbn in Hrun|done].
  destruct (merge_body_bounds _ _ _ Hbody) as [Hlen Hnum].
  assert (ms_merged_desc_num s - 1 <= ms_merged_desc_num s1 <= ms_merged_desc_num s) as H1.
  { destruct Hnum as [-> | ->]; [lia|]. rewrite u32_small; lia. }
  destruct (IH _ _ _ _ Hrun) as [Hl Hn]; [lia|]. split; [congruence|lia].
Qed.

Lemma merge_bounds ds n l num m :
  virtq_sequential_data_descs_merge ds n = Some (l, num, m) -> Z.of_nat n < 2 ^ 32 ->
  length l = length ds /\ num <= Z.of_nat n /\ ((2 <= n)%nat -> 2 <= num).
Proof.
  unfold virtq_sequential_data_descs_merge. destruct n as [|n]; [done|]. set (n' := S n). intros Hrun Hb.
  destruct (merge_loop _ _ _) as [[i s]|] eqn:Hloop; [cbn in Hrun|done].
  apply merge_loop_bounds in Hloop as [Hlen Hnum]; [|cbn [ms_merged_desc_num]; rewrite u32_small; lia].
  cbn [ms_descs ms_merged_desc_num] in Hlen, Hnum. rewrite u32_small in Hnum by lia.
  assert (length l = length (ms_descs s) /\ num = ms_merged_desc_num s) as [Hl ->].
  { destruct (i =? ms_index_to_copy_to s)%nat; simplify_option_eq; eauto using aset_length. }
  split; [congruence|]. lia.
Qed.

Lemma upd_desc_length ds i f l : upd_desc ds i f = Some l -> length l = length ds.
Proof. unfold upd_desc. intros Hrun. simplify_option_eq. by eapply aset_length. Qed.

Lemma shift_descs_length i : forall ds l, shift_descs i ds = Some l -> length l = length ds.
Proof.
  induction i as [|i IH]; intros ds l Hrun; cbn [shift_descs] in Hrun; [by simplify_eq|].
  simplify_option_eq. rewrite (IH _ _ Hrun). by eapply aset_length.
Qed.

Lemma upd_desc_lt ds i f l : upd_desc ds i f = Some l -> (i < length ds)%nat.
Proof. unfold upd_desc. intros Hrun. simplify_option_eq. by eapply lookup_lt_Some. Qed.

Lemma split_header_bounds ds n l : split_header ds n = Some l -> length l = length ds /\ (n < length ds)%nat.
Proof.
  unfold split_header. intros Hrun.
  repeat match type of Hrun with (_ ≫= _) = Some _ => apply bind_Some in Hrun as (? & ? & Hrun) end.
  repeat match goal with H : upd_desc _ _ _ = Some _ |- _ =>
    pose proof (upd_desc_lt _ _ _ _ H); apply upd_desc_length in H end.
  match goal with H : shift_descs _ _ = Some _ |- _ => apply shift_descs_length in H end. split; [congruence|lia].
Qed.

Lemma split_footer_bounds ds n l : split_footer ds n = Some l -> length l = length ds /\ (n < length ds)%nat.
Proof.
  unfold split_footer. intros Hrun.
  repeat match type of Hrun with (_ ≫= _) = Some _ => apply bind_Some in Hrun as (? & ? & Hrun) end.
  repeat match goal with H : upd_desc _ _ _ = Some _ |- _ =>
    pose proof (upd_desc_lt _ _ _ _ H); apply upd_desc_length in H end. split; [congruence|lia].
Qed.

(** A processed request with a header and a footer stays in its memory. *)
Lemma process_desc_bounds ds n nm md l num m :
  virtq_blk_process_desc ds n nm md = Some (l, num, m) -> Z.of_nat (length ds) < 2 ^ 32 ->
  length l = length ds /\ (2 <= num -> num <= Z.of_nat (length ds)).
Proof.
  unfold virtq_blk_process_desc, NUM_HDR_FTR_DESCS. intros Hrun Hb.
  destruct (Nat.ltb_spec n 2); [simplify_eq; split_and!; lia|].
  destruct (ds !! 0%nat) as [first|]; [cbn in Hrun|done].
  apply bind_Some in Hrun as ([ds' n'] & Hsplit & Hrun).
  assert (length ds' = length ds /\ (n' <= length ds)%nat /\ (2 <= n')%nat) as (Hl & Hn1 & Hn2).
  { destruct (negb _).
    - apply bind_Some in Hsplit as (d & Hs & Hsplit). simplify_eq. apply split_header_bounds in Hs as [? ?]. lia.
    - apply bind_Some in Hsplit as (d & Hd & Hsplit). apply lookup_lt_Some in Hd. destruct (negb _); [|simplify_eq; lia].
      apply bind_Some in Hsplit as (d' & Hs & Hsplit). simplify_eq. apply split_footer_bounds in Hs as [? ?]. lia. }
  destruct md.
  - apply merge_bounds in Hrun as (Hl' & Hle & Hge); [|lia]. split; [congruence|lia].
  - simplify_eq. split; lia.
Qed.

(** * The handlers *)

Section Handlers.
Context {E : Type} `{Env E} `{BlkConfig} `{!BdevLaws E}.
#[local] Abbreviation st := (vst E blk_virtq_cmd).

Lemma vst_same (s : st) : s = mk_vst (vw s) (vp s) (vc s).
Proof. by destruct s. Qed.

Lemma mark_dirty_ok (s : st) pa len b :
  dirty_ok (vp s) ->
  exists w, virtq_mark_dirty_mem s pa len b = Ok (mk_vst w (vp s) (vc s)) /\ same_pending (vw s) w.
Proof.
  intros Hd. unfold virtq_mark_dirty_mem, dirty_ok in *. destruct (log_writes_to_host (vp s)); cbn [negb].
  - rewrite Hd by done. step_call. exists w. split; [done|]. by apply (called_sync _ _ _ _ Hcall).
  - exists (vw s). split; [by rewrite <- vst_same|auto with snap].
Qed.

Lemma rel_req_dbuf_ok (s : st) :
  exists w, virtq_rel_req_dbuf s =
    mk_vst w (vp s) ((vc s) ⦇ req_buf := buf (vc s) ⦈ ⦇ req_mr := mr (vc s) ⦈ ⦇ use_dmem := false ⦈) /\
    same_pending (vw s) w.
Proof.
  unfold virtq_rel_req_dbuf. destruct (ext_called s (DeregMr (req_mr (vc s)))) as (w & ret & -> & Hc).
  change (release_cmd (mk_vst w (vp s) (vc s)))
    with (fst (ext (mk_vst w (vp s) (vc s)) (DmaFree (req_buf (vc s))))).
  destruct (ext_called (mk_vst w (vp s) (vc s)) (DmaFree (req_buf (vc s)))) as (w2 & ret2 & -> & Hc2).
  exists w2. split; [reflexivity|]. eapply same_pending_trans; eapply called_sync; eauto.
Qed.

(** Releasing the memory of a command: the request buffer and the descriptors are
    those of the queue again. *)
Lemma common_release_ok (s : st) :
  mem_ok (vp s) (vc s) ->
  exists s', virtq_common_release s = Ok (s', false) /\ vp s' = vp s /\ same_pending (vw s) (vw s') /\
    cmd_frame (vc s) (vc s') /\ cmd_state (vc s') = cmd_state (vc s) /\ dma_count (vc s') = dma_count (vc s) /\
    mem_ok (vp s) (vc s') /\ aux_src (vc s') = InQueueData.
Proof.
  intros Hm. unfold virtq_common_release.
  assert (exists s1, (if use_dmem (vc s) then virtq_rel_req_dbuf s else s) = s1 /\ vp s1 = vp s /\
    same_pending (vw s) (vw s1) /\ cmd_frame (vc s) (vc s1) /\ cmd_state (vc s1) = cmd_state (vc s) /\
    dma_count (vc s1) = dma_count (vc s) /\ aux_src (vc s1) = aux_src (vc s) /\
    use_seg_dmem (vc s1) = use_seg_dmem (vc s) /\ descs (vc s1) = descs (vc s) /\
    slot_descs (vc s1) = slot_descs (vc s)) as (s1 & -> & Hp1 & Hw1 & Hc1 & Hs1 & Hd1 & Ha1 & Hu1 & Hl1 & Hl2).
  { destruct (use_dmem (vc s)); [|exists s; split_and!; auto with snap]. eexists. split; [reflexivity|].
    destruct (rel_req_dbuf_ok s) as (w & -> & Hw). split_and!; try reflexivity; [exact Hw|split; reflexivity]. }
  assert (exists s2, (if use_mem_pool (vp s1) then mem_pool_release s1 else s1) = s2 /\ vp s2 = vp s1 /\
    same_pending (vw s1) (vw s2) /\ vc s2 = vc s1) as (s2 & -> & Hp2 & Hw2 & Hc2).
  { destruct (use_mem_pool (vp s1)); [|exists s1; auto with snap]. cbn [mem_pool_release blk_impl_ops].
    unfold virtq_rel_req_mempool_buf. destruct (negb _); [|exists s1; auto with snap].
    eexists. split; [reflexivity|]. step_call. split_and!; [done| |done]. by apply (called_sync _ _ _ _ Hcall). }
  rewrite Hc2, Hu1. unfold mem_ok in Hm. destruct Hm as [Hcap Hm]. destruct (use_seg_dmem (vc s)) eqn:Hseg.
  - destruct (use_mem_pool (vp s)) eqn:Hpool; [by destruct Hm|].
    cbn [seg_dmem_release blk_impl_ops]. unfold virtq_rel_req_desc. step_call. unfold free_aux.
    rec_simpl. rewrite Hc2, Ha1, Hm. step_call. cbn [res_bind]. rec_simpl. rewrite Hp2, Hp1, Hpool.
    eexists. split; [reflexivity|]. rec_simpl.
    split_and!; try done; [|by destruct Hc1; split|].
    + eapply same_pending_trans; [exact Hw1|]. eapply same_pending_trans; [exact Hw2|].
      eapply same_pending_trans; eapply called_sync; eauto.
    + unfold mem_ok. rec_simpl. rewrite Hpool, Hl2. split; [tauto|done].
  - exists s2. rewrite Hc2, Hp2, Hp1. split_and!; [done|done| |done|done|done| |].
    + by eapply same_pending_trans.
    + unfold mem_ok. by rewrite Ha1, Hu1, Hl1, Hl2.
    + rewrite Ha1. by destruct (use_mem_pool (vp s)); [destruct Hm|].
Qed.

(** A handler that stops: only the frame is known of a queue that refused a write. *)
Lemma handles_stop (s s' : st) :
  frame s s' ->
  (no_refused (vw s) -> no_refused (vw s') -> settled (vw s') (vp s') (vc s') /\ counted s s') ->
  handles s (Ok (s', false)).
Proof.
  intros Hf Hs. split; [done|]. intros Hn. apply Hs; [|done]. destruct Hf as (Hw & _). by eapply no_refused_frame.
Qed.

Lemma u32_id x : 0 <= x < 2 ^ 32 -> u32 (x + 0) = x.
Proof. intros Hx. rewrite Z.add_0_r. by apply u32_small. Qed.

(** The last handler of a command that failed for good. *)
Lemma fatal_handles (s : st) status :
  ready (vw s) (vp s) (vc s) -> counters_ok (vp s) -> cmd_state (vc s) = 12 ->
  handles s (virtq_sm_fatal_error s status).
Proof.
  intros (_ & Hm & Hdirty & _ & Hdead) [] Hst. rewrite Hst in Hdead. cbn [Z.eqb Pos.eqb] in Hdead.
  unfold virtq_sm_fatal_error. destruct (common_release_ok s Hm) as (s' & -> & Hp & Hw & Hc & Hs & Hd & Hm' & Ha).
  cbn [res_bind]. apply handles_stop; [frame_solve; [auto with snap|by rewrite Hp|done]|].
  intros Hdead'%Hdead _. assert (dead_ok (vw s') (vc s')) as Hdead1.
  { apply (same_pending_dead _ _ _ Hw) in Hdead'. unfold dead_ok in *. by rewrite (cf_idx _ _ Hc), Hd. }
  clear Hdead'. split.
  - unfold settled. rec_simpl. rewrite Hp. split_and!; [done|done|lia|].
    right. left. rewrite Hs. done.
  - rewrite Hp. split; rec_simpl; unfold host_c, bdev_c, total_c, fatal_c; rewrite ?Hs, ?Hst; cbn [Z.eqb Pos.eqb orb andb].
    + cbn. by rewrite u32_id.
    + destruct Hdead1 as (-> & _). by rewrite u32_id.
    + cbn. rewrite u32_small; lia.
    + done.
Qed.

(** The release of a completed command. *)
Lemma release_handles (s : st) status :
  ready (vw s) (vp s) (vc s) -> counters_ok (vp s) -> cmd_state (vc s) = 11 ->
  handles s (blk_virtq_sm_release s status).
Proof.
  intros (_ & Hm & Hdirty & _ & Hq) Hco Hst. rewrite Hst in Hq. cbn [Z.eqb Pos.eqb] in Hq.
  unfold blk_virtq_sm_release, virtq_sm_release.
  set (p := if _ && _ then _ else vp s).
  assert (priv_frame (vp s) p /\ same_counters (vp s) p /\ mem_ok p (vc s)) as (Hpf & Hsc & Hm1).
  { unfold p. destruct (_ && _); [destruct (0 <? _)|]; split_and!; try done; split; reflexivity. }
  clearbody p. destruct (common_release_ok (s ⦇ vp := p ⦈)) as (s' & -> & Hp & Hw & Hc & Hs & Hd & Hm' & Ha); [exact Hm1|].
  rec_simpl in *. cbn [res_bind]. apply handles_stop.
  { frame_solve; [auto with snap| |done]. rewrite Hp. destruct Hpf. by split. }
  intros Hq1%Hq _. assert (quiet (vw s') (vc s')) as Hq'.
  { apply (same_pending_quiet _ _ _ Hw) in Hq1. unfold quiet in *. by rewrite (cf_idx _ _ Hc). }
  clear Hq1. split.
  - unfold settled. rec_simpl. rewrite Hp. split_and!; [done| |lia|].
    + unfold dirty_ok in *. cbn. destruct Hpf as [_ _ _ _ _ -> ->]. done.
    + left. unfold free_slot. rewrite Hs. auto.
  - rewrite Hp. destruct Hsc as [Hh Hb Ht Hf], Hco. split; rec_simpl;
      unfold host_c, bdev_c, total_c, fatal_c; rewrite ?Hs, ?Hst; cbn [Z.eqb Pos.eqb orb andb].
    + cbn. by rewrite Hh, u32_id.
    + destruct Hq' as (_ & -> & _). by rewrite Hb, u32_id.
    + by rewrite Ht, Z.add_0_r.
    + by rewrite Hf, u32_id.
Qed.

(** [send_comp] only moves the used index of the software queue. *)
Lemma send_comp_ok (s : st) :
  exists w p ret, blk_send_comp s = (mk_vst w p (vc s), ret) /\
    same_pending (vw s) w /\ priv_frame (vp s) p /\ same_counters (vp s) p /\
    ctrl_used_index p = ctrl_used_index (vp s).
Proof.
  unfold blk_send_comp. destruct provider.
  - unfold virtq_tunnel_send_comp. step_call. do 3 eexists. split; [reflexivity|].
    split_and!; auto with snap. by apply (called_sync _ _ _ _ Hcall).
  - unfold virtq_sw_send_comp. step_call. destruct (negb _).
    + do 3 eexists. split; [reflexivity|]. split_and!; auto with snap. by apply (called_sync _ _ _ _ Hcall).
    + step_call. do 3 eexists. split; [reflexivity|]. split_and!; try done.
      eapply same_pending_trans; eapply called_sync; eauto.
  - unfold virtq_dpa_send_comp. step_call. do 3 eexists. split; [reflexivity|].
    split_and!; auto with snap. by apply (called_sync _ _ _ _ Hcall).
Qed.

Lemma set_stat_frame k v p : priv_frame p (set_stat k v p) /\ same_counters p (set_stat k v p) /\
  ctrl_used_index (set_stat k v p) = ctrl_used_index p.
Proof. by destruct k. Qed.

(** Going on to state [v], with the command otherwise unchanged where it matters. *)
Lemma ready_next (w w' : world E) (p p' : virtq_priv) (c c' : bcmd) :
  ready w p c -> cmd_state c <> 12 -> same_pending w w' -> priv_frame p p' ->
  cmd_idx c' = cmd_idx c -> 1 <= cmd_state c' <= 12 -> mem_ok p c' ->
  (2 <= cmd_state c' <= 10 -> desc_ok c') -> ready w' p' c'.
Proof.
  intros (_ & _ & Hdirty & _ & Hq) Hne Hw Hp Hi Hs Hm Hd. apply Z.eqb_neq in Hne. rewrite Hne in Hq.
  split_and!; try lia; try done.
  - unfold mem_ok in *. by rewrite (pf_pool _ _ Hp), (pf_size _ _ Hp).
  - unfold dirty_ok in *. by rewrite (pf_log _ _ Hp), (pf_chan _ _ Hp).
  - intros Hnr. specialize (Hq (no_refused_prefix _ _ (sp_trace _ _ Hw) Hnr)).
    apply (same_pending_quiet _ _ _ Hw) in Hq.
    assert (quiet w' c') as Hq' by (unfold quiet in *; by rewrite Hi). case_match; auto with snap.
Qed.

Lemma send_completion_handles (s : st) status :
  ready (vw s) (vp s) (vc s) -> counters_ok (vp s) -> cmd_state (vc s) = 9 \/ cmd_state (vc s) = 10 ->
  handles s (virtq_sm_send_completion s status).
Proof.
  intros Hready Hco Hst. pose proof Hready as (_ & Hm & Hdirty & Hdesc & Hq).
  assert (cmd_state (vc s) <> 12) as Hne by lia. specialize (Hdesc ltac:(lia)).
  unfold virtq_sm_send_completion. destruct status.
  2:{ split; [by frame_solve|]. split_and!; [|st_lia|by frame_solve].
      eapply ready_next; try done; auto with snap. }
  set (unord := negb _). set (s1 := match io_cmd_stat (vc s) with Some _ => _ | None => s end).
  assert (exists p1, s1 = mk_vst (vw s) p1 (vc s) /\ priv_frame (vp s) p1 /\ same_counters (vp s) p1) as (p1 & -> & Hp1 & Hc1).
  { unfold s1. pose proof (vst_same s) as Hs. destruct (io_cmd_stat (vc s)) as [k|], unord; try (exists (vp s); split_and!; auto with snap; fail).
    eexists. split; [reflexivity|]. split; apply set_stat_frame. }
  rec_simpl. destruct (force_in_order p1 && unord) eqn:Hord.
  - apply Z.eqb_neq in Hne. rewrite Hne in Hq.
    apply handles_stop; [frame_solve; done|]. intros Hq1%Hq _. clear Hq. rename Hq1 into Hq. split.
    + unfold settled. rec_simpl. split_and!.
      * unfold mem_ok in *. by rewrite (pf_pool _ _ Hp1), (pf_size _ _ Hp1).
      * unfold dirty_ok in *. by rewrite (pf_log _ _ Hp1), (pf_chan _ _ Hp1).
      * done.
      * do 5 right. split_and!; [done| |done..]. by apply andb_prop in Hord as [? _].
    + destruct Hc1 as [Hh Hb Ht Hf], Hco. destruct Hq as (_ & Hqb & _).
      split; rec_simpl; unfold host_c, bdev_c, total_c, fatal_c; cbn.
      * by rewrite Hh, u32_id.
      * by rewrite Hqb, Hb, u32_id.
      * rewrite Ht, u32_small; lia.
      * by rewrite Hf, u32_id.
  - cbn [send_comp blk_impl_ops]. destruct (send_comp_ok (mk_vst (vw s) p1 (vc s))) as (w & p2 & ret & -> & Hw & Hp2 & Hc2 & _).
    cbn [vp vc vw] in Hw, Hp2, Hc2 |- *. pose proof (priv_frame_trans _ _ _ Hp1 Hp2) as Hp.
    assert (same_counters (vp s) p2) as Hc by (destruct Hc1, Hc2; split; congruence).
    destruct (negb (ret =? 0)).
    + split; [frame_solve; auto with snap|]. split_and!; [|st_lia|done].
      eapply ready_next; try done.
    + destruct (mark_dirty_ok (mk_vst w p2 (vc s)) 0 0 true) as (w2 & -> & Hw2).
      { unfold dirty_ok in *. cbn. by rewrite (pf_log _ _ Hp), (pf_chan _ _ Hp). }
      cbn [handles]; rec_simpl in *.
      assert (same_pending (vw s) w2) as Hw3 by (by eapply same_pending_trans).
      split; [frame_solve; [by apply same_pending_frame|by destruct Hp; split]|].
      split_and!; [|st_lia|by destruct Hc; split].
      eapply ready_next; try done. by destruct Hp; split.
Qed.

(** ** Reaching a waiting state *)

Lemma mem_ok_frame p p' c : priv_frame p p' -> mem_ok p c -> mem_ok p' c.
Proof. intros Hp. unfold mem_ok. by rewrite (pf_pool _ _ Hp), (pf_size _ _ Hp). Qed.

Lemma dirty_ok_frame p p' : priv_frame p p' -> dirty_ok p -> dirty_ok p'.
Proof. intros Hp. unfold dirty_ok. by rewrite (pf_log _ _ Hp), (pf_chan _ _ Hp). Qed.

(** The command waits for DMA completions. *)
Lemma settles_dma (s : st) w p c :
  counters_ok (vp s) -> mem_ok (vp s) c -> dirty_ok (vp s) -> priv_frame (vp s) p ->
  outstanding_to_host p = u32 (outstanding_to_host (vp s) + 1) ->
  outstanding_in_bdev p = outstanding_in_bdev (vp s) -> outstanding_total p = outstanding_total (vp s) ->
  fatal p = fatal (vp s) -> (2 <= cmd_state c <= 10 -> desc_ok c) -> waits_dma w c ->
  settled w p c /\ counted s (mk_vst w p c).
Proof.
  intros [] Hm Hd Hp Hh Hb Ht Hf Hdesc Hwait. split.
  - split_and!; eauto using mem_ok_frame, dirty_ok_frame; tauto.
  - destruct Hwait as (Hst & Hnb & Hnp & _).
    assert ((cmd_state c =? 0) = false /\ (cmd_state c =? 11) = false /\ (cmd_state c =? 12) = false) as (H0' & H11 & H12)
      by (rewrite !Z.eqb_neq; lia).
    split; cbn [vw vp vc]; unfold host_c, bdev_c, total_c, fatal_c.
    + rewrite Hnb, Hnp. destruct Hst as [-> | [-> | [-> | ->]]]; cbn; done.
    + rewrite Hnb, Hb. cbn. by rewrite u32_id.
    + rewrite H0', H11, Ht. cbn. rewrite u32_small; lia.
    + by rewrite H12, Hf, u32_id.
Qed.

(** The command waits for the block device. *)
Lemma settles_bdev (s : st) w p c :
  counters_ok (vp s) -> mem_ok (vp s) c -> dirty_ok (vp s) -> priv_frame (vp s) p ->
  outstanding_in_bdev p = u32 (outstanding_in_bdev (vp s) + 1) ->
  outstanding_to_host p = outstanding_to_host (vp s) -> outstanding_total p = outstanding_total (vp s) ->
  fatal p = fatal (vp s) -> desc_ok c -> waits_bdev w c ->
  settled w p c /\ counted s (mk_vst w p c).
Proof.
  intros [] Hm Hd Hp Hb Hh Ht Hf Hdesc Hwait. split.
  - split_and!; eauto using mem_ok_frame, dirty_ok_frame; tauto.
  - destruct Hwait as (Hst & _ & _ & _ & Hnb).
    assert ((cmd_state c =? 0) = false /\ (cmd_state c =? 11) = false /\ (cmd_state c =? 12) = false) as (H0' & H11 & H12)
      by (rewrite !Z.eqb_neq; lia).
    split; cbn [vw vp vc]; unfold host_c, bdev_c, total_c, fatal_c.
    + rewrite Hnb, andb_false_r, Hh. cbn. by rewrite u32_id.
    + by rewrite Hnb.
    + rewrite H0', H11, Ht. cbn. rewrite u32_small; lia.
    + by rewrite H12, Hf, u32_id.
Qed.

(** The command waits for memory. *)
Lemma settles_pool (s : st) w p c :
  counters_ok (vp s) -> mem_ok (vp s) c -> dirty_ok (vp s) -> priv_frame (vp s) p -> same_counters (vp s) p ->
  desc_ok c -> waits_pool w c -> settled w p c /\ counted s (mk_vst w p c).
Proof.
  intros [] Hm Hd Hp [Hh Hb Ht Hf] Hdesc Hwait. split.
  - split_and!; eauto using mem_ok_frame, dirty_ok_frame; tauto.
  - destruct Hwait as (Hst & _ & Hnb & Hnp).
    assert ((cmd_state c =? 0) = false /\ (cmd_state c =? 11) = false /\ (cmd_state c =? 12) = false) as (H0' & H11 & H12)
      by (rewrite !Z.eqb_neq; lia).
    split; cbn [vw vp vc]; unfold host_c, bdev_c, total_c, fatal_c.
    + rewrite Hnp, andb_false_r, Hh. by rewrite u32_id.
    + rewrite Hnb, Hb. by rewrite u32_id.
    + rewrite H0', H11, Ht. cbn. rewrite u32_small; lia.
    + by rewrite H12, Hf, u32_id.
Qed.

(** An accepted operation of the command [i], counted. *)
Lemma flight_self i ret l :
  ret = 0 -> count_occ Nat.eq_dec (flight (Some i) ret l) i = S (count_occ Nat.eq_dec l i).
Proof. intros ->. cbn. by destruct (Nat.eq_dec i i). Qed.

(** ** Status *)

Lemma write_back_handles (s : st) status :
  ready (vw s) (vp s) (vc s) -> cmd_state (vc s) = 6 -> handles s (virtq_sm_write_back_done s status).
Proof.
  intros Hready Hst. pose proof Hready as (_ & Hm & _ & Hdesc & _). specialize (Hdesc ltac:(lia)).
  destruct status; cbn [virtq_sm_write_back_done handles];
    (split; [by frame_solve|split_and!; [|st_lia|by frame_solve]]);
    (eapply ready_next; try done; auto with snap; st_lia).
Qed.

Lemma status_desc_ok (c : bcmd) : desc_ok c -> is_Some (descs c !! Z.to_nat (u16 (num_desc c - 1))).
Proof. intros [Hn Hb]. apply lookup_lt_is_Some_2. rewrite u16_small by lia. lia. Qed.

Lemma write_status_handles (s : st) status :
  ready (vw s) (vp s) (vc s) -> cmd_state (vc s) = 8 -> handles s (virtq_sm_write_status s status).
Proof.
  intros Hready Hst. pose proof Hready as (_ & Hm & Hdirty & Hdesc & _). specialize (Hdesc ltac:(lia)).
  unfold virtq_sm_write_status. set (s1 := match status with VIRTQ_CMD_SM_OP_OK => s | _ => _ end).
  assert (exists c1, s1 = mk_vst (vw s) (vp s) c1 /\ cmd_frame (vc s) c1 /\ desc_ok c1 /\ mem_ok (vp s) c1 /\
    cmd_state c1 = 8) as (c1 & -> & Hc1 & Hd1 & Hm1 & Hst1).
  { unfold s1. destruct status; eexists; (split; [first [apply vst_same|reflexivity]|]); by split_and!. }
  cbn [status_data blk_impl_ops blk_virtq_status_data vc vp vw send_status].
  destruct (status_desc_ok c1 Hd1) as [d ->]. step_call.
  assert (same_pending (vw s) w) as Hw.
  { eapply (called_sync _ _ _ _ Hcall); unfold blk_send_status; by destruct provider. }
  destruct (negb (ret =? 0)).
  - split; [frame_solve; auto with snap; by destruct Hc1|].
    split_and!; [|st_lia|by frame_solve]. eapply ready_next; try done; auto with snap; [lia|apply Hc1].
  - destruct (mark_dirty_ok (mk_vst w (vp s) c1) (d_addr d) sizeof_virtio_blk_outftr false Hdirty) as (w2 & -> & Hw2).
    cbn [handles]; rec_simpl in *.
    pose proof (same_pending_trans _ _ _ Hw Hw2) as Hw3.
    split; [frame_solve; auto with snap; by destruct Hc1|]. split_and!; [|st_lia|by frame_solve].
    eapply ready_next; try done; auto with snap; [lia|apply Hc1].
Qed.

(** ** Header and data *)

Lemma quiet_of (s : st) :
  ready (vw s) (vp s) (vc s) -> cmd_state (vc s) <> 12 -> no_refused (vw s) -> quiet (vw s) (vc s).
Proof. intros (_ & _ & _ & _ & Hq) Hne. apply Z.eqb_neq in Hne. by rewrite Hne in Hq. Qed.

Lemma read_header_handles (s : st) status :
  ready (vw s) (vp s) (vc s) -> counters_ok (vp s) -> cmd_state (vc s) = 2 ->
  handles s (blk_virtq_sm_read_header s status).
Proof.
  intros Hready Hco Hst. pose proof Hready as (_ & Hm & Hdirty & Hdesc & _). specialize (Hdesc ltac:(lia)).
  pose proof (quiet_of s Hready ltac:(lia)) as Hquiet.
  unfold blk_virtq_sm_read_header, first_desc. rec_simpl.
  destruct (lookup_lt_is_Some_2 (descs (vc s)) 0) as [d Hd]; [destruct Hdesc; lia|].
  cbn [descs]. rewrite Hd. cbn [res_bind]. step_call.
  destruct (Z.eqb_spec ret 0) as [->|Hne]; cbn [negb].
  - apply handles_stop; [frame_solve; eapply called_frame; [exact Hcall|cbn; auto..]|].
    intros (Hqd & Hqb & Hqp)%Hquiet _. rec_simpl. apply settles_dma; try done. split_and!.
    + cbn. auto.
    + unfold n_bdev. rewrite (called_bdev _ _ _ _ Hcall). exact Hqb.
    + unfold n_pool. rewrite (called_pool _ _ _ _ Hcall). exact Hqp.
    + unfold n_dma in *. rewrite (called_dma _ _ _ _ Hcall). cbn [op_dma cmd_idx]. rewrite flight_self by done.
      by rewrite Hqd.
    + cbn. lia.
  - pose proof (called_refused _ _ _ _ Hcall Hne eq_refl) as Hw.
    split; [frame_solve; auto with snap|]. split_and!; [|st_lia|by frame_solve].
    eapply ready_next; try done; st_lia.
Qed.

(** Reads of the data: those accepted are in flight; when one is refused, fewer
    are in flight than were counted. *)
Lemma read_data_loop_ok l : forall (s : st) off,
  let count := length (base.filter (fun d => has_flag (d_flags d) VRING_DESC_F_WRITE = false) l) in
  exists w ret, read_data_loop l s off = (mk_vst w (vp s) (vc s), ret) /\
    world_frame (cmd_idx (vc s)) (vw s) w /\ in_bdev w = in_bdev (vw s) /\ in_pool w = in_pool (vw s) /\
    (ret = 0 -> n_dma w (cmd_idx (vc s)) = (n_dma (vw s) (cmd_idx (vc s)) + count)%nat) /\
    (ret <> 0 -> (n_dma w (cmd_idx (vc s)) < n_dma (vw s) (cmd_idx (vc s)) + count)%nat).
Proof.
  induction l as [|d l IH]; intros s off; cbn [read_data_loop].
  - exists (vw s), 0. rewrite <- vst_same. split_and!; auto with snap; cbn; intros; lia.
  - destruct (has_flag (d_flags d) VRING_DESC_F_WRITE) eqn:Hf.
    + rewrite filter_cons_False by congruence. apply IH.
    + rewrite filter_cons_True by done. cbn [length]. step_call.
      assert (world_frame (cmd_idx (vc s)) (vw s) w) as Hw by (eapply called_frame; [exact Hcall|cbn; auto..]).
      destruct (Z.eqb_spec ret 0) as [->|Hne]; cbn [negb].
      * destruct (IH (mk_vst w (vp s) (vc s)) (off + d_len d)) as (w2 & ret2 & -> & Hw2 & Hb2 & Hp2 & Hok & Hbad).
        cbn [vw vp vc] in *. exists w2, ret2.
        assert (n_dma w (cmd_idx (vc s)) = S (n_dma (vw s) (cmd_idx (vc s)))) as Hn.
        { unfold n_dma. rewrite (called_dma _ _ _ _ Hcall). cbn [op_dma]. by apply flight_self. }
        split_and!; [done|by eapply world_frame_trans|by rewrite Hb2, (called_bdev _ _ _ _ Hcall)
          |by rewrite Hp2, (called_pool _ _ _ _ Hcall)|intros Hr; rewrite (Hok Hr), Hn; lia
          |intros Hr; specialize (Hbad Hr); lia].
      * exists w, ret. pose proof (called_refused _ _ _ _ Hcall Hne eq_refl) as Hsp.
        split_and!; [done|done|apply Hsp|apply Hsp|done|]. intros _. unfold n_dma. rewrite (sp_dma _ _ Hsp). lia.
Qed.

Lemma data_descs_ok lo (c : bcmd) :
  desc_ok c -> lo <= 2 ->
  data_descs lo c = Ok (take (Z.to_nat (num_desc c - 2)) (drop 1 (descs c))) /\
  Z.of_nat (length (take (Z.to_nat (num_desc c - 2)) (drop 1 (descs c)))) = num_desc c - 2.
Proof.
  intros [Hn Hb] Hlo. unfold data_descs. destruct (Z.ltb_spec (num_desc c) lo); [lia|].
  destruct (Z.ltb_spec (Z.of_nat (length (descs c))) (num_desc c - 1)); [lia|]. split; [done|].
  rewrite length_take, length_drop. lia.
Qed.

Lemma read_data_handles (s : st) status :
  ready (vw s) (vp s) (vc s) -> counters_ok (vp s) -> cmd_state (vc s) = 4 ->
  handles s (blk_virtq_sm_read_data s status).
Proof.
  intros Hready Hco Hst. pose proof Hready as (_ & Hm & Hdirty & Hdesc & _). specialize (Hdesc ltac:(lia)).
  pose proof (quiet_of s Hready ltac:(lia)) as Hquiet.
  unfold blk_virtq_sm_read_data.
  destruct (data_descs_ok 1 (vc (set_state s VIRTQ_CMD_STATE_HANDLE_REQ))) as [-> _]; [exact Hdesc|lia|].
  cbn [res_bind]. set (l := take _ _). set (count := length _).
  destruct (Z.eqb_spec (Z.of_nat count) 0) as [Hz|Hnz].
  - split; [by frame_solve|]. split_and!; [|st_lia|by frame_solve].
    eapply ready_next; try done; auto with snap; st_lia.
  - match goal with |- context [read_data_loop l ?s0 0] =>
      destruct (read_data_loop_ok l s0 0) as (w & ret & -> & Hw & Hb & Hp & Hok & Hbad) end.
    rec_simpl in *. fold count in Hok, Hbad.
    assert (no_refused w -> n_dma (vw s) (cmd_idx (vc s)) = 0%nat /\ n_bdev w (cmd_idx (vc s)) = 0%nat /\
      n_pool w (cmd_idx (vc s)) = 0%nat) as Hpend.
    { intros (? & ? & ?)%(no_refused_frame _ _ _ Hw)%Hquiet. unfold n_bdev, n_pool in *. by rewrite Hb, Hp. }
    destruct (Z.eqb_spec ret 0) as [->|Hne]; cbn [negb].
    + apply handles_stop; [by frame_solve|]. rec_simpl. intros _ (Hqd & Hnb & Hnp)%Hpend. apply settles_dma; try done.
      split_and!; cbn [cmd_state cmd_idx dma_count]; [auto|done|done|rewrite (Hok eq_refl); lia|lia].
    + split; [by frame_solve|]. split_and!; [|st_lia|by frame_solve].
      unfold ready. rec_simpl.
      split_and!; [st_lia|st_lia|done|done|intros; st_lia|]. specialize (Hbad Hne). intros (Hqd & Hnb & Hnp)%Hpend.
      split_and!; cbn [cmd_idx dma_count]; [done|done|lia].
Qed.

(** Failing the request. *)
Lemma fail_handles (s s' : st) :
  ready (vw s) (vp s) (vc s) -> cmd_state (vc s) < 8 -> desc_ok (vc s) ->
  same_pending (vw s) (vw s') -> priv_frame (vp s) (vp s') -> same_counters (vp s) (vp s') ->
  cmd_frame (vc s) (vc s') -> mem_ok (vp s) (vc s') -> desc_ok (vc s') ->
  handles s (Ok (fail_request s', true)).
Proof.
  intros Hready Hst Hd Hw Hp Hc Hcf Hm Hd'. cbn [handles]. split.
  - frame_solve; [auto with snap|done|by destruct Hcf].
  - split_and!; [|st_lia|done]. eapply ready_next; try done; first [apply Hcf|st_lia].
Qed.

(** Failing it because a data write was refused. *)
Lemma refused_handles (s s' : st) :
  cmd_state (vc s) < 8 -> dirty_ok (vp s) ->
  world_frame (cmd_idx (vc s)) (vw s) (vw s') -> priv_frame (vp s) (vp s') -> same_counters (vp s) (vp s') ->
  cmd_frame (vc s) (vc s') -> mem_ok (vp s) (vc s') -> desc_ok (vc s') -> ~ no_refused (vw s') ->
  handles s (Ok (fail_request s', true)).
Proof.
  intros Hst Hd Hw Hp Hc Hcf Hm Hd' Hnr. split; [frame_solve; [done|done|by destruct Hcf]|].
  split_and!; [|st_lia|done]. unfold ready, fail_request. cbn [error_status blk_impl_ops]. rec_simpl.
  split_and!; [st_lia|st_lia|by eapply mem_ok_frame|by eapply dirty_ok_frame|done|done].
Qed.

(** Writes of the data read from the device. *)
Lemma in_data_loop_ok l : forall (s : st) off,
  dirty_ok (vp s) ->
  exists w t ret, in_data_loop l s off = Ok (mk_vst w (vp s) ((vc s) ⦇ total_in_len := t ⦈), ret) /\
    world_frame (cmd_idx (vc s)) (vw s) w /\ in_bdev w = in_bdev (vw s) /\ in_pool w = in_pool (vw s) /\
    (no_refused w -> ret = 0 /\ n_dma w (cmd_idx (vc s)) = (n_dma (vw s) (cmd_idx (vc s)) + length l)%nat).
Proof.
  induction l as [|d l IH]; intros s off Hdirty; cbn [in_data_loop].
  - exists (vw s), (total_in_len (vc s)), 0. split_and!; auto with snap.
    destruct s as [? ? []]. reflexivity.
  - step_call.
    assert (world_frame (cmd_idx (vc s)) (vw s) w) as Hw by (eapply called_frame; [exact Hcall|cbn; auto..]).
    destruct (Z.eqb_spec ret 0) as [->|Hne]; cbn [negb].
    + destruct (mark_dirty_ok (mk_vst w (vp s) (vc s)) (d_addr d) (d_len d) false Hdirty) as (w2 & -> & Hw2).
      cbn [res_bind vw vp vc] in Hw2 |- *.
      match goal with |- context [in_data_loop l ?s0 ?o] =>
        destruct (IH s0 o Hdirty) as (w3 & t & ret & -> & Hw3 & Hb3 & Hp3 & Hok) end.
      rec_simpl in *. exists w3, t, ret.
      assert (n_dma w2 (cmd_idx (vc s)) = S (n_dma (vw s) (cmd_idx (vc s)))) as Hn.
      { unfold n_dma. rewrite (sp_dma _ _ Hw2), (called_dma _ _ _ _ Hcall). cbn [op_dma]. by apply flight_self. }
      split_and!.
      * done.
      * eapply world_frame_trans; [exact Hw|]. eapply world_frame_trans; [apply same_pending_frame, Hw2|done].
      * by rewrite Hb3, (sp_bdev _ _ Hw2), (called_bdev _ _ _ _ Hcall).
      * by rewrite Hp3, (sp_pool _ _ Hw2), (called_pool _ _ _ _ Hcall).
      * intros Hnr. destruct (Hok Hnr) as [-> ->]. cbn [length]. split; [done|lia].
    + exists w, (total_in_len (vc s)), ret. destruct (called_not_flying _ _ _ _ Hcall Hne) as (_ & Hb & Hp). split_and!; auto.
      * destruct s as [? ? []]. reflexivity.
      * intros Hnr. exfalso. apply Hne. eapply no_refused_write; [exact Hcall|done|done].
Qed.

Lemma in_done_handles (s : st) status :
  ready (vw s) (vp s) (vc s) -> counters_ok (vp s) -> cmd_state (vc s) = 7 ->
  handles s (blk_virtq_sm_handle_in_iov_done s status).
Proof.
  intros Hready Hco Hst. pose proof Hready as (_ & Hm & Hdirty & Hdesc & _). specialize (Hdesc ltac:(lia)).
  pose proof (quiet_of s Hready ltac:(lia)) as Hquiet. destruct status; cbn [blk_virtq_sm_handle_in_iov_done].
  2:{ apply fail_handles; auto with snap. lia. }
  destruct (data_descs_ok 2 (vc s) Hdesc) as [-> Hlen]; [lia|]. cbn [res_bind]. set (l := take _ _) in *.
  match goal with |- context [in_data_loop l ?s0 0] =>
    destruct (in_data_loop_ok l s0 0) as (w & t & ret & -> & Hw & Hb & Hp & Hok); [exact Hdirty|] end.
  rec_simpl in *.
  destruct (Z.eqb_spec ret 0) as [->|Hne]; cbn [negb].
  - apply handles_stop; [by frame_solve|]. rec_simpl in *. intros (Hqd & Hqb & Hqp)%Hquiet Hnr.
    destruct (Hok Hnr) as [_ Hn]. apply settles_dma; try done.
    assert (num_desc (vc s) - 2 < 2 ^ 31) by (destruct Hdesc; lia).
    split_and!; cbn [cmd_state cmd_idx dma_count num_desc].
    + auto.
    + unfold n_bdev in *. by rewrite Hb.
    + unfold n_pool in *. by rewrite Hp.
    + rewrite i32_small by (destruct Hdesc; lia). rewrite Hn. lia.
    + rewrite i32_small by (destruct Hdesc; lia). destruct (decide (num_desc (vc s) = 2)); [right; split; [done|done]|left].
      destruct Hdesc. lia.
  - apply refused_handles; rec_simpl; auto with snap; [lia|by split|]. intros Hnr. by destruct (Hok Hnr).
Qed.

(** ** Handing the request to the block device *)

Lemma count_request_ok (s : st) ret :
  exists p, count_request s ret = mk_vst (vw s) p (vc s) /\ priv_frame (vp s) p /\ same_counters (vp s) p.
Proof.
  unfold count_request. destruct (io_cmd_stat (vc s)) as [k|].
  - eexists. split; [reflexivity|]. split; apply set_stat_frame.
  - exists (vp s). split_and!; auto with snap. by rewrite <- vst_same.
Qed.

(** The command [c] with another state, io counter and length. *)
Definition req_cmd (c c' : bcmd) : Prop :=
  cmd_frame c c' /\ num_desc c' = num_desc c /\ descs c' = descs c /\ slot_descs c' = slot_descs c /\
  aux_src c' = aux_src c /\ use_seg_dmem c' = use_seg_dmem c.

Lemma req_cmd_ok p c c' : req_cmd c c' -> (mem_ok p c -> mem_ok p c') /\ (desc_ok c -> desc_ok c').
Proof. intros (_ & Hn & Hd & Hsl & Ha & Hu). unfold mem_ok, desc_ok. by rewrite Hn, Hd, Hsl, Ha, Hu. Qed.

(** After the call that starts the request on the block device. *)
Lemma after_bdev_handles (s : st) w c type ret op :
  ready (vw s) (vp s) (vc s) -> counters_ok (vp s) -> cmd_state (vc s) = 5 ->
  called op ret (vw s) w \/ (exists w1, same_pending (vw s) w1 /\ called op ret w1 w) ->
  op_bdev op = Some (cmd_idx (vc s)) -> op_dma op = None -> op_pool op = None ->
  req_cmd (vc s) c -> io_cmd_stat c <> None -> cmd_state c = 6 \/ cmd_state c = 7 \/ cmd_state c = 8 ->
  type <> VIRTIO_BLK_T_GET_ID ->
  handles s (after_request (mk_vst w (vp s) c) type ret).
Proof.
  intros Hready Hco Hst Hcall Eb Ed Ep Hreq Hio Hcs Htype.
  pose proof Hready as (_ & Hm & Hdirty & Hdesc & _). specialize (Hdesc ltac:(lia)).
  destruct (req_cmd_ok (vp s) _ _ Hreq) as [Hm' Hd']. pose proof Hreq as (Hcf & _).
  pose proof (quiet_of s Hready ltac:(lia)) as Hquiet.
  assert (exists w1, same_pending (vw s) w1 /\ called op ret w1 w) as (w1 & Hw1 & Hc).
  { destruct Hcall as [Hc|?]; [exists (vw s); auto with snap|done]. }
  unfold after_request. destruct (count_request_ok (mk_vst w (vp s) c) ret) as (p & -> & Hp & Hsc).
  cbn [vw vp vc] in Hp, Hsc |- *. apply Z.eqb_neq in Htype. rewrite Htype.
  destruct (Z.eqb_spec ret 0) as [->|Hne]; cbn [negb].
  - rec_simpl. apply handles_stop.
    { frame_solve; [|by destruct Hp; split|done]. eapply world_frame_trans; [apply same_pending_frame, Hw1|].
      eapply called_frame; [exact Hc|rewrite ?Eb, ?Ed, ?Ep; auto..]. }
    rec_simpl. intros (Hqd & Hqb & Hqp)%Hquiet _. destruct Hsc as [Hh Hb Ht Hf].
    apply settles_bdev; try done; auto; [by destruct Hp; split|cbn; by rewrite Hb|].
    split_and!; auto; rewrite (cf_idx _ _ Hcf); unfold n_dma, n_pool, n_bdev in *.
    + by rewrite (called_dma _ _ _ _ Hc), Ed, (sp_dma _ _ Hw1).
    + by rewrite (called_pool _ _ _ _ Hc), Ep, (sp_pool _ _ Hw1).
    + rewrite (called_bdev _ _ _ _ Hc), Eb, flight_self, (sp_bdev _ _ Hw1) by done. by rewrite Hqb.
  - pose proof (called_refused _ _ _ _ Hc Hne ltac:(by destruct op)) as Hw. apply fail_handles; auto; cbn [vw vp vc]; auto; [lia|].
    by eapply same_pending_trans.
Qed.

(** Going on to the status with the command changed by the request. *)
Lemma to_status_handles (s : st) w c :
  ready (vw s) (vp s) (vc s) -> cmd_state (vc s) = 5 -> same_pending (vw s) w -> req_cmd (vc s) c ->
  cmd_state c = 8 -> handles s (Ok (mk_vst w (vp s) c, true)).
Proof.
  intros Hready Hst Hw Hreq Hs. pose proof Hready as (_ & Hm & _ & Hdesc & _). specialize (Hdesc ltac:(lia)).
  destruct (req_cmd_ok (vp s) _ _ Hreq) as [Hm' Hd']. destruct Hreq as (Hcf & _).
  split; [frame_solve; auto with snap|]. split_and!; [|st_lia|by frame_solve].
  eapply ready_next; try done; auto with snap; first [apply Hcf|cbn [vc]; lia].
Qed.

Lemma get_id_handles (s : st) :
  ready (vw s) (vp s) (vc s) -> counters_ok (vp s) -> cmd_state (vc s) = 5 ->
  forall c0, req_cmd (vc s) c0 -> io_cmd_stat c0 = None ->
  handles s (let? r := handle_get_id (mk_vst (vw s) (vp s) c0) in
             match r with
             | (s1, inl ret) => after_request s1 VIRTIO_BLK_T_GET_ID ret
             | (s1, inr _) => Ok (s1, true)
             end).
Proof.
  intros Hready Hco Hst c0 Hreq Hio. pose proof Hready as (_ & Hm & Hdirty & Hdesc & _). specialize (Hdesc ltac:(lia)).
  pose proof (quiet_of s Hready ltac:(lia)) as Hquiet.
  destruct (req_cmd_ok (vp s) _ _ Hreq) as [Hm' Hd']. pose proof Hreq as (Hcf & Hn & Hds & Hsl & Ha & Hu).
  specialize (Hm' Hm). specialize (Hd' Hdesc).
  unfold handle_get_id. rec_simpl. step_call.
  assert (same_pending (vw s) w) as Hw by by apply (called_sync _ _ _ _ Hcall).
  destruct (ret <? 0).
  - rec_simpl. apply (to_status_handles s); auto. split_and!; auto. by destruct Hcf; split.
  - rec_simpl. destruct (lookup_lt_is_Some_2 (descs c0) 1) as [d Hd]; [destruct Hd'; lia|].
    rewrite Hd. step_call.
    match goal with |- context [virtq_mark_dirty_mem ?s0 ?a ?b false] =>
      destruct (mark_dirty_ok s0 a b false) as (w2 & -> & Hw2); [exact Hdirty|] end.
    cbn [res_bind vw vp vc] in Hw2 |- *. unfold after_request, count_request. cbn [vc io_cmd_stat]. rewrite Hio.
    destruct (Z.eqb_spec ret0 0) as [->|Hne]; cbn [negb].
    + change (VIRTIO_BLK_T_GET_ID =? VIRTIO_BLK_T_GET_ID) with true. cbn [negb].
      apply handles_stop.
      { frame_solve; [|by destruct Hcf; split]. eapply world_frame_trans; [apply same_pending_frame, Hw|].
        eapply world_frame_trans; [|apply same_pending_frame, Hw2].
        eapply called_frame; [exact Hcall0|cbn; rewrite ?(cf_idx _ _ Hcf); auto..]. }
      rec_simpl. intros (Hqd & Hqb & Hqp)%Hquiet _. apply settles_dma; try done.
      unfold waits_dma. cbn [cmd_state cmd_idx dma_count]. rewrite (cf_idx _ _ Hcf). unfold n_dma, n_bdev, n_pool in *.
      rewrite (sp_dma _ _ Hw2), (sp_bdev _ _ Hw2), (sp_pool _ _ Hw2), (called_dma _ _ _ _ Hcall0),
        (called_bdev _ _ _ _ Hcall0), (called_pool _ _ _ _ Hcall0), (sp_dma _ _ Hw), (sp_bdev _ _ Hw), (sp_pool _ _ Hw).
      cbn [op_dma op_bdev op_pool cmd_idx]. rewrite (cf_idx _ _ Hcf), flight_self, Hqd by done.
      split_and!; [auto|exact Hqb|exact Hqp|done|lia].
    + apply refused_handles; auto; cbn [vw vp vc]; auto with snap.
      * lia.
      * eapply world_frame_trans; [apply same_pending_frame, Hw|].
        eapply world_frame_trans; [|apply same_pending_frame, Hw2].
        eapply called_frame; [exact Hcall0|cbn; rewrite ?(cf_idx _ _ Hcf); auto..].
      * by destruct Hcf; split.
      * intros Hnr. apply Hne. eapply no_refused_write; [exact Hcall0|apply Hw2|done].
Qed.

Lemma handle_req_handles (s : st) status :
  ready (vw s) (vp s) (vc s) -> counters_ok (vp s) -> cmd_state (vc s) = 5 ->
  handles s (blk_virtq_sm_handle_req s status).
Proof.
  intros Hready Hco Hst. pose proof Hready as (_ & Hm & Hdirty & Hdesc & _). specialize (Hdesc ltac:(lia)).
  unfold blk_virtq_sm_handle_req. destruct status; [|apply fail_handles; auto with snap; lia].
  destruct (pending_bdev_detach (vp s)); [apply fail_handles; auto with snap; [lia|by split]|].
  rec_simpl. set (type := hdr_type (impl (vc s))).
  destruct (Z.eqb_spec type VIRTIO_BLK_T_OUT) as [Ht|_].
  { unfold handle_out. rec_simpl.
    destruct (zcopy (impl (vc s))); step_call;
      (eapply (after_bdev_handles s); eauto; first [done|by split_and!|rec_simpl; auto; fail|by rewrite Ht]). }
  destruct (Z.eqb_spec type VIRTIO_BLK_T_IN) as [Ht|_].
  { unfold handle_in. rec_simpl.
    destruct (zcopy (impl (vc s))); step_call;
      (eapply (after_bdev_handles s); eauto; first [done|by split_and!|rec_simpl; auto; fail|by rewrite Ht]). }
  destruct (Z.eqb_spec type VIRTIO_BLK_T_FLUSH) as [Ht|_].
  { unfold handle_flush. rec_simpl.
    destruct (negb _).
    - unfold after_request.
      match goal with |- context [count_request ?s0 ?r] =>
        destruct (count_request_ok s0 r) as (p & -> & Hp & Hsc) end.
      cbn [vw vp vc] in Hp, Hsc |- *. cbn [negb Z.eqb]. apply fail_handles; auto with snap; [lia|by split].
    - step_call. step_call. step_call. eapply (after_bdev_handles s); eauto.
      all: try (first [done|by split_and!|rec_simpl; auto; fail|by rewrite Ht]).
      + right. exists w0. split; [|exact Hcall1]. eapply same_pending_trans; eapply called_sync; eauto.
      + done.
      + done.
      + done. }
  destruct (Z.eqb_spec type VIRTIO_BLK_T_GET_ID) as [->|_].
  { apply get_id_handles; auto. by split_and!. }
  rec_simpl. apply (to_status_handles s); auto with snap. by split_and!.
Qed.

(** ** The header *)

Lemma ext_block_size (s s' : st) r : ext s BdevBlockSize = (s', r) -> r <> 0.
Proof.
  unfold ext, do_call. destruct (call (env (vw s)) BdevBlockSize) as [e r'] eqn:Hcall. intros [= _ <-].
  by eapply block_size_nonzero.
Qed.

Lemma zcopy_prepare_ok (s : st) :
  desc_ok (vc s) ->
  exists w c zc, zcopy_prepare s = Ok (mk_vst w (vp s) c, zc) /\ same_pending (vw s) w /\ req_cmd (vc s) c /\
    cmd_state c = cmd_state (vc s).
Proof.
  intros Hd. unfold zcopy_prepare.
  assert (exists w c zc, Ok (s, false) = Ok (mk_vst w (vp s) c, zc) /\ same_pending (vw s) w /\ req_cmd (vc s) c /\
    cmd_state c = cmd_state (vc s)) as Hno.
  { exists (vw s), (vc s), false. rewrite <- vst_same. split_and!; auto with snap. by split_and!. }
  destruct (negb (zcopy_on (vp s))); [done|]. destruct (num_desc (vc s) =? _); [done|].
  destruct (hdr_type _ =? _); [done|]. destruct (negb has_zcopy_validate); [done|]. clear Hno.
  unfold virtq_descs_to_iovec. destruct (max_iov_cnt _ <? _).
  { exists (vw s), (vc s), false. split_and!; auto with snap. by split_and!. }
  destruct (data_descs_ok 2 (vc s) Hd) as [-> _]; [lia|]. cbn [res_bind]. rec_simpl.
  change (0 =? 0) with true. cbn [negb]. step_call.
  assert (same_pending (vw s) w) as Hw by by apply (called_sync _ _ _ _ Hcall).
  destruct (ret =? 0).
  { do 3 eexists. split; [reflexivity|]. split_and!; auto; by split_and!. }
  match goal with |- context [ext ?s0 BdevBlockSize] =>
    destruct (ext s0 BdevBlockSize) as [s1 r] eqn:Hext; pose proof (ext_block_size _ _ _ Hext) as Hr;
    destruct (ext_called s0 BdevBlockSize) as (w1 & r1 & Heq & Hcall1) end.
  rewrite Hext in Heq. simplify_eq. rec_simpl in *. apply Z.eqb_neq in Hr. rewrite Hr.
  do 3 eexists. split; [reflexivity|]. split_and!; try done.
  eapply same_pending_trans; [exact Hw|]. by apply (called_sync _ _ _ _ Hcall1).
Qed.

Lemma req_cmd_trans c1 c2 c3 : req_cmd c1 c2 -> req_cmd c2 c3 -> req_cmd c1 c3.
Proof. intros ([] & ? & ? & ? & ? & ?) ([] & ? & ? & ? & ? & ?). split_and!; try congruence. split; congruence. Qed.

(** Going on after the header with the command changed where it does not matter. *)
Lemma header_handles (s : st) w c :
  ready (vw s) (vp s) (vc s) -> cmd_state (vc s) = 3 -> same_pending (vw s) w -> req_cmd (vc s) c ->
  3 < cmd_state c <= 10 -> handles s (Ok (mk_vst w (vp s) c, true)).
Proof.
  intros Hready Hst Hw Hreq Hs. pose proof Hready as (_ & Hm & _ & Hdesc & _). specialize (Hdesc ltac:(lia)).
  destruct (req_cmd_ok (vp s) _ _ Hreq) as [Hm' Hd']. destruct Hreq as (Hcf & _).
  split; [frame_solve; auto with snap|]. split_and!; [|st_lia|by frame_solve].
  eapply ready_next; try done; auto with snap; first [apply Hcf|cbn [vc]; lia].
Qed.

Lemma alloc_req_dbuf_ok (s : st) len :
  exists w c ret, virtq_alloc_req_dbuf s len = (mk_vst w (vp s) c, ret) /\ same_pending (vw s) w /\
    req_cmd (vc s) c /\ (cmd_state c = cmd_state (vc s) \/ cmd_state c = 8).
Proof.
  unfold virtq_alloc_req_dbuf. step_call.
  assert (same_pending (vw s) w) as Hw by by apply (called_sync _ _ _ _ Hcall).
  destruct (ret =? 0); [do 3 eexists; split; [reflexivity|]; split_and!; auto; by split_and!|].
  step_call. assert (same_pending (vw s) w0) as Hw0.
  { eapply same_pending_trans; [exact Hw|]. by apply (called_sync _ _ _ _ Hcall0). }
  destruct (ret0 =? 0); [|do 3 eexists; split; [reflexivity|]; split_and!; auto; by split_and!].
  step_call. do 3 eexists. split; [reflexivity|]. split_and!; auto; [|by split_and!].
  eapply same_pending_trans; [exact Hw0|]. by apply (called_sync _ _ _ _ Hcall1).
Qed.

Lemma parse_header_handles (s : st) status :
  ready (vw s) (vp s) (vc s) -> counters_ok (vp s) -> cmd_state (vc s) = 3 ->
  handles s (blk_virtq_sm_parse_header s status).
Proof.
  intros Hready Hco Hst. pose proof Hready as (_ & Hm & Hdirty & Hdesc & _). specialize (Hdesc ltac:(lia)).
  pose proof (quiet_of s Hready ltac:(lia)) as Hquiet.
  unfold blk_virtq_sm_parse_header. destruct status; [|apply fail_handles; auto with snap; lia].
  destruct (zcopy_prepare_ok s Hdesc) as (w & c & zc & -> & Hw & Hreq & Hcs). cbn [res_bind]. rec_simpl.
  assert (forall c' : bcmd, req_cmd c c' -> req_cmd (vc s) c') as Hreq' by (intros c'; by apply req_cmd_trans).
  destruct zc.
  { apply (header_handles s); auto; [apply Hreq'; by split_and!|st_lia]. }
  set (next := if hdr_type (impl c) =? VIRTIO_BLK_T_OUT then _ else _).
  assert (exists len v, next = (len, v) /\ (v = 4 \/ v = 5)) as (len & v & -> & Hv).
  { unfold next. repeat case_match; do 2 eexists; split; try reflexivity; auto. }
  rec_simpl. destruct (use_mem_pool (vp s)) eqn:Hpool.
  - destruct (len =? 0).
    { apply (header_handles s); auto; [apply Hreq'; by split_and!|st_lia]. }
    step_call. destruct (Z.eqb_spec ret 0) as [->|Hne]; cbn [negb].
    + destruct (Hreq' (c ⦇ cmd_state := v ⦈)) as (Hcf & Hn & Hds & Hsl & Ha & Hu); [by split_and!|].
      apply handles_stop.
      { frame_solve; [|by destruct Hcf; split]. eapply world_frame_trans; [apply same_pending_frame, Hw|].
        eapply called_frame; [exact Hcall|cbn; rewrite ?(cf_idx _ _ (proj1 Hreq)); auto..]. }
      rec_simpl in *. intros (Hqd & Hqb & Hqp)%Hquiet _. match goal with |- settled _ _ ?c1 /\ _ =>
        destruct (req_cmd_ok (vp s) (vc s) c1) as [Hm' Hd']; [split_and!; try done; by destruct Hcf; split|] end.
      apply settles_pool; auto with snap.
      unfold waits_pool. rec_simpl. rewrite (cf_idx _ _ (proj1 Hreq)). unfold n_dma, n_bdev, n_pool in *.
      rewrite (called_dma _ _ _ _ Hcall), (called_bdev _ _ _ _ Hcall), (called_pool _ _ _ _ Hcall),
        (sp_dma _ _ Hw), (sp_bdev _ _ Hw), (sp_pool _ _ Hw).
      cbn [op_dma op_bdev op_pool]. rewrite (cf_idx _ _ (proj1 Hreq)), flight_self, Hqp by done. auto.
    + pose proof (called_refused _ _ _ _ Hcall Hne eq_refl) as Hw1.
      match goal with |- handles s (Ok (fail_request (mk_vst _ _ ?c1), _)) =>
        destruct (req_cmd_ok (vp s) (vc s) c1) as [Hm' Hd']; [apply Hreq'; by split_and!|] end.
      apply fail_handles; rec_simpl; auto with snap; [lia|by eapply same_pending_trans|].
      by destruct Hreq as [[] _]; split.
  - destruct (req_size c <? total_seg_len c).
    + match goal with |- context [virtq_alloc_req_dbuf ?s0 ?n] =>
        destruct (alloc_req_dbuf_ok s0 n) as (w1 & c1 & ret & -> & Hw1 & Hreq1 & Hs1) end.
      rec_simpl in *. apply (header_handles s); auto; [by eapply same_pending_trans| |lia].
      apply Hreq'. eapply req_cmd_trans; [|exact Hreq1]. by split_and!.
    + apply (header_handles s); auto; [apply Hreq'; by split_and!|st_lia].
Qed.

(** ** Fetching descriptors *)

(** What fetching keeps of the command. *)
Definition fetch_cmd (p : virtq_priv) (c c' : bcmd) : Prop :=
  cmd_frame c c' /\ cmd_state c' = cmd_state c /\ mem_ok p c'.

Lemma write_back_length table tmp len t :
  indirect_write_back table tmp len = Ok t -> length t = length table.
Proof.
  unfold indirect_write_back, sizeof_vring_desc. destruct (Z.ltb_spec (Z.of_nat (length table) * 16) len) as [|Hle]; [done|].
  set (n := Z.to_nat (len / 16)). assert (n <= length table)%nat as Hn.
  { unfold n. pose proof (Z.div_mod len 16). pose proof (Z.mod_pos_bound len 16). lia. }
  intros [= <-]. rewrite length_app, length_take, length_app, repeat_length.
  assert (length (drop n table) = length table - n)%nat as Hd by by rewrite length_drop.
  destruct (_ =? 0); [lia|]. destruct (drop n table); cbn [length] in *; lia.
Qed.

Lemma alloc_desc_buf_ok (s : st) old_len :
  mem_ok (vp s) (vc s) -> 0 <= old_len ->
  match virtq_alloc_desc_buf s old_len (vq_size (vp s)) with
  | Ok (s', ret) => exists w c, s' = mk_vst w (vp s) c /\ same_pending (vw s) w /\ fetch_cmd (vp s) (vc s) c
  | Oob => True
  | _ => False
  end.
Proof.
  intros Hm Hold. unfold virtq_alloc_desc_buf. step_call.
  assert (same_pending (vw s) w) as Hw by by apply (called_sync _ _ _ _ Hcall).
  destruct (ret =? 0); [do 2 eexists; split; [reflexivity|]; by split_and!|].
  step_call. assert (same_pending (vw s) w0) as Hw0.
  { eapply same_pending_trans; [exact Hw|]. by apply (called_sync _ _ _ _ Hcall0). }
  destruct (ret0 =? 0).
  { step_call. do 2 eexists. split; [reflexivity|]. split_and!; try done.
    eapply same_pending_trans; [exact Hw0|]. by apply (called_sync _ _ _ _ Hcall1). }
  destruct (_ || _) eqn:Hsz; [done|]. bool_to_prop. rec_simpl in *.
  destruct Hm as ((Hd & Hs & Hq) & Hpool).
  assert (Z.of_nat (length (take (Z.to_nat old_len) (descs (vc s)) ++
    repeat zero_desc (Z.to_nat (vq_size (vp s) - old_len)))) <= 2 ^ 16) as Hlen.
  { rewrite length_app, length_take, repeat_length. lia. }
  destruct (use_mem_pool (vp s)) eqn:Ep; cbn [orb].
  { step_call. unfold free_aux. rec_simpl. destruct Hpool as [-> _]. done. }
  destruct (use_seg_dmem (vc s)) eqn:Eseg.
  - step_call. unfold free_aux. rec_simpl. rewrite Hpool. step_call. rewrite Hpool.
    do 2 eexists. split; [reflexivity|]. split.
    + eapply same_pending_trans; [exact Hw0|]. eapply same_pending_trans; eapply called_sync; eauto.
    + split_and!; [done|done|]. unfold mem_ok. rec_simpl. by rewrite Ep.
  - rec_simpl. do 2 eexists. split; [reflexivity|]. rewrite Hpool. split; [done|].
    split_and!; [done|done|]. unfold mem_ok. rec_simpl. by rewrite Ep.
Qed.

Lemma fetch_cmd_trans p c1 c2 c3 : fetch_cmd p c1 c2 -> fetch_cmd p c2 c3 -> fetch_cmd p c1 c3.
Proof.
  intros (Hc & Hs & _) (Hc' & Hs' & Hm). split_and!; [by eapply cmd_frame_trans|congruence|done].
Qed.

Lemma seg_dmem_ok (s : st) :
  mem_ok (vp s) (vc s) ->
  match blk_seg_dmem s with
  | Ok (s', ret) => exists w c, s' = mk_vst w (vp s) c /\ same_pending (vw s) w /\ fetch_cmd (vp s) (vc s) c
  | Oob => True
  | _ => False
  end.
Proof.
  intros Hm. unfold blk_seg_dmem. destruct (Z.leb_spec (Z.of_nat (VIRTIO_NUM_DESC (Z.to_nat (seg_max (vp s))))) (num_desc (vc s))).
  - pose proof (alloc_desc_buf_ok s (num_desc (vc s)) Hm) as Hok.
    destruct (virtq_alloc_desc_buf s _ _) as [[s' ret]| | |]; cbn [res_bind]; apply Hok; lia.
  - exists (vw s), (vc s). split_and!; auto with snap; [apply vst_same|by split_and!].
Qed.

(** The result of a fetch: nothing is in flight unless a read was started, and
    then it is the only one. *)
Definition fetched (s s' : st) (ret : virtq_fetch_desc_status) : Prop :=
  fetch_cmd (vp s) (vc s) (vc s') /\
  match ret with
  | VIRTQ_FETCH_DESC_READ =>
      world_frame (cmd_idx (vc s)) (vw s) (vw s') /\ dma_count (vc s') = 1 /\
      in_bdev (vw s') = in_bdev (vw s) /\ in_pool (vw s') = in_pool (vw s) /\
      n_dma (vw s') (cmd_idx (vc s)) = S (n_dma (vw s) (cmd_idx (vc s))) /\
      vp s' = (vp s) ⦇ outstanding_to_host := u32 (outstanding_to_host (vp s) + 1) ⦈
  | _ => vp s' = vp s /\ same_pending (vw s) (vw s')
  end.

Lemma fetch_indirect_ok (s : st) :
  mem_ok (vp s) (vc s) ->
  match fetch_indirect s with
  | Ok (s', ret) => fetched s s' ret /\ ret <> VIRTQ_FETCH_DESC_READ
  | Oob => True
  | _ => False
  end.
Proof.
  intros Hm. unfold fetch_indirect. step_call.
  assert (same_pending (vw s) w) as Hw by by apply (called_sync _ _ _ _ Hcall).
  destruct (ret =? 0); [by split_and!|].
  assert (forall n i j t a, match indirect_loop n i j t a with Ok _ | Oob => True | _ => False end) as Hloop.
  { induction n as [|n IH]; intros i j t a; cbn [indirect_loop]; [done|]. destruct (t !! _); [|done].
    destruct (has_flag _ _); [apply IH|done]. }
  match goal with |- context [indirect_loop ?n ?i ?j ?t ?a] =>
    specialize (Hloop n i j t a); destruct (indirect_loop n i j t a) as [[k visited]| | |]; try done end.
  cbn [res_bind]. destruct (indirect_write_back _ _ _) as [t| | |] eqn:Hwb; cbn [res_bind]; try done;
    [|by revert Hwb; unfold indirect_write_back; case_match..].
  apply write_back_length in Hwb. rec_simpl. step_call. split; [|done]. split_and!; try done.
  - split_and!; [done|done|]. destruct Hm as ((Hd & Hs & Hq) & Hpool). split; [|done]. rec_simpl. split_and!; [|done|done].
    rewrite length_app, Hwb, <- length_app, take_drop. done.
  - eapply same_pending_trans; [exact Hw|]. by apply (called_sync _ _ _ _ Hcall0).
Qed.

Lemma next_desc_src_ok p (c : bcmd) :
  mem_ok p c ->
  match next_desc_src p c with
  | Ok (Some (_, _, c')) => fetch_cmd p c c'
  | Ok None | Oob => True
  | _ => False
  end.
Proof.
  intros Hm. unfold next_desc_src. destruct (num_desc c =? 0); [by split_and!|].
  destruct (descs c !! _) as [d|]; [|done]. destruct (has_flag _ _); [by split_and!|].
  destruct (has_flag _ _); [by split_and!|done].
Qed.

Lemma fetch_next_desc_ok (s : st) :
  mem_ok (vp s) (vc s) ->
  match fetch_next_desc s with Ok (s', ret) => fetched s s' ret | Oob => True | _ => False end.
Proof.
  intros Hm. unfold fetch_next_desc. destruct (is_indirect (vc s)).
  { pose proof (fetch_indirect_ok s Hm) as Hok. destruct (fetch_indirect s) as [[s' ret]| | |]; tauto. }
  pose proof (next_desc_src_ok (vp s) (vc s) Hm) as Hsrc.
  destruct (next_desc_src _ _) as [[[[srcaddr len] c]|]| | |]; cbn [res_bind]; try done.
  1: cbn [seg_dmem blk_impl_ops]. pose proof (seg_dmem_ok (mk_vst (vw s) (vp s) c)) as Hseg. rec_simpl in *.
  destruct (blk_seg_dmem _) as [[s' ret]| | |]; cbn [res_bind]; try (apply Hseg, Hsrc).
  destruct Hseg as (w & c1 & -> & Hw & Hc1); [apply Hsrc|].
  pose proof (fetch_cmd_trans _ _ _ _ Hsrc Hc1) as Hc. pose proof (cf_idx _ _ (proj1 Hc)) as Hi.
  destruct (negb (ret =? 0)); [by split_and!|]. rec_simpl. step_call.
  assert (forall c2, cmd_frame c1 c2 -> cmd_state c2 = cmd_state c1 -> mem_ok (vp s) c2 -> fetch_cmd (vp s) (vc s) c2) as Hfc.
  { intros c2 ? ? ?. eapply fetch_cmd_trans; [exact Hc|]. by split_and!. }
  destruct (Z.eqb_spec ret0 0) as [->|Hne]; cbn [negb].
  - destruct (is_indirect c1); rec_simpl; (split; [apply Hfc; try done; apply Hc|]); split_and!; try done; rec_simpl.
    all: try (eapply world_frame_trans; [apply same_pending_frame, Hw|];
              eapply called_frame; [exact Hcall|cbn; rewrite ?Hi; auto..]).
    all: try (by rewrite (called_bdev _ _ _ _ Hcall), (sp_bdev _ _ Hw)).
    all: try (by rewrite (called_pool _ _ _ _ Hcall), (sp_pool _ _ Hw)).
    all: unfold n_dma; rewrite (called_dma _ _ _ _ Hcall); cbn [op_dma]; by rewrite Hi, flight_self, (sp_dma _ _ Hw).
  - pose proof (called_refused _ _ _ _ Hcall Hne eq_refl) as Hw1.
    split; [apply Hfc; try done; apply Hc|]. split; [done|]. by eapply same_pending_trans.
Qed.

(** Processing the descriptors of a complete request. *)
Lemma proc_desc_ok (s : st) :
  mem_ok (vp s) (vc s) -> cmd_state (vc s) = 1 ->
  match blk_virtq_proc_desc s with
  | Ok s' => vw s' = vw s /\ vp s' = vp s /\ cmd_frame (vc s) (vc s') /\ mem_ok (vp s) (vc s') /\
      (cmd_state (vc s') = 12 \/ cmd_state (vc s') = 1 /\ desc_ok (vc s'))
  | Oob => True
  | _ => False
  end.
Proof.
  intros Hm Hst. unfold blk_virtq_proc_desc.
  destruct (virtq_blk_process_desc _ _ _ _) as [[[l n] merges]|] eqn:Hproc; [|done].
  pose proof Hm as ((Hd & Hs & Hq) & Hpool).
  apply process_desc_bounds in Hproc as [Hl Hn]; [|lia].
  assert (forall c', cmd_frame (vc s) c' -> length (descs c') = length l -> slot_descs c' = slot_descs (vc s) ->
    aux_src c' = aux_src (vc s) -> use_seg_dmem c' = use_seg_dmem (vc s) -> mem_ok (vp s) c') as Hmem.
  { intros c' _ H1 H2 H3 H4. unfold mem_ok. rewrite H1, H2, H3, H4, Hl. done. }
  rec_simpl. destruct (Z.ltb_spec n (Z.of_nat NUM_HDR_FTR_DESCS)) as [|Hge].
  - split_and!; try done; [by apply Hmem|by left].
  - unfold NUM_HDR_FTR_DESCS in Hge. destruct (Z.ltb_spec (Z.of_nat (length l)) (n - 1)); [done|].
    split_and!; try done; [by apply Hmem|right]. rec_simpl. split; [done|]. unfold desc_ok. rec_simpl. lia.
Qed.

Lemma fetch_handles (s : st) status :
  ready (vw s) (vp s) (vc s) -> counters_ok (vp s) -> cmd_state (vc s) = 1 ->
  handles s (virtq_sm_fetch_cmd_descs s status).
Proof.
  intros Hready Hco Hst. pose proof Hready as (_ & Hm & Hdirty & _ & _).
  pose proof (quiet_of s Hready ltac:(lia)) as Hquiet.
  unfold virtq_sm_fetch_cmd_descs. destruct status.
  2:{ split; [by frame_solve|]. split_and!; [|st_lia|by frame_solve].
      eapply ready_next; try done; auto with snap; st_lia. }
  pose proof (fetch_next_desc_ok s Hm) as Hok. destruct (fetch_next_desc s) as [[s' ret]| | |]; cbn [res_bind]; try done.
  destruct Hok as [(Hcf & Hs' & Hm') Hret]. destruct ret.
  - destruct Hret as [Hp Hw]. cbn [descs_processing blk_impl_ops]. rewrite <- Hp in Hm'.
    pose proof (proc_desc_ok s' Hm' ltac:(lia)) as Hproc.
    destruct (blk_virtq_proc_desc s') as [s2| | |]; cbn [res_bind]; try done.
    destruct Hproc as (Hw2 & Hp2 & Hcf2 & Hm2 & Hd2). rewrite Hp in Hp2, Hm2. rewrite <- Hw2 in Hw.
    pose proof (cmd_frame_trans _ _ _ Hcf Hcf2) as Hcf3.
    destruct (Z.eqb_spec (cmd_state (vc s2)) VIRTQ_CMD_STATE_FATAL_ERR) as [H12|Hne]; idtac.
    + split; [frame_solve; auto with snap; by rewrite Hp2|]. rewrite Hp2.
      split_and!; [|st_lia|auto with snap]. eapply ready_next; try done; auto with snap; first [apply Hcf3|st_lia].
    + split; [frame_solve; [auto with snap|by rewrite Hp2|by destruct Hcf3; split]|]. rec_simpl. rewrite Hp2.
      split_and!; [|st_lia|auto with snap].
      eapply ready_next; try done; auto with snap; first [apply Hcf3|st_lia|idtac]. intros _.
      destruct Hd2 as [Hd2|[_ Hd2]]; [st_lia|exact Hd2].
  - destruct Hret as [Hp Hw].     split; [frame_solve; [auto with snap|by rewrite Hp|by destruct Hcf; split]|]. rec_simpl. rewrite Hp.
    split_and!; [|st_lia|auto with snap]. eapply ready_next; try done; auto with snap; first [apply Hcf|st_lia].
  - destruct Hret as (Hw & Hcnt & Hb & Hpl & Hn & Hp). rewrite (vst_same s'), Hp.
    apply handles_stop; [frame_solve; done|]. rec_simpl. intros (Hqd & Hqb & Hqp)%Hquiet _. apply settles_dma; try done; [st_lia|].
    unfold waits_dma. rewrite (cf_idx _ _ Hcf), Hcnt, Hn, Hqd. unfold n_bdev, n_pool in *. rewrite Hb, Hpl.
    split_and!; [lia|done|done|done|lia].
Qed.

(** * The state machine *)

Lemma handler_handles (s : st) status :
  ready (vw s) (vp s) (vc s) -> counters_ok (vp s) ->
  exists h, sm_array !! Z.to_nat (cmd_state (vc s)) = Some h /\ handles s (h s status).
Proof.
  intros Hready Hco. assert (1 <= cmd_state (vc s) <= 12) as Hr by apply Hready.
  assert (cmd_state (vc s) = 1 \/ cmd_state (vc s) = 2 \/ cmd_state (vc s) = 3 \/ cmd_state (vc s) = 4 \/
    cmd_state (vc s) = 5 \/ cmd_state (vc s) = 6 \/ cmd_state (vc s) = 7 \/ cmd_state (vc s) = 8 \/
    cmd_state (vc s) = 9 \/ cmd_state (vc s) = 10 \/ cmd_state (vc s) = 11 \/ cmd_state (vc s) = 12) as Hcases by lia.
  repeat destruct Hcases as [Hst|Hcases]; [rewrite Hst..|rewrite Hcases]; eexists; (split; [reflexivity|]);
    eauto using fetch_handles, read_header_handles, parse_header_handles, read_data_handles, handle_req_handles,
      write_back_handles, in_done_handles, write_status_handles, send_completion_handles, release_handles, fatal_handles.
Qed.

Lemma counters_ok_same p p' : same_counters p p' -> counters_ok p -> counters_ok p'.
Proof. intros [Hh Hb Ht Hf] []. split; by rewrite ?Hh, ?Hb, ?Ht, ?Hf. Qed.

Lemma counted_from (s s1 s2 : st) : same_counters (vp s) (vp s1) -> counted s1 s2 -> counted s s2.
Proof. intros [Hh Hb Ht Hf] []. split; by rewrite <- ?Hh, <- ?Hb, <- ?Ht, <- ?Hf. Qed.

(** A handler that asks for another round moved to a later state, so the state
    machine stops; what it leaves is settled and counted. *)
Lemma progress_settles fuel : forall (s : st) status,
  ready (vw s) (vp s) (vc s) -> counters_ok (vp s) -> 13 - cmd_state (vc s) <= Z.of_nat fuel ->
  match virtq_cmd_progress fuel s status with
  | Ok s' => frame s s' /\ (no_refused (vw s') -> settled (vw s') (vp s') (vc s') /\ counted s s')
  | Oob => cmd_state (vc s) = 1
  | _ => False
  end.
Proof.
  induction fuel as [|fuel IH]; intros s status Hready Hco Hfuel.
  { destruct Hready as (? & _). lia. }
  assert (1 <= cmd_state (vc s) <= 12) as Hrange by apply Hready.
  cbn [virtq_cmd_progress]. unfold VIRTQ_CMD_NUM_OF_STATES.
  destruct (Z.ltb_spec (cmd_state (vc s)) 13); [|lia]. destruct (Z.ltb_spec (cmd_state (vc s)) 0); [lia|].
  destruct (handler_handles s status Hready Hco) as (h & -> & Hh).
  destruct (h s status) as [[s1 rep]| | |]; cbn [res_bind handles] in *; try done.
  destruct rep; [|done]. destruct Hh as (Hf & Hr1 & Hlt & Hsc).
  specialize (IH s1 status Hr1 (counters_ok_same _ _ Hsc Hco) ltac:(lia)).
  destruct (virtq_cmd_progress fuel s1 status) as [s2| | |]; try done; [|lia].
  destruct IH as [Hf2 Hset]. split; [by eapply frame_trans|]. intros Hnr. destruct (Hset Hnr) as [? ?].
  eauto using counted_from.
Qed.

End Handlers.
