(* ===== verification/VirtqSys.v ===== *)
(** A block virtqueue in its surroundings: the host sends commands, the DMA queue,
    the block device and the memory pool complete what was started.

    [vq_event] is one such event, [vq_step] an operation of the queue; [vq_inv] is
    the invariant of a queue whose data writes were all accepted: every command
    waits for something, and the counters of the queue say for what. *)

From S2P Require Import Prelude BlkDescs DpMap Virtq BlkVirtq VirtqInv.

(** * Events *)

(** What a completed read brought: the contents of the memory for descriptors, a
    request header, or data. *)
Inductive read_data :=
| ReadDescs (l : list vring_desc)
| ReadHeader (type sector : Z)
| ReadBulk.

Definition deliver (d : read_data) (c : bcmd) : bcmd :=
  match d with
  | ReadDescs l => if (length l =? length (descs c))%nat then c ⦇ descs := l ⦈ else c
  | ReadHeader t z => c ⦇ impl := (impl c) ⦇ hdr_type := t ⦈ ⦇ hdr_sector := z ⦈ ⦈
  | ReadBulk => c
  end.

Section Events.
Context {E : Type} `{Env E} `{BlkConfig}.
#[local] Abbreviation st := (vst E blk_virtq_cmd).
#[local] Abbreviation vq := (virtq E blk_virtq_cmd).

(** The DMA queue counts the operation and calls back when it was the last one. *)
Definition dma_done (d : read_data) (status : virtq_cmd_sm_op_status) (s : st) : res (st * unit) :=
  let c := deliver d (vc s) in
  let s := s ⦇ vc := c ⦇ dma_count := dma_count c - 1 ⦈ ⦈ in
  if dma_count (vc s) =? 0 then sm_dma_cb s status else Ok (s, tt).

(** The host uses a slot again only after its command was completed. *)
Definition slot_free (q : vq) (i : nat) : Prop := exists c, cmd_arr q !! i = Some c /\ free_slot c.

Inductive vq_event (q : vq) : vq -> Prop :=
| ev_rx m q' b :
    swq_state (qp q) <> SW_VIRTQ_SUSPENDED -> slot_free q (rx_slot (qp q) m) ->
    blk_virtq_rx_cb q m = Ok (q', b) -> vq_event q q'
| ev_dma i l1 l2 d status q' :
    in_dma (qw q) = l1 ++ i :: l2 ->
    on_cmd (q ⦇ qw := (qw q) ⦇ in_dma := l1 ++ l2 ⦈ ⦈) i (dma_done d status) = Ok (q', tt) -> vq_event q q'
| ev_bdev i l1 l2 success q' :
    in_bdev (qw q) = l1 ++ i :: l2 ->
    on_cmd (q ⦇ qw := (qw q) ⦇ in_bdev := l1 ++ l2 ⦈ ⦈) i (fun s => bdev_io_comp_cb s success) = Ok (q', tt) ->
    vq_event q q'
| ev_pool i l1 l2 data key q' :
    in_pool (qw q) = l1 ++ i :: l2 ->
    on_cmd (q ⦇ qw := (qw q) ⦇ in_pool := l1 ++ l2 ⦈ ⦈) i (fun s => virtq_mem_ready s data key) = Ok (q', tt) ->
    vq_event q q'.

(** An event after which no data write was refused so far. *)
Definition accepted_event (q q' : vq) : Prop := vq_event q q' /\ no_refused (qw q').

(** [f] runs callbacks. *)
Definition runs_events (f : vq -> res vq) : Prop := forall q q', f q = Ok q' -> star accepted_event q q'.

(** An operation of the queue in a run in which the DMA queue takes every data
    write. *)
Inductive vq_step (q : vq) : vq -> Prop :=
| vs_event q' : accepted_event q q' -> vq_step q q'
| vs_progress polled flushed tid q' :
    runs_events polled -> runs_events flushed -> virtq_progress polled flushed q tid = Ok q' ->
    no_refused (qw q') -> vq_step q q'
| vs_start pg : vq_step q (virtq_start q pg)
| vs_suspend : vq_step q (fst (virtq_suspend q)).

End Events.

(** * The invariant *)

Definition priv_same (p p' : virtq_priv) : Prop :=
  force_in_order p' = force_in_order p /\ use_mem_pool p' = use_mem_pool p /\ vq_size p' = vq_size p /\
  log_writes_to_host p' = log_writes_to_host p /\ lm_channel p' = lm_channel p.

Section Inv.
Context {E : Type}.
#[local] Abbreviation vq := (virtq E blk_virtq_cmd).

Definition sum_cmds (f : bcmd -> Z) (l : list bcmd) : Z := sumZ (map f l).

Record vq_inv (q : vq) : Prop := {
  vi_len : 0 < Z.of_nat (length (cmd_arr q)) <= 2 ^ 16;
  vi_size : vq_size (qp q) = Z.of_nat (length (cmd_arr q));
  vi_idx i c : cmd_arr q !! i = Some c -> cmd_idx c = i;
  vi_none j : (length (cmd_arr q) <= j)%nat -> n_dma (qw q) j = 0%nat /\ n_bdev (qw q) j = 0%nat /\ n_pool (qw q) j = 0%nat;
  vi_settled i c : cmd_arr q !! i = Some c -> settled (qw q) (qp q) c;
  vi_host : outstanding_to_host (qp q) = u32 (sum_cmds (host_c (qw q)) (cmd_arr q));
  vi_bdev : outstanding_in_bdev (qp q) = u32 (sum_cmds (bdev_c (qw q)) (cmd_arr q));
  vi_total : outstanding_total (qp q) = u32 (sum_cmds total_c (cmd_arr q));
  vi_fatal : fatal (qp q) = u32 (sum_cmds fatal_c (cmd_arr q));
}.

Lemma sum_cmds_insert (f g : bcmd -> Z) (l : list bcmd) : forall i c c',
  l !! i = Some c -> (forall j d, j <> i -> l !! j = Some d -> g d = f d) ->
  sum_cmds g (<[i := c']> l) = sum_cmds f l - f c + g c'.
Proof.
  unfold sum_cmds. induction l as [|d l IH]; intros i c c' Hi Hfg; [done|]. destruct i as [|i]; cbn in Hi; rewrite (map_cons f), sumZ_cons.
  - simplify_eq. change (<[0%nat := c']> (c :: l)) with (c' :: l). rewrite map_cons, sumZ_cons. assert (map g l = map f l) as ->; [|lia].
    apply list_eq. intros j. rewrite !list_lookup_fmap. destruct (l !! j) as [d'|] eqn:Hj; [|done].
    cbn. f_equal. by apply (Hfg (S j)).
  - change (<[S i := c']> (d :: l)) with (d :: <[i := c']> l). rewrite map_cons, sumZ_cons.
    rewrite (IH i c c' Hi) by (intros j d' Hne Hd'; apply (Hfg (S j)); [lia|done]).
    rewrite (Hfg 0%nat d) by done. lia.
Qed.

Lemma priv_frame_same p p' : priv_frame p p' -> priv_same p p'.
Proof. intros []. by split_and!. Qed.

Lemma priv_same_trans p1 p2 p3 : priv_same p1 p2 -> priv_same p2 p3 -> priv_same p1 p3.
Proof. intros (? & ? & ? & ? & ?) (? & ? & ? & ? & ?). split_and!; congruence. Qed.

(** Another command settles as before. *)
Lemma settled_other i (w w' : world E) p p' c :
  world_frame i w w' -> priv_same p p' -> cmd_idx c <> i -> settled w p c -> settled w' p' c.
Proof.
  intros [_ Hd Hb Hp] (Ho & Hm & Hs & Hl & Hc) Hi.
  unfold settled, mem_ok, dirty_ok, waits_dma, waits_bdev, waits_pool, waits_order, quiet, dead_ok.
  by rewrite (Hd _ Hi), (Hb _ Hi), (Hp _ Hi), Ho, Hm, Hs, Hl, Hc.
Qed.

(** Replacing a command: the counters move by what the command contributes. *)
Lemma vq_inv_update (q q' : vq) i c c' :
  vq_inv q -> cmd_arr q !! i = Some c -> cmd_arr q' = <[i := c']> (cmd_arr q) ->
  world_frame i (qw q) (qw q') -> priv_same (qp q) (qp q') -> cmd_idx c' = i ->
  settled (qw q') (qp q') c' ->
  outstanding_to_host (qp q') = u32 (outstanding_to_host (qp q) - host_c (qw q) c + host_c (qw q') c') ->
  outstanding_in_bdev (qp q') = u32 (outstanding_in_bdev (qp q) - bdev_c (qw q) c + bdev_c (qw q') c') ->
  outstanding_total (qp q') = u32 (outstanding_total (qp q) - total_c c + total_c c') ->
  fatal (qp q') = u32 (fatal (qp q) - fatal_c c + fatal_c c') ->
  vq_inv q'.
Proof.
  intros [Hlen Hsize Hidx Hnone Hset Hh Hb Ht Hf] Hi Harr Hw Hp Hci Hs' Hh' Hb' Ht' Hf'.
  assert (i < length (cmd_arr q))%nat as Hlt by by eapply lookup_lt_Some.
  assert (forall j d, j <> i -> cmd_arr q !! j = Some d ->
    n_dma (qw q') (cmd_idx d) = n_dma (qw q) (cmd_idx d) /\ n_bdev (qw q') (cmd_idx d) = n_bdev (qw q) (cmd_idx d) /\
    n_pool (qw q') (cmd_idx d) = n_pool (qw q) (cmd_idx d)) as Hsame.
  { intros j d Hj Hd. rewrite (Hidx _ _ Hd). destruct Hw as [_ H1 H2 H3]. auto. }
  assert (forall x a b, u32 (u32 x - a + b) = u32 (x - a + b)) as Hu.
  { intros x a b. replace (u32 x - a + b) with (u32 x + (b - a)) by lia. rewrite u32_add_l. f_equal. lia. }
  split; rewrite ?Harr, ?length_insert; auto.
  - by rewrite (proj1 (proj2 (proj2 Hp))).
  - intros j d Hd. destruct (decide (j = i)) as [->|Hj].
    + rewrite list_lookup_insert_eq in Hd by done. congruence.
    + rewrite list_lookup_insert_ne in Hd by done. eauto.
  - intros j Hj. destruct Hw as [_ H1 H2 H3]. rewrite H1, H2, H3 by lia. auto.
  - intros j d Hd. destruct (decide (j = i)) as [->|Hj].
    + rewrite list_lookup_insert_eq in Hd by done. by simplify_eq.
    + rewrite list_lookup_insert_ne in Hd by done. eapply settled_other; eauto. by rewrite (Hidx _ _ Hd).
  - rewrite (sum_cmds_insert (host_c (qw q)) _ _ _ c) by
      (try done; intros j d Hj Hd; destruct (Hsame j d Hj Hd) as (_ & H2 & H3); unfold host_c; by rewrite H2, H3).
    by rewrite Hh', Hh, Hu.
  - rewrite (sum_cmds_insert (bdev_c (qw q)) _ _ _ c) by
      (try done; intros j d Hj Hd; destruct (Hsame j d Hj Hd) as (_ & H2 & H3); unfold bdev_c; by rewrite H2).
    by rewrite Hb', Hb, Hu.
  - by rewrite (sum_cmds_insert total_c _ _ _ c), Ht', Ht, Hu.
  - by rewrite (sum_cmds_insert fatal_c _ _ _ c), Hf', Hf, Hu.
Qed.

Lemma vq_inv_counters (q : vq) : vq_inv q -> counters_ok (qp q).
Proof. intros []. split; [rewrite vi_host0|rewrite vi_bdev0|rewrite vi_total0|rewrite vi_fatal0]; apply u32_range. Qed.

End Inv.

(** * Events keep the invariant *)

Lemma count_remove (l1 l2 : list nat) i j :
  count_occ Nat.eq_dec (l1 ++ i :: l2) j =
    ((if Nat.eq_dec i j then 1 else 0) + count_occ Nat.eq_dec (l1 ++ l2) j)%nat.
Proof. rewrite !count_occ_app. cbn. destruct (Nat.eq_dec i j); lia. Qed.

Section Preserve.
Context {E : Type} `{Env E} `{BlkConfig} `{!BdevLaws E}.
#[local] Abbreviation st := (vst E blk_virtq_cmd).
#[local] Abbreviation vq := (virtq E blk_virtq_cmd).

(** [s] is the queue [q] about to serve its command [i], which was [c]; what [c]
    contributed to the counters is taken out, except for the total. *)
Record taken (q : vq) (i : nat) (c : bcmd) (s : st) : Prop := {
  tk_cmd : cmd_arr q !! i = Some c;
  tk_ready : ready (vw s) (vp s) (vc s);
  tk_idx : cmd_idx (vc s) = i;
  tk_world : world_frame i (qw q) (vw s);
  tk_priv : priv_same (qp q) (vp s);
  tk_swq : swq_state (vp s) = swq_state (qp q);
  tk_host : outstanding_to_host (vp s) = u32 (outstanding_to_host (qp q) - host_c (qw q) c);
  tk_bdev : outstanding_in_bdev (vp s) = u32 (outstanding_in_bdev (qp q) - bdev_c (qw q) c);
  tk_total : outstanding_total (vp s) = u32 (outstanding_total (qp q) - total_c c + 1);
  tk_fatal : fatal (vp s) = u32 (fatal (qp q) - fatal_c c);
}.

Definition put (q : vq) (i : nat) (s : st) : vq := mk_virtq (vw s) (vp s) (<[i := vc s]> (cmd_arr q)).

Lemma taken_progress (q : vq) i c (s : st) status :
  vq_inv q -> taken q i c s ->
  match virtq_cmd_progress sm_fuel s status with
  | Ok s' => (no_refused (vw s') -> no_refused (qw q) /\ vq_inv (put q i s')) /\ swq_state (vp s') = swq_state (qp q)
  | Oob => cmd_state (vc s) = 1
  | _ => False
  end.
Proof.
  intros Hinv [Hc Hr Hi Hw Hp Hq Hh Hb Ht Hf].
  assert (counters_ok (vp s)) as Hco by (split; rewrite ?Hh, ?Hb, ?Ht, ?Hf; apply u32_range).
  pose proof (progress_settles sm_fuel s status Hr Hco) as Hprog.
  assert (13 - cmd_state (vc s) <= Z.of_nat sm_fuel) as Hfuel by (destruct Hr; unfold sm_fuel; lia). specialize (Hprog Hfuel).
  destruct (virtq_cmd_progress sm_fuel s status) as [s'| | |]; try done. destruct Hprog as [(Hw' & Hp' & Hc') Hset].
  split; [|by rewrite (pf_swq _ _ Hp'), Hq]. intros Hnr. rewrite Hi in Hw'.
  pose proof (world_frame_trans _ _ _ _ Hw Hw') as Hww. split; [by eapply no_refused_frame|].
  destruct (Hset Hnr) as [Hs [Ch Cb Ct Cf]].
  assert (forall x a b, u32 (u32 x + a - b) = u32 (x + a - b)) as Hu2.
  { intros x a b. replace (u32 x + a - b) with (u32 x + (a - b)) by lia. rewrite u32_add_l. f_equal. lia. }
  apply (vq_inv_update q _ i c (vc s')); auto.
  - eapply priv_same_trans; [exact Hp|]. by apply priv_frame_same.
  - rewrite (cf_idx _ _ Hc'). done.
  - cbn. by rewrite Ch, Hh, u32_add_l.
  - cbn. by rewrite Cb, Hb, u32_add_l.
  - cbn. rewrite Ct, Ht, Hu2. f_equal. lia.
  - cbn. by rewrite Cf, Hf, u32_add_l.
Qed.

(** Serving the [i]-th command from [s]. *)
Definition serve (q : vq) (i : nat) (s : st) (status : virtq_cmd_sm_op_status) : res (vq * unit) :=
  let? r := progress_cmd s status in
  let '(s', a) := r in Ok (mk_virtq (vw s') (vp s') (<[i := vc s']> (cmd_arr q)), a).

(** [s] resumes the command [c], which was waiting. *)
Record starts (q : vq) (i : nat) (c : bcmd) (s : st) : Prop := {
  ss_taken : taken q i c s;
  ss_trace : trace (vw s) = trace (qw q);
  ss_used : ctrl_used_index (vp s) = ctrl_used_index (qp q);
  ss_avail : ctrl_available_index (vp s) = ctrl_available_index (qp q);
  ss_cavail : cmd_available_index (vc s) = cmd_available_index c;
  ss_head : descr_head_idx (vc s) = descr_head_idx c;
  ss_live : 1 <= cmd_state c <= 10;
  ss_state : 1 <= cmd_state (vc s) <= 10;
}.

(** ** New commands *)

Lemma rx_inline_ok (c c' : bcmd) m :
  rx_inline_descs c m = Ok c' -> exists l, c' = c ⦇ descs := l ⦈ /\ length l = length (descs c).
Proof.
  assert (c = c ⦇ descs := descs c ⦈) as Hid by by destruct c.
  unfold rx_inline_descs, copy_descs. intros Hrun.
  destruct (_ =? 0); [simplify_eq; eauto|]. destruct (_ <? _); [done|].
  destruct (Nat.ltb_spec (length (descs c)) (length (take (Z.to_nat (rq_num_desc m)) (rq_descs m)))); [done|].
  simplify_eq. eexists. split; [reflexivity|]. rewrite length_app, length_drop. lia.
Qed.

Lemma rx_table_ok (c c' : bcmd) m :
  rx_table_descs c m = Ok c' ->
  exists l n, c' = c ⦇ descs := l ⦈ ⦇ num_desc := n ⦈ /\ length l = length (descs c).
Proof.
  assert (c = c ⦇ descs := descs c ⦈ ⦇ num_desc := num_desc c ⦈) as Hid by by destruct c.
  unfold rx_table_descs, copy_descs. intros Hrun.
  destruct (_ =? _); [|simplify_eq; eauto].
  destruct (arrange_descs _ _ _) as [l| | |]; try done.
  destruct (Nat.ltb_spec (length (descs c)) (length l)); [done|]. cbn in Hrun. simplify_eq.
  do 2 eexists. split; [reflexivity|]. rewrite length_app, length_drop. lia.
Qed.

(** A free command leaves nothing behind. *)
Lemma free_settled (w : world E) p c :
  settled w p c -> free_slot c ->
  mem_ok p c /\ dirty_ok p /\ aux_src c = InQueueData /\ quiet w c /\
  host_c w c = 0 /\ bdev_c w c = 0 /\ total_c c = 0 /\ fatal_c c = 0.
Proof.
  intros (Hm & Hd & _ & Hcase) Hfree. unfold free_slot in Hfree.
  destruct Hcase as [(_ & Ha & Hq)|Hcase].
  - pose proof Hq as (_ & Hb & _). split_and!; auto; unfold host_c, bdev_c, total_c, fatal_c.
    + by destruct Hfree as [-> | ->].
    + by rewrite Hb.
    + by destruct Hfree as [-> | ->].
    + by destruct Hfree as [-> | ->].
  - exfalso. unfold waits_dma, waits_bdev, waits_pool, waits_order in Hcase. lia.
Qed.

Lemma mem_ok_slot p (c c' : bcmd) :
  mem_ok p c -> aux_src c = InQueueData -> aux_src c' = InQueueData -> use_seg_dmem c' = false ->
  length (descs c') = length (descs c) -> slot_descs c' = slot_descs c -> mem_ok p c'.
Proof.
  intros (Hl & Hm) Ha Ha' Hu Hd Hs. unfold mem_ok. rewrite Ha', Hu, Hd, Hs. split; [done|]. by destruct (use_mem_pool p).
Qed.

(** The command of a free slot, prepared for a new request. *)
Definition fresh_cmd (c c' : bcmd) : Prop :=
  cmd_idx c' = cmd_idx c /\ cmd_state c' = cmd_state c /\ aux_src c' = aux_src c /\ use_seg_dmem c' = false /\
  length (descs c') = length (descs c) /\ slot_descs c' = slot_descs c.

Definition rx_prepare (s : st) (m : tunnel_req) : st :=
  let s := virtq_rx_cb_common_set s m in
  s ⦇ vc := (vc s) ⦇ impl := (impl (vc s)) ⦇ pool_thread_id := thread_id (vp s) ⦈ ⦈ ⦈.

Lemma rx_prepare_ok (s : st) m :
  exists c, rx_prepare s m = mk_vst (vw s) (vp s) c /\ fresh_cmd (vc s) c /\
    cmd_available_index c = ctrl_available_index (vp s) /\ descr_head_idx c = rq_descr_head_idx m.
Proof. destruct s as [w p c]. destruct c. eexists. split; [reflexivity|]. by split_and!. Qed.

(** Dropping a command leaves the queue as it was. *)
Lemma rx_dropped (q : vq) i c c' :
  vq_inv q -> cmd_arr q !! i = Some c -> free_slot c -> fresh_cmd c c' ->
  vq_inv (mk_virtq (qw q) (qp q) (<[i := c']> (cmd_arr q))).
Proof.
  intros Hinv Hc Hfree (Hi' & Hs' & Ha' & Hu' & Hd' & Hsl').
  destruct (free_settled _ _ _ (vi_settled _ Hinv _ _ Hc) Hfree) as (Hm & Hd & Ha & Hq & Hch & Hcb & Hct & Hcf).
  pose proof (vi_idx _ Hinv _ _ Hc) as Hi. pose proof (vq_inv_counters _ Hinv) as [Rh Rb Rt Rf].
  apply (vq_inv_update q _ i c c'); auto with snap; cbn [qw qp].
  - by split_and!.
  - congruence.
  - split_and!; [eapply (mem_ok_slot _ c); congruence|done|unfold free_slot in Hfree; rewrite Hs'; lia|].
    left. unfold free_slot, quiet in *. rewrite Hs', Hi', Ha'. auto.
  - unfold host_c in *. rewrite Hs', Hi', u32_small; lia.
  - unfold bdev_c in *. rewrite Hi', u32_small; lia.
  - unfold total_c in *. rewrite Hs', u32_small; lia.
  - unfold fatal_c in *. rewrite Hs', u32_small; lia.
Qed.

(** Accepting one. *)
Lemma rx_taken (q : vq) i c c' p :
  vq_inv q -> cmd_arr q !! i = Some c -> free_slot c ->
  fresh_cmd (c ⦇ cmd_state := VIRTQ_CMD_STATE_FETCH_CMD_DESCS ⦈) c' ->
  priv_same (qp q) p -> swq_state p = swq_state (qp q) ->
  outstanding_to_host p = outstanding_to_host (qp q) -> outstanding_in_bdev p = outstanding_in_bdev (qp q) ->
  outstanding_total p = u32 (outstanding_total (qp q) + 1) -> fatal p = fatal (qp q) ->
  taken q i c (mk_vst (qw q) p c').
Proof.
  intros Hinv Hc Hfree (Hi' & Hs' & Ha' & Hu' & Hd' & Hsl') Hp Hsw Eh Eb Et Ef. rec_simpl in *.
  destruct (free_settled _ _ _ (vi_settled _ Hinv _ _ Hc) Hfree) as (Hm & Hd & Ha & Hq & Hch & Hcb & Hct & Hcf).
  pose proof (vi_idx _ Hinv _ _ Hc) as Hi. pose proof (vq_inv_counters _ Hinv) as [Rh Rb Rt Rf].
  assert (mem_ok (qp q) c') as Hm' by (eapply (mem_ok_slot _ c); congruence).
  split; cbn [vw vp vc]; auto; try congruence.
  - pose proof Hp as (_ & Pm & Ps & Pl & Pc). split_and!; [st_lia|st_lia| | |st_lia|].
    + unfold mem_ok in *. by rewrite Pm, Ps.
    + unfold dirty_ok in *. by rewrite Pl, Pc.
    + intros _. rewrite Hs'. cbn. unfold quiet in *. by rewrite Hi'.
  - apply world_frame_refl.
  - rewrite Eh, Hch, Z.sub_0_r, u32_small; lia.
  - rewrite Eb, Hcb, Z.sub_0_r, u32_small; lia.
  - rewrite Et, Hct. f_equal. lia.
  - rewrite Ef, Hcf, Z.sub_0_r, u32_small; lia.
Qed.

(** Receiving a command in a free slot: dropped while the queue is flushed, else served. *)
Lemma rx_starts (q : vq) m :
  vq_inv q -> slot_free q (rx_slot (qp q) m) ->
  let i := rx_slot (qp q) m in
  exists c, cmd_arr q !! i = Some c /\ free_slot c /\
    (swq_state (qp q) = SW_VIRTQ_FLUSHING /\
       (exists c', fresh_cmd c c' /\
          blk_virtq_rx_cb q m = Ok (mk_virtq (qw q) (qp q) (<[i := c']> (cmd_arr q)), false)) \/
     swq_state (qp q) <> SW_VIRTQ_FLUSHING /\
       (blk_virtq_rx_cb q m = Oob \/
        exists s, taken q i c s /\ trace (vw s) = trace (qw q) /\ ctrl_used_index (vp s) = ctrl_used_index (qp q) /\
          ctrl_available_index (vp s) = u16 (ctrl_available_index (qp q) + 1) /\
          cmd_available_index (vc s) = ctrl_available_index (qp q) /\ descr_head_idx (vc s) = rq_descr_head_idx m /\
          cmd_state (vc s) = 1 /\
          blk_virtq_rx_cb q m = let? r := serve q i s VIRTQ_CMD_SM_OP_OK in Ok (fst r, true))).
Proof.
  intros Hinv (c & Hc & Hfree) i. exists c. split_and!; [done|done|].
  assert (blk_virtq_rx_cb q m = let? r := virtq_rx_cb_common_proc (rx_prepare (mk_vst (qw q) (qp q) c) m) m in
    let '(s, a) := r in Ok (mk_virtq (vw s) (vp s) (<[i := vc s]> (cmd_arr q)), a)) as ->.
  { unfold blk_virtq_rx_cb, on_cmd. fold i in Hc |- *. rewrite Hc. reflexivity. }
  destruct (rx_prepare_ok (mk_vst (qw q) (qp q) c) m) as (c1 & -> & Hfresh & Hav & Hhd). cbn [vw vp vc] in *.
  fold i in Hc. clearbody i. unfold virtq_rx_cb_common_proc. cbn [vw vp vc].
  destruct (decide (swq_state (qp q) = SW_VIRTQ_FLUSHING)) as [Hfl|Hfl]; [left|right]; (split; [done|]).
  { exists c1. done. }
  destruct (rx_inline_descs c1 m) as [c2| | |] eqn:H1; cbn [res_bind]; try (by left).
  2,3: by revert H1; unfold rx_inline_descs, copy_descs; repeat case_match.
  apply rx_inline_ok in H1 as (l1 & -> & Hl1).
  destruct (rx_table_descs _ m) as [c2| | |] eqn:H2; cbn [res_bind]; try (by left).
  2,3: by revert H2; unfold rx_table_descs, copy_descs; repeat case_match.
  apply rx_table_ok in H2 as (l2 & n & -> & Hl2). rec_simpl in Hl2. right.
  match goal with |- context [virtq_cmd_progress sm_fuel ?s0 _] => exists s0; assert (taken q i c s0) as Htk end.
  { destruct Hfresh as (? & ? & ? & ? & ? & ?). apply rx_taken; try done. split_and!; rec_simpl; try done; congruence. }
  split_and!; [exact Htk|reflexivity|reflexivity|reflexivity|exact Hav|exact Hhd|reflexivity|].
  unfold serve, progress_cmd.
  match goal with |- context [virtq_cmd_progress sm_fuel ?s0 _] => by destruct (virtq_cmd_progress sm_fuel s0 VIRTQ_CMD_SM_OP_OK) end.
Qed.

Lemma rx_event (q : vq) m :
  vq_inv q -> slot_free q (rx_slot (qp q) m) ->
  match blk_virtq_rx_cb q m with
  | Ok (q', served) =>
      (no_refused (qw q') -> no_refused (qw q) /\ vq_inv q') /\ swq_state (qp q') = swq_state (qp q) /\
      (served = false -> exists c c', cmd_arr q !! rx_slot (qp q) m = Some c /\ cmd_state c' = cmd_state c /\
        q' = mk_virtq (qw q) (qp q) (<[rx_slot (qp q) m := c']> (cmd_arr q))) /\
      (served = false <-> swq_state (qp q) = SW_VIRTQ_FLUSHING)
  | Oob => True
  | _ => False
  end.
Proof.
  intros Hinv Hfree. destruct (rx_starts q m Hinv Hfree) as (c & Hc & Hf & [[Hsw (c' & Hfresh & ->)]|[Hsw [->|(s & Htk & _ & _ & _ & _ & _ & _ & ->)]]]).
  - cbn [qw qp]. split_and!; [|done| |done].
    + intros Hnr. split; [done|]. by eapply rx_dropped.
    + intros _. exists c, c'. split_and!; [done|apply Hfresh|done].
  - done.
  - unfold serve, progress_cmd. pose proof (taken_progress q _ c s VIRTQ_CMD_SM_OP_OK Hinv Htk) as Hp.
    destruct (virtq_cmd_progress sm_fuel s _) as [s'| | |]; cbn [res_bind fst]; try done.
    destruct Hp as [Hp1 Hp2]. split_and!; auto; done.
Qed.

(** ** Completions *)

(** Whose operation completes. *)
Lemma dma_waiter (w : world E) p c :
  settled w p c -> n_dma w (cmd_idx c) <> 0%nat -> cmd_state c = 12 /\ dead_ok w c \/ waits_dma w c /\ 0 < dma_count c.
Proof.
  intros (_ & _ & _ & Hcase) Hn.
  destruct Hcase as [(_ & _ & Hq & _)|[?|[Hd|[Hb|[Hp|Ho]]]]]; [lia|tauto|right|exfalso..].
  - split; [done|]. destruct Hd as (_ & _ & _ & ? & _). lia.
  - destruct Hb as (_ & _ & ? & _). lia.
  - destruct Hp as (_ & ? & _). lia.
  - destruct Ho as (_ & _ & ? & _). lia.
Qed.

Lemma bdev_waiter (w : world E) p c : settled w p c -> n_bdev w (cmd_idx c) <> 0%nat -> waits_bdev w c.
Proof.
  intros (_ & _ & _ & Hcase) Hn.
  destruct Hcase as [(_ & _ & _ & ? & _)|[[_ [? _]]|[Hd|[Hb|[Hp|Ho]]]]]; [lia|lia| |done| |].
  - destruct Hd as (_ & ? & _). lia.
  - destruct Hp as (_ & _ & ? & _). lia.
  - destruct Ho as (_ & _ & _ & ? & _). lia.
Qed.

Lemma pool_waiter (w : world E) p c : settled w p c -> n_pool w (cmd_idx c) <> 0%nat -> waits_pool w c.
Proof.
  intros (_ & _ & _ & Hcase) Hn.
  destruct Hcase as [(_ & _ & _ & _ & ?)|[(_ & _ & ? & _)|[Hd|[Hb|[Hp|Ho]]]]]; [lia|lia| | |done|].
  - destruct Hd as (_ & _ & ? & _). lia.
  - destruct Hb as (_ & _ & _ & ? & _). lia.
  - destruct Ho as (_ & _ & _ & _ & ?). lia.
Qed.

(** What an operation in flight belongs to. *)
Lemma in_flight_cmd (q : vq) i :
  vq_inv q -> n_dma (qw q) i <> 0%nat \/ n_bdev (qw q) i <> 0%nat \/ n_pool (qw q) i <> 0%nat ->
  exists c, cmd_arr q !! i = Some c /\ cmd_idx c = i /\ settled (qw q) (qp q) c.
Proof.
  intros Hinv Hn. destruct (cmd_arr q !! i) as [c|] eqn:Hc.
  - exists c. split_and!; [done|by eapply vi_idx|by eapply vi_settled].
  - apply lookup_ge_None in Hc. pose proof (vi_none _ Hinv _ Hc). lia.
Qed.

(** The contributions of a waiting command. *)
Lemma dma_contrib (w : world E) c :
  waits_dma w c -> host_c w c = 1 /\ bdev_c w c = 0 /\ total_c c = 1 /\ fatal_c c = 0.
Proof.
  intros (Hst & Hb & Hp & _). unfold host_c, bdev_c, total_c, fatal_c. rewrite Hb, Hp.
  by destruct Hst as [-> | [-> | [-> | ->]]].
Qed.

Lemma bdev_contrib (w : world E) c :
  waits_bdev w c -> host_c w c = 0 /\ bdev_c w c = 1 /\ total_c c = 1 /\ fatal_c c = 0.
Proof.
  intros (Hst & _ & _ & _ & Hb). unfold host_c, bdev_c, total_c, fatal_c. rewrite Hb, andb_false_r.
  by destruct Hst as [-> | [-> | ->]].
Qed.

Lemma pool_contrib (w : world E) c :
  waits_pool w c -> host_c w c = 0 /\ bdev_c w c = 0 /\ total_c c = 1 /\ fatal_c c = 0.
Proof.
  intros (Hst & _ & Hb & Hp). unfold host_c, bdev_c, total_c, fatal_c. rewrite Hb, Hp, andb_false_r.
  by destruct Hst as [-> | ->].
Qed.

(** The world without the completed operation. *)
Lemma dma_removed (w : world E) l1 l2 i :
  in_dma w = l1 ++ i :: l2 ->
  let w' := w ⦇ in_dma := l1 ++ l2 ⦈ in
  world_frame i w w' /\ n_dma w i = S (n_dma w' i) /\ n_bdev w' i = n_bdev w i /\ n_pool w' i = n_pool w i.
Proof.
  intros Hl. unfold n_dma, n_bdev, n_pool. cbn. rewrite Hl.
  split; [split; cbn; unfold n_dma, n_bdev, n_pool; cbn; auto; intros j Hj; rewrite Hl|split; [|done]]; rewrite count_remove.
  - by destruct (Nat.eq_dec i j).
  - by destruct (Nat.eq_dec i i).
Qed.

Lemma bdev_removed (w : world E) l1 l2 i :
  in_bdev w = l1 ++ i :: l2 ->
  let w' := w ⦇ in_bdev := l1 ++ l2 ⦈ in
  world_frame i w w' /\ n_bdev w i = S (n_bdev w' i) /\ n_dma w' i = n_dma w i /\ n_pool w' i = n_pool w i.
Proof.
  intros Hl. unfold n_dma, n_bdev, n_pool. cbn. rewrite Hl.
  split; [split; cbn; unfold n_dma, n_bdev, n_pool; cbn; auto; intros j Hj; rewrite Hl|split; [|done]]; rewrite count_remove.
  - by destruct (Nat.eq_dec i j).
  - by destruct (Nat.eq_dec i i).
Qed.

Lemma pool_removed (w : world E) l1 l2 i :
  in_pool w = l1 ++ i :: l2 ->
  let w' := w ⦇ in_pool := l1 ++ l2 ⦈ in
  world_frame i w w' /\ n_pool w i = S (n_pool w' i) /\ n_dma w' i = n_dma w i /\ n_bdev w' i = n_bdev w i.
Proof.
  intros Hl. unfold n_dma, n_bdev, n_pool. cbn. rewrite Hl.
  split; [split; cbn; unfold n_dma, n_bdev, n_pool; cbn; auto; intros j Hj; rewrite Hl|split; [|done]]; rewrite count_remove.
  - by destruct (Nat.eq_dec i j).
  - by destruct (Nat.eq_dec i i).
Qed.

(** The result of an event on command [i]; undefined behaviour is possible while
    its descriptors are fetched, which [fetching] tells. *)
Definition event_ok (q : vq) (fetching : Prop) (r : res (vq * unit)) : Prop :=
  match r with
  | Ok (q', _) => (no_refused (qw q') -> no_refused (qw q) /\ vq_inv q') /\ swq_state (qp q') = swq_state (qp q)
  | Oob => fetching
  | _ => False
  end.

Lemma taken_event (q : vq) i c (s : st) status (P : Prop) :
  vq_inv q -> taken q i c s -> (cmd_state (vc s) = 1 -> P) -> event_ok q P (serve q i s status).
Proof.
  intros Hinv Htk HP. unfold serve. pose proof (taken_progress q i c s status Hinv Htk) as Hp. unfold progress_cmd.
  destruct (virtq_cmd_progress sm_fuel s status) as [s'| | |]; cbn [res_bind event_ok]; auto.
Qed.

Lemma bdev_starts (q : vq) i l1 l2 success :
  vq_inv q -> in_bdev (qw q) = l1 ++ i :: l2 ->
  exists c s, starts q i c s /\ 6 <= cmd_state (vc s) /\
    on_cmd (q ⦇ qw := (qw q) ⦇ in_bdev := l1 ++ l2 ⦈ ⦈) i (fun s => bdev_io_comp_cb s success) = serve q i s VIRTQ_CMD_SM_OP_OK.
Proof.
  intros Hinv Hl. destruct (bdev_removed _ _ _ _ Hl) as (Hw & Hn & Hnd & Hnp).
  destruct (in_flight_cmd q i Hinv) as (c & Hc & Hi & Hset); [lia|].
  assert (waits_bdev (qw q) c) as Hwait by (eapply bdev_waiter; [done|rewrite Hi; lia]).
  destruct (bdev_contrib _ _ Hwait) as (Ch & Cb & Ct & Cf). pose proof (vq_inv_counters _ Hinv) as [Rh Rb Rt Rf].
  destruct Hset as (Hm & Hd & Hdesc & _). destruct Hwait as (Hst & Hio & Hqd & Hqp & Hqb). specialize (Hdesc ltac:(lia)).
  unfold on_cmd. cbn [cmd_arr qw qp upd_field]. rewrite Hc.
  unfold bdev_io_comp_cb. cbn [vw vp vc]. destruct (io_cmd_stat c) as [k|]; [|done].
  match goal with |- context [progress_cmd ?s0 _] => assert (exists p' c', s0 = mk_vst ((qw q) ⦇ in_bdev := l1 ++ l2 ⦈) p' c' /\
    priv_frame (qp q) p' /\ outstanding_to_host p' = outstanding_to_host (qp q) /\
    outstanding_in_bdev p' = u32 (outstanding_in_bdev (qp q) - 1) /\ outstanding_total p' = outstanding_total (qp q) /\
    fatal p' = fatal (qp q) /\ ctrl_used_index p' = ctrl_used_index (qp q) /\ req_cmd c c' /\ 6 <= cmd_state c' <= 8)
    as (p' & c' & -> & Hp' & Eh & Eb & Et & Ef & Eu & Hreq & Hs') end.
  { destruct success, k; do 2 eexists; (split; [reflexivity|]); split_and!; try done; st_lia. }
  destruct (req_cmd_ok (qp q) _ _ Hreq) as [Hm' Hd']. pose proof (cf_idx _ _ (proj1 Hreq)) as Hi'.
  assert (taken q i c (mk_vst ((qw q) ⦇ in_bdev := l1 ++ l2 ⦈) p' c')) as Htk.
  { split; cbn [vw vp vc]; auto using priv_frame_same; try apply Hp'; try congruence.
    - split_and!; [lia|lia|by eapply mem_ok_frame; eauto|by eapply dirty_ok_frame|auto|]. intros _.
      destruct (Z.eqb_spec (cmd_state c') 12); [lia|]. unfold quiet. rewrite Hi', Hi. rewrite Hi in *. split_and!; lia.
    - rewrite Eh, Ch, Z.sub_0_r, u32_small; lia.
    - rewrite Et, Ct, u32_small; lia.
    - rewrite Ef, Cf, Z.sub_0_r, u32_small; lia. }
  exists c, (mk_vst ((qw q) ⦇ in_bdev := l1 ++ l2 ⦈) p' c'). split_and!; [|by cbn; lia|reflexivity].
  destruct Hreq as [[] _]. split; cbn [vw vp vc]; try done; [apply Hp'|lia|lia].
Qed.

Lemma bdev_event (q : vq) i l1 l2 success :
  vq_inv q -> in_bdev (qw q) = l1 ++ i :: l2 ->
  event_ok q False (on_cmd (q ⦇ qw := (qw q) ⦇ in_bdev := l1 ++ l2 ⦈ ⦈) i (fun s => bdev_io_comp_cb s success)).
Proof.
  intros Hinv Hl. destruct (bdev_starts q i l1 l2 success Hinv Hl) as (c & s & Hs & Hst & ->).
  apply (taken_event q i c); [done|apply Hs|lia].
Qed.

Lemma pool_starts (q : vq) i l1 l2 data key :
  vq_inv q -> in_pool (qw q) = l1 ++ i :: l2 ->
  exists c s, starts q i c s /\ 4 <= cmd_state (vc s) /\
    on_cmd (q ⦇ qw := (qw q) ⦇ in_pool := l1 ++ l2 ⦈ ⦈) i (fun s => virtq_mem_ready s data key) = serve q i s VIRTQ_CMD_SM_OP_OK.
Proof.
  intros Hinv Hl. destruct (pool_removed _ _ _ _ Hl) as (Hw & Hn & Hnd & Hnb).
  destruct (in_flight_cmd q i Hinv) as (c & Hc & Hi & Hset); [lia|].
  assert (waits_pool (qw q) c) as Hwait by (eapply pool_waiter; [done|rewrite Hi; lia]).
  destruct (pool_contrib _ _ Hwait) as (Ch & Cb & Ct & Cf). pose proof (vq_inv_counters _ Hinv) as [Rh Rb Rt Rf].
  destruct Hset as (Hm & Hd & Hdesc & _). destruct Hwait as (Hst & Hqd & Hqb & Hqp). specialize (Hdesc ltac:(lia)).
  unfold on_cmd. cbn [cmd_arr qw qp upd_field]. rewrite Hc.
  unfold virtq_mem_ready. cbn [vw vp vc].
  assert (quiet ((qw q) ⦇ in_pool := l1 ++ l2 ⦈) c) as Hq by (unfold quiet; rewrite Hi in *; split_and!; lia).
  match goal with |- context [progress_cmd ?s0 _] => assert (taken q i c s0 /\ cmd_state (vc s0) = cmd_state c) as [Htk Hs] end.
  { split; [|done]. split; rec_simpl; auto; try done.
    - unfold ready. rec_simpl. split_and!; [lia|lia|done|done|auto|]. intros _.
      destruct (Z.eqb_spec (cmd_state c) 12); [lia|exact Hq].
    - rewrite Ch, Z.sub_0_r, u32_small; lia.
    - rewrite Cb, Z.sub_0_r, u32_small; lia.
    - rewrite Ct, u32_small; lia.
    - rewrite Cf, Z.sub_0_r, u32_small; lia. }
  match goal with |- context [progress_cmd ?s0 _] => exists c, s0 end. split_and!; [|lia|reflexivity].
  split; try done; lia.
Qed.

Lemma pool_event (q : vq) i l1 l2 data key :
  vq_inv q -> in_pool (qw q) = l1 ++ i :: l2 ->
  event_ok q False (on_cmd (q ⦇ qw := (qw q) ⦇ in_pool := l1 ++ l2 ⦈ ⦈) i (fun s => virtq_mem_ready s data key)).
Proof.
  intros Hinv Hl. destruct (pool_starts q i l1 l2 data key Hinv Hl) as (c & s & Hs & Hst & ->).
  apply (taken_event q i c); [done|apply Hs|lia].
Qed.


Lemma deliver_ok d (c : bcmd) :
  let c' := (deliver d c) ⦇ dma_count := dma_count (deliver d c) - 1 ⦈ in
  cmd_frame c c' /\ cmd_state c' = cmd_state c /\ num_desc c' = num_desc c /\ dma_count c' = dma_count c - 1 /\
  (forall p, mem_ok p c -> mem_ok p c') /\ (desc_ok c -> desc_ok c').
Proof.
  destruct d as [l|t z|]; cbn [deliver]; [|by split_and!..].
  destruct (Nat.eqb_spec (length l) (length (descs c))) as [Hl|]; [|by split_and!].
  split_and!; try done; unfold mem_ok, desc_ok; rec_simpl; by rewrite Hl.
Qed.

(** A completion that is not the last one of its command. *)
Lemma dma_counted (q : vq) i c c' l1 l2 :
  vq_inv q -> in_dma (qw q) = l1 ++ i :: l2 -> cmd_arr q !! i = Some c ->
  cmd_idx c' = cmd_idx c -> cmd_state c' = cmd_state c -> mem_ok (qp q) c' -> (desc_ok c -> desc_ok c') ->
  dma_count c' = dma_count c - 1 -> dma_count c' <> 0 -> num_desc c' = num_desc c ->
  vq_inv (mk_virtq ((qw q) ⦇ in_dma := l1 ++ l2 ⦈) (qp q) (<[i := c']> (cmd_arr q))).
Proof.
  intros Hinv Hl Hc Hi' Hs' Hm' Hd' Hcnt Hnz Hnum. destruct (dma_removed _ _ _ _ Hl) as (Hw & Hn & Hnb & Hnp).
  pose proof (vi_idx _ Hinv _ _ Hc) as Hi. pose proof (vi_settled _ Hinv _ _ Hc) as Hset.
  pose proof (vq_inv_counters _ Hinv) as [Rh Rb Rt Rf].
  assert (settled ((qw q) ⦇ in_dma := l1 ++ l2 ⦈) (qp q) c' ) as Hset'.
  { pose proof Hset as (_ & Hd & Hdesc & _). split_and!; [done|done|rewrite Hs'; auto|].
    apply dma_waiter in Hset as [[Hst (Hdb & Hdp & Hdead)]|[(Hst & Hdb & Hdp & Hdn & Hpos) Hgt]]; [| |rewrite Hi; lia].
    - right. left. rewrite Hs'. split; [done|]. unfold dead_ok. rewrite Hi', Hcnt. rewrite Hi in *. split_and!; lia.
    - right. right. left. unfold waits_dma. rewrite Hs', Hi', Hcnt, Hnum. rewrite Hi in *. split_and!; lia. }
  assert (host_c ((qw q) ⦇ in_dma := l1 ++ l2 ⦈) c' = host_c (qw q) c /\
    bdev_c ((qw q) ⦇ in_dma := l1 ++ l2 ⦈) c' = bdev_c (qw q) c) as [Eh Eb].
  { unfold host_c, bdev_c. rewrite Hs', Hi', Hi, Hnb, Hnp. done. }
  apply (vq_inv_update q _ i c c'); auto; cbn [qw qp].
  - by split_and!.
  - congruence.
  - rewrite Eh, Z.sub_add, u32_small; lia.
  - rewrite Eb, Z.sub_add, u32_small; lia.
  - unfold total_c. rewrite Hs', Z.sub_add, u32_small; lia.
  - unfold fatal_c. rewrite Hs', Z.sub_add, u32_small; lia.
Qed.

(** A completion is counted, or it is the last one and resumes the command. *)
Lemma dma_starts (q : vq) i l1 l2 d status :
  vq_inv q -> in_dma (qw q) = l1 ++ i :: l2 ->
  exists c, cmd_arr q !! i = Some c /\ (1 <= cmd_state c <= 10 \/ cmd_state c = 12) /\
    (dma_count c <> 1 /\ (exists c', cmd_frame c c' /\ cmd_state c' = cmd_state c /\
       let q' := mk_virtq ((qw q) ⦇ in_dma := l1 ++ l2 ⦈) (qp q) (<[i := c']> (cmd_arr q)) in
       vq_inv q' /\ on_cmd (q ⦇ qw := (qw q) ⦇ in_dma := l1 ++ l2 ⦈ ⦈) i (dma_done d status) = Ok (q', tt)) \/
     (exists s, starts q i c s /\ cmd_state (vc s) = cmd_state c /\
       on_cmd (q ⦇ qw := (qw q) ⦇ in_dma := l1 ++ l2 ⦈ ⦈) i (dma_done d status) = serve q i s status)).
Proof.
  intros Hinv Hl. destruct (dma_removed _ _ _ _ Hl) as (Hw & Hn & Hnb & Hnp).
  destruct (in_flight_cmd q i Hinv) as (c & Hc & Hi & Hset); [lia|].
  unfold on_cmd. cbn [cmd_arr qw qp upd_field]. rewrite Hc. unfold dma_done. cbn [vw vp vc].
  destruct (deliver_ok d c) as (Hcf & Hs' & Hnum & Hcnt & Hm' & Hd'). revert Hcf Hs' Hnum Hcnt Hm' Hd'.
  cbn zeta. generalize ((deliver d c) ⦇ dma_count := dma_count (deliver d c) - 1 ⦈). intros c' Hcf Hs' Hnum Hcnt Hm' Hd'.
  pose proof (cf_idx _ _ Hcf) as Hi'. exists c. split; [done|].
  rec_simpl. pose proof Hset as (Hm & Hd & Hdesc & _).
  destruct (Z.eqb_spec (dma_count c') 0) as [Hz|Hnz].
  2:{ split; [apply dma_waiter in Hset as [[? _]|[[? _] _]]; [lia|lia|rewrite Hi; lia]|]. left. split; [lia|].
      exists c'. split_and!; [done|done|eapply dma_counted; eauto|reflexivity]. }
  apply dma_waiter in Hset as [[Hst (_ & _ & Hdead)]|[Hwait Hgt]]; [exfalso; rewrite Hi in *; lia| |rewrite Hi; lia].
  destruct (dma_contrib _ _ Hwait) as (Ch & Cb & Ct & Cf). pose proof (vq_inv_counters _ Hinv) as [Rh Rb Rt Rf].
  destruct Hwait as (Hst & Hqb & Hqp & Hqd & _).
  assert (quiet ((qw q) ⦇ in_dma := l1 ++ l2 ⦈) c') as Hq by (unfold quiet; rewrite Hi', Hi in *; split_and!; lia).
  unfold sm_dma_cb. cbn [vw vp vc].
  match goal with |- context [progress_cmd ?s0 _] => assert (taken q i c s0 /\ vc s0 = c') as [Htk Hs] end.
  { split; [|done]. split; rec_simpl; auto; try done.
    - unfold ready. rec_simpl. rewrite Hs'. split_and!; [lia|lia|auto|done|auto|]. intros _.
      destruct (Z.eqb_spec (cmd_state c) 12); [lia|exact Hq].
    - congruence.
    - by rewrite Ch.
    - rewrite Cb, Z.sub_0_r, u32_small; lia.
    - rewrite Ct, u32_small; lia.
    - rewrite Cf, Z.sub_0_r, u32_small; lia. }
  split; [lia|]. right. match goal with |- context [progress_cmd ?s0 _] => exists s0 end.
  split_and!; [|by rewrite Hs|reflexivity]. destruct Hcf. split; try done; [lia|rewrite Hs, Hs'; lia].
Qed.

Lemma dma_event (q : vq) i l1 l2 d status :
  vq_inv q -> in_dma (qw q) = l1 ++ i :: l2 ->
  event_ok q (exists c, cmd_arr q !! i = Some c /\ cmd_state c = 1)
    (on_cmd (q ⦇ qw := (qw q) ⦇ in_dma := l1 ++ l2 ⦈ ⦈) i (dma_done d status)).
Proof.
  intros Hinv Hl. destruct (dma_starts q i l1 l2 d status Hinv Hl) as (c & Hc & _ & [(_ & c' & _ & _ & Hinv' & ->)|(s & Hs & Hst & ->)]).
  - split; [|done]. intros Hnr. done.
  - apply (taken_event q i c); [done|apply Hs|]. rewrite Hst. eauto.
Qed.

(** Every event keeps the invariant of a queue whose writes were accepted. *)
Lemma event_inv (q q' : vq) : vq_inv q -> accepted_event q q' -> vq_inv q' /\ swq_state (qp q') = swq_state (qp q).
Proof.
  intros Hinv [Hev Hnr]. destruct Hev as [m q' b _ Hfree Hrun|i l1 l2 d status q' Hl Hrun|i l1 l2 ok q' Hl Hrun|i l1 l2 d k q' Hl Hrun].
  - pose proof (rx_event q m Hinv Hfree) as Hok. rewrite Hrun in Hok. destruct Hok as (? & ? & _). tauto.
  - pose proof (dma_event q i l1 l2 d status Hinv Hl) as Hok. rewrite Hrun in Hok. unfold event_ok in Hok. tauto.
  - pose proof (bdev_event q i l1 l2 ok Hinv Hl) as Hok. rewrite Hrun in Hok. unfold event_ok in Hok. tauto.
  - pose proof (pool_event q i l1 l2 d k Hinv Hl) as Hok. rewrite Hrun in Hok. unfold event_ok in Hok. tauto.
Qed.

Lemma events_inv (q q' : vq) :
  vq_inv q -> star accepted_event q q' -> vq_inv q' /\ swq_state (qp q') = swq_state (qp q).
Proof.
  intros Hinv Hstar. induction Hstar as [q|q1 q2 q3 Hev _ IH]; [done|].
  destruct (event_inv _ _ Hinv Hev) as [Hinv2 Hsw]. destruct (IH Hinv2). split; [done|congruence].
Qed.

(** ** Completing in order *)

Lemma progress_unfold fuel (s : st) status (h : st -> virtq_cmd_sm_op_status -> res (st * bool)) :
  0 <= cmd_state (vc s) < 13 -> sm_array !! Z.to_nat (cmd_state (vc s)) = Some h ->
  virtq_cmd_progress (S fuel) s status =
    let? r := h s status in let '(s, repeat) := r in if repeat then virtq_cmd_progress fuel s status else Ok s.
Proof.
  intros Hst Hh. cbn [virtq_cmd_progress]. unfold VIRTQ_CMD_NUM_OF_STATES.
  destruct (Z.ltb_spec (cmd_state (vc s)) 13); [|lia]. destruct (Z.ltb_spec (cmd_state (vc s)) 0); [lia|]. by rewrite Hh.
Qed.

(** The last handlers leave the state as it is and write nothing. *)
Lemma final_state fuel (s s' : st) status :
  mem_ok (vp s) (vc s) -> cmd_state (vc s) = 11 \/ cmd_state (vc s) = 12 ->
  virtq_cmd_progress (S fuel) s status = Ok s' -> cmd_state (vc s') = cmd_state (vc s) /\ same_pending (vw s) (vw s').
Proof.
  intros Hm Hst.
  rewrite (progress_unfold fuel s status (if cmd_state (vc s) =? 11 then blk_virtq_sm_release else virtq_sm_fatal_error))
    by (first [lia|by destruct Hst as [-> | ->]]).
  destruct (Z.eqb_spec (cmd_state (vc s)) 11).
  - unfold blk_virtq_sm_release, virtq_sm_release.
    match goal with |- context [virtq_common_release ?s0] =>
      destruct (common_release_ok s0) as (s1 & -> & _ & Hw & _ & Hs & _) end.
    { destruct (_ && _); [destruct (0 <? _)|]; exact Hm. }
    cbn [res_bind]. intros [= <-]. split; [exact Hs|exact Hw].
  - unfold virtq_sm_fatal_error. destruct (common_release_ok s Hm) as (s1 & -> & _ & Hw & _ & Hs & _).
    cbn [res_bind]. intros [= <-]. split; [exact Hs|exact Hw].
Qed.

(** When it is the turn of a command, the completion is sent or the command fails. *)
Lemma turn_taken (s : st) :
  cmd_available_index (vc s) = ctrl_used_index (vp s) -> dirty_ok (vp s) ->
  exists s1, virtq_sm_send_completion s VIRTQ_CMD_SM_OP_OK = Ok (s1, true) /\
    (cmd_state (vc s1) = 11 \/ cmd_state (vc s1) = 12) /\ same_pending (vw s) (vw s1).
Proof.
  intros Hav Hd. unfold virtq_sm_send_completion. rewrite Hav, Z.eqb_refl. cbn [negb].
  assert (match io_cmd_stat (vc s) with Some _ | None => s end = s) as Hid by by destruct (io_cmd_stat (vc s)).
  rewrite Hid, andb_false_r. cbn [send_comp blk_impl_ops].
  destruct (send_comp_ok s) as (w & p & ret & -> & Hw & Hp & _).
  destruct (negb (ret =? 0)); [eexists; split; [reflexivity|]; split; [by right|done]|].
  destruct (mark_dirty_ok (mk_vst w p (vc s)) 0 0 true) as (w2 & -> & Hw2).
  { unfold dirty_ok in *. cbn. by rewrite (pf_log _ _ Hp), (pf_chan _ _ Hp). }
  cbn [res_bind]. eexists. split; [reflexivity|]. split; [by left|]. by eapply same_pending_trans.
Qed.

(** The turn of a command that waits for it: it is completed and released, or it
    failed; either way it waits no longer. *)
Lemma turn_state (s s' : st) :
  ready (vw s) (vp s) (vc s) -> counters_ok (vp s) -> cmd_state (vc s) = 10 ->
  cmd_available_index (vc s) = ctrl_used_index (vp s) ->
  virtq_cmd_progress sm_fuel s VIRTQ_CMD_SM_OP_OK = Ok s' ->
  (cmd_state (vc s') = 11 \/ cmd_state (vc s') = 12) /\ same_pending (vw s) (vw s').
Proof.
  intros Hr Hco Hst Hav Hrun. destruct (turn_taken s Hav) as (s1 & Hsend & Hs1 & Hw1); [apply Hr|].
  pose proof (send_completion_handles s VIRTQ_CMD_SM_OP_OK Hr Hco ltac:(lia)) as Hh. rewrite Hsend in Hh.
  destruct Hh as (_ & Hr1 & _). unfold sm_fuel in Hrun.
  rewrite (progress_unfold _ s _ virtq_sm_send_completion), Hsend in Hrun by (first [lia|by rewrite Hst]).
  cbn [res_bind] in Hrun.
  apply final_state in Hrun as [Hs2 Hw2]; [|apply Hr1|done]. split; [lia|by eapply same_pending_trans].
Qed.

Definition waiting (l : list bcmd) : nat := length (base.filter (fun c => cmd_state c = 10) l).

Lemma waiting_insert (l : list bcmd) : forall i c c',
  l !! i = Some c -> cmd_state c = 10 -> cmd_state c' <> 10 -> waiting l = S (waiting (<[i := c']> l)).
Proof.
  unfold waiting. induction l as [|d l IH]; intros i c c' Hi Hc Hc'; [done|]. destruct i as [|i]; cbn in Hi.
  - simplify_eq. change (<[0%nat := c']> (c :: l)) with (c' :: l). by rewrite filter_cons_True, filter_cons_False.
  - change (<[S i := c']> (d :: l)) with (d :: <[i := c']> l). rewrite !filter_cons. specialize (IH i c c' Hi Hc Hc').
    destruct (decide (cmd_state d = 10)); cbn [length]; lia.
Qed.

(** The command whose turn it is, taken out of a queue. *)
Lemma turn_taken_inv (q : vq) i c :
  vq_inv q -> cmd_arr q !! i = Some c -> cmd_state c = 10 -> taken q i c (mk_vst (qw q) (qp q) c).
Proof.
  intros Hinv Hc Hst. pose proof (vi_settled _ Hinv _ _ Hc) as (Hm & Hd & Hdesc & Hcase).
  pose proof (vi_idx _ Hinv _ _ Hc) as Hi. pose proof (vq_inv_counters _ Hinv) as [Rh Rb Rt Rf].
  assert (quiet (qw q) c) as Hq.
  { unfold free_slot, waits_dma, waits_bdev, waits_pool, waits_order in Hcase. rewrite Hst in Hcase. intuition lia. }
  assert (host_c (qw q) c = 0 /\ bdev_c (qw q) c = 0 /\ total_c c = 1 /\ fatal_c c = 0) as (Ch & Cb & Ct & Cf).
  { unfold host_c, bdev_c, total_c, fatal_c. rewrite Hst. destruct Hq as (_ & -> & _). done. }
  split; cbn [vw vp vc]; auto with snap.
  - split_and!; auto; try lia. rewrite Hst. done.
  - by split_and!.
  - rewrite Ch, Z.sub_0_r, u32_small; lia.
  - rewrite Cb, Z.sub_0_r, u32_small; lia.
  - rewrite Ct, u32_small; lia.
  - rewrite Cf, Z.sub_0_r, u32_small; lia.
Qed.

(** [virtq_progress_unordered] returns, and keeps the invariant: every round ends
    the wait of one command. *)
Lemma unordered_loop_ok fuel : forall q : vq,
  vq_inv q -> no_refused (qw q) -> (waiting (cmd_arr q) < fuel)%nat ->
  exists q', unordered_loop fuel q = Ok q' /\ vq_inv q' /\ no_refused (qw q') /\ swq_state (qp q') = swq_state (qp q) /\
    length (cmd_arr q') = length (cmd_arr q) /\
    (forall i c c', cmd_arr q !! i = Some c -> cmd_arr q' !! i = Some c' ->
      c' = c \/ cmd_state c = 10 /\ (cmd_state c' = 11 \/ cmd_state c' = 12)) /\ same_pending (qw q) (qw q').
Proof.
  induction fuel as [|fuel IH]; intros q Hinv Hnr Hfuel; [lia|]. cbn [unordered_loop].
  set (i := Z.to_nat (ctrl_used_index (qp q) mod vq_size (qp q))).
  destruct (lookup_lt_is_Some_2 (cmd_arr q) i) as [c Hc].
  { unfold i. rewrite (vi_size _ Hinv). pose proof (vi_len _ Hinv) as Hlen.
    pose proof (Z.mod_pos_bound (ctrl_used_index (qp q)) (Z.of_nat (length (cmd_arr q)))). lia. }
  clearbody i. rewrite Hc. destruct (_ && _) eqn:Hturn.
  2:{ exists q. split_and!; auto with snap. intros j c1 c2 H1 H2. left. congruence. }
  apply andb_prop in Hturn as [Hst%Z.eqb_eq Hav%Z.eqb_eq]. unfold VIRTQ_CMD_STATE_SEND_IN_ORDER_COMP in Hst.
  pose proof (turn_taken_inv q i c Hinv Hc Hst) as Htk. pose proof (taken_progress q i c _ VIRTQ_CMD_SM_OP_OK Hinv Htk) as Hprog.
  unfold on_cmd. rewrite Hc. unfold progress_cmd.
  destruct (virtq_cmd_progress sm_fuel (mk_vst (qw q) (qp q) c) VIRTQ_CMD_SM_OP_OK) as [s'| | |] eqn:Hrun;
    [cbn [res_bind fst]|first [done|cbn [vc] in Hprog; lia]..].
  destruct (turn_state _ _ (tk_ready _ _ _ _ Htk) (vq_inv_counters _ Hinv) Hst Hav Hrun) as [Hs' Hw'].
  destruct Hprog as [Hprog Hsw]. pose proof (sp_write _ _ Hw' Hnr) as Hnr'. destruct (Hprog Hnr') as [_ Hinv'].
  destruct (IH (put q i s') Hinv' Hnr') as (q' & Hrest & Hinv2 & Hnr2 & Hsw2 & Hlen2 & Hcmds & Hpend).
  { cbn [cmd_arr put]. rewrite (waiting_insert _ i c (vc s') Hc Hst) in Hfuel by lia. lia. }
  exists q'. cbn [cmd_arr put qp] in *. rewrite length_insert in Hlen2.
  split_and!; try done; [congruence| |by eapply same_pending_trans].
  intros j c1 c2 H1 H2. destruct (decide (j = i)) as [->|Hj].
  - simplify_eq. right. split; [done|]. destruct (Hcmds i (vc s') c2) as [-> |[? _]]; [|done|done|lia].
    apply list_lookup_insert_eq. by eapply lookup_lt_Some.
  - apply (Hcmds j); [by rewrite list_lookup_insert_ne|done].
Qed.

Lemma progress_unordered_ok (q : vq) :
  vq_inv q -> no_refused (qw q) ->
  exists q', virtq_progress_unordered q = Ok q' /\ vq_inv q' /\ no_refused (qw q') /\ swq_state (qp q') = swq_state (qp q) /\
    length (cmd_arr q') = length (cmd_arr q) /\
    (forall i c c', cmd_arr q !! i = Some c -> cmd_arr q' !! i = Some c' ->
      c' = c \/ cmd_state c = 10 /\ (cmd_state c' = 11 \/ cmd_state c' = 12)) /\ same_pending (qw q) (qw q').
Proof.
  intros Hinv Hnr. apply unordered_loop_ok; [done..|]. unfold waiting.
  pose proof (length_filter (fun c : bcmd => cmd_state c = 10) (cmd_arr q)). lia.
Qed.

(** ** Suspending *)

(** No command is served. *)
Definition drained (q : vq) : Prop := forall i c, cmd_arr q !! i = Some c -> free_slot c.

(** Some command failed for good. *)
Definition has_dead (q : vq) : Prop := exists i c, cmd_arr q !! i = Some c /\ cmd_state c = 12.

Lemma sum_cmds_zero (f : bcmd -> Z) (l : list bcmd) :
  (forall c, 0 <= f c <= 1) -> 0 <= sum_cmds f l <= Z.of_nat (length l) /\
  (sum_cmds f l = 0 <-> forall i c, l !! i = Some c -> f c = 0).
Proof.
  intros Hf. induction l as [|d l IH]; [split; [cbn; lia|split; [done|by cbn]]|].
  unfold sum_cmds in *. rewrite map_cons, sumZ_cons. cbn [length]. pose proof (Hf d). split; [lia|]. split.
  - intros Hz i c Hi. destruct i as [|i]; cbn in Hi; [simplify_eq; lia|]. apply (proj1 (proj2 IH) ltac:(lia) i c Hi).
  - intros Hall. pose proof (Hall 0%nat d eq_refl). assert (sumZ (map f l) = 0); [|lia].
    apply IH. intros i c Hi. by apply (Hall (S i)).
Qed.

Lemma counter_zero (f : bcmd -> Z) (q : vq) :
  vq_inv q -> (forall c, 0 <= f c <= 1) ->
  u32 (sum_cmds f (cmd_arr q)) = 0 <-> forall i c, cmd_arr q !! i = Some c -> f c = 0.
Proof.
  intros Hinv Hf. pose proof (vi_len _ Hinv). destruct (sum_cmds_zero f (cmd_arr q) Hf) as [Hr Hz].
  by rewrite u32_small, Hz by lia.
Qed.

Lemma total_zero (q : vq) : vq_inv q -> outstanding_total (qp q) = 0 <-> drained q.
Proof.
  intros Hinv. rewrite (vi_total _ Hinv), (counter_zero total_c) by (try done; intros c; unfold total_c; case_match; lia).
  unfold drained, free_slot, total_c. split; intros Hall i c Hc; specialize (Hall i c Hc).
  - destruct (_ || _) eqn:Hst; [|done]. bool_to_prop. lia.
  - destruct Hall as [-> | ->]; done.
Qed.

Lemma fatal_zero (q : vq) : vq_inv q -> fatal (qp q) <> 0 <-> has_dead q.
Proof.
  intros Hinv. rewrite (vi_fatal _ Hinv), (counter_zero fatal_c) by (try done; intros c; unfold fatal_c; case_match; lia).
  unfold has_dead, fatal_c. split.
  - intros Hne. destruct (decide (Exists (fun c : bcmd => cmd_state c = 12) (cmd_arr q))) as [Hex|Hno].
    + apply Exists_exists in Hex as (c & Hc & Hst). apply list_elem_of_lookup in Hc as [i Hi]. eauto.
    + exfalso. apply Hne. intros i c Hi. destruct (Z.eqb_spec (cmd_state c) 12); [|done]. exfalso.
      apply Hno, Exists_exists. exists c. split; [by eapply list_elem_of_lookup_2|done].
  - intros (i & c & Hc & Hst) Hall. specialize (Hall i c Hc). by rewrite Hst in Hall.
Qed.

(** A drained queue has nothing in flight. *)
Lemma drained_quiet (q : vq) :
  vq_inv q -> drained q -> in_dma (qw q) = [] /\ in_bdev (qw q) = [] /\ in_pool (qw q) = [].
Proof.
  intros Hinv Hdr.
  assert (forall j, n_dma (qw q) j = 0%nat /\ n_bdev (qw q) j = 0%nat /\ n_pool (qw q) j = 0%nat) as Hn.
  { intros j. destruct (cmd_arr q !! j) as [c|] eqn:Hc.
    - destruct (free_settled _ _ _ (vi_settled _ Hinv _ _ Hc) (Hdr _ _ Hc)) as (_ & _ & _ & Hq & _).
      unfold quiet in Hq. by rewrite (vi_idx _ Hinv _ _ Hc) in Hq.
    - apply (vi_none _ Hinv). by apply lookup_ge_None. }
  unfold n_dma, n_bdev, n_pool in Hn.
  split_and!; apply (count_occ_inv_nil Nat.eq_dec); intros j; apply Hn.
Qed.

(** What an event on a command keeps of the others. *)
Lemma on_cmd_others {A} (q q' : vq) i (f : st -> res (st * A)) a :
  on_cmd q i f = Ok (q', a) ->
  exists c s, cmd_arr q !! i = Some c /\ f (mk_vst (qw q) (qp q) c) = Ok (s, a) /\ cmd_arr q' = <[i := vc s]> (cmd_arr q).
Proof.
  unfold on_cmd. destruct (cmd_arr q !! i) as [c|] eqn:Hc; [|done]. intros Hrun.
  destruct (f _) as [[s b]| | |] eqn:Hf; try done. cbn in Hrun. simplify_eq. eauto 10.
Qed.

Lemma insert_dead (q : vq) (l : list bcmd) i c :
  (forall d, cmd_arr q !! i = Some d -> cmd_state d = 12 -> cmd_state c = 12) ->
  l = <[i := c]> (cmd_arr q) -> has_dead q -> exists j d, l !! j = Some d /\ cmd_state d = 12.
Proof.
  intros Hkeep -> (j & d & Hj & Hd). destruct (decide (j = i)) as [->|Hne].
  - exists i, c. split; [|by eapply Hkeep]. apply list_lookup_insert_eq. by eapply lookup_lt_Some.
  - exists j, d. by rewrite list_lookup_insert_ne.
Qed.

(** A dead command stays dead. *)
Lemma event_dead (q q' : vq) : vq_inv q -> vq_event q q' -> has_dead q -> has_dead q'.
Proof.
  intros Hinv Hev Hdead.
  destruct Hev as [m q' b _ (c & Hc & Hfree) Hrun|i l1 l2 d status q' Hl Hrun|i l1 l2 ok q' Hl Hrun|i l1 l2 d k q' Hl Hrun].
  - unfold blk_virtq_rx_cb in Hrun. apply on_cmd_others in Hrun as (c' & s & Hc' & _ & Harr).
    eapply insert_dead; [|exact Harr|done]. intros d Hd Hst. unfold free_slot in Hfree. simplify_eq. lia.
  - apply on_cmd_others in Hrun as (c & s & Hc & Hrun & Harr). cbn [qw qp cmd_arr upd_field] in *.
    eapply insert_dead; [|exact Harr|done]. intros c0 Hc0 Hst. simplify_eq.
    destruct (dma_removed _ _ _ _ Hl) as (_ & Hn & _). pose proof (vi_idx _ Hinv _ _ Hc) as Hi.
    destruct (dma_waiter _ _ _ (vi_settled _ Hinv _ _ Hc)) as [[_ (_ & _ & Hcnt)]|[[Hw _] _]]; [rewrite Hi; lia| |lia].
    destruct (deliver_ok d c) as (_ & Hs & _ & Hdc & _). unfold dma_done in Hrun. rec_simpl in *.
    destruct (Z.eqb_spec (dma_count (deliver d c) - 1) 0) as [Hz|_]; [rewrite Hi in *; lia|].
    simplify_eq. cbn. congruence.
  - apply on_cmd_others in Hrun as (c & s & Hc & Hrun & Harr). cbn [qw qp cmd_arr upd_field] in *.
    eapply insert_dead; [|exact Harr|done]. intros c0 Hc0 Hst. simplify_eq.
    destruct (bdev_removed _ _ _ _ Hl) as (_ & Hn & _). pose proof (vi_idx _ Hinv _ _ Hc) as Hi.
    destruct (bdev_waiter _ _ _ (vi_settled _ Hinv _ _ Hc)) as [Hw _]; [rewrite Hi; lia|lia].
  - apply on_cmd_others in Hrun as (c & s & Hc & Hrun & Harr). cbn [qw qp cmd_arr upd_field] in *.
    eapply insert_dead; [|exact Harr|done]. intros c0 Hc0 Hst. simplify_eq.
    destruct (pool_removed _ _ _ _ Hl) as (_ & Hn & _). pose proof (vi_idx _ Hinv _ _ Hc) as Hi.
    destruct (pool_waiter _ _ _ (vi_settled _ Hinv _ _ Hc)) as [Hw _]; [rewrite Hi; lia|lia].
Qed.

(** A drained queue that is not running stays drained. *)
Lemma event_drained (q q' : vq) :
  vq_inv q -> vq_event q q' -> swq_state (qp q) <> SW_VIRTQ_RUNNING -> drained q -> drained q'.
Proof.
  intros Hinv Hev Hsw Hdr. destruct (drained_quiet q Hinv Hdr) as (Hd & Hb & Hp).
  destruct Hev as [m q' b Hns Hfree Hrun|i l1 l2 d status q' Hl Hrun|i l1 l2 ok q' Hl Hrun|i l1 l2 d k q' Hl Hrun].
  2-4: exfalso; rewrite ?Hd, ?Hb, ?Hp in Hl; by destruct l1.
  pose proof (rx_event q m Hinv Hfree) as Hok. rewrite Hrun in Hok. destruct Hok as (_ & _ & Hdrop & Hiff).
  assert (b = false) as -> by (apply Hiff; by destruct (swq_state (qp q))).
  destruct (Hdrop eq_refl) as (c & c' & Hc & Hs & ->). intros j d Hj. cbn [cmd_arr] in Hj.
  destruct (decide (j = rx_slot (qp q) m)) as [->|Hne].
  - rewrite list_lookup_insert_eq in Hj by (by eapply lookup_lt_Some). simplify_eq.
    pose proof (Hdr _ _ Hc) as Hf. unfold free_slot in *. by rewrite Hs.
  - rewrite list_lookup_insert_ne in Hj by done. eauto.
Qed.

(** * The invariant of reachable queues *)

Record vq_ok (q : vq) : Prop := {
  vo_inv : vq_inv q;
  vo_writes : no_refused (qw q);
  vo_susp : swq_state (qp q) = SW_VIRTQ_SUSPENDED -> drained q \/ has_dead q;
}.

Lemma event_ok_step (q q' : vq) : vq_ok q -> accepted_event q q' -> vq_ok q'.
Proof.
  intros [Hinv Hnr Hsusp] Hev. destruct (event_inv _ _ Hinv Hev) as [Hinv' Hsw]. destruct Hev as [Hev Hnr'].
  split; [done|done|]. rewrite Hsw. intros Hs. destruct (Hsusp Hs) as [Hd|Hd].
  - left. apply (event_drained q); auto. by rewrite Hs.
  - right. by apply (event_dead q).
Qed.

Lemma events_ok (q q' : vq) : vq_ok q -> star accepted_event q q' -> vq_ok q'.
Proof. intros Hq Hs. revert Hq. induction Hs; eauto using event_ok_step. Qed.

(** Changing what the invariant does not speak about. *)
Lemma vq_inv_priv (q : vq) p :
  vq_inv q -> priv_same (qp q) p -> same_counters (qp q) p -> vq_inv (q ⦇ qp := p ⦈).
Proof.
  intros [] Hp [Hh Hb Ht Hf]. split; cbn [qp qw cmd_arr upd_field]; auto; try congruence.
  - by rewrite (proj1 (proj2 (proj2 Hp))).
  - intros i c Hc. pose proof (vi_settled0 i c Hc) as Hs. destruct Hp as (Ho & Hm & Hsz & Hl & Hch).
    unfold settled, mem_ok, dirty_ok, waits_order in *. by rewrite Ho, Hm, Hsz, Hl, Hch.
Qed.

(** A call of the queue that leaves nothing in flight. *)
Lemma vq_inv_call (q : vq) w : vq_inv q -> same_pending (qw q) w -> vq_inv (q ⦇ qw := w ⦈).
Proof.
  intros [] [_ _ Hd Hb Hp]. split; cbn; auto;
    unfold settled, waits_dma, waits_bdev, waits_pool, waits_order, quiet, dead_ok, host_c, bdev_c, n_dma, n_bdev, n_pool in *;
    by rewrite ?Hd, ?Hb, ?Hp.
Qed.

Lemma do_call_sync (w : world E) op :
  op_dma op = None -> op_bdev op = None -> op_pool op = None ->
  exists w' ret, do_call w op = (w', ret) /\ same_pending w w'.
Proof.
  intros Hd Hb Hp. unfold do_call. destruct (call (env w) op) as [e ret].
  exists (w ⦇ env := e ⦈ ⦇ trace := trace w ++ [(op, ret)] ⦈), ret. split; [by destruct op|].
  apply (called_sync op ret); try done. destruct op; cbn in *; try done; split; done.
Qed.

(** A queue that ended its flush stays ended while callbacks run. *)
Lemma flush_ends (q q' : vq) :
  vq_ok q -> drained q \/ has_dead q -> swq_state (qp q) = SW_VIRTQ_FLUSHING -> star accepted_event q q' ->
  vq_ok q' /\ (drained q' \/ has_dead q') /\ swq_state (qp q') = SW_VIRTQ_FLUSHING.
Proof.
  intros Hok Hend Hsw Hrun. induction Hrun as [q|q1 q2 q3 Hev _ IH]; [done|].
  destruct (event_inv _ _ (vo_inv _ Hok) Hev) as [_ Hsw2]. apply IH; [by eapply event_ok_step| |congruence].
  destruct Hend as [Hd|Hd]; [left; apply (event_drained q1); auto; [apply Hok|apply Hev|by rewrite Hsw]
    |right; apply (event_dead q1); auto; [apply Hok|apply Hev]].
Qed.

(** The end of a flush. *)
Lemma progress_suspend_ok (flushed : vq -> res vq) (q q' : vq) :
  runs_events flushed -> vq_inv q -> no_refused (qw q) -> swq_state (qp q) = SW_VIRTQ_FLUSHING ->
  virtq_progress_suspend flushed q = Ok q' -> vq_ok q'.
Proof.
  intros Hfl Hinv Hnr Hsw. unfold virtq_progress_suspend. destruct (virtq_check_outstanding_progress_suspend (qp q)) eqn:Hchk; cbn [negb].
  2:{ intros [= <-]. split; [done|done|by rewrite Hsw]. }
  destruct (do_call_sync (qw q) DmaFlush) as (w & ret & -> & Hw); [done..|].
  pose proof (vq_inv_call _ _ Hinv Hw) as Hinv1.
  assert (drained q \/ has_dead q) as Hend.
  { unfold virtq_check_outstanding_progress_suspend in Hchk. destruct (Z.eqb_spec (fatal (qp q)) 0) as [Hf|Hf]; cbn [negb] in Hchk.
    - left. apply total_zero; [done|]. bool_to_prop. tauto.
    - right. by apply fatal_zero. }
  destruct (flushed (q ⦇ qw := w ⦈)) as [q1| | |] eqn:Hrun; cbn [res_bind]; try done.
  apply Hfl in Hrun.
  destruct (flush_ends (q ⦇ qw := w ⦈) q1) as (Hok1 & Hend1 & Hsw1); try done.
  { split; [done|by apply Hw|]. cbn. by rewrite Hsw. }
  destruct (do_call_sync (qw q1) QueueModifySuspend) as (w2 & ret2 & -> & Hw2); [done..|].
  intros [= <-]. destruct Hok1 as [Hinv2 Hnr2 _].
  split; [|by apply Hw2|done].
  pose proof (vq_inv_call _ _ Hinv2 Hw2) as Hinv3.
  apply (vq_inv_priv _ ((qp q1) ⦇ swq_state := SW_VIRTQ_SUSPENDED ⦈)) in Hinv3; [exact Hinv3|by split_and!|by split].
Qed.

Lemma step_ok (q q' : vq) : vq_ok q -> vq_step q q' -> vq_ok q'.
Proof.
  intros Hok Hstep. destruct Hstep as [q' Hev|polled flushed tid q' Hpoll Hfl Hrun Hnr|pg|].
  - by eapply event_ok_step.
  - unfold virtq_progress in Hrun. destruct (decide (swq_state (qp q) = SW_VIRTQ_SUSPENDED)); [by simplify_eq|].
    destruct (polled _) as [q1| | |] eqn:Hp; cbn [res_bind] in Hrun; try done. apply Hpoll in Hp.
    assert (vq_ok q1) as Hok1.
    { eapply events_ok; [|exact Hp]. destruct Hok as [Hinv Hw Hs]. split; [|done|done].
      by apply (vq_inv_priv _ ((qp q) ⦇ thread_id := tid ⦈)). }
    assert (exists q2, (if force_in_order (qp q1) then virtq_progress_unordered q1 else Ok q1) = Ok q2 /\ vq_inv q2 /\ no_refused (qw q2) /\
      swq_state (qp q2) = swq_state (qp q1) /\ swq_state (qp q1) <> SW_VIRTQ_SUSPENDED) as (q2 & Hq2 & Hinv2 & Hnr2 & Hsw2 & Hns).
    { assert (swq_state (qp q1) <> SW_VIRTQ_SUSPENDED) as Hns.
      { apply events_inv in Hp as [_ ->]; [done|]. apply vq_inv_priv; [apply Hok|by split_and!|by split]. }
      destruct Hok1 as [Hinv1 Hnr1 _]. destruct (force_in_order (qp q1)); [|eauto 10].
      destruct (progress_unordered_ok q1 Hinv1 Hnr1) as (q2 & ? & ? & ? & ? & _). eauto 10. }
    rewrite Hq2 in Hrun. cbn [res_bind] in Hrun. destruct (decide (swq_state (qp q2) = SW_VIRTQ_FLUSHING)) as [Hf|Hf].
    + by eapply progress_suspend_ok.
    + simplify_eq. split; [done|done|congruence].
  - destruct Hok as [Hinv Hnr Hs]. split; [|done|done]. apply vq_inv_priv; [done|by split_and!|by split].
  - unfold virtq_suspend. destruct (decide _); [|done]. destruct Hok as [Hinv Hnr Hs].
    split; [|done|done]. apply vq_inv_priv; [done|by split_and!|by split].
Qed.

Lemma steps_ok (q q' : vq) : vq_ok q -> star vq_step q q' -> vq_ok q'.
Proof. intros Hq Hs. revert Hq. induction Hs; eauto using step_ok. Qed.

End Preserve.
