(* ===== verification/BlkCreate.v ===== *)
(** Creating and destroying a block virtqueue: virtq_ctx_init and
    virtq_vattr_from_attr of src/ctrl/virtq_common.c, alloc_blk_virtq_cmd_arr,
    blk_virtq_create and blk_virtq_destroy of src/ctrl/snap_virtio_blk_virtq.c.

    The calls that may fail are answered by a record [answers]; the resources held
    are a list, so that what a failing creation leaves behind can be stated. *)

From S2P Require Import Prelude BlkDescs DpMap Virtq BlkVirtq VirtqInv VirtqSys.

(** * Resources *)

Inductive rsrc := RCtx | RPriv | RAttr | RDmaQ | RCmdArr | RData | RDataMr | RFwQueue.

#[export] Instance rsrc_eq_dec : EqDecision rsrc.
Proof. solve_decision. Defined.

(** Releasing the last acquired resource of this kind; [None] when none is held. *)
Fixpoint release (r : rsrc) (live : list rsrc) : option (list rsrc) :=
  match live with
  | [] => None
  | x :: live => if decide (x = r) then Some live else (fun l => x :: l) <$> release r live
  end.

Fixpoint release_all (rs : list rsrc) (live : list rsrc) : res (list rsrc) :=
  match rs with
  | [] => Ok live
  | r :: rs => match release r live with Some live => release_all rs live | None => Oob end
  end.

(** * Attributes *)

(** [struct virtq_create_attr]. *)
Record virtq_create_attr := mk_create_attr {
  ca_idx : Z;
  ca_size_max : Z;
  ca_seg_max : Z;
  ca_queue_size : Z;
  ca_desc : Z;
  ca_driver : Z;
  ca_device : Z;
  ca_max_tunnel_desc : Z;
  ca_msix_vector : Z;
  ca_virtio_version_1_0 : bool;
  ca_force_in_order : bool;
  ca_xmkey : Z;
  ca_in_recovery : bool
}.

Definition VIRTIO_MSI_NO_VECTOR : Z := 65535.
Inductive snap_virtq_event_mode := SNAP_VIRTQ_NO_MSIX_MODE | SNAP_VIRTQ_MSIX_MODE.

(** The fields of [struct snap_virtio_queue_attr] given to the device. *)
Record snap_virtio_queue_attr := mk_vattr {
  va_ev_mode : snap_virtq_event_mode;
  va_version_1_0 : bool;
  va_idx : Z;
  va_size : Z;
  va_desc : Z;
  va_driver : Z;
  va_device : Z;
  va_hw_available_index : Z;
  va_hw_used_index : Z;
  va_max_tunnel_desc : Z;
  va_event_qpn_or_msix : Z;
  va_dma_mkey : Z
}.

(** [hw_available_index] and [hw_used_index] are the fields of the attributes that
    the caller set just before. *)
Definition virtq_vattr_from_attr (attr : virtq_create_attr) (hw_available_index hw_used_index : Z)
    (max_tunnel_desc : Z) : snap_virtio_queue_attr :=
  mk_vattr (if ca_msix_vector attr =? VIRTIO_MSI_NO_VECTOR then SNAP_VIRTQ_NO_MSIX_MODE else SNAP_VIRTQ_MSIX_MODE)
    (ca_virtio_version_1_0 attr) (u16 (ca_idx attr)) (u16 (ca_queue_size attr)) (ca_desc attr) (ca_driver attr)
    (ca_device attr) hw_available_index hw_used_index (snap_min (ca_max_tunnel_desc attr) max_tunnel_desc)
    (ca_msix_vector attr) 0.

(** The queue of the controller it belongs to. *)
Record ctrl_queue := mk_ctrl_queue {
  cq_log : bool;
  cq_lm : bool;
  cq_map : option snap_dp_bmap;
  cq_detach : bool
}.

(** What the calls of a creation answer: allocations and the objects of the device
    succeed or not, reading the used index from the host gives it or fails, the memory of
    the commands has an address and contents, and the query after the creation
    returns the size of the queue. *)
Record answers := mk_answers {
  an_ctx : bool;
  an_priv : bool;
  an_attr : bool;
  an_dma_q : bool;
  an_used_index : option Z;
  an_pool_enabled : bool;
  an_is_zcopy : option bool;
  an_cmd_arr : bool;
  an_data : option Z;
  an_contents : nat -> list vring_desc;
  an_data_mr : option Z;
  an_fw_create : bool;
  an_fw_query : option Z;
  an_fw_modify : bool
}.

Definition zero_io : io_counter := mk_io 0 0 0 0 0 0 0.

Section Create.
Context (an : answers).

(** [max_tunnel_desc] is the field of [struct virtq_ctx_init_attr]. *)
Definition virtq_ctx_init (vq : ctrl_queue) (attr : virtq_create_attr) (max_tunnel_desc : Z) (live : list rsrc)
    : res (list rsrc * option (virtq_priv * snap_virtio_queue_attr)) :=
  if negb (an_priv an) then Ok (live, None)
  else
    let live := RPriv :: live in
    if negb (an_attr an) then let? live := release_all [RPriv] live in Ok (live, None)
    else
      let live := RAttr :: live in
      if negb (an_dma_q an) then let? live := release_all [RAttr; RPriv] live in Ok (live, None)
      else
        let live := RDmaQ :: live in
        match (if ca_in_recovery attr then an_used_index an else Some 0) with
        | None => let? live := release_all [RDmaQ; RAttr; RPriv] live in Ok (live, None)
        | Some hw_used =>
            let vattr := virtq_vattr_from_attr attr hw_used hw_used max_tunnel_desc in
            let vattr := {| va_ev_mode := va_ev_mode vattr; va_version_1_0 := va_version_1_0 vattr;
                            va_idx := va_idx vattr; va_size := u16 (ca_queue_size attr); va_desc := va_desc vattr;
                            va_driver := va_driver vattr; va_device := va_device vattr;
                            va_hw_available_index := va_hw_available_index vattr;
                            va_hw_used_index := va_hw_used_index vattr;
                            va_max_tunnel_desc := va_max_tunnel_desc vattr;
                            va_event_qpn_or_msix := va_event_qpn_or_msix vattr; va_dma_mkey := ca_xmkey attr |} in
            Ok (live, Some (
              {| swq_state := SW_VIRTQ_RUNNING; fatal_err := false; outstanding_total := 0; outstanding_in_bdev := 0;
                 outstanding_to_host := 0; fatal := 0; seg_max := ca_seg_max attr; size_max := ca_size_max attr;
                 pg_id := 0; ctrl_available_index := hw_used; force_in_order := ca_force_in_order attr;
                 ctrl_used_index := hw_used; zcopy_on := false; merge_descs := false; use_mem_pool := false;
                 thread_id := 0; vq_size := va_size vattr; vq_desc := va_desc vattr; vq_device := va_device vattr;
                 dma_mkey := va_dma_mkey vattr; hw_used_index := va_hw_used_index vattr;
                 log_writes_to_host := cq_log vq; lm_channel := cq_lm vq; dp_map := cq_map vq;
                 pending_bdev_detach := cq_detach vq; uncomp_bdev_cmds := 0; stat_read := zero_io;
                 stat_write := zero_io; stat_flush := zero_io |}, vattr))
        end.

(** A command as [calloc] leaves it. *)
Definition zero_cmd : bcmd :=
  {| cmd_idx := 0; descr_head_idx := 0; num_desc := 0; num_merges := 0; cmd_state := VIRTQ_CMD_STATE_IDLE; buf := 0;
     req_size := 0; aux := 0; aux_src := InQueueData; aux_mr := 0; descs := []; slot_descs := []; mr := 0; req_buf := 0;
     req_mr := 0; dma_count := 0; total_seg_len := 0; total_in_len := 0; use_dmem := false; io_cmd_stat := None;
     cmd_available_index := 0; indirect_pos := 0; indirect_len := 0; use_seg_dmem := false; is_indirect := false;
     impl := mk_blk 0 0 0 false 0 0 0 false 0 [] |}.

(** [contents] is what the memory at [aux_buf] holds. *)
Definition init_blk_virtq_cmd (cmd : bcmd) (idx : nat) (size_max seg_max : Z) (use_pool : bool)
    (data_buf data_mr aux_buf auxmr : Z) (contents : list vring_desc) : bcmd :=
  let cmd := cmd ⦇ cmd_idx := idx ⦈ ⦇ io_cmd_stat := None ⦈ ⦇ cmd_available_index := 0 ⦈
               ⦇ impl := (impl cmd) ⦇ max_iov_cnt := seg_max ⦈ ⦈
               ⦇ aux := aux_buf ⦈ ⦇ aux_mr := auxmr ⦈ ⦇ descs := contents ⦈ in
  if use_pool then cmd
  else cmd ⦇ req_size := u32 (size_max * seg_max) ⦈ ⦇ buf := data_buf ⦈ ⦇ mr := data_mr ⦈.

Definition VIRTIO_BLK_MAX_REQ_DATA : Z := 2 ^ 16 * 2 ^ 6.

(** Sizes computed from 32-bit limits. *)
Definition req_bytes (size_max seg_max : Z) : Z := u32 (size_max * seg_max).
Definition aux_bytes (seg_max : Z) : Z := sizeof_blk_virtq_cmd_aux + u32 (seg_max + 2) * 16.

(** The commands of the array, at [data], [data_size] bytes each. *)
Definition init_cmds (num : nat) (size_max seg_max : Z) (use_pool : bool) (data data_size data_mr : Z) : list bcmd :=
  map (fun i =>
    if use_pool then
      init_blk_virtq_cmd zero_cmd i size_max seg_max use_pool 0 data_mr (data + Z.of_nat i * data_size) data_mr
        (an_contents an i)
    else
      let cmd_data := data + Z.of_nat i * data_size in
      init_blk_virtq_cmd zero_cmd i size_max seg_max use_pool cmd_data data_mr
        (cmd_data + req_bytes size_max seg_max) data_mr (an_contents an i))
    (seq 0 num).

Definition alloc_blk_virtq_cmd_arr (size_max seg_max : Z) (p : virtq_priv) (live : list rsrc)
    : res (list rsrc * option (list bcmd * virtq_priv)) :=
  let size_max := u32 size_max in
  let seg_max := u32 seg_max in
  let num := Z.to_nat (vq_size p) in
  let req_size := req_bytes size_max seg_max in
  if zcopy_on p && (VIRTIO_BLK_MAX_REQ_DATA <? req_size) then Ok (live, None)
  else if negb (an_cmd_arr an) then Ok (live, None)
  else
    let live := RCmdArr :: live in
    let data_size := aux_bytes seg_max + (if use_mem_pool p then 0 else req_size) in
    match an_data an with
    | None => let? live := release_all [RCmdArr] live in Ok (live, None)
    | Some data =>
        let live := RData :: live in
        match an_data_mr an with
        | None => let? live := release_all [RData; RCmdArr] live in Ok (live, None)
        | Some data_mr =>
            let live := RDataMr :: live in
            Ok (live, Some (init_cmds num size_max seg_max (use_mem_pool p) data data_size data_mr,
                            if (num =? 0)%nat then p else p ⦇ merge_descs := true ⦈))
        end
    end.

Definition free_blk_virtq_cmd_arr (live : list rsrc) : res (list rsrc) := release_all [RDataMr; RData; RCmdArr] live.

Definition virtq_ctx_destroy (live : list rsrc) : res (list rsrc) := release_all [RDmaQ; RAttr; RPriv] live.

(** The result is the queue with its attributes, or nothing. *)
Definition blk_virtq_create (vbq : ctrl_queue) (attr : virtq_create_attr) (live : list rsrc)
    : res (list rsrc * option (virtq_priv * snap_virtio_queue_attr * list bcmd)) :=
  if negb (an_ctx an) then Ok (live, None)
  else
    let live := RCtx :: live in
    let? r := virtq_ctx_init vbq attr (u16 (ca_seg_max attr + 2)) live in
    match r with
    | (live, None) => let? live := release_all [RCtx] live in Ok (live, None)
    | (live, Some (p, vattr)) =>
        let p := p ⦇ use_mem_pool := an_pool_enabled an ⦈ in
        let p := match an_is_zcopy an with Some z => p ⦇ zcopy_on := z ⦈ | None => p end in
        let? r := alloc_blk_virtq_cmd_arr (ca_size_max attr) (ca_seg_max attr) p live in
        match r with
        | (live, None) =>
            let? live := virtq_ctx_destroy live in
            let? live := release_all [RCtx] live in Ok (live, None)
        | (live, Some (cmds, p)) =>
            let fail live :=
              let? live := free_blk_virtq_cmd_arr live in
              let? live := virtq_ctx_destroy live in
              let? live := release_all [RCtx] live in Ok (live, None) in
            if negb (an_fw_create an) then fail live
            else
              let live := RFwQueue :: live in
              match an_fw_query an with
              | None => let? live := release_all [RFwQueue] live in fail live
              | Some size =>
                  let p := p ⦇ vq_size := size ⦈ in
                  if negb (an_fw_modify an) then let? live := release_all [RFwQueue] live in fail live
                  else Ok (live, Some (p, vattr, cmds))
              end
        end
    end.

Definition blk_virtq_destroy (live : list rsrc) : res (list rsrc) :=
  let? live := release_all [RFwQueue] live in
  let? live := free_blk_virtq_cmd_arr live in
  let? live := virtq_ctx_destroy live in
  release_all [RCtx] live.

End Create.

(** * Properties *)

(** Creating a queue always returns; a creation that fails at any point releases
    everything it acquired, and destroying a created queue releases the rest. *)
Theorem create_balanced an vbq attr live :
  exists live' r, blk_virtq_create an vbq attr live = Ok (live', r) /\
    match r with None => live' = live | Some _ => blk_virtq_destroy live' = Ok live end.
Proof.
  unfold blk_virtq_create, virtq_ctx_init, alloc_blk_virtq_cmd_arr, blk_virtq_destroy, free_blk_virtq_cmd_arr, virtq_ctx_destroy.
  destruct (an_ctx an), (an_priv an), (an_attr an), (an_dma_q an); cbn [negb]; try (do 2 eexists; split; reflexivity).
  destruct (if ca_in_recovery attr then _ else _) as [used|]; [|do 2 eexists; split; reflexivity].
  cbn [res_bind]. destruct (_ && _); [do 2 eexists; split; reflexivity|].
  destruct (an_cmd_arr an); cbn [negb]; [|do 2 eexists; split; reflexivity].
  destruct (an_data an); [|do 2 eexists; split; reflexivity].
  destruct (an_data_mr an); [|do 2 eexists; split; reflexivity]. cbn [res_bind].
  destruct (an_fw_create an); cbn [negb]; [|do 2 eexists; split; reflexivity].
  destruct (an_fw_query an); [|do 2 eexists; split; reflexivity].
  destruct (an_fw_modify an); do 2 eexists; split; reflexivity.
Qed.

(** What a successful creation gives. *)
Lemma create_some an vbq attr live live' p vattr cmds :
  blk_virtq_create an vbq attr live = Ok (live', Some (p, vattr, cmds)) ->
  exists data data_mr size used,
    an_data an = Some data /\ an_data_mr an = Some data_mr /\ an_fw_query an = Some size /\
    (if ca_in_recovery attr then an_used_index an else Some 0) = Some used /\
    let size_max := u32 (ca_size_max attr) in
    let seg_max := u32 (ca_seg_max attr) in
    let pool := an_pool_enabled an in
    cmds = init_cmds an (Z.to_nat (u16 (ca_queue_size attr))) size_max seg_max pool data
             (aux_bytes seg_max + (if pool then 0 else req_bytes size_max seg_max)) data_mr /\
    swq_state p = SW_VIRTQ_RUNNING /\ outstanding_total p = 0 /\ outstanding_in_bdev p = 0 /\
    outstanding_to_host p = 0 /\ fatal p = 0 /\ use_mem_pool p = pool /\ vq_size p = size /\
    force_in_order p = ca_force_in_order attr /\ log_writes_to_host p = cq_log vbq /\ lm_channel p = cq_lm vbq /\
    ctrl_available_index p = used /\ ctrl_used_index p = used.
Proof.
  unfold blk_virtq_create, virtq_ctx_init, alloc_blk_virtq_cmd_arr.
  destruct (an_ctx an), (an_priv an), (an_attr an), (an_dma_q an); cbn [negb]; try done.
  destruct (if ca_in_recovery attr then _ else _) as [used|]; [|done].
  cbn [res_bind]. destruct (_ && _); [done|]. destruct (an_cmd_arr an); cbn [negb]; [|done].
  destruct (an_data an) as [data|]; [|done]. destruct (an_data_mr an) as [key|]; [|done]. cbn [res_bind].
  destruct (an_fw_create an); cbn [negb]; [|done]. destruct (an_fw_query an) as [size|]; [|done].
  destruct (an_fw_modify an); [|done]. cbn [negb]. intros [= <- <- <- <-].
  exists data, key, size, used. do 4 (split; [done|]). cbn zeta.
  destruct (an_is_zcopy an), (_ =? 0)%nat; split_and!; reflexivity.
Qed.

(** The memory of a command: its request data and its descriptors with their header. *)
Definition data_range (size_max seg_max : Z) (pool : bool) (c : bcmd) : Z * Z :=
  (buf c, if pool then 0 else req_bytes size_max seg_max).
Definition aux_range (seg_max : Z) (c : bcmd) : Z * Z := (aux c, aux_bytes seg_max).

Definition disjoint (r1 r2 : Z * Z) : Prop := fst r1 + snd r1 <= fst r2 \/ fst r2 + snd r2 <= fst r1.
Definition inside (r1 r2 : Z * Z) : Prop := fst r2 <= fst r1 /\ fst r1 + snd r1 <= fst r2 + snd r2.

Lemma init_cmds_lookup an num size_max seg_max pool data dsz key i c :
  init_cmds an num size_max seg_max pool data dsz key !! i = Some c ->
  (i < num)%nat /\ cmd_idx c = i /\ cmd_state c = 0 /\ aux_src c = InQueueData /\ use_seg_dmem c = false /\
  descs c = an_contents an i /\ slot_descs c = [] /\
  aux c = data + Z.of_nat i * dsz + (if pool then 0 else req_bytes size_max seg_max) /\
  (pool = false -> buf c = data + Z.of_nat i * dsz /\ req_size c = req_bytes size_max seg_max).
Proof.
  unfold init_cmds. rewrite list_lookup_fmap. destruct (decide (i < num)%nat) as [Hi|Hi].
  - rewrite lookup_seq_lt by done. cbn [fmap option_fmap option_map]. rewrite Nat.add_0_l. intros [= <-].
    destruct pool; split_and!; try done; cbn; lia.
  - rewrite lookup_seq_ge by lia. done.
Qed.

Lemma bytes_nonneg size_max seg_max : 0 <= req_bytes size_max seg_max /\ 16 <= aux_bytes seg_max.
Proof.
  unfold req_bytes, aux_bytes, sizeof_blk_virtq_cmd_aux.
  pose proof (u32_range (size_max * seg_max)). pose proof (u32_range (seg_max + 2)). lia.
Qed.

(** C32: the commands of a created queue get disjoint pieces of the memory of the queue,
    for the data of a request and for its descriptors, also when the product of the limits
    overflows its 32 bits: the size recorded in the command is that of its piece. *)
Theorem cmd_memory_disjoint an vbq attr live live' p vattr cmds data
    (Hcreate : blk_virtq_create an vbq attr live = Ok (live', Some (p, vattr, cmds)))
    (Hdata : an_data an = Some data) :
  let size_max := u32 (ca_size_max attr) in
  let seg_max := u32 (ca_seg_max attr) in
  let pool := an_pool_enabled an in
  let dsz := aux_bytes seg_max + (if pool then 0 else req_bytes size_max seg_max) in
  let block := (data, Z.of_nat (length cmds) * dsz) in
  (forall i c, cmds !! i = Some c ->
     inside (aux_range seg_max c) block /\
     (pool = false -> req_size c = req_bytes size_max seg_max /\
        inside (data_range size_max seg_max pool c) block /\
        disjoint (data_range size_max seg_max pool c) (aux_range seg_max c))) /\
  (forall i j ci cj, i <> j -> cmds !! i = Some ci -> cmds !! j = Some cj ->
     disjoint (aux_range seg_max ci) (aux_range seg_max cj) /\
     (pool = false ->
        disjoint (data_range size_max seg_max pool ci) (data_range size_max seg_max pool cj) /\
        disjoint (data_range size_max seg_max pool ci) (aux_range seg_max cj))).
Proof.
  destruct (create_some _ _ _ _ _ _ _ _ Hcreate) as (data' & key & size & used & Hd & _ & _ & _ & Hcmds & _).
  cbn zeta in *. simplify_eq. clear Hcreate.
  set (sm := u32 (ca_size_max attr)). set (sg := u32 (ca_seg_max attr)). set (pool := an_pool_enabled an).
  destruct (bytes_nonneg sm sg) as [Hr Ha]. set (rb := req_bytes sm sg) in *. set (ab := aux_bytes sg) in *.
  set (dsz := ab + (if pool then 0 else rb)). set (num := Z.to_nat (u16 (ca_queue_size attr))).
  assert (length (init_cmds an num sm sg pool data dsz key) = num) as Hlen.
  { unfold init_cmds. by rewrite length_map, length_seq. }
  assert (0 < dsz) as Hpos by (unfold dsz; destruct pool; lia).
  rewrite Hlen. unfold inside, disjoint, data_range, aux_range. cbn [fst snd]. split.
  - intros i c Hc. apply init_cmds_lookup in Hc as (Hi & _ & _ & _ & _ & _ & _ & Haux & Hbuf). fold rb in Haux, Hbuf. fold rb ab.
    assert (Z.of_nat i * dsz + dsz <= Z.of_nat num * dsz) by nia. rewrite Haux. unfold dsz in *.
    destruct pool; (split; [nia|]); [done|]. intros _. destruct (Hbuf eq_refl) as [-> ->]. split_and!; nia.
  - intros i j ci cj Hij Hci Hcj. apply init_cmds_lookup in Hci as (Hi & _ & _ & _ & _ & _ & _ & Hauxi & Hbufi).
    apply init_cmds_lookup in Hcj as (Hj & _ & _ & _ & _ & _ & _ & Hauxj & Hbufj). fold rb in Hauxi, Hbufi, Hauxj, Hbufj. fold rb ab.
    assert (Z.of_nat i * dsz + dsz <= Z.of_nat j * dsz \/ Z.of_nat j * dsz + dsz <= Z.of_nat i * dsz) as Hord.
    { destruct (decide (i < j)%nat); [left|right]; nia. }
    rewrite Hauxi, Hauxj. unfold dsz in *. destruct pool; (split; [lia|]); [done|].
    intros _. destruct (Hbufi eq_refl) as [-> _], (Hbufj eq_refl) as [-> _]. lia.
Qed.

(** A queue of four commands whose limits overflow 32 bits. *)
Definition attr4 : virtq_create_attr :=
  mk_create_attr 0 (2 ^ 31 - 1) 126 4 4096 8192 12288 16 VIRTIO_MSI_NO_VECTOR true true 77 false.
Definition answers4 : answers :=
  mk_answers true true true true None false None true (Some (2 ^ 40)) (fun _ => repeat zero_desc 128) (Some 5) true (Some 4) true.
Definition ctrl4 : ctrl_queue := mk_ctrl_queue false false None false.

Lemma cmd_memory_disjoint_witness :
  exists live p vattr cmds, blk_virtq_create answers4 ctrl4 attr4 [] = Ok (live, Some (p, vattr, cmds)) /\
  exists c0 c1, cmds !! 0%nat = Some c0 /\ cmds !! 1%nat = Some c1 /\
    disjoint (aux_range (u32 126) c0) (aux_range (u32 126) c1).
Proof.
  do 4 eexists. split; [reflexivity|]. do 2 eexists. split; [reflexivity|]. split; [reflexivity|].
  refine (proj1 (proj2 (cmd_memory_disjoint answers4 ctrl4 attr4 [] _ _ _ _ (2 ^ 40) eq_refl eq_refl) 0%nat 1%nat _ _ _ eq_refl eq_refl)).
  done.
Defined.

(** ** The created queue *)

(** What is assumed of a creation: queue and segment sizes of the virtio range, memory
    for the descriptors of a command, a device that reports the configured size, and
    dirty pages logged through the migration channel, if at all. *)
Record create_ok (an : answers) (vbq : ctrl_queue) (attr : virtq_create_attr) : Prop := {
  ck_size : 0 < ca_queue_size attr < 2 ^ 16;
  ck_contents i : Z.of_nat (length (an_contents an i)) = ca_seg_max attr + 2;
  ck_seg : 0 <= ca_seg_max attr <= 2 ^ 16 - 2;
  ck_query : an_fw_query an = None \/ an_fw_query an = Some (ca_queue_size attr);
  ck_log : cq_log vbq = true -> cq_lm vbq = true;
}.

Lemma created_queue_ok {E} an vbq attr live live' p vattr cmds (w : world E) :
  create_ok an vbq attr -> blk_virtq_create an vbq attr live = Ok (live', Some (p, vattr, cmds)) ->
  in_dma w = [] -> in_bdev w = [] -> in_pool w = [] -> no_refused w ->
  vq_ok (mk_virtq w p cmds).
Proof.
  intros [Hsz Hcont Hseg Hq Hlog] Hcreate Hd Hb Hp Hnr.
  destruct (create_some _ _ _ _ _ _ _ _ Hcreate) as
    (data & key & size & used & _ & _ & Hfw & _ & Hcmds & Hsw & Ht & Hbd & Hh & Hf & Hpool & Hvs & Hord & Hl & Hc & _).
  cbn zeta in *. clear Hcreate. assert (size = ca_queue_size attr) as -> by (destruct Hq; congruence).
  rewrite (u16_small (ca_queue_size attr)) in Hcmds by lia.
  assert (length cmds = Z.to_nat (ca_queue_size attr)) as Hlen.
  { rewrite Hcmds. unfold init_cmds. by rewrite length_map, length_seq. }
  assert (forall i c, cmds !! i = Some c -> cmd_idx c = i /\ cmd_state c = 0 /\ mem_ok p c /\ aux_src c = InQueueData) as Hall.
  { intros i c Hi. rewrite Hcmds in Hi. apply init_cmds_lookup in Hi as (_ & Hidx & Hst & Ha & Hu & Hds & Hsl & _).
    split_and!; try done. unfold mem_ok. rewrite Hds, Hsl, Ha, Hu, Hvs, Hcont. cbn [length]. split; [lia|]. by destruct (use_mem_pool p). }
  assert (forall f : bcmd -> Z, (forall i c, cmds !! i = Some c -> f c = 0) -> sum_cmds f cmds = 0) as Hsum.
  { clear. intros f. unfold sum_cmds. induction cmds as [|c l IH]; intros Hf; [done|]. rewrite map_cons, sumZ_cons.
    rewrite (Hf 0%nat c) by done. rewrite IH; [done|]. intros i c' Hi. by apply (Hf (S i)). }
  assert (forall j, n_dma w j = 0%nat /\ n_bdev w j = 0%nat /\ n_pool w j = 0%nat) as Hn.
  { intros j. unfold n_dma, n_bdev, n_pool. by rewrite Hd, Hb, Hp. }
  split; [|done|cbn; by rewrite Hsw].
  split; cbn [qw qp cmd_arr]; auto.
  - lia.
  - lia.
  - intros i c Hi. by apply Hall.
  - intros i c Hi. destruct (Hall i c Hi) as (Hidx & Hst & Hm & Ha).
    split_and!; [done|unfold dirty_ok; by rewrite Hl, Hc|lia|]. left. split_and!; [by left|done|apply Hn..].
  - rewrite Hsum, Hh; [done|]. intros i c Hi. destruct (Hall i c Hi) as (_ & Hst & _). unfold host_c. by rewrite Hst.
  - rewrite Hsum, Hbd; [done|]. intros i c Hi. unfold bdev_c. destruct (Hn (cmd_idx c)) as (_ & -> & _). done.
  - rewrite Hsum, Ht; [done|]. intros i c Hi. destruct (Hall i c Hi) as (_ & Hst & _). unfold total_c. by rewrite Hst.
  - rewrite Hsum, Hf; [done|]. intros i c Hi. destruct (Hall i c Hi) as (_ & Hst & _). unfold fatal_c. by rewrite Hst.
Qed.
