(* ===== verification/VirtqProps.v ===== *)
(** Properties of a created block virtqueue in every state it reaches, in runs in
    which the DMA queue takes every data write. *)

From S2P Require Import Prelude BlkDescs DpMap Virtq BlkVirtq VirtqInv VirtqSys BlkCreate.

(** * Counting *)

Lemma filter_all {A} (P : A -> Prop) `{forall x, Decision (P x)} (l : list A) :
  (forall x, In x l -> P x) -> base.filter P l = l.
Proof.
  induction l as [|x l IH]; intros Hp; [done|]. rewrite filter_cons_True by (apply Hp; by left).
  f_equal. apply IH. intros y Hy. apply Hp. by right.
Qed.

Lemma sum_count_occ (l : list nat) (cmds : list bcmd) : forall n,
  (forall i c, cmds !! i = Some c -> cmd_idx c = (n + i)%nat) ->
  sum_cmds (fun c => Z.of_nat (count_occ Nat.eq_dec l (cmd_idx c))) cmds =
    Z.of_nat (length (base.filter (fun x => (n <= x < n + length cmds)%nat) l)).
Proof.
  induction l as [|x l IHl]; intros n Hidx.
  - cbn [count_occ]. clear Hidx. unfold sum_cmds. induction cmds as [|c cmds IH]; [done|]. rewrite map_cons, sumZ_cons, IH. done.
  - rewrite filter_cons. specialize (IHl n Hidx).
    assert (sum_cmds (fun c => Z.of_nat (count_occ Nat.eq_dec (x :: l) (cmd_idx c))) cmds =
      sum_cmds (fun c => Z.of_nat (count_occ Nat.eq_dec l (cmd_idx c))) cmds +
      (if decide (n <= x < n + length cmds)%nat then 1 else 0)) as ->.
    { clear IHl. revert n Hidx. unfold sum_cmds. induction cmds as [|c cmds IH]; intros n Hidx; [destruct (decide _); cbn in *; [lia|done]|].
      rewrite !map_cons, !sumZ_cons. cbn [length].
      rewrite (IH (S n)) by (intros i c' Hi; rewrite (Hidx (S i) c' Hi); lia).
      pose proof (Hidx 0%nat c eq_refl) as Hc. cbn [count_occ]. destruct (Nat.eq_dec x (cmd_idx c)) as [Hx|Hx];
        repeat (destruct (decide _)); lia. }
    rewrite IHl. destruct (decide _); cbn [length]; lia.
Qed.

Section Props.
Context {E : Type} `{Env E} `{BlkConfig} `{!BdevLaws E}.
#[local] Abbreviation vq := (virtq E blk_virtq_cmd).

(** A queue reached from a creation. *)
Definition reached (an : answers) (vbq : ctrl_queue) (attr : virtq_create_attr) (q : vq) : Prop :=
  create_ok an vbq attr /\
  exists e live live' p vattr cmds, blk_virtq_create an vbq attr live = Ok (live', Some (p, vattr, cmds)) /\
    star vq_step (mk_virtq (mk_world e [] [] [] []) p cmds) q.

Lemma reached_ok an vbq attr q : reached an vbq attr q -> vq_ok q.
Proof.
  intros (Hck & e & live & live' & p & vattr & cmds & Hcr & Hs). eapply steps_ok; [|exact Hs].
  eapply created_queue_ok; eauto. constructor.
Qed.

Definition count_cmds (P : bcmd -> bool) (q : vq) : Z := Z.of_nat (length (base.filter (fun c => P c = true) (cmd_arr q))).

Lemma sum_indicator (P : bcmd -> bool) (l : list bcmd) :
  sum_cmds (fun c => if P c then 1 else 0) l = Z.of_nat (length (base.filter (fun c => P c = true) l)).
Proof.
  induction l as [|c l IH]; [done|]. unfold sum_cmds in *. rewrite map_cons, sumZ_cons, IH, filter_cons.
  destruct (P c); [rewrite decide_True by done|rewrite decide_False by done]; cbn [length]; lia.
Qed.

Lemma sum_bound (f : bcmd -> Z) (l : list bcmd) :
  (forall i c, l !! i = Some c -> 0 <= f c <= 1) -> 0 <= sum_cmds f l <= Z.of_nat (length l).
Proof.
  unfold sum_cmds. induction l as [|c l IH]; intros Hf; [cbn; lia|]. rewrite map_cons, sumZ_cons. cbn [length].
  pose proof (Hf 0%nat c eq_refl). assert (0 <= sumZ (map f l) <= Z.of_nat (length l)); [|lia].
  apply IH. intros i c' Hi. by apply (Hf (S i)).
Qed.

Lemma counter_exact (f : bcmd -> Z) (P : bcmd -> bool) (q : vq) :
  vq_inv q -> (forall i c, cmd_arr q !! i = Some c -> f c = if P c then 1 else 0) ->
  u32 (sum_cmds f (cmd_arr q)) = count_cmds P q.
Proof.
  intros Hinv Hf. assert (sum_cmds f (cmd_arr q) = sum_cmds (fun c => if P c then 1 else 0) (cmd_arr q)) as ->.
  { unfold sum_cmds. f_equal. apply list_eq. intros i. rewrite !list_lookup_fmap.
    destruct (cmd_arr q !! i) as [c|] eqn:Hc; [|done]. cbn. f_equal. by apply (Hf i). }
  rewrite sum_indicator. unfold count_cmds. rewrite u32_small; [done|].
  pose proof (vi_len _ Hinv). pose proof (length_filter (fun c => P c = true) (cmd_arr q)). lia.
Qed.

(** The command has operations of the DMA queue that will call back. *)
Definition awaits_dma (q : vq) (c : bcmd) : bool :=
  ((cmd_state c =? VIRTQ_CMD_STATE_FETCH_CMD_DESCS) || (cmd_state c =? VIRTQ_CMD_STATE_PARSE_HEADER) ||
   (cmd_state c =? VIRTQ_CMD_STATE_HANDLE_REQ) || (cmd_state c =? VIRTQ_CMD_STATE_WRITE_STATUS)) &&
  (n_bdev (qw q) (cmd_idx c) =? 0)%nat && (n_pool (qw q) (cmd_idx c) =? 0)%nat.

Definition active (c : bcmd) : bool :=
  negb ((cmd_state c =? VIRTQ_CMD_STATE_IDLE) || (cmd_state c =? VIRTQ_CMD_STATE_RELEASE)).

(** C2: The counters of a block queue are exact as long as the DMA queue has accepted every
    write of data.  In every state a created queue reaches in such a run (the host uses a
    slot again only after its completion, a queue that logs the writes of the device has a
    migration channel, the device reports the size that was asked for, the block size is
    not 0), each command is free, failed for good, or waits for exactly the operations it
    has in flight, and the four counters of the queue are exact: active commands,
    operations in the block device, commands that wait for the DMA queue, failed commands. 
    (A refused write is not counted back: snap_virtio_blk_virtq.c:926.) *)
Theorem queue_counters_exact an vbq attr q
    (Hreach : reached an vbq attr q) :
  (forall i c, cmd_arr q !! i = Some c -> settled (qw q) (qp q) c) /\
  outstanding_total (qp q) = count_cmds active q /\
  outstanding_in_bdev (qp q) = Z.of_nat (length (in_bdev (qw q))) /\
  outstanding_to_host (qp q) = count_cmds (awaits_dma q) q /\
  fatal (qp q) = count_cmds (fun c => cmd_state c =? VIRTQ_CMD_STATE_FATAL_ERR) q.
Proof.
  pose proof (reached_ok _ _ _ _ Hreach) as [Hinv _ _]. pose proof (vi_len _ Hinv) as Hlen. split_and!.
  - apply (vi_settled _ Hinv).
  - rewrite (vi_total _ Hinv). apply counter_exact; [done|]. intros i c _. unfold total_c, active. by destruct (_ || _).
  - rewrite (vi_bdev _ Hinv). unfold bdev_c, n_bdev. rewrite (sum_count_occ _ _ 0) by (intros i c Hc; by apply (vi_idx _ Hinv)).
    assert (base.filter (fun x => (0 <= x < 0 + length (cmd_arr q))%nat) (in_bdev (qw q)) = in_bdev (qw q)) as Hall.
    { apply filter_all. intros x Hx%(count_occ_In Nat.eq_dec).
      destruct (decide (x < length (cmd_arr q))%nat); [lia|]. destruct (vi_none _ Hinv x) as (_ & Hn & _); [lia|].
      unfold n_bdev in Hn. lia. }
    rewrite Hall.
    apply u32_small. pose proof (sum_bound (bdev_c (qw q)) (cmd_arr q)) as Hb. unfold bdev_c, n_bdev in Hb.
    rewrite (sum_count_occ _ _ 0), Hall in Hb by (intros i c Hc; by apply (vi_idx _ Hinv)).
    assert (Z.of_nat (length (in_bdev (qw q))) <= Z.of_nat (length (cmd_arr q))); [|lia]. apply Hb.
    intros i c Hc. pose proof (bdev_waiter _ _ _ (vi_settled _ Hinv _ _ Hc)) as Hw. unfold n_bdev in Hw.
    destruct (decide (count_occ Nat.eq_dec (in_bdev (qw q)) (cmd_idx c) = 0%nat)); [lia|].
    destruct (Hw ltac:(done)) as (_ & _ & _ & _ & Hone). unfold n_bdev in Hone. lia.
  - rewrite (vi_host _ Hinv). apply counter_exact; [done|]. intros i c _. unfold host_c, awaits_dma. done.
  - rewrite (vi_fatal _ Hinv). apply counter_exact; [done|]. done.
Qed.

(** C16: A queue that has been suspended and whose commands did not fail serves no command
    and has nothing in flight, so that the memory of its commands may be freed; the runs
    are those in which the DMA queue accepts every write of data. *)
Theorem suspended_queue_idle an vbq attr q
    (Hreach : reached an vbq attr q)
    (Hsusp : virtq_is_suspended q = true)
    (Hfatal : fatal (qp q) = 0) :
  (forall i c, cmd_arr q !! i = Some c ->
     cmd_state c = VIRTQ_CMD_STATE_IDLE \/ cmd_state c = VIRTQ_CMD_STATE_RELEASE) /\
  in_dma (qw q) = [] /\ in_bdev (qw q) = [] /\ in_pool (qw q) = [].
Proof.
  destruct (reached_ok _ _ _ _ Hreach) as [Hinv _ Hs]. apply bool_decide_eq_true in Hsusp.
  destruct (Hs Hsusp) as [Hd|Hd]; [|by apply (fatal_zero _ Hinv) in Hd].
  split; [exact Hd|by apply drained_quiet].
Qed.


(** Completing the commands that wait for their turn terminates in every reachable
    state, without undefined behaviour. *)
Theorem progress_unordered_returns an vbq attr q
    (Hreach : reached an vbq attr q) :
  exists q', virtq_progress_unordered q = Ok q' /\ swq_state (qp q') = swq_state (qp q).
Proof.
  destruct (reached_ok _ _ _ _ Hreach) as [Hinv Hnr _].
  destruct (progress_unordered_ok q Hinv Hnr) as (q' & ? & _ & _ & ? & _). eauto.
Qed.

End Props.

(** * A concrete run *)

Module Run.

(** Surroundings in which every call succeeds. *)
#[export] Instance env_ok : Env unit :=
  fun e op =>
    (e, match op with
        | BdevBlockSize => 512
        | BdevNumBlocks => 2 ^ 20
        | DmaMalloc _ | Calloc _ | RegMr _ _ => 4096
        | _ => 0
        end).

#[export] Instance bdev_ok : BdevLaws unit.
Proof. intros e e' r. unfold call, env_ok. by intros [= <- <-]. Qed.

#[export] Instance config : BlkConfig := {| provider := SNAP_HW_Q_PROVIDER; has_zcopy_validate := false |}.

Abbreviation vq := (virtq unit blk_virtq_cmd).

(** A queue of four commands with a segment limit of 6. *)
Definition attr : virtq_create_attr :=
  mk_create_attr 0 4096 6 4 4096 8192 12288 16 VIRTIO_MSI_NO_VECTOR true true 77 false.
Definition answers : answers :=
  mk_answers true true true true None false None true (Some (2 ^ 40)) (fun _ => repeat zero_desc 8) (Some 5) true (Some 4) true.
Definition vbq : ctrl_queue := mk_ctrl_queue false false None false.

Lemma creation_ok : create_ok answers vbq attr.
Proof. split; try done. by right. Qed.

Definition q0 : vq :=
  match blk_virtq_create answers vbq attr [] with
  | Ok (_, Some (p, _, cmds)) => mk_virtq (mk_world tt [] [] [] []) p cmds
  | _ => mk_virtq (mk_world tt [] [] [] []) (mk_priv SW_VIRTQ_RUNNING false 0 0 0 0 0 0 0 0 false 0 false false false 0 0 0 0 0 0 false false None false 0 zero_io zero_io zero_io) []
  end.

(** A read of 1024 bytes, sent with its three descriptors. *)
Definition request : tunnel_req :=
  mk_req 2 3 0 [mk_desc 1000 16 VRING_DESC_F_NEXT 1; mk_desc 5000 1024 (VRING_DESC_F_NEXT + VRING_DESC_F_WRITE) 2;
                mk_desc 9000 1 VRING_DESC_F_WRITE 0] [].

Definition run {A} (r : res (vq * A)) (d : vq) : vq := match r with Ok (q, _) => q | _ => d end.

(** The header arrives, the device answers, the data is written. *)
Definition q1 : vq := run (blk_virtq_rx_cb q0 request) q0.
Definition q2 : vq := run (on_cmd (q1 ⦇ qw := (qw q1) ⦇ in_dma := [] ⦈ ⦈) 0 (dma_done (ReadHeader VIRTIO_BLK_T_IN 8) VIRTQ_CMD_SM_OP_OK)) q1.
Definition q3 : vq := run (on_cmd (q2 ⦇ qw := (qw q2) ⦇ in_bdev := [] ⦈ ⦈) 0 (fun s => bdev_io_comp_cb s true)) q2.
Definition q4 : vq := run (on_cmd (q3 ⦇ qw := (qw q3) ⦇ in_dma := [] ⦈ ⦈) 0 (dma_done ReadBulk VIRTQ_CMD_SM_OP_OK)) q3.

(** The run, event by event; the queue is then suspended. *)
Definition q5 : vq := fst (virtq_suspend q4).
Definition q6 : vq := match virtq_progress (fun q => Ok q) (fun q => Ok q) q5 0 with Ok q => q | _ => q5 end.

Lemma nothing_runs : runs_events (fun q : vq => Ok q).
Proof. intros q q' [= <-]. apply star_refl. Qed.

Lemma no_refused_run (q : vq) : forallb (fun x => match fst x with DmaWrite _ _ _ _ _ _ => snd x =? 0 | _ => true end) (trace (qw q)) = true -> no_refused (qw q).
Proof.
  unfold no_refused. induction (trace (qw q)) as [|[op r] l IH]; cbn [forallb]; [by constructor|].
  rewrite andb_true_iff. intros [Hx Hl]. constructor; [|auto]. destruct op; try done. by apply Z.eqb_eq in Hx.
Qed.

Lemma run_q1 : vq_step q0 q1.
Proof.
  apply vs_event. split; [|by apply no_refused_run; vm_compute]. apply (ev_rx q0 request q1 true); [done| |by vm_compute].
  eexists. split; [by vm_compute|by left].
Qed.

Lemma run_q2 : vq_step q1 q2.
Proof.
  apply vs_event. split; [|by apply no_refused_run; vm_compute].
  apply (ev_dma q1 0 [] [] (ReadHeader VIRTIO_BLK_T_IN 8) VIRTQ_CMD_SM_OP_OK q2); by vm_compute.
Qed.

Lemma run_q3 : vq_step q2 q3.
Proof.
  apply vs_event. split; [|by apply no_refused_run; vm_compute]. apply (ev_bdev q2 0 [] [] true q3); by vm_compute.
Qed.

Lemma run_q4 : vq_step q3 q4.
Proof.
  apply vs_event. split; [|by apply no_refused_run; vm_compute].
  apply (ev_dma q3 0 [] [] ReadBulk VIRTQ_CMD_SM_OP_OK q4); by vm_compute.
Qed.

Lemma run_q6 : vq_step q5 q6.
Proof.
  apply (vs_progress q5 (fun q => Ok q) (fun q => Ok q) 0 q6); [apply nothing_runs..|by vm_compute|by apply no_refused_run; vm_compute].
Qed.

Lemma reached_from q : star vq_step q0 q -> reached answers vbq attr q.
Proof.
  intros Hs. split; [apply creation_ok|]. exists tt, []. do 4 eexists. split; [reflexivity|]. exact Hs.
Qed.

Lemma reached_q1 : reached answers vbq attr q1.
Proof. apply reached_from. eapply star_step; [apply run_q1|apply star_refl]. Qed.

Lemma reached_q2 : reached answers vbq attr q2.
Proof. apply reached_from. eapply star_step; [apply run_q1|]. eapply star_step; [apply run_q2|apply star_refl]. Qed.

Lemma reached_q6 : reached answers vbq attr q6.
Proof.
  apply reached_from. eapply star_step; [apply run_q1|]. eapply star_step; [apply run_q2|].
  eapply star_step; [apply run_q3|]. eapply star_step; [apply run_q4|]. eapply star_step; [apply vs_suspend|].
  eapply star_step; [apply run_q6|apply star_refl].
Qed.

(** The calls of the whole request, in order. *)
Example read_trace :
  trace (qw q4) =
    [(DmaRead 0 1099511652352 16 5 1000 77, 0); (BdevRead 0 1099511627776 4096 1024 0, 0);
     (DmaWrite 0 1099511627776 1024 5 5000 77, 0); (DmaWriteShort (PStatus 0) 1 9000 77, 0);
     (DmaSendCompletion 2 1025, 0)].
Proof. vm_compute. reflexivity. Qed.

Lemma queue_counters_exact_witness :
  outstanding_in_bdev (qp q2) = 1 /\ outstanding_in_bdev (qp q2) = Z.of_nat (length (in_bdev (qw q2))).
Proof.
  split; [vm_compute; reflexivity|]. exact (proj1 (proj2 (proj2 (queue_counters_exact answers vbq attr q2 reached_q2)))).
Defined.

Lemma suspended_queue_idle_witness :
  swq_state (qp q6) = SW_VIRTQ_SUSPENDED /\ in_dma (qw q6) = [].
Proof.
  split; [vm_compute; reflexivity|].
  refine (proj1 (proj2 (suspended_queue_idle answers vbq attr q6 reached_q6 _ _))); vm_compute; reflexivity.
Defined.


Lemma progress_unordered_returns_witness :
  exists q', virtq_progress_unordered q2 = Ok q' /\ swq_state (qp q') = swq_state (qp q2).
Proof. exact (progress_unordered_returns answers vbq attr q2 reached_q2). Defined.

End Run.
