(* ===== verification/VirtqOrder.v ===== *)
(** The order of completions: when the queue forces it, commands are completed in the
    order in which they were received. *)

From S2P Require Import Prelude BlkDescs DpMap Virtq BlkVirtq VirtqInv VirtqSys BlkCreate VirtqProps.

(** * The completions sent *)

(** The completion a call makes: the command of an accepted completion message, or of
    an accepted entry of the used ring. *)
Definition comp_of (x : ext_op * Z) : option Z :=
  match fst x with
  | DmaSendCompletion h _ | DpaComplete h _ | DmaWriteShort (PUsedElem h _) _ _ _ => if snd x =? 0 then Some h else None
  | _ => None
  end.

Definition completions {E} (w : world E) : list Z := omap comp_of (trace w).

Definition is_comp (op : ext_op) : bool :=
  match op with DmaSendCompletion _ _ | DpaComplete _ _ | DmaWriteShort (PUsedElem _ _) _ _ _ => true | _ => false end.

Section Calm.
Context {E : Type} `{Env E} `{BlkConfig}.
#[local] Abbreviation st := (vst E blk_virtq_cmd).

Lemma called_completions op ret (w w' : world E) :
  called op ret w w' -> completions w' = completions w ++ match comp_of (op, ret) with Some h => [h] | None => [] end.
Proof. intros Hc. unfold completions. rewrite (called_trace _ _ _ _ Hc), omap_app. cbn. by destruct (comp_of (op, ret)). Qed.

Lemma called_calm op ret (w w' : world E) : called op ret w w' -> is_comp op = false -> completions w' = completions w.
Proof.
  intros Hc Hop. rewrite (called_completions _ _ _ _ Hc). assert (comp_of (op, ret) = None) as ->; [|by rewrite app_nil_r].
  destruct op; try done. by destruct data.
Qed.

(** Nothing was completed, and the command did not become free. *)
Definition calm (s s' : st) : Prop :=
  completions (vw s') = completions (vw s) /\ ctrl_used_index (vp s') = ctrl_used_index (vp s) /\
  (cmd_state (vc s') = cmd_state (vc s) \/ 1 <= cmd_state (vc s') <= 9 \/ cmd_state (vc s') = 12).

Definition calm_res {A} (s : st) (r : res (st * A)) : Prop := match r with Ok (s', _) => calm s s' | _ => True end.

Lemma calm_trans s1 s2 s3 : calm s1 s2 -> calm s2 s3 -> calm s1 s3.
Proof. intros (? & ? & ?) (? & ? & ?). split_and!; [congruence|congruence|lia]. Qed.

Lemma calm_refl s : calm s s.
Proof. by split_and!; [| |left]. Qed.

End Calm.

(** Run a function whose calls complete nothing. *)
Ltac calm_end :=
  repeat match goal with Hc : called ?op _ _ _ |- _ =>
    let Hn := fresh "Hn" in pose proof (called_calm op _ _ _ Hc eq_refl) as Hn; clear Hc; rec_simpl in Hn end;
  unfold calm, fail_request, incr_to_host in *; cbn [error_status blk_impl_ops] in *; rec_simpl in *;
  repeat match goal with Hx : _ /\ _ |- _ => destruct Hx end;
  split_and!; try congruence;
  unfold VIRTQ_CMD_STATE_FETCH_CMD_DESCS, VIRTQ_CMD_STATE_READ_HEADER, VIRTQ_CMD_STATE_PARSE_HEADER,
    VIRTQ_CMD_STATE_READ_DATA, VIRTQ_CMD_STATE_HANDLE_REQ, VIRTQ_CMD_STATE_OUT_DATA_DONE,
    VIRTQ_CMD_STATE_IN_DATA_DONE, VIRTQ_CMD_STATE_WRITE_STATUS, VIRTQ_CMD_STATE_SEND_COMP,
    VIRTQ_CMD_STATE_FATAL_ERR in *; lia.

Ltac calm_step :=
  first
    [ step_call
    | match goal with
      | |- calm_res _ Oob => exact I
      | |- calm_res _ (Err _) => exact I
      | |- calm_res _ OutOfFuel => exact I
      | |- calm_res _ (Ok _) => progress cbn [calm_res]
      | |- context [let? _ := Ok _ in _] => progress cbn [res_bind]
      | |- context [if ?b then _ else _] => destruct b
      end ].

Section Handlers.
Context {E : Type} `{Env E} `{BlkConfig}.
#[local] Abbreviation st := (vst E blk_virtq_cmd).

(** [f] applied in a continuation. *)
Lemma calm_bind {A B} (s : st) (r : res (st * A)) (k : st * A -> res (st * B)) :
  calm_res s r -> (forall s' a, calm s s' -> calm_res s (k (s', a))) -> calm_res s (let? x := r in k x).
Proof. intros Hr Hk. destruct r as [[s' a]| | |]; cbn in *; auto. Qed.

Lemma mark_dirty_calm (s : st) pa len b :
  match virtq_mark_dirty_mem s pa len b with Ok s' => calm s s' /\ vc s' = vc s /\ vp s' = vp s | _ => True end.
Proof.
  unfold virtq_mark_dirty_mem. destruct (negb _); [split; [apply calm_refl|done]|].
  destruct (lm_channel (vp s)); [step_call; split; [calm_end|done]|].
  destruct (dp_map (vp s)) as [map|]; [|split; [apply calm_refl|done]].
  assert (forall fuel s size start mkey, match dirty_writes fuel s size start mkey with
    | Ok (s', _) => calm s s' /\ vc s' = vc s /\ vp s' = vp s | _ => True end) as Hw.
  { clear. induction fuel as [|fuel IH]; intros s size start mkey; cbn [dirty_writes]; [done|]. step_call.
    destruct (ret <? 0); [split; [calm_end|done]|]. destruct (0 <? _); [|split; [calm_end|done]].
    match goal with |- context [dirty_writes fuel ?s0 ?a ?b ?c] => specialize (IH s0 a b c);
      destruct (dirty_writes fuel s0 a b c) as [[s' ?]| | |]; try done end.
    destruct IH as (Hc & -> & ->). split; [|done]. eapply calm_trans; [|exact Hc]. calm_end. }
  assert (forall fuel s tot, match dirty_loop fuel s map (if b then vq_device (vp s) else pa) (if b then u32 (6 + 8 * vq_size (vp s)) else len) tot with
    | Ok s' => calm s s' /\ vc s' = vc s /\ vp s' = vp s | _ => True end) as Hl.
  { clear -Hw. intros fuel s. generalize (if b then vq_device (vp s) else pa), (if b then u32 (6 + 8 * vq_size (vp s)) else len).
    revert s. induction fuel as [|fuel IH]; intros s a l tot; cbn [dirty_loop]; [done|].
    destruct (snap_dp_bmap_get_start_pa map a l) as [ret out]. destruct (i32 ret <? 0); [split; [apply calm_refl|done]|].
    destruct out as [[[start ?] size]|]; [|done].
    match goal with |- context [dirty_writes ?f s ?x ?y ?z] => specialize (Hw f s x y z);
      destruct (dirty_writes f s x y z) as [[s' rc]| | |]; cbn [res_bind]; try done end.
    destruct (rc <? 0); [done|]. destruct (0 <? _); [|done]. specialize (IH s' a l (tot - i32 ret)).
    destruct (dirty_loop _ _ _ _ _ _); try done. destruct Hw as (Hc & Hvc & Hvp), IH as (Hc' & Hvc' & Hvp').
    split_and!; [by eapply calm_trans|congruence..]. }
  apply Hl.
Qed.

Lemma read_header_calm (s : st) status : calm_res s (blk_virtq_sm_read_header s status).
Proof.
  unfold blk_virtq_sm_read_header, first_desc. rec_simpl. destruct (descs (vc s) !! 0%nat); cbn [res_bind]; [|done].
  repeat calm_step; calm_end.
Qed.

Lemma write_back_calm (s : st) status : calm_res s (virtq_sm_write_back_done s status).
Proof. destruct status; cbn [virtq_sm_write_back_done calm_res]; calm_end. Qed.

Lemma write_status_calm (s : st) status : calm_res s (virtq_sm_write_status s status).
Proof.
  unfold virtq_sm_write_status. set (s1 := match status with VIRTQ_CMD_SM_OP_OK => s | _ => _ end).
  assert (calm s s1) as H1 by (unfold s1; destruct status; calm_end). clearbody s1.
  cbn [status_data blk_impl_ops blk_virtq_status_data send_status]. destruct (descs (vc s1) !! _) as [d|]; [|done].
  assert (is_comp match blk_send_status with Some f => f (ftr_status (impl (vc s1))) sizeof_virtio_blk_outftr (d_addr d)
    | None => DmaWriteShort (PStatus (ftr_status (impl (vc s1)))) sizeof_virtio_blk_outftr (d_addr d) (dma_mkey (vp s1)) end = false) as Hop
    by (unfold blk_send_status; by destruct provider).
  step_call. apply (called_calm _ _ _ _ Hcall) in Hop. clear Hcall.
  destruct (negb _); [cbn [calm_res]; calm_end|].
  match goal with |- context [virtq_mark_dirty_mem ?s0 ?a ?b ?c] => pose proof (mark_dirty_calm s0 a b c) as Hm;
    destruct (virtq_mark_dirty_mem s0 a b c) as [s2| | |]; cbn [res_bind]; try done end.
  destruct Hm as (Hm & Hvc & Hvp). cbn [calm_res]. calm_end.
Qed.

Lemma read_data_loop_calm l : forall (s : st) off, calm s (fst (read_data_loop l s off)).
Proof.
  induction l as [|d l IH]; intros s off; cbn [read_data_loop]; [apply calm_refl|].
  destruct (has_flag _ _); [apply IH|]. step_call. destruct (negb _); [cbn [fst]; calm_end|].
  eapply calm_trans; [|apply IH]. calm_end.
Qed.

Lemma read_data_calm (s : st) status : calm_res s (blk_virtq_sm_read_data s status).
Proof.
  unfold blk_virtq_sm_read_data. destruct (data_descs _ _) as [l| | |]; cbn [res_bind]; try done.
  destruct (_ =? 0); [cbn [calm_res]; calm_end|].
  match goal with |- context [read_data_loop l ?s0 0] => pose proof (read_data_loop_calm l s0 0) as Hl;
    destruct (read_data_loop l s0 0) as [s1 ret] end.
  cbn [fst] in Hl. destruct (negb _); cbn [calm_res]; calm_end.
Qed.

Lemma in_data_loop_calm l : forall (s : st) off, calm_res s (in_data_loop l s off).
Proof.
  induction l as [|d l IH]; intros s off; cbn [in_data_loop]; [apply calm_refl|]. step_call.
  destruct (negb _); [cbn [calm_res]; calm_end|].
  match goal with |- context [virtq_mark_dirty_mem ?s0 ?a ?b ?c] => pose proof (mark_dirty_calm s0 a b c) as Hm;
    destruct (virtq_mark_dirty_mem s0 a b c) as [s2| | |]; cbn [res_bind]; try done end.
  destruct Hm as (Hm & Hvc & Hvp).
  match goal with |- context [in_data_loop l ?s0 ?o] => specialize (IH s0 o);
    destruct (in_data_loop l s0 o) as [[s3 ret']| | |]; cbn [calm_res] in *; try done end.
  eapply calm_trans; [|exact IH]. calm_end.
Qed.

Lemma in_done_calm (s : st) status : calm_res s (blk_virtq_sm_handle_in_iov_done s status).
Proof.
  destruct status; cbn [blk_virtq_sm_handle_in_iov_done]; [|cbn [calm_res]; calm_end].
  destruct (data_descs _ _) as [l| | |]; cbn [res_bind]; try done.
  match goal with |- context [in_data_loop l ?s0 0] => pose proof (in_data_loop_calm l s0 0) as Hl;
    destruct (in_data_loop l s0 0) as [[s1 ret]| | |]; cbn [res_bind calm_res] in *; try done end.
  destruct (negb _); cbn [calm_res]; calm_end.
Qed.

Lemma zcopy_prepare_calm (s : st) :
  match zcopy_prepare s with Ok (s', _) => calm s s' | _ => True end.
Proof.
  unfold zcopy_prepare, virtq_descs_to_iovec. repeat (destruct (_ : bool); [apply calm_refl|]).
  destruct (_ <? _).
  - cbn [res_bind Z.eqb negb]. calm_end.
  - destruct (data_descs _ _); cbn [res_bind]; try done. cbn [Z.eqb negb]. step_call. destruct (_ =? 0); [calm_end|].
    step_call. destruct (_ =? 0); [done|calm_end].
Qed.

Lemma parse_header_calm (s : st) status : calm_res s (blk_virtq_sm_parse_header s status).
Proof.
  destruct status; cbn [blk_virtq_sm_parse_header]; [|cbn [calm_res]; calm_end].
  pose proof (zcopy_prepare_calm s) as Hz. destruct (zcopy_prepare s) as [[s1 zc]| | |]; cbn [res_bind]; try done.
  destruct zc; [cbn [calm_res]; calm_end|]. rec_simpl.
  match goal with |- context [let '(_, _) := ?e in _] => destruct e as [len v] eqn:Hv end.
  assert (v = 4 \/ v = 5) as Hv'.
  { revert Hv. unfold VIRTQ_CMD_STATE_READ_DATA, VIRTQ_CMD_STATE_HANDLE_REQ. repeat destruct (_ : bool); intros [= _ <-]; auto. }
  clear Hv. destruct (use_mem_pool _).
  - destruct (len =? 0); [cbn [calm_res]; calm_end|]. step_call. destruct (negb _); cbn [calm_res]; calm_end.
  - destruct (_ <? _); [|cbn [calm_res]; calm_end]. unfold virtq_alloc_req_dbuf. step_call.
    destruct (_ =? 0); [cbn [calm_res]; calm_end|]. step_call. destruct (_ =? 0); [step_call|]; cbn [calm_res]; calm_end.
Qed.

Lemma after_request_calm (s s1 : st) type ret : calm s s1 -> calm_res s (after_request s1 type ret).
Proof.
  intros Hc. unfold after_request.
  assert (exists p, count_request s1 ret = mk_vst (vw s1) p (vc s1) /\ ctrl_used_index p = ctrl_used_index (vp s1)) as (p & -> & Hp).
  { unfold count_request. destruct (io_cmd_stat (vc s1)) as [k|]; [|exists (vp s1); by destruct s1].
    eexists. split; [reflexivity|]. by destruct k. }
  destruct (negb _); [|destruct (_ =? _)]; cbn [calm_res]; calm_end.
Qed.

Lemma handle_req_calm (s : st) status : calm_res s (blk_virtq_sm_handle_req s status).
Proof.
  unfold blk_virtq_sm_handle_req. destruct status; [|cbn [calm_res]; calm_end].
  destruct (pending_bdev_detach (vp s)); [cbn [calm_res]; calm_end|]. rec_simpl.
  destruct (_ =? VIRTIO_BLK_T_OUT).
  { unfold handle_out. rec_simpl. destruct (zcopy _); step_call; apply after_request_calm; calm_end. }
  destruct (_ =? VIRTIO_BLK_T_IN).
  { unfold handle_in. rec_simpl. destruct (zcopy _); step_call; apply after_request_calm; calm_end. }
  destruct (_ =? VIRTIO_BLK_T_FLUSH).
  { unfold handle_flush. rec_simpl. destruct (negb _); [apply after_request_calm; calm_end|].
    step_call. step_call. step_call. apply after_request_calm. calm_end. }
  destruct (_ =? VIRTIO_BLK_T_GET_ID); [|cbn [calm_res]; calm_end].
  unfold handle_get_id. rec_simpl. step_call. destruct (ret <? 0); [cbn [res_bind calm_res]; calm_end|].
  rec_simpl. destruct (descs (vc s) !! 1%nat) as [d|]; [|done]. step_call.
  match goal with |- context [virtq_mark_dirty_mem ?s0 ?a ?b ?c] => pose proof (mark_dirty_calm s0 a b c) as Hm;
    destruct (virtq_mark_dirty_mem s0 a b c) as [s2| | |]; cbn [res_bind]; try done end.
  destruct Hm as (Hm & _). apply after_request_calm. calm_end.
Qed.

Lemma alloc_desc_buf_calm (s : st) a b : calm_res s (virtq_alloc_desc_buf s a b).
Proof.
  unfold virtq_alloc_desc_buf. step_call. destruct (_ =? 0); [cbn [calm_res]; calm_end|]. step_call.
  destruct (_ =? 0); [step_call; cbn [calm_res]; calm_end|]. destruct (_ || _); [done|]. rec_simpl.
  destruct (_ || _).
  - step_call. unfold free_aux. rec_simpl. destruct (aux_src (vc s)) eqn:Ha; [done|]. step_call. rewrite Ha. cbn [calm_res]. calm_end.
  - cbn [res_bind]. rec_simpl. destruct (aux_src (vc s)); cbn [calm_res]; calm_end.
Qed.

Lemma seg_dmem_calm (s : st) : calm_res s (blk_seg_dmem s).
Proof.
  unfold blk_seg_dmem. destruct (_ <=? _); [|apply calm_refl]. pose proof (alloc_desc_buf_calm s (num_desc (vc s)) (vq_size (vp s))) as Hc.
  by destruct (virtq_alloc_desc_buf _ _ _) as [[s' r]| | |].
Qed.

Lemma fetch_indirect_calm (s : st) : calm_res s (fetch_indirect s).
Proof.
  unfold fetch_indirect. step_call. destruct (_ =? 0); [cbn [calm_res]; calm_end|].
  destruct (indirect_loop _ _ _ _ _) as [[i l]| | |]; cbn [res_bind]; try done.
  destruct (indirect_write_back _ _ _); cbn [res_bind]; try done. step_call. cbn [calm_res]. calm_end.
Qed.

Lemma fetch_next_calm (s : st) : calm_res s (fetch_next_desc s).
Proof.
  unfold fetch_next_desc. destruct (is_indirect (vc s)); [apply fetch_indirect_calm|].
  assert (match next_desc_src (vp s) (vc s) with Ok (Some (_, _, c)) => cmd_state c = cmd_state (vc s) | _ => True end) as Hs.
  { unfold next_desc_src. destruct (_ =? 0); [done|]. destruct (descs (vc s) !! _); [|done]. destruct (has_flag _ _); [done|].
    by destruct (has_flag _ _). }
  destruct (next_desc_src (vp s) (vc s)) as [[[[a l] c]|]| | |]; cbn [res_bind]; try done; [|apply calm_refl].
  cbn [seg_dmem blk_impl_ops]. pose proof (seg_dmem_calm (s ⦇ vc := c ⦈)) as Hd.
  destruct (blk_seg_dmem _) as [[s1 r]| | |]; cbn [res_bind]; try done. cbn [calm_res] in Hd.
  destruct (negb _); [cbn [calm_res]; calm_end|]. step_call.
  destruct (negb _); [cbn [calm_res]; calm_end|]. destruct (is_indirect (vc s1)); cbn [calm_res]; calm_end.
Qed.

Lemma fetch_calm (s : st) status : calm_res s (virtq_sm_fetch_cmd_descs s status).
Proof.
  destruct status; cbn [virtq_sm_fetch_cmd_descs]; [|cbn [calm_res]; calm_end].
  pose proof (fetch_next_calm s) as Hf. destruct (fetch_next_desc s) as [[s1 r]| | |]; cbn [res_bind calm_res] in *; try done.
  destruct r; [|cbn [calm_res]; calm_end|done]. cbn [descs_processing blk_impl_ops]. unfold blk_virtq_proc_desc.
  destruct (virtq_blk_process_desc _ _ _ _) as [[[l n] mg]|]; [|done].
  destruct (n <? _); [|destruct (_ <? _); [done|]]; cbn [res_bind]; destruct (_ =? _); cbn [calm_res]; calm_end.
Qed.

Lemma common_release_calm (s : st) : calm_res s (virtq_common_release s).
Proof.
  unfold virtq_common_release.
  assert (calm s (if use_dmem (vc s) then virtq_rel_req_dbuf s else s)) as H1.
  { destruct (use_dmem (vc s)); [|apply calm_refl]. unfold virtq_rel_req_dbuf. step_call.
    change (release_cmd (mk_vst w (vp s) (vc s))) with (fst (ext (mk_vst w (vp s) (vc s)) (DmaFree (req_buf (vc s))))).
    step_call. calm_end. }
  revert H1. generalize (if use_dmem (vc s) then virtq_rel_req_dbuf s else s). intros s1 H1.
  assert (calm s (if use_mem_pool (vp s1) then mem_pool_release s1 else s1)) as H2.
  { destruct (use_mem_pool (vp s1)); [|done]. cbn [mem_pool_release blk_impl_ops]. unfold virtq_rel_req_mempool_buf.
    destruct (negb _); [|done]. step_call. calm_end. }
  revert H2. generalize (if use_mem_pool (vp s1) then mem_pool_release s1 else s1). intros s2 H2.
  destruct (use_seg_dmem (vc s2)); [|done]. cbn [seg_dmem_release blk_impl_ops]. unfold virtq_rel_req_desc. step_call.
  unfold free_aux. rec_simpl. destruct (aux_src (vc s2)); [done|]. step_call. cbn [res_bind]. rec_simpl.
  destruct (use_mem_pool (vp s2)); [|cbn [calm_res]; calm_end]. unfold alloc_aux. step_call.
  destruct (_ =? 0); [change (negb (- ENOMEM =? 0)) with true; cbn [calm_res]; calm_end|]. step_call.
  destruct (_ =? 0); [step_call; change (negb (-1 =? 0)) with true|change (negb (0 =? 0)) with false]; cbn [calm_res]; calm_end.
Qed.

Lemma release_calm (s : st) status : calm_res s (blk_virtq_sm_release s status).
Proof.
  unfold blk_virtq_sm_release, virtq_sm_release. set (s1 := s ⦇ vp := _ ⦈).
  assert (calm s s1) as H1.
  { unfold s1. destruct (_ && _); [destruct (0 <? _)|]; calm_end. }
  clearbody s1. pose proof (common_release_calm s1) as H2.
  destruct (virtq_common_release s1) as [[s2 r]| | |]; cbn [res_bind calm_res] in *; try done. calm_end.
Qed.

Lemma fatal_calm (s : st) status : calm_res s (virtq_sm_fatal_error s status).
Proof.
  unfold virtq_sm_fatal_error. pose proof (common_release_calm s) as H2.
  destruct (virtq_common_release s) as [[s2 r]| | |]; cbn [res_bind calm_res] in *; try done.
Qed.

(** ** Sending the completion *)

(** How serving a command of an in-order queue ends: without a completion, and then the
    command is not free; or with one, in its turn. *)
Definition unsent (s s' : st) : Prop :=
  completions (vw s') = completions (vw s) /\ ctrl_used_index (vp s') = ctrl_used_index (vp s) /\
  (1 <= cmd_state (vc s') <= 10 \/ cmd_state (vc s') = 12).

Definition sent (s s' : st) : Prop :=
  cmd_available_index (vc s) = ctrl_used_index (vp s) /\
  completions (vw s') = completions (vw s) ++ [descr_head_idx (vc s)] /\
  (ctrl_used_index (vp s') = u16 (ctrl_used_index (vp s) + 1) /\ cmd_state (vc s') = 11 \/
   ctrl_used_index (vp s') = ctrl_used_index (vp s) /\ cmd_state (vc s') = 12).

Lemma send_comp_sent (s : st) :
  match blk_send_comp s with
  | (s', ret) => vc s' = vc s /\ ctrl_used_index (vp s') = ctrl_used_index (vp s) /\
      (completions (vw s') = completions (vw s) /\ ret <> 0 \/
       completions (vw s') = completions (vw s) ++ [descr_head_idx (vc s)])
  end.
Proof.
  unfold blk_send_comp. destruct provider.
  - unfold virtq_tunnel_send_comp. step_call. rewrite (called_completions _ _ _ _ Hcall). rec_simpl. cbn [comp_of fst snd].
    split_and!; try done. destruct (Z.eqb_spec ret 0); [by right|left]. by rewrite app_nil_r.
  - unfold virtq_sw_send_comp. step_call. destruct (Z.eqb_spec ret 0) as [->|Hne]; cbn [negb].
    + step_call. split_and!; try done. right.
      rewrite (called_calm _ _ _ _ Hcall0 eq_refl), (called_completions _ _ _ _ Hcall). done.
    + rec_simpl. split_and!; try done. left. split; [|done]. rewrite (called_completions _ _ _ _ Hcall). cbn [comp_of fst snd].
      apply Z.eqb_neq in Hne as Hne'. by rewrite Hne', app_nil_r.
  - unfold virtq_dpa_send_comp. step_call. rewrite (called_completions _ _ _ _ Hcall). rec_simpl. cbn [comp_of fst snd].
    split_and!; try done. destruct (Z.eqb_spec ret 0); [by right|left]. by rewrite app_nil_r.
Qed.

Lemma send_completion_outcome (s s' : st) status rep :
  force_in_order (vp s) = true -> virtq_sm_send_completion s status = Ok (s', rep) ->
  (unsent s s' \/ sent s s') /\ (rep = true -> 11 <= cmd_state (vc s')).
Proof.
  intros Hord. unfold virtq_sm_send_completion. destruct status.
  2:{ intros [= <- <-]. split; [left; split_and!; try done; by right|done]. }
  set (unord := negb _). set (s1 := match io_cmd_stat (vc s) with Some _ => _ | None => s end).
  assert (exists p, s1 = mk_vst (vw s) p (vc s) /\ ctrl_used_index p = ctrl_used_index (vp s) /\ force_in_order p = true) as (p & -> & Hp & Ho).
  { unfold s1. destruct (io_cmd_stat (vc s)) as [k|], unord; try (exists (vp s); by destruct s).
    eexists. split; [reflexivity|]. by destruct k. }
  rec_simpl. rewrite Ho. destruct unord eqn:Hun; cbn [andb].
  { intros [= <- <-]. split; [left; split_and!; try done; left; st_lia|done]. }
  assert (cmd_available_index (vc s) = ctrl_used_index (vp s)) as Hav.
  { unfold unord in Hun. apply negb_false_iff, Z.eqb_eq in Hun. done. }
  cbn [send_comp blk_impl_ops]. pose proof (send_comp_sent (mk_vst (vw s) p (vc s))) as Hs.
  destruct (blk_send_comp _) as [s2 ret]. rec_simpl in Hs. destruct Hs as (Hvc & Hvp & Hc).
  destruct (Z.eqb_spec ret 0) as [->|Hne]; cbn [negb].
  - destruct Hc as [[_ ?]|Hc]; [done|]. pose proof (mark_dirty_calm s2 0 0 true) as Hm.
    destruct (virtq_mark_dirty_mem s2 0 0 true) as [s3| | |]; cbn [res_bind]; try done. destruct Hm as ((Hmc & _) & _ & Hmp).
    intros [= <- <-]. split; [right|done]. split_and!; [done|rec_simpl; congruence|]. left. rec_simpl. rewrite Hmp, Hvp, Hp. done.
  - intros [= <- <-]. split; [|done]. destruct Hc as [[Hc _]|Hc].
    + left. split_and!; [done|rec_simpl; congruence|by right].
    + right. split_and!; [done|done|]. right. rec_simpl. split; [congruence|done].
Qed.


Context `{!BdevLaws E}.

(** Handlers before the completion. *)
Lemma early_calm (s : st) status h :
  1 <= cmd_state (vc s) <= 8 -> sm_array !! Z.to_nat (cmd_state (vc s)) = Some h -> calm_res s (h s status).
Proof.
  intros Hst Hh.
  assert (cmd_state (vc s) = 1 \/ cmd_state (vc s) = 2 \/ cmd_state (vc s) = 3 \/ cmd_state (vc s) = 4 \/
    cmd_state (vc s) = 5 \/ cmd_state (vc s) = 6 \/ cmd_state (vc s) = 7 \/ cmd_state (vc s) = 8) as Hcases by lia.
  repeat destruct Hcases as [Hc|Hcases]; [rewrite Hc in Hh..|rewrite Hcases in Hh]; cbn in Hh; injection Hh as <-;
    auto using fetch_calm, read_header_calm, parse_header_calm, read_data_calm, handle_req_calm, write_back_calm,
      in_done_calm, write_status_calm.
Qed.

(** The last handlers complete nothing. *)
Lemma final_calm fuel (s s' : st) status :
  mem_ok (vp s) (vc s) -> cmd_state (vc s) = 11 \/ cmd_state (vc s) = 12 -> virtq_cmd_progress fuel s status = Ok s' ->
  completions (vw s') = completions (vw s) /\ ctrl_used_index (vp s') = ctrl_used_index (vp s) /\
  cmd_state (vc s') = cmd_state (vc s).
Proof.
  intros Hm Hst Hrun. destruct fuel as [|fuel]; [done|]. pose proof (final_state _ _ _ _ Hm Hst Hrun) as [Hs _].
  assert (exists h, sm_array !! Z.to_nat (cmd_state (vc s)) = Some h /\ calm_res s (h s status) /\
    exists s1, h s status = Ok (s1, false)) as (h & Hh & Hc & s1 & Hs1).
  { destruct Hst as [-> | ->]; eexists; (split; [reflexivity|]).
    - split; [apply release_calm|]. unfold blk_virtq_sm_release, virtq_sm_release.
      match goal with |- context [virtq_common_release ?s0] => destruct (common_release_ok s0) as (s1 & -> & _) end.
      { destruct (_ && _); [destruct (0 <? _)|]; exact Hm. }
      cbn [res_bind]. eauto.
    - split; [apply fatal_calm|]. unfold virtq_sm_fatal_error.
      destruct (common_release_ok s Hm) as (s1 & -> & _). cbn [res_bind]. eauto. }
  rewrite (progress_unfold fuel s status h), Hs1 in Hrun by (try done; lia). rewrite Hs1 in Hc. cbn [res_bind] in Hrun.
  injection Hrun as <-. destruct Hc as (? & ? & _). done.
Qed.

(** Serving a command of an in-order queue. *)
Lemma progress_outcome fuel : forall (s s' : st) status,
  ready (vw s) (vp s) (vc s) -> counters_ok (vp s) -> force_in_order (vp s) = true -> 1 <= cmd_state (vc s) <= 10 ->
  virtq_cmd_progress fuel s status = Ok s' -> unsent s s' \/ sent s s'.
Proof.
  induction fuel as [|fuel IH]; intros s s' status Hr Hco Hord Hst; [done|].
  destruct (handler_handles s status Hr Hco) as (h & Hh & Hhandles).
  rewrite (progress_unfold fuel s status h) by (try done; lia).
  destruct (h s status) as [[s1 rep]| | |] eqn:Hrun; cbn [res_bind]; try done.
  destruct Hhandles as ((_ & Hpf & Hcf) & Hrep).
  destruct (decide (cmd_state (vc s) <= 8)) as [Hle|Hgt].
  - pose proof (early_calm s status h ltac:(lia) Hh) as Hcalm. rewrite Hrun in Hcalm. destruct Hcalm as (Hc & Hu & Hs).
    assert (1 <= cmd_state (vc s1) <= 9 \/ cmd_state (vc s1) = 12) as Hs1 by lia.
    destruct rep; [|intros [= <-]; left; split_and!; [done|done|lia]].
    destruct Hrep as (Hr1 & _ & Hsc). pose proof (counters_ok_same _ _ Hsc Hco) as Hco1.
    destruct (decide (cmd_state (vc s1) = 12)) as [H12|H12]; intros Hrest.
    + left. apply final_calm in Hrest as (Hc2 & Hu2 & Hs2); [|apply Hr1|by right].
      split_and!; [congruence|congruence|lia].
    + apply IH in Hrest; [|done|done|by rewrite (pf_order _ _ Hpf)|lia].
      destruct Hrest as [(Hc2 & Hu2 & Hs2)|(Hav & Hc2 & Hs2)].
      * left. split_and!; [congruence|congruence|done].
      * right. unfold sent. rewrite <- (cf_avail _ _ Hcf), <- (cf_head _ _ Hcf), <- Hu, <- Hc. split_and!; done.
  - assert (h = virtq_sm_send_completion) as ->.
    { assert (cmd_state (vc s) = 9 \/ cmd_state (vc s) = 10) as [Hc|Hc] by lia; rewrite Hc in Hh; cbn in Hh; by injection Hh as <-. }
    pose proof (send_completion_outcome s s1 status rep Hord Hrun) as [Hout Hlate].
    destruct rep; [|by intros [= <-]]. destruct Hrep as (Hr1 & _ & _). intros Hrest.
    destruct Hout as [(Hc & Hu & Hs)|(Hav & Hc & Hs)].
    + left. specialize (Hlate eq_refl).
      apply final_calm in Hrest as (Hc2 & Hu2 & Hs2); [|apply Hr1|lia]. split_and!; [congruence|congruence|lia].
    + right. apply final_calm in Hrest as (Hc2 & Hu2 & Hs2); [|apply Hr1|lia].
      unfold sent. rewrite Hc2, Hu2, Hs2. split_and!; done.
Qed.


End Handlers.

(** * The window of commands *)

(** Equal remainders of numbers that are close. *)
Lemma mod_window m u x y : 0 < m -> (u + x) mod m = (u + y) mod m -> - m < x - y < m -> x = y.
Proof.
  intros Hm Heq Hxy. pose proof (Z.div_mod (u + x) m ltac:(lia)) as Hx. pose proof (Z.div_mod (u + y) m ltac:(lia)) as Hy.
  rewrite Heq in Hx. set (a := (u + x) / m) in *. set (b := (u + y) / m) in *.
  assert (x - y = m * (a - b)) as Hd by lia. assert (a - b = 0); [|nia].
  destruct (Z.lt_trichotomy (a - b) 0) as [|[|]]; nia.
Qed.

Section Window.
Context (u0 size : Z).
Hypothesis Hsize : 0 < size.
Hypothesis Hdiv : (size | 2 ^ 16).

(** The slot of the [k]-th command received. *)
Definition slot (k : nat) : nat := Z.to_nat (u16 (u0 + Z.of_nat k) mod size).

Lemma mod_mod_size x : (x mod 2 ^ 16) mod size = x mod size.
Proof. apply Z.mod_mod_divide. done. Qed.

Lemma ring_slot_inj k k' n :
  (n <= k)%nat -> (n <= k')%nat -> Z.of_nat k < Z.of_nat n + size -> Z.of_nat k' < Z.of_nat n + size ->
  slot k = slot k' -> k = k'.
Proof.
  intros Hk Hk' Hn Hn' Heq. unfold slot, u16, uwrap in Heq. rewrite !mod_mod_size in Heq.
  pose proof (Z.mod_pos_bound (u0 + Z.of_nat k) size Hsize). pose proof (Z.mod_pos_bound (u0 + Z.of_nat k') size Hsize).
  assert ((u0 + Z.of_nat k) mod size = (u0 + Z.of_nat k') mod size) as Hm by lia.
  assert (Z.of_nat k = Z.of_nat k'); [|lia]. eapply (mod_window size); [exact Hsize|exact Hm|lia].
Qed.

Lemma slot_wrap n : slot (n + Z.to_nat size) = slot n.
Proof.
  unfold slot, u16, uwrap. rewrite !mod_mod_size. f_equal.
  replace (u0 + Z.of_nat (n + Z.to_nat size)) with (u0 + Z.of_nat n + 1 * size) by lia. by apply Z.mod_add; lia.
Qed.

(** The commands received are [rcv]; the first [n] of them were completed, in order;
    the others are the commands that are not free, each in its slot. *)
Record window (arr : list bcmd) (used : Z) (comps rcv : list Z) (n : nat) : Prop := {
  wn_n : (n <= length rcv)%nat;
  wn_size : Z.of_nat (length rcv - n) <= size;
  wn_used : used = u16 (u0 + Z.of_nat n);
  wn_comps : comps = take n rcv \/
    comps = take (S n) rcv /\ (n < length rcv)%nat /\ exists c, arr !! slot n = Some c /\ cmd_state c = 12;
  wn_in k : (n <= k < length rcv)%nat -> exists c, arr !! slot k = Some c /\ ~ free_slot c /\
    cmd_available_index c = u16 (u0 + Z.of_nat k) /\ rcv !! k = Some (descr_head_idx c);
  wn_all i c : arr !! i = Some c -> ~ free_slot c -> exists k, (n <= k < length rcv)%nat /\ slot k = i;
}.

(** Receiving a command. *)
Lemma window_rx arr used comps rcv n c c' h :
  window arr used comps rcv n -> arr !! slot (length rcv) = Some c -> free_slot c -> ~ free_slot c' ->
  cmd_available_index c' = u16 (u0 + Z.of_nat (length rcv)) -> descr_head_idx c' = h ->
  window (<[slot (length rcv) := c']> arr) used comps (rcv ++ [h]) n.
Proof.
  intros [Hn Hsz Hu Hco Hin Hall] Hc Hfree Hnf Hav Hh. set (i := slot (length rcv)) in *.
  assert (i < length arr)%nat as Hlt by by eapply lookup_lt_Some.
  assert (Z.of_nat (length rcv - n) < size) as Hroom.
  { destruct (decide (Z.of_nat (length rcv - n) = size)) as [Heq|]; [|lia]. exfalso.
    assert (length rcv = n + Z.to_nat size)%nat as Hl by lia.
    destruct (Hin n) as (d & Hd & Hdf & _); [lia|]. unfold i in Hc. rewrite Hl, slot_wrap in Hc. by simplify_eq. }
  assert (forall k, (n <= k < length rcv)%nat -> slot k <> i) as Hne.
  { intros k Hk Heq. apply (ring_slot_inj k (length rcv) n) in Heq; lia. }
  split.
  - rewrite length_app. lia.
  - rewrite length_app. cbn. lia.
  - done.
  - destruct Hco as [->|(-> & Hlt' & d & Hd & Hst)].
    + left. by rewrite take_app_le by lia.
    + right. rewrite length_app. split_and!; [by rewrite take_app_le by lia|lia|]. exists d.
      rewrite list_lookup_insert_ne; [done|]. apply not_eq_sym, Hne. lia.
  - intros k Hk. rewrite length_app in Hk. cbn in Hk. destruct (decide (k = length rcv)) as [->|Hk'].
    + exists c'. rewrite list_lookup_insert_eq by done. split_and!; [done|done|done|]. by rewrite list_lookup_middle, Hh by done.
    + destruct (Hin k) as (d & Hd & Hdf & Hda & Hdh); [lia|]. exists d. rewrite list_lookup_insert_ne by (apply not_eq_sym, Hne; lia).
      split_and!; try done. by rewrite lookup_app_l by lia.
  - intros j d Hj Hdf. rewrite length_app. cbn [length]. destruct (decide (j = i)) as [->|Hji].
    + exists (length rcv). split; [lia|done].
    + rewrite list_lookup_insert_ne in Hj by done. destruct (Hall j d Hj Hdf) as (k & Hk & Hs). exists k. split; [lia|done].
Qed.

(** A slot that stays free. *)
Lemma window_free arr used comps rcv n i c c' :
  window arr used comps rcv n -> arr !! i = Some c -> free_slot c -> free_slot c' ->
  window (<[i := c']> arr) used comps rcv n.
Proof.
  intros [Hn Hsz Hu Hco Hin Hall] Hc Hf Hf'.
  assert (i < length arr)%nat as Hlt by by eapply lookup_lt_Some.
  assert (forall k d, arr !! slot k = Some d -> ~ free_slot d -> slot k <> i) as Hne by (intros k d Hd Hdf Heq; rewrite Heq in Hd; by simplify_eq).
  split; auto.
  - destruct Hco as [->|(-> & Hlt' & d & Hd & Hst)]; [by left|right]. split_and!; [done|done|]. exists d.
    rewrite list_lookup_insert_ne; [done|]. apply not_eq_sym, (Hne n d); [done|]. unfold free_slot. lia.
  - intros k Hk. destruct (Hin k Hk) as (d & Hd & Hdf & Hrest). exists d.
    rewrite list_lookup_insert_ne; [done|]. apply not_eq_sym. eauto.
  - intros j d Hj Hdf. destruct (decide (j = i)) as [->|Hji].
    + rewrite list_lookup_insert_eq in Hj by done. by simplify_eq.
    + rewrite list_lookup_insert_ne in Hj by done. eauto.
Qed.

(** A command that goes on waiting, or fails. *)
Lemma window_same arr used comps rcv n i c c' :
  window arr used comps rcv n -> arr !! i = Some c -> ~ free_slot c -> ~ free_slot c' ->
  (cmd_state c = 12 -> cmd_state c' = 12) ->
  cmd_available_index c' = cmd_available_index c -> descr_head_idx c' = descr_head_idx c ->
  window (<[i := c']> arr) used comps rcv n.
Proof.
  intros [Hn Hsz Hu Hco Hin Hall] Hc Hnf Hnf' Hdead Hav Hh.
  assert (i < length arr)%nat as Hlt by by eapply lookup_lt_Some.
  split; auto.
  - destruct Hco as [->|(-> & Hlt' & d & Hd & Hst)]; [by left|right]. split_and!; [done|done|].
    destruct (decide (slot n = i)) as [Heq|Hne].
    + exists c'. rewrite Heq in Hd |- *. rewrite list_lookup_insert_eq by done. simplify_eq. auto.
    + exists d. by rewrite list_lookup_insert_ne.
  - intros k Hk. destruct (Hin k Hk) as (d & Hd & Hdf & Hda & Hdh). destruct (decide (slot k = i)) as [Heq|Hne].
    + exists c'. rewrite Heq in Hd |- *. rewrite list_lookup_insert_eq by done. simplify_eq. rewrite Hav, Hh. done.
    + exists d. by rewrite list_lookup_insert_ne.
  - intros j d Hj Hdf. destruct (decide (j = i)) as [->|Hji].
    + by apply (Hall i c).
    + rewrite list_lookup_insert_ne in Hj by done. eauto.
Qed.

(** A command completed in its turn. *)
Lemma window_sent arr used comps rcv n i c c' used' :
  window arr used comps rcv n -> size <= 2 ^ 16 -> arr !! i = Some c -> ~ free_slot c -> cmd_state c <> 12 ->
  cmd_available_index c = used -> descr_head_idx c' = descr_head_idx c -> cmd_available_index c' = cmd_available_index c ->
  used' = u16 (used + 1) /\ cmd_state c' = 11 \/ used' = used /\ cmd_state c' = 12 ->
  exists n', window (<[i := c']> arr) used' (comps ++ [descr_head_idx c]) rcv n'.
Proof.
  intros Hwin Hs16 Hc Hnf Hnd Hav Hh Hav' Hend. pose proof Hwin as [Hn Hsz Hu Hco Hin Hall].
  assert (i < length arr)%nat as Hlt by by eapply lookup_lt_Some.
  assert (slot n = i /\ (n < length rcv)%nat) as [Hslot Hn'].
  { destruct (Hall i c Hc Hnf) as (k & Hk & Hs). destruct (Hin k Hk) as (d & Hd & _ & Hda & _). rewrite Hs in Hd. simplify_eq.
    assert (k = n) as ->; [|lia]. rewrite Hu in Hda. unfold u16, uwrap in Hda.
    assert (Z.of_nat k = Z.of_nat n); [|lia]. eapply (mod_window (2 ^ 16)); [done|by rewrite <- Hda|lia]. }
  destruct (Hin n) as (d & Hd & _ & _ & Hdh); [lia|]. rewrite Hslot, Hc in Hd. injection Hd as <-.
  assert (comps = take n rcv) as ->.
  { destruct Hco as [->|(_ & _ & d & Hd & Hst)]; [done|]. rewrite Hslot, Hc in Hd. by injection Hd as <-. }
  rewrite <- (take_S_r _ _ _ Hdh).
  assert (forall k, (n < k < length rcv)%nat -> slot k <> i) as Hne.
  { intros k Hk Heq. rewrite <- Hslot in Heq. apply (ring_slot_inj k n n) in Heq; lia. }
  destruct Hend as [[-> Hst]|[-> Hst]].
  - exists (S n). split; auto; try lia.
    + rewrite Hu. unfold u16. rewrite uwrap_add_l. f_equal. lia.
    + intros k Hk. destruct (Hin k) as (d & Hd & Hrest); [lia|]. exists d. rewrite list_lookup_insert_ne; [done|].
      apply not_eq_sym, Hne. lia.
    + intros j d Hj Hdf. destruct (decide (j = i)) as [->|Hji].
      * rewrite list_lookup_insert_eq in Hj by done. simplify_eq. unfold free_slot in Hdf. lia.
      * rewrite list_lookup_insert_ne in Hj by done. destruct (Hall j d Hj Hdf) as (k & Hk & Hs). exists k. split; [|done].
        destruct (decide (k = n)) as [->|]; [congruence|lia].
  - exists n. assert (window (<[i := c']> arr) used (take n rcv) rcv n) as [? ? ? _ ? ?].
    { apply (window_same arr used (take n rcv) rcv n i c c'); auto. unfold free_slot. lia. }
    split; auto. right. split_and!; [done|done|]. exists c'. rewrite Hslot, list_lookup_insert_eq by done. done.
Qed.

Lemma window_prefix arr used comps rcv n : window arr used comps rcv n -> comps `prefix_of` rcv.
Proof. intros [_ _ _ Hco _ _]. destruct Hco as [->|(-> & _)]; apply prefix_take. Qed.

End Window.

(** * In-order queues *)

Section Order.
Context {E : Type} `{Env E} `{BlkConfig} `{!BdevLaws E}.
#[local] Abbreviation st := (vst E blk_virtq_cmd).
#[local] Abbreviation vq := (virtq E blk_virtq_cmd).

(** A queue with the commands it accepted, oldest first. *)
Inductive ord_step : vq * list Z -> vq * list Z -> Prop :=
| os_rx q rcv m q' served :
    slot_free q (rx_slot (qp q) m) -> blk_virtq_rx_cb q m = Ok (q', served) -> no_refused (qw q') ->
    ord_step (q, rcv) (q', if served then rcv ++ [rq_descr_head_idx m] else rcv)
| os_dma q rcv i l1 l2 d status q' :
    in_dma (qw q) = l1 ++ i :: l2 ->
    on_cmd (q ⦇ qw := (qw q) ⦇ in_dma := l1 ++ l2 ⦈ ⦈) i (dma_done d status) = Ok (q', tt) -> no_refused (qw q') ->
    ord_step (q, rcv) (q', rcv)
| os_bdev q rcv i l1 l2 success q' :
    in_bdev (qw q) = l1 ++ i :: l2 ->
    on_cmd (q ⦇ qw := (qw q) ⦇ in_bdev := l1 ++ l2 ⦈ ⦈) i (fun s => bdev_io_comp_cb s success) = Ok (q', tt) ->
    no_refused (qw q') -> ord_step (q, rcv) (q', rcv)
| os_pool q rcv i l1 l2 data key q' :
    in_pool (qw q) = l1 ++ i :: l2 ->
    on_cmd (q ⦇ qw := (qw q) ⦇ in_pool := l1 ++ l2 ⦈ ⦈) i (fun s => virtq_mem_ready s data key) = Ok (q', tt) ->
    no_refused (qw q') -> ord_step (q, rcv) (q', rcv)
| os_turns q rcv q' : virtq_progress_unordered q = Ok q' -> ord_step (q, rcv) (q', rcv)
| os_suspend q rcv : ord_step (q, rcv) (fst (virtq_suspend q), rcv).

Record ord_ok (u0 : Z) (x : vq * list Z) : Prop := {
  oo_inv : vq_inv (fst x);
  oo_writes : no_refused (qw (fst x));
  oo_order : force_in_order (qp (fst x)) = true;
  oo_div : (vq_size (qp (fst x)) | 2 ^ 16);
  oo_avail : ctrl_available_index (qp (fst x)) = u16 (u0 + Z.of_nat (length (snd x)));
  oo_win : exists n, window u0 (vq_size (qp (fst x))) (cmd_arr (fst x)) (ctrl_used_index (qp (fst x)))
                       (completions (qw (fst x))) (snd x) n;
}.

(** Serving the command [c] at [i], which is in the window. *)
Lemma serve_window u0 size (arr : list bcmd) used comps rcv n i c (s s' : st) status :
  0 < size <= 2 ^ 16 -> (size | 2 ^ 16) -> window u0 size arr used comps rcv n -> arr !! i = Some c ->
  1 <= cmd_state c <= 10 -> ready (vw s) (vp s) (vc s) -> counters_ok (vp s) -> force_in_order (vp s) = true ->
  1 <= cmd_state (vc s) <= 10 -> completions (vw s) = comps -> ctrl_used_index (vp s) = used ->
  cmd_available_index (vc s) = cmd_available_index c -> descr_head_idx (vc s) = descr_head_idx c ->
  virtq_cmd_progress sm_fuel s status = Ok s' ->
  exists n', window u0 size (<[i := vc s']> arr) (ctrl_used_index (vp s')) (completions (vw s')) rcv n'.
Proof.
  intros Hsz Hdiv Hwin Hc Hst Hr Hco Hord Hss Hcomp Hu Hav Hhd Hrun.
  pose proof (progress_settles sm_fuel s status Hr Hco) as Hset. rewrite Hrun in Hset.
  destruct Hset as [(_ & _ & [_ Hcf1 Hcf2]) _]; [unfold sm_fuel; lia|].
  destruct (progress_outcome _ _ _ _ Hr Hco Hord Hss Hrun) as [(Hc1 & Hu1 & Hs1)|(Hturn & Hc1 & Hs1)].
  - exists n. rewrite Hc1, Hu1, Hcomp, Hu. eapply window_same; eauto; try congruence; unfold free_slot; lia.
  - rewrite Hc1, Hcomp, Hhd. eapply (window_sent u0 size); eauto; try congruence; try lia; unfold free_slot; try lia.
Qed.

Lemma vq_size_ok (q : vq) : vq_inv q -> 0 < vq_size (qp q) <= 2 ^ 16.
Proof. intros Hinv. rewrite (vi_size _ Hinv). apply (vi_len _ Hinv). Qed.

Lemma same_trace (w w' : world E) : trace w' = trace w -> completions w' = completions w.
Proof. unfold completions. by intros ->. Qed.

(** A resumed command. *)
Lemma starts_ok u0 (q : vq) rcv i c (s : st) status q' :
  ord_ok u0 (q, rcv) -> starts q i c s -> serve q i s status = Ok (q', tt) -> no_refused (qw q') -> ord_ok u0 (q', rcv).
Proof.
  intros [Hinv Hnr Hord Hdiv Hav [n Hwin]] [Htk Htr Hu Hca Hcav Hhd Hlive Hst] Hrun Hnr'. cbn [fst snd] in *.
  unfold serve, progress_cmd in Hrun. pose proof (taken_progress q i c s status Hinv Htk) as Hp.
  destruct (virtq_cmd_progress sm_fuel s status) as [s'| | |] eqn:Hprog; cbn [res_bind] in Hrun; try done. injection Hrun as <-.
  cbn [qw] in Hnr'. destruct Hp as [Hp _]. destruct (Hp Hnr') as [_ Hinv']. unfold put in Hinv'.
  assert (counters_ok (vp s)) as Hco.
  { destruct Htk as [_ _ _ _ _ _ Hh Hb Ht Hf]. split; rewrite ?Hh, ?Hb, ?Ht, ?Hf; apply u32_range. }
  pose proof Htk as [Hc Hr _ _ (Ho & _ & Hs & _) _ _ _ _ _].
  pose proof (progress_settles sm_fuel s status Hr Hco) as Hset. rewrite Hprog in Hset.
  destruct Hset as [(_ & [_ Pav Pord _ Psz _ _] & _) _]; [unfold sm_fuel; lia|].
  split; cbn [fst snd qw qp cmd_arr]; auto; try congruence.
  rewrite Psz, Hs. eapply serve_window; eauto using vq_size_ok, same_trace.
Qed.

Lemma turns_ok u0 fuel : forall (q q' : vq) rcv,
  ord_ok u0 (q, rcv) -> unordered_loop fuel q = Ok q' -> ord_ok u0 (q', rcv).
Proof.
  induction fuel as [|fuel IH]; intros q q' rcv Hok Hrun; [done|]. cbn [unordered_loop] in Hrun.
  destruct (cmd_arr q !! _) as [c|] eqn:Hc; [|done]. set (i := Z.to_nat _) in *.
  destruct (_ && _) eqn:Hturn; [|by simplify_eq].
  apply andb_prop in Hturn as [Hst%Z.eqb_eq Hav%Z.eqb_eq]. unfold VIRTQ_CMD_STATE_SEND_IN_ORDER_COMP in Hst.
  pose proof (oo_inv _ _ Hok) as Hinv. cbn [fst] in Hinv. pose proof (turn_taken_inv q i c Hinv Hc Hst) as Htk.
  assert (starts q i c (mk_vst (qw q) (qp q) c)) as Hstarts by (split; cbn; try done; lia).
  destruct (on_cmd q i _) as [[q1 []]| | |] eqn:Hon; cbn [res_bind fst] in Hrun; try done.
  assert (serve q i (mk_vst (qw q) (qp q) c) VIRTQ_CMD_SM_OP_OK = Ok (q1, tt)) as Hserve.
  { revert Hon. unfold on_cmd. rewrite Hc. done. }
  apply (IH q1); [|done]. eapply starts_ok; eauto.
  unfold serve, progress_cmd in Hserve.
  destruct (virtq_cmd_progress sm_fuel (mk_vst (qw q) (qp q) c) _) as [s'| | |] eqn:Hprog; cbn [res_bind] in Hserve; try done.
  injection Hserve as <-. cbn [qw]. destruct (turn_state _ _ (tk_ready _ _ _ _ Htk) (vq_inv_counters _ Hinv) Hst Hav Hprog) as [_ Hw].
  apply (sp_write _ _ Hw), Hok.
Qed.

(** A new command. *)
Lemma rx_ok u0 (q : vq) rcv m q' served :
  ord_ok u0 (q, rcv) -> slot_free q (rx_slot (qp q) m) -> blk_virtq_rx_cb q m = Ok (q', served) -> no_refused (qw q') ->
  ord_ok u0 (q', if served then rcv ++ [rq_descr_head_idx m] else rcv).
Proof.
  intros [Hinv Hnr Hord Hdiv Hav [n Hwin]] Hfree Hrun Hnr'. cbn [fst snd] in *.
  assert (rx_slot (qp q) m = slot u0 (vq_size (qp q)) (length rcv)) as Hslot by (unfold rx_slot, slot; by rewrite Hord, Hav).
  destruct (rx_starts q m Hinv Hfree) as (c & Hc & Hf & [[Hsw (c' & Hfresh & Hrx)]|[Hsw [Hrx|(s & Htk & Htr & Hu & Hca & Hcav & Hhd & Hs1 & Hrx)]]]);
    rewrite Hrx in Hrun; [|done|].
  - injection Hrun as <- <-. split; auto; [by eapply rx_dropped|]. cbn [fst snd qw qp cmd_arr] in *.
    exists n. destruct Hfresh as (_ & Hst & _). eapply window_free; eauto. unfold free_slot in *. by rewrite Hst.
  - unfold serve, progress_cmd in Hrun. pose proof (taken_progress q _ c s VIRTQ_CMD_SM_OP_OK Hinv Htk) as Hp.
    destruct (virtq_cmd_progress sm_fuel s _) as [s'| | |] eqn:Hprog; cbn [res_bind fst] in Hrun; try done. injection Hrun as <- <-.
    cbn [qw] in Hnr'. destruct Hp as [Hp _]. destruct (Hp Hnr') as [_ Hinv']. unfold put in Hinv'.
    assert (counters_ok (vp s)) as Hco.
    { destruct Htk as [_ _ _ _ _ _ Hh Hb Ht Hf']. split; rewrite ?Hh, ?Hb, ?Ht, ?Hf'; apply u32_range. }
    pose proof Htk as [_ Hr _ _ (Ho & _ & Hs & _) _ _ _ _ _].
    pose proof (progress_settles sm_fuel s VIRTQ_CMD_SM_OP_OK Hr Hco) as Hset. rewrite Hprog in Hset.
    destruct Hset as [(_ & [_ Pav Pord _ Psz _ _] & _) _]; [unfold sm_fuel; lia|].
    split; cbn [fst snd qw qp cmd_arr]; auto; try congruence.
    + rewrite Pav, Hca, Hav, length_app. cbn [length]. unfold u16. rewrite uwrap_add_l. f_equal. lia.
    + rewrite Psz, Hs. pose proof (vq_size_ok q Hinv) as Hsz.
      assert (window u0 (vq_size (qp q)) (<[rx_slot (qp q) m := vc s]> (cmd_arr q)) (ctrl_used_index (qp q)) (completions (qw q))
        (rcv ++ [rq_descr_head_idx m]) n) as Hwin'.
      { rewrite Hslot in Hc |- *. eapply window_rx; eauto; [lia|unfold free_slot; lia|congruence]. }
      rewrite <- (list_insert_insert_eq (cmd_arr q) (rx_slot (qp q) m) (vc s') (vc s)).
      eapply serve_window; eauto using same_trace; try lia.
      apply list_lookup_insert_eq. by eapply lookup_lt_Some.
Qed.

Lemma ord_step_ok u0 x x' : ord_ok u0 x -> ord_step x x' -> ord_ok u0 x'.
Proof.
  intros Hok Hstep. pose proof (oo_inv _ _ Hok) as Hinv.
  destruct Hstep as [q rcv m q' served Hfree Hrun Hnr|q rcv i l1 l2 d status q' Hl Hrun Hnr|q rcv i l1 l2 ok q' Hl Hrun Hnr
    |q rcv i l1 l2 d k q' Hl Hrun Hnr|q rcv q' Hrun|q rcv]; cbn [fst] in Hinv.
  - by eapply rx_ok.
  - destruct (dma_starts q i l1 l2 d status Hinv Hl) as (c & Hc & Hst & [(_ & c' & [_ Hcf1 Hcf2] & Hs & Hinv' & Hrun')|(s & Hs & _ & Hrun')]);
      rewrite Hrun' in Hrun; [|by eapply starts_ok].
    injection Hrun as <-. destruct Hok as [_ _ Hord Hdiv Hav [n Hwin]]. split; auto. exists n. cbn [fst snd qw qp cmd_arr] in *.
    eapply window_same; eauto; unfold free_slot; lia.
  - destruct (bdev_starts q i l1 l2 ok Hinv Hl) as (c & s & Hs & _ & Hrun'). rewrite Hrun' in Hrun. by eapply starts_ok.
  - destruct (pool_starts q i l1 l2 d k Hinv Hl) as (c & s & Hs & _ & Hrun'). rewrite Hrun' in Hrun. by eapply starts_ok.
  - by eapply turns_ok.
  - unfold virtq_suspend. destruct (decide _); [|done]. destruct Hok as [_ Hnr Hord Hdiv Hav Hwin]. split; auto.
    apply vq_inv_priv; [done|by split_and!|by split].
Qed.

Lemma ord_steps_ok u0 x x' : ord_ok u0 x -> star ord_step x x' -> ord_ok u0 x'.
Proof. intros Hx Hs. revert Hx. induction Hs; eauto using ord_step_ok. Qed.

(** A queue as created, which received nothing yet. *)
Lemma created_ord_ok an vbq attr live live' p vattr cmds (w : world E) :
  create_ok an vbq attr -> blk_virtq_create an vbq attr live = Ok (live', Some (p, vattr, cmds)) ->
  ca_force_in_order attr = true -> (ca_queue_size attr | 2 ^ 16) -> trace w = [] ->
  in_dma w = [] -> in_bdev w = [] -> in_pool w = [] ->
  (if ca_in_recovery attr then forall u, an_used_index an = Some u -> 0 <= u < 2 ^ 16 else True) ->
  exists u0, ord_ok u0 (mk_virtq w p cmds, []).
Proof.
  intros Hck Hcr Hord Hdiv Htr Hd Hb Hp Hu.
  assert (no_refused w) as Hnr by (unfold no_refused; rewrite Htr; constructor).
  pose proof (created_queue_ok _ _ _ _ _ _ _ _ w Hck Hcr Hd Hb Hp Hnr) as [Hinv _ _].
  destruct (create_some _ _ _ _ _ _ _ _ Hcr) as
    (data & key & size & used & _ & _ & Hfw & Hused & Hcmds & _ & _ & _ & _ & _ & _ & Hvs & Hfo & _ & _ & Hav & Hus).
  cbn zeta in *. assert (size = ca_queue_size attr) as -> by (destruct Hck as [_ _ _ [|] _]; congruence).
  assert (0 <= used < 2 ^ 16) as Hru.
  { destruct (ca_in_recovery attr); [by apply Hu|injection Hused as <-; lia]. }
  exists used. split; cbn [fst snd qw qp cmd_arr]; auto.
  - congruence.
  - by rewrite Hvs.
  - rewrite Hav, Z.add_0_r, u16_small; done.
  - exists 0%nat. split.
    + done.
    + cbn. rewrite Hvs. destruct Hck as [? _ _ _ _]. lia.
    + rewrite Hus, Z.add_0_r, u16_small; done.
    + left. unfold completions. by rewrite Htr.
    + cbn. lia.
    + intros i c Hc Hnf. exfalso. apply Hnf. left. rewrite Hcmds in Hc. by apply init_cmds_lookup in Hc as (_ & _ & ? & _).
Qed.

(** C1: A queue created to complete in order does so: in every state it reaches, whatever
    the order in which the block device, the memory pool and the DMA queue answer, the
    completions sent to the host are, in this order, the first of the commands it
    accepted.  The runs are those in which the DMA queue accepts every write of data and
    the host uses a slot again only after its completion; the queue size divides 2^16, and
    a queue that logs writes of the device has a migration channel. *)
Theorem completions_in_order an vbq attr live live' p vattr cmds e q rcv
    (Hck : create_ok an vbq attr)
    (Hcreate : blk_virtq_create an vbq attr live = Ok (live', Some (p, vattr, cmds)))
    (Hord : ca_force_in_order attr = true)
    (Hpow : (ca_queue_size attr | 2 ^ 16))
    (Hused : forall u, an_used_index an = Some u -> 0 <= u < 2 ^ 16)
    (Hrun : star ord_step (mk_virtq (mk_world e [] [] [] []) p cmds, []) (q, rcv)) :
  completions (qw q) `prefix_of` rcv.
Proof.
  destruct (created_ord_ok an vbq attr live live' p vattr cmds (mk_world e [] [] [] [])) as [u0 Hok]; try done.
  { by destruct (ca_in_recovery attr). }
  destruct (ord_steps_ok _ _ _ Hok Hrun) as [_ _ _ _ _ [n Hwin]]. cbn [fst snd] in Hwin. by eapply window_prefix.
Qed.

End Order.

(** * Two commands that finish in the other order *)

Module OrderRun.
Import Run.

Definition request_b : tunnel_req :=
  mk_req 3 3 0 [mk_desc 1100 16 VRING_DESC_F_NEXT 1; mk_desc 6000 512 (VRING_DESC_F_NEXT + VRING_DESC_F_WRITE) 2;
                mk_desc 9100 1 VRING_DESC_F_WRITE 0] [].

(** Both headers arrive; the device answers the second command first. *)
Definition r1 : vq := q1.
Definition r2 : vq := run (blk_virtq_rx_cb r1 request_b) r1.
Definition r3 : vq := run (on_cmd (r2 ⦇ qw := (qw r2) ⦇ in_dma := [0%nat] ⦈ ⦈) 1 (dma_done (ReadHeader VIRTIO_BLK_T_IN 8) VIRTQ_CMD_SM_OP_OK)) r2.
Definition r4 : vq := run (on_cmd (r3 ⦇ qw := (qw r3) ⦇ in_bdev := [] ⦈ ⦈) 1 (fun s => bdev_io_comp_cb s false)) r3.
Definition r5 : vq := run (on_cmd (r4 ⦇ qw := (qw r4) ⦇ in_dma := [] ⦈ ⦈) 0 (dma_done (ReadHeader VIRTIO_BLK_T_FLUSH 0) VIRTQ_CMD_SM_OP_OK)) r4.
Definition r6 : vq := run (on_cmd (r5 ⦇ qw := (qw r5) ⦇ in_bdev := [] ⦈ ⦈) 0 (fun s => bdev_io_comp_cb s true)) r5.
Definition r7 : vq := match virtq_progress_unordered r6 with Ok q => q | _ => r6 end.

Lemma steps_r6 : star ord_step (q0, []) (r6, [2; 3]).
Proof.
  eapply star_step.
  { apply (os_rx q0 [] request r1 true); [eexists; split; [by vm_compute|by left]|by vm_compute|by apply no_refused_run; vm_compute]. }
  eapply star_step.
  { apply (os_rx r1 [2] request_b r2 true); [eexists; split; [by vm_compute|by left]|by vm_compute|by apply no_refused_run; vm_compute]. }
  eapply star_step.
  { apply (os_dma r2 [2; 3] 1 [] [0%nat] (ReadHeader VIRTIO_BLK_T_IN 8) VIRTQ_CMD_SM_OP_OK r3); [by vm_compute..|by apply no_refused_run; vm_compute]. }
  eapply star_step.
  { apply (os_bdev r3 [2; 3] 1 [] [] false r4); [by vm_compute..|by apply no_refused_run; vm_compute]. }
  eapply star_step.
  { apply (os_dma r4 [2; 3] 0 [] [] (ReadHeader VIRTIO_BLK_T_FLUSH 0) VIRTQ_CMD_SM_OP_OK r5); [by vm_compute..|by apply no_refused_run; vm_compute]. }
  eapply star_step.
  { apply (os_bdev r5 [2; 3] 0 [] [] true r6); [by vm_compute..|by apply no_refused_run; vm_compute]. }
  apply star_refl.
Qed.

Lemma steps_r7 : star ord_step (q0, []) (r7, [2; 3]).
Proof.
  eapply star_trans; [apply steps_r6|]. eapply star_step; [|apply star_refl]. apply os_turns. by vm_compute.
Qed.

(** The second command waits, although it finished first. *)
Lemma completions_in_order_witness :
  completions (qw r6) = [2] /\ completions (qw r7) = [2; 3] /\ completions (qw r6) `prefix_of` [2; 3].
Proof.
  split; [by vm_compute|]. split; [by vm_compute|].
  eapply (completions_in_order answers vbq attr [] _ _ _ _ tt r6 [2; 3] creation_ok eq_refl eq_refl); [|done|exact steps_r6].
  exists 16384. reflexivity.
Defined.

End OrderRun.
