(* ===== verification/VirtqServe.v ===== *)
(** What serving a request does, from its header to its completion: the calls made for
    a read and for a write, in order, when every call is accepted; and how requests
    that cannot be served end. *)

From S2P Require Import Prelude BlkDescs DpMap Virtq BlkVirtq VirtqInv VirtqSys BlkCreate VirtqProps VirtqOrder.

(** The calls that move the data of a request. *)
Definition data_op (op : ext_op) : bool :=
  match op with
  | DmaRead _ _ _ _ _ _ | DmaWrite _ _ _ _ _ _ | DmaWriteShort _ _ _ _ | DmaSendCompletion _ _
  | BdevRead _ _ _ _ _ | BdevWrite _ _ _ _ _ => true
  | _ => false
  end.

(** Surroundings that take every one of them. *)
Class Accepts (E : Type) `{Env E} : Prop := accepts e op : data_op op = true -> snd (call e op) = 0.

(** One transfer per data descriptor, at consecutive places of the request buffer. *)
Fixpoint data_writes (i : nat) (rbuf off key mkey : Z) (l : list vring_desc) : list (ext_op * Z) :=
  match l with
  | [] => []
  | d :: l => (DmaWrite i (u64 (rbuf + off)) (d_len d) key (d_addr d) mkey, 0) :: data_writes i rbuf (off + d_len d) key mkey l
  end.

Fixpoint data_reads (i : nat) (rbuf off key mkey : Z) (l : list vring_desc) : list (ext_op * Z) :=
  match l with
  | [] => []
  | d :: l => (DmaRead i (u64 (rbuf + off)) (d_len d) key (d_addr d) mkey, 0) :: data_reads i rbuf (off + d_len d) key mkey l
  end.

Section Serve.
Context {E : Type} `{Env E} `{BlkConfig} `{!BdevLaws E} `{!Accepts E}.
#[local] Abbreviation st := (vst E blk_virtq_cmd).

Lemma ext_accepted (s : st) op :
  data_op op = true -> exists w, ext s op = (mk_vst w (vp s) (vc s), 0) /\ trace w = trace (vw s) ++ [(op, 0)].
Proof.
  intros Hop. destruct (ext_called s op) as (w & ret & Hext & Hc).
  assert (ret = 0) as ->.
  { pose proof (accepts (env (vw s)) op Hop) as Ha. unfold ext, do_call in Hext. destruct (call (env (vw s)) op) as [e r]. cbn in Ha. subst r.
    destruct op; cbn in Hext; try done; by injection Hext as _ <-. }
  exists w. split; [done|apply Hc].
Qed.

(** Run the next call, which is accepted. *)
Ltac accept :=
  match goal with
  | |- context [ext ?s ?op] =>
      let w := fresh "w" in let Ht := fresh "Ht" in
      destruct (ext_accepted s op eq_refl) as (w & -> & Ht); rec_simpl in Ht; rec_simpl; cbn [negb Z.eqb]
  end.

(** An ordinary queue: nothing to log, data copied through the buffers of the queue. *)
Definition plain (p : virtq_priv) : Prop :=
  log_writes_to_host p = false /\ zcopy_on p = false /\ use_mem_pool p = false /\ pending_bdev_detach p = false.

(** The buffers of the command are those of the queue. *)
Definition small (c : bcmd) : Prop :=
  desc_ok c /\ total_seg_len c <= req_size c /\ use_dmem c = false /\ use_seg_dmem c = false.

(** The data descriptors of the command. *)
Definition data_part (c : bcmd) : list vring_desc := take (Z.to_nat (num_desc c - 2)) (drop 1 (descs c)).

(** The descriptor of the status. *)
Definition status_addr (c : bcmd) : Z := match descs c !! Z.to_nat (num_desc c - 1) with Some d => d_addr d | None => 0 end.

Lemma no_log (s : st) pa len b : log_writes_to_host (vp s) = false -> virtq_mark_dirty_mem s pa len b = Ok s.
Proof. intros Hl. unfold virtq_mark_dirty_mem. by rewrite Hl. Qed.

(** What the handlers of a request keep. *)
Record kept (s s' : st) : Prop := {
  kp_idx : cmd_idx (vc s') = cmd_idx (vc s);
  kp_head : descr_head_idx (vc s') = descr_head_idx (vc s);
  kp_avail : cmd_available_index (vc s') = cmd_available_index (vc s);
  kp_num : num_desc (vc s') = num_desc (vc s);
  kp_descs : descs (vc s') = descs (vc s);
  kp_buf : req_buf (vc s') = req_buf (vc s);
  kp_key : req_mr (vc s') = req_mr (vc s);
  kp_size : req_size (vc s') = req_size (vc s);
  kp_len : total_seg_len (vc s') = total_seg_len (vc s);
  kp_dmem : use_dmem (vc s') = use_dmem (vc s);
  kp_seg : use_seg_dmem (vc s') = use_seg_dmem (vc s);
  kp_type : hdr_type (impl (vc s')) = hdr_type (impl (vc s));
  kp_sector : hdr_sector (impl (vc s')) = hdr_sector (impl (vc s));
  kp_status : ftr_status (impl (vc s')) = ftr_status (impl (vc s));
  kp_pg : pg_id (vp s') = pg_id (vp s);
  kp_mkey : dma_mkey (vp s') = dma_mkey (vp s);
  kp_order : force_in_order (vp s') = force_in_order (vp s);
  kp_used : ctrl_used_index (vp s') = ctrl_used_index (vp s);
  kp_log : log_writes_to_host (vp s') = log_writes_to_host (vp s);
  kp_zcopy : zcopy_on (vp s') = zcopy_on (vp s);
  kp_pool : use_mem_pool (vp s') = use_mem_pool (vp s);
  kp_detach : pending_bdev_detach (vp s') = pending_bdev_detach (vp s);
}.

Lemma kept_trans s1 s2 s3 : kept s1 s2 -> kept s2 s3 -> kept s1 s3.
Proof. intros [] []. split; congruence. Qed.

Lemma kept_small s s' : kept s s' -> small (vc s) -> small (vc s').
Proof.
  intros [] (Hd & Hf & Hu & Hs). unfold small, desc_ok in *. rewrite kp_num0, kp_descs0, kp_len0, kp_size0, kp_dmem0, kp_seg0. done.
Qed.

Lemma kept_plain s s' : kept s s' -> plain (vp s) -> plain (vp s').
Proof. intros []. unfold plain. by rewrite kp_log0, kp_zcopy0, kp_pool0, kp_detach0. Qed.

Lemma kept_data s s' : kept s s' -> data_part (vc s') = data_part (vc s) /\ status_addr (vc s') = status_addr (vc s) /\
  sector_offset (vc s') = sector_offset (vc s).
Proof. intros []. unfold data_part, status_addr, sector_offset. by rewrite kp_num0, kp_descs0, kp_sector0. Qed.

(** ** The handlers *)

Lemma parse_ok (s : st) :
  hdr_type (impl (vc s)) = VIRTIO_BLK_T_IN \/ hdr_type (impl (vc s)) = VIRTIO_BLK_T_OUT -> plain (vp s) -> small (vc s) ->
  exists s', blk_virtq_sm_parse_header s VIRTQ_CMD_SM_OP_OK = Ok (s', true) /\ vw s' = vw s /\ kept s s' /\
    total_in_len (vc s') = total_in_len (vc s) /\ zcopy (impl (vc s')) = false /\
    cmd_state (vc s') = if hdr_type (impl (vc s)) =? VIRTIO_BLK_T_OUT then VIRTQ_CMD_STATE_READ_DATA else VIRTQ_CMD_STATE_HANDLE_REQ.
Proof.
  intros Ht (_ & Hz & Hpool & _) (_ & Hfit & _). unfold blk_virtq_sm_parse_header, zcopy_prepare. rewrite Hz. cbn [negb res_bind].
  rec_simpl. destruct Ht as [Ht|Ht]; rewrite Ht; cbn [Z.eqb orb VIRTIO_BLK_T_IN VIRTIO_BLK_T_OUT Pos.eqb]; rec_simpl; rewrite Hpool;
    (destruct (Z.ltb_spec (req_size (vc s)) (total_seg_len (vc s))); [lia|]); eexists; (split; [reflexivity|]); split_and!; try done;
    split; done.
Qed.

Lemma count_kept (s : st) ret : kept s (count_request s ret) /\ vw (count_request s ret) = vw s /\ vc (count_request s ret) = vc s.
Proof. unfold count_request. destruct (io_cmd_stat (vc s)) as [[]|]; split_and!; try done; split; done. Qed.

Lemma handle_ok (s : st) :
  hdr_type (impl (vc s)) = VIRTIO_BLK_T_IN \/ hdr_type (impl (vc s)) = VIRTIO_BLK_T_OUT -> plain (vp s) -> zcopy (impl (vc s)) = false ->
  exists s', blk_virtq_sm_handle_req s VIRTQ_CMD_SM_OP_OK = Ok (s', false) /\ kept s s' /\
    total_in_len (vc s') = total_in_len (vc s) /\ io_cmd_stat (vc s') <> None /\
    trace (vw s') = trace (vw s) ++
      [(if hdr_type (impl (vc s)) =? VIRTIO_BLK_T_OUT
        then BdevWrite (cmd_idx (vc s)) (req_buf (vc s)) (sector_offset (vc s)) (total_seg_len (vc s)) (pg_id (vp s))
        else BdevRead (cmd_idx (vc s)) (req_buf (vc s)) (sector_offset (vc s)) (total_seg_len (vc s)) (pg_id (vp s)), 0)] /\
    cmd_state (vc s') = if hdr_type (impl (vc s)) =? VIRTIO_BLK_T_OUT then VIRTQ_CMD_STATE_OUT_DATA_DONE else VIRTQ_CMD_STATE_IN_DATA_DONE.
Proof.
  intros Ht (_ & _ & _ & Hdet) Hz. unfold blk_virtq_sm_handle_req. rewrite Hdet. rec_simpl.
  destruct Ht as [Ht|Ht]; rewrite Ht; cbn [Z.eqb orb VIRTIO_BLK_T_IN VIRTIO_BLK_T_OUT Pos.eqb];
    unfold handle_in, handle_out; rec_simpl; rewrite Hz; accept; unfold after_request; cbn [negb Z.eqb].
  all: match goal with |- context [count_request ?s0 ?r] => destruct (count_kept s0 r) as (Hk & Hw & Hc);
    revert Hk Hw Hc; generalize (count_request s0 r) end; intros s1 Hk Hw Hc; rec_simpl in *.
  all: cbn [Z.eqb VIRTIO_BLK_T_GET_ID Pos.eqb]; eexists; (split; [reflexivity|]); rec_simpl; rewrite Hc; rec_simpl.
  all: split_and!; try done; [|rewrite Hw; done]; destruct Hk; split; rec_simpl in *; congruence.
Qed.

Lemma in_loop_ok l : forall (s : st) off,
  log_writes_to_host (vp s) = false -> 0 <= total_in_len (vc s) < 2 ^ 32 ->
  exists w, in_data_loop l s off =
      Ok (mk_vst w (vp s) ((vc s) ⦇ total_in_len := u32 (total_in_len (vc s) + sumZ (map d_len l)) ⦈), 0) /\
    trace w = trace (vw s) ++ data_writes (cmd_idx (vc s)) (req_buf (vc s)) off (req_mr (vc s)) (dma_mkey (vp s)) l.
Proof.
  induction l as [|d l IH]; intros s off Hlog Ht; cbn [in_data_loop data_writes].
  - exists (vw s). rewrite app_nil_r. split; [|done]. change (sumZ (map d_len [])) with 0. rewrite u32_id by done. by destruct s as [? ? []].
  - accept. rewrite no_log by done. cbn [res_bind]. rec_simpl.
    match goal with |- context [in_data_loop l ?s0 ?o] => destruct (IH s0 o Hlog (u32_range _)) as (w2 & -> & Ht2) end.
    rec_simpl in *. exists w2. rewrite Ht2, Ht0, <- app_assoc. split; [|done].
    rewrite u32_add_l, map_cons, sumZ_cons, Z.add_assoc. done.
Qed.

Lemma in_done_ok (s : st) :
  plain (vp s) -> small (vc s) -> 0 <= total_in_len (vc s) < 2 ^ 32 ->
  exists s', blk_virtq_sm_handle_in_iov_done s VIRTQ_CMD_SM_OP_OK = Ok (s', false) /\ kept s s' /\
    trace (vw s') = trace (vw s) ++
      data_writes (cmd_idx (vc s)) (req_buf (vc s)) 0 (req_mr (vc s)) (dma_mkey (vp s)) (data_part (vc s)) /\
    total_in_len (vc s') = u32 (total_in_len (vc s) + sumZ (map d_len (data_part (vc s)))) /\
    dma_count (vc s') = num_desc (vc s) - 2 /\ cmd_state (vc s') = VIRTQ_CMD_STATE_WRITE_STATUS.
Proof.
  intros (Hlog & _) (Hdesc & _) Ht. cbn [blk_virtq_sm_handle_in_iov_done].
  destruct (data_descs_ok 2 (vc s) Hdesc) as [-> _]; [lia|]. cbn [res_bind]. fold (data_part (vc s)).
  match goal with |- context [in_data_loop ?l ?s0 0] => destruct (in_loop_ok l s0 0) as (w & -> & Htr); [done|done|] end.
  cbn [res_bind negb Z.eqb]. eexists. split; [reflexivity|]. rec_simpl in *.
  split_and!; try done. rewrite i32_small; [done|]. destruct Hdesc. lia.
Qed.

(** Reads of the data: descriptors the host may not write to. *)
Definition out_part (l : list vring_desc) : list vring_desc :=
  base.filter (fun d => has_flag (d_flags d) VRING_DESC_F_WRITE = false) l.

Lemma read_loop_ok l : forall (s : st) off,
  exists w, read_data_loop l s off = (mk_vst w (vp s) (vc s), 0) /\
    trace w = trace (vw s) ++ data_reads (cmd_idx (vc s)) (req_buf (vc s)) off (req_mr (vc s)) (dma_mkey (vp s)) (out_part l).
Proof.
  unfold out_part. induction l as [|d l IH]; intros s off; cbn [read_data_loop].
  - exists (vw s). rewrite filter_nil, app_nil_r. split; [by rewrite <- vst_same|done].
  - destruct (has_flag (d_flags d) VRING_DESC_F_WRITE) eqn:Hf.
    + rewrite filter_cons_False by congruence. apply IH.
    + rewrite filter_cons_True by done. cbn [data_reads]. accept.
      match goal with |- context [read_data_loop l ?s0 ?o] => destruct (IH s0 o) as (w2 & -> & Ht2) end.
      rec_simpl in *. exists w2. by rewrite Ht2, Ht, <- app_assoc.
Qed.

Lemma read_data_ok (s : st) status :
  small (vc s) -> out_part (data_part (vc s)) <> [] ->
  exists s', blk_virtq_sm_read_data s status = Ok (s', false) /\ kept s s' /\ total_in_len (vc s') = total_in_len (vc s) /\
    zcopy (impl (vc s')) = zcopy (impl (vc s)) /\
    trace (vw s') = trace (vw s) ++
      data_reads (cmd_idx (vc s)) (req_buf (vc s)) 0 (req_mr (vc s)) (dma_mkey (vp s)) (out_part (data_part (vc s))) /\
    dma_count (vc s') = Z.of_nat (length (out_part (data_part (vc s)))) /\ cmd_state (vc s') = VIRTQ_CMD_STATE_HANDLE_REQ.
Proof.
  intros (Hdesc & _) Hne. unfold blk_virtq_sm_read_data.
  destruct (data_descs_ok 1 (vc (set_state s VIRTQ_CMD_STATE_HANDLE_REQ))) as [-> _]; [exact Hdesc|lia|]. cbn [res_bind].
  change (take _ _) with (data_part (vc s)). fold (out_part (data_part (vc s))).
  destruct (Z.eqb_spec (Z.of_nat (length (out_part (data_part (vc s))))) 0) as [Hz|_].
  { exfalso. apply Hne, length_zero_iff_nil. lia. }
  match goal with |- context [read_data_loop ?l ?s0 0] => destruct (read_loop_ok l s0 0) as (w & -> & Htr) end.
  cbn [negb Z.eqb]. eexists. split; [reflexivity|]. rec_simpl in *. by split_and!.
Qed.

(** ** Status and completion *)

Context (Hprov : provider = SNAP_HW_Q_PROVIDER).

Lemma status_ok (s : st) :
  plain (vp s) -> small (vc s) ->
  exists s', virtq_sm_write_status s VIRTQ_CMD_SM_OP_OK = Ok (s', true) /\ kept s s' /\
    trace (vw s') = trace (vw s) ++
      [(DmaWriteShort (PStatus (ftr_status (impl (vc s)))) 1 (status_addr (vc s)) (dma_mkey (vp s)), 0)] /\
    total_in_len (vc s') = u32 (total_in_len (vc s) + 1) /\ cmd_state (vc s') = VIRTQ_CMD_STATE_SEND_COMP.
Proof.
  intros (Hlog & _) (Hdesc & _). unfold virtq_sm_write_status.
  cbn [status_data blk_impl_ops blk_virtq_status_data send_status]. unfold blk_send_status. rewrite Hprov.
  assert (Z.to_nat (u16 (num_desc (vc s) - 1)) = Z.to_nat (num_desc (vc s) - 1)) as -> by (destruct Hdesc; rewrite u16_small; lia).
  unfold status_addr. destruct (lookup_lt_is_Some_2 (descs (vc s)) (Z.to_nat (num_desc (vc s) - 1))) as [d Hd]; [destruct Hdesc; lia|].
  rewrite Hd. accept. rewrite no_log by done. cbn [res_bind]. eexists. split; [reflexivity|]. rec_simpl.
  by split_and!.
Qed.

Lemma completion_ok (s : st) :
  plain (vp s) -> force_in_order (vp s) = false \/ cmd_available_index (vc s) = ctrl_used_index (vp s) ->
  exists s', virtq_sm_send_completion s VIRTQ_CMD_SM_OP_OK = Ok (s', true) /\
    trace (vw s') = trace (vw s) ++ [(DmaSendCompletion (descr_head_idx (vc s)) (total_in_len (vc s)), 0)] /\
    vc s' = (vc s) ⦇ cmd_state := VIRTQ_CMD_STATE_RELEASE ⦈ /\ use_mem_pool (vp s') = use_mem_pool (vp s) /\
    ctrl_used_index (vp s') = u16 (ctrl_used_index (vp s) + 1).
Proof.
  intros (Hlog & _) Hturn. unfold virtq_sm_send_completion.
  set (unord := negb _). set (s1 := match io_cmd_stat (vc s) with Some _ => _ | None => s end).
  assert (exists p, s1 = mk_vst (vw s) p (vc s) /\ force_in_order p = force_in_order (vp s) /\ log_writes_to_host p = false /\
    use_mem_pool p = use_mem_pool (vp s) /\ ctrl_used_index p = ctrl_used_index (vp s)) as (p & -> & Hp & Hl & Hm & Hu).
  { unfold s1. pose proof (vst_same s) as Hs. destruct (io_cmd_stat (vc s)) as [k|], unord; try (exists (vp s); by split_and!).
    eexists. split; [reflexivity|]. by destruct k. }
  rec_simpl. assert (force_in_order p && unord = false) as ->.
  { rewrite Hp. destruct Hturn as [-> |Ht]; [done|]. unfold unord. rewrite Ht, Z.eqb_refl. apply andb_false_r. }
  cbn [send_comp blk_impl_ops]. unfold blk_send_comp. rewrite Hprov. unfold virtq_tunnel_send_comp. accept.
  rewrite no_log by done. cbn [res_bind]. eexists. split; [reflexivity|]. rec_simpl. rewrite Hu. by split_and!.
Qed.

Lemma release_ok (s : st) status :
  use_dmem (vc s) = false -> use_seg_dmem (vc s) = false -> use_mem_pool (vp s) = false ->
  exists s', blk_virtq_sm_release s status = Ok (s', false) /\ vw s' = vw s /\ vc s' = vc s /\
    outstanding_total (vp s') = u32 (outstanding_total (vp s) - 1) /\ ctrl_used_index (vp s') = ctrl_used_index (vp s).
Proof.
  intros Hd Hs Hp. unfold blk_virtq_sm_release, virtq_sm_release, virtq_common_release.
  set (p := if _ && _ then _ else vp s).
  assert (use_mem_pool p = false /\ outstanding_total p = outstanding_total (vp s) /\ ctrl_used_index p = ctrl_used_index (vp s)) as (Hp1 & Ht1 & Hu1).
  { unfold p. destruct (_ && _); [destruct (0 <? _)|]; done. }
  clearbody p. rec_simpl. rewrite Hd. rec_simpl. rewrite Hp1. rec_simpl. rewrite Hs. cbn [res_bind].
  eexists. split; [reflexivity|]. rec_simpl. by rewrite Ht1, Hu1.
Qed.

(** From the status to the release of the command. *)
Lemma finish_ok (s : st) fuel :
  cmd_state (vc s) = VIRTQ_CMD_STATE_WRITE_STATUS -> plain (vp s) -> small (vc s) ->
  force_in_order (vp s) = false \/ cmd_available_index (vc s) = ctrl_used_index (vp s) ->
  exists s', virtq_cmd_progress (3 + fuel) s VIRTQ_CMD_SM_OP_OK = Ok s' /\
    trace (vw s') = trace (vw s) ++
      [(DmaWriteShort (PStatus (ftr_status (impl (vc s)))) 1 (status_addr (vc s)) (dma_mkey (vp s)), 0);
       (DmaSendCompletion (descr_head_idx (vc s)) (u32 (total_in_len (vc s) + 1)), 0)] /\
    cmd_state (vc s') = VIRTQ_CMD_STATE_RELEASE /\ ctrl_used_index (vp s') = u16 (ctrl_used_index (vp s) + 1).
Proof.
  intros Hst Hplain Hsmall Hturn. cbn [Nat.add].
  rewrite (progress_unfold _ s _ virtq_sm_write_status) by (rewrite Hst; done).
  destruct (status_ok s Hplain Hsmall) as (s1 & -> & Hk1 & Ht1 & Hin1 & Hs1). cbn [res_bind].
  rewrite (progress_unfold _ s1 _ virtq_sm_send_completion) by (rewrite Hs1; done).
  destruct (completion_ok s1) as (s2 & -> & Ht2 & Hc2 & Hp2 & Hu2); [by eapply kept_plain| |].
  { destruct Hk1. rewrite kp_order0, kp_avail0, kp_used0. done. }
  cbn [res_bind]. rewrite (progress_unfold _ s2 _ blk_virtq_sm_release) by (rewrite Hc2; done).
  destruct (kept_small _ _ Hk1 Hsmall) as (_ & _ & Hd & Hsg).
  destruct (release_ok s2 VIRTQ_CMD_SM_OP_OK) as (s3 & -> & Hw3 & Hc3 & _ & Hu3); rewrite ?Hc2; try done.
  { rewrite Hp2. by apply (kept_plain _ _ Hk1). }
  cbn [res_bind]. exists s3. split; [done|]. rewrite Hw3, Ht2, Ht1, <- app_assoc, Hc3, Hu3, Hu2, Hc2, (kp_head _ _ Hk1), Hin1, (kp_used _ _ Hk1).
  done.
Qed.

Lemma write_back_ok (s : st) :
  exists s', virtq_sm_write_back_done s VIRTQ_CMD_SM_OP_OK = Ok (s', true) /\ vw s' = vw s /\ kept s s' /\
    total_in_len (vc s') = total_in_len (vc s) /\ cmd_state (vc s') = VIRTQ_CMD_STATE_WRITE_STATUS.
Proof. eexists. split; [reflexivity|]. by split_and!. Qed.

(** Completion of the block device, of a request that succeeded. *)
Lemma bdev_done (s : st) :
  io_cmd_stat (vc s) <> None ->
  exists s0, bdev_io_comp_cb s true = progress_cmd s0 VIRTQ_CMD_SM_OP_OK /\ vw s0 = vw s /\ vc s0 = vc s /\ kept s s0.
Proof.
  intros Hio. unfold bdev_io_comp_cb. destruct (io_cmd_stat (vc s)) as [k|]; [|done].
  eexists. split; [reflexivity|]. destruct k; by split_and!.
Qed.

(** C4: A read request with at least one data descriptor is served, when the DMA queue and the
    block device accept what they are given and the queue is an ordinary one: a hardware queue
    that copies through its own request buffer, which holds the request (no zero copy, no
    memory pool, no logging of writes, no device being detached).  The request goes to the
    block device; after its answer the data is written to the buffers of the host, one write
    per data descriptor from consecutive places of the request buffer, and the command waits
    for all of them; after the last of them the status and the completion are sent, which tells
    the host the number of bytes written, if the completion is in turn; the command is then
    free. *)
Theorem read_request_served (s : st)
    (Hst : cmd_state (vc s) = VIRTQ_CMD_STATE_PARSE_HEADER)
    (Htype : hdr_type (impl (vc s)) = VIRTIO_BLK_T_IN)
    (Hplain : plain (vp s)) (Hsmall : small (vc s)) (Hlen : total_in_len (vc s) = 0)
    (Hdata : data_part (vc s) <> [])
    (Hturn : force_in_order (vp s) = false \/ cmd_available_index (vc s) = ctrl_used_index (vp s)) :
  let c := vc s in
  let data := data_part c in
  let bytes := sumZ (map d_len data) in
  exists s1 s2 s3,
    virtq_cmd_progress sm_fuel s VIRTQ_CMD_SM_OP_OK = Ok s1 /\
    trace (vw s1) = trace (vw s) ++ [(BdevRead (cmd_idx c) (req_buf c) (sector_offset c) (total_seg_len c) (pg_id (vp s)), 0)] /\
    bdev_io_comp_cb s1 true = Ok (s2, tt) /\
    trace (vw s2) = trace (vw s1) ++ data_writes (cmd_idx c) (req_buf c) 0 (req_mr c) (dma_mkey (vp s)) data /\
    dma_count (vc s2) = Z.of_nat (length data) /\ 0 < dma_count (vc s2) /\
    sm_dma_cb s2 VIRTQ_CMD_SM_OP_OK = Ok (s3, tt) /\
    trace (vw s3) = trace (vw s2) ++
      [(DmaWriteShort (PStatus (ftr_status (impl c))) 1 (status_addr c) (dma_mkey (vp s)), 0);
       (DmaSendCompletion (descr_head_idx c) (u32 (bytes + 1)), 0)] /\
    cmd_state (vc s3) = VIRTQ_CMD_STATE_RELEASE.
Proof.
  cbn zeta. unfold sm_fuel. rename Hdata into Hne.
  rewrite (progress_unfold _ s _ blk_virtq_sm_parse_header) by (rewrite Hst; done).
  destruct (parse_ok s) as (a & -> & Hwa & Hka & Hia & Hza & Hsa); [by left|done|done|]. rewrite Htype in Hsa. cbn [res_bind].
  rewrite (progress_unfold _ a _ blk_virtq_sm_handle_req) by (rewrite Hsa; done).
  destruct (handle_ok a) as (s1 & -> & Hk1 & Hi1 & Hio & Ht1 & Hs1); [left; by rewrite (kp_type _ _ Hka)|by eapply kept_plain|done|].
  rewrite (kp_type _ _ Hka), Htype in Ht1, Hs1. cbn [res_bind] in *. pose proof (kept_trans _ _ _ Hka Hk1) as Hk.
  destruct (bdev_done s1 Hio) as (b & Hb & Hwb & Hcb & Hkb).
  pose proof (kept_trans _ _ _ Hk Hkb) as Hkb'.
  destruct (in_done_ok b) as (s2 & Hin & Hk2 & Ht2 & Hi2 & Hd2 & Hs2); [by eapply kept_plain|by eapply kept_small|rewrite Hcb, Hi1, Hia, Hlen; lia|].
  pose proof (kept_trans _ _ _ Hkb' Hk2) as Hks2.
  set (d := s2 ⦇ vp := (vp s2) ⦇ outstanding_to_host := u32 (outstanding_to_host (vp s2) - 1) ⦈ ⦈).
  assert (kept s2 d /\ vw d = vw s2 /\ vc d = vc s2) as (Hkd & Hwd & Hcd) by by split_and!.
  pose proof (kept_trans _ _ _ Hks2 Hkd) as Hkd'.
  destruct (finish_ok d 11) as (s3 & Hf & Ht3 & Hs3 & _); [by rewrite Hcd|by eapply kept_plain|by eapply kept_small| |].
  { destruct Hkd'. rewrite kp_order0, kp_avail0, kp_used0. done. }
  exists s1, s2, s3. destruct (kept_data _ _ Hka) as (_ & _ & Hoff). destruct (kept_data _ _ Hkb') as (Hdata & _ & _).
  destruct (kept_data _ _ Hkd') as (_ & Hsta & _).
  assert (dma_count (vc s2) = Z.of_nat (length (data_part (vc s)))) as Hcnt.
  { rewrite Hd2, (kp_num _ _ Hkb'). destruct Hsmall as ([Hn Hb16] & _). unfold data_part. rewrite length_take, length_drop. lia. }
  split_and!.
  - done.
  - rewrite Ht1, Hwa, Hoff. destruct Hka. rewrite kp_idx0, kp_buf0, kp_len0, kp_pg0. done.
  - rewrite Hb. unfold progress_cmd, sm_fuel.
    rewrite (progress_unfold _ b _ blk_virtq_sm_handle_in_iov_done) by (rewrite Hcb, Hs1; done). by rewrite Hin.
  - rewrite Ht2, Hwb, Hdata. destruct Hkb'. rewrite kp_idx0, kp_buf0, kp_key0, kp_mkey0. done.
  - done.
  - rewrite Hcnt. destruct (data_part (vc s)); [done|cbn; lia].
  - unfold sm_dma_cb, progress_cmd, sm_fuel. fold d. change 14%nat with (3 + 11)%nat. by rewrite Hf.
  - destruct Hkd'. rewrite Ht3, Hwd, Hsta, kp_status0, kp_head0, kp_mkey0, Hcd, Hi2, Hdata, Hcb, Hi1, Hia, Hlen, u32_add_l. done.
  - done.
Qed.

(** C20: A write request with data is served, when the DMA queue and the block device
    accept what they are given and the queue is an ordinary one (no zero copy, no memory
    pool, no logging of writes, no device being detached): the data descriptors the host
    may not write to are read into consecutive places of the request buffer; after the last
    read the request goes to the block device, and after its answer the status and the
    completion are sent. *)
Theorem write_request_served (s : st)
    (Hst : cmd_state (vc s) = VIRTQ_CMD_STATE_PARSE_HEADER)
    (Htype : hdr_type (impl (vc s)) = VIRTIO_BLK_T_OUT)
    (Hplain : plain (vp s)) (Hsmall : small (vc s)) (Hlen : total_in_len (vc s) = 0)
    (Hdata : out_part (data_part (vc s)) <> [])
    (Hturn : force_in_order (vp s) = false \/ cmd_available_index (vc s) = ctrl_used_index (vp s)) :
  let c := vc s in
  exists s1 s2 s3,
    virtq_cmd_progress sm_fuel s VIRTQ_CMD_SM_OP_OK = Ok s1 /\
    trace (vw s1) = trace (vw s) ++
      data_reads (cmd_idx c) (req_buf c) 0 (req_mr c) (dma_mkey (vp s)) (out_part (data_part c)) /\
    dma_count (vc s1) = Z.of_nat (length (out_part (data_part c))) /\
    sm_dma_cb s1 VIRTQ_CMD_SM_OP_OK = Ok (s2, tt) /\
    trace (vw s2) = trace (vw s1) ++ [(BdevWrite (cmd_idx c) (req_buf c) (sector_offset c) (total_seg_len c) (pg_id (vp s)), 0)] /\
    bdev_io_comp_cb s2 true = Ok (s3, tt) /\
    trace (vw s3) = trace (vw s2) ++
      [(DmaWriteShort (PStatus (ftr_status (impl c))) 1 (status_addr c) (dma_mkey (vp s)), 0);
       (DmaSendCompletion (descr_head_idx c) 1, 0)] /\
    cmd_state (vc s3) = VIRTQ_CMD_STATE_RELEASE.
Proof.
  cbn zeta. unfold sm_fuel.
  rewrite (progress_unfold _ s _ blk_virtq_sm_parse_header) by (rewrite Hst; done).
  destruct (parse_ok s) as (a & -> & Hwa & Hka & Hia & Hza & Hsa); [by right|done|done|]. rewrite Htype in Hsa. cbn [res_bind].
  destruct (kept_data _ _ Hka) as (Hpa & _ & _).
  rewrite (progress_unfold _ a _ blk_virtq_sm_read_data) by (rewrite Hsa; done).
  destruct (read_data_ok a VIRTQ_CMD_SM_OP_OK) as (s1 & -> & Hk1 & Hi1 & Hz1 & Ht1 & Hd1 & Hs1); [by eapply kept_small|by rewrite Hpa|].
  cbn [res_bind]. pose proof (kept_trans _ _ _ Hka Hk1) as Hk.
  set (d := s1 ⦇ vp := (vp s1) ⦇ outstanding_to_host := u32 (outstanding_to_host (vp s1) - 1) ⦈ ⦈).
  assert (kept s1 d /\ vw d = vw s1 /\ vc d = vc s1) as (Hkd & Hwd & Hcd) by by split_and!.
  pose proof (kept_trans _ _ _ Hk Hkd) as Hkd'.
  destruct (handle_ok d) as (s2 & Hh & Hk2 & Hi2 & Hio & Ht2 & Hs2);
    [right; by rewrite (kp_type _ _ Hkd')|by eapply kept_plain|by rewrite Hcd, Hz1|].
  rewrite (kp_type _ _ Hkd'), Htype in Ht2, Hs2. pose proof (kept_trans _ _ _ Hkd' Hk2) as Hks2.
  destruct (bdev_done s2 Hio) as (b & Hb & Hwb & Hcb & Hkb).
  destruct (write_back_ok b) as (e & He & Hwe & Hke & Hie & Hse).
  pose proof (kept_trans _ _ _ (kept_trans _ _ _ Hks2 Hkb) Hke) as Hkall.
  destruct (finish_ok e 10) as (s3 & Hf & Ht3 & Hs3 & _); [done|by eapply kept_plain|by eapply kept_small| |].
  { destruct Hkall. rewrite kp_order0, kp_avail0, kp_used0. done. }
  destruct (kept_data _ _ Hkd') as (_ & _ & Hoff). destruct (kept_data _ _ Hkall) as (_ & Hsta & _).
  exists s1, s2, s3. split_and!.
  - done.
  - rewrite Ht1, Hwa, Hpa. destruct Hka. rewrite kp_idx0, kp_buf0, kp_key0, kp_mkey0. done.
  - by rewrite Hd1, Hpa.
  - unfold sm_dma_cb, progress_cmd, sm_fuel. fold d.
    rewrite (progress_unfold _ d _ blk_virtq_sm_handle_req) by (rewrite Hcd, Hs1; done). by rewrite Hh.
  - rewrite Ht2, Hwd, Hoff. destruct Hkd'. rewrite kp_idx0, kp_buf0, kp_len0, kp_pg0. done.
  - rewrite Hb. unfold progress_cmd, sm_fuel.
    rewrite (progress_unfold _ b _ virtq_sm_write_back_done) by (rewrite Hcb, Hs2; done). rewrite He. cbn [res_bind].
    change 13%nat with (3 + 10)%nat. by rewrite Hf.
  - destruct Hkall. rewrite Ht3, Hwe, Hwb, Hsta, kp_status0, kp_head0, kp_mkey0, Hie, Hcb, Hi2, Hcd, Hi1, Hia, Hlen. done.
  - done.
Qed.

End Serve.

(** * Failures *)

Section Failures.
Context {E : Type} `{Env E} `{BlkConfig} `{!BdevLaws E}.
#[local] Abbreviation st := (vst E blk_virtq_cmd).
#[local] Abbreviation vq := (virtq E blk_virtq_cmd).

Lemma write_status_goes_on (s s' : st) status rep : virtq_sm_write_status s status = Ok (s', rep) -> rep = true.
Proof.
  unfold virtq_sm_write_status. destruct (status_data _) as [[? ?] ?]. destruct (descs _ !! _); [|done].
  destruct (ext _ _) as [? ret]. destruct (negb _); [by intros [= _ <-]|].
  destruct (virtq_mark_dirty_mem _ _ _ _); cbn [res_bind]; try done. by intros [= _ <-].
Qed.

(** The last handler raises the flag of the queue. *)
Lemma fatal_flag (s s' : st) fuel status :
  ready (vw s) (vp s) (vc s) -> cmd_state (vc s) = 12 -> virtq_cmd_progress fuel s status = Ok s' -> fatal_err (vp s') = true.
Proof.
  intros (_ & Hm & _) Hst. destruct fuel as [|fuel]; [done|].
  rewrite (progress_unfold _ s _ virtq_sm_fatal_error) by (rewrite Hst; done). unfold virtq_sm_fatal_error.
  destruct (common_release_ok s Hm) as (s1 & -> & _). cbn [res_bind]. by intros [= <-].
Qed.

(** After an error the status is written, but no completion is sent. *)
Lemma status_error fuel (s s' : st) :
  ready (vw s) (vp s) (vc s) -> counters_ok (vp s) -> cmd_state (vc s) = 8 \/ cmd_state (vc s) = 9 \/ cmd_state (vc s) = 12 ->
  virtq_cmd_progress fuel s VIRTQ_CMD_SM_OP_ERR = Ok s' ->
  cmd_state (vc s') = 12 /\ fatal_err (vp s') = true /\ completions (vw s') = completions (vw s).
Proof.
  revert s. induction fuel as [|fuel IH]; intros s Hr Hco Hst Hrun; [done|].
  destruct Hst as [Hst|[Hst|Hst]].
  - pose proof (write_status_handles s VIRTQ_CMD_SM_OP_ERR Hr Hst) as Hh.
    pose proof (write_status_calm s VIRTQ_CMD_SM_OP_ERR) as Hc.
    rewrite (progress_unfold _ s _ virtq_sm_write_status) in Hrun by (rewrite Hst; done).
    destruct (virtq_sm_write_status s VIRTQ_CMD_SM_OP_ERR) as [[s1 rep]| | |] eqn:Hw; cbn [res_bind] in Hrun; try done.
    apply write_status_goes_on in Hw as ->. destruct Hh as (_ & Hr1 & Hlt & Hsc), Hc as (Hc & _ & Hs1).
    destruct (IH s1 Hr1 (counters_ok_same _ _ Hsc Hco) ltac:(lia) Hrun) as (? & ? & ?). split_and!; [done|done|congruence].
  - pose proof (send_completion_handles s VIRTQ_CMD_SM_OP_ERR Hr Hco ltac:(by left)) as Hh.
    rewrite (progress_unfold _ s _ virtq_sm_send_completion) in Hrun by (rewrite Hst; done).
    cbn [virtq_sm_send_completion res_bind] in Hrun, Hh. destruct Hh as (_ & Hr1 & _ & Hsc).
    destruct (IH _ Hr1 (counters_ok_same _ _ Hsc Hco) ltac:(by right; right) Hrun) as (? & ? & ?). done.
  - pose proof (fatal_flag _ _ _ _ Hr Hst Hrun). apply final_calm in Hrun as (? & _ & ?); [|apply Hr|by right].
    split_and!; [lia|done|done].
Qed.

(** From the states in which a command waits for the DMA queue, the error it is resumed
    with makes it fail. *)
Lemma error_fails (a : st) :
  ready (vw a) (vp a) (vc a) -> counters_ok (vp a) ->
  cmd_state (vc a) = 1 \/ cmd_state (vc a) = 3 \/ cmd_state (vc a) = 5 \/ cmd_state (vc a) = 8 ->
  exists s', virtq_cmd_progress sm_fuel a VIRTQ_CMD_SM_OP_ERR = Ok s' /\ cmd_state (vc s') = VIRTQ_CMD_STATE_FATAL_ERR /\
    fatal_err (vp s') = true /\ completions (vw s') = completions (vw a).
Proof.
  intros Hra Hca Hst.
  pose proof (progress_settles sm_fuel a VIRTQ_CMD_SM_OP_ERR Hra Hca) as Hset.
  assert (13 - cmd_state (vc a) <= Z.of_nat sm_fuel) as Hfuel by (unfold sm_fuel; destruct Hra; lia). specialize (Hset Hfuel).
  assert (exists b rep, virtq_cmd_progress sm_fuel a VIRTQ_CMD_SM_OP_ERR =
      (if rep : bool then virtq_cmd_progress 13 b VIRTQ_CMD_SM_OP_ERR else virtq_cmd_progress sm_fuel b VIRTQ_CMD_SM_OP_ERR) /\
      ready (vw b) (vp b) (vc b) /\ counters_ok (vp b) /\ (cmd_state (vc b) = 8 \/ cmd_state (vc b) = 9 \/ cmd_state (vc b) = 12) /\
      completions (vw b) = completions (vw a)) as (b & rep & Heq & Hrb & Hcb & Hsb & Hcomp).
  { destruct Hst as [Hst|[Hst|[Hst|Hst]]].
    - pose proof (fetch_handles a VIRTQ_CMD_SM_OP_ERR Hra Hca Hst) as Hh. unfold sm_fuel.
      rewrite (progress_unfold _ a _ virtq_sm_fetch_cmd_descs) by (rewrite Hst; done). cbn [virtq_sm_fetch_cmd_descs res_bind] in *.
      destruct Hh as (_ & Hr1 & _ & Hsc). eexists _, true. split_and!; [reflexivity|exact Hr1|by eapply counters_ok_same|by right; right|done].
    - pose proof (parse_header_handles a VIRTQ_CMD_SM_OP_ERR Hra Hca Hst) as Hh. unfold sm_fuel.
      rewrite (progress_unfold _ a _ blk_virtq_sm_parse_header) by (rewrite Hst; done). cbn [blk_virtq_sm_parse_header res_bind] in *.
      destruct Hh as (_ & Hr1 & _ & Hsc). eexists _, true. split_and!; [reflexivity|exact Hr1|by eapply counters_ok_same|by left|done].
    - pose proof (handle_req_handles a VIRTQ_CMD_SM_OP_ERR Hra Hca Hst) as Hh. unfold sm_fuel.
      rewrite (progress_unfold _ a _ blk_virtq_sm_handle_req) by (rewrite Hst; done). cbn [blk_virtq_sm_handle_req res_bind] in *.
      destruct Hh as (_ & Hr1 & _ & Hsc). eexists _, true. split_and!; [reflexivity|exact Hr1|by eapply counters_ok_same|by left|done].
    - exists a, false. split_and!; try done. by left. }
  rewrite Heq in Hset |- *. assert (exists s', (if rep then virtq_cmd_progress 13 b VIRTQ_CMD_SM_OP_ERR else virtq_cmd_progress sm_fuel b VIRTQ_CMD_SM_OP_ERR) = Ok s') as [s' Hs'].
  { pose proof (progress_settles (if rep then 13%nat else sm_fuel) b VIRTQ_CMD_SM_OP_ERR Hrb Hcb) as Hb.
    assert (13 - cmd_state (vc b) <= Z.of_nat (if rep then 13%nat else sm_fuel)) as Hfb by (unfold sm_fuel; destruct rep; lia).
    specialize (Hb Hfb). destruct rep; destruct (virtq_cmd_progress _ b _); try (by eauto); try done; lia. }
  rewrite Hs'. exists s'.
  assert (cmd_state (vc s') = 12 /\ fatal_err (vp s') = true /\ completions (vw s') = completions (vw b)) as (? & ? & ?)
    by (destruct rep; by eapply status_error).
  split_and!; try done. congruence.
Qed.

(** C33: When the last operation of a command on the DMA queue completes with an error, in
    any state a created queue reaches while the DMA queue accepts every write of data,
    while its descriptors, its header or its data are moved, the command fails for good: it
    is not completed, and the queue is marked as failed. *)
Theorem dma_error_is_fatal an vbq attr (q : vq) i l1 l2 c d
    (Hreach : reached an vbq attr q)
    (Hl : in_dma (qw q) = l1 ++ i :: l2)
    (Hc : cmd_arr q !! i = Some c)
    (Hlast : dma_count c = 1) :
  exists q' c', on_cmd (q ⦇ qw := (qw q) ⦇ in_dma := l1 ++ l2 ⦈ ⦈) i (dma_done d VIRTQ_CMD_SM_OP_ERR) = Ok (q', tt) /\
    cmd_arr q' !! i = Some c' /\ cmd_state c' = VIRTQ_CMD_STATE_FATAL_ERR /\
    fatal_err (qp q') = true /\ completions (qw q') = completions (qw q).
Proof.
  pose proof (vo_inv _ (reached_ok _ _ _ _ Hreach)) as Hinv. pose proof (vi_idx _ Hinv _ _ Hc) as Hi.
  destruct (dma_removed _ _ _ _ Hl) as (_ & Hn & _ & _).
  destruct (dma_starts q i l1 l2 d VIRTQ_CMD_SM_OP_ERR Hinv Hl) as (c1 & Hc1 & _ & [(Hne & _)|(s & Hs & Hst & ->)]);
    assert (c1 = c) as -> by congruence; [done|].
  assert (cmd_state c = 1 \/ cmd_state c = 3 \/ cmd_state c = 5 \/ cmd_state c = 8) as Hwait.
  { pose proof (ss_live _ _ _ _ Hs) as Hlive.
    destruct (dma_waiter _ _ _ (vi_settled _ Hinv _ _ Hc)) as [[? _]|[[? _] _]]; [rewrite Hi; lia|lia|tauto]. }
  destruct Hs as [[_ Hr _ _ _ _ Hh Hb Ht Hf] Htr _ _ _ _ _ _].
  assert (counters_ok (vp s)) as Hco by (split; rewrite ?Hh, ?Hb, ?Ht, ?Hf; apply u32_range).
  destruct (error_fails s Hr Hco) as (s' & Hs' & Hst' & Hfe & Hcomp); [by rewrite Hst|].
  unfold serve, progress_cmd. rewrite Hs'. cbn [res_bind]. eexists _, (vc s'). split; [reflexivity|]. cbn [cmd_arr qp qw].
  split_and!; [apply list_lookup_insert_eq; by eapply lookup_lt_Some|done|done|]. rewrite Hcomp. unfold completions. by rewrite Htr.
Qed.

(** A command that counts no operation and has none in flight. *)
Definition stuck (q : vq) (i : nat) (c : bcmd) : Prop :=
  cmd_arr q !! i = Some c /\ cmd_state c = VIRTQ_CMD_STATE_WRITE_STATUS /\ dma_count c = 0 /\ quiet (qw q) c /\
  swq_state (qp q) <> SW_VIRTQ_SUSPENDED.

(** An event changes one command, its own operations and nothing else. *)
Lemma serve_frame (q q' : vq) i c s status :
  taken q i c s -> serve q i s status = Ok (q', tt) ->
  world_frame i (qw q) (qw q') /\ exists d, cmd_arr q' = <[i := d]> (cmd_arr q).
Proof.
  intros Htk Hrun. assert (counters_ok (vp s)) as Hco.
  { destruct Htk as [_ _ _ _ _ _ Hh Hb Ht Hf]. split; rewrite ?Hh, ?Hb, ?Ht, ?Hf; apply u32_range. }
  pose proof Htk as [_ Hr Hi Hw _ _ _ _ _ _].
  pose proof (progress_settles sm_fuel s status Hr Hco) as Hset. unfold serve, progress_cmd in Hrun.
  destruct (virtq_cmd_progress sm_fuel s status) as [s'| | |]; cbn [res_bind] in Hrun; try done. injection Hrun as <-.
  destruct Hset as [(Hw' & _) _]; [unfold sm_fuel; destruct Hr; lia|]. rewrite Hi in Hw'. cbn [qw cmd_arr].
  split; [by eapply world_frame_trans|eauto].
Qed.

Lemma event_frame (q q' : vq) :
  vq_inv q -> vq_event q q' ->
  exists j c d, cmd_arr q !! j = Some c /\ world_frame j (qw q) (qw q') /\ cmd_arr q' = <[j := d]> (cmd_arr q) /\
    (free_slot c \/ ~ quiet (qw q) c).
Proof.
  intros Hinv Hev. destruct Hev as [m q' b _ Hfree Hrun|i l1 l2 d status q' Hl Hrun|i l1 l2 ok q' Hl Hrun|i l1 l2 d k q' Hl Hrun].
  - destruct (rx_starts q m Hinv Hfree) as (c & Hc & Hf & [[_ (c' & _ & Hrx)]|[_ [Hrx|(s & Htk & _ & _ & _ & _ & _ & _ & Hrx)]]]);
      rewrite Hrx in Hrun; [|done|].
    + injection Hrun as <- <-. exists (rx_slot (qp q) m), c, c'. split_and!; auto with snap.
    + destruct (serve q _ s _) as [[q1 []]| | |] eqn:Hs; cbn [res_bind fst] in Hrun; try done. injection Hrun as <- <-.
      destruct (serve_frame _ _ _ _ _ _ Htk Hs) as [? [d ?]]. exists (rx_slot (qp q) m), c, d. auto.
  - destruct (dma_removed _ _ _ _ Hl) as (Hw & Hn & _).
    destruct (dma_starts q i l1 l2 d status Hinv Hl) as (c & Hc & _ & [(_ & c' & _ & _ & _ & Hr)|(s & Hs & _ & Hr)]); rewrite Hr in Hrun.
    + injection Hrun as <-. exists i, c, c'. split_and!; auto. right. intros (Hq & _). rewrite (vi_idx _ Hinv _ _ Hc) in Hq. lia.
    + destruct (serve_frame _ _ _ _ _ _ (ss_taken _ _ _ _ Hs) Hrun) as [? [d' ?]]. exists i, c, d'. split_and!; auto.
      right. intros (Hq & _). rewrite (vi_idx _ Hinv _ _ Hc) in Hq. lia.
  - destruct (bdev_removed _ _ _ _ Hl) as (Hw & Hn & _). destruct (bdev_starts q i l1 l2 ok Hinv Hl) as (c & s & Hs & _ & Hr).
    rewrite Hr in Hrun. destruct (serve_frame _ _ _ _ _ _ (ss_taken _ _ _ _ Hs) Hrun) as [? [d' ?]].
    pose proof (tk_cmd _ _ _ _ (ss_taken _ _ _ _ Hs)) as Hc. exists i, c, d'. split_and!; auto.
    right. intros (_ & Hq & _). rewrite (vi_idx _ Hinv _ _ Hc) in Hq. lia.
  - destruct (pool_removed _ _ _ _ Hl) as (Hw & Hn & _). destruct (pool_starts q i l1 l2 d k Hinv Hl) as (c & s & Hs & _ & Hr).
    rewrite Hr in Hrun. destruct (serve_frame _ _ _ _ _ _ (ss_taken _ _ _ _ Hs) Hrun) as [? [d' ?]].
    pose proof (tk_cmd _ _ _ _ (ss_taken _ _ _ _ Hs)) as Hc. exists i, c, d'. split_and!; auto.
    right. intros (_ & _ & Hq). rewrite (vi_idx _ Hinv _ _ Hc) in Hq. lia.
Qed.

(** No event concerns a stuck command. *)
Lemma stuck_event (q q' : vq) i c : vq_inv q -> stuck q i c -> accepted_event q q' -> stuck q' i c.
Proof.
  intros Hinv (Hc & Hst & Hd & Hq & Hsw) Hev. pose proof (vi_idx _ Hinv _ _ Hc) as Hi.
  destruct (event_inv _ _ Hinv Hev) as [_ Hsw']. destruct Hev as [Hev _].
  destruct (event_frame q q' Hinv Hev) as (j & d & d' & Hj & Hw & Harr & Hnot).
  assert (i <> j) as Hij.
  { intros <-. simplify_eq. destruct Hnot as [Hf|]; [|done]. unfold free_slot in Hf. st_lia. }
  split_and!; try done.
  - by rewrite Harr, list_lookup_insert_ne.
  - destruct Hw as [_ Hwd Hwb Hwp], Hq as (Hqd & Hqb & Hqp). unfold quiet. rewrite Hi in *. rewrite Hwd, Hwb, Hwp; auto.
  - by rewrite Hsw'.
Qed.

Lemma stuck_events (q q' : vq) i c :
  vq_inv q -> stuck q i c -> star accepted_event q q' -> stuck q' i c /\ vq_inv q'.
Proof.
  intros Hinv Hs Hrun. revert Hinv Hs. induction Hrun as [q|q1 q2 q3 Hev _ IH]; intros Hinv Hs; [done|].
  apply IH; [by apply (event_inv _ _ Hinv Hev)|by eapply stuck_event].
Qed.

(** The queue cannot be suspended: the command counts as one to the host. *)
Lemma stuck_check (q : vq) i c : vq_inv q -> stuck q i c -> virtq_check_outstanding_progress_suspend (qp q) = false.
Proof.
  intros Hinv (Hc & Hst & _ & (_ & Hqb & Hqp) & _).
  assert (outstanding_to_host (qp q) <> 0) as Hne.
  { rewrite (vi_host _ Hinv). rewrite (counter_zero _ q Hinv) by (intros c'; unfold host_c; case_match; lia).
    intros Hall. specialize (Hall i c Hc). unfold host_c in Hall. rewrite Hst, Hqb, Hqp in Hall. done. }
  apply Z.eqb_neq in Hne. unfold virtq_check_outstanding_progress_suspend. rewrite Hne, !andb_false_r. by destruct (negb _).
Qed.

Lemma stuck_step (q q' : vq) i c : vq_ok q -> stuck q i c -> vq_step q q' -> stuck q' i c.
Proof.
  intros [Hinv Hnr _] Hs Hstep. destruct Hstep as [q' Hev|polled flushed tid q' Hpoll Hfl Hrun Hnr'|pg|].
  - by eapply stuck_event.
  - unfold virtq_progress in Hrun. destruct (decide (swq_state (qp q) = SW_VIRTQ_SUSPENDED)); [by simplify_eq|].
    destruct (polled _) as [q1| | |] eqn:Hp; cbn [res_bind] in Hrun; try done. apply Hpoll in Hp.
    assert (stuck q1 i c /\ vq_inv q1) as [Hs1 Hinv1].
    { refine (stuck_events _ _ i c _ _ Hp); [|exact Hs]. by apply (vq_inv_priv _ ((qp q) ⦇ thread_id := tid ⦈)). }
    assert (no_refused (qw q1)) as Hnr1.
    { clear -Hp Hnr. remember (q ⦇ qp := (qp q) ⦇ thread_id := tid ⦈ ⦈) as q0 eqn:Hq0.
      assert (no_refused (qw q0)) as H0' by by rewrite Hq0. clear Hq0 Hnr. induction Hp as [|? ? ? [_ ?]]; auto. }
    assert (exists q2, (if force_in_order (qp q1) then virtq_progress_unordered q1 else Ok q1) = Ok q2 /\ vq_inv q2 /\ stuck q2 i c)
      as (q2 & Hq2 & Hinv2 & Hs2).
    { destruct (force_in_order (qp q1)); [|eauto].
      destruct (progress_unordered_ok q1 Hinv1 Hnr1) as (q2 & ? & Hinv2 & _ & Hsw2 & Hlen & Hcmds & Hpend). exists q2. split_and!; try done.
      destruct Hs1 as (Hc1 & Hst & Hd & Hq & Hsw).
      assert (cmd_arr q2 !! i = Some c) as Hc2.
      { destruct (lookup_lt_is_Some_2 (cmd_arr q2) i) as [c2 Hc2]; [rewrite Hlen; by eapply lookup_lt_Some|].
        destruct (Hcmds i c c2 Hc1 Hc2) as [->|[? _]]; [done|st_lia]. }
      split_and!; try done; [by eapply same_pending_quiet|by rewrite Hsw2]. }
    rewrite Hq2 in Hrun. cbn [res_bind] in Hrun. destruct (decide (swq_state (qp q2) = SW_VIRTQ_FLUSHING)); [|by injection Hrun as <-].
    unfold virtq_progress_suspend in Hrun. rewrite (stuck_check q2 i c Hinv2 Hs2) in Hrun. by injection Hrun as <-.
  - exact Hs.
  - unfold virtq_suspend. destruct (decide _); [|done]. destruct Hs as (? & ? & ? & ? & ?). by split_and!.
Qed.

Lemma stuck_forever (q q' : vq) i c : vq_ok q -> stuck q i c -> star vq_step q q' -> stuck q' i c.
Proof.
  intros Hok Hs Hrun. revert Hok Hs. induction Hrun as [q|q1 q2 q3 Hst _ IH]; intros Hok Hs; [done|].
  apply IH; [by eapply step_ok|by eapply stuck_step].
Qed.

(** The answer of the device to a read without data descriptors leaves the command stuck. *)
Lemma empty_read_stuck (s : st) status :
  desc_ok (vc s) -> num_desc (vc s) = 2 -> status = VIRTQ_CMD_SM_OP_OK ->
  exists s', blk_virtq_sm_handle_in_iov_done s status = Ok (s', false) /\ vw s' = vw s /\ dma_count (vc s') = 0 /\
    cmd_state (vc s') = VIRTQ_CMD_STATE_WRITE_STATUS.
Proof.
  intros Hd Hn ->. cbn [blk_virtq_sm_handle_in_iov_done]. destruct (data_descs_ok 2 (vc s) Hd) as [-> _]; [lia|].
  rewrite Hn. cbn [res_bind]. change (Z.to_nat (2 - 2)) with 0%nat. rewrite take_0. cbn [in_data_loop res_bind negb Z.eqb].
  eexists. split; [reflexivity|]. done.
Qed.

Lemma in_data_frame (s s' : st) :
  blk_virtq_sm_handle_in_iov_done s VIRTQ_CMD_SM_OP_OK = Ok (s', false) -> num_desc (vc s) = 2 ->
  swq_state (vp s') = swq_state (vp s) /\ cmd_idx (vc s') = cmd_idx (vc s).
Proof.
  intros Hrun Hn. cbn [blk_virtq_sm_handle_in_iov_done] in Hrun. unfold data_descs in Hrun. rewrite Hn in Hrun.
  destruct (2 <? 2); [done|]. destruct (_ <? _); [done|]. cbn [res_bind] in Hrun.
  change (Z.to_nat (2 - 2)) with 0%nat in Hrun. rewrite take_0 in Hrun. cbn [in_data_loop res_bind negb Z.eqb] in Hrun.
  by injection Hrun as <-.
Qed.

(** A read request that has a header and a status but no data is never completed: when
    the device has answered, the command waits for zero DMA operations, so no event ever
    resumes it, whatever happens afterwards; and the queue it is on is never suspended. *)
Theorem empty_read_hangs an vbq attr q q' i c c0
    (Hreach : reached an vbq attr q)
    (Hc0 : cmd_arr q !! i = Some c0)
    (Hst : cmd_state c0 = VIRTQ_CMD_STATE_IN_DATA_DONE)
    (Hnum : num_desc c0 = 2)
    (Hsw : swq_state (qp q) <> SW_VIRTQ_SUSPENDED)
    (q1 : vq) l1 l2 (Hl : in_bdev (qw q) = l1 ++ i :: l2)
    (Hdone : on_cmd (q ⦇ qw := (qw q) ⦇ in_bdev := l1 ++ l2 ⦈ ⦈) i (fun s => bdev_io_comp_cb s true) = Ok (q1, tt))
    (Hc : cmd_arr q1 !! i = Some c)
    (Hwrites : no_refused (qw q1))
    (Hrun : star vq_step q1 q') :
  cmd_arr q' !! i = Some c /\ cmd_state c = VIRTQ_CMD_STATE_WRITE_STATUS /\ virtq_is_suspended q' = false.
Proof.
  pose proof (reached_ok _ _ _ _ Hreach) as Hok. pose proof (vo_inv _ Hok) as Hinv. pose proof (vi_idx _ Hinv _ _ Hc0) as Hi0.
  assert (vq_ok q1) as Hok1 by (eapply event_ok_step; [exact Hok|split; [by eapply ev_bdev|done]]).
  assert (stuck q1 i c) as Hs.
  { pose proof (vi_settled _ Hinv _ _ Hc0) as Hset. destruct (bdev_removed _ _ _ _ Hl) as (_ & Hn & Hnd & Hnp).
    assert (waits_bdev (qw q) c0) as (_ & Hio & Hqd & Hqp & Hqb) by (eapply bdev_waiter; [done|rewrite Hi0; lia]).
    destruct Hset as (_ & _ & Hdesc & _). rewrite Hst in Hdesc. specialize (Hdesc ltac:(st_lia)).
    unfold on_cmd in Hdone. cbn [cmd_arr qw qp upd_field] in Hdone. rewrite Hc0 in Hdone.
    unfold bdev_io_comp_cb in Hdone. cbn [vc vp vw] in Hdone. destruct (io_cmd_stat c0) as [k|]; [|done].
    unfold progress_cmd, sm_fuel in Hdone.
    match type of Hdone with context [virtq_cmd_progress 14 ?s0 _] => set (s := s0) in Hdone;
      assert (vc s = c0 /\ vw s = (qw q) ⦇ in_bdev := l1 ++ l2 ⦈ /\ swq_state (vp s) = swq_state (qp q)) as (Hvc & Hvw & Hvp) by (by destruct k) end.
    clearbody s. rewrite (progress_unfold _ s _ blk_virtq_sm_handle_in_iov_done) in Hdone by (rewrite Hvc, Hst; done).
    pose proof (empty_read_stuck s VIRTQ_CMD_SM_OP_OK) as He. rewrite Hvc in He. destruct (He Hdesc Hnum eq_refl) as (s' & Hs' & Hw' & Hd' & Hst').
    pose proof (in_data_frame s s' Hs' ltac:(by rewrite Hvc)) as [Hsw' Hi'].
    rewrite Hs' in Hdone. cbn [res_bind] in Hdone. injection Hdone as <-. cbn [cmd_arr qw qp] in *.
    rewrite list_lookup_insert_eq in Hc by (by eapply lookup_lt_Some). injection Hc as <-.
    split_and!; [apply list_lookup_insert_eq; by eapply lookup_lt_Some|done|done| |cbn [qp]; congruence].
    cbn [qw]. rewrite Hw', Hvw. unfold quiet. rewrite Hi', Hvc. rewrite Hi0 in *. split_and!; lia. }
  destruct (stuck_forever q1 q' i c Hok1 Hs Hrun) as (? & ? & _ & _ & Hns). split_and!; try done.
  unfold virtq_is_suspended. by apply bool_decide_eq_false.
Qed.

End Failures.

(** * Concrete requests *)

Module ServeRun.
Import Run.

#[export] Instance accepts_ok : Accepts unit.
Proof. intros e op Hop. by destruct op. Qed.

(** A write of 1024 bytes in two descriptors, and a read without data. *)
Definition request_w : tunnel_req :=
  mk_req 2 4 0 [mk_desc 1000 16 VRING_DESC_F_NEXT 1; mk_desc 5000 512 VRING_DESC_F_NEXT 2;
                mk_desc 7000 512 VRING_DESC_F_NEXT 3; mk_desc 9000 1 VRING_DESC_F_WRITE 0] [].
Definition request_e : tunnel_req :=
  mk_req 2 2 0 [mk_desc 1000 16 VRING_DESC_F_NEXT 1; mk_desc 9000 1 VRING_DESC_F_WRITE 0] [].

(** The first command of a queue whose header has arrived. *)
Definition header (q : vq) (type : Z) : vst unit blk_virtq_cmd :=
  mk_vst (qw q) (qp q) (deliver (ReadHeader type 8) (default zero_cmd (cmd_arr q !! 0%nat)) ⦇ dma_count := 0 ⦈).

Definition w1 : vq := run (blk_virtq_rx_cb q0 request_w) q0.

Ltac start := first [vm_compute; reflexivity | left; vm_compute; reflexivity].

Lemma plain_q1 : plain (vp (header q1 VIRTIO_BLK_T_IN)).
Proof. vm_compute. by split_and!. Qed.

Lemma plain_w1 : plain (vp (header w1 VIRTIO_BLK_T_OUT)).
Proof. vm_compute. by split_and!. Qed.

Lemma small_q1 : small (vc (header q1 VIRTIO_BLK_T_IN)).
Proof. split_and!; [split; vm_compute; intuition discriminate|vm_compute; discriminate|done|done]. Qed.

Lemma small_w1 : small (vc (header w1 VIRTIO_BLK_T_OUT)).
Proof. split_and!; [split; vm_compute; intuition discriminate|vm_compute; discriminate|done|done]. Qed.

Lemma read_request_served_witness :
  exists s1 s2 s3, virtq_cmd_progress sm_fuel (header q1 VIRTIO_BLK_T_IN) VIRTQ_CMD_SM_OP_OK = Ok s1 /\
    trace (vw s1) = [(DmaRead 0 1099511652352 16 5 1000 77, 0); (BdevRead 0 1099511627776 4096 1024 0, 0)] /\
    bdev_io_comp_cb s1 true = Ok (s2, tt) /\ dma_count (vc s2) = 1 /\
    sm_dma_cb s2 VIRTQ_CMD_SM_OP_OK = Ok (s3, tt) /\ cmd_state (vc s3) = VIRTQ_CMD_STATE_RELEASE.
Proof.
  destruct (read_request_served (eq_refl : @provider config = SNAP_HW_Q_PROVIDER) (header q1 VIRTIO_BLK_T_IN))
    as (s1 & s2 & s3 & Hrun & Htr & Hb & _ & Hcnt & _ & Hd & _ & Hst);
    [start|start|exact plain_q1|exact small_q1|start|vm_compute; discriminate|right; start|].
  exists s1, s2, s3. split; [exact Hrun|]. split; [rewrite Htr; vm_compute; reflexivity|]. split; [exact Hb|].
  split; [rewrite Hcnt; vm_compute; reflexivity|]. by split.
Defined.

Lemma write_request_served_witness :
  exists s1, virtq_cmd_progress sm_fuel (header w1 VIRTIO_BLK_T_OUT) VIRTQ_CMD_SM_OP_OK = Ok s1 /\ dma_count (vc s1) = 2.
Proof.
  destruct (write_request_served (eq_refl : @provider config = SNAP_HW_Q_PROVIDER) (header w1 VIRTIO_BLK_T_OUT)) as (s1 & _ & _ & Hrun & _ & Hcnt & _);
    [start|start|exact plain_w1|exact small_w1|start|vm_compute; discriminate|right; start|].
  exists s1. split; [exact Hrun|]. rewrite Hcnt. vm_compute. reflexivity.
Defined.

Lemma dma_error_is_fatal_witness :
  exists q' c', on_cmd (q1 ⦇ qw := (qw q1) ⦇ in_dma := [] ++ [] ⦈ ⦈) 0 (dma_done ReadBulk VIRTQ_CMD_SM_OP_ERR) = Ok (q', tt) /\
    cmd_arr q' !! 0%nat = Some c' /\ cmd_state c' = VIRTQ_CMD_STATE_FATAL_ERR.
Proof.
  destruct (dma_error_is_fatal answers vbq attr q1 0 [] [] (default zero_cmd (cmd_arr q1 !! 0%nat)) ReadBulk reached_q1)
    as (q' & c' & Hrun & Hc & Hst & _); [vm_compute; reflexivity..|].
  exists q', c'. split; [exact Hrun|]. split; [exact Hc|exact Hst].
Defined.

(** The read without data: its header arrives, then the device answers. *)
Definition e1 : vq := run (blk_virtq_rx_cb q0 request_e) q0.
Definition e2 : vq := run (on_cmd (e1 ⦇ qw := (qw e1) ⦇ in_dma := [] ⦈ ⦈) 0 (dma_done (ReadHeader VIRTIO_BLK_T_IN 8) VIRTQ_CMD_SM_OP_OK)) e1.
Definition e3 : vq := run (on_cmd (e2 ⦇ qw := (qw e2) ⦇ in_bdev := [] ⦈ ⦈) 0 (fun s => bdev_io_comp_cb s true)) e2.
Definition e4 : vq := fst (virtq_suspend e3).

Lemma run_e1 : vq_step q0 e1.
Proof.
  apply vs_event. split; [|by apply no_refused_run; vm_compute]. apply (ev_rx q0 request_e e1 true); [done| |by vm_compute].
  eexists. split; [by vm_compute|by left].
Qed.

Lemma run_e2 : vq_step e1 e2.
Proof.
  apply vs_event. split; [|by apply no_refused_run; vm_compute].
  apply (ev_dma e1 0 [] [] (ReadHeader VIRTIO_BLK_T_IN 8) VIRTQ_CMD_SM_OP_OK e2); by vm_compute.
Qed.

Lemma reached_e2 : reached answers vbq attr e2.
Proof. apply reached_from. eapply star_step; [apply run_e1|]. eapply star_step; [apply run_e2|apply star_refl]. Qed.

Lemma empty_read_hangs_witness : swq_state (qp e4) = SW_VIRTQ_FLUSHING /\ virtq_is_suspended e4 = false.
Proof.
  split; [vm_compute; reflexivity|].
  refine (proj2 (proj2 (empty_read_hangs answers vbq attr e2 e4 0 (default zero_cmd (cmd_arr e3 !! 0%nat))
    (default zero_cmd (cmd_arr e2 !! 0%nat)) reached_e2 _ _ _ _ e3 [] [] _ _ _ _ _))); try (vm_compute; reflexivity).
  - vm_compute. discriminate.
  - by apply no_refused_run; vm_compute.
  - eapply star_step; [apply vs_suspend|apply star_refl].
Defined.

End ServeRun.
