(* ===== verification/Ctrl.v ===== *)
(** The virtio controller: src/ctrl/snap_virtio_common_ctrl.c.

    A controller owns the queues of an emulated device.  Its admin thread polls the
    configuration space of the device ([snap_virtio_ctrl_progress]) and starts, suspends
    and stops the queues when the driver of the host, a reset or live migration asks for
    it; the polling threads serve the queues of their group
    ([snap_virtio_ctrl_pg_io_progress]).

    Queues are heap objects: [cs_heap] holds those that are allocated, the controller and
    the lists of the polling groups hold their addresses, and following the address of a
    freed queue is undefined behaviour.  What the controller calls (queue implementation,
    configuration space, callbacks of the application) is the interface [CtrlOps]. *)

From stdpp Require Import gmap.
From S2P Require Import Prelude Effects PollGroups.

(** * Data *)

Inductive snap_virtio_ctrl_state :=
| SNAP_VIRTIO_CTRL_STOPPED | SNAP_VIRTIO_CTRL_STARTED | SNAP_VIRTIO_CTRL_SUSPENDED | SNAP_VIRTIO_CTRL_SUSPENDING.
#[export] Instance ctrl_state_eq_dec : EqDecision snap_virtio_ctrl_state.
Proof. solve_decision. Defined.

Inductive snap_virtio_ctrl_lm_state :=
| SNAP_VIRTIO_CTRL_LM_INIT | SNAP_VIRTIO_CTRL_LM_RUNNING | SNAP_VIRTIO_CTRL_LM_QUIESCED | SNAP_VIRTIO_CTRL_LM_FREEZED.
#[export] Instance lm_state_eq_dec : EqDecision snap_virtio_ctrl_lm_state.
Proof. solve_decision. Defined.

(** [enum snap_virtio_common_device_status] *)
Definition SNAP_VIRTIO_DEVICE_S_DRIVER_OK : Z := 4.
Definition SNAP_VIRTIO_DEVICE_S_DEVICE_NEEDS_RESET : Z := 64.

(** Masks of [bar_ops->modify]. *)
Definition SNAP_VIRTIO_MOD_DEV_STATUS : Z := 2 ^ 0.
Definition SNAP_VIRTIO_MOD_RESET : Z := 2 ^ 2.
Definition SNAP_VIRTIO_MOD_PCI_HOTPLUG_STATE : Z := 2 ^ 10.
Definition MLX5_EMULATION_HOTPLUG_STATE_HOTUNPLUG_PREPARE : Z := 2.

Definition SNAP_VIRTIO_ADMIN_STATUS_Q_OK : Z := 0.
Definition SNAP_VIRTIO_ADMIN_STATUS_Q_TRYAGAIN : Z := 7.

(** The attributes of a queue the controller reads and writes. *)
Record vq_attr := mk_qattr {
  qa_size : Z; qa_msix_vector : Z; qa_enable : Z; qa_notify_off : Z; qa_desc : Z; qa_driver : Z; qa_device : Z
}.

(** [struct snap_virtio_device_attr] with the queue attributes behind it; [dev_cfg] is
    the part of the device type. *)
Record snap_virtio_device_attr (D : Type) := mk_bar {
  device_feature : Z; driver_feature : Z; msix_config : Z; bar_max_queues : Z; pci_bdf : Z;
  bar_status : Z; bar_enabled : bool; bar_reset : bool; num_of_vfs : Z; config_generation : Z;
  device_feature_select : Z; driver_feature_select : Z; queue_select : Z; pci_hotplug_state : Z;
  q_attrs : list vq_attr;
  dev_cfg : D
}.
Arguments mk_bar {D}. Arguments device_feature {D}. Arguments driver_feature {D}. Arguments msix_config {D}.
Arguments bar_max_queues {D}. Arguments pci_bdf {D}. Arguments bar_status {D}. Arguments bar_enabled {D}.
Arguments bar_reset {D}. Arguments num_of_vfs {D}. Arguments config_generation {D}. Arguments device_feature_select {D}.
Arguments driver_feature_select {D}. Arguments queue_select {D}. Arguments pci_hotplug_state {D}. Arguments q_attrs {D}.
Arguments dev_cfg {D}.
#[export] Instance bar_settable D : Settable (snap_virtio_device_attr D) :=
  fun r => mk_bar (device_feature r) (driver_feature r) (msix_config r) (bar_max_queues r) (pci_bdf r) (bar_status r)
             (bar_enabled r) (bar_reset r) (num_of_vfs r) (config_generation r) (device_feature_select r)
             (driver_feature_select r) (queue_select r) (pci_hotplug_state r) (q_attrs r) (dev_cfg r).

(** [struct snap_virtio_ctrl_queue]; [q_dev] is the queue of the device type. *)
Record snap_virtio_ctrl_queue (Q : Type) := mk_queue {
  q_index : nat; q_pg : option nat; q_log : bool; q_thread : Z; q_dev : Q
}.
Arguments mk_queue {Q}. Arguments q_index {Q}. Arguments q_pg {Q}. Arguments q_log {Q}. Arguments q_thread {Q}. Arguments q_dev {Q}.
#[export] Instance queue_settable Q : Settable (snap_virtio_ctrl_queue Q) :=
  fun r => mk_queue (q_index r) (q_pg r) (q_log r) (q_thread r) (q_dev r).

Record snap_device := mk_sdev { transitional_device : bool }.

(** [struct snap_virtio_ctrl]: [queues] are the addresses of the queues, [q_lists] the
    queues of each polling group. *)
Record snap_virtio_ctrl (D : Type) := mk_ctrl {
  c_state : snap_virtio_ctrl_state;
  progress_lock : bool;
  sdev : option snap_device;
  max_queues : nat;
  queues : list (option nat);
  bar_curr : snap_virtio_device_attr D;
  bar_prev : snap_virtio_device_attr D;
  pg_ctx : snap_pg_ctx;
  q_lists : list (list nat);
  log_writes_to_host : bool;
  pending_reset : bool;
  ignore_reset : bool;
  pending_flr : bool;
  lm_state : snap_virtio_ctrl_lm_state;
  is_quiesce : bool;
  quiesce_cmd : option Z;
  pending_resume : bool
}.
Arguments mk_ctrl {D}. Arguments c_state {D}. Arguments progress_lock {D}. Arguments sdev {D}. Arguments max_queues {D}.
Arguments queues {D}. Arguments bar_curr {D}. Arguments bar_prev {D}. Arguments pg_ctx {D}. Arguments q_lists {D}.
Arguments log_writes_to_host {D}. Arguments pending_reset {D}. Arguments ignore_reset {D}. Arguments pending_flr {D}.
Arguments lm_state {D}. Arguments is_quiesce {D}. Arguments quiesce_cmd {D}. Arguments pending_resume {D}.
#[export] Instance ctrl_settable D : Settable (snap_virtio_ctrl D) :=
  fun r => mk_ctrl (c_state r) (progress_lock r) (sdev r) (max_queues r) (queues r) (bar_curr r) (bar_prev r) (pg_ctx r)
             (q_lists r) (log_writes_to_host r) (pending_reset r) (ignore_reset r) (pending_flr r) (lm_state r)
             (is_quiesce r) (quiesce_cmd r) (pending_resume r).

(** The whole state: the surroundings, the counters of the polling groups (shared by the
    controllers of the process), the queues that are allocated and the controller.
    [cs_destroyed] records the queues that were destroyed. *)
Record cstate (W D Q : Type) := mk_cstate {
  cs_env : W;
  cs_glob : pg_globals;
  cs_heap : gmap nat (snap_virtio_ctrl_queue Q);
  cs_next : nat;
  cs_destroyed : list (snap_virtio_ctrl_queue Q);
  cs_ctrl : snap_virtio_ctrl D
}.
Arguments mk_cstate {W D Q}. Arguments cs_env {W D Q}. Arguments cs_glob {W D Q}. Arguments cs_heap {W D Q}.
Arguments cs_next {W D Q}. Arguments cs_destroyed {W D Q}. Arguments cs_ctrl {W D Q}.
#[export] Instance cstate_settable W D Q : Settable (cstate W D Q) :=
  fun r => mk_cstate (cs_env r) (cs_glob r) (cs_heap r) (cs_next r) (cs_destroyed r) (cs_ctrl r).

(** * What the controller calls

    [struct snap_virtio_queue_ops], [struct snap_virtio_ctrl_bar_ops] and
    [struct snap_virtio_ctrl_bar_cbs]; [None] is a null pointer.  Every call may change the
    surroundings [W]; the calls on queues may change the device part of the configuration.
    [q_ready] tells whether the device type has what [q_start] and [q_progress] use without
    a test: a queue that was created while the controller is suspended has not. *)
Class CtrlOps (W D Q : Type) := {
  q_create : W -> snap_virtio_ctrl D -> nat -> W * D * option Q;
  q_destroy : W -> snap_virtio_ctrl D -> snap_virtio_ctrl_queue Q -> W * D;
  q_progress : W -> snap_virtio_ctrl_queue Q -> W * Q * Z;
  q_start : option (W -> snap_virtio_ctrl_queue Q -> W * Q);
  q_suspend : option (W -> snap_virtio_ctrl_queue Q -> W * Q);
  q_is_suspended : Q -> bool;
  q_ready : Q -> bool;
  q_resume : option (W -> snap_virtio_ctrl D -> snap_virtio_ctrl_queue Q -> W * D * Q * Z);
  q_is_admin : option (Q -> bool);
  bar_ops_copy : snap_virtio_device_attr D -> snap_virtio_device_attr D -> snap_virtio_device_attr D;
  bar_ops_update : W -> snap_virtio_device_attr D -> W * snap_virtio_device_attr D * Z;
  bar_ops_modify : W -> Z -> snap_virtio_device_attr D -> W * Z;
  cb_validate : option (W -> W * Z);
  cb_start : option (W -> W * Z);
  cb_stop : option (W -> W * Z);
  cb_num_vfs_changed : option (W -> Z -> W * Z);
  cb_pre_flr : option (W -> W * Z);
  cb_post_flr : option (W -> W * Z);
  snap_rescan_vfs : W -> Z -> W * Z;
  snap_close_device : W -> W;
  snap_open_device : W -> W * option snap_device;
  snap_adm_cmd_complete : W -> option Z -> Z -> W
}.

Section Ctrl.
Context {W D Q : Type} `{!CtrlOps W D Q}.
#[local] Abbreviation C := (M (cstate W D Q)).
#[local] Abbreviation bar := (snap_virtio_device_attr D).
#[local] Abbreviation queue := (snap_virtio_ctrl_queue Q).

(** * Access to the state *)

Definition ctrl : C (snap_virtio_ctrl D) := gets cs_ctrl.
Definition upd_ctrl (f : snap_virtio_ctrl D -> snap_virtio_ctrl D) : C unit := modify (fun s => s ⦇ cs_ctrl := f (cs_ctrl s) ⦈).
Definition upd_curr (f : bar -> bar) : C unit := upd_ctrl (fun c => c ⦇ bar_curr := f (bar_curr c) ⦈).
Definition set_state (v : snap_virtio_ctrl_state) : C unit := upd_ctrl (fun c => c ⦇ c_state := v ⦈).
Definition snap_virtio_ctrl_set_lm_state (v : snap_virtio_ctrl_lm_state) : C unit := upd_ctrl (fun c => c ⦇ lm_state := v ⦈).

(** A call of the surroundings. *)
Definition call_env {A} (f : W -> W * A) : C A :=
  fun s => let '(w, a) := f (cs_env s) in Ok (s ⦇ cs_env := w ⦈, a).

(** A callback that may be null. *)
Definition call_cb (f : option (W -> W * Z)) : C Z :=
  match f with Some f => call_env f | None => mreturn 0 end.

(** Reading and writing a queue through its address. *)
Definition deref (id : nat) : C queue := fun s => match cs_heap s !! id with Some q => Ok (s, q) | None => Oob end.
Definition upd_queue (id : nat) (f : queue -> queue) : C unit :=
  fun s => match cs_heap s !! id with Some q => Ok (s ⦇ cs_heap := <[id := f q]> (cs_heap s) ⦈, tt) | None => Oob end.

Definition get_slot (i : nat) : C (option nat) :=
  fun s => match queues (cs_ctrl s) !! i with Some o => Ok (s, o) | None => Oob end.
Definition set_slot (i : nat) (o : option nat) : C unit :=
  fun s => match aset (queues (cs_ctrl s)) i o with
           | Some l => Ok (s ⦇ cs_ctrl := (cs_ctrl s) ⦇ queues := l ⦈ ⦈, tt)
           | None => Oob
           end.

(** [for (i = ..; i < max_queues; i++)] over the queues that exist. *)
Fixpoint each_queue (l : list nat) (f : nat -> nat -> C unit) : C unit :=
  match l with
  | [] => mreturn tt
  | i :: l =>
      let! o := get_slot i in
      do! match o with Some id => f i id | None => mreturn tt end in
      each_queue l f
  end.

Definition all_slots : C (list nat) := let! c := ctrl in mreturn (seq 0 (max_queues c)).

(** * Locks *)

Definition snap_virtio_ctrl_progress_lock : C unit :=
  let! c := ctrl in
  if progress_lock c then never_returns else upd_ctrl (fun c => c ⦇ progress_lock := true ⦈).
Definition snap_virtio_ctrl_progress_unlock : C unit :=
  let! c := ctrl in
  if progress_lock c then upd_ctrl (fun c => c ⦇ progress_lock := false ⦈) else undefined.

Definition pgs_suspend : C unit :=
  let! c := ctrl in
  let! p := m_opt never_returns (snap_pgs_suspend (pg_ctx c)) in upd_ctrl (fun c => c ⦇ pg_ctx := p ⦈).
Definition pgs_resume : C unit :=
  let! c := ctrl in
  let! p := m_opt undefined (snap_pgs_resume (pg_ctx c)) in upd_ctrl (fun c => c ⦇ pg_ctx := p ⦈).

(** [pthread_spin_lock(&pg->lock)] and its counterpart, for the [g]-th group. *)
Definition pg_set_lock (g : nat) (from : bool) (wrong : C unit) : C unit :=
  let! c := ctrl in
  match pgs (pg_ctx c) !! g with
  | None => undefined
  | Some pg =>
      if eqb (locked pg) from
      then upd_ctrl (fun c => c ⦇ pg_ctx := mk_ctx (<[g := mk_pg (pg_id pg) (negb from)]> (pgs (pg_ctx c))) (npgs (pg_ctx c)) ⦈)
      else wrong
  end.
Definition pg_lock (g : nat) : C unit := pg_set_lock g false never_returns.
Definition pg_unlock (g : nat) : C unit := pg_set_lock g true undefined.

(** * Configuration space *)

Definition SNAP_VIRTIO_CTRL_RESET_DETECTED (c : snap_virtio_ctrl D) : bool := bar_reset (bar_curr c).
Definition SNAP_VIRTIO_CTRL_FLR_DETECTED (c : snap_virtio_ctrl D) : bool := negb (bar_enabled (bar_curr c)).
Definition SNAP_VIRTIO_CTRL_LIVE_DETECTED (c : snap_virtio_ctrl D) : bool :=
  has_flag (bar_status (bar_curr c)) SNAP_VIRTIO_DEVICE_S_DRIVER_OK.

Definition snap_virtio_ctrl_critical_bar_change_detected (c : snap_virtio_ctrl D) : bool :=
  negb (bar_status (bar_curr c) =? bar_status (bar_prev c)) || negb (eqb (bar_enabled (bar_curr c)) (bar_enabled (bar_prev c)))
  || SNAP_VIRTIO_CTRL_RESET_DETECTED c || SNAP_VIRTIO_CTRL_FLR_DETECTED c.

Definition snap_virtio_ctrl_bar_copy (orig copy : bar) : bar :=
  (bar_ops_copy orig copy) ⦇ bar_status := bar_status orig ⦈ ⦇ bar_enabled := bar_enabled orig ⦈
    ⦇ bar_reset := bar_reset orig ⦈ ⦇ num_of_vfs := num_of_vfs orig ⦈ ⦇ pci_hotplug_state := pci_hotplug_state orig ⦈.

(** [bar_ops->update(ctrl, ctrl->bar_curr)] *)
Definition bar_query : C Z :=
  let! c := ctrl in
  let! r := call_env (fun w => let '(w, b, ret) := bar_ops_update w (bar_curr c) in (w, (b, ret))) in
  do! upd_curr (fun _ => fst r) in mreturn (snd r).

Definition snap_virtio_ctrl_bar_update : C Z :=
  do! upd_ctrl (fun c => c ⦇ bar_prev := snap_virtio_ctrl_bar_copy (bar_curr c) (bar_prev c) ⦈) in bar_query.

(** [snap_virtio_ctrl_bar_modify(ctrl, mask, ctrl->bar_curr)] *)
Definition snap_virtio_ctrl_bar_modify (mask : Z) : C Z :=
  let! c := ctrl in call_env (fun w => bar_ops_modify w mask (bar_curr c)).

Definition to_virtio_queue_attr (b : bar) (i : nat) : C vq_attr := m_opt undefined (q_attrs b !! i).

Definition get_sdev : C snap_device := let! c := ctrl in m_opt undefined (sdev c).

(** * Queues *)

Definition is_admin (q : Q) : bool := match q_is_admin with Some f => f q | None => false end.

Definition snap_virtio_ctrl_sched_q_nolock (id g : nat) : C unit :=
  let! c := ctrl in
  match q_lists c !! g with
  | None => undefined
  | Some l =>
      do! upd_ctrl (fun c => c ⦇ q_lists := <[g := l ++ [id]]> (q_lists c) ⦈) in
      do! upd_queue id (fun q => q ⦇ q_pg := Some g ⦈) in
      match q_start with
      | None => mreturn tt
      | Some start =>
          let! q := deref id in
          if negb (q_ready (q_dev q)) then undefined
          else
            let! d := call_env (fun w => start w q) in
            upd_queue id (fun q => q ⦇ q_dev := d ⦈)
      end
  end.

Definition snap_virtio_ctrl_next_pg_get (id : nat) : C nat :=
  let! q := deref id in
  let! c := ctrl in
  if is_admin (q_dev q) then
    let! p := m_res (snap_pg_get_admin (pg_ctx c)) in
    do! upd_ctrl (fun c => c ⦇ pg_ctx := p ⦈) in mreturn 0%nat
  else
    let! g := gets cs_glob in
    let! r := m_res (snap_pg_get_next g (pg_ctx c)) in
    let '(g, p, i) := r in
    do! modify (fun s => s ⦇ cs_glob := g ⦈) in
    do! upd_ctrl (fun c => c ⦇ pg_ctx := p ⦈) in mreturn i.

Definition snap_virtio_ctrl_sched_q (id : nat) : C unit :=
  let! g := snap_virtio_ctrl_next_pg_get id in
  do! pg_lock g in
  do! snap_virtio_ctrl_sched_q_nolock id g in
  pg_unlock g.

Definition snap_virtio_ctrl_desched_q_nolock (id : nat) : C unit :=
  let! q := deref id in
  match q_pg q with
  | None => mreturn tt
  | Some g =>
      let! c := ctrl in
      match q_lists c !! g with
      | None => undefined
      | Some l =>
          match TAILQ_REMOVE id l with
          | None => undefined
          | Some l' =>
              do! upd_ctrl (fun c => c ⦇ q_lists := <[g := l']> (q_lists c) ⦈) in
              upd_queue id (fun q => q ⦇ q_pg := None ⦈)
          end
      end
  end.

Definition snap_virtio_ctrl_desched_q (id : nat) : C unit :=
  let! q := deref id in
  match q_pg q with
  | None => mreturn tt
  | Some g =>
      do! pg_lock g in
      let! c := ctrl in
      do! (if is_admin (q_dev q) then mreturn tt
           else
             let! pg := m_opt undefined (pgs (pg_ctx c) !! g) in
             let! gl := gets cs_glob in
             let! gl := m_res (snap_pg_usage_decrease gl (Z.to_nat (pg_id pg))) in
             modify (fun s => s ⦇ cs_glob := gl ⦈)) in
      do! snap_virtio_ctrl_desched_q_nolock id in
      pg_unlock g
  end.

Definition snap_virtio_ctrl_is_suspended (c : snap_virtio_ctrl D) : bool := bool_decide (c_state c = SNAP_VIRTIO_CTRL_SUSPENDED).
Definition snap_virtio_ctrl_is_stopped (c : snap_virtio_ctrl D) : bool := bool_decide (c_state c = SNAP_VIRTIO_CTRL_STOPPED).

(** The address of the new queue, or [None]. *)
Definition snap_virtio_ctrl_queue_create (i : nat) : C (option nat) :=
  let! c := ctrl in
  let! r := call_env (fun w => let '(w, d, o) := q_create w c i in (w, (d, o))) in
  do! upd_curr (fun b => b ⦇ dev_cfg := fst r ⦈) in
  match snd r with
  | None => mreturn None
  | Some q =>
      let! id := gets cs_next in
      do! modify (fun s => s ⦇ cs_heap := <[id := mk_queue i None (log_writes_to_host c) 0 q]> (cs_heap s) ⦈
                             ⦇ cs_next := S id ⦈) in
      do! (if snap_virtio_ctrl_is_suspended c then mreturn tt else snap_virtio_ctrl_sched_q id) in
      mreturn (Some id)
  end.

Definition snap_virtio_ctrl_queue_destroy (id : nat) : C unit :=
  do! snap_virtio_ctrl_desched_q id in
  let! q := deref id in
  let! c := ctrl in
  let! d := call_env (fun w => q_destroy w c q) in
  do! upd_curr (fun b => b ⦇ dev_cfg := d ⦈) in
  modify (fun s => s ⦇ cs_heap := delete id (cs_heap s) ⦈ ⦇ cs_destroyed := cs_destroyed s ++ [q] ⦈).

Definition snap_virtio_ctrl_queue_progress (id : nat) : C Z :=
  let! q := deref id in
  if negb (q_ready (q_dev q)) then undefined
  else
    let! r := call_env (fun w => let '(w, d, n) := q_progress w q in (w, (d, n))) in
    do! upd_queue id (fun q => q ⦇ q_dev := fst r ⦈) in mreturn (snd r).

(** * Life cycle *)

Definition snap_virtio_ctrl_validate : C Z := call_cb cb_validate.

Definition snap_virtio_ctrl_device_error : C Z :=
  let! d := get_sdev in
  if transitional_device d then mreturn 0
  else
    do! upd_curr (fun b => b ⦇ bar_status := Z.lor (bar_status b) SNAP_VIRTIO_DEVICE_S_DEVICE_NEEDS_RESET ⦈) in
    snap_virtio_ctrl_bar_modify SNAP_VIRTIO_MOD_DEV_STATUS.

Definition snap_virtio_ctrl_clear_reset : C Z :=
  do! upd_curr (fun b => b ⦇ bar_reset := false ⦈) in
  let! ret := snap_virtio_ctrl_bar_modify SNAP_VIRTIO_MOD_RESET in
  if negb (ret =? 0) then mreturn ret
  else do! upd_curr (fun b => b ⦇ bar_status := 0 ⦈) in mreturn 0.

(** The first loop of [snap_virtio_ctrl_start]: the value to return and the index of the
    queue that could not be created. *)
Fixpoint start_queues (n i : nat) : C (Z * nat) :=
  match n with
  | O => mreturn (0, i)
  | S n' =>
      let! c := ctrl in
      let! vq := to_virtio_queue_attr (bar_curr c) i in
      let! d := get_sdev in
      let vq_enable := if transitional_device d then negb (qa_desc vq =? 0) else negb (qa_enable vq =? 0) in
      if vq_enable then
        let! id := snap_virtio_ctrl_queue_create i in
        do! set_slot i id in
        match id with
        | None => mreturn (- ENOMEM, i)
        | Some _ => start_queues n' (S i)
        end
      else start_queues n' (S i)
  end.

Definition snap_virtio_ctrl_start : C Z :=
  let! c := ctrl in
  let! ret :=
    (if bool_decide (c_state c = SNAP_VIRTIO_CTRL_STARTED) then mreturn 0
     else if bool_decide (c_state c = SNAP_VIRTIO_CTRL_SUSPENDING) then mreturn (- EINVAL)
     else
       let! r := start_queues (max_queues c) 0 in
       let '(ret, i) := r in
       let! ret :=
         (if negb (ret =? 0) then mreturn ret
          else
            let! ret := call_cb cb_start in
            if negb (ret =? 0) then do! snap_virtio_ctrl_device_error in mreturn ret
            else
              let! c := ctrl in
              do! (if bool_decide (c_state c = SNAP_VIRTIO_CTRL_SUSPENDED) then mreturn tt
                   else set_state SNAP_VIRTIO_CTRL_STARTED) in mreturn 0) in
       if negb (ret =? 0) then
         do! each_queue (seq 0 i) (fun _ id => snap_virtio_ctrl_queue_destroy id) in mreturn ret
       else mreturn ret) in
  let! c := ctrl in
  do! m_when (bool_decide (c_state c = SNAP_VIRTIO_CTRL_STARTED)) (snap_virtio_ctrl_set_lm_state SNAP_VIRTIO_CTRL_LM_RUNNING) in
  mreturn ret.

Definition snap_virtio_ctrl_stop : C Z :=
  let! c := ctrl in
  if snap_virtio_ctrl_is_stopped c then mreturn 0
  else
    let! l := all_slots in
    do! each_queue l (fun i id => do! snap_virtio_ctrl_queue_destroy id in set_slot i None) in
    let! ret := call_cb cb_stop in
    if negb (ret =? 0) then mreturn ret
    else do! set_state SNAP_VIRTIO_CTRL_STOPPED in mreturn 0.

Definition snap_virtio_ctrl_reset : C Z :=
  let! ret := snap_virtio_ctrl_stop in
  if negb (ret =? 0) then mreturn ret
  else
    let! d := get_sdev in
    let! c := ctrl in
    if negb (transitional_device d) && negb (pci_bdf (bar_curr c) =? 0) then snap_virtio_ctrl_clear_reset else mreturn ret.

Definition suspend_queue (id : nat) (f : W -> queue -> W * Q) : C unit :=
  let! q := deref id in
  let! d := call_env (fun w => f w q) in
  upd_queue id (fun q => q ⦇ q_dev := d ⦈).

Definition snap_virtio_ctrl_suspend : C Z :=
  let! c := ctrl in
  if bool_decide (c_state c = SNAP_VIRTIO_CTRL_SUSPENDING) then mreturn 0
  else if negb (bool_decide (c_state c = SNAP_VIRTIO_CTRL_STARTED)) then mreturn (- EINVAL)
  else match q_suspend with
       | None => do! set_state SNAP_VIRTIO_CTRL_SUSPENDED in mreturn 0
       | Some suspend =>
           do! pgs_suspend in
           let! l := all_slots in
           do! each_queue l (fun _ id => suspend_queue id suspend) in
           do! pgs_resume in
           do! set_state SNAP_VIRTIO_CTRL_SUSPENDING in mreturn 0
       end.

(** The loop of [snap_virtio_ctrl_resume]: the value returned and the number of queues. *)
Fixpoint resume_queues (l : list nat) (resume : W -> snap_virtio_ctrl D -> queue -> W * D * Q * Z) (n : Z) : C (Z * Z) :=
  match l with
  | [] => mreturn (0, n)
  | i :: l =>
      let! o := get_slot i in
      match o with
      | None => resume_queues l resume n
      | Some id =>
          let! q := deref id in
          let! c := ctrl in
          let! r := call_env (fun w => let '(w, d, q, ret) := resume w c q in (w, (d, q, ret))) in
          let '(d, q, ret) := r in
          do! upd_curr (fun b => b ⦇ dev_cfg := d ⦈) in
          do! upd_queue id (fun v => v ⦇ q_dev := q ⦈) in
          if negb (ret =? 0) then mreturn (ret, n)
          else
            let! q := deref id in
            let! g := match q_pg q with Some g => mreturn g | None => snap_virtio_ctrl_next_pg_get id end in
            do! snap_virtio_ctrl_desched_q_nolock id in
            do! snap_virtio_ctrl_sched_q_nolock id g in
            resume_queues l resume (n + 1)
      end
  end.

Definition snap_virtio_ctrl_resume : C Z :=
  let! c := ctrl in
  if snap_virtio_ctrl_is_stopped c then mreturn 0
  else if negb (snap_virtio_ctrl_is_suspended c) then do! upd_ctrl (fun c => c ⦇ pending_resume := true ⦈) in mreturn 0
  else match q_suspend with
       | None => do! set_state SNAP_VIRTIO_CTRL_STARTED in mreturn 0
       | Some _ =>
           match q_resume with
           | None => mreturn (- ENOTSUP)
           | Some resume =>
               do! pgs_suspend in
               let! l := all_slots in
               let! r := resume_queues l resume 0 in
               do! pgs_resume in
               if negb (fst r =? 0) then mreturn (fst r)
               else do! m_when (0 <? snd r) (set_state SNAP_VIRTIO_CTRL_STARTED) in mreturn 0
           end
       end.

Definition snap_virtio_ctrl_change_num_vfs : C Z :=
  let! c := ctrl in
  let n := num_of_vfs (bar_curr c) in
  match cb_num_vfs_changed with
  | Some f => call_env (fun w => f w n)
  | None => call_env (fun w => snap_rescan_vfs w n)
  end.

Definition complete_quiesce (status : Z) : C unit :=
  let! c := ctrl in
  do! call_env (fun w => (snap_adm_cmd_complete w (quiesce_cmd c) status, tt)) in
  upd_ctrl (fun c => c ⦇ quiesce_cmd := None ⦈).

Definition snap_virtio_ctrl_quiesce_adm_done : C unit :=
  do! snap_virtio_ctrl_set_lm_state SNAP_VIRTIO_CTRL_LM_QUIESCED in
  do! upd_ctrl (fun c => c ⦇ is_quiesce := false ⦈) in
  complete_quiesce SNAP_VIRTIO_ADMIN_STATUS_Q_OK.

(** The loop of [snap_virtio_ctrl_progress_suspend]: whether every queue is suspended. *)
Fixpoint all_suspended (l : list nat) : C bool :=
  match l with
  | [] => mreturn true
  | i :: l =>
      let! o := get_slot i in
      match o with
      | None => all_suspended l
      | Some id =>
          let! q := deref id in
          if q_is_suspended (q_dev q) then all_suspended l else mreturn false
      end
  end.

Definition snap_virtio_ctrl_progress_suspend : C unit :=
  do! pgs_suspend in
  let! l := all_slots in
  let! done := all_suspended l in
  do! pgs_resume in
  if negb done then mreturn tt
  else
    do! set_state SNAP_VIRTIO_CTRL_SUSPENDED in
    let! c := ctrl in
    do! m_when (pending_reset c)
          (do! snap_virtio_ctrl_reset in upd_ctrl (fun c => c ⦇ pending_reset := false ⦈)) in
    let! c := ctrl in
    do! m_when (is_quiesce c) snap_virtio_ctrl_quiesce_adm_done in
    let! c := ctrl in
    m_when (pending_resume c)
      (do! snap_virtio_ctrl_resume in upd_ctrl (fun c => c ⦇ pending_resume := false ⦈)).

(** * Changes of the configuration *)

(** Up to [n] attempts to open the device after a function level reset. *)
Fixpoint reopen_device (n : nat) : C unit :=
  match n with
  | O => mreturn tt
  | S n' =>
      let! d := call_env snap_open_device in
      do! upd_ctrl (fun c => c ⦇ sdev := d ⦈) in
      match d with
      | Some _ => upd_ctrl (fun c => c ⦇ pending_flr := false ⦈)
      | None => reopen_device n'
      end
  end.

(** Function level reset: [inl] is a value [snap_virtio_ctrl_change_status] returns at
    once, [inr] the value of [ret] it goes on with. *)
Definition flr : C (Z + Z) :=
  do! get_sdev in
  let! c := ctrl in
  let! r :=
    (if snap_virtio_ctrl_is_stopped c then mreturn (0, false)
     else
       do! (if bool_decide (c_state c = SNAP_VIRTIO_CTRL_STARTED) then snap_virtio_ctrl_suspend else mreturn 0) in
       let! c := ctrl in
       let! ret := (if snap_virtio_ctrl_is_suspended c then snap_virtio_ctrl_stop else mreturn 0) in
       let! c := ctrl in
       mreturn (ret, (ret =? 0) && negb (snap_virtio_ctrl_is_stopped c))) in
  let '(ret, wait) := r in
  if wait : bool then mreturn (inl 0)
  else
    let! c := ctrl in
    do! (if bool_decide (lm_state c = SNAP_VIRTIO_CTRL_LM_RUNNING) then mreturn tt
         else snap_virtio_ctrl_set_lm_state SNAP_VIRTIO_CTRL_LM_RUNNING) in
    let! pre := call_cb cb_pre_flr in
    if negb (pre =? 0) then mreturn (inl 0)
    else
      do! call_env (fun w => (snap_close_device w, tt)) in
      do! upd_ctrl (fun c => c ⦇ pending_flr := true ⦈) in
      do! reopen_device 100 in
      do! call_cb cb_post_flr in
      let! c := ctrl in
      if negb (pending_flr c) then
        do! upd_curr (fun b => b ⦇ bar_status := 0 ⦈ ⦇ bar_enabled := false ⦈ ⦇ bar_reset := false ⦈) in mreturn (inl 0)
      else match sdev c with None => mreturn (inl (- ENODEV)) | Some _ => mreturn (inr ret) end.

(** The driver reset the device. *)
Definition reset_request (ret : Z) : C Z :=
  let! d := get_sdev in
  do! m_when (transitional_device d) (upd_ctrl (fun c => c ⦇ ignore_reset := true ⦈)) in
  do! snap_virtio_ctrl_suspend in
  let! c := ctrl in
  if snap_virtio_ctrl_is_stopped c || snap_virtio_ctrl_is_suspended c then snap_virtio_ctrl_reset
  else do! upd_ctrl (fun c => c ⦇ pending_reset := true ⦈) in mreturn ret.

(** [again] is the call of [snap_virtio_ctrl_progress] that queries the device again. *)
Definition snap_virtio_ctrl_change_status (again : C unit) : C Z :=
  let finish (ret : Z) : C Z :=
    do! (if negb (ret =? 0) then snap_virtio_ctrl_device_error else mreturn 0) in mreturn ret in
  let! c := ctrl in
  let! r := (if SNAP_VIRTIO_CTRL_FLR_DETECTED c then flr else mreturn (inr 0)) in
  match r with
  | inl ret => mreturn ret
  | inr ret =>
      let! c := ctrl in
      let! ret := (if negb (ignore_reset c) && SNAP_VIRTIO_CTRL_RESET_DETECTED c then reset_request ret else mreturn ret) in
      let! c := ctrl in
      if SNAP_VIRTIO_CTRL_LIVE_DETECTED c then
        let! d := get_sdev in
        if transitional_device d && SNAP_VIRTIO_CTRL_RESET_DETECTED c then
          let! ret := snap_virtio_ctrl_clear_reset in
          if negb (ret =? 0) then finish ret
          else
            do! upd_ctrl (fun c => c ⦇ ignore_reset := false ⦈) in
            do! snap_virtio_ctrl_progress_unlock in
            do! again in mreturn 0
        else
          let! ret := snap_virtio_ctrl_validate in
          if negb (ret =? 0) then finish ret else let! ret := snap_virtio_ctrl_start in finish ret
      else finish ret
  end.

(** The body between taking and releasing the lock. *)
Definition progress_body (again : C unit) : C unit :=
  let! c := ctrl in
  if pending_flr c then mreturn tt
  else
    do! m_when (bool_decide (c_state c = SNAP_VIRTIO_CTRL_SUSPENDING)) snap_virtio_ctrl_progress_suspend in
    let! ret := snap_virtio_ctrl_bar_update in
    if negb (ret =? 0) then mreturn tt
    else
      let! c := ctrl in
      do! (if snap_virtio_ctrl_critical_bar_change_detected c then snap_virtio_ctrl_change_status again else mreturn 0) in
      let! c := ctrl in
      if pending_flr c then mreturn tt
      else
        do! (if negb (num_of_vfs (bar_curr c) =? num_of_vfs (bar_prev c)) then snap_virtio_ctrl_change_num_vfs else mreturn 0) in
        mreturn tt.

(** [fuel] bounds the nested calls. *)
Fixpoint snap_virtio_ctrl_progress (fuel : nat) : C unit :=
  match fuel with
  | O => never_returns
  | S fuel' =>
      do! snap_virtio_ctrl_progress_lock in
      do! progress_body (snap_virtio_ctrl_progress fuel') in
      snap_virtio_ctrl_progress_unlock
  end.

Definition snap_virtio_ctrl_hotunplug : C Z :=
  do! upd_curr (fun b => b ⦇ pci_hotplug_state := MLX5_EMULATION_HOTPLUG_STATE_HOTUNPLUG_PREPARE ⦈) in
  snap_virtio_ctrl_bar_modify SNAP_VIRTIO_MOD_PCI_HOTPLUG_STATE.

(** * Polling *)

Fixpoint progress_list (l : list nat) (thread_id n : Z) : C Z :=
  match l with
  | [] => mreturn n
  | id :: l =>
      do! upd_queue id (fun q => q ⦇ q_thread := thread_id ⦈) in
      let! k := snap_virtio_ctrl_queue_progress id in
      progress_list l thread_id (n + k)
  end.

Definition snap_virtio_ctrl_pg_thread_io_progress (g : nat) (thread_id : Z) : C Z :=
  do! pg_lock g in
  let! c := ctrl in
  let! l := m_opt undefined (q_lists c !! g) in
  let! n := progress_list l thread_id 0 in
  do! pg_unlock g in mreturn n.

Definition snap_virtio_ctrl_pg_io_progress (g : nat) : C Z := snap_virtio_ctrl_pg_thread_io_progress g (Z.of_nat g).

Fixpoint io_progress_groups (l : list nat) (n : Z) : C Z :=
  match l with
  | [] => mreturn n
  | g :: l => let! k := snap_virtio_ctrl_pg_thread_io_progress g (-1) in io_progress_groups l (n + k)
  end.

Definition snap_virtio_ctrl_io_progress : C Z :=
  let! c := ctrl in io_progress_groups (seq 0 (Z.to_nat (npgs (pg_ctx c)))) 0.

(** * Live migration *)

Definition snap_virtio_ctrl_log_writes (enable : bool) : C unit :=
  do! pgs_suspend in
  let! l := all_slots in
  do! each_queue l (fun _ id => upd_queue id (fun q => q ⦇ q_log := enable ⦈)) in
  do! pgs_resume in
  upd_ctrl (fun c => c ⦇ log_writes_to_host := enable ⦈).

Definition with_lock {A} (m : C A) : C A :=
  do! snap_virtio_ctrl_progress_lock in
  let! a := m in
  do! snap_virtio_ctrl_progress_unlock in mreturn a.

Definition lm_running (c : snap_virtio_ctrl D) : bool :=
  bool_decide (lm_state c = SNAP_VIRTIO_CTRL_LM_RUNNING) || bool_decide (lm_state c = SNAP_VIRTIO_CTRL_LM_INIT).

(** The answer to the command is given after the lock is released, unless the controller
    has to be suspended first. *)
Definition snap_virtio_ctrl_quiesce_adm : C Z :=
  let! r := with_lock (
    let! c := ctrl in
    if negb (lm_running c) then mreturn (Some (- EINVAL))
    else if snap_virtio_ctrl_is_stopped c then
      do! snap_virtio_ctrl_set_lm_state SNAP_VIRTIO_CTRL_LM_QUIESCED in mreturn (Some 0)
    else
      let! ret := snap_virtio_ctrl_suspend in
      if negb (ret =? 0) then mreturn (Some ret)
      else do! upd_ctrl (fun c => c ⦇ is_quiesce := true ⦈) in mreturn None) in
  match r with
  | None => mreturn 0
  | Some ret =>
      do! complete_quiesce (if negb (ret =? 0) then SNAP_VIRTIO_ADMIN_STATUS_Q_TRYAGAIN else SNAP_VIRTIO_ADMIN_STATUS_Q_OK) in
      mreturn ret
  end.

Definition snap_virtio_ctrl_unquiesce : C Z :=
  with_lock (
    let! c := ctrl in
    if negb (bool_decide (lm_state c = SNAP_VIRTIO_CTRL_LM_QUIESCED)) then mreturn (- EINVAL)
    else
      let! ret := snap_virtio_ctrl_resume in
      if negb (ret =? 0) then mreturn ret
      else do! snap_virtio_ctrl_set_lm_state SNAP_VIRTIO_CTRL_LM_RUNNING in mreturn 0).

Definition snap_virtio_ctrl_freeze : C Z :=
  with_lock (
    let! c := ctrl in
    if negb (bool_decide (lm_state c = SNAP_VIRTIO_CTRL_LM_QUIESCED)) then mreturn (- EINVAL)
    else
      do! bar_query in
      do! snap_virtio_ctrl_set_lm_state SNAP_VIRTIO_CTRL_LM_FREEZED in mreturn 0).

Definition snap_virtio_ctrl_unfreeze : C Z :=
  with_lock (
    let! c := ctrl in
    if negb (bool_decide (lm_state c = SNAP_VIRTIO_CTRL_LM_FREEZED)) then mreturn (- EINVAL)
    else do! snap_virtio_ctrl_set_lm_state SNAP_VIRTIO_CTRL_LM_QUIESCED in mreturn 0).

Definition snap_virtio_ctrl_start_dirty_pages_track : C Z := do! with_lock (snap_virtio_ctrl_log_writes true) in mreturn 0.
Definition snap_virtio_ctrl_stop_dirty_pages_track : C Z := do! with_lock (snap_virtio_ctrl_log_writes false) in mreturn 0.

Definition snap_virtio_ctrl_get_lm_state : C snap_virtio_ctrl_lm_state := with_lock (let! c := ctrl in mreturn (lm_state c)).

End Ctrl.
