(* ===== verification/CtrlInv.v ===== *)
(** The invariant of the controller, and that every operation of Ctrl.v keeps it.

    [shape] ties the addresses held by the controller and by the polling groups to the
    queues that are allocated and to the usage counters; [life] is what an operation on queues leaves alone. *)

From stdpp Require Import gmap.
From S2P Require Import Prelude Effects PollGroups Ctrl.

Tactic Notation "crec" :=
  cbn [upd_field device_feature driver_feature msix_config bar_max_queues pci_bdf bar_status bar_enabled bar_reset num_of_vfs
       config_generation device_feature_select driver_feature_select queue_select pci_hotplug_state q_attrs dev_cfg
       q_index q_pg q_log q_thread q_dev c_state progress_lock sdev max_queues queues bar_curr bar_prev pg_ctx q_lists
       log_writes_to_host pending_reset ignore_reset pending_flr lm_state is_quiesce quiesce_cmd pending_resume
       cs_env cs_glob cs_heap cs_next cs_destroyed cs_ctrl pgs npgs pg_id locked virtio_pg_usage virtio_pg_ref_count fst snd].
Tactic Notation "crec" "in" "*" :=
  cbn [upd_field device_feature driver_feature msix_config bar_max_queues pci_bdf bar_status bar_enabled bar_reset num_of_vfs
       config_generation device_feature_select driver_feature_select queue_select pci_hotplug_state q_attrs dev_cfg
       q_index q_pg q_log q_thread q_dev c_state progress_lock sdev max_queues queues bar_curr bar_prev pg_ctx q_lists
       log_writes_to_host pending_reset ignore_reset pending_flr lm_state is_quiesce quiesce_cmd pending_resume
       cs_env cs_glob cs_heap cs_next cs_destroyed cs_ctrl pgs npgs pg_id locked virtio_pg_usage virtio_pg_ref_count fst snd] in *.

(** * The queues, the lists and the counters *)

Section Inv.
Context {W D Q : Type} `{!CtrlOps W D Q}.
#[local] Abbreviation C := (M (cstate W D Q)).
#[local] Abbreviation queue := (snap_virtio_ctrl_queue Q).
#[local] Abbreviation sys := (cstate W D Q).

(** A queue that counts for the usage of its group. *)
Definition counts (h : gmap nat queue) (id : nat) : Prop :=
  match h !! id with Some q => is_admin (q_dev q) = false | None => False end.
#[local] Instance counts_dec h id : Decision (counts h id).
Proof. unfold counts. destruct (h !! id); apply _. Defined.

Definition load (h : gmap nat queue) (l : list nat) : Z := Z.of_nat (length (base.filter (counts h) l)).

(** [u0] is the usage of the groups by others; [ids] are the numbers stored in the groups. *)
Record shape (u0 : nat -> Z) (g : pg_globals) (h : gmap nat queue) (n : nat) (qs : list (option nat))
    (ls : list (list nat)) (ids : list Z) : Prop := {
  sh_slot i id : qs !! i = Some (Some id) -> exists q, h !! id = Some q /\ q_index q = i;
  sh_next id q : h !! id = Some q -> (id < n)%nat;
  sh_lists : length ls = length ids;
  sh_nodup k l : ls !! k = Some l -> NoDup l;
  sh_list k l id : ls !! k = Some l -> id ∈ l <-> exists q, h !! id = Some q /\ q_pg q = Some k;
  sh_pg id q k : h !! id = Some q -> q_pg q = Some k -> ids !! k = Some (Z.of_nat k);
  sh_ready id q : h !! id = Some q -> q_pg q <> None -> q_ready (q_dev q) = true;
  sh_usage : exists usage, virtio_pg_usage g = Some usage /\ (length ids <= length usage)%nat /\
    forall k l, ls !! k = Some l -> usage !! k = Some (u64 (u0 k + load h l));
}.

Definition shaped (u0 : nat -> Z) (s : sys) : Prop :=
  shape u0 (cs_glob s) (cs_heap s) (cs_next s) (queues (cs_ctrl s)) (q_lists (cs_ctrl s)) (map pg_id (pgs (pg_ctx (cs_ctrl s)))).

Definition same_role (q q' : queue) : Prop :=
  q_index q' = q_index q /\ q_pg q' = q_pg q /\
  (q_pg q <> None -> is_admin (q_dev q') = is_admin (q_dev q) /\ (q_ready (q_dev q) = true -> q_ready (q_dev q') = true)).

Lemma counts_insert h id q q' : h !! id = Some q -> is_admin (q_dev q') = is_admin (q_dev q) ->
  forall j, counts (<[id := q']> h) j <-> counts h j.
Proof.
  intros Hq Ha j. unfold counts. destruct (decide (j = id)) as [->|]; [|by rewrite lookup_insert_ne].
  by rewrite lookup_insert_eq, Hq, Ha.
Qed.

Lemma load_iff h h' l : (forall j, j ∈ l -> counts h' j <-> counts h j) -> load h' l = load h l.
Proof.
  intros Hiff. unfold load. do 2 f_equal. induction l as [|j l IH]; [done|].
  rewrite !filter_cons. rewrite IH by (intros; apply Hiff; set_solver). pose proof (Hiff j ltac:(set_solver)).
  by destruct (decide (counts h' j)), (decide (counts h j)); try tauto.
Qed.

(** Changing a queue without changing its place. *)
Lemma shape_role u0 g h n qs ls ids id q q' :
  shape u0 g h n qs ls ids -> h !! id = Some q -> same_role q q' -> shape u0 g (<[id := q']> h) n qs ls ids.
Proof.
  intros [Hslot Hnext Hlen Hnd Hlist Hpg Hrd Hus] Hq (Hi & Hp & Ha).
  assert (forall j v, <[id := q']> h !! j = Some v -> exists v0, h !! j = Some v0 /\ q_index v = q_index v0 /\ q_pg v = q_pg v0) as Hback.
  { intros j v. destruct (decide (j = id)) as [->|]; [rewrite lookup_insert_eq; intros [= <-]; eauto|rewrite lookup_insert_ne by done; eauto]. }
  assert (forall j v, h !! j = Some v -> exists v', <[id := q']> h !! j = Some v' /\ q_index v' = q_index v /\ q_pg v' = q_pg v) as Hfwd.
  { intros j v Hv. destruct (decide (j = id)) as [->|]; [rewrite lookup_insert_eq; simplify_eq; eauto|rewrite lookup_insert_ne by done; eauto]. }
  split; auto.
  - intros i j Hj. destruct (Hslot i j Hj) as (v & Hv & Hvi). destruct (Hfwd j v Hv) as (v' & ? & ? & _). exists v'. split; [done|congruence].
  - intros j v Hv. destruct (Hback j v Hv) as (v0 & Hv0 & _). eauto.
  - intros k l j Hl. rewrite (Hlist k l j Hl). split; intros (v & Hv & Hk).
    + destruct (Hfwd j v Hv) as (v' & ? & _ & ?). exists v'. split; [done|congruence].
    + destruct (Hback j v Hv) as (v' & ? & _ & ?). exists v'. split; [done|congruence].
  - intros j v k Hv Hk. destruct (Hback j v Hv) as (v0 & Hv0 & _ & Hk0). apply (Hpg j v0); congruence.
  - intros j v [[<- <-]|[Hne Hv]]%lookup_insert_Some Hk; [|by eapply Hrd]. rewrite Hp in Hk. apply Ha; [done|]. by eapply Hrd.
  - destruct Hus as (usage & Hu & Hul & Hc). exists usage. split_and!; auto. intros k l Hl. rewrite (Hc k l Hl). do 2 f_equal.
    f_equal. symmetry. apply load_iff. intros j (v & Hv & Hk)%(Hlist k l j Hl). unfold counts.
    destruct (decide (j = id)) as [->|]; [|by rewrite lookup_insert_ne]. simplify_eq. rewrite lookup_insert_eq, Hq. destruct Ha as [-> _]; [congruence|done].
Qed.

Definition bump (u0 : nat -> Z) (k : nat) (d : Z) : nat -> Z := fun j => if decide (j = k) then u0 j + d else u0 j.
Definition weight (q : queue) : Z := if is_admin (q_dev q) then 0 else 1.

Lemma bump_back u0 k d : forall j, bump (bump u0 k d) k (- d) j = u0 j.
Proof. intros j. unfold bump. destruct (decide (j = k)); lia. Qed.

Lemma shape_ext u0 u1 g h n qs ls ids : (forall j, u1 j = u0 j) -> shape u0 g h n qs ls ids -> shape u1 g h n qs ls ids.
Proof.
  intros Hu [Hslot Hnext Hlen Hnd Hlist Hpg Hrd (usage & ? & ? & Hc)]. split; auto. exists usage. split_and!; auto.
  intros k l Hl. rewrite Hu. by apply Hc.
Qed.

(** A new queue, not on a list. *)
Lemma shape_new u0 g h n qs ls ids q :
  q_pg q = None -> shape u0 g h n qs ls ids -> shape u0 g (<[n := q]> h) (S n) qs ls ids.
Proof.
  intros Hq [Hslot Hnext Hlen Hnd Hlist Hpg Hrd (usage & Hu & Hul & Hc)].
  assert (forall j v, h !! j = Some v -> j <> n) as Hne by (intros j v Hv ->; apply Hnext in Hv; lia).
  split; auto.
  - intros i id Hi. destruct (Hslot i id Hi) as (v & Hv & ?). exists v. by rewrite lookup_insert_ne by (by apply not_eq_sym, (Hne id v)).
  - intros id v. destruct (decide (id = n)) as [->|]; [lia|]. rewrite lookup_insert_ne by done. intros Hv%Hnext. lia.
  - intros k l id Hl. rewrite (Hlist k l id Hl). split; intros (v & Hv & Hk).
    + exists v. by rewrite lookup_insert_ne by (by apply not_eq_sym, (Hne id v)).
    + destruct (decide (id = n)) as [->|]; [rewrite lookup_insert_eq in Hv; congruence|].
      rewrite lookup_insert_ne in Hv by done. eauto.
  - intros id v k. destruct (decide (id = n)) as [->|]; [rewrite lookup_insert_eq; congruence|]. rewrite lookup_insert_ne by done. apply Hpg.
  - intros j v [[<- <-]|[_ Hv]]%lookup_insert_Some Hk; [done|by eapply Hrd].
  - exists usage. split_and!; auto. intros k l Hl. rewrite (Hc k l Hl). do 3 f_equal. symmetry. apply load_iff.
    intros j (v & Hv & _)%(Hlist k l j Hl). unfold counts. by rewrite lookup_insert_ne by (by apply not_eq_sym, (Hne j v)).
Qed.

Lemma shape_slots u0 g h n qs qs' ls ids :
  (forall i id, qs' !! i = Some (Some id) -> qs !! i = Some (Some id) \/ exists q, h !! id = Some q /\ q_index q = i) ->
  shape u0 g h n qs ls ids -> shape u0 g h n qs' ls ids.
Proof. intros Hq [Hslot Hnext Hlen Hnd Hlist Hpg Hrd Hus]. split; auto. intros i id [?|?]%Hq; auto. Qed.

(** A queue that is on no list is freed, its place in the table is cleared. *)
Lemma shape_delete u0 g h n qs ls ids id q i :
  h !! id = Some q -> q_pg q = None -> i = q_index q ->
  shape u0 g h n qs ls ids -> shape u0 g (delete id h) n (<[i := None]> qs) ls ids.
Proof.
  intros Hq Hnone -> [Hslot Hnext Hlen Hnd Hlist Hpg Hrd (usage & Hu & Hul & Hc)].
  split; auto.
  - intros i j Hj. destruct (decide (i = q_index q)) as [->|Hne].
    { apply list_lookup_insert_Some in Hj as [(_ & ? & _)|[? _]]; done. }
    rewrite list_lookup_insert_ne in Hj by done. destruct (Hslot i j Hj) as (v & Hv & Hi). exists v. split; [|done].
    rewrite lookup_delete_ne; [done|]. intros <-. congruence.
  - intros j v [_ Hv]%lookup_delete_Some. eauto.
  - intros k l j Hl. rewrite (Hlist k l j Hl). split; intros (v & Hv & Hk).
    + exists v. split; [|done]. rewrite lookup_delete_ne; [done|]. intros <-. congruence.
    + apply lookup_delete_Some in Hv as [_ Hv]. eauto.
  - intros j v k [_ Hv]%lookup_delete_Some. eauto.
  - intros j v [_ Hv]%lookup_delete_Some. eauto.
  - exists usage. split_and!; auto. intros k l Hl. rewrite (Hc k l Hl). do 3 f_equal. symmetry. apply load_iff.
    intros j (v & Hv & Hk)%(Hlist k l j Hl). unfold counts. rewrite lookup_delete_ne; [done|]. intros <-. congruence.
Qed.

Lemma counts_iff h id q : h !! id = Some q -> counts h id <-> weight q = 1.
Proof. intros Hq. unfold counts, weight. rewrite Hq. by destruct (is_admin _). Qed.

Lemma load_app h l1 l2 : load h (l1 ++ l2) = load h l1 + load h l2.
Proof. unfold load. rewrite filter_app, length_app. lia. Qed.

Lemma load_one h id q : h !! id = Some q -> load h [id] = weight q.
Proof.
  intros Hq. unfold load. pose proof (counts_iff h id q Hq) as Hc. rewrite filter_cons, filter_nil.
  destruct (decide (counts h id)) as [Hd|Hd]; [symmetry; by apply Hc|]. unfold weight in *. by destruct (is_admin _); [|tauto].
Qed.

(** A queue is put on a list. *)
Lemma shape_append u0 g h n qs ls ids id q k l :
  h !! id = Some q -> q_pg q = None -> q_ready (q_dev q) = true -> ls !! k = Some l -> ids !! k = Some (Z.of_nat k) ->
  shape (bump u0 k (weight q)) g h n qs ls ids ->
  shape u0 g (<[id := q ⦇ q_pg := Some k ⦈]> h) n qs (<[k := l ++ [id]]> ls) ids.
Proof.
  intros Hq Hnone Hready Hl Hid [Hslot Hnext Hlen Hnd Hlist Hpg Hrd (usage & Hu & Hul & Hc)].
  assert (forall j, counts (<[id := q ⦇ q_pg := Some k ⦈]> h) j <-> counts h j) as Hcnt by (apply (counts_insert h id q); done).
  assert (id ∉ l) as Hin by (rewrite (Hlist k l id Hl); intros (v & Hv & ?); congruence).
  pose proof (lookup_lt_Some _ _ _ Hl) as Hk.
  split.
  - intros i j Hj. destruct (Hslot i j Hj) as (v & Hv & Hi). destruct (decide (j = id)) as [->|].
    + simplify_eq. eexists. by rewrite lookup_insert_eq.
    + exists v. by rewrite lookup_insert_ne by done.
  - intros j v. destruct (decide (j = id)) as [->|]; [intros _; eauto|]. rewrite lookup_insert_ne by done. eauto.
  - by rewrite length_insert.
  - intros j l' Hj. apply list_lookup_insert_Some in Hj as [(<- & <- & _)|[_ Hj]]; [|eauto].
    apply NoDup_app. split_and!; [by eapply Hnd|set_solver|apply NoDup_singleton].
  - intros j l' x Hj. destruct (decide (x = id)) as [->|Hx].
    + rewrite lookup_insert_eq. apply list_lookup_insert_Some in Hj as [(<- & <- & _)|[Hne Hj]].
      * split; [intros _; eexists; by split|set_solver].
      * rewrite (Hlist j l' id Hj). split; [intros (v & ? & ?); congruence|intros (v & [= <-] & Hv)]. cbn in Hv. congruence.
    + rewrite lookup_insert_ne by done. apply list_lookup_insert_Some in Hj as [(<- & <- & _)|[Hne Hj]]; [|by apply Hlist].
      rewrite <- (Hlist k l x Hl). set_solver.
  - intros j v k' Hv Hk'. destruct (decide (j = id)) as [->|]; [rewrite lookup_insert_eq in Hv; simplify_eq; cbn in Hk'; congruence|].
    rewrite lookup_insert_ne in Hv by done. eauto.
  - intros j v [[<- <-]|[Hne Hv]]%lookup_insert_Some Hk'; [done|by eapply Hrd].
  - exists usage. split_and!; auto. intros j l' Hj. apply list_lookup_insert_Some in Hj as [(<- & <- & _)|[Hne Hj]].
    + rewrite (Hc k l Hl). unfold bump. rewrite decide_True by done. do 2 f_equal.
      rewrite (load_iff h (<[id := _]> h)) by (intros; apply Hcnt). rewrite load_app, (load_one h id q Hq). lia.
    + rewrite (Hc j l' Hj). unfold bump. rewrite decide_False by done. do 3 f_equal. symmetry. apply load_iff. intros; apply Hcnt.
Qed.

(** A queue is taken off its list. *)
Lemma shape_remove u0 g h n qs ls ids id q k l1 l2 :
  h !! id = Some q -> q_pg q = Some k -> ls !! k = Some (l1 ++ id :: l2) ->
  shape u0 g h n qs ls ids ->
  shape (bump u0 k (weight q)) g (<[id := q ⦇ q_pg := None ⦈]> h) n qs (<[k := l1 ++ l2]> ls) ids.
Proof.
  intros Hq Hpgq Hl [Hslot Hnext Hlen Hnd Hlist Hpg Hrd (usage & Hu & Hul & Hc)].
  assert (forall j, counts (<[id := q ⦇ q_pg := None ⦈]> h) j <-> counts h j) as Hcnt by (apply (counts_insert h id q); done).
  pose proof (Hnd _ _ Hl) as Hndl. apply NoDup_app in Hndl as (Hn1 & Hdis & [Hin2 Hn2]%NoDup_cons).
  assert (id ∉ l1) as Hin1 by (intros Hx%Hdis; set_solver).
  split.
  - intros i j Hj. destruct (Hslot i j Hj) as (v & Hv & Hi). destruct (decide (j = id)) as [->|].
    + simplify_eq. eexists. by rewrite lookup_insert_eq.
    + exists v. by rewrite lookup_insert_ne by done.
  - intros j v. destruct (decide (j = id)) as [->|]; [intros _; eauto|]. rewrite lookup_insert_ne by done. eauto.
  - by rewrite length_insert.
  - intros j l' Hj. apply list_lookup_insert_Some in Hj as [(<- & <- & _)|[_ Hj]]; [|eauto].
    apply NoDup_app. split_and!; [done|set_solver|done].
  - intros j l' x Hj. destruct (decide (x = id)) as [->|Hx].
    + rewrite lookup_insert_eq. apply list_lookup_insert_Some in Hj as [(<- & <- & _)|[Hne Hj]].
      * split; [set_solver|intros (v & [= <-] & Hv); done].
      * rewrite (Hlist j l' id Hj). split; [intros (v & ? & ?); congruence|intros (v & [= <-] & Hv); done].
    + rewrite lookup_insert_ne by done. apply list_lookup_insert_Some in Hj as [(<- & <- & _)|[Hne Hj]]; [|by apply Hlist].
      rewrite <- (Hlist k _ x Hl). set_solver.
  - intros j v k' Hv Hk'. destruct (decide (j = id)) as [->|]; [rewrite lookup_insert_eq in Hv; simplify_eq; done|].
    rewrite lookup_insert_ne in Hv by done. eauto.
  - intros j v [[<- <-]|[Hne Hv]]%lookup_insert_Some Hk'; [done|by eapply Hrd].
  - exists usage. split_and!; auto. intros j l' Hj. apply list_lookup_insert_Some in Hj as [(<- & <- & _)|[Hne Hj]].
    + rewrite (Hc k _ Hl). unfold bump. rewrite decide_True by done. do 2 f_equal.
      rewrite (load_iff h (<[id := _]> h)) by (intros; apply Hcnt). change (id :: l2) with ([id] ++ l2).
      rewrite !load_app, (load_one h id q Hq). lia.
    + rewrite (Hc j l' Hj). unfold bump. rewrite decide_False by done. do 3 f_equal. symmetry. apply load_iff. intros; apply Hcnt.
Qed.

(** The usage of a group changes by [d]. *)
Lemma shape_usage u0 g h n qs ls ids usage k u d refs :
  virtio_pg_usage g = Some usage -> usage !! k = Some u ->
  shape u0 g h n qs ls ids ->
  shape (bump u0 k d) (mk_globals (Some (<[k := u64 (u + d)]> usage)) refs) h n qs ls ids.
Proof.
  intros Hg Hu [Hslot Hnext Hlen Hnd Hlist Hpg Hrd (usage' & Hg' & Hul & Hc)]. simplify_eq. split; auto.
  eexists. split; [reflexivity|]. rewrite length_insert. split; [done|]. intros j l Hl. pose proof (Hc j l Hl) as Hj. unfold bump.
  destruct (decide (j = k)) as [->|].
  - rewrite list_lookup_insert_eq by (by eapply lookup_lt_Some). rewrite Hu in Hj. injection Hj as ->. rewrite u64_add_l. do 2 f_equal. lia.
  - by rewrite list_lookup_insert_ne.
Qed.

Lemma shape_ids u0 g h n qs ls ids k :
  shape u0 g h n qs ls ids -> shape u0 g h n qs ls (<[k := Z.of_nat k]> ids).
Proof.
  intros [Hslot Hnext Hlen Hnd Hlist Hpg Hrd (usage & Hg & Hul & Hc)]. split; auto; rewrite ?length_insert; auto.
  - intros id q j Hq Hj. pose proof (Hpg id q j Hq Hj) as Hx. destruct (decide (j = k)) as [->|]; [|by rewrite list_lookup_insert_ne].
    apply list_lookup_insert_eq. by eapply lookup_lt_Some.
  - eauto.
Qed.

(** * Operations on queues *)

(** What the operations on queues leave alone. *)
Definition plain_bar (b : snap_virtio_device_attr D) : snap_virtio_device_attr unit :=
  mk_bar (device_feature b) (driver_feature b) (msix_config b) (bar_max_queues b) (pci_bdf b) (bar_status b)
    (bar_enabled b) (bar_reset b) (num_of_vfs b) (config_generation b) (device_feature_select b)
    (driver_feature_select b) (queue_select b) (pci_hotplug_state b) (q_attrs b) tt.
Definition life (c : snap_virtio_ctrl D) : snap_virtio_ctrl unit :=
  mk_ctrl (c_state c) (progress_lock c) (sdev c) (max_queues c) [] (plain_bar (bar_curr c)) (plain_bar (bar_prev c))
    (mk_ctx [] 0) [] (log_writes_to_host c) (pending_reset c) (ignore_reset c) (pending_flr c) (lm_state c)
    (is_quiesce c) (quiesce_cmd c) (pending_resume c).

Record sized (c : snap_virtio_ctrl D) : Prop := {
  sz_queues : length (queues c) = max_queues c;
  sz_attrs : (max_queues c <= length (q_attrs (bar_curr c)))%nat;
  sz_npgs : npgs (pg_ctx c) = Z.of_nat (length (pgs (pg_ctx c)));
  sz_pos : (0 < length (pgs (pg_ctx c)))%nat;
}.

(** The locks of the groups. *)
Definition locks_are (b : nat -> bool) (s : sys) : Prop :=
  forall k pg, pgs (pg_ctx (cs_ctrl s)) !! k = Some pg -> locked pg = b k.
Definition all_free : nat -> bool := fun _ => false.
Definition all_held : nat -> bool := fun _ => true.
Definition held (k : nat) : nat -> bool := fun j => bool_decide (j = k).

Record wf (u0 : nat -> Z) (b : nat -> bool) (s : sys) : Prop := {
  wf_shape : shaped u0 s;
  wf_sized : sized (cs_ctrl s);
  wf_locks : locks_are b s;
}.

(** Changes of the polling groups only. *)
Record keeps (s s' : sys) : Prop := {
  kp_heap : cs_heap s' = cs_heap s;
  kp_next : cs_next s' = cs_next s;
  kp_destroyed : cs_destroyed s' = cs_destroyed s;
  kp_life : life (cs_ctrl s') = life (cs_ctrl s);
  kp_queues : queues (cs_ctrl s') = queues (cs_ctrl s);
}.

(** One queue is changed as well. *)
Record changes (id : nat) (q' : queue) (s s' : sys) : Prop := {
  ch_heap : cs_heap s' = <[id := q']> (cs_heap s);
  ch_next : cs_next s' = cs_next s;
  ch_destroyed : cs_destroyed s' = cs_destroyed s;
  ch_life : life (cs_ctrl s') = life (cs_ctrl s);
  ch_queues : queues (cs_ctrl s') = queues (cs_ctrl s);
}.

Lemma sized_same c c' :
  life c' = life c -> length (queues c') = length (queues c) -> npgs (pg_ctx c') = npgs (pg_ctx c) ->
  length (pgs (pg_ctx c')) = length (pgs (pg_ctx c)) -> sized c -> sized c'.
Proof.
  intros Hl Hq Hn Hp [H1 H2 H3 H4]. pose proof (f_equal max_queues Hl) as Hm. pose proof (f_equal (fun c => q_attrs (bar_curr c)) Hl) as Ha.
  cbn in Hm, Ha. split; congruence || (rewrite ?Hm, ?Ha, ?Hp; lia).
Qed.

Lemma pg_id_insert (l : list snap_pg) k v : map pg_id (<[k := v]> l) = <[k := pg_id v]> (map pg_id l).
Proof. apply list_fmap_insert. Qed.

Lemma locks_insert (b b' : nat -> bool) (l : list snap_pg) k v :
  (forall j pg, l !! j = Some pg -> locked pg = b j) -> locked v = b' k -> (forall j, j <> k -> b' j = b j) ->
  forall j pg, <[k := v]> l !! j = Some pg -> locked pg = b' j.
Proof.
  intros Hl Hv Hb j pg Hj. apply list_lookup_insert_Some in Hj as [(<- & <- & _)|[Hne Hj]]; [done|].
  rewrite Hb by done. by apply Hl.
Qed.

Lemma wf_list_lookup u0 b s k : wf u0 b s -> (k < length (pgs (pg_ctx (cs_ctrl s))))%nat -> exists l, q_lists (cs_ctrl s) !! k = Some l.
Proof.
  intros [Hsh _ _] Hk. apply lookup_lt_is_Some_2. pose proof (sh_lists _ _ _ _ _ _ _ Hsh) as Hl. rewrite length_map in Hl. lia.
Qed.

Lemma next_pg_get_ok u0 b s id q :
  wf u0 b s -> cs_heap s !! id = Some q ->
  post (snap_virtio_ctrl_next_pg_get id)
    (fun k s' => wf (bump u0 k (weight q)) b s' /\ keeps s s' /\ map pg_id (pgs (pg_ctx (cs_ctrl s'))) !! k = Some (Z.of_nat k)) s.
Proof.
  intros [Hsh Hsz Hlk] Hq. unfold post, snap_virtio_ctrl_next_pg_get, m_bind, deref, ctrl, gets. rewrite Hq. cbn [res_bind].
  destruct Hsz as [Hlen Hattr Hnp Hpos]. destruct (lookup_lt_is_Some_2 (pgs (pg_ctx (cs_ctrl s))) 0) as [pg0 Hpg0]; [lia|].
  destruct (sh_usage _ _ _ _ _ _ _ Hsh) as (usage & Hu & Hul & _). rewrite length_map in Hul.
  unfold weight. destruct (is_admin (q_dev q)) eqn:Ha.
  - unfold snap_pg_get_admin. rewrite Hpg0. cbn [m_res res_bind upd_ctrl modify mreturn]. crec.
    pose proof (lookup_lt_Some _ _ _ Hpg0) as Hlt.
    split_and!; [split|split|].
    + apply (shape_ext u0); [intros j; unfold bump; by destruct (decide _); lia|]. unfold shaped. crec. rewrite pg_id_insert. by apply (shape_ids _ _ _ _ _ _ _ 0).
    + split; crec; rewrite ?length_insert; done.
    + unfold locks_are. crec. apply (locks_insert b); [done|crec; by apply Hlk|done].
    + done.
    + done.
    + done.
    + done.
    + done.
    + rewrite pg_id_insert. apply list_lookup_insert_eq. by rewrite length_map.
  - destruct (get_next_ok (cs_glob s) (pg_ctx (cs_ctrl s)) usage Hu) as (i & u & pg & Hi & Hui & _ & Hpg & ->); [lia..|].
    cbn [m_res res_bind modify upd_ctrl mreturn]. crec. pose proof (lookup_lt_Some _ _ _ Hpg) as Hlt.
    split_and!; [split|split|].
    + unfold shaped. crec. rewrite pg_id_insert. apply shape_ids. by apply (shape_usage u0 (cs_glob s)).
    + split; crec; rewrite ?length_insert; done.
    + unfold locks_are. crec. apply (locks_insert b); [done|crec; by apply Hlk|done].
    + done.
    + done.
    + done.
    + done.
    + done.
    + rewrite pg_id_insert. apply list_lookup_insert_eq. by rewrite length_map.
Qed.

(** * What the controller relies on

    Queue operations are given, work, and keep the kind of a queue while it is polled;
    queues created while the controller is suspended are suspended, polling does not wake
    up a suspended queue; the device is not a transitional one. *)
Class CtrlLaws : Prop := {
  create_works w c i : exists w' d q, q_create w c i = (w', d, Some q);
  create_ready w c i w' d q :
    q_create w c i = (w', d, Some q) -> c_state c <> SNAP_VIRTIO_CTRL_SUSPENDED -> q_ready q = true;
  create_suspended w c i w' d q :
    q_create w c i = (w', d, Some q) -> c_state c = SNAP_VIRTIO_CTRL_SUSPENDED -> q_is_suspended q = true;
  start_role f w q : q_start = Some f -> is_admin (snd (f w q)) = is_admin (q_dev q) /\ (q_ready (q_dev q) = true -> q_ready (snd (f w q)) = true);
  suspend_works : exists f, q_suspend = Some f /\ forall w q,
    is_admin (snd (f w q)) = is_admin (q_dev q) /\ (q_ready (q_dev q) = true -> q_ready (snd (f w q)) = true);
  resume_works : exists f, q_resume = Some f /\ forall w c q w' d q' ret,
    f w c q = (w', d, q', ret) -> ret = 0 /\ q_ready q' = true /\ (q_pg q <> None -> is_admin q' = is_admin (q_dev q));
  progress_role w q w' d n : q_progress w q = (w', d, n) ->
    is_admin d = is_admin (q_dev q) /\ (q_ready (q_dev q) = true -> q_ready d = true) /\ (q_is_suspended (q_dev q) = true -> q_is_suspended d = true);
  update_attrs w b w' b' ret : bar_ops_update w b = (w', b', ret) -> length (q_attrs b') = length (q_attrs b);
  cb_start_works f w : cb_start = Some f -> snd (f w) = 0;
  open_modern w w' d : snap_open_device w = (w', Some d) -> transitional_device d = false;
}.

Section Ops.
Context `{!CtrlLaws}.

Lemma sched_nolock_ok u0 b s id q k :
  wf (bump u0 k (weight q)) b s -> cs_heap s !! id = Some q -> q_pg q = None -> q_ready (q_dev q) = true ->
  map pg_id (pgs (pg_ctx (cs_ctrl s))) !! k = Some (Z.of_nat k) ->
  post (snap_virtio_ctrl_sched_q_nolock id k)
    (fun _ s' => wf u0 b s' /\ exists q', changes id q' s s' /\ q_index q' = q_index q /\ q_pg q' = Some k) s.
Proof.
  intros Hwf Hq Hpg Hrd Hk. pose proof (lookup_lt_Some _ _ _ Hk) as Hlt. rewrite length_map in Hlt.
  destruct (wf_list_lookup _ _ _ _ Hwf Hlt) as [l Hl]. destruct Hwf as [Hsh Hsz Hlk].
  pose proof (shape_append u0 _ _ _ _ _ _ id q k l Hq Hpg Hrd Hl Hk Hsh) as Hsh'.
  unfold post, snap_virtio_ctrl_sched_q_nolock, m_bind, ctrl, gets. cbn [res_bind]. rewrite Hl.
  unfold upd_ctrl, modify, upd_queue. cbn [res_bind]. crec. rewrite Hq. cbn [res_bind].
  destruct q_start as [start|] eqn:Hst.
  - unfold deref. crec. rewrite lookup_insert_eq. cbn [res_bind]. crec. rewrite Hrd. cbn [negb]. unfold call_env. crec.
    pose proof (start_role start (cs_env s) (q ⦇ q_pg := Some k ⦈) Hst) as Hrole.
    crec in *. destruct (start _ _) as [w d]. cbn [res_bind]. unfold upd_queue. crec in *. rewrite lookup_insert_eq.
    cbn [res_bind mreturn]. split; [split|].
    + unfold shaped. crec. eapply shape_role; [exact Hsh'|apply lookup_insert_eq|done].
    + destruct Hsz. by split.
    + done.
    + eexists. split; [split; crec; [by rewrite insert_insert_eq|done..]|done].
  - cbn [mreturn]. split; [split|].
    + exact Hsh'.
    + destruct Hsz. by split.
    + done.
    + eexists. split; [split; crec; done|done].
Qed.

Lemma desched_nolock_ok u0 b s id q :
  wf u0 b s -> cs_heap s !! id = Some q ->
  post (snap_virtio_ctrl_desched_q_nolock id)
    (fun _ s' => wf (match q_pg q with Some k => bump u0 k (weight q) | None => u0 end) b s' /\
       changes id (q ⦇ q_pg := None ⦈) s s' /\ pg_ctx (cs_ctrl s') = pg_ctx (cs_ctrl s) /\ cs_glob s' = cs_glob s) s.
Proof.
  intros [Hsh Hsz Hlk] Hq. unfold post, snap_virtio_ctrl_desched_q_nolock, m_bind, deref. rewrite Hq. cbn [res_bind].
  destruct (q_pg q) as [k|] eqn:Hpg.
  - cbn [ctrl gets res_bind]. pose proof (sh_pg _ _ _ _ _ _ _ Hsh id q k Hq Hpg) as Hid.
    pose proof (lookup_lt_Some _ _ _ Hid) as Hlt. pose proof (sh_lists _ _ _ _ _ _ _ Hsh) as Hlen.
    destruct (lookup_lt_is_Some_2 (q_lists (cs_ctrl s)) k) as [l Hl]; [lia|]. unfold ctrl, gets. cbn [res_bind]. rewrite Hl.
    destruct (tailq_remove_ok id l) as (l1 & l2 & -> & ->); [apply (sh_list _ _ _ _ _ _ _ Hsh k l id Hl); eauto|].
    unfold upd_ctrl, modify, upd_queue. cbn [res_bind]. crec. rewrite Hq. split_and!; [split|split|done|done]; try done.
    + by eapply shape_remove.
    + destruct Hsz. by split.
  - cbn [mreturn]. assert (q ⦇ q_pg := None ⦈ = q) as Heq by (destruct q; cbn in *; congruence).
    split_and!; [by split|split; try done|done|done]. rewrite Heq. by rewrite insert_id.
Qed.

(** Taking and releasing the lock of one group. *)
Lemma pg_set_lock_ok u0 b b' s k from w :
  wf u0 b s -> (k < length (pgs (pg_ctx (cs_ctrl s))))%nat -> b k = from -> b' k = negb from ->
  (forall j, j <> k -> b' j = b j) ->
  post (pg_set_lock k from w)
    (fun _ s' => wf u0 b' s' /\ keeps s s' /\ map pg_id (pgs (pg_ctx (cs_ctrl s'))) = map pg_id (pgs (pg_ctx (cs_ctrl s)))) s.
Proof.
  intros [Hsh Hsz Hlk] Hid Hf Hn Hb. destruct (lookup_lt_is_Some_2 _ _ Hid) as [pg Hpg].
  unfold post, pg_set_lock, m_bind, ctrl, gets. cbn [res_bind]. rewrite Hpg, (Hlk k pg Hpg), Hf.
  assert (eqb from from = true) as -> by (by destruct from). unfold upd_ctrl, modify. crec.
  assert (map pg_id (<[k := mk_pg (pg_id pg) (negb from)]> (pgs (pg_ctx (cs_ctrl s)))) = map pg_id (pgs (pg_ctx (cs_ctrl s)))) as Hmap.
  { rewrite pg_id_insert. apply list_insert_id. crec. by rewrite list_lookup_fmap, Hpg. }
  split_and!; [split|by split|done].
  - unfold shaped. crec. by rewrite Hmap.
  - destruct Hsz. split; crec; rewrite ?length_insert; done.
  - unfold locks_are. crec. apply (locks_insert b); done.
Qed.

Lemma wf_pg_id u0 b s id q k : wf u0 b s -> cs_heap s !! id = Some q -> q_pg q = Some k ->
  map pg_id (pgs (pg_ctx (cs_ctrl s))) !! k = Some (Z.of_nat k).
Proof. intros [Hsh _ _] Hq Hk. by apply (sh_pg _ _ _ _ _ _ _ Hsh id q). Qed.

Lemma held_same k : held k k = true.
Proof. unfold held. by apply bool_decide_eq_true_2. Qed.
Lemma held_other k j : j <> k -> held k j = false.
Proof. intros Hj. unfold held. by apply bool_decide_eq_false_2. Qed.

Lemma pg_lock_ok u0 s k :
  wf u0 all_free s -> (k < length (pgs (pg_ctx (cs_ctrl s))))%nat ->
  post (pg_lock k) (fun _ s' => wf u0 (held k) s' /\ keeps s s' /\
    map pg_id (pgs (pg_ctx (cs_ctrl s'))) = map pg_id (pgs (pg_ctx (cs_ctrl s)))) s.
Proof. intros Hwf Hid. apply (pg_set_lock_ok u0 all_free); [done|done|done|apply held_same|apply held_other]. Qed.

Lemma pg_unlock_ok u0 s k :
  wf u0 (held k) s -> (k < length (pgs (pg_ctx (cs_ctrl s))))%nat ->
  post (pg_unlock k) (fun _ s' => wf u0 all_free s' /\ keeps s s' /\
    map pg_id (pgs (pg_ctx (cs_ctrl s'))) = map pg_id (pgs (pg_ctx (cs_ctrl s)))) s.
Proof.
  intros Hwf Hid. apply (pg_set_lock_ok u0 (held k) all_free); [done|done|apply held_same|done|].
  intros j Hj. symmetry. by apply held_other.
Qed.

Lemma keeps_changes s s1 s2 id q : keeps s s1 -> changes id q s1 s2 -> changes id q s s2.
Proof. intros [] []. split; congruence. Qed.
Lemma changes_keeps s s1 s2 id q : changes id q s s1 -> keeps s1 s2 -> changes id q s s2.
Proof. intros [] []. split; congruence. Qed.
Lemma keeps_trans s s1 s2 : keeps s s1 -> keeps s1 s2 -> keeps s s2.
Proof. intros [] []. split; congruence. Qed.
Lemma changes_lookup s s' id q : changes id q s s' -> cs_heap s' !! id = Some q.
Proof. intros []. rewrite ch_heap0. apply lookup_insert_eq. Qed.
Lemma changes_same s s1 s2 id q q' : changes id q s s1 -> changes id q' s1 s2 -> changes id q' s s2.
Proof. intros [H1] [H2]. split; try congruence. by rewrite H2, H1, insert_insert_eq. Qed.

Lemma id_lt (l : list snap_pg) k x : map pg_id l !! k = Some x -> (k < length l)%nat.
Proof. intros Hx%lookup_lt_Some. by rewrite length_map in Hx. Qed.

Lemma sched_ok u0 s id q :
  wf u0 all_free s -> cs_heap s !! id = Some q -> q_pg q = None -> q_ready (q_dev q) = true ->
  post (snap_virtio_ctrl_sched_q id)
    (fun _ s' => wf u0 all_free s' /\ exists q', changes id q' s s' /\ q_index q' = q_index q) s.
Proof.
  intros Hwf Hq Hpg Hrd. unfold snap_virtio_ctrl_sched_q. eapply post_bind_mono; [by apply next_pg_get_ok|].
  intros k s1 (Hwf1 & Hk1 & Hid1). eapply post_bind_mono; [apply pg_lock_ok; [done|by eapply id_lt]|].
  intros _ s2 (Hwf2 & Hk2 & Hid2). pose proof (keeps_trans _ _ _ Hk1 Hk2) as Hk.
  eapply post_bind_mono; [eapply (sched_nolock_ok u0 (held k) s2 id q k); [done|by rewrite (kp_heap _ _ Hk)|done|done|by rewrite Hid2]|].
  intros _ s3 (Hwf3 & q' & Hc & Hi & Hp). pose proof (wf_pg_id _ _ _ _ _ _ Hwf3 (changes_lookup _ _ _ _ Hc) Hp) as Hid3.
  eapply post_mono; [apply pg_unlock_ok; [done|by eapply id_lt]|]. intros _ s4 (Hwf4 & Hk4 & _). split; [done|]. exists q'. split; [|done].
  eapply keeps_changes; [exact Hk|]. by eapply changes_keeps.
Qed.

Lemma desched_ok u0 s id q :
  wf u0 all_free s -> cs_heap s !! id = Some q ->
  post (snap_virtio_ctrl_desched_q id)
    (fun _ s' => wf u0 all_free s' /\ changes id (q ⦇ q_pg := None ⦈) s s') s.
Proof.
  intros Hwf Hq. unfold snap_virtio_ctrl_desched_q. apply post_bind. unfold post at 1, deref. rewrite Hq.
  destruct (q_pg q) as [k|] eqn:Hpg.
  2:{ apply post_return. split; [done|]. assert (q ⦇ q_pg := None ⦈ = q) as -> by (destruct q; cbn in *; congruence).
      split; try done. by rewrite insert_id. }
  pose proof (wf_pg_id _ _ _ _ _ _ Hwf Hq Hpg) as Hid. eapply post_bind_mono; [apply pg_lock_ok; [done|by eapply id_lt]|].
  intros _ s1 (Hwf1 & Hk1 & Hid1). apply post_gets. rewrite <- Hid1 in Hid.
  eapply (post_bind_mono _ _ (fun _ s2 => wf (bump u0 k (- weight q)) (held k) s2 /\ keeps s1 s2)).
  { unfold weight. destruct (is_admin (q_dev q)) eqn:Ha.
    - apply post_return. split; [|by split]. destruct Hwf1. split; try done. eapply shape_ext; [|done]. intros j. unfold bump. destruct (decide _); lia.
    - rewrite list_lookup_fmap in Hid. destruct (pgs (pg_ctx (cs_ctrl s1)) !! k) as [pg|] eqn:Hpgk; [|done]. cbn in Hid. injection Hid as Hid.
      destruct Hwf1 as [Hsh1 Hsz1 Hlk1]. destruct (sh_usage _ _ _ _ _ _ _ Hsh1) as (usage & Hu & Hul & _). rewrite length_map in Hul.
      pose proof (lookup_lt_Some _ _ _ Hpgk) as Hlt. destruct (lookup_lt_is_Some_2 usage k) as [u Huk]; [lia|].
      unfold post, m_opt, m_bind, mreturn, gets, m_res, snap_pg_usage_decrease. cbn [res_bind]. rewrite Hu, Hid, Nat2Z.id, Huk. cbn [res_bind modify]. crec.
      split; [split; try done|by split]. unfold shaped. crec. apply (shape_usage u0 (cs_glob s1) _ _ _ _ _ usage k u (-1)); done. }
  intros _ s2 (Hwf2 & Hk2). pose proof (keeps_trans _ _ _ Hk1 Hk2) as Hk. assert (cs_heap s2 !! id = Some q) as Hq2 by (by rewrite (kp_heap _ _ Hk)).
  pose proof (wf_pg_id _ _ _ _ _ _ Hwf2 Hq2 Hpg) as Hid2.
  eapply post_bind_mono; [by apply (desched_nolock_ok _ _ _ _ q Hwf2)|]. intros _ s3 (Hwf3 & Hc3 & Hctx & _). rewrite Hpg in Hwf3.
  eapply post_mono; [apply (pg_unlock_ok u0)|].
  { destruct Hwf3. split; try done. eapply shape_ext; [|done]. intros j. unfold bump. destruct (decide (j = k)); lia. }
  { rewrite Hctx. by eapply id_lt. }
  intros _ s4 (Hwf4 & Hk4 & _). split; [done|]. eapply keeps_changes; [exact Hk|]. by eapply changes_keeps.
Qed.

(** A new queue, put in its place in the table. *)
Lemma create_ok u0 s i :
  wf u0 all_free s ->
  post (snap_virtio_ctrl_queue_create i)
    (fun o s' => exists id q, o = Some id /\ wf u0 all_free s' /\ cs_heap s' = <[id := q]> (cs_heap s) /\ q_index q = i /\
       cs_destroyed s' = cs_destroyed s /\ life (cs_ctrl s') = life (cs_ctrl s) /\ queues (cs_ctrl s') = queues (cs_ctrl s) /\
       (c_state (cs_ctrl s) = SNAP_VIRTIO_CTRL_SUSPENDED -> q_is_suspended (q_dev q) = true)) s.
Proof.
  intros Hwf. unfold snap_virtio_ctrl_queue_create. apply post_gets.
  destruct (create_works (cs_env s) (cs_ctrl s) i) as (w & d & q & Hcr).
  apply post_bind. unfold post at 1, call_env. rewrite Hcr. apply post_bind. unfold post at 1. cbn [upd_curr upd_ctrl modify]. crec.
  apply post_gets, post_modify. crec.
  match goal with |- post _ _ ?st => set (s1 := st) end.
  assert (cs_heap s1 !! cs_next s = Some (mk_queue i None (log_writes_to_host (cs_ctrl s)) 0 q)) as Hq1 by apply lookup_insert_eq.
  assert (wf u0 all_free s1) as Hwf1.
  { destruct Hwf as [Hsh [] Hlk]. split; [by apply shape_new|by split|done]. }
  destruct (snap_virtio_ctrl_is_suspended (cs_ctrl s)) eqn:Hsus.
  - apply post_bind, post_return, post_return. exists (cs_next s), (mk_queue i None (log_writes_to_host (cs_ctrl s)) 0 q).
    split_and!; try done. intros Hst. by eapply create_suspended.
  - unfold snap_virtio_ctrl_is_suspended in Hsus. apply bool_decide_eq_false in Hsus.
    eapply post_bind_mono; [eapply sched_ok; [done|done|done|by eapply create_ready]|]. intros _ s2 (Hwf2 & q' & [Hh Hn Hd Hl Hqs] & Hi). apply post_return.
    exists (cs_next s), q'. split_and!; try done.
    + rewrite Hh. unfold s1. crec. by rewrite insert_insert_eq.
Qed.

Lemma set_slot_ok s i o (P : sys -> Prop) :
  (i < length (queues (cs_ctrl s)))%nat ->
  P (s ⦇ cs_ctrl := (cs_ctrl s) ⦇ queues := <[i := o]> (queues (cs_ctrl s)) ⦈ ⦈) -> post (set_slot i o) (fun _ => P) s.
Proof. intros Hi HP. unfold post, set_slot, aset. rewrite decide_True by done. done. Qed.

Lemma wf_slots u0 b s qs :
  (forall i id, qs !! i = Some (Some id) -> exists q, cs_heap s !! id = Some q /\ q_index q = i) ->
  length qs = length (queues (cs_ctrl s)) -> wf u0 b s -> wf u0 b (s ⦇ cs_ctrl := (cs_ctrl s) ⦇ queues := qs ⦈ ⦈).
Proof.
  intros Hq Hl [Hsh [] Hlk]. split; [|split; crec; congruence|done]. unfold shaped. crec.
  eapply shape_slots; [|exact Hsh]. eauto.
Qed.

(** A queue is destroyed; its place must be cleared. *)
Lemma destroy_ok u0 s i id q :
  wf u0 all_free s -> queues (cs_ctrl s) !! i = Some (Some id) -> cs_heap s !! id = Some q ->
  post (snap_virtio_ctrl_queue_destroy id)
    (fun _ s' => shape u0 (cs_glob s') (cs_heap s') (cs_next s') (<[i := None]> (queues (cs_ctrl s'))) (q_lists (cs_ctrl s'))
                   (map pg_id (pgs (pg_ctx (cs_ctrl s')))) /\
       sized (cs_ctrl s') /\ locks_are all_free s' /\ cs_heap s' = delete id (cs_heap s) /\ queues (cs_ctrl s') = queues (cs_ctrl s) /\
       cs_destroyed s' = cs_destroyed s ++ [q ⦇ q_pg := None ⦈] /\ life (cs_ctrl s') = life (cs_ctrl s)) s.
Proof.
  intros Hwf Hi Hq. unfold snap_virtio_ctrl_queue_destroy. eapply post_bind_mono; [by apply desched_ok|]. intros _ s1 (Hwf1 & Hc).
  destruct (sh_slot _ _ _ _ _ _ _ (wf_shape _ _ _ Hwf) i id Hi) as (q0 & Hq0 & Hidx). simplify_eq.
  pose proof (changes_lookup _ _ _ _ Hc) as Hq1. destruct Hc as [Hh Hn Hd Hl Hqs].
  apply post_bind. unfold post at 1, deref. rewrite Hq1. apply post_gets, post_bind. unfold post at 1, call_env.
  destruct (q_destroy _ _ _) as [w d]. apply post_bind. unfold post at 1. cbn [upd_curr upd_ctrl modify]. crec.
  unfold post, modify. crec. destruct Hwf1 as [Hsh1 [] Hlk1]. split_and!; try done.
  - by eapply shape_delete.
  - by rewrite Hh, delete_insert_eq.
  - by rewrite Hd.
Qed.

(** A queue is destroyed and its place cleared. *)
Lemma destroy_clear_ok u0 s i id q :
  wf u0 all_free s -> queues (cs_ctrl s) !! i = Some (Some id) -> cs_heap s !! id = Some q ->
  post (do! snap_virtio_ctrl_queue_destroy id in set_slot i None)
    (fun _ s' => wf u0 all_free s' /\ cs_heap s' = delete id (cs_heap s) /\ queues (cs_ctrl s') = <[i := None]> (queues (cs_ctrl s)) /\
       cs_destroyed s' = cs_destroyed s ++ [q ⦇ q_pg := None ⦈] /\ life (cs_ctrl s') = life (cs_ctrl s)) s.
Proof.
  intros Hwf Hi Hq. eapply post_bind_mono; [by eapply destroy_ok|]. intros _ s1 (Hsh & [] & Hlk & Hh & Hqs & Hd & Hl).
  apply set_slot_ok; crec; [rewrite Hqs; by eapply lookup_lt_Some|]. split_and!; try done; [|by rewrite Hqs].
  split; [exact Hsh|split; crec; rewrite ?length_insert; done|done].
Qed.

(** A loop over the queues, from the [a]-th on. *)
Lemma each_queue_ok (I : nat -> sys -> Prop) (f : nat -> nat -> C unit) : forall n a s,
  (forall i s, (a <= i < a + n)%nat -> I i s ->
     match queues (cs_ctrl s) !! i with
     | Some (Some id) => post (f i id) (fun _ => I (S i)) s
     | Some None => I (S i) s
     | None => False
     end) ->
  I a s -> post (each_queue (seq a n) f) (fun _ => I (a + n)%nat) s.
Proof.
  induction n as [|n IH]; intros a s Hstep HI; cbn [seq each_queue].
  - apply post_return. by rewrite Nat.add_0_r.
  - apply post_bind. unfold post at 1, get_slot. pose proof (Hstep a s ltac:(lia) HI) as Ha.
    destruct (queues (cs_ctrl s) !! a) as [[id|]|]; [| |done].
    + eapply post_bind_mono; [exact Ha|]. intros [] s1 H1. replace (a + S n)%nat with (S a + n)%nat by lia. apply IH; [|done].
      intros i s2 Hi. apply Hstep. lia.
    + apply post_bind, post_return. replace (a + S n)%nat with (S a + n)%nat by lia. apply IH; [|done].
      intros i s2 Hi. apply Hstep. lia.
Qed.

(** * The invariant *)

Definition all_asleep (h : gmap nat queue) : Prop := forall id q, h !! id = Some q -> q_is_suspended (q_dev q) = true.

(** A queue the controller has lost the address of is suspended. *)
Definition lost_ok (h : gmap nat queue) (qs : list (option nat)) : Prop :=
  forall id q, h !! id = Some q -> qs !! q_index q = Some (Some id) \/ q_is_suspended (q_dev q) = true.

Lemma lost_update h qs id q q' :
  lost_ok h qs -> q_index q' = q_index q ->
  (h !! id = Some q /\ (q_is_suspended (q_dev q) = true -> q_is_suspended (q_dev q') = true) \/ qs !! q_index q = Some (Some id)) ->
  lost_ok (<[id := q']> h) qs.
Proof.
  intros Hl Hi Hq j v [[<- <-]|[Hne Hv]]%lookup_insert_Some; [|by apply Hl]. rewrite Hi.
  destruct Hq as [[Hq Hs]|Hq]; [|by left]. destruct (Hl id q Hq); auto.
Qed.

(** A stopped controller has no queues, the queues of a suspended controller are suspended,
    and so were all queues that were destroyed. *)
Record alive (u0 : nat -> Z) (s : sys) : Prop := {
  al_wf : wf u0 all_free s;
  al_stopped : c_state (cs_ctrl s) = SNAP_VIRTIO_CTRL_STOPPED -> forall i id, queues (cs_ctrl s) !! i <> Some (Some id);
  al_asleep : c_state (cs_ctrl s) = SNAP_VIRTIO_CTRL_SUSPENDED -> all_asleep (cs_heap s);
  al_lost : lost_ok (cs_heap s) (queues (cs_ctrl s));
  al_destroyed : Forall (fun q => q_is_suspended (q_dev q) = true) (cs_destroyed s);
  al_sdev : pending_flr (cs_ctrl s) = false -> exists d, sdev (cs_ctrl s) = Some d /\ transitional_device d = false;
}.

(** The fields the operations on the life cycle of the queues do not touch. *)
Definition core (c : snap_virtio_ctrl D) : bool * option snap_device * bool * bool :=
  (progress_lock c, sdev c, pending_flr c, pending_resume c).

Lemma alive_same u0 (s s' : sys) :
  cs_glob s' = cs_glob s -> cs_heap s' = cs_heap s -> cs_next s' = cs_next s -> cs_destroyed s' = cs_destroyed s ->
  queues (cs_ctrl s') = queues (cs_ctrl s) -> q_lists (cs_ctrl s') = q_lists (cs_ctrl s) -> pg_ctx (cs_ctrl s') = pg_ctx (cs_ctrl s) ->
  max_queues (cs_ctrl s') = max_queues (cs_ctrl s) -> length (q_attrs (bar_curr (cs_ctrl s'))) = length (q_attrs (bar_curr (cs_ctrl s))) ->
  c_state (cs_ctrl s') = c_state (cs_ctrl s) -> sdev (cs_ctrl s') = sdev (cs_ctrl s) -> pending_flr (cs_ctrl s') = pending_flr (cs_ctrl s) ->
  alive u0 s -> alive u0 s'.
Proof.
  intros Hg Hh Hn Hd Hq Hl Hp Hm Ha Hs Hsd Hf [[Hsh [] Hlk] Hst Has Hlo Hde Hdv].
  unfold shaped, locks_are in *. split; [split|..]; unfold shaped, locks_are; rewrite ?Hg, ?Hh, ?Hn, ?Hd, ?Hq, ?Hl, ?Hp, ?Hs, ?Hsd, ?Hf; try done.
  split; rewrite ?Hq, ?Hm, ?Ha, ?Hp; done.
Qed.

(** A change of fields the invariant does not mention. *)
Ltac same := match goal with H : alive ?u ?s |- alive ?u ?s' => apply (alive_same u s s'); [reflexivity..|exact H] end.

Lemma alive_state u0 (s : sys) v :
  alive u0 s -> (v = SNAP_VIRTIO_CTRL_STOPPED -> forall i id, queues (cs_ctrl s) !! i <> Some (Some id)) ->
  (v = SNAP_VIRTIO_CTRL_SUSPENDED -> all_asleep (cs_heap s)) -> alive u0 (s ⦇ cs_ctrl := (cs_ctrl s) ⦇ c_state := v ⦈ ⦈).
Proof. intros [[Hsh [] Hlk] Hst Has Hlo Hde Hdv] H1 H2. split; try done. Qed.

Lemma stop_ok u0 s :
  alive u0 s -> c_state (cs_ctrl s) = SNAP_VIRTIO_CTRL_STOPPED \/ c_state (cs_ctrl s) = SNAP_VIRTIO_CTRL_SUSPENDED ->
  post snap_virtio_ctrl_stop
    (fun ret s' => alive u0 s' /\ life (cs_ctrl s') = (life (cs_ctrl s)) ⦇ c_state := c_state (cs_ctrl s') ⦈ /\
       (c_state (cs_ctrl s') = SNAP_VIRTIO_CTRL_STOPPED \/ ret <> 0 /\ c_state (cs_ctrl s') = c_state (cs_ctrl s))) s.
Proof.
  intros Hal Hst. unfold snap_virtio_ctrl_stop. apply post_gets. unfold snap_virtio_ctrl_is_stopped.
  destruct Hst as [Hst|Hst]; rewrite Hst; [rewrite bool_decide_eq_true_2 by done|rewrite bool_decide_eq_false_2 by done].
  { apply post_return. split_and!; [done|by destruct (cs_ctrl s); cbn in *; subst|by left]. }
  pose proof (al_asleep _ _ Hal Hst) as Hsleep. apply post_bind. unfold all_slots. apply post_gets, post_return.
  eapply post_bind_mono.
  { apply (each_queue_ok (fun k s' => wf u0 all_free s' /\ life (cs_ctrl s') = life (cs_ctrl s) /\ all_asleep (cs_heap s') /\
      Forall (fun q => q_is_suspended (q_dev q) = true) (cs_destroyed s') /\
      forall i id, (i < k)%nat -> queues (cs_ctrl s') !! i <> Some (Some id)) _ (max_queues (cs_ctrl s)) 0).
    - intros i s1 [_ Hi] (Hwf & Hl & Has & Hde & Hclr). pose proof (f_equal max_queues Hl) as Hm. cbn in Hm.
      destruct (lookup_lt_is_Some_2 (queues (cs_ctrl s1)) i) as [o Ho]; [rewrite (sz_queues _ (wf_sized _ _ _ Hwf)); lia|]. rewrite Ho.
      destruct o as [id|].
      + destruct (sh_slot _ _ _ _ _ _ _ (wf_shape _ _ _ Hwf) i id Ho) as (q & Hq & _).
        eapply post_mono; [by eapply destroy_clear_ok|]. intros _ s2 (Hwf2 & Hh & Hqs & Hd & Hl2). split_and!; [done|congruence|..].
        * rewrite Hh. intros j v [_ Hv]%lookup_delete_Some. eauto.
        * rewrite Hd. apply Forall_app. split; [done|]. constructor; [|done]. crec. eauto.
        * intros j id' Hj. rewrite Hqs. intros [(_ & ? & _)|[Hne Hx]]%list_lookup_insert_Some; [done|]. apply (Hclr j id'); [lia|done].
      + split_and!; try done. intros j id Hj. destruct (decide (j = i)) as [->|]; [congruence|apply Hclr; lia].
    - split_and!; try done; [apply Hal|apply Hal|lia]. }
  intros _ s1 (Hwf & Hl & Has & Hde & Hclr). pose proof (f_equal c_state Hl) as Hs1. cbn in Hs1.
  assert (forall i id, queues (cs_ctrl s1) !! i <> Some (Some id)) as Hnone.
  { intros i id Hi. apply (Hclr i id); [|done]. pose proof (lookup_lt_Some _ _ _ Hi) as Hlt. rewrite (sz_queues _ (wf_sized _ _ _ Hwf)) in Hlt.
    pose proof (f_equal max_queues Hl) as Hm. cbn in Hm. lia. }
  assert (alive u0 s1) as Hal1.
  { split; try done; [intros id q Hq; right; by apply (Has id)|]. intros Hp. pose proof (f_equal pending_flr Hl) as Hf. pose proof (f_equal sdev Hl) as Hd.
    cbn in Hf, Hd. rewrite Hd. apply (al_sdev _ _ Hal). congruence. }
  assert (life (cs_ctrl s) = (life (cs_ctrl s)) ⦇ c_state := c_state (cs_ctrl s) ⦈) as Hid by (by destruct (cs_ctrl s)).
  eapply (post_bind_mono _ _ (fun ret s2 => exists w, s2 = s1 ⦇ cs_env := w ⦈)).
  { unfold call_cb. destruct cb_stop as [f|]; [|exists (cs_env s1); by destruct s1]. unfold post, call_env. destruct (f _). eauto. }
  intros ret s2 [w ->]. destruct (Z.eqb_spec ret 0) as [->|Hne]; cbn [negb].
  - apply post_bind. unfold post at 1, set_state, upd_ctrl, modify. apply post_return. split_and!; [|exact (f_equal (fun c => c ⦇ c_state := SNAP_VIRTIO_CTRL_STOPPED ⦈) Hl)|by left].
    apply alive_state; [same|done..].
  - apply post_return. crec. split_and!; [same|rewrite Hs1; exact (eq_trans Hl Hid)|right; by rewrite Hs1].
Qed.

Lemma life_core c c' : life c' = life c -> core c' = core c /\ c_state c' = c_state c /\ lm_state c' = lm_state c.
Proof.
  intros Hl. pose proof (f_equal (fun c => (progress_lock c, sdev c, pending_flr c, pending_resume c)) Hl) as H1.
  pose proof (f_equal c_state Hl) as H2. pose proof (f_equal lm_state Hl) as H3. done.
Qed.

Lemma life_core_state c c' v : life c' = (life c) ⦇ c_state := v ⦈ -> core c' = core c /\ c_state c' = v /\ lm_state c' = lm_state c.
Proof.
  intros Hl. pose proof (f_equal (fun c => (progress_lock c, sdev c, pending_flr c, pending_resume c)) Hl) as H1.
  pose proof (f_equal c_state Hl) as H2. pose proof (f_equal lm_state Hl) as H3. done.
Qed.

Lemma get_sdev_ok u0 s (B : Type) (f : snap_device -> C B) P :
  alive u0 s -> pending_flr (cs_ctrl s) = false ->
  (forall d, sdev (cs_ctrl s) = Some d -> transitional_device d = false -> post (f d) P s) -> post (m_bind get_sdev f) P s.
Proof.
  intros Hal Hf HP. destruct (al_sdev _ _ Hal Hf) as (d & Hd & Ht). unfold get_sdev. apply post_assoc, post_gets, post_bind.
  rewrite Hd. by apply post_return, HP.
Qed.

(** Calls that only change the surroundings. *)
Lemma call_cb_ok f (s : sys) : post (call_cb f : C Z) (fun _ s' => exists w, s' = s ⦇ cs_env := w ⦈) s.
Proof. unfold call_cb. destruct f as [f|]; [|exists (cs_env s); by destruct s]. unfold post, call_env. destruct (f _). eauto. Qed.

Lemma call_env_ok {A} (f : W -> W * A) (s : sys) : post (call_env f) (fun _ s' => exists w, s' = s ⦇ cs_env := w ⦈) s.
Proof. unfold post, call_env. destruct (f _). eauto. Qed.

(** The device part is changed: the status or the reset bit, and the surroundings. *)
Definition touched (s s' : sys) : Prop := exists w v r, s' = s ⦇ cs_env := w ⦈
  ⦇ cs_ctrl := (cs_ctrl s) ⦇ bar_curr := (bar_curr (cs_ctrl s)) ⦇ bar_status := v ⦈ ⦇ bar_reset := r ⦈ ⦈ ⦈.

Lemma touched_ok u0 s s' : touched s s' -> alive u0 s ->
  alive u0 s' /\ core (cs_ctrl s') = core (cs_ctrl s) /\ c_state (cs_ctrl s') = c_state (cs_ctrl s) /\ lm_state (cs_ctrl s') = lm_state (cs_ctrl s).
Proof. intros (w & v & r & ->) Hal. split_and!; [same|done..]. Qed.

Lemma clear_reset_ok s :
  post snap_virtio_ctrl_clear_reset (fun ret s' => touched s s' /\
    bar_reset (bar_curr (cs_ctrl s')) = false /\ (ret = 0 -> bar_status (bar_curr (cs_ctrl s')) = 0)) s.
Proof.
  unfold snap_virtio_ctrl_clear_reset. apply post_bind. unfold post at 1, upd_curr, upd_ctrl, modify.
  unfold snap_virtio_ctrl_bar_modify. apply post_assoc, post_gets.
  eapply post_bind_mono; [apply call_env_ok|]. intros ret s1 [w ->]. destruct (Z.eqb_spec ret 0) as [->|Hne]; cbn [negb].
  - apply post_bind. unfold post at 1, upd_curr, upd_ctrl, modify. apply post_return. split_and!; [|done|done].
    exists w, 0, false. done.
  - apply post_return. split_and!; [|done|done]. exists w, (bar_status (bar_curr (cs_ctrl s))), false. done.
Qed.

Lemma device_error_ok u0 s :
  alive u0 s -> pending_flr (cs_ctrl s) = false -> post snap_virtio_ctrl_device_error (fun _ s' => touched s s') s.
Proof.
  intros Hal Hf. unfold snap_virtio_ctrl_device_error. eapply get_sdev_ok; [done|done|]. intros d _ ->.
  apply post_bind. unfold post at 1, upd_curr, upd_ctrl, modify. unfold snap_virtio_ctrl_bar_modify. apply post_gets.
  eapply post_mono; [apply call_env_ok|]. intros ret s1 [w ->].
  exists w, (Z.lor (bar_status (bar_curr (cs_ctrl s))) SNAP_VIRTIO_DEVICE_S_DEVICE_NEEDS_RESET), (bar_reset (bar_curr (cs_ctrl s))). done.
Qed.

(** Reset: the queues are destroyed, and the device is told. *)
Lemma reset_ok u0 s :
  alive u0 s -> c_state (cs_ctrl s) = SNAP_VIRTIO_CTRL_STOPPED \/ c_state (cs_ctrl s) = SNAP_VIRTIO_CTRL_SUSPENDED ->
  pending_flr (cs_ctrl s) = false ->
  post snap_virtio_ctrl_reset (fun ret s' => alive u0 s' /\ core (cs_ctrl s') = core (cs_ctrl s) /\
    lm_state (cs_ctrl s') = lm_state (cs_ctrl s) /\
    (c_state (cs_ctrl s') = SNAP_VIRTIO_CTRL_STOPPED \/ c_state (cs_ctrl s') = c_state (cs_ctrl s)) /\
    (ret = 0 -> c_state (cs_ctrl s') = SNAP_VIRTIO_CTRL_STOPPED /\
       (pci_bdf (bar_curr (cs_ctrl s)) <> 0 -> bar_reset (bar_curr (cs_ctrl s')) = false /\ bar_status (bar_curr (cs_ctrl s')) = 0))) s.
Proof.
  intros Hal Hst Hf. unfold snap_virtio_ctrl_reset. eapply post_bind_mono; [by apply stop_ok|].
  intros ret s1 (Hal1 & Hl & Hret). destruct (life_core_state _ _ _ Hl) as (Hc & _ & Hlm).
  assert (pending_flr (cs_ctrl s1) = false) as Hf1 by (unfold core in Hc; congruence).
  pose proof (f_equal (fun c => pci_bdf (bar_curr c)) Hl) as Hbdf. cbn in Hbdf.
  destruct (Z.eqb_spec ret 0) as [->|Hne]; cbn [negb].
  2:{ apply post_return. split_and!; try done. destruct Hret as [?|[_ ?]]; auto. }
  destruct Hret as [Hs1|[? _]]; [|done].
  eapply get_sdev_ok; [done|done|]. intros d Hd ->. apply post_gets. cbn [negb andb].
  destruct (Z.eqb_spec (pci_bdf (bar_curr (cs_ctrl s1))) 0) as [Hz|Hz]; cbn [negb].
  - apply post_return. split_and!; try done; [by left|]. intros _. split; [done|congruence].
  - eapply post_mono; [apply clear_reset_ok|]. intros ret s2 (Ht & Hr & Hv).
    destruct (touched_ok _ _ _ Ht Hal1) as (Hal2 & Hc2 & Hs2 & Hlm2).
    split_and!; [done|congruence|congruence|left; congruence|]. intros ->. split; [congruence|]. intros _. split; [done|by apply Hv].
Qed.

(** ** Locks of all groups *)

Lemma lock_groups_ok l : (forall k pg, l !! k = Some pg -> locked pg = false) ->
  lock_groups l = Some (map (fun pg => mk_pg (pg_id pg) true) l).
Proof.
  induction l as [|pg l IH]; intros Hl; [done|]. cbn [lock_groups map]. pose proof (Hl 0%nat pg eq_refl) as ->.
  rewrite IH; [done|]. intros k pg' Hk. by apply (Hl (S k)).
Qed.

Lemma unlock_groups_ok l : (forall k pg, l !! k = Some pg -> locked pg = true) ->
  unlock_groups l = Some (map (fun pg => mk_pg (pg_id pg) false) l).
Proof.
  induction l as [|pg l IH]; intros Hl; [done|]. cbn [unlock_groups map]. rewrite IH by (intros k pg' Hk; by apply (Hl (S k))).
  cbn. by pose proof (Hl 0%nat pg eq_refl) as ->.
Qed.

Lemma map_locks b l : map pg_id (map (fun pg => mk_pg (pg_id pg) b) l) = map pg_id l.
Proof. rewrite map_map. by apply map_ext. Qed.

Lemma pgs_suspend_ok u0 s : wf u0 all_free s -> post pgs_suspend (fun _ s' => wf u0 all_held s' /\ keeps s s') s.
Proof.
  intros [Hsh [] Hlk]. unfold pgs_suspend. apply post_gets. unfold snap_pgs_suspend. rewrite lock_groups_ok by done.
  unfold post, m_opt, m_bind, mreturn, upd_ctrl, modify. cbn. split; [split|by split].
  - unfold shaped. crec. by rewrite map_locks.
  - split; crec; rewrite ?length_map; done.
  - intros k pg. crec. rewrite list_lookup_fmap. destruct (_ !! k); [|done]. by intros [= <-].
Qed.

Lemma pgs_resume_ok u0 s : wf u0 all_held s -> post pgs_resume (fun _ s' => wf u0 all_free s' /\ keeps s s') s.
Proof.
  intros [Hsh [] Hlk]. unfold pgs_resume. apply post_gets. unfold snap_pgs_resume. rewrite unlock_groups_ok by done.
  unfold post, m_opt, m_bind, mreturn, upd_ctrl, modify. cbn. split; [split|by split].
  - unfold shaped. crec. by rewrite map_locks.
  - split; crec; rewrite ?length_map; done.
  - intros k pg. crec. rewrite list_lookup_fmap. destruct (_ !! k); [|done]. by intros [= <-].
Qed.

(** ** Start *)

(** What the loop of [snap_virtio_ctrl_start] keeps. *)
Record starting (u0 : nat -> Z) (s0 s : sys) : Prop := {
  st_wf : wf u0 all_free s;
  st_life : life (cs_ctrl s) = life (cs_ctrl s0);
  st_asleep : c_state (cs_ctrl s0) = SNAP_VIRTIO_CTRL_SUSPENDED -> all_asleep (cs_heap s);
  st_destroyed : cs_destroyed s = cs_destroyed s0;
  st_lost : lost_ok (cs_heap s) (queues (cs_ctrl s));
}.

Lemma start_queues_ok u0 s0 : pending_flr (cs_ctrl s0) = false ->
  (exists d, sdev (cs_ctrl s0) = Some d /\ transitional_device d = false) ->
  forall n i s, (i + n = max_queues (cs_ctrl s0))%nat -> starting u0 s0 s ->
  (c_state (cs_ctrl s0) <> SNAP_VIRTIO_CTRL_SUSPENDED -> forall j id, (i <= j)%nat -> queues (cs_ctrl s) !! j <> Some (Some id)) ->
  post (start_queues n i) (fun r s' => r = (0, (i + n)%nat) /\ starting u0 s0 s') s.
Proof.
  intros Hf (d & Hd & Ht). induction n as [|n IH]; intros i s Hn Hs Hrest; cbn [start_queues].
  { apply post_return. split; [by rewrite Nat.add_0_r|done]. }
  pose proof (st_life _ _ _ Hs) as Hl. pose proof (f_equal max_queues Hl) as Hm. pose proof (f_equal sdev Hl) as Hsd.
  pose proof (f_equal (fun c => q_attrs (bar_curr c)) Hl) as Hq. cbn in Hm, Hsd, Hq. pose proof (wf_sized _ _ _ (st_wf _ _ _ Hs)) as [].
  apply post_gets. unfold to_virtio_queue_attr.
  destruct (lookup_lt_is_Some_2 (q_attrs (bar_curr (cs_ctrl s))) i) as [vq Hvq]; [lia|]. rewrite Hvq. apply post_bind, post_return.
  unfold get_sdev. apply post_assoc, post_gets, post_bind. rewrite Hsd, Hd. apply post_return. rewrite Ht.
  replace (i + S n)%nat with (S i + n)%nat by lia.
  destruct (negb (qa_enable vq =? 0)); [|apply IH; [lia|done|intros Hx j id Hj; apply Hrest; [done|lia]]].
  eapply post_bind_mono; [apply create_ok, Hs|].
  intros o s1 (id & q & -> & Hwf1 & Hh1 & Hi1 & Hd1 & Hl1 & Hqs1 & Hsl1).
  assert (c_state (cs_ctrl s) = c_state (cs_ctrl s0)) as Hss by (by apply (f_equal c_state Hl)).
  eapply (post_bind_mono _ _ (fun _ s2 => starting u0 s0 s2 /\
    (c_state (cs_ctrl s0) <> SNAP_VIRTIO_CTRL_SUSPENDED -> forall j id, (S i <= j)%nat -> queues (cs_ctrl s2) !! j <> Some (Some id))));
    [|intros _ s2 [Hs2 Hr2]; apply IH; [lia|done|done]].
  apply set_slot_ok; [rewrite Hqs1; lia|]. split.
  2:{ intros Hx j id' Hj. crec. rewrite Hqs1, list_lookup_insert_ne by lia. apply Hrest; [done|lia]. }
  destruct Hs. split; [|transitivity (life (cs_ctrl s1)); [done|congruence]| |crec; congruence|].
  - apply wf_slots; [|by rewrite length_insert|done]. intros j id' [(<- & [= <-] & _)|[Hne Hj]]%list_lookup_insert_Some.
    + exists q. rewrite Hh1. by rewrite lookup_insert_eq.
    + apply (sh_slot _ _ _ _ _ _ _ (wf_shape _ _ _ Hwf1) j id' Hj).
  - intros Hsus id' q'. crec. rewrite Hh1. intros [[<- <-]|[Hne Hq']]%lookup_insert_Some; [apply Hsl1; congruence|]. by apply (st_asleep0 Hsus id').
  - crec. rewrite Hh1, Hqs1. intros id' q' [[<- <-]|[Hne Hq']]%lookup_insert_Some.
    { left. rewrite Hi1. apply list_lookup_insert_eq. lia. }
    destruct (decide (c_state (cs_ctrl s0) = SNAP_VIRTIO_CTRL_SUSPENDED)) as [Hsus|Hns]; [right; by apply (st_asleep0 Hsus id')|].
    destruct (st_lost0 id' q' Hq') as [Hin|?]; [|by right]. left. rewrite list_lookup_insert_ne; [done|].
    intros Hx. apply (Hrest Hns i id'); [lia|congruence].
Qed.

Lemma start_ok u0 s :
  alive u0 s -> pending_flr (cs_ctrl s) = false ->
  post snap_virtio_ctrl_start (fun ret s' => alive u0 s' /\ core (cs_ctrl s') = core (cs_ctrl s) /\
    (c_state (cs_ctrl s') = SNAP_VIRTIO_CTRL_STARTED /\ lm_state (cs_ctrl s') = SNAP_VIRTIO_CTRL_LM_RUNNING \/
     c_state (cs_ctrl s') = c_state (cs_ctrl s) /\ lm_state (cs_ctrl s') = lm_state (cs_ctrl s)) /\
    plain_bar (bar_curr (cs_ctrl s')) = plain_bar (bar_curr (cs_ctrl s)) /\
    (c_state (cs_ctrl s) = SNAP_VIRTIO_CTRL_SUSPENDED -> ret = 0 /\ c_state (cs_ctrl s') = SNAP_VIRTIO_CTRL_SUSPENDED)) s.
Proof.
  intros Hal Hf. unfold snap_virtio_ctrl_start. apply post_gets.
  eapply (post_bind_mono _ _ (fun ret s' => alive u0 s' /\ core (cs_ctrl s') = core (cs_ctrl s) /\ lm_state (cs_ctrl s') = lm_state (cs_ctrl s) /\
    (c_state (cs_ctrl s') = SNAP_VIRTIO_CTRL_STARTED \/ c_state (cs_ctrl s') = c_state (cs_ctrl s)) /\
    plain_bar (bar_curr (cs_ctrl s')) = plain_bar (bar_curr (cs_ctrl s)) /\
    (c_state (cs_ctrl s) = SNAP_VIRTIO_CTRL_SUSPENDED -> ret = 0 /\ c_state (cs_ctrl s') = SNAP_VIRTIO_CTRL_SUSPENDED))).
  2:{ intros ret s1 (Hal1 & Hc & Hlm & Hst & Hpb & Hsp). apply post_gets. unfold m_when. case_bool_decide as Hs1.
      - apply post_bind. unfold post at 1, snap_virtio_ctrl_set_lm_state, upd_ctrl, modify. apply post_return.
        split_and!; [same|done|by left|done|]. intros Hx. destruct (Hsp Hx). congruence.
      - apply post_bind, post_return, post_return. split_and!; try done. right. by destruct Hst. }
  case_bool_decide as H1; [apply post_return; split_and!; auto; congruence|]. case_bool_decide as H2; [apply post_return; split_and!; auto; congruence|].
  eapply post_bind_mono.
  { apply (start_queues_ok u0 s Hf (al_sdev _ _ Hal Hf) _ 0); [lia| |].
    - split; [apply Hal|done|apply Hal|done|apply Hal].
    - intros Hns j id _. apply (al_stopped _ _ Hal). by destruct (c_state (cs_ctrl s)). }
  intros r s1 [-> [Hwf Hl Has Hde Hlo]]. cbn [Z.eqb negb]. destruct (life_core _ _ Hl) as (Hc & Hst & Hlm).
  assert (alive u0 s1 \/ c_state (cs_ctrl s) = SNAP_VIRTIO_CTRL_STOPPED) as Hal1.
  { destruct (decide (c_state (cs_ctrl s) = SNAP_VIRTIO_CTRL_STOPPED)); [by right|left]. split; try done.
    - congruence.
    - by rewrite Hst.
    - rewrite Hde. apply Hal.
    - intros _. unfold core in Hc. injection Hc as _ -> _ _. by apply (al_sdev _ _ Hal). }
  pose proof (f_equal (fun c => bar_curr c) Hl) as Hpb. cbn in Hpb.
  eapply (post_bind_mono _ _ (fun ret s' => ret = 0 /\ alive u0 s' /\ core (cs_ctrl s') = core (cs_ctrl s) /\ lm_state (cs_ctrl s') = lm_state (cs_ctrl s) /\
    (c_state (cs_ctrl s') = SNAP_VIRTIO_CTRL_STARTED \/ c_state (cs_ctrl s') = c_state (cs_ctrl s)) /\
    plain_bar (bar_curr (cs_ctrl s')) = plain_bar (bar_curr (cs_ctrl s)) /\
    (c_state (cs_ctrl s) = SNAP_VIRTIO_CTRL_SUSPENDED -> c_state (cs_ctrl s') = SNAP_VIRTIO_CTRL_SUSPENDED))).
  2:{ intros ret s2 (-> & ? & ? & ? & ? & ? & ?). apply post_return. split_and!; auto. }
  eapply (post_bind_mono _ _ (fun ret s' => ret = 0 /\ exists w, s' = s1 ⦇ cs_env := w ⦈)).
  { unfold call_cb. destruct cb_start as [f|] eqn:Hcb; [|split; [done|]; exists (cs_env s1); by destruct s1].
    unfold post, call_env. pose proof (cb_start_works f (cs_env s1) Hcb). destruct (f _). eauto. }
  intros ret s2 (-> & w & ->). cbn [Z.eqb negb]. apply post_gets.
  assert (forall v, v <> SNAP_VIRTIO_CTRL_STOPPED -> (v = SNAP_VIRTIO_CTRL_SUSPENDED -> c_state (cs_ctrl s) = SNAP_VIRTIO_CTRL_SUSPENDED) ->
    alive u0 (s1 ⦇ cs_env := w ⦈ ⦇ cs_ctrl := (cs_ctrl s1) ⦇ c_state := v ⦈ ⦈)) as Hset.
  { intros v Hv1 Hv2. destruct Hwf as [Hsh [] Hlk]. split; [split; [done|by split|done]|..]; crec; try done.
    - intros Hv. apply Has. auto.
    - rewrite Hde. apply Hal.
    - intros _. unfold core in Hc. injection Hc as _ -> _ _. by apply (al_sdev _ _ Hal). }
  case_bool_decide as Hsus; crec in *.
  - apply post_bind, post_return, post_return. destruct Hal1 as [Hal1|?]; [|congruence]. split_and!; [done|same|done|done|by right|done|done].
  - apply post_bind. unfold post at 1, set_state, upd_ctrl, modify. apply post_return. split_and!; [done|by apply Hset|done|done|by left|done|]. intros ?. congruence.
Qed.

(** ** Suspend *)

Lemma wf_role u0 b s id q q' w : wf u0 b s -> cs_heap s !! id = Some q -> same_role q q' ->
  wf u0 b (s ⦇ cs_env := w ⦈ ⦇ cs_heap := <[id := q']> (cs_heap s) ⦈).
Proof. intros [Hsh Hsz Hlk] Hq Hr. split; [|done|done]. by eapply shape_role. Qed.

Lemma wf_slot_queue u0 b s i id : wf u0 b s -> queues (cs_ctrl s) !! i = Some (Some id) ->
  exists q, cs_heap s !! id = Some q /\ q_index q = i.
Proof. intros [Hsh _ _] Hi. apply (sh_slot _ _ _ _ _ _ _ Hsh i id Hi). Qed.

(** A loop that changes the queues one by one. *)
Lemma each_queue_wf u0 b (f : nat -> nat -> C unit) (J : sys -> Prop) s :
  wf u0 b s -> J s ->
  (forall id q s1, wf u0 b s1 -> J s1 -> cs_heap s1 !! id = Some q -> queues (cs_ctrl s1) !! q_index q = Some (Some id) ->
     post (f (q_index q) id) (fun _ s2 => wf u0 b s2 /\ J s2 /\ life (cs_ctrl s2) = life (cs_ctrl s1)) s1) ->
  post (let! l := all_slots in each_queue l f) (fun _ s2 => wf u0 b s2 /\ J s2 /\ life (cs_ctrl s2) = life (cs_ctrl s)) s.
Proof.
  intros Hwf HJ Hf. apply post_bind. unfold all_slots. apply post_gets, post_return.
  apply (each_queue_ok (fun _ s2 => wf u0 b s2 /\ J s2 /\ life (cs_ctrl s2) = life (cs_ctrl s))); [|done].
  intros i s1 [_ Hi] (Hwf1 & HJ1 & Hl1). pose proof (f_equal max_queues Hl1) as Hm. cbn in Hm.
  destruct (lookup_lt_is_Some_2 (queues (cs_ctrl s1)) i) as [o Ho]; [rewrite (sz_queues _ (wf_sized _ _ _ Hwf1)); lia|]. rewrite Ho.
  destruct o as [id|]; [|done]. destruct (wf_slot_queue _ _ _ _ _ Hwf1 Ho) as (q & Hq & <-).
  eapply post_mono; [by eapply Hf|]. intros _ s2 (? & ? & ?). split_and!; [done|done|congruence].
Qed.

Lemma suspend_ok u0 s :
  alive u0 s ->
  post snap_virtio_ctrl_suspend (fun _ s' => alive u0 s' /\ core (cs_ctrl s') = core (cs_ctrl s) /\
    lm_state (cs_ctrl s') = lm_state (cs_ctrl s) /\
    (if decide (c_state (cs_ctrl s) = SNAP_VIRTIO_CTRL_STARTED) then c_state (cs_ctrl s') = SNAP_VIRTIO_CTRL_SUSPENDING
     else c_state (cs_ctrl s') = c_state (cs_ctrl s))) s.
Proof.
  intros Hal. unfold snap_virtio_ctrl_suspend. apply post_gets.
  case_bool_decide as H1; [apply post_return; cbn beta; by rewrite decide_False by congruence|].
  case_bool_decide as H2; cbn [negb]; [|apply post_return; cbn beta; by rewrite decide_False].
  eapply post_mono; [|intros ? ? Hpost; rewrite decide_True by done; exact Hpost].
  destruct suspend_works as (f & -> & Hf).
  eapply post_bind_mono; [apply pgs_suspend_ok, Hal|]. intros _ s1 (Hwf1 & [Hh1 _ Hd1 Hl1 Hq1]).
  apply (post_nest all_slots (fun l => each_queue l (fun _ id => suspend_queue id f))).
  eapply post_bind_mono.
  { apply (each_queue_wf u0 all_held _ (fun s2 => cs_destroyed s2 = cs_destroyed s /\ lost_ok (cs_heap s2) (queues (cs_ctrl s2)))); [done|rewrite Hh1, Hq1; split; [done|apply Hal]|].
    intros id q s2 Hwf2 [Hd2 Hlo2] Hq Hslot. unfold suspend_queue. apply post_bind. unfold post at 1, deref. rewrite Hq. apply post_bind.
    unfold post at 1, call_env. pose proof (Hf (cs_env s2) q) as Hr. destruct (f _ _) as [w d]. unfold post, upd_queue. crec. rewrite Hq.
    split_and!; [|done| |done]; [by apply (wf_role u0 all_held s2 id q _ w)|]. crec. apply (lost_update _ _ _ q); [done|done|by right]. }
  intros _ s2 (Hwf2 & [Hd2 Hlo2] & Hl2). eapply post_bind_mono; [by apply pgs_resume_ok|]. intros _ s3 (Hwf3 & [Hh3 _ Hd3 Hl3 Hq3]).
  apply post_bind. unfold post at 1, set_state, upd_ctrl, modify. apply post_return.
  assert (life (cs_ctrl s3) = life (cs_ctrl s)) as Hl by congruence. destruct (life_core _ _ Hl) as (Hc & Hst & Hlm).
  split_and!; try done. destruct Hwf3 as [Hsh [] Hlk]. split; [split; [done|by split|done]|done|done| | |].
  - crec. by rewrite Hh3, Hq3.
  - crec. rewrite Hd3, Hd2. apply Hal.
  - crec. unfold core in Hc. injection Hc as _ -> -> _. apply Hal.
Qed.

(** ** Resume *)

Lemma reschedule_ok u0 s id q :
  wf u0 all_held s -> cs_heap s !! id = Some q -> q_ready (q_dev q) = true ->
  post (let! g := match q_pg q with Some g => mreturn g | None => snap_virtio_ctrl_next_pg_get id end in
        do! snap_virtio_ctrl_desched_q_nolock id in snap_virtio_ctrl_sched_q_nolock id g)
    (fun _ s' => wf u0 all_held s' /\ exists q', changes id q' s s' /\ q_index q' = q_index q) s.
Proof.
  intros Hwf Hq Hrd.
  eapply (post_bind_mono _ _ (fun g s1 => keeps s s1 /\ map pg_id (pgs (pg_ctx (cs_ctrl s1))) !! g = Some (Z.of_nat g) /\
    match q_pg q with Some k => g = k /\ wf u0 all_held s1 | None => wf (bump u0 g (weight q)) all_held s1 end)).
  { destruct (q_pg q) as [k|] eqn:Hpg.
    - apply post_return. split_and!; [by split| |done|done]. by eapply wf_pg_id.
    - eapply post_mono; [by apply next_pg_get_ok|]. by intros k s1 (? & ? & ?). }
  intros g s1 (Hk & Hid & Hcase). assert (cs_heap s1 !! id = Some q) as Hq1 by (by rewrite (kp_heap _ _ Hk)).
  eapply (post_bind_mono _ _ (fun _ s2 => wf (bump u0 g (weight q)) all_held s2 /\ changes id (q ⦇ q_pg := None ⦈) s1 s2 /\
    pg_ctx (cs_ctrl s2) = pg_ctx (cs_ctrl s1))).
  { destruct (q_pg q) as [k|] eqn:Hpg.
    - destruct Hcase as [-> Hwf1]. eapply post_mono; [by apply (desched_nolock_ok u0 all_held s1 id q)|]. rewrite Hpg. by intros _ s2 (? & ? & ? & _).
    - eapply post_mono; [by apply (desched_nolock_ok (bump u0 g (weight q)) all_held s1 id q)|]. rewrite Hpg. by intros _ s2 (? & ? & ? & _). }
  intros _ s2 (Hwf2 & Hc2 & Hctx). eapply post_mono.
  { eapply (sched_nolock_ok u0 all_held s2 id (q ⦇ q_pg := None ⦈)); [done|by eapply changes_lookup|done|done|by rewrite Hctx]. }
  intros _ s3 (Hwf3 & q' & Hc3 & Hi & _). split; [done|]. exists q'. split; [|done]. eapply keeps_changes; [done|]. by eapply changes_same.
Qed.

Lemma resume_queues_ok u0 f : q_resume = Some f -> forall l n s,
  wf u0 all_held s -> lost_ok (cs_heap s) (queues (cs_ctrl s)) -> (forall i, i ∈ l -> (i < max_queues (cs_ctrl s))%nat) ->
  post (resume_queues l f n) (fun r s' => fst r = 0 /\ n <= snd r /\ wf u0 all_held s' /\ life (cs_ctrl s') = life (cs_ctrl s) /\
    cs_destroyed s' = cs_destroyed s /\ lost_ok (cs_heap s') (queues (cs_ctrl s')) /\ (snd r = n -> cs_heap s' = cs_heap s)) s.
Proof.
  intros Hf. destruct resume_works as (f' & Hf' & Hres). rewrite Hf in Hf'. injection Hf' as <-.
  induction l as [|i l IH]; intros n s Hwf Hlo Hl; cbn [resume_queues].
  { apply post_return. by split_and!. }
  assert (forall j, j ∈ l -> (j < max_queues (cs_ctrl s))%nat) as Hl' by (intros; apply Hl; set_solver).
  pose proof (wf_sized _ _ _ Hwf) as Hsz. destruct (lookup_lt_is_Some_2 (queues (cs_ctrl s)) i) as [o Ho]; [rewrite (sz_queues _ Hsz); apply Hl; set_solver|].
  apply post_bind. unfold post at 1, get_slot. rewrite Ho. destruct o as [id|]; [|by apply IH].
  destruct (wf_slot_queue _ _ _ _ _ Hwf Ho) as (q & Hq & Hi). apply post_bind. unfold post at 1, deref. rewrite Hq. apply post_gets.
  apply post_bind. unfold post at 1, call_env. destruct (f (cs_env s) (cs_ctrl s) q) as [[[w d] q1] ret] eqn:Hrun.
  destruct (Hres _ _ _ _ _ _ _ Hrun) as (-> & Hrd & Hrole). apply post_bind. unfold post at 1, upd_curr, upd_ctrl, modify. crec.
  apply post_bind. unfold post at 1, upd_queue. crec. rewrite Hq. cbn [Z.eqb negb].
  match goal with |- post _ _ ?st => set (s1 := st) end.
  assert (wf u0 all_held s1) as Hwf1.
  { destruct Hwf as [Hsh [] Hlk]. split; [|by split|done]. eapply shape_role; [done..|]. split_and!; [done|done|]. crec. by auto. }
  assert (cs_heap s1 !! id = Some (q ⦇ q_dev := q1 ⦈)) as Hq1 by apply lookup_insert_eq.
  apply post_bind. unfold post at 1, deref. rewrite Hq1.
  set (q2 := q ⦇ q_dev := q1 ⦈) in *.
  eapply post_seq; [apply (reschedule_ok u0 s1 id q2 Hwf1 Hq1 Hrd)|]. intros _ s4 (Hwf4 & q' & [Hh4 _ Hd4 Hl4 Hqs4] & Hi4).
  pose proof (f_equal max_queues Hl4) as Hm4. cbn in Hm4.
  assert (lost_ok (cs_heap s4) (queues (cs_ctrl s4))) as Hlo4.
  { rewrite Hh4, Hqs4. apply (lost_update _ _ _ q2); [|done|right; change (q_index q2) with (q_index q); by rewrite Hi]. apply (lost_update _ _ _ q); [done|done|right; by rewrite Hi]. }
  eapply post_mono; [apply (IH (n + 1) s4 Hwf4 Hlo4); by rewrite Hm4|]. intros r s5 (Hr0 & Hrn & Hwf5 & Hl5 & Hd5 & Hlo5 & _).
  split_and!; [done|lia|done|rewrite Hl5, Hl4; done|rewrite Hd5, Hd4; done|done|lia].
Qed.

Lemma resume_ok u0 s :
  alive u0 s ->
  post snap_virtio_ctrl_resume (fun ret s' => ret = 0 /\ alive u0 s' /\ lm_state (cs_ctrl s') = lm_state (cs_ctrl s) /\
    (c_state (cs_ctrl s) = SNAP_VIRTIO_CTRL_STOPPED \/ c_state (cs_ctrl s) = SNAP_VIRTIO_CTRL_SUSPENDED -> core (cs_ctrl s') = core (cs_ctrl s)) /\
    (progress_lock (cs_ctrl s'), sdev (cs_ctrl s'), pending_flr (cs_ctrl s')) =
    (progress_lock (cs_ctrl s), sdev (cs_ctrl s), pending_flr (cs_ctrl s))) s.
Proof.
  intros Hal. unfold snap_virtio_ctrl_resume, snap_virtio_ctrl_is_stopped, snap_virtio_ctrl_is_suspended. apply post_gets.
  case_bool_decide as H1; [by apply post_return|]. case_bool_decide as H2; cbn [negb].
  2:{ apply post_bind. unfold post at 1, upd_ctrl, modify. apply post_return. split_and!; [done|same|done|intros [?|?]; done|done]. }
  destruct suspend_works as (g & -> & _). destruct resume_works as (f & Hf & _). rewrite Hf.
  eapply post_bind_mono; [apply pgs_suspend_ok, Hal|]. intros _ s1 (Hwf1 & [Hh1 _ Hd1 Hl1 Hq1]).
  apply post_bind. unfold all_slots. apply post_gets, post_return.
  eapply post_bind_mono; [apply (resume_queues_ok u0 f Hf); [done|rewrite Hh1, Hq1; apply Hal|intros i Hi%elem_of_seq; lia]|].
  intros r s2 (Hr & Hn & Hwf2 & Hl2 & Hd2 & Hlo2 & Hh2). eapply post_bind_mono; [by apply pgs_resume_ok|]. intros _ s3 (Hwf3 & [Hh3 _ Hd3 Hl3 Hq3]).
  rewrite Hr. cbn [Z.eqb negb]. assert (life (cs_ctrl s3) = life (cs_ctrl s)) as Hl by congruence. destruct (life_core _ _ Hl) as (Hc & Hst & Hlm).
  assert (forall v, v <> SNAP_VIRTIO_CTRL_STOPPED -> (v = SNAP_VIRTIO_CTRL_SUSPENDED -> cs_heap s3 = cs_heap s) ->
    alive u0 (s3 ⦇ cs_ctrl := (cs_ctrl s3) ⦇ c_state := v ⦈ ⦈)) as Hset.
  { intros v Hv1 Hv2. destruct Hwf3 as [Hsh [] Hlk]. split; [split; [done|by split|done]|..]; crec; try done.
    - intros Hv. rewrite Hv2 by done. by apply Hal.
    - by rewrite Hh3, Hq3.
    - rewrite Hd3, Hd2, Hd1. apply Hal.
    - unfold core in Hc. injection Hc as _ -> -> _. apply Hal. }
  assert ((progress_lock (cs_ctrl s3), sdev (cs_ctrl s3), pending_flr (cs_ctrl s3)) =
    (progress_lock (cs_ctrl s), sdev (cs_ctrl s), pending_flr (cs_ctrl s))) as Hc3
    by (unfold core in Hc; congruence).
  unfold m_when. destruct (Z.ltb_spec 0 (snd r)) as [Hpos|Hz].
  - apply post_bind. unfold post at 1, set_state, upd_ctrl, modify. apply post_return. split_and!; [done|by apply Hset|done|done|done].
  - apply post_bind, post_return, post_return. split_and!; [done| |done|done|done].
    assert (cs_heap s3 = cs_heap s) as Hh by (rewrite Hh3, Hh2 by lia; done).
    pose proof (Hset (c_state (cs_ctrl s3)) ltac:(congruence) (fun _ => Hh)) as Hx.
    assert (s3 ⦇ cs_ctrl := (cs_ctrl s3) ⦇ c_state := c_state (cs_ctrl s3) ⦈ ⦈ = s3) as Heq by (destruct s3 as [? ? ? ? ? []]; done).
    by rewrite Heq in Hx.
Qed.

(** ** Progress *)

(** While live migration keeps the controller quiet, it is stopped or suspended. *)
Definition at_rest (c : snap_virtio_ctrl D) : Prop :=
  c_state c = SNAP_VIRTIO_CTRL_STOPPED \/ c_state c = SNAP_VIRTIO_CTRL_SUSPENDED.
Definition lm_quiet (c : snap_virtio_ctrl D) : Prop :=
  lm_state c = SNAP_VIRTIO_CTRL_LM_QUIESCED \/ lm_state c = SNAP_VIRTIO_CTRL_LM_FREEZED.
Definition lm_ok (c : snap_virtio_ctrl D) : Prop := pending_resume c = false /\ (lm_quiet c -> at_rest c).

Definition phys (c : snap_virtio_ctrl D) : bool * option snap_device * bool := (progress_lock c, sdev c, pending_flr c).

(** Keeps the invariant, the lock and the device, and the live migration state. *)
Definition fine (u0 : nat -> Z) (s s' : sys) : Prop :=
  alive u0 s' /\ phys (cs_ctrl s') = phys (cs_ctrl s) /\ (lm_ok (cs_ctrl s) -> lm_ok (cs_ctrl s')).

Lemma fine_refl u0 s : alive u0 s -> fine u0 s s.
Proof. intros Hal. by split_and!. Qed.
Lemma fine_trans u0 s s1 s2 : fine u0 s s1 -> fine u0 s1 s2 -> fine u0 s s2.
Proof. intros (? & ? & ?) (? & ? & ?). split_and!; [done|congruence|auto]. Qed.

Lemma core_phys c c' : core c' = core c -> phys c' = phys c /\ pending_resume c' = pending_resume c.
Proof. unfold core, phys. intros Hc. injection Hc as ? ? ? ?. split; congruence. Qed.

Lemma fine_intro u0 s s' :
  alive u0 s' -> core (cs_ctrl s') = core (cs_ctrl s) -> lm_state (cs_ctrl s') = lm_state (cs_ctrl s) ->
  (at_rest (cs_ctrl s) -> at_rest (cs_ctrl s')) -> fine u0 s s'.
Proof.
  intros Hal Hc Hlm Hr. destruct (core_phys _ _ Hc) as [Hp Hre]. split_and!; [done|done|].
  unfold lm_ok, lm_quiet. rewrite Hre, Hlm. tauto.
Qed.

Lemma fine_touched u0 s s' : touched s s' -> alive u0 s -> fine u0 s s'.
Proof.
  intros Ht Hal. destruct (touched_ok u0 s s' Ht Hal) as (? & ? & Hst & ?). apply fine_intro; try done. unfold at_rest. by rewrite Hst.
Qed.

Lemma fine_reset u0 s : alive u0 s -> at_rest (cs_ctrl s) -> pending_flr (cs_ctrl s) = false -> post snap_virtio_ctrl_reset (fun _ => fine u0 s) s.
Proof.
  intros Hal Hr Hf. eapply post_mono; [by apply reset_ok|]. intros ret s1 (? & ? & ? & Hst & _). apply fine_intro; try done.
  unfold at_rest. destruct Hst as [Hst|Hst]; rewrite Hst; auto.
Qed.

Lemma fine_suspend u0 s : alive u0 s -> post snap_virtio_ctrl_suspend (fun _ s' => fine u0 s s' /\
  (at_rest (cs_ctrl s) -> c_state (cs_ctrl s') = c_state (cs_ctrl s)) /\ (c_state (cs_ctrl s) <> SNAP_VIRTIO_CTRL_STARTED -> c_state (cs_ctrl s') = c_state (cs_ctrl s))) s.
Proof.
  intros Hal. eapply post_mono; [by apply suspend_ok|]. intros ret s1 (Hal1 & Hc & Hlm & Hst).
  assert (at_rest (cs_ctrl s) -> c_state (cs_ctrl s1) = c_state (cs_ctrl s)) as Hr.
  { intros [H1|H1]; rewrite H1 in Hst; (rewrite decide_False in Hst by done); congruence. }
  split_and!; [|done|].
  - apply fine_intro; try done. intros Ha. unfold at_rest. by rewrite Hr.
  - intros Hne. by rewrite decide_False in Hst.
Qed.

Lemma fine_start u0 s : alive u0 s -> pending_flr (cs_ctrl s) = false -> post snap_virtio_ctrl_start (fun _ => fine u0 s) s.
Proof.
  intros Hal Hf. eapply post_mono; [by apply start_ok|]. intros ret s1 (Hal1 & Hc & [[Hst Hlm]|[Hst Hlm]] & _).
  - destruct (core_phys _ _ Hc) as [Hp Hre]. split_and!; [done|done|]. unfold lm_ok, lm_quiet. rewrite Hlm, Hre.
    intros [? _]. split; [done|]. by intros [?|?].
  - apply fine_intro; try done. unfold at_rest. by rewrite Hst.
Qed.

Lemma all_suspended_ok u0 b : forall l s, wf u0 b s -> (forall i, i ∈ l -> (i < max_queues (cs_ctrl s))%nat) ->
  post (all_suspended l) (fun r s' => s' = s /\ (r = true -> forall i id q, i ∈ l -> queues (cs_ctrl s) !! i = Some (Some id) ->
    cs_heap s !! id = Some q -> q_is_suspended (q_dev q) = true)) s.
Proof.
  intros l s Hwf. induction l as [|i l IH]; intros Hl; cbn [all_suspended].
  { apply post_return. split; [done|]. intros _ i id q Hi. set_solver. }
  destruct (lookup_lt_is_Some_2 (queues (cs_ctrl s)) i) as [o Ho]; [rewrite (sz_queues _ (wf_sized _ _ _ Hwf)); apply Hl; set_solver|].
  apply post_bind. unfold post at 1, get_slot. rewrite Ho.
  assert (forall j, j ∈ l -> (j < max_queues (cs_ctrl s))%nat) as Hl' by (intros; apply Hl; set_solver).
  destruct o as [id|].
  - destruct (wf_slot_queue _ _ _ _ _ Hwf Ho) as (q & Hq & _). apply post_bind. unfold post at 1, deref. rewrite Hq.
    destruct (q_is_suspended (q_dev q)) eqn:Hs; [|by apply post_return].
    eapply post_mono; [by apply IH|]. intros r s' (-> & Hr). split; [done|]. intros -> j id' q' [->|Hj]%elem_of_cons Hj' Hq'; [congruence|eauto].
  - eapply post_mono; [by apply IH|]. intros r s' (-> & Hr). split; [done|]. intros -> j id' q' [->|Hj]%elem_of_cons Hj' Hq'; [congruence|eauto].
Qed.

Lemma when_fine u0 b (m : C unit) s : alive u0 s -> (b = true -> post m (fun _ => fine u0 s) s) -> post (m_when b m) (fun _ => fine u0 s) s.
Proof. intros Hal Hm. unfold m_when. destruct b; [by apply Hm|apply post_return; by apply fine_refl]. Qed.

Lemma phys_flr c c' : phys c' = phys c -> pending_flr c' = pending_flr c.
Proof. unfold phys. congruence. Qed.

Lemma ctrl_progress_suspend_ok u0 s :
  alive u0 s -> c_state (cs_ctrl s) = SNAP_VIRTIO_CTRL_SUSPENDING -> pending_flr (cs_ctrl s) = false ->
  post snap_virtio_ctrl_progress_suspend (fun _ => fine u0 s) s.
Proof.
  intros Hal Hst Hf. unfold snap_virtio_ctrl_progress_suspend.
  eapply post_bind_mono; [apply pgs_suspend_ok, Hal|]. intros _ s1 (Hwf1 & [Hh1 Hn1 Hd1 Hl1 Hq1]).
  apply post_bind. unfold all_slots. apply post_gets, post_return.
  eapply post_bind_mono; [apply (all_suspended_ok u0 all_held); [done|intros i Hi%elem_of_seq; lia]|]. intros r s' (-> & Hr).
  eapply post_bind_mono; [by apply pgs_resume_ok|]. intros _ s2 (Hwf2 & [Hh2 Hn2 Hd2 Hl2 Hq2]).
  assert (life (cs_ctrl s2) = life (cs_ctrl s)) as Hl by congruence. destruct (life_core _ _ Hl) as (Hc2 & Hst2 & Hlm2).
  assert (alive u0 s2) as Hal2.
  { split; [done|congruence|congruence| | |].
    - rewrite Hh2, Hh1, Hq2, Hq1. apply Hal.
    - rewrite Hd2, Hd1. apply Hal.
    - unfold core in Hc2. injection Hc2 as _ -> -> _. apply Hal. }
  destruct r; cbn [negb]; [|apply post_return; apply fine_intro; try done; unfold at_rest; by rewrite Hst2].
  apply post_bind. unfold post at 1, set_state, upd_ctrl, modify.
  match goal with |- post _ _ ?st => set (s3 := st) end.
  assert (fine u0 s s3 /\ pending_resume (cs_ctrl s3) = pending_resume (cs_ctrl s) /\ at_rest (cs_ctrl s3)) as (Hfine & Hre & Hrest).
  { split_and!; [apply fine_intro; try done|unfold core in Hc2; change (pending_resume (cs_ctrl s3)) with (pending_resume (cs_ctrl s2)); congruence|by right].
    - apply alive_state; [done|done|]. intros _ id q Hq. destruct (al_lost _ _ Hal2 id q Hq) as [Hin|?]; [|done].
      apply (Hr eq_refl (q_index q) id q).
      + apply elem_of_seq. split; [lia|]. rewrite <- (sz_queues _ (wf_sized _ _ _ Hwf1)), <- Hq2. by eapply lookup_lt_Some.
      + by rewrite <- Hq2.
      + by rewrite <- Hh2.
    - intros _. by right. }
  clearbody s3. apply post_gets.
  eapply (post_bind_mono _ _ (fun _ s4 => fine u0 s3 s4 /\ at_rest (cs_ctrl s4) /\ pending_resume (cs_ctrl s4) = pending_resume (cs_ctrl s3))).
  { unfold m_when. destruct (pending_reset (cs_ctrl s3)); [|apply post_return; split_and!; [apply fine_refl, Hfine|done|done]].
    eapply post_bind_mono; [apply reset_ok; [apply Hfine|done|rewrite (phys_flr _ _ (proj1 (proj2 Hfine))); done]|].
    intros ret s4 (Hal4 & Hc4 & Hlm4 & Hs4 & _). unfold post, upd_ctrl, modify. destruct (core_phys _ _ Hc4) as [_ Hre4].
    assert (at_rest (cs_ctrl s4)) as Hrest4 by (unfold at_rest; destruct Hs4 as [-> | ->]; auto).
    split_and!; [|done|done]. apply fine_intro; try done. same. }
  intros _ s4 (Hfine4 & Hrest4 & Hre4). apply post_gets.
  eapply (post_bind_mono _ _ (fun _ s5 => fine u0 s4 s5 /\ pending_resume (cs_ctrl s5) = pending_resume (cs_ctrl s4))).
  { unfold m_when. destruct (is_quiesce (cs_ctrl s4)); [|apply post_return; split; [apply fine_refl, Hfine4|done]].
    destruct Hfine4 as (Hal4 & _). unfold post, snap_virtio_ctrl_quiesce_adm_done, complete_quiesce, snap_virtio_ctrl_set_lm_state, m_bind, ctrl, gets, call_env, upd_ctrl, modify.
    cbn [res_bind]. crec. split; [|done]. split_and!; [same|done|]. intros [? _]. split; [done|]. intros _. exact Hrest4. }
  intros _ s5 (Hfine5 & Hre5). apply post_gets.
  eapply post_mono; [apply (when_fine u0); [apply Hfine5|]|].
  2:{ intros [] s6 Hfine6. eapply fine_trans; [exact Hfine|]. eapply fine_trans; [exact Hfine4|]. by eapply fine_trans. }
  intros Hpend. eapply post_bind_mono; [apply resume_ok, Hfine5|]. intros ret s6 (_ & Hal6 & _ & _ & Hp6). unfold post, upd_ctrl, modify.
  split_and!; [same|done|]. intros [? _]. congruence.
Qed.

(** ** Changes of the configuration *)

(** As [fine], but the device may be opened again. *)
Definition good (u0 : nat -> Z) (s s' : sys) : Prop :=
  alive u0 s' /\ progress_lock (cs_ctrl s') = progress_lock (cs_ctrl s) /\ (lm_ok (cs_ctrl s) -> lm_ok (cs_ctrl s')).

Lemma fine_good u0 s s' : fine u0 s s' -> good u0 s s'.
Proof. intros (? & Hp & ?). split_and!; try done. unfold phys in Hp. congruence. Qed.
Lemma good_trans u0 s s1 s2 : good u0 s s1 -> good u0 s1 s2 -> good u0 s s2.
Proof. intros (? & ? & ?) (? & ? & ?). split_and!; [done|congruence|auto]. Qed.

Lemma reopen_ok u0 n : forall s, alive u0 s -> pending_flr (cs_ctrl s) = true ->
  post (reopen_device n) (fun _ s' => good u0 s s' /\
    (pending_flr (cs_ctrl s') = true -> sdev (cs_ctrl s') = None \/ n = 0%nat /\ sdev (cs_ctrl s') = sdev (cs_ctrl s))) s.
Proof.
  induction n as [|n IH]; intros s Hal Hf; cbn [reopen_device].
  { apply post_return. split; [apply fine_good, fine_refl, Hal|by right]. }
  apply post_bind. unfold post at 1, call_env. destruct (snap_open_device (cs_env s)) as [w [d|]] eqn:Hop.
  - apply post_bind. unfold post, upd_ctrl, modify. crec. split; [|done]. split_and!; [|done|done].
    destruct Hal as [[Hsh [] Hlk] ? ? ? ? _]. split; try done. intros _. exists d. split; [done|]. by eapply open_modern.
  - apply post_bind. unfold post at 1, upd_ctrl, modify. crec.
    match goal with |- post _ _ ?st => assert (alive u0 st) as Hal1 end.
    { destruct Hal as [[Hsh [] Hlk] ? ? ? ? _]. split; try done. crec. congruence. }
    eapply post_mono; [apply IH; done|]. intros [] s1 [Hg Hn]. split; [exact Hg|]. intros Hp. left. by destruct (Hn Hp) as [?|[_ ?]].
Qed.

Lemma good_lm u0 s s' : alive u0 s' -> progress_lock (cs_ctrl s') = progress_lock (cs_ctrl s) ->
  pending_resume (cs_ctrl s') = pending_resume (cs_ctrl s) -> lm_state (cs_ctrl s') = SNAP_VIRTIO_CTRL_LM_RUNNING -> good u0 s s'.
Proof. intros Hal Hl Hp Hlm. split_and!; [done|done|]. intros [? _]. split; [congruence|]. unfold lm_quiet. rewrite Hlm. by intros [?|?]. Qed.

(** The first part of a function level reset: the queues are suspended, then destroyed. *)
Lemma flr_stop_ok u0 s :
  alive u0 s ->
  post (do! (if bool_decide (c_state (cs_ctrl s) = SNAP_VIRTIO_CTRL_STARTED) then snap_virtio_ctrl_suspend else mreturn 0) in
        let! c := ctrl in
        let! ret := (if snap_virtio_ctrl_is_suspended c then snap_virtio_ctrl_stop else mreturn 0) in
        let! c := ctrl in
        mreturn (ret, (ret =? 0) && negb (snap_virtio_ctrl_is_stopped c))) (fun _ => fine u0 s) s.
Proof.
  intros Hal. eapply (post_bind_mono _ _ (fun _ => fine u0 s)).
  { case_bool_decide; [|apply post_return; by apply fine_refl]. eapply post_mono; [by apply fine_suspend|]. by intros ret s1 [? _]. }
  intros _ s1 Hf1. apply post_gets. unfold snap_virtio_ctrl_is_suspended. case_bool_decide as Hst.
  - eapply post_bind_mono; [apply stop_ok; [apply Hf1|by right]|]. intros ret s2 (Hal2 & Hl2 & Hst2). apply post_gets, post_return.
    eapply fine_trans; [exact Hf1|]. destruct (life_core_state _ _ _ Hl2) as (? & _ & ?). apply fine_intro; try done.
    intros _. unfold at_rest. destruct Hst2 as [?|[_ Hx]]; [by left|right; congruence].
  - apply post_bind, post_return, post_gets, post_return. exact Hf1.
Qed.

Lemma flr_ok u0 s :
  alive u0 s -> pending_flr (cs_ctrl s) = false -> post flr (fun r s' => good u0 s s' /\ exists ret, r = inl ret) s.
Proof.
  intros Hal Hf. unfold flr. eapply get_sdev_ok; [done|done|]. intros d _ _. apply post_gets.
  eapply (post_bind_mono _ _ (fun _ => fine u0 s)).
  { destruct (snap_virtio_ctrl_is_stopped (cs_ctrl s)); [apply post_return; by apply fine_refl|by apply flr_stop_ok]. }
  intros [ret wait] s1 Hf1. destruct wait; [apply post_return; split; [by apply fine_good|eauto]|]. apply post_gets.
  destruct Hf1 as (Hal1 & Hp1 & Hlm1).
  eapply (post_bind_mono _ _ (fun _ s2 => alive u0 s2 /\ phys (cs_ctrl s2) = phys (cs_ctrl s1) /\ pending_resume (cs_ctrl s2) = pending_resume (cs_ctrl s1) /\
    lm_state (cs_ctrl s2) = SNAP_VIRTIO_CTRL_LM_RUNNING)).
  { case_bool_decide as Hlm; [apply post_return; by split_and!|]. unfold post, snap_virtio_ctrl_set_lm_state, upd_ctrl, modify. split_and!; [same|done..]. }
  intros _ s2 (Hal2 & Hp2 & Hr2 & Hlm2).
  assert (fine u0 s1 s2) as Hf2 by (split_and!; [done|done|]; apply (good_lm u0 s1 s2); [done|unfold phys in Hp2; congruence|done|done]).
  assert (good u0 s s2) as Hg2 by (apply (good_trans u0 s s1); [apply fine_good; by split_and!|by apply fine_good]).
  eapply post_bind_mono; [apply call_cb_ok|]. intros pre s3 [w ->].
  destruct (Z.eqb_spec pre 0) as [->|_]; cbn [negb]; [|apply post_return; split; [|eauto]; eapply good_trans; [exact Hg2|]; split_and!; [same|done|done]].
  apply post_bind. unfold post at 1, call_env. apply post_bind. unfold post at 1, upd_ctrl, modify. crec.
  match goal with |- post _ _ ?st => set (s4 := st) end.
  assert (alive u0 s4) as Hal4 by (destruct Hal2 as [[Hsh [] Hlk] ? ? ? ? _]; split; done).
  assert (good u0 s2 s4) as Hg4 by (split_and!; [done|done|done]).
  eapply post_bind_mono; [by apply (reopen_ok u0 100)|]. intros _ s5 (Hg5 & Hn5). eapply post_bind_mono; [apply call_cb_ok|].
  intros _ s6 [w6 ->]. apply post_gets. assert (alive u0 s5) as Hal5 by apply Hg5.
  assert (good u0 s s5) as Hg by (eapply good_trans; [exact Hg2|]; by eapply good_trans). destruct (pending_flr (cs_ctrl s5)) eqn:Hp5; crec in *; rewrite Hp5; cbn [negb].
  - destruct (Hn5 eq_refl) as [->|[? _]]; [|done]. apply post_return. split; [|eauto]. eapply good_trans; [exact Hg|]. split_and!; [same|done|done].
  - apply post_bind. unfold post at 1, upd_curr, upd_ctrl, modify. apply post_return. split; [|eauto].
    eapply good_trans; [exact Hg|]. split_and!; [same|done|done].
Qed.

Lemma reset_request_ok u0 s ret :
  alive u0 s -> pending_flr (cs_ctrl s) = false -> post (reset_request ret) (fun _ => fine u0 s) s.
Proof.
  intros Hal Hf. unfold reset_request. eapply get_sdev_ok; [done|done|]. intros d _ ->. cbn [m_when]. apply post_bind, post_return.
  eapply post_bind_mono; [by apply fine_suspend|]. intros r s1 (Hf1 & _). apply post_gets.
  assert (pending_flr (cs_ctrl s1) = false) as Hp1 by (rewrite (phys_flr _ _ (proj1 (proj2 Hf1))); done).
  unfold snap_virtio_ctrl_is_stopped, snap_virtio_ctrl_is_suspended. destruct Hf1 as (Hal1 & Hphys & Hlm1).
  assert (fine u0 s s1) as Hf1 by by split_and!.
  destruct (bool_decide _ || bool_decide _) eqn:Hb.
  - apply orb_true_iff in Hb as [Hb%bool_decide_eq_true|Hb%bool_decide_eq_true].
    + eapply post_mono; [apply (fine_reset u0); [done|by left|done]|]. intros ? s2 Hf2. by eapply fine_trans.
    + eapply post_mono; [apply (fine_reset u0); [done|by right|done]|]. intros ? s2 Hf2. by eapply fine_trans.
  - apply post_bind. unfold post at 1, upd_ctrl, modify. apply post_return. eapply fine_trans; [exact Hf1|]. split_and!; [same|done|done].
Qed.

Lemma change_status_ok u0 again s :
  alive u0 s -> pending_flr (cs_ctrl s) = false -> post (snap_virtio_ctrl_change_status again) (fun _ => good u0 s) s.
Proof.
  intros Hal Hf. unfold snap_virtio_ctrl_change_status. apply post_gets.
  assert (forall ret s1, fine u0 s s1 -> post (do! (if negb (ret =? 0) then snap_virtio_ctrl_device_error else mreturn 0) in mreturn ret) (fun _ => good u0 s) s1) as Hfin.
  { intros ret s1 Hf1. apply post_bind. destruct (negb _); [|apply post_return, post_return; by apply fine_good].
    eapply post_mono; [apply (device_error_ok u0); [apply Hf1|rewrite (phys_flr _ _ (proj1 (proj2 Hf1))); done]|].
    intros ? s2 Ht. apply post_return, fine_good. eapply fine_trans; [exact Hf1|]. apply fine_touched; [done|apply Hf1]. }
  destruct (SNAP_VIRTIO_CTRL_FLR_DETECTED (cs_ctrl s)).
  { eapply post_bind_mono; [by apply flr_ok|]. intros r s1 (Hg & ret & ->). by apply post_return. }
  apply post_bind, post_return, post_gets.
  eapply (post_bind_mono _ _ (fun _ => fine u0 s)).
  { destruct (_ && _); [by apply reset_request_ok|apply post_return; by apply fine_refl]. }
  intros ret s1 Hf1. apply post_gets. destruct (SNAP_VIRTIO_CTRL_LIVE_DETECTED (cs_ctrl s1)); [|by apply Hfin].
  assert (pending_flr (cs_ctrl s1) = false) as Hp1 by (rewrite (phys_flr _ _ (proj1 (proj2 Hf1))); done).
  eapply get_sdev_ok; [apply Hf1|done|]. intros d _ ->. cbn [andb].
  eapply post_bind_mono; [apply call_cb_ok|]. intros r s2 [w ->].
  assert (fine u0 s (s1 ⦇ cs_env := w ⦈)) as Hf2.
  { eapply fine_trans; [exact Hf1|]. destruct Hf1 as (Hal1 & _). split_and!; [same|done|done]. }
  pose proof (Hfin r _ Hf2) as Hfin2. destruct (negb (r =? 0)); [exact Hfin2|]. eapply post_bind_mono; [apply fine_start; [apply Hf2|done]|].
  intros r2 s3 Hf3. apply Hfin. by eapply fine_trans.
Qed.

Lemma bar_query_ok u0 s : alive u0 s -> post bar_query (fun _ s' => fine u0 s s' /\ lm_state (cs_ctrl s') = lm_state (cs_ctrl s)) s.
Proof.
  intros Hal. unfold bar_query. apply post_gets, post_bind. unfold post at 1, call_env.
  destruct (bar_ops_update (cs_env s) (bar_curr (cs_ctrl s))) as [[w b] ret] eqn:Hup. apply post_bind. unfold post at 1, upd_curr, upd_ctrl, modify. crec.
  apply post_return. pose proof (update_attrs _ _ _ _ _ Hup) as Hlen. split; [|done]. split_and!; [|done|done].
  eapply (alive_same u0 s); [try reflexivity..|exact Hal]. exact Hlen.
Qed.

Lemma progress_body_ok u0 again s : alive u0 s -> post (progress_body again) (fun _ => good u0 s) s.
Proof.
  intros Hal. unfold progress_body. apply post_gets. destruct (pending_flr (cs_ctrl s)) eqn:Hf; [apply post_return; by apply fine_good, fine_refl|].
  eapply post_bind_mono; [apply (when_fine u0); [done|]; intros Hst%bool_decide_eq_true; by apply ctrl_progress_suspend_ok|]. intros [] s1 Hf1.
  unfold snap_virtio_ctrl_bar_update. apply post_assoc, post_bind. unfold post at 1, upd_ctrl, modify.
  match goal with |- post _ _ ?st => set (s2 := st) end.
  assert (fine u0 s s2) as Hf2 by (eapply fine_trans; [exact Hf1|]; destruct Hf1 as (Hal1 & _); split_and!; [same|done|done]). clearbody s2.
  eapply post_bind_mono; [apply (bar_query_ok u0), Hf2|]. intros ret s3 [Hf3' _]. assert (fine u0 s s3) as Hf3 by (by eapply fine_trans).
  destruct (negb (ret =? 0)); [by apply post_return, fine_good|]. apply post_gets.
  assert (pending_flr (cs_ctrl s3) = false) as Hp3 by (rewrite (phys_flr _ _ (proj1 (proj2 Hf3))); done).
  eapply (post_bind_mono _ _ (fun _ => good u0 s)).
  { destruct (snap_virtio_ctrl_critical_bar_change_detected _); [|by apply post_return, fine_good].
    eapply post_mono; [apply (change_status_ok u0); [apply Hf3|done]|]. intros r s4 Hg. eapply good_trans; [by apply fine_good|done]. }
  intros r s4 Hg4. apply post_gets. destruct (pending_flr (cs_ctrl s4)); [by apply post_return|].
  destruct (negb _); [|apply post_bind, post_return; by apply post_return].
  eapply (post_bind_mono _ _ (fun _ s5 => exists w, s5 = s4 ⦇ cs_env := w ⦈)).
  { unfold snap_virtio_ctrl_change_num_vfs. apply post_gets. destruct cb_num_vfs_changed; apply call_env_ok. }
  intros r5 s5 [w ->]. apply post_return. eapply good_trans; [exact Hg4|]. destruct Hg4 as (Hal4 & _). split_and!; [same|done|done].
Qed.

(** ** Polling *)

Lemma progress_list_ok u0 b tid : forall l n s,
  wf u0 b s -> lost_ok (cs_heap s) (queues (cs_ctrl s)) -> (forall id, id ∈ l -> exists q, cs_heap s !! id = Some q /\ q_ready (q_dev q) = true) ->
  post (progress_list l tid n) (fun _ s' => wf u0 b s' /\ cs_ctrl s' = cs_ctrl s /\ cs_destroyed s' = cs_destroyed s /\
    lost_ok (cs_heap s') (queues (cs_ctrl s')) /\ (all_asleep (cs_heap s) -> all_asleep (cs_heap s'))) s.
Proof.
  induction l as [|id l IH]; intros n s Hwf Hlo Hl; cbn [progress_list]; [by apply post_return|].
  destruct (Hl id ltac:(set_solver)) as (q & Hq & Hrd). apply post_bind. unfold post at 1, upd_queue. rewrite Hq.
  unfold snap_virtio_ctrl_queue_progress. apply post_assoc, post_bind. unfold post at 1, deref. crec. rewrite lookup_insert_eq.
  set (q1 := mk_queue _ _ _ _ _). change (q_ready (q_dev q1)) with (q_ready (q_dev q)). rewrite Hrd. cbn [negb]. apply post_assoc, post_bind. unfold post at 1, call_env. crec.
  destruct (q_progress (cs_env s) q1) as [[w d] k] eqn:Hrun. destruct (progress_role _ _ _ _ _ Hrun) as (Hrole & Hrd' & Hslp). crec in *.
  apply post_assoc, post_bind. unfold post at 1, upd_queue. crec. rewrite lookup_insert_eq. apply post_bind, post_return. crec.
  match goal with |- post _ _ ?st => set (s1 := st) end.
  assert (cs_heap s1 = <[id := q1 ⦇ q_dev := d ⦈]> (cs_heap s)) as Hh1 by (unfold s1; crec; by rewrite insert_insert_eq).
  assert (wf u0 b s1) as Hwf1.
  { destruct Hwf as [Hsh Hsz Hlk]. split; [|done|done]. unfold shaped. rewrite Hh1. by eapply shape_role. }
  assert (lost_ok (cs_heap s1) (queues (cs_ctrl s1))) as Hlo1.
  { rewrite Hh1. apply (lost_update _ _ _ q); [done|done|left; by split]. }
  eapply post_mono; [apply (IH _ s1 Hwf1 Hlo1)|].
  { intros id' Hid'. rewrite Hh1. destruct (decide (id' = id)) as [->|]; [rewrite lookup_insert_eq; eauto|].
    rewrite lookup_insert_ne by done. apply Hl. set_solver. }
  intros _ s2 (Hwf2 & Hc2 & Hd2 & Hlo2 & Has2). split_and!; [done|by rewrite Hc2|by rewrite Hd2|done|]. intros Has. apply Has2.
  rewrite Hh1. intros j v [[<- <-]|[Hne Hv]]%lookup_insert_Some; [|by apply (Has j)]. crec. apply Hslp. by apply (Has id q).
Qed.

Lemma pg_io_ok u0 s g tid :
  alive u0 s -> (g < length (pgs (pg_ctx (cs_ctrl s))))%nat ->
  post (snap_virtio_ctrl_pg_thread_io_progress g tid)
    (fun _ s' => fine u0 s s' /\ npgs (pg_ctx (cs_ctrl s')) = npgs (pg_ctx (cs_ctrl s))) s.
Proof.
  intros Hal Hg. pose proof (sz_npgs _ (wf_sized _ _ _ (al_wf _ _ Hal))) as Hn. unfold snap_virtio_ctrl_pg_thread_io_progress.
  eapply post_bind_mono; [apply (pg_lock_ok u0); [apply Hal|done]|]. intros _ s1 (Hwf1 & [Hh1 Hn1 Hd1 Hl1 Hq1] & Hid1). apply post_gets.
  assert (length (pgs (pg_ctx (cs_ctrl s1))) = length (pgs (pg_ctx (cs_ctrl s)))) as Hlen by (apply (f_equal length) in Hid1; by rewrite !length_map in Hid1).
  destruct (wf_list_lookup _ _ _ g Hwf1) as [l Hl]; [lia|]. rewrite Hl. apply post_bind, post_return.
  eapply post_bind_mono; [apply (progress_list_ok u0 (held g)); [done|rewrite Hh1, Hq1; apply Hal|]|].
  { intros id Hid. apply (sh_list _ _ _ _ _ _ _ (wf_shape _ _ _ Hwf1) g l id Hl) in Hid as (q & Hq & Hp). exists q. split; [done|].
    apply (sh_ready _ _ _ _ _ _ _ (wf_shape _ _ _ Hwf1) id q Hq). congruence. }
  intros n s2 (Hwf2 & Hc2 & Hd2 & Hlo2 & Has2).
  eapply post_bind_mono; [apply pg_unlock_ok; [done|rewrite Hc2; lia]|]. intros _ s3 (Hwf3 & [Hh3 Hn3 Hd3 Hl3 Hq3] & Hid3). apply post_return.
  assert (life (cs_ctrl s3) = life (cs_ctrl s)) as Hlife by congruence. destruct (life_core _ _ Hlife) as (Hc & Hst & Hlm). split.
  - apply fine_intro; try done; [|unfold at_rest; by rewrite Hst]. split; [done|..].
    + rewrite Hst. intros Hs i id. rewrite Hq3, Hc2, Hq1. by apply Hal.
    + rewrite Hst. intros Hs. rewrite Hh3. apply Has2. rewrite Hh1. by apply Hal.
    + by rewrite Hh3, Hq3.
    + rewrite Hd3, Hd2, Hd1. apply Hal.
    + unfold core in Hc. injection Hc as _ -> -> _. apply Hal.
  - rewrite (sz_npgs _ (wf_sized _ _ _ Hwf3)), Hn. apply (f_equal length) in Hid3. rewrite !length_map, Hc2 in Hid3. lia.
Qed.

Lemma io_progress_ok u0 s : alive u0 s -> post snap_virtio_ctrl_io_progress (fun _ => fine u0 s) s.
Proof.
  intros Hal. unfold snap_virtio_ctrl_io_progress. apply post_gets.
  assert (forall l n s1, fine u0 s s1 -> npgs (pg_ctx (cs_ctrl s1)) = npgs (pg_ctx (cs_ctrl s)) ->
    (forall g, g ∈ l -> Z.of_nat g < npgs (pg_ctx (cs_ctrl s))) -> post (io_progress_groups l n) (fun _ => fine u0 s) s1) as Hloop.
  { induction l as [|g l IH]; intros n s1 Hf1 Hn1 Hl; cbn [io_progress_groups]; [by apply post_return|].
    pose proof (sz_npgs _ (wf_sized _ _ _ (al_wf _ _ (proj1 Hf1)))) as Hnp.
    eapply post_bind_mono; [apply (pg_io_ok u0); [apply Hf1|]|].
    { pose proof (Hl g ltac:(set_solver)). lia. }
    intros k s2 [Hf2 Hn2]. apply IH; [by eapply fine_trans|congruence|]. intros; apply Hl; set_solver. }
  apply Hloop; [by apply fine_refl|done|]. intros g Hg%elem_of_seq. lia.
Qed.

(** ** Live migration *)

Lemma log_writes_ok u0 b s : alive u0 s -> post (snap_virtio_ctrl_log_writes b) (fun _ => fine u0 s) s.
Proof.
  intros Hal. unfold snap_virtio_ctrl_log_writes.
  eapply post_bind_mono; [apply pgs_suspend_ok, Hal|]. intros _ s1 (Hwf1 & [Hh1 _ Hd1 Hl1 Hq1]).
  apply (post_nest all_slots (fun l => each_queue l (fun _ id => upd_queue id (fun q => q ⦇ q_log := b ⦈)))).
  eapply post_bind_mono.
  { apply (each_queue_wf u0 all_held _ (fun s2 => cs_destroyed s2 = cs_destroyed s /\ lost_ok (cs_heap s2) (queues (cs_ctrl s2)) /\
      queues (cs_ctrl s2) = queues (cs_ctrl s) /\ (all_asleep (cs_heap s) -> all_asleep (cs_heap s2)))); [done|rewrite Hh1, Hq1; split_and!; [done|apply Hal|done|done]|].
    intros id q s2 Hwf2 (Hd2 & Hlo2 & Hqs2 & Has2) Hq Hslot. unfold post, upd_queue. rewrite Hq.
    split_and!; [|done| |done| |done].
    - destruct Hwf2 as [Hsh Hsz Hlk]. split; [|done|done]. by eapply shape_role.
    - crec. apply (lost_update _ _ _ q); [done|done|by right].
    - intros Has. crec. intros j v [[<- <-]|[Hne Hv]]%lookup_insert_Some; crec; [by apply (Has2 Has id q)|by apply (Has2 Has j)]. }
  intros _ s2 (Hwf2 & (Hd2 & Hlo2 & Hqs2 & Has2) & Hl2). eapply post_bind_mono; [by apply pgs_resume_ok|]. intros _ s3 (Hwf3 & [Hh3 _ Hd3 Hl3 Hq3]).
  unfold post, upd_ctrl, modify. assert (life (cs_ctrl s3) = life (cs_ctrl s)) as Hlife by congruence.
  destruct (life_core _ _ Hlife) as (Hc & Hst & Hlm). apply fine_intro; try done; [|unfold at_rest; crec; by rewrite Hst].
  destruct Hwf3 as [Hsh [] Hlk]. split; [split; [done|by split|done]|..]; crec.
  - rewrite Hst, Hq3, Hqs2. apply Hal.
  - rewrite Hst, Hh3. intros Hs. apply Has2. by apply Hal.
  - by rewrite Hh3, Hq3.
  - rewrite Hd3, Hd2. apply Hal.
  - unfold core in Hc. injection Hc as _ -> -> _. apply Hal.
Qed.

(** Between calls the lock is free. *)
Record ctrl_ok (u0 : nat -> Z) (s : sys) : Prop := {
  co_alive : alive u0 s;
  co_lock : progress_lock (cs_ctrl s) = false;
}.

(** A call keeps the invariant, and the live migration invariant when [lm] holds. *)
Definition ctrl_ok_to (lm : Prop) (u0 : nat -> Z) (s s' : sys) : Prop :=
  ctrl_ok u0 s' /\ (lm -> lm_ok (cs_ctrl s) -> lm_ok (cs_ctrl s')).

Lemma locked_ok {A} (lm : Prop) u0 (m : C A) s :
  ctrl_ok u0 s ->
  (forall s1, s1 = s ⦇ cs_ctrl := (cs_ctrl s) ⦇ progress_lock := true ⦈ ⦈ -> alive u0 s1 ->
     post m (fun _ s2 => alive u0 s2 /\ progress_lock (cs_ctrl s2) = true /\ (lm -> lm_ok (cs_ctrl s) -> lm_ok (cs_ctrl s2))) s1) ->
  post (with_lock m) (fun _ => ctrl_ok_to lm u0 s) s.
Proof.
  intros [Hal Hlock] Hm. unfold with_lock, snap_virtio_ctrl_progress_lock. apply post_assoc, post_gets. rewrite Hlock.
  apply post_bind. unfold post at 1, upd_ctrl, modify.
  eapply post_bind_mono; [apply Hm; [done|same]|]. intros a s1 (Hal1 & Hl1 & Hlm1).
  unfold snap_virtio_ctrl_progress_unlock. apply post_assoc, post_gets. rewrite Hl1. apply post_bind. unfold post at 1, upd_ctrl, modify.
  apply post_return. split; [|exact Hlm1]. split; [same|done].
Qed.

Lemma progress_ok u0 n s : ctrl_ok u0 s -> post (snap_virtio_ctrl_progress (S n)) (fun _ => ctrl_ok_to True u0 s) s.
Proof.
  intros Hok. cbn [snap_virtio_ctrl_progress].
  pose proof (locked_ok True u0 (progress_body (snap_virtio_ctrl_progress n)) s Hok) as Hl. unfold with_lock in Hl.
  assert (post (do! snap_virtio_ctrl_progress_lock in let! a := progress_body (snap_virtio_ctrl_progress n) in
    do! snap_virtio_ctrl_progress_unlock in mreturn a) (fun _ => ctrl_ok_to True u0 s) s) as Hp.
  { apply Hl. intros s1 -> Hal1. eapply post_mono; [by apply (progress_body_ok u0)|]. intros [] s2 (Hal2 & Hl2 & Hlm2).
    split_and!; [done|exact Hl2|auto]. }
  unfold post, m_bind in Hp |- *. destruct (snap_virtio_ctrl_progress_lock s) as [[s1 []]| | |]; cbn [res_bind] in *; try done.
  destruct (progress_body _ s1) as [[s2 []]| | |]; cbn [res_bind] in *; try done.
  destruct (snap_virtio_ctrl_progress_unlock s2) as [[s3 []]| | |]; cbn [res_bind] in *; done.
Qed.

End Ops.

End Inv.

Ltac same := match goal with H : alive ?u ?s |- alive ?u ?s' => apply (alive_same u s s'); [reflexivity..|exact H] end.
