(* ===== verification/CtrlProps.v ===== *)
(** What the controller guarantees: in every state it reaches, whatever the host, the
    polling threads and live migration do, no freed queue is used and no call blocks or
    misuses a lock; queues are destroyed only when they are suspended; and while live
    migration keeps the controller quiet, all its queues are suspended.  The last part
    shows what happens outside of the assumptions: transitional devices and queues that
    cannot be created. *)

From stdpp Require Import gmap.
From S2P Require Import Prelude Effects PollGroups Ctrl CtrlInv.

Lemma repeat_lookup {A} (x y : A) n i : repeat x n !! i = Some y -> y = x /\ (i < n)%nat.
Proof.
  revert i. induction n as [|n IH]; intros [|i]; cbn; try done.
  - intros [= <-]. split; [done|lia].
  - intros [-> Hi]%IH. split; [done|lia].
Qed.

Section Steps.
Context {W D Q : Type} `{!CtrlOps W D Q}.
#[local] Abbreviation C := (M (cstate W D Q)).
#[local] Abbreviation queue := (snap_virtio_ctrl_queue Q).
#[local] Abbreviation sys := (cstate W D Q).

(** * Opening a controller *)

(** What the calls of [snap_virtio_ctrl_open] answer; [oa_max_queues] is the limit of the
    device for the type of the controller, [None] for an unknown type. *)
Record open_answers := mk_open {
  oa_context : bool;
  oa_max_queues : option nat;
  oa_device : option snap_device;
  oa_bar_curr : option (snap_virtio_device_attr D);
  oa_bar_prev : option (snap_virtio_device_attr D);
  oa_mutex : Z;
  oa_calloc : bool;
  oa_pgs : bool;
  oa_usage : bool;
  oa_mkey : bool
}.

Inductive ctrl_rsrc := CrDevice | CrBarCurr | CrBarPrev | CrMutex | CrQueues | CrGroups | CrMkey.

Definition EACCES : Z := 13.

(** The resources held, the counters of the polling groups and the controller, or the
    error.  The fields that are not set are zero: the controller is stopped. *)
Definition snap_virtio_ctrl_open (an : open_answers) (attr_npgs : Z) (g : pg_globals)
    : list ctrl_rsrc * pg_globals * (Z + snap_virtio_ctrl D) :=
  if negb (oa_context an) then ([], g, inl (- ENODEV))
  else
    let n := if attr_npgs =? 0 then 1 else attr_npgs in
    match oa_max_queues an with
    | None => ([], g, inl (- EINVAL))
    | Some mq =>
        match oa_device an with
        | None => ([], g, inl (- ENODEV))
        | Some dev =>
            match oa_bar_curr an with
            | None => ([], g, inl (- ENOMEM))
            | Some curr =>
                match oa_bar_prev an with
                | None => ([], g, inl (- ENOMEM))
                | Some prev =>
                    if negb (oa_mutex an =? 0) then ([], g, inl (oa_mutex an))
                    else if negb (oa_calloc an) then ([], g, inl (- ENOMEM))
                    else
                      let '(g1, ctx, ret) := snap_pgs_alloc (oa_pgs an) (oa_usage an) g n in
                      if negb (ret =? 0) then ([], g1, inl (- EINVAL))
                      else if negb (oa_mkey an) then ([], snap_pgs_free g1 ctx, inl (- EACCES))
                      else ([CrMkey; CrGroups; CrQueues; CrMutex; CrBarPrev; CrBarCurr; CrDevice], g1,
                            inr (mk_ctrl SNAP_VIRTIO_CTRL_STOPPED false (Some dev) mq (repeat None mq) curr prev ctx
                                   (repeat [] (Z.to_nat n)) false false false false SNAP_VIRTIO_CTRL_LM_INIT false None false))
                end
            end
        end
    end.

(** * Calls *)

Inductive ctrl_call :=
| OpProgress | OpSuspend | OpResume | OpIo | OpPgIo (g : nat)
| OpQuiesce (cmd : Z) | OpUnquiesce | OpFreeze | OpUnfreeze | OpTrack (on : bool) | OpHotunplug.

Definition discard {A} (m : C A) : C unit := do! m in mreturn tt.

(** [snap_virtio_ctrl_suspend] and [snap_virtio_ctrl_resume] are called with the lock held;
    the quiesce command is noted in the controller before [snap_virtio_ctrl_quiesce_adm]. *)
Definition run_call (op : ctrl_call) : C unit :=
  match op with
  | OpProgress => snap_virtio_ctrl_progress 1
  | OpSuspend => discard (with_lock snap_virtio_ctrl_suspend)
  | OpResume => discard (with_lock snap_virtio_ctrl_resume)
  | OpIo => discard snap_virtio_ctrl_io_progress
  | OpPgIo g => discard (snap_virtio_ctrl_pg_io_progress g)
  | OpQuiesce cmd =>
      do! upd_ctrl (fun c => c ⦇ quiesce_cmd := Some cmd ⦈) in discard snap_virtio_ctrl_quiesce_adm
  | OpUnquiesce => discard snap_virtio_ctrl_unquiesce
  | OpFreeze => discard snap_virtio_ctrl_freeze
  | OpUnfreeze => discard snap_virtio_ctrl_unfreeze
  | OpTrack on => discard (if on then snap_virtio_ctrl_start_dirty_pages_track else snap_virtio_ctrl_stop_dirty_pages_track)
  | OpHotunplug => discard snap_virtio_ctrl_hotunplug
  end.

(** Threads poll groups that exist. *)
Definition group_exists (s : sys) (op : ctrl_call) : Prop :=
  match op with OpPgIo g => Z.of_nat g < npgs (pg_ctx (cs_ctrl s)) | _ => True end.

Inductive ctrl_step (allowed : ctrl_call -> Prop) (s s' : sys) : Prop :=
| step_call op : allowed op -> group_exists s op -> run_call op s = Ok (s', tt) -> ctrl_step allowed s s'.

Definition any_call (op : ctrl_call) : Prop := True.

(** Live migration resumes the controller with [snap_virtio_ctrl_unquiesce] only. *)
Definition migration_call (op : ctrl_call) : Prop := op <> OpResume.

(** A controller that was opened, in a process where others use the groups [u0] times. *)
Record opened (u0 : nat -> Z) (s : sys) : Prop := {
  op_open : exists an n g l, snap_virtio_ctrl_open an n g = (l, cs_glob s, inr (cs_ctrl s)) /\ 0 <= n /\
    (forall usage, virtio_pg_usage g = Some usage -> (if n =? 0 then 1 else n) <= Z.of_nat (length usage)) ;
  op_modern : forall d, sdev (cs_ctrl s) = Some d -> transitional_device d = false;
  op_attrs : (max_queues (cs_ctrl s) <= length (q_attrs (bar_curr (cs_ctrl s))))%nat;
  op_heap : cs_heap s = ∅;
  op_destroyed : cs_destroyed s = [];
  op_usage : forall usage k u, virtio_pg_usage (cs_glob s) = Some usage -> usage !! k = Some u -> u = u64 (u0 k);
}.

Section Laws.
Context `{!CtrlLaws}.

Lemma opened_ok u0 s : opened u0 s -> ctrl_ok u0 s /\ lm_ok (cs_ctrl s).
Proof.
  intros [(an & n & g & l & Hop & Hn & Husage) Hmod Hattr Hheap Hdes Hu]. unfold snap_virtio_ctrl_open in Hop.
  destruct (oa_context an); cbn [negb] in Hop; [|done]. set (m := if n =? 0 then 1 else n) in *.
  assert (0 < m) as Hm by (unfold m; destruct (Z.eqb_spec n 0); lia).
  destruct (oa_max_queues an) as [mq|]; [|done]. destruct (oa_device an) as [dev|]; [|done].
  destruct (oa_bar_curr an) as [curr|]; [|done]. destruct (oa_bar_prev an) as [prev|]; [|done].
  destruct (oa_mutex an =? 0); cbn [negb] in Hop; [|done]. destruct (oa_calloc an); cbn [negb] in Hop; [|done].
  assert (exists usage ctx, snap_pgs_alloc (oa_pgs an) (oa_usage an) g m = (cs_glob s, ctx, 0) /\ pgs ctx = repeat (mk_pg 0 false) (Z.to_nat m) /\ npgs ctx = m /\
    virtio_pg_usage (cs_glob s) = Some usage /\ m <= Z.of_nat (length usage) /\
    cs_ctrl s = mk_ctrl SNAP_VIRTIO_CTRL_STOPPED false (Some dev) mq (repeat None mq) curr prev ctx
                  (repeat [] (Z.to_nat m)) false false false false SNAP_VIRTIO_CTRL_LM_INIT false None false) as (usage & ctx & _ & Hpgs & Hnp & Hus & Hul & Hc).
  { unfold snap_pgs_alloc in *. destruct (oa_pgs an); cbn [negb] in *; [|done]. destruct (virtio_pg_usage g) as [usage|] eqn:Hg.
    - cbn [Z.eqb negb] in Hop. destruct (oa_mkey an); cbn [negb] in Hop; [|done]. injection Hop as _ Hg' Hc'. rewrite <- Hg', <- Hc'.
      exists usage. eexists. split_and!; try done. by apply Husage.
    - destruct (oa_usage an); cbn [negb] in *; [|done]. cbn [Z.eqb negb] in Hop. destruct (oa_mkey an); cbn [negb] in Hop; [|done].
      injection Hop as _ Hg' Hc'. rewrite <- Hg', <- Hc'. do 2 eexists. split_and!; try done. cbn. rewrite repeat_length. lia. }
  rewrite Hc in *. crec in *. split; [split|].
  - split; rewrite ?Hc; crec; try done.
    + split; [unfold shaped|..].
      * rewrite Hheap, Hc. crec. rewrite Hpgs. split.
        -- intros i id Hi. apply repeat_lookup in Hi as [? _]. done.
        -- intros id q. by rewrite lookup_empty.
        -- by rewrite length_map, !repeat_length.
        -- intros k l' Hl. apply repeat_lookup in Hl as [-> _]. apply NoDup_nil_2.
        -- intros k l' id Hl. apply repeat_lookup in Hl as [-> _]. split; [set_solver|intros (q & Hq & _); by rewrite lookup_empty in Hq].
        -- intros id q k. by rewrite lookup_empty.
        -- intros id q. by rewrite lookup_empty.
        -- exists usage. rewrite length_map, repeat_length. split_and!; [done|lia|]. intros k l' Hl. apply repeat_lookup in Hl as [-> Hk].
           destruct (lookup_lt_is_Some_2 usage k) as [u Huk]; [lia|]. rewrite Huk. f_equal. rewrite (Hu usage k u Hus Huk). f_equal. unfold load. cbn. lia.
      * rewrite Hc. split; crec; [by rewrite repeat_length|done|rewrite Hpgs, Hnp, repeat_length; lia|rewrite Hpgs, repeat_length; lia].
      * intros k pg. rewrite Hc. crec. rewrite Hpgs. intros Hk. by apply repeat_lookup in Hk as [-> _].
    + intros _ i id Hi. apply repeat_lookup in Hi as [? _]. done.
    + rewrite Hheap. intros id q. by rewrite lookup_empty.
    + rewrite Hdes. constructor.
    + intros _. exists dev. split; [done|]. by apply Hmod.
  - by rewrite Hc.
  - split; [done|]. by intros [?|?].
Qed.

Lemma discard_ok {A} (m : C A) (P : sys -> Prop) s : post m (fun _ => P) s -> post (discard m) (fun _ => P) s.
Proof. intros Hm. eapply post_bind_mono; [exact Hm|]. intros a s1 Hp. by apply post_return. Qed.

Lemma fine_locked (lm : Prop) u0 s s1 s2 :
  s1 = s ⦇ cs_ctrl := (cs_ctrl s) ⦇ progress_lock := true ⦈ ⦈ -> fine u0 s1 s2 ->
  alive u0 s2 /\ progress_lock (cs_ctrl s2) = true /\ (lm -> lm_ok (cs_ctrl s) -> lm_ok (cs_ctrl s2)).
Proof. intros -> (Hal & Hp & Hlm). split_and!; [done| |]; [unfold phys in Hp; crec in *; congruence|]. intros _ Hx. by apply Hlm. Qed.

Lemma fine_unlocked (lm : Prop) u0 s s' : ctrl_ok u0 s -> fine u0 s s' -> ctrl_ok_to lm u0 s s'.
Proof. intros [_ Hl] (Hal & Hp & Hlm). split; [split; [done|unfold phys in Hp; congruence]|auto]. Qed.

Lemma quiesce_ok u0 s : ctrl_ok u0 s -> post snap_virtio_ctrl_quiesce_adm (fun _ => ctrl_ok_to True u0 s) s.
Proof.
  intros Hok. unfold snap_virtio_ctrl_quiesce_adm. eapply post_bind_mono.
  { apply (locked_ok True u0); [done|]. intros s1 Hs1 Hal1. apply post_gets.
    destruct (lm_running (cs_ctrl s1)) eqn:Hrun; cbn [negb].
    2:{ apply post_return. apply (fine_locked True u0 s s1); [done|by apply fine_refl]. }
    unfold snap_virtio_ctrl_is_stopped. case_bool_decide as Hst.
    - apply post_bind. unfold post at 1, snap_virtio_ctrl_set_lm_state, upd_ctrl, modify. apply post_return.
      split_and!; [same|by rewrite Hs1|]. rewrite Hs1 in *. intros _ [? _]. split; [done|]. intros _. by left.
    - eapply post_bind_mono; [by apply (suspend_ok u0)|]. intros ret s2 (Hal2 & Hc2 & Hlm2 & Hst2). destruct (core_phys _ _ Hc2) as [Hp2 Hr2].
      assert (alive u0 s2 /\ progress_lock (cs_ctrl s2) = true /\ (True -> lm_ok (cs_ctrl s) -> lm_ok (cs_ctrl s2))) as (Ha & Hb & Hcc).
      { split_and!; [done|rewrite Hs1 in Hp2; unfold phys in Hp2; crec in *; congruence|]. intros _ [Hre _]. split; [rewrite Hr2, Hs1; done|].
        unfold lm_quiet. rewrite Hlm2. unfold lm_running in Hrun. intros [Hx|Hx]; rewrite Hx in Hrun; done. }
      destruct (negb (ret =? 0)); [by apply post_return|]. apply post_bind. unfold post at 1, upd_ctrl, modify. apply post_return.
      split_and!; [same|done|done]. }
  intros r s1 [[Hal1 Hl1] Hlm1]. destruct r as [ret|]; [|by apply post_return].
  unfold complete_quiesce. apply post_assoc, post_gets, post_assoc. eapply post_bind_mono; [apply call_env_ok|]. intros [] s2 [w ->].
  apply post_bind. unfold post at 1, upd_ctrl, modify. apply post_return. split; [split; [same|done]|done].
Qed.

Lemma unquiesce_ok u0 s : ctrl_ok u0 s -> post snap_virtio_ctrl_unquiesce (fun _ => ctrl_ok_to True u0 s) s.
Proof.
  intros Hok. apply (locked_ok True u0); [done|]. intros s1 Hs1 Hal1. apply post_gets. case_bool_decide as Hq; cbn [negb].
  2:{ apply post_return. apply (fine_locked True u0 s s1); [done|by apply fine_refl]. }
  eapply post_bind_mono; [by apply (resume_ok u0)|]. intros ret s2 (-> & Hal2 & Hlm2 & Hc2 & Hp2).
  assert (progress_lock (cs_ctrl s2) = true) as Hl2 by (rewrite Hs1 in Hp2; crec in *; congruence).
  assert (lm_ok (cs_ctrl s) -> core (cs_ctrl s2) = core (cs_ctrl s1) /\ pending_resume (cs_ctrl s) = false) as Hcore.
  { intros [Hr Hrest]. split; [|done]. apply Hc2. rewrite Hs1 in Hq |- *. apply Hrest. by left. }
  cbn [Z.eqb negb]. apply post_bind. unfold post at 1, snap_virtio_ctrl_set_lm_state, upd_ctrl, modify. apply post_return. split_and!; [same|done|].
  intros _ Hok'. destruct (Hcore Hok') as [Hc Hr]. destruct (core_phys _ _ Hc) as [_ Hr2]. split; [|by intros [?|?]].
  crec. rewrite Hr2, Hs1. done.
Qed.

Lemma freeze_ok u0 s : ctrl_ok u0 s -> post snap_virtio_ctrl_freeze (fun _ => ctrl_ok_to True u0 s) s.
Proof.
  intros Hok. apply (locked_ok True u0); [done|]. intros s1 Hs1 Hal1. apply post_gets. case_bool_decide as Hq; cbn [negb].
  2:{ apply post_return. apply (fine_locked True u0 s s1); [done|by apply fine_refl]. }
  eapply post_bind_mono; [by apply (bar_query_ok u0)|]. intros ret s2 [Hf2 Hq2]. destruct (fine_locked True u0 s s1 s2 Hs1 Hf2) as (Hal2 & Hl2 & Hlm2).
  apply post_bind. unfold post at 1, snap_virtio_ctrl_set_lm_state, upd_ctrl, modify. apply post_return. split_and!; [same|done|].
  intros _ Hok'. destruct (Hlm2 I Hok') as [Hr Hrest]. split; [done|]. intros _. apply Hrest. left. congruence.
Qed.

Lemma unfreeze_ok u0 s : ctrl_ok u0 s -> post snap_virtio_ctrl_unfreeze (fun _ => ctrl_ok_to True u0 s) s.
Proof.
  intros Hok. apply (locked_ok True u0); [done|]. intros s1 Hs1 Hal1. apply post_gets. case_bool_decide as Hq; cbn [negb].
  2:{ apply post_return. apply (fine_locked True u0 s s1); [done|by apply fine_refl]. }
  apply post_bind. unfold post at 1, snap_virtio_ctrl_set_lm_state, upd_ctrl, modify. apply post_return. rewrite Hs1 in *. split_and!; [same|done|].
  intros _ [Hr Hrest]. split; [done|]. intros _. apply Hrest. by right.
Qed.

(** Every call returns and keeps the invariant. *)
Lemma call_ok u0 s op : ctrl_ok u0 s -> group_exists s op -> post (run_call op) (fun _ => ctrl_ok_to (migration_call op) u0 s) s.
Proof.
  intros Hok Hin. pose proof (co_alive _ _ Hok) as Hal. assert (forall lm s', ctrl_ok_to True u0 s s' -> ctrl_ok_to lm u0 s s') as Hweak.
  { intros lm s' [? Hlm]. split; auto. }
  destruct op; cbn [run_call].
  - eapply post_mono; [by apply (progress_ok u0 0)|]. auto.
  - apply discard_ok. apply locked_ok; [done|]. intros s1 Hs1 Hal1. eapply post_mono; [by apply (fine_suspend u0)|].
    intros ret s2 (Hf & _). by eapply fine_locked.
  - apply discard_ok. apply locked_ok; [done|]. intros s1 Hs1 Hal1. eapply post_mono; [by apply (resume_ok u0)|].
    intros ret s2 (_ & Hal2 & _ & _ & Hp). split_and!; [done|rewrite Hs1 in Hp; crec in *; congruence|]. by intros [].
  - apply discard_ok. eapply post_mono; [by apply (io_progress_ok u0)|]. intros n s1 Hf. by apply fine_unlocked.
  - apply discard_ok. eapply post_mono; [apply (pg_io_ok u0); [done|]|].
    { cbn in Hin. rewrite (sz_npgs _ (wf_sized _ _ _ (al_wf _ _ Hal))) in Hin. lia. }
    intros n s1 [Hf _]. by apply fine_unlocked.
  - apply post_bind. unfold post at 1, upd_ctrl, modify. apply discard_ok.
    match goal with |- post _ _ ?st => assert (ctrl_ok u0 st) as Hok1 by (split; [same|apply Hok]) end.
    eapply post_mono; [by apply (quiesce_ok u0)|]. intros r s1 [Hok2 Hlm]. split; [done|]. intros _ Hx. apply Hlm; done.
  - apply discard_ok. eapply post_mono; [by apply (unquiesce_ok u0)|]. auto.
  - apply discard_ok. eapply post_mono; [by apply (freeze_ok u0)|]. auto.
  - apply discard_ok. eapply post_mono; [by apply (unfreeze_ok u0)|]. auto.
  - apply discard_ok. assert (forall b, post (do! with_lock (snap_virtio_ctrl_log_writes b) in mreturn 0) (fun _ => ctrl_ok_to (migration_call (OpTrack on)) u0 s) s) as Hb.
    { intros b. eapply post_bind_mono; [apply locked_ok; [done|]|].
      - intros s1 Hs1 Hal1. eapply post_mono; [by apply (log_writes_ok u0 b)|]. intros [] s2 Hf. by eapply fine_locked.
      - intros [] s1 Hx. by apply post_return. }
    destruct on; apply Hb.
  - apply discard_ok. unfold snap_virtio_ctrl_hotunplug. apply post_bind. unfold post at 1, upd_curr, upd_ctrl, modify.
    unfold snap_virtio_ctrl_bar_modify. apply post_gets. eapply post_mono; [apply call_env_ok|]. intros r s1 [w ->].
    split; [split; [same|apply Hok]|]. done.
Qed.

Lemma ctrl_steps_ok allowed u0 s s' :
  star (ctrl_step allowed) s s' -> ctrl_ok u0 s ->
  ctrl_ok u0 s' /\ ((forall op, allowed op -> migration_call op) -> lm_ok (cs_ctrl s) -> lm_ok (cs_ctrl s')).
Proof.
  intros Hrun. induction Hrun as [s|s1 s2 s3 [op Hop Hin Hrun] _ IH]; intros Hok; [done|].
  pose proof (run_post _ _ _ _ _ (call_ok u0 s1 op Hok Hin) Hrun) as [Hok2 Hlm2]. destruct (IH Hok2) as [Hok3 Hlm3].
  split; [done|]. intros Hall Hx. apply Hlm3; [done|]. apply Hlm2; auto.
Qed.

(** C5: The structure of a controller, as long as creating and resuming queues and the
    start callback succeed.  In every state an opened controller reaches (suspending and
    resuming are given, the device is not transitional, queues created while the controller
    is suspended are suspended and polling does not wake them, the usage table it shares is
    large enough for its groups) the addresses it holds are those of allocated queues, one
    per place; a polling group lists each of its queues once, and nothing else; the usage
    counters count the queues of the groups that are not admin queues; a stopped controller
    has no queues, those of a suspended one are suspended, and only suspended queues were
    destroyed.  When a queue cannot be created, the address of a freed queue stays in the
    controller ([failed_start_dangles]). *)
Theorem ctrl_reachable_inv u0 s s'
    (Hopen : opened u0 s)
    (Hrun : star (ctrl_step any_call) s s') :
  let c := cs_ctrl s' in
  (forall i id, queues c !! i = Some (Some id) -> exists q, cs_heap s' !! id = Some q /\ q_index q = i) /\
  (forall g l, q_lists c !! g = Some l ->
     NoDup l /\ (forall id, id ∈ l <-> exists q, cs_heap s' !! id = Some q /\ q_pg q = Some g) /\
     exists usage, virtio_pg_usage (cs_glob s') = Some usage /\ usage !! g = Some (u64 (u0 g + load (cs_heap s') l))) /\
  (c_state c = SNAP_VIRTIO_CTRL_STOPPED -> forall i id, queues c !! i <> Some (Some id)) /\
  (c_state c = SNAP_VIRTIO_CTRL_SUSPENDED -> forall id q, cs_heap s' !! id = Some q -> q_is_suspended (q_dev q) = true) /\
  Forall (fun q => q_is_suspended (q_dev q) = true) (cs_destroyed s').
Proof.
  destruct (opened_ok u0 s Hopen) as [Hok _]. destruct (ctrl_steps_ok _ u0 s s' Hrun Hok) as [[[[Hsh _ _] Hst Has _ Hde _] _] _].
  split_and!; try done; [apply Hsh|]. intros g l Hl. split_and!; [by apply (sh_nodup _ _ _ _ _ _ _ Hsh g)| |].
  - intros id. by apply (sh_list _ _ _ _ _ _ _ Hsh).
  - destruct (sh_usage _ _ _ _ _ _ _ Hsh) as (usage & Hu & _ & Hc). eauto.
Qed.

(** C6: Every call on a controller returns with the lock free, as long as creating and
    resuming queues and the start callback succeed: in every state an opened controller
    reaches (suspending and resuming are given, the device is not transitional, queues
    created while the controller is suspended are suspended and polling does not wake them:
    the class [CtrlLaws]; the usage table it shares is large enough for its groups), for a
    group that exists, no freed queue is used, no lock is taken twice or released without
    being held, and the callbacks of the polling groups find their tables.  (Otherwise the
    lock of a transitional device can be released twice, snap_virtio_common_ctrl.c:525, and
    after a failed creation a freed queue be used, :607.) *)
Theorem ctrl_calls_return u0 s s' op
    (Hopen : opened u0 s)
    (Hrun : star (ctrl_step any_call) s s')
    (Hin : group_exists s' op) :
  exists s2, run_call op s' = Ok (s2, tt) /\ progress_lock (cs_ctrl s2) = false.
Proof.
  destruct (opened_ok u0 s Hopen) as [Hok _]. destruct (ctrl_steps_ok _ u0 s s' Hrun Hok) as [Hok' _].
  destruct (post_run _ _ _ (call_ok u0 s' op Hok' Hin)) as (s2 & [] & Hs2 & [[_ Hl] _]). eauto.
Qed.


End Laws.

(** * Transitional devices *)

Lemma progress_unlocks n s s' : snap_virtio_ctrl_progress n s = Ok (s', tt) -> progress_lock (cs_ctrl s') = false.
Proof.
  destruct n as [|n]; [done|]. cbn [snap_virtio_ctrl_progress]. unfold m_bind. destruct (snap_virtio_ctrl_progress_lock s) as [[s1 []]| | |]; try done.
  cbn [res_bind]. destruct (progress_body _ s1) as [[s2 []]| | |]; try done. cbn [res_bind].
  unfold snap_virtio_ctrl_progress_unlock, m_bind, ctrl, gets. cbn [res_bind]. destruct (progress_lock (cs_ctrl s2)); [|done].
  unfold upd_ctrl, modify. by intros [= <-].
Qed.

(** Releasing a lock that is free. *)
Lemma unlock_free (s s' : sys) : progress_lock (cs_ctrl s) = false -> snap_virtio_ctrl_progress_unlock s <> Ok (s', tt).
Proof. intros Hl. unfold snap_virtio_ctrl_progress_unlock, m_bind, ctrl, gets. cbn [res_bind]. by rewrite Hl. Qed.

(** The nested call of a transitional device runs with the lock released. *)
Lemma transitional_again again (s : sys) d w2 :
  bar_enabled (bar_curr (cs_ctrl s)) = true -> bar_reset (bar_curr (cs_ctrl s)) = true ->
  has_flag (bar_status (bar_curr (cs_ctrl s))) SNAP_VIRTIO_DEVICE_S_DRIVER_OK = true ->
  sdev (cs_ctrl s) = Some d -> transitional_device d = true -> ignore_reset (cs_ctrl s) = true -> progress_lock (cs_ctrl s) = true ->
  bar_ops_modify (cs_env s) SNAP_VIRTIO_MOD_RESET ((bar_curr (cs_ctrl s)) ⦇ bar_reset := false ⦈) = (w2, 0) ->
  exists s1, snap_virtio_ctrl_change_status again s = (do! again in mreturn 0) s1.
Proof.
  intros He Hr Hl Hd Ht Hi Hlock Hmod. unfold snap_virtio_ctrl_change_status. unfold m_bind at 1, ctrl, gets. cbn [res_bind].
  unfold SNAP_VIRTIO_CTRL_FLR_DETECTED. rewrite He. cbn [negb]. unfold m_bind at 1, mreturn at 1. cbn [res_bind].
  unfold m_bind at 1. cbn [res_bind]. rewrite Hi. cbn [negb andb]. unfold m_bind at 1, mreturn at 1. cbn [res_bind].
  unfold m_bind at 1. cbn [res_bind]. unfold SNAP_VIRTIO_CTRL_LIVE_DETECTED. rewrite Hl.
  unfold m_bind at 1. unfold get_sdev at 1, m_bind at 1, ctrl, gets. cbn [res_bind]. rewrite Hd. cbn [m_opt mreturn res_bind].
  unfold mreturn at 1. cbn [res_bind]. unfold SNAP_VIRTIO_CTRL_RESET_DETECTED. rewrite Ht, Hr. cbn [andb].
  unfold m_bind at 1. unfold snap_virtio_ctrl_clear_reset, snap_virtio_ctrl_bar_modify, upd_curr, upd_ctrl, modify, m_bind at 1. cbn [res_bind].
  unfold m_bind at 1. unfold m_bind at 1, ctrl, gets, call_env. cbn [res_bind].
  change (cs_env (upd_field cs_ctrl _ s)) with (cs_env s).
  cbn [cs_ctrl upd_field bar_curr]. cbn [upd_field] in Hmod. rewrite Hmod. cbn [res_bind Z.eqb negb]. unfold m_bind at 1, mreturn at 1. cbn [res_bind Z.eqb negb].
  unfold m_bind at 1. cbn [res_bind]. unfold m_bind at 1. unfold snap_virtio_ctrl_progress_unlock, m_bind at 1, ctrl, gets. cbn [res_bind]. crec. rewrite Hlock.
  unfold upd_ctrl, modify. cbn [res_bind]. eexists. reflexivity.
Qed.

Lemma bar_update_run (s : sys) w' b ret :
  bar_ops_update (cs_env s) (bar_curr (cs_ctrl s)) = (w', b, ret) ->
  snap_virtio_ctrl_bar_update s =
    Ok (s ⦇ cs_env := w' ⦈ ⦇ cs_ctrl := (cs_ctrl s) ⦇ bar_prev := snap_virtio_ctrl_bar_copy (bar_curr (cs_ctrl s)) (bar_prev (cs_ctrl s)) ⦈
                                          ⦇ bar_curr := b ⦈ ⦈, ret).
Proof.
  intros Hu. unfold snap_virtio_ctrl_bar_update, bar_query, m_bind, ctrl, gets, upd_ctrl, upd_curr, modify, call_env.
  cbn [res_bind]. crec. rewrite Hu. reflexivity.
Qed.

(** What follows a change of the status leaves the lock alone. *)
Lemma after_status (s s' : sys) :
  (let! c := ctrl in
   if pending_flr c then mreturn tt
   else
     do! (if negb (num_of_vfs (bar_curr c) =? num_of_vfs (bar_prev c)) then snap_virtio_ctrl_change_num_vfs else mreturn 0) in
     mreturn tt) s = Ok (s', tt) -> progress_lock (cs_ctrl s') = progress_lock (cs_ctrl s).
Proof.
  unfold m_bind at 1, ctrl, gets. cbn [res_bind]. destruct (pending_flr _); [by intros [= <-]|]. destruct (negb _); [|by intros [= <-]].
  unfold snap_virtio_ctrl_change_num_vfs, m_bind, ctrl, gets. cbn [res_bind].
  destruct cb_num_vfs_changed as [f|]; unfold call_env; [destruct (f _ _)|destruct (snap_rescan_vfs _ _)]; cbn [res_bind]; by intros [= <-].
Qed.

(** When the driver of a transitional device sets DRIVER_OK while the reset bit is
    still set, the controller queries the device again from inside
    [snap_virtio_ctrl_progress] with the lock released, and releases it once more at the
    end: no such call ever returns properly. *)
Theorem transitional_reset_unlocks_twice n (s s' : sys) d w b w' w2
    (Hlock : progress_lock (cs_ctrl s) = false)
    (Hflr : pending_flr (cs_ctrl s) = false)
    (Hstate : c_state (cs_ctrl s) <> SNAP_VIRTIO_CTRL_SUSPENDING)
    (Hsdev : sdev (cs_ctrl s) = Some d) (Htrans : transitional_device d = true)
    (Hignore : ignore_reset (cs_ctrl s) = true)
    (Henv : cs_env s = w)
    (Hupdate : bar_ops_update w (bar_curr (cs_ctrl s)) = (w', b, 0))
    (Hbar : bar_enabled b = true /\ bar_reset b = true /\ has_flag (bar_status b) SNAP_VIRTIO_DEVICE_S_DRIVER_OK = true)
    (Hmodify : bar_ops_modify w' SNAP_VIRTIO_MOD_RESET (b ⦇ bar_reset := false ⦈) = (w2, 0)) :
  snap_virtio_ctrl_progress n s <> Ok (s', tt).
Proof.
  destruct Hbar as (He & Hr & Hlive). intros Hrun. destruct n as [|n]; [done|]. cbn [snap_virtio_ctrl_progress] in Hrun.
  unfold m_bind at 1 in Hrun. unfold snap_virtio_ctrl_progress_lock, m_bind at 1, ctrl, gets in Hrun. cbn [res_bind] in Hrun. rewrite Hlock in Hrun.
  unfold upd_ctrl, modify in Hrun. cbn [res_bind] in Hrun. crec in *. unfold m_bind at 1 in Hrun.
  match type of Hrun with context [progress_body ?a ?st] => destruct (progress_body a st) as [[s5 []]| | |] eqn:Hbody; cbn [res_bind] in Hrun; try done end.
  revert Hrun. apply unlock_free. revert Hbody.
  unfold progress_body. unfold m_bind at 1, ctrl at 1, gets at 1. cbn [res_bind]. crec. rewrite Hflr, bool_decide_eq_false_2 by done.
  cbn [m_when]. unfold m_bind at 1, mreturn at 1. cbn [res_bind]. unfold m_bind at 1. subst w.
  erewrite bar_update_run by (crec; exact Hupdate). cbn [res_bind Z.eqb negb]. unfold m_bind at 1, ctrl at 1, gets at 1. cbn [res_bind].
  unfold snap_virtio_ctrl_critical_bar_change_detected, SNAP_VIRTIO_CTRL_RESET_DETECTED. crec. rewrite Hr, orb_true_r. cbn [orb].
  unfold m_bind at 1.
  match goal with |- context [snap_virtio_ctrl_change_status ?a ?st] => destruct (transitional_again a st d w2) as [s1 ->]; crec; try done end.
  unfold m_bind at 1. destruct (snap_virtio_ctrl_progress n s1) as [[s2 []]| | |] eqn:Hagain; cbn [res_bind mreturn]; try done.
  intros ->%after_status. by eapply progress_unlocks.
Qed.

End Steps.
