(* ===== verification/CtrlRun.v ===== *)
(** Runs of the controller on a small device: the register values a host presents one
    after the other, queues that need one poll to be suspended, and a rule that says which
    creations of queues fail.  The runs instantiate the theorems of CtrlProps.v and show
    what a queue that cannot be created leaves behind. *)

From stdpp Require Import gmap.
From S2P Require Import Prelude Effects PollGroups Ctrl CtrlInv CtrlProps.

Module CtrlRun.

Inductive dev_queue := Running | Suspending | Suspended.

(** What the host will present, the number of creations so far and the registers as last
    written by the controller. *)
Record host := mk_host { h_next : list (snap_virtio_device_attr unit); h_created : nat; h_writes : list Z }.

Section Device.
(** [fails k]: the [k]-th creation of a queue fails. *)
Variable fails : nat -> bool.
Variable transitional : bool.

Definition dev_ops : CtrlOps host unit dev_queue := {|
  q_create w c i :=
    (mk_host (h_next w) (S (h_created w)) (h_writes w), tt,
     if fails (h_created w) then None
     else Some (if bool_decide (c_state c = SNAP_VIRTIO_CTRL_SUSPENDED) then Suspended else Running));
  q_destroy w c q := (w, tt);
  q_progress w q := (w, match q_dev q with Suspending => Suspended | d => d end, 1);
  q_start := None;
  q_suspend := Some (fun w q => (w, match q_dev q with Running => Suspending | d => d end));
  q_is_suspended d := match d with Suspended => true | _ => false end;
  q_resume := Some (fun w c q => (w, tt, Running, 0));
  q_is_admin := None;
  q_ready d := true;
  bar_ops_copy orig copy := copy;
  bar_ops_update w b :=
    match h_next w with
    | [] => (w, b, 0)
    | b' :: l => if decide (length (q_attrs b') = length (q_attrs b)) then (mk_host l (h_created w) (h_writes w), b', 0) else (w, b, -1)
    end;
  bar_ops_modify w mask b := (mk_host (h_next w) (h_created w) (h_writes w ++ [mask]), 0);
  cb_validate := None; cb_start := None; cb_stop := None; cb_num_vfs_changed := None; cb_pre_flr := None; cb_post_flr := None;
  snap_rescan_vfs w n := (w, 0);
  snap_close_device w := w;
  snap_open_device w := (w, Some (mk_sdev transitional));
  snap_adm_cmd_complete w cmd status := w
|}.
End Device.

(** A device on which every creation works. *)
#[local] Instance good_ops : CtrlOps host unit dev_queue := dev_ops (fun _ => false) false.

#[local] Instance good_laws : CtrlLaws.
Proof.
  split.
  - intros w c i. repeat eexists.
  - done.
  - intros w c i w' d q Hc Hs. cbn in Hc. rewrite bool_decide_eq_true_2 in Hc by done. by simplify_eq.
  - done.
  - eexists. split; [reflexivity|done].
  - eexists. split; [reflexivity|]. cbn. intros. simplify_eq. done.
  - cbn. intros w q w' d n Hp. simplify_eq. split_and!; [done|done|]. by destruct (q_dev q).
  - cbn. intros w b w' b' ret Hu. destruct (h_next w); [by simplify_eq|]. case_decide; by simplify_eq.
  - done.
  - cbn. intros. by simplify_eq.
Qed.

(** Two queues, as the driver configured them. *)
Definition attr (enable : Z) : vq_attr := mk_qattr 64 0 enable 0 4096 8192 12288.
Definition regs (status : Z) (reset : bool) (e0 e1 : Z) : snap_virtio_device_attr unit :=
  mk_bar 0 0 0 2 5 status true reset 0 0 0 0 0 0 [attr e0; attr e1] tt.

Definition answers (transitional : bool) : open_answers :=
  mk_open true (Some 2%nat) (Some (mk_sdev transitional)) (Some (regs 0 false 0 0)) (Some (regs 0 false 0 0)) 0 true true true true.

(** A controller with two polling groups that is opened on a host. *)
Definition boot (transitional : bool) (l : list (snap_virtio_device_attr unit)) : option (cstate host unit dev_queue) :=
  match snap_virtio_ctrl_open (answers transitional) 2 (mk_globals None 0) with
  | (_, g, inr c) => Some (mk_cstate (mk_host l 0 []) g ∅ 0 [] c)
  | _ => None
  end.

Lemma boot_opened l s : boot false l = Some s -> opened (fun _ => 0) s.
Proof.
  intros Hb. unfold boot in Hb. destruct (snap_virtio_ctrl_open _ _ _) as [[rs g] [e|c]] eqn:Ho; [done|]. injection Hb as <-.
  split; cbn [cs_glob cs_ctrl cs_heap cs_destroyed].
  - exists (answers false), 2, (mk_globals None 0), rs. split; [done|]. split; [done|]. by intros usage.
  - vm_compute in Ho. injection Ho as _ _ <-. cbn. by intros d [= <-].
  - vm_compute in Ho. injection Ho as _ _ <-. vm_compute. lia.
  - done.
  - done.
  - vm_compute in Ho. injection Ho as _ <- _. cbn. intros usage k u [= <-] Hk. destruct k as [|[|k]]; by simplify_eq/=.
Qed.

(** A sequence of calls. *)
Fixpoint run_all `{!CtrlOps host unit dev_queue} (ops : list ctrl_call) (s : cstate host unit dev_queue) : res (cstate host unit dev_queue) :=
  match ops with
  | [] => Ok s
  | op :: ops => let? r := run_call op s in run_all ops (fst r)
  end.

Definition free_call (op : ctrl_call) : bool := match op with OpResume | OpPgIo _ => false | _ => true end.

Lemma run_all_star (allowed : ctrl_call -> Prop) ops s s' :
  (forall op, free_call op = true -> allowed op) -> forallb free_call ops = true -> run_all ops s = Ok s' ->
  star (ctrl_step allowed) s s'.
Proof.
  intros Hall. revert s. induction ops as [|op ops IH]; cbn [forallb run_all]; intros s Hf Hr; [injection Hr as ->; apply star_refl|].
  apply andb_prop in Hf as [Hop Hops]. destruct (run_call op s) as [[s1 []]| | |] eqn:Hc; try done. cbn [res_bind fst] in Hr.
  eapply star_step; [|by apply IH]. apply (step_call _ _ _ op); [by apply Hall|by destruct op|done].
Qed.

(** The driver starts the device, then live migration quiesces it. *)
Definition migrate : list ctrl_call := [OpProgress; OpProgress; OpIo; OpQuiesce 7; OpIo; OpProgress; OpFreeze].
Definition host_start : list (snap_virtio_device_attr unit) := [regs 0 false 0 0; regs 15 false 1 1].

(** The state after the calls [ops], when every call returned and [f] holds of it. *)
Definition observe (ops : list ctrl_call) (l : list (snap_virtio_device_attr unit)) (f : cstate host unit dev_queue -> bool) : bool :=
  match boot false l with
  | Some s => match run_all ops s with Ok s' => f s' | _ => false end
  | None => false
  end.

Lemma observed (allowed : ctrl_call -> Prop) ops l f :
  (forall op, free_call op = true -> allowed op) -> forallb free_call ops = true -> observe ops l f = true ->
  exists s s', opened (fun _ => 0) s /\ star (ctrl_step allowed) s s' /\ f s' = true.
Proof.
  intros Hall Hf. unfold observe. destruct (boot false l) as [s|] eqn:Hb; [|done].
  destruct (run_all ops s) as [s'| | |] eqn:Hr; try done. intros Hs. exists s, s'.
  split; [by apply (boot_opened l)|]. split; [by eapply run_all_star|done].
Qed.

(** The queues that are allocated, with the place they have. *)
Definition allocated (s : cstate host unit dev_queue) : list (nat * dev_queue) :=
  map (fun p => (q_index (snd p), q_dev (snd p))) (map_to_list (cs_heap s)).

Definition frozen_with_two (s : cstate host unit dev_queue) : bool :=
  bool_decide (lm_state (cs_ctrl s) = SNAP_VIRTIO_CTRL_LM_FREEZED) && (length (allocated s) =? 2)%nat &&
  forallb (fun p => match snd p with Suspended => true | _ => false end) (allocated s).


(** The driver starts the device and resets it. *)
Definition restart : list ctrl_call := [OpProgress; OpProgress; OpIo; OpProgress; OpIo; OpProgress].
Definition host_reset : list (snap_virtio_device_attr unit) := [regs 0 false 0 0; regs 15 false 1 1; regs 0 true 0 0; regs 0 false 0 0].

Definition stopped_again (s : cstate host unit dev_queue) : bool :=
  bool_decide (c_state (cs_ctrl s) = SNAP_VIRTIO_CTRL_STOPPED) && (length (cs_destroyed s) =? 2)%nat && (length (allocated s) =? 0)%nat.

Lemma ctrl_reachable_inv_witness : exists s', stopped_again s' = true /\
  Forall (fun q => q_is_suspended (q_dev q) = true) (cs_destroyed s').
Proof.
  destruct (observed any_call restart host_reset stopped_again) as (s & s' & Ho & Hs & Hf); [done|vm_compute; reflexivity..|].
  exists s'. split; [exact Hf|]. eapply ctrl_reachable_inv; [exact Ho|exact Hs].
Defined.

Lemma ctrl_calls_return_witness : exists s' s2, stopped_again s' = true /\ run_call OpProgress s' = Ok (s2, tt).
Proof.
  destruct (observed any_call restart host_reset stopped_again) as (s & s' & Ho & Hs & Hf); [done|vm_compute; reflexivity..|].
  destruct (ctrl_calls_return (fun _ => 0) s s' OpProgress) as (s2 & Hs2 & _); [exact Ho|exact Hs|exact I|].
  exists s', s2. split; [exact Hf|exact Hs2].
Defined.

(** * Transitional devices *)

Definition host_legacy : list (snap_virtio_device_attr unit) := [regs 0 true 0 0; regs 15 true 1 1].

(** After the driver reset the device. *)
Definition legacy_state : cstate host unit dev_queue :=
  mk_cstate (mk_host [regs 15 true 1 1] 0 []) (mk_globals (Some [0; 0]) 1) ∅ 0 []
    (mk_ctrl SNAP_VIRTIO_CTRL_STOPPED false (Some (mk_sdev true)) 2 [None; None] (regs 0 true 0 0) (regs 0 false 0 0)
       (mk_ctx [mk_pg 0 false; mk_pg 0 false] 2) [[]; []] false false true false SNAP_VIRTIO_CTRL_LM_INIT false None false).

Lemma legacy_state_reached :
  (s0 ← boot true host_legacy;
   match @run_all (dev_ops (fun _ => false) true) [OpProgress] s0 with Ok s => Some (cs_env s, cs_ctrl s) | _ => None end)
  = Some (cs_env legacy_state, cs_ctrl legacy_state).
Proof. vm_compute. reflexivity. Qed.

Lemma transitional_reset_unlocks_twice_witness :
  progress_lock (cs_ctrl legacy_state) = false /\
  ~ (exists s', @snap_virtio_ctrl_progress _ _ _ (dev_ops (fun _ => false) true) 5 legacy_state = Ok (s', tt)).
Proof.
  split; [reflexivity|]. intros [s' Hrun]. revert Hrun.
  apply (@transitional_reset_unlocks_twice _ _ _ (dev_ops (fun _ => false) true) 5 legacy_state s'
    (mk_sdev true) (cs_env legacy_state) (regs 15 true 1 1) (mk_host [] 0 []) (mk_host [] 0 [SNAP_VIRTIO_MOD_RESET])); try reflexivity.
  - discriminate.
  - split; [reflexivity|split; reflexivity].
Defined.

(** * Queues that cannot be created *)

(** The second creation fails. *)
Definition flaky_ops : CtrlOps host unit dev_queue := dev_ops (fun k => (k =? 1)%nat) false.

(** The driver enables both queues, resets the device when it reports an error, enables
    the second queue only, and resets the device again. *)
Definition host_flaky : list (snap_virtio_device_attr unit) :=
  [regs 0 false 0 0; regs 15 false 1 1; regs 0 true 0 0; regs 15 false 0 1; regs 0 true 0 0].

Definition after_flaky (n : nat) : option (res (cstate host unit dev_queue)) :=
  s ← boot false host_flaky; Some (@run_all flaky_ops (repeat OpProgress n) s).

Definition view {S A} (f : S -> A) (o : option (res S)) : option A := match o with Some (Ok s) => Some (f s) | _ => None end.

Lemma viewed {S A} (f : S -> A) o a : view f o = Some a -> exists s, o = Some (Ok s) /\ f s = a.
Proof. destruct o as [[s| | |]|]; try done. intros [= <-]. eauto. Qed.

(** A controller that could not create its second queue destroys the first one and
    keeps its address: the reset that follows the next start uses the queue that was
    freed. *)
Theorem failed_start_dangles :
  (exists s, after_flaky 2 = Some (Ok s) /\ c_state (cs_ctrl s) = SNAP_VIRTIO_CTRL_STOPPED /\
     queues (cs_ctrl s) !! 0%nat = Some (Some 0%nat) /\ cs_heap s !! 0%nat = None /\ length (cs_destroyed s) = 1%nat) /\
  (exists s, after_flaky 4 = Some (Ok s) /\ c_state (cs_ctrl s) = SNAP_VIRTIO_CTRL_STARTED /\
     queues (cs_ctrl s) = [Some 0%nat; Some 1%nat]) /\
  after_flaky 5 = Some Oob.
Proof.
  split_and!.
  - destruct (viewed (fun s => (c_state (cs_ctrl s), queues (cs_ctrl s) !! 0%nat, cs_heap s !! 0%nat, length (cs_destroyed s))) (after_flaky 2)
      (SNAP_VIRTIO_CTRL_STOPPED, Some (Some 0%nat), None, 1%nat)) as (s & Hs & Hv); [vm_compute; reflexivity|].
    exists s. injection Hv as H1 H2 H3 H4. split; [exact Hs|]. split; [exact H1|]. split; [exact H2|]. split; [exact H3|exact H4].
  - destruct (viewed (fun s => (c_state (cs_ctrl s), queues (cs_ctrl s))) (after_flaky 4)
      (SNAP_VIRTIO_CTRL_STARTED, [Some 0%nat; Some 1%nat])) as (s & Hs & Hv); [vm_compute; reflexivity|].
    exists s. injection Hv as H1 H2. split; [exact Hs|]. split; [exact H1|exact H2].
  - vm_compute. reflexivity.
Qed.

End CtrlRun.
