(* ===== verification/CtrlState.v ===== *)
(** The state of a controller that live migration transfers
    (src/ctrl/snap_virtio_common_ctrl.c, src/ctrl/snap_virtio_state.h).

    Version 2 is a list of typed fields, version 1 a fixed sequence of sections.  Saving
    fills the buffer of the caller, restoring reads one; every access is checked against
    the buffer.  What the device type saves is the interface [StateOps]. *)

From stdpp Require Import gmap strings.
From Stdlib Require Import Ascii String.
From S2P Require Import Prelude Effects Bytes PollGroups Ctrl.

(** * Data *)

(** [struct snap_virtio_ctrl_queue_state] *)
Record queue_state := mk_qstate { qs_attr : vq_attr; hw_available_index : Z; hw_used_index : Z }.
#[export] Instance queue_state_settable : Settable queue_state :=
  fun r => mk_qstate (qs_attr r) (hw_available_index r) (hw_used_index r).

Definition zero_attr : vq_attr := mk_qattr 0 0 0 0 0 0 0.
Definition zero_qstate : queue_state := mk_qstate zero_attr 0 0.

(** [struct snap_virtio_ctrl_common_state] and [struct virtio_state_pci_common_cfg]
    without the state of the controller. *)
Record common_state := mk_common {
  cm_device_feature_select : Z; cm_device_feature : Z; cm_driver_feature_select : Z; cm_driver_feature : Z;
  cm_msix_config : Z; cm_num_queues : Z; cm_queue_select : Z; cm_device_status : Z; cm_config_generation : Z
}.

(** [enum virtio_state_dev_field_type] *)
Definition VIRTIO_DEV_PCI_COMMON_CFG : Z := 0.
Definition VIRTIO_DEV_CFG_SPACE : Z := 1.
Definition VIRTIO_DEV_QUEUE_CFG : Z := 2.
Definition VIRTIO_DEV_SPLIT_Q_RUN_STATE : Z := 3.

(** Sizes of [struct virtio_state], [struct virtio_state_field] and
    [struct snap_virtio_ctrl_section]. *)
Definition sizeof_state : Z := 4.
Definition sizeof_field : Z := 8.
Definition sizeof_section : Z := 18.

(** Widths of the fields of [struct virtio_state_pci_common_cfg],
    [struct virtio_state_q_cfg], [struct virtio_split_q_run_state],
    [struct snap_virtio_ctrl_common_state] and [struct snap_virtio_ctrl_queue_state]. *)
Definition common_widths : list nat := [4; 8; 4; 8; 2; 2; 2; 1; 1]%nat.
Definition qcfg_widths : list nat := [2; 2; 2; 2; 2; 8; 8; 8; 2; 2]%nat.
Definition run_widths : list nat := [2; 2; 2]%nat.
Definition common1_widths : list nat := common_widths ++ [4%nat].
Definition qstate_widths : list nat := [2; 2; 2; 2; 8; 8; 8; 2; 2]%nat.

Definition sizeof (ws : list nat) : Z := Z.of_nat (width ws).

Definition common_values (c : common_state) : list Z :=
  [cm_device_feature_select c; cm_device_feature c; cm_driver_feature_select c; cm_driver_feature c; cm_msix_config c;
   cm_num_queues c; cm_queue_select c; cm_device_status c; cm_config_generation c].
Definition common_of (l : list Z) : common_state :=
  mk_common (nth 0 l 0) (nth 1 l 0) (nth 2 l 0) (nth 3 l 0) (nth 4 l 0) (nth 5 l 0) (nth 6 l 0) (nth 7 l 0) (nth 8 l 0).

(** The queue attributes, in the order both structures have them. *)
Definition attr_values (a : vq_attr) : list Z :=
  [qa_size a; qa_msix_vector a; qa_enable a; qa_notify_off a; qa_desc a; qa_driver a; qa_device a].
Definition attr_of (l : list Z) : vq_attr :=
  mk_qattr (nth 0 l 0) (nth 1 l 0) (nth 2 l 0) (nth 3 l 0) (nth 4 l 0) (nth 5 l 0) (nth 6 l 0).

Definition qstate_values (q : queue_state) : list Z := attr_values (qs_attr q) ++ [hw_available_index q; hw_used_index q].
Definition qstate_of (l : list Z) : queue_state := mk_qstate (attr_of l) (nth 7 l 0) (nth 8 l 0).

Definition packed (ws : list nat) (vs : list Z) : list Z := pack (zip ws vs).

(** * What the device type saves

    [bar_ops->get_state_size], [bar_ops->get_state], [bar_ops->set_state] and
    [q_ops->get_state].  [get_state] changes the memory it is given, which starts at its
    buffer; [set_state] reads the memory at its buffer ([None] is a null pointer).
    [uninit] is a local variable that was not written. *)
Class StateOps (W D Q : Type) := {
  bar_get_state_size : option Z;
  bar_get_state : option (snap_virtio_device_attr D -> list Z -> Z -> res (list Z * Z));
  bar_set_state : option (W -> snap_virtio_ctrl D -> snap_virtio_device_attr D -> list queue_state -> option (list Z) -> Z ->
                          res (W * snap_virtio_device_attr D * Z));
  q_get_state : option (W -> Q -> queue_state -> W * queue_state * Z);
  uninit : queue_state
}.

Section State.
Context {W D Q : Type} `{!CtrlOps W D Q, !StateOps W D Q}.
#[local] Abbreviation C := (M (cstate W D Q)).
#[local] Abbreviation bar := (snap_virtio_device_attr D).

(** * Sizes *)

Definition dev_size : Z := match bar_get_state_size with Some n => n | None => 0 end.

(** The total size and the sizes of the common, queue and device sections. *)
Definition snap_virtio_ctrl_state_size_v1 (c : snap_virtio_ctrl D) : Z * (Z * Z * Z) :=
  let dev := u64 (dev_size + sizeof_section) in
  let queue := u64 (Z.of_nat (max_queues c) * sizeof qstate_widths + sizeof_section) in
  let common := sizeof_section + sizeof common1_widths in
  (i32 (sizeof_section + dev + queue + common), (common, queue, dev)).

Definition snap_virtio_ctrl_state_size_v2 (c : snap_virtio_ctrl D) : Z * (Z * Z * Z) :=
  let dev := match bar_get_state_size with Some n => u64 (sizeof_field + n) | None => 0 end in
  let queue := u64 (Z.of_nat (max_queues c) * ((sizeof_field + sizeof qcfg_widths) + (sizeof_field + sizeof run_widths))) in
  let common := sizeof_field + sizeof common_widths in
  (i32 (sizeof_state + dev + queue + common), (common, queue, dev)).

Definition snap_virtio_ctrl_state_size (c : snap_virtio_ctrl D) : Z * (Z * Z * Z) := snap_virtio_ctrl_state_size_v2 c.

(** * Saving, version 2 *)

Definition virtio_state_fld_first : Z := sizeof_state.
Definition virtio_state_fld_next (buf : list Z) (fld : Z) : res Z :=
  let? size := rd_le buf (fld + 4) 4 in Ok (fld + sizeof_field + size).

(** Writing the header and the data of a field. *)
Definition put_field (buf : list Z) (fld type size : Z) (data : list Z) : res (list Z) :=
  wr buf fld (le 4 type ++ le 4 size ++ data).

Definition common_of_bar (b : bar) : common_state :=
  mk_common (device_feature_select b) (device_feature b) (driver_feature_select b) (driver_feature b) (msix_config b)
    (bar_max_queues b) (queue_select b) (bar_status b) (config_generation b).

Definition snap_virtio_ctrl_save_common_state_v2 (b : bar) (buf : list Z) (fld : Z) : res (list Z) :=
  put_field buf fld VIRTIO_DEV_PCI_COMMON_CFG (sizeof common_widths) (packed common_widths (common_values (common_of_bar b))).

Definition snap_virtio_ctrl_save_queue_state_v2 (vq : vq_attr) (idx : nat) (buf : list Z) (fld : Z) : res (list Z) :=
  put_field buf fld VIRTIO_DEV_QUEUE_CFG (sizeof qcfg_widths) (packed qcfg_widths (Z.of_nat idx :: attr_values vq ++ [0; 0])).

Definition snap_virtio_ctrl_save_queue_run_state_v2 (q : queue_state) (idx : nat) (buf : list Z) (fld : Z) : res (list Z) :=
  put_field buf fld VIRTIO_DEV_SPLIT_Q_RUN_STATE (sizeof run_widths)
    (packed run_widths [Z.of_nat idx; hw_available_index q; hw_used_index q]).

(** [vq->enable && ctrl->q_ops->get_state && ctrl->queues[i]]: the call of the queue and
    its address. *)
Definition runs (vq : vq_attr) (i : nat) : C (option ((W -> Q -> queue_state -> W * queue_state * Z) * nat)) :=
  if qa_enable vq =? 0 then mreturn None
  else match q_get_state with
       | None => mreturn None
       | Some f => let! o := get_slot i in mreturn (id ← o; Some (f, id))
       end.

(** [ctrl->q_ops->get_state(ctrl->queues[i], st)] *)
Definition ask_queue (f : W -> Q -> queue_state -> W * queue_state * Z) (id : nat) (st : queue_state) : C (queue_state * Z) :=
  let! q := deref id in
  call_env (fun w => let '(w, st, ret) := f w (q_dev q) st in (w, (st, ret))).

(** The loop over the queues: the buffer and the number of fields, or the error. *)
Fixpoint save_queues_v2 (l : list nat) (buf : list Z) (fld count : Z) : C (list Z * Z) :=
  match l with
  | [] => do! pgs_resume in mreturn (buf, count)
  | i :: l =>
      let! fld := m_res (virtio_state_fld_next buf fld) in
      let! c := ctrl in
      let! vq := to_virtio_queue_attr (bar_curr c) i in
      let! buf := m_res (snap_virtio_ctrl_save_queue_state_v2 vq i buf fld) in
      let! o := runs vq i in
      match o with
      | None => save_queues_v2 l buf fld (count + 1)
      | Some (f, id) =>
          let! r := ask_queue f id uninit in
          if negb (snd r =? 0) then do! pgs_resume in mreturn (buf, - EINVAL)
          else
            let! fld := m_res (virtio_state_fld_next buf fld) in
            let! buf := m_res (snap_virtio_ctrl_save_queue_run_state_v2 (fst r) i buf fld) in
            save_queues_v2 l buf fld (count + 2)
      end
  end.

Definition snap_virtio_ctrl_save_all_queues_v2 (buf : list Z) (fld : Z) : C (list Z * Z) :=
  do! pgs_suspend in
  let! l := all_slots in
  save_queues_v2 l buf fld 0.

Fixpoint skip_fields (n : nat) (buf : list Z) (fld : Z) : res Z :=
  match n with O => Ok fld | S n' => let? fld := virtio_state_fld_next buf fld in skip_fields n' buf fld end.

(** [hdr->virtio_field_count += n] *)
Definition add_count (buf : list Z) (n : Z) : res (list Z) :=
  let? k := rd_le buf 0 4 in wr buf 0 (le 4 (u32 (k + n))).

(** [bar_ops->get_state] on the memory at [off]. *)
Definition dev_get_state (b : bar) (buf : list Z) (off len : Z) : res (list Z * Z) :=
  match bar_get_state with
  | None => Oob
  | Some f =>
      if (0 <=? off) && (off <=? Z.of_nat (length buf)) then
        let? r := f b (drop (Z.to_nat off) buf) len in Ok (take (Z.to_nat off) buf ++ fst r, snd r)
      else Oob
  end.

(** The buffer and the value returned. *)
Definition snap_virtio_ctrl_state_save_v2 (buf : list Z) (len : Z) : C (list Z * Z) :=
  let! c := ctrl in
  let '(total_len, (_, _, dev_cfg_len)) := snap_virtio_ctrl_state_size_v2 c in
  if len <? u64 total_len then mreturn (buf, - EINVAL)
  else
    let! buf := m_res (wr buf 0 (le 4 0)) in
    let fld := virtio_state_fld_first in
    let! buf := m_res (snap_virtio_ctrl_save_common_state_v2 (bar_curr c) buf fld) in
    let! buf := m_res (add_count buf 1) in
    let! r := snap_virtio_ctrl_save_all_queues_v2 buf fld in
    let '(buf, ret) := r in
    if ret <? 0 then mreturn (buf, ret)
    else
      let! buf := m_res (add_count buf ret) in
      let! fld := m_res (skip_fields (Z.to_nat ret) buf fld) in
      if dev_cfg_len =? 0 then mreturn (buf, total_len)
      else
        let! fld := m_res (virtio_state_fld_next buf fld) in
        let! buf := m_res (wr buf fld (le 4 VIRTIO_DEV_CFG_SPACE ++ le 4 (dev_cfg_len - sizeof_field))) in
        let! c := ctrl in
        let! r := m_res (dev_get_state (bar_curr c) buf (fld + sizeof_field) dev_cfg_len) in
        let '(buf, ret) := r in
        if ret <? 0 then mreturn (buf, - EINVAL)
        else
          let! buf := m_res (add_count buf 1) in
          mreturn (buf, total_len).

Definition snap_virtio_ctrl_state_save (buf : list Z) (len : Z) : C (list Z * Z) := snap_virtio_ctrl_state_save_v2 buf len.

(** * Restoring, version 2 *)

(** What the loop over the fields finds: the place of the common state, the states of the
    queues, the place and size of the device state. *)
Record found := mk_found { f_common : option Z; f_queues : list queue_state; f_dev : option (Z * Z) }.

(** Assignments to [queue_state[idx]]. *)
Definition upd_qstate (l : list queue_state) (idx : Z) (g : queue_state -> queue_state) : res (list queue_state) :=
  match l !! Z.to_nat idx with
  | None => Oob
  | Some q => match aset l (Z.to_nat idx) (g q) with Some l' => Ok l' | None => Oob end
  end.

Definition restore_field (buf : list Z) (fld : Z) (st : found) : res found :=
  let? type := rd_le buf fld 4 in
  if type =? VIRTIO_DEV_PCI_COMMON_CFG then Ok (mk_found (Some (fld + sizeof_field)) (f_queues st) (f_dev st))
  else if type =? VIRTIO_DEV_QUEUE_CFG then
    let? v := rd_fields buf (fld + sizeof_field) qcfg_widths in
    let? l := upd_qstate (f_queues st) (nth 0 v 0) (fun q => q ⦇ qs_attr := attr_of (drop 1 v) ⦈) in
    Ok (mk_found (f_common st) l (f_dev st))
  else if type =? VIRTIO_DEV_SPLIT_Q_RUN_STATE then
    let? v := rd_fields buf (fld + sizeof_field) run_widths in
    let? l := upd_qstate (f_queues st) (nth 0 v 0)
                (fun q => q ⦇ hw_available_index := nth 1 v 0 ⦈ ⦇ hw_used_index := nth 2 v 0 ⦈) in
    Ok (mk_found (f_common st) l (f_dev st))
  else if type =? VIRTIO_DEV_CFG_SPACE then
    let? size := rd_le buf (fld + 4) 4 in
    Ok (mk_found (f_common st) (f_queues st) (Some (fld + sizeof_field, size)))
  else Ok st.

Fixpoint restore_fields (fuel : nat) (buf : list Z) (len count total_len fld n : Z) (st : found) : res found :=
  if (total_len <? len) && (n <? count) then
    match fuel with
    | O => OutOfFuel
    | S fuel' =>
        let? st := restore_field buf fld st in
        let? size := rd_le buf (fld + 4) 4 in
        let? next := virtio_state_fld_next buf fld in
        restore_fields fuel' buf len count (u64 (total_len + size)) next (n + 1) st
    end
  else Ok st.

Definition parse_v2 (buf : list Z) (len : Z) (nq : nat) : res found :=
  let? count := rd_le buf 0 4 in
  restore_fields (S (length buf)) buf len count sizeof_state virtio_state_fld_first 0 (mk_found None (repeat zero_qstate nq) None).

(** The assignments to [ctrl->bar_curr] from the common state. *)
Definition set_common (b : bar) (c : common_state) : bar :=
  mk_bar (cm_device_feature c) (cm_driver_feature c) (cm_msix_config c) (cm_num_queues c) (pci_bdf b) (cm_device_status c)
    (bar_enabled b) (bar_reset b) (num_of_vfs b) (cm_config_generation c) (u8 (cm_device_feature_select c))
    (u8 (cm_driver_feature_select c)) (cm_queue_select c) (pci_hotplug_state b) (q_attrs b) (dev_cfg b).

(** The loop that sets the attributes of the queues. *)
Fixpoint restore_attrs (l : list nat) (qs : list queue_state) : C unit :=
  match l with
  | [] => mreturn tt
  | i :: l =>
      let! c := ctrl in
      let! _ := to_virtio_queue_attr (bar_curr c) i in
      let! q := m_opt undefined (qs !! i) in
      do! upd_curr (fun b => b ⦇ q_attrs := <[i := qs_attr q]> (q_attrs b) ⦈) in
      restore_attrs l qs
  end.

Definition dev_set_state (f : W -> snap_virtio_ctrl D -> bar -> list queue_state -> option (list Z) -> Z -> res (W * bar * Z))
    (qs : list queue_state) (mem : option (list Z)) (len : Z) : C Z :=
  fun s => let? r := f (cs_env s) (cs_ctrl s) (bar_curr (cs_ctrl s)) qs mem len in
           let '(w, b, ret) := r in
           Ok (s ⦇ cs_env := w ⦈ ⦇ cs_ctrl := (cs_ctrl s) ⦇ bar_curr := b ⦈ ⦈, ret).

Definition copy_bar_to_prev : C unit :=
  upd_ctrl (fun c => c ⦇ bar_prev := snap_virtio_ctrl_bar_copy (bar_curr c) (bar_prev c) ⦈).

Definition resting (c : snap_virtio_ctrl D) : bool := snap_virtio_ctrl_is_stopped c || snap_virtio_ctrl_is_suspended c.

Definition snap_virtio_ctrl_state_restore_v2 (buf : list Z) (len : Z) : C Z :=
  if len <? sizeof_state then mreturn (- EINVAL)
  else
    match bar_set_state with
    | None => mreturn (- ENOTSUP)
    | Some f =>
        let! c := ctrl in
        if negb (resting c) then mreturn (- EINVAL)
        else
          let! p := m_res (parse_v2 buf len (max_queues c)) in
          match f_common p, f_dev p with
          | None, _ | _, None => mreturn (- EINVAL)
          | Some common, Some (dev, dev_len) =>
              do! (if snap_virtio_ctrl_is_suspended c then snap_virtio_ctrl_stop else mreturn 0) in
              let! v := m_res (rd_fields buf common common_widths) in
              do! upd_curr (fun b => set_common b (common_of v)) in
              let! l := all_slots in
              do! restore_attrs l (f_queues p) in
              let! ret := dev_set_state f (f_queues p) (Some (drop (Z.to_nat dev) buf)) (i32 dev_len) in
              if negb (ret =? 0) then mreturn ret
              else
                let! c := ctrl in
                let! ret := (if SNAP_VIRTIO_CTRL_LIVE_DETECTED c
                             then do! set_state SNAP_VIRTIO_CTRL_SUSPENDED in snap_virtio_ctrl_start
                             else mreturn ret) in
                do! copy_bar_to_prev in mreturn ret
          end
    end.

Definition snap_virtio_ctrl_state_restore (buf : list Z) (len : Z) : C Z := snap_virtio_ctrl_state_restore_v2 buf len.

(** * Version 1 *)

Definition chars (s : string) : list Z := map (fun c => Z.of_N (N_of_ascii c)) (list_ascii_of_string s).

(** [snprintf] writes the name and its terminator only. *)
Definition snap_virtio_ctrl_init_section (buf : list Z) (hdr len : Z) (name : string) : res (list Z) :=
  wr buf hdr (le 2 len ++ chars name ++ [0]).

Definition section_hdr_to_data (buf : list Z) (hdr : Z) : res (option Z) :=
  let? len := rd_le buf hdr 2 in
  Ok (if len =? 0 then None else Some (hdr + sizeof_section)).

(** Places of the sections. *)
Definition common_hdr : Z := sizeof_section.
Definition queues_hdr : Z := common_hdr + sizeof_section + sizeof common1_widths.
Definition dev_hdr (c : snap_virtio_ctrl D) : Z := queues_hdr + sizeof_section + sizeof qstate_widths * Z.of_nat (max_queues c).

(** The buffer and the total length, or the error. *)
Definition snap_virtio_ctrl_save_init_hdrs (c : snap_virtio_ctrl D) (buf : list Z) (len : Z) : res (list Z * Z) :=
  let '(total_len, (common_cfg_len, queue_cfg_len, dev_cfg_len)) := snap_virtio_ctrl_state_size_v1 c in
  if len <? u64 total_len then Ok (buf, - EINVAL)
  else
    let? buf := snap_virtio_ctrl_init_section buf 0 total_len "VIRTIO_CTRL_CFG" in
    let? buf := snap_virtio_ctrl_init_section buf common_hdr common_cfg_len "COMMON_PCI_CFG" in
    let? buf := snap_virtio_ctrl_init_section buf queues_hdr queue_cfg_len "QUEUES_CFG" in
    let? buf := snap_virtio_ctrl_init_section buf (dev_hdr c) dev_cfg_len "DEVICE_CFG" in
    Ok (buf, total_len).

(** Values of [enum snap_virtio_ctrl_state]. *)
Definition state_number (v : snap_virtio_ctrl_state) : Z :=
  match v with
  | SNAP_VIRTIO_CTRL_STOPPED => 0
  | SNAP_VIRTIO_CTRL_STARTED => 1
  | SNAP_VIRTIO_CTRL_SUSPENDED => 2
  | SNAP_VIRTIO_CTRL_SUSPENDING => 3
  end.

Definition snap_virtio_ctrl_save_common_state (v : snap_virtio_ctrl_state) (b : bar) (buf : list Z) (off : Z) : res (list Z) :=
  wr buf off (packed common1_widths (common_values (common_of_bar b) ++ [state_number v])).

Definition snap_virtio_ctrl_save_queue_state (vq : vq_attr) : queue_state := mk_qstate vq 0 0.

(** The loop over the queues; [off] is the place of [queue_state[0]]. *)
Fixpoint save_queues (l : list nat) (buf : list Z) (off : Z) : C (list Z * Z) :=
  match l with
  | [] => do! pgs_resume in mreturn (buf, 0)
  | i :: l =>
      let place := off + sizeof qstate_widths * Z.of_nat i in
      let! c := ctrl in
      let! vq := to_virtio_queue_attr (bar_curr c) i in
      let st := snap_virtio_ctrl_save_queue_state vq in
      let! buf := m_res (wr buf place (packed qstate_widths (qstate_values st))) in
      let! o := runs vq i in
      match o with
      | None => save_queues l buf off
      | Some (f, id) =>
          let! r := ask_queue f id st in
          let! buf := m_res (wr buf place (packed qstate_widths (qstate_values (fst r)))) in
          if negb (snd r =? 0) then do! pgs_resume in mreturn (buf, - EINVAL) else save_queues l buf off
      end
  end.

Definition snap_virtio_ctrl_save_all_queues (buf : list Z) (off : Z) : C (list Z * Z) :=
  do! pgs_suspend in
  let! l := all_slots in
  save_queues l buf off.

Definition snap_virtio_ctrl_save_dev_state (b : bar) (buf : list Z) (off dev_cfg_len : Z) : res (list Z * Z) :=
  if dev_cfg_len =? 0 then Ok (buf, 0) else dev_get_state b buf off dev_cfg_len.

Definition snap_virtio_ctrl_state_save_v1 (buf : list Z) (len : Z) : C (list Z * Z) :=
  let! c := ctrl in
  let! r := m_res (snap_virtio_ctrl_save_init_hdrs c buf len) in
  let '(buf, total_len) := r in
  if total_len <? 0 then mreturn (buf, - EINVAL)
  else
    let! common := m_res (section_hdr_to_data buf common_hdr) in
    let! common := m_opt undefined common in
    let! buf := m_res (snap_virtio_ctrl_save_common_state (c_state c) (bar_curr c) buf common) in
    let! queues := m_res (section_hdr_to_data buf queues_hdr) in
    match queues with
    | None => mreturn (buf, - EINVAL)
    | Some off =>
        let! r := snap_virtio_ctrl_save_all_queues buf off in
        let '(buf, ret) := r in
        if ret <? 0 then mreturn (buf, ret)
        else
          let! c := ctrl in
          let! dev := m_res (section_hdr_to_data buf (dev_hdr c)) in
          match dev with
          | None => mreturn (buf, total_len)
          | Some off =>
              let! dlen := m_res (rd_le buf (dev_hdr c) 2) in
              let! r := m_res (snap_virtio_ctrl_save_dev_state (bar_curr c) buf off dlen) in
              let '(buf, ret) := r in
              if ret <? 0 then mreturn (buf, - EINVAL) else mreturn (buf, total_len)
          end
    end.

(** [queue_state[i]] of the buffer, for the queues [l]. *)
Fixpoint read_qstates (l : list nat) (buf : list Z) (off : Z) : res (list queue_state) :=
  match l with
  | [] => Ok []
  | i :: l =>
      let? v := rd_fields buf (off + sizeof qstate_widths * Z.of_nat i) qstate_widths in
      let? qs := read_qstates l buf off in
      Ok (qstate_of v :: qs)
  end.

Definition state_of_number (n : Z) : option snap_virtio_ctrl_state :=
  if n =? 0 then Some SNAP_VIRTIO_CTRL_STOPPED
  else if n =? 2 then Some SNAP_VIRTIO_CTRL_SUSPENDED
  else None.

Definition snap_virtio_ctrl_state_restore_v1 (buf : list Z) (len : Z) : C Z :=
  match bar_set_state with
  | None => mreturn (- ENOTSUP)
  | Some f =>
      let! c := ctrl in
      if negb (resting c) then mreturn (- EINVAL)
      else
        let! hlen := m_res (rd_le buf 0 2) in
        if len <? hlen then mreturn (- EINVAL)
        else
          let! clen := m_res (rd_le buf common_hdr 2) in
          let! qlen := m_res (rd_le buf queues_hdr 2) in
          let more := clen + qlen <? len in
          let hdr := if more then queues_hdr + qlen else queues_hdr in
          let! v := m_res (rd_fields buf (common_hdr + sizeof_section) common1_widths) in
          match state_of_number (nth 9 v 0) with
          | None => mreturn (- EINVAL)
          | Some st =>
              do! (if snap_virtio_ctrl_is_suspended c then snap_virtio_ctrl_stop else mreturn 0) in
              do! set_state st in
              do! upd_curr (fun b => set_common b (common_of v)) in
              let! l := all_slots in
              let! qs := m_res (read_qstates l buf (queues_hdr + sizeof_section)) in
              do! restore_attrs l qs in
              let! dlen := m_res (rd_le buf hdr 2) in
              let! ret := dev_set_state f qs (if more then Some (drop (Z.to_nat (hdr + sizeof_section)) buf) else None) dlen in
              if negb (ret =? 0) then mreturn ret
              else
                let! ret := (if bool_decide (st = SNAP_VIRTIO_CTRL_SUSPENDED) then snap_virtio_ctrl_start else mreturn ret) in
                do! copy_bar_to_prev in mreturn ret
          end
  end.

(** * Calls of the migration channel *)

Definition state_size_when_freezed (size : snap_virtio_ctrl D -> Z) : C Z :=
  with_lock (
    let! c := ctrl in
    if negb (bool_decide (lm_state c = SNAP_VIRTIO_CTRL_LM_FREEZED)) then mreturn 0 else mreturn (size c)).

Definition snap_virtio_ctrl_get_state_size_v2 : C Z := state_size_when_freezed (fun c => fst (snap_virtio_ctrl_state_size_v2 c)).
Definition snap_virtio_ctrl_get_state_size_v1 : C Z := state_size_when_freezed (fun c => fst (snap_virtio_ctrl_state_size_v1 c)).

(** The buffer and the value returned. *)
Definition snap_virtio_ctrl_copy_state (buf : list Z) (len : Z) (copy_from_buffer : bool) : C (list Z * Z) :=
  let! r := with_lock (if copy_from_buffer then let! ret := snap_virtio_ctrl_state_restore_v1 buf len in mreturn (buf, ret)
                       else snap_virtio_ctrl_state_save_v1 buf len) in
  mreturn (fst r, if snd r <? 0 then -1 else 0).

End State.
