(* ===== verification/StateFields.v ===== *)
(** Fields of a migrated state: what a list of fields looks like in memory, and that the
    loops of CtrlState.v write and read exactly that. *)

From stdpp Require Import gmap.
From S2P Require Import Prelude Effects Bytes PollGroups Ctrl CtrlState.

(** * Fields in memory *)

(** A field is its type and its data. *)
Definition encf (f : Z * list Z) : list Z := le 4 (fst f) ++ le 4 (Z.of_nat (length (snd f))) ++ snd f.
Definition encfs (l : list (Z * list Z)) : list Z := concat (map encf l).

(** The sizes a reader adds up. *)
Definition data_size (l : list (Z * list Z)) : Z := sumZ (map (fun f => Z.of_nat (length (snd f))) l).

Definition small_field (f : Z * list Z) : Prop := 0 <= fst f < 2 ^ 32 /\ Z.of_nat (length (snd f)) < 2 ^ 32.

Lemma encf_length f : Z.of_nat (length (encf f)) = sizeof_field + Z.of_nat (length (snd f)).
Proof. unfold encf, sizeof_field. rewrite !length_app, !le_length. lia. Qed.

Lemma encfs_cons f l : encfs (f :: l) = encf f ++ encfs l.
Proof. done. Qed.

Lemma encfs_app l l' : encfs (l ++ l') = encfs l ++ encfs l'.
Proof. unfold encfs. by rewrite map_app, concat_app. Qed.

Lemma encfs_length l : Z.of_nat (length (encfs l)) = sizeof_field * Z.of_nat (length l) + data_size l.
Proof.
  induction l as [|f l IH]; [done|]. rewrite encfs_cons, length_app, Nat2Z.inj_add, encf_length, IH.
  unfold data_size, sizeof_field. cbn [map length]. rewrite sumZ_cons. lia.
Qed.

Lemma data_size_nonneg l : 0 <= data_size l.
Proof. apply sumZ_nonneg. induction l; constructor; [lia|done]. Qed.

Lemma data_size_cons f l : data_size (f :: l) = Z.of_nat (length (snd f)) + data_size l.
Proof. done. Qed.

(** The type, the size and the data of a field that lies in a buffer. *)
Lemma field_type_at pre f rest fld : fld = Z.of_nat (length pre) -> small_field f -> rd_le (pre ++ encf f ++ rest) fld 4 = Ok (fst f).
Proof.
  intros Hf [Ht _]. unfold encf. rewrite <- !app_assoc, rd_le_mid by done. f_equal. by apply Z.mod_small.
Qed.

Lemma field_size_at pre f rest fld : fld = Z.of_nat (length pre) -> small_field f ->
  rd_le (pre ++ encf f ++ rest) (fld + 4) 4 = Ok (Z.of_nat (length (snd f))).
Proof.
  intros Hf [_ Hs]. unfold encf. rewrite <- !app_assoc. rewrite (app_assoc pre).
  rewrite rd_le_mid by (rewrite length_app, le_length; lia). f_equal. apply Z.mod_small. lia.
Qed.

Lemma field_next pre f rest fld : fld = Z.of_nat (length pre) -> small_field f ->
  virtio_state_fld_next (pre ++ encf f ++ rest) fld = Ok (Z.of_nat (length (pre ++ encf f))).
Proof.
  intros Hf Hs. unfold virtio_state_fld_next. rewrite field_size_at by done. cbn [res_bind]. f_equal.
  rewrite length_app, Nat2Z.inj_add, encf_length. lia.
Qed.

Lemma field_data_at pre t l rest fld : fld = Z.of_nat (length pre) -> Forall fits l ->
  rd_fields (pre ++ encf (t, pack l) ++ rest) (fld + sizeof_field) (map fst l) = Ok (map snd l).
Proof.
  intros Hf Hl. unfold encf. cbn [fst snd]. rewrite <- !app_assoc. rewrite (app_assoc pre), (app_assoc (pre ++ _)).
  apply rd_fields_mid; [|done]. rewrite !length_app, !le_length. unfold sizeof_field. lia.
Qed.

(** A field is written at the end of what was written before. *)
Lemma put_field_at pre rest fld t size data : fld = Z.of_nat (length pre) -> size = Z.of_nat (length data) ->
  sizeof_field + Z.of_nat (length data) <= Z.of_nat (length rest) ->
  put_field (pre ++ rest) fld t size data = Ok (pre ++ encf (t, data) ++ drop (length (encf (t, data))) rest).
Proof.
  intros Hf -> Hr. unfold put_field. change (le 4 t ++ _ ++ data) with (encf (t, data)).
  rewrite <- (take_drop (length (encf (t, data))) rest) at 1. apply wr_mid; [done|].
  rewrite length_take. pose proof (encf_length (t, data)). cbn [snd] in *. lia.
Qed.

Lemma rest_after (rest : list Z) f : sizeof_field + Z.of_nat (length (snd f)) <= Z.of_nat (length rest) ->
  Z.of_nat (length (drop (length (encf f)) rest)) = Z.of_nat (length rest) - (sizeof_field + Z.of_nat (length (snd f))).
Proof. intros Hr. rewrite length_drop. pose proof (encf_length f). lia. Qed.

Lemma skip_fields_at l : forall pre f rest fld, fld = Z.of_nat (length pre) -> Forall small_field (f :: l) ->
  exists pre' f', skip_fields (length l) (pre ++ encfs (f :: l) ++ rest) fld = Ok (Z.of_nat (length pre')) /\
    pre ++ encfs (f :: l) = pre' ++ encf f' /\ small_field f'.
Proof.
  induction l as [|g l IH]; intros pre f rest fld Hf Hs; cbn [length skip_fields].
  - exists pre, f. apply Forall_cons in Hs as [Hs _]. split_and!; [by f_equal|by rewrite encfs_cons; cbn; rewrite app_nil_r|done].
  - apply Forall_cons in Hs as [Hs Hss]. rewrite encfs_cons, <- app_assoc, field_next by done. cbn [res_bind].
    rewrite app_assoc. destruct (IH (pre ++ encf f) g rest _ eq_refl Hss) as (pre' & f' & H1 & H2 & H3).
    exists pre', f'. rewrite H1, <- H2, encfs_cons, <- !app_assoc. done.
Qed.

(** * Values in packed structures *)

Lemma packed_length ws vs : length ws = length vs -> length (packed ws vs) = width ws.
Proof. intros Hl. unfold packed. rewrite pack_length. f_equal. by apply fst_zip, Nat.eq_le_incl. Qed.

Lemma packed_fits ws vs : length ws = length vs -> Forall2 (fun w v => 0 <= v < 2 ^ (8 * Z.of_nat w)) ws vs -> Forall fits (zip ws vs).
Proof. intros _. induction 1; cbn; constructor; done. Qed.

Lemma field_values pre t ws vs rest fld : fld = Z.of_nat (length pre) -> Forall2 (fun w v => 0 <= v < 2 ^ (8 * Z.of_nat w)) ws vs ->
  rd_fields (pre ++ encf (t, packed ws vs) ++ rest) (fld + sizeof_field) ws = Ok vs.
Proof.
  intros Hf Hv. pose proof (Forall2_length _ _ _ Hv) as Hl. pose proof (packed_fits _ _ Hl Hv) as Hfit.
  pose proof (field_data_at pre t _ rest fld Hf Hfit) as Hr.
  rewrite fst_zip, snd_zip in Hr by lia. exact Hr.
Qed.

(** * What is known of a queue *)

Definition in_widths (ws : list nat) (vs : list Z) : Prop := Forall2 (fun w v => 0 <= v < 2 ^ (8 * Z.of_nat w)) ws vs.

(** The attributes of a queue and, when it runs, what it answered. *)
Definition info : Type := vq_attr * option queue_state.

Definition attr_ok (a : vq_attr) : Prop := in_widths [2; 2; 2; 2; 8; 8; 8]%nat (attr_values a).
Definition index_ok (q : queue_state) : Prop := 0 <= hw_available_index q < 2 ^ 16 /\ 0 <= hw_used_index q < 2 ^ 16.
Definition info_ok (x : info) : Prop := attr_ok (fst x) /\ (forall q, snd x = Some q -> index_ok q).

(** The state of the queue that is restored. *)
Definition info_qstate (x : info) : queue_state :=
  match snd x with
  | Some q => mk_qstate (fst x) (hw_available_index q) (hw_used_index q)
  | None => mk_qstate (fst x) 0 0
  end.

(** The fields of the [i]-th queue, and of a list of queues from the [i]-th on. *)
Definition info_fields (i : nat) (x : info) : list (Z * list Z) :=
  (VIRTIO_DEV_QUEUE_CFG, packed qcfg_widths (Z.of_nat i :: attr_values (fst x) ++ [0; 0])) ::
  match snd x with
  | Some q => [(VIRTIO_DEV_SPLIT_Q_RUN_STATE, packed run_widths [Z.of_nat i; hw_available_index q; hw_used_index q])]
  | None => []
  end.

Fixpoint queue_fields (i : nat) (l : list info) : list (Z * list Z) :=
  match l with [] => [] | x :: l => info_fields i x ++ queue_fields (S i) l end.

Lemma qcfg_length i a : length (packed qcfg_widths (Z.of_nat i :: attr_values a ++ [0; 0])) = 38%nat.
Proof. by rewrite packed_length. Qed.
Lemma run_length i q : length (packed run_widths [Z.of_nat i; hw_available_index q; hw_used_index q]) = 6%nat.
Proof. by rewrite packed_length. Qed.

Lemma qcfg_values_ok i a : (i < 2 ^ 16)%nat -> attr_ok a -> in_widths qcfg_widths (Z.of_nat i :: attr_values a ++ [0; 0]).
Proof.
  intros Hi Ha. unfold qcfg_widths. constructor; [change (2 ^ 16)%nat with (Z.to_nat (2 ^ 16)) in Hi; cbn; lia|].
  change [2; 2; 2; 2; 8; 8; 8; 2; 2]%nat with ([2; 2; 2; 2; 8; 8; 8] ++ [2; 2])%nat. apply Forall2_app; [exact Ha|].
  repeat constructor; cbn; lia.
Qed.

Lemma run_values_ok i q : (i < 2 ^ 16)%nat -> index_ok q -> in_widths run_widths [Z.of_nat i; hw_available_index q; hw_used_index q].
Proof. intros Hi [? ?]. change (2 ^ 16)%nat with (Z.to_nat (2 ^ 16)) in Hi. repeat constructor; cbn; lia. Qed.

Lemma info_fields_small i x : Forall small_field (info_fields i x).
Proof.
  unfold info_fields. constructor; [split; cbn [fst snd]; [done|rewrite qcfg_length; done]|].
  destruct (snd x); [|done]. constructor; [|done]. split; cbn [fst snd]; [done|by rewrite run_length].
Qed.

Lemma queue_fields_small l : forall i, Forall small_field (queue_fields i l).
Proof. induction l as [|x l IH]; intros i; cbn [queue_fields]; [done|]. apply Forall_app. split; [apply info_fields_small|apply IH]. Qed.

Definition info_bytes : Z := 60.

Lemma data_size_app l l' : data_size (l ++ l') = data_size l + data_size l'.
Proof. unfold data_size. by rewrite map_app, sumZ_app. Qed.

Lemma info_fields_size i x : Z.of_nat (length (encfs (info_fields i x))) <= info_bytes.
Proof.
  rewrite encfs_length. unfold info_fields. rewrite data_size_cons. cbn [snd]. rewrite qcfg_length.
  destruct (snd x); [rewrite data_size_cons; cbn [snd]; rewrite run_length|]; unfold data_size, info_bytes, sizeof_field; cbn; lia.
Qed.

Lemma queue_fields_size l : forall i, Z.of_nat (length (encfs (queue_fields i l))) <= info_bytes * Z.of_nat (length l).
Proof.
  induction l as [|x l IH]; intros i; cbn [queue_fields]; [done|]. rewrite encfs_app, length_app, Nat2Z.inj_add.
  pose proof (info_fields_size i x). specialize (IH (S i)). cbn [length]. unfold info_bytes in *. lia.
Qed.

(** * Reading fields *)

Section Parse.
Variables (buf : list Z) (len count : Z).

(** The loop reads the fields [l] that follow [pre] and goes on with [st']. *)
Definition reads (l : list (Z * list Z)) (st st' : found) : Prop :=
  forall pre rest fuel total n, buf = pre ++ encfs l ++ rest -> n + Z.of_nat (length l) <= count ->
    total + data_size l < len -> len < 2 ^ 64 -> 0 <= total ->
    restore_fields (length l + fuel) buf len count total (Z.of_nat (length pre)) n st =
    restore_fields fuel buf len count (total + data_size l) (Z.of_nat (length (pre ++ encfs l))) (n + Z.of_nat (length l)) st'.

Lemma reads_nil st : reads [] st st.
Proof.
  intros pre rest fuel total n _ _ _ _ _. unfold encfs, data_size. cbn. by rewrite app_nil_r, !Z.add_0_r.
Qed.

Lemma reads_one f st st' : small_field f ->
  (forall pre rest, buf = pre ++ encf f ++ rest -> restore_field buf (Z.of_nat (length pre)) st = Ok st') -> reads [f] st st'.
Proof.
  intros Hs Hr pre rest fuel total n Hb Hn Ht Hl H0. change (encfs [f]) with (encf f ++ []) in *. rewrite app_nil_r in *.
  rewrite data_size_cons in *. change (data_size []) with 0 in *. cbn [length Nat.add restore_fields] in *.
  rewrite (proj2 (Z.ltb_lt total len)), (proj2 (Z.ltb_lt n count)) by lia. cbn [andb].
  rewrite (Hr pre rest Hb). cbn [res_bind]. rewrite Hb, field_size_at by done. cbn [res_bind]. rewrite field_next by done. cbn [res_bind].
  rewrite <- Hb. rewrite u64_small by lia. by rewrite Z.add_0_r.
Qed.

Lemma reads_app l l' st st1 st2 : reads l st st1 -> reads l' st1 st2 -> reads (l ++ l') st st2.
Proof.
  intros H1 H2 pre rest fuel total n Hb Hn Ht Hl H0. rewrite encfs_app, length_app, data_size_app, Nat2Z.inj_add in *.
  pose proof (data_size_nonneg l). pose proof (data_size_nonneg l').
  rewrite <- app_assoc in Hb. rewrite <- Nat.add_assoc, (H1 pre (encfs l' ++ rest)); [|done|lia..].
  rewrite (H2 (pre ++ encfs l) rest); [|by rewrite <- app_assoc|lia..]. f_equal; [lia|by rewrite <- app_assoc|lia].
Qed.

Lemma upd_done (a : list queue_state) q b i g : length a = i -> upd_qstate (a ++ q :: b) (Z.of_nat i) g = Ok (a ++ g q :: b).
Proof. intros Hi. unfold upd_qstate. rewrite Nat2Z.id, lookup_middle by done. by rewrite aset_middle. Qed.

Lemma reads_qcfg i (x : info) cm a q b dv : (i < 2 ^ 16)%nat -> attr_ok (fst x) -> length a = i ->
  reads [(VIRTIO_DEV_QUEUE_CFG, packed qcfg_widths (Z.of_nat i :: attr_values (fst x) ++ [0; 0]))]
    (mk_found cm (a ++ q :: b) dv) (mk_found cm (a ++ q ⦇ qs_attr := fst x ⦈ :: b) dv).
Proof.
  intros Hi Ha Hl. apply reads_one; [split; [done|cbn [snd]; by rewrite qcfg_length]|]. intros pre rest ->.
  unfold restore_field. rewrite field_type_at; [|done|split; [done|cbn [snd]; by rewrite qcfg_length]]. cbn [res_bind fst].
  unfold VIRTIO_DEV_QUEUE_CFG at 1, VIRTIO_DEV_PCI_COMMON_CFG at 1. cbn [Z.eqb]. rewrite Z.eqb_refl.
  rewrite field_values; [|done|by apply qcfg_values_ok]. cbn [res_bind nth f_queues f_common f_dev drop].
  rewrite upd_done by done. cbn [res_bind]. do 2 f_equal. destruct (fst x); done.
Qed.

Lemma reads_run i st cm a q b dv : (i < 2 ^ 16)%nat -> index_ok st -> length a = i ->
  reads [(VIRTIO_DEV_SPLIT_Q_RUN_STATE, packed run_widths [Z.of_nat i; hw_available_index st; hw_used_index st])]
    (mk_found cm (a ++ q :: b) dv)
    (mk_found cm (a ++ q ⦇ hw_available_index := hw_available_index st ⦈ ⦇ hw_used_index := hw_used_index st ⦈ :: b) dv).
Proof.
  intros Hi Ha Hl. apply reads_one; [split; [done|cbn [snd]; by rewrite run_length]|]. intros pre rest ->.
  unfold restore_field. rewrite field_type_at; [|done|split; [done|cbn [snd]; by rewrite run_length]]. cbn [res_bind fst].
  unfold VIRTIO_DEV_SPLIT_Q_RUN_STATE at 1 2, VIRTIO_DEV_PCI_COMMON_CFG at 1, VIRTIO_DEV_QUEUE_CFG at 1. cbn [Z.eqb]. rewrite Z.eqb_refl.
  rewrite field_values; [|done|by apply run_values_ok]. cbn [res_bind nth f_queues f_common f_dev].
  by rewrite upd_done by done.
Qed.

Lemma reads_queues l : forall i a cm dv, Forall info_ok l -> (i + length l <= 2 ^ 16)%nat -> length a = i ->
  reads (queue_fields i l) (mk_found cm (a ++ repeat zero_qstate (length l)) dv) (mk_found cm (a ++ map info_qstate l) dv).
Proof.
  induction l as [|x l IH]; intros i a cm dv Hok Hi Ha; cbn [queue_fields length repeat map] in *; [apply reads_nil|].
  apply Forall_cons in Hok as [[Hx Hrun] Hok].
  apply (reads_app _ _ _ (mk_found cm ((a ++ [info_qstate x]) ++ repeat zero_qstate (length l)) dv)).
  2:{ replace (a ++ info_qstate x :: map info_qstate l) with ((a ++ [info_qstate x]) ++ map info_qstate l) by (by rewrite <- app_assoc).
      apply IH; [done|lia|]. rewrite length_app. cbn. lia. }
  rewrite <- app_assoc. cbn [app]. unfold info_fields, info_qstate. destruct (snd x) as [st|] eqn:Hst.
  - apply (reads_app [_] [_] _ (mk_found cm (a ++ (mk_qstate (fst x) 0 0) :: repeat zero_qstate (length l)) dv)).
    + apply reads_qcfg; [lia|done|done].
    + apply reads_run; [lia|by apply Hrun|done].
  - apply reads_qcfg; [lia|done|done].
Qed.

Lemma restore_common pre t data rest st : t = VIRTIO_DEV_PCI_COMMON_CFG -> Z.of_nat (length data) < 2 ^ 32 ->
  restore_field (pre ++ encf (t, data) ++ rest) (Z.of_nat (length pre)) st =
  Ok (mk_found (Some (Z.of_nat (length pre) + sizeof_field)) (f_queues st) (f_dev st)).
Proof. intros -> Hd. unfold restore_field. by rewrite field_type_at by done. Qed.

Lemma restore_dev pre t data rest st : t = VIRTIO_DEV_CFG_SPACE -> Z.of_nat (length data) < 2 ^ 32 ->
  restore_field (pre ++ encf (t, data) ++ rest) (Z.of_nat (length pre)) st =
  Ok (mk_found (f_common st) (f_queues st) (Some (Z.of_nat (length pre) + sizeof_field, Z.of_nat (length data)))).
Proof. intros -> Hd. unfold restore_field. rewrite field_type_at by done. cbn [res_bind fst]. by rewrite field_size_at by done. Qed.

Lemma reads_cons f l st st1 st2 pre rest : small_field f -> buf = pre ++ encfs (f :: l) ++ rest ->
  restore_field buf (Z.of_nat (length pre)) st = Ok st1 -> reads l st1 st2 ->
  forall fuel total n, n + Z.of_nat (length (f :: l)) <= count -> total + data_size (f :: l) < len -> len < 2 ^ 64 -> 0 <= total ->
    restore_fields (length (f :: l) + fuel) buf len count total (Z.of_nat (length pre)) n st =
    restore_fields fuel buf len count (total + data_size (f :: l)) (Z.of_nat (length (pre ++ encfs (f :: l)))) (n + Z.of_nat (length (f :: l))) st2.
Proof.
  intros Hs Hb Hr Hl fuel total n Hn Ht Hlen H0. rewrite data_size_cons in *. pose proof (data_size_nonneg l).
  cbn [length Nat.add restore_fields] in *. rewrite (proj2 (Z.ltb_lt total len)), (proj2 (Z.ltb_lt n count)) by lia. cbn [andb].
  rewrite Hr. cbn [res_bind]. rewrite encfs_cons in *. rewrite <- app_assoc in Hb.
  rewrite Hb, field_size_at by done. cbn [res_bind]. rewrite field_next by done. cbn [res_bind]. rewrite <- Hb.
  rewrite u64_small by lia. rewrite (Hl (pre ++ encf f) rest); [|by rewrite <- app_assoc|lia..].
  f_equal; [lia|by rewrite <- app_assoc|lia].
Qed.

End Parse.

(** A state as it is saved: the common state, the queues and the device state. *)
Definition head_fields (cm : list Z) (l : list info) : list (Z * list Z) :=
  (VIRTIO_DEV_PCI_COMMON_CFG, packed common_widths cm) :: queue_fields 0 l.

Definition state_bytes (cm : list Z) (l : list info) (dev : list Z) : list Z :=
  le 4 (Z.of_nat (length (head_fields cm l)) + 1) ++ encfs (head_fields cm l) ++ encf (VIRTIO_DEV_CFG_SPACE, dev).

(** Where the data of the device state begins. *)
Definition dev_place (cm : list Z) (l : list info) : Z :=
  sizeof_state + Z.of_nat (length (encfs (head_fields cm l))) + sizeof_field.

Lemma queue_fields_count l : forall i, Z.of_nat (length (queue_fields i l)) <= 2 * Z.of_nat (length l).
Proof.
  induction l as [|x l IH]; intros i; cbn [queue_fields]; [done|]. rewrite length_app, Nat2Z.inj_add. specialize (IH (S i)).
  assert (length (info_fields i x) <= 2)%nat by (unfold info_fields; destruct (snd x); cbn; lia). cbn [length]. lia.
Qed.

Lemma state_bytes_length cm l dev :
  Z.of_nat (length (state_bytes cm l dev)) = dev_place cm l + Z.of_nat (length dev).
Proof.
  unfold state_bytes, dev_place. rewrite !length_app, le_length, !Nat2Z.inj_add, encf_length. cbn [snd]. unfold sizeof_state. lia.
Qed.

Lemma head_fields_count cm l : (length l <= 2 ^ 16)%nat -> Z.of_nat (length (head_fields cm l)) + 1 < 2 ^ 32.
Proof.
  intros Hn. pose proof (queue_fields_count l 0). unfold head_fields. cbn [length]. change (2 ^ 16)%nat with (Z.to_nat (2 ^ 16)) in Hn. lia.
Qed.

(** Reading what was saved. *)
Lemma parse_state cm l dev rest len : in_widths common_widths cm -> Forall info_ok l -> (length l <= 2 ^ 16)%nat ->
  Z.of_nat (length dev) < 2 ^ 32 -> Z.of_nat (length (state_bytes cm l dev)) <= len < 2 ^ 64 ->
  parse_v2 (state_bytes cm l dev ++ rest) len (length l) =
    Ok (mk_found (Some (sizeof_state + sizeof_field)) (map info_qstate l) (Some (dev_place cm l, Z.of_nat (length dev)))).
Proof.
  intros Hcm Hl Hn Hd Hlen. pose proof (head_fields_count cm l Hn) as Hcnt. pose proof (Forall2_length _ _ _ Hcm) as Hcl.
  pose proof (state_bytes_length cm l dev) as Hsb. pose proof (encfs_length (head_fields cm l)) as Hel.
  pose proof (data_size_nonneg (head_fields cm l)) as Hds. unfold dev_place, sizeof_state, sizeof_field in Hsb, Hel.
  set (buf := state_bytes cm l dev ++ rest). set (hd := le 4 (Z.of_nat (length (head_fields cm l)) + 1)).
  assert (buf = hd ++ encfs (head_fields cm l) ++ encf (VIRTIO_DEV_CFG_SPACE, dev) ++ rest) as Hb.
  { unfold buf, state_bytes. by rewrite <- !app_assoc. }
  unfold parse_v2. assert (rd_le buf 0 4 = Ok (Z.of_nat (length (head_fields cm l)) + 1)) as ->.
  { rewrite Hb. unfold hd. rewrite rd_le_start. f_equal. apply Z.mod_small. split; [lia|exact Hcnt]. }
  cbn [res_bind]. assert (exists fuel, S (length buf) = length (head_fields cm l) + (length [(VIRTIO_DEV_CFG_SPACE, dev)] + fuel))%nat as [fuel ->].
  { exists (S (length buf) - length (head_fields cm l) - 1)%nat. unfold buf. rewrite length_app. cbn [length]. lia. }
  change virtio_state_fld_first with (Z.of_nat (length hd)). unfold head_fields at 1.
  erewrite reads_cons; [| |exact Hb| | |..]; cycle 1.
  - split; [done|]. cbn [snd]. by rewrite packed_length.
  - rewrite Hb. unfold head_fields. rewrite encfs_cons, <- app_assoc. apply restore_common; [done|]. by rewrite packed_length.
  - cbn [f_queues f_dev]. apply (reads_queues _ _ _ l 0 []); [done|lia|done].
  - fold (head_fields cm l). lia.
  - fold (head_fields cm l). unfold sizeof_state. lia.
  - lia.
  - done.
  - fold (head_fields cm l). erewrite (reads_cons _ _ _ (VIRTIO_DEV_CFG_SPACE, dev) []) with (rest := rest); [|done| | |apply reads_nil|..].
    + cbn [length]. replace (0 + Z.of_nat (length (head_fields cm l)) + Z.of_nat 1) with (Z.of_nat (length (head_fields cm l)) + 1) by lia.
      destruct fuel; cbn [restore_fields]; rewrite Z.ltb_irrefl, andb_false_r; reflexivity.
    + rewrite Hb. change (encfs [(VIRTIO_DEV_CFG_SPACE, dev)]) with (encf (VIRTIO_DEV_CFG_SPACE, dev) ++ []). by rewrite app_nil_r, <- !app_assoc.
    + rewrite Hb, app_assoc. rewrite restore_dev by done. cbn [f_common f_queues app]. do 3 f_equal.
      unfold dev_place. rewrite length_app, Nat2Z.inj_add. unfold hd. by rewrite le_length.
    + cbn [length]. lia.
    + rewrite data_size_cons. unfold sizeof_state. cbn [snd]. change (data_size []) with 0. lia.
    + lia.
    + unfold sizeof_state. lia.
Qed.
