(* ===== verification/CtrlStateProps.v ===== *)
(** Saving the state of a controller and restoring it: the buffer that is written, that it
    reads back to the state that was saved, and that the controller that restores it keeps
    the invariant of CtrlInv.v. *)

From stdpp Require Import gmap.
From S2P Require Import Prelude Effects Bytes PollGroups Ctrl CtrlInv CtrlProps CtrlState StateFields.

Section Props.
Context {W D Q : Type} `{!CtrlOps W D Q, !StateOps W D Q}.
#[local] Abbreviation C := (M (cstate W D Q)).
#[local] Abbreviation queue := (snap_virtio_ctrl_queue Q).
#[local] Abbreviation sys := (cstate W D Q).

(** * What the device type promises

    [n] is the size of its state.  Its [get_state] fills exactly these bytes, its
    [set_state] reads only them and changes the device part of the configuration; asking a
    queue that the device type has set up ([q_ready]) has no effect and succeeds.  (For a queue
    that only holds the place of one, as a suspended controller may have, asking fails.) *)
Class StateLaws (n : Z) : Prop := {
  size_given : bar_get_state_size = Some n;
  size_range : 0 <= n < 2 ^ 20;
  get_works : exists f, bar_get_state = Some f /\ forall b mem len, n <= len -> n <= Z.of_nat (length mem) ->
    exists data, f b mem len = Ok (data ++ drop (Z.to_nat n) mem, n) /\ Z.of_nat (length data) = n;
  set_works : exists f, bar_set_state = Some f /\ forall w c b qs data rest len,
    n <= len -> Z.of_nat (length data) = n -> length qs = max_queues c -> (max_queues c <= length (q_attrs b))%nat ->
    exists w' d ret, f w c b qs (Some (data ++ rest)) len = Ok (w', b ⦇ dev_cfg := d ⦈, ret);
  ask_works f w q st : q_get_state = Some f -> q_ready q = true -> index_ok st -> exists st', f w q st = (w, st', 0) /\ index_ok st' /\ qs_attr st' = qs_attr st;
  uninit_ok : index_ok uninit;
}.

(** * Saving *)

(** The controller with the locks of all groups held. *)
Definition hold (s : sys) : sys :=
  s ⦇ cs_ctrl := (cs_ctrl s) ⦇ pg_ctx := mk_ctx (map (fun pg => mk_pg (pg_id pg) true) (pgs (pg_ctx (cs_ctrl s)))) (npgs (pg_ctx (cs_ctrl s))) ⦈ ⦈.

Lemma hold_run (s : sys) : locks_are all_free s -> pgs_suspend s = Ok (hold s, tt).
Proof.
  intros Hl. unfold pgs_suspend, m_bind, ctrl, gets. cbn [res_bind]. unfold snap_pgs_suspend. by rewrite lock_groups_ok by done.
Qed.

Lemma release_run (s : sys) : locks_are all_free s -> pgs_resume (hold s) = Ok (s, tt).
Proof.
  intros Hl. unfold pgs_resume, m_bind, ctrl, gets. cbn [res_bind]. unfold snap_pgs_resume, hold. crec. rewrite unlock_groups_ok.
  2:{ intros k pg. rewrite list_lookup_fmap. destruct (_ !! k); [|done]. by intros [= <-]. }
  cbn [option_map m_opt mreturn res_bind upd_ctrl modify fmap option_fmap]. rewrite map_map. cbn [pg_id].
  assert (map (fun pg => mk_pg (pg_id pg) false) (pgs (pg_ctx (cs_ctrl s))) = pgs (pg_ctx (cs_ctrl s))) as Hp.
  { apply list_eq. intros k. rewrite list_lookup_fmap. destruct (pgs _ !! k) as [pg|] eqn:Hk; [|done]. cbn. f_equal.
    specialize (Hl k pg Hk). destruct pg; cbn in *. by subst. }
  unfold m_opt, mreturn, upd_ctrl, modify. cbn. rewrite Hp. by destruct s as [? ? ? ? ? [? ? ? ? ? ? ? []]].
Qed.

(** What is saved of the [i]-th queue. *)
Definition info_at (s : sys) (i : nat) : info :=
  let a := from_option id zero_attr (q_attrs (bar_curr (cs_ctrl s)) !! i) in
  (a, if qa_enable a =? 0 then None
      else f ← q_get_state; o ← queues (cs_ctrl s) !! i; id ← o; q ← cs_heap s !! id; Some (snd (fst (f (cs_env s) (q_dev q) uninit)))).

Definition infos (s : sys) (i n : nat) : list info := map (info_at s) (seq i n).

Definition attrs_ok (s : sys) : Prop := Forall attr_ok (q_attrs (bar_curr (cs_ctrl s))).

(** Every queue of the controller is one that the device type has set up. *)
Definition queues_ready (s : sys) : Prop :=
  forall i id q, queues (cs_ctrl s) !! i = Some (Some id) -> cs_heap s !! id = Some q -> q_ready (q_dev q) = true.

Section Laws.
Context (n : Z) `{!StateLaws n}.

Lemma info_at_ok (s : sys) i : attrs_ok s -> queues_ready s -> info_ok (info_at s i).
Proof.
  intros Ha Hrd. split; cbn.
  - destruct (q_attrs _ !! i) as [a|] eqn:Hi; cbn; [by eapply Forall_lookup_1|]. repeat constructor; cbn; lia.
  - intros q. destruct (qa_enable _ =? 0); [done|]. intros (f & Hf & Hq)%bind_Some. apply bind_Some in Hq as (o & Ho & Hq).
    apply bind_Some in Hq as (id & Hid & Hq). apply bind_Some in Hq as (v & Hv & [= <-]).
    subst o. destruct (ask_works f (cs_env s) (q_dev v) uninit Hf (Hrd _ _ _ Ho Hv) uninit_ok) as (st' & -> & Hok & _). done.
Qed.

Lemma runs_at (s : sys) i a : queues (cs_ctrl s) !! i <> None ->
  runs a i s = Ok (s, if qa_enable a =? 0 then None else f ← q_get_state; o ← queues (cs_ctrl s) !! i; id ← o; Some (f, id)).
Proof.
  intros Hi. unfold runs. destruct (qa_enable a =? 0); [done|]. destruct q_get_state as [f|]; [|done].
  unfold m_bind, get_slot. by destruct (queues (cs_ctrl s) !! i) as [[id|]|].
Qed.

Lemma ask_at (s : sys) f id q : q_get_state = Some f -> cs_heap s !! id = Some q -> q_ready (q_dev q) = true ->
  exists st, ask_queue f id uninit s = Ok (s, (st, 0)) /\ st = snd (fst (f (cs_env s) (q_dev q) uninit)).
Proof.
  intros Hf Hq Hr. unfold ask_queue, m_bind, deref. rewrite Hq. cbn [res_bind]. unfold call_env.
  destruct (ask_works f (cs_env s) (q_dev q) uninit Hf Hr uninit_ok) as (st' & -> & _ & _). exists st'. split; [|done]. by destruct s.
Qed.

(** A field that is written behind another one, which is the last one so far. *)
Lemma append_field pre g rest t data : small_field g ->
  sizeof_field + Z.of_nat (length data) <= Z.of_nat (length rest) ->
  virtio_state_fld_next (pre ++ encf g ++ rest) (Z.of_nat (length pre)) = Ok (Z.of_nat (length (pre ++ encf g))) /\
  put_field (pre ++ encf g ++ rest) (Z.of_nat (length (pre ++ encf g))) t (Z.of_nat (length data)) data =
    Ok ((pre ++ encf g) ++ encf (t, data) ++ drop (length (encf (t, data))) rest).
Proof. intros Hg Hr. split; [by apply field_next|]. rewrite app_assoc. by apply put_field_at. Qed.

(** The loop writes the fields of the queues behind the field [g]. *)
Lemma save_queues_run (s : sys) : locks_are all_free s -> queues_ready s ->
  (forall i id, queues (cs_ctrl s) !! i = Some (Some id) -> is_Some (cs_heap s !! id)) ->
  (max_queues (cs_ctrl s) <= length (queues (cs_ctrl s)))%nat -> (max_queues (cs_ctrl s) <= length (q_attrs (bar_curr (cs_ctrl s))))%nat ->
  forall k i pre g rest count, (i + k <= max_queues (cs_ctrl s))%nat -> small_field g -> info_bytes * Z.of_nat k <= Z.of_nat (length rest) ->
  let fs := queue_fields i (infos s i k) in
  save_queues_v2 (seq i k) (pre ++ encf g ++ rest) (Z.of_nat (length pre)) count (hold s) =
  Ok (s, ((pre ++ encf g) ++ encfs fs ++ drop (length (encfs fs)) rest, count + Z.of_nat (length fs))).
Proof.
  intros Hl Hrd Hheap Hlq Ha. induction k as [|k IH]; intros i pre g rest count Hi Hg Hr fs; cbn [seq save_queues_v2].
  { unfold m_bind. rewrite release_run by done. cbn [res_bind mreturn]. unfold fs, mreturn. cbn [infos seq map queue_fields length]. rewrite Z.add_0_r.
    change (encfs []) with (@nil Z). cbn [app length drop]. by rewrite app_assoc. }
  destruct (lookup_lt_is_Some_2 (q_attrs (bar_curr (cs_ctrl s))) i) as [a Hai]; [lia|].
  destruct (lookup_lt_is_Some_2 (queues (cs_ctrl s)) i) as [o Ho]; [lia|].
  assert (fs = info_fields i (info_at s i) ++ queue_fields (S i) (infos s (S i) k)) as -> by done.
  unfold info_bytes in *. rewrite encfs_app, length_app. set (fs' := queue_fields (S i) (infos s (S i) k)) in *.
  assert (info_at s i = (a, snd (info_at s i))) as Hinfo by (unfold info_at at 1; cbn; by rewrite Hai).
  destruct (append_field pre g rest VIRTIO_DEV_QUEUE_CFG (packed qcfg_widths (Z.of_nat i :: attr_values a ++ [0; 0])) Hg) as [Hnext Hput].
  { rewrite qcfg_length. unfold sizeof_field. lia. }
  unfold m_bind at 1, m_res at 1. rewrite Hnext. cbn [res_bind]. unfold m_bind at 1, ctrl at 1, gets at 1. cbn [res_bind].
  unfold m_bind at 1, to_virtio_queue_attr at 1. unfold hold at 1. crec. rewrite Hai. cbn [m_opt mreturn res_bind].
  unfold m_bind at 1, m_res at 1, snap_virtio_ctrl_save_queue_state_v2. rewrite qcfg_length in Hput.
  change (Z.of_nat 38) with (sizeof qcfg_widths) in Hput. rewrite Hput. cbn [res_bind].
  set (f1 := (VIRTIO_DEV_QUEUE_CFG, packed qcfg_widths (Z.of_nat i :: attr_values a ++ [0; 0]))) in *.
  assert (small_field f1) as Hf1 by (split; [done|cbn [snd f1]; unfold f1; cbn [snd]; by rewrite qcfg_length]).
  pose proof (rest_after rest f1) as Hrest1. unfold f1 in Hrest1 at 1 3. cbn [snd] in Hrest1. rewrite qcfg_length in Hrest1.
  unfold sizeof_field in Hrest1. specialize (Hrest1 ltac:(lia)).
  unfold m_bind at 1. rewrite runs_at by (unfold hold; crec; congruence).
  change (queues (cs_ctrl (hold s))) with (queues (cs_ctrl s)). rewrite Ho. cbn [res_bind].
  assert (snd (info_at s i) = if qa_enable a =? 0 then None
    else f ← q_get_state; o0 ← Some o; id ← o0; q ← cs_heap s !! id; Some (snd (fst (f (cs_env s) (q_dev q) uninit)))) as Hrun.
  { unfold info_at. cbn [snd]. by rewrite Hai, Ho. }
  assert (snd (info_at s i) = None \/ exists f id, (if qa_enable a =? 0 then None else f ← q_get_state; o0 ← Some o; id ← o0; Some (f, id)) = Some (f, id) /\
    q_get_state = Some f /\ exists q, cs_heap s !! id = Some q /\ q_ready (q_dev q) = true /\ snd (info_at s i) = Some (snd (fst (f (cs_env s) (q_dev q) uninit)))) as Hcase.
  { rewrite Hrun. destruct (qa_enable a =? 0); [by left|]. destruct q_get_state as [f|] eqn:Hf; [|by left]. destruct o as [id|]; [|by left].
    destruct (Hheap i id Ho) as [q Hq]. right. exists f, id. split_and!; [done|done|]. exists q. split_and!; [done|by eapply Hrd|]. cbn. by rewrite Hq. }
  destruct Hcase as [Hnone|(f & id & -> & Hf & q & Hq & Hqr & Hsome)].
  - assert ((if qa_enable a =? 0 then None else f ← q_get_state; o0 ← Some o; id ← o0; Some (f, id)) = @None ((W -> Q -> queue_state -> W * queue_state * Z) * nat)) as ->.
    { rewrite Hnone in Hrun. destruct (qa_enable a =? 0); [done|]. destruct q_get_state as [f|]; [|done]. destruct o as [id|]; [|done].
      destruct (Hheap i id Ho) as [q Hq]. cbn in Hrun. by rewrite Hq in Hrun. }
    rewrite IH; [|lia|done|lia]. unfold info_fields. rewrite Hinfo, Hnone. cbn [fst snd app length]. fold f1. fold fs'.
    change (encfs [f1]) with (encf f1 ++ []). rewrite app_nil_r, drop_drop. do 3 f_equal; [by rewrite <- !app_assoc|lia].
  - unfold m_bind at 1. destruct (ask_at (hold s) f id q Hf Hq Hqr) as (st & -> & Hst). cbn [res_bind fst snd Z.eqb negb].
    destruct (append_field (pre ++ encf g) f1 (drop (length (encf f1)) rest) VIRTIO_DEV_SPLIT_Q_RUN_STATE
      (packed run_widths [Z.of_nat i; hw_available_index st; hw_used_index st]) Hf1) as [Hnext2 Hput2].
    { rewrite run_length. unfold sizeof_field. lia. }
    unfold m_bind at 1, m_res at 1. rewrite Hnext2. cbn [res_bind]. unfold m_bind at 1, m_res at 1, snap_virtio_ctrl_save_queue_run_state_v2.
    rewrite run_length in Hput2. change (Z.of_nat 6) with (sizeof run_widths) in Hput2. rewrite Hput2. cbn [res_bind].
    set (f2 := (VIRTIO_DEV_SPLIT_Q_RUN_STATE, packed run_widths [Z.of_nat i; hw_available_index st; hw_used_index st])) in *.
    assert (small_field f2) as Hf2 by (split; [done|unfold f2; cbn [snd]; by rewrite run_length]).
    pose proof (rest_after (drop (length (encf f1)) rest) f2) as Hrest2. unfold f2 in Hrest2 at 1 3. cbn [snd] in Hrest2. rewrite run_length in Hrest2.
    unfold sizeof_field in Hrest2. specialize (Hrest2 ltac:(lia)).
    rewrite IH; [|lia|done|lia]. unfold info_fields. rewrite Hinfo, Hsome. cbn [fst snd app length]. fold f1. fold fs'.
    change (cs_env (hold s)) with (cs_env s) in Hst. rewrite <- Hst. fold f2.
    change (encfs [f1; f2]) with (encf f1 ++ encf f2 ++ []). rewrite app_nil_r, !drop_drop. do 3 f_equal; [|lia].
    rewrite length_app, <- !app_assoc, Nat.add_assoc. done.
Qed.

Lemma add_count_at k m rest : 0 <= k < 2 ^ 32 -> 0 <= k + m < 2 ^ 32 -> add_count (le 4 k ++ rest) m = Ok (le 4 (k + m) ++ rest).
Proof.
  intros Hk Hm. unfold add_count. rewrite rd_le_start. cbn [res_bind].
  rewrite Z.mod_small by exact Hk. rewrite u32_small by lia. apply wr_start. by rewrite !le_length.
Qed.

Definition total_v2 (mq : nat) : Z := sizeof_state + (sizeof_field + n) + info_bytes * Z.of_nat mq + (sizeof_field + sizeof common_widths).

Lemma state_size_v2_run (c : snap_virtio_ctrl D) : (max_queues c <= 2 ^ 16)%nat ->
  snap_virtio_ctrl_state_size_v2 c =
    (total_v2 (max_queues c), (sizeof_field + sizeof common_widths, info_bytes * Z.of_nat (max_queues c), sizeof_field + n)).
Proof.
  intros Hm. change (2 ^ 16)%nat with (Z.to_nat (2 ^ 16)) in Hm. pose proof size_range.
  unfold snap_virtio_ctrl_state_size_v2, total_v2. rewrite size_given.
  change (sizeof_field + sizeof qcfg_widths + (sizeof_field + sizeof run_widths)) with 60. unfold info_bytes, sizeof_state, sizeof_field.
  change (sizeof common_widths) with 32. rewrite !u64_small, i32_small by lia. f_equal; [lia|]. f_equal. f_equal. lia.
Qed.

Definition saved_queues (s : sys) : list info := infos s 0 (max_queues (cs_ctrl s)).
Definition saved_common (s : sys) : list Z := common_values (common_of_bar (bar_curr (cs_ctrl s))).

Lemma post_m_res {A B} (r : res A) (f : A -> C B) a P (s : sys) : r = Ok a -> post (f a) P s -> post (m_bind (m_res r) f) P s.
Proof. intros -> Hp. exact Hp. Qed.

Lemma post_ok {A} (m : C A) P (s s' : sys) a : m s = Ok (s', a) -> P a s' -> post m P s.
Proof. intros Hm Hp. unfold post. by rewrite Hm. Qed.

(** The buffer that is saved: the bytes of the state, then the rest of the old buffer. *)
Definition saved_as (s : sys) (len0 : nat) (buf : list Z) : Prop :=
  exists data rest f mem, bar_get_state = Some f /\ f (bar_curr (cs_ctrl s)) mem (sizeof_field + n) = Ok (data ++ drop (Z.to_nat n) mem, n) /\
    Z.of_nat (length data) = n /\ buf = state_bytes (saved_common s) (saved_queues s) data ++ rest /\ length buf = len0.

Lemma saved_queues_length (s : sys) : length (saved_queues s) = max_queues (cs_ctrl s).
Proof. unfold saved_queues, infos. by rewrite length_map, length_seq. Qed.

Lemma head_fields_size (s : sys) : (max_queues (cs_ctrl s) <= 2 ^ 16)%nat ->
  Z.of_nat (length (encfs (head_fields (saved_common s) (saved_queues s)))) <= 40 + info_bytes * Z.of_nat (max_queues (cs_ctrl s)).
Proof.
  intros Hmq. unfold head_fields. rewrite encfs_cons, length_app, Nat2Z.inj_add, encf_length. cbn [snd]. rewrite packed_length by done.
  pose proof (queue_fields_size (saved_queues s) 0) as Hq. rewrite saved_queues_length in Hq.
  change (Z.of_nat (width common_widths)) with 32. unfold sizeof_field. lia.
Qed.

(** Writing the device state behind the other fields. *)
Lemma save_dev_run (s : sys) pre g rest fs : small_field g -> sizeof_field + n <= Z.of_nat (length rest) ->
  0 <= Z.of_nat (length fs) + 1 < 2 ^ 32 -> le 4 (Z.of_nat (length fs)) ++ encfs fs = pre ++ encf g ->
  post (let! fld := m_res (virtio_state_fld_next (pre ++ encf g ++ rest) (Z.of_nat (length pre))) in
        let! buf := m_res (wr (pre ++ encf g ++ rest) fld (le 4 VIRTIO_DEV_CFG_SPACE ++ le 4 (sizeof_field + n - sizeof_field))) in
        let! c := ctrl in
        let! r := m_res (dev_get_state (bar_curr c) buf (fld + sizeof_field) (sizeof_field + n)) in
        let '(buf, ret) := r in
        if ret <? 0 then mreturn (buf, - EINVAL) else let! buf := m_res (add_count buf 1) in mreturn (buf, total_v2 (max_queues (cs_ctrl s))))
    (fun r s' => s' = s /\ snd r = total_v2 (max_queues (cs_ctrl s)) /\
       exists data rest' f mem, bar_get_state = Some f /\ f (bar_curr (cs_ctrl s)) mem (sizeof_field + n) = Ok (data ++ drop (Z.to_nat n) mem, n) /\
       Z.of_nat (length data) = n /\
       fst r = le 4 (Z.of_nat (length fs) + 1) ++ encfs fs ++ encf (VIRTIO_DEV_CFG_SPACE, data) ++ rest' /\
       length (fst r) = length (pre ++ encf g ++ rest)) s.
Proof.
  intros Hg Hr Hc Hpre. pose proof size_range as Hn. destruct get_works as (f & Hf & Hget). unfold sizeof_field in *.
  eapply post_m_res; [by apply field_next|]. rewrite app_assoc.
  set (hd := le 4 VIRTIO_DEV_CFG_SPACE ++ le 4 (8 + n - 8)). assert (length hd = 8%nat) as Hhd by (unfold hd; by rewrite length_app, !le_length).
  eapply post_m_res.
  { rewrite <- (take_drop 8 rest) at 1. apply wr_mid; [done|]. rewrite Hhd, length_take. lia. }
  apply post_gets. set (mem := drop 8 rest). destruct (Hget (bar_curr (cs_ctrl s)) mem (8 + n)) as (data & Hdata & Hdl); [lia| |].
  { unfold mem. rewrite length_drop. lia. }
  eapply post_m_res.
  { unfold dev_get_state. rewrite Hf. rewrite (proj2 (Z.leb_le 0 _)), (proj2 (Z.leb_le (_ + 8) _)) by (rewrite ?length_app, ?Hhd; lia). cbn [andb].
    replace (Z.to_nat (Z.of_nat (length (pre ++ encf g)) + 8)) with (length ((pre ++ encf g) ++ hd)) by (rewrite !length_app, Hhd; lia).
    rewrite (app_assoc (pre ++ encf g)). rewrite drop_app_length. fold mem. rewrite Hdata. cbn [res_bind fst snd]. rewrite take_app_length. reflexivity. }
  cbv beta iota zeta. rewrite (proj2 (Z.ltb_ge n 0)) by lia. rewrite <- Hpre, <- !app_assoc. eapply post_m_res; [apply add_count_at; lia|].
  apply post_return. split_and!; [done|done|]. exists data, (drop (Z.to_nat n) mem), f, mem. split_and!; [done..| |].
  - cbn [fst]. unfold encf. cbn [fst snd]. rewrite Hdl, <- !app_assoc. unfold hd. rewrite <- !app_assoc. do 4 f_equal. f_equal. lia.
  - cbn [fst]. rewrite !length_app, !le_length. apply (f_equal length) in Hpre. rewrite !length_app, le_length in Hpre.
    rewrite Hhd, length_drop. unfold mem. rewrite length_drop. lia.
Qed.

Lemma save_v2_ok u0 (s : sys) buf len :
  wf u0 all_free s -> queues_ready s -> (max_queues (cs_ctrl s) <= 2 ^ 16)%nat ->
  total_v2 (max_queues (cs_ctrl s)) <= len < 2 ^ 64 -> len <= Z.of_nat (length buf) ->
  post (snap_virtio_ctrl_state_save_v2 buf len)
    (fun r s' => s' = s /\ snd r = total_v2 (max_queues (cs_ctrl s)) /\ saved_as s (length buf) (fst r)) s.
Proof.
  intros [Hsh [Hsq Hsa Hsn Hsl] Hlk] Hrd Hmq Hlen Hbuf. pose proof size_range as Hn.
  unfold snap_virtio_ctrl_state_save_v2. apply post_gets. rewrite state_size_v2_run by done.
  pose proof (head_fields_size s Hmq) as Hhead. pose proof (head_fields_count (saved_common s) (saved_queues s)) as Hcount.
  rewrite saved_queues_length in Hcount. specialize (Hcount Hmq).
  assert (total_v2 (max_queues (cs_ctrl s)) = 52 + n + 60 * Z.of_nat (max_queues (cs_ctrl s))) as Htot.
  { unfold total_v2, info_bytes, sizeof_state, sizeof_field. change (sizeof common_widths) with 32. lia. }
  rewrite u64_small, (proj2 (Z.ltb_ge len _)) by lia.
  eapply post_m_res.
  { rewrite <- (take_drop 4 buf) at 1. apply wr_start. rewrite le_length, length_take. lia. }
  set (r0 := drop 4 buf). assert (Z.of_nat (length r0) = Z.of_nat (length buf) - 4) as Hr0 by (unfold r0; rewrite length_drop; lia).
  unfold snap_virtio_ctrl_save_common_state_v2. change virtio_state_fld_first with (Z.of_nat (length (le 4 0))).
  fold (saved_common s). set (cm := packed common_widths (saved_common s)). assert (length cm = 32%nat) as Hcm by (unfold cm; by rewrite packed_length).
  eapply post_m_res; [apply put_field_at; [done|by rewrite Hcm|rewrite Hcm; unfold sizeof_field; lia]|].
  set (f0 := (VIRTIO_DEV_PCI_COMMON_CFG, cm)). assert (small_field f0) as Hf0 by (split; [done|unfold f0; cbn [snd]; by rewrite Hcm]).
  assert (sizeof_field + Z.of_nat (length (snd f0)) = 40) as Hs0 by (unfold f0; cbn [snd]; by rewrite Hcm).
  pose proof (rest_after r0 f0 ltac:(lia)) as Hr1. rewrite Hs0 in Hr1. set (r1 := drop (length (encf f0)) r0) in *.
  eapply post_m_res; [apply add_count_at; lia|]. cbn [Z.add].
  apply post_bind. eapply post_ok.
  { unfold snap_virtio_ctrl_save_all_queues_v2, m_bind. rewrite hold_run by done. cbn [res_bind]. unfold all_slots, ctrl, m_bind, gets, mreturn. cbn [res_bind].
    change (Z.of_nat (length (le 4 0))) with (Z.of_nat (length (le 4 1))).
    change (max_queues (cs_ctrl (hold s))) with (max_queues (cs_ctrl s)). change (0 + 1) with 1.
    apply (save_queues_run s); [done|done| |lia|done|done|done|unfold info_bytes; lia].
    intros i id Hi. destruct (sh_slot _ _ _ _ _ _ _ Hsh i id Hi) as (q & Hq & _). by exists q. }
  fold (saved_queues s). set (qf := queue_fields 0 (saved_queues s)). assert (length (head_fields (saved_common s) (saved_queues s)) = S (length qf)) as Hhl by done.
  cbv beta iota zeta. rewrite Z.add_0_l, (proj2 (Z.ltb_ge _ 0)) by lia.
  rewrite <- !app_assoc. eapply post_m_res; [apply add_count_at; lia|].
  set (hf := head_fields (saved_common s) (saved_queues s)) in *. set (r2 := drop (length (encfs qf)) r1).
  assert (encf f0 ++ encfs qf ++ r2 = encfs hf ++ r2) as -> by (by rewrite app_assoc).
  replace (1 + Z.of_nat (length qf)) with (Z.of_nat (length hf)) by lia.
  destruct (skip_fields_at qf (le 4 (Z.of_nat (length hf))) f0 r2 (Z.of_nat (length (le 4 0)))) as (pre & g & Hskip & Hpre & Hg).
  { by rewrite !le_length. }
  { constructor; [done|apply queue_fields_small]. }
  eapply post_m_res; [rewrite Nat2Z.id; exact Hskip|]. rewrite (proj2 (Z.eqb_neq (sizeof_field + n) 0)) by (unfold sizeof_field; lia).
  change (encfs (f0 :: qf)) with (encfs hf) in Hpre. rewrite app_assoc, Hpre, <- app_assoc.
  assert (length (encfs hf) = length (encf f0) + length (encfs qf))%nat as Hhf by (unfold hf, head_fields; by rewrite encfs_cons, length_app).
  pose proof (encf_length f0) as Hef0. unfold info_bytes in Hhead.
  eapply post_mono; [apply (save_dev_run s pre g r2 hf); [done| |lia|done]|].
  - unfold r2, sizeof_field. rewrite length_drop. lia.
  - intros r s' (-> & Ht & data & rest & f & mem & Hf & Hdata & Hdl & Hr & Hrl). split_and!; [done|done|].
    exists data, rest, f, mem. split_and!; [done..| |].
    + rewrite Hr. unfold state_bytes. fold hf. by rewrite <- !app_assoc.
    + rewrite Hrl, app_assoc, <- Hpre, !length_app, le_length. unfold r2, r1, r0. rewrite !length_drop. unfold r1, r0 in Hr1. rewrite !length_drop in Hr1. lia.
Qed.

(** * Restoring *)

Definition with_attrs (s : sys) (l : list vq_attr) : sys :=
  s ⦇ cs_ctrl := (cs_ctrl s) ⦇ bar_curr := (bar_curr (cs_ctrl s)) ⦇ q_attrs := l ⦈ ⦈ ⦈.

Lemma insert_prefix {A} (new old : list A) i x : new !! i = Some x -> (i < length old)%nat ->
  <[i := x]> (take i new ++ drop i old) = take (S i) new ++ drop (S i) old.
Proof.
  intros Hx Hi. assert (length (take i new) = i) as Hl by (rewrite length_take; apply lookup_lt_Some in Hx; lia).
  rewrite insert_app_r_alt by lia. rewrite Hl, Nat.sub_diag. destruct (drop i old) as [|y d] eqn:Hd.
  { apply (f_equal length) in Hd. rewrite length_drop in Hd. cbn in Hd. lia. }
  cbn [insert list_insert]. rewrite (take_S_r _ _ _ Hx), <- app_assoc. cbn [app]. do 2 f_equal.
  rewrite <- Nat.add_1_r, <- drop_drop, Hd. done.
Qed.

Lemma restore_attrs_ok qs old : forall k i (s : sys), (i + k = length qs)%nat -> (length qs <= length old)%nat ->
  q_attrs (bar_curr (cs_ctrl s)) = take i (map qs_attr qs) ++ drop i old ->
  post (restore_attrs (seq i k) qs) (fun _ s' => s' = with_attrs s (map qs_attr qs ++ drop (length qs) old)) s.
Proof.
  induction k as [|k IH]; intros i s Hi Hle Hs; cbn [seq restore_attrs].
  { apply post_return. rewrite take_ge in Hs by (rewrite length_map; lia). replace i with (length qs) in Hs by lia.
    unfold with_attrs. rewrite <- Hs. by destruct s as [? ? ? ? ? [? ? ? ? ? [] ? ? ? ? ? ? ? ? ? ? ?]]. }
  destruct (lookup_lt_is_Some_2 qs i) as [q Hq]; [lia|].
  assert (map qs_attr qs !! i = Some (qs_attr q)) as Hqa by (by rewrite list_lookup_fmap, Hq).
  assert (length (take i (map qs_attr qs)) = i) as Hl by (rewrite length_take, length_map; lia).
  apply post_gets. unfold to_virtio_queue_attr. destruct (lookup_lt_is_Some_2 (q_attrs (bar_curr (cs_ctrl s))) i) as [a Ha].
  { rewrite Hs, length_app, Hl, length_drop. lia. }
  rewrite Ha. apply post_bind, post_return. rewrite Hq. apply post_bind, post_return. apply post_bind. unfold post at 1, upd_curr, upd_ctrl, modify.
  eapply post_mono; [apply (IH (S i)); [lia|done|]|].
  - crec. rewrite Hs. apply insert_prefix; [done|lia].
  - intros _ s' ->. done.
Qed.

Lemma rd_common cm l dev rest : in_widths common_widths cm ->
  rd_fields (state_bytes cm l dev ++ rest) (sizeof_state + sizeof_field) common_widths = Ok cm.
Proof.
  intros Hcm. unfold state_bytes, head_fields. rewrite encfs_cons, <- !app_assoc.
  change sizeof_state with (Z.of_nat (length (le 4 (Z.of_nat (length ((VIRTIO_DEV_PCI_COMMON_CFG, packed common_widths cm) :: queue_fields 0 l)) + 1)))).
  by apply field_values.
Qed.

Lemma drop_dev cm l dev rest : drop (Z.to_nat (dev_place cm l)) (state_bytes cm l dev ++ rest) = dev ++ rest.
Proof.
  unfold state_bytes, encf. cbn [fst snd]. rewrite !app_assoc, <- (app_assoc _ dev).
  assert (forall a : list Z, length a = Z.to_nat (dev_place cm l) -> drop (Z.to_nat (dev_place cm l)) (a ++ dev ++ rest) = dev ++ rest) as Hd.
  { intros a <-. apply drop_app_length. }
  apply Hd. rewrite !length_app, !le_length. unfold dev_place, sizeof_state, sizeof_field. lia.
Qed.

Definition selects_ok (cm : list Z) : Prop := in_widths common_widths cm /\ nth 0 cm 0 < 2 ^ 8 /\ nth 2 cm 0 < 2 ^ 8.

Lemma common_of_set (b : snap_virtio_device_attr D) cm : selects_ok cm -> common_of_bar (set_common b (common_of cm)) = common_of cm.
Proof.
  intros (Hw & H0 & H2). unfold set_common, common_of_bar, common_of in *. crec. cbn [cm_device_feature_select cm_driver_feature_select].
  inversion Hw as [|? v0 ? ? Hv0 Hw1]; subst. inversion Hw1 as [|? ? ? ? _ Hw2]; subst. inversion Hw2 as [|? v2 ? ? Hv2 _]; subst. cbn in *.
  unfold u8. rewrite !uwrap_small by lia. done.
Qed.

Section Restore.
Context `{!CtrlLaws}.

(** What restoring a state does: [f] is [bar_ops->set_state], it was given the states [qs]
    of the queues and the memory that starts with the device state. *)
Definition restored (u0 : nat -> Z) (s : sys) (cm : common_state) (attrs : list vq_attr) (qs : list queue_state) (mem : list Z) (ret : Z) (s' : sys) : Prop :=
  alive u0 s' /\ core (cs_ctrl s') = core (cs_ctrl s) /\ lm_state (cs_ctrl s') = lm_state (cs_ctrl s) /\ at_rest (cs_ctrl s') /\
  exists f w c b w' d r, bar_set_state = Some f /\ f w c b qs (Some mem) n = Ok (w', b ⦇ dev_cfg := d ⦈, r) /\
    common_of_bar b = cm /\ take (length attrs) (q_attrs b) = attrs /\
    if decide (r = 0) then
      ret = 0 /\ common_of_bar (bar_curr (cs_ctrl s')) = cm /\ take (length attrs) (q_attrs (bar_curr (cs_ctrl s'))) = attrs /\
      (if has_flag (cm_device_status cm) SNAP_VIRTIO_DEVICE_S_DRIVER_OK then c_state (cs_ctrl s') = SNAP_VIRTIO_CTRL_SUSPENDED
       else dev_cfg (bar_curr (cs_ctrl s')) = d)
    else ret = r.

Lemma rest_stop_ok u0 (s : sys) : alive u0 s -> at_rest (cs_ctrl s) ->
  post (if snap_virtio_ctrl_is_suspended (cs_ctrl s) then snap_virtio_ctrl_stop else mreturn 0)
    (fun _ s' => alive u0 s' /\ at_rest (cs_ctrl s') /\ life (cs_ctrl s') = (life (cs_ctrl s)) ⦇ c_state := c_state (cs_ctrl s') ⦈ /\
       (forall i id, queues (cs_ctrl s') !! i = Some (Some id) -> c_state (cs_ctrl s') = SNAP_VIRTIO_CTRL_SUSPENDED)) s.
Proof.
  intros Hal Hrest. unfold snap_virtio_ctrl_is_suspended. case_bool_decide as Hs.
  - eapply post_mono; [by apply stop_ok|]. intros ret s1 (Hal1 & Hl1 & Hst1). split_and!; [done| |done|].
    + destruct Hst1 as [?|[_ ?]]; [by left|right; congruence].
    + intros i id Hi. destruct Hst1 as [Hst1|[_ ?]]; [|congruence]. by apply (al_stopped _ _ Hal1 Hst1) in Hi.
  - apply post_return. destruct Hrest as [Hst|?]; [|done]. split_and!; [done|by left|by destruct (cs_ctrl s)|].
    intros i id Hi. by apply (al_stopped _ _ Hal Hst) in Hi.
Qed.

(** A controller at rest is alive when it is declared suspended. *)
Lemma rest_asleep u0 (s : sys) : alive u0 s -> at_rest (cs_ctrl s) -> all_asleep (cs_heap s).
Proof.
  intros Hal [Hst|Hst]; [|by apply Hal]. intros id q Hq. destruct (al_lost _ _ Hal id q Hq) as [Hin|?]; [|done].
  by apply (al_stopped _ _ Hal Hst) in Hin.
Qed.

Lemma restore_v2_ok u0 (s : sys) cm l dev rest len :
  alive u0 s -> at_rest (cs_ctrl s) -> pending_flr (cs_ctrl s) = false -> selects_ok cm -> Forall info_ok l ->
  length l = max_queues (cs_ctrl s) -> (max_queues (cs_ctrl s) <= 2 ^ 16)%nat -> Z.of_nat (length dev) = n ->
  Z.of_nat (length (state_bytes cm l dev)) <= len < 2 ^ 64 ->
  post (snap_virtio_ctrl_state_restore_v2 (state_bytes cm l dev ++ rest) len)
    (restored u0 s (common_of cm) (map fst l) (map info_qstate l) (dev ++ rest)) s.
Proof.
  intros Hal Hrest Hflr Hcm Hl Hll Hmq Hdev Hlen. pose proof size_range as Hn. destruct set_works as (f & Hf & Hset).
  unfold snap_virtio_ctrl_state_restore_v2. rewrite (proj2 (Z.ltb_ge len sizeof_state)).
  2:{ rewrite state_bytes_length in Hlen. unfold dev_place, sizeof_state, sizeof_field in *. lia. }
  rewrite Hf. apply post_gets. assert (resting (cs_ctrl s) = true) as ->.
  { unfold resting, snap_virtio_ctrl_is_stopped, snap_virtio_ctrl_is_suspended. destruct Hrest as [-> | ->]; done. }
  cbn [negb]. eapply post_m_res; [rewrite <- Hll; apply parse_state; [apply Hcm|done|by rewrite Hll|rewrite Hdev; lia|done]|]. cbn [f_common f_dev f_queues].
  eapply post_bind_mono; [by apply (rest_stop_ok u0)|]. intros _ s1 (Hal1 & Hrest1 & Hl1 & Hnoq).
  destruct (life_core_state _ _ _ Hl1) as (Hc1 & _ & Hlm1). pose proof (f_equal max_queues Hl1) as Hmq1. cbn in Hmq1.
  eapply post_m_res; [apply rd_common, Hcm|]. apply post_bind. unfold post at 1, upd_curr, upd_ctrl, modify.
  apply post_bind. unfold all_slots. apply post_gets, post_return.
  pose proof (common_of_set (bar_curr (cs_ctrl s1)) cm Hcm) as Hb1.
  assert (q_attrs (set_common (bar_curr (cs_ctrl s1)) (common_of cm)) = q_attrs (bar_curr (cs_ctrl s1))) as Hqa1 by reflexivity.
  set (b1 := set_common (bar_curr (cs_ctrl s1)) (common_of cm)) in *. clearbody b1.
  match goal with |- post _ _ ?st => set (s2 := st) end. set (qs := map info_qstate l).
  assert (length qs = max_queues (cs_ctrl s1)) as Hqs by (unfold qs; rewrite length_map; congruence).
  pose proof (sz_attrs _ (wf_sized _ _ _ (al_wf _ _ Hal1))) as Hattrs.
  eapply post_bind_mono.
  { apply (restore_attrs_ok qs (q_attrs (bar_curr (cs_ctrl s1))) _ 0); [rewrite Hqs; reflexivity|lia|exact Hqa1]. }
  intros [] s3 Hs3. set (b3 := bar_curr (cs_ctrl s3)).
  assert (alive u0 s3) as Hal3.
  { rewrite Hs3. eapply (alive_same u0 s1); [reflexivity..| |reflexivity|reflexivity|reflexivity|exact Hal1].
    cbn. rewrite length_app, length_map, length_drop. lia. }
  assert (common_of_bar b3 = common_of cm) as Hb3.
  { rewrite <- Hb1. unfold b3. by rewrite Hs3. }
  assert (take (length (map fst l)) (q_attrs b3) = map fst l) as Ha3.
  { unfold b3. rewrite Hs3. cbn. rewrite take_app_length'; [|unfold qs; by rewrite !length_map]. unfold qs. rewrite map_map. apply map_ext.
    intros [a [q|]]; done. }
  assert (drop (Z.to_nat (dev_place cm l)) (state_bytes cm l dev ++ rest) = dev ++ rest) as -> by apply drop_dev.
  destruct (Hset (cs_env s3) (cs_ctrl s3) b3 qs dev rest n) as (w' & d & r & Hrun); [lia|done|rewrite Hs3; exact Hqs| |].
  { unfold b3. rewrite Hs3. cbn. rewrite length_app, length_map, length_drop. lia. }
  apply post_bind. unfold post at 1, dev_set_state. rewrite i32_small by lia. rewrite Hdev. fold b3. rewrite Hrun. cbn [res_bind].
  assert (core (cs_ctrl s3) = core (cs_ctrl s) /\ lm_state (cs_ctrl s3) = lm_state (cs_ctrl s) /\ at_rest (cs_ctrl s3)) as (Hc3 & Hlm3 & Hrest3) by (by rewrite Hs3).
  match goal with |- post _ _ ?st => set (s4 := st) end. assert (alive u0 s4) as Hal4.
  { eapply (alive_same u0 s3); [reflexivity..|exact Hal3]. }
  destruct (Z.eqb_spec r 0) as [->|Hr]; cbn [negb].
  2:{ apply post_return. split_and!; [done..|]. exists f, (cs_env s3), (cs_ctrl s3), b3, w', d, r. rewrite decide_False by done. done. }
  apply post_gets. assert (SNAP_VIRTIO_CTRL_LIVE_DETECTED (cs_ctrl s4) = has_flag (cm_device_status (common_of cm)) SNAP_VIRTIO_DEVICE_S_DRIVER_OK) as ->.
  { rewrite <- Hb3. done. }
  eapply (post_bind_mono _ _ (fun ret s5 => ret = 0 /\ alive u0 s5 /\ core (cs_ctrl s5) = core (cs_ctrl s) /\ lm_state (cs_ctrl s5) = lm_state (cs_ctrl s) /\
    at_rest (cs_ctrl s5) /\ plain_bar (bar_curr (cs_ctrl s5)) = plain_bar b3 /\
    (if has_flag (cm_device_status (common_of cm)) SNAP_VIRTIO_DEVICE_S_DRIVER_OK then c_state (cs_ctrl s5) = SNAP_VIRTIO_CTRL_SUSPENDED
     else dev_cfg (bar_curr (cs_ctrl s5)) = d))).
  - destruct (has_flag _ _); [|by apply post_return]. apply post_bind. unfold post at 1, set_state, upd_ctrl, modify.
    assert (alive u0 (s4 ⦇ cs_ctrl := (cs_ctrl s4) ⦇ c_state := SNAP_VIRTIO_CTRL_SUSPENDED ⦈ ⦈)) as Hal5.
    { apply alive_state; [done|done|]. intros _. by apply (rest_asleep u0 s3). }
    eapply post_mono; [apply (start_ok u0 _ Hal5)|].
    + change (pending_flr (cs_ctrl s3) = false). unfold core in Hc3. congruence.
    + intros ret s5 (Hal6 & Hc6 & Hlm6 & Hpb6 & Hst6). destruct (Hst6 eq_refl) as [-> Hst]. destruct Hlm6 as [[? _]|[_ Hlm6]]; [congruence|].
      split_and!; [done|done|etransitivity; [exact Hc6|exact Hc3]|etransitivity; [exact Hlm6|exact Hlm3]|by right|exact Hpb6|done].
  - intros ret s5 (-> & Hal5 & Hc5 & Hlm5 & Hrest5 & Hpb5 & Hst5). apply post_bind. unfold post at 1, copy_bar_to_prev, upd_ctrl, modify. apply post_return.
    split_and!; [same|done|done|done|]. exists f, (cs_env s3), (cs_ctrl s3), b3, w', d, 0. rewrite decide_True by done.
    pose proof (f_equal common_of_bar Hpb5) as Hcb. pose proof (f_equal q_attrs Hpb5) as Hqa. cbn in Hqa.
    split_and!; [done..| |by crec; rewrite Hqa|done]. crec. rewrite <- Hb3. exact Hcb.
Qed.

Lemma saved_attrs (s : sys) : (max_queues (cs_ctrl s) <= length (q_attrs (bar_curr (cs_ctrl s))))%nat ->
  map fst (saved_queues s) = take (max_queues (cs_ctrl s)) (q_attrs (bar_curr (cs_ctrl s))).
Proof.
  intros Hl. apply list_eq. intros i. unfold saved_queues, infos. rewrite map_map, list_lookup_fmap.
  destruct (decide (i < max_queues (cs_ctrl s))%nat) as [Hi|Hi].
  - rewrite lookup_seq_lt, lookup_take_lt by done. cbn. destruct (lookup_lt_is_Some_2 (q_attrs (bar_curr (cs_ctrl s))) i) as [a Ha]; [lia|]. by rewrite Ha.
  - rewrite lookup_seq_ge, lookup_take_ge by lia. done.
Qed.

(** C8: The state of a controller survives live migration.  The source is in any state that
    a controller reaches (creating and resuming queues and the start callback succeed, the
    device is not transitional: [CtrlLaws]) in which the device type has set up every
    queue, so that asking for its indices succeeds, the device type writes its own state in
    the size it announces ([StateLaws]), and the fields of the configuration fit their
    widths; saving into a buffer that is large enough then succeeds, changes nothing but
    the buffer and stays inside it.  Restoring the buffer on another controller, reached in
    the same way, at rest, without a pending reset and with as many queues, returns with
    what the device type answers.  The device type is given the state of every queue and
    the bytes of the device state as they were saved; the common configuration and the
    attributes of the queues are those of the source, a device the driver had started is
    suspended, and the invariant holds. *)
Theorem state_roundtrip_v2 u0 u1 (s0 s d0 d : sys) buf len
    (Hsrc : opened u0 s0) (Hsrun : star (ctrl_step any_call) s0 s)
    (Hdst : opened u1 d0) (Hdrun : star (ctrl_step any_call) d0 d)
    (Hrest : at_rest (cs_ctrl d)) (Hflr : pending_flr (cs_ctrl d) = false)
    (Hqueues : max_queues (cs_ctrl d) = max_queues (cs_ctrl s)) (Hmax : (max_queues (cs_ctrl s) <= 2 ^ 16)%nat)
    (Hready : queues_ready s) (Hattrs : attrs_ok s) (Hcommon : selects_ok (saved_common s))
    (Hlen : total_v2 (max_queues (cs_ctrl s)) <= len < 2 ^ 64) (Hbuf : len <= Z.of_nat (length buf)) :
  exists buf' data rest f mem,
    snap_virtio_ctrl_state_save_v2 buf len s = Ok (s, (buf', total_v2 (max_queues (cs_ctrl s)))) /\ length buf' = length buf /\
    bar_get_state = Some f /\ f (bar_curr (cs_ctrl s)) mem (sizeof_field + n) = Ok (data ++ drop (Z.to_nat n) mem, n) /\
    exists d' ret, snap_virtio_ctrl_state_restore_v2 buf' len d = Ok (d', ret) /\
      restored u1 d (common_of_bar (bar_curr (cs_ctrl s))) (take (max_queues (cs_ctrl s)) (q_attrs (bar_curr (cs_ctrl s))))
        (map info_qstate (saved_queues s)) (data ++ rest) ret d'.
Proof.
  destruct (opened_ok u0 s0 Hsrc) as [Hsok _]. destruct (ctrl_steps_ok _ u0 s0 s Hsrun Hsok) as [[Hs _] _].
  destruct (opened_ok u1 d0 Hdst) as [Hdok _]. destruct (ctrl_steps_ok _ u1 d0 d Hdrun Hdok) as [[Hd _] _].
  destruct (post_run _ _ _ (save_v2_ok u0 s buf len (al_wf _ _ Hs) Hready Hmax Hlen Hbuf)) as (s' & [buf' t] & Hsave & -> & Ht & data & rest & f & mem & Hf & Hdata & Hdl & Hbuf' & Hbl).
  cbn [fst snd] in *. subst t. exists buf', data, rest, f, mem. split_and!; [done..|].
  assert (Forall info_ok (saved_queues s)) as Hinfos.
  { apply Forall_forall. intros x (i & <- & _)%list_elem_of_In%in_map_iff. by apply info_at_ok. }
  pose proof (state_bytes_length (saved_common s) (saved_queues s) data) as Hsb. pose proof (head_fields_size s Hmax) as Hhs.
  destruct (post_run _ _ _ (restore_v2_ok u1 d (saved_common s) (saved_queues s) data rest len Hd Hrest Hflr Hcommon Hinfos
    ltac:(by rewrite saved_queues_length) ltac:(by rewrite Hqueues) Hdl ltac:(unfold total_v2, info_bytes, sizeof_state, sizeof_field in *;
      change (sizeof common_widths) with 32 in *; unfold dev_place, sizeof_state, sizeof_field in Hsb; lia))) as (d' & ret & Hrestore & Hres).
  exists d', ret. rewrite Hbuf'. split; [exact Hrestore|]. rewrite saved_attrs in Hres by apply (wf_sized _ _ _ (al_wf _ _ Hs)). exact Hres.
Qed.

End Restore.
End Laws.

(** The index of a queue in a saved state is not checked: a buffer with the
    configuration of a queue the controller does not have makes
    [snap_virtio_ctrl_state_restore_v2] write outside of its array. *)
Theorem restore_queue_index_oob (s : sys) f count idx a rest len
    (Hset : bar_set_state = Some f) (Hrest : resting (cs_ctrl s) = true)
    (Hcount : 0 < count < 2 ^ 32) (Hlen : sizeof_state < len)
    (Hidx : (max_queues (cs_ctrl s) <= idx < 2 ^ 16)%nat) (Hattr : attr_ok a) :
  snap_virtio_ctrl_state_restore_v2
    (le 4 count ++ encf (VIRTIO_DEV_QUEUE_CFG, packed qcfg_widths (Z.of_nat idx :: attr_values a ++ [0; 0])) ++ rest) len s = Oob.
Proof.
  unfold snap_virtio_ctrl_state_restore_v2. unfold sizeof_state in Hlen. rewrite (proj2 (Z.ltb_ge len sizeof_state)) by (unfold sizeof_state; lia).
  rewrite Hset. unfold m_bind at 1, ctrl at 1, gets at 1. cbn [res_bind]. rewrite Hrest. cbn [negb]. unfold m_bind at 1, m_res at 1.
  unfold parse_v2. rewrite rd_le_start. cbn [res_bind]. rewrite Z.mod_small by (change (8 * Z.of_nat 4) with 32; lia).
  cbn [restore_fields]. rewrite (proj2 (Z.ltb_lt sizeof_state len)), (proj2 (Z.ltb_lt 0 count)) by (unfold sizeof_state; lia). cbn [andb].
  assert (small_field (VIRTIO_DEV_QUEUE_CFG, packed qcfg_widths (Z.of_nat idx :: attr_values a ++ [0; 0]))) as Hsm by (split; [done|cbn [snd]; by rewrite qcfg_length]).
  unfold restore_field. change virtio_state_fld_first with (Z.of_nat (length (le 4 count))). rewrite field_type_at by done. cbn [res_bind fst].
  change (VIRTIO_DEV_QUEUE_CFG =? VIRTIO_DEV_PCI_COMMON_CFG) with false. rewrite Z.eqb_refl. cbn [negb].
  rewrite field_values; [|done|apply qcfg_values_ok; [lia|done]]. cbn [res_bind nth f_queues]. unfold upd_qstate. rewrite Nat2Z.id.
  rewrite lookup_ge_None_2 by (rewrite repeat_length; lia). done.
Qed.

End Props.
