(* ===== verification/CtrlStateRun.v ===== *)
(** Live migration of a small device, from a controller that serves two queues to one that
    was just opened: the runs instantiate the theorems of CtrlStateProps.v. *)

From stdpp Require Import gmap.
From S2P Require Import Prelude Effects Bytes PollGroups Ctrl CtrlInv CtrlProps CtrlRun CtrlState StateFields CtrlStateProps.

Module CtrlStateRun.
Import CtrlRun.

(** The device saves two bytes; its queues have seen 9 available and 5 used entries, and one
    that only holds the place of a queue cannot be asked. *)
#[local] Existing Instance good_ops.
#[local] Instance two_bytes : StateOps host unit dev_queue := {|
  bar_get_state_size := Some 2;
  bar_get_state := Some (fun b mem len => Ok ([7; 8] ++ drop 2 mem, 2));
  bar_set_state := Some (fun w c b qs mem len => Ok (w, b, 0));
  q_get_state := Some (fun w q st => if q_ready q then (w, st ⦇ hw_available_index := 9 ⦈ ⦇ hw_used_index := 5 ⦈, 0) else (w, st, - EINVAL));
  uninit := zero_qstate
|}.
#[local] Existing Instance good_laws.

#[local] Instance two_bytes_laws : StateLaws 2.
Proof.
  split.
  - done.
  - lia.
  - eexists. split; [reflexivity|]. intros b mem len _ _. by exists [7; 8].
  - eexists. split; [reflexivity|]. intros w c b qs data rest len _ _ _ _. exists w, (dev_cfg b), 0. by destruct b.
  - intros f w q st [= <-] Hr _. cbn. eexists. split; [reflexivity|]. split; [|done]. split; cbn; lia.
  - split; cbn; lia.
Qed.

Definition widths_ok (ws : list nat) (vs : list Z) : bool :=
  (length ws =? length vs)%nat && forallb (fun p => (0 <=? snd p) && (snd p <? 2 ^ (8 * Z.of_nat (fst p)))) (zip ws vs).

Lemma widths_ok_spec ws : forall vs, widths_ok ws vs = true -> in_widths ws vs.
Proof.
  induction ws as [|w ws IH]; intros [|v vs]; cbn [widths_ok length Nat.eqb zip zip_with forallb]; try done; [constructor|].
  unfold widths_ok. cbn [length Nat.eqb zip zip_with forallb fst snd]. intros Hv. bool_to_prop. constructor; [lia|]. apply IH.
  unfold widths_ok. by apply andb_true_intro.
Qed.

(** The source is frozen with two queues, the destination was just opened. *)
Definition source_ok (s : cstate host unit dev_queue) : bool :=
  frozen_with_two s && (max_queues (cs_ctrl s) =? 2)%nat &&
  forallb (fun a => widths_ok [2; 2; 2; 2; 8; 8; 8]%nat (attr_values a)) (q_attrs (bar_curr (cs_ctrl s))) &&
  widths_ok common_widths (saved_common s) && (nth 0 (saved_common s) 0 <? 2 ^ 8) && (nth 2 (saved_common s) 0 <? 2 ^ 8) &&
  forallb (fun p => q_ready (q_dev (snd p))) (map_to_list (cs_heap s)).

Definition target_ok (s : cstate host unit dev_queue) : bool :=
  resting (cs_ctrl s) && negb (pending_flr (cs_ctrl s)) && (max_queues (cs_ctrl s) =? 2)%nat.

Lemma resting_spec (c : snap_virtio_ctrl unit) : resting c = true -> at_rest c.
Proof.
  unfold resting, snap_virtio_ctrl_is_stopped, snap_virtio_ctrl_is_suspended. intros [Hb|Hb]%orb_prop; apply bool_decide_eq_true_1 in Hb; [by left|by right].
Qed.

Lemma state_roundtrip_v2_witness : exists (s d d' : cstate host unit dev_queue) buf' ret,
  source_ok s = true /\ target_ok d = true /\ snap_virtio_ctrl_state_save_v2 (repeat 0 200) 200 s = Ok (s, (buf', 174)) /\
  snap_virtio_ctrl_state_restore_v2 buf' 200 d = Ok (d', ret) /\ at_rest (cs_ctrl d').
Proof.
  destruct (observed any_call migrate host_start source_ok) as (s0 & s & Hs0 & Hs & Hok); [done|vm_compute; reflexivity..|].
  destruct (observed any_call [] [] target_ok) as (d0 & d & Hd0 & Hd & Hdok); [done|vm_compute; reflexivity..|].
  pose proof Hok as Hok'. pose proof Hdok as Hdok'. unfold source_ok in Hok'. unfold target_ok in Hdok'.
  apply andb_prop in Hok' as [Hok' Hrd]. apply andb_prop in Hok' as [Hok' H2]. apply andb_prop in Hok' as [Hok' H0]. apply andb_prop in Hok' as [Hok' Hcm].
  apply andb_prop in Hok' as [Hok' Ha]. apply andb_prop in Hok' as [_ Hmq]. apply Nat.eqb_eq in Hmq.
  apply andb_prop in Hdok' as [Hdok' Hdq]. apply andb_prop in Hdok' as [Hr Hf]. apply Nat.eqb_eq in Hdq. apply negb_true_iff in Hf.
  destruct (state_roundtrip_v2 2 (fun _ => 0) (fun _ => 0) s0 s d0 d (repeat 0 200) 200) as (buf' & data & rest & f & mem & Hsave & _ & _ & _ & d' & ret & Hrestore & Hres).
  - exact Hs0.
  - exact Hs.
  - exact Hd0.
  - exact Hd.
  - by apply resting_spec.
  - exact Hf.
  - congruence.
  - rewrite Hmq. change (2 ^ 16)%nat with (Z.to_nat (2 ^ 16)). lia.
  - intros i id q _ Hq. rewrite forallb_forall in Hrd. apply (Hrd (id, q)). by apply list_elem_of_In, elem_of_map_to_list.
  - apply Forall_forall. intros a Hin. apply widths_ok_spec. rewrite forallb_forall in Ha. apply Ha. by apply list_elem_of_In.
  - split; [by apply widths_ok_spec|]. split; [by apply Z.ltb_lt|by apply Z.ltb_lt].
  - rewrite Hmq. vm_compute. done.
  - vm_compute. done.
  - exists s, d, d', buf', ret. rewrite Hmq in Hsave. split; [exact Hok|]. split; [exact Hdok|]. split; [exact Hsave|]. split; [exact Hrestore|]. apply Hres.
Defined.

Lemma restore_queue_index_oob_witness : exists s : cstate host unit dev_queue, target_ok s = true /\
  snap_virtio_ctrl_state_restore_v2 (le 4 1 ++ encf (VIRTIO_DEV_QUEUE_CFG, packed qcfg_widths (2 :: attr_values zero_attr ++ [0; 0])) ++ []) 50 s = Oob.
Proof.
  destruct (observed any_call [] [] target_ok) as (d0 & d & Hd0 & Hd & Hdok); [done|vm_compute; reflexivity..|].
  exists d. split; [exact Hdok|]. unfold target_ok in Hdok. apply andb_prop in Hdok as [Hdok Hdq]. apply andb_prop in Hdok as [Hr _]. apply Nat.eqb_eq in Hdq.
  eapply (restore_queue_index_oob d _ 1 2 zero_attr [] 50); [reflexivity|exact Hr|lia|vm_compute; reflexivity|rewrite Hdq; change (2 ^ 16)%nat with (Z.to_nat (2 ^ 16)); lia|].
  repeat constructor; cbn; lia.
Defined.

End CtrlStateRun.
