(* ===== verification/Vq.v ===== *)
(** The generic virtqueue: src/ctrl/snap_vq.c, on which the admin queue is built.

    A queue has a fixed number of commands, kept in three lists (free, in flight, fatal),
    and a pool of descriptors.  A command starts when the device receives the head of a
    descriptor chain; the rest of the chain is fetched from the memory of the host, one
    descriptor at a time, and the command is handed to its protocol ([handle]).  The
    protocol moves data with [snap_vq_cmd_descs_rw] and ends the command with
    [snap_vq_cmd_complete].

    [vs_dma] is the work posted on the DMA queue, oldest first; [exec_tx] carries out the
    oldest.  [vs_mem] is the local memory registered for DMA, by buffer.  [vs_started],
    [vs_host] and [vs_used] record the commands that were started, what was written to the
    memory of the host and the completions given to the device. *)

From stdpp Require Import gmap.
From S2P Require Import Prelude Effects Bytes BlkDescs.

(** * Data *)

Inductive snap_vq_state := SNAP_VQ_STATE_RUNNING | SNAP_VQ_STATE_FLUSHING | SNAP_VQ_STATE_SUSPENDED.
#[export] Instance vq_state_eq_dec : EqDecision snap_vq_state.
Proof. solve_decision. Defined.

(** The functions [dma_comp.func] points to. *)
Inductive comp_fn := CF_NULL | CF_fetch_next_desc_done | CF_dma_rw_done.
#[export] Instance comp_fn_eq_dec : EqDecision comp_fn.
Proof. solve_decision. Defined.

Definition IBV_WC_SUCCESS : Z := 0.

(** [struct snap_vq_cmd]; [CB] are the callbacks of the protocol. *)
Record snap_vq_cmd (CB : Type) := mk_vcmd {
  vc_descs : list vring_desc; vc_num_descs : Z; vc_len : Z; vc_id : Z; pending_completion : bool;
  comp_count : Z; comp_func : comp_fn; done_cb : option CB
}.
Arguments mk_vcmd {CB}. Arguments vc_descs {CB}. Arguments vc_num_descs {CB}. Arguments vc_len {CB}. Arguments vc_id {CB}.
Arguments pending_completion {CB}. Arguments comp_count {CB}. Arguments comp_func {CB}. Arguments done_cb {CB}.
#[export] Instance vcmd_settable CB : Settable (snap_vq_cmd CB) :=
  fun r => mk_vcmd (vc_descs r) (vc_num_descs r) (vc_len r) (vc_id r) (pending_completion r) (comp_count r) (comp_func r) (done_cb r).

(** [struct snap_vq]: commands are named by their index in the array they live in. *)
Record snap_vq (CB : Type) := mk_vq {
  vq_state : snap_vq_state; vq_desc_pa : Z; vq_in_order : bool;
  free_cmds : list nat; inflight_cmds : list nat; fatal_cmds : list nat;
  free_descs : list vring_desc;
  vq_cmds : list (snap_vq_cmd CB)
}.
Arguments mk_vq {CB}. Arguments vq_state {CB}. Arguments vq_desc_pa {CB}. Arguments vq_in_order {CB}. Arguments free_cmds {CB}.
Arguments inflight_cmds {CB}. Arguments fatal_cmds {CB}. Arguments free_descs {CB}. Arguments vq_cmds {CB}.
#[export] Instance vq_settable CB : Settable (snap_vq CB) :=
  fun r => mk_vq (vq_state r) (vq_desc_pa r) (vq_in_order r) (free_cmds r) (inflight_cmds r) (fatal_cmds r) (free_descs r) (vq_cmds r).

(** Work on the DMA queue.  [R] names local buffers. *)
Inductive dma_op (R : Type) :=
| DFetch (c : nat) (raddr : Z)
| DRead (c : nat) (buf : R) (off len raddr : Z)
| DWrite (c : nat) (buf : R) (off len raddr : Z)
| DShort (raddr : Z) (data : list Z)
| DSend (id len : Z).
Arguments DFetch {R}. Arguments DRead {R}. Arguments DWrite {R}. Arguments DShort {R}. Arguments DSend {R}.

Record vqs (W R CB : Type) `{Countable R} := mk_vqs {
  vs_env : W;
  vs_vq : snap_vq CB;
  vs_mem : gmap R (list Z);
  vs_dma : list (dma_op R);
  vs_started : list Z;
  vs_host : list (Z * list Z);
  vs_used : list (Z * Z)
}.
Arguments mk_vqs {W R CB _ _}. Arguments vs_env {W R CB _ _}. Arguments vs_vq {W R CB _ _}. Arguments vs_mem {W R CB _ _}.
Arguments vs_dma {W R CB _ _}. Arguments vs_started {W R CB _ _}. Arguments vs_host {W R CB _ _}. Arguments vs_used {W R CB _ _}.
#[export] Instance vqs_settable W R CB `{Countable R} : Settable (vqs W R CB) :=
  fun r => mk_vqs (vs_env r) (vs_vq r) (vs_mem r) (vs_dma r) (vs_started r) (vs_host r) (vs_used r).

(** The head of a chain, as the device passes it ([struct snap_vq_header]). *)
Record snap_vq_header := mk_vqh { desc_head_idx : Z; h_descs : list vring_desc }.

(** What the DMA queue answers when work is posted: 0, or an error. *)
Class DmaPost (W : Type) := dma_post : W -> W * Z.

(** A descriptor in the memory of the host. *)
Definition desc_at (host : Z -> Z) (addr : Z) : vring_desc :=
  let b := map host (addr_seq addr sizeof_vring_desc) in
  match unpack [8; 4; 2; 2]%nat b with
  | [a; l; f; n] => mk_desc a l f n
  | _ => mk_desc 0 0 0 0
  end.

Section Vq.
Context {W R CB : Type} `{Countable R} `{!DmaPost W}.
#[local] Abbreviation V := (M (vqs W R CB)).

(** * Access to the state *)

Definition vq : V (snap_vq CB) := gets vs_vq.
Definition upd_vq (f : snap_vq CB -> snap_vq CB) : V unit := modify (fun s => s ⦇ vs_vq := f (vs_vq s) ⦈).

Definition cmd (c : nat) : V (snap_vq_cmd CB) := let! q := vq in m_opt undefined (vq_cmds q !! c).
Definition upd_cmd (c : nat) (f : snap_vq_cmd CB -> snap_vq_cmd CB) : V unit :=
  let! x := cmd c in upd_vq (fun q => q ⦇ vq_cmds := <[c := f x]> (vq_cmds q) ⦈).

(** Posting work: nothing is posted when the answer is an error. *)
Definition post_dma (op : dma_op R) : V Z :=
  let! s := gets id in
  let '(w, ret) := dma_post (vs_env s) in
  do! modify (fun s => s ⦇ vs_env := w ⦈) in
  do! m_when (ret =? 0) (modify (fun s => s ⦇ vs_dma := vs_dma s ++ [op] ⦈)) in
  mreturn ret.

(** The local memory: bytes outside a buffer, or of a buffer that was freed. *)
Definition load_mem (b : R) (off len : Z) : V (list Z) :=
  let! s := gets id in
  let! l := m_opt undefined (vs_mem s !! b) in m_res (rd l off len).
Definition store_mem (b : R) (off : Z) (data : list Z) : V unit :=
  let! s := gets id in
  let! l := m_opt undefined (vs_mem s !! b) in
  let! l' := m_res (wr l off data) in
  modify (fun s => s ⦇ vs_mem := <[b := l']> (vs_mem s) ⦈).

(** * Descriptors and commands *)

Definition snap_vq_desc_pool_get : V vring_desc :=
  let! q := vq in
  match free_descs q with
  | [] => undefined
  | d :: l => do! upd_vq (fun q => q ⦇ free_descs := l ⦈) in mreturn d
  end.

Definition snap_vq_desc_pool_put (d : vring_desc) : V unit :=
  upd_vq (fun q => q ⦇ free_descs := d :: free_descs q ⦈).

(** The new descriptor is the last of the command. *)
Definition snap_vq_cmd_desc_get (c : nat) : V unit :=
  let! d := snap_vq_desc_pool_get in
  upd_cmd c (fun x => x ⦇ vc_descs := vc_descs x ++ [d] ⦈ ⦇ vc_num_descs := vc_num_descs x + 1 ⦈).

Definition snap_vq_cmd_desc_put (c : nat) : V unit :=
  let! x := cmd c in
  match vc_descs x with
  | [] => undefined
  | d :: l =>
      do! upd_cmd c (fun x => x ⦇ vc_num_descs := vc_num_descs x - 1 ⦈ ⦇ vc_descs := l ⦈) in
      snap_vq_desc_pool_put d
  end.

(** Writing the last descriptor of a command. *)
Definition set_last_desc (c : nat) (d : vring_desc) : V unit :=
  let! x := cmd c in
  match vc_descs x with
  | [] => undefined
  | _ => upd_cmd c (fun x => x ⦇ vc_descs := removelast (vc_descs x) ++ [d] ⦈)
  end.

Definition last_desc (c : nat) : V vring_desc := let! x := cmd c in m_opt undefined (last (vc_descs x)).

Definition snap_vq_cmd_fatal (c : nat) : V unit :=
  let! q := vq in
  let! l := m_opt undefined (TAILQ_REMOVE c (inflight_cmds q)) in
  upd_vq (fun q => q ⦇ inflight_cmds := l ⦈ ⦇ fatal_cmds := c :: fatal_cmds q ⦈).

(** [while (!TAILQ_EMPTY(&cmd->descs))] *)
Fixpoint cleanup_descs (n : nat) (c : nat) : V unit :=
  match n with
  | O => mreturn tt
  | S n' => do! snap_vq_cmd_desc_put c in cleanup_descs n' c
  end.
Definition snap_vq_cmd_cleanup (c : nat) : V unit := let! x := cmd c in cleanup_descs (length (vc_descs x)) c.

Definition snap_vq_cmd_get : V nat :=
  let! q := vq in
  match free_cmds q with
  | [] => undefined
  | c :: l => do! upd_vq (fun q => q ⦇ free_cmds := l ⦈ ⦇ inflight_cmds := c :: inflight_cmds q ⦈) in mreturn c
  end.

Definition snap_vq_cmd_put (c : nat) : V unit :=
  let! q := vq in
  let! l := m_opt undefined (TAILQ_REMOVE c (inflight_cmds q)) in
  upd_vq (fun q => q ⦇ inflight_cmds := l ⦈ ⦇ free_cmds := c :: free_cmds q ⦈).

(** * Completion *)

Definition snap_vq_cmd_complete_execute (c : nat) : V unit :=
  let! x := cmd c in
  let! ret := post_dma (DSend (vc_id x) (vc_len x)) in
  do! (if negb (ret =? 0) then snap_vq_cmd_fatal c else snap_vq_cmd_cleanup c) in
  snap_vq_cmd_put c.

(** [fuel] bounds the iterations: every one takes a command off the list. *)
Fixpoint flush_loop (fuel : nat) : V unit :=
  let! q := vq in
  match last (inflight_cmds q) with
  | None => mreturn tt
  | Some c =>
      let! x := cmd c in
      if negb (pending_completion x) then mreturn tt
      else match fuel with
           | O => never_returns
           | S fuel' =>
               do! upd_cmd c (fun x => x ⦇ pending_completion := false ⦈) in
               do! snap_vq_cmd_complete_execute c in
               flush_loop fuel'
           end
  end.
Definition snap_vq_flush_pending_completions : V unit := let! q := vq in flush_loop (length (inflight_cmds q)).

Definition snap_vq_cmd_complete (c : nat) : V unit :=
  let! q := vq in
  if vq_in_order q then
    do! upd_cmd c (fun x => x ⦇ pending_completion := true ⦈) in
    snap_vq_flush_pending_completions
  else snap_vq_cmd_complete_execute c.

(** * Data *)

(** The loop of [snap_vq_cmd_descs_rw] from a descriptor on. *)
Fixpoint descs_rw_loop (descs : list vring_desc) (c : nat) (offset : Z) (buf : R) (laddr total_len : Z) (write : bool) : V Z :=
  match descs with
  | [] => mreturn 0
  | d :: rest =>
      if 0 <? total_len then
        let desc_len := u64 (d_len d - offset) in
        let len := snap_min total_len desc_len in
        let raddr := u64 (d_addr d + offset) in
        do! upd_cmd c (fun x => x ⦇ comp_count := comp_count x + 1 ⦈) in
        let! ret :=
          (if write then
             let! ret := post_dma (DWrite c buf laddr len raddr) in
             do! m_when (ret =? 0) (upd_cmd c (fun x => x ⦇ vc_len := u32 (vc_len x + len) ⦈)) in mreturn ret
           else post_dma (DRead c buf laddr len raddr)) in
        if negb (ret =? 0) then mreturn ret
        else descs_rw_loop rest c 0 buf (laddr + len) (total_len - len) write
      else mreturn 0
  end.

(** [descs] is the chain from [first_desc] on, empty when it is null. *)
Definition snap_vq_cmd_descs_rw (c : nat) (descs : list vring_desc) (first_offset : Z) (buf : R) (loff total_len : Z)
    (cb : CB) (write : bool) : V Z :=
  do! upd_cmd c (fun x => x ⦇ done_cb := Some cb ⦈ ⦇ comp_func := CF_dma_rw_done ⦈) in
  descs_rw_loop descs c first_offset buf loff total_len write.

(** * Commands *)

Section Client.
(** The protocol: what is done with a complete chain ([cmd_ops->handle]) and its callbacks. *)
Context (handle : nat -> V unit) (run_cb : CB -> nat -> Z -> V unit).

Definition snap_vq_cmd_fetch_next_desc (c : nat) : V unit :=
  let! last := last_desc c in
  do! snap_vq_cmd_desc_get c in
  let! q := vq in
  let next_addr := u64 (vq_desc_pa q + d_next last * sizeof_vring_desc) in
  do! upd_cmd c (fun x => x ⦇ comp_count := 1 ⦈ ⦇ comp_func := CF_fetch_next_desc_done ⦈) in
  let! ret := post_dma (DFetch c next_addr) in
  if negb (ret =? 0) then snap_vq_cmd_fatal c else mreturn tt.

Definition snap_vq_cmd_process (c : nat) : V unit :=
  let! d := last_desc c in
  if has_flag (d_flags d) VRING_DESC_F_NEXT then snap_vq_cmd_fetch_next_desc c else handle c.

Definition snap_vq_cmd_fetch_next_desc_done (c : nat) (status : Z) : V unit :=
  if status =? IBV_WC_SUCCESS then snap_vq_cmd_process c else snap_vq_cmd_fatal c.

Definition snap_vq_cmd_dma_rw_done (c : nat) (status : Z) : V unit :=
  let! x := cmd c in
  match done_cb x with Some cb => run_cb cb c status | None => undefined end.

(** The loop over the descriptors of the header. *)
Fixpoint copy_descs (c : nat) (l : list vring_desc) : V unit :=
  match l with
  | [] => mreturn tt
  | d :: l =>
      do! snap_vq_cmd_desc_get c in
      do! set_last_desc c d in
      if negb (has_flag (d_flags d) VRING_DESC_F_NEXT) then mreturn tt else copy_descs c l
  end.

(** The protocol of the admin queue has no [prefetch]. *)
Definition snap_vq_cmd_start (hdr : snap_vq_header) : V unit :=
  let! c := snap_vq_cmd_get in
  do! upd_cmd c (fun x => x ⦇ vc_id := desc_head_idx hdr ⦈ ⦇ vc_len := 0 ⦈) in
  do! modify (fun s => s ⦇ vs_started := vs_started s ++ [desc_head_idx hdr] ⦈) in
  do! copy_descs c (h_descs hdr) in
  snap_vq_cmd_process c.

(** * Progress *)

(** [comp->count] is decremented for each piece of work; the last one calls the function. *)
Definition dma_completion (c : nat) (status : Z) : V unit :=
  do! upd_cmd c (fun x => x ⦇ comp_count := comp_count x - 1 ⦈) in
  let! x := cmd c in
  if comp_count x =? 0 then
    match comp_func x with
    | CF_NULL => undefined
    | CF_fetch_next_desc_done => snap_vq_cmd_fetch_next_desc_done c status
    | CF_dma_rw_done => snap_vq_cmd_dma_rw_done c status
    end
  else mreturn tt.

(** The oldest work ends with [status]; [host] is the memory of the host at that time. *)
Definition exec_tx (status : Z) (host : Z -> Z) : V unit :=
  let ok := status =? IBV_WC_SUCCESS in
  let! s := gets id in
  match vs_dma s with
  | [] => mreturn tt
  | op :: l =>
      do! modify (fun s => s ⦇ vs_dma := l ⦈) in
      match op with
      | DFetch c raddr =>
          do! m_when ok (set_last_desc c (desc_at host raddr)) in dma_completion c status
      | DRead c buf off len raddr =>
          do! m_when ok (store_mem buf off (map host (addr_seq raddr len))) in dma_completion c status
      | DWrite c buf off len raddr =>
          do! m_when ok (let! data := load_mem buf off len in
                         modify (fun s => s ⦇ vs_host := vs_host s ++ [(raddr, data)] ⦈)) in
          dma_completion c status
      | DShort raddr data => m_when ok (modify (fun s => s ⦇ vs_host := vs_host s ++ [(raddr, data)] ⦈))
      | DSend id len => m_when ok (modify (fun s => s ⦇ vs_used := vs_used s ++ [(id, len)] ⦈))
      end
  end.

Fixpoint progress_tx (l : list (Z * (Z -> Z))) : V unit :=
  match l with
  | [] => mreturn tt
  | (status, host) :: l => do! exec_tx status host in progress_tx l
  end.

Fixpoint progress_rx (l : list snap_vq_header) : V unit :=
  match l with
  | [] => mreturn tt
  | hdr :: l => do! snap_vq_cmd_start hdr in progress_rx l
  end.

(** [tx] is the work that has ended, [rx] the commands that have arrived. *)
Definition snap_vq_progress (tx : list (Z * (Z -> Z))) (rx : list snap_vq_header) : V Z :=
  do! progress_tx tx in
  let! q := vq in
  let running := bool_decide (vq_state q = SNAP_VQ_STATE_RUNNING) in
  do! m_when running (progress_rx rx) in
  let! q := vq in
  do! m_when (bool_decide (vq_state q = SNAP_VQ_STATE_FLUSHING) && bool_decide (inflight_cmds q = []))
        (upd_vq (fun q => q ⦇ vq_state := SNAP_VQ_STATE_SUSPENDED ⦈)) in
  mreturn (Z.of_nat (length tx) + if running then Z.of_nat (length rx) else 0).

End Client.

(** * Creation and destruction *)

(** What is held for a queue. *)
Inductive vq_res := RDmaQ | RCmds | RDescs | RHwq | RCtrs | RHwObj.

(** What the calls of [snap_vq_create] answer. *)
Record vq_answers := mk_vqa {
  va_dma_q : bool;
  va_used_index : Z; va_hw_used : Z;
  va_cmd : nat -> bool;
  va_buf : bool;
  va_hwq_calloc : bool; va_ctrs : bool; va_hwq : Z; va_mod_mask : bool; va_mod_fields : Z; va_modify : Z
}.

Definition snap_vq_hwq_modify_state (a : vq_answers) : Z :=
  if negb (va_mod_mask a) && negb (va_mod_fields a =? 0) then va_mod_fields a else va_modify a.

(** What is held afterwards, and the value returned. *)
Definition snap_vq_hwq_create (a : vq_answers) : list vq_res * Z :=
  if negb (va_hwq_calloc a) then ([], - ENOMEM)
  else if negb (va_ctrs a) then ([], - ENODEV)
  else if negb (va_hwq a =? 0) then ([], va_hwq a)
  else let ret := snap_vq_hwq_modify_state a in
       if negb (ret =? 0) then ([RHwObj], ret) else ([RHwq; RCtrs; RHwObj], 0).

(** A command as [calloc] and [snap_vq_cmd_create] leave it. *)
Definition new_cmd : snap_vq_cmd CB := mk_vcmd [] 0 0 0 false 0 CF_NULL None.

(** The commands created before the first failure, and whether there was none. *)
Fixpoint snap_vq_cmds_create (a : vq_answers) (num_cmds i : nat) : list nat * bool :=
  match num_cmds with
  | O => ([], true)
  | S k => if va_cmd a i then let '(l, ok) := snap_vq_cmds_create a k (S i) in (i :: l, ok) else ([], false)
  end.

(** The fields of [struct snap_vq_create_attr] the queue keeps; the memory of the pool is
    whatever the allocation returns. *)
Definition snap_vq_create (a : vq_answers) (size : nat) (desc_pa : Z) (in_order in_recovery : bool) (entries : nat -> vring_desc) :
    list vq_res * option (snap_vq CB * Z) :=
  if negb (va_dma_q a) then ([], None)
  else if in_recovery && negb (va_used_index a =? 0) then ([], None)
  else let hw_used := if in_recovery then va_hw_used a else 0 in
       let '(cmds, ok) := snap_vq_cmds_create a size 0 in
       if negb ok then ([], None)
       else if negb (va_buf a) then ([], None)
       else let '(held, ret) := snap_vq_hwq_create a in
            if negb (ret =? 0) then (held, None)
            else (RDmaQ :: RCmds :: RDescs :: held,
                  Some (mk_vq SNAP_VQ_STATE_RUNNING desc_pa in_order cmds [] [] (reverse (map entries (seq 0 size))) (replicate size new_cmd), hw_used)).

(** * Suspend and resume *)

Definition snap_vq_suspend : V unit := upd_vq (fun q => q ⦇ vq_state := SNAP_VQ_STATE_FLUSHING ⦈).
Definition snap_vq_is_suspended (q : snap_vq CB) : bool := bool_decide (vq_state q = SNAP_VQ_STATE_SUSPENDED).
Definition snap_vq_resume : V unit := upd_vq (fun q => q ⦇ vq_state := SNAP_VQ_STATE_RUNNING ⦈).

End Vq.
