(* ===== verification/VqInv.v ===== *)
(** The invariant of the virtqueue of Vq.v, and that every operation keeps it when the DMA
    queue accepts the work that is posted.

    [vq_inv] says that the three lists share out the commands, that the pool and the
    commands share out the descriptors, that a command counts the work it is waiting for,
    and, while no work fails, that completions leave in the order in which commands
    started. *)

From stdpp Require Import gmap.
From S2P Require Import Prelude Effects Bytes BlkDescs Vq.

Tactic Notation "vrec" :=
  cbn [upd_field vc_descs vc_num_descs vc_len vc_id pending_completion comp_count comp_func done_cb
       vq_state vq_desc_pa vq_in_order free_cmds inflight_cmds fatal_cmds free_descs vq_cmds
       vs_env vs_vq vs_mem vs_dma vs_started vs_host vs_used fst snd].
Tactic Notation "vrec" "in" "*" :=
  cbn [upd_field vc_descs vc_num_descs vc_len vc_id pending_completion comp_count comp_func done_cb
       vq_state vq_desc_pa vq_in_order free_cmds inflight_cmds fatal_cmds free_descs vq_cmds
       vs_env vs_vq vs_mem vs_dma vs_started vs_host vs_used fst snd] in *.

(** The buffers, with their sizes, that the protocol uses with each of its callbacks for a
    command with the given descriptors. *)
Class BufFor (CB R : Type) := buf_for : CB -> list vring_desc -> R -> nat -> Prop.

Section Inv.
Context {W R CB : Type} `{Countable R} `{!DmaPost W} `{!BufFor CB R}.
#[local] Abbreviation V := (M (vqs W R CB)).
#[local] Abbreviation sys := (vqs W R CB).

Implicit Types (s : sys) (x : snap_vq_cmd CB) (op : dma_op R).

(** * Work on the DMA queue *)

Definition op_cmd (op : dma_op R) : option nat :=
  match op with DFetch c _ | DRead c _ _ _ _ | DWrite c _ _ _ _ => Some c | _ => None end.

Fixpoint n_ops (c : nat) (l : list (dma_op R)) : nat :=
  match l with
  | [] => O
  | op :: l => if decide (op_cmd op = Some c) then S (n_ops c l) else n_ops c l
  end.

(** The completions that are on their way. *)
Fixpoint sends (l : list (dma_op R)) : list Z :=
  match l with [] => [] | DSend id _ :: l => id :: sends l | _ :: l => sends l end.

Lemma n_ops_app c l l' : n_ops c (l ++ l') = (n_ops c l + n_ops c l')%nat.
Proof. induction l as [|op l IH]; cbn [n_ops app]; [done|]. destruct (decide _); rewrite IH; lia. Qed.
Lemma sends_app l l' : sends (l ++ l') = sends l ++ sends l'.
Proof. induction l as [|[] l IH]; cbn [sends app]; rewrite ?IH; done. Qed.
Lemma n_ops_elem c l op : op ∈ l -> op_cmd op = Some c -> (0 < n_ops c l)%nat.
Proof.
  induction l as [|op' l IH]; [by intros ?%elem_of_nil|]. intros [->|Hin]%elem_of_cons Hc; cbn [n_ops].
  - rewrite decide_True by done. lia.
  - destruct (decide _); [lia|]. by apply IH.
Qed.

Lemma n_ops_pos c l : (0 < n_ops c l)%nat -> exists op, op ∈ l /\ op_cmd op = Some c.
Proof.
  induction l as [|op' l IH]; cbn [n_ops]; [lia|]. destruct (decide _) as [Heq|_]; [exists op'; split; [set_solver|done]|].
  intros Hl. destruct (IH Hl) as (op & Hin & Hc). exists op. split; [set_solver|done].
Qed.

(** What a piece of work relies on. *)
Definition buf_ok (mem : gmap R (list Z)) (b : R) (off len : Z) : Prop :=
  exists l, mem !! b = Some l /\ 0 <= off /\ 0 <= len /\ off + len <= Z.of_nat (length l).

Definition buf_use (mem : gmap R (list Z)) (x : snap_vq_cmd CB) (b : R) : Prop :=
  exists cb l, done_cb x = Some cb /\ mem !! b = Some l /\ buf_for cb (vc_descs x) b (length l).

Definition op_ok (mem : gmap R (list Z)) (op : dma_op R) (x : snap_vq_cmd CB) : Prop :=
  match op with
  | DFetch _ _ => comp_func x = CF_fetch_next_desc_done /\ vc_descs x <> []
  | DRead _ b off len _ | DWrite _ b off len _ => comp_func x = CF_dma_rw_done /\ buf_use mem x b /\ vc_descs x <> [] /\ buf_ok mem b off len
  | _ => True
  end.

(** * The invariant *)

Definition n_descs (cmds : list (snap_vq_cmd CB)) : nat := sum_list_with (fun x => length (vc_descs x)) cmds.

Definition id_of (cmds : list (snap_vq_cmd CB)) (c : nat) : Z := from_option vc_id 0 (cmds !! c).

Record cmd_inv (mem : gmap R (list Z)) (dma : list (dma_op R)) (infl : list nat) (c : nat) (x : snap_vq_cmd CB) : Prop := {
  ci_num : vc_num_descs x = Z.of_nat (length (vc_descs x));
  ci_count : comp_count x = Z.of_nat (n_ops c dma);
  ci_idle : c ∉ infl \/ pending_completion x = true -> comp_count x = 0;
  ci_out : c ∉ infl -> pending_completion x = false;
  ci_op op : op ∈ dma -> op_cmd op = Some c -> op_ok mem op x;
}.

(** [n] commands and descriptors; [b]: no work has failed. *)
Record vq_inv (b : bool) (n : nat) (s : sys) : Prop := {
  vi_len : length (vq_cmds (vs_vq s)) = n;
  vi_lists : free_cmds (vs_vq s) ++ inflight_cmds (vs_vq s) ++ fatal_cmds (vs_vq s) ≡ₚ seq 0 n;
  vi_descs : (length (free_descs (vs_vq s)) + n_descs (vq_cmds (vs_vq s)) = n)%nat;
  vi_free c x : vq_cmds (vs_vq s) !! c = Some x -> c ∈ free_cmds (vs_vq s) -> vc_descs x = [];
  vi_cmd c x : vq_cmds (vs_vq s) !! c = Some x -> cmd_inv (vs_mem s) (vs_dma s) (inflight_cmds (vs_vq s)) c x;
  vi_ops op c : op ∈ vs_dma s -> op_cmd op = Some c -> (c < n)%nat;
  vi_fatal : b = true -> fatal_cmds (vs_vq s) = [];
  vi_order : b = true -> vq_in_order (vs_vq s) = true ->
    vs_started s = map fst (vs_used s) ++ sends (vs_dma s) ++ map (id_of (vq_cmds (vs_vq s))) (reverse (inflight_cmds (vs_vq s)));
}.

(** The command is being worked on and waits for nothing. *)
Definition idle (c : nat) (x : snap_vq_cmd CB) (s : sys) : Prop :=
  vq_cmds (vs_vq s) !! c = Some x /\ c ∈ inflight_cmds (vs_vq s) /\ pending_completion x = false /\ comp_count x = 0.

(** * Lemmas on the pieces *)

Lemma n_descs_insert cmds c x x' : cmds !! c = Some x ->
  (n_descs (<[c := x']> cmds) + length (vc_descs x) = n_descs cmds + length (vc_descs x'))%nat.
Proof.
  unfold n_descs. revert c. induction cmds as [|y cmds IH]; intros [|c] Hc; [done..| |].
  - injection Hc as ->. change (<[0%nat := x']> (x :: cmds)) with (x' :: cmds). cbn [sum_list_with]. lia.
  - change (<[S c := x']> (y :: cmds)) with (y :: <[c := x']> cmds). cbn [sum_list_with]. specialize (IH c Hc). lia.
Qed.

Lemma id_of_insert cmds c x x' c' : cmds !! c = Some x -> vc_id x' = vc_id x -> id_of (<[c := x']> cmds) c' = id_of cmds c'.
Proof.
  intros Hc Hid. unfold id_of. destruct (decide (c' = c)) as [->|Hne].
  - rewrite list_lookup_insert_eq by (by eapply lookup_lt_Some). rewrite Hc. done.
  - by rewrite list_lookup_insert_ne.
Qed.

Lemma seq_nodup_lists free infl fatal n : free ++ infl ++ fatal ≡ₚ seq 0 n -> NoDup (free ++ infl ++ fatal).
Proof. intros Hp. rewrite Hp. apply NoDup_seq. Qed.

(** ** A command that is in flight changes *)

(** The lists, the memory and the record of what was started and completed are the same. *)
Record frame (s s' : sys) : Prop := {
  fr_free : free_cmds (vs_vq s') = free_cmds (vs_vq s);
  fr_infl : inflight_cmds (vs_vq s') = inflight_cmds (vs_vq s);
  fr_fatal : fatal_cmds (vs_vq s') = fatal_cmds (vs_vq s);
  fr_mode : vq_in_order (vs_vq s') = vq_in_order (vs_vq s);
  fr_mem b l : vs_mem s !! b = Some l -> exists l', vs_mem s' !! b = Some l' /\ length l' = length l;
  fr_started : vs_started s' = vs_started s;
  fr_used : map fst (vs_used s') ++ sends (vs_dma s') = map fst (vs_used s) ++ sends (vs_dma s);
}.

Lemma frame_buf s s' b off len : frame s s' -> buf_ok (vs_mem s) b off len -> buf_ok (vs_mem s') b off len.
Proof. intros Hf (l & Hl & ? & ? & ?). destruct (fr_mem _ _ Hf b l Hl) as (l' & Hl' & Hlen). exists l'. rewrite Hlen. done. Qed.

Lemma frame_op s s' op x : frame s s' -> op_ok (vs_mem s) op x -> op_ok (vs_mem s') op x.
Proof.
  intros Hf. assert (forall b, buf_use (vs_mem s) x b -> buf_use (vs_mem s') x b) as Hu.
  { intros b (cb & l & Hcb & Hl & Hfor). destruct (fr_mem _ _ Hf b l Hl) as (l' & Hl' & Hlen). exists cb, l'. by rewrite Hlen. }
  destruct op; cbn [op_ok]; try done; intros (? & ? & ? & ?); split_and!; try done; auto; by eapply frame_buf.
Qed.

Lemma inv_change b n s s' c x x' :
  vq_inv b n s -> frame s s' ->
  vq_cmds (vs_vq s) !! c = Some x -> vq_cmds (vs_vq s') = <[c := x']> (vq_cmds (vs_vq s)) ->
  c ∈ inflight_cmds (vs_vq s) ->
  (length (free_descs (vs_vq s')) + length (vc_descs x') = length (free_descs (vs_vq s)) + length (vc_descs x))%nat ->
  vc_num_descs x' = Z.of_nat (length (vc_descs x')) ->
  vc_id x' = vc_id x ->
  (forall c', c' <> c -> n_ops c' (vs_dma s') = n_ops c' (vs_dma s)) ->
  comp_count x' = Z.of_nat (n_ops c (vs_dma s')) ->
  (pending_completion x' = true -> comp_count x' = 0) ->
  (forall op, op ∈ vs_dma s' -> op ∈ vs_dma s /\ op_cmd op <> Some c \/ (op_cmd op = Some c \/ op_cmd op = None) /\ op_ok (vs_mem s') op x') ->
  vq_inv b n s'.
Proof.
  intros [Hlen Hli Hde Hfr Hcm Hop Hfa Hord] Hf Hx Hx' Hin Hpool Hnum Hid Hops Hcnt Hpend Hok. pose proof (lookup_lt_Some _ _ _ Hx) as Hlt.
  pose proof (fr_free _ _ Hf) as Ef. pose proof (fr_infl _ _ Hf) as Ei. pose proof (fr_fatal _ _ Hf) as Ea.
  split; rewrite ?Hx', ?Ef, ?Ei, ?Ea.
  - by rewrite length_insert.
  - done.
  - pose proof (n_descs_insert _ c x x' Hx). lia.
  - intros c' y [(<- & <- & _)|[Hne Hy]]%list_lookup_insert_Some Hfree.
    + exfalso. pose proof (seq_nodup_lists _ _ _ _ Hli) as Hnd. apply NoDup_app in Hnd as (_ & Hd & _). apply (Hd c Hfree). set_solver.
    + by apply (Hfr c').
  - intros c' y [(<- & <- & _)|[Hne Hy]]%list_lookup_insert_Some.
    + split; [done|done| |done|].
      * intros [Hni|Hp]; [done|by apply Hpend].
      * intros op Ho Hoc. destruct (Hok op Ho) as [[_ ?]|[_ ?]]; done.
    + destruct (Hcm c' y Hy) as [H1 H2 H3 H4 H5]. split; [done|by rewrite Hops|done|done|].
      intros op Ho Hoc. destruct (Hok op Ho) as [[Ho' _]|[[?|?] _]]; [by eapply frame_op, H5|congruence..].
  - intros op c' Ho Hoc. destruct (Hok op Ho) as [[Ho' _]|[[Hc|Hc] _]]; [by apply (Hop op)| |congruence].
    rewrite Hc in Hoc. injection Hoc as <-. lia.
  - done.
  - intros Hb Hio. rewrite (fr_started _ _ Hf), app_assoc, (fr_used _ _ Hf), <- app_assoc.
    rewrite (Hord Hb) by (by rewrite <- (fr_mode _ _ Hf)). do 2 f_equal. apply map_ext. intros c'. by rewrite (id_of_insert _ c x x').
Qed.

(** * Operations *)

(** The DMA queue accepts the work. *)
Class DmaWorks : Prop := dma_works : forall w : W, dma_post w = (w, 0).

Section Ops.
Context `{!DmaWorks}.

Definition posted (op : dma_op R) (s : sys) : sys :=
  mk_vqs (vs_env s) (vs_vq s) (vs_mem s) (vs_dma s ++ [op]) (vs_started s) (vs_host s) (vs_used s).

Definition set_cmd (c : nat) (x : snap_vq_cmd CB) (s : sys) : sys :=
  s ⦇ vs_vq := (vs_vq s) ⦇ vq_cmds := <[c := x]> (vq_cmds (vs_vq s)) ⦈ ⦈.

Lemma run_post_dma op s : post_dma op s = Ok (posted op s, 0).
Proof. unfold post_dma, m_bind, gets. cbn [res_bind]. unfold id. rewrite dma_works. done. Qed.

Lemma run_cmd c x s : vq_cmds (vs_vq s) !! c = Some x -> cmd c s = Ok (s, x).
Proof. intros Hx. unfold cmd, m_bind, vq, gets. cbn [res_bind]. by rewrite Hx. Qed.

Lemma run_upd_cmd c f x s : vq_cmds (vs_vq s) !! c = Some x -> upd_cmd c f s = Ok (set_cmd c (f x) s, tt).
Proof. intros Hx. unfold upd_cmd, m_bind. by rewrite (run_cmd c x). Qed.

Lemma lookup_set_cmd c x y s : vq_cmds (vs_vq s) !! c = Some y -> vq_cmds (vs_vq (set_cmd c x s)) !! c = Some x.
Proof. intros Hy. unfold set_cmd. vrec. apply list_lookup_insert_eq. by eapply lookup_lt_Some. Qed.

(** Steps of a run: each command of the monad whose result is known. *)
Lemma post_cmd {B} c x (f : snap_vq_cmd CB -> V B) P s :
  vq_cmds (vs_vq s) !! c = Some x -> post (f x) P s -> post (m_bind (cmd c) f) P s.
Proof. intros Hx Hp. unfold post, m_bind. rewrite (run_cmd c x) by done. exact Hp. Qed.
Lemma post_upd_cmd {B} c g x (f : unit -> V B) P s :
  vq_cmds (vs_vq s) !! c = Some x -> post (f tt) P (set_cmd c (g x) s) -> post (m_bind (upd_cmd c g) f) P s.
Proof. intros Hx Hp. unfold post, m_bind. rewrite (run_upd_cmd c g x) by done. exact Hp. Qed.
Lemma post_post_dma {B} op (f : Z -> V B) P s : post (f 0) P (posted op s) -> post (m_bind (post_dma op) f) P s.
Proof. intros Hp. unfold post, m_bind. rewrite run_post_dma. exact Hp. Qed.

(** ** Data *)

Lemma frame_mem_refl (s : sys) b l : vs_mem s !! b = Some l -> exists l', vs_mem s !! b = Some l' /\ length l' = length l.
Proof. eauto. Qed.

(** What moving data leaves alone. *)
Record keeps_data (s s' : sys) : Prop := {
  kd_env : vs_env s' = vs_env s;
  kd_mem : vs_mem s' = vs_mem s;
  kd_infl : inflight_cmds (vs_vq s') = inflight_cmds (vs_vq s);
  kd_mode : vq_in_order (vs_vq s') = vq_in_order (vs_vq s);
  kd_state : vq_state (vs_vq s') = vq_state (vs_vq s);
  kd_started : vs_started s' = vs_started s;
}.
Lemma keeps_data_trans s1 s2 s3 : keeps_data s1 s2 -> keeps_data s2 s3 -> keeps_data s1 s3.
Proof. intros [] []. split; congruence. Qed.

(** A piece of work is posted for a command, which counts it. *)
Lemma inv_post_op b n s c x x' op :
  vq_inv b n s -> vq_cmds (vs_vq s) !! c = Some x -> c ∈ inflight_cmds (vs_vq s) ->
  op_cmd op = Some c -> op_ok (vs_mem s) op x' ->
  vc_descs x' = vc_descs x -> vc_num_descs x' = vc_num_descs x -> vc_id x' = vc_id x -> pending_completion x' = false ->
  comp_count x' = comp_count x + 1 -> (forall op', op' ∈ vs_dma s -> op_cmd op' = Some c -> op_ok (vs_mem s) op' x') ->
  vq_inv b n (posted op (set_cmd c x' s)).
Proof.
  intros Hinv Hx Hin Hop Hok Hd Hn Hid Hp Hc Hold. destruct (vi_cmd _ _ _ Hinv c x Hx) as [Hnum Hcnt _ _ _].
  apply (inv_change b n s _ c x x'); unfold posted, set_cmd; vrec; try done.
  - split; vrec; try done; [by apply frame_mem_refl|]. rewrite sends_app. by destruct op; cbn [sends]; rewrite ?app_nil_r.
  - by rewrite Hd.
  - by rewrite Hn, Hnum, Hd.
  - intros c' Hne. rewrite n_ops_app. cbn [n_ops]. rewrite Hop, decide_False by congruence. lia.
  - rewrite Hc, Hcnt, n_ops_app. cbn [n_ops]. rewrite decide_True by done. lia.
  - congruence.
  - intros op' [Hin'|Heq%list_elem_of_singleton]%elem_of_app; [|subst op'].
    + destruct (decide (op_cmd op' = Some c)) as [Heq|Hne]; [right; split; [by left|by apply Hold]|by left].
    + right. split; [by left|done].
Qed.

Lemma op_ok_eq mem op x x' :
  comp_func x' = comp_func x -> done_cb x' = done_cb x -> vc_descs x' = vc_descs x -> op_ok mem op x -> op_ok mem op x'.
Proof. intros Hf Hc Hd. by destruct op; cbn [op_ok]; unfold buf_use; rewrite ?Hf, ?Hc, ?Hd. Qed.

Definition op_buf (op : dma_op R) : option R :=
  match op with DRead _ b _ _ _ | DWrite _ b _ _ _ => Some b | _ => None end.

(** The state after data was moved for the command [c]. *)
Definition moved (c : nat) (buf : R) (x x' : snap_vq_cmd CB) (s s' : sys) : Prop :=
  keeps_data s s' /\
  (exists l, vs_dma s' = vs_dma s ++ l /\ Forall (fun op => op_cmd op = Some c /\ op_buf op = Some buf) l) /\
  vq_cmds (vs_vq s') = <[c := x']> (vq_cmds (vs_vq s)) /\
  vc_descs x' = vc_descs x /\ vc_id x' = vc_id x /\ pending_completion x' = false /\ comp_func x' = comp_func x /\ done_cb x' = done_cb x.

Lemma moved_refl c buf x s : vq_cmds (vs_vq s) !! c = Some x -> pending_completion x = false -> moved c buf x x s s.
Proof. intros Hx Hp. split_and!; try done; [|symmetry; by apply list_insert_id]. exists []. by rewrite app_nil_r. Qed.

Lemma moved_trans c buf x1 x2 x3 s1 s2 s3 : moved c buf x1 x2 s1 s2 -> moved c buf x2 x3 s2 s3 -> moved c buf x1 x3 s1 s3.
Proof.
  intros (K1 & (l1 & D1 & F1) & L1 & A1 & B1 & C1 & E1 & G1) (K2 & (l2 & D2 & F2) & L2 & A2 & B2 & C2 & E2 & G2).
  split_and!; [by eapply keeps_data_trans| |by rewrite L2, L1, list_insert_insert_eq|congruence..].
  exists (l1 ++ l2). rewrite D2, D1, app_assoc. split; [done|by apply Forall_app].
Qed.

Lemma moved_one c buf op x x' s :
  vq_cmds (vs_vq s) !! c = Some x -> op_cmd op = Some c -> op_buf op = Some buf ->
  vc_descs x' = vc_descs x -> vc_id x' = vc_id x -> pending_completion x' = false -> comp_func x' = comp_func x -> done_cb x' = done_cb x ->
  moved c buf x x' s (posted op (set_cmd c x' s)).
Proof.
  intros Hx Hc Hb Hd Hid Hp Hf Hcb. unfold moved, posted, set_cmd. vrec. split_and!; try done.
  exists [op]. split; [done|]. by apply Forall_singleton.
Qed.

Lemma rw_step_ok b n s c x x' buf op :
  vq_inv b n s -> vq_cmds (vs_vq s) !! c = Some x -> c ∈ inflight_cmds (vs_vq s) -> pending_completion x = false ->
  comp_func x = CF_dma_rw_done ->
  op_cmd op = Some c -> op_buf op = Some buf -> op_ok (vs_mem s) op x' ->
  x' = x ⦇ comp_count := comp_count x + 1 ⦈ \/ (exists k, x' = x ⦇ comp_count := comp_count x + 1 ⦈ ⦇ vc_len := k ⦈) ->
  vq_inv b n (posted op (set_cmd c x' s)) /\ moved c buf x x' s (posted op (set_cmd c x' s)).
Proof.
  intros Hinv Hx Hin Hp Hf Hc Hb Hok Hx'. split.
  - eapply inv_post_op; try done; try (destruct Hx' as [->|[k ->]]; done).
    intros op' Ho' Hoc'. eapply (op_ok_eq _ _ x); [..|by eapply (vi_cmd _ _ _ Hinv c x Hx)]; by destruct Hx' as [->|[k ->]].
  - apply moved_one; try done; by destruct Hx' as [->|[k ->]].
Qed.

Lemma rw_loop_ok b n c buf write : forall descs off laddr total s x,
  vq_inv b n s -> vq_cmds (vs_vq s) !! c = Some x -> c ∈ inflight_cmds (vs_vq s) -> pending_completion x = false ->
  comp_func x = CF_dma_rw_done -> buf_use (vs_mem s) x buf -> vc_descs x <> [] -> buf_ok (vs_mem s) buf laddr total ->
  post (descs_rw_loop descs c off buf laddr total write) (fun ret s' => ret = 0 /\ vq_inv b n s' /\
    exists x', moved c buf x x' s s' /\ comp_count x <= comp_count x' /\ (descs <> [] -> 0 < total -> comp_count x < comp_count x')) s.
Proof.
  induction descs as [|d descs IH]; intros off laddr total s x Hinv Hx Hin Hp Hf Hcb Hde Hbuf; cbn [descs_rw_loop].
  { apply post_return. split_and!; [done|done|]. exists x. split; [by apply moved_refl|]. split; [lia|done]. }
  destruct (Z.ltb_spec 0 total) as [Ht|Ht].
  2:{ apply post_return. split_and!; [done|done|]. exists x. split; [by apply moved_refl|]. split; [lia|]. lia. }
  destruct Hbuf as (l & Hl & Hla & _ & Hle). set (len := snap_min total (u64 (d_len d - off))).
  assert (0 <= len <= total) as Hlen. { unfold len, snap_min, u64, uwrap. pose proof (Z.mod_pos_bound (d_len d - off) (2 ^ 64) ltac:(lia)). destruct (Z.ltb_spec total ((d_len d - off) mod 2 ^ 64)); lia. }
  eapply post_upd_cmd; [exact Hx|]. set (raddr := u64 (d_addr d + off)).
  assert (forall op x1, op_cmd op = Some c -> op_buf op = Some buf -> op_ok (vs_mem s) op x1 ->
    x1 = x ⦇ comp_count := comp_count x + 1 ⦈ \/ (exists k, x1 = x ⦇ comp_count := comp_count x + 1 ⦈ ⦇ vc_len := k ⦈) ->
    post (descs_rw_loop descs c 0 buf (laddr + len) (total - len) write) (fun ret s' => ret = 0 /\ vq_inv b n s' /\
      exists x', moved c buf x x' s s' /\ comp_count x <= comp_count x' /\ (d :: descs <> [] -> 0 < total -> comp_count x < comp_count x'))
      (posted op (set_cmd c x1 s))) as Hstep.
  { intros op x1 Hoc Hob Hok Hx1. destruct (rw_step_ok b n s c x x1 buf op) as [Hinv1 Hm1]; try done.
    assert (comp_count x1 = comp_count x + 1) as Hc1 by (by destruct Hx1 as [->|[k ->]]).
    destruct Hm1 as (K1 & D1 & L1 & A1 & B1 & C1 & E1 & G1).
    assert (vq_cmds (vs_vq (posted op (set_cmd c x1 s))) !! c = Some x1) as L1' by (rewrite L1; apply list_lookup_insert_eq; by eapply lookup_lt_Some).
    eapply post_mono; [apply (IH 0 (laddr + len) (total - len) _ x1); try done|].
    - by rewrite E1.
    - unfold buf_use. by rewrite G1, A1, (kd_mem _ _ K1).
    - by rewrite A1.
    - exists l. rewrite (kd_mem _ _ K1). split_and!; [done|lia..].
    - intros ret s' (Hret & Hinv' & x' & Hm' & Hcnt & _). split_and!; [done|done|]. exists x'.
      split; [|lia]. eapply moved_trans; [|exact Hm']. by split_and!. }
  assert (buf_ok (vs_mem s) buf laddr len) as Hbl by (exists l; split_and!; [done|lia..]).
  destruct write.
  - apply post_assoc, post_post_dma, post_assoc. unfold m_when. cbn [Z.eqb].
    eapply post_upd_cmd; [vrec; by eapply lookup_set_cmd|]. apply post_bind, post_return. cbn [Z.eqb negb].
    eapply (eq_ind _ (fun st => post _ _ st)); [apply (Hstep (DWrite c buf laddr len raddr) (x ⦇ comp_count := comp_count x + 1 ⦈ ⦇ vc_len := u32 (vc_len x + len) ⦈)); [done|done| |by eauto]|].
    + by split_and!.
    + unfold posted, set_cmd. vrec. by rewrite list_insert_insert_eq.
  - apply post_post_dma. cbn [Z.eqb negb]. apply Hstep; [done|done| |by left]. by split_and!.
Qed.

Lemma descs_rw_ok b n s c x descs off buf laddr total cb write :
  vq_inv b n s -> idle c x s -> vc_descs x <> [] -> (exists l, vs_mem s !! buf = Some l /\ buf_for cb (vc_descs x) buf (length l)) -> buf_ok (vs_mem s) buf laddr total ->
  post (snap_vq_cmd_descs_rw c descs off buf laddr total cb write) (fun ret s' => ret = 0 /\ vq_inv b n s' /\ keeps_data s s' /\
    (exists l, vs_dma s' = vs_dma s ++ l /\ Forall (fun op => op_cmd op = Some c /\ op_buf op = Some buf) l /\ (descs <> [] -> 0 < total -> l <> [])) /\
    exists x', vq_cmds (vs_vq s') = <[c := x']> (vq_cmds (vs_vq s)) /\ pending_completion x' = false /\ done_cb x' = Some cb) s.
Proof.
  intros Hinv (Hx & Hin & Hp & Hc) Hde Hfor Hbuf. unfold snap_vq_cmd_descs_rw. eapply post_upd_cmd; [exact Hx|].
  set (x1 := x ⦇ done_cb := Some cb ⦈ ⦇ comp_func := CF_dma_rw_done ⦈). destruct (vi_cmd _ _ _ Hinv c x Hx) as [Hnum Hcnt _ _ _].
  assert (vq_inv b n (set_cmd c x1 s)) as Hinv1.
  { apply (inv_change b n s _ c x x1); unfold set_cmd; vrec; try done.
    - split; vrec; try done. by apply frame_mem_refl.
    - intros op Ho. left. split; [done|]. intros Hoc. pose proof (n_ops_elem c _ op Ho Hoc). lia. }
  eapply post_mono; [apply (rw_loop_ok b n c buf write descs off laddr total _ x1); try done; [by eapply lookup_set_cmd|]|].
  { destruct Hfor as (l & Hl & Hfor). by exists cb, l. }
  intros ret s' (Hret & Hinv' & x' & (Hk & (l & Hd & Hall) & Hcm & _ & _ & Hp' & _ & Hcb') & Hle & Hlt). split_and!; [done|done| | |].
  - destruct Hk. by split.
  - exists l. split_and!; [exact Hd|done|]. intros Hne Ht ->. specialize (Hlt Hne Ht). rewrite app_nil_r in Hd.
    destruct (vi_cmd _ _ _ Hinv' c x') as [_ Hcnt' _ _ _]; [rewrite Hcm; apply list_lookup_insert_eq; unfold set_cmd; vrec; rewrite length_insert; by eapply lookup_lt_Some|].
    rewrite Hd in Hcnt'. change (vs_dma (set_cmd c x1 s)) with (vs_dma s) in Hcnt'. change (comp_count x1) with (comp_count x) in Hlt. lia.
  - exists x'. rewrite Hcm. unfold set_cmd. vrec. by rewrite list_insert_insert_eq.
Qed.

(** ** Completion *)

Lemma inv_unique b n s : vq_inv b n s -> NoDup (inflight_cmds (vs_vq s)).
Proof. intros Hinv. pose proof (seq_nodup_lists _ _ _ _ (vi_lists _ _ _ Hinv)) as Hnd. by apply NoDup_app in Hnd as (_ & _ & [? _]%NoDup_app). Qed.

(** A command leaves the list of those in flight. *)
Lemma cmds_leave b n s s' c x x' l1 l2 :
  vq_inv b n s -> idle c x s -> inflight_cmds (vs_vq s) = l1 ++ c :: l2 -> inflight_cmds (vs_vq s') = l1 ++ l2 ->
  vs_mem s' = vs_mem s -> (forall c, n_ops c (vs_dma s') = n_ops c (vs_dma s)) -> (forall op, op ∈ vs_dma s' -> op ∈ vs_dma s \/ op_cmd op = None) ->
  vq_cmds (vs_vq s') = <[c := x']> (vq_cmds (vs_vq s)) ->
  vc_num_descs x' = Z.of_nat (length (vc_descs x')) -> pending_completion x' = false -> comp_count x' = 0 ->
  length (vq_cmds (vs_vq s')) = n /\
  (forall c' y, vq_cmds (vs_vq s') !! c' = Some y -> cmd_inv (vs_mem s') (vs_dma s') (inflight_cmds (vs_vq s')) c' y) /\
  (forall op c', op ∈ vs_dma s' -> op_cmd op = Some c' -> (c' < n)%nat).
Proof.
  intros Hinv (Hx & Hin & Hp & Hcnt) Hi Hi' Hmem Hops Hel Hc Hnum Hp' Hc0. rewrite Hc, Hi', Hmem. split_and!.
  - by rewrite length_insert, (vi_len _ _ _ Hinv).
  - intros c' y [(<- & <- & _)|[Hne Hy]]%list_lookup_insert_Some.
    + destruct (vi_cmd _ _ _ Hinv c x Hx) as [_ Hn _ _ _]. assert (n_ops c (vs_dma s) = 0%nat) as Hz by lia. split; [done|rewrite Hops; lia|done|done|].
      intros op Ho Hoc. destruct (Hel op Ho) as [Ho'|?]; [|congruence]. pose proof (n_ops_elem c _ op Ho' Hoc). lia.
    + destruct (vi_cmd _ _ _ Hinv c' y Hy) as [H1 H2 H3 H4 H5]. rewrite Hi in H3, H4. split; [done|by rewrite Hops| | |].
      * intros [Hn|Ht]; apply H3; [left|by right]. set_solver.
      * intros Hn. apply H4. set_solver.
      * intros op Ho Hoc. destruct (Hel op Ho) as [Ho'|?]; [by apply H5|congruence].
  - intros op c' Ho Hoc. destruct (Hel op Ho) as [Ho'|?]; [by apply (vi_ops _ _ _ Hinv op)|congruence].
Qed.

Lemma inv_retire b n s s' c x x' l1 l2 len :
  vq_inv b n s -> idle c x s -> inflight_cmds (vs_vq s) = l1 ++ c :: l2 ->
  inflight_cmds (vs_vq s') = l1 ++ l2 -> free_cmds (vs_vq s') = c :: free_cmds (vs_vq s) -> fatal_cmds (vs_vq s') = fatal_cmds (vs_vq s) ->
  vq_in_order (vs_vq s') = vq_in_order (vs_vq s) -> vs_mem s' = vs_mem s -> vs_started s' = vs_started s -> vs_used s' = vs_used s ->
  vs_dma s' = vs_dma s ++ [DSend (vc_id x) len] -> vq_cmds (vs_vq s') = <[c := x']> (vq_cmds (vs_vq s)) ->
  vc_descs x' = [] -> vc_num_descs x' = 0 -> pending_completion x' = false -> comp_count x' = 0 -> vc_id x' = vc_id x ->
  length (free_descs (vs_vq s')) = (length (free_descs (vs_vq s)) + length (vc_descs x))%nat ->
  (b = true -> vq_in_order (vs_vq s) = true -> l2 = []) ->
  vq_inv b n s'.
Proof.
  intros Hinv Hidle Hi Hi' Hf' Ha' Hm Hmem Hst Hus Hdma Hc Hd Hnum Hp Hcnt Hid Hpool Hlast.
  destruct (cmds_leave b n s s' c x x' l1 l2) as (Hlen & Hcm & Hop); try done.
  { intros c'. rewrite Hdma, n_ops_app. cbn [n_ops op_cmd]. rewrite decide_False by done. lia. }
  { rewrite Hdma. intros op [?|Heq%list_elem_of_singleton]%elem_of_app; [by left|subst; by right]. }
  { by rewrite Hd. }
  destruct Hidle as (Hx & Hin & _ & _). split; try done.
  - rewrite Hf', Hi', Ha', <- (vi_lists _ _ _ Hinv), Hi. rewrite <- !app_assoc. cbn [app]. solve_Permutation.
  - rewrite Hpool, Hc. pose proof (n_descs_insert _ c x x' Hx). pose proof (vi_descs _ _ _ Hinv). rewrite Hd in *. cbn [length] in *. lia.
  - intros c' y. rewrite Hc, Hf'. intros [(<- & <- & _)|[Hne Hy]]%list_lookup_insert_Some Hfr; [done|].
    apply elem_of_cons in Hfr as [->|Hfr]; [done|]. by apply (vi_free _ _ _ Hinv c').
  - rewrite Ha'. by apply (vi_fatal _ _ _ Hinv).
  - intros Hb Hio. rewrite Hm in Hio. rewrite Hst, Hus, Hdma, Hc, Hi', (vi_order _ _ _ Hinv Hb Hio), Hi, (Hlast Hb Hio), sends_app.
    rewrite app_nil_r, reverse_app. change (reverse [c]) with [c]. cbn [app map sends]. rewrite <- !app_assoc. cbn [app].
    assert (id_of (vq_cmds (vs_vq s)) c = vc_id x) as -> by (unfold id_of; by rewrite Hx). do 3 f_equal. apply map_ext. intros c'. symmetry. by eapply id_of_insert.
Qed.

(** Everything but the commands and the pool. *)
Definition rest s :=
  (vs_env s, vs_mem s, vs_dma s, vs_started s, vs_host s, vs_used s, vq_state (vs_vq s), vq_in_order (vs_vq s),
   free_cmds (vs_vq s), inflight_cmds (vs_vq s), fatal_cmds (vs_vq s)).

Lemma cleanup_ok c : forall l s x,
  vq_cmds (vs_vq s) !! c = Some x -> vc_descs x = l ->
  post (cleanup_descs (length l) c) (fun _ s' => rest s' = rest s /\
    (exists x', vq_cmds (vs_vq s') = <[c := x']> (vq_cmds (vs_vq s)) /\ x' = x ⦇ vc_num_descs := vc_num_descs x - Z.of_nat (length l) ⦈ ⦇ vc_descs := [] ⦈) /\
    length (free_descs (vs_vq s')) = (length (free_descs (vs_vq s)) + length l)%nat) s.
Proof.
  induction l as [|d l IH]; intros s x Hx Hd; cbn [length cleanup_descs].
  - apply post_return. split_and!; [done| |lia]. exists x. split; [symmetry; by apply list_insert_id|]. destruct x; cbn in *. subst. f_equal. lia.
  - unfold snap_vq_cmd_desc_put. apply post_assoc. eapply post_cmd; [exact Hx|]. rewrite Hd.
    apply post_assoc. eapply post_upd_cmd; [exact Hx|]. unfold snap_vq_desc_pool_put, upd_vq. apply post_modify.
    eapply post_mono; [eapply IH; [vrec; apply list_lookup_insert_eq; by eapply lookup_lt_Some|done]|]. unfold set_cmd in *.
    unfold set_cmd. intros _ s' (Hr & (x' & Hc & ->) & Hl). split_and!; [rewrite Hr; done| |rewrite Hl; vrec; cbn [length]; lia].
    eexists. split; [rewrite Hc; vrec; by rewrite list_insert_insert_eq|]. destruct x. vrec. f_equal. lia.
Qed.

(** What completing commands leaves alone. *)
Definition keeps_mem (s s' : sys) : Prop :=
  vs_env s' = vs_env s /\ vs_mem s' = vs_mem s /\ vs_started s' = vs_started s /\ vq_state (vs_vq s') = vq_state (vs_vq s) /\
  vq_in_order (vs_vq s') = vq_in_order (vs_vq s) /\
  (length (inflight_cmds (vs_vq s')) <= length (inflight_cmds (vs_vq s)))%nat /\
  (exists l, vs_dma s' = vs_dma s ++ l /\ Forall (fun op => op_cmd op = None) l).
Lemma keeps_mem_refl s : keeps_mem s s.
Proof. split_and!; try done. exists []. by rewrite app_nil_r. Qed.
Lemma keeps_mem_trans s1 s2 s3 : keeps_mem s1 s2 -> keeps_mem s2 s3 -> keeps_mem s1 s3.
Proof.
  intros (? & ? & ? & ? & ? & ? & l1 & D1 & F1) (? & ? & ? & ? & ? & ? & l2 & D2 & F2). split_and!; [congruence..|lia|].
  exists (l1 ++ l2). rewrite D2, D1, app_assoc. split; [done|by apply Forall_app].
Qed.

Lemma complete_execute_ok b n s c x l1 l2 :
  vq_inv b n s -> idle c x s -> inflight_cmds (vs_vq s) = l1 ++ c :: l2 -> (b = true -> vq_in_order (vs_vq s) = true -> l2 = []) ->
  post (snap_vq_cmd_complete_execute c) (fun _ s' => vq_inv b n s' /\ keeps_mem s s' /\ inflight_cmds (vs_vq s') = l1 ++ l2 /\
    (forall c', c' <> c -> vq_cmds (vs_vq s') !! c' = vq_cmds (vs_vq s) !! c')) s.
Proof.
  intros Hinv Hidle Hi Hl2. pose proof Hidle as (Hx & Hin & Hp & Hc). unfold snap_vq_cmd_complete_execute.
  eapply post_cmd; [exact Hx|]. apply post_post_dma. cbn [Z.eqb negb]. unfold snap_vq_cmd_cleanup. apply post_assoc. eapply post_cmd; [exact Hx|].
  eapply post_bind_mono; [eapply cleanup_ok; [exact Hx|done]|]. intros _ s1 (Hr & (x' & Hc1 & ->) & Hl).
  unfold rest in Hr. injection Hr as He Hm Hd Hst Hho Hus Hvs Hmo Hf Hif Hfa. vrec in *.
  unfold snap_vq_cmd_put. apply post_gets. rewrite Hif, Hi.
  assert (c ∉ l1) as Hc1' by (pose proof (inv_unique _ _ _ Hinv) as Hnd; rewrite Hi in Hnd; apply NoDup_app in Hnd as (_ & Hd' & _); intros Hc'; apply (Hd' c Hc'); set_solver).
  rewrite tailq_remove_mid by done.
  apply post_bind, post_return. unfold post, upd_vq, modify. split_and!.
  - eapply (inv_retire b n s _ c x _ l1 l2 (vc_len x)); vrec; try done; try congruence.
    vrec. destruct (vi_cmd _ _ _ Hinv c x Hx) as [-> _ _ _ _]. lia.
  - split_and!; vrec; try done; [rewrite Hi, !length_app; cbn [length]; lia|]. eexists. split; [exact Hd|]. by apply Forall_singleton.
  - done.
  - intros c' Hne. vrec. rewrite Hc1. by rewrite list_lookup_insert_ne.
Qed.

(** No completion is held back: the oldest command is not finished. *)
Definition settled (s : sys) : Prop :=
  forall c x, vq_in_order (vs_vq s) = true -> last (inflight_cmds (vs_vq s)) = Some c -> vq_cmds (vs_vq s) !! c = Some x -> pending_completion x = false.

(** The commands but [c] that are worked on stay as they are. *)
Definition keeps_idle (c : option nat) (s s' : sys) : Prop :=
  forall c' x', Some c' <> c -> idle c' x' s -> idle c' x' s'.

Lemma inv_lookup b n s c : vq_inv b n s -> c ∈ inflight_cmds (vs_vq s) -> exists x, vq_cmds (vs_vq s) !! c = Some x.
Proof.
  intros Hinv Hc. apply lookup_lt_is_Some_2. rewrite (vi_len _ _ _ Hinv).
  assert (c ∈ seq 0 n) as Hin by (rewrite <- (vi_lists _ _ _ Hinv); set_solver). apply elem_of_seq in Hin. lia.
Qed.

(** A command is marked as finished, or the mark is taken off. *)
Lemma mark_ok b n s c x v :
  vq_inv b n s -> vq_cmds (vs_vq s) !! c = Some x -> c ∈ inflight_cmds (vs_vq s) -> comp_count x = 0 ->
  vq_inv b n (set_cmd c (x ⦇ pending_completion := v ⦈) s).
Proof.
  intros Hinv Hx Hin Hc. destruct (vi_cmd _ _ _ Hinv c x Hx) as [Hn Hcnt _ _ Hop].
  apply (inv_change b n s _ c x (x ⦇ pending_completion := v ⦈)); unfold set_cmd; vrec; try done.
  - split; vrec; try done. by apply frame_mem_refl.
  - intros op Ho. destruct (decide (op_cmd op = Some c)) as [Heq|Hne]; [|by left]. right. split; [by left|].
    by apply (op_ok_eq _ _ x), Hop.
Qed.

Lemma set_cmd_idle c x x1 c' x' s : vq_cmds (vs_vq s) !! c = Some x -> c' <> c -> idle c' x' s -> idle c' x' (set_cmd c x1 s).
Proof. intros Hx Hne (Hl & Hi & ?). unfold idle, set_cmd. vrec. by rewrite list_lookup_insert_ne. Qed.

Lemma flush_loop_ok b n : forall fuel s,
  vq_inv b n s -> vq_in_order (vs_vq s) = true -> (length (inflight_cmds (vs_vq s)) <= fuel)%nat ->
  post (flush_loop fuel) (fun _ s' => vq_inv b n s' /\ keeps_mem s s' /\ settled s' /\ keeps_idle None s s') s.
Proof.
  induction fuel as [|fuel IH]; intros s Hinv Hio Hlen.
  - destruct (inflight_cmds (vs_vq s)) eqn:Hi; [|cbn in Hlen; lia]. unfold flush_loop. apply post_gets. rewrite Hi. apply post_return.
    split_and!; [done|by apply keeps_mem_refl| |by intros ? ? _ ?]. intros c x. by rewrite Hi.
  - cbn [flush_loop]. apply post_gets. destruct (last (inflight_cmds (vs_vq s))) as [c0|] eqn:Hla.
    2:{ apply post_return. split_and!; [done|by apply keeps_mem_refl| |by intros ? ? _ ?]. intros c x. by rewrite Hla. }
    apply last_Some in Hla as [l0 Hi]. destruct (inv_lookup b n s c0) as [x Hx]; [done|rewrite Hi; set_solver|]. eapply post_cmd; [exact Hx|]. rewrite Hi in Hlen.
    destruct (pending_completion x) eqn:Hp; cbn [negb].
    2:{ apply post_return. split_and!; [done|by apply keeps_mem_refl| |by intros ? ? _ ?]. intros c y _. rewrite Hi, last_snoc. intros [= <-] Hy. congruence. }
    eapply post_upd_cmd; [exact Hx|]. destruct (vi_cmd _ _ _ Hinv c0 x Hx) as [_ _ Hid _ _]. assert (comp_count x = 0) as Hc by (apply Hid; by right).
    pose proof (mark_ok b n s c0 x false Hinv Hx ltac:(rewrite Hi; set_solver) Hc) as Hinv1.
    set (s1 := set_cmd c0 _ s) in *. assert (vq_cmds (vs_vq s1) !! c0 = Some (x ⦇ pending_completion := false ⦈)) as Hx1 by (by eapply lookup_set_cmd).
    eapply post_bind_mono.
    { apply (complete_execute_ok b n s1 c0 (x ⦇ pending_completion := false ⦈) l0 []); [done| |done|done].
      split_and!; [done|unfold s1, set_cmd; vrec; rewrite Hi; set_solver|done|done]. }
    intros _ s2 (Hinv2 & Hk2 & Hi2 & Hother). rewrite app_nil_r in Hi2.
    eapply post_mono; [apply IH; [done|by destruct Hk2 as (_ & _ & _ & _ & -> & _)|rewrite Hi2; rewrite length_app in Hlen; cbn in Hlen; lia]|].
    intros _ s3 (Hinv3 & Hk3 & Hs3 & Hid3). split_and!; [done| |done|].
    + eapply keeps_mem_trans; [|exact Hk3]. exact Hk2.
    + intros c' x' _ Hidle. apply Hid3; [done|]. assert (c' <> c0) as Hne. { intros ->. destruct Hidle as (Hy & _ & Hpy & _). congruence. }
      apply (set_cmd_idle c0 x (x ⦇ pending_completion := false ⦈)) in Hidle as (Hy & Hiy & Hry & Hrc); [|done|done]. split_and!; try done.
      * by rewrite Hother.
      * rewrite Hi2. unfold s1, set_cmd in Hiy. vrec in *. rewrite Hi in Hiy. set_solver.
Qed.

Lemma complete_ok b n s c x :
  vq_inv b n s -> idle c x s ->
  post (snap_vq_cmd_complete c) (fun _ s' => vq_inv b n s' /\ keeps_mem s s' /\ settled s' /\ keeps_idle (Some c) s s') s.
Proof.
  intros Hinv Hidle. pose proof Hidle as (Hx & Hin & Hp & Hc). unfold snap_vq_cmd_complete. apply post_gets.
  destruct (vq_in_order (vs_vq s)) eqn:Hio.
  - eapply post_upd_cmd; [exact Hx|]. unfold snap_vq_flush_pending_completions. apply post_gets.
    eapply post_mono; [apply (flush_loop_ok b n); [by apply mark_ok|done|done]|]. intros _ s' (? & Hk & ? & Hid). split_and!; try done.
    intros c' x' Hne Hi'. apply Hid; [done|]. eapply set_cmd_idle; [done|congruence|done].
  - apply list_elem_of_split in Hin as (l1 & l2 & Hi). eapply post_mono; [apply (complete_execute_ok b n s c x l1 l2); try done; congruence|].
    intros _ s' (Hinv' & Hk & Hi' & Hother). split_and!; try done.
    + intros c' x' Hio'. destruct Hk as (_ & _ & _ & _ & Hm & _). congruence.
    + intros c' x' Hne (Hy & Hiy & Hpy & Hcy). split_and!; try done; [rewrite Hother by congruence; done|]. rewrite Hi'. rewrite Hi in Hiy. set_solver.
Qed.

(** ** Failure *)

Lemma inv_weaken b n s : vq_inv b n s -> vq_inv false n s.
Proof. intros []. by split. Qed.

Lemma fatal_ok b n s c x :
  vq_inv b n s -> idle c x s ->
  post (snap_vq_cmd_fatal c) (fun _ s' => vq_inv false n s' /\ keeps_mem s s' /\ vs_dma s' = vs_dma s /\ keeps_idle (Some c) s s') s.
Proof.
  intros Hinv Hidle. pose proof Hidle as (Hx & Hin & Hp & Hc). unfold snap_vq_cmd_fatal. apply post_gets.
  destruct (tailq_remove_ok c _ Hin) as (l1 & l2 & Hi & ->). apply post_bind, post_return. unfold post, upd_vq, modify. rewrite Hi in Hin.
  split_and!.
  - destruct (cmds_leave b n s (s ⦇ vs_vq := (vs_vq s) ⦇ inflight_cmds := l1 ++ l2 ⦈ ⦇ fatal_cmds := c :: fatal_cmds (vs_vq s) ⦈ ⦈) c x x l1 l2) as (Hlen & Hcm & Hop); vrec; try done.
    { by left. } { symmetry. by apply list_insert_id. } { by apply (vi_cmd _ _ _ Hinv c x Hx). }
    split; vrec; try done; try by apply Hinv.
    rewrite <- (vi_lists _ _ _ Hinv), Hi. rewrite <- !app_assoc. cbn [app]. solve_Permutation.
  - split_and!; try done; [vrec; rewrite Hi, !length_app; cbn [length]; lia|]. exists []. by rewrite app_nil_r.
  - done.
  - intros c' x' Hne (Hy & Hiy & Hpy & Hcy). split_and!; vrec; try done. rewrite Hi in Hiy. set_solver.
Qed.

End Ops.
End Inv.
