(* ===== verification/VqProps.v ===== *)
(** Runs of a virtqueue with a protocol on top.

    [VqClient] is what the queue relies on: the functions of the protocol, called for a
    command that is in flight and waits for nothing, leave a state in which the invariant
    of VqInv.v and an invariant of the protocol hold.  The steps of a run are the arrival
    of a command, the end of the oldest work on the DMA queue, and the calls that suspend
    and resume the queue. *)

From stdpp Require Import gmap.
From S2P Require Import Prelude Effects Bytes BlkDescs Vq VqInv.

Section Client.
Context {W R CB : Type} `{Countable R} `{!DmaPost W} `{!DmaWorks (W := W)} `{!BufFor CB R}.
#[local] Abbreviation V := (M (vqs W R CB)).
#[local] Abbreviation sys := (vqs W R CB).
Implicit Types (s : sys) (x : snap_vq_cmd CB) (op : dma_op R).
Context (handle : nat -> V unit) (run_cb : CB -> nat -> Z -> V unit).
(** What a callback of the protocol needs of the data that arrived. *)
Context (cb_fits : CB -> nat -> Z -> sys -> Prop).

(** * What the queue relies on *)

(** The buffers the DMA queue will read or write, with the command they belong to. *)
Definition buf_ops (l : list (dma_op R)) : list (nat * R) :=
  omap (fun op => match op with DRead c b _ _ _ | DWrite c b _ _ _ => Some (c, b) | _ => None end) l.

(** The same protocol state, but for the bytes of the buffer [o], and no new commands. *)
Definition touches (o : option R) (s s' : sys) : Prop :=
  vs_env s' = vs_env s /\ (forall b, o <> Some b -> vs_mem s' !! b = vs_mem s !! b) /\
  (forall b l, vs_mem s !! b = Some l -> exists l', vs_mem s' !! b = Some l' /\ length l' = length l) /\
  (length (inflight_cmds (vs_vq s')) <= length (inflight_cmds (vs_vq s)))%nat.
Definition same_client : sys -> sys -> Prop := touches None.

(** While no work fails. *)
Definition calm (b : bool) (s : sys) : Prop := b = true -> settled s.

(** [Inv]: the invariant of the protocol, on its own state and the buffers in use;
    [admits]: the states in which it accepts another command. *)
Class VqClient (n : nat) (admits : sys -> Prop) (Inv : sys -> Prop) : Prop := {
  client_stable s s' : Inv s -> same_client s s' -> buf_ops (vs_dma s') = buf_ops (vs_dma s) -> Inv s';
  client_start s s' c : Inv s -> admits s -> vs_env s' = vs_env s -> vs_mem s' = vs_mem s -> vs_dma s' = vs_dma s ->
    inflight_cmds (vs_vq s') = c :: inflight_cmds (vs_vq s) -> Inv s';
  client_pop f s s' c b : vq_inv f n s -> Inv s -> touches (Some b) s s' -> buf_ops (vs_dma s) = (c, b) :: buf_ops (vs_dma s') -> c ∈ map fst (buf_ops (vs_dma s')) -> Inv s';
  handle_ok b s c x : vq_inv b n s -> calm b s -> Inv s -> idle c x s -> vc_descs x <> [] ->
    post (handle c) (fun _ s' => vq_inv b n s' /\ calm b s' /\ Inv s' /\ vq_state (vs_vq s') = vq_state (vs_vq s) /\
      vq_in_order (vs_vq s') = vq_in_order (vs_vq s) /\ vs_started s' = vs_started s) s;
  run_cb_ok b s0 s c x cb buf status : vq_inv b n s -> calm b s -> idle c x s -> done_cb x = Some cb -> cb_fits cb c status s -> buf_use (vs_mem s) x buf -> vc_descs x <> [] ->
    vq_inv b n s0 -> Inv s0 -> touches (Some buf) s0 s -> buf_ops (vs_dma s0) = (c, buf) :: buf_ops (vs_dma s) ->
    post (run_cb cb c status) (fun _ s' => vq_inv b n s' /\ calm b s' /\ Inv s' /\ vq_state (vs_vq s') = vq_state (vs_vq s) /\
      vq_in_order (vs_vq s') = vq_in_order (vs_vq s) /\ vs_started s' = vs_started s) s;
}.

Context (n : nat) (admits Inv : sys -> Prop) `{!VqClient n admits Inv}.

Record good (b : bool) (s : sys) : Prop := {
  gd_inv : vq_inv b n s;
  gd_settled : calm b s;
  gd_client : Inv s;
  gd_susp : vq_state (vs_vq s) = SNAP_VQ_STATE_SUSPENDED -> inflight_cmds (vs_vq s) = [];
}.

(** A command is worked on in a state that is not suspended. *)
Lemma good_running b s c x : good b s -> idle c x s -> vq_state (vs_vq s) <> SNAP_VQ_STATE_SUSPENDED.
Proof. intros Hg (_ & Hin & _) Hs. rewrite (gd_susp _ _ Hg Hs) in Hin. set_solver. Qed.

(** ** Descriptors *)

(** A new descriptor [d] for a command. *)
Definition with_desc (c : nat) (x : snap_vq_cmd CB) (pool : list vring_desc) (d : vring_desc) (s : sys) : sys :=
  s ⦇ vs_vq := (vs_vq s) ⦇ free_descs := pool ⦈
       ⦇ vq_cmds := <[c := x ⦇ vc_descs := vc_descs x ++ [d] ⦈ ⦇ vc_num_descs := vc_num_descs x + 1 ⦈]> (vq_cmds (vs_vq s)) ⦈ ⦈.

Lemma post_desc_get {B} c x d0 pool (k : unit -> V B) P s :
  vq_cmds (vs_vq s) !! c = Some x -> free_descs (vs_vq s) = d0 :: pool ->
  post (k tt) P (with_desc c x pool d0 s) -> post (m_bind (snap_vq_cmd_desc_get c) k) P s.
Proof.
  intros Hx Hf Hk. unfold snap_vq_cmd_desc_get, snap_vq_desc_pool_get. apply post_assoc, post_assoc, post_gets. rewrite Hf.
  apply post_assoc. unfold upd_vq at 1. apply post_modify, post_bind, post_return. eapply post_upd_cmd; [vrec; exact Hx|]. exact Hk.
Qed.

Lemma lookup_with_desc c x y pool d s : vq_cmds (vs_vq s) !! c = Some y ->
  vq_cmds (vs_vq (with_desc c x pool d s)) !! c = Some (x ⦇ vc_descs := vc_descs x ++ [d] ⦈ ⦇ vc_num_descs := vc_num_descs x + 1 ⦈).
Proof. intros Hy. unfold with_desc. vrec. apply list_lookup_insert_eq. by eapply lookup_lt_Some. Qed.

Lemma post_set_last {B} c y d (k : unit -> V B) P s :
  vq_cmds (vs_vq s) !! c = Some y -> vc_descs y <> [] ->
  post (k tt) P (set_cmd c (y ⦇ vc_descs := removelast (vc_descs y) ++ [d] ⦈) s) -> post (m_bind (set_last_desc c d) k) P s.
Proof.
  intros Hy Hd Hk. unfold set_last_desc. apply post_assoc. eapply post_cmd; [exact Hy|]. destruct (vc_descs y) eqn:He; [done|].
  eapply post_upd_cmd; [exact Hy|]. by rewrite He.
Qed.

(** Changing an idle command, within the descriptors it has and the pool. *)
Lemma inv_idle_change b s s' c x x' :
  vq_inv b n s -> idle c x s -> rest s' = rest s -> vq_cmds (vs_vq s') = <[c := x']> (vq_cmds (vs_vq s)) ->
  (length (free_descs (vs_vq s')) + length (vc_descs x') = length (free_descs (vs_vq s)) + length (vc_descs x))%nat ->
  vc_num_descs x' = Z.of_nat (length (vc_descs x')) -> vc_id x' = vc_id x -> comp_count x' = 0 -> pending_completion x' = false ->
  vq_inv b n s' /\ idle c x' s'.
Proof.
  intros Hinv (Hx & Hin & Hp & Hc) Hr Hc' Hlen Hnum Hid Hc0 Hp0. unfold rest in Hr. injection Hr as He Hm Hd Hst Hho Hus Hvs Hmo Hf Hif Hfa.
  destruct (vi_cmd _ _ _ Hinv c x Hx) as [_ Hcnt _ _ _]. assert (n_ops c (vs_dma s) = 0%nat) as Hz by lia. split.
  - apply (inv_change b n s s' c x x'); rewrite ?Hd; try done.
    + split; rewrite ?Hd, ?Hus, ?Hm; try done. by apply frame_mem_refl.
    + lia.
    + intros op Ho. left. split; [done|]. intros Hoc. pose proof (n_ops_elem c _ op Ho Hoc). lia.
  - split_and!; [|by rewrite Hif|done|done]. rewrite Hc'. apply list_lookup_insert_eq. by eapply lookup_lt_Some.
Qed.

Lemma settled_cmd s s' c x' :
  settled s -> vq_in_order (vs_vq s') = vq_in_order (vs_vq s) -> inflight_cmds (vs_vq s') = inflight_cmds (vs_vq s) ->
  vq_cmds (vs_vq s') = <[c := x']> (vq_cmds (vs_vq s)) -> pending_completion x' = false -> settled s'.
Proof.
  intros Hs Hm Hi Hc Hp c' y Hio Hla Hy. rewrite Hc in Hy. apply list_lookup_insert_Some in Hy as [(<- & <- & _)|[Hne Hy]]; [done|].
  apply (Hs c' y); congruence.
Qed.

Lemma calm_cmd b s s' c x' :
  calm b s -> vq_in_order (vs_vq s') = vq_in_order (vs_vq s) -> inflight_cmds (vs_vq s') = inflight_cmds (vs_vq s) ->
  vq_cmds (vs_vq s') = <[c := x']> (vq_cmds (vs_vq s)) -> pending_completion x' = false -> calm b s'.
Proof. intros Hs ? ? ? ? Hb. eapply settled_cmd; eauto. Qed.

Lemma touches_refl o s s' : vs_env s' = vs_env s -> vs_mem s' = vs_mem s -> inflight_cmds (vs_vq s') = inflight_cmds (vs_vq s) -> touches o s s'.
Proof. intros He Hm Hi. unfold touches. rewrite Hm, Hi. split_and!; [done|done|eauto|done]. Qed.

Lemma same_client_refl s s' : vs_env s' = vs_env s -> vs_mem s' = vs_mem s -> inflight_cmds (vs_vq s') = inflight_cmds (vs_vq s) -> same_client s s'.
Proof. apply touches_refl. Qed.

Lemma good_idle_change b s s' c x x' :
  good b s -> idle c x s -> rest s' = rest s -> vq_cmds (vs_vq s') = <[c := x']> (vq_cmds (vs_vq s)) ->
  (length (free_descs (vs_vq s')) + length (vc_descs x') = length (free_descs (vs_vq s)) + length (vc_descs x))%nat ->
  vc_num_descs x' = Z.of_nat (length (vc_descs x')) -> vc_id x' = vc_id x -> comp_count x' = 0 -> pending_completion x' = false ->
  good b s' /\ idle c x' s'.
Proof.
  intros [Hinv Hs Hcl Hsu] Hidle Hr Hc Hlen Hnum Hid Hc0 Hp0.
  destruct (inv_idle_change b s s' c x x') as [Hinv' Hidle']; try done. split; [|done].
  unfold rest in Hr. injection Hr as He Hm Hd Hst Hho Hus Hvs Hmo Hf Hif Hfa. split; [done| | |].
  - by apply (calm_cmd b s s' c x').
  - apply (client_stable s); [done|by apply same_client_refl|by rewrite Hd].
  - rewrite Hvs, Hif. done.
Qed.

(** A command gets a descriptor. *)
Lemma with_desc_ok b s c x d0 pool d :
  good b s -> idle c x s -> free_descs (vs_vq s) = d0 :: pool ->
  good b (with_desc c x pool d s) /\ idle c (x ⦇ vc_descs := vc_descs x ++ [d] ⦈ ⦇ vc_num_descs := vc_num_descs x + 1 ⦈) (with_desc c x pool d s).
Proof.
  intros Hg Hidle Hf. pose proof Hidle as (Hx & Hin & Hp & Hc). destruct (vi_cmd _ _ _ (gd_inv _ _ Hg) c x Hx) as [Hnum _ _ _ _].
  apply (good_idle_change b s _ c x); try done; unfold with_desc; vrec; try done.
  - rewrite Hf, length_app. cbn [length]. lia.
  - rewrite length_app, Hnum. cbn [length]. lia.
Qed.

(** ** Fetching a chain *)

Definition has_next (d : vring_desc) : bool := has_flag (d_flags d) VRING_DESC_F_NEXT.

(** The states a step leads to: [c] is a command it may leave waiting. *)
Definition next_state (b : bool) (s s' : sys) : Prop :=
  good b s' /\ vq_state (vs_vq s') = vq_state (vs_vq s) /\ vq_in_order (vs_vq s') = vq_in_order (vs_vq s) /\ vs_started s' = vs_started s.

Lemma fetch_next_ok b s c x d d0 pool :
  good b s -> idle c x s -> last (vc_descs x) = Some d -> free_descs (vs_vq s) = d0 :: pool ->
  post (snap_vq_cmd_fetch_next_desc c) (fun _ => next_state b s) s.
Proof.
  intros Hg Hidle Hla Hf. pose proof Hidle as (Hx & Hin & Hp & Hc). destruct (with_desc_ok b s c x d0 pool d0 Hg Hidle Hf) as [Hg1 Hidle1].
  unfold snap_vq_cmd_fetch_next_desc, last_desc. apply post_assoc. eapply post_cmd; [exact Hx|]. rewrite Hla. apply post_bind, post_return.
  eapply post_desc_get; [exact Hx|exact Hf|]. apply post_gets. eapply post_upd_cmd; [by eapply lookup_with_desc|]. apply post_post_dma.
  cbn [Z.eqb negb]. apply post_return. set (s1 := with_desc c x pool d0 s) in *. destruct Hidle1 as (Hx1 & Hin1 & Hp1 & Hc1).
  set (x1 := x ⦇ vc_descs := vc_descs x ++ [d0] ⦈ ⦇ vc_num_descs := vc_num_descs x + 1 ⦈) in *.
  split_and!; try done. split.
  - eapply (inv_post_op b n s1 c x1 _ _ (gd_inv _ _ Hg1) Hx1 Hin1); try done.
    + split; [done|]. vrec. by destruct (vc_descs x).
    + by rewrite Hc1.
    + intros op' Ho Hoc. exfalso. destruct (vi_cmd _ _ _ (gd_inv _ _ Hg1) c x1 Hx1) as [_ Hcnt _ _ _]. pose proof (n_ops_elem c _ op' Ho Hoc). lia.
  - apply (calm_cmd b s1 _ c (x1 ⦇ comp_count := 1 ⦈ ⦇ comp_func := CF_fetch_next_desc_done ⦈)); try done; apply Hg1.
  - apply (client_stable s1); [apply Hg1|by apply same_client_refl|]. unfold posted, set_cmd. vrec. unfold buf_ops. rewrite omap_app. cbn. by rewrite app_nil_r.
  - vrec. apply Hg1.
Qed.

Lemma process_ok b s c x d :
  good b s -> idle c x s -> last (vc_descs x) = Some d -> (has_next d = true -> free_descs (vs_vq s) <> []) ->
  post (snap_vq_cmd_process handle c) (fun _ => next_state b s) s.
Proof.
  intros Hg Hidle Hla Hroom. pose proof Hidle as (Hx & Hin & Hp & Hc). unfold snap_vq_cmd_process, last_desc. apply post_assoc.
  eapply post_cmd; [exact Hx|]. rewrite Hla. apply post_bind, post_return. unfold has_next in Hroom.
  destruct (has_flag (d_flags d) VRING_DESC_F_NEXT).
  - destruct (free_descs (vs_vq s)) as [|d0 pool] eqn:Hf; [by specialize (Hroom eq_refl)|]. by eapply fetch_next_ok.
  - pose proof (good_running b s c x Hg Hidle) as Hrun.
    eapply post_mono; [eapply handle_ok; [apply Hg|apply Hg|apply Hg|exact Hidle|by destruct (vc_descs x)]|].
    intros _ s' (Hi' & Hs' & Hcl' & Hst' & Hm' & Hsd'). split_and!; try done. split; try done. congruence.
Qed.

(** ** Starting a command *)

(** The descriptors taken from a header: up to the first without a successor. *)
Fixpoint copied (l : list vring_desc) : list vring_desc :=
  match l with [] => [] | d :: l => if has_next d then d :: copied l else [d] end.

Lemma last_copied_desc l d : last (copied l) = Some d -> l <> [].
Proof. by destruct l. Qed.

Lemma copied_nonempty l : l <> [] -> exists d, last (copied l) = Some d.
Proof.
  intros Hl. destruct (last (copied l)) as [d|] eqn:Hla; [eauto|]. exfalso. apply last_None in Hla.
  destruct l as [|d l]; [done|]. cbn [copied] in Hla. by destruct (has_next d).
Qed.

Lemma copy_descs_ok b c : forall l s x,
  good b s -> idle c x s -> (length (copied l) <= length (free_descs (vs_vq s)))%nat ->
  post (copy_descs c l) (fun _ s' => next_state b s s' /\ exists x', idle c x' s' /\ vc_descs x' = vc_descs x ++ copied l /\
    (length (free_descs (vs_vq s')) + length (copied l) = length (free_descs (vs_vq s)))%nat) s.
Proof.
  induction l as [|d l IH]; intros s x Hg Hidle Hlen; cbn [copy_descs copied] in *.
  { apply post_return. split; [by split_and!|]. exists x. rewrite app_nil_r. split_and!; [done|done|cbn; lia]. }
  pose proof Hidle as (Hx & Hin & Hp & Hc). destruct (free_descs (vs_vq s)) as [|d0 pool] eqn:Hf; [by destruct (has_next d); cbn in Hlen; lia|].
  destruct (with_desc_ok b s c x d0 pool d Hg Hidle Hf) as [Hg1 Hidle1].
  eapply post_desc_get; [exact Hx|exact Hf|]. eapply post_set_last; [by eapply lookup_with_desc|vrec; by destruct (vc_descs x)|].
  match goal with |- post _ _ ?st => assert (st = with_desc c x pool d s) as -> end.
  { unfold set_cmd, with_desc. vrec. rewrite list_insert_insert_eq, removelast_last. done. }
  unfold has_next in *. destruct (has_flag (d_flags d) VRING_DESC_F_NEXT); cbn [negb].
  - eapply post_mono; [eapply IH; [exact Hg1|exact Hidle1|]|].
    + unfold with_desc. vrec. cbn [length] in Hlen. lia.
    + intros _ s' ((Hg' & Hst & Hm & Hsd) & x' & Hid' & Hd' & Hl'). split; [by split_and!|]. exists x'. split_and!; [done| |].
      * rewrite Hd'. vrec. by rewrite <- app_assoc.
      * unfold with_desc in Hl'. vrec in *. cbn [length]. lia.
  - apply post_return. split; [by split_and!|]. eexists. split_and!; [exact Hidle1|done|]. unfold with_desc. vrec. cbn [length]. lia.
Qed.

Lemma inv_start b s s' c l x id :
  vq_inv b n s -> free_cmds (vs_vq s) = c :: l -> vq_cmds (vs_vq s) !! c = Some x ->
  free_cmds (vs_vq s') = l -> inflight_cmds (vs_vq s') = c :: inflight_cmds (vs_vq s) -> fatal_cmds (vs_vq s') = fatal_cmds (vs_vq s) ->
  free_descs (vs_vq s') = free_descs (vs_vq s) -> vs_dma s' = vs_dma s -> vs_mem s' = vs_mem s -> vs_used s' = vs_used s ->
  vs_started s' = vs_started s ++ [id] -> vq_in_order (vs_vq s') = vq_in_order (vs_vq s) ->
  vq_cmds (vs_vq s') = <[c := x ⦇ vc_id := id ⦈ ⦇ vc_len := 0 ⦈]> (vq_cmds (vs_vq s)) ->
  vq_inv b n s' /\ idle c (x ⦇ vc_id := id ⦈ ⦇ vc_len := 0 ⦈) s' /\ vc_descs x = [].
Proof.
  intros Hinv Hfr Hx Hf' Hi' Ha' Hp' Hd' Hm' Hu' Hs' Hmo' Hc'. set (x' := x ⦇ vc_id := id ⦈ ⦇ vc_len := 0 ⦈) in *.
  pose proof (vi_free _ _ _ Hinv c x Hx ltac:(rewrite Hfr; set_solver)) as Hde.
  assert (c ∉ inflight_cmds (vs_vq s)) as Hni.
  { pose proof (seq_nodup_lists _ _ _ _ (vi_lists _ _ _ Hinv)) as Hnd. rewrite Hfr in Hnd. cbn [app] in Hnd. apply NoDup_cons in Hnd as [Hnd _]. set_solver. }
  destruct (vi_cmd _ _ _ Hinv c x Hx) as [Hnum Hcnt Hidl Hout Hop]. assert (comp_count x = 0) as Hc0 by (apply Hidl; by left).
  split_and!; [|split_and!; [rewrite Hc'; apply list_lookup_insert_eq; by eapply lookup_lt_Some|rewrite Hi'; set_solver|by apply Hout|done]|done].
  split; rewrite ?Hf', ?Hi', ?Ha', ?Hp', ?Hd', ?Hm', ?Hc'.
  - rewrite length_insert. apply Hinv.
  - rewrite <- (vi_lists _ _ _ Hinv), Hfr. cbn [app]. solve_Permutation.
  - pose proof (n_descs_insert _ c x x' Hx) as Hn. unfold x' in *. vrec in *. pose proof (vi_descs _ _ _ Hinv). lia.
  - intros c' y [(<- & <- & _)|[Hne Hy]]%list_lookup_insert_Some Hl; [done|]. apply (vi_free _ _ _ Hinv c'); [done|]. rewrite Hfr. set_solver.
  - intros c' y [(<- & <- & _)|[Hne Hy]]%list_lookup_insert_Some.
    + split; try done. intros Hn. set_solver.
    + destruct (vi_cmd _ _ _ Hinv c' y Hy) as [H1 H2 H3 H4 H5]. split; try done.
      * intros [Hn|?]; apply H3; [left|by right]. set_solver.
      * intros Hn. apply H4. set_solver.
  - apply (vi_ops _ _ _ Hinv).
  - apply (vi_fatal _ _ _ Hinv).
  - intros Hb Hio. rewrite Hmo' in Hio. rewrite Hs', Hu', (vi_order _ _ _ Hinv Hb Hio), <- !app_assoc. rewrite reverse_cons, map_app. cbn [map].
    do 2 f_equal. assert (id_of (<[c := x']> (vq_cmds (vs_vq s))) c = id) as ->.
    { unfold id_of. rewrite list_lookup_insert_eq by (by eapply lookup_lt_Some). done. }
    f_equal. apply map_ext_in. intros c' Hin. unfold id_of. rewrite list_lookup_insert_ne; [done|]. intros ->. apply Hni. apply elem_of_reverse. by apply list_elem_of_In.
Qed.

(** A chain that arrives: there is a command for it, and descriptors for what is taken from
    the header and for the first that has to be fetched. *)
Definition arrival_fits (s : sys) (hdr : snap_vq_header) : Prop :=
  admits s /\ free_cmds (vs_vq s) <> [] /\ h_descs hdr <> [] /\
  (length (copied (h_descs hdr)) <= length (free_descs (vs_vq s)))%nat /\
  (forall d, last (copied (h_descs hdr)) = Some d -> has_next d = true -> (length (copied (h_descs hdr)) < length (free_descs (vs_vq s)))%nat).

Lemma vq_start_ok b s hdr :
  good b s -> vq_state (vs_vq s) = SNAP_VQ_STATE_RUNNING -> arrival_fits s hdr ->
  post (snap_vq_cmd_start handle hdr) (fun _ s' => good b s' /\ vq_state (vs_vq s') = SNAP_VQ_STATE_RUNNING) s.
Proof.
  intros Hg Hrun (Hadm & Hfree & Hh & Hlen & Hroom). unfold snap_vq_cmd_start, snap_vq_cmd_get. apply post_assoc, post_gets.
  destruct (free_cmds (vs_vq s)) as [|c l] eqn:Hf; [done|]. apply post_assoc. unfold upd_vq at 1. apply post_modify, post_bind, post_return.
  assert (exists x, vq_cmds (vs_vq s) !! c = Some x) as [x Hx].
  { apply lookup_lt_is_Some_2. rewrite (vi_len _ _ _ (gd_inv _ _ Hg)). assert (c ∈ seq 0 n) as Hin by (rewrite <- (vi_lists _ _ _ (gd_inv _ _ Hg)), Hf; set_solver).
    apply elem_of_seq in Hin. lia. }
  eapply post_upd_cmd; [vrec; exact Hx|]. apply post_modify.
  match goal with |- post _ _ ?st => set (s1 := st) end.
  destruct (inv_start b s s1 c l x (desc_head_idx hdr)) as (Hinv1 & Hidle1 & Hde); try done; [apply Hg|].
  assert (good b s1) as Hg1.
  { split; [done| | |].
    - intros Hb c' y Hio Hla Hy. change (inflight_cmds (vs_vq s1)) with (c :: inflight_cmds (vs_vq s)) in Hla.
      destruct (decide (c' = c)) as [->|Hne]; [destruct Hidle1 as (Hy' & _ & ? & _); congruence|].
      destruct (inflight_cmds (vs_vq s)) as [|c1 l1] eqn:Hi; [cbn in Hla; congruence|]. rewrite last_cons_cons in Hla.
      apply (gd_settled _ _ Hg Hb c' y); [done|by rewrite Hi|]. unfold s1, set_cmd in Hy. vrec in *. by rewrite list_lookup_insert_ne in Hy.
    - by apply (client_start s s1 c); [apply Hg|..].
    - intros Hsu. change (vq_state (vs_vq s1)) with (vq_state (vs_vq s)) in Hsu. congruence. }
  eapply post_bind_mono; [by eapply copy_descs_ok|]. intros _ s2 ((Hg2 & Hst2 & Hm2 & Hsd2) & x2 & Hidle2 & Hd2 & Hl2).
  change (vc_descs (x ⦇ vc_id := desc_head_idx hdr ⦈ ⦇ vc_len := 0 ⦈)) with (vc_descs x) in Hd2. rewrite Hde in Hd2. cbn [app] in Hd2.
  destruct (copied_nonempty _ Hh) as [d Hd]. eapply post_mono; [eapply (process_ok b s2 c x2 d); [done|done|by rewrite Hd2|]|].
  - intros Hn. specialize (Hroom d Hd Hn). change (free_descs (vs_vq s1)) with (free_descs (vs_vq s)) in Hl2. destruct (free_descs (vs_vq s2)); [cbn in Hl2; lia|done].
  - intros _ s3 (Hg3 & Hst3 & _). split; [done|]. rewrite Hst3, Hst2. done.
Qed.

(** ** Work that ends *)

Definition op_bufs (op : dma_op R) : list (nat * R) := buf_ops [op].

Lemma buf_ops_cons op l : buf_ops (op :: l) = op_bufs op ++ buf_ops l.
Proof. unfold op_bufs, buf_ops. change (op :: l) with ([op] ++ l). by rewrite omap_app. Qed.

(** The oldest work of [c] is taken off the queue; [sm] is the state before [c] counts it. *)
Record popped (c : nat) (x xm : snap_vq_cmd CB) (op : dma_op R) (s sm : sys) : Prop := {
  po_dma : vs_dma s = op :: vs_dma sm;
  po_op : op_cmd op = Some c;
  po_x : vq_cmds (vs_vq s) !! c = Some x;
  po_client : touches (op_buf op) s sm;
  po_lists : (free_cmds (vs_vq sm), inflight_cmds (vs_vq sm), fatal_cmds (vs_vq sm), vq_in_order (vs_vq sm), vq_state (vs_vq sm), vs_started sm, vs_used sm) =
             (free_cmds (vs_vq s), inflight_cmds (vs_vq s), fatal_cmds (vs_vq s), vq_in_order (vs_vq s), vq_state (vs_vq s), vs_started s, vs_used s);
  po_pool : free_descs (vs_vq sm) = free_descs (vs_vq s);
  po_cmds : vq_cmds (vs_vq sm) = <[c := xm]> (vq_cmds (vs_vq s));
  po_len : length (vc_descs xm) = length (vc_descs x);
  po_xm : xm = x ⦇ vc_descs := vc_descs xm ⦈;
  po_same : op_buf op <> None -> vc_descs xm = vc_descs x;
}.

Lemma popped_inflight b c x xm op s sm : vq_inv b n s -> popped c x xm op s sm -> c ∈ inflight_cmds (vs_vq s) /\ pending_completion x = false.
Proof.
  intros Hinv Hp. destruct (vi_cmd _ _ _ Hinv c x (po_x _ _ _ _ _ _ Hp)) as [_ Hcnt Hid Hout _].
  assert (0 < comp_count x) as Hpos. { rewrite Hcnt, (po_dma _ _ _ _ _ _ Hp). cbn [n_ops]. rewrite decide_True by apply Hp. lia. }
  split; [destruct (decide (c ∈ inflight_cmds (vs_vq s))); [done|]|destruct (pending_completion x); [|done]]; exfalso; enough (comp_count x = 0) by lia; apply Hid; tauto.
Qed.

Lemma popped_inv b c x xm op s sm :
  vq_inv b n s -> calm b s -> popped c x xm op s sm ->
  vq_inv b n (set_cmd c (xm ⦇ comp_count := comp_count xm - 1 ⦈) sm) /\ calm b (set_cmd c (xm ⦇ comp_count := comp_count xm - 1 ⦈) sm).
Proof.
  intros Hinv Hs Hpo. destruct (popped_inflight b c x xm op s sm Hinv Hpo) as [Hin Hp]. destruct Hpo as [Hd Hop Hx (He & Hdom & Hmem & _) Hl Hpool Hc Hlen Hxm Hsame].
  injection Hl as Hf Hi Ha Hm Hvs Hst Hus. destruct (vi_cmd _ _ _ Hinv c x Hx) as [Hnum Hcnt Hid Hout Hops].
  pose proof (Hops op ltac:(rewrite Hd; set_solver) Hop) as Hok.
  assert (set_cmd c (xm ⦇ comp_count := comp_count xm - 1 ⦈) sm = sm ⦇ vs_vq := (vs_vq sm) ⦇ vq_cmds := <[c := x ⦇ vc_descs := vc_descs xm ⦈ ⦇ comp_count := comp_count x - 1 ⦈]> (vq_cmds (vs_vq s)) ⦈ ⦈) as ->.
  { unfold set_cmd. rewrite Hc, list_insert_insert_eq. do 2 f_equal. clear -Hxm. destruct x, xm. vrec in *. by injection Hxm as -> -> -> -> -> -> ->. }
  assert (frame s (sm ⦇ vs_vq := (vs_vq sm) ⦇ vq_cmds := <[c := x ⦇ vc_descs := vc_descs xm ⦈ ⦇ comp_count := comp_count x - 1 ⦈]> (vq_cmds (vs_vq s)) ⦈ ⦈)) as Hfr.
  { split; vrec; try done. rewrite Hus, Hd. f_equal. by destruct op. }
  rewrite Hd in Hcnt. cbn [n_ops] in Hcnt. rewrite decide_True in Hcnt by done. split.
  - apply (inv_change b n s _ c x (x ⦇ vc_descs := vc_descs xm ⦈ ⦇ comp_count := comp_count x - 1 ⦈)); vrec; try done.
    + rewrite Hpool. lia.
    + by rewrite Hnum, Hlen.
    + intros c' Hne. rewrite Hd. cbn [n_ops]. rewrite Hop, decide_False by congruence. done.
    + lia.
    + congruence.
    + intros op' Ho. destruct (decide (op_cmd op' = Some c)) as [Heq|Hne]; [|left; split; [rewrite Hd; set_solver|done]].
      right. split; [by left|]. eapply (frame_op _ _ _ _ Hfr). specialize (Hops op' ltac:(rewrite Hd; set_solver) Heq).
      destruct (op_buf op) as [b'|] eqn:Hob; [eapply (op_ok_eq _ _ x); [done|done|by apply Hsame|done]|].
      assert (vc_descs x <> [] -> vc_descs xm <> []) as Hne by (destruct (vc_descs xm); [cbn in Hlen; by destruct (vc_descs x)|done]).
      destruct op; try done; cbn [op_ok] in Hok. destruct Hok as [Hfn _]. destruct op'; cbn [op_ok] in *; vrec; try done; [|destruct Hops; congruence..].
      destruct Hops. by auto.
  - eapply (calm_cmd b s); [done|by vrec..|]. by vrec.
Qed.

(** A command that waits for data has a buffer on the DMA queue. *)
Lemma waiting_buf b s c x : vq_inv b n s -> vq_cmds (vs_vq s) !! c = Some x -> comp_func x = CF_dma_rw_done -> comp_count x <> 0 ->
  c ∈ map fst (buf_ops (vs_dma s)).
Proof.
  intros Hinv Hx Hf Hc. destruct (vi_cmd _ _ _ Hinv c x Hx) as [_ Hcnt _ _ Hops].
  destruct (n_ops_pos c (vs_dma s)) as (op & Hin & Hop); [lia|]. specialize (Hops op Hin Hop).
  assert (exists buf, op_bufs op = [(c, buf)]) as [buf Hb].
  { destruct op; cbn in Hop; try done; injection Hop as ->; cbn [op_ok] in Hops; [destruct Hops; congruence|by eexists..]. }
  apply list_elem_of_split in Hin as (l1 & l2 & ->). unfold buf_ops. rewrite omap_app, map_app. fold (buf_ops (op :: l2)). rewrite buf_ops_cons, Hb. set_solver.
Qed.

(** The callback that the last piece of work of a command leads to finds what it needs. *)
Definition completion_fits (c : nat) (status : Z) (s : sys) : Prop :=
  forall x cb, vq_cmds (vs_vq s) !! c = Some x -> comp_count x - 1 = 0 -> comp_func x = CF_dma_rw_done -> done_cb x = Some cb ->
    cb_fits cb c status (set_cmd c (x ⦇ comp_count := comp_count x - 1 ⦈) s).

Lemma dma_completion_ok b s sm c x xm op status :
  good b s -> popped c x xm op s sm -> (b = true -> status = IBV_WC_SUCCESS) ->
  (forall raddr, op = DFetch c raddr -> status = IBV_WC_SUCCESS -> forall d, last (vc_descs xm) = Some d -> has_next d = true -> free_descs (vs_vq s) <> []) ->
  completion_fits c status sm ->
  post (dma_completion handle run_cb c status) (fun _ s' => good b s' /\ vq_state (vs_vq s') = vq_state (vs_vq s)) sm.
Proof.
  intros Hg Hpo Hb Hroom Hfits. destruct Hg as [Hinv Hs Hcl Hsu]. destruct (popped_inv b c x xm op s sm Hinv Hs Hpo) as [Hinv1 Hs1].
  destruct (popped_inflight b c x xm op s sm Hinv Hpo) as [Hin Hp]. destruct (vi_cmd _ _ _ Hinv c x (po_x _ _ _ _ _ _ Hpo)) as [_ _ _ _ Hops].
  specialize (Hops op ltac:(rewrite (po_dma _ _ _ _ _ _ Hpo); set_solver) (po_op _ _ _ _ _ _ Hpo)).
  pose proof Hpo as [Hd Hop Hx Hsc Hl Hpool Hc Hlen Hxm Hsame]. injection Hl as Hf Hi Ha Hm Hvs Hst Hus.
  assert (vq_cmds (vs_vq sm) !! c = Some xm) as Hxm' by (rewrite Hc; apply list_lookup_insert_eq; by eapply lookup_lt_Some).
  unfold dma_completion. eapply post_upd_cmd; [exact Hxm'|]. eapply post_cmd; [by eapply lookup_set_cmd|]. vrec.
  set (s1 := set_cmd c _ sm) in *. assert (vq_cmds (vs_vq s1) !! c = Some (xm ⦇ comp_count := comp_count xm - 1 ⦈)) as Hx1 by (by eapply lookup_set_cmd). assert (vq_state (vs_vq s) <> SNAP_VQ_STATE_SUSPENDED) as Hrun by (intros Hv; rewrite (Hsu Hv) in Hin; set_solver).
  assert (touches (op_buf op) s s1) as Hsc1 by exact Hsc. assert (buf_ops (vs_dma s) = op_bufs op ++ buf_ops (vs_dma s1)) as Hbo by (rewrite Hd; apply buf_ops_cons).
  assert (comp_func xm = comp_func x) as Hcf by (by rewrite Hxm). assert (done_cb xm = done_cb x) as Hcb by (by rewrite Hxm).
  destruct (Z.eqb_spec (comp_count xm - 1) 0) as [Hz|Hnz].
  2:{ apply post_return. split; [|done]. split; [done|done| |intros Hv; exfalso; apply Hrun; by rewrite <- Hvs].
      destruct op; cbn in Hop; try done; injection Hop as ->.
      - by apply (client_stable s).
      - eapply (client_pop b s s1); [done|done|exact Hsc1|exact Hbo|]. by apply (waiting_buf b s1 c _ Hinv1 Hx1); [vrec; rewrite Hcf; apply Hops|vrec].
      - eapply (client_pop b s s1); [done|done|exact Hsc1|exact Hbo|]. by apply (waiting_buf b s1 c _ Hinv1 Hx1); [vrec; rewrite Hcf; apply Hops|vrec]. }
  assert (idle c (xm ⦇ comp_count := comp_count xm - 1 ⦈) s1) as Hidle.
  { split_and!; [done|unfold s1, set_cmd; vrec; by rewrite Hi|vrec; by rewrite Hxm|done]. }
  assert (forall buf, comp_func x = CF_dma_rw_done -> op_bufs op = [(c, buf)] -> buf_use (vs_mem s) x buf -> vc_descs x <> [] ->
    post (snap_vq_cmd_dma_rw_done run_cb c status) (fun _ s' => good b s' /\ vq_state (vs_vq s') = vq_state (vs_vq s)) s1) as Hdata.
  { intros buf Hrw Hbuf (cb & l0 & Hn & Hl0 & Hfor) Hde. rewrite Hbuf in Hbo. assert (op_buf op = Some buf) as Hob by (clear -Hbuf; unfold op_bufs, buf_ops in Hbuf; destruct op; cbn in *; congruence). rewrite Hob in Hsc1. unfold snap_vq_cmd_dma_rw_done. eapply post_cmd; [exact Hx1|]. vrec. rewrite Hcb, Hn.
    assert (vc_descs xm = vc_descs x) as Hdx by (apply Hsame; by rewrite Hob). assert (vc_descs xm <> []) as Hdm by (by rewrite Hdx).
    assert (buf_use (vs_mem s1) (xm ⦇ comp_count := comp_count xm - 1 ⦈) buf) as Huse.
    { destruct Hsc1 as (_ & _ & Hm1 & _). destruct (Hm1 buf l0 Hl0) as (l1 & Hl1 & Hlen1). exists cb, l1. vrec. by rewrite Hcb, Hdx, Hlen1. }
    eapply post_mono; [exact (run_cb_ok b s s1 c _ cb buf status Hinv1 Hs1 Hidle (eq_trans Hcb Hn) (Hfits xm cb Hxm' Hz (eq_trans Hcf Hrw) (eq_trans Hcb Hn)) Huse Hdm Hinv Hcl Hsc1 Hbo)|].
    intros _ s' (Hinv' & Hs' & Hcl' & Hvs' & _). split; [|by rewrite Hvs']. split; try done. rewrite Hvs'. intros Hv. exfalso. apply Hrun. by rewrite <- Hvs. }
  rewrite Hcf. destruct op as [c0 raddr|c0 buf off len raddr|c0 buf off len raddr| |]; cbn in Hop; try done; injection Hop as ->; cbn [op_ok] in Hops.
  - destruct Hops as [-> Hne]. unfold snap_vq_cmd_fetch_next_desc_done. destruct (Z.eqb_spec status IBV_WC_SUCCESS) as [Hok|Hbad].
    + assert (good b s1) as Hg1. { split; [done|done|by apply (client_stable s)|]. intros Hv. exfalso. apply Hrun. by rewrite <- Hvs. }
      destruct (last (vc_descs xm)) as [d|] eqn:Hla.
      2:{ exfalso. apply last_None in Hla. rewrite Hla in Hlen. cbn in Hlen. by destruct (vc_descs x). }
      eapply post_mono; [eapply (process_ok b s1 c _ d Hg1 Hidle); [done|]|].
      * intros Hn. unfold s1, set_cmd. vrec. rewrite Hpool. by apply (Hroom raddr eq_refl Hok d).
      * intros _ s' (Hg' & Hst' & _). split; [done|]. rewrite Hst'. exact Hvs.
    + assert (b = false) as -> by (destruct b; [by specialize (Hb eq_refl)|done]).
      eapply post_mono; [by eapply fatal_ok|]. intros _ s' (Hinv' & (He' & Hm' & Hst' & Hvs' & Hmo' & Hle' & _) & Hdma' & _). split; [|by rewrite Hvs'].
      split; [done| | |rewrite Hvs'; intros Hv; exfalso; apply Hrun; by rewrite <- Hvs].
      * done.
      * apply (client_stable s); [done| |by rewrite Hdma', Hbo]. unfold same_client, touches in *. cbn in Hsc1. rewrite He', Hm'. destruct Hsc1 as (? & ? & ? & ?). split_and!; try done. etransitivity; eassumption.
  - destruct Hops as (Hrw & Hn & Hde & _). rewrite Hrw. by apply (Hdata buf).
  - destruct Hops as (Hrw & Hn & Hde & _). rewrite Hrw. by apply (Hdata buf).
Qed.

(** Work that belongs to no command. *)
Lemma pop_other b s op l host' used' :
  good b s -> vs_dma s = op :: l -> op_cmd op = None -> (b = true -> map fst used' ++ sends l = map fst (vs_used s) ++ sends (vs_dma s)) ->
  good b (mk_vqs (vs_env s) (vs_vq s) (vs_mem s) l (vs_started s) host' used').
Proof.
  intros [Hinv Hs Hcl Hsu] Hd Hop Hu. assert (forall c, n_ops c (vs_dma s) = n_ops c l) as Hn by (intros c; rewrite Hd; cbn [n_ops]; by rewrite Hop).
  assert (forall op', op' ∈ l -> op' ∈ vs_dma s) as Hin by (intros; rewrite Hd; set_solver). split.
  - destruct Hinv as [Hlen Hli Hde Hfr Hcm Hops Hfa Hord]. split; vrec; try done.
    + intros c x Hx. destruct (Hcm c x Hx) as [H1 H2 H3 H4 H5]. split; try done; [by rewrite <- Hn|]. eauto.
    + eauto.
    + intros Hb Hio. by rewrite (Hord Hb Hio), app_assoc, <- (Hu Hb), <- app_assoc.
  - exact Hs.
  - apply (client_stable s); [done|by apply same_client_refl|]. vrec. rewrite Hd, buf_ops_cons. by destruct op.
  - exact Hsu.
Qed.

(** The next descriptor of a chain that is fetched finds a place. *)
Definition fetch_fits (s : sys) (host : Z -> Z) : Prop :=
  forall c raddr l, vs_dma s = DFetch c raddr :: l -> has_next (desc_at host raddr) = true -> free_descs (vs_vq s) <> [].

Lemma run_wr l off data len : 0 <= off -> Z.of_nat (length data) = len -> off + len <= Z.of_nat (length l) -> exists l', wr l off data = Ok l' /\ length l' = length l.
Proof.
  intros Ho Hl Hle. assert (exists l', wr l off data = Ok l') as [l' Hw].
  { unfold wr. rewrite (proj2 (Z.leb_le 0 off)), (proj2 (Z.leb_le (off + Z.of_nat (length data)) _)) by lia. cbn [andb]. eauto. }
  exists l'. split; [done|]. by eapply wr_length.
Qed.

Lemma run_rd l off len : 0 <= off -> off + len <= Z.of_nat (length l) -> exists d, rd l off len = Ok d.
Proof. intros Ho Hle. unfold rd. rewrite (proj2 (Z.leb_le 0 off)), (proj2 (Z.leb_le (off + len) _)) by lia. cbn [andb]. eauto. Qed.

(** Moving data, before the completion is handled. *)
Definition moved (status : Z) (host : Z -> Z) (op : dma_op R) : V unit :=
  m_when (status =? IBV_WC_SUCCESS)
    (match op with
     | DRead c buf off len raddr => store_mem buf off (map host (addr_seq raddr len))
     | DWrite c buf off len raddr =>
         let! data := load_mem buf off len in modify (fun s => s ⦇ vs_host := vs_host s ++ [(raddr, data)] ⦈)
     | _ => mreturn tt
     end).

Definition data_fits (status : Z) (host : Z -> Z) (s : sys) : Prop :=
  forall op l c sm, vs_dma s = op :: l -> op_cmd op = Some c -> is_Some (op_buf op) -> moved status host op (s ⦇ vs_dma := l ⦈) = Ok (sm, tt) -> completion_fits c status sm.

Lemma exec_tx_ok b s status host :
  good b s -> (b = true -> status = IBV_WC_SUCCESS) -> fetch_fits s host -> data_fits status host s ->
  post (exec_tx handle run_cb status host) (fun _ s' => good b s' /\ vq_state (vs_vq s') = vq_state (vs_vq s)) s.
Proof.
  intros Hg Hb Hroom Hdata. unfold exec_tx. apply post_gets. unfold id. destruct (vs_dma s) as [|op l] eqn:Hd; [by apply post_return|]. apply post_modify.
  assert (forall c, op_cmd op = Some c -> exists x, vq_cmds (vs_vq s) !! c = Some x /\ op_ok (vs_mem s) op x) as Hcmd.
  { intros c Hop. assert (op ∈ vs_dma s) as Hin by (rewrite Hd; set_solver). pose proof (vi_ops _ _ _ (gd_inv _ _ Hg) op c Hin Hop) as Hlt.
    destruct (lookup_lt_is_Some_2 (vq_cmds (vs_vq s)) c) as [x Hx]; [by rewrite (vi_len _ _ _ (gd_inv _ _ Hg))|].
    exists x. split; [done|]. by apply (vi_cmd _ _ _ (gd_inv _ _ Hg) c x Hx). }
  set (s1 := s ⦇ vs_dma := l ⦈).
  assert (forall c x, op_cmd op = Some c -> vq_cmds (vs_vq s) !! c = Some x -> popped c x x op s s1) as Hpop.
  { intros c x Hop Hx. split; try done; [by apply touches_refl|symmetry; by apply list_insert_id|by destruct x]. }
  assert (forall c, op_cmd op = Some c -> is_Some (op_buf op) -> status <> IBV_WC_SUCCESS -> completion_fits c status s1) as Hfail.
  { intros c Hop Hbuf Hst. apply (Hdata op l c s1 Hd Hop Hbuf). unfold moved. by rewrite (proj2 (Z.eqb_neq _ _) Hst). }
  destruct op as [c raddr|c buf off len raddr|c buf off len raddr|raddr data|id' len].
  - destruct (Hcmd c eq_refl) as (x & Hx & Hok). unfold m_when.
    assert (forall y, comp_func y = comp_func x -> completion_fits c status (set_cmd c y s1)) as Hfetch.
    { intros y Hy z cb Hz _ Hrw _. exfalso. erewrite lookup_set_cmd in Hz by exact Hx. destruct Hok as [Hok _]. congruence. }
    destruct (Z.eqb_spec status IBV_WC_SUCCESS) as [Hst|Hst].
    + eapply post_set_last; [exact Hx|apply Hok|].
      eapply (dma_completion_ok b s); [done| |done| |by apply Hfetch].
      * split; try done; [by apply same_client_refl|vrec]. rewrite length_app. cbn [length]. destruct Hok as [_ Hne].
        destruct (exists_last Hne) as (l0 & d0 & ->). rewrite removelast_last, length_app. done.
      * intros raddr' [= <-] _ d. vrec. rewrite last_snoc. intros [= <-] Hn. by apply (Hroom c raddr l).
    + apply post_bind, post_return. eapply (dma_completion_ok b s); [done|by apply Hpop|done|by intros raddr' _ Hok'|].
      intros z cb Hz _ Hrw _. exfalso. change (vq_cmds (vs_vq s1)) with (vq_cmds (vs_vq s)) in Hz. destruct Hok as [Hok _]. congruence.
  - destruct (Hcmd c eq_refl) as (x & Hx & Hok). destruct Hok as (_ & _ & _ & l0 & Hl0 & Ho & Hle & Hsz). unfold m_when.
    destruct (Z.eqb_spec status IBV_WC_SUCCESS) as [Hst|Hst].
    + unfold store_mem. apply post_assoc, post_gets. unfold id. change (vs_mem s1) with (vs_mem s). rewrite Hl0. apply post_assoc, post_bind, post_return.
      destruct (run_wr l0 off (map host (addr_seq raddr len)) len) as (l' & Hw & Hlen'); [done|by rewrite length_map, addr_seq_length|done|].
      apply post_assoc, post_bind. unfold post at 1, m_res. rewrite Hw. cbn [res_bind]. apply post_modify.
      eapply (dma_completion_ok b s _ c x x (DRead c buf off len raddr)); [done| |done|by intros ? ?|].
      2:{ apply (Hdata _ _ _ _ Hd eq_refl ltac:(by eexists)). unfold moved, store_mem, m_bind, gets, m_res, m_when. rewrite Hst. cbn. rewrite Hl0. cbn. by rewrite Hw. }
      split; vrec; try done; [|symmetry; by apply list_insert_id|by destruct x].
      split_and!; vrec; [done|intros b' Hb'; cbn in Hb'; rewrite lookup_insert_ne by congruence; done| |done]. intros b' l1 Hl1. destruct (decide (b' = buf)) as [->|Hne].
      * rewrite lookup_insert_eq. exists l'. split; [done|]. congruence.
      * rewrite lookup_insert_ne by done. eauto.
    + apply post_bind, post_return. eapply (dma_completion_ok b s); [done|by apply Hpop|done|by intros ? ?|by apply Hfail].
  - destruct (Hcmd c eq_refl) as (x & Hx & Hok). destruct Hok as (_ & _ & _ & l0 & Hl0 & Ho & Hle & Hsz). unfold m_when.
    destruct (Z.eqb_spec status IBV_WC_SUCCESS) as [Hst|Hst].
    + unfold load_mem. apply post_assoc, post_assoc, post_gets. unfold id. change (vs_mem s1) with (vs_mem s). rewrite Hl0. apply post_assoc, post_bind, post_return.
      destruct (run_rd l0 off len) as [data Hrd]; [done|done|].
      apply post_bind. unfold post at 1, m_res. rewrite Hrd. cbn [res_bind]. apply post_modify.
      eapply (dma_completion_ok b s _ c x x (DWrite c buf off len raddr)); [done| |done|by intros ? ?|].
      2:{ apply (Hdata _ _ _ _ Hd eq_refl ltac:(by eexists)). unfold moved, load_mem, m_bind, gets, m_res, m_when. rewrite Hst. cbn. rewrite Hl0. cbn. by rewrite Hrd. }
      split; vrec; try done; [by apply touches_refl|symmetry; by apply list_insert_id|by destruct x].
    + apply post_bind, post_return. eapply (dma_completion_ok b s); [done|by apply Hpop|done|by intros ? ?|by apply Hfail].
  - unfold m_when. destruct (status =? IBV_WC_SUCCESS); (split; [|done]); (eapply (pop_other b s); [done|exact Hd|done|]; intros _; by rewrite Hd).
  - unfold m_when. destruct (Z.eqb_spec status IBV_WC_SUCCESS) as [Hst|Hst]; (split; [|done]); (eapply (pop_other b s); [done|exact Hd|done|]); rewrite Hd; intros Hb'.
    + rewrite map_app, <- app_assoc. done.
    + by specialize (Hb Hb').
Qed.

(** * Runs *)

(** Room for the chains while work ends, and while commands arrive; data that the callbacks
    can work on. *)
Fixpoint tx_fits (l : list (Z * (Z -> Z))) (s : sys) : Prop :=
  match l with
  | [] => True
  | (status, host) :: l => fetch_fits s host /\ data_fits status host s /\ forall s', exec_tx handle run_cb status host s = Ok (s', tt) -> tx_fits l s'
  end.
Fixpoint rx_fits (l : list snap_vq_header) (s : sys) : Prop :=
  match l with
  | [] => True
  | hdr :: l => arrival_fits s hdr /\ forall s', snap_vq_cmd_start handle hdr s = Ok (s', tt) -> rx_fits l s'
  end.

(** The calls on a queue, with what the DMA queue brings to each poll. *)
Inductive vq_call := VqProgress (tx : list (Z * (Z -> Z))) (rx : list snap_vq_header) | VqSuspend | VqResume.

Definition run_vq (op : vq_call) : V unit :=
  match op with
  | VqProgress tx rx => do! snap_vq_progress handle run_cb tx rx in mreturn tt
  | VqSuspend => snap_vq_suspend
  | VqResume => snap_vq_resume
  end.

(** [b]: no work fails.  The host does not post more than the queue holds, and commands
    arrive while the queue runs. *)
Definition call_fits (b : bool) (op : vq_call) (s : sys) : Prop :=
  match op with
  | VqProgress tx rx =>
      (b = true -> Forall (fun e => fst e = IBV_WC_SUCCESS) tx) /\ tx_fits tx s /\
      (forall s1, progress_tx handle run_cb tx s = Ok (s1, tt) -> vq_state (vs_vq s1) = SNAP_VQ_STATE_RUNNING -> rx_fits rx s1)
  | _ => True
  end.

Inductive vq_step (b : bool) : sys -> sys -> Prop :=
| vq_step_call (k : vq_call) s s' : call_fits b k s -> run_vq k s = Ok (s', tt) -> vq_step b s s'.

Lemma progress_tx_ok b : forall l s, good b s -> (b = true -> Forall (fun e => fst e = IBV_WC_SUCCESS) l) -> tx_fits l s ->
  post (progress_tx handle run_cb l) (fun _ s' => good b s' /\ vq_state (vs_vq s') = vq_state (vs_vq s)) s.
Proof.
  induction l as [|[status host] l IH]; cbn [progress_tx tx_fits]; intros s Hg Hb Hf; [by apply post_return|]. destruct Hf as (Hf & Hda & Hr).
  pose proof (exec_tx_ok b s status host Hg ltac:(intros Ht; specialize (Hb Ht); by apply Forall_cons in Hb as [? _]) Hf Hda) as Hex.
  destruct (post_run _ _ _ Hex) as (s1 & [] & Hs1 & Hg1 & Hv1). apply post_bind. unfold post at 1. rewrite Hs1.
  eapply post_mono; [apply IH; [done|intros Ht; specialize (Hb Ht); by apply Forall_cons in Hb as [_ ?]|by apply Hr]|].
  intros _ s2 [Hg2 Hv2]. split; [done|congruence].
Qed.

Lemma progress_rx_ok b : forall l s, good b s -> vq_state (vs_vq s) = SNAP_VQ_STATE_RUNNING -> rx_fits l s ->
  post (progress_rx handle l) (fun _ s' => good b s' /\ vq_state (vs_vq s') = SNAP_VQ_STATE_RUNNING) s.
Proof.
  induction l as [|hdr l IH]; cbn [progress_rx rx_fits]; intros s Hg Hv Hf; [by apply post_return|]. destruct Hf as [Hf Hr].
  destruct (post_run _ _ _ (vq_start_ok b s hdr Hg Hv Hf)) as (s1 & [] & Hs1 & Hg1 & Hv1). apply post_bind. unfold post at 1. rewrite Hs1.
  apply IH; auto.
Qed.

Lemma good_state b s v : good b s -> (v = SNAP_VQ_STATE_SUSPENDED -> inflight_cmds (vs_vq s) = []) ->
  good b (s ⦇ vs_vq := (vs_vq s) ⦇ vq_state := v ⦈ ⦈).
Proof.
  intros [[] Hs Hcl Hsu] Hv. split; [by split|exact Hs| |exact Hv]. apply (client_stable s); [done|by apply same_client_refl|done].
Qed.

Lemma run_vq_ok b (k : vq_call) s : good b s -> call_fits b k s -> post (run_vq k) (fun _ => good b) s.
Proof.
  intros Hg Hf. destruct k as [tx rx| |]; cbn [run_vq call_fits] in *.
  - destruct Hf as (Hb & Htx & Hrx). unfold snap_vq_progress. apply post_assoc.
    destruct (post_run _ _ _ (progress_tx_ok b tx s Hg Hb Htx)) as (s1 & [] & Hs1 & Hg1 & Hv1). apply post_bind. unfold post at 1. rewrite Hs1.
    apply post_assoc, post_gets, post_assoc. eapply (post_bind_mono _ _ (fun _ => good b)).
    { unfold m_when. case_bool_decide as Hr; [|by apply post_return]. eapply post_mono; [apply (progress_rx_ok b); auto|]. by intros _ s2 [? _]. }
    intros [] s2 Hg2. apply post_assoc, post_gets, post_assoc. eapply (post_bind_mono _ _ (fun _ => good b)).
    { unfold m_when. case_bool_decide as Hv; cbn [andb]; [|by apply post_return]. case_bool_decide as Hi; [|by apply post_return].
      by apply good_state. }
    intros [] s3 Hg3. apply post_bind, post_return. by apply post_return.
  - by apply good_state.
  - by apply good_state.
Qed.

Lemma vq_steps_ok b s s' : good b s -> star (vq_step b) s s' -> good b s'.
Proof.
  intros Hg Hrun. induction Hrun as [|s1 s2 s3 Hstep _ IH]; [done|]. apply IH. destruct Hstep as [k s1 s2 Hf Hr].
  exact (run_post _ _ _ _ _ (run_vq_ok b k s1 Hg Hf) Hr).
Qed.

(** A queue that was just created. *)
Definition vq_new (in_order : bool) (s : sys) : Prop :=
  (exists a pa rec entries held used, snap_vq_create (CB := CB) a n pa in_order rec entries = (held, Some (vs_vq s, used))) /\
  vs_dma s = [] /\ vs_started s = [] /\ vs_used s = [] /\ Inv s.

Lemma cmds_create_all a : forall k i l, snap_vq_cmds_create a k i = (l, true) -> l = seq i k.
Proof.
  induction k as [|k IH]; intros i l; cbn [snap_vq_cmds_create seq]; [by intros [= <-]|]. destruct (va_cmd a i); [|done].
  destruct (snap_vq_cmds_create a k (S i)) as [l' ok] eqn:Hl. intros [= <- ->]. by rewrite (IH _ _ Hl).
Qed.

Lemma vq_create_idle a k pa in_order rec entries held (q : snap_vq CB) used :
  snap_vq_create a k pa in_order rec entries = (held, Some (q, used)) -> inflight_cmds q = [].
Proof.
  unfold snap_vq_create. destruct (va_dma_q a); cbn [negb]; [|done]. destruct (rec && negb (va_used_index a =? 0)); [done|].
  destruct (snap_vq_cmds_create a k 0) as [cmds []]; cbn [negb]; [|done]. destruct (va_buf a); cbn [negb]; [|done].
  destruct (snap_vq_hwq_create a) as [held' ret]. destruct (negb (ret =? 0)); [done|]. by intros [= _ <- _].
Qed.

Lemma vq_new_good b in_order s : vq_new in_order s -> good b s /\ vq_in_order (vs_vq s) = in_order.
Proof.
  intros ((a & pa & rec & entries & held & used & Hc) & Hd & Hst & Hu & Hcl). unfold snap_vq_create in Hc.
  destruct (va_dma_q a); cbn [negb] in Hc; [|done]. destruct (rec && negb (va_used_index a =? 0)); [done|].
  destruct (snap_vq_cmds_create a n 0) as [cmds ok] eqn:Hcm. destruct ok; cbn [negb] in Hc; [|done]. apply cmds_create_all in Hcm as ->.
  destruct (va_buf a); cbn [negb] in Hc; [|done]. destruct (snap_vq_hwq_create a) as [held' ret]. destruct (negb (ret =? 0)); [done|].
  injection Hc as _ Hq _. split; [|by rewrite <- Hq]. split.
  - assert (forall c x, vq_cmds (vs_vq s) !! c = Some x -> x = new_cmd) as Hnew.
    { intros c x. rewrite <- Hq. vrec. by intros [-> _]%lookup_replicate. }
    split; rewrite <- ?Hq; vrec.
    + by rewrite length_replicate.
    + by rewrite !app_nil_r.
    + rewrite length_reverse, length_map, length_seq. unfold n_descs. rewrite <- (Nat.add_0_r n) at 3. f_equal. generalize n. clear. intros k. induction k as [|k IH]; [done|]. cbn. exact IH.
    + intros c x Hx _. by rewrite (Hnew c x) by (by rewrite <- Hq).
    + intros c x Hx. rewrite (Hnew c x) by (by rewrite <- Hq). rewrite Hd. split; try done. intros op ?%elem_of_nil. done.
    + rewrite Hd. intros op c ?%elem_of_nil. done.
    + done.
    + intros _ _. by rewrite Hst, Hu, Hd.
  - intros _ c x _. by rewrite <- Hq.
  - done.
  - by rewrite <- Hq.
Qed.

(** * Theorems *)

Lemma all_ended b s : vq_inv b n s -> inflight_cmds (vs_vq s) = [] -> Forall (fun op => op_cmd op = None) (vs_dma s).
Proof.
  intros Hinv Hi. apply Forall_forall. intros op Hin. destruct (op_cmd op) as [c|] eqn:Hc; [|done]. exfalso.
  destruct (lookup_lt_is_Some_2 (vq_cmds (vs_vq s)) c) as [x Hx]; [rewrite (vi_len _ _ _ Hinv); by eapply (vi_ops _ _ _ Hinv)|].
  destruct (vi_cmd _ _ _ Hinv c x Hx) as [_ Hcnt Hid _ _]. pose proof (n_ops_elem c _ op Hin Hc). assert (comp_count x = 0); [|lia]. apply Hid. left. rewrite Hi. set_solver.
Qed.

(** C9: The generic virtqueue, when the DMA queue accepts every post, the host sends no
    more commands than the queue holds, with chains that fit in the pool of descriptors and
    data that the callbacks of the protocol can work on, and the protocol satisfies
    [VqClient]: in every state a created queue reaches, the three lists share out the
    commands, the pool and the commands share out the descriptors, every command waits for
    exactly the work it has on the DMA queue, and a suspended queue has no command in
    flight and no work of one; while no work fails there are no failed commands, and a
    queue that completes in order gives the device the completions in the order in which
    the commands started, none lost and none twice.  (A refused post is counted all the
    same, snap_vq.c:243.) *)
Theorem vq_reachable b in_order s s' :
  vq_new in_order s -> star (vq_step b) s s' ->
  free_cmds (vs_vq s') ++ inflight_cmds (vs_vq s') ++ fatal_cmds (vs_vq s') ≡ₚ seq 0 n /\
  (length (free_descs (vs_vq s')) + n_descs (vq_cmds (vs_vq s')) = n)%nat /\
  (forall c x, vq_cmds (vs_vq s') !! c = Some x -> comp_count x = Z.of_nat (n_ops c (vs_dma s'))) /\
  (vq_state (vs_vq s') = SNAP_VQ_STATE_SUSPENDED -> inflight_cmds (vs_vq s') = [] /\ Forall (fun op => op_cmd op = None) (vs_dma s')) /\
  (b = true -> fatal_cmds (vs_vq s') = [] /\
    (vq_in_order (vs_vq s') = true ->
     vs_started s' = map fst (vs_used s') ++ sends (vs_dma s') ++ map (id_of (vq_cmds (vs_vq s'))) (reverse (inflight_cmds (vs_vq s'))))).
Proof.
  intros Hnew Hrun. destruct (vq_steps_ok b s s' (proj1 (vq_new_good b in_order s Hnew)) Hrun) as [Hinv _ _ Hsu]. split_and!; [apply Hinv..| | |].
  - intros c x Hx. by apply (vi_cmd _ _ _ Hinv c x Hx).
  - intros Hs. specialize (Hsu Hs). split; [done|]. by apply (all_ended b).
  - intros Hb. split; [by apply Hinv|]. by apply Hinv.
Qed.

Lemma vq_call_ok b in_order s s' (k : vq_call) : vq_new in_order s -> star (vq_step b) s s' -> call_fits b k s' ->
  exists s2, run_vq k s' = Ok (s2, tt) /\ good b s2.
Proof.
  intros Hnew Hrun Hfits. pose proof (vq_steps_ok b s s' (proj1 (vq_new_good b in_order s Hnew)) Hrun) as Hg.
  destruct (post_run _ _ _ (run_vq_ok b k s' Hg Hfits)) as (s2 & [] & Hs2 & Hg2). eauto.
Qed.

End Client.
