(* ===== verification/VqAdm.v ===== *)
(** The admin virtqueue: src/ctrl/snap_vq_adm.c, with the layouts of
    src/ctrl/snap_virtio_adm_spec.h.

    A command is read in two steps, its header and then the input that the header calls
    for, and is then given to the controller ([adm_process_fn]), which ends it with one of
    the [..._complete] functions: the output and the status are written to the descriptors
    of the host, and the queue is told.  The layout of the header and of the status depends
    on the version of the specification the queue was created for. *)

From stdpp Require Import gmap.
From S2P Require Import Prelude Effects Bytes BlkDescs Vq VqInv VqProps.

(** * Constants *)

Definition SNAP_VQ_ADM_MIG_CTRL : Z := 64.
Definition SNAP_VQ_ADM_MIG_GET_STATUS : Z := 1.
Definition SNAP_VQ_ADM_MIG_MODIFY_STATUS : Z := 2.
Definition SNAP_VQ_ADM_MIG_GET_STATE_PENDING_BYTES : Z := 3.
Definition SNAP_VQ_ADM_MIG_SAVE_STATE : Z := 4.
Definition SNAP_VQ_ADM_MIG_RESTORE_STATE : Z := 5.
Definition SNAP_VQ_ADM_DP_TRACK_CTRL : Z := 65.
Definition SNAP_VQ_ADM_DP_START_TRACK : Z := 1.
Definition SNAP_VQ_ADM_DP_STOP_TRACK : Z := 2.
Definition SNAP_VQ_ADM_DP_GET_MAP_PENDING_BYTES : Z := 3.
Definition SNAP_VQ_ADM_DP_REPORT_MAP : Z := 4.

Definition SNAP_VIRTIO_ADMIN_CMD_LIST_QUERY : Z := 0.
Definition SNAP_VIRTIO_ADMIN_CMD_LIST_USE : Z := 1.
Definition SNAP_VIRTIO_ADMIN_GROUP_TYPE_SRIOV : Z := 1.

(** [enum snap_virtio_adm_status] *)
Definition SNAP_VIRTIO_ADM_STATUS_OK : Z := 0.
Definition SNAP_VIRTIO_ADM_STATUS_ERR : Z := 1.
Definition SNAP_VIRTIO_ADM_STATUS_INVALID_CLASS : Z := 2.
Definition SNAP_VIRTIO_ADM_STATUS_INVALID_COMMAND : Z := 3.
Definition SNAP_VIRTIO_ADM_STATUS_DATA_TRANSFER_ERR : Z := 4.
Definition SNAP_VIRTIO_ADM_STATUS_DEVICE_INTERNAL_ERR : Z := 5.
Definition SNAP_VIRTIO_ADM_STATUS_DNR : Z := 128.
Definition SNAP_VIRTIO_ADMIN_STATUS_EAGAIN : Z := 11.
Definition SNAP_VIRTIO_ADMIN_STATUS_ENOMEM : Z := 12.
Definition SNAP_VIRTIO_ADMIN_STATUS_EINVAL : Z := 22.

(** [enum snap_virtio_adm_status_qualifier] *)
Definition STATUS_Q_OK : Z := 0.
Definition STATUS_Q_INVALID_COMMAND : Z := 1.
Definition STATUS_Q_INVALID_OPCODE : Z := 2.
Definition STATUS_Q_INVALID_FIELD : Z := 3.
Definition STATUS_Q_INVALID_GROUP : Z := 4.
Definition STATUS_Q_INVALID_MEMBER : Z := 5.
Definition STATUS_Q_NORESOURCE : Z := 6.
Definition STATUS_Q_TRYAGAIN : Z := 7.

(** * Layout

    [struct snap_virtio_adm_cmd_layout]: header, input, output and footer. *)

Definition hdr_off : Z := 0.
Definition in_off : Z := 24.
Definition out_off : Z := 536.
Definition ftr_off : Z := 1048.
Definition sizeof_layout : Z := 1056.

Definition sizeof_hdr (v1_3 : bool) : Z := if v1_3 then 24 else 2.
Definition sizeof_ftr (v1_3 : bool) : Z := if v1_3 then 8 else 1.

(** Local buffers: the array of layouts and the buffers of the commands, which are named
    by the callback they serve and a number. *)
Inductive vbuf (K : Type) := Layouts | LmBuf (j : K) (k : nat).
Arguments Layouts {K}. Arguments LmBuf {K}.
#[export] Instance vbuf_eq_dec `{EqDecision K} : EqDecision (vbuf K).
Proof. solve_decision. Defined.
#[export] Instance vbuf_countable `{Countable K} : Countable (vbuf K).
Proof.
  apply (inj_countable' (fun b => match b with Layouts => None | LmBuf j k => Some (j, k) end)
           (fun o => match o with None => Layouts | Some (j, k) => LmBuf j k end)).
  by intros [].
Defined.

(** The callbacks of a command; [K] are those of the controller. *)
Inductive adm_cb (K : Type) := CbReadHdr | CbReadCmdIn | CbClient (k : K).
Arguments CbReadHdr {K}. Arguments CbReadCmdIn {K}. Arguments CbClient {K}.

(** The layouts serve the queue, the other buffers the controller; [lm_size] is the size of
    the buffer a callback of the controller works on, when it depends on the descriptors. *)
Class LmSize (K : Type) := lm_size : K -> list vring_desc -> nat -> Prop.
#[export] Instance adm_buf_for K `{!LmSize K} : BufFor (adm_cb K) (vbuf K) :=
  fun cb ds b size => match cb, b with
                      | CbClient k, LmBuf j _ => j = k /\ lm_size k ds size
                      | CbClient _, Layouts => False
                      | _, Layouts => True
                      | _, _ => False
                      end.

(** ** Lengths *)

(** [snap_vaq_cmd_in_get_len_v1_2] of the class and the command of the header. *)
Definition snap_vaq_cmd_in_get_len_v1_2 (cmd_class command : Z) : Z :=
  if cmd_class =? SNAP_VQ_ADM_MIG_CTRL then
    if command =? SNAP_VQ_ADM_MIG_GET_STATUS then 4
    else if command =? SNAP_VQ_ADM_MIG_MODIFY_STATUS then 4
    else if command =? SNAP_VQ_ADM_MIG_GET_STATE_PENDING_BYTES then 4
    else if command =? SNAP_VQ_ADM_MIG_SAVE_STATE then 24
    else if command =? SNAP_VQ_ADM_MIG_RESTORE_STATE then 24
    else 0
  else if cmd_class =? SNAP_VQ_ADM_DP_TRACK_CTRL then
    if command =? SNAP_VQ_ADM_DP_START_TRACK then 24
    else if command =? SNAP_VQ_ADM_DP_STOP_TRACK then 16
    else 0
  else 0.

Definition snap_vaq_cmd_out_get_len_v1_2 (cmd_class command : Z) : Z :=
  if cmd_class =? SNAP_VQ_ADM_MIG_CTRL then
    if command =? SNAP_VQ_ADM_MIG_GET_STATUS then 4
    else if command =? SNAP_VQ_ADM_MIG_GET_STATE_PENDING_BYTES then 8
    else 0
  else 0.

(** Of the opcode and the group type. *)
Definition snap_vaq_cmd_in_get_len_v1_3 (opcode group_type : Z) : Z :=
  if (opcode =? SNAP_VIRTIO_ADMIN_CMD_LIST_USE) && (group_type =? SNAP_VIRTIO_ADMIN_GROUP_TYPE_SRIOV) then 512 else 0.
Definition snap_vaq_cmd_out_get_len_v1_3 (opcode group_type : Z) : Z :=
  if (opcode =? SNAP_VIRTIO_ADMIN_CMD_LIST_QUERY) && (group_type =? SNAP_VIRTIO_ADMIN_GROUP_TYPE_SRIOV) then 512 else 0.

(** ** Status *)

Definition snap_vaq_cmd_get_status_v1_2 (q : Z) : Z :=
  if q =? STATUS_Q_OK then SNAP_VIRTIO_ADM_STATUS_OK
  else if q =? STATUS_Q_TRYAGAIN then SNAP_VIRTIO_ADM_STATUS_ERR
  else if q =? STATUS_Q_NORESOURCE then SNAP_VIRTIO_ADM_STATUS_DEVICE_INTERNAL_ERR
  else if q =? STATUS_Q_INVALID_COMMAND then SNAP_VIRTIO_ADM_STATUS_INVALID_COMMAND
  else if q =? STATUS_Q_INVALID_OPCODE then SNAP_VIRTIO_ADM_STATUS_INVALID_COMMAND
  else if q =? STATUS_Q_INVALID_FIELD then SNAP_VIRTIO_ADM_STATUS_INVALID_CLASS
  else if (q =? STATUS_Q_INVALID_GROUP) || (q =? STATUS_Q_INVALID_MEMBER) then SNAP_VIRTIO_ADM_STATUS_INVALID_CLASS
  else SNAP_VIRTIO_ADM_STATUS_ERR.

Definition snap_vaq_cmd_get_status_v1_3 (q : Z) : Z :=
  if q =? STATUS_Q_OK then SNAP_VIRTIO_ADM_STATUS_OK
  else if q =? STATUS_Q_TRYAGAIN then SNAP_VIRTIO_ADMIN_STATUS_EAGAIN
  else if q =? STATUS_Q_NORESOURCE then SNAP_VIRTIO_ADMIN_STATUS_ENOMEM
  else SNAP_VIRTIO_ADMIN_STATUS_EINVAL.

Section Adm.
Context {W K : Type} `{Countable K} `{!DmaPost W}.
#[local] Abbreviation V := (M (vqs W (vbuf K) (adm_cb K))).
(** The version of the specification ([cmd_ops] of the queue). *)
Context (v1_3 : bool).

(** The layout of a command. *)
Definition layout (c : nat) : Z := Z.of_nat c * sizeof_layout.
Definition layout_read (c : nat) (off len : Z) : V (list Z) := load_mem Layouts (layout c + off) len.
Definition layout_write (c : nat) (off : Z) (data : list Z) : V unit := store_mem Layouts (layout c + off) data.
(** A field of [n] bytes. *)
Definition layout_num (c : nat) (off : Z) (n : nat) : V Z :=
  let! l := layout_read c off (Z.of_nat n) in mreturn (uwrap (8 * Z.of_nat n) (unle l)).

Definition snap_vaq_cmd_in_get_len (c : nat) : V Z :=
  if v1_3 then let! a := layout_num c 0 2 in let! b := layout_num c 2 2 in mreturn (snap_vaq_cmd_in_get_len_v1_3 a b)
  else let! a := layout_num c 0 1 in let! b := layout_num c 1 1 in mreturn (snap_vaq_cmd_in_get_len_v1_2 a b).
Definition snap_vaq_cmd_out_get_len (c : nat) : V Z :=
  if v1_3 then let! a := layout_num c 0 2 in let! b := layout_num c 2 2 in mreturn (snap_vaq_cmd_out_get_len_v1_3 a b)
  else let! a := layout_num c 0 1 in let! b := layout_num c 1 1 in mreturn (snap_vaq_cmd_out_get_len_v1_2 a b).

(** [snap_vq_cmd_get_descs] *)
Definition descs_of (c : nat) : V (list vring_desc) := let! x := cmd c in mreturn (vc_descs x).

Definition snap_vaq_cmd_get_total_len (c : nat) : V Z := let! l := descs_of c in mreturn (u64 (sumZ (map d_len l))).

(** ** Data of the controller *)

(** The chain from the descriptor that is [off] bytes after its start, and the rest of [off]. *)
Fixpoint skip_descs (l : list vring_desc) (off : Z) : list vring_desc * Z :=
  match l with
  | [] => ([], off)
  | d :: rest => if off <? d_len d then (l, off) else skip_descs rest (u64 (off - d_len d))
  end.

Definition snap_vaq_cmd_layout_data_read (c : nat) (total_len : Z) (buf : vbuf K) (loff : Z) (cb : adm_cb K) (layout_offset : Z) : V Z :=
  let! l := descs_of c in
  let '(descs, off) := skip_descs l layout_offset in
  snap_vq_cmd_descs_rw c descs off buf loff total_len cb false.

(** The chain from the first descriptor the device may write. *)
Fixpoint writable (l : list vring_desc) : list vring_desc :=
  match l with [] => [] | d :: rest => if has_flag (d_flags d) VRING_DESC_F_WRITE then l else writable rest end.

Definition snap_vaq_cmd_layout_data_write (c : nat) (total_len : Z) (buf : vbuf K) (cb : adm_cb K) : V Z :=
  let! l := descs_of c in
  snap_vq_cmd_descs_rw c (writable l) 0 buf 0 total_len cb true.

(** ** Completion *)

Definition snap_vaq_cmd_wb_get_desc (l : list vring_desc) : V (list vring_desc) :=
  if v1_3 then match writable l with [] => undefined | _ :: rest => mreturn rest end else mreturn (writable l).

(** [snap_dma_q_write_short] *)
Definition write_short (raddr : Z) (data : list Z) : V Z := post_dma (DShort raddr data).

Fixpoint wb_out_loop (descs : list vring_desc) (c : nat) (laddr out_len : Z) : V Z :=
  match descs with
  | [] => mreturn out_len
  | d :: rest =>
      if 0 <? out_len then
        let len := snap_min out_len (u32 (d_len d)) in
        let! data := layout_read c laddr len in
        let! ret := write_short (d_addr d) data in
        if negb (ret =? 0) then mreturn ret
        else
          do! upd_cmd c (fun x => x ⦇ vc_len := u32 (vc_len x + len) ⦈) in
          wb_out_loop rest c (laddr + len) (out_len - len)
      else mreturn out_len
  end.

Definition snap_vaq_cmd_wb_cmd_out (c : nat) : V Z :=
  let! out_len := snap_vaq_cmd_out_get_len c in
  if out_len =? 0 then mreturn 0
  else
    let! l := descs_of c in
    let! descs := snap_vaq_cmd_wb_get_desc l in
    wb_out_loop descs c out_off out_len.

Definition wb_ftr_at (c : nat) (d : vring_desc) : V Z :=
  let raddr := u64 (d_addr d + d_len d - sizeof_ftr v1_3) in
  let! data := layout_read c ftr_off (sizeof_ftr v1_3) in
  let! ret := write_short raddr data in
  if negb (ret =? 0) then mreturn ret
  else do! upd_cmd c (fun x => x ⦇ vc_len := u32 (vc_len x + sizeof_ftr v1_3) ⦈) in mreturn 0.

Definition snap_vaq_cmd_wb_ftr (c : nat) : V Z :=
  let! l := descs_of c in
  let! d := m_opt undefined (if v1_3 then head (writable l) else last l) in
  wb_ftr_at c d.

(** The status after the output was written back, or with the bit that says not to retry. *)
Definition with_out (c : nat) (status : Z) (dnr : bool) : V Z :=
  if status =? SNAP_VIRTIO_ADM_STATUS_OK then
    let! ret := snap_vaq_cmd_wb_cmd_out c in
    mreturn (if negb (ret =? 0) then Z.lor SNAP_VIRTIO_ADM_STATUS_ERR SNAP_VIRTIO_ADM_STATUS_DNR else status)
  else mreturn (if dnr then Z.lor status SNAP_VIRTIO_ADM_STATUS_DNR else status).

Definition snap_vaq_cmd_complete_ftr_v1_2 (c : nat) (status : Z) (dnr : bool) : V unit :=
  let! status := with_out c status dnr in
  do! layout_write c ftr_off (le 1 status) in
  let! ret := snap_vaq_cmd_wb_ftr c in
  if negb (ret =? 0) then snap_vq_cmd_fatal c else snap_vq_cmd_complete c.

(** The status is written before the output. *)
Definition snap_vaq_cmd_complete_ftr_v1_3 (c : nat) (status qualifier : Z) (dnr : bool) : V unit :=
  do! layout_write c ftr_off (le 2 status ++ le 2 qualifier) in
  let! ret := snap_vaq_cmd_wb_ftr c in
  if negb (ret =? 0) then snap_vq_cmd_fatal c
  else do! with_out c status dnr in snap_vq_cmd_complete c.

Definition snap_vaq_cmd_complete_int (c : nat) (status : Z) (dnr : bool) : V unit :=
  let! status := with_out c status dnr in
  do! layout_write c ftr_off (le 1 status) in
  let! ret := snap_vaq_cmd_wb_ftr c in
  if negb (ret =? 0) then snap_vq_cmd_fatal c else snap_vq_cmd_complete c.

Definition snap_vaq_cmd_complete (c : nat) (status : Z) : V unit := snap_vaq_cmd_complete_int c status true.
Definition snap_vaq_cmd_complete_no_dnr (c : nat) (status : Z) : V unit := snap_vaq_cmd_complete_int c status false.

Definition complete_qualified (c : nat) (q : Z) (dnr : bool) : V unit :=
  if v1_3 then snap_vaq_cmd_complete_ftr_v1_3 c (snap_vaq_cmd_get_status_v1_3 q) q dnr
  else snap_vaq_cmd_complete_ftr_v1_2 c (snap_vaq_cmd_get_status_v1_2 q) dnr.
Definition snap_adm_cmd_complete (c : nat) (q : Z) : V unit := complete_qualified c q true.
Definition snap_adm_cmd_complete_no_dnr (c : nat) (q : Z) : V unit := complete_qualified c q false.

(** ** Reading a command *)

Section Process.
(** The controller. *)
Context (adm_process_fn : nat -> V unit) (client_cb : K -> nat -> Z -> V unit).

Definition snap_vq_adm_read_cmd_in_done (c : nat) (status : Z) : V unit :=
  if negb (status =? IBV_WC_SUCCESS) then snap_adm_cmd_complete c STATUS_Q_TRYAGAIN else adm_process_fn c.

Definition snap_vaq_cmd_read_cmd_in (c : nat) : V Z :=
  let! in_len := snap_vaq_cmd_in_get_len c in
  if in_len =? 0 then do! snap_vq_adm_read_cmd_in_done c IBV_WC_SUCCESS in mreturn 0
  else snap_vaq_cmd_layout_data_read c in_len Layouts (layout c + in_off) CbReadCmdIn (sizeof_hdr v1_3).

Definition snap_vq_adm_read_hdr_done (c : nat) (status : Z) : V unit :=
  if negb (status =? IBV_WC_SUCCESS) then snap_adm_cmd_complete c STATUS_Q_TRYAGAIN
  else
    let! ret := snap_vaq_cmd_read_cmd_in c in
    if negb (ret =? 0) then snap_adm_cmd_complete c STATUS_Q_TRYAGAIN else mreturn tt.

Definition snap_vaq_cmd_read_hdr (c : nat) : V Z :=
  let! l := descs_of c in
  snap_vq_cmd_descs_rw c l 0 Layouts (layout c + hdr_off) (sizeof_hdr v1_3) CbReadHdr false.

Definition snap_vq_adm_handle_cmd (c : nat) : V unit :=
  let! ret := snap_vaq_cmd_read_hdr c in
  if negb (ret =? 0) then snap_adm_cmd_complete c STATUS_Q_TRYAGAIN else mreturn tt.

Definition adm_run_cb (cb : adm_cb K) (c : nat) (status : Z) : V unit :=
  match cb with
  | CbReadHdr => snap_vq_adm_read_hdr_done c status
  | CbReadCmdIn => snap_vq_adm_read_cmd_in_done c status
  | CbClient k => client_cb k c status
  end.

End Process.
End Adm.
