(* ===== verification/VqAdmProps.v ===== *)
(** The admin virtqueue of VqAdm.v keeps the invariant of the queue, for the version of the
    specification the block controller uses.

    [AdmClient] is what the queue relies on: the function of the controller and its
    callbacks, called for a command that waits for nothing, leave a state in which the
    invariants hold.  [adm_vq_client] shows that the queue then satisfies what Vq.v relies
    on. *)

From stdpp Require Import gmap.
From S2P Require Import Prelude Effects Bytes BlkDescs Vq VqInv VqProps VqAdm.

Section Adm.
Context {W K : Type} `{Countable K} `{!LmSize K} `{!DmaPost W} `{!DmaWorks (W := W)}.
#[local] Abbreviation sys := (vqs W (vbuf K) (adm_cb K)).
#[local] Abbreviation V := (M sys).
Implicit Types (s : sys) (x : snap_vq_cmd (adm_cb K)) (op : dma_op (vbuf K)).
Context (n : nat).

(** * Working on a command *)

(** The array of layouts has room for every command. *)
Definition layouts_ok (s : sys) : Prop := exists l, vs_mem s !! Layouts = Some l /\ Z.of_nat (length l) = Z.of_nat n * sizeof_layout.

Lemma layouts_same o s s' : layouts_ok s -> touches o s s' -> layouts_ok s'.
Proof. intros (l & Hl & Hn) (_ & _ & Hm & _). destruct (Hm _ _ Hl) as (l' & Hl' & Hlen). exists l'. split; [done|lia]. Qed.

Lemma touches_trans o s1 s2 s3 : touches o s1 s2 -> touches o s2 s3 -> touches o s1 s3.
Proof.
  intros (E1 & D1 & M1 & L1) (E2 & D2 & M2 & L2). split_and!; [congruence|intros b Hb; by rewrite D2, D1| |etransitivity; eassumption]. intros b l Hl. destruct (M1 b l Hl) as (l1 & Hl1 & Hn1).
  destruct (M2 b l1 Hl1) as (l2 & Hl2 & Hn2). exists l2. split; [done|congruence].
Qed.

(** [s'] is reached from [s] while [c] is worked on: nothing was posted but short writes. *)
Record at_work (b : bool) (c : nat) (ds : list vring_desc) (s s' : sys) : Prop := {
  aw_inv : vq_inv b n s';
  aw_calm : calm b s';
  aw_idle : exists x, idle c x s' /\ vc_descs x = ds;
  aw_same : touches (Some Layouts) s s';
  aw_bufs : buf_ops (vs_dma s') = buf_ops (vs_dma s);
  aw_state : vq_state (vs_vq s') = vq_state (vs_vq s);
  aw_mode : vq_in_order (vs_vq s') = vq_in_order (vs_vq s);
  aw_started : vs_started s' = vs_started s;
}.

Lemma at_work_refl b c x s : vq_inv b n s -> calm b s -> idle c x s -> at_work b c (vc_descs x) s s.
Proof. intros Hinv Hc Hi. split; try done; [by exists x|]. by apply touches_refl. Qed.

Lemma at_work_lt b c ds s s' : at_work b c ds s s' -> (c < n)%nat.
Proof. intros Ha. destruct (aw_idle _ _ _ _ _ Ha) as (x & (Hx & _) & _). apply lookup_lt_Some in Hx. by rewrite (vi_len _ _ _ (aw_inv _ _ _ _ _ Ha)) in Hx. Qed.

Lemma at_work_layouts b c ds s s' : layouts_ok s -> at_work b c ds s s' -> layouts_ok s'.
Proof. intros Hl Ha. eapply layouts_same; [exact Hl|apply Ha]. Qed.

(** A short write is posted. *)
Lemma work_short b c ds s s' raddr data : at_work b c ds s s' -> at_work b c ds s (posted (DShort raddr data) s').
Proof.
  intros [[Hlen Hli Hde Hfr Hcm Hops Hfa Hord] Hcl Hid Hsc Hbo Hst Hmo Hsd]. split; try done.
  - split; unfold posted; vrec; try done.
    + intros c' y Hy. destruct (Hcm c' y Hy) as [H1 H2 H3 H4 H5]. split; try done.
      * rewrite n_ops_app. cbn [n_ops op_cmd]. rewrite decide_False by done. lia.
      * intros op [?|Heq%list_elem_of_singleton]%elem_of_app; [eauto|by subst].
    + intros op c' [?|Heq%list_elem_of_singleton]%elem_of_app; [eauto|by subst].
    + intros Hb Hio. rewrite sends_app. cbn [sends]. rewrite app_nil_r. auto.
  - unfold posted. vrec. rewrite <- Hbo. unfold buf_ops. rewrite omap_app. cbn. by rewrite app_nil_r.
Qed.

(** The number of bytes written changes. *)
Lemma work_len {B} b c ds s s' (f : snap_vq_cmd (adm_cb K) -> Z) (k : unit -> V B) P :
  at_work b c ds s s' -> (forall s1, at_work b c ds s s1 -> post (k tt) P s1) ->
  post (m_bind (upd_cmd c (fun x => x ⦇ vc_len := f x ⦈)) k) P s'.
Proof.
  intros Ha Hk. destruct (aw_idle _ _ _ _ _ Ha) as (x & Hidle & Hds). pose proof Hidle as (Hx & Hin & Hp & Hc).
  eapply post_upd_cmd; [exact Hx|]. apply Hk. destruct Ha as [Hinv Hcl _ Hsc Hbo Hst Hmo Hsd].
  destruct (vi_cmd _ _ _ Hinv c x Hx) as [Hnum _ _ _ _].
  destruct (inv_idle_change n b s' (set_cmd c (x ⦇ vc_len := f x ⦈) s') c x (x ⦇ vc_len := f x ⦈)) as [Hinv' Hid']; try done.
  split; try done; [|by eexists]. eapply (calm_cmd b s'); [done|done|done|reflexivity|done].
Qed.

(** ** The layout *)

Lemma run_layout_read c s off len : layouts_ok s -> (c < n)%nat -> 0 <= off -> 0 <= len -> off + len <= sizeof_layout ->
  exists d, layout_read c off len s = Ok (s, d).
Proof.
  intros (l & Hl & Hn) Hc Ho Hle Hb. unfold layout_read, load_mem, m_bind, gets, id. cbn [res_bind]. rewrite Hl. cbn [m_opt mreturn res_bind].
  destruct (run_rd l (layout c + off) len) as [d Hd]; [unfold layout, sizeof_layout; lia|unfold layout, sizeof_layout in *; nia|].
  exists d. unfold m_res. by rewrite Hd.
Qed.

Lemma post_layout_read {B} c s off len (k : list Z -> V B) P :
  layouts_ok s -> (c < n)%nat -> 0 <= off -> 0 <= len -> off + len <= sizeof_layout ->
  (forall d, post (k d) P s) -> post (m_bind (layout_read c off len) k) P s.
Proof. intros Hl Hc Ho Hle Hb Hk. destruct (run_layout_read c s off len) as [d Hd]; try done. unfold post, m_bind. rewrite Hd. apply Hk. Qed.

Lemma post_layout_num {B} c s off m (k : Z -> V B) P :
  layouts_ok s -> (c < n)%nat -> 0 <= off -> off + Z.of_nat m <= sizeof_layout ->
  (forall d, post (k d) P s) -> post (m_bind (layout_num c off m) k) P s.
Proof. intros Hl Hc Ho Hb Hk. unfold layout_num. apply post_assoc, post_layout_read; try done; [lia|]. intros d. apply post_bind, post_return, Hk. Qed.

(** Storing in a buffer keeps its size. *)
Lemma store_same b s s' off l data l' : vs_mem s !! b = Some l -> length l' = length l ->
  s' = s ⦇ vs_mem := <[b := l']> (vs_mem s) ⦈ -> wr l off data = Ok l' -> touches (Some b) s s'.
Proof.
  intros Hl Hn -> _. split_and!; vrec; [done|intros b' Hb'; by rewrite lookup_insert_ne by congruence| |done]. intros b' m Hm. destruct (decide (b' = b)) as [->|Hne].
  - rewrite lookup_insert_eq. exists l'. split; [done|congruence].
  - rewrite lookup_insert_ne by done. eauto.
Qed.

Lemma inv_mem b o s s' : vq_inv b n s -> touches o s s' -> vs_vq s' = vs_vq s -> vs_dma s' = vs_dma s -> vs_started s' = vs_started s -> vs_used s' = vs_used s ->
  vq_inv b n s'.
Proof.
  intros [Hlen Hli Hde Hfr Hcm Hops Hfa Hord] (_ & Hdom & Hmem & _) Hq Hd Hs Hu. split; rewrite ?Hq, ?Hd, ?Hs, ?Hu; try done.
  intros c y Hy. destruct (Hcm c y Hy) as [H1 H2 H3 H4 H5]. split; try done. intros op Ho Hoc. eapply (frame_op s); [|by apply H5].
  split; rewrite ?Hq, ?Hd, ?Hs, ?Hu; done.
Qed.

Lemma work_layout_write {B} b c ds s s' off data (k : unit -> V B) P :
  at_work b c ds s s' -> layouts_ok s' -> 0 <= off -> off + Z.of_nat (length data) <= sizeof_layout ->
  (forall s1, at_work b c ds s s1 -> post (k tt) P s1) -> post (m_bind (layout_write c off data) k) P s'.
Proof.
  intros Ha Hlo Ho Hb Hk. pose proof (at_work_lt _ _ _ _ _ Ha) as Hc. pose proof Hlo as (l & Hl & Hn). unfold layout_write, store_mem. apply post_assoc, post_gets.
  unfold id. rewrite Hl. apply post_assoc, post_bind, post_return.
  destruct (run_wr l (layout c + off) data (Z.of_nat (length data))) as (l' & Hw & Hlen'); [unfold layout, sizeof_layout; lia|done|unfold layout, sizeof_layout in *; nia|].
  apply post_assoc, post_bind. unfold post at 1, m_res. rewrite Hw. cbn [res_bind]. apply post_modify.
  assert (touches (Some Layouts) s' (s' ⦇ vs_mem := <[Layouts := l']> (vs_mem s') ⦈)) as Hsame by (by eapply store_same).
  apply Hk. destruct Ha as [Hinv Hcl Hid Hsc Hbo Hst Hmo Hsd].
  split; try done; [by eapply inv_mem|by eapply touches_trans].
Qed.

(** * Completion *)

(** The output is within the layout, whatever the header says. *)
Lemma out_len_bound a b' : 0 <= snap_vaq_cmd_out_get_len_v1_2 a b' <= 8.
Proof. unfold snap_vaq_cmd_out_get_len_v1_2. repeat case_match; lia. Qed.
Lemma in_len_bound a b' : 0 <= snap_vaq_cmd_in_get_len_v1_2 a b' <= 24.
Proof. unfold snap_vaq_cmd_in_get_len_v1_2. repeat case_match; lia. Qed.

Lemma wb_out_loop_ok b c ds s : layouts_ok s -> forall descs laddr out_len s1,
  at_work b c ds s s1 -> 0 <= laddr -> 0 <= out_len -> laddr + out_len <= sizeof_layout ->
  post (wb_out_loop descs c laddr out_len) (fun _ => at_work b c ds s) s1.
Proof.
  intros Hlo. induction descs as [|d descs IH]; intros laddr out_len s1 Ha H1 H2 H3; cbn [wb_out_loop]; [by apply post_return|].
  destruct (Z.ltb_spec 0 out_len) as [Ho|Ho]; [|by apply post_return].
  assert (0 <= snap_min out_len (u32 (d_len d)) <= out_len) as Hmin.
  { unfold snap_min, u32, uwrap. pose proof (Z.mod_pos_bound (d_len d) (2 ^ 32) ltac:(lia)). destruct (Z.ltb_spec out_len (d_len d mod 2 ^ 32)); lia. }
  apply post_layout_read; [by eapply at_work_layouts|by eapply at_work_lt|done|lia|lia|]. intros data. unfold write_short. apply post_post_dma. cbn [Z.eqb negb].
  eapply work_len; [by apply work_short|]. intros s2 Ha2. apply IH; [done|lia..].
Qed.

(** Reading the descriptors of the command that is worked on. *)
Lemma work_descs {B} b c ds s s' (k : list vring_desc -> V B) P :
  at_work b c ds s s' -> post (k ds) P s' -> post (m_bind (descs_of c) k) P s'.
Proof.
  intros Ha Hk. destruct (aw_idle _ _ _ _ _ Ha) as (x & (Hx & _) & <-). unfold descs_of. apply post_assoc. eapply post_cmd; [exact Hx|].
  by apply post_bind, post_return.
Qed.

Lemma with_out_ok b c ds s s1 status dnr : layouts_ok s -> at_work b c ds s s1 ->
  post (with_out false c status dnr) (fun _ => at_work b c ds s) s1.
Proof.
  intros Hlo Ha. pose proof (at_work_lt _ _ _ _ _ Ha) as Hc. pose proof (at_work_layouts _ _ _ _ _ Hlo Ha) as Hlo1.
  unfold with_out. destruct (status =? SNAP_VIRTIO_ADM_STATUS_OK); [|by apply post_return].
  eapply (post_bind_mono _ _ (fun _ => at_work b c ds s)); [|intros ret s2 Ha2; by apply post_return].
  unfold snap_vaq_cmd_wb_cmd_out, snap_vaq_cmd_out_get_len. apply post_assoc, post_layout_num; [done|done|lia|unfold sizeof_layout; lia|]. intros cl.
  apply post_assoc, post_layout_num; [done|done|lia|unfold sizeof_layout; lia|]. intros co. apply post_bind, post_return.
  pose proof (out_len_bound cl co) as Hlen. destruct (Z.eqb_spec (snap_vaq_cmd_out_get_len_v1_2 cl co) 0) as [_|Hnz]; [by apply post_return|].
  eapply work_descs; [exact Ha|]. unfold snap_vaq_cmd_wb_get_desc. apply post_bind, post_return.
  apply wb_out_loop_ok; [done|done|unfold out_off; lia|lia|unfold out_off, sizeof_layout; lia].
Qed.

Lemma wb_ftr_ok b c ds s s1 : layouts_ok s -> at_work b c ds s s1 -> ds <> [] ->
  post (snap_vaq_cmd_wb_ftr false c) (fun ret s2 => ret = 0 /\ at_work b c ds s s2) s1.
Proof.
  intros Hlo Ha Hds. pose proof (at_work_lt _ _ _ _ _ Ha) as Hc. pose proof (at_work_layouts _ _ _ _ _ Hlo Ha) as Hlo1.
  unfold snap_vaq_cmd_wb_ftr. eapply work_descs; [exact Ha|]. destruct (last ds) as [d|] eqn:Hla; [|by apply last_None in Hla].
  apply post_bind, post_return. unfold wb_ftr_at. apply post_layout_read; [done|done|unfold ftr_off; lia|unfold sizeof_ftr; lia|unfold ftr_off, sizeof_ftr, sizeof_layout; lia|]. intros data.
  unfold write_short. apply post_post_dma. cbn [Z.eqb negb]. eapply work_len; [by apply work_short|]. intros s2 Ha2. by apply post_return.
Qed.

(** What is left when the command has been ended. *)
Record ended (b : bool) (c : nat) (s s' : sys) : Prop := {
  en_inv : vq_inv b n s';
  en_calm : calm b s';
  en_same : touches (Some Layouts) s s';
  en_bufs : buf_ops (vs_dma s') = buf_ops (vs_dma s);
  en_state : vq_state (vs_vq s') = vq_state (vs_vq s);
  en_mode : vq_in_order (vs_vq s') = vq_in_order (vs_vq s);
  en_started : vs_started s' = vs_started s;
}.

Lemma buf_ops_none l : Forall (fun op => op_cmd op = None) l -> buf_ops (R := vbuf K) l = [].
Proof. induction 1 as [|op l Hop _ IH]; [done|]. rewrite buf_ops_cons, IH. by destruct op. Qed.

Lemma complete_int_ok b c ds s s1 status dnr : layouts_ok s -> at_work b c ds s s1 -> ds <> [] ->
  post (snap_vaq_cmd_complete_int false c status dnr) (fun _ => ended b c s) s1.
Proof.
  intros Hlo Ha Hds. unfold snap_vaq_cmd_complete_int. eapply post_bind_mono; [by apply (with_out_ok b c ds s)|]. intros st s2 Ha2.
  eapply work_layout_write; [exact Ha2|exact (at_work_layouts _ _ _ _ _ Hlo Ha2)|done|rewrite le_length; unfold ftr_off, sizeof_layout; lia|]. intros s3 Ha3.
  eapply post_bind_mono; [by eapply (wb_ftr_ok b c ds s)|]. intros ret s4 [-> Ha4]. cbn [Z.eqb negb].
  destruct (aw_idle _ _ _ _ _ Ha4) as (x & Hidle & _). destruct Ha4 as [Hinv Hcl _ Hsc Hbo Hst Hmo Hsd].
  eapply post_mono; [by eapply complete_ok|]. intros _ s5 (Hinv5 & (He & Hm & Hs5 & Hv5 & Hm5 & Hle5 & l & Hd5 & Hl5) & Hse & _). split; try congruence.
  - by intros _.
  - eapply touches_trans; [exact Hsc|]. unfold touches. rewrite He, Hm. split_and!; try done. eauto.
  - rewrite Hd5, <- Hbo. unfold buf_ops at 1. rewrite omap_app. fold (buf_ops (R := vbuf K) l). by rewrite buf_ops_none, app_nil_r.
Qed.

(** * The queue as a protocol *)

Section Process.
Context (adm_process_fn : nat -> V unit) (client_cb : K -> nat -> Z -> V unit).
(** What a callback of the controller needs of the data that arrived. *)
Context (client_fits : K -> nat -> Z -> sys -> Prop).
Definition adm_cb_fits (cb : adm_cb K) (c : nat) (status : Z) (s : sys) : Prop :=
  match cb with CbClient k => client_fits k c status s | _ => True end.

(** The buffers of the controller that are in use. *)
Definition lm_ops (s : sys) : list (nat * vbuf K) := base.filter (fun p => snd p <> Layouts) (buf_ops (vs_dma s)).

(** [PInv]: the invariant of the controller. *)
Definition after (PInv : sys -> Prop) (b : bool) (s s' : sys) : Prop :=
  vq_inv b n s' /\ calm b s' /\ layouts_ok s' /\ PInv s' /\ vq_state (vs_vq s') = vq_state (vs_vq s) /\
  vq_in_order (vs_vq s') = vq_in_order (vs_vq s) /\ vs_started s' = vs_started s.

Class AdmClient (admits PInv : sys -> Prop) : Prop := {
  pinv_stable s s' : PInv s -> same_client s s' -> lm_ops s' = lm_ops s -> PInv s';
  pinv_start s s' c : PInv s -> admits s -> vs_env s' = vs_env s -> vs_mem s' = vs_mem s -> vs_dma s' = vs_dma s ->
    inflight_cmds (vs_vq s') = c :: inflight_cmds (vs_vq s) -> PInv s';
  pinv_layouts b s s' : vq_inv b n s -> PInv s -> touches (Some Layouts) s s' -> lm_ops s' = lm_ops s ->
    (exists c x, idle c x s) \/ (exists c, (c, Layouts) ∈ buf_ops (vs_dma s)) -> PInv s';
  pinv_pop s s' c b : PInv s -> touches (Some b) s s' -> lm_ops s = (c, b) :: lm_ops s' -> PInv s';
  process_fn_ok b s c x : vq_inv b n s -> calm b s -> layouts_ok s -> PInv s -> idle c x s -> vc_descs x <> [] ->
    post (adm_process_fn c) (fun _ => after PInv b s) s;
  client_cb_ok b s0 s c x k buf status : vq_inv b n s -> calm b s -> layouts_ok s -> idle c x s -> vc_descs x <> [] ->
    done_cb x = Some (CbClient k) -> PInv s0 -> touches (Some (LmBuf k buf)) s0 s -> lm_ops s0 = (c, LmBuf k buf) :: lm_ops s ->
    (exists l, vs_mem s !! LmBuf k buf = Some l /\ lm_size k (vc_descs x) (length l)) -> client_fits k c status s ->
    post (client_cb k c status) (fun _ => after PInv b s) s;
}.

Context (admits PInv : sys -> Prop) `{!AdmClient admits PInv}.

Lemma ended_after b c x s s' : layouts_ok s -> vq_inv b n s -> idle c x s -> PInv s -> ended b c s s' -> after PInv b s s'.
Proof.
  intros Hlo Hi Hidle Hp [Hinv Hcl Hsc Hbo Hst Hmo Hsd]. split_and!; try done; [by eapply layouts_same|].
  apply (pinv_layouts b s); [done|done|done|unfold lm_ops; by rewrite Hbo|left; eauto].
Qed.

Lemma adm_complete_ok b c x s status dnr : vq_inv b n s -> calm b s -> layouts_ok s -> idle c x s -> vc_descs x <> [] ->
  post (snap_vaq_cmd_complete_int false c status dnr) (fun _ => ended b c s) s.
Proof. intros Hinv Hcl Hlo Hidle Hds. apply (complete_int_ok b c (vc_descs x)); [done| |done]. by apply at_work_refl. Qed.

Lemma lm_ops_layouts s s' l c : vs_dma s' = vs_dma s ++ l -> Forall (fun op => op_cmd op = Some c /\ op_buf op = Some Layouts) l -> lm_ops s' = lm_ops s.
Proof.
  intros Hd Hl. unfold lm_ops. rewrite Hd. unfold buf_ops. rewrite omap_app, filter_app. fold (buf_ops (R := vbuf K) l).
  assert (base.filter (fun p => snd p <> Layouts) (buf_ops l) = []) as ->; [|by rewrite app_nil_r].
  clear Hd. induction Hl as [|op l [Hc Hb] _ IH]; [done|]. rewrite buf_ops_cons, filter_app, IH, app_nil_r.
  destruct op; cbn in Hb; try done; injection Hb as ->; done.
Qed.

(** Reading into the layout of a command. *)
Lemma read_layout_ok b c x s descs off loff total cb :
  vq_inv b n s -> calm b s -> layouts_ok s -> PInv s -> idle c x s -> vc_descs x <> [] -> cb = CbReadHdr \/ cb = CbReadCmdIn ->
  0 <= loff -> 0 <= total -> loff + total <= sizeof_layout ->
  post (snap_vq_cmd_descs_rw c descs off Layouts (layout c + loff) total cb false) (fun ret s' => ret = 0 /\ after PInv b s s') s.
Proof.
  intros Hinv Hcl Hlo Hp Hidle Hds Hfor H1 H2 H3. pose proof Hlo as (l & Hl & Hn). pose proof Hidle as (Hx & _ & _ & _).
  assert (c < n)%nat as Hc by (apply lookup_lt_Some in Hx; by rewrite (vi_len _ _ _ Hinv) in Hx).
  eapply post_mono; [eapply (descs_rw_ok b n s c x); try done|].
  - exists l. split; [done|]. by destruct Hfor as [-> | ->].
  - exists l. unfold layout, sizeof_layout in *. split_and!; [done|lia|lia|nia].
  - intros ret s' (-> & Hinv' & [He Hm Hi Hmo Hst Hsd] & (l' & Hd & Hall & _) & x' & Hcm & Hp' & _). split; [done|].
    assert (same_client s s') as Hsc by (by apply same_client_refl).
    split_and!; try done; [by eapply (calm_cmd b s)|by eapply layouts_same|]. apply (pinv_stable s); [done|done|]. by eapply lm_ops_layouts.
Qed.

Lemma read_cmd_in_done_ok b c x s status : vq_inv b n s -> calm b s -> layouts_ok s -> PInv s -> idle c x s -> vc_descs x <> [] ->
  post (snap_vq_adm_read_cmd_in_done false adm_process_fn c status) (fun _ => after PInv b s) s.
Proof.
  intros Hinv Hcl Hlo Hp Hidle Hds. unfold snap_vq_adm_read_cmd_in_done. destruct (negb (status =? IBV_WC_SUCCESS)); [|by eapply process_fn_ok].
  eapply post_mono; [by eapply (adm_complete_ok b c x s)|]. intros [] s'. by apply (ended_after b c x).
Qed.

Lemma read_hdr_done_ok b c x s status : vq_inv b n s -> calm b s -> layouts_ok s -> PInv s -> idle c x s -> vc_descs x <> [] ->
  post (snap_vq_adm_read_hdr_done false adm_process_fn c status) (fun _ => after PInv b s) s.
Proof.
  intros Hinv Hcl Hlo Hp Hidle Hds. pose proof Hidle as (Hx & _ & _ & _).
  assert (c < n)%nat as Hc by (apply lookup_lt_Some in Hx; by rewrite (vi_len _ _ _ Hinv) in Hx).
  unfold snap_vq_adm_read_hdr_done. destruct (negb (status =? IBV_WC_SUCCESS)).
  { eapply post_mono; [by eapply (adm_complete_ok b c x s)|]. intros [] s'. by apply (ended_after b c x). }
  eapply (post_bind_mono _ _ (fun ret s' => ret = 0 /\ after PInv b s s')); [|intros ret s' [-> Ha]; by apply post_return].
  unfold snap_vaq_cmd_read_cmd_in, snap_vaq_cmd_in_get_len. apply post_assoc, post_layout_num; [done|done|lia|unfold sizeof_layout; lia|]. intros cl.
  apply post_assoc, post_layout_num; [done|done|lia|unfold sizeof_layout; lia|]. intros co. apply post_bind, post_return.
  pose proof (in_len_bound cl co) as Hlen. destruct (Z.eqb_spec (snap_vaq_cmd_in_get_len_v1_2 cl co) 0) as [_|Hnz].
  - eapply post_bind_mono; [by eapply read_cmd_in_done_ok|]. intros [] s' Ha. by apply post_return.
  - unfold snap_vaq_cmd_layout_data_read, descs_of. apply post_assoc. eapply post_cmd; [exact Hx|]. apply post_bind, post_return.
    destruct (skip_descs (vc_descs x) (sizeof_hdr false)) as [descs off]. eapply read_layout_ok; try done; [by right|unfold in_off, sizeof_layout; lia..].
Qed.

Lemma handle_cmd_ok b c x s : vq_inv b n s -> calm b s -> layouts_ok s -> PInv s -> idle c x s -> vc_descs x <> [] ->
  post (snap_vq_adm_handle_cmd false c) (fun _ => after PInv b s) s.
Proof.
  intros Hinv Hcl Hlo Hp Hidle Hds. pose proof Hidle as (Hx & _ & _ & _). unfold snap_vq_adm_handle_cmd.
  eapply (post_bind_mono _ _ (fun ret s' => ret = 0 /\ after PInv b s s')); [|intros ret s' [-> Ha]; by apply post_return].
  unfold snap_vaq_cmd_read_hdr, descs_of. apply post_assoc. eapply post_cmd; [exact Hx|]. apply post_bind, post_return.
  eapply read_layout_ok; try done. by left.
Qed.

#[export] Instance adm_vq_client :
  VqClient (snap_vq_adm_handle_cmd false) (adm_run_cb false adm_process_fn client_cb) adm_cb_fits n admits (fun s => layouts_ok s /\ PInv s).
Proof.
  assert (forall f s s' c, vq_inv f n s -> PInv s -> touches (Some Layouts) s s' -> buf_ops (vs_dma s) = (c, Layouts) :: buf_ops (vs_dma s') -> PInv s') as Hlay.
  { intros f s s' c Hinv Hp Hto Hbo. apply (pinv_layouts f s); [done|done|done| |right; exists c; rewrite Hbo; set_solver].
    unfold lm_ops. rewrite Hbo, filter_cons_False; [done|cbn; tauto]. }
  split.
  - intros s s' [Hlo Hp] Hsc Hbo. split; [by eapply layouts_same|]. apply (pinv_stable s); [done|done|]. unfold lm_ops. by rewrite Hbo.
  - intros s s' c [Hlo Hp] Had He Hm Hd Hi. split; [by destruct Hlo as (l & ? & ?); exists l; rewrite Hm|by eapply (pinv_start s s' c)].
  - intros f s s' c b Hinv [Hlo Hp] Hsc Hbo Hin. split; [by eapply layouts_same|]. destruct (decide (b = Layouts)) as [->|Hne]; [by eapply Hlay|].
    apply (pinv_pop s s' c b); [done|done|]. unfold lm_ops. by rewrite Hbo, filter_cons_True.
  - intros b s c x Hinv Hcl [Hlo Hp] Hidle Hds. eapply post_mono; [by eapply handle_cmd_ok|]. intros _ s' (? & ? & ? & ? & ? & ? & ?). by split_and!.
  - intros b s0 s c x cb buf status Hinv Hcl Hidle Hcb Hfits (cb' & l0 & Hcb' & Hl0 & Hfor) Hds Hinv0 [Hlo0 Hp0] Hsc Hbo. rewrite Hcb in Hcb'. injection Hcb' as <-. pose proof (layouts_same _ _ _ Hlo0 Hsc) as Hlo.
    assert (post (adm_run_cb false adm_process_fn client_cb cb c status) (fun _ => after PInv b s) s) as Hpost.
    { destruct cb as [| |k], buf as [|j buf]; try done; cbn [adm_run_cb].
      - eapply read_hdr_done_ok; try done. by eapply Hlay.
      - eapply read_cmd_in_done_ok; try done. by eapply Hlay.
      - destruct Hfor as [-> Hsz]. eapply (client_cb_ok b s0 s c x k buf); try done; [unfold lm_ops; by rewrite Hbo, filter_cons_True|eauto]. }
    eapply post_mono; [exact Hpost|]. intros _ s' (? & ? & ? & ? & ? & ? & ?). by split_and!.
Qed.

End Process.
End Adm.
