(* ===== verification/VqData.v ===== *)
(** Moving data between a descriptor chain and a local buffer: what the loops of
    [snap_vq_cmd_descs_rw], [snap_vaq_cmd_layout_data_read] and
    [snap_vaq_cmd_layout_data_write] post, against the copy of consecutive bytes they stand
    for. *)

From stdpp Require Import gmap.
From S2P Require Import Prelude Effects Bytes BlkDescs Vq VqInv VqProps VqAdm.

(** * The copy

    The bytes of the host a chain consists of, in order. *)
Definition chain_addrs (ds : list vring_desc) : list Z := concat (map (fun d => addr_seq (d_addr d) (d_len d)) ds).

(** Places in a local buffer. *)
Definition offsets (off n : Z) : list Z := map (fun k => off + Z.of_nat k) (seq 0 (Z.to_nat n)).

(** The [total] bytes of the chain after the first [skip], each with its place from [loff] on. *)
Definition copy_plan (ds : list vring_desc) (skip loff total : Z) : list (Z * Z) :=
  zip (take (Z.to_nat total) (drop (Z.to_nat skip) (chain_addrs ds))) (offsets loff total).

(** What a piece of work copies. *)
Definition op_plan {R} (op : dma_op R) : list (Z * Z) :=
  match op with DRead _ _ off len raddr | DWrite _ _ off len raddr => zip (addr_seq raddr len) (offsets off len) | _ => [] end.

Lemma offsets_split off n k : 0 <= k <= n -> offsets off n = offsets off k ++ offsets (off + k) (n - k).
Proof.
  intros Hk. unfold offsets. replace (Z.to_nat n) with (Z.to_nat k + Z.to_nat (n - k))%nat by lia. rewrite seq_app, map_app. f_equal.
  rewrite <- (Nat.add_0_r (Z.to_nat k)) at 1. replace (0 + (Z.to_nat k + 0))%nat with (Z.to_nat k + 0)%nat by lia. rewrite <- fmap_add_seq, map_map.
  apply map_ext. intros i. lia.
Qed.

Lemma offsets_length off n : 0 <= n -> Z.of_nat (length (offsets off n)) = n.
Proof. intros Hn. unfold offsets. rewrite length_map, length_seq. lia. Qed.

Lemma zip_app_eq (a1 a2 b1 b2 : list Z) : length a1 = length b1 -> zip (a1 ++ a2) (b1 ++ b2) = zip a1 b1 ++ zip a2 b2.
Proof. intros Hl. by apply zip_with_app. Qed.

Definition len_ok (d : vring_desc) : Prop := 0 <= d_len d < 2 ^ 32.

(** One descriptor of a plan. *)
Lemma plan_cons d ds skip loff total : len_ok d -> 0 <= skip <= d_len d -> 0 <= total ->
  let len := Z.min total (d_len d - skip) in
  copy_plan (d :: ds) skip loff total = zip (addr_seq (d_addr d + skip) len) (offsets loff len) ++ copy_plan ds 0 (loff + len) (total - len).
Proof.
  intros Hd Hs Ht len. unfold copy_plan, chain_addrs. cbn [map concat]. set (r := concat _). rewrite (addr_seq_split (d_addr d) (d_len d) skip) by done.
  pose proof (addr_seq_length (d_addr d) skip ltac:(lia)) as H1. pose proof (addr_seq_length (d_addr d + skip) (d_len d - skip) ltac:(lia)) as H2.
  rewrite <- app_assoc, drop_app_length' by lia. rewrite (offsets_split loff total len) by lia. rewrite take_app.
  assert (take (Z.to_nat total) (addr_seq (d_addr d + skip) (d_len d - skip)) = addr_seq (d_addr d + skip) len) as ->.
  { destruct (Z.min_spec total (d_len d - skip)) as [[? Hm]|[? Hm]]; unfold len; rewrite Hm.
    - rewrite (addr_seq_split _ (d_len d - skip) total) by lia. pose proof (addr_seq_length (d_addr d + skip) total ltac:(lia)). by rewrite take_app_length' by lia.
    - apply take_ge. lia. }
  pose proof (addr_seq_length (d_addr d + skip) len ltac:(lia)). pose proof (offsets_length loff len ltac:(lia)).
  rewrite zip_app_eq by lia. do 2 f_equal. rewrite drop_0. f_equal. lia.
Qed.

Lemma plan_zero ds skip loff total : total <= 0 -> copy_plan ds skip loff total = [].
Proof. intros Ht. unfold copy_plan, offsets. by replace (Z.to_nat total) with 0%nat by lia. Qed.

Section Data.
Context {W R CB : Type} `{Countable R} `{!DmaPost W} `{!DmaWorks (W := W)}.
#[local] Abbreviation V := (M (vqs W R CB)).
#[local] Abbreviation sys := (vqs W R CB).
Implicit Types (s : sys) (x : snap_vq_cmd CB) (op : dma_op R).

(** The work of a transfer, in the direction [write]. *)
Definition op_of (c : nat) (buf : R) (write : bool) (op : dma_op R) : Prop :=
  match op with DRead c' b _ _ _ => c' = c /\ b = buf /\ write = false | DWrite c' b _ _ _ => c' = c /\ b = buf /\ write = true | _ => False end.

(** [plan] is posted for [c], and a write adds its size to the length the command reports. *)
Definition moves (c : nat) (buf : R) (write : bool) (plan : list (Z * Z)) (x : snap_vq_cmd CB) (s s' : sys) : Prop :=
  exists ops x', vs_dma s' = vs_dma s ++ ops /\ Forall (op_of c buf write) ops /\ concat (map op_plan ops) = plan /\
    vq_cmds (vs_vq s') !! c = Some x' /\ comp_count x' = comp_count x + Z.of_nat (length ops) /\
    u32 (vc_len x') = u32 (vc_len x + if write then Z.of_nat (length plan) else 0).

Lemma rw_loop_moves c buf write : forall descs off laddr total s x,
  vq_cmds (vs_vq s) !! c = Some x -> Forall len_ok descs -> (forall d, head descs = Some d -> 0 <= off <= d_len d) ->
  post (descs_rw_loop descs c off buf laddr total write) (fun ret s' => ret = 0 /\ moves c buf write (copy_plan descs off laddr total) x s s') s.
Proof.
  induction descs as [|d descs IH]; intros off laddr total s x Hx Hl Hoff; cbn [descs_rw_loop].
  { apply post_return. split; [done|]. exists [], x. rewrite app_nil_r. unfold copy_plan, chain_addrs. cbn. rewrite drop_nil, take_nil. cbn.
    split_and!; try done; [lia|]. by destruct write; rewrite Z.add_0_r. }
  destruct (Z.ltb_spec 0 total) as [Ht|Ht].
  2:{ apply post_return. split; [done|]. exists [], x. rewrite app_nil_r, plan_zero by done. split_and!; try done; [cbn; lia|]. by destruct write; rewrite Z.add_0_r. }
  apply Forall_cons in Hl as [Hd Hl]. specialize (Hoff d eq_refl). set (len := Z.min total (d_len d - off)).
  assert (u64 (d_len d - off) = d_len d - off) as Hdl by (apply u64_small; unfold len_ok in Hd; lia). rewrite Hdl.
  assert (snap_min total (d_len d - off) = len) as -> by (unfold snap_min, len; destruct (Z.ltb_spec total (d_len d - off)); lia).
  rewrite plan_cons by (done || lia). fold len. set (raddr := u64 (d_addr d + off)).
  assert (Hseq : addr_seq raddr len = addr_seq (d_addr d + off) len) by apply addr_seq_u64.
  assert (forall op x1, op_plan op = zip (addr_seq raddr len) (offsets laddr len) -> op_of c buf write op ->
    comp_count x1 = comp_count x + 1 -> u32 (vc_len x1) = u32 (vc_len x + if write then len else 0) ->
    post (descs_rw_loop descs c 0 buf (laddr + len) (total - len) write)
      (fun ret s' => ret = 0 /\ moves c buf write (zip (addr_seq (d_addr d + off) len) (offsets laddr len) ++ copy_plan descs 0 (laddr + len) (total - len)) x s s')
      (posted op (set_cmd c x1 s))) as Hstep.
  { intros op x1 Hop Hof Hc1 Hv1. eapply post_mono; [apply (IH 0 (laddr + len) (total - len) _ x1); [by eapply lookup_set_cmd|done|]|].
    - intros d' Hd'. destruct descs as [|d0 descs]; [done|]. injection Hd' as ->. apply Forall_cons in Hl as [Hd0 _]. unfold len_ok in Hd0. lia.
    - intros ret s' (-> & ops & x' & Hdma & Hall & Hplan & Hx' & Hc' & Hv'). split; [done|]. exists (op :: ops), x'. rewrite Hdma. split_and!.
      + unfold posted, set_cmd. vrec. by rewrite <- app_assoc.
      + by constructor.
      + cbn [map concat]. by rewrite Hplan, Hop, Hseq.
      + done.
      + rewrite Hc', Hc1. cbn [length]. lia.
      + rewrite Hv'. destruct write; [|by rewrite Z.add_0_r, Hv1]. rewrite <- u32_add_l, Hv1, u32_add_l, <- Hseq, length_app, length_zip_with.
        pose proof (addr_seq_length raddr len ltac:(lia)). pose proof (offsets_length laddr len ltac:(lia)). f_equal. lia. }
  eapply post_upd_cmd; [exact Hx|]. destruct write.
  - apply post_assoc, post_post_dma, post_assoc. unfold m_when. cbn [Z.eqb]. eapply post_upd_cmd; [vrec; by eapply lookup_set_cmd|]. apply post_bind, post_return. cbn [Z.eqb negb].
    eapply (eq_ind _ (fun st => post _ _ st)).
    + apply (Hstep (DWrite c buf laddr len raddr) (x ⦇ comp_count := comp_count x + 1 ⦈ ⦇ vc_len := u32 (vc_len x + len) ⦈)); try done.
      vrec. unfold u32, uwrap. by rewrite Z.mod_mod by lia.
    + unfold posted, set_cmd. vrec. by rewrite list_insert_insert_eq.
  - apply post_post_dma. cbn [Z.eqb negb]. apply Hstep; try done. vrec. by rewrite Z.add_0_r.
Qed.
End Data.

Section Adm.
Context {W K : Type} `{Countable K} `{!DmaPost W} `{!DmaWorks (W := W)}.
#[local] Abbreviation sys := (vqs W (vbuf K) (adm_cb K)).

(** What is left of an offset, and of the chain, after the descriptors it covers. *)
Lemma skip_descs_drop : forall ds off ds' off', Forall len_ok ds -> 0 <= off < 2 ^ 64 -> skip_descs ds off = (ds', off') ->
  Forall len_ok ds' /\ (forall d, head ds' = Some d -> 0 <= off' <= d_len d) /\
  drop (Z.to_nat off) (chain_addrs ds) = drop (Z.to_nat off') (chain_addrs ds').
Proof.
  induction ds as [|d ds IH]; intros off ds' off' Hl Ho; cbn [skip_descs]; [by intros [= <- <-]|]. pose proof Hl as [Hd Hl']%Forall_cons.
  destruct (Z.ltb_spec off (d_len d)) as [Hlt|Hge].
  - intros [= <- <-]. split_and!; [done| |done]. intros d' [= <-]. lia.
  - unfold len_ok in Hd. rewrite u64_small by lia. intros Hs. destruct (IH (off - d_len d) _ _ Hl' ltac:(lia) Hs) as (H1 & H2 & H3). split_and!; [done|done|]. rewrite <- H3.
    unfold chain_addrs. cbn [map concat]. pose proof (addr_seq_length (d_addr d) (d_len d) ltac:(lia)). rewrite drop_app_ge by lia. f_equal. lia.
Qed.

Lemma writable_ok ds : Forall len_ok ds -> Forall len_ok (writable ds).
Proof. induction 1 as [|d ds Hd Hl IH]; [constructor|]. cbn [writable]. destruct (has_flag _ _); [by constructor|done]. Qed.

(** C34: For a command whose descriptors have 32-bit lengths, while the DMA queue accepts
    the posts, [snap_vaq_cmd_layout_data_read] posts reads that copy the bytes of the chain
    after the first [off], in order and across its descriptors, to consecutive places of
    the buffer, [total] of them or as many as the chain has;
    [snap_vaq_cmd_layout_data_write] posts writes that copy the buffer to the part of the
    chain from the first writable descriptor on, and adds their size to the length the
    command reports.  The command waits for all of them. *)
Theorem data_moves_chain (s : sys) c x buf loff total cb off :
  vq_cmds (vs_vq s) !! c = Some x -> comp_count x = 0 -> Forall len_ok (vc_descs x) -> 0 <= off < 2 ^ 64 ->
  (exists s', snap_vaq_cmd_layout_data_read c total buf loff cb off s = Ok (s', 0) /\ moves c buf false (copy_plan (vc_descs x) off loff total) x s s') /\
  (exists s', snap_vaq_cmd_layout_data_write c total buf cb s = Ok (s', 0) /\ moves c buf true (copy_plan (writable (vc_descs x)) 0 0 total) x s s').
Proof.
  intros Hx Hc Hl Ho. set (x1 := x ⦇ done_cb := Some cb ⦈ ⦇ comp_func := CF_dma_rw_done ⦈).
  assert (forall descs off' loff' write, Forall len_ok descs -> (forall d, head descs = Some d -> 0 <= off' <= d_len d) ->
    exists s', snap_vq_cmd_descs_rw c descs off' buf loff' total cb write s = Ok (s', 0) /\ moves c buf write (copy_plan descs off' loff' total) x s s') as Hrw.
  { intros descs off' loff' write Hd Hoff. assert (post (snap_vq_cmd_descs_rw c descs off' buf loff' total cb write)
      (fun ret s' => ret = 0 /\ moves c buf write (copy_plan descs off' loff' total) x s s') s) as Hp.
    { unfold snap_vq_cmd_descs_rw. eapply post_upd_cmd; [exact Hx|]. exact (rw_loop_moves c buf write descs off' loff' total (set_cmd c x1 s) x1 (lookup_set_cmd _ _ _ _ Hx) Hd Hoff). }
    destruct (post_run _ _ _ Hp) as (s' & ret & Hrun & -> & Hm). eauto. }
  assert (descs_of c s = Ok (s, vc_descs x)) as Hds by (unfold descs_of, m_bind; by rewrite (run_cmd c x)).
  split.
  - unfold snap_vaq_cmd_layout_data_read, m_bind. rewrite Hds. cbn [res_bind]. destruct (skip_descs (vc_descs x) off) as [ds' off'] eqn:Hs.
    destruct (skip_descs_drop _ _ _ _ Hl Ho Hs) as (H1 & H2 & H3). destruct (Hrw ds' off' loff false H1 H2) as (s' & Hrun & Hm). exists s'. split; [done|].
    by replace (copy_plan (vc_descs x) off loff total) with (copy_plan ds' off' loff total) by (unfold copy_plan; by rewrite H3).
  - unfold snap_vaq_cmd_layout_data_write, m_bind. rewrite Hds. cbn [res_bind]. apply Hrw; [by apply writable_ok|]. intros d Hd.
    pose proof (writable_ok _ Hl) as Hw. destruct (writable (vc_descs x)); [done|]. injection Hd as ->. apply Forall_cons in Hw as [Hw _]. unfold len_ok in Hw. lia.
Qed.
End Adm.
