(* ===== verification/AdmCmd.v ===== *)
(** The admin commands of the block controller (src/ctrl/snap_virtio_blk_ctrl.c,
    [snap_virtio_blk_adm_cmd_process] and what it calls), with the buffers of
    src/ctrl/snap_buf.c.

    A physical function receives the commands on its admin queue and carries them out on
    the controllers of its virtual functions.  [VfCtrl] is what it calls of those; the
    buffers that hold transferred data are named by the order of their allocation, so that
    a buffer that was freed is a name that the memory no longer has. *)

From stdpp Require Import gmap.
From S2P Require Import Prelude Effects Bytes BlkDescs DpMap Ctrl Vq VqInv VqProps VqAdm.

(** * Data *)

(** Values of [enum snap_virtio_ctrl_lm_state]. *)
Definition lm_number (v : snap_virtio_ctrl_lm_state) : Z :=
  match v with
  | SNAP_VIRTIO_CTRL_LM_INIT => 0
  | SNAP_VIRTIO_CTRL_LM_RUNNING => 1
  | SNAP_VIRTIO_CTRL_LM_QUIESCED => 2
  | SNAP_VIRTIO_CTRL_LM_FREEZED => 3
  end.

Definition VIRTIO_M_DIRTY_TRACK_PUSH_BITMAP : Z := 1.
Definition VIRTIO_M_DIRTY_TRACK_PUSH_BYTEMAP : Z := 2.
Definition VIRTIO_M_DIRTY_TRACK_PULL_PAGELIST : Z := 61441.

Definition sizeof_dp_start : Z := 24.
Definition sizeof_restore_state_data : Z := 24.
Definition sizeof_sge : Z := 16.

(** The callbacks of the commands. *)
Inductive lm_cb := CbDpStart | CbSave | CbRestore.
#[export] Instance lm_cb_eq_dec : EqDecision lm_cb.
Proof. solve_decision. Defined.
#[export] Instance lm_cb_countable : Countable lm_cb.
Proof.
  apply (inj_countable' (fun k => match k with CbDpStart => 0 | CbSave => 1 | CbRestore => 2 end)%nat
           (fun n => match n with O => CbDpStart | 1%nat => CbSave | _ => CbRestore end)).
  by intros [].
Defined.

(** The list of the map is as long as what the descriptors hold after the headers. *)
Definition dp_header : Z := sizeof_hdr false + sizeof_dp_start.
#[export] Instance lm_cb_size : LmSize lm_cb :=
  fun k ds size => match k with CbDpStart => Z.of_nat size = u64 (u64 (sumZ (map d_len ds)) - dp_header) | _ => True end.

(** What the physical function calls on the controller of a virtual function.  A null
    buffer is [None]; [vf_quiesce_adm] is given the command it has to answer and tells
    whether it did, and how. *)
Class VfCtrl (VF : Type) := {
  vf_get_lm_state : VF -> res (VF * snap_virtio_ctrl_lm_state);
  vf_quiesce_adm : VF -> nat -> res (VF * option Z);
  vf_unquiesce : VF -> res (VF * Z);
  vf_freeze : VF -> res (VF * Z);
  vf_unfreeze : VF -> res (VF * Z);
  vf_get_state_size : VF -> res (VF * Z);
  vf_state_save : VF -> option (list Z) -> Z -> res (VF * list Z * Z);
  vf_state_restore : VF -> list Z -> Z -> res (VF * Z);
  vf_track : VF -> bool -> res VF
}.

(** The fields of the controller of a virtual function that the commands use. *)
Record vf_ctrl (VF : Type) := mk_vf { vf_sys : VF; dp_map : option nat; pf_xmkey : bool }.
Arguments mk_vf {VF}. Arguments vf_sys {VF}. Arguments dp_map {VF}. Arguments pf_xmkey {VF}.
#[export] Instance vf_settable VF : Settable (vf_ctrl VF) := fun r => mk_vf (vf_sys r) (dp_map r) (pf_xmkey r).

(** The controller of the physical function: [vfs_ctrl] may be null, as its entries may;
    [ae_maps] are the dirty page maps that are allocated. *)
Record adm_env (VF : Type) := mk_ae {
  lm_buf : option (lm_cb * nat);
  ae_next_buf : nat;
  pci_num_vfs : Z;
  vfs_ctrl : option (list (option (vf_ctrl VF)));
  ae_maps : gmap nat snap_dp_bmap;
  ae_next_map : nat
}.
Arguments mk_ae {VF}. Arguments lm_buf {VF}. Arguments ae_next_buf {VF}. Arguments pci_num_vfs {VF}. Arguments vfs_ctrl {VF}.
Arguments ae_maps {VF}. Arguments ae_next_map {VF}.
#[export] Instance ae_settable VF : Settable (adm_env VF) :=
  fun r => mk_ae (lm_buf r) (ae_next_buf r) (pci_num_vfs r) (vfs_ctrl r) (ae_maps r) (ae_next_map r).


(** What allocations and the creation of keys answer, and what fresh memory holds; the
    first argument of [aa_buf] is what the buffer is for. *)
Record adm_answers := mk_aa {
  aa_buf : lm_cb -> nat -> Z -> bool; aa_byte : nat -> nat -> Z; aa_map : nat -> bool; aa_sgl : nat -> bool; aa_xmkey : nat -> option Z
}.

Section AdmCmd.
Context {VF : Type} `{!VfCtrl VF} `{!DmaPost (adm_env VF)} (ans : adm_answers).
#[local] Abbreviation V := (M (vqs (adm_env VF) (vbuf lm_cb) (adm_cb lm_cb))).

Definition env : V (adm_env VF) := gets vs_env.
Definition upd_env (f : adm_env VF -> adm_env VF) : V unit := modify (fun s => s ⦇ vs_env := f (vs_env s) ⦈).

(** * Buffers *)

Definition SNAP_DCACHE_LINE : Z := 64.

(** The bytes of a new buffer: [memset] starts at the header in front of them, so that the
    last ones are not set. *)
Definition fresh_bytes (k : nat) (size : Z) : list Z :=
  let zeros := Z.to_nat (size - SNAP_DCACHE_LINE) in
  replicate zeros 0 ++ map (aa_byte ans k) (seq zeros (Z.to_nat size - zeros)).

(** [j] is what the buffer is for. *)
Definition snap_buf_alloc (j : lm_cb) (size : Z) : V (option (lm_cb * nat)) :=
  let! e := env in
  let k := ae_next_buf e in
  if negb (aa_buf ans j k size) then mreturn None
  else
    do! upd_env (fun e => e ⦇ ae_next_buf := S k ⦈) in
    do! modify (fun s => s ⦇ vs_mem := <[LmBuf j k := fresh_bytes k size]> (vs_mem s) ⦈) in
    mreturn (Some (j, k)).

(** Freeing a null pointer or a buffer that was freed is undefined. *)
Definition snap_buf_free (b : option (lm_cb * nat)) : V unit :=
  match b with
  | None => undefined
  | Some (j, k) =>
      let! s := gets id in
      match vs_mem s !! LmBuf j k with
      | None => undefined
      | Some _ => modify (fun s => s ⦇ vs_mem := delete (LmBuf j k) (vs_mem s) ⦈)
      end
  end.

(** [snap_buf_get_mkey] reads the header of the buffer. *)
Definition snap_buf_get_mkey (b : option (lm_cb * nat)) : V (vbuf lm_cb) :=
  match b with
  | None => undefined
  | Some (j, k) =>
      let! s := gets id in
      match vs_mem s !! LmBuf j k with None => undefined | Some _ => mreturn (LmBuf j k) end
  end.

(** [blk_ctrl->lm_buf = snap_buf_alloc(size)] *)
Definition alloc_lm_buf (j : lm_cb) (size : Z) : V (option (lm_cb * nat)) :=
  let! b := snap_buf_alloc j size in
  do! upd_env (fun e => e ⦇ lm_buf := b ⦈) in mreturn b.
Definition free_lm_buf : V unit := let! e := env in snap_buf_free (lm_buf e).

(** * Dirty page maps *)

Definition snap_dp_bmap_destroy (m : option nat) : V unit :=
  match m with
  | None => undefined
  | Some k =>
      let! e := env in
      match ae_maps e !! k with
      | None => undefined
      | Some _ => upd_env (fun e => e ⦇ ae_maps := delete k (ae_maps e) ⦈)
      end
  end.

(** [struct snap_vq_adm_sge] *)
Fixpoint sges_of (n : nat) (l : list Z) : list snap_vq_adm_sge :=
  match n with
  | O => []
  | S n' => mk_sge (unle (take 8 l)) (unle (take 4 (drop 8 l))) :: sges_of n' (drop 16 l)
  end.

(** * Virtual functions *)

(** The place of the virtual function a command names. *)
Definition snap_virtio_blk_ctrl_get_vf (c : nat) : V (option nat) :=
  let! id := layout_num c in_off 2 in
  let vdev_id := id - 1 in
  if vdev_id <? 0 then mreturn None
  else
    let! e := env in
    match vfs_ctrl e with
    | Some l =>
        if vdev_id <? pci_num_vfs e then
          let! o := m_opt undefined (l !! Z.to_nat vdev_id) in
          match o with Some _ => mreturn (Some (Z.to_nat vdev_id)) | None => mreturn None end
        else mreturn None
    | None => mreturn None
    end.

Definition get_vf (i : nat) : V (vf_ctrl VF) :=
  let! e := env in
  match vfs_ctrl e with
  | Some l => match l !! i with Some (Some v) => mreturn v | _ => undefined end
  | None => undefined
  end.
Definition set_vf (i : nat) (v : vf_ctrl VF) : V unit :=
  upd_env (fun e => e ⦇ vfs_ctrl := (fun l => <[i := Some v]> l) <$> vfs_ctrl e ⦈).

(** A call on the controller of a virtual function. *)
Definition call_vf {A} (i : nat) (f : VF -> res (VF * A)) : V A :=
  let! v := get_vf i in
  let! r := m_res (f (vf_sys v)) in
  do! set_vf i (v ⦇ vf_sys := fst r ⦈) in mreturn (snd r).

Definition complete (c : nat) (status : Z) : V unit := snap_vaq_cmd_complete false c status.

(** The commands on a virtual function that does not exist. *)
Definition with_vf (c : nat) (k : nat -> V unit) : V unit :=
  let! o := snap_virtio_blk_ctrl_get_vf c in
  match o with
  | None => complete c SNAP_VIRTIO_ADM_STATUS_DEVICE_INTERNAL_ERR
  | Some i => k i
  end.

(** [snap_virtio_ctrl_start_dirty_pages_track] and its counterpart. *)
Definition track (i : nat) (on : bool) : V unit := do! call_vf i (fun v => let? v := vf_track v on in Ok (v, tt)) in mreturn tt.

(** * Dirty page tracking *)

(** A negative number of entries asks for more memory than there is. *)
Definition snap_virtio_blk_ctrl_lm_dp_start_track_cb (c : nat) (status : Z) : V unit :=
  let! st :=
    (if negb (status =? IBV_WC_SUCCESS) then mreturn SNAP_VIRTIO_ADM_STATUS_DATA_TRANSFER_ERR
     else
       let! o := snap_virtio_blk_ctrl_get_vf c in
       match o with
       | None => mreturn SNAP_VIRTIO_ADM_STATUS_DEVICE_INTERNAL_ERR
       | Some i =>
           let! mode := layout_num c (in_off + 2) 2 in
           let! psz := layout_num c (in_off + 4) 4 in
           let! total := snap_vaq_cmd_get_total_len c in
           let sge_len := u64 (total - dp_header) in
           let! e := env in
           let n := i32 (sge_len / sizeof_sge) in
           let! key := snap_buf_get_mkey (lm_buf e) in
           let! bytes := load_mem key 0 (n * sizeof_sge) in
           let k := ae_next_map e in
           let! v := get_vf i in
           match snap_dp_bmap_create (aa_map ans k) (aa_sgl ans k && (0 <=? n)) (sges_of (Z.to_nat n) bytes) psz (mode =? VIRTIO_M_DIRTY_TRACK_PUSH_BYTEMAP) with
           | None => do! set_vf i (v ⦇ dp_map := None ⦈) in mreturn SNAP_VIRTIO_ADM_STATUS_DEVICE_INTERNAL_ERR
           | Some m =>
               do! upd_env (fun e => e ⦇ ae_maps := <[k := m]> (ae_maps e) ⦈ ⦇ ae_next_map := S k ⦈) in
               match aa_xmkey ans k with
               | None =>
                   do! set_vf i (v ⦇ dp_map := Some k ⦈ ⦇ pf_xmkey := false ⦈) in
                   do! snap_dp_bmap_destroy (Some k) in mreturn SNAP_VIRTIO_ADM_STATUS_DEVICE_INTERNAL_ERR
               | Some mkey =>
                   do! set_vf i (v ⦇ dp_map := Some k ⦈ ⦇ pf_xmkey := true ⦈) in
                   do! upd_env (fun e => e ⦇ ae_maps := alter (fun m => snap_dp_bmap_set_mkey m mkey) k (ae_maps e) ⦈) in
                   do! track i true in mreturn SNAP_VIRTIO_ADM_STATUS_OK
               end
           end
       end) in
  do! complete c st in free_lm_buf.

Definition snap_virtio_blk_ctrl_lm_dp_start_track (c : nat) : V unit :=
  with_vf c (fun i =>
    let! mode := layout_num c (in_off + 2) 2 in
    if mode =? VIRTIO_M_DIRTY_TRACK_PULL_PAGELIST then
      do! track i true in complete c SNAP_VIRTIO_ADM_STATUS_OK
    else if (mode =? VIRTIO_M_DIRTY_TRACK_PUSH_BITMAP) || (mode =? VIRTIO_M_DIRTY_TRACK_PUSH_BYTEMAP) then
      let! total := snap_vaq_cmd_get_total_len c in
      let sgl_len := u64 (total - dp_header) in
      let! b := alloc_lm_buf CbDpStart sgl_len in
      match b with
      | None => complete c SNAP_VIRTIO_ADM_STATUS_DEVICE_INTERNAL_ERR
      | Some _ =>
          let! key := snap_buf_get_mkey b in
          let! ret := snap_vaq_cmd_layout_data_read c sgl_len key 0 (CbClient CbDpStart) dp_header in
          if negb (ret =? 0) then do! complete c SNAP_VIRTIO_ADM_STATUS_ERR in free_lm_buf else mreturn tt
      end
    else complete c SNAP_VIRTIO_ADM_STATUS_ERR).

Definition snap_virtio_blk_ctrl_lm_dp_stop_track (c : nat) : V unit :=
  with_vf c (fun i =>
    do! track i false in
    let! v := get_vf i in
    do! (match dp_map v with
         | None => mreturn tt
         | Some _ => do! snap_dp_bmap_destroy (dp_map v) in set_vf i (v ⦇ dp_map := None ⦈)
         end) in
    let! v := get_vf i in
    do! (if pf_xmkey v then set_vf i (v ⦇ pf_xmkey := false ⦈) else mreturn tt) in
    complete c SNAP_VIRTIO_ADM_STATUS_OK).

(** [res->pending_bytes] is an unsigned field: the test for a negative size never holds. *)
Definition pending_bytes (c : nat) (size : Z) : V unit :=
  do! layout_write c out_off (le 8 (u64 size)) in
  if u64 size <? 0 then complete c SNAP_VIRTIO_ADM_STATUS_DEVICE_INTERNAL_ERR else complete c SNAP_VIRTIO_ADM_STATUS_OK.

(** [snap_virtio_ctrl_get_dirty_pages_size] takes and releases the lock, and answers 0. *)
Definition snap_virtio_blk_ctrl_lm_dp_pending_bytes_get (c : nat) : V unit :=
  with_vf c (fun i =>
    do! call_vf i vf_get_lm_state in
    pending_bytes c 0).

(** * Migration state *)

Definition snap_virtio_blk_ctrl_lm_status_get (c : nat) : V unit :=
  with_vf c (fun i =>
    let! st := call_vf i vf_get_lm_state in
    do! layout_write c out_off (le 2 (lm_number st)) in
    complete c SNAP_VIRTIO_ADM_STATUS_OK).

Definition snap_virtio_blk_ctrl_lm_status_modify (c : nat) : V unit :=
  let! new_status := layout_num c (in_off + 2) 2 in
  with_vf c (fun i =>
    let! cur := call_vf i vf_get_lm_state in
    let finish (ret : Z) : V unit :=
      if negb (ret =? 0) then complete c SNAP_VIRTIO_ADM_STATUS_DEVICE_INTERNAL_ERR else complete c SNAP_VIRTIO_ADM_STATUS_OK in
    if new_status =? lm_number SNAP_VIRTIO_CTRL_LM_QUIESCED then
      if bool_decide (cur = SNAP_VIRTIO_CTRL_LM_FREEZED) then let! ret := call_vf i vf_unfreeze in finish ret
      else
        let! answer := call_vf i (fun v => vf_quiesce_adm v c) in
        match answer with Some q => snap_adm_cmd_complete false c q | None => mreturn tt end
    else if new_status =? lm_number SNAP_VIRTIO_CTRL_LM_FREEZED then let! ret := call_vf i vf_freeze in finish ret
    else if new_status =? lm_number SNAP_VIRTIO_CTRL_LM_RUNNING then let! ret := call_vf i vf_unquiesce in finish ret
    else finish (-1)).

Definition snap_virtio_blk_ctrl_lm_pending_bytes_get (c : nat) : V unit :=
  with_vf c (fun i => let! size := call_vf i vf_get_state_size in pending_bytes c size).

(** * Migration data *)

Definition snap_virtio_blk_ctrl_lm_state_save_cb (c : nat) (status : Z) : V unit :=
  do! free_lm_buf in
  if negb (status =? IBV_WC_SUCCESS) then complete c SNAP_VIRTIO_ADM_STATUS_ERR else complete c SNAP_VIRTIO_ADM_STATUS_OK.

(** The content of a buffer of this process. *)
Definition buf_content (b : option (lm_cb * nat)) : V (option (list Z)) :=
  match b with
  | None => mreturn None
  | Some (j, k) => let! s := gets id in let! l := m_opt undefined (vs_mem s !! LmBuf j k) in mreturn (Some l)
  end.
Definition set_content (b : option (lm_cb * nat)) (l : list Z) : V unit :=
  match b with
  | None => mreturn tt
  | Some (j, k) => modify (fun s => s ⦇ vs_mem := <[LmBuf j k := l]> (vs_mem s) ⦈)
  end.

(** [snap_virtio_ctrl_state_save] between taking and releasing the lock. *)
Definition save_state (i : nat) (b : option (lm_cb * nat)) (len : Z) : V Z :=
  let! old := buf_content b in
  let! r := call_vf i (fun v => let? r := vf_state_save v old len in let '(v, l, ret) := r in Ok (v, (l, ret))) in
  do! set_content b (fst r) in mreturn (snd r).

(** The tail of the two commands that send a buffer to the host; [free_on_error] tells
    whether the buffer is freed when the transfer cannot be started. *)
Definition send_lm_buf (c : nat) (length : Z) (free_on_error : bool) : V unit :=
  let! e := env in
  let! key := snap_buf_get_mkey (lm_buf e) in
  let! ret := snap_vaq_cmd_layout_data_write c length key (CbClient CbSave) in
  if negb (ret =? 0) then
    do! complete c SNAP_VIRTIO_ADM_STATUS_ERR in
    m_when free_on_error free_lm_buf
  else mreturn tt.

(** When the buffer cannot be allocated the command is answered, and then goes on. *)
Definition snap_virtio_blk_ctrl_lm_state_save (c : nat) : V unit :=
  with_vf c (fun i =>
    let! length := layout_num c (in_off + 16) 8 in
    let! b := alloc_lm_buf CbSave length in
    do! (match b with None => complete c SNAP_VIRTIO_ADM_STATUS_DEVICE_INTERNAL_ERR | Some _ => mreturn tt end) in
    let! ret := save_state i b length in
    if ret <? 0 then
      do! complete c SNAP_VIRTIO_ADM_STATUS_DEVICE_INTERNAL_ERR in free_lm_buf
    else send_lm_buf c length true).

Definition snap_virtio_blk_ctrl_lm_state_restore_cb (c : nat) (status : Z) : V unit :=
  do! (if negb (status =? IBV_WC_SUCCESS) then complete c SNAP_VIRTIO_ADM_STATUS_DATA_TRANSFER_ERR
       else with_vf c (fun i =>
         let! length := layout_num c (in_off + 16) 8 in
         let! e := env in
         let! o := buf_content (lm_buf e) in
         let! l := m_opt undefined o in
         let! ret := call_vf i (fun v => vf_state_restore v l length) in
         if 0 <=? ret then complete c SNAP_VIRTIO_ADM_STATUS_OK
         else snap_vaq_cmd_complete_no_dnr false c SNAP_VIRTIO_ADM_STATUS_DEVICE_INTERNAL_ERR)) in
  free_lm_buf.

Definition snap_virtio_blk_ctrl_lm_state_restore (c : nat) : V unit :=
  let! length := layout_num c (in_off + 16) 8 in
  let! b := alloc_lm_buf CbRestore length in
  match b with
  | None => complete c SNAP_VIRTIO_ADM_STATUS_DEVICE_INTERNAL_ERR
  | Some _ =>
      let! key := snap_buf_get_mkey b in
      let! ret := snap_vaq_cmd_layout_data_read c length key 0 (CbClient CbRestore) (sizeof_hdr false + sizeof_restore_state_data) in
      if negb (ret =? 0) then do! complete c SNAP_VIRTIO_ADM_STATUS_ERR in free_lm_buf else mreturn tt
  end.

(** [snap_virtio_ctrl_serialize_dirty_pages] writes nothing: it fails without a map, and
    otherwise takes and releases the lock and answers 0. *)
Definition serialize_dirty_pages (i : nat) : V Z :=
  let! v := get_vf i in
  match dp_map v with
  | None => mreturn (- EINVAL)
  | Some _ => do! call_vf i vf_get_lm_state in mreturn 0
  end.

Definition snap_virtio_blk_ctrl_lm_dp_report_map (c : nat) : V unit :=
  with_vf c (fun i =>
    let! length := layout_num c (in_off + 16) 8 in
    let! b := alloc_lm_buf CbSave length in
    do! (match b with None => complete c SNAP_VIRTIO_ADM_STATUS_DEVICE_INTERNAL_ERR | Some _ => mreturn tt end) in
    let! ret := serialize_dirty_pages i in
    if ret <? 0 then
      do! free_lm_buf in complete c SNAP_VIRTIO_ADM_STATUS_DEVICE_INTERNAL_ERR
    else send_lm_buf c length false).

(** * Dispatch *)

Definition snap_virtio_blk_adm_cmd_process (c : nat) : V unit :=
  let! cmd_class := layout_num c 0 1 in
  let! command := layout_num c 1 1 in
  if cmd_class =? SNAP_VQ_ADM_MIG_CTRL then
    if command =? SNAP_VQ_ADM_MIG_GET_STATUS then snap_virtio_blk_ctrl_lm_status_get c
    else if command =? SNAP_VQ_ADM_MIG_MODIFY_STATUS then snap_virtio_blk_ctrl_lm_status_modify c
    else if command =? SNAP_VQ_ADM_MIG_GET_STATE_PENDING_BYTES then snap_virtio_blk_ctrl_lm_pending_bytes_get c
    else if command =? SNAP_VQ_ADM_MIG_SAVE_STATE then snap_virtio_blk_ctrl_lm_state_save c
    else if command =? SNAP_VQ_ADM_MIG_RESTORE_STATE then snap_virtio_blk_ctrl_lm_state_restore c
    else complete c SNAP_VIRTIO_ADM_STATUS_INVALID_COMMAND
  else if cmd_class =? SNAP_VQ_ADM_DP_TRACK_CTRL then
    if command =? SNAP_VQ_ADM_DP_START_TRACK then snap_virtio_blk_ctrl_lm_dp_start_track c
    else if command =? SNAP_VQ_ADM_DP_STOP_TRACK then snap_virtio_blk_ctrl_lm_dp_stop_track c
    else if command =? SNAP_VQ_ADM_DP_GET_MAP_PENDING_BYTES then snap_virtio_blk_ctrl_lm_dp_pending_bytes_get c
    else if command =? SNAP_VQ_ADM_DP_REPORT_MAP then snap_virtio_blk_ctrl_lm_dp_report_map c
    else complete c SNAP_VIRTIO_ADM_STATUS_INVALID_COMMAND
  else complete c SNAP_VIRTIO_ADM_STATUS_INVALID_CLASS.

Definition lm_run_cb (k : lm_cb) (c : nat) (status : Z) : V unit :=
  match k with
  | CbDpStart => snap_virtio_blk_ctrl_lm_dp_start_track_cb c status
  | CbSave => snap_virtio_blk_ctrl_lm_state_save_cb c status
  | CbRestore => snap_virtio_blk_ctrl_lm_state_restore_cb c status
  end.

(** The queue of the block controller. *)
Definition blk_adm_handle : nat -> V unit := snap_vq_adm_handle_cmd false.
Definition blk_adm_cb : adm_cb lm_cb -> nat -> Z -> V unit := adm_run_cb false snap_virtio_blk_adm_cmd_process lm_run_cb.

End AdmCmd.
