(* ===== verification/AdmCmdProps.v ===== *)
(** The admin commands of the block controller keep the invariants of the queue and of the
    physical function, while the host sends one command at a time.

    The controller keeps one buffer for all the commands that move data, so that commands
    must not overlap ([AdmRun.v] has a run in which two do).  [VfLaws] is what the commands
    rely on of the controllers of the virtual functions. *)

From stdpp Require Import gmap.
From S2P Require Import Prelude Effects Bytes BlkDescs DpMap Ctrl Vq VqInv VqProps VqAdm VqAdmProps AdmCmd.

(** Every call returns and keeps [vf_inv], the restoring of a state when the state is one of
    [vf_accepts] (the controller of CtrlState.v writes outside of an array when the state
    names a queue it does not have: [restore_queue_index_oob]); saving leaves the buffer as
    long as it was. *)
Class VfLaws {VF : Type} `{!VfCtrl VF} (vf_inv : VF -> Prop) (vf_accepts : VF -> list Z -> Prop) : Prop := {
  vf_get_lm_state_ok v : vf_inv v -> exists v' a, vf_get_lm_state v = Ok (v', a) /\ vf_inv v';
  vf_quiesce_adm_ok v c : vf_inv v -> exists v' a, vf_quiesce_adm v c = Ok (v', a) /\ vf_inv v';
  vf_unquiesce_ok v : vf_inv v -> exists v' a, vf_unquiesce v = Ok (v', a) /\ vf_inv v';
  vf_freeze_ok v : vf_inv v -> exists v' a, vf_freeze v = Ok (v', a) /\ vf_inv v';
  vf_unfreeze_ok v : vf_inv v -> exists v' a, vf_unfreeze v = Ok (v', a) /\ vf_inv v';
  vf_get_state_size_ok v : vf_inv v -> exists v' a, vf_get_state_size v = Ok (v', a) /\ vf_inv v';
  vf_state_save_ok v l len : vf_inv v -> Z.of_nat (length l) = len ->
    exists v' l' ret, vf_state_save v (Some l) len = Ok (v', l', ret) /\ vf_inv v' /\ length l' = length l;
  vf_state_restore_ok v l len : vf_inv v -> Z.of_nat (length l) = len -> vf_accepts v l ->
    exists v' ret, vf_state_restore v l len = Ok (v', ret) /\ vf_inv v';
  vf_track_ok v on : vf_inv v -> exists v', vf_track v on = Ok v' /\ vf_inv v'
}.

Tactic Notation "arec" :=
  cbn [upd_field vf_sys dp_map pf_xmkey lm_buf ae_next_buf pci_num_vfs vfs_ctrl ae_maps ae_next_map
       vs_env vs_vq vs_mem vs_dma vs_started vs_host vs_used fst snd].

Section Props.
Context {VF : Type} `{!VfCtrl VF} (vf_inv : VF -> Prop) (vf_accepts : VF -> list Z -> Prop) `{!VfLaws vf_inv vf_accepts}.
Context `{!DmaPost (adm_env VF)} `{!DmaWorks (W := adm_env VF)} (ans : adm_answers).
(** The buffers for saved states can be allocated, and the keys for dirty page maps created. *)
Context (Hbuf : forall k size, aa_buf ans CbSave k size = true) (Hkey : forall k, is_Some (aa_xmkey ans k)).
Context (n : nat).
#[local] Abbreviation sys := (vqs (adm_env VF) (vbuf lm_cb) (adm_cb lm_cb)).
#[local] Abbreviation V := (M sys).
Implicit Types (s : sys) (e : adm_env VF) (v : vf_ctrl VF).

(** * The physical function *)

Definition vf_at (e : adm_env VF) (i : nat) : option (vf_ctrl VF) := l ← vfs_ctrl e; o ← l !! i; o.

(** The controllers satisfy their invariant, and their dirty page maps are allocated and
    not shared. *)
Record env_ok (e : adm_env VF) : Prop := {
  eo_len l : vfs_ctrl e = Some l -> pci_num_vfs e <= Z.of_nat (length l);
  eo_vf i v : vf_at e i = Some v -> vf_inv (vf_sys v);
  eo_map i v k : vf_at e i = Some v -> dp_map v = Some k -> is_Some (ae_maps e !! k);
  eo_fresh k : (ae_next_map e <= k)%nat -> ae_maps e !! k = None;
  eo_inj i j v w k : vf_at e i = Some v -> vf_at e j = Some w -> dp_map v = Some k -> dp_map w = Some k -> i = j;
}.

Definition put_vf (i : nat) (v : vf_ctrl VF) (e : adm_env VF) : adm_env VF :=
  e ⦇ vfs_ctrl := (fun l => <[i := Some v]> l) <$> vfs_ctrl e ⦈.

Lemma vf_at_put e i v v' j : vf_at e i = Some v -> vf_at (put_vf i v' e) j = if decide (j = i) then Some v' else vf_at e j.
Proof.
  unfold vf_at, put_vf. arec. destruct (vfs_ctrl e) as [l|]; cbn; [|done]. destruct (l !! i) as [o|] eqn:Hl; [|done]. cbn. intros ->.
  destruct (decide (j = i)) as [->|Hne]; [rewrite list_lookup_insert_eq by (by eapply lookup_lt_Some); done|by rewrite list_lookup_insert_ne].
Qed.

Lemma vf_at_put_eq e i v v' : vf_at e i = Some v -> vf_at (put_vf i v' e) i = Some v'.
Proof. intros Hv. rewrite (vf_at_put e i v) by done. by rewrite decide_True. Qed.

Lemma put_len e i v l : (forall l, vfs_ctrl e = Some l -> pci_num_vfs e <= Z.of_nat (length l)) ->
  vfs_ctrl (put_vf i v e) = Some l -> pci_num_vfs (put_vf i v e) <= Z.of_nat (length l).
Proof.
  unfold put_vf. arec. destruct (vfs_ctrl e) as [l0|]; cbn; [|done]. intros Hl [= <-]. rewrite length_insert. by apply Hl.
Qed.

(** A controller changes, its map stays or is given up. *)
Lemma env_put e i v v' : env_ok e -> vf_at e i = Some v -> vf_inv (vf_sys v') -> dp_map v' = dp_map v \/ dp_map v' = None -> env_ok (put_vf i v' e).
Proof.
  intros [Hlen Hvf Hmap Hfresh Hinj] Hv Hi Hd.
  assert (forall j w, vf_at (put_vf i v' e) j = Some w -> exists w0, vf_at e j = Some w0 /\ vf_inv (vf_sys w) /\ (dp_map w = dp_map w0 \/ dp_map w = None)) as Hold.
  { intros j w. rewrite (vf_at_put e i v) by done. destruct (decide (j = i)) as [->|Hne]; [intros [= <-]; eauto|]. intros Hw. exists w. eauto. }
  split.
  - intros l Hl. by eapply put_len.
  - intros j w Hw. by destruct (Hold j w Hw) as (_ & _ & ? & _).
  - intros j w k Hw Hk. destruct (Hold j w Hw) as (w0 & Hw0 & _ & [Hd0|Hd0]); [|congruence]. apply (Hmap j w0); congruence.
  - exact Hfresh.
  - intros j1 j2 w1 w2 k H1 H2 Hk1 Hk2. destruct (Hold _ _ H1) as (w1' & Hw1 & _ & [?|?]); [|congruence]. destruct (Hold _ _ H2) as (w2' & Hw2 & _ & [?|?]); [|congruence].
    apply (Hinj j1 j2 w1' w2' k); congruence.
Qed.

(** A controller gets a new map. *)
Lemma env_new_map e i v v' m : env_ok e -> vf_at e i = Some v -> vf_sys v' = vf_sys v -> dp_map v' = Some (ae_next_map e) ->
  env_ok (put_vf i v' (e ⦇ ae_maps := <[ae_next_map e := m]> (ae_maps e) ⦈ ⦇ ae_next_map := S (ae_next_map e) ⦈)).
Proof.
  intros [Hlen Hvf Hmap Hfresh Hinj] Hv Hs Hd. set (e1 := e ⦇ ae_maps := _ ⦈ ⦇ ae_next_map := _ ⦈).
  assert (forall j, vf_at (put_vf i v' e1) j = if decide (j = i) then Some v' else vf_at e j) as Hat by (intros j; by rewrite (vf_at_put e1 i v)).
  assert (forall j w k, vf_at e j = Some w -> dp_map w = Some k -> k <> ae_next_map e) as Hold.
  { intros j w k Hw Hk ->. destruct (Hmap j w _ Hw Hk) as [m' Hm']. by rewrite (Hfresh (ae_next_map e)) in Hm'. }
  split.
  - intros l Hl. by eapply put_len.
  - intros j w. rewrite Hat. destruct (decide (j = i)) as [->|_]; [intros [= <-]; rewrite Hs; exact (Hvf _ _ Hv)|apply Hvf].
  - intros j w k. rewrite Hat. unfold e1, put_vf. arec. destruct (decide (j = i)) as [->|Hne].
    + intros [= <-]. rewrite Hd. intros [= <-]. by rewrite lookup_insert_eq.
    + intros Hw Hk. pose proof (Hold _ _ _ Hw Hk). rewrite lookup_insert_ne by done. exact (Hmap j w k Hw Hk).
  - intros k. unfold e1, put_vf. arec. intros Hk. rewrite lookup_insert_ne by lia. apply Hfresh. lia.
  - intros j1 j2 w1 w2 k. rewrite !Hat. destruct (decide (j1 = i)) as [->|H1], (decide (j2 = i)) as [->|H2]; [done|..].
    + intros [= <-] Hw Hk Hk2. rewrite Hd in Hk. injection Hk as <-. by destruct (Hold _ _ _ Hw Hk2).
    + intros Hw [= <-] Hk Hk2. rewrite Hd in Hk2. injection Hk2 as <-. by destruct (Hold _ _ _ Hw Hk).
    + apply Hinj.
Qed.

(** A map changes. *)
Lemma env_alter e f k : env_ok e -> env_ok (e ⦇ ae_maps := alter f k (ae_maps e) ⦈).
Proof.
  intros [Hlen Hvf Hmap Hfresh Hinj]. split; try done; arec.
  - intros i v k' Hv Hk. specialize (Hmap i v k' Hv Hk). destruct (decide (k' = k)) as [->|Hne]; [|by rewrite lookup_alter_ne by done].
    rewrite lookup_alter_eq. by apply fmap_is_Some.
  - intros k' Hk. specialize (Hfresh k' Hk). destruct (decide (k' = k)) as [->|Hne]; [|by rewrite lookup_alter_ne by done]. rewrite lookup_alter_eq. by rewrite Hfresh.
Qed.

(** A map is destroyed. *)
Lemma env_drop_map e i v k : env_ok e -> vf_at e i = Some v -> dp_map v = Some k ->
  env_ok (put_vf i (v ⦇ dp_map := None ⦈) (e ⦇ ae_maps := delete k (ae_maps e) ⦈)).
Proof.
  intros [Hlen Hvf Hmap Hfresh Hinj] Hv Hk. set (e1 := e ⦇ ae_maps := _ ⦈).
  assert (forall j, vf_at (put_vf i (v ⦇ dp_map := None ⦈) e1) j = if decide (j = i) then Some (v ⦇ dp_map := None ⦈) else vf_at e j) as Hat by (intros j; by rewrite (vf_at_put e1 i v)).
  split.
  - intros l Hl. by eapply put_len.
  - intros j w. rewrite Hat. destruct (decide (j = i)) as [->|_]; [intros [= <-]; exact (Hvf _ _ Hv)|apply Hvf].
  - intros j w k'. rewrite Hat. unfold e1, put_vf. arec. destruct (decide (j = i)) as [->|Hne]; [by intros [= <-]|].
    intros Hw Hk'. rewrite lookup_delete_ne; [exact (Hmap j w k' Hw Hk')|]. intros ->. by destruct (Hinj _ _ _ _ _ Hw Hv Hk' Hk).
  - intros k' Hk'. unfold e1, put_vf. arec. rewrite lookup_delete_None. right. by apply Hfresh.
  - intros j1 j2 w1 w2 k'. rewrite !Hat. destruct (decide (j1 = i)) as [->|H1], (decide (j2 = i)) as [->|H2]; [done| | |by apply Hinj].
    + by intros [= <-].
    + by intros _ [= <-].
Qed.

(** * One command at a time *)

(** The next command comes when the queue has ended the last. *)
Definition none_inflight (s : sys) : Prop := inflight_cmds (vs_vq s) = [].

(** There is at most one command, and no data is moved. *)
Record quiet (b : bool) (s0 s : sys) : Prop := {
  qu_inv : vq_inv b n s;
  qu_calm : calm b s;
  qu_layouts : layouts_ok n s;
  qu_one : (length (inflight_cmds (vs_vq s)) <= 1)%nat;
  qu_bufs : buf_ops (vs_dma s) = [];
  qu_env : env_ok (vs_env s);
  qu_same : (vq_state (vs_vq s), vq_in_order (vs_vq s), vs_started s) = (vq_state (vs_vq s0), vq_in_order (vs_vq s0), vs_started s0);
}.

(** A command with the descriptors [ds] is worked on. *)
Definition work (b : bool) (c : nat) (ds : list vring_desc) (s0 s : sys) : Prop :=
  quiet b s0 s /\ exists x, idle c x s /\ vc_descs x = ds.

Lemma n_ops_zero c (l : list (dma_op (vbuf lm_cb))) op : n_ops c l = 0%nat -> op ∈ l -> op_cmd op <> Some c.
Proof. intros Hz Hin Hc. pose proof (n_ops_elem c l op Hin Hc). lia. Qed.

Lemma buf_ops_elem (l : list (dma_op (vbuf lm_cb))) op c buf : op ∈ l -> op_cmd op = Some c -> op_buf op = Some buf -> (c, buf) ∈ buf_ops l.
Proof.
  intros (l1 & l2 & ->)%list_elem_of_split Hc Hb. unfold buf_ops. rewrite omap_app. fold (buf_ops (op :: l2)). rewrite buf_ops_cons.
  destruct op; cbn in Hc, Hb |- *; try done; injection Hc as ->; injection Hb as ->; set_solver.
Qed.

Lemma elem_buf_ops (l : list (dma_op (vbuf lm_cb))) c buf : (c, buf) ∈ buf_ops l -> exists op, op ∈ l /\ op_cmd op = Some c /\ op_buf op = Some buf.
Proof.
  induction l as [|op l IH]; [by intros ?%elem_of_nil|]. rewrite buf_ops_cons. intros [Hop|Hin]%elem_of_app.
  - exists op. split; [set_solver|]. destruct op; cbn in Hop; try (by apply elem_of_nil in Hop); apply list_elem_of_singleton in Hop; by injection Hop as -> ->.
  - destruct (IH Hin) as (op' & ? & ?). exists op'. split; [set_solver|done].
Qed.

(** Work belongs to a command in flight. *)
Lemma op_inflight b s op c : vq_inv b n s -> op ∈ vs_dma s -> op_cmd op = Some c -> c ∈ inflight_cmds (vs_vq s).
Proof.
  intros Hinv Hin Hc. destruct (lookup_lt_is_Some_2 (vq_cmds (vs_vq s)) c) as [x Hx]; [rewrite (vi_len _ _ _ Hinv); by eapply (vi_ops _ _ _ Hinv)|].
  destruct (vi_cmd _ _ _ Hinv c x Hx) as [_ Hcnt Hid _ _]. destruct (decide (c ∈ inflight_cmds (vs_vq s))); [done|]. pose proof (n_ops_elem c _ op Hin Hc).
  exfalso. assert (comp_count x = 0); [|lia]. apply Hid. by left.
Qed.

Lemma only_one (l : list nat) c c' : (length l <= 1)%nat -> c ∈ l -> c' ∈ l -> c' = c.
Proof. destruct l as [|x [|y l]]; cbn [length]; [by intros _ ?%elem_of_nil| |lia]. intros _ ->%list_elem_of_singleton ->%list_elem_of_singleton. done. Qed.

Lemma idle_quiet b c x s : vq_inv b n s -> (length (inflight_cmds (vs_vq s)) <= 1)%nat -> idle c x s -> buf_ops (vs_dma s) = [].
Proof.
  intros Hinv Hone (Hx & Hinf & _ & Hc). destruct (vi_cmd _ _ _ Hinv c x Hx) as [_ Hcnt _ _ _]. destruct (buf_ops (vs_dma s)) as [|[c' buf] l] eqn:Hb; [done|].
  destruct (elem_buf_ops (vs_dma s) c' buf) as (op & Hin & Hop & _); [rewrite Hb; set_solver|]. pose proof (op_inflight b s op c' Hinv Hin Hop) as Hc'.
  assert (c' = c) as -> by (by eapply only_one). exfalso. by eapply (n_ops_zero c (vs_dma s)); [lia|..].
Qed.

(** While no data is moved, the memory and the controller may change. *)
Lemma quiet_change b s0 s s' : quiet b s0 s ->
  vs_vq s' = vs_vq s -> vs_dma s' = vs_dma s -> vs_started s' = vs_started s -> vs_used s' = vs_used s ->
  vs_mem s' !! Layouts = vs_mem s !! Layouts -> env_ok (vs_env s') -> quiet b s0 s'.
Proof.
  intros [[Hlen Hli Hde Hfr Hcm Hops Hfa Hord] Hcl Hlo Hone Hbo He Hsame] Hq Hd Hs Hu Hm He'. split; rewrite ?Hq, ?Hd, ?Hs; try done.
  - split; rewrite ?Hq, ?Hd, ?Hs, ?Hu; try done. intros c y Hy. destruct (Hcm c y Hy) as [H1 H2 H3 H4 H5]. split; try done.
    intros op Ho Hoc. pose proof (H5 op Ho Hoc) as Hok.
    destruct op as [| |c' buf off len raddr| |]; try done; (eapply buf_ops_elem in Ho; [|done|done]; rewrite Hbo in Ho; by apply elem_of_nil in Ho).
  - intros Hb. specialize (Hcl Hb). unfold settled in *. by rewrite Hq.
  - destruct Hlo as (l & Hl & Hn). exists l. by rewrite Hm.
Qed.

Lemma work_change b c ds s0 s s' : work b c ds s0 s ->
  vs_vq s' = vs_vq s -> vs_dma s' = vs_dma s -> vs_started s' = vs_started s -> vs_used s' = vs_used s ->
  vs_mem s' !! Layouts = vs_mem s !! Layouts -> env_ok (vs_env s') -> work b c ds s0 s'.
Proof. intros [Hw (x & Hi & Hd)] Hq ? ? ? ? ?. split; [by eapply quiet_change|]. exists x. unfold idle. by rewrite Hq. Qed.

Lemma work_lt b c ds s0 s : work b c ds s0 s -> (c < n)%nat.
Proof. intros [Hq (x & (Hx & _) & _)]. apply lookup_lt_Some in Hx. by rewrite (vi_len _ _ _ (qu_inv _ _ _ Hq)) in Hx. Qed.

(** ** Fields of the layout *)

Lemma work_field {B} b c ds s0 s off m (k : Z -> V B) P :
  work b c ds s0 s -> 0 <= off -> off + Z.of_nat m <= sizeof_layout ->
  (forall d, 0 <= d < 2 ^ (8 * Z.of_nat m) -> layout_num c off m s = Ok (s, d) -> post (k d) P s) -> post (m_bind (layout_num c off m) k) P s.
Proof.
  intros Hw Ho Hb Hk. pose proof (work_lt _ _ _ _ _ Hw) as Hc. destruct Hw as [Hq _].
  destruct (run_layout_read n c s off (Z.of_nat m) (qu_layouts _ _ _ Hq) Hc Ho ltac:(lia) Hb) as [l Hl].
  assert (layout_num c off m s = Ok (s, uwrap (8 * Z.of_nat m) (unle l))) as Hrun by (unfold layout_num, m_bind; by rewrite Hl).
  apply post_bind. unfold post at 1. rewrite Hrun. apply Hk; [|done]. apply Z.mod_pos_bound. lia.
Qed.

(** ** The end of a command *)

Lemma work_complete b c ds s0 s status dnr : work b c ds s0 s -> ds <> [] ->
  post (snap_vaq_cmd_complete_int false c status dnr)
    (fun _ s' => quiet b s0 s' /\ vs_env s' = vs_env s /\ forall j k, vs_mem s' !! LmBuf j k = vs_mem s !! LmBuf j k) s.
Proof.
  intros [[Hinv Hcl Hlo Hone Hbo He Hsame] (x & Hi & <-)] Hds. eapply post_mono; [by eapply (adm_complete_ok n b c x s)|].
  intros _ s' [Hinv' Hcl' (Henv & Hmem & Hlen & Hle) Hbo' Hst Hmo Hsd]. split_and!; [|done|intros j k; by apply Hmem].
  split; rewrite ?Henv; try done; [by eapply (layouts_same n (Some Layouts) s)|lia|congruence..].
Qed.

(** ** Virtual functions *)

Lemma post_get_vf {B} i v s (k : vf_ctrl VF -> V B) P : vf_at (vs_env s) i = Some v -> post (k v) P s -> post (m_bind (get_vf i) k) P s.
Proof.
  unfold vf_at. intros Hv Hk. unfold get_vf. apply post_assoc, post_gets. destruct (vfs_ctrl (vs_env s)) as [l|]; [|done]. cbn in Hv.
  destruct (l !! i) as [[w|]|]; [|done..]. cbn in Hv. injection Hv as ->. by apply post_bind, post_return.
Qed.

Lemma work_vf b c ds s0 s i v : work b c ds s0 s -> vf_at (vs_env s) i = Some v -> vf_inv (vf_sys v).
Proof. intros [Hq _] Hv. exact (eo_vf _ (qu_env _ _ _ Hq) i v Hv). Qed.

Definition with_env (s : sys) (e : adm_env VF) : sys := s ⦇ vs_env := e ⦈.

(** A call on a controller: what it answers satisfies [R], and the rest stays as it is. *)
Lemma work_call {A B} b c ds s0 s i v (f : VF -> res (VF * A)) (R : A -> Prop) (k : A -> V B) P :
  work b c ds s0 s -> vf_at (vs_env s) i = Some v ->
  (exists w a, f (vf_sys v) = Ok (w, a) /\ vf_inv w /\ R a) ->
  (forall w a, let s1 := with_env s (put_vf i (v ⦇ vf_sys := w ⦈) (vs_env s)) in
     R a -> work b c ds s0 s1 -> vf_at (vs_env s1) i = Some (v ⦇ vf_sys := w ⦈) -> post (k a) P s1) ->
  post (m_bind (call_vf i f) k) P s.
Proof.
  intros Hw Hv (w & a & Hf & Hi & Hr) Hk. unfold call_vf. apply post_assoc. eapply post_get_vf; [exact Hv|].
  apply post_assoc, post_bind. unfold post at 1, m_res. rewrite Hf. cbn [res_bind fst snd]. apply post_assoc, post_modify, post_bind, post_return.
  apply (Hk w a); [done| |by apply (vf_at_put_eq _ _ v)]. eapply (work_change b c ds s0 s); try done. apply (env_put _ i v); [apply Hw|done|done|by left].
Qed.

Lemma work_track {B} b c ds s0 s i v on (k : unit -> V B) P :
  work b c ds s0 s -> vf_at (vs_env s) i = Some v ->
  (forall w, let s1 := with_env s (put_vf i (v ⦇ vf_sys := w ⦈) (vs_env s)) in
     work b c ds s0 s1 -> vf_at (vs_env s1) i = Some (v ⦇ vf_sys := w ⦈) -> post (k tt) P s1) ->
  post (m_bind (track i on) k) P s.
Proof.
  intros Hw Hv Hk. unfold track. apply post_assoc. eapply (work_call b c ds s0 s i v _ (fun _ => True)); [done|done| |].
  - destruct (vf_track_ok (vf_sys v) on (work_vf _ _ _ _ _ _ _ Hw Hv)) as (w & Hrun & Hi). exists w, tt. by rewrite Hrun.
  - intros w a s1 _ Hw1 Hv1. apply post_bind, post_return. by apply Hk.
Qed.

(** The virtual function a command names, if it exists. *)
Lemma run_which b c ds s0 s : work b c ds s0 s ->
  exists o, snap_virtio_blk_ctrl_get_vf c s = Ok (s, o) /\ forall i, o = Some i -> is_Some (vf_at (vs_env s) i).
Proof.
  intros Hw. enough (post (snap_virtio_blk_ctrl_get_vf c) (fun o s' => s' = s /\ forall i, o = Some i -> is_Some (vf_at (vs_env s) i)) s) as (s' & o & Ho & -> & Hi)%post_run by eauto.
  unfold snap_virtio_blk_ctrl_get_vf. eapply work_field; [exact Hw|unfold in_off; lia|unfold in_off, sizeof_layout; lia|].
  intros d _ _. destruct (Z.ltb_spec (d - 1) 0) as [_|Hd]; [by apply post_return|]. apply post_gets.
  destruct (vfs_ctrl (vs_env s)) as [l|] eqn:Hl; [|by apply post_return].
  destruct (Z.ltb_spec (d - 1) (pci_num_vfs (vs_env s))) as [Hlt|_]; [|by apply post_return].
  destruct Hw as [Hq _]. pose proof (eo_len _ (qu_env _ _ _ Hq) l Hl) as Hn'.
  destruct (lookup_lt_is_Some_2 l (Z.to_nat (d - 1))) as [o Ho]; [lia|]. rewrite Ho. apply post_bind, post_return.
  destruct o as [v|]; apply post_return; [|done]. split; [done|]. intros i [= <-]. exists v. unfold vf_at. rewrite Hl. cbn. by rewrite Ho.
Qed.

Lemma work_which {B} b c ds s0 s (k : option nat -> V B) P :
  work b c ds s0 s -> post (k None) P s -> (forall i v, vf_at (vs_env s) i = Some v -> post (k (Some i)) P s) ->
  post (m_bind (snap_virtio_blk_ctrl_get_vf c) k) P s.
Proof.
  intros Hw Hn Hs. destruct (run_which _ _ _ _ _ Hw) as (o & Ho & Hi). apply post_bind. unfold post at 1. rewrite Ho.
  destruct o as [i|]; [|done]. destruct (Hi i eq_refl) as [v Hv]. by eapply Hs.
Qed.

(** * The invariant of the controller *)

(** Data is moved to or from the buffer of the controller; what is restored has the length
    the command says. *)
Definition pf_inv (s : sys) : Prop :=
  env_ok (vs_env s) /\ (length (inflight_cmds (vs_vq s)) <= 1)%nat /\
  forall c j k, (c, LmBuf j k) ∈ buf_ops (vs_dma s) -> lm_buf (vs_env s) = Some (j, k) /\
    (j = CbRestore -> exists l, vs_mem s !! LmBuf j k = Some l /\ post (layout_num c (in_off + 16) 8) (fun d _ => d = Z.of_nat (length l)) s).

Lemma quiet_after b s0 s : quiet b s0 s -> after n pf_inv b s0 s.
Proof.
  intros [Hinv Hcl Hlo Hone Hbo He Hsame]. injection Hsame as H1 H2 H3. split_and!; try done. split; [done|]. split; [done|]. rewrite Hbo. by intros c j k ?%elem_of_nil.
Qed.

Lemma work_end b c ds s0 s status dnr : work b c ds s0 s -> ds <> [] ->
  post (snap_vaq_cmd_complete_int false c status dnr) (fun _ => after n pf_inv b s0) s.
Proof. intros Hw Hds. eapply post_mono; [by eapply work_complete|]. intros [] s' (Hq & _). by apply quiet_after. Qed.

Lemma work_with_vf b c ds s0 s k : work b c ds s0 s -> ds <> [] ->
  (forall i v, vf_at (vs_env s) i = Some v -> post (k i) (fun _ => after n pf_inv b s0) s) -> post (with_vf c k) (fun _ => after n pf_inv b s0) s.
Proof. intros Hw Hds Hk. unfold with_vf. eapply work_which; [exact Hw|by eapply work_end|exact Hk]. Qed.

(** ** Buffers *)

Lemma fresh_bytes_length k size : 0 <= size -> Z.of_nat (length (fresh_bytes ans k size)) = size.
Proof.
  intros Hs. unfold fresh_bytes, SNAP_DCACHE_LINE. rewrite length_app, length_replicate, length_map, length_seq. lia.
Qed.

Definition new_buf (j : lm_cb) (size : Z) (s : sys) : sys :=
  let k := ae_next_buf (vs_env s) in
  s ⦇ vs_env := (vs_env s) ⦇ ae_next_buf := S k ⦈ ⦇ lm_buf := Some (j, k) ⦈ ⦈ ⦇ vs_mem := <[LmBuf j k := fresh_bytes ans k size]> (vs_mem s) ⦈.

Lemma env_same e e' : env_ok e -> vfs_ctrl e' = vfs_ctrl e -> pci_num_vfs e' = pci_num_vfs e -> ae_maps e' = ae_maps e -> ae_next_map e' = ae_next_map e -> env_ok e'.
Proof. intros [H1 H2 H3 H4 H5] Hv Hn Hm Hk. unfold vf_at in *. split; unfold vf_at; rewrite ?Hv, ?Hn, ?Hm, ?Hk; done. Qed.

Lemma work_alloc {B} b c ds s0 s j size (k : option (lm_cb * nat) -> V B) P :
  work b c ds s0 s ->
  (j <> CbSave -> work b c ds s0 (with_env s ((vs_env s) ⦇ lm_buf := None ⦈)) -> post (k None) P (with_env s ((vs_env s) ⦇ lm_buf := None ⦈))) ->
  (work b c ds s0 (new_buf j size s) -> post (k (Some (j, ae_next_buf (vs_env s)))) P (new_buf j size s)) ->
  post (m_bind (alloc_lm_buf ans j size) k) P s.
Proof.
  intros Hw Hno Hyes. unfold alloc_lm_buf, snap_buf_alloc. apply post_assoc, post_assoc, post_gets.
  destruct (aa_buf ans j (ae_next_buf (vs_env s)) size) eqn:Ha; cbn [negb].
  - apply post_assoc, post_modify, post_assoc, post_modify, post_bind, post_return, post_assoc, post_modify, post_bind, post_return. apply Hyes.
    eapply (work_change b c ds s0 s); try done; [|apply (env_same (vs_env s)); [apply Hw|done..]]. unfold new_buf. arec. by rewrite lookup_insert_ne.
  - apply post_bind, post_return, post_assoc, post_modify, post_bind, post_return. apply Hno.
    + intros ->. by rewrite Hbuf in Ha.
    + eapply (work_change b c ds s0 s); try done. apply (env_same (vs_env s)); [apply Hw|done..].
Qed.

Lemma quiet_free b s0 s j k l : quiet b s0 s -> lm_buf (vs_env s) = Some (j, k) -> vs_mem s !! LmBuf j k = Some l ->
  post free_lm_buf (fun _ => after n pf_inv b s0) s.
Proof.
  intros Hq Hb Hl. unfold free_lm_buf. apply post_gets. rewrite Hb. unfold snap_buf_free. apply post_gets. unfold id. rewrite Hl.
  apply quiet_after. eapply (quiet_change b s0 s); try done; [|apply Hq]. arec. by rewrite lookup_delete_ne.
Qed.

(** The end of a command, and the buffer is freed. *)
Lemma work_end_free b c ds s0 s status dnr j k l : work b c ds s0 s -> ds <> [] -> lm_buf (vs_env s) = Some (j, k) -> vs_mem s !! LmBuf j k = Some l ->
  post (do! snap_vaq_cmd_complete_int false c status dnr in free_lm_buf) (fun _ => after n pf_inv b s0) s.
Proof.
  intros Hw Hds Hb Hl. eapply post_bind_mono; [by eapply work_complete|]. intros [] s' (Hq & He & Hm).
  apply (quiet_free b s0 s' j k l); [done|by rewrite He|by rewrite Hm].
Qed.

Lemma post_mkey {B} j k l s (f : vbuf lm_cb -> V B) P : vs_mem s !! LmBuf j k = Some l -> post (f (LmBuf j k)) P s -> post (m_bind (snap_buf_get_mkey (Some (j, k))) f) P s.
Proof. intros Hl Hf. unfold snap_buf_get_mkey. apply post_assoc, post_gets. unfold id. rewrite Hl. by apply post_bind, post_return. Qed.

(** ** Data *)

Lemma num_same c off m s s' P : vs_mem s' !! Layouts = vs_mem s !! Layouts ->
  post (layout_num c off m) (fun d _ => P d) s -> post (layout_num c off m) (fun d _ => P d) s'.
Proof.
  intros Hm. unfold post, layout_num, layout_read, load_mem, m_bind, gets, id. cbn [res_bind]. rewrite Hm. destruct (vs_mem s !! Layouts); cbn [m_opt mreturn res_bind]; [|done].
  unfold m_res. by destruct (rd _ _ _).
Qed.

(** Moving data between the host and the buffer of the controller. *)
Lemma work_move b c ds s0 s descs off j k l total write : work b c ds s0 s -> ds <> [] ->
  lm_buf (vs_env s) = Some (j, k) -> vs_mem s !! LmBuf j k = Some l -> Z.of_nat (length l) = total -> lm_size j ds (length l) ->
  (j = CbRestore -> post (layout_num c (in_off + 16) 8) (fun d _ => d = total) s) ->
  post (snap_vq_cmd_descs_rw c descs off (LmBuf j k) 0 total (CbClient j) write) (fun ret s' => ret = 0 /\ after n pf_inv b s0 s') s.
Proof.
  intros [[Hinv Hcl Hlo Hone Hbo He Hsame] (x & Hi & <-)] Hds Hb Hl Htot Hsz Hlen. eapply post_mono; [eapply (descs_rw_ok b n s c x); try done|].
  - exists l. split; [done|]. by split.
  - exists l. split_and!; [done|lia..].
  - intros ret s' (-> & Hinv' & [Henv Hm Hif Hmo Hst Hsd] & (ops & Hd & Hall & _) & x' & Hcm & Hp' & _). split; [done|]. injection Hsame as E1 E2 E3.
    split_and!; try congruence; [by eapply (calm_cmd b s)|by destruct Hlo as (l0 & ? & ?); exists l0; rewrite Hm|].
    split; [by rewrite Henv|]. split; [by rewrite Hif|]. intros c' j' k' Hin. rewrite Hd in Hin. unfold buf_ops in Hin. rewrite omap_app in Hin. fold (buf_ops (vs_dma s)) in Hin. rewrite Hbo in Hin.
    cbn [app] in Hin. fold (buf_ops (R := vbuf lm_cb) ops) in Hin. destruct (elem_buf_ops ops c' (LmBuf j' k') Hin) as (op & Hop & Hoc & Hob).
    rewrite Forall_forall in Hall. destruct (Hall op Hop) as [Hoc' Hob']. rewrite Hoc in Hoc'. rewrite Hob in Hob'. injection Hoc' as ->. injection Hob' as -> ->.
    rewrite Henv. split; [done|]. intros Hj. exists l. rewrite Hm, Htot. split; [done|]. apply (num_same c _ _ s); [by rewrite Hm|]. by apply Hlen.
Qed.

Lemma post_descs {B} b c ds s0 s (k : list vring_desc -> V B) P : work b c ds s0 s -> post (k ds) P s -> post (m_bind (descs_of c) k) P s.
Proof. intros [_ (x & (Hx & _) & <-)] Hk. unfold descs_of. apply post_assoc. eapply post_cmd; [exact Hx|]. by apply post_bind, post_return. Qed.

Lemma work_read b c ds s0 s j k l total off : work b c ds s0 s -> ds <> [] ->
  lm_buf (vs_env s) = Some (j, k) -> vs_mem s !! LmBuf j k = Some l -> Z.of_nat (length l) = total -> lm_size j ds (length l) ->
  (j = CbRestore -> post (layout_num c (in_off + 16) 8) (fun d _ => d = total) s) ->
  post (snap_vaq_cmd_layout_data_read c total (LmBuf j k) 0 (CbClient j) off) (fun ret s' => ret = 0 /\ after n pf_inv b s0 s') s.
Proof.
  intros Hw Hds Hb Hl Ht Hsz Hj. unfold snap_vaq_cmd_layout_data_read. eapply post_descs; [exact Hw|]. destruct (skip_descs ds off) as [descs off']. by eapply work_move.
Qed.

(** The buffer is sent to the host. *)
Lemma work_send b c ds s0 s k l len free : work b c ds s0 s -> ds <> [] -> lm_buf (vs_env s) = Some (CbSave, k) -> vs_mem s !! LmBuf CbSave k = Some l ->
  Z.of_nat (length l) = len -> post (send_lm_buf c len free) (fun _ => after n pf_inv b s0) s.
Proof.
  intros Hw Hds Hb Hl Hn. unfold send_lm_buf. apply post_gets. rewrite Hb. eapply post_mkey; [exact Hl|]. eapply (post_bind_mono _ _ (fun ret s' => ret = 0 /\ after n pf_inv b s0 s')).
  - unfold snap_vaq_cmd_layout_data_write. eapply post_descs; [exact Hw|]. by eapply work_move.
  - intros ret s' [-> Ha]. by apply post_return.
Qed.

(** * The commands *)

Lemma law_call {A} (f : VF -> res (VF * A)) w : vf_inv w -> (exists w' a, f w = Ok (w', a) /\ vf_inv w') -> exists w' a, f w = Ok (w', a) /\ vf_inv w' /\ True.
Proof. intros _ (w' & a & ? & ?). eauto. Qed.

Ltac off_ok := first [unfold in_off, out_off; lia | unfold in_off, out_off, sizeof_layout; lia].
(** A call whose answer may be anything. *)
Ltac plain_call law := eapply (work_call _ _ _ _ _ _ _ _ (fun _ => True)); [eassumption|eassumption|eapply law_call; [|eapply law]; by eapply work_vf|].

(** Writing the layout of the command. *)
Lemma work_store {B} b c ds s0 s off data (k : unit -> V B) P :
  work b c ds s0 s -> 0 <= off -> off + Z.of_nat (length data) <= sizeof_layout ->
  (forall s1, work b c ds s0 s1 -> post (k tt) P s1) -> post (m_bind (layout_write c off data) k) P s.
Proof.
  intros Hw Ho Hb Hk. pose proof Hw as [[Hinv Hcl Hlo Hone Hbo He Hsame] (x & Hi & Hd)]. rewrite <- Hd in *.
  eapply (work_layout_write n b c (vc_descs x) s s); [by apply at_work_refl|done|done|done|]. intros s1 [Hinv1 Hcl1 (x1 & Hi1 & Hd1) Hsc Hbo1 Hst Hmo Hsd]. apply Hk.
  split; [|exists x1; by rewrite Hd1]. pose proof Hsc as (Henv & _ & _ & Hle). split; rewrite ?Henv; try done; [by eapply layouts_same|lia|congruence..].
Qed.

Lemma start_track_ok b c ds s0 s : work b c ds s0 s -> ds <> [] -> post (snap_virtio_blk_ctrl_lm_dp_start_track ans c) (fun _ => after n pf_inv b s0) s.
Proof.
  intros Hw Hds. apply (work_with_vf b c ds); [done|done|]. intros i v Hv. eapply work_field; [exact Hw|off_ok|off_ok|]. intros mode _ _.
  destruct (mode =? VIRTIO_M_DIRTY_TRACK_PULL_PAGELIST); [eapply work_track; [exact Hw|exact Hv|]; intros w s1 Hw1 _; by eapply work_end|].
  destruct (_ || _); [|by eapply work_end]. unfold snap_vaq_cmd_get_total_len. apply post_assoc. eapply post_descs; [exact Hw|]. apply post_bind, post_return.
  set (len := u64 (u64 (sumZ (map d_len ds)) - dp_header)). assert (0 <= len) as Hlen by (apply Z.mod_pos_bound; lia).
  eapply work_alloc; [exact Hw| |].
  - intros _ Hw1. by eapply work_end.
  - intros Hw1. assert (vs_mem (new_buf CbDpStart len s) !! LmBuf CbDpStart (ae_next_buf (vs_env s)) = Some (fresh_bytes ans (ae_next_buf (vs_env s)) len)) as Hl
      by (unfold new_buf; arec; by rewrite lookup_insert_eq).
    eapply post_mkey; [exact Hl|]. eapply (post_bind_mono _ _ (fun ret s' => ret = 0 /\ after n pf_inv b s0 s')); [|intros ret s' [-> Ha]; by apply post_return].
    eapply work_read; [exact Hw1|done|done|exact Hl|by apply fresh_bytes_length| |done]. cbn. by apply fresh_bytes_length.
Qed.

Lemma stop_track_ok b c ds s0 s : work b c ds s0 s -> ds <> [] -> post (snap_virtio_blk_ctrl_lm_dp_stop_track c) (fun _ => after n pf_inv b s0) s.
Proof.
  intros Hw Hds. apply (work_with_vf b c ds); [done|done|]. intros i v Hv. eapply work_track; [exact Hw|exact Hv|]. intros w s1 Hw1 Hv1.
  set (v1 := v ⦇ vf_sys := w ⦈) in *. eapply post_get_vf; [exact Hv1|].
  eapply (post_bind_mono _ _ (fun _ s2 => work b c ds s0 s2 /\ exists v2, vf_at (vs_env s2) i = Some v2)).
  - destruct (dp_map v1) as [k|] eqn:Hk; [|apply post_return; eauto]. unfold snap_dp_bmap_destroy. apply post_assoc, post_gets. pose proof (qu_env _ _ _ (proj1 Hw1)) as He.
    destruct (eo_map _ He i v1 k Hv1 Hk) as [m Hm]. rewrite Hm. apply post_modify. unfold post, set_vf, upd_env, modify.
    set (e1 := put_vf i (v1 ⦇ dp_map := None ⦈) ((vs_env s1) ⦇ ae_maps := delete k (ae_maps (vs_env s1)) ⦈)).
    split; [|exists (v1 ⦇ dp_map := None ⦈); arec; by apply (vf_at_put_eq _ _ v1)]. eapply (work_change b c ds s0 s1); try done. by apply (env_drop_map _ i v1 k).
  - intros [] s2 [Hw2 [v2 Hv2]]. eapply post_get_vf; [exact Hv2|]. eapply (post_bind_mono _ _ (fun _ => work b c ds s0)); [|intros [] s3 Hw3; by eapply work_end].
    destruct (pf_xmkey v2); [|by apply post_return]. unfold post, set_vf, upd_env, modify. eapply (work_change b c ds s0 s2); try done.
    apply (env_put _ i v2); [apply Hw2|done|exact (work_vf _ _ _ _ _ _ _ Hw2 Hv2)|by left].
Qed.

Lemma pending_bytes_ok b c ds s0 s size : work b c ds s0 s -> ds <> [] -> post (pending_bytes c size) (fun _ => after n pf_inv b s0) s.
Proof.
  intros Hw Hds. unfold pending_bytes. eapply work_store; [exact Hw|off_ok|rewrite le_length; off_ok|]. intros s1 Hw1. destruct (u64 size <? 0); by eapply work_end.
Qed.

Lemma status_get_ok b c ds s0 s : work b c ds s0 s -> ds <> [] -> post (snap_virtio_blk_ctrl_lm_status_get c) (fun _ => after n pf_inv b s0) s.
Proof.
  intros Hw Hds. apply (work_with_vf b c ds); [done|done|]. intros i v Hv. plain_call vf_get_lm_state_ok. intros w st s1 _ Hw1 _.
  eapply work_store; [exact Hw1|off_ok|rewrite le_length; off_ok|]. intros s2 Hw2. by eapply work_end.
Qed.

Lemma status_modify_ok b c ds s0 s : work b c ds s0 s -> ds <> [] -> post (snap_virtio_blk_ctrl_lm_status_modify c) (fun _ => after n pf_inv b s0) s.
Proof.
  intros Hw Hds. unfold snap_virtio_blk_ctrl_lm_status_modify. eapply work_field; [exact Hw|off_ok|off_ok|]. intros st _ _.
  apply (work_with_vf b c ds); [done|done|]. intros i v Hv. plain_call vf_get_lm_state_ok. intros w cur s1 _ Hw1 Hv1.
  assert (forall ret s2, work b c ds s0 s2 -> post (if negb (ret =? 0) then complete c SNAP_VIRTIO_ADM_STATUS_DEVICE_INTERNAL_ERR else complete c SNAP_VIRTIO_ADM_STATUS_OK)
    (fun _ => after n pf_inv b s0) s2) as Hfin by (intros ret s2 Hw2; destruct (negb (ret =? 0)); by eapply work_end).
  destruct (st =? lm_number SNAP_VIRTIO_CTRL_LM_QUIESCED).
  { case_bool_decide; [plain_call vf_unfreeze_ok; intros w2 ret s2 _ Hw2 _; by apply Hfin|].
    eapply (work_call _ _ _ _ _ _ _ (fun f => vf_quiesce_adm f c) (fun _ => True)); [exact Hw1|exact Hv1|pose proof (work_vf _ _ _ _ _ _ _ Hw1 Hv1) as Hi; by apply (law_call (fun f => vf_quiesce_adm f c)), vf_quiesce_adm_ok|].
    intros w2 [q|] s2 _ Hw2 _; [by eapply (work_end b c ds s0 s2)|]. apply post_return, quiet_after, Hw2. }
  destruct (st =? lm_number SNAP_VIRTIO_CTRL_LM_FREEZED); [plain_call vf_freeze_ok; intros w2 ret s2 _ Hw2 _; by apply Hfin|].
  destruct (st =? lm_number SNAP_VIRTIO_CTRL_LM_RUNNING); [plain_call vf_unquiesce_ok; intros w2 ret s2 _ Hw2 _|]; by apply Hfin.
Qed.

Lemma dp_pending_ok b c ds s0 s : work b c ds s0 s -> ds <> [] -> post (snap_virtio_blk_ctrl_lm_dp_pending_bytes_get c) (fun _ => after n pf_inv b s0) s.
Proof.
  intros Hw Hds. apply (work_with_vf b c ds); [done|done|]. intros i v Hv. plain_call vf_get_lm_state_ok. intros w st s1 _ Hw1 _. by eapply pending_bytes_ok.
Qed.

Lemma pending_ok b c ds s0 s : work b c ds s0 s -> ds <> [] -> post (snap_virtio_blk_ctrl_lm_pending_bytes_get c) (fun _ => after n pf_inv b s0) s.
Proof.
  intros Hw Hds. apply (work_with_vf b c ds); [done|done|]. intros i v Hv. plain_call vf_get_state_size_ok. intros w size s1 _ Hw1 _. by eapply pending_bytes_ok.
Qed.

(** The state is saved in a new buffer, which keeps its length. *)
Lemma save_state_ok b c ds s0 s i v k l len : work b c ds s0 s -> vf_at (vs_env s) i = Some v -> lm_buf (vs_env s) = Some (CbSave, k) -> vs_mem s !! LmBuf CbSave k = Some l ->
  Z.of_nat (length l) = len -> post (save_state i (Some (CbSave, k)) len)
    (fun _ s' => work b c ds s0 s' /\ lm_buf (vs_env s') = Some (CbSave, k) /\ exists l', vs_mem s' !! LmBuf CbSave k = Some l' /\ length l' = length l) s.
Proof.
  intros Hw Hv Hb Hl Hn. unfold save_state, buf_content. apply post_assoc, post_gets. unfold id. rewrite Hl. apply post_assoc, post_bind, post_return, post_bind, post_return.
  eapply (work_call _ _ _ _ _ _ _ _ (fun r => length (fst r) = length l)); [exact Hw|exact Hv| |].
  - destruct (vf_state_save_ok (vf_sys v) l len (work_vf _ _ _ _ _ _ _ Hw Hv) Hn) as (w & l' & ret & Hrun & Hi & Hlen). exists w, (l', ret). by rewrite Hrun.
  - intros w [l' ret] s1 Hlen Hw1 Hv1. apply post_modify, post_return. split_and!; [|done|exists l'; arec; by rewrite lookup_insert_eq].
    eapply (work_change b c ds s0 s1); try done; [arec; by rewrite lookup_insert_ne|apply Hw1].
Qed.

Lemma state_save_ok b c ds s0 s : work b c ds s0 s -> ds <> [] -> post (snap_virtio_blk_ctrl_lm_state_save ans c) (fun _ => after n pf_inv b s0) s.
Proof.
  intros Hw Hds. apply (work_with_vf b c ds); [done|done|]. intros i v Hv. eapply work_field; [exact Hw|off_ok|off_ok|]. intros len Hlen _.
  eapply work_alloc; [exact Hw|done|]. intros Hw1. apply post_bind, post_return. set (k := ae_next_buf (vs_env s)) in *.
  assert (vs_mem (new_buf CbSave len s) !! LmBuf CbSave k = Some (fresh_bytes ans k len)) as Hl by (unfold new_buf; arec; by rewrite lookup_insert_eq).
  pose proof (fresh_bytes_length k len ltac:(lia)) as Hn. eapply post_bind_mono.
  - by eapply (save_state_ok b c ds s0 _ i v k).
  - intros ret s2 (Hw2 & Hb2 & l' & Hl2 & Hlen2). destruct (ret <? 0); [by eapply work_end_free|]. eapply work_send; try done. by rewrite Hlen2.
Qed.

Lemma state_restore_ok b c ds s0 s : work b c ds s0 s -> ds <> [] -> post (snap_virtio_blk_ctrl_lm_state_restore ans c) (fun _ => after n pf_inv b s0) s.
Proof.
  intros Hw Hds. unfold snap_virtio_blk_ctrl_lm_state_restore. eapply work_field; [exact Hw|off_ok|off_ok|]. intros len Hlen Hnum.
  eapply work_alloc; [exact Hw|intros _ Hw1; by eapply work_end|]. intros Hw1. set (k := ae_next_buf (vs_env s)) in *.
  assert (vs_mem (new_buf CbRestore len s) !! LmBuf CbRestore k = Some (fresh_bytes ans k len)) as Hl by (unfold new_buf; arec; by rewrite lookup_insert_eq).
  eapply post_mkey; [exact Hl|]. eapply (post_bind_mono _ _ (fun ret s' => ret = 0 /\ after n pf_inv b s0 s')); [|intros ret s' [-> Ha]; by apply post_return].
  eapply work_read; [exact Hw1|done|done|exact Hl|apply fresh_bytes_length; lia|done|]. intros _.
  apply (num_same c _ _ s); [unfold new_buf; arec; by rewrite lookup_insert_ne|]. unfold post. by rewrite Hnum.
Qed.

Lemma report_map_ok b c ds s0 s : work b c ds s0 s -> ds <> [] -> post (snap_virtio_blk_ctrl_lm_dp_report_map ans c) (fun _ => after n pf_inv b s0) s.
Proof.
  intros Hw Hds. apply (work_with_vf b c ds); [done|done|]. intros i v Hv. eapply work_field; [exact Hw|off_ok|off_ok|]. intros len Hlen _.
  eapply work_alloc; [exact Hw|done|]. intros Hw1. apply post_bind, post_return. set (k := ae_next_buf (vs_env s)) in *. set (s1 := new_buf CbSave len s) in *.
  assert (vs_mem s1 !! LmBuf CbSave k = Some (fresh_bytes ans k len)) as Hl by (unfold s1, new_buf; arec; by rewrite lookup_insert_eq).
  pose proof (fresh_bytes_length k len ltac:(lia)) as Hn. assert (vf_at (vs_env s1) i = Some v) as Hv1 by exact Hv.
  unfold serialize_dirty_pages. apply post_assoc. eapply post_get_vf; [exact Hv1|]. destruct (dp_map v) as [m|].
  - apply post_assoc. plain_call vf_get_lm_state_ok. intros w st s2 _ Hw2 _. apply post_bind, post_return. by eapply (work_send b c ds s0 s2 k).
  - apply post_bind, post_return. change (- EINVAL <? 0) with true. cbn iota. unfold free_lm_buf. apply post_assoc, post_gets.
    change (lm_buf (vs_env s1)) with (Some (CbSave, k)). unfold snap_buf_free. apply post_assoc, post_gets. unfold id. rewrite Hl. apply post_modify.
    eapply work_end; [|done]. eapply (work_change b c ds s0 s1); try done; [arec; by rewrite lookup_delete_ne|apply Hw1].
Qed.

Lemma adm_process_ok b c ds s0 s : work b c ds s0 s -> ds <> [] -> post (snap_virtio_blk_adm_cmd_process ans c) (fun _ => after n pf_inv b s0) s.
Proof.
  intros Hw Hds. unfold snap_virtio_blk_adm_cmd_process. eapply work_field; [exact Hw|off_ok|off_ok|]. intros cl _ _. eapply work_field; [exact Hw|off_ok|off_ok|]. intros co _ _.
  repeat match goal with |- post (if ?x then _ else _) _ _ => destruct x end;
    first [by eapply status_get_ok|by eapply status_modify_ok|by eapply pending_ok|by eapply state_save_ok|by eapply state_restore_ok|
           by eapply start_track_ok|by eapply stop_track_ok|by eapply dp_pending_ok|by eapply report_map_ok|by eapply work_end].
Qed.

(** ** Callbacks *)

(** When the data has arrived or left: the buffer is the one of the controller. *)
Definition arrived (k : lm_cb) (s : sys) (ds : list vring_desc) (c : nat) : Prop :=
  exists b l, lm_buf (vs_env s) = Some (k, b) /\ vs_mem s !! LmBuf k b = Some l /\ lm_size k ds (length l) /\
    (k = CbRestore -> post (layout_num c (in_off + 16) 8) (fun d _ => d = Z.of_nat (length l)) s).

Lemma save_cb_ok b c ds s0 s status : work b c ds s0 s -> ds <> [] -> arrived CbSave s ds c -> post (lm_run_cb ans CbSave c status) (fun _ => after n pf_inv b s0) s.
Proof.
  intros Hw Hds (k & l & Hb & Hl & _). cbn [lm_run_cb]. unfold snap_virtio_blk_ctrl_lm_state_save_cb, free_lm_buf. apply post_assoc, post_gets. rewrite Hb.
  unfold snap_buf_free. apply post_assoc, post_gets. unfold id. rewrite Hl. apply post_modify.
  assert (work b c ds s0 (s ⦇ vs_mem := delete (LmBuf CbSave k) (vs_mem s) ⦈)) as Hw1 by (eapply (work_change b c ds s0 s); try done; [arec; by rewrite lookup_delete_ne|apply Hw]).
  destruct (negb _); by eapply work_end.
Qed.

(** The state that was read for the virtual function of a command is one it accepts. *)
Definition lm_fits (k : lm_cb) (c : nat) (status : Z) (s : sys) : Prop :=
  k = CbRestore -> status = IBV_WC_SUCCESS -> forall i v j l, snap_virtio_blk_ctrl_get_vf c s = Ok (s, Some i) -> vf_at (vs_env s) i = Some v ->
    lm_buf (vs_env s) = Some (CbRestore, j) -> vs_mem s !! LmBuf CbRestore j = Some l -> vf_accepts (vf_sys v) l.

Lemma restore_cb_ok b c ds s0 s status : work b c ds s0 s -> ds <> [] -> arrived CbRestore s ds c -> lm_fits CbRestore c status s -> post (lm_run_cb ans CbRestore c status) (fun _ => after n pf_inv b s0) s.
Proof.
  intros Hw Hds (k & l & Hb & Hl & _ & Hlen) Hfits. specialize (Hlen eq_refl). cbn [lm_run_cb]. unfold snap_virtio_blk_ctrl_lm_state_restore_cb.
  assert (forall st dnr s1, work b c ds s0 s1 -> lm_buf (vs_env s1) = Some (CbRestore, k) -> vs_mem s1 !! LmBuf CbRestore k = Some l ->
    post (do! snap_vaq_cmd_complete_int false c st dnr in free_lm_buf) (fun _ => after n pf_inv b s0) s1) as Hend by (intros; by eapply work_end_free).
  destruct (Z.eqb_spec status IBV_WC_SUCCESS) as [Hst|_]; cbn [negb]; [|by apply Hend]. unfold with_vf. apply post_assoc.
  destruct (run_which _ _ _ _ _ Hw) as (o & Ho & Hi). apply post_bind. unfold post at 1. rewrite Ho. destruct o as [i|]; [|by apply Hend].
  destruct (Hi i eq_refl) as [v Hv]. pose proof (Hfits eq_refl Hst i v k l Ho Hv Hb Hl) as Hacc.
  apply post_assoc. eapply work_field; [exact Hw|off_ok|off_ok|]. intros len _ Hnum. unfold post in Hlen. rewrite Hnum in Hlen. cbn in Hlen. subst len.
  apply post_assoc, post_gets, post_assoc. rewrite Hb. unfold buf_content. apply post_assoc, post_gets. unfold id. rewrite Hl. apply post_assoc, post_bind, post_return, post_bind, post_return.
  apply post_assoc, post_bind, post_return, post_assoc.
  eapply (work_call _ _ _ _ _ _ _ _ (fun _ => True)); [exact Hw|exact Hv| |].
  - destruct (vf_state_restore_ok (vf_sys v) l _ (work_vf _ _ _ _ _ _ _ Hw Hv) eq_refl Hacc) as (w & ret & Hrun & Hiw). exists w, ret. by rewrite Hrun.
  - intros w ret s1 _ Hw1 _. destruct (0 <=? ret); by apply Hend.
Qed.

Lemma i32_le z : 0 <= z -> i32 z <= z.
Proof. intros Hz. unfold i32, uwrap. pose proof (Z.mod_le (z + 2 ^ 31) (2 ^ 32) ltac:(lia) ltac:(lia)). lia. Qed.

Lemma post_load {B} b off len l s (k : list Z -> V B) P : vs_mem s !! b = Some l -> 0 <= off -> off + len <= Z.of_nat (length l) ->
  (forall d, post (k d) P s) -> post (m_bind (load_mem b off len) k) P s.
Proof.
  intros Hl Ho Hb Hk. unfold load_mem. apply post_assoc, post_gets. unfold id. rewrite Hl. apply post_assoc, post_bind, post_return.
  destruct (run_rd l off len Ho Hb) as [d Hd]. apply post_bind. unfold post at 1, m_res. rewrite Hd. apply Hk.
Qed.

(** A command that keeps its buffer. *)
Definition holds (b : bool) (c : nat) (ds : list vring_desc) (s0 : sys) (j : lm_cb) (k : nat) (l : list Z) (s : sys) : Prop :=
  work b c ds s0 s /\ lm_buf (vs_env s) = Some (j, k) /\ vs_mem s !! LmBuf j k = Some l.

Lemma start_track_cb_ok b c ds s0 s status : work b c ds s0 s -> ds <> [] -> arrived CbDpStart s ds c -> post (lm_run_cb ans CbDpStart c status) (fun _ => after n pf_inv b s0) s.
Proof.
  intros Hw Hds (k & l & Hb & Hl & Hsz & _). cbn [lm_run_cb]. unfold snap_virtio_blk_ctrl_lm_dp_start_track_cb. eapply (post_bind_mono _ _ (fun _ => holds b c ds s0 CbDpStart k l)).
  2:{ intros st s' (Hw' & Hb' & Hl'). by eapply work_end_free. }
  assert (holds b c ds s0 CbDpStart k l s) as Hh by done.
  destruct (negb (status =? IBV_WC_SUCCESS)); [by apply post_return|]. eapply work_which; [exact Hw|by apply post_return|]. intros i v Hv.
  eapply work_field; [exact Hw|off_ok|off_ok|]. intros mode _ _. eapply work_field; [exact Hw|off_ok|off_ok|]. intros psz _ _.
  unfold snap_vaq_cmd_get_total_len. apply post_assoc. eapply post_descs; [exact Hw|]. apply post_bind, post_return. apply post_gets. rewrite Hb. eapply post_mkey; [exact Hl|].
  cbn in Hsz. set (len := u64 (u64 (sumZ (map d_len ds)) - dp_header)) in *. assert (0 <= len) as Hlen by (apply Z.mod_pos_bound; lia).
  eapply post_load; [exact Hl|lia| |].
  { pose proof (i32_le (len / sizeof_sge) ltac:(apply Z.div_pos; [done|unfold sizeof_sge; lia])). pose proof (Z.mul_div_le len sizeof_sge ltac:(unfold sizeof_sge; lia)).
    unfold sizeof_sge in *. lia. }
  intros bytes. eapply post_get_vf; [exact Hv|]. pose proof (qu_env _ _ _ (proj1 Hw)) as He. destruct (snap_dp_bmap_create _ _ _ _ _) as [m|].
  - destruct (Hkey (ae_next_map (vs_env s))) as [mkey Hmk]. rewrite Hmk. apply post_modify, post_modify, post_modify. match goal with |- post _ _ ?st => set (s1 := st) end.
    assert (env_ok (vs_env s1)) as He1 by (apply env_alter; by apply (env_new_map (vs_env s) i v)).
    assert (vf_at (vs_env s1) i = Some (v ⦇ dp_map := Some (ae_next_map (vs_env s)) ⦈ ⦇ pf_xmkey := true ⦈)) as Hv1 by (by apply (vf_at_put_eq _ i v)).
    eapply (work_track b c ds s0 s1); [by eapply (work_change b c ds s0 s)|exact Hv1|]. intros w s2 Hw2 _. apply post_return. by split_and!.
  - apply post_modify, post_return. split_and!; try done. eapply (work_change b c ds s0 s); try done. apply (env_put _ i v); [done|done|exact (work_vf _ _ _ _ _ _ _ Hw Hv)|by right].
Qed.

(** * The controller is a client of the queue *)

Lemma lm_ops_elem s c j k : (c, LmBuf j k) ∈ lm_ops s <-> (c, LmBuf j k) ∈ buf_ops (vs_dma s).
Proof. unfold lm_ops. rewrite list_elem_of_filter. split; [by intros [_ ?]|by intros ?]. Qed.

(** A command waits for one buffer. *)
Lemma layouts_alone b s c c' j k : vq_inv b n s -> (length (inflight_cmds (vs_vq s)) <= 1)%nat -> (c, Layouts) ∈ buf_ops (vs_dma s) -> (c', LmBuf j k) ∉ buf_ops (vs_dma s).
Proof.
  intros Hinv Hone H1 H2. destruct (elem_buf_ops _ _ _ H1) as (op1 & Hin1 & Hc1 & Hb1). destruct (elem_buf_ops _ _ _ H2) as (op2 & Hin2 & Hc2 & Hb2).
  pose proof (vi_ops _ _ _ Hinv _ _ Hin1 Hc1). assert (c' = c) as -> by (eapply only_one; [exact Hone|exact (op_inflight b s op1 c Hinv Hin1 Hc1)|exact (op_inflight b s op2 c' Hinv Hin2 Hc2)]).
  destruct (lookup_lt_is_Some_2 (vq_cmds (vs_vq s)) c) as [x Hx]; [by rewrite (vi_len _ _ _ Hinv)|]. destruct (vi_cmd _ _ _ Hinv c x Hx) as [_ _ _ _ Hops].
  pose proof (Hops _ Hin1 Hc1) as Ho1. pose proof (Hops _ Hin2 Hc2) as Ho2.
  assert (exists cb l, done_cb x = Some cb /\ buf_for cb (vc_descs x) Layouts l) as (cb1 & l1 & Hd1 & Hf1)
    by (destruct op1; cbn in Hb1; try done; injection Hb1 as ->; destruct Ho1 as (_ & (cb & l & ? & _ & ?) & _); eauto).
  assert (exists cb l, done_cb x = Some cb /\ buf_for cb (vc_descs x) (LmBuf j k) l) as (cb2 & l2 & Hd2 & Hf2)
    by (destruct op2; cbn in Hb2; try done; injection Hb2 as ->; destruct Ho2 as (_ & (cb & l & ? & _ & ?) & _); eauto).
  rewrite Hd1 in Hd2. injection Hd2 as <-. by destruct cb1.
Qed.

Lemma pf_inv_lm s s' : pf_inv s -> vs_env s' = vs_env s -> vs_mem s' !! Layouts = vs_mem s !! Layouts ->
  (forall b l, vs_mem s !! b = Some l -> exists l', vs_mem s' !! b = Some l' /\ length l' = length l) ->
  (forall c j k, (c, LmBuf j k) ∈ lm_ops s' -> (c, LmBuf j k) ∈ lm_ops s) -> (length (inflight_cmds (vs_vq s')) <= 1)%nat -> pf_inv s'.
Proof.
  intros (He & Hone & Hb) Henv Hl Hm Hin Hone'. split; [by rewrite Henv|]. split; [done|]. intros c j k Hk%lm_ops_elem%Hin%lm_ops_elem. destruct (Hb c j k Hk) as [H1 H2]. rewrite Henv. split; [done|].
  intros Hj. destruct (H2 Hj) as (l & Hll & Hnum). destruct (Hm _ _ Hll) as (l' & Hl' & Hlen). exists l'. split; [done|]. rewrite Hlen. by apply (num_same c _ _ s).
Qed.

#[export] Instance blk_adm_client : AdmClient n (snap_virtio_blk_adm_cmd_process ans) (lm_run_cb ans) lm_fits none_inflight pf_inv.
Proof.
  split.
  - intros s s' Hp (Henv & Hd & Hm & Hle) Hlm. pose proof Hp as (_ & Hone & _). apply (pf_inv_lm s); [done|done|by apply Hd|done|by rewrite Hlm|lia].
  - intros s s' c Hp Had He Hm Hd Hi. apply (pf_inv_lm s); [done|done|by rewrite Hm|rewrite Hm; eauto|unfold lm_ops; by rewrite Hd|by rewrite Hi, Had].
  - intros b s s' Hinv (He & Hone & Hb) (Henv & Hd & Hm & Hle) Hlm Hwho. split; [by rewrite Henv|]. split; [lia|]. intros c j k Hin%lm_ops_elem. rewrite Hlm in Hin. apply lm_ops_elem in Hin. exfalso.
    destruct Hwho as [(c' & x & Hi)|[c' Hc']]; [|by eapply layouts_alone]. rewrite (idle_quiet b c' x s) in Hin by done. by apply elem_of_nil in Hin.
  - intros s s' c buf Hp (Henv & Hd & Hm & Hle) Hlm. pose proof Hp as (_ & Hone & _). assert (buf <> Layouts) as Hne.
    { assert ((c, buf) ∈ lm_ops s) as Hin by (rewrite Hlm; set_solver). unfold lm_ops in Hin. by apply list_elem_of_filter in Hin as [? _]. }
    apply (pf_inv_lm s); [done|done|apply Hd; congruence|done| |lia]. intros c' j k Hin. rewrite Hlm. set_solver.
  - intros b s c x Hinv Hcl Hlo (He & Hone & _) Hi Hds. apply (adm_process_ok b c (vc_descs x)); [|done]. split; [|eauto]. split; try done. by eapply idle_quiet.
  - intros b s0 s c x k buf status Hinv Hcl Hlo Hi Hds Hcb (He & Hone & Hb) (Henv & Hd & Hm & Hle) Hlm (l & Hl & Hsz) Hfits. assert (length (inflight_cmds (vs_vq s)) <= 1)%nat as Hone' by lia.
    assert ((c, LmBuf k buf) ∈ buf_ops (vs_dma s0)) as Hin by (apply lm_ops_elem; rewrite Hlm; set_solver). destruct (Hb _ _ _ Hin) as [Hbuf' Hlen].
    assert (work b c (vc_descs x) s s) as Hw by (split; [split; try done; [by eapply idle_quiet|by rewrite Henv]|eauto]).
    assert (arrived k s (vc_descs x) c) as Harr.
    { exists buf, l. rewrite Henv. split_and!; [done|done|done|]. intros Hk. destruct (Hlen Hk) as (l0 & Hl0 & Hnum). destruct (Hm _ _ Hl0) as (l1 & Hl1 & Hlen1).
      assert (l1 = l) as -> by congruence. rewrite Hlen1. apply (num_same c _ _ s0); [by apply Hd|done]. }
    destruct k; [by eapply start_track_cb_ok|by eapply save_cb_ok|by eapply restore_cb_ok].
Qed.

(** * Theorems *)

(** C10: The admin queue of a block controller: in every state it reaches, every call
    returns, with no access outside a buffer, to a freed buffer or to a null pointer, also
    when work on the DMA queue fails; afterwards there is at most one command in flight,
    the controllers of the virtual functions satisfy their invariant and every dirty page
    map they refer to is allocated and their own.  The conditions: the host sends one
    command at a time, with chains that fit in the pool of descriptors; the DMA queue
    accepts every post; the buffer of a save and the key of a dirty page map can be
    allocated; the operations of the virtual functions return and keep their invariant
    ([VfLaws]), restoring a state only when the state the host sent is one that the virtual
    function accepts. *)
Theorem adm_calls_return b in_order s s' k :
  vq_new n (fun s => layouts_ok n s /\ env_ok (vs_env s)) in_order s ->
  star (vq_step (blk_adm_handle) (blk_adm_cb ans) (adm_cb_fits lm_fits) none_inflight b) s s' ->
  call_fits (blk_adm_handle) (blk_adm_cb ans) (adm_cb_fits lm_fits) none_inflight b k s' ->
  exists s2, run_vq (blk_adm_handle) (blk_adm_cb ans) k s' = Ok (s2, tt) /\ env_ok (vs_env s2) /\ layouts_ok n s2 /\
    (length (inflight_cmds (vs_vq s2)) <= 1)%nat.
Proof.
  intros (Hcr & Hd & Hst & Hu & Hlo & He) Hrun Hfits.
  assert (vq_new n (fun s => layouts_ok n s /\ pf_inv s) in_order s) as Hnew.
  { split_and!; try done. split; [done|]. destruct Hcr as (a & pa & rec & entries & held & used & Hcr). rewrite Hd. split; [|by intros c j k' ?%elem_of_nil].
    rewrite (vq_create_idle a n pa in_order rec entries held (vs_vq s) used) by done. cbn. lia. }
  destruct (vq_call_ok _ _ _ n none_inflight _ b in_order s s' k Hnew Hrun Hfits) as (s2 & Hs2 & [_ _ [Hlo2 (He2 & Hone & _)] _]). eauto.
Qed.

End Props.
