(* ===== verification/AdmVf.v ===== *)
(** The controller of Ctrl.v and CtrlState.v as the controller of a virtual function that the
    admin commands of AdmCmd.v work on. *)

From stdpp Require Import gmap.
From S2P Require Import Prelude Effects Bytes PollGroups Ctrl CtrlState Vq VqAdm AdmCmd.

Section Vf.
Context {W D Q : Type} `{!CtrlOps W D Q} `{!StateOps W D Q}.
#[local] Abbreviation C := (M (cstate W D Q)).

(** [vf_ctrl->quiesce_cmd = cmd], and the call; the command was answered when the controller
    no longer has it. *)
Definition quiesce_for (c : nat) : C (option Z) :=
  do! upd_ctrl (fun k => k ⦇ quiesce_cmd := Some (Z.of_nat c) ⦈) in
  let! ret := snap_virtio_ctrl_quiesce_adm in
  let! k := ctrl in
  mreturn (match quiesce_cmd k with
           | None => Some (if negb (ret =? 0) then SNAP_VIRTIO_ADMIN_STATUS_Q_TRYAGAIN else SNAP_VIRTIO_ADMIN_STATUS_Q_OK)
           | Some _ => None
           end).

(** [snap_virtio_ctrl_state_save] and [snap_virtio_ctrl_state_restore] under the lock; a null
    pointer is a buffer without bytes. *)
Definition save_locked (b : option (list Z)) (len : Z) : C (list Z * Z) :=
  with_lock (snap_virtio_ctrl_state_save (from_option id [] b) len).
Definition restore_locked (l : list Z) (len : Z) : C Z := with_lock (snap_virtio_ctrl_state_restore l len).

#[export] Instance ctrl_vf : VfCtrl (cstate W D Q) := {|
  vf_get_lm_state := snap_virtio_ctrl_get_lm_state;
  vf_quiesce_adm s c := quiesce_for c s;
  vf_unquiesce := snap_virtio_ctrl_unquiesce;
  vf_freeze := snap_virtio_ctrl_freeze;
  vf_unfreeze := snap_virtio_ctrl_unfreeze;
  vf_get_state_size := snap_virtio_ctrl_get_state_size_v2;
  vf_state_save s b len := let? r := save_locked b len s in let '(s, (l, ret)) := r in Ok (s, l, ret);
  vf_state_restore s l len := restore_locked l len s;
  vf_track s on := let? r := (if on then snap_virtio_ctrl_start_dirty_pages_track else snap_virtio_ctrl_stop_dirty_pages_track) s in Ok (fst r)
|}.

End Vf.
