(* ===== verification/AdmRun.v ===== *)
(** Runs of the admin queue of a block controller.  A small virtual function, whose state is a
    list of bytes, instantiates the theorems of VqProps.v, VqData.v and AdmCmdProps.v; other
    runs show what happens when two commands share the buffer of the controller, and the
    migration of the controller of Ctrl.v. *)

From stdpp Require Import gmap.
From S2P Require Import Prelude Effects Bytes BlkDescs DpMap PollGroups Ctrl CtrlProps CtrlRun CtrlState.
From S2P Require Import Vq VqInv VqProps VqAdm VqAdmProps VqData AdmCmd AdmCmdProps AdmVf.

Module AdmRun.

(** * Checking a run *)

Section Fits.
Context {W R CB : Type} `{Countable R} `{!DmaPost W}.
#[local] Abbreviation sys := (vqs W R CB).
#[local] Abbreviation V := (M sys).
Context (handle : nat -> V unit) (run_cb : CB -> nat -> Z -> V unit) (cb_fits : CB -> nat -> Z -> sys -> Prop) (cb_check : CB -> nat -> Z -> sys -> bool).
Context (Hcb : forall cb c status s, cb_check cb c status s = true -> cb_fits cb c status s).
Context (admits : sys -> Prop) (ok_to_start : sys -> bool) (Hadm : forall s, ok_to_start s = true -> admits s).

Definition pool_left (s : sys) : nat := length (free_descs (vs_vq s)).

Definition fetch_check (host : Z -> Z) (s : sys) : bool :=
  match vs_dma s with DFetch _ raddr :: _ => negb (has_next (desc_at host raddr)) || (0 <? pool_left s)%nat | _ => true end.

Definition data_check (status : Z) (host : Z -> Z) (s : sys) : bool :=
  match vs_dma s with
  | op :: l =>
      match op_cmd op, moved status host op (s ⦇ vs_dma := l ⦈) with
      | Some c, Ok (sm, _) =>
          match vq_cmds (vs_vq sm) !! c with
          | Some x => match done_cb x with Some cb => cb_check cb c status (set_cmd c (x ⦇ comp_count := comp_count x - 1 ⦈) sm) | None => true end
          | None => true
          end
      | _, _ => true
      end
  | [] => true
  end.

Definition arrival_check (hdr : snap_vq_header) (s : sys) : bool :=
  let l := copied (h_descs hdr) in
  ok_to_start s && negb (bool_decide (free_cmds (vs_vq s) = [])) && negb (bool_decide (length (h_descs hdr) = 0%nat)) &&
  (length l <=? pool_left s)%nat &&
  match last l with Some d => negb (has_next d) || (length l <? pool_left s)%nat | None => true end.

Fixpoint tx_check (l : list (Z * (Z -> Z))) (s : sys) : bool :=
  match l with
  | [] => true
  | (status, host) :: l => (status =? IBV_WC_SUCCESS) && fetch_check host s && data_check status host s &&
      match exec_tx handle run_cb status host s with Ok (s', _) => tx_check l s' | _ => false end
  end.
Fixpoint rx_check (l : list snap_vq_header) (s : sys) : bool :=
  match l with
  | [] => true
  | hdr :: l => arrival_check hdr s && match snap_vq_cmd_start handle hdr s with Ok (s', _) => rx_check l s' | _ => false end
  end.
Definition call_check (k : vq_call) (s : sys) : bool :=
  match k with
  | VqProgress tx rx => tx_check tx s && match progress_tx handle run_cb tx s with Ok (s1, _) => rx_check rx s1 | _ => false end
  | _ => true
  end.

Lemma fetch_check_ok host s : fetch_check host s = true -> fetch_fits s host.
Proof.
  unfold fetch_check, fetch_fits, pool_left. intros Hc c raddr l Hd Hn. rewrite Hd, Hn in Hc. cbn in Hc. destruct (free_descs (vs_vq s)); [done|done].
Qed.

Lemma data_check_ok status host s : data_check status host s = true -> data_fits cb_fits status host s.
Proof.
  unfold data_check. intros Hc op l c sm Hd Hop _ Hm x cb Hx _ _ Hdone. rewrite Hd, Hop, Hm, Hx, Hdone in Hc. by apply Hcb.
Qed.

Lemma arrival_check_ok hdr s : arrival_check hdr s = true -> arrival_fits admits s hdr.
Proof.
  unfold arrival_check, arrival_fits, pool_left. intros Hc. apply andb_prop in Hc as [Hc H5]. apply andb_prop in Hc as [Hc H4]. apply andb_prop in Hc as [Hc H3].
  apply andb_prop in Hc as [H1 H2]. apply negb_true_iff, bool_decide_eq_false_1 in H2. apply negb_true_iff, bool_decide_eq_false_1 in H3. apply Nat.leb_le in H4.
  split_and!; [by apply Hadm|done|by destruct (h_descs hdr)|done|]. intros d Hd Hn. rewrite Hd, Hn in H5. by apply Nat.ltb_lt in H5.
Qed.

Lemma tx_check_ok : forall l s, tx_check l s = true -> tx_fits handle run_cb cb_fits l s /\ Forall (fun e => fst e = IBV_WC_SUCCESS) l.
Proof.
  induction l as [|[status host] l IH]; intros s; cbn [tx_check tx_fits]; [by split|]. intros Hc. apply andb_prop in Hc as [Hc Hr]. apply andb_prop in Hc as [Hc Hda]. apply andb_prop in Hc as [Hs Hf].
  apply Z.eqb_eq in Hs. destruct (exec_tx handle run_cb status host s) as [[s' []]| | |] eqn:He; [|done..]. destruct (IH s' Hr) as [H1 H2]. split; [|by constructor].
  split_and!; [by apply fetch_check_ok|by apply data_check_ok|]. intros s1 [= <-]. done.
Qed.

Lemma rx_check_ok : forall l s, rx_check l s = true -> rx_fits handle admits l s.
Proof.
  induction l as [|hdr l IH]; intros s; cbn [rx_check rx_fits]; [done|]. intros Hc. apply andb_prop in Hc as [Ha Hr].
  destruct (snap_vq_cmd_start handle hdr s) as [[s' []]| | |] eqn:He; [|done..]. split; [by apply arrival_check_ok|]. intros s1 [= <-]. by apply IH.
Qed.

Lemma call_check_ok b k s : call_check k s = true -> call_fits handle run_cb cb_fits admits b k s.
Proof.
  destruct k as [tx rx| |]; [|done..]. cbn [call_check call_fits]. intros Hc. apply andb_prop in Hc as [Ht Hr]. destruct (tx_check_ok tx s Ht) as [H1 H2].
  split_and!; [done|done|]. intros s1 Hp _. rewrite Hp in Hr. by apply rx_check_ok.
Qed.

(** The state after a list of calls that fit. *)
Fixpoint run_calls (l : list vq_call) (s : sys) : res sys :=
  match l with
  | [] => Ok s
  | k :: l => if call_check k s then let? r := run_vq handle run_cb k s in run_calls l (fst r) else Err 0
  end.

Lemma calls_star b : forall l s s', run_calls l s = Ok s' -> star (vq_step handle run_cb cb_fits admits b) s s'.
Proof.
  induction l as [|k l IH]; intros s s'; cbn [run_calls]; [intros [= <-]; constructor|]. destruct (call_check k s) eqn:Hc; [|done].
  destruct (run_vq handle run_cb k s) as [[s1 []]| | |] eqn:Hr; [|done..]. cbn [res_bind fst]. intros Hs. econstructor; [|by apply IH].
  econstructor; [by apply (call_check_ok b k)|done].
Qed.
End Fits.

(** * A small virtual function *)

(** It has no way to restore a state without bytes. *)
Record toy := mk_toy { t_lm : snap_virtio_ctrl_lm_state; t_data : list Z }.

#[local] Instance toy_vf : VfCtrl toy := {|
  vf_get_lm_state v := Ok (v, t_lm v);
  vf_quiesce_adm v c := Ok (mk_toy SNAP_VIRTIO_CTRL_LM_QUIESCED (t_data v), Some 0);
  vf_unquiesce v := Ok (mk_toy SNAP_VIRTIO_CTRL_LM_RUNNING (t_data v), 0);
  vf_freeze v := Ok (mk_toy SNAP_VIRTIO_CTRL_LM_FREEZED (t_data v), 0);
  vf_unfreeze v := Ok (mk_toy SNAP_VIRTIO_CTRL_LM_QUIESCED (t_data v), 0);
  vf_get_state_size v := Ok (v, Z.of_nat (length (t_data v)));
  vf_state_save v b len :=
    match b with
    | None => Oob
    | Some l => Ok (if len <? Z.of_nat (length (t_data v)) then (v, l, - EINVAL) else (v, t_data v ++ drop (length (t_data v)) l, len))
    end;
  vf_state_restore v l len := match l with [] => Oob | _ => Ok (mk_toy (t_lm v) l, len) end;
  vf_track v on := Ok v
|}.

Definition any_toy (v : toy) : Prop := True.
Definition some_bytes (v : toy) (l : list Z) : Prop := l <> [].

#[local] Instance toy_laws : VfLaws any_toy some_bytes.
Proof.
  split; try by (intros; cbn; eauto). 2:{ intros v [|d l] len _ _ Hl; [done|]. cbn. do 2 eexists. by split. }
  intros v l len _ Hl. cbn. destruct (Z.ltb_spec len (Z.of_nat (length (t_data v)))); do 3 eexists; split_and!; try done. rewrite length_app, length_drop. lia.
Qed.

(** The DMA queue takes all the work. *)
#[local] Instance dma_ok VF : DmaPost (adm_env VF) := fun w => (w, 0).
#[local] Instance dma_ok_works VF : DmaWorks (W := adm_env VF).
Proof. done. Qed.

(** Everything can be allocated; fresh memory holds 165s. *)
Definition all_good : adm_answers := mk_aa (fun _ _ _ => true) (fun _ _ => 165) (fun _ => true) (fun _ => true) (fun _ => Some 99).

Lemma keys_made k : is_Some (aa_xmkey all_good k).
Proof. by eexists. Qed.

(** * The queue *)

Definition size : nat := 8.
Definition vq_ok : vq_answers := mk_vqa true 0 0 (fun _ => true) true true true 0 true 0 0.
Definition created : list vq_res * option (snap_vq (adm_cb lm_cb) * Z) := snap_vq_create vq_ok size 65536 true false (fun _ => mk_desc 0 0 0 0).
Definition layouts : list Z := repeat 0 (size * 1056).

(** A physical function with the controllers [vfs]. *)
Definition start {VF} (vfs : list (option (vf_ctrl VF))) : vqs (adm_env VF) (vbuf lm_cb) (adm_cb lm_cb) :=
  mk_vqs (mk_ae None 0 (Z.of_nat (length vfs)) (Some vfs) ∅ 0)
    (match snd created with Some (q, _) => q | None => mk_vq SNAP_VQ_STATE_RUNNING 0 true [] [] [] [] [] end)
    {[ Layouts := layouts ]} [] [] [] [].

Definition vfs : list (option (vf_ctrl toy)) := [Some (mk_vf (mk_toy SNAP_VIRTIO_CTRL_LM_RUNNING [11; 12; 13; 14]) None false); None].

Lemma start_new : vq_new size (fun s => layouts_ok size s /\ env_ok any_toy (vs_env s)) true (start vfs).
Proof.
  split_and!; try done.
  - exists vq_ok, 65536, false, (fun _ => mk_desc 0 0 0 0). repeat eexists.
  - exists layouts. split; [done|]. vm_compute. done.
  - split; try done; cbn.
    + intros l [= <-]. done.
    + intros [|[|i]] v k; cbn; try done. by intros [= <-].
    + intros [|[|i]] j v w k; cbn; try done. by intros [= <-].
Qed.

(** Commands in the memory of the host: the bytes at 4096, the answer at 8192. *)
Definition memory (l : list Z) (a : Z) : Z := nth (Z.to_nat (a - 4096)) l 0.
Definition chain (id : Z) (in_len out_len : Z) : snap_vq_header :=
  mk_vqh id [mk_desc 4096 in_len VRING_DESC_F_NEXT 1; mk_desc 8192 out_len VRING_DESC_F_WRITE 0].
Definition ok_with (l : list Z) : Z * (Z -> Z) := (IBV_WC_SUCCESS, memory l).
Definition poll (l : list Z) (n : nat) : vq_call := VqProgress (repeat (ok_with l) n) [].

Definition save_cmd (vdev len : Z) : list Z := le 1 64 ++ le 1 4 ++ le 2 vdev ++ repeat 0 14 ++ le 8 len.
Definition restore_cmd (vdev : Z) (data : list Z) : list Z := le 1 64 ++ le 1 5 ++ le 2 vdev ++ repeat 0 14 ++ le 8 (Z.of_nat (length data)) ++ data.

(** One command that is served: it arrives, its header and input are read, data is moved,
    status and completion leave. *)
Definition serve (id : Z) (cmd : list Z) (out_len : Z) : list vq_call :=
  VqProgress [] [chain id (Z.of_nat (length cmd)) out_len] :: repeat (poll cmd 1) 5.

#[local] Abbreviation handle := (blk_adm_handle (VF := toy)).
#[local] Abbreviation callbacks := (blk_adm_cb (VF := toy) all_good).
Definition may_start {VF} (s : vqs (adm_env VF) (vbuf lm_cb) (adm_cb lm_cb)) : bool := bool_decide (inflight_cmds (vs_vq s) = []).
Lemma may_start_ok (s : vqs (adm_env toy) (vbuf lm_cb) (adm_cb lm_cb)) : may_start s = true -> none_inflight s.
Proof. apply bool_decide_eq_true_1. Qed.

#[local] Abbreviation fits := (adm_cb_fits (lm_fits some_bytes)).

(** The state that arrives has a byte. *)
Definition state_check {VF} (cb : adm_cb lm_cb) (c : nat) (status : Z) (s : vqs (adm_env VF) (vbuf lm_cb) (adm_cb lm_cb)) : bool :=
  match cb with
  | CbClient CbRestore =>
      match lm_buf (vs_env s) with Some (CbRestore, j) => match vs_mem s !! LmBuf CbRestore j with Some [] => false | _ => true end | _ => true end
  | _ => true
  end.
Lemma state_check_ok cb c status (s : vqs (adm_env toy) (vbuf lm_cb) (adm_cb lm_cb)) : state_check cb c status s = true -> fits cb c status s.
Proof.
  destruct cb as [| |k]; try done. cbn. intros Hc -> _ i v j l _ _ Hb Hl ->. by rewrite Hb, Hl in Hc.
Qed.

Definition run1 (l : list vq_call) := run_calls handle callbacks state_check may_start l (start vfs).

(** Two commands one after the other: the state is saved to the host, and another restored. *)
Definition two_commands : list vq_call := serve 7 (save_cmd 1 4) 5 ++ serve 9 (restore_cmd 1 [21; 22; 23]) 1.

Definition seen (r : res (vqs (adm_env toy) (vbuf lm_cb) (adm_cb lm_cb))) :=
  match r with
  | Ok s => Some (vs_used s, vs_host s, inflight_cmds (vs_vq s), (fun o => t_data (vf_sys o)) <$> vf_at (vs_env s) 0)
  | _ => None
  end.

Example two_commands_served : seen (run1 two_commands) =
  Some ([(7, 5); (9, 1)], [(8192, [11; 12; 13; 14]); (8196, [0]); (8192, [0])], [], Some [21; 22; 23]).
Proof. vm_compute. reflexivity. Qed.

(** * The theorems at this device *)

Lemma run1_steps b l s' : run1 l = Ok s' -> star (vq_step handle callbacks fits none_inflight b) (start vfs) s'.
Proof. apply calls_star; [apply state_check_ok|apply may_start_ok]. Qed.

Lemma run1_seen l v : seen (run1 l) = Some v -> exists s', run1 l = Ok s' /\ seen (Ok s') = Some v.
Proof. destruct (run1 l) as [s'| | |] eqn:Hr; [eauto|done..]. Qed.

Lemma run1_check f l s' : (match run1 l with Ok s => f s | _ => false end) = true -> run1 l = Ok s' -> f s' = true.
Proof. intros Hf Hr. by rewrite Hr in Hf. Qed.

Lemma start_new_pf : vq_new size (fun s => layouts_ok size s /\ pf_inv any_toy s) true (start vfs).
Proof.
  destruct start_new as (H1 & H2 & H3 & H4 & H5 & H6). split_and!; try done. split; [done|]. split; [cbn; lia|]. rewrite H2. by intros c j k ?%elem_of_nil.
Qed.

#[local] Instance toy_client : VqClient handle callbacks fits size none_inflight (fun s => layouts_ok size s /\ pf_inv any_toy s).
Proof. apply adm_vq_client. apply blk_adm_client; [apply toy_laws|done|done|apply keys_made]. Qed.

(** The queue while the second command waits for its input: the first was completed. *)
Definition half_way : list vq_call := serve 7 (save_cmd 1 4) 5 ++ take 2 (serve 9 (restore_cmd 1 [21; 22; 23]) 1).

Lemma vq_reachable_witness : exists s', seen (Ok s') = Some ([(7, 5)], [(8192, [11; 12; 13; 14]); (8196, [0])], [0%nat], Some [11; 12; 13; 14]) /\
  vs_started s' = [7] ++ sends (vs_dma s') ++ map (id_of (vq_cmds (vs_vq s'))) (reverse [0%nat]).
Proof.
  destruct (run1_seen half_way _ ltac:(vm_compute; reflexivity)) as (s' & Hrun & Hseen). exists s'. split; [exact Hseen|].
  destruct (vq_reachable handle callbacks fits size none_inflight _ true true (start vfs) s' start_new_pf (run1_steps true half_way s' Hrun)) as (_ & _ & _ & _ & H5).
  destruct (H5 eq_refl) as [_ Hord]. cbn in Hseen. injection Hseen as Hu Hh Hi Hd. rewrite Hu, Hi in Hord. apply Hord.
  apply (run1_check (fun s => vq_in_order (vs_vq s)) half_way); [vm_compute; reflexivity|exact Hrun].
Defined.

Lemma adm_calls_return_witness : exists s' s2, seen (Ok s') = Some ([(7, 5)], [(8192, [11; 12; 13; 14]); (8196, [0])], [0%nat], Some [11; 12; 13; 14]) /\
  run_vq handle callbacks (poll (restore_cmd 1 [21; 22; 23]) 1) s' = Ok (s2, tt) /\ env_ok any_toy (vs_env s2).
Proof.
  destruct (run1_seen half_way _ ltac:(vm_compute; reflexivity)) as (s' & Hrun & Hseen).
  destruct (adm_calls_return any_toy some_bytes all_good ltac:(done) keys_made size true true (start vfs) s' (poll (restore_cmd 1 [21; 22; 23]) 1) start_new (run1_steps true half_way s' Hrun))
    as (s2 & Hs2 & He & _).
  - apply (call_check_ok handle callbacks fits state_check state_check_ok none_inflight may_start may_start_ok). apply (run1_check (call_check handle callbacks state_check may_start _) half_way); [vm_compute; reflexivity|exact Hrun].
  - exists s', s2. split; [exact Hseen|]. split; [exact Hs2|exact He].
Defined.

(** A command with three descriptors, the last two writable. *)
Definition long_cmd : snap_vq_cmd (adm_cb lm_cb) :=
  mk_vcmd [mk_desc 4096 5 1 1; mk_desc 8192 3 3 2; mk_desc 9000 4 2 0] 3 0 7 false 0 CF_NULL None.
Definition with_long : vqs (adm_env toy) (vbuf lm_cb) (adm_cb lm_cb) :=
  (start vfs) ⦇ vs_vq := (vs_vq (start vfs)) ⦇ vq_cmds := <[0%nat := long_cmd]> (vq_cmds (vs_vq (start vfs))) ⦈ ⦈.

Lemma data_moves_chain_witness : exists s1 s2,
  snap_vaq_cmd_layout_data_read 0 5 (LmBuf CbRestore 0) 10 (CbClient CbRestore) 4 with_long = Ok (s1, 0) /\
  moves 0 (LmBuf CbRestore 0) false [(4100, 10); (8192, 11); (8193, 12); (8194, 13); (9000, 14)] long_cmd with_long s1 /\
  snap_vaq_cmd_layout_data_write 0 5 (LmBuf CbRestore 0) (CbClient CbRestore) with_long = Ok (s2, 0) /\
  moves 0 (LmBuf CbRestore 0) true [(8192, 0); (8193, 1); (8194, 2); (9000, 3); (9001, 4)] long_cmd with_long s2.
Proof.
  destruct (data_moves_chain with_long 0 long_cmd (LmBuf CbRestore 0) 10 5 (CbClient CbRestore) 4) as [(s1 & H1 & M1) (s2 & H2 & M2)]; [reflexivity|reflexivity| |lia|].
  - repeat constructor; cbn; lia.
  - exists s1, s2. split; [exact H1|]. split; [exact M1|]. split; [exact H2|exact M2].
Defined.

(** * Two commands at a time *)

(** Without waiting for the end of the first. *)
Definition run_free (ans : adm_answers) (l : list vq_call) :=
  run_calls handle (blk_adm_cb (VF := toy) ans) (fun _ _ _ _ => true) (fun _ => true) l (start vfs).

Definition two_saves : list vq_call :=
  let cmd := save_cmd 1 4 in
  VqProgress [] [chain 7 26 5; chain 9 26 5] :: repeat (poll cmd 1) 5.

Definition is_oob {A} (r : res A) : bool := match r with Oob => true | _ => false end.
Lemma is_oob_ok {A} (r : res A) : is_oob r = true -> r = Oob.
Proof. by destruct r. Qed.

(** A run that ends in a state with [f]. *)
Definition ends {S} (f : S -> bool) (r : res S) : bool := match r with Ok s => f s | _ => false end.
Lemma ends_ok {S} (f : S -> bool) r : ends f r = true -> exists s, r = Ok s /\ f s = true.
Proof. destruct r; [eauto|done..]. Qed.

(** Two commands that save the state of a virtual function, the second sent before the
    first is completed: the callback of the first frees the buffer of the second, which the
    DMA queue then reads (src/ctrl/snap_virtio_blk_ctrl.c keeps one [lm_buf] per controller). *)
Theorem overlapping_saves_use_freed_buffer :
  exists s, run_free all_good two_saves = Ok s /\ buf_ops (vs_dma s) = [(1%nat, LmBuf CbSave 1%nat)] /\
    vs_mem s !! LmBuf CbSave 1%nat = None /\ is_Some (vs_mem s !! LmBuf CbSave 0%nat) /\
    run_vq handle callbacks (poll (save_cmd 1 4) 1) s = Oob.
Proof.
  destruct (ends_ok (fun s => bool_decide (buf_ops (vs_dma s) = [(1%nat, LmBuf CbSave 1%nat)]) && bool_decide (vs_mem s !! LmBuf CbSave 1%nat = None) &&
    bool_decide (is_Some (vs_mem s !! LmBuf CbSave 0%nat)) && is_oob (run_vq handle callbacks (poll (save_cmd 1 4) 1) s)) (run_free all_good two_saves)) as (s & Hs & Hf); [vm_compute; reflexivity|].
  exists s. split; [done|]. apply andb_prop in Hf as [Hf H4]. apply andb_prop in Hf as [Hf H3]. apply andb_prop in Hf as [H1 H2].
  split_and!; [by apply bool_decide_eq_true_1 in H1|by apply bool_decide_eq_true_1 in H2|by apply bool_decide_eq_true_1 in H3|by apply is_oob_ok].
Qed.

(** ** When something cannot be allocated *)

Definition no_buffers : adm_answers := mk_aa (fun _ _ _ => false) (fun _ _ => 165) (fun _ => true) (fun _ => true) (fun _ => Some 99).
Definition no_keys : adm_answers := mk_aa (fun _ _ _ => true) (fun _ _ => 165) (fun _ => true) (fun _ => true) (fun _ => None).

(** A save whose buffer cannot be allocated is answered, and the state is then saved at a
    null pointer. *)
Example failed_save_buffer :
  ends (fun s => is_oob (run_vq handle (blk_adm_cb no_buffers) (poll (save_cmd 1 4) 1) s)) (run_free no_buffers (take 2 (serve 7 (save_cmd 1 4) 5))) = true.
Proof. vm_compute. reflexivity. Qed.

Definition start_track_cmd (vdev : Z) (sge : list Z) : list Z := le 1 65 ++ le 1 1 ++ le 2 vdev ++ le 2 1 ++ le 4 4096 ++ repeat 0 16 ++ sge.
Definition stop_track_cmd (vdev : Z) : list Z := le 1 65 ++ le 1 2 ++ le 2 vdev ++ repeat 0 14.
Definition one_sge : list Z := le 8 32768 ++ le 4 64 ++ le 4 0.

(** When the key for a dirty page map cannot be created the map is destroyed, but the
    controller keeps its address, and the end of the tracking destroys it again. *)
Definition track_cmds : list vq_call :=
  [VqProgress [] [chain 7 42 1]; poll (start_track_cmd 1 one_sge) 1; poll (start_track_cmd 1 one_sge) 1; poll (start_track_cmd 1 one_sge) 4] ++
  [VqProgress [] [chain 9 18 1]; poll (stop_track_cmd 1) 1].
Example failed_key_dangling_map :
  ends (fun s => is_oob (run_vq handle (blk_adm_cb no_keys) (poll (stop_track_cmd 1) 1) s)) (run_free no_keys track_cmds) = true.
Proof. vm_compute. reflexivity. Qed.

(** ** No place for the data *)

(** A save without a descriptor the device may write is never answered, and its queue is
    never suspended. *)
Example unanswered_save :
  match run_free all_good ([VqProgress [] [mk_vqh 7 [mk_desc 4096 26 0 0]]; poll (save_cmd 1 4) 1; poll (save_cmd 1 4) 1; VqSuspend; poll [] 9; poll [] 9]) with
  | Ok s => (vs_used s, vs_dma s, inflight_cmds (vs_vq s), vq_state (vs_vq s)) | _ => ([], [], [], SNAP_VQ_STATE_RUNNING) end =
  ([], [], [0%nat], SNAP_VQ_STATE_FLUSHING).
Proof. vm_compute. reflexivity. Qed.

(** ** Chains without an end *)

(** A descriptor that is its own successor takes the whole pool of descriptors, and the next
    one is taken from an empty list. *)
Definition loop_desc : list Z := le 8 4096 ++ le 4 26 ++ le 2 VRING_DESC_F_NEXT ++ le 2 0.
Definition loop_host (a : Z) : Z := nth (Z.to_nat (a - 65536)) loop_desc 0.
Definition fetched (k : nat) :=
  (let! _ := snap_vq_cmd_start handle (mk_vqh 7 [mk_desc 4096 26 VRING_DESC_F_NEXT 0]) in
   progress_tx handle callbacks (repeat (IBV_WC_SUCCESS, loop_host) k)) (start vfs).
Example endless_chain_empties_pool :
  match fetched 6 with Ok (s, _) => length (free_descs (vs_vq s)) | _ => 9%nat end = 0%nat /\ is_oob (fetched 7) = true.
Proof. split; vm_compute; reflexivity. Qed.

(** * Migration of a controller *)

Section Real.
Import CtrlRun.

(** The device of CtrlRun.v, with two bytes of state. *)
#[local] Existing Instance good_ops.
#[local] Instance two_bytes : StateOps host unit dev_queue := {|
  bar_get_state_size := Some 2;
  bar_get_state := Some (fun b mem len => Ok ([7; 8] ++ drop 2 mem, 2));
  bar_set_state := Some (fun w c b qs mem len => Ok (w, b, 0));
  q_get_state := Some (fun w q st => (w, st ⦇ hw_available_index := 9 ⦈ ⦇ hw_used_index := 5 ⦈, 0));
  uninit := zero_qstate
|}.

(** The controller of a virtual function that serves two queues and was quiesced. *)
Definition quiesced : option (cstate host unit dev_queue) :=
  match boot false host_start with
  | Some s => match run_all [OpProgress; OpProgress; OpIo; OpQuiesce 7; OpIo; OpProgress] s with Ok s => Some s | _ => None end
  | None => None
  end.

Definition modify_cmd (vdev st : Z) : list Z := le 1 64 ++ le 1 2 ++ le 2 vdev ++ le 2 st.
Definition pending_cmd (vdev : Z) : list Z := le 1 64 ++ le 1 3 ++ le 2 vdev ++ le 2 0.

(** Freeze, ask for the size of the state and save it. *)
Definition migrate_out : list vq_call := serve 1 (modify_cmd 1 3) 1 ++ serve 2 (pending_cmd 1) 9 ++ serve 3 (save_cmd 1 174) 175.

Definition real_run :=
  match quiesced with
  | Some v => run_calls (blk_adm_handle (VF := cstate host unit dev_queue)) (blk_adm_cb all_good) state_check may_start migrate_out (start [Some (mk_vf v None false)])
  | None => Err 0
  end.

(** The state that [snap_virtio_ctrl_state_save] writes reaches the host: 174 bytes, the size
    that was reported. *)
Example real_controller_saved :
  match quiesced with
  | Some v =>
      match snap_virtio_ctrl_freeze v with
      | Ok (v, _) => match snap_virtio_ctrl_state_save (repeat 0 174) 174 v with
                     | Ok (_, (buf, _)) => ends (fun s => bool_decide (vs_used s = [(1, 1); (2, 9); (3, 175)] /\
                         vs_host s = [(8192, [0]); (8192, le 8 174); (8200, [0]); (8192, buf); (8366, [0])])) real_run
                     | _ => false
                     end
      | _ => false
      end
  | None => false
  end = true.
Proof. vm_compute. reflexivity. Qed.
End Real.

End AdmRun.
