(* ===== verification/Chan.v ===== *)
(** The live migration channel (src/src/snap_rdma_channel.c): dirty page tracking, the device
    state, and the commands of the migration software.

    The migration software sends commands over an RDMA connection; a thread of the channel
    polls the completion queue and carries them out on the controller, whose migration
    operations are the class [MigOps].  The controller reports the guest memory it writes
    with [snap_rdma_channel_mark_dirty_page], from its own threads.  Memory is a heap of
    named buffers, so that a buffer that was freed is a name the heap no longer has; memory
    regions are live names.  The send queue holds the work requests that the device has not
    carried out yet, and [ChanSys.v] says how it does. *)

From stdpp Require Import gmap.
From S2P Require Import Prelude Effects.

Definition EPERM : Z := 1.

(** * Commands and completions *)

Definition MLX5_SNAP_CMD_START_LOG : Z := 0.
Definition MLX5_SNAP_CMD_STOP_LOG : Z := 1.
Definition MLX5_SNAP_CMD_GET_LOG_SZ : Z := 2.
Definition MLX5_SNAP_CMD_REPORT_LOG : Z := 3.
Definition MLX5_SNAP_CMD_FREEZE_DEV : Z := 4.
Definition MLX5_SNAP_CMD_UNFREEZE_DEV : Z := 5.
Definition MLX5_SNAP_CMD_QUIESCE_DEV : Z := 6.
Definition MLX5_SNAP_CMD_UNQUIESCE_DEV : Z := 7.
Definition MLX5_SNAP_CMD_GET_STATE_SZ : Z := 8.
Definition MLX5_SNAP_CMD_READ_STATE : Z := 9.
Definition MLX5_SNAP_CMD_WRITE_STATE : Z := 10.

Definition MLX5_SNAP_SC_SUCCESS : Z := 0.
Definition MLX5_SNAP_SC_INVALID_OPCODE : Z := 1.
Definition MLX5_SNAP_SC_INVALID_FIELD : Z := 2.
Definition MLX5_SNAP_SC_DATA_XFER_ERROR : Z := 4.
Definition MLX5_SNAP_SC_INTERNAL : Z := 5.
Definition MLX5_SNAP_SC_ALREADY_STARTED_LOG : Z := 6.
Definition MLX5_SNAP_SC_ALREADY_STOPPED_LOG : Z := 7.

Definition SNAP_CHANNEL_QUEUE_SIZE : Z := 64.
Definition SNAP_CHANNEL_DESC_SIZE : Z := 72.
Definition SNAP_CHANNEL_BITMAP_ELEM_SZ : Z := 1.
Definition SNAP_CHANNEL_BITMAP_ELEM_BIT_SZ : Z := 8 * SNAP_CHANNEL_BITMAP_ELEM_SZ.
Definition SNAP_CHANNEL_INITIAL_BITMAP_ARRAY_SZ : Z := 1048576.
Definition SNAP_CHANNEL_INITIAL_BITMAP_SIZE : Z := SNAP_CHANNEL_INITIAL_BITMAP_ARRAY_SZ * SNAP_CHANNEL_BITMAP_ELEM_SZ.
Definition SNAP_CHANNEL_POLL_BATCH : nat := 16.
Definition SNAP_CHANNEL_MAX_COMPLETIONS : Z := 64.

(** [struct mlx5_snap_completion] *)
Record mlx5_snap_completion := mk_cqe { cqe_id : Z; cqe_status : Z; cqe_result : Z }.
#[export] Instance cqe_settable : Settable mlx5_snap_completion := fun r => mk_cqe (cqe_id r) (cqe_status r) (cqe_result r).

(** [struct mlx5_snap_common_command]; the structures of the other commands are read from the
    same bytes, little endian. *)
Record mlx5_snap_common_command := mk_cmd {
  cmd_opcode : Z; cmd_id : Z; cmd_addr : Z; cmd_length : Z; cmd_key : Z; cmd_cdw5 : Z; cmd_cdw6 : Z
}.
(** The field [page_size] of [struct mlx5_snap_start_dirty_log_command]. *)
Definition cmd_page_size (c : mlx5_snap_common_command) : Z := cmd_cdw5 c.
(** The field [offset] of [struct mlx5_snap_rw_command]. *)
Definition cmd_offset (c : mlx5_snap_common_command) : Z := cmd_cdw5 c + 2 ^ 32 * cmd_cdw6 c.

(** * State *)

(** A buffer: its size, and the byte at each place. *)
Record cbuf := mk_cbuf { b_len : Z; b_at : Z -> Z }.
Definition bytes_of (b : cbuf) (n : Z) : list Z := map (b_at b) (seqZ 0 n).
Definition put_bytes (b : cbuf) (l : list Z) : cbuf :=
  mk_cbuf (b_len b) (fun i => match l !! Z.to_nat i with Some x => if 0 <=? i then x else b_at b i | None => b_at b i end).

(** A mutex: [MDead] before it is initialised and after it is destroyed. *)
Inductive mutex := MDead | MFree | MHeld.
#[export] Instance mutex_eq_dec : EqDecision mutex.
Proof. solve_decision. Defined.

(** [struct snap_dirty_pages] *)
Record snap_dirty_pages := mk_dirty {
  track_page_size : Z;
  bmap_num_elements : Z;
  highest_dirty_element : Z;
  dp_lock : mutex;
  bmap : option nat;
  copy_bmap_num_elements : Z;
  copy_lock : mutex;
  copy_bmap : option nat;
  copy_mr : option nat
}.
#[export] Instance dirty_settable : Settable snap_dirty_pages :=
  fun r => mk_dirty (track_page_size r) (bmap_num_elements r) (highest_dirty_element r) (dp_lock r) (bmap r)
             (copy_bmap_num_elements r) (copy_lock r) (copy_bmap r) (copy_mr r).

(** [struct snap_internal_state] *)
Record snap_internal_state := mk_istate { state_size : Z; st_lock : mutex; st_buf : option nat; state_mr : option nat }.
#[export] Instance istate_settable : Settable snap_internal_state :=
  fun r => mk_istate (state_size r) (st_lock r) (st_buf r) (state_mr r).

(** The work requests of the send queue: a transfer between a buffer and the memory of the
    peer, whose [wr_id] is the address of a response, or a response with its [wr_id]. *)
Inductive send_wr :=
| WrRdma (read : bool) (b mr : nat) (len raddr rkey : Z) (rsp : nat)
| WrSend (rsp : nat) (wr_id : Z).

(** [struct ibv_wc]: [WcSend] and the others carry the [wr_id] of their work request;
    [WcOther] is an opcode the channel does not expect, [WcError] a status other than
    success. *)
Inductive ibv_wc :=
| WcRecv (idx : nat) (byte_len : Z)
| WcSend (wr_id : Z)
| WcRdma (rsp : nat)
| WcOther
| WcError.

(** [struct snap_rdma_channel] and its environment: [ch_env] is the controller, [ch_live]
    the resources of the verbs library and the threads that exist, [ch_heap] the buffers
    that are allocated, [ch_rq] the receive requests that are posted, [ch_port_lock] and
    [rdma_port_idx] the variables that all channels share. *)
Record snap_rdma_channel (W : Type) := mk_chan {
  ch_env : W;
  dirty_pages : snap_dirty_pages;
  ch_state : snap_internal_state;
  rsp_buf : list mlx5_snap_completion;
  rsp_wr : list Z;
  recv_buf : list mlx5_snap_common_command;
  ch_heap : gmap nat cbuf;
  ch_live : gset nat;
  ch_tick : nat;
  ch_sq : list send_wr;
  ch_cq : list ibv_wc;
  ch_rq : list nat
}.
Arguments mk_chan {W}. Arguments ch_env {W}. Arguments dirty_pages {W}. Arguments ch_state {W}. Arguments rsp_buf {W}.
Arguments rsp_wr {W}. Arguments recv_buf {W}. Arguments ch_heap {W}. Arguments ch_live {W}. Arguments ch_tick {W}.
Arguments ch_sq {W}. Arguments ch_cq {W}. Arguments ch_rq {W}.
#[export] Instance chan_settable W : Settable (snap_rdma_channel W) :=
  fun r => mk_chan (ch_env r) (dirty_pages r) (ch_state r) (rsp_buf r) (rsp_wr r) (recv_buf r) (ch_heap r) (ch_live r)
             (ch_tick r) (ch_sq r) (ch_cq r) (ch_rq r).

(** [struct snap_migration_ops]: what the channel calls on the controller. *)
Class MigOps (W : Type) := {
  mo_quiesce : W -> res (W * Z);
  mo_unquiesce : W -> res (W * Z);
  mo_freeze : W -> res (W * Z);
  mo_unfreeze : W -> res (W * Z);
  mo_get_state_size : W -> res (W * Z);
  mo_copy_state : list Z -> Z -> bool -> W -> res (W * (list Z * Z));
  mo_start_dirty_pages_track : W -> res (W * Z);
  mo_stop_dirty_pages_track : W -> res (W * Z)
}.

(** What the environment answers to the k-th request: whether an allocation or a
    registration succeeds, what [ibv_post_send] and [ibv_post_recv] return, whether
    [ibv_poll_cq] succeeds, and what memory holds that was not initialised. *)
Record chan_answers := mk_answers {
  an_alloc : nat -> bool; an_reg : nat -> bool; an_post : nat -> Z; an_poll : nat -> bool; an_byte : nat -> Z -> Z
}.

(** * Integers *)

(** [is_power_of_two], on a [uint] *)
Definition is_power_of_two (x : Z) : bool := negb (x =? 0) && (Z.land x (u32 (x - 1)) =? 0).

(** A value an [int] has; beyond, the arithmetic of the C program is undefined. *)
Definition as_int (x : Z) : res Z := if (- 2 ^ 31 <=? x) && (x <? 2 ^ 31) then Ok x else Oob.
(** Division of [int]s, and of a [uint64_t] by an [int]. *)
Definition int_div (a b : Z) : res Z := if b =? 0 then Oob else as_int (Z.quot a b).
Definition u64_div (a b : Z) : res Z := if u64 b =? 0 then Oob else Ok (a / u64 b).

(** [ALIGN(x, y)] of a [uint64_t] and an [int]. *)
Definition ALIGN (x y : Z) : res Z :=
  let? m := as_int (y - 1) in Ok (Z.land (u64 (x + y - 1)) (u64 (Z.lnot m))).

Definition snap_channel_get_num_elements (start_address length element_size : Z) : res Z :=
  let? aligned_pa := ALIGN start_address element_size in
  let? last := as_int (length - 1) in
  if aligned_pa =? start_address then
    let? q := int_div last element_size in as_int (q + 1)
  else
    let len_to_next_element := i32 (u64 (aligned_pa - start_address)) in
    if length <=? len_to_next_element then Ok 1
    else
      let? r := as_int (last - len_to_next_element) in
      let? q := int_div r element_size in as_int (q + 2).

Definition snap_channel_max (a b : Z) : Z := if b <? a then a else b.

Section Chan.
Context {W : Type} `{!MigOps W} (ans : chan_answers).
#[local] Abbreviation sys := (snap_rdma_channel W).
#[local] Abbreviation V := (M sys).

(** * Memory, locks and the verbs library *)

Definition dirty : V snap_dirty_pages := gets dirty_pages.
Definition upd_dirty (f : snap_dirty_pages -> snap_dirty_pages) : V unit := modify (fun s => s ⦇ dirty_pages := f (dirty_pages s) ⦈).
Definition istate : V snap_internal_state := gets ch_state.
Definition upd_istate (f : snap_internal_state -> snap_internal_state) : V unit := modify (fun s => s ⦇ ch_state := f (ch_state s) ⦈).

(** The number of the next request to the environment, which names what it creates. *)
Definition request : V nat :=
  let! k := gets ch_tick in
  do! modify (fun s => s ⦇ ch_tick := S k ⦈) in mreturn k.

Inductive mutex_name := StateLock | DirtyLock | CopyLock.
Definition mutex_of (m : mutex_name) (s : sys) : mutex :=
  match m with StateLock => st_lock (ch_state s) | DirtyLock => dp_lock (dirty_pages s) | CopyLock => copy_lock (dirty_pages s) end.
Definition set_mutex (m : mutex_name) (v : mutex) : V unit :=
  match m with
  | StateLock => upd_istate (fun t => t ⦇ st_lock := v ⦈)
  | DirtyLock => upd_dirty (fun d => d ⦇ dp_lock := v ⦈)
  | CopyLock => upd_dirty (fun d => d ⦇ copy_lock := v ⦈)
  end.
(** A mutex that is held does not return; one that does not exist is undefined, as is the
    release of one that is not held. *)
Definition pthread_mutex_lock (m : mutex_name) : V unit :=
  let! v := gets (mutex_of m) in
  match v with MFree => set_mutex m MHeld | MHeld => never_returns | MDead => undefined end.
Definition pthread_mutex_unlock (m : mutex_name) : V unit :=
  let! v := gets (mutex_of m) in
  match v with MHeld => set_mutex m MFree | _ => undefined end.
(** The code between a lock and its unlock. *)
Definition locked {A} (m : mutex_name) (body : V A) : V A :=
  do! pthread_mutex_lock m in
  let! a := body in
  do! pthread_mutex_unlock m in mreturn a.

(** A new buffer of [n] bytes that are zero. *)
Definition ch_calloc (n : Z) : V (option nat) :=
  let! k := request in
  if negb (an_alloc ans k) then mreturn None
  else
    do! modify (fun s => s ⦇ ch_heap := <[k := mk_cbuf n (fun _ => 0)]> (ch_heap s) ⦈) in
    mreturn (Some k).

Definition ch_buf (k : nat) : V cbuf :=
  let! h := gets ch_heap in m_opt undefined (h !! k).
Definition set_buf (k : nat) (b : cbuf) : V unit := modify (fun s => s ⦇ ch_heap := <[k := b]> (ch_heap s) ⦈).
(** The buffer a pointer refers to. *)
Definition points_to (p : option nat) : V nat := m_opt undefined p.

(** [free]: nothing for a null pointer. *)
Definition ch_free (p : option nat) : V unit :=
  match p with
  | None => mreturn tt
  | Some k =>
      do! ch_buf k in
      modify (fun s => s ⦇ ch_heap := delete k (ch_heap s) ⦈)
  end.

(** [realloc]: the bytes beyond those of the old buffer are not initialised; on failure the
    old buffer stays allocated. *)
Definition ch_realloc (p : option nat) (n : Z) : V (option nat) :=
  let! k := request in
  if negb (an_alloc ans k) then mreturn None
  else
    let! old := match p with None => mreturn (mk_cbuf 0 (fun _ => 0)) | Some j => ch_buf j end in
    do! ch_free p in
    do! set_buf k (mk_cbuf n (fun i => if i <? b_len old then b_at old i else an_byte ans k i)) in
    mreturn (Some k).

(** A new resource, and the end of one; a resource that does not exist is undefined. *)
Definition acquire (ok : bool) : V (option nat) :=
  let! k := request in
  if ok then do! modify (fun s => s ⦇ ch_live := {[k]} ∪ ch_live s ⦈) in mreturn (Some k) else mreturn None.
Definition release (p : option nat) : V unit :=
  let! k := points_to p in
  let! l := gets ch_live in
  if bool_decide (k ∈ l) then modify (fun s => s ⦇ ch_live := ch_live s ∖ {[k]} ⦈) else undefined.

Definition ibv_reg_mr : V (option nat) := let! k := gets ch_tick in acquire (an_reg ans k).
Definition ibv_dereg_mr (p : option nat) : V unit := release p.

Definition ibv_post_send (w : send_wr) : V Z :=
  let! k := request in
  let ret := an_post ans k in
  if negb (ret =? 0) then mreturn ret
  else do! modify (fun s => s ⦇ ch_sq := ch_sq s ++ [w] ⦈) in mreturn 0.
Definition ibv_post_recv (idx : nat) : V Z :=
  let! k := request in
  let ret := an_post ans k in
  if negb (ret =? 0) then mreturn ret
  else do! modify (fun s => s ⦇ ch_rq := ch_rq s ++ [idx] ⦈) in mreturn 0.

(** A call of a migration operation. *)
Definition call_ops {A} (f : W -> res (W * A)) : V A :=
  let! w := gets ch_env in
  let! r := m_res (f w) in
  do! modify (fun s => s ⦇ ch_env := fst r ⦈) in mreturn (snd r).

(** The response of a command, in [rsp_buf]. *)
Definition upd_cqe (i : nat) (f : mlx5_snap_completion -> mlx5_snap_completion) : V unit :=
  let! l := gets rsp_buf in
  match l !! i with None => undefined | Some c => modify (fun s => s ⦇ rsp_buf := <[i := f c]> (rsp_buf s) ⦈) end.
Definition set_status (i : nat) (v : Z) : V unit := upd_cqe i (fun c => c ⦇ cqe_status := v ⦈).
Definition set_result (i : nat) (v : Z) : V unit := upd_cqe i (fun c => c ⦇ cqe_result := v ⦈).
(** [cqe->status = v; return ret] *)
Definition fails (i : nat) (v ret : Z) : V Z := do! set_status i v in mreturn ret.

(** The length is stored in [sge.length], an [uint32_t], whatever its sign as an [int]. *)
Definition snap_channel_rdma_rw (b mr : nat) (len raddr rkey : Z) (read : bool) (i : nat) : V Z :=
  ibv_post_send (WrRdma read b mr len raddr rkey i).

(** * Dirty pages *)

Definition snap_channel_start_dirty_track (cmd : mlx5_snap_common_command) (i : nat) : V Z :=
  if negb (is_power_of_two (cmd_page_size cmd)) then fails i MLX5_SNAP_SC_INVALID_FIELD (- EINVAL)
  else
    locked CopyLock (
      let! d := dirty in
      if bool_decide (is_Some (bmap d)) then fails i MLX5_SNAP_SC_ALREADY_STARTED_LOG (- EPERM)
      else
        let! p := ch_calloc SNAP_CHANNEL_INITIAL_BITMAP_SIZE in
        do! upd_dirty (fun d => d ⦇ bmap := p ⦈) in
        match p with
        | None => fails i MLX5_SNAP_SC_INTERNAL (- ENOMEM)
        | Some _ =>
            do! upd_dirty (fun d => d ⦇ bmap_num_elements := SNAP_CHANNEL_INITIAL_BITMAP_ARRAY_SZ ⦈
                                      ⦇ highest_dirty_element := 0 ⦈ ⦇ track_page_size := i32 (cmd_page_size cmd) ⦈) in
            let! ret := call_ops mo_start_dirty_pages_track in
            if negb (ret =? 0) then
              do! ch_free p in
              do! upd_dirty (fun d => d ⦇ bmap := None ⦈) in
              fails i MLX5_SNAP_SC_INTERNAL ret
            else fails i MLX5_SNAP_SC_SUCCESS 0
        end).

(** The lock is released during the call. *)
Definition snap_channel_stop_dirty_track (i : nat) : V Z :=
  do! pthread_mutex_lock CopyLock in
  let! d := dirty in
  let! ret :=
    (if negb (bool_decide (is_Some (bmap d))) then fails i MLX5_SNAP_SC_ALREADY_STOPPED_LOG (- EPERM)
     else
       do! pthread_mutex_unlock CopyLock in
       let! ret := call_ops mo_stop_dirty_pages_track in
       do! pthread_mutex_lock CopyLock in
       fails i (if negb (ret =? 0) then MLX5_SNAP_SC_INTERNAL else MLX5_SNAP_SC_SUCCESS) ret) in
  do! pthread_mutex_unlock CopyLock in mreturn ret.

(** [memcpy] of [n] bytes to [k2], and [memset] of them to zero; an access beyond a buffer is
    undefined. *)
Definition ch_memcpy (k2 k1 : nat) (n : Z) : V unit :=
  let! b1 := ch_buf k1 in
  let! b2 := ch_buf k2 in
  if (n <=? b_len b1) && (n <=? b_len b2)
  then set_buf k2 (mk_cbuf (b_len b2) (fun i => if (0 <=? i) && (i <? n) then b_at b1 i else b_at b2 i))
  else undefined.
Definition ch_bzero (k : nat) (n : Z) : V unit :=
  let! b := ch_buf k in
  if n <=? b_len b
  then set_buf k (mk_cbuf (b_len b) (fun i => if (0 <=? i) && (i <? n) then 0 else b_at b i))
  else undefined.

Definition bitmap_bytes (n : Z) : Z := u64 (n * SNAP_CHANNEL_BITMAP_ELEM_SZ).

Definition snap_channel_get_dirty_size (i : nat) : V Z :=
  locked CopyLock (
    let! d := dirty in
    if negb (copy_bmap_num_elements d =? 0) then
      do! set_result i (bitmap_bytes (copy_bmap_num_elements d)) in
      fails i MLX5_SNAP_SC_SUCCESS 0
    else
      locked DirtyLock (
        let! d := dirty in
        let n := highest_dirty_element d in
        if negb (n =? 0) then
          do! upd_dirty (fun d => d ⦇ copy_bmap_num_elements := n ⦈) in
          let! p := ch_calloc (bitmap_bytes n) in
          do! upd_dirty (fun d => d ⦇ copy_bmap := p ⦈) in
          match p with
          | None => fails i MLX5_SNAP_SC_INTERNAL (- ENOMEM)
          | Some k2 =>
              let! k1 := points_to (bmap d) in
              do! ch_memcpy k2 k1 (bitmap_bytes n) in
              do! ch_bzero k1 (bitmap_bytes n) in
              do! upd_dirty (fun d => d ⦇ highest_dirty_element := 0 ⦈) in
              do! set_result i (bitmap_bytes n) in
              fails i MLX5_SNAP_SC_SUCCESS 0
          end
        else
          do! set_result i 0 in
          fails i MLX5_SNAP_SC_SUCCESS 0)).

(** Without a memory region the status is set, and 0 is returned.  A transfer from a null
    pointer is undefined. *)
Definition snap_channel_report_dirty_pages (cmd : mlx5_snap_common_command) (i : nat) : V Z :=
  locked CopyLock (
    let! d := dirty in
    let length := u32 (copy_bmap_num_elements d * SNAP_CHANNEL_BITMAP_ELEM_SZ) in
    if negb (cmd_length cmd =? length) then fails i MLX5_SNAP_SC_INVALID_FIELD (- EINVAL)
    else if negb (length =? 0) then
      let! mr := ibv_reg_mr in
      match mr with
      | None => fails i MLX5_SNAP_SC_INTERNAL 0
      | Some m =>
          let! b := points_to (copy_bmap d) in
          let! ret := snap_channel_rdma_rw b m length (cmd_addr cmd) (cmd_key cmd) false i in
          if negb (ret =? 0) then
            do! ibv_dereg_mr mr in
            fails i MLX5_SNAP_SC_INTERNAL ret
          else
            do! (if bool_decide (is_Some (copy_mr d)) then ibv_dereg_mr (copy_mr d) else mreturn tt) in
            do! upd_dirty (fun d => d ⦇ copy_mr := mr ⦈) in
            mreturn 0
      end
    else fails i MLX5_SNAP_SC_INVALID_FIELD (- EINVAL)).

(** * The state of the device *)

(** freeze, unfreeze, quiesce and unquiesce. *)
Definition device_op (op : W -> res (W * Z)) (i : nat) : V Z :=
  let! ret := call_ops op in
  fails i (if ret =? 0 then MLX5_SNAP_SC_SUCCESS else MLX5_SNAP_SC_INTERNAL) ret.
Definition snap_channel_freeze_device (i : nat) : V Z := device_op mo_freeze i.
Definition snap_channel_unfreeze_device (i : nat) : V Z := device_op mo_unfreeze i.
Definition snap_channel_quiesce_device (i : nat) : V Z := device_op mo_quiesce i.
Definition snap_channel_unquiesce_device (i : nat) : V Z := device_op mo_unquiesce i.

(** [copy_state] on the first [len] bytes of a buffer. *)
Definition copy_state (k : nat) (len : Z) (from : bool) : V Z :=
  let! b := ch_buf k in
  let! r := call_ops (mo_copy_state (bytes_of b (b_len b)) len from) in
  do! set_buf k (put_bytes b (fst r)) in mreturn (snd r).

Definition snap_channel_get_state_size (i : nat) : V Z :=
  locked StateLock (
    let! st := istate in
    if negb (state_size st =? 0) then
      do! set_result i (state_size st) in
      fails i MLX5_SNAP_SC_SUCCESS 0
    else
      let! size := call_ops mo_get_state_size in
      if size <? 0 then fails i MLX5_SNAP_SC_INTERNAL (- EINVAL)
      else
        let! ret :=
          (if negb (size =? 0) then
             let! p := ch_calloc size in
             do! upd_istate (fun t => t ⦇ st_buf := p ⦈) in
             match p with
             | None => fails i MLX5_SNAP_SC_INTERNAL (- ENOMEM)
             | Some k =>
                 let! ret := copy_state k size false in
                 if negb (ret =? 0) then fails i MLX5_SNAP_SC_INTERNAL ret else mreturn 0
             end
           else mreturn 0) in
        if negb (ret =? 0) then mreturn ret
        else
          do! upd_istate (fun t => t ⦇ state_size := u32 size ⦈) in
          do! set_result i (u64 size) in
          fails i MLX5_SNAP_SC_SUCCESS 0).

Definition snap_channel_read_state (cmd : mlx5_snap_common_command) (i : nat) : V Z :=
  let length := cmd_length cmd in
  if negb (cmd_offset cmd =? 0) then fails i MLX5_SNAP_SC_INTERNAL (- EINVAL)
  else
    locked StateLock (
      let! st := istate in
      if state_size st <? length then fails i MLX5_SNAP_SC_INVALID_FIELD (- EINVAL)
      else if negb (length =? 0) then
        let! mr := ibv_reg_mr in
        match mr with
        | None => fails i MLX5_SNAP_SC_INTERNAL (- EINVAL)
        | Some m =>
            let! b := points_to (st_buf st) in
            let! ret := snap_channel_rdma_rw b m length (cmd_addr cmd) (cmd_key cmd) false i in
            if negb (ret =? 0) then
              do! ibv_dereg_mr mr in
              fails i MLX5_SNAP_SC_DATA_XFER_ERROR (- EINVAL)
            else
              do! (if bool_decide (is_Some (state_mr st)) then ibv_dereg_mr (state_mr st) else mreturn tt) in
              do! upd_istate (fun t => t ⦇ state_mr := mr ⦈) in
              fails i MLX5_SNAP_SC_SUCCESS 0
        end
      else fails i MLX5_SNAP_SC_INVALID_FIELD (- EINVAL)).

(** [free(state->state); state->state = NULL; state->state_size = 0] *)
Definition drop_state : V unit :=
  let! st := istate in
  do! ch_free (st_buf st) in
  upd_istate (fun t => t ⦇ st_buf := None ⦈ ⦇ state_size := 0 ⦈).
(** [ibv_dereg_mr(state->state_mr); state->state_mr = NULL] *)
Definition drop_state_mr : V unit :=
  let! st := istate in
  do! ibv_dereg_mr (state_mr st) in
  upd_istate (fun t => t ⦇ state_mr := None ⦈).

Definition snap_channel_write_state (cmd : mlx5_snap_common_command) (i : nat) : V Z :=
  let length := cmd_length cmd in
  if negb (cmd_offset cmd =? 0) then fails i MLX5_SNAP_SC_INTERNAL (- EINVAL)
  else
    locked StateLock (
      if negb (length =? 0) then
        let! st := istate in
        do! m_when (bool_decide (is_Some (st_buf st))) drop_state in
        do! m_when (bool_decide (is_Some (state_mr st))) drop_state_mr in
        let! p := ch_calloc length in
        do! upd_istate (fun t => t ⦇ st_buf := p ⦈) in
        match p with
        | None => fails i MLX5_SNAP_SC_INTERNAL (- ENOMEM)
        | Some k =>
            let! mr := ibv_reg_mr in
            match mr with
            | None => do! drop_state in fails i MLX5_SNAP_SC_INTERNAL (- EINVAL)
            | Some m =>
                let! ret := snap_channel_rdma_rw k m length (cmd_addr cmd) (cmd_key cmd) true i in
                if negb (ret =? 0) then
                  do! drop_state in
                  do! ibv_dereg_mr mr in
                  fails i MLX5_SNAP_SC_DATA_XFER_ERROR ret
                else
                  do! upd_istate (fun t => t ⦇ state_mr := mr ⦈) in
                  let! ret := copy_state k (i32 length) true in
                  if negb (ret =? 0) then fails i MLX5_SNAP_SC_INTERNAL ret
                  else
                    do! upd_istate (fun t => t ⦇ state_size := length ⦈) in
                    fails i MLX5_SNAP_SC_SUCCESS 0
            end
        end
      else fails i MLX5_SNAP_SC_INVALID_FIELD (- EINVAL)).

(** * Commands *)

(** The value returned and [send_rsp]. *)
Definition run_cmd (cmd : mlx5_snap_common_command) (i : nat) : V (Z * bool) :=
  let answers m := let! ret := m in mreturn (ret, true) in
  let moves m := let! ret := m in mreturn (ret, negb (ret =? 0)) in
  let op := cmd_opcode cmd in
  if op =? MLX5_SNAP_CMD_START_LOG then answers (snap_channel_start_dirty_track cmd i)
  else if op =? MLX5_SNAP_CMD_STOP_LOG then answers (snap_channel_stop_dirty_track i)
  else if op =? MLX5_SNAP_CMD_GET_LOG_SZ then answers (snap_channel_get_dirty_size i)
  else if op =? MLX5_SNAP_CMD_REPORT_LOG then moves (snap_channel_report_dirty_pages cmd i)
  else if op =? MLX5_SNAP_CMD_FREEZE_DEV then answers (snap_channel_freeze_device i)
  else if op =? MLX5_SNAP_CMD_UNFREEZE_DEV then answers (snap_channel_unfreeze_device i)
  else if op =? MLX5_SNAP_CMD_QUIESCE_DEV then answers (snap_channel_quiesce_device i)
  else if op =? MLX5_SNAP_CMD_UNQUIESCE_DEV then answers (snap_channel_unquiesce_device i)
  else if op =? MLX5_SNAP_CMD_GET_STATE_SZ then answers (snap_channel_get_state_size i)
  else if op =? MLX5_SNAP_CMD_READ_STATE then moves (snap_channel_read_state cmd i)
  else if op =? MLX5_SNAP_CMD_WRITE_STATE then moves (snap_channel_write_state cmd i)
  else answers (fails i MLX5_SNAP_SC_INVALID_OPCODE 0).

(** Post the response of slot [i], whose [wr_id] is set. *)
Definition post_rsp (i : nat) : V Z :=
  let! l := gets rsp_wr in
  let! id := m_opt undefined (l !! i) in
  ibv_post_send (WrSend i id).

Definition snap_channel_process_cmd (cmd : mlx5_snap_common_command) : V Z :=
  let id := cmd_id cmd in
  if (id <? 1) || (SNAP_CHANNEL_QUEUE_SIZE <? id) then mreturn (- EINVAL)
  else
    let i := Z.to_nat (id - 1) in
    do! upd_cqe i (fun c => c ⦇ cqe_status := MLX5_SNAP_SC_SUCCESS ⦈ ⦇ cqe_id := id ⦈) in
    let! r := run_cmd cmd i in
    let '(ret, send_rsp) := r in
    if send_rsp then
      do! upd_cqe i (fun c => if negb (ret =? 0) && (cqe_status c =? MLX5_SNAP_SC_SUCCESS)
                              then c ⦇ cqe_status := MLX5_SNAP_SC_INTERNAL ⦈ else c) in
      do! modify (fun s => s ⦇ rsp_wr := <[i := cmd_opcode cmd]> (rsp_wr s) ⦈) in
      post_rsp i
    else mreturn 0.

(** The first run and the retries. *)
Fixpoint process_retry (retry : nat) (cmd : mlx5_snap_common_command) : V Z :=
  let! ret := snap_channel_process_cmd cmd in
  if negb (ret =? 0) then match retry with O => mreturn ret | S n => process_retry n cmd end else mreturn ret.

Definition snap_channel_recv_handler (idx : nat) : V Z :=
  let! l := gets recv_buf in
  let! cmd := m_opt undefined (l !! idx) in
  do! process_retry 5 cmd in
  ibv_post_recv idx.

(** [opcode = wc->wr_id], a byte. *)
Definition snap_channel_handle_completion (wc : ibv_wc) : V Z :=
  match wc with
  | WcRecv idx byte_len =>
      if negb (byte_len =? SNAP_CHANNEL_DESC_SIZE) then mreturn (-1)
      else
        let! ret := snap_channel_recv_handler idx in
        mreturn (if negb (ret =? 0) then -1 else 0)
  | WcSend wr_id =>
      if u8 wr_id =? MLX5_SNAP_CMD_REPORT_LOG then
        locked CopyLock (
          let! d := dirty in
          do! m_when (negb (copy_bmap_num_elements d =? 0)) (
                do! ch_free (copy_bmap d) in
                upd_dirty (fun d => d ⦇ copy_bmap_num_elements := 0 ⦈ ⦇ copy_bmap := None ⦈)) in
          do! m_when (bool_decide (is_Some (copy_mr d))) (
                do! ibv_dereg_mr (copy_mr d) in
                upd_dirty (fun d => d ⦇ copy_mr := None ⦈)) in
          mreturn 0)
      else mreturn 0
  | WcRdma rsp => post_rsp rsp
  | WcOther => mreturn (-1)
  | WcError => mreturn 0
  end.

Fixpoint handle_batch (l : list ibv_wc) : V Z :=
  match l with
  | [] => mreturn 0
  | wc :: l =>
      let! ret := snap_channel_handle_completion wc in
      if negb (ret =? 0) then mreturn (-1) else handle_batch l
  end.

(** A failed poll returns a negative number, which is a large [unsigned int]: the loop then
    reads beyond the array. *)
Definition ibv_poll_cq : V (list ibv_wc) :=
  let! k := request in
  if negb (an_poll ans k) then undefined
  else
    let! l := gets ch_cq in
    do! modify (fun s => s ⦇ ch_cq := drop SNAP_CHANNEL_POLL_BATCH l ⦈) in
    mreturn (take SNAP_CHANNEL_POLL_BATCH l).

Fixpoint poll_loop (fuel : nat) (completed : Z) : V Z :=
  match fuel with
  | O => never_returns
  | S fuel =>
      let! l := ibv_poll_cq in
      match l with
      | [] => mreturn 0
      | _ =>
          let! ret := handle_batch l in
          if negb (ret =? 0) then mreturn (-1)
          else
            let completed := completed + Z.of_nat (length l) in
            if SNAP_CHANNEL_MAX_COMPLETIONS <=? completed then mreturn 0 else poll_loop fuel completed
      end
  end.

(** Every turn handles one completion at least: 64 turns are enough. *)
Definition snap_channel_cq_event_handler : V Z := poll_loop 64 0.

(** * Reports of the controller *)

(** [while (end_element >= bmap_num_elements) bmap_num_elements <<= 1]: a number of 64 bits
    is zero, and stays so, after 64 turns. *)
Fixpoint grow (fuel : nat) (end_element n : Z) : res Z :=
  if n <=? end_element then
    match fuel with O => OutOfFuel | S fuel => grow fuel end_element (u64 (Z.shiftl n 1)) end
  else Ok n.

Definition write_bit (b : cbuf) (e nbit : Z) : res cbuf :=
  if (0 <=? e) && (e <? b_len b) then
    Ok (mk_cbuf (b_len b) (fun i => if i =? e then u8 (Z.lor (b_at b e) (Z.shiftl 1 nbit)) else b_at b i))
  else Oob.

(** The pages from the [i]-th on. *)
Fixpoint write_pages (n : nat) (start_page i : Z) (b : cbuf) : res cbuf :=
  match n with
  | O => Ok b
  | S n =>
      let cur_page := u64 (start_page + i) in
      let? b := write_bit b (cur_page / SNAP_CHANNEL_BITMAP_ELEM_BIT_SZ) (cur_page mod SNAP_CHANNEL_BITMAP_ELEM_BIT_SZ) in
      write_pages n start_page (i + 1) b
  end.

Definition snap_rdma_channel_mark_dirty_page (guest_pa length : Z) : V Z :=
  locked DirtyLock (
    let! d := dirty in
    match bmap d with
    | None => mreturn 0
    | Some _ =>
        let page_size := track_page_size d in
        let! start_page := m_res (u64_div guest_pa page_size) in
        let! num_dirty_pages := m_res (snap_channel_get_num_elements guest_pa length page_size) in
        let bytes_per_element := i32 (u64 page_size * SNAP_CHANNEL_BITMAP_ELEM_BIT_SZ) in
        let! start_element := m_res (u64_div guest_pa bytes_per_element) in
        let! num_elements := m_res (snap_channel_get_num_elements guest_pa length bytes_per_element) in
        let end_element := u64 (start_element + num_elements) in
        let! p :=
          (if bmap_num_elements d <? end_element then
             let! n := m_res (grow 64 end_element (bmap_num_elements d)) in
             let! p := ch_realloc (bmap d) (bitmap_bytes n) in
             do! upd_dirty (fun d => d ⦇ bmap_num_elements := if p is Some _ then n else 0 ⦈ ⦇ bmap := p ⦈) in
             mreturn p
           else mreturn (bmap d)) in
        match p with
        | None => mreturn (- ENOMEM)
        | Some k =>
            let! b := ch_buf k in
            let! b := m_res (write_pages (Z.to_nat num_dirty_pages) start_page 0 b) in
            do! set_buf k b in
            do! upd_dirty (fun d => d ⦇ highest_dirty_element := snap_channel_max end_element (highest_dirty_element d) ⦈) in
            mreturn 0
        end
    end).

End Chan.
