(* ===== verification/ChanBits.v ===== *)
(** The arithmetic of dirty page tracking: how many pages and how many bytes of the bitmap an
    address range covers, the growth of the bitmap, and the bits that are set. *)

From stdpp Require Import gmap.
From S2P Require Import Prelude Effects Chan.

(** The elements of size [2 ^ k] that a range of bytes covers, counted from the first to the
    last. *)
Definition elements_of (pa len k : Z) : Z := (pa + len - 1) / 2 ^ k - pa / 2 ^ k + 1.

Lemma as_int_small x : - 2 ^ 31 <= x < 2 ^ 31 -> as_int x = Ok x.
Proof. intros [Hlo%Z.leb_le Hhi%Z.ltb_lt]. unfold as_int. by rewrite Hlo, Hhi. Qed.

Lemma is_power_of_two_spec x : 0 <= x < 2 ^ 32 -> is_power_of_two x = true <-> exists k, 0 <= k < 32 /\ x = 2 ^ k.
Proof.
  intros Hx. trans (SNAP_IS_POW2 x = true).
  - unfold is_power_of_two, SNAP_IS_POW2, SNAP_IS_POW2_OR_ZERO. destruct (Z.eqb_spec x 0) as [->|Hne]; [done|].
    rewrite u32_small by lia. by assert (0 <? x = true) as -> by (apply Z.ltb_lt; lia).
  - rewrite SNAP_IS_POW2_spec. split; intros (k & Hk & ->); exists k; [|split; [lia|done]].
    split; [|done]. split; [done|]. apply (Z.pow_lt_mono_r_iff 2); lia.
Qed.

(** [ALIGN] rounds up to a multiple of a power of two. *)
Lemma ALIGN_pow2 x k : 0 <= k < 31 -> 0 <= x -> x + 2 ^ k <= 2 ^ 64 ->
  ALIGN x (2 ^ k) = Ok ((x + 2 ^ k - 1) / 2 ^ k * 2 ^ k).
Proof.
  intros Hk Hx Hw. assert (0 < 2 ^ k < 2 ^ 31) as Hp.
  { split; [apply Z.pow_pos_nonneg; lia|apply Z.pow_lt_mono_r; lia]. }
  unfold ALIGN. rewrite as_int_small by lia. cbn [res_bind]. f_equal. rewrite u64_small by lia.
  apply Z.bits_inj'. intros i Hi. rewrite Z.land_spec. unfold u64, uwrap.
  replace ((x + 2 ^ k - 1) / 2 ^ k * 2 ^ k) with (Z.shiftl (Z.shiftr (x + 2 ^ k - 1) k) k)
    by (rewrite Z.shiftl_mul_pow2, Z.shiftr_div_pow2 by lia; done).
  rewrite Z.shiftl_spec by done. destruct (Z_lt_dec i 64) as [Hi64|Hi64].
  - rewrite Z.mod_pow2_bits_low, Z.lnot_spec by lia. replace (2 ^ k - 1) with (Z.ones k) by (rewrite Z.ones_equiv; lia).
    destruct (Z_lt_dec i k) as [Hik|Hik].
    + rewrite Z.ones_spec_low by lia. cbn [negb]. rewrite andb_false_r, Z.testbit_neg_r by lia. done.
    + rewrite Z.ones_spec_high, Z.shiftr_spec by lia. cbn [negb]. rewrite andb_true_r. f_equal. lia.
  - rewrite Z.mod_pow2_bits_high, andb_false_r by lia. rewrite Z.shiftr_spec by lia.
    replace (i - k + k) with i by lia. rewrite Z.bits_above_log2; [done|lia|].
    destruct (Z.eq_dec (x + 2 ^ k - 1) 0) as [->|]; [cbn; lia|]. apply (Z.lt_le_trans _ 64); [|lia]. apply Z.log2_lt_pow2; lia.
Qed.

Lemma pow2_31 k : 0 <= k < 31 -> 0 < 2 ^ k < 2 ^ 31.
Proof. intros Hk. split; [apply Z.pow_pos_nonneg; lia|apply Z.pow_lt_mono_r; lia]. Qed.

Lemma div_eq a b q r : 0 <= r < b -> a = q * b + r -> a / b = q.
Proof. intros Hr ->. symmetry. apply (Z.div_unique _ _ _ r); lia. Qed.

(** The cases of the code are the difference of the first and the last element. *)
Lemma num_elements_ok pa len k :
  0 <= k < 31 -> 0 <= pa -> pa + 2 ^ k <= 2 ^ 64 -> 0 < len < 2 ^ 31 ->
  snap_channel_get_num_elements pa len (2 ^ k) = Ok (elements_of pa len k).
Proof.
  intros Hk Hpa Hw Hlen. pose proof (pow2_31 k Hk) as Hp.
  unfold snap_channel_get_num_elements, elements_of. rewrite ALIGN_pow2, as_int_small by lia. cbn [res_bind].
  pose proof (Z.mod_pos_bound pa (2 ^ k)) as Hm. pose proof (Z.div_mod pa (2 ^ k)) as Hdm.
  set (q := pa / 2 ^ k) in *. set (r := pa mod 2 ^ k) in *. set (P := 2 ^ k) in *.
  assert (forall n, 0 <= n < 2 ^ 31 -> as_int (Z.quot n P) = Ok (n / P)) as Hdiv.
  { intros n Hn. rewrite Z.quot_div_nonneg by lia. apply as_int_small.
    pose proof (Z.div_le_upper_bound n P n). pose proof (Z.div_pos n P). nia. }
  unfold int_div. rewrite (proj2 (Z.eqb_neq P 0)) by lia.
  destruct (Z.eqb_spec ((pa + P - 1) / P * P) pa) as [Ha|Ha].
  - assert (r = 0) as Hr by (subst r; rewrite <- Ha; apply Z.mod_mul; lia).
    rewrite Hdiv by lia. cbn [res_bind]. rewrite as_int_small.
    + f_equal. replace (pa + len - 1) with (len - 1 + q * P) by lia. rewrite Z.div_add by lia. lia.
    + pose proof (Z.div_le_upper_bound (len - 1) P (len - 1)). pose proof (Z.div_pos (len - 1) P). nia.
  - assert (r <> 0) as Hr by (intros Hr; apply Ha; rewrite (div_eq _ _ q (P - 1)); lia).
    rewrite (div_eq _ _ (q + 1) (r - 1)) in * by lia. replace ((q + 1) * P - pa) with (P - r) by lia.
    rewrite u64_small, i32_small by lia. destruct (Z.leb_spec len (P - r)) as [Hl|Hl].
    + f_equal. rewrite (div_eq _ _ q (r + len - 1)); lia.
    + rewrite as_int_small by lia. cbn [res_bind]. rewrite Hdiv by lia. cbn [res_bind]. rewrite as_int_small.
      * f_equal. replace (pa + len - 1) with (len - 1 - (P - r) + (q + 1) * P) by lia. rewrite Z.div_add by lia. lia.
      * pose proof (Z.div_le_upper_bound (len - 1 - (P - r)) P (len - 1 - (P - r))). pose proof (Z.div_pos (len - 1 - (P - r)) P). nia.
Qed.

(** The elements that hold a byte of the range. *)
Definition touched (pa len k : Z) : gset Z := list_to_set ((fun a => a / 2 ^ k) <$> seqZ pa len).

Lemma elem_touched pa len k p : 0 <= k -> 0 < len -> p ∈ touched pa len k <-> pa / 2 ^ k <= p <= (pa + len - 1) / 2 ^ k.
Proof.
  intros Hk Hlen. assert (0 < 2 ^ k) as Hp by (apply Z.pow_pos_nonneg; lia).
  unfold touched. rewrite elem_of_list_to_set, list_elem_of_fmap. split.
  - intros (a & -> & Ha%elem_of_seqZ). split; apply Z.div_le_mono; lia.
  - intros [Hlo Hhi]. exists (Z.max pa (p * 2 ^ k)). rewrite elem_of_seqZ.
    pose proof (Z.mul_div_le (pa + len - 1) (2 ^ k)). pose proof (Z.mul_succ_div_gt pa (2 ^ k)).
    split; [|nia]. symmetry. apply Z.max_case_strong; intros Hm; [|by rewrite Z.div_mul by lia].
    apply Z.le_antisymm; [done|]. apply (Z.div_le_mono _ _ (2 ^ k)) in Hm; [|done]. by rewrite Z.div_mul in Hm by lia.
Qed.

(** The number of pages, or of bytes of the bitmap, that the channel computes for a range
    of guest memory, with aligned and unaligned cases and in [int] arithmetic, is the number
    of elements that hold a byte of the range, for every element size that is a power of two
    below 2^31. *)
Theorem get_num_elements_counts pa len k :
  0 <= k < 31 -> 0 <= pa -> pa + 2 ^ k <= 2 ^ 64 -> 0 < len < 2 ^ 31 ->
  snap_channel_get_num_elements pa len (2 ^ k) = Ok (Z.of_nat (size (touched pa len k))).
Proof.
  intros Hk Hpa Hw Hlen. rewrite num_elements_ok by done. f_equal. unfold elements_of.
  assert (touched pa len k = list_to_set (seqZ (pa / 2 ^ k) (elements_of pa len k))) as ->.
  { apply set_eq. intros p. rewrite elem_touched, elem_of_list_to_set, elem_of_seqZ by lia. unfold elements_of. lia. }
  rewrite size_list_to_set by apply NoDup_seqZ. rewrite length_seqZ. unfold elements_of.
  assert (pa / 2 ^ k <= (pa + len - 1) / 2 ^ k); [apply Z.div_le_mono; [apply pow2_31|]; lia|lia].
Qed.

(** * The bits of the bitmap *)

(** Page [p] is dirty in a bitmap. *)
Definition page_bit (b : cbuf) (p : Z) : bool := Z.testbit (b_at b (p / 8)) (p mod 8).

Lemma write_bit_ok b p : 0 <= p -> p / 8 < b_len b ->
  exists b', write_bit b (p / SNAP_CHANNEL_BITMAP_ELEM_BIT_SZ) (p mod SNAP_CHANNEL_BITMAP_ELEM_BIT_SZ) = Ok b' /\
    b_len b' = b_len b /\ forall q, page_bit b' q = bool_decide (q = p) || page_bit b q.
Proof.
  intros Hp Hb. change SNAP_CHANNEL_BITMAP_ELEM_BIT_SZ with 8. unfold write_bit.
  assert (0 <= p / 8) as H0 by (apply Z.div_pos; lia).
  rewrite (proj2 (Z.leb_le _ _) H0), (proj2 (Z.ltb_lt _ _) Hb). cbn [andb]. eexists. split_and!; [done..|].
  intros q. unfold page_bit. cbn [b_at].
  pose proof (Z.mod_pos_bound p 8). pose proof (Z.mod_pos_bound q 8). pose proof (Z.div_mod p 8). pose proof (Z.div_mod q 8).
  destruct (Z.eqb_spec (q / 8) (p / 8)) as [Hq|Hq].
  - unfold u8, uwrap. rewrite Z.mod_pow2_bits_low, Z.lor_spec, Z.shiftl_1_l by lia. rewrite Hq, orb_comm. f_equal.
    case_bool_decide as Heq; [subst; apply Z.pow2_bits_true; lia|]. apply Z.pow2_bits_false. lia.
  - rewrite bool_decide_false by (by intros ->). done.
Qed.

Lemma write_pages_ok start : forall n i b,
  0 <= start + i -> start + i + Z.of_nat n <= 2 ^ 64 -> (start + i + Z.of_nat n - 1) / 8 < b_len b ->
  exists b', write_pages n start i b = Ok b' /\ b_len b' = b_len b /\
    forall q, page_bit b' q = bool_decide (start + i <= q < start + i + Z.of_nat n) || page_bit b q.
Proof.
  induction n as [|n IH]; intros i b H0 Hw Hb; cbn [write_pages].
  - exists b. split_and!; [done..|]. intros q. by rewrite bool_decide_false by lia.
  - rewrite u64_small by lia. destruct (write_bit_ok b (start + i)) as (b1 & -> & Hl1 & Hb1); [lia| |].
    { eapply Z.le_lt_trans; [|exact Hb]. apply Z.div_le_mono; lia. }
    cbn [res_bind]. destruct (IH (i + 1) b1) as (b2 & -> & Hl2 & Hb2); [lia..|rewrite Hl1; eapply Z.le_lt_trans; [|exact Hb]; apply Z.div_le_mono; lia|].
    exists b2. split_and!; [done|congruence|]. intros q. rewrite Hb2, Hb1, orb_assoc. f_equal.
    repeat case_bool_decide; (done || lia).
Qed.

(** The bitmap doubles until it holds the last element. *)
Lemma grow_ok e : forall fuel n, 0 < n -> 0 <= e < 2 ^ 62 -> e < n * 2 ^ Z.of_nat fuel -> n <= 2 ^ 63 ->
  exists n', grow fuel e n = Ok n' /\ e < n' /\ n <= n' <= 2 ^ 63.
Proof.
  induction fuel as [|fuel IH]; intros n Hn He Hf Hw; cbn [grow]; destruct (Z.leb_spec n e) as [Hle|Hlt];
    [|by exists n; split_and!|..|by exists n; split_and!].
  - cbn in Hf. lia.
  - rewrite Z.shiftl_mul_pow2, u64_small by lia. rewrite Nat2Z.inj_succ, Z.pow_succ_r in Hf by lia.
    destruct (IH (n * 2 ^ 1)) as (n' & -> & ? & ?); [lia..|]. exists n'. split_and!; [done|lia..].
Qed.

(** A page size of 2^29 bytes or more, which a command may set because it is a power of
    two, makes the size of the memory that a byte of the bitmap stands for overflow to zero:
    reporting any dirty memory then divides by zero. *)
Lemma bytes_per_element_zero k : 29 <= k < 32 -> i32 (u64 (i32 (2 ^ k)) * SNAP_CHANNEL_BITMAP_ELEM_BIT_SZ) = 0.
Proof. intros Hk. assert (k = 29 \/ k = 30 \/ k = 31) as [->|[->| ->]] by lia; by vm_compute. Qed.
