(* ===== verification/ChanSys.v ===== *)
(** The migration channel with its peer and its device, and the invariant of its memory.

    [chan_call] are the events of the system: the controller reports memory it wrote, a
    command arrives, the device carries out the oldest work request or fails it, and the
    thread of the channel handles the completions.  [chan_ok] says that the locks are free,
    that the pointers of the channel refer to buffers of the sizes it recorded, and that a
    work request whose memory region is registered refers to a buffer that is allocated. *)

From stdpp Require Import gmap.
From S2P Require Import Prelude Effects Chan ChanBits.

(** What the peer sees: its memory is written or read, or a response arrives. *)
Inductive hevent :=
| HWrite (k : nat) (data : cbuf) (len raddr rkey : Z)
| HRead (len raddr rkey : Z)
| HRsp (c : mlx5_snap_completion).

Inductive chan_call :=
| CMark (guest_pa length : Z)
| CArrive (cmd : mlx5_snap_common_command) (byte_len : Z)
| CNic (data : Z -> Z)
| CNicFail
| CCq.

Section System.
Context {W : Type} `{!MigOps W} (ans : chan_answers).
#[local] Abbreviation sys := (snap_rdma_channel W).
#[local] Abbreviation V := (M sys).

Definition complete_wr (wc : ibv_wc) : V unit := modify (fun s => s ⦇ ch_cq := ch_cq s ++ [wc] ⦈).
Definition next_wr : V send_wr :=
  let! q := gets ch_sq in
  match q with
  | [] => undefined
  | w :: q => do! modify (fun s => s ⦇ ch_sq := q ⦈) in mreturn w
  end.

(** The device carries out the oldest work request.  A memory region that is no longer
    registered is an error; one that is, but whose buffer was freed, is undefined.  [data] is
    what the memory of the peer holds. *)
Definition nic (data : Z -> Z) : V (list hevent) :=
  let! w := next_wr in
  match w with
  | WrSend r id =>
      let! l := gets rsp_buf in
      let! c := m_opt undefined (l !! r) in
      do! complete_wr (WcSend id) in mreturn [HRsp c]
  | WrRdma read b m len raddr rkey r =>
      let! live := gets ch_live in
      if negb (bool_decide (m ∈ live)) then do! complete_wr WcError in mreturn []
      else
        let! x := ch_buf b in
        if negb (len <=? b_len x) then undefined
        else if read then
          do! set_buf b (mk_cbuf (b_len x) (fun i => if (0 <=? i) && (i <? len) then u8 (data i) else b_at x i)) in
          do! complete_wr (WcRdma r) in mreturn [HRead len raddr rkey]
        else
          do! complete_wr (WcRdma r) in mreturn [HWrite b x len raddr rkey]
  end.
Definition nic_fail : V (list hevent) := do! next_wr in do! complete_wr WcError in mreturn [].

(** A command arrives in the oldest receive buffer that is posted. *)
Definition arrive (cmd : mlx5_snap_common_command) (byte_len : Z) : V (list hevent) :=
  let! q := gets ch_rq in
  match q with
  | [] => undefined
  | idx :: q =>
      do! modify (fun s => s ⦇ ch_rq := q ⦈ ⦇ recv_buf := <[idx := cmd]> (recv_buf s) ⦈) in
      do! complete_wr (WcRecv idx byte_len) in mreturn []
  end.

Definition chan_step (c : chan_call) : V (list hevent) :=
  match c with
  | CMark pa len => do! snap_rdma_channel_mark_dirty_page ans pa len in mreturn []
  | CArrive cmd n => arrive cmd n
  | CNic data => nic data
  | CNicFail => nic_fail
  | CCq => do! snap_channel_cq_event_handler ans in mreturn []
  end.

Fixpoint chan_run (l : list chan_call) : V (list hevent) :=
  match l with
  | [] => mreturn []
  | c :: l => let! e := chan_step c in let! e' := chan_run l in mreturn (e ++ e')
  end.

(** ** What may happen

    Fields of their widths, a page size that does not overflow, and memory below 2^63. *)
Definition cmd_ok (c : mlx5_snap_common_command) : Prop :=
  0 <= cmd_length c < 2 ^ 32 /\ 0 <= cmd_cdw5 c < 2 ^ 32 /\ 0 <= cmd_opcode c < 256 /\
  (cmd_opcode c = MLX5_SNAP_CMD_START_LOG -> is_power_of_two (cmd_page_size c) = true -> cmd_page_size c <= 2 ^ 27).

Definition enabled (s : sys) (c : chan_call) : Prop :=
  match c with
  | CMark pa len => 0 <= pa /\ 0 < len < 2 ^ 31 /\ pa + len <= 2 ^ 63
  | CArrive cmd _ => cmd_ok cmd /\ ch_rq s <> []
  | CNic _ | CNicFail => ch_sq s <> []
  | CCq => True
  end.

Definition sys_step (s s' : sys) : Prop := exists c e, enabled s c /\ chan_step c s = Ok (s', e).

(** * The invariant *)

Definition bitmap_ok (d : snap_dirty_pages) (h : gmap nat cbuf) : Prop :=
  match bmap d with
  | None => highest_dirty_element d = 0
  | Some b => exists x j, h !! b = Some x /\ b_len x = bmap_num_elements d /\ 1 <= bmap_num_elements d <= 2 ^ 63 /\
      0 <= highest_dirty_element d <= bmap_num_elements d /\ highest_dirty_element d < 2 ^ 62 /\
      0 <= j <= 27 /\ track_page_size d = 2 ^ j
  end.

Definition copy_ok (d : snap_dirty_pages) (h : gmap nat cbuf) : Prop :=
  (copy_bmap_num_elements d = 0 /\ copy_bmap d = None) \/
  exists c x, copy_bmap d = Some c /\ h !! c = Some x /\ b_len x = copy_bmap_num_elements d /\ 0 < copy_bmap_num_elements d < 2 ^ 62.

Definition state_ok (t : snap_internal_state) (h : gmap nat cbuf) : Prop :=
  0 <= state_size t /\
  match st_buf t with None => state_size t = 0 | Some c => exists x, h !! c = Some x /\ state_size t <= b_len x end.

(** A work request of the send queue, with [k] the next name. *)
Definition wr_ok (d : snap_dirty_pages) (t : snap_internal_state) (h : gmap nat cbuf) (live : gset nat) (k : nat) (w : send_wr) : Prop :=
  match w with
  | WrSend r _ => (r < 64)%nat
  | WrRdma rd b m len _ _ r =>
      (r < 64)%nat /\ (m < k)%nat /\
      (m ∈ live -> exists x, h !! b = Some x /\ len <= b_len x /\
         (rd = false /\ copy_mr d = Some m /\ copy_bmap d = Some b \/ state_mr t = Some m /\ bmap d <> Some b /\ copy_bmap d <> Some b))
  end.

Definition wc_ok (w : ibv_wc) : Prop := match w with WcRecv r _ | WcRdma r => (r < 64)%nat | _ => True end.

Definition apart (p q : option nat) : Prop := forall k, p = Some k -> q <> Some k.

Record mem_ok (d : snap_dirty_pages) (t : snap_internal_state) (h : gmap nat cbuf) (live : gset nat) (k : nat) (sq : list send_wr) : Prop := {
  mo_bitmap : bitmap_ok d h;
  mo_copy : copy_ok d h;
  mo_state : state_ok t h;
  mo_bc : apart (bmap d) (copy_bmap d);
  mo_bs : apart (bmap d) (st_buf t);
  mo_cs : apart (copy_bmap d) (st_buf t);
  mo_heap j x : h !! j = Some x -> (j < k)%nat;
  mo_live j : j ∈ live -> (j < k)%nat;
  mo_cmr m : copy_mr d = Some m -> m ∈ live;
  mo_smr m : state_mr t = Some m -> m ∈ live;
  mo_mrs : apart (copy_mr d) (state_mr t);
  mo_sq : Forall (wr_ok d t h live k) sq
}.

End System.

(** * Changes of the memory *)

Section Mem.
Implicit Types (d : snap_dirty_pages) (t : snap_internal_state) (h : gmap nat cbuf) (live : gset nat) (k : nat) (sq : list send_wr).


(** The buffer a registered memory region belongs to. *)
Definition owner d t (rd : bool) (m b : nat) : Prop :=
  rd = false /\ copy_mr d = Some m /\ copy_bmap d = Some b \/ state_mr t = Some m /\ bmap d <> Some b /\ copy_bmap d <> Some b.

Lemma wr_ok_step d t h live k w d' t' h' live' k' :
  wr_ok d t h live k w -> (k <= k')%nat -> (forall m, (m < k)%nat -> m ∈ live' -> m ∈ live) ->
  (forall rd m b x, m ∈ live' -> h !! b = Some x -> owner d t rd m b -> owner d' t' rd m b /\ exists x', h' !! b = Some x' /\ b_len x' = b_len x) ->
  wr_ok d' t' h' live' k' w.
Proof.
  destruct w as [rd b m len raddr rkey r|]; [|done]. cbn [wr_ok]. intros (Hr & Hm & Hw) Hk Hlive Hown.
  split_and!; [done|lia|]. intros Hin. destruct (Hw (Hlive _ Hm Hin)) as (x & Hx & Hlen & Ho).
  destruct (Hown rd m b x Hin Hx Ho) as (Ho' & x' & Hx' & Hl). exists x'. rewrite Hl. by split_and!.
Qed.

Definition same_copy d d' : Prop :=
  copy_bmap_num_elements d' = copy_bmap_num_elements d /\ copy_bmap d' = copy_bmap d /\ copy_mr d' = copy_mr d.
Definition same_bmap d d' : Prop :=
  track_page_size d' = track_page_size d /\ bmap_num_elements d' = bmap_num_elements d /\
  highest_dirty_element d' = highest_dirty_element d /\ bmap d' = bmap d.
Definition same_state t t' : Prop := state_size t' = state_size t /\ st_buf t' = st_buf t /\ state_mr t' = state_mr t.

(** The buffers that satisfy [P] keep their sizes. *)
Definition keeps (P : nat -> Prop) h h' : Prop :=
  forall j x, h !! j = Some x -> P j -> exists x', h' !! j = Some x' /\ b_len x' = b_len x.

Lemma bitmap_keeps d d' h h' : bitmap_ok d h -> same_bmap d d' -> keeps (fun j => bmap d = Some j) h h' -> bitmap_ok d' h'.
Proof.
  unfold bitmap_ok. intros Hb (H1 & H2 & H3 & H4) Hk. rewrite H1, H2, H3, H4. destruct (bmap d) as [b|] eqn:E; [|done].
  destruct Hb as (x & j & Hx & Hl & Hr). destruct (Hk b x Hx) as (x' & Hx' & Hl'); [done|].
  exists x', j. by rewrite Hl'.
Qed.
Lemma copy_keeps d d' h h' : copy_ok d h -> same_copy d d' -> keeps (fun j => copy_bmap d = Some j) h h' -> copy_ok d' h'.
Proof.
  unfold copy_ok. intros Hc (H1 & H2 & H3) Hk. rewrite H1, H2. destruct Hc as [|(c & x & Hc & Hx & Hl & Hr)]; [by left|right].
  destruct (Hk c x Hx) as (x' & Hx' & Hl'); [done|]. exists c, x'. by rewrite Hl'.
Qed.
Lemma state_keeps t t' h h' : state_ok t h -> same_state t t' -> keeps (fun j => st_buf t = Some j) h h' -> state_ok t' h'.
Proof.
  unfold state_ok. intros Ht (H1 & H2 & H3) Hk. rewrite H1, H2. destruct Ht as [H0 Ht]. split; [done|].
  destruct (st_buf t) as [c|] eqn:E; [|done].
  destruct Ht as (x & Hx & Hl). destruct (Hk c x Hx) as (x' & Hx' & Hl'); [done|]. exists x'. by rewrite Hl'.
Qed.

Lemma copy_in_heap d h c : copy_ok d h -> copy_bmap d = Some c -> exists x, h !! c = Some x.
Proof. intros [[_ ?]|(c' & x & Hc & Hx & _)] Hs; [congruence|]. rewrite Hs in Hc. injection Hc as ->. eauto. Qed.
Lemma bmap_in_heap d h b : bitmap_ok d h -> bmap d = Some b -> exists x, h !! b = Some x.
Proof. unfold bitmap_ok. intros Hb Hs. rewrite Hs in Hb. destruct Hb as (x & j & Hx & _). eauto. Qed.
Lemma state_in_heap t h b : state_ok t h -> st_buf t = Some b -> exists x, h !! b = Some x.
Proof. unfold state_ok. intros [_ Hb] Hs. rewrite Hs in Hb. destruct Hb as (x & Hx & _). eauto. Qed.

Lemma keeps_refl P h : keeps P h h.
Proof. intros j x Hx _. eauto. Qed.
Lemma keeps_weak (P Q : nat -> Prop) h h' : keeps P h h' -> (forall j, Q j -> P j) -> keeps Q h h'.
Proof. intros Hk Hq j x Hx Hj. apply (Hk j x Hx). auto. Qed.
Lemma keeps_insert P h k x : h !! k = None \/ (exists y, h !! k = Some y /\ b_len x = b_len y) -> keeps P h (<[k := x]> h).
Proof.
  intros Hk j y Hy _. destruct (decide (j = k)) as [->|Hne].
  - rewrite lookup_insert_eq. exists x. split; [done|]. destruct Hk as [Hk|(z & Hz & Hl)]; congruence.
  - rewrite lookup_insert_ne by done. eauto.
Qed.
Lemma keeps_delete h k : keeps (fun j => j <> k) h (delete k h).
Proof. intros j x Hx Hne. rewrite lookup_delete_ne by done. eauto. Qed.
Lemma chan_keeps_trans P h h' h'' : keeps P h h' -> keeps P h' h'' -> keeps P h h''.
Proof. intros H1 H2 j x Hx Hp. destruct (H1 j x Hx Hp) as (y & Hy & Hl). destruct (H2 j y Hy Hp) as (z & Hz & Hl'). exists z. split; congruence. Qed.

Lemma fresh_name d t h live k sq j x : mem_ok d t h live k sq -> h !! j = Some x -> j <> k.
Proof. intros Hm Hj. pose proof (mo_heap _ _ _ _ _ _ Hm j x Hj). lia. Qed.
Lemma fresh_none d t h live k sq : mem_ok d t h live k sq -> h !! k = None.
Proof. intros Hm. destruct (h !! k) eqn:E; [|done]. by destruct (fresh_name _ _ _ _ _ _ _ _ Hm E). Qed.

(** Only the locks differ, and requests were made. *)
Lemma mem_same d t h live k sq d' t' k' :
  mem_ok d t h live k sq -> same_bmap d d' -> same_copy d d' -> same_state t t' -> (k <= k')%nat -> mem_ok d' t' h live k' sq.
Proof.
  intros [] Hb Hc Ht Hk. pose proof Hb as (H1 & H2 & H3 & H4). pose proof Hc as (H5 & H6 & H7). pose proof Ht as (H8 & H9 & H10).
  split; rewrite ?H4, ?H6, ?H7, ?H9, ?H10; try done.
  - eapply bitmap_keeps; eauto using keeps_refl.
  - eapply copy_keeps; eauto using keeps_refl.
  - eapply state_keeps; eauto using keeps_refl.
  - intros j x Hx. pose proof (mo_heap0 j x Hx). lia.
  - intros j Hx. pose proof (mo_live0 j Hx). lia.
  - eapply Forall_impl; [eassumption|]. intros w Hw. eapply wr_ok_step; [exact Hw|done|done|].
    intros rd m b x _ Hx Ho. split; [unfold owner; rewrite H4, H6, H7, H10; exact Ho|eauto].
Qed.

(** The bitmap changes: it is the same buffer, a new one, or none. *)
Lemma mem_bmap d t h live k sq d' t' h' k' :
  mem_ok d t h live k sq -> same_copy d d' -> same_state t t' -> bitmap_ok d' h' ->
  (forall b, bmap d' = Some b -> bmap d = Some b \/ (k <= b)%nat) -> keeps (fun j => bmap d <> Some j) h h' ->
  (forall j x, h' !! j = Some x -> (j < k')%nat) -> (k <= k')%nat -> mem_ok d' t' h' live k' sq.
Proof.
  intros Hm Hc Ht Hb Hn Hkeep Hf Hk. pose proof Hm as []. pose proof Hc as (H5 & H6 & H7). pose proof Ht as (H8 & H9 & H10).
  assert (forall b, bmap d' = Some b -> h !! b <> None -> bmap d = Some b) as Hb'.
  { intros b Hs Hh. destruct (Hn b Hs) as [|Hle]; [done|]. destruct (h !! b) as [x|] eqn:E; [|done]. pose proof (mo_heap0 b x E). lia. }
  split; rewrite ?H6, ?H7, ?H9, ?H10; try done.
  - eapply copy_keeps; [done..|]. eapply keeps_weak; [done|]. intros j Hj Hs. by apply (mo_bc0 j).
  - eapply state_keeps; [done..|]. eapply keeps_weak; [done|]. intros j Hj Hs. by apply (mo_bs0 j).
  - intros b Hs Hcs. destruct (copy_in_heap d h b) as [x Hx]; [done..|]. apply (mo_bc0 b); [|done]. apply Hb'; [done|congruence].
  - intros b Hs Hcs. destruct (state_in_heap t h b) as [x Hx]; [done..|]. apply (mo_bs0 b); [|done]. apply Hb'; [done|congruence].
  - intros j Hx. pose proof (mo_live0 j Hx). lia.
  - eapply Forall_impl; [eassumption|]. intros w Hw. eapply wr_ok_step; [exact Hw|done|done|].
    intros rd m b x _ Hx Ho. split.
    + unfold owner in *. rewrite H6, H7, H10. destruct Ho as [?|(? & ? & ?)]; [by left|right]. split_and!; [done| |done].
      intros Hs. apply Hb' in Hs; [done|congruence].
    + apply (Hkeep b x Hx). intros Hs. destruct Ho as [(_ & _ & Hcs)|(_ & ? & _)]; [|done]. by apply (mo_bc0 b).
Qed.

(** The bitmap is copied to a new buffer. *)
Lemma mem_copy d t h live k sq d' t' h' k' c :
  mem_ok d t h live k sq -> copy_bmap d = None -> copy_bmap d' = Some c -> (k <= c)%nat -> copy_mr d' = copy_mr d ->
  copy_ok d' h' -> bmap d' = bmap d -> bitmap_ok d' h' -> same_state t t' -> keeps (fun _ => True) h h' ->
  (forall j x, h' !! j = Some x -> (j < k')%nat) -> (k <= k')%nat -> mem_ok d' t' h' live k' sq.
Proof.
  intros Hm Hn Hc Hkc H7 Hco H4 Hb Ht Hkeep Hf Hk. pose proof Hm as []. pose proof Ht as (H8 & H9 & H10).
  split; rewrite ?H4, ?H7, ?H9, ?H10; try done.
  - eapply state_keeps; [done..|]. by eapply keeps_weak.
  - intros b Hs Hcs. destruct (bmap_in_heap d h b) as [x Hx]; [done..|]. pose proof (mo_heap0 b x Hx). rewrite Hc in Hcs. injection Hcs as ->. lia.
  - intros b Hs Hcs. destruct (state_in_heap t h b) as [x Hx]; [done..|]. pose proof (mo_heap0 b x Hx). rewrite Hc in Hs. injection Hs as ->. lia.
  - intros j Hx. pose proof (mo_live0 j Hx). lia.
  - eapply Forall_impl; [eassumption|]. intros w Hw. eapply wr_ok_step; [exact Hw|done|done|].
    intros rd m b x _ Hx Ho. split; [|by apply (Hkeep b x)]. unfold owner in *. rewrite H4, H7, H10.
    destruct Ho as [(_ & _ & ?)|(? & ? & ?)]; [congruence|right]. split_and!; [done..|]. rewrite Hc. intros [= <-]. pose proof (mo_heap0 c x Hx). lia.
Qed.

(** The copy and its memory region are released. *)
Lemma mem_release d t h live k sq d' t' h' live' :
  mem_ok d t h live k sq -> same_bmap d d' -> same_state t t' ->
  copy_bmap_num_elements d' = 0 -> copy_bmap d' = None -> copy_mr d' = None ->
  (forall j x, h !! j = Some x -> copy_bmap d <> Some j -> h' !! j = Some x) -> (forall j x, h' !! j = Some x -> h !! j = Some x) ->
  (forall m, m ∈ live' <-> m ∈ live /\ copy_mr d <> Some m) -> mem_ok d' t' h' live' k sq.
Proof.
  intros Hm Hb Ht H5 H6 H7 Hkeep Hf Hlive. pose proof Hm as []. pose proof Hb as (H1 & H2 & H3 & H4). pose proof Ht as (H8 & H9 & H10).
  split; rewrite ?H4, ?H6, ?H7, ?H9, ?H10; try done.
  - eapply bitmap_keeps; [done..|]. intros j x Hx Hs. exists x. split; [|done]. apply Hkeep; [done|]. intros Hcs. by apply (mo_bc0 j).
  - by left.
  - eapply state_keeps; [done..|]. intros j x Hx Hs. exists x. split; [|done]. apply Hkeep; [done|]. intros Hcs. by apply (mo_cs0 j).
  - intros j x Hx. eauto.
  - intros j Hj. apply Hlive in Hj as [Hj _]. auto.
  - intros m Hs. apply Hlive. split; [auto|]. intros Hcs. by apply (mo_mrs0 m).
  - eapply Forall_impl; [eassumption|]. intros w Hw. eapply wr_ok_step; [exact Hw|done| |].
    + intros m _ Hi. by apply Hlive in Hi as [? _].
    + intros rd m b x Hi Hx Ho. apply Hlive in Hi as [_ Hi]. unfold owner in *. rewrite H4, H6, H7, H10.
      destruct Ho as [(_ & ? & _)|(? & ? & ?)]; [done|]. split; [right; by split_and!|]. exists x. auto.
Qed.

(** The copy gets a new memory region, and a transfer is posted. *)
Lemma mem_report d t h live k sq d' t' live' k' b x len raddr rkey r :
  mem_ok d t h live k sq -> same_bmap d d' -> same_state t t' ->
  copy_bmap_num_elements d' = copy_bmap_num_elements d -> copy_bmap d' = copy_bmap d -> copy_mr d' = Some k ->
  copy_bmap d = Some b -> h !! b = Some x -> len <= b_len x -> (r < 64)%nat -> (k < k')%nat ->
  (forall m, m ∈ live' <-> m = k \/ m ∈ live /\ copy_mr d <> Some m) ->
  mem_ok d' t' h live' k' (sq ++ [WrRdma false b k len raddr rkey r]).
Proof.
  intros Hm Hb Ht H5 H6 H7 Hcb Hx Hlen Hr Hk Hlive. pose proof Hm as []. pose proof Hb as (H1 & H2 & H3 & H4). pose proof Ht as (H8 & H9 & H10).
  assert (forall m, (m < k)%nat -> m ∈ live' -> m ∈ live /\ copy_mr d <> Some m) as Hlive'.
  { intros m Hm' [->|?]%Hlive; [lia|done]. }
  split; rewrite ?H4, ?H6, ?H7, ?H9, ?H10; try done.
  - eapply bitmap_keeps; [done..|]. apply keeps_refl.
  - unfold copy_ok. rewrite H5, H6. exact mo_copy0.
  - eapply state_keeps; [done..|]. apply keeps_refl.
  - intros j y Hy. pose proof (mo_heap0 j y Hy). lia.
  - intros j [->|[Hj _]]%Hlive; [lia|]. pose proof (mo_live0 j Hj). lia.
  - intros m [= <-]. apply Hlive. by left.
  - intros m Hs. apply Hlive. right. split; [auto|]. intros Hcs. by apply (mo_mrs0 m).
  - intros m [= <-] Hs. pose proof (mo_live0 k (mo_smr0 _ Hs)). lia.
  - apply Forall_app. split; [|apply Forall_singleton; cbn [wr_ok]; split_and!; [done|lia|]; intros _; exists x; split_and!; [done..|left; split_and!; congruence]].
    eapply Forall_impl; [eassumption|]. intros w Hw. destruct w as [rd' b' m' len' ra' rk' r'|]; [|done]. cbn [wr_ok] in *.
    destruct Hw as (Hr' & Hm' & Hw). split_and!; [done|lia|]. intros Hi. destruct (Hlive' m' Hm' Hi) as [Hi' Hne].
    destruct (Hw Hi') as (y & Hy & Hl & Ho). exists y. split_and!; [done..|]. rewrite H4, H6, H7, H10. destruct Ho as [(_ & ? & _)|?]; [done|by right].
Qed.

(** The state gets a new buffer, or its buffer changes its bytes. *)
Lemma mem_sbuf d t h live k sq d' t' h' k' :
  mem_ok d t h live k sq -> same_bmap d d' -> same_copy d d' -> state_ok t' h' -> state_mr t' = state_mr t ->
  (forall b, st_buf t' = Some b -> st_buf t = Some b \/ (k <= b)%nat) -> keeps (fun _ => True) h h' ->
  (forall j x, h' !! j = Some x -> (j < k')%nat) -> (k <= k')%nat -> mem_ok d' t' h' live k' sq.
Proof.
  intros Hm Hb Hc Hs H10 Hn Hkeep Hf Hk. pose proof Hm as []. pose proof Hb as (H1 & H2 & H3 & H4). pose proof Hc as (H5 & H6 & H7).
  assert (forall b x, st_buf t' = Some b -> h !! b = Some x -> st_buf t = Some b) as Hn'.
  { intros b x Hb' Hx. destruct (Hn b Hb') as [|Hle]; [done|]. pose proof (mo_heap0 b x Hx). lia. }
  split; rewrite ?H4, ?H6, ?H7, ?H10; try done.
  - eapply bitmap_keeps; [done..|]. by eapply keeps_weak.
  - eapply copy_keeps; [done..|]. by eapply keeps_weak.
  - intros b Hbs Hss. destruct (bmap_in_heap d h b) as [x Hx]; [done..|]. apply (mo_bs0 b Hbs). by eapply Hn'.
  - intros b Hbs Hss. destruct (copy_in_heap d h b) as [x Hx]; [done..|]. apply (mo_cs0 b Hbs). by eapply Hn'.
  - intros j Hx. pose proof (mo_live0 j Hx). lia.
  - eapply Forall_impl; [eassumption|]. intros w Hw. eapply wr_ok_step; [exact Hw|done|done|].
    intros rd m b x _ Hx Ho. split; [unfold owner; rewrite H4, H6, H7, H10; exact Ho|by apply (Hkeep b x)].
Qed.

(** The state and its memory region are released. *)
Lemma mem_drop d t h live k sq d' t' h' live' :
  mem_ok d t h live k sq -> same_bmap d d' -> same_copy d d' -> state_size t' = 0 -> st_buf t' = None -> state_mr t' = None ->
  (forall j x, h !! j = Some x -> bmap d = Some j \/ copy_bmap d = Some j -> h' !! j = Some x) -> (forall j x, h' !! j = Some x -> h !! j = Some x) ->
  (forall m, m ∈ live' <-> m ∈ live /\ state_mr t <> Some m) -> mem_ok d' t' h' live' k sq.
Proof.
  intros Hm Hb Hc H8 H9 H10 Hkeep Hf Hlive. pose proof Hm as []. pose proof Hb as (H1 & H2 & H3 & H4). pose proof Hc as (H5 & H6 & H7).
  split; rewrite ?H4, ?H6, ?H7, ?H9, ?H10; try done.
  - eapply bitmap_keeps; [done..|]. intros j x Hx Hs. exists x. split; [|done]. apply Hkeep; auto.
  - eapply copy_keeps; [done..|]. intros j x Hx Hs. exists x. split; [|done]. apply Hkeep; auto.
  - unfold state_ok. rewrite H8, H9. done.
  - intros j x Hx. eauto.
  - intros j Hj. apply Hlive in Hj as [Hj _]. auto.
  - intros m Hs. apply Hlive. split; [auto|]. intros Hcs. by apply (mo_mrs0 m).
  - eapply Forall_impl; [eassumption|]. intros w Hw. eapply wr_ok_step; [exact Hw|done| |].
    + intros m _ Hi. by apply Hlive in Hi as [? _].
    + intros rd m b x Hi Hx Ho. apply Hlive in Hi as [_ Hi]. unfold owner in *. rewrite H4, H6, H7, H10.
      destruct Ho as [(? & ? & ?)|[? _]]; [|done]. split; [by left|]. exists x. auto.
Qed.

(** The state gets a new memory region, and a transfer is posted. *)
Lemma mem_smr d t h live k sq d' t' live' k' b x rd len raddr rkey r :
  mem_ok d t h live k sq -> same_bmap d d' -> same_copy d d' -> state_ok t' h -> st_buf t' = st_buf t -> state_mr t' = Some k ->
  st_buf t = Some b -> h !! b = Some x -> len <= b_len x -> (r < 64)%nat -> (k < k')%nat ->
  (forall m, m ∈ live' <-> m = k \/ m ∈ live /\ state_mr t <> Some m) ->
  mem_ok d' t' h live' k' (sq ++ [WrRdma rd b k len raddr rkey r]).
Proof.
  intros Hm Hb Hc Hst H9 H10 Hsb Hx Hlen Hr Hk Hlive. pose proof Hm as []. pose proof Hb as (H1 & H2 & H3 & H4). pose proof Hc as (H5 & H6 & H7).
  assert (forall m, (m < k)%nat -> m ∈ live' -> m ∈ live /\ state_mr t <> Some m) as Hlive'.
  { intros m Hm' [->|?]%Hlive; [lia|done]. }
  split; rewrite ?H4, ?H6, ?H7, ?H9, ?H10; try done.
  - eapply bitmap_keeps; [done..|]. apply keeps_refl.
  - eapply copy_keeps; [done..|]. apply keeps_refl.
  - intros j y Hy. pose proof (mo_heap0 j y Hy). lia.
  - intros j [->|[Hj _]]%Hlive; [lia|]. pose proof (mo_live0 j Hj). lia.
  - intros m Hs. apply Hlive. right. split; [auto|]. intros Hcs. by apply (mo_mrs0 m).
  - intros m [= <-]. apply Hlive. by left.
  - intros m Hs [= <-]. pose proof (mo_live0 k (mo_cmr0 _ Hs)). lia.
  - apply Forall_app. split.
    + eapply Forall_impl; [eassumption|]. intros w Hw. destruct w as [rd' b' m' len' ra' rk' r'|]; [|done]. cbn [wr_ok] in *.
      destruct Hw as (Hr' & Hm' & Hw). split_and!; [done|lia|]. intros Hi. destruct (Hlive' m' Hm' Hi) as [Hi' Hne].
      destruct (Hw Hi') as (y & Hy & Hl & Ho). exists y. split_and!; [done..|]. rewrite H4, H6, H7, H10. destruct Ho as [?|[? _]]; [by left|done].
    + apply Forall_singleton. cbn [wr_ok]. split_and!; [done|lia|]. intros _. exists x. split_and!; [done..|]. right. rewrite H4, H6.
      split_and!; [done| |]; intros Hs; [by apply (mo_bs0 b)|by apply (mo_cs0 b)].
Qed.

(** The send queue changes. *)
Lemma mem_sq d t h live k sq sq' k' :
  mem_ok d t h live k sq -> (k <= k')%nat -> Forall (wr_ok d t h live k') sq' -> mem_ok d t h live k' sq'.
Proof.
  intros [] Hk Hs. split; try done.
  - intros j x Hx. pose proof (mo_heap0 j x Hx). lia.
  - intros j Hx. pose proof (mo_live0 j Hx). lia.
Qed.
Lemma wr_ok_tick d t h live k k' w : wr_ok d t h live k w -> (k <= k')%nat -> wr_ok d t h live k' w.
Proof. intros Hw Hk. eapply wr_ok_step; [exact Hw|done|done|]. eauto. Qed.

(** A buffer changes its bytes. *)
Lemma mem_bytes d t h live k sq b x y :
  mem_ok d t h live k sq -> h !! b = Some x -> b_len y = b_len x -> mem_ok d t (<[b := y]> h) live k sq.
Proof.
  intros Hm Hx Hl. pose proof Hm as [].
  assert (forall P, keeps P h (<[b := y]> h)) as Hkeep by (intros P; apply keeps_insert; right; eauto).
  split; try done.
  - by eapply bitmap_keeps.
  - by eapply copy_keeps.
  - by eapply state_keeps.
  - intros j z. destruct (decide (j = b)) as [->|]; [intros _; eauto|]. rewrite lookup_insert_ne by done. eauto.
  - eapply Forall_impl; [eassumption|]. intros w Hw. eapply wr_ok_step; [exact Hw|done|done|].
    intros rd m b' x' _ Hx' Ho. split; [done|]. by apply (Hkeep (fun _ => True) b' x').
Qed.

End Mem.
