(* ===== verification/ChanInv.v ===== *)
(** Every operation of the migration channel keeps the invariant of ChanSys.v, returns, and
    keeps the pages that are marked. *)

From stdpp Require Import gmap.
From S2P Require Import Prelude Effects Chan ChanBits ChanSys.

Tactic Notation "chrec" :=
  cbn [upd_field track_page_size bmap_num_elements highest_dirty_element dp_lock bmap copy_bmap_num_elements copy_lock copy_bmap copy_mr
       state_size st_lock st_buf state_mr ch_env dirty_pages ch_state rsp_buf rsp_wr recv_buf ch_heap ch_live ch_tick ch_sq ch_cq ch_rq
       mutex_of fst snd].

(** What the channel relies on: the migration operations of the controller return, and keep
    an invariant of the controller. *)
Class MigLaws (W : Type) `{!MigOps W} (Inv : W -> Prop) := {
  ml_op op w : op ∈ [mo_quiesce; mo_unquiesce; mo_freeze; mo_unfreeze; mo_start_dirty_pages_track; mo_stop_dirty_pages_track] ->
    Inv w -> exists w' r, op w = Ok (w', r) /\ Inv w';
  ml_size w : Inv w -> exists w' r, mo_get_state_size w = Ok (w', r) /\ r < 2 ^ 31 /\ Inv w';
  ml_copy l len from w : Inv w -> len <= Z.of_nat (length l) -> exists w' l' r, mo_copy_state l len from w = Ok (w', (l', r)) /\ Inv w'
}.

Section Inv.
Context {W : Type} `{!MigOps W} (Inv : W -> Prop) `{!MigLaws W Inv} (ans : chan_answers).
#[local] Abbreviation sys := (snap_rdma_channel W).
#[local] Abbreviation V := (M sys).
Implicit Types (s : sys) (L : mutex_name -> mutex).

(** Memory is available. *)
Context (Halloc : forall k, an_alloc ans k = true).

Record chan_core s : Prop := {
  co_rsp : length (rsp_buf s) = 64%nat;
  co_wr : length (rsp_wr s) = 64%nat;
  co_recv : length (recv_buf s) = 64%nat;
  co_cmds : Forall cmd_ok (recv_buf s);
  co_env : Inv (ch_env s);
  co_mem : mem_ok (dirty_pages s) (ch_state s) (ch_heap s) (ch_live s) (ch_tick s) (ch_sq s);
  co_cq : Forall wc_ok (ch_cq s);
  co_rq : Forall (fun r => (r < 64)%nat) (ch_rq s)
}.

(** The invariant, while the locks are as [L] says. *)
Definition good L s : Prop := chan_core s /\ forall m, mutex_of m s = L m.
Definition all_free (m : mutex_name) : mutex := MFree.
Definition chan_ok s : Prop := good all_free s.

(** * Pages that are kept *)

(** Page [p] is marked in the bitmap, or in the copy. *)
Definition tracked s (p : Z) : Prop :=
  0 <= p /\
  ((exists b x, bmap (dirty_pages s) = Some b /\ ch_heap s !! b = Some x /\ p / 8 < highest_dirty_element (dirty_pages s) /\ page_bit x p = true) \/
   (exists c x, copy_bmap (dirty_pages s) = Some c /\ ch_heap s !! c = Some x /\ p / 8 < copy_bmap_num_elements (dirty_pages s) /\ page_bit x p = true)).

(** Nothing is lost: pages stay marked, a copy stays as it is, and tracking goes on. *)
Record evolves s s' : Prop := {
  ev_copy : copy_bmap_num_elements (dirty_pages s) <> 0 ->
    copy_bmap_num_elements (dirty_pages s') = copy_bmap_num_elements (dirty_pages s) /\ copy_bmap (dirty_pages s') = copy_bmap (dirty_pages s) /\
    forall c, copy_bmap (dirty_pages s) = Some c -> ch_heap s' !! c = ch_heap s !! c;
  ev_tracked p : tracked s p -> tracked s' p;
  ev_started : is_Some (bmap (dirty_pages s)) -> is_Some (bmap (dirty_pages s')) /\ track_page_size (dirty_pages s') = track_page_size (dirty_pages s)
}.

Lemma evolves_trans s1 s2 s3 : evolves s1 s2 -> evolves s2 s3 -> evolves s1 s3.
Proof.
  intros [H1 H2 H3] [H4 H5 H6]. split; [|auto|].
  - intros Hn. destruct (H1 Hn) as (Ha & Hb & Hc). destruct H4 as (Hd & He & Hf); [congruence|].
    split_and!; [congruence..|]. intros c Hcs. rewrite Hf by congruence. auto.
  - intros Hs. destruct (H3 Hs) as [Hs' Hp]. destruct (H6 Hs') as [? ?]. split; [done|congruence].
Qed.

(** The bitmap and the copy are not touched. *)
Lemma evolves_same s s' :
  same_bmap (dirty_pages s) (dirty_pages s') ->
  copy_bmap_num_elements (dirty_pages s') = copy_bmap_num_elements (dirty_pages s) -> copy_bmap (dirty_pages s') = copy_bmap (dirty_pages s) ->
  (forall j, bmap (dirty_pages s) = Some j \/ copy_bmap (dirty_pages s) = Some j -> ch_heap s' !! j = ch_heap s !! j) -> evolves s s'.
Proof.
  intros (H1 & H2 & H3 & H4) H5 H6 Hh. split.
  - intros _. split_and!; [done..|]. intros c Hc. apply Hh. by right.
  - intros p [Hp [(b & x & Hb & Hx & Hr)|(c & x & Hc & Hx & Hr)]]; (split; [done|]).
    + left. exists b, x. rewrite H3, H4. split_and!; [done| |apply Hr..]. rewrite <- Hx. apply Hh. by left.
    + right. exists c, x. rewrite H5, H6. split_and!; [done| |apply Hr..]. rewrite <- Hx. apply Hh. by right.
  - rewrite H1, H4. done.
Qed.
Lemma evolves_refl s : evolves s s.
Proof. by apply evolves_same. Qed.

(** * Requests to the environment *)

Lemma core_mem s s' :
  chan_core s -> length (rsp_buf s') = 64%nat -> rsp_wr s' = rsp_wr s -> recv_buf s' = recv_buf s -> ch_cq s' = ch_cq s -> ch_rq s' = ch_rq s ->
  Inv (ch_env s') -> mem_ok (dirty_pages s') (ch_state s') (ch_heap s') (ch_live s') (ch_tick s') (ch_sq s') -> chan_core s'.
Proof. intros [] H1 H2 H3 H4 H5 H6 H7. split; rewrite ?H2, ?H3, ?H4, ?H5; done. Qed.

Lemma post_calloc {A} n (f : option nat -> V A) P s :
  post (f (Some (ch_tick s))) P (s ⦇ ch_tick := S (ch_tick s) ⦈ ⦇ ch_heap := <[ch_tick s := mk_cbuf n (fun _ => 0)]> (ch_heap s) ⦈) ->
  post (m_bind (ch_calloc ans n) f) P s.
Proof. intros H. unfold ch_calloc, request, post, m_bind, gets, modify. chrec. cbn [res_bind mreturn]. by rewrite Halloc. Qed.

Lemma post_reg {A} (f : option nat -> V A) P s :
  post (f None) P (s ⦇ ch_tick := S (ch_tick s) ⦈) ->
  post (f (Some (ch_tick s))) P (s ⦇ ch_tick := S (ch_tick s) ⦈ ⦇ ch_live := {[ch_tick s]} ∪ ch_live s ⦈) ->
  post (m_bind (ibv_reg_mr ans) f) P s.
Proof.
  intros H1 H2. unfold ibv_reg_mr, acquire, request, post, m_bind, gets, modify, mreturn in *. cbn in *.
  by destruct (an_reg ans (ch_tick s)).
Qed.

Lemma post_send {A} w (f : Z -> V A) P s :
  (forall ret, ret <> 0 -> post (f ret) P (s ⦇ ch_tick := S (ch_tick s) ⦈)) ->
  post (f 0) P (s ⦇ ch_tick := S (ch_tick s) ⦈ ⦇ ch_sq := ch_sq s ++ [w] ⦈) ->
  post (m_bind (ibv_post_send ans w) f) P s.
Proof.
  intros H1 H2. unfold ibv_post_send, request, post, m_bind, gets, modify, mreturn in *. cbn in *.
  destruct (Z.eqb_spec (an_post ans (ch_tick s)) 0); cbn; [done|]. by apply H1.
Qed.

Lemma post_buf {A} k x (f : cbuf -> V A) P s : ch_heap s !! k = Some x -> post (f x) P s -> post (m_bind (ch_buf k) f) P s.
Proof. intros H1 H2. unfold ch_buf, post, m_bind, gets, m_opt, mreturn. cbn [res_bind]. by rewrite H1. Qed.

Lemma post_free {A} k x (f : unit -> V A) P s : ch_heap s !! k = Some x ->
  post (f tt) P (s ⦇ ch_heap := delete k (ch_heap s) ⦈) -> post (m_bind (ch_free (Some k)) f) P s.
Proof. intros H1 H2. unfold ch_free, ch_buf, post, m_bind, gets, m_opt, mreturn, modify. cbn [res_bind]. by rewrite H1. Qed.

Lemma post_release {A} k (f : unit -> V A) P s : k ∈ ch_live s ->
  post (f tt) P (s ⦇ ch_live := ch_live s ∖ {[k]} ⦈) -> post (m_bind (release (Some k)) f) P s.
Proof.
  intros H1 H2. unfold release, points_to, post, m_bind, gets, m_opt, mreturn, modify. cbn [res_bind]. by rewrite bool_decide_true.
Qed.

Lemma post_ops {A B} (op : W -> res (W * A)) (f : A -> V B) P s w r :
  op (ch_env s) = Ok (w, r) -> post (f r) P (s ⦇ ch_env := w ⦈) -> post (m_bind (call_ops op) f) P s.
Proof. intros H1 H2. unfold call_ops, post, m_bind, gets, m_res, mreturn, modify. cbn [res_bind]. by rewrite H1. Qed.

Lemma post_cqe {A} i g (f : unit -> V A) P s : length (rsp_buf s) = 64%nat -> (i < 64)%nat ->
  (forall l, length l = 64%nat -> post (f tt) P (s ⦇ rsp_buf := l ⦈)) -> post (m_bind (upd_cqe i g) f) P s.
Proof.
  intros Hl Hi Hf. unfold upd_cqe, post, m_bind, gets, modify. cbn [res_bind].
  destruct (lookup_lt_is_Some_2 (rsp_buf s) i) as [c ->]; [lia|]. apply Hf. by rewrite length_insert.
Qed.

Lemma post_fails L i v ret s (P : sys -> Prop) : length (rsp_buf s) = 64%nat -> (i < 64)%nat ->
  (forall l, length l = 64%nat -> good L (s ⦇ rsp_buf := l ⦈) /\ P (s ⦇ rsp_buf := l ⦈)) ->
  post (fails i v ret) (fun r s' => good L s' /\ P s') s.
Proof. intros Hl Hi Hg. unfold fails. apply post_cqe; [done..|]. intros l Hl'. by apply Hg. Qed.

Lemma fails_ret i v ret s : length (rsp_buf s) = 64%nat -> (i < 64)%nat ->
  post (fails i v ret) (fun r s' => r = ret /\ exists l, length l = 64%nat /\ s' = s ⦇ rsp_buf := l ⦈) s.
Proof. intros Hl Hi. unfold fails. apply post_cqe; [done..|]. intros l Hl'. split; [done|]. by exists l. Qed.

(** ** Locks *)

Definition set_in L m v : mutex_name -> mutex :=
  fun m' => match m, m' with StateLock, StateLock | DirtyLock, DirtyLock | CopyLock, CopyLock => v | _, _ => L m' end.
Definition hold L m : mutex_name -> mutex := set_in L m MHeld.

(** The same state up to locks. *)
Record lock_eq s s' : Prop := {
  le_bmap : same_bmap (dirty_pages s) (dirty_pages s'); le_copy : same_copy (dirty_pages s) (dirty_pages s');
  le_state : same_state (ch_state s) (ch_state s'); le_heap : ch_heap s' = ch_heap s; le_live : ch_live s' = ch_live s;
  le_tick : ch_tick s' = ch_tick s; le_sq : ch_sq s' = ch_sq s; le_cq : ch_cq s' = ch_cq s; le_rq : ch_rq s' = ch_rq s;
  le_env : ch_env s' = ch_env s; le_rsp : rsp_buf s' = rsp_buf s; le_wr : rsp_wr s' = rsp_wr s; le_recv : recv_buf s' = recv_buf s
}.

Lemma lock_eq_evolves s s' : lock_eq s s' -> evolves s s'.
Proof. intros []. destruct le_copy0 as (? & ? & _). apply evolves_same; [done..|]. intros j _. by rewrite le_heap0. Qed.

Lemma set_mutex_good L m v s : good L s -> exists s', set_mutex m v s = Ok (s', tt) /\ good (set_in L m v) s' /\ lock_eq s s'.
Proof.
  intros [Hc Hl].
  destruct m; (eexists; split; [reflexivity|]); (split; [split; [eapply core_mem; [exact Hc|chrec; try done; apply Hc..|eapply mem_same; [apply Hc|done..]]|
    intros m'; rewrite <- ?Hl; unfold set_in; pose proof (Hl m'); by destruct m']|by split]).
Qed.

Lemma good_ext L L' s : good L s -> (forall m, L' m = L m) -> good L' s.
Proof. intros [Hc Hl] Hm. split; [done|]. intros m. by rewrite Hm. Qed.

Lemma lock_good {A} m (f : unit -> V A) P L s : good L s -> L m = MFree ->
  (forall s1, good (hold L m) s1 -> lock_eq s s1 -> post (f tt) P s1) -> post (m_bind (pthread_mutex_lock m) f) P s.
Proof.
  intros Hg Hm Hf. destruct (set_mutex_good L m MHeld s Hg) as (s1 & Hs1 & Hg1 & He).
  unfold pthread_mutex_lock, post, m_bind, gets. cbn [res_bind]. rewrite (proj2 Hg), Hm, Hs1. cbn [res_bind]. by apply Hf.
Qed.

Lemma unlock_good {A} m (f : unit -> V A) P L s : good (hold L m) s -> L m = MFree ->
  (forall s1, good L s1 -> lock_eq s s1 -> post (f tt) P s1) -> post (m_bind (pthread_mutex_unlock m) f) P s.
Proof.
  intros Hg Hm Hf. destruct (set_mutex_good (hold L m) m MFree s Hg) as (s1 & Hs1 & Hg1 & He).
  unfold pthread_mutex_unlock, post, m_bind, gets. cbn [res_bind]. rewrite (proj2 Hg).
  replace (hold L m m) with MHeld by (by destruct m). rewrite Hs1. cbn [res_bind]. apply Hf; [|done].
  eapply good_ext; [exact Hg1|]. intros m'. unfold hold, set_in. by destruct m, m'.
Qed.

(** [R] does not depend on the locks. *)
Definition lock_free {A} (R : A -> sys -> Prop) : Prop := forall a s s', R a s -> lock_eq s s' -> R a s'.

Lemma locked_good {A} m (body : V A) (R : A -> sys -> Prop) L s :
  good L s -> L m = MFree -> lock_free R ->
  (forall s1, good (hold L m) s1 -> lock_eq s s1 -> post body (fun a s' => good (hold L m) s' /\ R a s') s1) ->
  post (locked m body) (fun a s' => good L s' /\ R a s') s.
Proof.
  intros Hg Hm HR Hb. unfold locked. apply (lock_good m _ _ L); [done..|]. intros s1 Hg1 He1.
  eapply post_bind_mono; [by apply Hb|]. intros a s2 [Hg2 Hr2]. apply (unlock_good m _ _ L); [done..|]. intros s3 Hg3 He3.
  split; [done|]. by eapply HR.
Qed.

Lemma evolves_lock_free {A} s : lock_free (fun (_ : A) s' => evolves s s').
Proof. intros a s1 s2 H1 He. eapply evolves_trans; [done|]. by apply lock_eq_evolves. Qed.

(** The usual case: [body] loses nothing. *)
Lemma locked_evolves {A} m (body : V A) L s :
  good L s -> L m = MFree ->
  (forall s1, good (hold L m) s1 -> post body (fun _ s' => good (hold L m) s' /\ evolves s1 s') s1) ->
  post (locked m body) (fun _ s' => good L s' /\ evolves s s') s.
Proof.
  intros Hg Hm Hb. apply (locked_good m body (fun _ s' => evolves s s')); [done..|apply evolves_lock_free|].
  intros s1 Hg1 He. eapply post_mono; [by apply Hb|]. intros a s2 [Hg2 Hev]. split; [done|].
  eapply evolves_trans; [by apply lock_eq_evolves|done].
Qed.

Lemma post_evolves {A} (m : V A) L s0 s1 s : evolves s0 s1 ->
  post m (fun _ s' => good L s' /\ evolves s1 s') s -> post m (fun _ s' => good L s' /\ evolves s0 s') s.
Proof. intros He Hp. eapply post_mono; [exact Hp|]. intros a s' [Hg Hs]. split; [done|]. by eapply evolves_trans. Qed.

(** The locks of a state that is written as a change of another one. *)
Ltac same_locks H := let m := fresh "m" in intros m; pose proof (proj2 H m); by destruct m.

(** A response is written, and nothing else changes. *)
Lemma fails_good L i v ret s : good L s -> (i < 64)%nat -> post (fails i v ret) (fun r s' => good L s' /\ evolves s s') s.
Proof.
  intros Hg Hi. apply post_fails; [apply Hg|done|]. intros l Hl. split; [split; [|same_locks Hg]|by apply evolves_same].
  eapply core_mem; [apply Hg|chrec; try done; apply Hg..].
Qed.

(** * Commands on the bitmap *)

Ltac good_by H := split; [eapply core_mem; [exact (proj1 H)|chrec; try done; try apply H..|chrec]|same_locks H].

Lemma heap_fresh s j x y k : chan_core s -> (<[ch_tick s := x]> (ch_heap s)) !! j = Some y -> (ch_tick s < k)%nat -> (j < k)%nat.
Proof.
  intros Hc. destruct (decide (j = ch_tick s)) as [->|Hne]; [done|]. rewrite lookup_insert_ne by done.
  intros Hj. pose proof (mo_heap _ _ _ _ _ _ (co_mem _ Hc) j y Hj). lia.
Qed.

Lemma heap_old s j x y : chan_core s -> ch_heap s !! j = Some x -> (<[ch_tick s := y]> (ch_heap s)) !! j = Some x.
Proof. intros Hc Hj. rewrite lookup_insert_ne; [done|]. intros <-. by destruct (fresh_name _ _ _ _ _ _ _ _ (co_mem _ Hc) Hj). Qed.
Lemma core_copy s c : chan_core s -> copy_bmap (dirty_pages s) = Some c -> exists x, ch_heap s !! c = Some x.
Proof. intros Hc. apply copy_in_heap, (mo_copy _ _ _ _ _ _ (co_mem _ Hc)). Qed.
Lemma core_bmap s b : chan_core s -> bmap (dirty_pages s) = Some b -> exists x, ch_heap s !! b = Some x.
Proof. intros Hc. apply bmap_in_heap, (mo_bitmap _ _ _ _ _ _ (co_mem _ Hc)). Qed.

(** Tracking starts, or fails to. *)
Lemma evolves_unstarted s s' :
  bmap (dirty_pages s) = None -> copy_bmap_num_elements (dirty_pages s') = copy_bmap_num_elements (dirty_pages s) ->
  copy_bmap (dirty_pages s') = copy_bmap (dirty_pages s) ->
  (forall c, copy_bmap (dirty_pages s) = Some c -> ch_heap s' !! c = ch_heap s !! c) -> evolves s s'.
Proof.
  intros Hb H1 H2 Hh. split; [done| |by rewrite Hb; intros [? ?]].
  intros p [Hp [(b & x & Hbb & _)|(c & x & Hc & Hx & Hr)]]; [congruence|]. split; [done|right]. exists c, x.
  rewrite H1, H2, Hh by done. done.
Qed.

Lemma chan_start_ok L cmd i s : good L s -> L CopyLock = MFree -> (i < 64)%nat -> cmd_ok cmd -> cmd_opcode cmd = MLX5_SNAP_CMD_START_LOG ->
  post (snap_channel_start_dirty_track ans cmd i) (fun _ s' => good L s' /\ evolves s s') s.
Proof.
  intros Hg HL Hi (_ & Hcdw & _ & Hpage) Hop. unfold snap_channel_start_dirty_track.
  destruct (is_power_of_two (cmd_page_size cmd)) eqn:Hpow; cbn [negb]; [|by apply fails_good].
  apply locked_evolves; [done..|]. clear s Hg. intros s Hg. apply post_gets.
  destruct (bmap (dirty_pages s)) as [b|] eqn:Hb; [rewrite bool_decide_true by done; by apply fails_good|].
  rewrite bool_decide_false by apply is_Some_None. apply post_calloc, post_modify, post_modify.
  destruct (ml_op mo_start_dirty_pages_track (ch_env s)) as (w & r & Hop' & Hw); [set_solver|apply Hg|].
  eapply post_ops; [exact Hop'|]. destruct (Z.eqb_spec r 0) as [->|Hr]; cbn [negb].
  - apply post_fails; [apply Hg|done|]. intros l Hl. split.
    + good_by Hg. eapply mem_bmap; [apply Hg|done|done| |chrec; intros b [= <-]; by right|apply keeps_insert; left; eapply fresh_none, Hg|intros j x Hj; eapply heap_fresh; [apply Hg|exact Hj|lia]|lia].
      specialize (Hpage Hop eq_refl). apply (is_power_of_two_spec _ Hcdw) in Hpow as (k & Hk & Hps). unfold cmd_page_size in *. rewrite Hps in Hpage.
      apply Z.pow_le_mono_r_iff in Hpage; [|lia..]. unfold bitmap_ok. chrec. eexists _, k. rewrite lookup_insert_eq.
      pose proof (pow2_31 k). rewrite Hps, i32_small by lia. unfold SNAP_CHANNEL_INITIAL_BITMAP_SIZE. cbn. split_and!; (done || lia).
    + apply evolves_unstarted; [done..|]. chrec. intros c Hc. destruct (core_copy s c (proj1 Hg) Hc) as [x Hx]. rewrite Hx. apply heap_old; [apply Hg|done].
  - eapply post_free; [chrec; apply lookup_insert_eq|]. apply post_modify, post_fails; [apply Hg|done|]. intros l Hl.
    assert (delete (ch_tick s) (<[ch_tick s := mk_cbuf SNAP_CHANNEL_INITIAL_BITMAP_SIZE (fun _ => 0)]> (ch_heap s)) = ch_heap s) as Hd
      by (apply delete_insert_id; eapply fresh_none, Hg).
    split; [|apply evolves_unstarted; chrec; try done; by rewrite Hd].
    good_by Hg. rewrite Hd. eapply mem_bmap; [apply Hg|done|done|done|done|apply keeps_refl|intros j x Hj|lia].
    pose proof (mo_heap _ _ _ _ _ _ (co_mem _ (proj1 Hg)) j x Hj). lia.
Qed.

Lemma chan_stop_ok L i s : good L s -> L CopyLock = MFree -> (i < 64)%nat ->
  post (snap_channel_stop_dirty_track i) (fun _ s' => good L s' /\ evolves s s') s.
Proof.
  intros Hg HL Hi. unfold snap_channel_stop_dirty_track. apply (lock_good CopyLock _ _ L); [done..|]. intros s1 Hg1 He1%lock_eq_evolves. apply post_gets.
  eapply (post_bind_mono _ _ (fun _ s' => good (hold L CopyLock) s' /\ evolves s s')).
  - case_bool_decide; cbn [negb].
    2: { eapply post_mono; [by apply fails_good|]. intros _ s2 [Hg2 He2]. split; [done|]. by eapply evolves_trans. }
    apply (unlock_good CopyLock _ _ L); [done..|]. intros s2 Hg2 He2%lock_eq_evolves.
    destruct (ml_op mo_stop_dirty_pages_track (ch_env s2)) as (w & r & Hop & Hw); [set_solver|apply Hg2|].
    eapply post_ops; [exact Hop|]. apply (lock_good CopyLock _ _ L); [good_by Hg2; apply Hg2|done|]. intros s3 Hg3 He3%lock_eq_evolves.
    eapply post_mono; [by apply fails_good|]. intros _ s4 [Hg4 He4]. split; [done|].
    eapply evolves_trans; [exact He1|]. eapply evolves_trans; [exact He2|]. eapply evolves_trans; [|exact He4]. eapply evolves_trans; [|exact He3].
    by apply evolves_same.
  - intros r s2 [Hg2 He2]. apply (unlock_good CopyLock _ _ L); [done..|]. intros s3 Hg3 He3%lock_eq_evolves. split; [done|]. by eapply evolves_trans.
Qed.

Lemma bitmap_bytes_small n : 0 <= n < 2 ^ 64 -> bitmap_bytes n = n.
Proof. intros Hn. unfold bitmap_bytes, SNAP_CHANNEL_BITMAP_ELEM_SZ. rewrite u64_small; lia. Qed.

Lemma post_set_result {A} i v (f : unit -> V A) P s : length (rsp_buf s) = 64%nat -> (i < 64)%nat ->
  (forall l, length l = 64%nat -> post (f tt) P (s ⦇ rsp_buf := l ⦈)) -> post (m_bind (set_result i v) f) P s.
Proof. apply post_cqe. Qed.
Lemma rsp_good L s l : good L s -> length l = 64%nat -> good L (s ⦇ rsp_buf := l ⦈).
Proof. intros Hg Hl. good_by Hg. apply Hg. Qed.

(** A result and success are written, and nothing else changes. *)
Lemma answer_good L i v s : good L s -> (i < 64)%nat ->
  post (do! set_result i v in fails i MLX5_SNAP_SC_SUCCESS 0) (fun r s' => good L s' /\ evolves s s') s.
Proof.
  intros Hg Hi. apply post_set_result; [apply Hg|done|]. intros l Hl.
  eapply post_mono; [apply fails_good; [by apply rsp_good|done]|]. intros _ s' [Hg' He]. split; [done|].
  eapply evolves_trans; [|exact He]. by apply evolves_same.
Qed.

(** The bytes of the bitmap below [n] are copied, and cleared. *)
Definition copied_bytes (x : cbuf) (n : Z) : cbuf := mk_cbuf n (fun i => if (0 <=? i) && (i <? n) then b_at x i else 0).
Definition cleared_bytes (x : cbuf) (n : Z) : cbuf := mk_cbuf (b_len x) (fun i => if (0 <=? i) && (i <? n) then 0 else b_at x i).

Lemma page_copied x n p : 0 <= p -> p / 8 < n -> page_bit (copied_bytes x n) p = page_bit x p.
Proof.
  intros Hp Hn. unfold page_bit, copied_bytes. cbn [b_at]. assert (0 <= p / 8) as H0 by (apply Z.div_pos; lia).
  by rewrite (proj2 (Z.leb_le _ _) H0), (proj2 (Z.ltb_lt _ _) Hn).
Qed.

Lemma post_memcpy {A} k2 k1 n x1 x2 (f : unit -> V A) P s :
  ch_heap s !! k1 = Some x1 -> ch_heap s !! k2 = Some x2 -> n <= b_len x1 -> n <= b_len x2 ->
  post (f tt) P (s ⦇ ch_heap := <[k2 := mk_cbuf (b_len x2) (fun i => if (0 <=? i) && (i <? n) then b_at x1 i else b_at x2 i)]> (ch_heap s) ⦈) ->
  post (m_bind (ch_memcpy k2 k1 n) f) P s.
Proof.
  intros H1 H2 Hn1%Z.leb_le Hn2%Z.leb_le Hf. unfold ch_memcpy. apply post_assoc. eapply post_buf; [exact H1|]. apply post_assoc. eapply post_buf; [exact H2|].
  rewrite Hn1, Hn2. exact Hf.
Qed.
Lemma post_bzero {A} k n x (f : unit -> V A) P s : ch_heap s !! k = Some x -> n <= b_len x ->
  post (f tt) P (s ⦇ ch_heap := <[k := cleared_bytes x n]> (ch_heap s) ⦈) -> post (m_bind (ch_bzero k n) f) P s.
Proof. intros H1 Hn%Z.leb_le Hf. unfold ch_bzero. apply post_assoc. eapply post_buf; [exact H1|]. rewrite Hn. exact Hf. Qed.

(** The state after the bitmap was copied. *)
Definition snapshot (b : nat) (x : cbuf) s : sys :=
  let n := highest_dirty_element (dirty_pages s) in
  s ⦇ dirty_pages := (dirty_pages s) ⦇ copy_bmap_num_elements := n ⦈ ⦇ copy_bmap := Some (ch_tick s) ⦈ ⦇ highest_dirty_element := 0 ⦈ ⦈
    ⦇ ch_tick := S (ch_tick s) ⦈
    ⦇ ch_heap := <[b := cleared_bytes x n]> (<[ch_tick s := copied_bytes x n]> (ch_heap s)) ⦈.

Lemma snapshot_good L b x s : good L s -> copy_bmap_num_elements (dirty_pages s) = 0 -> highest_dirty_element (dirty_pages s) <> 0 ->
  bmap (dirty_pages s) = Some b -> ch_heap s !! b = Some x -> good L (snapshot b x s) /\ evolves s (snapshot b x s).
Proof.
  intros Hg Hn Hh Hbm Hx. pose proof (co_mem _ (proj1 Hg)) as Hm. pose proof (mo_bitmap _ _ _ _ _ _ Hm) as Hb. unfold bitmap_ok in Hb.
  rewrite Hbm in Hb. destruct Hb as (x' & j & Hx' & Hl & Hnum & Hhi & Hlt & Hj & Hps). rewrite Hx in Hx'. injection Hx' as <-.
  assert (copy_bmap (dirty_pages s) = None) as Hcn.
  { destruct (mo_copy _ _ _ _ _ _ Hm) as [[_ ?]|(c & y & _ & _ & _ & ?)]; [done|lia]. }
  assert (b <> ch_tick s) as Hne by (by eapply fresh_name).
  split; [|split].
  - unfold snapshot. good_by Hg. eapply (mem_copy _ _ _ _ _ _ _ _ _ _ (ch_tick s)); [exact Hm|done|done|lia|done| |done| |done| | |lia].
    + right. exists (ch_tick s), (copied_bytes x (highest_dirty_element (dirty_pages s))). chrec. rewrite lookup_insert_ne, lookup_insert_eq by done. cbn. split_and!; (done || lia).
    + unfold bitmap_ok. chrec. rewrite Hbm. exists (cleared_bytes x (highest_dirty_element (dirty_pages s))), j. rewrite lookup_insert_eq. cbn. split_and!; (done || lia).
    + eapply chan_keeps_trans; apply keeps_insert; [left; by eapply fresh_none|right]. exists x. split; [|done]. by apply heap_old; [apply Hg|].
    + intros i y. destruct (decide (i = b)) as [->|Hib]; [intros _; pose proof (mo_heap _ _ _ _ _ _ Hm b x Hx); lia|].
      rewrite lookup_insert_ne by done. intros Hi. eapply heap_fresh; [apply Hg|exact Hi|lia].
  - done.
  - intros p [Hp [(b' & y & Hb' & Hy & Hlow & Hbit)|(c & y & Hc & _)]]; [|congruence]. split; [done|right].
    rewrite Hbm in Hb'. injection Hb' as <-. rewrite Hx in Hy. injection Hy as <-.
    exists (ch_tick s), (copied_bytes x (highest_dirty_element (dirty_pages s))). unfold snapshot. chrec. rewrite lookup_insert_ne, lookup_insert_eq by done.
    split_and!; [done..|]. by rewrite page_copied.
  - done.
Qed.

Lemma get_size_ok L i s : good L s -> L CopyLock = MFree -> L DirtyLock = MFree -> (i < 64)%nat ->
  post (snap_channel_get_dirty_size ans i) (fun _ s' => good L s' /\ evolves s s') s.
Proof.
  intros Hg HL HL' Hi. unfold snap_channel_get_dirty_size. apply locked_evolves; [done..|]. clear s Hg. intros s0 Hg0. apply post_gets.
  destruct (Z.eqb_spec (copy_bmap_num_elements (dirty_pages s0)) 0) as [Hn0|]; cbn [negb]; [|by apply answer_good].
  apply (locked_good DirtyLock _ (fun _ s' => evolves s0 s')); [done..|apply evolves_lock_free|]. intros s Hg He0. apply post_gets.
  assert (copy_bmap_num_elements (dirty_pages s) = 0) as Hn by (rewrite (proj1 (le_copy _ _ He0)); done). apply lock_eq_evolves in He0.
  apply (post_evolves _ _ _ _ _ He0). cbv zeta.
  destruct (Z.eqb_spec (highest_dirty_element (dirty_pages s)) 0) as [|Hh]; cbn [negb]; [by apply answer_good|].
  pose proof (mo_bitmap _ _ _ _ _ _ (co_mem _ (proj1 Hg))) as Hb. unfold bitmap_ok in Hb.
  destruct (bmap (dirty_pages s)) as [b|] eqn:Hbm; [|done]. destruct Hb as (x & j & Hx & Hl & Hnum & Hhi & Hlt & Hj & Hps).
  rewrite bitmap_bytes_small by lia. apply post_modify, post_calloc, post_modify. cbn [points_to m_opt].
  apply post_bind, post_return. eapply post_memcpy; [chrec; by apply heap_old; [apply Hg|]|chrec; apply lookup_insert_eq|lia|done|].
  eapply post_bzero; [chrec; rewrite insert_insert_eq; by apply heap_old; [apply Hg|]|lia|]. apply post_modify.
  destruct (snapshot_good _ b x s Hg Hn Hh Hbm Hx) as [Hg2 He2].
  apply (post_evolves _ _ _ _ _ He2). eapply (eq_ind _ (fun z => post _ _ z)); [apply answer_good; [exact Hg2|done]|].
  unfold snapshot. chrec. rewrite insert_insert_eq. reflexivity.
Qed.

(** Requests were made, and a memory region registered and released. *)
Lemma tick_good L s k : good L s -> (ch_tick s <= k)%nat -> good L (s ⦇ ch_tick := k ⦈) /\ evolves s (s ⦇ ch_tick := k ⦈).
Proof. intros Hg Hk. split; [|by apply evolves_same]. good_by Hg. eapply mem_same; [apply Hg|done..]. Qed.
Lemma live_fresh s : chan_core s -> ch_tick s ∉ ch_live s.
Proof. intros Hc Hi. pose proof (mo_live _ _ _ _ _ _ (co_mem _ Hc) _ Hi). lia. Qed.
Lemma unregistered s : chan_core s -> ({[ch_tick s]} ∪ ch_live s) ∖ {[ch_tick s]} = ch_live s.
Proof. intros Hc. pose proof (live_fresh s Hc). set_solver. Qed.

(** A memory region that is replaced. *)
Lemma dereg_old {A} (o : option nat) (f : unit -> V A) P s :
  (forall m, o = Some m -> m ∈ ch_live s) ->
  (forall live', (forall m, m ∈ live' <-> m ∈ ch_live s /\ o <> Some m) -> post (f tt) P (s ⦇ ch_live := live' ⦈)) ->
  post (m_bind (if bool_decide (is_Some o) then ibv_dereg_mr o else mreturn tt) f) P s.
Proof.
  intros Hi Hf. destruct o as [m|].
  - rewrite bool_decide_true by done. apply post_release; [by apply Hi|]. apply Hf.
    intros m'. rewrite elem_of_difference, elem_of_singleton. split; intros [? Hne]; (split; [done|]); congruence.
  - rewrite bool_decide_false by apply is_Some_None. specialize (Hf (ch_live s)). destruct s. apply Hf. intros m'. split; [done|by intros [? _]].
Qed.

Lemma report_ok L cmd i s : good L s -> L CopyLock = MFree -> (i < 64)%nat ->
  post (snap_channel_report_dirty_pages ans cmd i) (fun _ s' => good L s' /\ evolves s s') s.
Proof.
  intros Hg HL Hi. unfold snap_channel_report_dirty_pages. apply locked_evolves; [done..|]. clear s Hg. intros s Hg. apply post_gets. cbv zeta.
  set (len := u32 _). destruct (_ =? len); cbn [negb]; [|by apply fails_good].
  destruct (Z.eqb_spec len 0) as [|Hlen]; cbn [negb]; [by apply fails_good|].
  destruct (tick_good _ s (S (ch_tick s)) Hg) as [Hg1 He1]; [lia|]. apply post_reg; [apply (post_evolves _ _ _ _ _ He1); by apply fails_good|].
  pose proof (co_mem _ (proj1 Hg)) as Hm. destruct (mo_copy _ _ _ _ _ _ Hm) as [[Hz _]|(c & x & Hc & Hx & Hl & Hn)]; [subst len; by rewrite Hz in Hlen|].
  rewrite Hc. cbn [points_to m_opt]. apply post_bind, post_return. apply post_send.
  - intros ret Hr. rewrite (proj2 (Z.eqb_neq ret 0) Hr). cbn [negb]. apply post_release; [chrec; set_solver|].
    destruct (tick_good _ s (S (S (ch_tick s))) Hg) as [Hg2 He2]; [lia|]. apply (post_evolves _ _ _ _ _ He2).
    eapply (eq_ind _ (fun z => post _ _ z)); [apply fails_good; [exact Hg2|done]|]. chrec. by rewrite (unregistered s (proj1 Hg)).
  - cbn [negb Z.eqb]. apply dereg_old; [chrec; intros m Hm'; apply (mo_cmr _ _ _ _ _ _ Hm) in Hm'; set_solver|]. chrec. intros live' Hlive.
    apply post_modify, post_return. split; [|by apply evolves_same]. good_by Hg.
    eapply (mem_report _ _ _ _ (ch_tick s)); [exact Hm|done..|exact Hc|exact Hx| |done|lia|].
    + rewrite Hl. subst len. unfold u32, uwrap, SNAP_CHANNEL_BITMAP_ELEM_SZ. rewrite Z.mul_1_r. apply Z.mod_le; lia.
    + intros m. rewrite Hlive. pose proof (live_fresh s (proj1 Hg)). split.
      * intros [[->%elem_of_singleton|Hi']%elem_of_union Hne]; auto.
      * intros [->|[Hi' Hne]]; [|set_solver]. split; [set_solver|]. intros Hcm. by apply (mo_cmr _ _ _ _ _ _ Hm) in Hcm.
Qed.

(** * Commands on the state *)

Lemma device_op_ok L op i s : op ∈ [mo_quiesce; mo_unquiesce; mo_freeze; mo_unfreeze] -> good L s -> (i < 64)%nat ->
  post (device_op op i) (fun _ s' => good L s' /\ evolves s s') s.
Proof.
  intros Hop Hg Hi. unfold device_op. destruct (ml_op op (ch_env s)) as (w & r & Hrun & Hw); [set_solver|apply Hg|].
  eapply post_ops; [exact Hrun|]. assert (good L (s ⦇ ch_env := w ⦈)) as Hg1 by (good_by Hg; apply Hg).
  apply (post_evolves _ _ _ (s ⦇ ch_env := w ⦈)); [by apply evolves_same|]. by apply fails_good.
Qed.

(** The state buffer changes its bytes. *)
Lemma sbuf_bytes L s b x y : good L s -> st_buf (ch_state s) = Some b -> ch_heap s !! b = Some x -> b_len y = b_len x ->
  good L (s ⦇ ch_heap := <[b := y]> (ch_heap s) ⦈) /\ evolves s (s ⦇ ch_heap := <[b := y]> (ch_heap s) ⦈).
Proof.
  intros Hg Hb Hx Hl. pose proof (co_mem _ (proj1 Hg)) as Hm. split.
  - good_by Hg. by eapply mem_bytes.
  - apply evolves_same; [done..|]. chrec. intros j Hj. rewrite lookup_insert_ne; [done|]. intros <-.
    destruct Hj as [Hj|Hj]; [by apply (mo_bs _ _ _ _ _ _ Hm b)|by apply (mo_cs _ _ _ _ _ _ Hm b)].
Qed.

Lemma bytes_length b n : 0 <= n -> length (bytes_of b n) = Z.to_nat n.
Proof. intros Hn. unfold bytes_of. by rewrite length_map, length_seqZ. Qed.

Lemma copy_state_ok {A} L k len from (f : Z -> V A) P s s0 x : good L s -> evolves s0 s -> st_buf (ch_state s) = Some k -> ch_heap s !! k = Some x ->
  len <= b_len x -> 0 <= b_len x ->
  (forall r s', good L s' -> evolves s0 s' -> st_buf (ch_state s') = Some k ->
     (exists y, ch_heap s' !! k = Some y /\ b_len y = b_len x) -> ch_sq s' = ch_sq s -> post (f r) P s') ->
  post (m_bind (copy_state k len from) f) P s.
Proof.
  intros Hg He Hk Hx Hlen H0 Hf. unfold copy_state. apply post_assoc. eapply post_buf; [exact Hx|]. apply post_assoc.
  destruct (ml_copy (bytes_of x (b_len x)) len from (ch_env s)) as (w & l & r & Hrun & Hw); [apply Hg|rewrite bytes_length; lia|].
  eapply post_ops; [exact Hrun|]. apply post_assoc, post_modify, post_bind, post_return. cbn [fst snd].
  assert (good L (s ⦇ ch_env := w ⦈)) as Hg1 by (good_by Hg; apply Hg).
  destruct (sbuf_bytes L _ k x (put_bytes x l) Hg1 Hk Hx eq_refl) as [Hg2 He2]. apply Hf; [exact Hg2| |done| |done].
  - eapply evolves_trans; [exact He|]. eapply evolves_trans; [|exact He2]. by apply evolves_same.
  - eexists. chrec. rewrite lookup_insert_eq. by split.
Qed.

(** A new buffer for the state. *)
Definition new_sbuf (n : Z) s : sys :=
  s ⦇ ch_tick := S (ch_tick s) ⦈ ⦇ ch_heap := <[ch_tick s := mk_cbuf n (fun _ => 0)]> (ch_heap s) ⦈
    ⦇ ch_state := (ch_state s) ⦇ st_buf := Some (ch_tick s) ⦈ ⦈.

Lemma new_sbuf_good L n s : good L s -> state_size (ch_state s) = 0 -> 0 <= n -> good L (new_sbuf n s) /\ evolves s (new_sbuf n s).
Proof.
  intros Hg Hz Hn. pose proof (co_mem _ (proj1 Hg)) as Hm. split.
  - unfold new_sbuf. good_by Hg. eapply mem_sbuf; [exact Hm|done..| |done| | | |lia].
    + unfold state_ok. chrec. rewrite Hz, lookup_insert_eq. split; [lia|]. eexists. by split.
    + chrec. intros b [= <-]. by right.
    + apply keeps_insert. left. by eapply fresh_none.
    + intros j x Hj. eapply heap_fresh; [apply Hg|exact Hj|lia].
  - apply evolves_same; [done..|]. unfold new_sbuf. chrec. intros j Hj.
    assert (exists x, ch_heap s !! j = Some x) as [x Hx] by (destruct Hj; [by apply core_bmap; [apply Hg|]|by apply core_copy; [apply Hg|]]).
    rewrite Hx. by apply heap_old; [apply Hg|].
Qed.

(** The size of the state is recorded. *)
Lemma size_good L s b x n : good L s -> st_buf (ch_state s) = Some b -> ch_heap s !! b = Some x -> 0 <= n <= b_len x ->
  good L (s ⦇ ch_state := (ch_state s) ⦇ state_size := n ⦈ ⦈) /\ evolves s (s ⦇ ch_state := (ch_state s) ⦇ state_size := n ⦈ ⦈).
Proof.
  intros Hg Hb Hx Hn. split; [|by apply evolves_same]. good_by Hg. eapply mem_sbuf; [apply Hg|done..| |done|by left|apply keeps_refl|apply (mo_heap _ _ _ _ _ _ (co_mem _ (proj1 Hg)))|lia].
  unfold state_ok. chrec. rewrite Hb. split; [lia|]. exists x. split; [done|lia].
Qed.

Lemma get_state_size_ok L i s : good L s -> L StateLock = MFree -> (i < 64)%nat ->
  post (snap_channel_get_state_size ans i) (fun _ s' => good L s' /\ evolves s s') s.
Proof.
  intros Hg HL Hi. unfold snap_channel_get_state_size. apply locked_evolves; [done..|]. clear s Hg. intros s Hg. apply post_gets.
  destruct (Z.eqb_spec (state_size (ch_state s)) 0) as [Hz|]; cbn [negb]; [|by apply answer_good].
  destruct (ml_size (ch_env s)) as (w & size & Hrun & Hr & Hw); [apply Hg|]. eapply post_ops; [exact Hrun|].
  assert (good (hold L StateLock) (s ⦇ ch_env := w ⦈)) as Hg1 by (good_by Hg; apply Hg).
  apply (post_evolves _ _ _ (s ⦇ ch_env := w ⦈)); [by apply evolves_same|]. assert (state_size (ch_state (s ⦇ ch_env := w ⦈)) = 0) as Hz1 by done.
  set (s1 := s ⦇ ch_env := w ⦈) in *. clearbody s1. destruct (Z.ltb_spec size 0); [by apply fails_good|].
  apply (post_bind_mono _ _ (fun ret s' => good (hold L StateLock) s' /\ evolves s1 s' /\
    (ret = 0 -> size <> 0 -> exists b x, st_buf (ch_state s') = Some b /\ ch_heap s' !! b = Some x /\ b_len x = size))).
  - destruct (Z.eqb_spec size 0) as [->|Hs]; cbn [negb]; [apply post_return; split_and!; [done|apply evolves_refl|done]|].
    apply post_calloc, post_modify. change (post ?m ?P ?z) with (post m P (new_sbuf size s1)). cbn beta iota.
    destruct (new_sbuf_good _ size s1 Hg1) as [Hg2 He2]; [done..|].
    eapply (copy_state_ok _ _ _ _ _ _ _ s1); [exact Hg2|exact He2|reflexivity|apply lookup_insert_eq|done|done|].
    intros r s3 Hg3 He3 Hb3 (y & Hy & Hl) _. destruct (Z.eqb_spec r 0) as [->|Hr0]; cbn [negb]; [apply post_return; split_and!; [done..|eauto]|].
    eapply post_mono; [apply fails_ret; [apply Hg3|done]|]. intros r' s4 (-> & l & Hl' & ->).
    split_and!; [by apply rsp_good| |done]. eapply evolves_trans; [exact He3|by apply evolves_same].
  - intros ret s2 (Hg2 & He2 & Hb). destruct (Z.eqb_spec ret 0) as [->|]; cbn [negb]; [|by apply post_return].
    apply (post_evolves _ _ _ _ _ He2), post_modify.
    assert (u32 size = size) as -> by (apply u32_small; lia).
    assert (good (hold L StateLock) (s2 ⦇ ch_state := (ch_state s2) ⦇ state_size := size ⦈ ⦈) /\ evolves s2 (s2 ⦇ ch_state := (ch_state s2) ⦇ state_size := size ⦈ ⦈)) as [Hg3 He3].
    { destruct (Z.eq_dec size 0) as [->|Hs]; [|destruct (Hb eq_refl Hs) as (b & x & Hsb & Hx & Hl); eapply size_good; [done..|lia]].
      split; [|by apply evolves_same]. good_by Hg2. eapply mem_sbuf; [apply Hg2|done..| |done|by left|apply keeps_refl|apply (mo_heap _ _ _ _ _ _ (co_mem _ (proj1 Hg2)))|lia].
      pose proof (mo_state _ _ _ _ _ _ (co_mem _ (proj1 Hg2))) as [Hs Ht]. unfold state_ok. chrec. split; [done|].
      destruct (st_buf (ch_state s2)); [|done]. destruct Ht as (x & Hx & Hl). exists x. split; [done|lia]. }
    apply (post_evolves _ _ _ _ _ He3). by apply answer_good.
Qed.

(** The membership in the memory regions after a new one replaced an old one. *)
Lemma replaced_live s (o : option nat) (live' : gset nat) m : chan_core s -> (forall m, o = Some m -> m ∈ ch_live s) ->
  (forall m, m ∈ live' <-> m ∈ {[ch_tick s]} ∪ ch_live s /\ o <> Some m) -> m ∈ live' <-> m = ch_tick s \/ m ∈ ch_live s /\ o <> Some m.
Proof.
  intros Hc Ho Hlive. rewrite Hlive. pose proof (live_fresh s Hc). split.
  - intros [[->%elem_of_singleton|Hi']%elem_of_union Hne]; auto.
  - intros [->|[Hi' Hne]]; [|set_solver]. split; [set_solver|]. intros Hcm. by apply Ho in Hcm.
Qed.

Lemma read_state_ok L cmd i s : good L s -> L StateLock = MFree -> (i < 64)%nat -> cmd_ok cmd ->
  post (snap_channel_read_state ans cmd i) (fun _ s' => good L s' /\ evolves s s') s.
Proof.
  intros Hg HL Hi [Hclen _]. unfold snap_channel_read_state. cbv zeta. destruct (cmd_offset cmd =? 0); cbn [negb]; [|by apply fails_good].
  apply locked_evolves; [done..|]. clear s Hg. intros s Hg. apply post_gets.
  destruct (Z.ltb_spec (state_size (ch_state s)) (cmd_length cmd)) as [|Hle]; [by apply fails_good|].
  destruct (Z.eqb_spec (cmd_length cmd) 0) as [|Hlen]; cbn [negb]; [by apply fails_good|].
  destruct (tick_good _ s (S (ch_tick s)) Hg) as [Hg1 He1]; [lia|]. apply post_reg; [apply (post_evolves _ _ _ _ _ He1); by apply fails_good|].
  pose proof (co_mem _ (proj1 Hg)) as Hm. pose proof (mo_state _ _ _ _ _ _ Hm) as Hst. pose proof Hst as [Hpos Hsb].
  destruct (st_buf (ch_state s)) as [b|] eqn:Hb; [|lia]. destruct Hsb as (x & Hx & Hl).
  cbn [points_to m_opt]. apply post_bind, post_return. apply post_send.
  - intros ret Hr. rewrite (proj2 (Z.eqb_neq ret 0) Hr). cbn [negb]. apply post_release; [chrec; set_solver|].
    destruct (tick_good _ s (S (S (ch_tick s))) Hg) as [Hg2 He2]; [lia|]. apply (post_evolves _ _ _ _ _ He2).
    eapply (eq_ind _ (fun z => post _ _ z)); [apply fails_good; [exact Hg2|done]|]. chrec. by rewrite (unregistered s (proj1 Hg)).
  - cbn [negb Z.eqb]. apply dereg_old; [chrec; intros m Hm'; apply (mo_smr _ _ _ _ _ _ Hm) in Hm'; set_solver|]. chrec. intros live' Hlive.
    apply post_modify, post_fails; [apply Hg|done|]. intros l Hl'. split; [|by apply evolves_same]. good_by Hg.
    eapply (mem_smr _ _ _ _ (ch_tick s)); [exact Hm|done..|exact Hst|done|done|exact Hb|exact Hx|lia|done|lia|].
    intros m. apply replaced_live; [apply Hg|apply (mo_smr _ _ _ _ _ _ Hm)|exact Hlive].
Qed.

(** [write_state] without the state that was there before. *)
Lemma dropped {A} L s0 (k : V A) P s : good L s -> evolves s0 s ->
  (forall s', good L s' -> evolves s0 s' -> state_size (ch_state s') = 0 -> st_buf (ch_state s') = None -> state_mr (ch_state s') = None -> ch_env s' = ch_env s -> post k P s') ->
  post (do! m_when (bool_decide (is_Some (st_buf (ch_state s)))) drop_state in
        do! m_when (bool_decide (is_Some (state_mr (ch_state s)))) drop_state_mr in k) P s.
Proof.
  intros Hg He Hf. pose proof (co_mem _ (proj1 Hg)) as Hm.
  apply (post_bind_mono _ _ (fun _ s1 => exists h, s1 = s ⦇ ch_state := (ch_state s) ⦇ st_buf := None ⦈ ⦇ state_size := 0 ⦈ ⦈ ⦇ ch_heap := h ⦈ /\
    (forall j x, ch_heap s !! j = Some x -> st_buf (ch_state s) <> Some j -> h !! j = Some x) /\ (forall j x, h !! j = Some x -> ch_heap s !! j = Some x))).
  - pose proof (mo_state _ _ _ _ _ _ Hm) as [_ Hst]. destruct (st_buf (ch_state s)) as [b|] eqn:Hb.
    + destruct Hst as (x & Hx & _). rewrite bool_decide_true by done. cbn [m_when]. unfold drop_state. apply post_gets. rewrite Hb.
      eapply post_free; [exact Hx|]. exists (delete b (ch_heap s)). split_and!; [done| |].
      * intros j y Hy Hne. rewrite lookup_delete_ne; [done|congruence].
      * intros j y. rewrite lookup_delete_Some. by intros [_ ?].
    + rewrite bool_decide_false by apply is_Some_None. cbn [m_when]. apply post_return. exists (ch_heap s). split_and!; [|done..].
      destruct s as [? ? t]; destruct t; cbn in *. by subst.
  - intros [] s1 (h & -> & Hh1 & Hh2).
    apply (post_bind_mono _ _ (fun _ s2 => exists live, s2 = s ⦇ ch_state := (ch_state s) ⦇ st_buf := None ⦈ ⦇ state_size := 0 ⦈ ⦇ state_mr := None ⦈ ⦈ ⦇ ch_heap := h ⦈ ⦇ ch_live := live ⦈ /\
      forall m, m ∈ live <-> m ∈ ch_live s /\ state_mr (ch_state s) <> Some m)).
    + destruct (state_mr (ch_state s)) as [m|] eqn:Hmr.
      * rewrite bool_decide_true by done. cbn [m_when]. unfold drop_state_mr. apply post_gets. chrec. rewrite Hmr. apply post_release; [by apply (mo_smr _ _ _ _ _ _ Hm)|].
        exists (ch_live s ∖ {[m]}). split; [done|]. intros m'. set_solver.
      * rewrite bool_decide_false by apply is_Some_None. cbn [m_when]. apply post_return. exists (ch_live s). split; [|intros m; split; [done|by intros [? _]]].
        chrec. by rewrite Hmr.
    + intros [] s2 (live & -> & Hlive). apply Hf; [| |done..].
      * good_by Hg. eapply mem_drop; [exact Hm|done..| |exact Hh2|exact Hlive]. intros j x Hx Hj. apply Hh1; [done|]. intros Hs.
        destruct Hj as [Hj|Hj]; [by apply (mo_bs _ _ _ _ _ _ Hm j)|by apply (mo_cs _ _ _ _ _ _ Hm j)].
      * eapply evolves_trans; [exact He|]. apply evolves_same; [done..|]. chrec. intros j Hj.
        assert (exists x, ch_heap s !! j = Some x) as [x Hx] by (destruct Hj; [by apply core_bmap; [apply Hg|]|by apply core_copy; [apply Hg|]]).
        rewrite Hx. apply Hh1; [done|]. intros Hs. destruct Hj as [Hj|Hj]; [by apply (mo_bs _ _ _ _ _ _ Hm j)|by apply (mo_cs _ _ _ _ _ _ Hm j)].
Qed.

(** The new buffer is freed again. *)
Lemma drop_new {A} n k live (f : unit -> V A) P s : chan_core s -> state_size (ch_state s) = 0 -> st_buf (ch_state s) = None ->
  post (f tt) P (s ⦇ ch_tick := k ⦈ ⦇ ch_live := live ⦈) -> post (m_bind drop_state f) P ((new_sbuf n s) ⦇ ch_tick := k ⦈ ⦇ ch_live := live ⦈).
Proof.
  intros Hc Hz Hn Hf. unfold drop_state. apply post_assoc, post_gets, post_assoc. unfold new_sbuf. chrec.
  eapply post_free; [chrec; apply lookup_insert_eq|]. apply post_modify. chrec.
  rewrite delete_insert_id by (eapply fresh_none, Hc). destruct s as [? ? t]; destruct t; cbn in *. subst. exact Hf.
Qed.

Lemma live_same s : s ⦇ ch_live := ch_live s ⦈ = s.
Proof. by destruct s. Qed.

Lemma write_state_ok L cmd i s : good L s -> L StateLock = MFree -> (i < 64)%nat -> cmd_ok cmd ->
  post (snap_channel_write_state ans cmd i) (fun _ s' => good L s' /\ evolves s s') s.
Proof.
  intros Hg HL Hi [Hclen _]. unfold snap_channel_write_state. cbv zeta. destruct (cmd_offset cmd =? 0); cbn [negb]; [|by apply fails_good].
  apply locked_evolves; [done..|]. clear s Hg. intros s0 Hg0.
  destruct (Z.eqb_spec (cmd_length cmd) 0) as [|Hlen]; cbn [negb]; [by apply fails_good|]. apply post_gets.
  eapply dropped; [exact Hg0|apply evolves_refl|]. intros s Hg He Hz Hb Hmr _. apply (post_evolves _ _ _ _ _ He). clear s0 Hg0 He.
  set (n := cmd_length cmd) in *. apply post_calloc, post_modify. change (post ?m ?P ?z) with (post m P (new_sbuf n s)). cbn beta iota.
  destruct (new_sbuf_good _ n s Hg) as [Hg1 He1]; [done|lia|].
  assert (forall k, (ch_tick s <= k)%nat -> post (fails i MLX5_SNAP_SC_INTERNAL (- EINVAL)) (fun _ s' => good (hold L StateLock) s' /\ evolves s s') (s ⦇ ch_tick := k ⦈)) as Hfail.
  { intros k Hk. destruct (tick_good _ s k Hg Hk) as [Hg2 He2]. apply (post_evolves _ _ _ _ _ He2). by apply fails_good. }
  apply post_reg.
  { rewrite <- (live_same ((new_sbuf n s) ⦇ ch_tick := _ ⦈)). eapply drop_new; [apply Hg|done..|]. apply Hfail. unfold new_sbuf. chrec. lia. }
  pose proof (co_mem _ (proj1 Hg1)) as Hm1. set (k := ch_tick (new_sbuf n s)) in *.
  assert (S (ch_tick s) ∉ ch_live s) as Hfr by (intros Hin; pose proof (mo_live _ _ _ _ _ _ Hm1 _ Hin); change (S (ch_tick s)) with k in *; lia).
  apply post_send.
  - intros ret Hr. rewrite (proj2 (Z.eqb_neq ret 0) Hr). cbn [negb].
    change (post ?m ?P ?z) with (post m P ((new_sbuf n s) ⦇ ch_tick := S (S k) ⦈ ⦇ ch_live := {[k]} ∪ ch_live s ⦈)).
    eapply drop_new; [apply Hg|done..|]. apply post_release; [chrec; set_solver|].
    assert (({[k]} ∪ ch_live s) ∖ {[k]} = ch_live s) as Hl by (change k with (S (ch_tick s)); set_solver). chrec. rewrite Hl.
    destruct (tick_good _ s (S (S k)) Hg) as [Hg2 He2]; [unfold k, new_sbuf; chrec; lia|]. apply (post_evolves _ _ _ _ _ He2). by apply fails_good.
  - cbn [negb Z.eqb]. apply post_modify.
    match goal with |- post _ _ ?z => assert (good (hold L StateLock) z /\ evolves s z) as [Hg2 He2] end.
    { split; [|eapply evolves_trans; [exact He1|by apply evolves_same]]. good_by Hg1.
      eapply (mem_smr _ _ _ _ k); [exact Hm1|done..|apply Hm1|done|done|reflexivity|apply lookup_insert_eq|done|done|lia|].
      intros m. unfold new_sbuf. chrec. rewrite Hmr. set_solver. }
    eapply (copy_state_ok _ _ _ _ _ _ _ s); [exact Hg2|exact He2|reflexivity|apply lookup_insert_eq| |cbn [b_len]; lia|].
    { cbn [b_len]. unfold i32, uwrap. pose proof (Z.mod_le (n + 2 ^ 31) (2 ^ 32)). lia. }
    intros r s3 Hg3 He3 Hb3 (y & Hy & Hl) _. apply (post_evolves _ _ _ _ _ He3). destruct (Z.eqb_spec r 0); cbn [negb]; [|by apply fails_good].
    apply post_modify. destruct (size_good _ s3 (ch_tick s) y n Hg3) as [Hg4 He4]; [done..|rewrite Hl; cbn; lia|].
    apply (post_evolves _ _ _ _ _ He4). by apply fails_good.
Qed.

(** * Commands and completions *)

Lemma run_cmd_ok L cmd i s : good L s -> (forall m, L m = MFree) -> (i < 64)%nat -> cmd_ok cmd ->
  post (run_cmd ans cmd i) (fun _ s' => good L s' /\ evolves s s') s.
Proof.
  intros Hg HL Hi Hok. unfold run_cmd. cbv zeta.
  assert (forall (m : V Z) (g : Z -> Z * bool), post m (fun _ s' => good L s' /\ evolves s s') s ->
    post (let! ret := m in mreturn (g ret)) (fun _ s' => good L s' /\ evolves s s') s) as Hret.
  { intros m g Hm. eapply post_bind_mono; [exact Hm|]. intros a s' H. by apply post_return. }
  repeat (match goal with |- post (if ?op =? ?c then _ else _) _ _ => destruct (Z.eqb_spec op c) end;
    [apply Hret|]); [..|by apply Hret, fails_good].
  - by apply chan_start_ok.
  - by apply chan_stop_ok.
  - by apply get_size_ok.
  - by apply report_ok.
  - apply device_op_ok; [set_solver|done..].
  - apply device_op_ok; [set_solver|done..].
  - apply device_op_ok; [set_solver|done..].
  - apply device_op_ok; [set_solver|done..].
  - by apply get_state_size_ok.
  - by apply read_state_ok.
  - by apply write_state_ok.
Qed.

(** ** What the commands leave alone

    The identifiers of responses, the completions, and the buffers of commands. *)
Fixpoint send_ids (l : list send_wr) : list Z :=
  match l with [] => [] | WrSend _ id :: l => id :: send_ids l | _ :: l => send_ids l end.
Lemma send_ids_app l l' : send_ids (l ++ l') = send_ids l ++ send_ids l'.
Proof. induction l as [|[] l IH]; cbn [send_ids app]; rewrite ?IH; done. Qed.

(** An observation that sees neither the memory nor what a command answers. *)
Record blind {B : Type} (f : sys -> B) : Prop := {
  bl_dirty s v : f (s ⦇ dirty_pages := v ⦈) = f s; bl_state s v : f (s ⦇ ch_state := v ⦈) = f s; bl_heap s v : f (s ⦇ ch_heap := v ⦈) = f s;
  bl_live s v : f (s ⦇ ch_live := v ⦈) = f s; bl_tick s v : f (s ⦇ ch_tick := v ⦈) = f s; bl_env s v : f (s ⦇ ch_env := v ⦈) = f s;
  bl_rsp s i c c' : rsp_buf s !! i = Some c -> cqe_id c' = cqe_id c -> f (s ⦇ rsp_buf := <[i := c']> (rsp_buf s) ⦈) = f s
}.
(** It does not see transfers either. *)
Definition no_rdma {B : Type} (f : sys -> B) : Prop :=
  forall s rd b m len raddr rkey i, f (s ⦇ ch_sq := ch_sq s ++ [WrRdma rd b m len raddr rkey i] ⦈) = f s.

Definition obs s : list ibv_wc * list mlx5_snap_common_command * list nat * list Z * list Z :=
  (ch_cq s, recv_buf s, ch_rq s, rsp_wr s, send_ids (ch_sq s)).
Definition obs_sq s : list send_wr * list Z := (ch_sq s, map cqe_id (rsp_buf s)).

Lemma obs_blind : blind obs.
Proof. by split. Qed.
Lemma obs_no_rdma : no_rdma obs.
Proof. intros s rd b m len raddr rkey i. unfold obs. chrec. by rewrite send_ids_app, app_nil_r. Qed.
Lemma obs_sq_blind : blind obs_sq.
Proof.
  split; try done. intros s i c c' Hc Hid. unfold obs_sq. chrec. f_equal. rewrite list_fmap_insert. apply list_insert_id.
  rewrite list_lookup_fmap, Hc. cbn. by rewrite Hid.
Qed.

Section Blind.
Context {B : Type} (f : sys -> B) (Hf : blind f).

Ltac see := intros; first [apply (bl_dirty _ Hf) | apply (bl_state _ Hf) | apply (bl_heap _ Hf) | apply (bl_live _ Hf) | apply (bl_tick _ Hf) | apply (bl_env _ Hf)].
Ltac prim := unfold pthread_mutex_lock, pthread_mutex_unlock, set_mutex, request, upd_dirty, upd_istate, ch_buf, points_to, set_buf, m_opt;
  repeat (first [progress solve_preserves | apply preserves_modify; see]).

Lemma see_lock m : preserves f (pthread_mutex_lock m).
Proof. prim. Qed.
Lemma see_unlock m : preserves f (pthread_mutex_unlock m).
Proof. prim. Qed.
Lemma see_request : preserves f request.
Proof. prim. Qed.
Lemma see_dirty : preserves f dirty.
Proof. apply preserves_gets. Qed.
Lemma see_istate : preserves f istate.
Proof. apply preserves_gets. Qed.
Lemma see_upd_dirty g : preserves f (upd_dirty g).
Proof. prim. Qed.
Lemma see_upd_istate g : preserves f (upd_istate g).
Proof. prim. Qed.
Lemma see_ch_buf k : preserves f (ch_buf k).
Proof. prim. Qed.
Lemma see_set_buf k b : preserves f (set_buf k b).
Proof. prim. Qed.
Lemma see_points_to p : preserves f (points_to p).
Proof. prim. Qed.
Lemma see_upd_cqe i g : (forall c, cqe_id (g c) = cqe_id c) -> preserves f (upd_cqe i g).
Proof.
  intros Hg s s' a. unfold upd_cqe, m_bind, gets. cbn [res_bind]. destruct (rsp_buf s !! i) as [c|] eqn:Hc; [|done].
  intros [= <- _]. by eapply (bl_rsp _ Hf).
Qed.
Hint Resolve see_lock see_unlock see_request see_dirty see_istate see_upd_dirty see_upd_istate see_ch_buf see_set_buf see_points_to : preserves.

Lemma see_fails i v ret : preserves f (fails i v ret).
Proof. unfold fails, set_status. apply preserves_bind; [by apply see_upd_cqe|auto with preserves]. Qed.
Lemma see_set_result i v : preserves f (set_result i v).
Proof. by apply see_upd_cqe. Qed.
Lemma see_calloc n : preserves f (ch_calloc ans n).
Proof. unfold ch_calloc. prim. Qed.
Lemma see_free p : preserves f (ch_free p).
Proof. unfold ch_free. prim. Qed.
Lemma see_release p : preserves f (release p).
Proof. unfold release. prim. Qed.
Lemma see_reg : preserves f (ibv_reg_mr ans).
Proof. unfold ibv_reg_mr, acquire. prim. Qed.
Lemma see_ops {A} (op : W -> res (W * A)) : preserves f (call_ops op).
Proof. unfold call_ops. prim. Qed.
Lemma see_locked {A} m (body : V A) : preserves f body -> preserves f (locked m body).
Proof. intros Hb. unfold locked. solve_preserves. Qed.
Hint Resolve see_fails see_set_result see_calloc see_free see_release see_reg see_ops : preserves.

Lemma see_memcpy k2 k1 n : preserves f (ch_memcpy k2 k1 n).
Proof. unfold ch_memcpy. solve_preserves. Qed.
Lemma see_bzero k n : preserves f (ch_bzero k n).
Proof. unfold ch_bzero. solve_preserves. Qed.
Lemma see_copy_state k len from : preserves f (copy_state k len from).
Proof. unfold copy_state. solve_preserves. Qed.
Lemma see_drop_state : preserves f drop_state.
Proof. unfold drop_state. solve_preserves. Qed.
Lemma see_drop_state_mr : preserves f drop_state_mr.
Proof. unfold drop_state_mr, ibv_dereg_mr. solve_preserves. Qed.
Hint Resolve see_memcpy see_bzero see_copy_state see_drop_state see_drop_state_mr : preserves.

(** A command that transfers nothing. *)
Lemma see_plain cmd i : cmd_opcode cmd <> MLX5_SNAP_CMD_REPORT_LOG -> cmd_opcode cmd <> MLX5_SNAP_CMD_READ_STATE -> cmd_opcode cmd <> MLX5_SNAP_CMD_WRITE_STATE ->
  preserves f (run_cmd ans cmd i).
Proof.
  intros H3 H9 H10. unfold run_cmd, snap_channel_start_dirty_track, snap_channel_stop_dirty_track, snap_channel_get_dirty_size,
    snap_channel_freeze_device, snap_channel_unfreeze_device, snap_channel_quiesce_device, snap_channel_unquiesce_device, device_op, snap_channel_get_state_size. cbv zeta.
  rewrite (proj2 (Z.eqb_neq _ _) H3), (proj2 (Z.eqb_neq _ _) H9), (proj2 (Z.eqb_neq _ _) H10).
  repeat (match goal with |- preserves _ (if ?op =? ?c then _ else _) => destruct (op =? c) end; [|]);
  repeat (first [apply see_locked | progress solve_preserves]).
Qed.

Lemma see_rdma b mr len raddr rkey read i : no_rdma f -> preserves f (snap_channel_rdma_rw ans b mr len raddr rkey read i).
Proof.
  intros Hr. unfold snap_channel_rdma_rw, ibv_post_send. apply preserves_bind; [auto with preserves|]. intros k. cbv zeta. case_match; [auto with preserves|].
  apply preserves_bind; [|auto with preserves]. apply preserves_modify. intros s. apply Hr.
Qed.

Lemma see_run_cmd cmd i : no_rdma f -> preserves f (run_cmd ans cmd i).
Proof.
  intros Hr. pose proof (fun b mr len raddr rkey read => see_rdma b mr len raddr rkey read i Hr) as Hrdma.
  destruct (decide (cmd_opcode cmd = MLX5_SNAP_CMD_REPORT_LOG)) as [E|H3]; [|destruct (decide (cmd_opcode cmd = MLX5_SNAP_CMD_READ_STATE)) as [E|H9];
    [|destruct (decide (cmd_opcode cmd = MLX5_SNAP_CMD_WRITE_STATE)) as [E|H10]; [|by apply see_plain]]]; unfold run_cmd; rewrite E; cbn;
  unfold snap_channel_report_dirty_pages, snap_channel_read_state, snap_channel_write_state, ibv_dereg_mr, m_when; cbv zeta;
  repeat (first [apply Hrdma | apply see_locked | progress solve_preserves]).
Qed.

End Blind.

Lemma run_cmd_preserves cmd i : preserves obs (run_cmd ans cmd i).
Proof. apply see_run_cmd; [apply obs_blind|apply obs_no_rdma]. Qed.
Lemma obs_upd_cqe i g : preserves obs (upd_cqe i g).
Proof. unfold upd_cqe. solve_preserves. Qed.

End Inv.
