(* ===== verification/ChanMark.v ===== *)
(** Reports of dirty memory: which pages [snap_rdma_channel_mark_dirty_page] marks, and that
    it keeps the invariant. *)

From stdpp Require Import gmap.
From S2P Require Import Prelude Effects Chan ChanBits ChanSys ChanInv.

Section Mark.
Context {W : Type} `{!MigOps W} (Inv : W -> Prop) (ans : chan_answers).
#[local] Abbreviation sys := (snap_rdma_channel W).
#[local] Abbreviation V := (M sys).
Implicit Types (s : sys).
Context (Halloc : forall k, an_alloc ans k = true).

(** The number of bytes of the bitmap up to the last byte of a range. *)
Definition last_element (pa len j : Z) : Z := (pa + len - 1) / 2 ^ (j + 3) + 1.

Lemma last_page_element pa len j : 0 <= j -> (pa + len - 1) / 2 ^ j / 8 = last_element pa len j - 1.
Proof. intros Hj. unfold last_element. rewrite Z.div_div, Z.pow_add_r by (try apply Z.pow_pos_nonneg; lia). change (2 ^ 3) with 8. lia. Qed.

(** The pages are set in a buffer that is large enough. *)
Lemma write_touched pa len j b : 0 <= j <= 27 -> 0 <= pa -> 0 < len < 2 ^ 31 -> pa + len <= 2 ^ 63 -> last_element pa len j <= b_len b ->
  exists b', write_pages (Z.to_nat (elements_of pa len j)) (pa / 2 ^ j) 0 b = Ok b' /\ b_len b' = b_len b /\
    forall q, page_bit b' q = bool_decide (q ∈ touched pa len j) || page_bit b q.
Proof.
  intros Hj Hpa Hlen Hw Hb. pose proof (pow2_31 j) as Hp. assert (pa / 2 ^ j <= (pa + len - 1) / 2 ^ j) as Hle by (apply Z.div_le_mono; lia).
  assert (0 <= pa / 2 ^ j) as H0 by (apply Z.div_pos; lia).
  assert ((pa + len - 1) / 2 ^ j <= pa + len - 1) as Hup by (apply Z.div_le_upper_bound; nia).
  unfold elements_of. destruct (write_pages_ok (pa / 2 ^ j) (Z.to_nat ((pa + len - 1) / 2 ^ j - pa / 2 ^ j + 1)) 0 b) as (b' & Hrun & Hl & Hbit).
  - lia.
  - rewrite Z2Nat.id by lia. lia.
  - rewrite Z2Nat.id by lia. replace (_ + _ - 1) with ((pa + len - 1) / 2 ^ j) by lia. rewrite last_page_element by lia. lia.
  - exists b'. split_and!; [done..|]. intros q. rewrite Hbit, Z2Nat.id by lia. f_equal. apply bool_decide_ext. rewrite elem_touched by lia. lia.
Qed.

(** The numbers the code computes from the page size. *)
Lemma mark_numbers pa len j : 0 <= j <= 27 -> 0 <= pa -> 0 < len < 2 ^ 31 -> pa + len <= 2 ^ 63 ->
  u64_div pa (2 ^ j) = Ok (pa / 2 ^ j) /\ snap_channel_get_num_elements pa len (2 ^ j) = Ok (elements_of pa len j) /\
  i32 (u64 (2 ^ j) * SNAP_CHANNEL_BITMAP_ELEM_BIT_SZ) = 2 ^ (j + 3) /\ u64_div pa (2 ^ (j + 3)) = Ok (pa / 2 ^ (j + 3)) /\
  snap_channel_get_num_elements pa len (2 ^ (j + 3)) = Ok (elements_of pa len (j + 3)) /\
  u64 (pa / 2 ^ (j + 3) + elements_of pa len (j + 3)) = last_element pa len j /\ 0 < last_element pa len j < 2 ^ 62.
Proof.
  intros Hj Hpa Hlen Hw. pose proof (pow2_31 j) as Hp. pose proof (pow2_31 (j + 3)) as Hp3.
  assert (forall k, 0 < 2 ^ k < 2 ^ 31 -> u64_div pa (2 ^ k) = Ok (pa / 2 ^ k)) as Hdiv.
  { intros k Hk. unfold u64_div. rewrite u64_small by lia. by rewrite (proj2 (Z.eqb_neq (2 ^ k) 0)) by lia. }
  assert (0 <= (pa + len - 1) / 2 ^ (j + 3) < 2 ^ 61) as Hlast.
  { split; [apply Z.div_pos; lia|]. apply Z.div_lt_upper_bound; [lia|]. assert (2 ^ 3 <= 2 ^ (j + 3)) by (apply Z.pow_le_mono_r; lia). nia. }
  unfold elements_of, last_element. split_and!; try lia; [apply Hdiv; lia|apply num_elements_ok; lia| |apply Hdiv; lia|apply num_elements_ok; lia|rewrite u64_small; lia].
  rewrite u64_small by lia. change SNAP_CHANNEL_BITMAP_ELEM_BIT_SZ with (2 ^ 3). rewrite <- Z.pow_add_r by lia. apply i32_small. lia.
Qed.

(** The bitmap [x'] is as long as [x], or longer when the range needs it; the pages of the range
    are in it, and otherwise it is [x] as far as that goes, and what the memory held at the
    [k]-th request beyond. *)
Definition marks (pa len j : Z) (k : nat) (x x' : cbuf) : Prop :=
  (b_len x <= b_len x' /\ last_element pa len j <= b_len x' /\ (last_element pa len j <= b_len x -> b_len x' = b_len x)) /\
  forall q, 0 <= q -> (q ∈ touched pa len j -> page_bit x' q = true) /\
    (q / 8 < b_len x' ->
       page_bit x' q = bool_decide (q ∈ touched pa len j) || (if q / 8 <? b_len x then page_bit x q else Z.testbit (an_byte ans k (q / 8)) (q mod 8))).

(** The bitmap [b] with contents [x] gives way to [b'] with [x'], which has the pages of [x]. *)
Definition extends s b x s' b' x' : Prop :=
  bmap (dirty_pages s) = Some b /\ ch_heap s !! b = Some x /\ bmap (dirty_pages s') = Some b' /\ ch_heap s' !! b' = Some x' /\
  track_page_size (dirty_pages s') = track_page_size (dirty_pages s) /\ same_copy (dirty_pages s) (dirty_pages s') /\
  highest_dirty_element (dirty_pages s) <= highest_dirty_element (dirty_pages s') /\ highest_dirty_element (dirty_pages s) <= b_len x /\
  (forall c, copy_bmap (dirty_pages s) = Some c -> ch_heap s' !! c = ch_heap s !! c) /\
  (forall p, 0 <= p -> p / 8 < b_len x -> page_bit x p = true -> page_bit x' p = true).

Lemma extends_evolves s b x s' b' x' : extends s b x s' b' x' -> evolves s s'.
Proof.
  intros (Hb & Hx & Hb' & Hx' & Hps & (Hc1 & Hc2 & _) & Hhi & Hlen & Hc & Hp). split.
  - intros _. by split_and!.
  - intros p [Hp0 [(b1 & x1 & Hb1 & Hx1 & Hl & Hbit)|(c & y & Hcc & Hy & Hl & Hbit)]]; (split; [done|]).
    + left. exists b', x'. rewrite Hb in Hb1. injection Hb1 as <-. rewrite Hx in Hx1. injection Hx1 as <-. split_and!; [done..|lia|]. apply Hp; [done|lia|done].
    + right. exists c, y. rewrite Hc1, Hc2, (Hc c Hcc). by split_and!.
  - intros _. by rewrite Hb'.
Qed.

Lemma post_realloc {A} b x n (f : option nat -> V A) P s : ch_heap s !! b = Some x ->
  post (f (Some (ch_tick s))) P (s ⦇ ch_tick := S (ch_tick s) ⦈
    ⦇ ch_heap := <[ch_tick s := mk_cbuf n (fun i => if i <? b_len x then b_at x i else an_byte ans (ch_tick s) i)]> (delete b (ch_heap s)) ⦈) ->
  post (m_bind (ch_realloc ans (Some b) n) f) P s.
Proof.
  intros Hx Hf. unfold ch_realloc. apply post_assoc. unfold request. apply post_assoc, post_gets, post_assoc, post_modify, post_bind, post_return.
  rewrite Halloc. cbn [negb]. apply post_assoc. eapply post_buf; [exact Hx|]. apply post_assoc. eapply post_free; [exact Hx|].
  apply post_assoc, post_modify. exact Hf.
Qed.

(** The state after the bitmap moved to a larger buffer. *)
Definition regrown (n : Z) (b : nat) (x : cbuf) s : sys :=
  s ⦇ ch_tick := S (ch_tick s) ⦈
    ⦇ ch_heap := <[ch_tick s := mk_cbuf n (fun i => if i <? b_len x then b_at x i else an_byte ans (ch_tick s) i)]> (delete b (ch_heap s)) ⦈
    ⦇ dirty_pages := (dirty_pages s) ⦇ bmap_num_elements := n ⦈ ⦇ bmap := Some (ch_tick s) ⦈ ⦈.

Lemma regrown_good L n b x s : good Inv L s -> bmap (dirty_pages s) = Some b -> ch_heap s !! b = Some x ->
  bmap_num_elements (dirty_pages s) <= n <= 2 ^ 63 ->
  good Inv L (regrown n b x s) /\ exists x', b_len x' = n /\ extends s b x (regrown n b x s) (ch_tick s) x' /\
    forall p, 0 <= p -> page_bit x' p = if p / 8 <? b_len x then page_bit x p else Z.testbit (an_byte ans (ch_tick s) (p / 8)) (p mod 8).
Proof.
  intros Hg Hb Hx Hn. pose proof (co_mem _ _ (proj1 Hg)) as Hm. pose proof (mo_bitmap _ _ _ _ _ _ Hm) as Hbo. unfold bitmap_ok in Hbo.
  rewrite Hb, Hx in Hbo. destruct Hbo as (x0 & j & [= <-] & Hl & Hnum & Hhi & Hlt & Hj & Hps).
  assert (forall i, i <> b -> i <> ch_tick s -> forall y, ch_heap (regrown n b x s) !! i = Some y <-> ch_heap s !! i = Some y) as Hold.
  { intros i Hib Hit y. unfold regrown. chrec. by rewrite lookup_insert_ne, lookup_delete_ne by done. }
  assert (forall p, 0 <= p -> page_bit (mk_cbuf n (fun i => if i <? b_len x then b_at x i else an_byte ans (ch_tick s) i)) p
    = if p / 8 <? b_len x then page_bit x p else Z.testbit (an_byte ans (ch_tick s) (p / 8)) (p mod 8)) as Hbits.
  { intros p Hp. unfold page_bit. cbn [b_at]. by case_match. }
  split.
  - split; [|intros m; pose proof (proj2 Hg m); by destruct m]. eapply core_mem; [exact (proj1 Hg)|unfold regrown; chrec; try done; apply Hg..|].
    eapply mem_bmap; [exact Hm|done|done| | | | |unfold regrown; chrec; lia].
    + unfold regrown, bitmap_ok. chrec. eexists _, j. rewrite lookup_insert_eq. cbn [b_len]. split_and!; (done || lia).
    + unfold regrown. chrec. intros i [= <-]. by right.
    + intros i y Hy Hne. exists y. split; [|done]. apply Hold; [congruence|by eapply fresh_name|done].
    + intros i y. unfold regrown. chrec. destruct (decide (i = ch_tick s)) as [->|Hne]; [lia|]. rewrite lookup_insert_ne by done.
      intros [_ Hi]%lookup_delete_Some. pose proof (mo_heap _ _ _ _ _ _ Hm i y Hi). lia.
  - eexists (mk_cbuf n _). split; [reflexivity|]. split; [|exact Hbits]. unfold extends. split_and!; try done.
    + unfold regrown. chrec. apply lookup_insert_eq.
    + lia.
    + intros c Hc. destruct (core_copy Inv s c (proj1 Hg) Hc) as [y Hy]. rewrite Hy. apply Hold; [|by eapply fresh_name|done].
      intros ->. by apply (mo_bc _ _ _ _ _ _ Hm b).
    + intros p Hp Hp8 Hbit. by rewrite Hbits, (proj2 (Z.ltb_lt _ _) Hp8).
Qed.

(** The state after the pages were set. *)
Definition painted (e : Z) (b : nat) (x' : cbuf) s : sys :=
  s ⦇ ch_heap := <[b := x']> (ch_heap s) ⦈
    ⦇ dirty_pages := (dirty_pages s) ⦇ highest_dirty_element := snap_channel_max e (highest_dirty_element (dirty_pages s)) ⦈ ⦈.

Lemma painted_good L e b x x' s : good Inv L s -> bmap (dirty_pages s) = Some b -> ch_heap s !! b = Some x -> b_len x' = b_len x ->
  0 <= e <= b_len x -> e < 2 ^ 62 -> (forall p, page_bit x p = true -> page_bit x' p = true) ->
  good Inv L (painted e b x' s) /\ extends s b x (painted e b x' s) b x' /\ e <= highest_dirty_element (dirty_pages (painted e b x' s)).
Proof.
  intros Hg Hb Hx Hl He He62 Hbits. pose proof (co_mem _ _ (proj1 Hg)) as Hm. pose proof (mo_bitmap _ _ _ _ _ _ Hm) as Hbo. unfold bitmap_ok in Hbo.
  rewrite Hb, Hx in Hbo. destruct Hbo as (x0 & j & [= <-] & Hlx & Hnum & Hhi & Hlt & Hj & Hps).
  assert (snap_channel_max e (highest_dirty_element (dirty_pages s)) = Z.max e (highest_dirty_element (dirty_pages s))) as Hmax
    by (unfold snap_channel_max; destruct (Z.ltb_spec (highest_dirty_element (dirty_pages s)) e); lia).
  split; [|split; [|unfold painted; chrec; lia]].
  - split; [|intros m; pose proof (proj2 Hg m); by destruct m]. eapply core_mem; [exact (proj1 Hg)|unfold painted; chrec; try done; apply Hg..|].
    eapply mem_bmap; [exact Hm|done|done| |unfold painted; chrec; by left|apply keeps_insert; right; eauto| |done].
    + unfold painted, bitmap_ok. chrec. rewrite Hb. exists x', j. rewrite lookup_insert_eq. split_and!; (done || lia).
    + intros i y. unfold painted. chrec. destruct (decide (i = b)) as [->|Hne]; [intros _; by eapply (mo_heap _ _ _ _ _ _ Hm)|].
      rewrite lookup_insert_ne by done. apply (mo_heap _ _ _ _ _ _ Hm).
  - unfold extends, painted. chrec. split_and!; try (done || lia); [apply lookup_insert_eq| |auto].
    intros c Hc. rewrite lookup_insert_ne; [done|]. intros ->. by apply (mo_bc _ _ _ _ _ _ Hm c).
Qed.

(** What a report does. *)
Definition marking pa len s (r : Z) s' : Prop :=
  r = 0 /\ evolves s s' /\
  forall b x, bmap (dirty_pages s) = Some b -> ch_heap s !! b = Some x ->
    exists b' x' j, bmap (dirty_pages s') = Some b' /\ ch_heap s' !! b' = Some x' /\ 0 <= j /\ track_page_size (dirty_pages s) = 2 ^ j /\
      marks pa len j (ch_tick s) x x' /\ last_element pa len j <= highest_dirty_element (dirty_pages s').

Lemma marking_lock pa len s s1 r s2 s' : lock_eq s s1 -> marking pa len s1 r s2 -> lock_eq s2 s' -> marking pa len s r s'.
Proof.
  intros He1 (-> & Hev & Hb) He2. destruct (le_bmap _ _ He1) as (H1 & _ & _ & H4). destruct (le_bmap _ _ He2) as (_ & _ & H3' & H4').
  split_and!; [done|eapply evolves_trans; [by apply lock_eq_evolves|]; eapply evolves_trans; [exact Hev|by apply lock_eq_evolves]|].
  rewrite H3', H4', (le_heap _ _ He2), <- H1, <- H4, <- (le_heap _ _ He1), <- (le_tick _ _ He1). exact Hb.
Qed.
Lemma lock_eq_refl s : lock_eq s s.
Proof. by split. Qed.

Lemma post_res {A B} (r : res A) a (f : A -> V B) P s : r = Ok a -> post (f a) P s -> post (m_bind (m_res r) f) P s.
Proof. by intros ->. Qed.

Lemma chan_mark_ok L pa len s : good Inv L s -> L DirtyLock = MFree -> 0 <= pa -> 0 < len < 2 ^ 31 -> pa + len <= 2 ^ 63 ->
  post (snap_rdma_channel_mark_dirty_page ans pa len) (fun r s' => good Inv L s' /\ marking pa len s r s') s.
Proof.
  intros Hg HL Hpa Hlen Hw. unfold snap_rdma_channel_mark_dirty_page.
  apply (locked_good Inv DirtyLock _ (marking pa len s)); [done..| |].
  { intros r s1 s2 Hm He. eapply marking_lock; [apply lock_eq_refl|exact Hm|exact He]. }
  intros s1 Hg1 He1. apply (post_mono _ (fun r s' => good Inv (hold L DirtyLock) s' /\ marking pa len s1 r s')).
  2: { intros r s' [? Hq]. split; [done|]. eapply marking_lock; [exact He1|exact Hq|apply lock_eq_refl]. }
  clear s Hg He1. rename s1 into s, Hg1 into Hg. apply post_gets.
  pose proof (mo_bitmap _ _ _ _ _ _ (co_mem _ _ (proj1 Hg))) as Hb. unfold bitmap_ok in Hb.
  destruct (bmap (dirty_pages s)) as [b|] eqn:Hbm; [|apply post_return; split; [done|]; split_and!; [done|apply evolves_refl|congruence]].
  destruct Hb as (x & j & Hx & Hl & Hnum & Hhi & Hlt & Hj & Hps). cbv zeta. rewrite Hps.
  destruct (mark_numbers pa len j Hj Hpa Hlen Hw) as (E1 & E2 & E3 & E4 & E5 & E6 & Hlast). rewrite E3.
  eapply post_res; [exact E1|]. eapply post_res; [exact E2|]. eapply post_res; [exact E4|]. eapply post_res; [exact E5|]. rewrite E6.
  set (e := last_element pa len j) in *.
  apply (post_bind_mono _ _ (fun p s2 => exists b2 x2, p = Some b2 /\ good Inv (hold L DirtyLock) s2 /\ e <= b_len x2 /\ b_len x <= b_len x2 /\
    (e <= b_len x -> b_len x2 = b_len x) /\ extends s b x s2 b2 x2 /\
    forall q, 0 <= q -> q / 8 < b_len x2 -> page_bit x2 q = if q / 8 <? b_len x then page_bit x q else Z.testbit (an_byte ans (ch_tick s) (q / 8)) (q mod 8))).
  - destruct (Z.ltb_spec (bmap_num_elements (dirty_pages s)) e) as [Hgrow|Hfit].
    + destruct (grow_ok e 64 (bmap_num_elements (dirty_pages s))) as (n & En & Hn1 & Hn2); [lia..|].
      eapply post_res; [exact En|]. rewrite bitmap_bytes_small by lia. eapply post_realloc; [exact Hx|]. apply post_modify, post_return.
      destruct (regrown_good (hold L DirtyLock) n b x s Hg Hbm Hx) as (Hg2 & x2 & Hl2 & Hext & Hsame); [lia|].
      exists (ch_tick s), x2. split_and!; [done|exact Hg2|lia|lia|lia|exact Hext|auto].
    + apply post_return. exists b, x. split_and!; [done|done|lia|lia|done| |intros q _ Hq; by rewrite (proj2 (Z.ltb_lt _ _) Hq)].
      unfold extends. split_and!; try done; lia.
  - intros p s2 (b2 & x2 & -> & Hg2 & He2 & Hlx & Hfit & Hext & Hsame). pose proof Hext as (_ & _ & Hb2 & Hx2 & _).
    eapply post_buf; [exact Hx2|]. destruct (write_touched pa len j x2) as (x3 & Ew & Hl3 & Hbits); [done..|].
    eapply post_res; [exact Ew|]. apply post_modify, post_modify, post_return.
    destruct (painted_good (hold L DirtyLock) e b2 x2 x3 s2 Hg2 Hb2 Hx2 Hl3) as (Hg3 & Hext3 & Hhi3); [lia..|intros q Hq; by rewrite Hbits, Hq, orb_true_r|].
    split; [exact Hg3|]. split_and!; [done|eapply evolves_trans; eapply extends_evolves; [exact Hext|exact Hext3]|].
    intros b' x' Hb' Hx'. rewrite Hbm in Hb'. injection Hb' as <-. rewrite Hx in Hx'. injection Hx' as <-.
    pose proof Hext3 as (_ & _ & Hb3 & Hx3 & _). exists b2, x3, j. split_and!; [done|done|lia|done| |exact Hhi3].
    split; [split_and!; [lia|fold e; lia|intros Hle; rewrite Hl3; by apply Hfit]|]. intros q Hq. split; [intros Hin; rewrite Hbits, bool_decide_true by done; done|].
    intros Hq8. rewrite Hbits, Hsame by (done || lia). done.
Qed.

End Mark.
