(* ===== verification/ChanProps.v ===== *)
(** Theorems on the migration channel: every event is handled, and no page that was reported
    dirty is lost while the peer asks for the log as it should; but the copy of the bitmap is
    then never released. *)

From stdpp Require Import gmap.
From S2P Require Import Prelude Effects Chan ChanBits ChanSys ChanInv ChanMark.

Section Props.
Context {W : Type} `{!MigOps W} (Inv : W -> Prop) `{!MigLaws W Inv} (ans : chan_answers).
#[local] Abbreviation sys := (snap_rdma_channel W).
#[local] Abbreviation V := (M sys).
Implicit Types (s : sys).
Context (Halloc : forall k, an_alloc ans k = true).
#[local] Abbreviation ok := (chan_ok Inv).

(** * Commands *)

Lemma ok_core s : ok s -> chan_core Inv s.
Proof. apply proj1. Qed.

(** A response is posted. *)
Lemma post_rsp_ok i s : ok s -> (i < 64)%nat -> post (post_rsp ans i) (fun _ s' => ok s' /\ evolves s s') s.
Proof.
  intros Hg Hi. unfold post_rsp. apply post_gets. destruct (lookup_lt_is_Some_2 (rsp_wr s) i) as [id Hid]; [rewrite (co_wr _ _ (proj1 Hg)); lia|].
  rewrite Hid. cbn [m_opt]. apply post_bind, post_return. unfold ibv_post_send.
  unfold request. apply post_assoc, post_gets, post_assoc, post_modify, post_bind, post_return. cbv zeta.
  destruct (tick_good Inv all_free s (S (ch_tick s)) Hg) as [Hg1 He1]; [lia|]. case_match; [by apply post_return|].
  apply post_modify, post_return. split; [|by apply evolves_same]. split; [|intros m; pose proof (proj2 Hg m); by destruct m].
  eapply core_mem; [exact (proj1 Hg1)|chrec; try done; apply Hg..|]. chrec. eapply mem_sq; [apply Hg1|chrec; lia|].
  apply Forall_app. split; [apply (mo_sq _ _ _ _ _ _ (co_mem _ _ (proj1 Hg1)))|]. apply Forall_singleton. exact Hi.
Qed.

Lemma set_wr_ok s l : ok s -> length l = 64%nat -> ok (s ⦇ rsp_wr := l ⦈) /\ evolves s (s ⦇ rsp_wr := l ⦈).
Proof. intros [[] Hl] Hn. split; [|by apply evolves_same]. split; [by split|intros m; pose proof (Hl m); by destruct m]. Qed.

Lemma process_cmd_ok cmd s : ok s -> cmd_ok cmd -> post (snap_channel_process_cmd ans cmd) (fun _ s' => ok s' /\ evolves s s') s.
Proof.
  intros Hg Hc. unfold snap_channel_process_cmd. cbv zeta.
  destruct (Z.ltb_spec (cmd_id cmd) 1) as [|H1]; cbn [orb]; [apply post_return; split; [done|apply evolves_refl]|].
  destruct (Z.ltb_spec SNAP_CHANNEL_QUEUE_SIZE (cmd_id cmd)) as [|H2]; [apply post_return; split; [done|apply evolves_refl]|].
  unfold SNAP_CHANNEL_QUEUE_SIZE in *. set (i := Z.to_nat (cmd_id cmd - 1)). assert (i < 64)%nat as Hi by (subst i; lia).
  apply post_cqe; [apply Hg|done|]. intros l Hl. pose proof (rsp_good Inv _ s l Hg Hl) as Hg1.
  apply (post_evolves Inv _ _ _ (s ⦇ rsp_buf := l ⦈)); [by apply evolves_same|]. set (s1 := s ⦇ rsp_buf := l ⦈) in *. clearbody s1. clear s Hg l Hl.
  eapply post_bind_mono; [by apply (run_cmd_ok Inv ans Halloc)|]. intros [ret send] s2 [Hg2 He2]. apply (post_evolves Inv _ _ _ _ _ He2).
  destruct send; [|apply post_return; split; [done|apply evolves_refl]].
  apply post_cqe; [apply Hg2|done|]. intros l Hl. pose proof (rsp_good Inv _ s2 l Hg2 Hl) as Hg3. apply post_modify.
  destruct (set_wr_ok _ (<[i := cmd_opcode cmd]> (rsp_wr s2)) Hg3) as [Hg4 He4]; [rewrite length_insert; apply Hg2|].
  eapply (post_evolves Inv); [|apply post_rsp_ok; [exact Hg4|done]]. by apply evolves_same.
Qed.

Lemma process_retry_ok n cmd s : ok s -> cmd_ok cmd -> post (process_retry ans n cmd) (fun _ s' => ok s' /\ evolves s s') s.
Proof.
  intros Hg Hc. revert s Hg. induction n as [|n IH]; intros s Hg; cbn [process_retry];
    (eapply post_bind_mono; [by apply process_cmd_ok|]); intros ret s1 [Hg1 He1]; (case_match; [|by apply post_return]).
  - by apply post_return.
  - apply (post_evolves Inv _ _ _ _ _ He1). by apply IH.
Qed.

Lemma recv_handler_ok idx s : ok s -> (idx < 64)%nat -> post (snap_channel_recv_handler ans idx) (fun _ s' => ok s' /\ evolves s s') s.
Proof.
  intros Hg Hi. unfold snap_channel_recv_handler. apply post_gets.
  destruct (lookup_lt_is_Some_2 (recv_buf s) idx) as [cmd Hcmd]; [rewrite (co_recv _ _ (proj1 Hg)); lia|].
  rewrite Hcmd. cbn [m_opt]. apply post_bind, post_return.
  assert (cmd_ok cmd) as Hc by (eapply Forall_lookup_1; [apply Hg|exact Hcmd]).
  eapply post_bind_mono; [by apply process_retry_ok|]. intros ret s1 [Hg1 He1]. apply (post_evolves Inv _ _ _ _ _ He1).
  unfold ibv_post_recv, request. apply post_assoc, post_gets, post_assoc, post_modify, post_bind, post_return. cbv zeta.
  destruct (tick_good Inv all_free s1 (S (ch_tick s1)) Hg1) as [Hg2 He2]; [lia|]. case_match; [by apply post_return|].
  apply post_modify, post_return. split; [|by apply evolves_same]. destruct Hg2 as [[] Hl2]. split; [|intros m; pose proof (Hl2 m); by destruct m].
  split; try done. chrec. apply Forall_app. split; [apply Hg1|by apply Forall_singleton].
Qed.

(** * Completions *)

(** A completion that releases the copy of the bitmap. *)
Definition releases (wc : ibv_wc) : bool := match wc with WcSend id => u8 id =? MLX5_SNAP_CMD_REPORT_LOG | _ => false end.

Lemma release_copy_ok wr_id s : ok s -> post (snap_channel_handle_completion ans (WcSend wr_id)) (fun _ s' => ok s') s.
Proof.
  intros Hg. cbn [snap_channel_handle_completion]. case_match; [|by apply post_return].
  apply (post_mono _ (fun (_ : Z) s' => ok s' /\ True)); [|by intros ? ? [? _]].
  apply (locked_good Inv CopyLock _ (fun _ _ => True)); [done..|]. intros s1 Hg1 _. clear s Hg. rename s1 into s, Hg1 into Hg. apply post_gets.
  pose proof (co_mem _ _ (proj1 Hg)) as Hm.
  apply (post_bind_mono _ _ (fun _ s1 => exists h, s1 = s ⦇ dirty_pages := (dirty_pages s) ⦇ copy_bmap_num_elements := 0 ⦈ ⦇ copy_bmap := None ⦈ ⦈ ⦇ ch_heap := h ⦈ /\
    (forall j x, ch_heap s !! j = Some x -> copy_bmap (dirty_pages s) <> Some j -> h !! j = Some x) /\ (forall j x, h !! j = Some x -> ch_heap s !! j = Some x))).
  - destruct (mo_copy _ _ _ _ _ _ Hm) as [[Hz Hn]|(c & x & Hc & Hx & Hl & Hpos)].
    + rewrite Hz. cbn [negb Z.eqb m_when]. apply post_return. exists (ch_heap s). split_and!; [|done..]. destruct s as [? d]; destruct d; cbn in *. by subst.
    + rewrite (proj2 (Z.eqb_neq _ 0)) by lia. cbn [negb m_when]. rewrite Hc. eapply post_free; [exact Hx|]. exists (delete c (ch_heap s)). split_and!; [done| |].
      * intros j y Hy Hne. rewrite lookup_delete_ne; [done|congruence].
      * intros j y. rewrite lookup_delete_Some. by intros [_ ?].
  - intros [] s1 (h & -> & Hh1 & Hh2).
    apply (post_bind_mono _ _ (fun _ s2 => exists live, s2 = s ⦇ dirty_pages := (dirty_pages s) ⦇ copy_bmap_num_elements := 0 ⦈ ⦇ copy_bmap := None ⦈ ⦇ copy_mr := None ⦈ ⦈ ⦇ ch_heap := h ⦈ ⦇ ch_live := live ⦈ /\
      forall m, m ∈ live <-> m ∈ ch_live s /\ copy_mr (dirty_pages s) <> Some m)).
    + destruct (copy_mr (dirty_pages s)) as [m|] eqn:Hmr.
      * rewrite bool_decide_true by done. cbn [m_when]. apply post_release; [by apply (mo_cmr _ _ _ _ _ _ Hm)|].
        exists (ch_live s ∖ {[m]}). split; [done|]. intros m'. set_solver.
      * rewrite bool_decide_false by apply is_Some_None. cbn [m_when]. apply post_return. exists (ch_live s). split; [|intros m; split; [done|by intros [? _]]].
        chrec. by rewrite Hmr.
    + intros [] s2 (live & -> & Hlive). apply post_return. split; [|done]. split; [|intros m; pose proof (proj2 Hg m); by destruct m].
      eapply core_mem; [exact (proj1 Hg)|chrec; try done; apply Hg..|]. chrec. eapply mem_release; [exact Hm|done..|exact Hh1|exact Hh2|exact Hlive].
Qed.

Lemma chan_completion_ok wc s : ok s -> wc_ok wc ->
  post (snap_channel_handle_completion ans wc) (fun _ s' => ok s' /\ (releases wc = false -> evolves s s')) s.
Proof.
  intros Hg Hwc. assert (forall r, post (mreturn r) (fun (_ : Z) s' => ok s' /\ (releases wc = false -> evolves s s')) s) as Hret.
  { intros r. apply post_return. split; [done|]. intros _. apply evolves_refl. }
  destruct wc as [idx n|id|r| |]; cbn [snap_channel_handle_completion wc_ok] in *; [| | |apply Hret..].
  - case_match; [apply Hret|]. eapply post_bind_mono; [by apply recv_handler_ok|]. intros ret s1 [Hg1 He1]. by apply post_return.
  - destruct (releases (WcSend id)) eqn:Hr; cbn [releases] in Hr.
    + eapply post_mono; [by apply (release_copy_ok id)|]. intros ? s' Hs'. split; [done|]. cbn [releases]. congruence.
    + rewrite Hr. apply Hret.
  - eapply post_mono; [by apply post_rsp_ok|]. intros ? s' [? ?]. done.
Qed.

(** ** What completions leave alone *)

Definition queues s : list ibv_wc * list mlx5_snap_common_command := (ch_cq s, recv_buf s).

Lemma obs_queues {A} (m : V A) : preserves obs m -> preserves queues m.
Proof. intros Hm s s' a Hrun. specialize (Hm s s' a Hrun). unfold obs in Hm. unfold queues. by injection Hm as -> -> _ _ _. Qed.

Lemma queues_post_send w : preserves queues (ibv_post_send ans w).
Proof. unfold ibv_post_send, request. cbv zeta. solve_preserves. Qed.
Lemma queues_post_rsp i : preserves queues (post_rsp ans i).
Proof. unfold post_rsp, m_opt. pose proof queues_post_send. solve_preserves. Qed.
Lemma queues_process_cmd cmd : preserves queues (snap_channel_process_cmd ans cmd).
Proof.
  unfold snap_channel_process_cmd. cbv zeta. case_match; [auto with preserves|].
  apply preserves_bind; [apply obs_queues, obs_upd_cqe|]. intros _. apply preserves_bind; [apply obs_queues, run_cmd_preserves|]. intros [ret []]; [|auto with preserves].
  apply preserves_bind; [apply obs_queues, obs_upd_cqe|]. intros _. apply preserves_bind; [by apply preserves_modify|]. intros _. apply queues_post_rsp.
Qed.
Lemma queues_retry n cmd : preserves queues (process_retry ans n cmd).
Proof. induction n; cbn [process_retry]; (apply preserves_bind; [apply queues_process_cmd|]); intros ret; solve_preserves. Qed.

(** What releases the copy. *)
Lemma see_release_body {B} (f : sys -> B) : blind f ->
  preserves f (locked CopyLock (
    let! d := dirty in
    do! m_when (negb (copy_bmap_num_elements d =? 0)) (
          do! ch_free (copy_bmap d) in upd_dirty (fun d => d ⦇ copy_bmap_num_elements := 0 ⦈ ⦇ copy_bmap := None ⦈)) in
    do! m_when (bool_decide (is_Some (copy_mr d))) (do! ibv_dereg_mr (copy_mr d) in upd_dirty (fun d => d ⦇ copy_mr := None ⦈)) in
    mreturn 0)).
Proof.
  intros Hf. apply see_locked; [done|]. apply preserves_bind; [by apply see_dirty|]. intros d. unfold m_when, ibv_dereg_mr.
  pose proof (see_free f Hf). pose proof (see_release f Hf). pose proof (see_upd_dirty f Hf). solve_preserves.
Qed.

Lemma queues_completion wc : preserves queues (snap_channel_handle_completion ans wc).
Proof.
  destruct wc as [idx n|id|r| |]; cbn [snap_channel_handle_completion]; [| |apply queues_post_rsp|auto with preserves..].
  - case_match; [auto with preserves|]. apply preserves_bind; [|intros; auto with preserves]. unfold snap_channel_recv_handler, ibv_post_recv, request, m_opt. cbv zeta.
    pose proof queues_retry. solve_preserves.
  - case_match; [|auto with preserves]. apply obs_queues, (see_release_body obs obs_blind).
Qed.
Lemma queues_batch l : preserves queues (handle_batch ans l).
Proof. induction l as [|wc l IH]; cbn [handle_batch]; [auto with preserves|]. apply preserves_bind; [apply queues_completion|]. intros ret. solve_preserves. Qed.

(** * The thread of the channel *)

(** The completion queue can be polled. *)
Context (Hpoll : forall k, an_poll ans k = true).

Lemma batch_ok l s : ok s -> Forall wc_ok l -> post (handle_batch ans l) (fun _ s' => ok s' /\ (Forall (fun wc => releases wc = false) l -> evolves s s')) s.
Proof.
  intros Hg Hl. revert s Hg. induction Hl as [|wc l Hwc Hl IH]; intros s Hg; cbn [handle_batch]; [apply post_return; split; [done|intros _; apply evolves_refl]|].
  eapply post_bind_mono; [by apply chan_completion_ok|]. intros ret s1 [Hg1 He1]. case_match.
  - apply post_return. split; [done|]. intros [? _]%Forall_cons. auto.
  - eapply post_mono; [by apply IH|]. intros ret' s2 [Hg2 He2]. split; [done|]. intros [Hr Hrl]%Forall_cons. eapply evolves_trans; auto.
Qed.

Lemma poll_loop_ok fuel completed s : ok s -> 64 <= completed + Z.of_nat fuel -> 0 <= completed < 64 ->
  post (poll_loop ans fuel completed) (fun _ s' => ok s' /\ (Forall (fun wc => releases wc = false) (ch_cq s) -> evolves s s') /\ recv_buf s' = recv_buf s /\ exists l, ch_cq s = l ++ ch_cq s') s.
Proof.
  revert completed s. induction fuel as [|fuel IH]; intros completed s Hg Hf Hc; cbn [poll_loop]; [lia|].
  unfold ibv_poll_cq, request. apply post_assoc. apply post_assoc, post_gets, post_assoc, post_modify, post_bind, post_return. rewrite Hpoll. cbn [negb].
  apply post_assoc, post_gets, post_assoc, post_modify, post_bind, post_return. chrec. set (l := take SNAP_CHANNEL_POLL_BATCH (ch_cq s)).
  match goal with |- post _ _ ?z => set (s1 := z) end.
  assert (ok s1) as Hg1.
  { destruct (tick_good Inv all_free s (S (ch_tick s)) Hg) as [[[] Hl1] _]; [lia|]. split; [|intros m; pose proof (Hl1 m); by destruct m].
    split; try done. chrec. by apply Forall_drop. }
  assert (evolves s s1) as He1 by (by apply evolves_same).
  assert (ch_cq s = l ++ ch_cq s1) as Hcq by (symmetry; apply take_drop).
  assert (Forall wc_ok l) as Hl by (apply Forall_take, Hg).
  destruct l as [|wc l'] eqn:El; [apply post_return; split_and!; [done..|by eexists []]|]. rewrite <- El in *.
  eapply post_bind_mono; [apply (post_preserves queues); [apply queues_batch|by apply batch_ok]|]. intros ret s2 [[Hg2 He2] Hq]. unfold queues in Hq. injection Hq as Hq1 Hq2.
  change (recv_buf s1) with (recv_buf s) in Hq2.
  case_match; [apply post_return; split_and!; [done| |done|exists l; by rewrite Hq1]|].
  { intros Hr. eapply evolves_trans; [exact He1|]. apply He2. rewrite Hcq in Hr. by apply Forall_app in Hr as [? _]. }
  cbv zeta. assert (0 < Z.of_nat (length l)) by (rewrite El; cbn; lia).
  destruct (Z.leb_spec SNAP_CHANNEL_MAX_COMPLETIONS (completed + Z.of_nat (length l))) as [|Hlt]; unfold SNAP_CHANNEL_MAX_COMPLETIONS in *.
  - apply post_return. split_and!; [done| |done|exists l; by rewrite Hq1]. intros Hr. eapply evolves_trans; [exact He1|]. apply He2. rewrite Hcq in Hr. by apply Forall_app in Hr as [? _].
  - eapply post_mono; [apply IH; [done|lia|lia]|]. intros ret' s3 (Hg3 & He3 & Hrb & l2 & E). split_and!; [done| |congruence|].
    + intros Hr. rewrite Hcq in Hr. apply Forall_app in Hr as [Hr1 Hr2]. eapply evolves_trans; [exact He1|]. eapply evolves_trans; [by apply He2|].
      apply He3. by rewrite Hq1.
    + exists (l ++ l2). rewrite <- app_assoc, <- E, Hq1. exact Hcq.
Qed.

(** * The device and the peer *)

Lemma pop_ok w q s : ok s -> ch_sq s = w :: q -> ok (s ⦇ ch_sq := q ⦈).
Proof.
  intros [Hc Hl] Hq. split; [|intros m; pose proof (Hl m); by destruct m]. eapply core_mem; [exact Hc|chrec; try done; apply Hc..|]. chrec.
  eapply mem_sq; [apply Hc|done|]. pose proof (mo_sq _ _ _ _ _ _ (co_mem _ _ Hc)) as Hs. rewrite Hq in Hs. by apply Forall_cons in Hs as [_ ?].
Qed.
Lemma chan_complete_ok wc s : ok s -> wc_ok wc -> ok (s ⦇ ch_cq := ch_cq s ++ [wc] ⦈).
Proof.
  intros [[] Hl] Hwc. split; [|intros m; pose proof (Hl m); by destruct m]. split; try done. chrec. apply Forall_app. split; [done|by apply Forall_singleton].
Qed.

(** What the peer receives of a buffer is what the buffer holds. *)
Definition sent_from s (e : list hevent) : Prop := forall k x len raddr rkey, HWrite k x len raddr rkey ∈ e -> ch_heap s !! k = Some x.

(** The responses that are sent lead to completions that do not release the copy, if the
    work request did not say so. *)
Lemma nic_ok data s : ok s -> ch_sq s <> [] ->
  post (nic data) (fun e s' => ok s' /\ evolves s s' /\ sent_from s e /\ recv_buf s' = recv_buf s /\ rsp_wr s' = rsp_wr s /\
    exists w q wc, ch_sq s = w :: q /\ ch_sq s' = q /\ ch_cq s' = ch_cq s ++ [wc] /\ (releases wc = true -> exists r id, w = WrSend r id /\ wc = WcSend id)) s.
Proof.
  intros Hg Hne. destruct (ch_sq s) as [|w q] eqn:Hq; [done|]. pose proof (pop_ok w q s Hg Hq) as Hg1.
  pose proof (mo_sq _ _ _ _ _ _ (co_mem _ _ (proj1 Hg))) as Hsq. rewrite Hq in Hsq. apply Forall_cons in Hsq as [Hw _].
  unfold nic, next_wr. apply post_assoc, post_gets. rewrite Hq. apply post_assoc, post_modify, post_bind, post_return.
  destruct w as [rd b m len raddr rkey r|r id]; cbn [wr_ok] in Hw.
  - destruct Hw as (Hr & _ & Hw). apply post_gets. chrec. case_bool_decide as Hlive; cbn [negb].
    2: { apply post_modify, post_return. split_and!; [by apply chan_complete_ok|by apply evolves_same|by intros ? ? ? ? ? ?%elem_of_nil|done..|].
         eexists _, _, WcError. split_and!; [done..|]. done. }
    destruct (Hw Hlive) as (x & Hx & Hlen & Ho). eapply post_buf; [exact Hx|]. rewrite (proj2 (Z.leb_le _ _) Hlen). cbn [negb]. destruct rd.
    + destruct Ho as [(? & _)|(_ & Hnb & Hnc)]; [done|]. apply post_modify, post_modify, post_return. split_and!; [| |by intros ? ? ? ? ? ?%list_elem_of_singleton|done..|].
      * apply chan_complete_ok; [|done]. destruct Hg1 as [Hc1 Hl1]. split; [|intros m'; pose proof (Hl1 m'); by destruct m'].
        eapply core_mem; [exact Hc1|chrec; try done; apply Hc1..|]. chrec. eapply mem_bytes; [apply Hc1|exact Hx|done].
      * apply evolves_same; [done..|]. chrec. intros j Hj. rewrite lookup_insert_ne; [done|]. intros <-. by destruct Hj.
      * eexists _, _, (WcRdma r). done.
    + apply post_modify, post_return. split_and!; [by apply chan_complete_ok|by apply evolves_same| |done..|].
      * intros k y l ra rk He%list_elem_of_singleton. by injection He as -> -> _ _ _.
      * eexists _, _, (WcRdma r). done.
  - apply post_gets. destruct (lookup_lt_is_Some_2 (rsp_buf s) r) as [c Hc]; [rewrite (co_rsp _ _ (proj1 Hg)); lia|]. chrec. rewrite Hc. cbn [m_opt].
    apply post_bind, post_return, post_modify, post_return. split_and!; [by apply chan_complete_ok|by apply evolves_same|by intros ? ? ? ? ? ?%list_elem_of_singleton|done..|].
    eexists _, _, (WcSend id). split_and!; [done..|]. eauto.
Qed.

Lemma nic_fail_ok s : ok s -> ch_sq s <> [] ->
  post nic_fail (fun e s' => ok s' /\ evolves s s' /\ e = [] /\ recv_buf s' = recv_buf s /\ rsp_wr s' = rsp_wr s /\
    ch_sq s' = tail (ch_sq s) /\ ch_cq s' = ch_cq s ++ [WcError]) s.
Proof.
  intros Hg Hne. destruct (ch_sq s) as [|w q] eqn:Hq; [done|]. pose proof (pop_ok w q s Hg Hq) as Hg1.
  unfold nic_fail, next_wr. apply post_assoc, post_gets. rewrite Hq. apply post_assoc, post_modify, post_bind, post_return, post_modify, post_return.
  split_and!; [by apply chan_complete_ok|by apply evolves_same|done..].
Qed.

Lemma arrive_ok cmd n s : ok s -> cmd_ok cmd -> ch_rq s <> [] ->
  post (arrive cmd n) (fun e s' => ok s' /\ evolves s s' /\ e = [] /\ (forall c, c ∈ recv_buf s' -> c = cmd \/ c ∈ recv_buf s) /\ rsp_wr s' = rsp_wr s /\
    ch_sq s' = ch_sq s /\ exists idx, ch_cq s' = ch_cq s ++ [WcRecv idx n]) s.
Proof.
  intros Hg Hc Hne. unfold arrive. apply post_gets. destruct (ch_rq s) as [|idx q] eqn:Hq; [done|]. apply post_modify, post_modify, post_return.
  pose proof (co_rq _ _ (proj1 Hg)) as Hrq. rewrite Hq in Hrq. apply Forall_cons in Hrq as [Hi Hrq]. destruct Hg as [[] Hl]. split_and!; [|by apply evolves_same|done| |done..|by exists idx].
  - split; [|intros m; pose proof (Hl m); by destruct m]. split; try done; chrec; [by rewrite length_insert|by apply Forall_insert|apply Forall_app; split; [done|by apply Forall_singleton]].
  - chrec. intros c [j Hj]%list_elem_of_lookup. apply list_lookup_insert_Some in Hj as [(-> & -> & _)|[_ Hj]]; [by left|right]. by eapply list_elem_of_lookup_2.
Qed.

(** C11: The migration channel handles every event, when memory can be allocated, polling
    the completion queue succeeds and the operations of the controller return (copying the
    state included).  From a channel whose memory is in order, with a page size of at most
    2^27, any sequence of reports of dirty memory, commands, transfers that succeed or
    fail, registrations and posts that are accepted or refused, and runs of the thread
    leads to a channel whose memory is in order, in which the next event is handled: no
    handler waits for a lock that is held, uses memory that was freed or lies outside a
    buffer, releases a memory region twice, divides by zero or overflows, and the loop over
    the completions ends. *)
Theorem chan_events_handled s s' : ok s -> star (sys_step ans) s s' ->
  ok s' /\ forall c, enabled s' c -> exists s'' e, chan_step ans c s' = Ok (s'', e) /\ ok s''.
Proof.
  assert (forall s c, ok s -> enabled s c -> exists s'' e, chan_step ans c s = Ok (s'', e) /\ ok s'') as Hstep.
  { clear s s'. intros s c Hg Hen. enough (post (chan_step ans c) (fun _ s'' => ok s'') s) as (s'' & e & ? & ?)%post_run by eauto.
    destruct c as [pa len|cmd n|data| |]; cbn [chan_step enabled] in *.
    - destruct Hen as (? & ? & ?). eapply post_bind_mono; [by apply (chan_mark_ok Inv)|]. intros r s1 [Hg1 _]. by apply post_return.
    - destruct Hen. eapply post_mono; [by apply arrive_ok|]. by intros ? ? (? & _).
    - eapply post_mono; [by apply nic_ok|]. by intros ? ? (? & _).
    - eapply post_mono; [by apply nic_fail_ok|]. by intros ? ? (? & _).
    - eapply post_bind_mono; [apply poll_loop_ok; [done|lia..]|]. intros r s1 (Hg1 & _). by apply post_return. }
  intros Hg Hs. induction Hs as [s|s1 s2 s3 (c & e & Hen & Hrun) _ IH]; [by split; auto|].
  apply IH. destruct (Hstep s1 c Hg Hen) as (s'' & e' & Hrun' & Hg'). rewrite Hrun in Hrun'. by injection Hrun' as <- _.
Qed.

End Props.
