(* ===== verification/ChanTrack.v ===== *)
(** The log of dirty pages over the life of a migration: which pages a report marks, that no
    page is lost while the peer asks for the log as it should, and that the copy of the
    bitmap is then never released, so that what is dirtied later is never sent. *)

From stdpp Require Import gmap.
From S2P Require Import Prelude Effects Chan ChanBits ChanSys ChanInv ChanMark ChanProps.

Section Track.
Context {W : Type} `{!MigOps W} (Inv : W -> Prop) `{!MigLaws W Inv} (ans : chan_answers).
#[local] Abbreviation sys := (snap_rdma_channel W).
#[local] Abbreviation V := (M sys).
Implicit Types (s : sys).
Context (Halloc : forall k, an_alloc ans k = true) (Hpoll : forall k, an_poll ans k = true).
#[local] Abbreviation ok := (chan_ok Inv).


(** * A peer that asks for the log as it should *)

Context (Hpost : forall k, an_post ans k = 0).

(** The length of the log is what the channel announced. *)
Definition polite s (cmd : mlx5_snap_common_command) : Prop :=
  cmd_opcode cmd = MLX5_SNAP_CMD_REPORT_LOG ->
  copy_bmap_num_elements (dirty_pages s) <> 0 /\ cmd_length cmd = u32 (copy_bmap_num_elements (dirty_pages s)) /\ cmd_length cmd <> 0.

Lemma polite_evolves s s' cmd : polite s cmd -> evolves s s' -> polite s' cmd.
Proof. intros Hp He Hop. destruct (Hp Hop) as (Hn & Hl & Hz). destruct (ev_copy _ _ He Hn) as (Hn' & _). rewrite Hn'. done. Qed.

(** No response says that it releases the copy. *)
Definition keeps_copy (id : Z) : Prop := u8 id <> MLX5_SNAP_CMD_REPORT_LOG.
Record calm s : Prop := {
  ca_ok : ok s;
  ca_wr : Forall keeps_copy (rsp_wr s);
  ca_sq : Forall keeps_copy (send_ids (ch_sq s));
  ca_cq : Forall (fun wc => releases wc = false) (ch_cq s);
  ca_cmds : Forall (polite s) (recv_buf s)
}.

Definition polite_call s (c : chan_call) : Prop :=
  enabled s c /\ match c with CArrive cmd _ => polite s cmd | _ => True end.

(** What an operation returns, when it returns. *)
Definition returns {A} (m : V A) (P : A -> Prop) s : Prop := forall s' a, m s = Ok (s', a) -> P a.

Lemma returns_bind {A B} (m : V A) (f : A -> V B) P s : (forall a s1, m s = Ok (s1, a) -> returns (f a) P s1) -> returns (m_bind m f) P s.
Proof. intros Hf s' b Hrun. unfold m_bind in Hrun. destruct (m s) as [[s1 a]| | |] eqn:E; try done. by eapply Hf. Qed.
Lemma returns_last {A B} (m : V A) (k : V B) P s : returns m P s -> returns (let! a := m in do! k in mreturn a) P s.
Proof.
  intros Hm. apply returns_bind. intros a s1 Hrun. apply returns_bind. intros b s2 _ s3 a' [= _ <-]. by eapply Hm.
Qed.
Lemma returns_fails i v ret (P : Z -> Prop) s : P ret -> returns (fails i v ret) P s.
Proof. intros HP. apply returns_bind. intros a s1 _ s2 r [= _ <-]. done. Qed.

(** A log command of a polite peer is answered when its transfer completes. *)
Lemma report_moves cmd i s : polite s cmd -> cmd_opcode cmd = MLX5_SNAP_CMD_REPORT_LOG ->
  returns (snap_channel_report_dirty_pages ans cmd i) (fun r => r = 0) s.
Proof.
  intros Hp Hop. destruct (Hp Hop) as (Hn & Hl & Hz). unfold snap_channel_report_dirty_pages, locked. apply returns_bind. intros [] s1 Hlock.
  assert (copy_bmap_num_elements (dirty_pages s1) = copy_bmap_num_elements (dirty_pages s)) as Hs1.
  { unfold pthread_mutex_lock, m_bind, gets in Hlock. cbn in Hlock. destruct (copy_lock (dirty_pages s)); try done. by injection Hlock as <-. }
  apply returns_last. apply returns_bind. intros d s2 [= <- <-]. rewrite Hs1. unfold SNAP_CHANNEL_BITMAP_ELEM_SZ. rewrite Z.mul_1_r, <- Hl, Z.eqb_refl.
  cbn [negb]. rewrite (proj2 (Z.eqb_neq _ _) Hz). cbn [negb]. apply returns_bind. intros [mr|] s2 _; [|by apply returns_fails].
  apply returns_bind. intros b s3 _. apply returns_bind. intros ret s4 Hsend.
  assert (ret = 0) as ->.
  { unfold snap_channel_rdma_rw, ibv_post_send, request, m_bind, gets, modify, mreturn in Hsend. cbn in Hsend. rewrite Hpost in Hsend. cbn in Hsend. by injection Hsend as _ <-. }
  cbn [Z.eqb negb]. apply returns_bind. intros [] s5 _. apply returns_bind. intros [] s6 _ s7 r [= _ <-]. done.
Qed.

Definition ids_ok s : Prop := Forall keeps_copy (rsp_wr s) /\ Forall keeps_copy (send_ids (ch_sq s)).

Lemma run_cmd_moves cmd i s : polite s cmd -> cmd_opcode cmd = MLX5_SNAP_CMD_REPORT_LOG -> returns (run_cmd ans cmd i) (fun r => snd r = false) s.
Proof.
  intros Hp Hop. unfold run_cmd. rewrite Hop. cbn [Z.eqb MLX5_SNAP_CMD_REPORT_LOG MLX5_SNAP_CMD_START_LOG MLX5_SNAP_CMD_STOP_LOG MLX5_SNAP_CMD_GET_LOG_SZ Pos.eqb].
  apply returns_bind. intros ret s1 Hrun. pose proof (report_moves cmd i s Hp Hop _ _ Hrun) as ->. by intros s2 r [= _ <-].
Qed.

Lemma post_rsp_ids i s : ids_ok s -> forall s' r, post_rsp ans i s = Ok (s', r) -> ids_ok s' /\ r = 0.
Proof.
  intros [Hw Hs] s' r. unfold post_rsp, m_bind, gets, m_opt. cbn [res_bind]. destruct (rsp_wr s !! i) as [id|] eqn:Hid; [|done].
  unfold ibv_post_send, request, m_bind, gets, modify, mreturn. cbn. rewrite Hpost. cbn. intros [= <- <-]. split; [|done]. split; [exact Hw|].
  chrec. rewrite send_ids_app. apply Forall_app. split; [done|]. apply Forall_singleton. eapply Forall_lookup_1; [exact Hw|exact Hid].
Qed.

Lemma process_cmd_ids cmd s s' r : polite s cmd -> cmd_ok cmd -> ids_ok s -> snap_channel_process_cmd ans cmd s = Ok (s', r) -> ids_ok s'.
Proof.
  intros Hp (_ & _ & Hop & _) Hi. unfold snap_channel_process_cmd. cbv zeta. case_match; [by intros [= <- _]|]. set (i := Z.to_nat _).
  unfold m_bind at 1. destruct (upd_cqe i _ s) as [[s1 []]| | |] eqn:E1; try done. cbn [res_bind].
  unfold m_bind at 1. destruct (run_cmd ans cmd i s1) as [[s2 [ret send]]| | |] eqn:E2; try done. cbn [res_bind].
  pose proof (obs_upd_cqe i _ _ _ _ E1) as O1. pose proof (run_cmd_preserves ans cmd i _ _ _ E2) as O2. unfold obs in O1, O2.
  injection O1 as _ _ _ W1 S1. injection O2 as _ _ _ W2 S2.
  assert (ids_ok s2) as Hi2 by (unfold ids_ok; rewrite W2, S2, W1, S1; exact Hi). destruct send; [|by intros [= <- _]].
  unfold m_bind at 1. destruct (upd_cqe i _ s2) as [[s3 []]| | |] eqn:E3; try done. cbn [res_bind].
  pose proof (obs_upd_cqe i _ _ _ _ E3) as O3. unfold obs in O3. injection O3 as _ _ _ W3 S3.
  unfold m_bind at 1. cbn [modify res_bind]. intros Hrun. eapply (post_rsp_ids i); [|exact Hrun]. unfold ids_ok. chrec. rewrite W3, S3. split; [|apply Hi2].
  apply Forall_insert; [apply Hi2|]. unfold keeps_copy, u8. rewrite uwrap_small by lia. intros Heq.
  assert (polite s1 cmd) as Hp1.
  { intros Hop'. unfold upd_cqe, m_bind, gets in E1. cbn in E1. destruct (rsp_buf s !! i); [|done]. injection E1 as <-. by apply Hp. }
  by pose proof (run_cmd_moves cmd i s1 Hp1 Heq _ _ E2).
Qed.

Lemma retry_ids n cmd s s' r : ok s -> polite s cmd -> cmd_ok cmd -> ids_ok s -> process_retry ans n cmd s = Ok (s', r) -> ids_ok s'.
Proof.
  intros Hg Hp Hc Hi. revert s Hg Hp Hi. induction n as [|n IH]; intros s Hg Hp Hi; cbn [process_retry]; unfold m_bind;
    destruct (post_run _ _ _ (process_cmd_ok Inv ans Halloc cmd s Hg Hc)) as (s1 & r1 & E & Hg1 & He1); rewrite E; cbn [res_bind];
    pose proof (process_cmd_ids cmd s s1 r1 Hp Hc Hi E) as Hi1; (case_match; [|by intros [= <- _]]).
  - by intros [= <- _].
  - apply IH; [done|by eapply polite_evolves|done].
Qed.

Lemma completion_ids wc s s' r : ok s -> ids_ok s -> Forall (polite s) (recv_buf s) -> snap_channel_handle_completion ans wc s = Ok (s', r) -> ids_ok s'.
Proof.
  intros Hg Hi Hcmds. destruct wc as [idx n|id|k| |]; cbn [snap_channel_handle_completion]; [| |intros Hrun; by eapply (post_rsp_ids k)|by intros [= <- _]..].
  - case_match; [by intros [= <- _]|]. unfold snap_channel_recv_handler, m_bind at 1. unfold m_bind at 1, gets at 1. cbn [res_bind].
    unfold m_bind at 1, m_opt. destruct (recv_buf s !! idx) as [cmd|] eqn:Hcmd; [|done]. cbn [mreturn res_bind]. unfold m_bind at 1.
    destruct (process_retry ans 5 cmd s) as [[s1 r1]| | |] eqn:E; try done. cbn [res_bind].
    assert (ids_ok s1) as Hi1.
    { eapply retry_ids; [exact Hg|exact (Forall_lookup_1 _ _ _ _ Hcmds Hcmd)|exact (Forall_lookup_1 _ _ _ _ (co_cmds _ _ (proj1 Hg)) Hcmd)|exact Hi|exact E]. }
    unfold ibv_post_recv, request, m_bind, gets, modify, mreturn. cbn. rewrite Hpost. cbn. by intros [= <- _].
  - case_match; [|by intros [= <- _]]. intros Hrun. assert (obs s' = obs s) as O.
    { revert Hrun. apply (see_release_body obs obs_blind). }
    unfold obs in O. injection O as _ _ _ O1 O2. unfold ids_ok. by rewrite O1, O2.
Qed.

Lemma completion_calm wc s : calm s -> wc_ok wc -> releases wc = false -> post (snap_channel_handle_completion ans wc) (fun _ s' => calm s' /\ evolves s s') s.
Proof.
  intros [] Hwc Hr. destruct (post_run _ _ _ (chan_completion_ok Inv ans Halloc wc s ca_ok0 Hwc)) as (s' & r & E & Hg & He). specialize (He Hr).
  unfold post. rewrite E. split; [|done]. pose proof (queues_completion ans wc s s' r E) as Q. unfold queues in Q. injection Q as Q1 Q2.
  destruct (completion_ids wc s s' r) as [Hi1 Hi2]; [done|by split|done|done|]. split; [done..|by rewrite Q1|].
  rewrite Q2. eapply Forall_impl; [exact ca_cmds0|]. intros cmd Hp. by eapply polite_evolves.
Qed.

Lemma batch_calm l s : calm s -> Forall wc_ok l -> Forall (fun wc => releases wc = false) l ->
  post (handle_batch ans l) (fun _ s' => calm s' /\ evolves s s') s.
Proof.
  intros Hc Hl. revert s Hc. induction Hl as [|wc l Hwc Hl IH]; intros s Hc Hr; cbn [handle_batch]; [apply post_return; split; [done|apply evolves_refl]|].
  apply Forall_cons in Hr as [Hr Hrl]. eapply post_bind_mono; [by apply completion_calm|]. intros ret s1 [Hc1 He1]. case_match; [by apply post_return|].
  eapply post_mono; [by apply IH|]. intros r s2 [? ?]. split; [done|]. by eapply evolves_trans.
Qed.

Lemma poll_calm fuel completed s : calm s -> 64 <= completed + Z.of_nat fuel -> 0 <= completed < 64 ->
  post (poll_loop ans fuel completed) (fun _ s' => calm s' /\ evolves s s') s.
Proof.
  revert completed s. induction fuel as [|fuel IH]; intros completed s Hc Hf Hco; cbn [poll_loop]; [lia|].
  unfold ibv_poll_cq, request. apply post_assoc. apply post_assoc, post_gets, post_assoc, post_modify, post_bind, post_return. rewrite Hpoll. cbn [negb].
  apply post_assoc, post_gets, post_assoc, post_modify, post_bind, post_return. chrec. set (l := take SNAP_CHANNEL_POLL_BATCH (ch_cq s)).
  match goal with |- post _ _ ?z => set (s1 := z) end.
  assert (evolves s s1) as He1 by (by apply evolves_same).
  assert (calm s1) as Hc1.
  { destruct Hc. split; [|done..|chrec; by apply Forall_drop|eapply Forall_impl; [exact ca_cmds0|intros cmd Hp; by eapply polite_evolves]].
    destruct (tick_good Inv all_free s (S (ch_tick s)) ca_ok0) as [[[] Hl1] _]; [lia|]. split; [|intros m; pose proof (Hl1 m); by destruct m].
    split; try done. chrec. by apply Forall_drop. }
  assert (Forall wc_ok l) as Hl by (apply Forall_take, (ca_ok _ Hc)). assert (Forall (fun wc => releases wc = false) l) as Hr by (apply Forall_take, (ca_cq _ Hc)).
  destruct l as [|wc l'] eqn:El; [by apply post_return|]. rewrite <- El in *.
  eapply post_bind_mono; [by apply batch_calm|]. intros ret s2 [Hc2 He2]. assert (evolves s s2) as He by (by eapply evolves_trans).
  case_match; [by apply post_return|]. cbv zeta. assert (0 < Z.of_nat (length l)) by (rewrite El; cbn; lia).
  destruct (Z.leb_spec SNAP_CHANNEL_MAX_COMPLETIONS (completed + Z.of_nat (length l))) as [|Hlt]; [by apply post_return|]. unfold SNAP_CHANNEL_MAX_COMPLETIONS in *.
  eapply post_mono; [apply IH; [done|lia|lia]|]. intros r s3 [? ?]. split; [done|]. by eapply evolves_trans.
Qed.

(** * Runs *)

(** The pages of size [2 ^ j] that the reports of a run are about. *)
Definition marked (j : Z) (l : list chan_call) (p : Z) : Prop := exists pa len, CMark pa len ∈ l /\ p ∈ touched pa len j.

Inductive polite_run : sys -> list chan_call -> sys -> list hevent -> Prop :=
| run_nil s : polite_run s [] s []
| run_cons s c l s1 s2 e e' : polite_call s c -> chan_step ans c s = Ok (s1, e) -> polite_run s1 l s2 e' -> polite_run s (c :: l) s2 (e ++ e').

Lemma calm_same s s' : calm s -> ok s' -> evolves s s' -> ids_ok s' -> Forall (fun wc => releases wc = false) (ch_cq s') ->
  (forall c, c ∈ recv_buf s' -> c ∈ recv_buf s \/ polite s c) -> calm s'.
Proof.
  intros [] Hg He [Hw Hs] Hcq Hr. split; [done..|]. apply Forall_forall. intros c Hc. destruct (Hr c Hc) as [Hin|Hp]; [|by eapply polite_evolves].
  rewrite Forall_forall in ca_cmds0. eapply polite_evolves; [by apply ca_cmds0|done].
Qed.

Lemma send_ids_tail w q : Forall keeps_copy (send_ids (w :: q)) -> Forall keeps_copy (send_ids q) /\ forall r id, w = WrSend r id -> keeps_copy id.
Proof. destruct w; cbn [send_ids]; [by intros ?|]. intros [Hk ?]%Forall_cons. split; [done|]. intros r id [= _ <-]. done. Qed.

Lemma obs_mark pa len : preserves obs (snap_rdma_channel_mark_dirty_page (W := W) ans pa len).
Proof.
  pose proof (@obs_blind W) as Hf. unfold snap_rdma_channel_mark_dirty_page. apply see_locked; [done|]. apply preserves_bind; [by apply see_dirty|]. intros d.
  pose proof (see_free _ Hf). pose proof (see_upd_dirty _ Hf). pose proof (see_ch_buf (W := W) obs). pose proof (see_set_buf _ Hf). pose proof (see_request _ Hf).
  unfold ch_realloc. solve_preserves.
Qed.

(** What an event does to a channel whose peer is polite. *)
Lemma calm_step s c : calm s -> polite_call s c ->
  post (chan_step ans c) (fun e s' => calm s' /\ evolves s s' /\ sent_from s e /\
    forall j p, is_Some (bmap (dirty_pages s)) -> 0 <= j -> track_page_size (dirty_pages s) = 2 ^ j -> marked j [c] p -> tracked s' p) s.
Proof.
  intros Hc [Hen Hpol]. pose proof (ca_ok _ Hc) as Hg. pose proof Hc as [_ Hwr Hsq Hcq Hcmds].
  destruct c as [pa len|cmd n|data| |]; cbn [chan_step enabled] in *.
  - destruct Hen as (Hpa & Hlen & Hw). destruct (post_run _ _ _ (chan_mark_ok Inv ans Halloc all_free pa len s Hg eq_refl Hpa Hlen Hw)) as (s' & r & Hrun & Hg' & _ & He & Hm).
    unfold post, m_bind. rewrite Hrun. cbn [res_bind mreturn]. pose proof (obs_mark pa len _ _ _ Hrun) as O. unfold obs in O. injection O as O1 O2 _ O4 O5.
    split_and!; [apply (calm_same s); [done..|by split; rewrite ?O4, ?O5|by rewrite O1|rewrite O2; auto]|done|by intros ? ? ? ? ? ?%elem_of_nil|].
    intros j p [b Hb] Hj Hps (pa' & len' & Hin%list_elem_of_singleton & Hp). injection Hin as -> ->.
    destruct (core_bmap Inv s b (proj1 Hg) Hb) as [x Hx]. destruct (Hm b x Hb Hx) as (b' & x' & j' & Hb' & Hx' & Hj' & Hps' & [_ Hbits] & Hhi).
    rewrite Hps in Hps'. apply Z.pow_inj_r in Hps' as <-; [|lia..]. assert (0 <= p) as Hp0.
    { pose proof Hp as Hp'. apply elem_touched in Hp'; [|lia..]. pose proof (Z.div_pos pa (2 ^ j) Hpa). pose proof (Z.pow_pos_nonneg 2 j). lia. }
    split; [done|left]. exists b', x'. split_and!; [done..| |by apply Hbits]. apply elem_touched in Hp; [|lia..].
    eapply Z.le_lt_trans; [apply (Z.div_le_mono _ ((pa + len - 1) / 2 ^ j)); lia|]. rewrite last_page_element by lia. lia.
  - destruct Hen as [Hcmd Hrq]. eapply post_mono; [by apply arrive_ok|]. intros e s' (Hg' & He & -> & Hr & Hw' & Hs' & idx & Hcq').
    split_and!; [|done|by intros ? ? ? ? ? ?%elem_of_nil|by intros j p _ _ _ (pa' & len' & Hin%list_elem_of_singleton & _)].
    apply (calm_same s); [done..|by split; rewrite ?Hw', ?Hs'| |intros c [->|]%Hr; auto]. rewrite Hcq'. apply Forall_app. by split; [|apply Forall_singleton].
  - eapply post_mono; [by apply nic_ok|]. intros e s' (Hg' & He & Hsent & Hr & Hw' & w & q & wc & Hq & Hq' & Hcq' & Hrel).
    rewrite Hq in Hsq. apply send_ids_tail in Hsq as [Hsq Hid].
    split_and!; [|done..|by intros j p _ _ _ (pa' & len' & Hin%list_elem_of_singleton & _)].
    apply (calm_same s); [done..|by split; rewrite ?Hw', ?Hq'| |rewrite Hr; auto]. rewrite Hcq'. apply Forall_app. split; [done|]. apply Forall_singleton.
    destruct (releases wc) eqn:E; [|done]. destruct (Hrel eq_refl) as (r & id & -> & ->). exfalso. apply (Hid r id eq_refl). by apply Z.eqb_eq.
  - eapply post_mono; [by apply nic_fail_ok|]. intros e s' (Hg' & He & -> & Hr & Hw' & Hq' & Hcq').
    split_and!; [|done|by intros ? ? ? ? ? ?%elem_of_nil|by intros j p _ _ _ (pa' & len' & Hin%list_elem_of_singleton & _)].
    apply (calm_same s); [done..| | |rewrite Hr; auto].
    + split; [by rewrite Hw'|]. rewrite Hq'. destruct (ch_sq s) as [|w q]; [done|]. by apply send_ids_tail in Hsq as [? _].
    + rewrite Hcq'. apply Forall_app. by split; [|apply Forall_singleton].
  - eapply post_bind_mono; [apply poll_calm; [done|lia..]|]. intros r s1 [Hc1 He1]. apply post_return.
    split_and!; [done..|by intros ? ? ? ? ? ?%elem_of_nil|by intros j p _ _ _ (pa' & len' & Hin%list_elem_of_singleton & _)].
Qed.

(** C12: No dirty page is lost while the log is on, posts, allocations and polls succeed,
    the operations of the controller return, and the peer asks for the log with the length
    it was given, from a channel whose memory is in order (pages of at most 2^27 bytes)
    and in which no response is on its way that releases the copy: a page that was marked
    before a run of the system, and a page of memory that the controller reports during it,
    is marked at its end, in the bitmap below the highest dirty element or in the copy that
    log commands transfer.  The events are interleaved in any order, and transfers may
    fail.  (The response to a log command whose transfer was refused releases the copy, and
    a failed allocation loses the bitmap, snap_rdma_channel.c:1149.) *)
Theorem no_dirty_page_lost s l s' e j p :
  calm s -> is_Some (bmap (dirty_pages s)) -> 0 <= j -> track_page_size (dirty_pages s) = 2 ^ j -> polite_run s l s' e ->
  tracked s p \/ marked j l p -> tracked s' p.
Proof.
  intros Hc Hb Hj Hps Hrun. revert Hc Hb Hps. induction Hrun as [s|s c l s1 s2 e e' Hcall Hstep Hrun IH]; intros Hc Hb Hps Hp.
  - destruct Hp as [?|(pa & len & ?%elem_of_nil & _)]; done.
  - destruct (run_post _ _ _ _ _ (calm_step s c Hc Hcall) Hstep) as (Hc1 & He1 & _ & Hm). destruct (ev_started _ _ He1 Hb) as [Hb1 Hps1].
    apply IH; [done..|congruence|]. destruct Hp as [Hp|(pa & len & [Hin|Hin]%elem_of_cons & Hp)].
    + left. by apply (ev_tracked _ _ He1).
    + left. eapply Hm; [done..|]. exists pa, len. split; [by apply list_elem_of_singleton|done].
    + right. by exists pa, len.
Qed.

(** C38: The copy of the bitmap is never released, when posts, allocations and polls
    succeed.  Once the size of the log was asked for, and as long as every log command has
    the length that was given, the copy stays the one that was made then: every later log
    command transfers the same bytes, so that no page that was dirtied after the copy is
    ever sent.  The completion of a response releases the copy only if the response carries
    the opcode of the log command, which only the response to a log command that failed
    does. *)
Theorem log_copy_never_released s l s' e c x :
  calm s -> copy_bmap (dirty_pages s) = Some c -> ch_heap s !! c = Some x -> polite_run s l s' e ->
  copy_bmap (dirty_pages s') = Some c /\ ch_heap s' !! c = Some x /\
  forall y len raddr rkey, HWrite c y len raddr rkey ∈ e -> y = x.
Proof.
  intros Hc Hcs Hx Hrun. revert Hc Hcs Hx. induction Hrun as [s|s k l s1 s2 e e' Hcall Hstep Hrun IH]; intros Hc Hcs Hx.
  - split_and!; [done..|]. by intros ? ? ? ? ?%elem_of_nil.
  - destruct (run_post _ _ _ _ _ (calm_step s k Hc Hcall) Hstep) as (Hc1 & He1 & Hsent & _).
    assert (copy_bmap_num_elements (dirty_pages s) <> 0) as Hn.
    { destruct (mo_copy _ _ _ _ _ _ (co_mem _ _ (proj1 (ca_ok _ Hc)))) as [[_ ?]|(? & ? & _ & _ & _ & ?)]; [congruence|lia]. }
    destruct (ev_copy _ _ He1 Hn) as (_ & Hcs1 & Hh1). rewrite Hcs in Hcs1. specialize (Hh1 c Hcs). rewrite Hx in Hh1.
    destruct (IH Hc1 Hcs1 Hh1) as (H1 & H2 & H3). split_and!; [done..|]. intros y len raddr rkey [Hin|Hin]%elem_of_app; [|by eapply H3].
    apply Hsent in Hin. congruence.
Qed.

End Track.
