(* ===== verification/ChanState.v ===== *)
(** The state of the device over the channel: what the peer reads is what the controller
    saved, but what the controller restores is not what the peer wrote. *)

From stdpp Require Import gmap.
From S2P Require Import Prelude Effects Chan ChanBits ChanSys ChanInv ChanMark ChanProps.

(** Which branch of [run_cmd] an opcode takes. *)
Ltac opcodes := cbn [Z.eqb Pos.eqb MLX5_SNAP_CMD_WRITE_STATE MLX5_SNAP_CMD_START_LOG MLX5_SNAP_CMD_STOP_LOG MLX5_SNAP_CMD_GET_LOG_SZ
  MLX5_SNAP_CMD_REPORT_LOG MLX5_SNAP_CMD_FREEZE_DEV MLX5_SNAP_CMD_UNFREEZE_DEV MLX5_SNAP_CMD_QUIESCE_DEV MLX5_SNAP_CMD_UNQUIESCE_DEV
  MLX5_SNAP_CMD_GET_STATE_SZ MLX5_SNAP_CMD_READ_STATE].

Section State.
Context {W : Type} `{!MigOps W} (Inv : W -> Prop) `{!MigLaws W Inv} (ans : chan_answers).
#[local] Abbreviation sys := (snap_rdma_channel W).
#[local] Abbreviation V := (M sys).
Implicit Types (s : sys).
(** Requests succeed. *)
Context (Halloc : forall k, an_alloc ans k = true) (Hreg : forall k, an_reg ans k = true) (Hpost : forall k, an_post ans k = 0).

Lemma zero_bytes n : bytes_of (mk_cbuf n (fun _ => 0)) n = replicate (Z.to_nat n) 0.
Proof.
  unfold bytes_of. apply list_eq. intros i. rewrite list_lookup_fmap. destruct (decide (i < Z.to_nat n)%nat) as [Hi|Hi].
  - rewrite lookup_seqZ_lt, lookup_replicate_2 by lia. done.
  - rewrite lookup_seqZ_ge by lia. symmetry. apply lookup_replicate_None. lia.
Qed.

(** The steps of [post] that always succeed here. *)
Lemma run_calloc {A} n (f : option nat -> V A) P s :
  post (f (Some (ch_tick s))) P (s ⦇ ch_tick := S (ch_tick s) ⦈ ⦇ ch_heap := <[ch_tick s := mk_cbuf n (fun _ => 0)]> (ch_heap s) ⦈) ->
  post (m_bind (ch_calloc ans n) f) P s.
Proof. by apply post_calloc. Qed.
Lemma run_reg {A} (f : option nat -> V A) P s :
  post (f (Some (ch_tick s))) P (s ⦇ ch_tick := S (ch_tick s) ⦈ ⦇ ch_live := {[ch_tick s]} ∪ ch_live s ⦈) -> post (m_bind (ibv_reg_mr ans) f) P s.
Proof. intros Hf. unfold ibv_reg_mr, acquire, request, post, m_bind, gets, modify, mreturn in *. cbn in *. by rewrite Hreg. Qed.
Lemma run_send {A} w (f : Z -> V A) P s :
  post (f 0) P (s ⦇ ch_tick := S (ch_tick s) ⦈ ⦇ ch_sq := ch_sq s ++ [w] ⦈) -> post (m_bind (ibv_post_send ans w) f) P s.
Proof. intros Hf. unfold ibv_post_send, request, post, m_bind, gets, modify, mreturn in *. cbn in *. by rewrite Hpost. Qed.
Lemma run_state_lock {A} (f : unit -> V A) P s : st_lock (ch_state s) = MFree ->
  post (f tt) P (s ⦇ ch_state := (ch_state s) ⦇ st_lock := MHeld ⦈ ⦈) -> post (m_bind (pthread_mutex_lock StateLock) f) P s.
Proof. intros Hm Hf. unfold pthread_mutex_lock, post, m_bind, gets. cbn [res_bind mutex_of]. rewrite Hm. exact Hf. Qed.
Lemma run_state_unlock {A} (f : unit -> V A) P s : st_lock (ch_state s) = MHeld ->
  post (f tt) P (s ⦇ ch_state := (ch_state s) ⦇ st_lock := MFree ⦈ ⦈) -> post (m_bind (pthread_mutex_unlock StateLock) f) P s.
Proof. intros Hm Hf. unfold pthread_mutex_unlock, post, m_bind, gets. cbn [res_bind mutex_of]. rewrite Hm. exact Hf. Qed.
Lemma run_locked {A} (body : V A) P s : st_lock (ch_state s) = MFree ->
  post body (fun a s' => st_lock (ch_state s') = MHeld /\ P a (s' ⦇ ch_state := (ch_state s') ⦇ st_lock := MFree ⦈ ⦈)) (s ⦇ ch_state := (ch_state s) ⦇ st_lock := MHeld ⦈ ⦈) ->
  post (locked StateLock body) P s.
Proof.
  intros Hm Hb. unfold locked. apply run_state_lock; [done|]. eapply post_bind_mono; [exact Hb|]. intros a s' [Hl Hp]. apply run_state_unlock; [done|]. exact Hp.
Qed.
Lemma run_cqe {A} i g c (f : unit -> V A) P s : rsp_buf s !! i = Some c -> post (f tt) P (s ⦇ rsp_buf := <[i := g c]> (rsp_buf s) ⦈) -> post (m_bind (upd_cqe i g) f) P s.
Proof. intros Hc Hf. unfold upd_cqe, post, m_bind, gets, modify. cbn [res_bind]. by rewrite Hc. Qed.

(** * Commands that are carried out *)

(** A command the channel accepts, and the place of its response. *)
Definition slot (cmd : mlx5_snap_common_command) : nat := Z.to_nat (cmd_id cmd - 1).
Definition accepted (cmd : mlx5_snap_common_command) (op : Z) : Prop := cmd_opcode cmd = op /\ 1 <= cmd_id cmd <= 64.

(** The state after the response to [cmd] was posted. *)
Definition answered (cmd : mlx5_snap_common_command) (l : list mlx5_snap_completion) s : sys :=
  s ⦇ rsp_buf := l ⦈ ⦇ rsp_wr := <[slot cmd := cmd_opcode cmd]> (rsp_wr s) ⦈ ⦇ ch_tick := S (ch_tick s) ⦈
    ⦇ ch_sq := ch_sq s ++ [WrSend (slot cmd) (cmd_opcode cmd)] ⦈.

Lemma process_run cmd op s (P : sys -> Prop) :
  accepted cmd op -> length (rsp_buf s) = 64%nat ->
  (forall l, length l = 64%nat -> post (run_cmd ans cmd (slot cmd)) (fun r s' => length (rsp_buf s') = 64%nat /\ length (rsp_wr s') = 64%nat /\
     if snd r then forall l', length l' = 64%nat -> P (answered cmd l' s') else P s') (s ⦇ rsp_buf := l ⦈)) ->
  post (snap_channel_process_cmd ans cmd) (fun r s' => r = 0 /\ P s') s.
Proof.
  intros [Hop Hid] Hl Hrun. unfold snap_channel_process_cmd. cbv zeta. unfold SNAP_CHANNEL_QUEUE_SIZE.
  rewrite (proj2 (Z.ltb_ge (cmd_id cmd) 1)), (proj2 (Z.ltb_ge 64 (cmd_id cmd))) by lia. cbn [orb]. change (Z.to_nat (cmd_id cmd - 1)) with (slot cmd).
  assert (slot cmd < 64)%nat as Hi by (unfold slot; lia). apply post_cqe; [done..|]. intros l Hl1.
  eapply post_bind_mono; [by apply Hrun|]. intros [ret send] s1 (Hb & Hw & HP). cbn [snd] in HP. destruct send; [|by apply post_return].
  apply post_cqe; [done..|]. intros l' Hl'. apply post_modify. unfold post_rsp. apply post_gets. chrec.
  rewrite list_lookup_insert_eq by lia. cbn [m_opt]. apply post_bind, post_return.
  unfold ibv_post_send, request, post, m_bind, gets, modify, mreturn. cbn. rewrite Hpost. cbn. split; [done|]. by apply HP.
Qed.

(** The handlers' last step. *)
Lemma run_fails i v ret s (P : Z -> sys -> Prop) : length (rsp_buf s) = 64%nat -> (i < 64)%nat ->
  (forall l, length l = 64%nat -> P ret (s ⦇ rsp_buf := l ⦈)) -> post (fails i v ret) P s.
Proof. intros Hl Hi HP. unfold fails. apply post_cqe; [done..|]. intros l Hl'. by apply HP. Qed.

(** A transfer that has completed has the response posted. *)
Lemma rsp_completion i id s : rsp_wr s !! i = Some id ->
  exists s', snap_channel_handle_completion ans (WcRdma i) s = Ok (s', 0) /\ ch_env s' = ch_env s /\ ch_sq s' = ch_sq s ++ [WrSend i id].
Proof.
  intros Hid. cbn [snap_channel_handle_completion]. unfold post_rsp, ibv_post_send, request, m_bind, gets, modify, mreturn, m_opt. cbn. rewrite Hid. cbn.
  rewrite Hpost. cbn. by eexists.
Qed.

(** C39: A state that the peer writes is restored before it has arrived, when the requests of
    the command succeed and the channel holds no state and no region for it.  The command to
    write the state starts the transfer from the peer and, before the device has carried it
    out, hands the new buffer, which holds zeros, to the controller.  When the transfer
    completes later, the controller is not called again, and a response is posted.  So if the
    controller refused the zeros, the response is posted twice, with the identifier of the
    command that writes the state: at once, and when the transfer completes. *)
Theorem write_state_restores_zeros cmd s w l r :
  chan_ok Inv s -> accepted cmd MLX5_SNAP_CMD_WRITE_STATE -> cmd_offset cmd = 0 -> 0 < cmd_length cmd < 2 ^ 31 ->
  st_buf (ch_state s) = None -> state_mr (ch_state s) = None ->
  mo_copy_state (replicate (Z.to_nat (cmd_length cmd)) 0) (cmd_length cmd) true (ch_env s) = Ok (w, (l, r)) ->
  exists s1 b m, snap_channel_process_cmd ans cmd s = Ok (s1, 0) /\ ch_env s1 = w /\
    ch_sq s1 = ch_sq s ++ WrRdma true b m (cmd_length cmd) (cmd_addr cmd) (cmd_key cmd) (slot cmd) ::
      (if r =? 0 then [] else [WrSend (slot cmd) MLX5_SNAP_CMD_WRITE_STATE]) /\
    forall s2, rsp_wr s2 = rsp_wr s1 -> exists s3 id, snap_channel_handle_completion ans (WcRdma (slot cmd)) s2 = Ok (s3, 0) /\
      ch_env s3 = ch_env s2 /\ ch_sq s3 = ch_sq s2 ++ [WrSend (slot cmd) id] /\ (r <> 0 -> id = MLX5_SNAP_CMD_WRITE_STATE).
Proof.
  intros [Hc Hl] Hacc Hoff Hlen Hb Hm Hcopy. set (n := cmd_length cmd) in *. destruct Hacc as [Hop Hid]. assert (slot cmd < 64)%nat as Hi by (unfold slot; lia).
  enough (post (snap_channel_process_cmd ans cmd) (fun ret s' => ret = 0 /\ (ch_env s' = w /\
    (exists id, rsp_wr s' !! slot cmd = Some id /\ (r <> 0 -> id = MLX5_SNAP_CMD_WRITE_STATE)) /\ exists b m,
    ch_sq s' = ch_sq s ++ WrRdma true b m n (cmd_addr cmd) (cmd_key cmd) (slot cmd) :: (if r =? 0 then [] else [WrSend (slot cmd) MLX5_SNAP_CMD_WRITE_STATE]))) s)
    as (s1 & ret & Hrun & -> & Henv & (id & Hwr & Hr) & b & m & Hsq)%post_run.
  { exists s1, b, m. split_and!; [done..|]. intros s2 Hs2. rewrite <- Hs2 in Hwr. destruct (rsp_completion _ _ _ Hwr) as (s3 & ? & ? & ?). by exists s3, id. }
  eapply (process_run cmd MLX5_SNAP_CMD_WRITE_STATE); [done|apply Hc|]. intros l0 Hl0. unfold run_cmd. rewrite Hop. opcodes.
  unfold snap_channel_write_state. rewrite Hoff. cbn [Z.eqb negb].
  apply (post_bind_mono _ _ (fun ret s' => ret = r /\ length (rsp_buf s') = 64%nat /\ length (rsp_wr s') = 64%nat /\ ch_env s' = w /\
    exists b m, ch_sq s' = ch_sq s ++ [WrRdma true b m n (cmd_addr cmd) (cmd_key cmd) (slot cmd)])).
  - apply run_locked; [apply (Hl StateLock)|]. fold n. rewrite (proj2 (Z.eqb_neq n 0)) by lia. cbn [negb]. apply post_gets. chrec. rewrite Hb, Hm.
    rewrite !bool_decide_false by apply is_Some_None. cbn [m_when]. apply post_bind, post_return, post_bind, post_return. apply run_calloc, post_modify. chrec. cbn beta iota.
    apply run_reg. apply run_send. cbn [Z.eqb negb]. apply post_modify. chrec. unfold copy_state. apply post_assoc. eapply post_buf; [chrec; apply lookup_insert_eq|].
    apply post_assoc. cbn [b_len]. rewrite zero_bytes, i32_small by lia. eapply post_ops; [exact Hcopy|]. apply post_assoc, post_modify, post_bind, post_return. chrec.
    destruct (Z.eqb_spec r 0) as [->|Hr]; cbn [negb]; [apply post_modify|]; (apply run_fails; [done..|]; intros l1 Hl1; chrec; split_and!; [done..|apply Hc|done|eauto]).
  - intros ret s' (-> & Hb' & Hw' & Henv & b & m & Hsq). apply post_return. split_and!; [done..|]. cbn [snd]. destruct (Z.eqb_spec r 0) as [->|Hr]; cbn [negb].
    + destruct (lookup_lt_is_Some_2 (rsp_wr s') (slot cmd)) as [id Hwr]; [lia|]. split_and!; [done|by exists id|eauto].
    + intros l' Hl'. unfold answered. chrec. rewrite Hop, Hsq, <- app_assoc. split_and!; [done| |eauto]. eexists. split; [apply list_lookup_insert_eq; lia|done].
Qed.

(** * What the peer reads *)

Lemma put_bytes_of x l : Z.of_nat (length l) = b_len x -> bytes_of (put_bytes x l) (b_len x) = l.
Proof.
  intros Hl. unfold bytes_of. apply list_eq. intros i. rewrite list_lookup_fmap. destruct (decide (i < length l)%nat) as [Hi|Hi].
  - rewrite lookup_seqZ_lt by lia. cbn [fmap option_fmap option_map put_bytes b_at]. rewrite Z.add_0_l, Nat2Z.id.
    destruct (lookup_lt_is_Some_2 l i Hi) as [y Hy]. rewrite Hy. by rewrite (proj2 (Z.leb_le 0 _)) by lia.
  - rewrite lookup_seqZ_ge by lia. symmetry. apply lookup_ge_None. lia.
Qed.

(** The size of the state is asked for: the state is saved to a new buffer. *)
Lemma get_state_run cmd s w1 w2 n l :
  chan_ok Inv s -> accepted cmd MLX5_SNAP_CMD_GET_STATE_SZ -> state_size (ch_state s) = 0 -> 0 < n < 2 ^ 31 ->
  mo_get_state_size (ch_env s) = Ok (w1, n) -> mo_copy_state (replicate (Z.to_nat n) 0) n false w1 = Ok (w2, (l, 0)) -> Z.of_nat (length l) = n ->
  post (snap_channel_process_cmd ans cmd) (fun ret s' => ret = 0 /\ (state_size (ch_state s') = n /\ ch_sq s' = ch_sq s ++ [WrSend (slot cmd) MLX5_SNAP_CMD_GET_STATE_SZ] /\
    exists b x, st_buf (ch_state s') = Some b /\ ch_heap s' !! b = Some x /\ bytes_of x n = l)) s.
Proof.
  intros [Hc Hl] [Hop Hid] Hz Hn Hsize Hcopy Hll. assert (slot cmd < 64)%nat as Hi by (unfold slot; lia).
  eapply (process_run cmd MLX5_SNAP_CMD_GET_STATE_SZ); [done|apply Hc|]. intros l0 Hl0. unfold run_cmd. rewrite Hop. opcodes.
  apply (post_bind_mono _ _ (fun ret s' => length (rsp_buf s') = 64%nat /\ length (rsp_wr s') = 64%nat /\ state_size (ch_state s') = n /\ ch_sq s' = ch_sq s /\
    exists b x, st_buf (ch_state s') = Some b /\ ch_heap s' !! b = Some x /\ bytes_of x n = l)).
  - unfold snap_channel_get_state_size. apply run_locked; [apply (Hl StateLock)|]. apply post_gets. chrec. rewrite Hz. cbn [Z.eqb negb].
    eapply post_ops; [exact Hsize|]. rewrite (proj2 (Z.ltb_ge n 0)), (proj2 (Z.eqb_neq n 0)) by lia. cbn [negb]. apply post_assoc, run_calloc, post_assoc, post_modify. chrec. cbn beta iota.
    apply post_assoc. unfold copy_state. apply post_assoc. eapply post_buf; [chrec; apply lookup_insert_eq|]. apply post_assoc. cbn [b_len]. rewrite zero_bytes.
    eapply post_ops; [exact Hcopy|]. apply post_assoc, post_modify, post_bind, post_return. chrec. cbn [Z.eqb negb]. apply post_bind, post_return. cbn [Z.eqb negb].
    apply post_modify, post_cqe; [done..|]. intros l1 Hl1. apply run_fails; [done..|]. intros l2 Hl2. chrec. split; [done|]. split_and!; [done|apply Hc|apply u32_small; lia|done|].
    eexists _, _. split_and!; [done|apply lookup_insert_eq|]. by apply put_bytes_of.
  - intros ret s' (Hb' & Hw' & Hs' & Hsq & Hst). apply post_return. split_and!; [done..|]. cbn [snd]. intros l' Hl'. unfold answered. chrec. rewrite Hop, Hsq. by split_and!.
Qed.

(** A transfer of the state to the peer. *)
Lemma read_state_run cmd s b x :
  chan_ok Inv s -> accepted cmd MLX5_SNAP_CMD_READ_STATE -> cmd_offset cmd = 0 -> 0 < cmd_length cmd <= state_size (ch_state s) ->
  st_buf (ch_state s) = Some b -> ch_heap s !! b = Some x ->
  post (snap_channel_process_cmd ans cmd) (fun ret s' => ret = 0 /\ (ch_heap s' !! b = Some x /\
    exists m, ch_sq s' = ch_sq s ++ [WrRdma false b m (cmd_length cmd) (cmd_addr cmd) (cmd_key cmd) (slot cmd)])) s.
Proof.
  intros [Hc Hl] [Hop Hid] Hoff Hlen Hb Hx. assert (slot cmd < 64)%nat as Hi by (unfold slot; lia). pose proof (co_mem _ _ Hc) as Hm.
  eapply (process_run cmd MLX5_SNAP_CMD_READ_STATE); [done|apply Hc|]. intros l0 Hl0. unfold run_cmd. rewrite Hop. opcodes.
  apply (post_bind_mono _ _ (fun ret s' => ret = 0 /\ length (rsp_buf s') = 64%nat /\ length (rsp_wr s') = 64%nat /\ ch_heap s' !! b = Some x /\
    exists m, ch_sq s' = ch_sq s ++ [WrRdma false b m (cmd_length cmd) (cmd_addr cmd) (cmd_key cmd) (slot cmd)])).
  - unfold snap_channel_read_state. rewrite Hoff. cbn [Z.eqb negb]. apply run_locked; [apply (Hl StateLock)|]. apply post_gets. chrec.
    rewrite (proj2 (Z.ltb_ge _ _)), (proj2 (Z.eqb_neq (cmd_length cmd) 0)) by lia. cbn [negb]. apply run_reg. rewrite Hb. cbn [points_to m_opt]. apply post_bind, post_return.
    apply run_send. cbn [Z.eqb negb]. apply dereg_old; [chrec; intros m Hm'; apply (mo_smr _ _ _ _ _ _ Hm) in Hm'; set_solver|]. intros live _.
    apply post_modify. apply run_fails; [done..|]. intros l1 Hl1. chrec. split_and!; [done..|apply Hc|done|eauto].
  - intros ret s' (-> & Hb' & Hw' & Hh & Hsq). apply post_return. cbn. by split_and!.
Qed.

(** C36: What the peer reads is what the controller saved, when the requests of the two
    commands succeed: after the command that asks for the size of the state, on a channel
    that holds no state yet, the command that reads so many bytes posts a transfer to the
    address the peer gave, of a buffer whose bytes are those that the controller put there
    when it saved its state. *)
Theorem read_state_sends_saved get read s w1 w2 n l :
  chan_ok Inv s -> accepted get MLX5_SNAP_CMD_GET_STATE_SZ -> cmd_ok get -> accepted read MLX5_SNAP_CMD_READ_STATE ->
  cmd_offset read = 0 -> cmd_length read = n -> state_size (ch_state s) = 0 -> 0 < n < 2 ^ 31 ->
  mo_get_state_size (ch_env s) = Ok (w1, n) -> mo_copy_state (replicate (Z.to_nat n) 0) n false w1 = Ok (w2, (l, 0)) -> Z.of_nat (length l) = n ->
  exists s1 s2 b m x, snap_channel_process_cmd ans get s = Ok (s1, 0) /\ snap_channel_process_cmd ans read s1 = Ok (s2, 0) /\
    ch_sq s2 = ch_sq s ++ [WrSend (slot get) MLX5_SNAP_CMD_GET_STATE_SZ; WrRdma false b m n (cmd_addr read) (cmd_key read) (slot read)] /\
    ch_heap s2 !! b = Some x /\ bytes_of x n = l.
Proof.
  intros Hg Hget Hcget Hread Hoff Hn Hz Hpos Hsize Hcopy Hl.
  destruct (post_run _ _ _ (get_state_run get s w1 w2 n l Hg Hget Hz Hpos Hsize Hcopy Hl)) as (s1 & r1 & E1 & -> & Hs1 & Hsq1 & b & x & Hb & Hx & Hbytes).
  destruct (run_post _ _ _ _ _ (process_cmd_ok Inv ans Halloc get s Hg Hcget) E1) as [Hg1 _].
  destruct (post_run _ _ _ (read_state_run read s1 b x Hg1 Hread Hoff ltac:(lia) Hb Hx)) as (s2 & r2 & E2 & -> & Hx2 & m & Hsq2).
  exists s1, s2, b, m, x. split_and!; [done..| |done|done]. rewrite Hsq2, Hsq1, Hn, <- app_assoc. done.
Qed.

End State.
