(* ===== verification/ChanLive.v ===== *)
(** Every command that names a response is answered: the response is sent at once, or when the
    transfer that the command starts has completed. *)

From stdpp Require Import gmap.
From S2P Require Import Prelude Effects Chan ChanBits ChanSys ChanInv ChanMark ChanProps ChanState.

Section Live.
Context {W : Type} `{!MigOps W} (Inv : W -> Prop) `{!MigLaws W Inv} (ans : chan_answers).
#[local] Abbreviation sys := (snap_rdma_channel W).
#[local] Abbreviation V := (M sys).
Implicit Types (s : sys).
#[local] Abbreviation ok := (chan_ok Inv).
(** Requests succeed. *)
Context (Halloc : forall k, an_alloc ans k = true) (Hpoll : forall k, an_poll ans k = true)
  (Hreg : forall k, an_reg ans k = true) (Hpost : forall k, an_post ans k = 0).

(** * What a run leaves, when it returns *)

Definition leaves {A} (m : V A) (Q : A -> sys -> Prop) s : Prop := forall s' a, m s = Ok (s', a) -> Q a s'.

Lemma runs_bind {A B} (m : V A) (f : A -> V B) R Q s : leaves m R s -> (forall a s1, R a s1 -> leaves (f a) Q s1) -> leaves (m_bind m f) Q s.
Proof. intros Hm Hf s' b Hrun. unfold m_bind in Hrun. destruct (m s) as [[s1 a]| | |] eqn:E; try done. cbn in Hrun. eapply Hf; [by apply Hm|exact Hrun]. Qed.
Lemma runs_return {A} (a : A) (Q : A -> sys -> Prop) s : Q a s -> leaves (mreturn a) Q s.
Proof. by intros HQ s' a' [= <- <-]. Qed.
Lemma runs_gets {A B} (g : sys -> A) (f : A -> V B) Q s : leaves (f (g s)) Q s -> leaves (m_bind (gets g) f) Q s.
Proof. done. Qed.
Lemma runs_modify {B} (g : sys -> sys) (f : unit -> V B) Q s : leaves (f tt) Q (g s) -> leaves (m_bind (modify g) f) Q s.
Proof. done. Qed.
Lemma runs_mono {A} (m : V A) (R Q : A -> sys -> Prop) s : leaves m R s -> (forall a s', R a s' -> Q a s') -> leaves m Q s.
Proof. intros Hm HQ s' a Hrun. auto. Qed.

(** A step that the send queue does not see. *)
Lemma runs_skip {A B} (m : V A) (f : A -> V B) Q s : preserves obs_sq m -> (forall a s1, obs_sq s1 = obs_sq s -> leaves (f a) Q s1) -> leaves (m_bind m f) Q s.
Proof. intros Hm Hf. eapply runs_bind; [intros s1 a Hrun; exact (Hm _ _ _ Hrun)|done]. Qed.

#[local] Abbreviation B := (@obs_sq_blind W).
Lemma runs_fails i v ret (Q : Z -> sys -> Prop) s : (forall s', obs_sq s' = obs_sq s -> Q ret s') -> leaves (fails i v ret) Q s.
Proof.
  intros HQ. unfold fails, set_status. apply runs_skip; [by apply see_upd_cqe; [apply B|]|]. intros [] s1 Hs. apply runs_return. by apply HQ.
Qed.
Lemma runs_reg {A} (f : option nat -> V A) Q s : (forall m s1, obs_sq s1 = obs_sq s -> leaves (f (Some m)) Q s1) -> leaves (m_bind (ibv_reg_mr ans) f) Q s.
Proof. intros Hf s' a. unfold ibv_reg_mr, acquire, request, m_bind, gets, modify, mreturn. cbn. rewrite Hreg. cbn. by apply Hf. Qed.
Lemma runs_send {A} w (f : Z -> V A) Q s : leaves (f 0) Q (s ⦇ ch_tick := S (ch_tick s) ⦈ ⦇ ch_sq := ch_sq s ++ [w] ⦈) -> leaves (m_bind (ibv_post_send ans w) f) Q s.
Proof. intros Hf s' a. unfold ibv_post_send, request, m_bind, gets, modify, mreturn. cbn. rewrite Hpost. cbn. apply Hf. Qed.

(** ** Transfers *)

Definition transfer (w : send_wr) : Prop := match w with WrRdma _ _ _ _ _ _ _ => True | WrSend _ _ => False end.

(** What a command leaves in the send queue, where [sq] was before, and [ids] are the
    identifiers of the responses: nothing, or a transfer that names the response. *)
Definition left (i : nat) (sq : list send_wr) (ids : list Z) (moved : bool) s : Prop :=
  map cqe_id (rsp_buf s) = ids /\
  if moved then exists rd b m len raddr rkey, ch_sq s = sq ++ [WrRdma rd b m len raddr rkey i] /\ (copy_mr (dirty_pages s) = Some m \/ state_mr (ch_state s) = Some m)
  else ch_sq s = sq \/ exists w, transfer w /\ ch_sq s = sq ++ [w].

Lemma left_none i s s' : obs_sq s' = obs_sq s -> left i (ch_sq s) (map cqe_id (rsp_buf s)) false s'.
Proof. unfold obs_sq, left. intros [= -> ->]. auto. Qed.

Definition moving (i : nat) (ret : Z) sq ids s : Prop := left i sq ids (ret =? 0) s.

Lemma locked_left m i sq ids (body : V Z) s :
  (forall s1, obs_sq s1 = obs_sq s -> leaves body (fun ret s' => moving i ret sq ids s') s1) -> leaves (locked m body) (fun ret s' => moving i ret sq ids s') s.
Proof.
  intros Hb. unfold locked. apply runs_skip; [apply see_lock, B|]. intros [] s1 Hs1. eapply runs_bind; [by apply Hb|]. intros ret s2 Hm s3 a. cbn beta.
  unfold pthread_mutex_unlock, m_bind, gets. cbn [res_bind]. destruct (mutex_of m s2); try done. destruct m; cbn; by intros [= <- <-].
Qed.

Lemma report_left cmd i s : leaves (snap_channel_report_dirty_pages ans cmd i) (fun ret s' => moving i ret (ch_sq s) (map cqe_id (rsp_buf s)) s') s.
Proof.
  unfold snap_channel_report_dirty_pages. apply locked_left. intros s1 Hs1. apply runs_gets. cbv zeta.
  assert (leaves (fails i MLX5_SNAP_SC_INVALID_FIELD (- EINVAL)) (fun ret s' => moving i ret (ch_sq s) (map cqe_id (rsp_buf s)) s') s1) as Hfail.
  { apply runs_fails. intros s' Hs'. apply left_none. congruence. }
  case_match; [done|]. case_match; [|done]. apply runs_reg. intros m s2 Hs2. apply runs_skip; [apply see_points_to|]. intros b s3 Hs3.
  apply runs_send. cbn [Z.eqb negb]. set (s4 := _ ⦇ ch_sq := _ ⦈).
  apply runs_skip; [case_match; [apply see_release, B|auto with preserves]|]. intros [] s5 Hs5. apply runs_modify, runs_return. unfold moving, left. chrec.
  unfold obs_sq in *. subst s4. cbn in Hs5. injection Hs5 as -> ->. injection Hs3 as -> ->. injection Hs2 as -> ->. injection Hs1 as -> ->. cbn. split; [done|]. eexists false, b, m, _, _, _. split; [reflexivity|by left].
Qed.

(** The last steps of a transfer of the state leave its memory region alone. *)
Definition sees_mr s : list send_wr * list Z * option nat := (obs_sq s, state_mr (ch_state s)).
Lemma preserves_mr {A} (m : V A) : preserves obs_sq m -> preserves ch_state m -> preserves sees_mr m.
Proof. intros H1 H2 s s' a Hrun. unfold sees_mr. by rewrite (H1 _ _ _ Hrun), (H2 _ _ _ Hrun). Qed.

Lemma runs_end i v ret m rd b len raddr rkey sq ids s : ch_sq s = sq ++ [WrRdma rd b m len raddr rkey i] -> map cqe_id (rsp_buf s) = ids ->
  state_mr (ch_state s) = Some m -> leaves (fails i v ret) (fun r s' => moving i r sq ids s') s.
Proof.
  intros Hsq Hids Hm. eapply (runs_bind _ _ (fun _ s1 => sees_mr s1 = sees_mr s)).
  - intros s1 [] Hrun. revert Hrun. unfold set_status. apply preserves_mr; [by apply see_upd_cqe; [apply B|]|unfold upd_cqe; solve_preserves].
  - intros [] s1 Hs1. apply runs_return. unfold sees_mr, obs_sq in Hs1. injection Hs1 as E1 E2 E3. unfold moving, left. rewrite E1, E2, E3. split; [done|].
    destruct (Z.eqb_spec ret 0); [|rewrite Hsq; right; by eexists; split; [|reflexivity]]. exists rd, b, m, len, raddr, rkey. by rewrite Hsq; auto.
Qed.

Lemma read_left cmd i s : leaves (snap_channel_read_state ans cmd i) (fun ret s' => moving i ret (ch_sq s) (map cqe_id (rsp_buf s)) s') s.
Proof.
  assert (forall s1 v, obs_sq s1 = obs_sq s -> leaves (fails i v (- EINVAL)) (fun ret s' => moving i ret (ch_sq s) (map cqe_id (rsp_buf s)) s') s1) as Hfail.
  { intros s1 v Hs1. apply runs_fails. intros s' Hs'. apply left_none. congruence. }
  unfold snap_channel_read_state. cbv zeta. case_match; [by apply Hfail|]. apply locked_left. intros s1 Hs1. apply runs_gets.
  case_match; [by apply Hfail|]. case_match; [|by apply Hfail]. apply runs_reg. intros m s2 Hs2. apply runs_skip; [apply see_points_to|]. intros b s3 Hs3.
  apply runs_send. cbn [Z.eqb negb]. set (s4 := _ ⦇ ch_sq := _ ⦈).
  apply runs_skip; [case_match; [apply see_release, B|auto with preserves]|]. intros [] s5 Hs5. apply runs_modify.
  unfold obs_sq in *. subst s4. cbn in Hs5. injection Hs5 as E1 E2. injection Hs3 as E3 E4. injection Hs2 as E5 E6. injection Hs1 as E7 E8.
  eapply runs_end; [chrec; rewrite E1, E3, E5, E7; reflexivity|chrec; congruence|done].
Qed.

Lemma write_left cmd i s : leaves (snap_channel_write_state ans cmd i) (fun ret s' => moving i ret (ch_sq s) (map cqe_id (rsp_buf s)) s') s.
Proof.
  assert (forall s1 v ret, ret <> 0 -> obs_sq s1 = obs_sq s -> leaves (fails i v ret) (fun ret s' => moving i ret (ch_sq s) (map cqe_id (rsp_buf s)) s') s1) as Hfail.
  { intros s1 v ret Hr Hs1. apply runs_fails. intros s' Hs'. unfold moving. rewrite (proj2 (Z.eqb_neq _ _) Hr). apply left_none. congruence. }
  unfold snap_channel_write_state. cbv zeta. case_match; [by apply Hfail|]. apply locked_left. intros s1 Hs1. case_match; [|by apply Hfail].
  apply runs_gets. apply runs_skip; [unfold m_when; case_match; [apply see_drop_state, B|auto with preserves]|]. intros [] s2 Hs2.
  apply runs_skip; [unfold m_when; case_match; [apply see_drop_state_mr, B|auto with preserves]|]. intros [] s3 Hs3.
  apply runs_skip; [apply see_calloc, B|]. intros p s4 Hs4. apply runs_skip; [apply see_upd_istate, B|]. intros [] s5 Hs5.
  destruct p as [k|]; [|apply Hfail; [done|congruence]]. apply runs_reg. intros m s6 Hs6. apply runs_send. cbn [Z.eqb negb]. apply runs_modify.
  set (s7 := _ ⦇ ch_state := _ ⦈). eapply (runs_bind _ _ (fun _ s8 => sees_mr s8 = sees_mr s7)).
  { intros s8 r. apply preserves_mr; [apply see_copy_state, B|unfold copy_state, ch_buf, call_ops, set_buf, m_opt; solve_preserves]. }
  intros r s8 Hs8. unfold sees_mr, obs_sq in *. subst s7. cbn in Hs8. injection Hs8 as E1 E2 E3.
  assert (ch_sq s6 = ch_sq s /\ map cqe_id (rsp_buf s6) = map cqe_id (rsp_buf s)) as [E4 E5] by (split; congruence).
  case_match; [|apply runs_modify]; (eapply runs_end; [chrec; rewrite E1, E4; reflexivity|chrec; congruence|done]).
Qed.

(** What a command leaves: whether it answers at once, or the transfer that it started will. *)
Lemma run_cmd_left cmd i s : leaves (run_cmd ans cmd i) (fun r s' => left i (ch_sq s) (map cqe_id (rsp_buf s)) (negb (snd r)) s') s.
Proof.
  assert (forall m : V Z, leaves m (fun ret s' => moving i ret (ch_sq s) (map cqe_id (rsp_buf s)) s') s ->
    leaves (let! ret := m in mreturn (ret, negb (ret =? 0))) (fun r s' => left i (ch_sq s) (map cqe_id (rsp_buf s)) (negb (snd r)) s') s) as Hmoves.
  { intros m Hm. eapply runs_bind; [exact Hm|]. intros ret s1 Hs1. apply runs_return. cbn [snd]. by rewrite negb_involutive. }
  destruct (decide (cmd_opcode cmd = MLX5_SNAP_CMD_REPORT_LOG)) as [E|H3]; [unfold run_cmd; rewrite E; opcodes; apply Hmoves, report_left|].
  destruct (decide (cmd_opcode cmd = MLX5_SNAP_CMD_READ_STATE)) as [E|H9]; [unfold run_cmd; rewrite E; opcodes; apply Hmoves, read_left|].
  destruct (decide (cmd_opcode cmd = MLX5_SNAP_CMD_WRITE_STATE)) as [E|H10]; [unfold run_cmd; rewrite E; opcodes; apply Hmoves, write_left|].
  intros s' r Hrun. assert (snd r = true) as ->; [|apply left_none; exact (see_plain ans obs_sq B cmd i H3 H9 H10 _ _ _ Hrun)].
  revert Hrun. unfold run_cmd. rewrite (proj2 (Z.eqb_neq _ _) H3), (proj2 (Z.eqb_neq _ _) H9), (proj2 (Z.eqb_neq _ _) H10). cbv zeta.
  assert (forall m : V Z, (let! ret := m in mreturn (ret, true)) s = Ok (s', r) -> snd r = true) as Hans.
  { intros m. unfold m_bind. destruct (m s) as [[s1 ret]| | |]; try done. by intros [= _ <-]. }
  repeat (case_match; [apply Hans|]). apply Hans.
Qed.

(** * One command *)

(** The response [i] carries the identifier [id]. *)
Definition names (i : nat) (id : Z) s : Prop := map cqe_id (rsp_buf s) !! i = Some id.

(** The send queue ends in the response, or is a transfer on whose completion it is sent. *)
Definition pending (i : nat) (sq : list send_wr) s : Prop :=
  (exists l id, ch_sq s = sq ++ l ++ [WrSend i id] /\ Forall transfer l /\ (length l <= 1)%nat) \/
  (exists rd b m len raddr rkey, ch_sq s = sq ++ [WrRdma rd b m len raddr rkey i] /\ m ∈ ch_live s).

Lemma left_live i sq ids s : ok s -> left i sq ids true s -> pending i sq s.
Proof.
  intros Hg [_ (rd & b & m & len & raddr & rkey & Hsq & Hm)]. right. exists rd, b, m, len, raddr, rkey. split; [done|].
  pose proof (co_mem _ _ (proj1 Hg)) as Hmem. destruct Hm; [by apply (mo_cmr _ _ _ _ _ _ Hmem)|by apply (mo_smr _ _ _ _ _ _ Hmem)].
Qed.

Lemma process_pending cmd s : ok s -> cmd_ok cmd -> 1 <= cmd_id cmd <= 64 ->
  post (snap_channel_process_cmd ans cmd) (fun r s' => r = 0 /\ ok s' /\ names (slot cmd) (cmd_id cmd) s' /\ pending (slot cmd) (ch_sq s) s') s.
Proof.
  intros Hg Hc Hid. destruct (post_run _ _ _ (process_cmd_ok Inv ans Halloc cmd s Hg Hc)) as (s' & r & Hrun & Hg' & _).
  unfold post. rewrite Hrun. revert Hrun. unfold snap_channel_process_cmd. cbv zeta. unfold SNAP_CHANNEL_QUEUE_SIZE.
  rewrite (proj2 (Z.ltb_ge (cmd_id cmd) 1)), (proj2 (Z.ltb_ge 64 (cmd_id cmd))) by lia. cbn [orb]. change (Z.to_nat (cmd_id cmd - 1)) with (slot cmd).
  assert (slot cmd < 64)%nat as Hi by (unfold slot; lia). unfold m_bind at 1, upd_cqe at 1. unfold m_bind at 1, gets at 1. cbn [res_bind].
  destruct (rsp_buf s !! slot cmd) as [c|] eqn:Hcqe; [|done]. cbn [modify res_bind]. set (s1 := s ⦇ rsp_buf := _ ⦈).
  unfold m_bind at 1. destruct (run_cmd ans cmd (slot cmd) s1) as [[s2 [ret send]]| | |] eqn:E2; try done. cbn [res_bind].
  pose proof (run_cmd_left cmd (slot cmd) s1 _ _ E2) as Hleft. cbn [snd] in Hleft. pose proof Hleft as [Hids Hsq].
  assert (names (slot cmd) (cmd_id cmd) s2) as Hn.
  { unfold names. rewrite Hids. subst s1. chrec. rewrite list_lookup_fmap, list_lookup_insert_eq by (by eapply lookup_lt_Some). done. }
  change (ch_sq s1) with (ch_sq s) in *. destruct send; cbn [negb] in Hsq, Hleft.
  - unfold m_bind at 1. destruct (upd_cqe (slot cmd) _ s2) as [[s3 []]| | |] eqn:E3; try done. cbn [res_bind].
    assert (obs_sq s3 = obs_sq s2) as E by (revert E3; apply see_upd_cqe; [apply B|intros c'; by case_match]).
    unfold obs_sq in E. injection E as Esq Eids. unfold m_bind at 1. cbn [modify res_bind].
    unfold post_rsp, m_bind at 1, gets at 1. cbn [res_bind]. chrec. unfold m_bind at 1, m_opt.
    destruct (<[slot cmd := _]> (rsp_wr s3) !! slot cmd) as [id'|] eqn:Hid'; [|done]. cbn [mreturn res_bind].
    unfold ibv_post_send, request, m_bind, gets, modify, mreturn. cbn. rewrite Hpost. cbn. intros [= <- <-]. split_and!; [done|done| |].
    + unfold names. chrec. by rewrite Eids.
    + left. chrec. rewrite Esq. destruct Hsq as [->|(w & Hw & ->)]; [exists [], id'|exists [w], id']; (split_and!; [by rewrite <- ?app_assoc|by repeat constructor|cbn; lia]).
  - cbn [mreturn]. intros [= <- <-]. split_and!; [done..|]. by eapply left_live.
Qed.

(** * The thread, when there is one completion *)

Lemma poll_ok {A} (f : list ibv_wc -> V A) s :
  m_bind (ibv_poll_cq ans) f s = f (take SNAP_CHANNEL_POLL_BATCH (ch_cq s)) (s ⦇ ch_tick := S (ch_tick s) ⦈ ⦇ ch_cq := drop SNAP_CHANNEL_POLL_BATCH (ch_cq s) ⦈).
Proof. unfold ibv_poll_cq, request, m_bind, gets, modify, mreturn. cbn [res_bind]. by rewrite Hpoll. Qed.

Lemma poll_one wc s s1 : ch_cq s = [wc] -> snap_channel_handle_completion ans wc (s ⦇ ch_tick := S (ch_tick s) ⦈ ⦇ ch_cq := [] ⦈) = Ok (s1, 0) ->
  ch_cq s1 = [] -> chan_step ans CCq s = Ok (s1 ⦇ ch_tick := S (ch_tick s1) ⦈ ⦇ ch_cq := [] ⦈, []).
Proof.
  intros Hcq Hrun Hcq1. cbn [chan_step]. unfold snap_channel_cq_event_handler. change 64%nat with (S (S 62)). generalize 62%nat. intros n.
  unfold m_bind at 1. cbn [poll_loop]. rewrite poll_ok, Hcq. cbn [take drop SNAP_CHANNEL_POLL_BATCH handle_batch length].
  unfold m_bind at 1 2. rewrite Hrun. cbn [res_bind Z.eqb negb mreturn].
  change (SNAP_CHANNEL_MAX_COMPLETIONS <=? 0 + Z.of_nat 1) with false. cbv iota. rewrite poll_ok, Hcq1. done.
Qed.

Lemma drained_ok s : ok s -> ok (s ⦇ ch_tick := S (ch_tick s) ⦈ ⦇ ch_cq := [] ⦈).
Proof.
  intros Hg. destruct (tick_good Inv all_free s (S (ch_tick s)) Hg) as [[[] Hl] _]; [lia|]. split; [|intros m; pose proof (Hl m); by destruct m]. by split.
Qed.

Lemma recv_pending cmd idx s : ok s -> recv_buf s !! idx = Some cmd -> cmd_ok cmd -> 1 <= cmd_id cmd <= 64 ->
  post (snap_channel_handle_completion ans (WcRecv idx SNAP_CHANNEL_DESC_SIZE)) (fun r s' => r = 0 /\ names (slot cmd) (cmd_id cmd) s' /\ pending (slot cmd) (ch_sq s) s') s.
Proof.
  intros Hg Hcmd Hc Hid. cbn [snap_channel_handle_completion]. rewrite Z.eqb_refl. cbn [negb].
  apply (post_bind_mono _ _ (fun r s' => r = 0 /\ names (slot cmd) (cmd_id cmd) s' /\ pending (slot cmd) (ch_sq s) s')).
  - unfold snap_channel_recv_handler. apply post_gets. rewrite Hcmd. cbn [m_opt]. apply post_bind, post_return.
    apply (post_bind_mono _ _ (fun _ s' => names (slot cmd) (cmd_id cmd) s' /\ pending (slot cmd) (ch_sq s) s')).
    + cbn [process_retry]. eapply post_bind_mono; [by apply process_pending|]. intros r s' (-> & _ & ? & ?). by apply post_return.
    + intros _ s' [? ?]. unfold ibv_post_recv, request, post, m_bind, gets, modify, mreturn. cbn. rewrite Hpost. done.
  - intros r s' (-> & ? & ?). by apply post_return.
Qed.

(** ** Responses arrive *)

Lemma send_now (data : Z -> Z) i id id' q s : names i id s -> ch_sq s = WrSend i id' :: q ->
  exists s' c, chan_step ans (CNic data) s = Ok (s', [HRsp c]) /\ cqe_id c = id.
Proof.
  intros Hn Hsq. unfold names in Hn. rewrite list_lookup_fmap in Hn. destruct (rsp_buf s !! i) as [c|] eqn:Hc; [|done]. injection Hn as <-.
  eexists _, c. split; [|done]. cbn [chan_step]. unfold nic, next_wr, m_bind, gets, modify, mreturn, m_opt. cbn. rewrite Hsq. cbn. by rewrite Hc.
Qed.

Lemma nic_names (data : Z -> Z) i id : preserves (names i id) (nic (W := W) data).
Proof. unfold nic, next_wr, m_opt, complete_wr, ch_buf, set_buf, m_opt. solve_preserves. Qed.

(** The completion of a transfer. *)
Definition of_transfer (wc : ibv_wc) : Prop := match wc with WcRdma _ | WcError => True | _ => False end.

Lemma nic_transfer (data : Z -> Z) w q s s1 e : ch_sq s = w :: q -> transfer w -> nic data s = Ok (s1, e) ->
  exists wc, of_transfer wc /\ ch_cq s1 = ch_cq s ++ [wc] /\ ch_sq s1 = q /\
    forall rd b m len raddr rkey i, w = WrRdma rd b m len raddr rkey i -> m ∈ ch_live s -> wc = WcRdma i.
Proof.
  intros Hsq Hw. destruct w as [rd b m len raddr rkey r|]; [|done]. unfold nic, next_wr, m_bind, gets, modify, mreturn. cbn. rewrite Hsq. cbn.
  destruct (decide (m ∈ ch_live s)) as [Hm|Hm]; [rewrite bool_decide_true by done|rewrite bool_decide_false by done]; cbn.
  - unfold ch_buf, m_bind, gets, m_opt, mreturn. cbn. destruct (ch_heap s !! b) as [x|]; [|done]. cbn. destruct (len <=? b_len x); cbn; [|done].
    destruct rd; cbn; unfold complete_wr, modify; cbn; intros [= <- _]; exists (WcRdma r); split_and!; try done; by intros ? ? ? ? ? ? ? [= _ _ _ _ _ _ ->].
  - unfold complete_wr, modify. cbn. intros [= <- _]. exists WcError. split_and!; try done. intros ? ? ? ? ? ? ? [= _ _ <- _ _ _ _] ?. done.
Qed.

(** The thread handles it: a response may be posted behind what is there. *)
Lemma transfer_handled wc i id s : ok s -> wc_ok wc -> of_transfer wc -> names i id s ->
  exists s1, snap_channel_handle_completion ans wc s = Ok (s1, 0) /\ ok s1 /\ names i id s1 /\ ch_cq s1 = ch_cq s /\
    exists l, ch_sq s1 = ch_sq s ++ l /\ forall k, wc = WcRdma k -> exists id', l = [WrSend k id'].
Proof.
  intros Hg Hwc Ht Hn. destruct (post_run _ _ _ (chan_completion_ok Inv ans Halloc wc s Hg Hwc)) as (s1 & r & Hrun & Hg1 & _).
  destruct wc as [| |k| |]; try done; cbn [snap_channel_handle_completion] in Hrun.
  - pose proof Hrun as Hrun'. revert Hrun. unfold post_rsp, m_bind at 1, gets at 1. cbn [res_bind]. unfold m_bind at 1, m_opt. destruct (rsp_wr s !! k) as [id'|] eqn:E; [|done].
    cbn [mreturn res_bind]. unfold ibv_post_send, request, m_bind, gets, modify, mreturn. cbn. rewrite Hpost. cbn. intros [= <- <-].
    eexists. split; [exact Hrun'|]. split_and!; [done..|]. eexists. split; [reflexivity|]. intros k' [= ->]. eauto.
  - injection Hrun as <- <-. eexists. split_and!; [done..|]. exists []. split; [by rewrite app_nil_r|]. by intros k [=].
Qed.

(** How many turns that do something it takes at most until the response is received. *)
Inductive waits (i : nat) (id : Z) (s : sys) : nat -> Prop :=
| waits_send id' q : ch_cq s = [] -> ch_sq s = WrSend i id' :: q -> waits i id s 1
| waits_thread id' wc : ch_cq s = [wc] -> of_transfer wc -> ch_sq s = [WrSend i id'] -> waits i id s 2
| waits_completion : ch_cq s = [WcRdma i] -> ch_sq s = [] -> waits i id s 2
| waits_failed w id' : ch_cq s = [] -> transfer w -> ch_sq s = [w; WrSend i id'] -> waits i id s 3
| waits_transfer rd b m len raddr rkey : ch_cq s = [] -> ch_sq s = [WrRdma rd b m len raddr rkey i] -> m ∈ ch_live s -> waits i id s 3.

Definition waiting (i : nat) (id : Z) (n : nat) s : Prop := ok s /\ names i id s /\ waits i id s n.

(** A turn of the device: the response is received, or fewer turns are left. *)
Lemma nic_waiting (data : Z -> Z) i id n s s1 e : waiting i id n s -> chan_step ans (CNic data) s = Ok (s1, e) ->
  (exists c, HRsp c ∈ e /\ cqe_id c = id) \/ exists n', n = S n' /\ waiting i id n' s1.
Proof.
  intros (Hg & Hn & Hw) Hrun. assert (forall id' q, ch_sq s = WrSend i id' :: q -> exists c, HRsp c ∈ e /\ cqe_id c = id) as Hsend.
  { intros id' q Hsq. destruct (send_now data i id id' q s Hn Hsq) as (s' & c & Hrun' & Hc). rewrite Hrun in Hrun'. injection Hrun' as _ ->. exists c. set_solver. }
  cbn [chan_step] in Hrun. assert (ch_sq s <> [] -> ok s1 /\ names i id s1) as Hkeep.
  { intros Hne. destruct (run_post _ _ _ _ _ (nic_ok Inv data s Hg Hne) Hrun) as [Hg1 _]. split; [done|]. by rewrite (nic_names data i id _ _ _ Hrun). }
  destruct Hw as [id' q _ Hsq|id' wc _ _ Hsq|Hcq Hsq|w id' Hcq Ht Hsq|rd b m len raddr rkey Hcq Hsq Hm]; [left; by eapply Hsend..| | |].
  - revert Hrun. unfold nic, next_wr, m_bind, gets. cbn. by rewrite Hsq.
  - right. exists 2%nat. split; [done|]. destruct Hkeep as [Hg1 Hn1]; [by rewrite Hsq|]. destruct (nic_transfer data _ _ _ _ _ Hsq Ht Hrun) as (wc & Hwc & Hcq1 & Hsq1 & _).
    split_and!; [done..|]. rewrite Hcq in Hcq1. by eapply waits_thread.
  - right. exists 2%nat. split; [done|]. destruct Hkeep as [Hg1 Hn1]; [by rewrite Hsq|]. destruct (nic_transfer data _ _ _ _ _ Hsq I Hrun) as (wc & Hwc & Hcq1 & Hsq1 & Hrdma).
    rewrite (Hrdma _ _ _ _ _ _ _ eq_refl Hm), Hcq in Hcq1. split_and!; [done..|]. by apply waits_completion.
Qed.

Lemma poll_none s : ch_cq s = [] -> chan_step ans CCq s = Ok (s ⦇ ch_tick := S (ch_tick s) ⦈ ⦇ ch_cq := [] ⦈, []).
Proof.
  intros Hcq. cbn [chan_step]. unfold snap_channel_cq_event_handler. change 64%nat with (S 63). generalize 63%nat. intros n.
  unfold m_bind at 1. cbn [poll_loop]. by rewrite poll_ok, Hcq.
Qed.

(** A turn of the thread: with nothing to handle all stays as it is. *)
Lemma idle_waiting i id n s s1 e : waiting i id n s -> ch_cq s = [] -> chan_step ans CCq s = Ok (s1, e) -> waiting i id n s1.
Proof.
  intros (Hg & Hn & Hw) Hcq. rewrite (poll_none s Hcq). intros [= <- _]. split_and!; [by apply drained_ok|done|].
  destruct Hw; [by eapply waits_send|congruence..|by eapply waits_failed|by eapply waits_transfer].
Qed.
Lemma thread_waiting i id n s s1 e : waiting i id n s -> ch_cq s <> [] -> chan_step ans CCq s = Ok (s1, e) -> exists n', n = S n' /\ waiting i id n' s1.
Proof.
  intros (Hg & Hn & Hw) Hcq Hrun. assert (forall wc, ch_cq s = [wc] -> of_transfer wc -> n = 2%nat ->
    (forall l, (forall k, wc = WcRdma k -> exists id', l = [WrSend k id']) -> exists id' q, ch_sq s ++ l = WrSend i id' :: q) -> exists n', n = S n' /\ waiting i id n' s1) as Hone.
  { intros wc Hwc Ht -> Hsq. pose proof (co_cq _ _ (proj1 Hg)) as Hok. rewrite Hwc in Hok. apply Forall_cons in Hok as [Hok _].
    destruct (transfer_handled wc i id _ (drained_ok s Hg) Hok Ht Hn) as (s2 & Hh & Hg2 & Hn2 & Hcq2 & l & Hl & Hk).
    rewrite (poll_one wc s s2 Hwc Hh Hcq2) in Hrun. injection Hrun as <- _. exists 1%nat. split; [done|]. split_and!; [by apply drained_ok|done|].
    destruct (Hsq l Hk) as (id' & q & Hq). eapply waits_send; [done|]. chrec. rewrite Hl. exact Hq. }
  destruct Hw as [id' q Hcq' _|id' wc Hwc Ht Hsq|Hwc Hsq|w id' Hcq' _ _|rd b m len raddr rkey Hcq' _ _]; [congruence| | |congruence..].
  - eapply Hone; [done..|]. intros l _. rewrite Hsq. cbn. eauto.
  - eapply (Hone _ Hwc I); [done|]. intros l Hl. destruct (Hl i eq_refl) as [id' ->]. rewrite Hsq. cbn. eauto.
Qed.

(** Turns of the device and of the thread in any order; [n] of them find something to do. *)
Inductive turns : sys -> nat -> sys -> list hevent -> Prop :=
| turns_none s : turns s 0 s []
| turns_nic data s s1 s2 n e e' : chan_step ans (CNic data) s = Ok (s1, e) -> turns s1 n s2 e' -> turns s (S n) s2 (e ++ e')
| turns_thread s s1 s2 n e e' : ch_cq s <> [] -> chan_step ans CCq s = Ok (s1, e) -> turns s1 n s2 e' -> turns s (S n) s2 (e ++ e')
| turns_idle s s1 s2 n e e' : ch_cq s = [] -> chan_step ans CCq s = Ok (s1, e) -> turns s1 n s2 e' -> turns s n s2 (e ++ e').

Lemma waits_busy i id n s : waits i id s n -> (0 < n)%nat /\ (ch_sq s <> [] \/ ch_cq s <> []).
Proof. intros []; (split; [lia|]); (left; congruence) || (right; congruence). Qed.

Lemma turns_answer i id k n s s' e : waiting i id k s -> turns s n s' e ->
  (exists c, HRsp c ∈ e /\ cqe_id c = id) \/ ((n < k)%nat /\ (ch_sq s' <> [] \/ ch_cq s' <> [])).
Proof.
  intros Hw Hrun. revert k Hw. induction Hrun as [s|data s s1 s2 n e e' Hstep Hrun IH|s s1 s2 n e e' Hcq Hstep Hrun IH|s s1 s2 n e e' Hcq Hstep Hrun IH]; intros k Hw.
  - right. destruct Hw as (_ & _ & Hw). by apply waits_busy in Hw.
  - destruct (nic_waiting _ _ _ _ _ _ _ Hw Hstep) as [(c & Hin & Hc)|(k' & -> & Hw1)]; [left; exists c; split; [set_solver|done]|].
    destruct (IH _ Hw1) as [(c & Hin & Hc)|[Hlt Hb]]; [left; exists c; split; [set_solver|done]|right; split; [lia|done]].
  - destruct (thread_waiting _ _ _ _ _ _ Hw Hcq Hstep) as (k' & -> & Hw1).
    destruct (IH _ Hw1) as [(c & Hin & Hc)|[Hlt Hb]]; [left; exists c; split; [set_solver|done]|right; split; [lia|done]].
  - destruct (IH _ (idle_waiting _ _ _ _ _ _ Hw Hcq Hstep)) as [(c & Hin & Hc)|[Hlt Hb]]; [left; exists c; split; [set_solver|done]|right; by split].
Qed.

Lemma pending_waits i id s : ok s -> ch_cq s = [] -> names i id s -> pending i [] s -> exists k, (k <= 3)%nat /\ waiting i id k s.
Proof.
  intros Hg Hcq Hn [(l & id' & Hsq & Ht & Hl)|(rd & b & m & len & raddr & rkey & Hsq & Hm)]; cbn [app] in Hsq.
  - destruct l as [|w [|w' l]]; [exists 1%nat|exists 3%nat|cbn in Hl; lia]; (split; [lia|]); (split; [done|]); (split; [done|]).
    + by eapply waits_send.
    + apply Forall_cons in Ht as [Ht _]. by apply (waits_failed _ _ _ w id').
  - exists 3%nat. split; [lia|]. split; [done|]. split; [done|]. by eapply waits_transfer.
Qed.


End Live.
