(* ===== verification/ChanConn.v ===== *)
(** The life of the migration channel (src/src/snap_rdma_channel.c): opening and closing it,
    and the connections of its peers.

    What the verbs library, the connection manager and the threads library create are names
    of [ch_live]; the fields of the channel hold the names.  A name that is released twice
    is undefined. *)

From stdpp Require Import gmap.
From S2P Require Import Prelude Effects Chan.

(** The fields of [struct snap_rdma_channel] for connections; whether the structure is
    allocated; and the variables that all channels share. *)
Record conn (W : Type) := mk_conn {
  cn_chan : snap_rdma_channel W;
  cn_alloc : bool;
  cm_channel : option nat;
  listener : option nat;
  cmthread : option nat;
  cm_id : option nat;
  cn_pd : option nat;
  cn_channel : option nat;
  cn_cq : option nat;
  cn_qp : option nat;
  rsp_mr : option nat;
  recv_mr : option nat;
  cqthread : option nat;
  port_lock : mutex;
  rdma_port_idx : Z
}.
Arguments mk_conn {W}. Arguments cn_chan {W}. Arguments cn_alloc {W}. Arguments cm_channel {W}. Arguments listener {W}. Arguments cmthread {W}.
Arguments cm_id {W}. Arguments cn_pd {W}. Arguments cn_channel {W}. Arguments cn_cq {W}. Arguments cn_qp {W}. Arguments rsp_mr {W}.
Arguments recv_mr {W}. Arguments cqthread {W}. Arguments port_lock {W}. Arguments rdma_port_idx {W}.
#[export] Instance conn_settable W : Settable (conn W) :=
  fun r => mk_conn (cn_chan r) (cn_alloc r) (cm_channel r) (listener r) (cmthread r) (cm_id r) (cn_pd r) (cn_channel r) (cn_cq r) (cn_qp r)
             (rsp_mr r) (recv_mr r) (cqthread r) (port_lock r) (rdma_port_idx r).

(** What the environment answers to the k-th request: whether something is created, what a
    call returns, and the error after a creation that failed ([errno], or what the call
    returned); which variables are set. *)
Record conn_answers := mk_cna {
  cna_make : nat -> bool; cna_ret : nat -> Z; cna_errno : nat -> Z; cna_ip : bool; cna_port1 : bool; cna_port2 : bool
}.

(** Connection events; the identifier names the connection. *)
Inductive cm_event :=
| RDMA_CM_EVENT_CONNECT_REQUEST
| RDMA_CM_EVENT_DISCONNECTED
| RDMA_CM_EVENT_OTHER.

Section Conn.
Context {W : Type} `{!MigOps W} (ans : chan_answers) (can : conn_answers).
#[local] Abbreviation sys := (conn W).
#[local] Abbreviation V := (M sys).

(** An operation on the channel. *)
Definition on_chan {A} (m : M (snap_rdma_channel W) A) : V A :=
  fun s => let? r := m (cn_chan s) in Ok (s ⦇ cn_chan := fst r ⦈, snd r).

Definition create : V (option nat) := let! k := gets (fun s => ch_tick (cn_chan s)) in on_chan (acquire (cna_make can k)).
Definition destroy (p : option nat) : V unit := on_chan (release p).
(** A call that creates nothing: what it returns. *)
Definition cn_call : V Z := let! k := on_chan request in mreturn (cna_ret can k).
Definition cn_errno : V Z := let! k := gets (fun s => ch_tick (cn_chan s)) in mreturn (cna_errno can k).

(** The domain stays when the device refuses to release it, as it does while a memory region
    of the domain is registered; the callers do not look at the answer. *)
Definition ibv_dealloc_pd (p : option nat) : V unit :=
  let! ret := cn_call in
  let! k := on_chan (points_to p) in
  let! l := gets (fun s => ch_live (cn_chan s)) in
  if negb (bool_decide (k ∈ l)) then undefined
  else if negb (ret =? 0) then mreturn tt
  else destroy p.

(** * A connection *)

Definition snap_channel_clean_buffers : V unit :=
  let! s := gets id in
  do! destroy (recv_mr s) in
  destroy (rsp_mr s).

Fixpoint post_recvs (n i : nat) : V Z :=
  match n with
  | O => mreturn 0
  | S n =>
      let! ret := on_chan (ibv_post_recv ans i) in
      if negb (ret =? 0) then mreturn ret else post_recvs n (S i)
  end.

(** The requests for the responses are filled in, except for their [wr_id]; those for the
    commands are posted. *)
Definition snap_channel_setup_buffers : V Z :=
  let! m1 := create in
  do! modify (fun s => s ⦇ rsp_mr := m1 ⦈) in
  match m1 with
  | None => cn_errno
  | Some _ =>
      let! m2 := create in
      do! modify (fun s => s ⦇ recv_mr := m2 ⦈) in
      match m2 with
      | None =>
          let! ret := cn_errno in
          do! destroy m1 in mreturn ret
      | Some _ =>
          let! ret := post_recvs 64 0 in
          if negb (ret =? 0) then
            do! destroy m2 in
            do! destroy m1 in mreturn ret
          else mreturn 0
      end
  end.

Definition snap_channel_destroy_qp : V unit := let! s := gets id in destroy (cn_qp s).

Definition snap_channel_create_qp : V Z :=
  let! q := create in
  match q with
  | None => cn_errno
  | Some _ => do! modify (fun s => s ⦇ cn_qp := q ⦈) in mreturn 0
  end.

(** The ends of [snap_channel_setup_qp]: [err1] to [err5]. *)
Definition qp_err1 (ret : Z) : V Z := let! s := gets id in do! ibv_dealloc_pd (cn_pd s) in mreturn ret.
Definition qp_err2 (ret : Z) : V Z := let! s := gets id in do! destroy (cn_channel s) in qp_err1 ret.
Definition qp_err3 (ret : Z) : V Z := let! s := gets id in do! destroy (cn_cq s) in qp_err2 ret.
Definition qp_err4 (ret : Z) : V Z := do! snap_channel_destroy_qp in qp_err3 ret.
Definition qp_err5 (ret : Z) : V Z := do! snap_channel_clean_buffers in qp_err4 ret.

Definition snap_channel_setup_qp : V Z :=
  let! pd := create in
  do! modify (fun s => s ⦇ cn_pd := pd ⦈) in
  match pd with
  | None => cn_errno
  | Some _ =>
      let! ch := create in
      do! modify (fun s => s ⦇ cn_channel := ch ⦈) in
      match ch with
      | None => let! ret := cn_errno in qp_err1 ret
      | Some _ =>
          let! cq := create in
          do! modify (fun s => s ⦇ cn_cq := cq ⦈) in
          match cq with
          | None => let! ret := cn_errno in qp_err2 ret
          | Some _ =>
              let! ret := cn_call in
              if negb (ret =? 0) then let! ret := cn_errno in qp_err3 ret
              else
                let! ret := snap_channel_create_qp in
                if negb (ret =? 0) then qp_err3 ret
                else
                  let! ret := snap_channel_setup_buffers in
                  if negb (ret =? 0) then qp_err4 ret
                  else
                    let! t := create in
                    match t with
                    | None => let! ret := cn_errno in qp_err5 ret
                    | Some _ => do! modify (fun s => s ⦇ cqthread := t ⦈) in mreturn 0
                    end
          end
      end
  end.

Definition snap_channel_clean_qp : V unit :=
  let! s := gets id in
  do! destroy (cqthread s) in
  do! snap_channel_clean_buffers in
  do! snap_channel_destroy_qp in
  do! destroy (cn_cq s) in
  do! destroy (cn_channel s) in
  ibv_dealloc_pd (cn_pd s).

Definition snap_channel_cm_event_handler (cid : nat) (e : cm_event) : V Z :=
  match e with
  | RDMA_CM_EVENT_CONNECT_REQUEST =>
      let! ret := snap_channel_setup_qp in
      if negb (ret =? 0) then mreturn ret
      else
        do! modify (fun s => s ⦇ cm_id := Some cid ⦈) in
        let! ret := cn_call in
        if negb (ret =? 0) then do! snap_channel_clean_qp in mreturn ret else mreturn 0
  | RDMA_CM_EVENT_DISCONNECTED =>
      do! snap_channel_clean_qp in
      let! s := gets id in
      mreturn (if bool_decide (cm_id s = Some cid) then -1 else 0)
  | RDMA_CM_EVENT_OTHER => mreturn 0
  end.

(** What [rdma_get_cm_event] may bring: a request for a connection, for which it makes an
    identifier, the child of the listener; an event of an identifier that is there; nothing. *)
Inductive cm_got := GotRequest | GotEvent (cid : nat) (e : cm_event) | GotNothing.

(** A turn of [cm_thread].  The value of the handler is only logged; nothing destroys the
    identifier. *)
Definition cm_thread_turn (ev : cm_got) : V Z :=
  match ev with
  | GotNothing => mreturn 0
  | GotRequest =>
      let! child := on_chan (let! p := acquire true in points_to p) in
      snap_channel_cm_event_handler child RDMA_CM_EVENT_CONNECT_REQUEST
  | GotEvent cid e => snap_channel_cm_event_handler cid e
  end.

(** A turn of [cq_thread] on an event of the completion queue [ev], when there is one. *)
Definition cq_thread_turn (ev : option nat) : V unit :=
  match ev with
  | None => mreturn tt
  | Some ev_cq =>
      let! s := gets id in
      let! ret := cn_call in
      if bool_decide (Some ev_cq = cn_cq s) && (ret =? 0)
      then do! on_chan (snap_channel_cq_event_handler ans) in mreturn tt
      else mreturn tt
  end.

(** * The channel *)

Definition pthread_mutex_init (m : mutex_name) : V Z :=
  let! ret := cn_call in
  if negb (ret =? 0) then mreturn ret else do! on_chan (set_mutex m MFree) in mreturn 0.
Definition pthread_mutex_destroy (m : mutex_name) : V unit :=
  let! v := gets (fun s => mutex_of m (cn_chan s)) in
  match v with MFree => on_chan (set_mutex m MDead) | _ => undefined end.

Definition snap_channel_reset_dirty_pages : V unit :=
  do! on_chan (locked CopyLock (
    let! d := dirty in
    do! m_when (bool_decide (is_Some (copy_bmap d))) (do! ch_free (copy_bmap d) in upd_dirty (fun d => d ⦇ copy_bmap := None ⦈)) in
    do! m_when (bool_decide (is_Some (copy_mr d))) (do! ibv_dereg_mr (copy_mr d) in upd_dirty (fun d => d ⦇ copy_mr := None ⦈)) in
    upd_dirty (fun d => d ⦇ copy_bmap_num_elements := 0 ⦈))) in
  do! pthread_mutex_destroy CopyLock in
  do! on_chan (locked DirtyLock (
    let! d := dirty in
    do! m_when (bool_decide (is_Some (bmap d))) (do! ch_free (bmap d) in upd_dirty (fun d => d ⦇ bmap := None ⦈)) in
    upd_dirty (fun d => d ⦇ highest_dirty_element := 0 ⦈ ⦇ bmap_num_elements := 0 ⦈ ⦇ track_page_size := 0 ⦈))) in
  pthread_mutex_destroy DirtyLock.

Definition snap_channel_init_dirty_pages : V Z :=
  do! on_chan (upd_dirty (fun d => d ⦇ track_page_size := 0 ⦈ ⦇ bmap_num_elements := 0 ⦈ ⦇ highest_dirty_element := 0 ⦈ ⦇ bmap := None ⦈
                                     ⦇ copy_bmap_num_elements := 0 ⦈ ⦇ copy_bmap := None ⦈ ⦇ copy_mr := None ⦈)) in
  let! ret := pthread_mutex_init DirtyLock in
  if negb (ret =? 0) then mreturn ret
  else
    let! ret := pthread_mutex_init CopyLock in
    if negb (ret =? 0) then do! pthread_mutex_destroy DirtyLock in mreturn ret else mreturn 0.

Definition snap_channel_init_internal_state : V Z :=
  do! on_chan (upd_istate (fun t => t ⦇ state_size := 0 ⦈ ⦇ st_buf := None ⦈ ⦇ state_mr := None ⦈)) in
  pthread_mutex_init StateLock.

Definition snap_channel_reset_internal_state : V unit :=
  do! on_chan (locked StateLock (
    let! t := istate in
    do! m_when (bool_decide (is_Some (st_buf t))) drop_state in
    m_when (bool_decide (is_Some (state_mr t))) drop_state_mr)) in
  pthread_mutex_destroy StateLock.

(** [calloc] of the structure: everything in it is zero. *)
Definition blank_chan (c : snap_rdma_channel W) : snap_rdma_channel W :=
  mk_chan (ch_env c) (mk_dirty 0 0 0 MDead None 0 MDead None None) (mk_istate 0 MDead None None)
    (replicate 64 (mk_cqe 0 0 0)) (replicate 64 0) (replicate 64 (mk_cmd 0 0 0 0 0 0 0))
    (ch_heap c) (ch_live c) (ch_tick c) [] [] [].
Definition calloc_chan : V bool :=
  let! k := on_chan request in
  if negb (cna_make can k) then mreturn false
  else
    do! modify (fun s => mk_conn (blank_chan (cn_chan s)) true None None None None None None None None None None None (port_lock s) (rdma_port_idx s)) in
    mreturn true.
Definition free_chan : V unit :=
  let! a := gets cn_alloc in
  if a then modify (fun s => s ⦇ cn_alloc := false ⦈) else undefined.

Definition lock_port : V unit :=
  let! v := gets port_lock in
  match v with MFree => modify (fun s => s ⦇ port_lock := MHeld ⦈) | MHeld => never_returns | MDead => undefined end.
Definition unlock_port : V unit :=
  let! v := gets port_lock in
  match v with MHeld => modify (fun s => s ⦇ port_lock := MFree ⦈) | _ => undefined end.

(** The address is bound, and listened on. *)
Definition snap_channel_bind_id : V Z :=
  let! ret := cn_call in
  if negb (ret =? 0) then mreturn ret
  else
    let! ret := cn_call in
    if negb (ret =? 0) then mreturn ret else mreturn 0.

(** The ends of [snap_rdma_channel_open]. *)
Definition out_free : V bool := do! free_chan in mreturn false.
Definition out_reset_state : V bool := do! snap_channel_reset_internal_state in out_free.
Definition out_reset_dirty_pages : V bool := do! snap_channel_reset_dirty_pages in out_reset_state.
Definition out_free_cm_channel : V bool := let! s := gets id in do! destroy (cm_channel s) in out_reset_dirty_pages.
Definition out_destroy_id : V bool := let! s := gets id in do! destroy (listener s) in out_free_cm_channel.
Definition out_free_cmthread : V bool := let! s := gets id in do! destroy (cmthread s) in out_destroy_id.

(** [has_ops]: all the operations the channel calls are there.  The value: whether the channel
    was opened. *)
Definition snap_rdma_channel_open (has_ops : bool) : V bool :=
  if negb has_ops then mreturn false
  else
    let! a := calloc_chan in
    if negb a then mreturn false
    else
      let! ret := snap_channel_init_internal_state in
      if negb (ret =? 0) then out_free
      else
        let! ret := snap_channel_init_dirty_pages in
        if negb (ret =? 0) then out_reset_state
        else
          let! c := create in
          do! modify (fun s => s ⦇ cm_channel := c ⦈) in
          match c with
          | None => out_reset_dirty_pages
          | Some _ =>
              let! l := create in
              do! modify (fun s => s ⦇ listener := l ⦈) in
              match l with
              | None => out_free_cm_channel
              | Some _ =>
                  let! t := create in
                  do! modify (fun s => s ⦇ cmthread := t ⦈) in
                  match t with
                  | None => out_destroy_id
                  | Some _ =>
                      if negb (cna_ip can) then out_free_cmthread
                      else
                        do! lock_port in
                        let! idx := gets rdma_port_idx in
                        if negb (if idx =? 0 then cna_port1 can else cna_port2 can) then out_free_cmthread
                        else
                          do! modify (fun s => s ⦇ rdma_port_idx := idx + 1 ⦈) in
                          do! unlock_port in
                          let! ret := cn_call in
                          if negb (ret =? 0) then out_free_cmthread
                          else
                            let! ret := snap_channel_bind_id in
                            if negb (ret =? 0) then out_free_cmthread else mreturn true
                  end
              end
          end.

Definition snap_rdma_channel_close : V unit :=
  let! s := gets id in
  do! destroy (cmthread s) in
  do! destroy (listener s) in
  do! destroy (cm_channel s) in
  do! snap_channel_reset_dirty_pages in
  do! snap_channel_reset_internal_state in
  free_chan.

End Conn.
