(* ===== verification/ChanConnProps.v ===== *)
(** Theorems on the life of the migration channel: what a failure releases, and what it does
    not; a second connection. *)

From stdpp Require Import gmap.
From S2P Require Import Prelude Effects Chan ChanConn.

(** * Sets of names *)

Definition below (X : gset nat) (n : nat) : Prop := forall k, k ∈ X -> (k < n)%nat.
Lemma below_add X m n : below X m -> (m < n)%nat -> below ({[m]} ∪ X) n.
Proof. intros Hb Hn k [->%elem_of_singleton|Hk]%elem_of_union; [done|]. specialize (Hb k Hk). lia. Qed.
Lemma below_mono X m n : below X m -> (m <= n)%nat -> below X n.
Proof. intros Hb Hn k Hk. specialize (Hb k Hk). lia. Qed.
Lemma below_not X n : below X n -> n ∉ X.
Proof. intros Hb Hn. specialize (Hb n Hn). lia. Qed.
Lemma pop X n : below X n -> ({[n]} ∪ X) ∖ {[n]} = X.
Proof. intros Hb. assert (n ∉ X) by (intros Hn; specialize (Hb n Hn); lia). set_solver. Qed.

Lemma names_not k (l : list nat) (Y : gset nat) : k ∉ l -> k ∉ Y -> k ∉ foldr (fun x X => {[x]} ∪ X) Y l.
Proof. induction l as [|x l IH]; intros Hl HY; [done|]. apply not_elem_of_cons in Hl as [Hk Hl]. cbn. apply not_elem_of_union. split; [by apply not_elem_of_singleton|auto]. Qed.

Section ConnProps.
Context {W : Type} `{!MigOps W} (ans : chan_answers) (can : conn_answers).
#[local] Abbreviation sys := (conn W).
#[local] Abbreviation V := (M sys).
Implicit Types (s : sys).
(** A failure has an error. *)
Context (Herr : forall k, cna_errno can k <> 0).

Definition live s : gset nat := ch_live (cn_chan s).
Definition tick s : nat := ch_tick (cn_chan s).
(** The names of what exists are older than the next one. *)
Definition fresh s : Prop := forall k, k ∈ live s -> (k < tick s)%nat.

(** The state after [n] requests, with [l] alive. *)
Definition at_live (l : gset nat) (n : nat) s : sys := s ⦇ cn_chan := (cn_chan s) ⦇ ch_live := l ⦈ ⦇ ch_tick := n ⦈ ⦈.

Lemma post_create {A} (f : option nat -> V A) P s :
  post (f None) P (at_live (live s) (S (tick s)) s) -> post (f (Some (tick s))) P (at_live ({[tick s]} ∪ live s) (S (tick s)) s) ->
  post (m_bind (create can) f) P s.
Proof.
  intros H1 H2. unfold create, on_chan, acquire, request, post, m_bind, gets, modify, mreturn in *. cbn in *.
  destruct (cna_make can (ch_tick (cn_chan s))); cbn; [exact H2|]. destruct s as [[] ? ? ? ? ? ? ? ? ? ? ? ? ? ?]; exact H1.
Qed.
Lemma post_destroy {A} k (f : unit -> V A) P s : k ∈ live s -> post (f tt) P (at_live (live s ∖ {[k]}) (tick s) s) -> post (m_bind (destroy (Some k)) f) P s.
Proof.
  intros Hk Hf. unfold destroy, on_chan, release, points_to, m_opt, post, m_bind, gets, modify, mreturn in *. cbn in *.
  rewrite bool_decide_true by done. cbn. destruct s as [[] ? ? ? ? ? ? ? ? ? ? ? ? ? ?]; exact Hf.
Qed.
Lemma post_call {A} (f : Z -> V A) P s : (forall r, post (f r) P (at_live (live s) (S (tick s)) s)) -> post (m_bind (cn_call can) f) P s.
Proof.
  intros Hf. unfold cn_call, on_chan, request, post, m_bind, gets, modify, mreturn in *. cbn in *.
  specialize (Hf (cna_ret can (ch_tick (cn_chan s)))). destruct s as [[] ? ? ? ? ? ? ? ? ? ? ? ? ? ?]; exact Hf.
Qed.
Lemma post_errno {A} (f : Z -> V A) P s : (forall r, r <> 0 -> post (f r) P s) -> post (m_bind (cn_errno can) f) P s.
Proof. intros Hf. by apply (Hf (cna_errno can (tick s))). Qed.

Lemma post_errno_last (P : Z -> sys -> Prop) s : (forall r, r <> 0 -> P r s) -> post (cn_errno can) P s.
Proof. intros HP. by apply HP. Qed.

(** The requests, on a state of which only the fields are known. *)
Definition same s s' : Prop :=
  cn_pd s' = cn_pd s /\ cn_channel s' = cn_channel s /\ cn_cq s' = cn_cq s /\ cn_qp s' = cn_qp s /\ rsp_mr s' = rsp_mr s /\ recv_mr s' = recv_mr s /\
  cqthread s' = cqthread s /\ cm_id s' = cm_id s.
Lemma same_at l n s : same s (at_live l n s).
Proof. done. Qed.
Lemma post_create_same {A} (f : option nat -> V A) P s :
  (forall s1, same s s1 -> live s1 = live s -> tick s1 = S (tick s) -> post (f None) P s1) ->
  (forall s1, same s s1 -> live s1 = {[tick s]} ∪ live s -> tick s1 = S (tick s) -> post (f (Some (tick s))) P s1) ->
  post (m_bind (create can) f) P s.
Proof. intros H1 H2. by apply post_create; [apply H1|apply H2]. Qed.
Lemma post_call_same {A} (f : Z -> V A) P s :
  (forall r s1, same s s1 -> live s1 = live s -> tick s1 = S (tick s) -> post (f r) P s1) -> post (m_bind (cn_call can) f) P s.
Proof. intros Hf. apply post_call. intros r. by apply Hf. Qed.

Ltac cnrec := cbn [live tick at_live upd_field cn_chan cn_alloc cm_channel listener cmthread cm_id cn_pd cn_channel cn_cq cn_qp rsp_mr recv_mr
  cqthread port_lock rdma_port_idx ch_live ch_tick fst snd].
Ltac cnrec_all := unfold live, tick, at_live in *; cbn [upd_field cn_chan cn_alloc cm_channel listener cmthread cm_id cn_pd cn_channel cn_cq cn_qp rsp_mr recv_mr
  cqthread port_lock rdma_port_idx ch_live ch_tick fst snd] in *.

(** * A connection is set up, or nothing is left of it *)

(** The fields that the buffers of a connection do not concern. *)
Definition kept s s' : Prop :=
  cn_pd s' = cn_pd s /\ cn_channel s' = cn_channel s /\ cn_cq s' = cn_cq s /\ cn_qp s' = cn_qp s /\ (tick s <= tick s')%nat.

Lemma post_recvs_kept n i s : post (post_recvs ans n i) (fun _ s' => kept s s' /\ live s' = live s /\ rsp_mr s' = rsp_mr s /\ recv_mr s' = recv_mr s) s.
Proof.
  revert i s. induction n as [|n IH]; intros i s; cbn [post_recvs]; [apply post_return; by split_and!|].
  apply (post_bind_mono _ _ (fun _ s' => kept s s' /\ live s' = live s /\ rsp_mr s' = rsp_mr s /\ recv_mr s' = recv_mr s)).
  - unfold ibv_post_recv, request, on_chan, post, m_bind, gets, modify, mreturn. cbn. destruct (an_post ans _ =? 0); cbn; unfold kept; cnrec_all; split_and!; (done || lia).
  - intros ret s1 ((H1 & H2 & H3 & H4 & H5) & H6 & H7 & H8). case_match; [apply post_return; unfold kept; by split_and!|].
    eapply post_mono; [apply IH|]. intros r s2 ((G1 & G2 & G3 & G4 & G5) & G6 & G7 & G8). unfold kept. split_and!; (congruence || lia).
Qed.

Lemma buffers_ok s : fresh s ->
  post (snap_channel_setup_buffers ans can) (fun r s' => kept s s' /\
    if r =? 0 then exists a b, rsp_mr s' = Some a /\ recv_mr s' = Some b /\ live s' = {[b]} ∪ ({[a]} ∪ live s) /\ (tick s <= a < b)%nat /\ (b < tick s')%nat
    else live s' = live s) s.
Proof.
  intros Hf. unfold snap_channel_setup_buffers. apply post_create; apply post_modify.
  - unfold post, cn_errno, m_bind, gets, mreturn. cbn. rewrite (proj2 (Z.eqb_neq _ 0)) by apply Herr. unfold kept. cnrec_all. split_and!; (done || lia).
  - cbn beta iota. set (a := tick s). assert (a ∉ live s) as Ha by (intros Hin; specialize (Hf _ Hin); subst a; lia). apply post_create; apply post_modify; cbn beta iota.
    + apply post_errno. intros r Hr. apply post_destroy; [cnrec_all; set_solver|]. apply post_return. rewrite (proj2 (Z.eqb_neq r 0) Hr).
      unfold kept. cnrec_all. split_and!; try (done || lia). set_solver.
    + eapply post_bind_mono; [apply post_recvs_kept|]. intros r s3 ((H1 & H2 & H3 & H4 & H5) & H6 & H7 & H8).
      assert (S a ∉ {[a]} ∪ live s) as Hb by (intros [Heq%elem_of_singleton|Hin]%elem_of_union; [lia|]; specialize (Hf _ Hin); subst a; lia).
      cnrec_all. fold a in H5, H6. destruct (Z.eqb_spec r 0) as [->|Hr]; cbn [negb].
      * apply post_return. cbn. unfold kept. split; [unfold tick in *; split_and!; (congruence || lia)|]. exists a, (S a). unfold tick. split_and!; (done || lia || congruence).
      * apply post_destroy; [unfold live; rewrite H6; set_solver|]. apply post_destroy; [cnrec_all; rewrite H6; set_solver|]. apply post_return.
        rewrite (proj2 (Z.eqb_neq r 0) Hr). unfold kept. cnrec_all. split; [split_and!; (congruence || lia)|]. rewrite H6. set_solver.
Qed.

Lemma post_pop {A} k X (f : unit -> V A) P s : live s = {[k]} ∪ X -> below X k ->
  (forall s1, same s s1 -> live s1 = X -> tick s1 = tick s -> post (f tt) P s1) -> post (m_bind (destroy (Some k)) f) P s.
Proof. intros Hl Hb Hf. apply post_destroy; [rewrite Hl; set_solver|]. apply Hf; [apply same_at| |done]. change (live s ∖ {[k]} = X). by rewrite Hl, pop. Qed.
Lemma post_last k X (P : unit -> sys -> Prop) s : live s = {[k]} ∪ X -> below X k ->
  (forall s1, same s s1 -> live s1 = X -> tick s1 = tick s -> P tt s1) -> post (destroy (Some k)) P s.
Proof.
  intros Hl Hb HP. assert (post (m_bind (destroy (Some k)) mreturn) P s) as Hp by (eapply post_pop; [done..|]; intros s1 ???; apply post_return; by apply HP).
  unfold post, m_bind, mreturn in *. by destruct (destroy (Some k) s) as [[s' []]| | |].
Qed.

Lemma post_pop_any {A} k X (f : unit -> V A) P s : live s = {[k]} ∪ X -> k ∉ X ->
  (forall s1, same s s1 -> live s1 = X -> tick s1 = tick s -> post (f tt) P s1) -> post (m_bind (destroy (Some k)) f) P s.
Proof. intros Hl Hb Hf. apply post_destroy; [rewrite Hl; set_solver|]. apply Hf; [apply same_at| |done]. change (live s ∖ {[k]} = X). rewrite Hl. set_solver. Qed.

(** What is left above [l0]: nothing; or the protection domain, when releasing it was refused,
    which is the last request. *)
Definition left_over (l0 : gset nat) s : Prop :=
  live s = l0 \/ exists a, cn_pd s = Some a /\ cna_ret can (pred (tick s)) <> 0 /\ live s = {[a]} ∪ l0.

Lemma post_dealloc {A} k X (f : unit -> V A) P s : cn_pd s = Some k -> live s = {[k]} ∪ X -> k ∉ X ->
  (forall s1, same s s1 -> left_over X s1 -> (tick s <= tick s1)%nat -> post (f tt) P s1) -> post (m_bind (ibv_dealloc_pd can (Some k)) f) P s.
Proof.
  intros Hk Hl HX Hf. assert (k ∈ live s) as Hin by (rewrite Hl; set_solver).
  unfold ibv_dealloc_pd, cn_call, destroy, on_chan, release, request, points_to, m_opt, post, m_bind, gets, modify, mreturn in *. cbn.
  unfold live in Hin. rewrite !bool_decide_true by done. cbn. destruct (Z.eqb_spec (cna_ret can (ch_tick (cn_chan s))) 0) as [Hr|Hr]; cbn.
  - rewrite !bool_decide_true by done. cbn. apply Hf; [done| |cbn; unfold tick; cbn; lia]. left. change (live s ∖ {[k]} = X). rewrite Hl. set_solver.
  - apply Hf; [done| |cbn; unfold tick; cbn; lia]. right. exists k. by split_and!.
Qed.

(** The resources of a connection, in the order of their creation, above those of [l0]. *)
Definition connected (l0 : gset nat) s : Prop := exists a b c d e f g,
  cn_pd s = Some a /\ cn_channel s = Some b /\ cn_cq s = Some c /\ cn_qp s = Some d /\ rsp_mr s = Some e /\ recv_mr s = Some f /\ cqthread s = Some g /\
  below l0 a /\ (a < b < c)%nat /\ (c < d < e)%nat /\ (e < f < g)%nat /\
  live s = {[g]} ∪ ({[f]} ∪ ({[e]} ∪ ({[d]} ∪ ({[c]} ∪ ({[b]} ∪ ({[a]} ∪ l0)))))).

(** The state of a connection that is being set up. *)
Definition has (a b c d : option nat) (l : gset nat) s : Prop := cn_pd s = a /\ cn_channel s = b /\ cn_cq s = c /\ cn_qp s = d /\ live s = l.
Lemma has_same a b c d l l' s s1 : has a b c d l s -> same s s1 -> live s1 = l' -> has a b c d l' s1.
Proof. intros (? & ? & ? & ? & ?) (? & ? & ? & ? & ?) ?. unfold has. split_and!; congruence. Qed.

Definition failed r l0 (n : nat) : Z -> sys -> Prop := fun r' s' => r' = r /\ left_over l0 s' /\ (n <= tick s')%nat.

Lemma err1_ok r l0 a b c d s : has (Some a) b c d ({[a]} ∪ l0) s -> below l0 a -> post (qp_err1 can r) (failed r l0 (tick s)) s.
Proof.
  intros (Ha & _ & _ & _ & Hl) Hb. unfold qp_err1. apply post_gets. cbn [id]. rewrite Ha. eapply post_dealloc; [exact Ha|exact Hl|by apply below_not|].
  intros s1 _ Hl1 Ht. apply post_return. split_and!; (done || lia).
Qed.
Lemma err2_ok r l0 a b c d s : has (Some a) (Some b) c d ({[b]} ∪ ({[a]} ∪ l0)) s -> below l0 a -> (a < b)%nat -> post (qp_err2 can r) (failed r l0 (tick s)) s.
Proof.
  intros Hh Hb Hab. pose proof Hh as (_ & Hc & _ & _ & Hl). unfold qp_err2. apply post_gets. cbn [id]. rewrite Hc. eapply post_pop; [exact Hl|by apply below_add|].
  intros s1 Hs Hl1 <-. eapply err1_ok; [by eapply has_same|done].
Qed.
Lemma err3_ok r l0 a b c d s : has (Some a) (Some b) (Some c) d ({[c]} ∪ ({[b]} ∪ ({[a]} ∪ l0))) s -> below l0 a -> (a < b < c)%nat ->
  post (qp_err3 can r) (failed r l0 (tick s)) s.
Proof.
  intros Hh Hb [Hab Hbc]. pose proof Hh as (_ & _ & Hc & _ & Hl). unfold qp_err3. apply post_gets. cbn [id]. rewrite Hc. eapply post_pop; [exact Hl|by repeat apply below_add|].
  intros s1 Hs Hl1 <-. eapply err2_ok; [by eapply has_same|done..].
Qed.
Lemma err4_ok r l0 a b c d s : has (Some a) (Some b) (Some c) (Some d) ({[d]} ∪ ({[c]} ∪ ({[b]} ∪ ({[a]} ∪ l0)))) s -> below l0 a -> (a < b < c)%nat -> (c < d)%nat ->
  post (qp_err4 can r) (failed r l0 (tick s)) s.
Proof.
  intros Hh Hb [Hab Hbc] Hcd. pose proof Hh as (_ & _ & _ & Hc & Hl). unfold qp_err4, snap_channel_destroy_qp. apply post_assoc, post_gets. cbn [id]. rewrite Hc.
  eapply post_pop; [exact Hl|by repeat apply below_add|]. intros s1 Hs Hl1 <-. eapply err3_ok; [by eapply has_same|done..].
Qed.

(** What setting up a connection on top of [l0], from the name [n] on, may end in. *)
Definition set_up (l0 : gset nat) (n : nat) : Z -> sys -> Prop := fun r s' =>
  (n <= tick s')%nat /\ if r =? 0 then connected l0 s' /\ fresh s' else left_over l0 s'.
Lemma set_up_failed (m : V Z) l0 n r s1 : r <> 0 -> (n <= tick s1)%nat -> post m (failed r l0 (tick s1)) s1 -> post m (set_up l0 n) s1.
Proof. intros Hr Ht Hm. eapply post_mono; [exact Hm|]. intros r' s' (-> & Hl & Ht'). unfold set_up. rewrite (proj2 (Z.eqb_neq r 0) Hr). split; [lia|done]. Qed.

(** The last steps, with the queue pair there: the buffers, and the thread. *)
Definition setup_tail : V Z :=
  let! ret := snap_channel_setup_buffers ans can in
  if negb (ret =? 0) then qp_err4 can ret else
  let! t := create can in
  match t with
  | None => let! ret := cn_errno can in qp_err5 can ret
  | Some _ => do! modify (fun s => s ⦇ cqthread := t ⦈) in mreturn 0
  end.

Lemma setup_tail_ok l0 a b c d s : has (Some a) (Some b) (Some c) (Some d) ({[d]} ∪ ({[c]} ∪ ({[b]} ∪ ({[a]} ∪ l0)))) s -> below l0 a -> (a < b < c)%nat ->
  (c < d < tick s)%nat -> post setup_tail (set_up l0 a) s.
Proof.
  intros Hh Hb [Hab Hbc] [Hcd Ht]. pose proof Hh as (Ea & Eb & Ec & Ed & El).
  assert (fresh s) as Hf by (unfold fresh; rewrite El; apply (below_mono _ (S d)); [repeat apply below_add; (exact Hb || lia)|lia]).
  unfold setup_tail. eapply post_bind_mono; [by apply buffers_ok|]. intros r s5 ((H1 & H2 & H3 & H4 & H5) & Hcase). rewrite Ea in H1. rewrite Eb in H2. rewrite Ec in H3. rewrite Ed in H4.
  destruct (Z.eqb_spec r 0) as [->|Hr]; cbn [negb].
  2: { apply (set_up_failed _ _ _ r); [done|lia|]. eapply err4_ok; [by split_and!; [..|by rewrite Hcase]|done|lia|lia]. }
  destruct Hcase as (e & f & He & Hf' & El5 & Hef & Hft). rewrite El in El5.
  assert (below (live s5) (tick s5)) as Hb5 by (rewrite El5; apply (below_mono _ (S f)); [repeat apply below_add; (exact Hb || lia)|lia]).
  apply post_create_same; cbn beta iota; intros s6 (Ga & Gb & Gc & Gd & Ge & Gf & Gg & _) Gl Gt.
  - apply post_errno. intros r Hr. apply (set_up_failed _ _ _ r); [done|lia|]. unfold qp_err5, snap_channel_clean_buffers. apply post_assoc, post_gets. cbn [id].
    rewrite Gf, Ge, Hf', He. apply post_assoc. eapply post_pop; [by rewrite Gl|repeat apply below_add; (exact Hb || lia)|]. intros s7 Hs7 Gl7 <-.
    eapply post_pop; [exact Gl7|repeat apply below_add; (exact Hb || lia)|]. intros s8 Hs8 Gl8 <-.
    apply (err4_ok r l0 a b c d); [|exact Hb|lia|lia]. eapply has_same; [|exact Hs8|exact Gl8]. eapply has_same; [|exact Hs7|reflexivity].
    split_and!; congruence || done.
  - apply post_modify, post_return. split; [change (a <= tick s6)%nat; lia|]. split.
    + exists a, b, c, d, e, f, (tick s5). split_and!; try (done || lia); try (etrans; [eassumption|done]). by etrans; [exact Gl|rewrite El5].
    + change (below (live s6) (tick s6)). rewrite Gl. apply below_add; [done|lia].
Qed.

(** The steps before: each makes one thing more, and stores it. *)
Lemma post_make {A} (upd : option nat -> sys -> sys) (f : option nat -> V A) P s :
  (forall s1, same s s1 -> live s1 = live s -> tick s1 = S (tick s) -> post (f None) P (upd None s1)) ->
  (forall s1, same s s1 -> live s1 = {[tick s]} ∪ live s -> tick s1 = S (tick s) -> post (f (Some (tick s))) P (upd (Some (tick s)) s1)) ->
  post (let! x := create can in do! modify (upd x) in f x) P s.
Proof. intros H1 H2. apply post_create_same; intros s1 Hs Hl Ht; apply post_modify; auto. Qed.
Lemma post_next {A} (m : V A) P a b c d l n s : has a b c d l s -> tick s = n -> (forall s1, has a b c d l s1 -> tick s1 = n -> post m P s1) -> post m P s.
Proof. eauto. Qed.

(** A connection is there with all it needs, or nothing of it is. *)
Lemma setup_ok s : fresh s -> post (snap_channel_setup_qp ans can) (set_up (live s) (tick s)) s.
Proof.
  intros Hb. change (below (live s) (tick s)) in Hb. unfold snap_channel_setup_qp.
  apply (post_make (fun x s => s ⦇ cn_pd := x ⦈)); intros s0 Hs0 Hl0 Ht0; cbn beta iota.
  { apply post_errno_last. intros r Hr. split; [change (tick s <= tick s0)%nat; lia|]. rewrite (proj2 (Z.eqb_neq r 0) Hr). by left. }
  set (a := tick s) in *. eapply (post_next _ _ (Some a) _ _ _ ({[a]} ∪ live s) (S a)); [split_and!; (reflexivity || done)|done|].
  intros s1 (E1 & _ & _ & _ & El1) Hu1. clear s0 Hs0 Hl0 Ht0.
  apply (post_make (fun x s => s ⦇ cn_channel := x ⦈)); intros s0 (H1 & _) Hl0 Ht0; cbn beta iota; rewrite Hu1 in *; rewrite El1 in Hl0; rewrite E1 in H1.
  { apply post_errno. intros r Hr. apply (set_up_failed _ _ _ r); [done|change (a <= tick s0)%nat; lia|]. by eapply err1_ok; [split_and!; (reflexivity || done)|]. }
  eapply (post_next _ _ (Some a) (Some (S a)) _ _ ({[S a]} ∪ ({[a]} ∪ live s)) (S (S a))); [split_and!; (reflexivity || done)|done|].
  clear Hu1. intros s2 (E2 & E3 & _ & _ & El2) Hu2. clear s0 H1 Hl0 Ht0 s1 E1 El1.
  apply (post_make (fun x s => s ⦇ cn_cq := x ⦈)); intros s0 (H1 & H2 & _) Hl0 Ht0; cbn beta iota; rewrite Hu2 in *; rewrite El2 in Hl0; rewrite E2 in H1; rewrite E3 in H2.
  { apply post_errno. intros r Hr. apply (set_up_failed _ _ _ r); [done|change (a <= tick s0)%nat; lia|]. eapply err2_ok; [split_and!; (reflexivity || done)|done|lia]. }
  eapply (post_next _ _ (Some a) (Some (S a)) (Some (S (S a))) _ ({[S (S a)]} ∪ ({[S a]} ∪ ({[a]} ∪ live s))) (S (S (S a)))); [split_and!; (reflexivity || done)|done|].
  clear Hu2. intros s1 Hh1 Hu1. clear H1 H2 Hl0 Ht0 E2 E3 El2. apply post_call_same. clear s2. intros r0 s2 Hs2 Hl2 Ht2.
  pose proof (has_same _ _ _ _ _ _ _ _ Hh1 Hs2 eq_refl) as Hh2. rewrite Hl2, (proj2 (proj2 (proj2 (proj2 Hh1)))) in Hh2. clear Hs2 Hh1.
  destruct (r0 =? 0); cbn [negb].
  2: { apply post_errno. intros r Hr. apply (set_up_failed _ _ _ r); [done|lia|]. eapply err3_ok; [exact Hh2|done|lia]. }
  unfold snap_channel_create_qp. apply post_assoc, post_create_same; cbn beta iota; intros s3 Hs3 Hl3 Ht3.
  { apply post_errno. intros r Hr. rewrite (proj2 (Z.eqb_neq r 0) Hr). cbn [negb]. apply (set_up_failed _ _ _ r); [done|lia|].
    eapply err3_ok; [eapply has_same; [exact Hh2|exact Hs3|]|done|lia]. by rewrite Hl3, (proj2 (proj2 (proj2 (proj2 Hh2)))). }
  apply post_assoc, post_modify, post_bind, post_return. cbn [Z.eqb negb]. fold setup_tail. destruct Hs3 as (H1 & H2 & H3 & _). destruct Hh2 as (E1 & E2 & E3 & _ & El).
  rewrite El in Hl3. apply (setup_tail_ok _ a (S a) (S (S a)) (tick s2)); [|done|lia|change (S (S a) < tick s2 < tick s3)%nat; lia].
  split_and!; [by etrans; [exact H1|]|by etrans; [exact H2|]|by etrans; [exact H3|]|done|exact Hl3].
Qed.

(** What a connection made is released, also when more was made since. *)
Lemma connected_more l0 s0 s : connected l0 s0 -> same s0 s -> live s0 ⊆ live s ->
  exists a b c d e f g, let Y := (live s ∖ live s0) ∪ l0 in
    cn_pd s = Some a /\ cn_channel s = Some b /\ cn_cq s = Some c /\ cn_qp s = Some d /\ rsp_mr s = Some e /\ recv_mr s = Some f /\ cqthread s = Some g /\
    NoDup [g; f; e; d; c; b; a] /\ (forall k, k ∈ [g; f; e; d; c; b; a] -> k ∉ Y) /\
    live s = {[g]} ∪ ({[f]} ∪ ({[e]} ∪ ({[d]} ∪ ({[c]} ∪ ({[b]} ∪ ({[a]} ∪ Y)))))).
Proof.
  intros (a & b & c & d & e & f & g & Ea & Eb & Ec & Ed & Ee & Ef & Eg & Hb & Habc & Hcde & Hefg & El) (H1 & H2 & H3 & H4 & H5 & H6 & H7 & _) Hsub.
  exists a, b, c, d, e, f, g. cbv zeta. split_and!; try congruence.
  - repeat (apply NoDup_cons; split; [set_unfold; lia|]). apply NoDup_nil_2.
  - intros k Hk. assert (k ∈ live s0) as Hin by (rewrite El; set_unfold; intuition congruence).
    assert (k ∉ l0) by (intros Hl; specialize (Hb k Hl); clear -Hk Hb Habc Hcde Hefg; set_unfold; lia). set_solver.
  - apply set_eq. intros x. destruct (decide (x ∈ live s0)) as [Hx|Hx]; [|clear -Hx El; set_solver].
    split; [intros _; rewrite El in Hx; clear -Hx; set_solver|intros _; by apply Hsub].
Qed.

Lemma clean_ok l0 s0 s : connected l0 s0 -> same s0 s -> live s0 ⊆ live s ->
  post (snap_channel_clean_qp can) (fun _ s' => left_over ((live s ∖ live s0) ∪ l0) s' /\ cm_id s' = cm_id s) s.
Proof.
  intros Hc Hs Hsub. destruct (connected_more _ _ _ Hc Hs Hsub) as (a & b & c & d & e & f & g & Ea & Eb & Ec & Ed & Ee & Ef & Eg & Hnd & HY & El).
  set (Y := _ ∪ l0) in *. clearbody Y. clear Hc Hs Hsub.
  rewrite !NoDup_cons in Hnd. destruct Hnd as (Ng & Nf & Ne & Nd & Nc & Nb & _).
  unfold snap_channel_clean_qp, snap_channel_clean_buffers, snap_channel_destroy_qp. apply post_gets. cbn [id]. rewrite Ea, Eb, Ec, Eg.
  eapply post_pop_any; [exact El|apply (names_not g [f; e; d; c; b; a]); [done|apply HY; left]|]. intros s1 (Ga & _ & _ & Gd & Ge & Gf & _ & Gi) Hl1 _.
  apply post_assoc, post_gets. cbn [id]. rewrite Gf, Ge, Ef, Ee. apply post_assoc.
  eapply post_pop_any; [exact Hl1|apply (names_not f [e; d; c; b; a]); [done|apply HY; do 1 right; left]|]. intros s2 (Ga2 & _ & _ & Gd2 & _ & _ & _ & Gi2) Hl2 _.
  eapply post_pop_any; [exact Hl2|apply (names_not e [d; c; b; a]); [done|apply HY; do 2 right; left]|]. intros s3 (Ga3 & _ & _ & Gd3 & _ & _ & _ & Gi3) Hl3 _.
  apply post_assoc, post_gets. cbn [id]. rewrite Gd3, Gd2, Gd, Ed.
  eapply post_pop_any; [exact Hl3|apply (names_not d [c; b; a]); [done|apply HY; do 3 right; left]|]. intros s4 (Ga4 & _ & _ & _ & _ & _ & _ & Gi4) Hl4 _.
  eapply post_pop_any; [exact Hl4|apply (names_not c [b; a]); [done|apply HY; do 4 right; left]|]. intros s5 (Ga5 & _ & _ & _ & _ & _ & _ & Gi5) Hl5 _.
  eapply post_pop_any; [exact Hl5|apply (names_not b [a]); [done|apply HY; do 5 right; left]|]. intros s6 (Ga6 & _ & _ & _ & _ & _ & _ & Gi6) Hl6 _.
  assert (post (m_bind (ibv_dealloc_pd can (Some a)) mreturn) (fun _ s' => left_over Y s' /\ cm_id s' = cm_id s) s6) as Hp.
  { eapply post_dealloc; [congruence|exact Hl6|apply HY; do 6 right; left|]. intros s7 (_ & _ & _ & _ & _ & _ & _ & Gi7) Hl7 _. apply post_return. split; [done|congruence]. }
  unfold post, m_bind, mreturn in *. by destruct (ibv_dealloc_pd can (Some a) s6) as [[s' []]| | |].
Qed.

(** C37: What a connection leaves behind, whatever request fails.  A request for a connection
    comes with an identifier, the child of the listener.  If setting up the connection or
    accepting it fails, at whatever step, then all that was created for it is destroyed, each
    thing once, except the identifier, and the protection domain if the device refuses to
    release it.  If it succeeds, the disconnection destroys, in any later state that still has
    the resources of the connection in its fields, exactly these resources, with the same two
    exceptions: what was made in between, such as the memory regions that commands registered,
    stays; so does the identifier, although the handler returns -1 for it to be destroyed. *)
Theorem connection_released s : fresh s -> let child := tick s in
  exists r s1, cm_thread_turn ans can GotRequest s = Ok (s1, r) /\
    if r =? 0 then
      cm_id s1 = Some child /\ child ∈ live s1 /\
      forall s1', same s1 s1' -> live s1 ⊆ live s1' ->
        exists s2, cm_thread_turn ans can (GotEvent child RDMA_CM_EVENT_DISCONNECTED) s1' = Ok (s2, -1) /\
          left_over ((live s1' ∖ live s1) ∪ ({[child]} ∪ live s)) s2
    else left_over ({[child]} ∪ live s) s1.
Proof.
  intros Hf child.
  set (s0 := at_live ({[child]} ∪ live s) (S child) s).
  assert (fresh s0) as Hf0 by (apply (below_add (live s) child (S child)); [exact Hf|lia]).
  assert (cm_thread_turn ans can GotRequest s = snap_channel_cm_event_handler ans can child RDMA_CM_EVENT_CONNECT_REQUEST s0) as Hrun
    by (destruct s as [[] ? ? ? ? ? ? ? ? ? ? ? ? ? ?]; reflexivity).
  assert (child ∈ live s0) as Hch by (change (child ∈ {[child]} ∪ live s); set_solver).
  rewrite Hrun. change ({[child]} ∪ live s) with (live s0). clearbody s0. clear Hrun.
  match goal with |- exists r s1, _ = _ /\ @?Q r s1 => enough (post (snap_channel_cm_event_handler ans can child RDMA_CM_EVENT_CONNECT_REQUEST) Q s0)
    as (s1 & r & ? & ?)%post_run by eauto end.
  cbn [snap_channel_cm_event_handler]. eapply post_bind_mono; [by apply setup_ok|]. intros r s1 [_ Hcase].
  destruct (Z.eqb_spec r 0) as [->|Hr]; cbn [negb]; [|apply post_return; by rewrite (proj2 (Z.eqb_neq r 0) Hr)].
  destruct Hcase as [Hc Hf1]. apply post_modify, post_call. intros r.
  match goal with |- post _ _ ?z => set (sa := z) end. assert (connected (live s0) sa) as Hsa by exact Hc. assert (cm_id sa = Some child) as Hid by done. clearbody sa.
  destruct (Z.eqb_spec r 0) as [->|Hr]; cbn [negb].
  - apply post_return. cbn [Z.eqb]. split_and!; [done| |].
    + destruct Hsa as (? & ? & ? & ? & ? & ? & ? & _ & _ & _ & _ & _ & _ & _ & _ & _ & _ & _ & ->). clear -Hch. set_solver.
    + intros s1' Hs Hsub. destruct (post_run _ _ _ (clean_ok _ _ _ Hsa Hs Hsub)) as (s2 & [] & Hrun & Hl & Hid2). exists s2. split; [|done].
      cbn [cm_thread_turn snap_channel_cm_event_handler]. unfold m_bind. rewrite Hrun. cbn [res_bind gets]. cbn [id mreturn].
      rewrite Hid2. destruct Hs as (_ & _ & _ & _ & _ & _ & _ & ->). by rewrite Hid, bool_decide_true.
  - eapply post_bind_mono; [eapply (clean_ok (live s0) sa sa); done|]. intros _ s2 (Hl & _). apply post_return. rewrite (proj2 (Z.eqb_neq r 0) Hr).
    by replace (live sa ∖ live sa ∪ live s0) with (live s0) in Hl by set_solver.
Qed.

End ConnProps.
