(* ===== verification/ChanOpen.v ===== *)
(** Opening and closing the migration channel: whatever fails, what was made is released; but
    the lock of the ports stays held when the variable of the port is not set, and the next
    channel is never opened. *)

From stdpp Require Import gmap.
From S2P Require Import Prelude Effects Chan ChanConn ChanConnProps.

Section Open.
Context {W : Type} `{!MigOps W} (can : conn_answers).
#[local] Abbreviation sys := (conn W).
#[local] Abbreviation V := (M sys).
Implicit Types (s : sys) (l : gset nat).

(** A channel that is being opened: the structure was just allocated, and of it the locks and
    three fields are set. *)
Record stage := mk_stage {
  sg_alloc : bool; sg_state : mutex; sg_dirty : mutex; sg_copy : mutex; sg_cm : option nat; sg_listener : option nat; sg_thread : option nat;
  sg_live : gset nat; sg_tick : nat; sg_port : mutex; sg_idx : Z
}.
Definition at_stage (w : W) (h : gmap nat cbuf) (g : stage) : sys :=
  mk_conn (mk_chan w (mk_dirty 0 0 0 (sg_dirty g) None 0 (sg_copy g) None None) (mk_istate 0 (sg_state g) None None)
      (replicate 64 (mk_cqe 0 0 0)) (replicate 64 0) (replicate 64 (mk_cmd 0 0 0 0 0 0 0)) h (sg_live g) (sg_tick g) [] [] [])
    (sg_alloc g) (sg_cm g) (sg_listener g) (sg_thread g) None None None None None None None None (sg_port g) (sg_idx g).

Context (w : W) (h : gmap nat cbuf).
#[local] Abbreviation st := (at_stage w h).

Lemma stage_run {A B} g g' (m : V A) a (f : A -> V B) P : m (st g) = Ok (st g', a) -> post (f a) P (st g') -> post (m_bind m f) P (st g).
Proof. intros Hm Hf. unfold post, m_bind. by rewrite Hm. Qed.
Lemma stage_create {B} (f : option nat -> V B) P a x y z c li t l n pl i :
  post (f None) P (st (mk_stage a x y z c li t l (S n) pl i)) -> post (f (Some n)) P (st (mk_stage a x y z c li t ({[n]} ∪ l) (S n) pl i)) ->
  post (m_bind (create can) f) P (st (mk_stage a x y z c li t l n pl i)).
Proof. intros H1 H2. unfold create, on_chan, acquire, request, post, m_bind, gets, modify, mreturn in *. cbn in *. by destruct (cna_make can n). Qed.
Lemma stage_call {B} (f : Z -> V B) P a x y z c li t l n pl i :
  (forall r, post (f r) P (st (mk_stage a x y z c li t l (S n) pl i))) -> post (m_bind (cn_call can) f) P (st (mk_stage a x y z c li t l n pl i)).
Proof. intros Hf. exact (Hf (cna_ret can n)). Qed.
Lemma stage_destroy {B} k (f : unit -> V B) P a x y z c li t l n pl i : below l k ->
  post (f tt) P (st (mk_stage a x y z c li t l n pl i)) -> post (m_bind (destroy (Some k)) f) P (st (mk_stage a x y z c li t ({[k]} ∪ l) n pl i)).
Proof.
  intros Hb Hf. unfold destroy, on_chan, release, points_to, m_opt, post, m_bind, gets, modify, mreturn in *. cbn -[union singleton difference] in *.
  rewrite bool_decide_true by set_solver. cbn -[union singleton difference]. by rewrite pop.
Qed.

(** The ends of [snap_rdma_channel_open], each on top of what it releases. *)
Definition gone l pl i : bool -> sys -> Prop := fun r s' => r = false /\ live s' = l /\ ch_heap (cn_chan s') = h /\ cn_alloc s' = false /\ port_lock s' = pl /\ rdma_port_idx s' = i.
Lemma out_free_ok x y z c li t l n pl i : post out_free (gone l pl i) (st (mk_stage true x y z c li t l n pl i)).
Proof. done. Qed.
Lemma out_reset_state_ok y z c li t l n pl i : post out_reset_state (gone l pl i) (st (mk_stage true MFree y z c li t l n pl i)).
Proof. done. Qed.
Lemma reset_dirty_run a x c li t l n pl i :
  snap_channel_reset_dirty_pages (st (mk_stage a x MFree MFree c li t l n pl i)) = Ok (st (mk_stage a x MDead MDead c li t l n pl i), tt).
Proof. by vm_compute. Qed.
Lemma out_reset_dirty_pages_ok c li t l n pl i : post out_reset_dirty_pages (gone l pl i) (st (mk_stage true MFree MFree MFree c li t l n pl i)).
Proof.
  unfold out_reset_dirty_pages, post, m_bind. rewrite reset_dirty_run. cbn [res_bind]. apply out_reset_state_ok.
Qed.
Lemma out_free_cm_channel_ok c li t l n pl i : below l c ->
  post out_free_cm_channel (gone l pl i) (st (mk_stage true MFree MFree MFree (Some c) li t ({[c]} ∪ l) n pl i)).
Proof. intros Hb. unfold out_free_cm_channel. apply post_gets. apply stage_destroy; [done|]. apply out_reset_dirty_pages_ok. Qed.
Lemma out_destroy_id_ok c li t l n pl i : below l c -> (c < li)%nat ->
  post out_destroy_id (gone l pl i) (st (mk_stage true MFree MFree MFree (Some c) (Some li) t ({[li]} ∪ ({[c]} ∪ l)) n pl i)).
Proof. intros Hb Hc. unfold out_destroy_id. apply post_gets. apply stage_destroy; [by apply below_add|]. by apply out_free_cm_channel_ok. Qed.
Lemma out_free_cmthread_ok c li t l n pl i : below l c -> (c < li < t)%nat ->
  post out_free_cmthread (gone l pl i) (st (mk_stage true MFree MFree MFree (Some c) (Some li) (Some t) ({[t]} ∪ ({[li]} ∪ ({[c]} ∪ l))) n pl i)).
Proof. intros Hb [Hc Ht]. unfold out_free_cmthread. apply post_gets. apply stage_destroy; [by repeat apply below_add|]. by apply out_destroy_id_ok. Qed.

(** A mutex is initialised. *)
Lemma stage_init {B} m (f : Z -> V B) P a x y z c li t l n pl i :
  (forall r, r <> 0 -> post (f r) P (st (mk_stage a x y z c li t l (S n) pl i))) ->
  post (f 0) P (st (match m with StateLock => mk_stage a MFree y z c li t l (S n) pl i | DirtyLock => mk_stage a x MFree z c li t l (S n) pl i
                   | CopyLock => mk_stage a x y MFree c li t l (S n) pl i end)) ->
  post (m_bind (pthread_mutex_init can m) f) P (st (mk_stage a x y z c li t l n pl i)).
Proof.
  intros H1 H2. unfold pthread_mutex_init. apply post_assoc, stage_call. intros r. destruct (Z.eqb_spec r 0) as [->|Hr]; cbn [negb].
  - destruct m; exact H2.
  - by apply post_bind, post_return, H1.
Qed.

(** * The result *)

(** The variable of the next port is set. *)
Definition port_set (i : Z) : Prop := (if i =? 0 then cna_port1 can else cna_port2 can) = true.
(** What opening a channel on top of [l] may end in: a channel whose end releases what it made,
    or nothing. *)
Definition opens l : bool -> sys -> Prop := fun b s1 =>
  port_lock s1 = MFree /\ ch_heap (cn_chan s1) = h /\
  if b then exists s2, snap_rdma_channel_close s1 = Ok (s2, tt) /\ live s2 = l /\ ch_heap (cn_chan s2) = h /\ cn_alloc s2 = false
  else live s1 = l /\ cn_alloc s1 = false.
Lemma gone_opens (m : V bool) l i s : post m (gone l MFree i) s -> post m (opens l) s.
Proof. intros Hm. eapply post_mono; [exact Hm|]. intros b s1 (-> & ? & ? & ? & ? & ?). by split_and!. Qed.

Lemma close_ok c li t l n i : below l c -> (c < li < t)%nat ->
  opens l true (st (mk_stage true MFree MFree MFree (Some c) (Some li) (Some t) ({[t]} ∪ ({[li]} ∪ ({[c]} ∪ l))) n MFree i)).
Proof.
  intros Hb [Hc Ht]. split_and!; [done..|].
  enough (post snap_rdma_channel_close (fun _ s2 => live s2 = l /\ ch_heap (cn_chan s2) = h /\ cn_alloc s2 = false)
    (st (mk_stage true MFree MFree MFree (Some c) (Some li) (Some t) ({[t]} ∪ ({[li]} ∪ ({[c]} ∪ l))) n MFree i))) as (s2 & [] & ? & ?)%post_run by eauto.
  unfold snap_rdma_channel_close. apply post_gets. apply stage_destroy; [by repeat apply below_add|]. apply stage_destroy; [by repeat apply below_add|].
  apply stage_destroy; [done|]. unfold post, m_bind. rewrite reset_dirty_run. by cbn [res_bind].
Qed.

End Open.

Section Channel.
Context {W : Type} `{!MigOps W}.
#[local] Abbreviation sys := (conn W).
Implicit Types (s : sys) (can : conn_answers).

Lemma post_calloc_chan {B} (f : bool -> M sys B) P can s : post (f false) P (at_live (live s) (S (tick s)) s) ->
  post (f true) P (at_stage (ch_env (cn_chan s)) (ch_heap (cn_chan s))
    (mk_stage true MDead MDead MDead None None None (live s) (S (tick s)) (port_lock s) (rdma_port_idx s))) ->
  post (m_bind (calloc_chan can) f) P s.
Proof.
  intros H1 H2. unfold calloc_chan, on_chan, request, post, m_bind, gets, modify, mreturn in *. cbn in *.
  destruct (cna_make can (ch_tick (cn_chan s))); cbn; [exact H2|]. destruct s as [[] ? ? ? ? ? ? ? ? ? ? ? ? ? ?]; exact H1.
Qed.

(** The steps after the locks are there. *)
Definition made (c li t : option nat) l n pl i (w : W) (h : gmap nat cbuf) : sys := at_stage w h (mk_stage true MFree MFree MFree c li t l n pl i).
Lemma made_run {A B} (m : M sys A) a (f : A -> M sys B) P s1 s2 : m s1 = Ok (s2, a) -> post (f a) P s2 -> post (m_bind m f) P s1.
Proof. intros Hm Hf. unfold post, m_bind. by rewrite Hm. Qed.

(** The last steps of [snap_rdma_channel_open]: the address. *)
Definition open_listen can : M sys bool :=
  if negb (cna_ip can) then out_free_cmthread
  else
    do! lock_port in
    let! idx := gets rdma_port_idx in
    if negb (if idx =? 0 then cna_port1 can else cna_port2 can) then out_free_cmthread
    else
      do! modify (fun s => s ⦇ rdma_port_idx := idx + 1 ⦈) in
      do! unlock_port in
      let! ret := cn_call can in
      if negb (ret =? 0) then out_free_cmthread
      else
        let! ret := snap_channel_bind_id can in
        if negb (ret =? 0) then out_free_cmthread else mreturn true.

Lemma open_listen_ok can w h c li t l n i : below l c -> (c < li < t)%nat -> port_set can i ->
  post (open_listen can) (opens h l) (made (Some c) (Some li) (Some t) ({[t]} ∪ ({[li]} ∪ ({[c]} ∪ l))) n MFree i w h).
Proof.
  intros Hb Ht Hi. set (l' := {[t]} ∪ _). unfold port_set in Hi.
  assert (forall k i, post out_free_cmthread (opens h l) (made (Some c) (Some li) (Some t) l' k MFree i w h)) as Hfail
    by (intros k j; apply (gone_opens _ _ _ j); by apply out_free_cmthread_ok).
  unfold open_listen. destruct (cna_ip can); cbn [negb]; [|apply Hfail].
  apply (made_run _ tt _ _ _ (made (Some c) (Some li) (Some t) l' n MHeld i w h)); [done|]. apply post_gets. cbn [rdma_port_idx made at_stage sg_idx]. rewrite Hi. cbn [negb].
  apply (made_run _ tt _ _ _ (made (Some c) (Some li) (Some t) l' n MHeld (i + 1) w h)); [done|].
  apply (made_run _ tt _ _ _ (made (Some c) (Some li) (Some t) l' n MFree (i + 1) w h)); [done|]. unfold made at 1.
  apply stage_call. intros r1. destruct (r1 =? 0); cbn [negb]; [|apply Hfail]. unfold snap_channel_bind_id.
  apply post_assoc, stage_call. intros r2. destruct (Z.eqb_spec r2 0) as [->|Hr]; cbn [negb].
  2: { apply post_bind, post_return. rewrite (proj2 (Z.eqb_neq r2 0) Hr). cbn [negb]. apply Hfail. }
  apply post_assoc, stage_call. intros r3. destruct (Z.eqb_spec r3 0) as [->|Hr]; cbn [negb].
  2: { apply post_bind, post_return. rewrite (proj2 (Z.eqb_neq r3 0) Hr). cbn [negb]. apply Hfail. }
  apply post_bind, post_return. cbn [negb Z.eqb]. apply post_return. by apply close_ok.
Qed.

Lemma open_made can w h l n i : below l n -> port_set can i ->
  post (let! c := create can in
        do! modify (fun s => s ⦇ cm_channel := c ⦈) in
        match c with
        | None => out_reset_dirty_pages
        | Some _ =>
            let! l := create can in
            do! modify (fun s => s ⦇ listener := l ⦈) in
            match l with
            | None => out_free_cm_channel
            | Some _ =>
                let! t := create can in
                do! modify (fun s => s ⦇ cmthread := t ⦈) in
                match t with None => out_destroy_id | Some _ => open_listen can end
            end
        end) (opens h l) (made None None None l n MFree i w h).
Proof.
  intros Hb Hi. unfold made.
  apply stage_create; cbn beta.
  { apply (made_run _ tt _ _ _ (made None None None l (S n) MFree i w h)); [done|]. apply (gone_opens _ _ _ i), out_reset_dirty_pages_ok. }
  apply (made_run _ tt _ _ _ (made (Some n) None None ({[n]} ∪ l) (S n) MFree i w h)); [done|]. unfold made. apply stage_create; cbn beta.
  { apply (made_run _ tt _ _ _ (made (Some n) None None ({[n]} ∪ l) (S (S n)) MFree i w h)); [done|]. by apply (gone_opens _ _ _ i), out_free_cm_channel_ok. }
  apply (made_run _ tt _ _ _ (made (Some n) (Some (S n)) None ({[S n]} ∪ ({[n]} ∪ l)) (S (S n)) MFree i w h)); [done|]. unfold made. apply stage_create; cbn beta.
  { apply (made_run _ tt _ _ _ (made (Some n) (Some (S n)) None ({[S n]} ∪ ({[n]} ∪ l)) (S (S (S n))) MFree i w h)); [done|].
    apply (gone_opens _ _ _ i), out_destroy_id_ok; [done|lia]. }
  apply (made_run _ tt _ _ _ (made (Some n) (Some (S n)) (Some (S (S n))) ({[S (S n)]} ∪ ({[S n]} ∪ ({[n]} ∪ l))) (S (S (S n))) MFree i w h)); [done|].
  apply open_listen_ok; [done|lia|done].
Qed.

(** A channel is opened with all it needs, or nothing of it is left: whatever request
    fails, everything that was made before is destroyed, each thing once, the structure is
    freed, and the lock of the ports is free; and closing a channel that was opened destroys
    what opening it made.  The variable of the port has to be set. *)
Theorem open_close_released can s : fresh s -> cn_alloc s = false -> port_lock s = MFree -> port_set can (rdma_port_idx s) ->
  exists b s1, snap_rdma_channel_open can true s = Ok (s1, b) /\ port_lock s1 = MFree /\ ch_heap (cn_chan s1) = ch_heap (cn_chan s) /\
    if b then exists s2, snap_rdma_channel_close s1 = Ok (s2, tt) /\ live s2 = live s /\ ch_heap (cn_chan s2) = ch_heap (cn_chan s) /\ cn_alloc s2 = false
    else live s1 = live s /\ cn_alloc s1 = false.
Proof.
  intros Hf Ha Hp Hport. enough (post (snap_rdma_channel_open can true) (opens (ch_heap (cn_chan s)) (live s)) s) as (s1 & b & ? & ?)%post_run by eauto.
  unfold snap_rdma_channel_open. cbn [negb]. apply post_calloc_chan; cbn [negb]; [apply post_return; by split_and!|].
  rewrite Hp. generalize (ch_env (cn_chan s)) (ch_heap (cn_chan s)) (rdma_port_idx s) Hport. intros w h i Hi.
  assert (below (live s) (S (tick s))) as Hb by (apply (below_mono _ (tick s)); [exact Hf|lia]). revert Hb. generalize (live s) (S (tick s)). clear Hf Ha Hp Hport. intros l n Hb.
  unfold snap_channel_init_internal_state. apply post_assoc.
  apply (stage_run _ _ _ (mk_stage true MDead MDead MDead None None None l n MFree i) _ tt); [by vm_compute|]. apply stage_init; [|cbn [negb Z.eqb]].
  { intros r Hr. rewrite (proj2 (Z.eqb_neq r 0) Hr). cbn [negb]. apply (gone_opens _ _ _ i), out_free_ok. }
  unfold snap_channel_init_dirty_pages. apply post_assoc.
  apply (stage_run _ _ (mk_stage true MFree MDead MDead None None None l (S n) MFree i) (mk_stage true MFree MDead MDead None None None l (S n) MFree i) _ tt); [by vm_compute|].
  apply post_assoc, stage_init.
  { intros r Hr. rewrite (proj2 (Z.eqb_neq r 0) Hr). cbn [negb]. apply post_bind, post_return. rewrite (proj2 (Z.eqb_neq r 0) Hr). cbn [negb]. apply (gone_opens _ _ _ i), out_reset_state_ok. }
  cbn [negb Z.eqb]. apply post_assoc, stage_init.
  { intros r Hr. rewrite (proj2 (Z.eqb_neq r 0) Hr). cbn [negb]. apply post_assoc.
    apply (stage_run _ _ _ (mk_stage true MFree MDead MDead None None None l (S (S (S n))) MFree i) _ tt); [by vm_compute|].
    apply post_bind, post_return. rewrite (proj2 (Z.eqb_neq r 0) Hr). cbn [negb]. apply (gone_opens _ _ _ i), out_reset_state_ok. }
  cbn [negb Z.eqb]. apply post_bind, post_return. cbn [negb Z.eqb].
  apply open_made; [|done]. apply (below_mono _ n); [done|lia].
Qed.

(** ** A port that is not set *)

(** Every request succeeds, and the address is set. *)
Definition succeeds can : Prop := (forall k, cna_make can k = true) /\ (forall k, cna_ret can k = 0) /\ cna_ip can = true.

(** Then only the port is left to decide. *)
Definition open_port can : M sys bool :=
  do! lock_port in
  let! idx := gets rdma_port_idx in
  if negb (if idx =? 0 then cna_port1 can else cna_port2 can) then out_free_cmthread
  else
    do! modify (fun s => s ⦇ rdma_port_idx := idx + 1 ⦈) in
    do! unlock_port in
    let! ret := cn_call can in
    if negb (ret =? 0) then out_free_cmthread
    else
      let! ret := snap_channel_bind_id can in
      if negb (ret =? 0) then out_free_cmthread else mreturn true.

Lemma open_reaches_port can s : succeeds can ->
  exists n, (tick s <= n)%nat /\
  snap_rdma_channel_open can true s =
    open_port can (made (Some n) (Some (S n)) (Some (S (S n))) ({[S (S n)]} ∪ ({[S n]} ∪ ({[n]} ∪ live s))) (S (S (S n))) (port_lock s) (rdma_port_idx s)
      (ch_env (cn_chan s)) (ch_heap (cn_chan s))).
Proof.
  intros (Hm & Hr & Hip). exists (S (S (S (S (tick s))))). split; [lia|].
  unfold snap_rdma_channel_open, calloc_chan, snap_channel_init_internal_state, snap_channel_init_dirty_pages, pthread_mutex_init, create, cn_call, on_chan, acquire, request,
    set_mutex, upd_dirty, upd_istate, m_bind, gets, modify, mreturn, made, at_stage, blank_chan, live, tick.
  cbn -[union singleton replicate open_port]. repeat ((rewrite Hm || rewrite Hr); cbn -[union singleton replicate open_port]). rewrite Hip. reflexivity.
Qed.

(** If the variable of the port is not set, opening a channel fails and releases what it
    made, but the lock of the ports stays held: from then on, with whatever the variables are
    set to, opening a channel does not return, since it waits for that lock. *)
Theorem missing_port_blocks can can' s : fresh s -> port_lock s = MFree -> succeeds can -> ~ port_set can (rdma_port_idx s) -> succeeds can' ->
  exists s1, snap_rdma_channel_open can true s = Ok (s1, false) /\ live s1 = live s /\ cn_alloc s1 = false /\ port_lock s1 = MHeld /\
    snap_rdma_channel_open can' true s1 = OutOfFuel.
Proof.
  intros Hf Hp Hs Hn Hs'. destruct (open_reaches_port can s Hs) as (n & Hn' & Hrun). rewrite Hp in Hrun.
  set (h := ch_heap (cn_chan s)) in *. set (w := ch_env (cn_chan s)) in *. set (i := rdma_port_idx s) in *.
  assert (post (snap_rdma_channel_open can true) (gone h (live s) MHeld i) s) as (s1 & b & Hopen & -> & Hl & _ & Ha & Hh & _)%post_run.
  { unfold post. rewrite Hrun. change (post (open_port can) (gone h (live s) MHeld i) (made (Some n) (Some (S n)) (Some (S (S n)))
      ({[S (S n)]} ∪ ({[S n]} ∪ ({[n]} ∪ live s))) (S (S (S n))) MFree i w h)).
    unfold open_port. eapply made_run; [reflexivity|]. apply post_gets. cbn [rdma_port_idx made at_stage sg_idx upd_field].
    apply not_true_is_false in Hn. rewrite Hn. cbn [negb]. apply (out_free_cmthread_ok w h n (S n) (S (S n)) (live s) (S (S (S n))) MHeld i); [|lia].
    apply (below_mono _ (tick s)); [exact Hf|done]. }
  exists s1. split_and!; [done..|]. destruct (open_reaches_port can' s1 Hs') as (n1 & _ & ->). by rewrite Hh.
Qed.
End Channel.
