(* ===== verification/ChanReg.v ===== *)
(** The registry of migration channels (src/src/snap_channel.c): implementations register under
    a name, from constructors of the program or of a plugin; a controller opens a channel by
    its name, and the channel keeps the implementation that opened it. *)

From Stdlib Require Import String.
From stdpp Require Import gmap strings.
From S2P Require Import Prelude Effects.

Definition MAX_CHANNELS : nat := 8.

(** [struct snap_channel_ops]; a channel is a name, [W] is what the implementations keep. *)
Record snap_channel_ops (W : Type) := mk_chops {
  co_name : string;
  co_open : W -> res (W * option nat);
  co_close : nat -> W -> res (W * unit);
  co_mark_dirty_page : nat -> Z -> Z -> W -> res (W * Z)
}.
Arguments mk_chops {W}. Arguments co_name {W}. Arguments co_open {W}. Arguments co_close {W}. Arguments co_mark_dirty_page {W}.

(** The array [channel_ops], the field [channel_ops] of the channels, and the rest. *)
Record registry (W : Type) := mk_registry { rg_env : W; rg_ops : list (option (snap_channel_ops W)); rg_chan : gmap nat (snap_channel_ops W) }.
Arguments mk_registry {W}. Arguments rg_env {W}. Arguments rg_ops {W}. Arguments rg_chan {W}.
#[export] Instance registry_settable W : Settable (registry W) := fun r => mk_registry (rg_env r) (rg_ops r) (rg_chan r).

(** The environment: the directory of plugins, whether [asprintf] finds memory, and what the
    constructors of a library register, when it can be loaded. *)
Record loader (W : Type) := mk_loader { ld_dir : option string; ld_mem : bool; ld_plugin : string -> option (list (snap_channel_ops W)) }.
Arguments mk_loader {W}. Arguments ld_dir {W}. Arguments ld_mem {W}. Arguments ld_plugin {W}.

Section Registry.
Context {W : Type}.
#[local] Abbreviation ops := (snap_channel_ops W).
#[local] Abbreviation V := (M (registry W)).
Implicit Types (l : list (option ops)).

Fixpoint lookup_ops (name : string) (l : list (option ops)) : option ops :=
  match l with
  | [] => None
  | None :: l => lookup_ops name l
  | Some o :: l => if String.eqb name (co_name o) then Some o else lookup_ops name l
  end.
Definition lookup_chan (name : string) : V (option ops) := let! l := gets rg_ops in mreturn (lookup_ops name l).

(** The registry and whether the implementation was stored. *)
Fixpoint register_ops (o : ops) (l : list (option ops)) : list (option ops) * bool :=
  match l with
  | [] => ([], false)
  | None :: l => (Some o :: l, true)
  | Some o' :: l => if String.eqb (co_name o) (co_name o') then (Some o' :: l, false) else let '(l', b) := register_ops o l in (Some o' :: l', b)
  end.
Definition snap_channel_register (o : ops) : V unit := modify (fun s => s ⦇ rg_ops := fst (register_ops o (rg_ops s)) ⦈).
Definition snap_channel_unregister (o : ops) : V unit := mreturn tt.

Context (ld : loader W).

Definition so_name (name : string) : string :=
  match ld_dir ld with Some d => (d ++ "/" ++ name ++ ".so")%string | None => (name ++ ".so")%string end.
Fixpoint register_all (u : list ops) : V unit :=
  match u with [] => mreturn tt | o :: u => do! snap_channel_register o in register_all u end.
Definition dlopen (so : string) : V bool :=
  match ld_plugin ld so with None => mreturn false | Some u => do! register_all u in mreturn true end.

Definition impl_call {A} (f : W -> res (W * A)) : V A :=
  let! w := gets rg_env in
  let! r := m_res (f w) in
  do! modify (fun s => s ⦇ rg_env := fst r ⦈) in mreturn (snd r).

(** From [found] on. *)
Definition open_found (o : ops) : V (option nat) :=
  let! c := impl_call (co_open o) in
  match c with
  | None => mreturn None
  | Some k => do! modify (fun s => s ⦇ rg_chan := <[k := o]> (rg_chan s) ⦈) in mreturn (Some k)
  end.

Definition snap_channel_open (name : string) : V (option nat) :=
  let! o := lookup_chan name in
  match o with
  | Some o => open_found o
  | None =>
      if negb (ld_mem ld) then mreturn None
      else
        let! ok := dlopen (so_name name) in
        if negb ok then mreturn None
        else
          let! o := lookup_chan name in
          match o with None => mreturn None | Some o => open_found o end
  end.

Definition chan_impl (k : nat) : V ops := let! c := gets rg_chan in m_opt undefined (c !! k).
Definition snap_channel_close (k : nat) : V unit := let! o := chan_impl k in impl_call (co_close o k).
Definition snap_channel_mark_dirty_page (k : nat) (guest_pa length : Z) : V Z :=
  let! o := chan_impl k in impl_call (co_mark_dirty_page o k guest_pa length).

(** * The registry *)

(** The names that are registered. *)
Definition names l : list string := map co_name (omap id l).
(** No two implementations have the same name, and the free places are at the end. *)
Definition registry_ok l : Prop := length l = MAX_CHANNELS /\ NoDup (names l) /\ exists n, l = map Some (omap id l) ++ replicate n None.

Lemma lookup_names name l : lookup_ops name l = None <-> name ∉ names l.
Proof.
  unfold names. induction l as [|[o|] l IH]; cbn; [split; [by intros _ ?%elem_of_nil|done]| |exact IH].
  destruct (String.eqb_spec name (co_name o)) as [->|Hn]; [split; [done|intros []; by left]|]. rewrite IH, not_elem_of_cons. tauto.
Qed.
Lemma lookup_app name l1 l2 : lookup_ops name (l1 ++ l2) = match lookup_ops name l1 with Some o => Some o | None => lookup_ops name l2 end.
Proof. induction l1 as [|[o|] l1 IH]; cbn; [done| |done]. by destruct (String.eqb name (co_name o)). Qed.
Lemma lookup_free name n : lookup_ops name (replicate n None) = None.
Proof. by induction n. Qed.
Lemma omap_used (u : list ops) n : omap id (map Some u ++ replicate n None) = u.
Proof. induction u as [|o u IH]; cbn; [by induction n|by f_equal]. Qed.

Lemma names_used (u : list ops) n : names (map Some u ++ replicate n None) = map co_name u.
Proof. unfold names. by rewrite omap_used. Qed.
Lemma registry_used l : registry_ok l <-> exists u n, l = map Some u ++ replicate n None /\ (length u + n = MAX_CHANNELS)%nat /\ NoDup (map co_name u).
Proof.
  split.
  - intros (Hlen & Hnd & n & Hl). exists (omap id l), n. split_and!; [done| |done]. by rewrite Hl, length_app, length_map, length_replicate in Hlen.
  - intros (u & n & -> & Hn & Hnd). split_and!; [by rewrite length_app, length_map, length_replicate|by rewrite names_used|]. exists n. by rewrite omap_used.
Qed.

(** What is registered, as a list: a new implementation is added at its end. *)
Lemma register_used o (u : list ops) n : co_name o ∉ map co_name u ->
  register_ops o (map Some u ++ replicate n None) =
  match n with O => (map Some u, false) | S n => (map Some (u ++ [o]) ++ replicate n None, true) end.
Proof.
  induction u as [|o' u IH]; cbn; [by destruct n|]. intros [Hn Hu]%not_elem_of_cons. rewrite (proj2 (String.eqb_neq _ _)) by done. rewrite IH by done. by destruct n.
Qed.
Lemma register_known o (u : list ops) n : co_name o ∈ map co_name u -> register_ops o (map Some u ++ replicate n None) = (map Some u ++ replicate n None, false).
Proof.
  induction u as [|o' u IH]; cbn; [by intros ?%elem_of_nil|]. intros Hin. destruct (String.eqb_spec (co_name o) (co_name o')) as [|Hn]; [done|].
  apply elem_of_cons in Hin as [?|Hin]; [done|]. by rewrite IH.
Qed.

(** The registry finds what is registered.  Registering an implementation stores it if its
    name is new and one of the eight places is free: its name is then found, and every other
    name as before.  If the name is taken or the places are full, nothing changes.  The names
    of the registry stay distinct, and its free places at its end. *)
Theorem register_lookup o l : registry_ok l ->
  let '(l', stored) := register_ops o l in
  registry_ok l' /\
  stored = bool_decide (lookup_ops (co_name o) l = None /\ length (names l) < MAX_CHANNELS)%nat /\
  if stored then forall name, lookup_ops name l' = if String.eqb name (co_name o) then Some o else lookup_ops name l
  else l' = l.
Proof.
  intros (u & n & -> & Hn & Hnd)%registry_used. rewrite names_used, length_map. destruct (decide (co_name o ∈ map co_name u)) as [Hin|Hin].
  - rewrite (register_known o u n Hin). split_and!; [apply registry_used; by exists u, n| |done]. symmetry. apply bool_decide_eq_false.
    intros [Hnone _]. apply lookup_names in Hnone. by rewrite names_used in Hnone.
  - rewrite (register_used o u n Hin). assert (lookup_ops (co_name o) (map Some u ++ replicate n None) = None) as Hnone by (apply lookup_names; by rewrite names_used).
    destruct n as [|n].
    + cbn [replicate]. rewrite app_nil_r. split_and!; [apply registry_used; exists u, 0%nat; cbn [replicate]; by rewrite app_nil_r| |done].
      symmetry. apply bool_decide_eq_false. lia.
    + split_and!; [|symmetry; apply bool_decide_eq_true; split; [done|lia]|].
      * apply registry_used. exists (u ++ [o]), n. rewrite length_app. cbn [length]. split_and!; [done|lia|].
        rewrite map_app. apply NoDup_app. split_and!; [done| |apply NoDup_singleton]. intros x Hx ->%list_elem_of_singleton. done.
      * intros name. rewrite map_app, !lookup_app, !lookup_free. cbn [map lookup_ops]. destruct (String.eqb_spec name (co_name o)) as [->|Hname]; [|by case_match].
        rewrite lookup_app in Hnone. by destruct (lookup_ops (co_name o) (map Some u)).
Qed.

(** ** Channels *)

Lemma open_found_ok o s s' k : open_found o s = Ok (s', Some k) -> rg_ops s' = rg_ops s /\ rg_chan s' !! k = Some o /\ co_open o (rg_env s) = Ok (rg_env s', Some k).
Proof.
  unfold open_found, impl_call, m_bind, gets, m_res, modify, mreturn. cbn. destruct (co_open o (rg_env s)) as [[w [c|]]| | |] eqn:E; cbn; try done.
  intros [= <- <-]. cbn. split_and!; [done|apply lookup_insert_eq|done].
Qed.
(** The implementation a channel was opened with serves it: it is the one that is registered
    under the name, in the program or by the plugin. *)
Lemma open_dispatches name s s' k : snap_channel_open name s = Ok (s', Some k) ->
  exists o, lookup_ops name (rg_ops s') = Some o /\
    forall pa len, snap_channel_mark_dirty_page k pa len s' = impl_call (co_mark_dirty_page o k pa len) s' /\ snap_channel_close k s' = impl_call (co_close o k) s'.
Proof.
  assert (forall o s, lookup_ops name (rg_ops s) = Some o -> open_found o s = Ok (s', Some k) -> exists o, lookup_ops name (rg_ops s') = Some o /\
    forall pa len, snap_channel_mark_dirty_page k pa len s' = impl_call (co_mark_dirty_page o k pa len) s' /\ snap_channel_close k s' = impl_call (co_close o k) s') as Hfound.
  { clear s. intros o s Hl (Hops & Hc & _)%open_found_ok. exists o. rewrite Hops. split; [done|]. intros pa len.
    unfold snap_channel_mark_dirty_page, snap_channel_close, chan_impl, m_bind, gets, m_opt. cbn. by rewrite Hc. }
  unfold snap_channel_open, lookup_chan. unfold m_bind at 1 2, gets at 1, mreturn at 1. cbn [res_bind]. destruct (lookup_ops name (rg_ops s)) as [o|] eqn:E; [by apply Hfound|].
  destruct (ld_mem ld); cbn [negb]; [|done]. unfold m_bind at 1. destruct (dlopen (so_name name) s) as [[s1 []]| | |]; cbn [res_bind negb]; try done.
  unfold m_bind at 1 2, gets at 1, mreturn at 1. cbn [res_bind]. destruct (lookup_ops name (rg_ops s1)) as [o|] eqn:E1; [by apply Hfound|done].
Qed.
End Registry.

(** The eight places, one of them taken. *)
Definition rdma_chops : snap_channel_ops unit := mk_chops "rdma_channel" (fun w => Ok (w, Some 0%nat)) (fun _ w => Ok (w, tt)) (fun _ _ _ w => Ok (w, 0)).
Definition sample_chops : snap_channel_ops unit := mk_chops "sample_channel" (fun w => Ok (w, Some 1%nat)) (fun _ w => Ok (w, tt)) (fun _ _ _ w => Ok (w, 0)).
Definition one_taken : list (option (snap_channel_ops unit)) := Some rdma_chops :: replicate 7 None.
Lemma register_lookup_witness :
  let '(l', stored) := register_ops sample_chops one_taken in
  registry_ok l' /\ stored = bool_decide (lookup_ops (co_name sample_chops) one_taken = None /\ length (names one_taken) < MAX_CHANNELS)%nat /\
  if stored then forall name, lookup_ops name l' = if String.eqb name (co_name sample_chops) then Some sample_chops else lookup_ops name one_taken else l' = one_taken.
Proof. apply (register_lookup sample_chops one_taken). split_and!; [done|apply NoDup_singleton|by exists 7%nat]. Defined.

(** A channel that no plugin provides is not opened. *)
Example unknown_channel : (let? r := snap_channel_open (mk_loader None true (fun _ => Some [])) "sample_channel" (mk_registry tt one_taken ∅) in Ok (snd r)) = Ok None.
Proof. reflexivity. Qed.
(** A plugin that registers it makes it found. *)
Example plugin_channel :
  (let? r := snap_channel_open (mk_loader (Some "/usr/lib") true (fun so => if String.eqb so "/usr/lib/sample_channel.so" then Some [sample_chops] else None))
    "sample_channel" (mk_registry tt one_taken ∅) in Ok (snd r)) = Ok (Some 1%nat).
Proof. reflexivity. Qed.
