(* ===== verification/ChanRun.v ===== *)
(** The migration channel on concrete inputs: a small controller, a channel that was just
    connected, and runs of its commands. *)

From stdpp Require Import gmap.
From S2P Require Import Prelude Effects Chan ChanBits ChanSys ChanInv ChanMark ChanProps.
From S2P Require Import ChanTrack ChanState ChanLive ChanConn ChanConnProps ChanOpen.

(** * A small controller *)

Record toy := mk_toy { toy_stopped : bool; toy_logs : bool; toy_state : list Z }.
Definition toy_stop (b : bool) (w : toy) : res (toy * Z) := Ok (mk_toy b (toy_logs w) (toy_state w), 0).
Definition toy_log (b : bool) (w : toy) : res (toy * Z) := Ok (mk_toy (toy_stopped w) b (toy_state w), 0).
Definition toy_size (w : toy) : res (toy * Z) :=
  Ok (w, if Z.of_nat (length (toy_state w)) <? 2 ^ 31 then Z.of_nat (length (toy_state w)) else -1).
(** A state that starts with a zero is refused. *)
Definition toy_copy (l : list Z) (len : Z) (from : bool) (w : toy) : res (toy * (list Z * Z)) :=
  if from then if default 0 (head l) =? 0 then Ok (w, (l, - EINVAL)) else Ok (mk_toy (toy_stopped w) (toy_logs w) (take (Z.to_nat len) l), (l, 0))
  else Ok (w, (take (Z.to_nat len) (toy_state w), 0)).
#[export] Instance toy_ops : MigOps toy := {|
  mo_quiesce := toy_stop true; mo_unquiesce := toy_stop false; mo_freeze := toy_stop true; mo_unfreeze := toy_stop true;
  mo_get_state_size := toy_size; mo_copy_state := toy_copy;
  mo_start_dirty_pages_track := toy_log true; mo_stop_dirty_pages_track := toy_log false
|}.
#[export] Instance toy_laws : MigLaws toy (fun _ => True).
Proof.
  split.
  - intros op w Hop _. repeat (apply elem_of_cons in Hop as [->|Hop]; [by eexists _, _|]). by apply elem_of_nil in Hop.
  - intros w _. eexists _, _. split; [reflexivity|]. split; [|done]. case_match eqn:E; [by apply Z.ltb_lt|lia].
  - intros l len [] w _ _; cbn; [case_match|]; by eexists _, _, _.
Qed.

(** * A channel that was just connected *)

Definition all_well : chan_answers := mk_answers (fun _ => true) (fun _ => true) (fun _ => 0) (fun _ => true) (fun _ _ => 255).
Definition no_cmd : mlx5_snap_common_command := mk_cmd 0 0 0 0 0 0 0.
Definition idle_chan : snap_rdma_channel toy :=
  mk_chan (mk_toy false false [7; 8; 9]) (mk_dirty 0 0 0 MFree None 0 MFree None None) (mk_istate 0 MFree None None)
    (replicate 64 (mk_cqe 0 0 0)) (replicate 64 0) (replicate 64 no_cmd) ∅ ∅ 0 [] [] (seq 0 64).

Lemma idle_chan_ok : chan_ok (fun _ : toy => True) idle_chan.
Proof.
  split; [|by intros []]. split; try done.
  - by apply Forall_replicate.
  - split; try done. by left.
  - by apply Forall_seq; lia.
Qed.

(** A step on concrete states. *)
Definition is_ok {A} (r : res A) : bool := match r with Ok _ => true | _ => false end.
Definition goes (ans : chan_answers) (c : chan_call) (s : snap_rdma_channel toy) : snap_rdma_channel toy :=
  match chan_step ans c s with Ok (s', _) => s' | _ => s end.
Definition shows (ans : chan_answers) (c : chan_call) (s : snap_rdma_channel toy) : list hevent :=
  match chan_step ans c s with Ok (_, e) => e | _ => [] end.
Lemma goes_step ans c s : is_ok (chan_step ans c s) = true -> chan_step ans c s = Ok (goes ans c s, shows ans c s).
Proof. unfold goes, shows. by destruct (chan_step ans c s) as [[]| | |]. Qed.

(** The peer starts the log with pages of 4096 bytes, asks for its size, and for the log. *)
Definition start_cmd : mlx5_snap_common_command := mk_cmd MLX5_SNAP_CMD_START_LOG 1 0 0 0 4096 0.
Definition size_cmd : mlx5_snap_common_command := mk_cmd MLX5_SNAP_CMD_GET_LOG_SZ 2 0 0 0 0 0.
Definition report_cmd : mlx5_snap_common_command := mk_cmd MLX5_SNAP_CMD_REPORT_LOG 3 65536 2 7 0 0.

Definition started : snap_rdma_channel toy := goes all_well CCq (goes all_well (CArrive start_cmd 72) idle_chan).

Lemma well_alloc k : an_alloc all_well k = true.
Proof. done. Qed.
Lemma well_poll k : an_poll all_well k = true.
Proof. done. Qed.
Lemma well_post k : an_post all_well k = 0.
Proof. done. Qed.
Lemma well_reg k : an_reg all_well k = true.
Proof. done. Qed.

#[local] Abbreviation toy_calm := (calm (fun _ : toy => True)).
Lemma idle_chan_calm : toy_calm idle_chan.
Proof.
  split; [apply idle_chan_ok|by apply Forall_replicate|done|done|]. by apply Forall_replicate.
Qed.
Lemma goes_calm c s : toy_calm s -> polite_call s c -> is_ok (chan_step all_well c s) = true -> toy_calm (goes all_well c s).
Proof.
  intros Hc Hp Hok. pose proof (goes_step _ _ _ Hok) as Hrun.
  by destruct (run_post _ _ _ _ _ (calm_step _ _ well_alloc well_poll well_post s c Hc Hp) Hrun) as [? _].
Qed.
Ltac by_run := vm_compute; reflexivity.

Lemma started_calm : toy_calm started.
Proof.
  apply goes_calm; [|by split|by_run]. apply goes_calm; [apply idle_chan_calm| |by_run].
  split; [|done]. split; [|done]. by split_and!.
Qed.
Lemma started_ok : chan_ok (fun _ : toy => True) started.
Proof. apply (ca_ok _ _ started_calm). Qed.

(** The log is on, and a page is written. *)
Definition written : snap_rdma_channel toy := goes all_well (CMark 40960 100) started.
(** The peer asks for the size of the log, and reads the log; a page is written meanwhile. *)
Definition asked : snap_rdma_channel toy := goes all_well CCq (goes all_well (CArrive size_cmd 72) written).
Lemma asked_calm : toy_calm asked.
Proof.
  apply goes_calm; [|by split|by_run]. apply goes_calm; [|by split; [split; [by split_and!|]|]|by_run].
  apply goes_calm; [apply started_calm|by split|by_run].
Qed.

(** * Witnesses *)

Lemma get_num_elements_counts_witness : snap_channel_get_num_elements 4000 200 (2 ^ 12) = Ok (Z.of_nat (size (touched 4000 200 12))).
Proof. apply (get_num_elements_counts 4000 200 12); lia. Defined.

Lemma chan_events_handled_witness : exists s'' e, chan_step all_well (CMark 40960 100) started = Ok (s'', e) /\ chan_ok (fun _ : toy => True) s''.
Proof.
  apply (chan_events_handled (fun _ : toy => True) all_well well_alloc well_poll idle_chan started); [apply idle_chan_ok| |by split].
  apply (star_step _ _ (goes all_well (CArrive start_cmd 72) idle_chan)); [|apply (star_step _ _ started); [|apply star_refl]].
  - exists (CArrive start_cmd 72), []. split; [split; [by split_and!|done]|apply goes_step; by_run].
  - exists CCq, []. split; [done|apply goes_step; by_run].
Defined.


(** The page that was written before the size was asked for, and the one written while the
    copy is transferred. *)
Definition later : list chan_call := [CMark 81920 1; CArrive report_cmd 72; CCq; CNic (fun _ => 0); CNic (fun _ => 0); CNic (fun _ => 0); CCq].
Definition run_of (l : list chan_call) (s : snap_rdma_channel toy) : snap_rdma_channel toy := fold_left (fun s c => goes all_well c s) l s.
Fixpoint shown (l : list chan_call) (s : snap_rdma_channel toy) : list hevent :=
  match l with [] => [] | c :: l => shows all_well c s ++ shown l (goes all_well c s) end.
Lemma later_polite : polite_run all_well asked later (run_of later asked) (shown later asked).
Proof.
  cbn [shown later run_of fold_left].
  apply run_cons with (s1 := goes all_well (CMark 81920 1) asked); [by split|apply goes_step; by_run|].
  eapply run_cons; [|apply goes_step; by_run|].
  { split; [split; [by split_and!|by vm_compute]|]. intros _. split_and!; by vm_compute. }
  do 5 (eapply run_cons; [by split; vm_compute|apply goes_step; by_run|]). apply run_nil.
Qed.
Definition copied : cbuf := mk_cbuf 2 (fun i => if (0 <=? i) && (i <? 2) then (if i =? 1 then 4 else 0) else 0).

Lemma no_dirty_page_lost_witness : tracked (run_of later asked) 10 /\ tracked (run_of later asked) 20.
Proof.
  split.
  - apply (no_dirty_page_lost (fun _ : toy => True) all_well well_alloc well_poll well_post asked later _ (shown later asked) 12);
      [apply asked_calm|by eexists; by_run|done|by_run|apply later_polite|]. left. split; [done|]. right. eexists _, _. split_and!; by_run.
  - apply (no_dirty_page_lost (fun _ : toy => True) all_well well_alloc well_poll well_post asked later _ (shown later asked) 12);
      [apply asked_calm|by eexists; by_run|done|by_run|apply later_polite|]. right. exists 81920, 1.
    split; [by apply elem_of_cons; left|]. apply elem_touched; [lia..|]. by vm_compute.
Defined.

(** What is transferred is the copy, in which page 20 is not marked. *)
Lemma log_copy_never_released_witness : ch_heap (run_of later asked) !! 6%nat = Some copied /\ HWrite 6 copied 2 65536 7 ∈ shown later asked /\
  forall y len raddr rkey, HWrite 6 y len raddr rkey ∈ shown later asked -> y = copied.
Proof.
  assert (copy_bmap (dirty_pages (run_of later asked)) = Some 6%nat /\ ch_heap (run_of later asked) !! 6%nat = Some copied /\
    forall y len raddr rkey, HWrite 6 y len raddr rkey ∈ shown later asked -> y = copied) as (_ & H1 & H2); [|split_and!; [exact H1| |exact H2]].
  - apply (log_copy_never_released (fun _ : toy => True) all_well well_alloc well_poll well_post asked later); [apply asked_calm|by_run|by_run|apply later_polite].
  - vm_compute. repeat constructor.
Defined.

Definition write_cmd : mlx5_snap_common_command := mk_cmd MLX5_SNAP_CMD_WRITE_STATE 4 65536 3 7 0 0.
Definition state_cmd : mlx5_snap_common_command := mk_cmd MLX5_SNAP_CMD_GET_STATE_SZ 5 0 0 0 0 0.
Definition read_cmd : mlx5_snap_common_command := mk_cmd MLX5_SNAP_CMD_READ_STATE 6 65536 3 7 0 0.

(** The controller is given zeros, which it refuses; the response is posted twice. *)
Lemma write_state_restores_zeros_witness : exists s1 b m,
  snap_channel_process_cmd all_well write_cmd idle_chan = Ok (s1, 0) /\ ch_env s1 = ch_env idle_chan /\
  ch_sq s1 = ch_sq idle_chan ++ WrRdma true b m 3 65536 7 (slot write_cmd) ::
    (if - EINVAL =? 0 then [] else [WrSend (slot write_cmd) MLX5_SNAP_CMD_WRITE_STATE]) /\
  forall s2, rsp_wr s2 = rsp_wr s1 -> exists s3 id, snap_channel_handle_completion all_well (WcRdma (slot write_cmd)) s2 = Ok (s3, 0) /\
    ch_env s3 = ch_env s2 /\ ch_sq s3 = ch_sq s2 ++ [WrSend (slot write_cmd) id] /\ (- EINVAL <> 0 -> id = MLX5_SNAP_CMD_WRITE_STATE).
Proof.
  eapply (write_state_restores_zeros (fun _ : toy => True) all_well well_alloc well_reg well_post write_cmd idle_chan (ch_env idle_chan) [0; 0; 0] (- EINVAL));
    [apply idle_chan_ok|by split|by_run|by split|by_run..].
Defined.
(** The run: the peer is sent two responses to its command. *)
Example write_answered_twice :
  (let? p := chan_run all_well [CArrive write_cmd 72; CCq; CNic (fun i => 7 + i); CNic (fun _ => 0); CCq; CNic (fun _ => 0)] idle_chan in
   Ok (omap (fun e => match e with HRsp c => Some (cqe_id c) | _ => None end) (snd p), ch_env (fst p))) = Ok ([4; 4], ch_env idle_chan).
Proof. by_run. Qed.

Lemma read_state_sends_saved_witness : exists s1 s2 b m x,
  snap_channel_process_cmd all_well state_cmd idle_chan = Ok (s1, 0) /\ snap_channel_process_cmd all_well read_cmd s1 = Ok (s2, 0) /\
  ch_sq s2 = ch_sq idle_chan ++ [WrSend (slot state_cmd) MLX5_SNAP_CMD_GET_STATE_SZ; WrRdma false b m 3 65536 7 (slot read_cmd)] /\
  ch_heap s2 !! b = Some x /\ bytes_of x 3 = [7; 8; 9].
Proof.
  apply (read_state_sends_saved (fun _ : toy => True) all_well well_alloc well_reg well_post state_cmd read_cmd idle_chan (ch_env idle_chan) (ch_env idle_chan) 3 [7; 8; 9]);
    [apply idle_chan_ok|by split|by split_and!|by split|by_run|by_run|by_run|lia|by_run..].
Defined.


(** * The life of a channel *)

Definition all_made : conn_answers := mk_cna (fun _ => true) (fun _ => 0) (fun _ => 12) true true true.
Definition opened : conn toy :=
  mk_conn (idle_chan ⦇ ch_rq := [] ⦈ ⦇ ch_live := {[0; 1; 2]}%nat ⦈ ⦇ ch_tick := 3%nat ⦈) true (Some 0%nat) (Some 1%nat) (Some 2%nat) None None None None None None None None MFree 1.
Lemma opened_fresh : fresh opened.
Proof. intros k Hk. change (k ∈ ({[0; 1; 2]}%nat : gset nat)) in Hk. change (k < 3)%nat. set_unfold. lia. Qed.

(** A peer connects, and has the state saved and read: a memory region of the domain is
    registered, and the device refuses to release the domain when the peer disconnects. *)
Definition busy_pd : conn_answers := mk_cna (fun _ => true) (fun k => if (84 <=? k)%nat then 16 else 0) (fun _ => 12) true true true.
Definition after {A} (m : M (conn toy) A) (s : conn toy) : conn toy := match m s with Ok (s', _) => s' | _ => s end.
Definition joined : conn toy := after (cm_thread_turn all_well busy_pd GotRequest) opened.
Definition served : conn toy :=
  joined ⦇ cn_chan := run_of [CArrive state_cmd 72; CCq; CNic (fun _ => 0); CArrive read_cmd 72; CCq] (cn_chan joined) ⦈.
Definition left_served : conn toy := after (cm_thread_turn all_well busy_pd (GotEvent 3 RDMA_CM_EVENT_DISCONNECTED)) served.

Lemma Ok_pair_inj {S A} (s s' : S) (a a' : A) : Ok (s, a) = Ok (s', a') -> s' = s /\ a' = a.
Proof. intros [= <- <-]. done. Qed.
Lemma busy_errno k : cna_errno busy_pd k <> 0.
Proof. done. Qed.
Lemma joined_run : cm_thread_turn all_well busy_pd GotRequest opened = Ok (joined, 0).
Proof. by_run. Qed.

Lemma connection_released_witness : state_mr (ch_state (cn_chan served)) = Some 83%nat /\
  exists s2, cm_thread_turn all_well busy_pd (GotEvent 3 RDMA_CM_EVENT_DISCONNECTED) served = Ok (s2, -1) /\
    left_over busy_pd ((live served ∖ live joined) ∪ ({[3%nat]} ∪ live opened)) s2.
Proof.
  split; [by_run|]. pose proof (connection_released all_well busy_pd busy_errno opened opened_fresh) as Hc. cbv zeta in Hc.
  destruct Hc as (r & s1 & Hrun & H). rewrite joined_run in Hrun. apply Ok_pair_inj in Hrun as [Hs1 Hr]. subst s1 r.
  destruct H as (_ & _ & H). apply H; [by split_and!; by_run|]. apply (bool_decide_unpack _). by_run.
Defined.

(** The identifier, the domain and the region stay, next to the three things of the channel. *)
Example disconnection_leaves : size (live left_served) = 6%nat /\ cn_pd left_served = Some 4%nat /\
  bool_decide ({[3; 4; 83]}%nat ⊆ live left_served) = true.
Proof. split_and!; by_run. Qed.

Definition unopened : conn toy := mk_conn idle_chan false None None None None None None None None None None None MFree 0.
Lemma unopened_fresh : fresh unopened.
Proof. by intros k Hk%elem_of_empty. Qed.

Lemma open_close_released_witness : exists b s1, snap_rdma_channel_open all_made true unopened = Ok (s1, b) /\ port_lock s1 = MFree /\
  ch_heap (cn_chan s1) = ch_heap (cn_chan unopened) /\
  if b then exists s2, snap_rdma_channel_close s1 = Ok (s2, tt) /\ live s2 = live unopened /\ ch_heap (cn_chan s2) = ch_heap (cn_chan unopened) /\ cn_alloc s2 = false
  else live s1 = live unopened /\ cn_alloc s1 = false.
Proof. apply (open_close_released all_made unopened); [apply unopened_fresh|done..]. Defined.

Definition no_port : conn_answers := mk_cna (fun _ => true) (fun _ => 0) (fun _ => 12) true false true.
Lemma missing_port_blocks_witness : exists s1, snap_rdma_channel_open no_port true unopened = Ok (s1, false) /\ live s1 = live unopened /\
  cn_alloc s1 = false /\ port_lock s1 = MHeld /\ snap_rdma_channel_open all_made true s1 = OutOfFuel.
Proof. apply (missing_port_blocks no_port all_made unopened); [apply unopened_fresh|done|by split_and!|by intros ?|by split_and!]. Defined.

(** * What goes wrong *)

Definition result {S A} (r : res (S * A)) : res A := let? p := r in Ok (snd p).
Fixpoint connections (l : list cm_got) (s : conn toy) : res (conn toy * Z) :=
  match l with
  | [] => Ok (s, 0)
  | e :: l => let? r := cm_thread_turn all_well all_made e s in connections l (fst r)
  end.
(** A second peer that connects replaces what belongs to the first; when both have
    disconnected, what belongs to the second was released twice. *)
Example second_peer_released_twice :
  result (connections [GotRequest; GotRequest; GotEvent 3 RDMA_CM_EVENT_DISCONNECTED; GotEvent 77 RDMA_CM_EVENT_DISCONNECTED] opened) = Oob.
Proof. by_run. Qed.

(** Closing a channel with a peer leaves the peer's resources and its thread. *)
Example close_leaves_connection :
  (let? r := connections [GotRequest] opened in let? r := snap_rdma_channel_close (fst r) in
   Ok (size (live (fst r)))) = Ok 8%nat.
Proof. by_run. Qed.

(** The run of a command: the statuses of the responses, and the commands that are left. *)
Definition responses (r : res (snap_rdma_channel toy * list hevent)) : res (list (Z * Z)) :=
  let? p := r in Ok (omap (fun e => match e with HRsp c => Some (cqe_id c, cqe_status c) | _ => None end) (snd p)).
Definition nothing : Z -> Z := fun _ => 0.

(** A command with an identifier out of range is run six times and not answered. *)
Example bad_id_unanswered : responses (chan_run all_well [CArrive (mk_cmd 0 65 0 0 0 4096 0) 72; CCq] idle_chan) = Ok [].
Proof. by_run. Qed.

(** A response that cannot be posted at once: the command is run again, and fails, since the
    log was started. *)
Definition busy_once : chan_answers := mk_answers (fun _ => true) (fun _ => true) (fun k => if (k =? 2)%nat then 12 else 0) (fun _ => true) (fun _ _ => 255).
Example retried_start_refused :
  responses (chan_run busy_once [CArrive start_cmd 72; CCq; CNic nothing] idle_chan) = Ok [(1, MLX5_SNAP_SC_ALREADY_STARTED_LOG)].
Proof. by_run. Qed.

(** A log command for which no memory region can be registered is not answered. *)
Definition no_mr : chan_answers := mk_answers (fun _ => true) (fun _ => false) (fun _ => 0) (fun _ => true) (fun _ _ => 255).
Example report_without_mr_unanswered :
  responses (chan_run no_mr [CArrive start_cmd 72; CCq; CMark 40960 100; CArrive size_cmd 72; CCq; CNic nothing; CNic nothing; CArrive report_cmd 72; CCq] idle_chan)
  = Ok [(1, MLX5_SNAP_SC_SUCCESS); (2, MLX5_SNAP_SC_SUCCESS)].
Proof. by_run. Qed.

(** When the bitmap cannot grow it is lost, but its highest dirty element is not: the next
    copy is of a null pointer. *)
Definition no_growth : chan_answers := mk_answers (fun k => negb (k =? 5)%nat) (fun _ => true) (fun _ => 0) (fun _ => true) (fun _ _ => 255).
Example lost_bitmap_copied :
  responses (chan_run no_growth [CArrive start_cmd 72; CCq; CMark 40960 100; CMark (2 ^ 40) 1; CArrive size_cmd 72; CCq] idle_chan) = Oob.
Proof. by_run. Qed.

(** A page size of 2^29 is accepted; the number of bytes that a byte of the bitmap stands for
    is then zero, as an [int], and the next report divides by it. *)
Example huge_page_divides_by_zero :
  responses (chan_run all_well [CArrive (mk_cmd 0 1 0 0 0 (2 ^ 29) 0) 72; CCq; CMark 0 1] idle_chan) = Oob.
Proof. by_run. Qed.

(** The part by which the bitmap grows is not cleared: pages that nobody wrote are marked. *)
Example grown_bitmap_dirty :
  (let? r := chan_run all_well [CArrive start_cmd 72; CCq; CMark (2 ^ 36) 1] idle_chan in
   Ok (b ← bmap (dirty_pages (fst r)); x ← ch_heap (fst r) !! b; Some (page_bit x (2 ^ 24 - 1)))) = Ok (Some true).
Proof. by_run. Qed.

(** After the log was stopped it cannot be started again. *)
Example no_restart :
  responses (chan_run all_well [CArrive start_cmd 72; CCq; CNic nothing; CArrive (mk_cmd MLX5_SNAP_CMD_STOP_LOG 2 0 0 0 0 0) 72; CCq; CNic nothing;
                                CArrive start_cmd 72; CCq; CNic nothing] idle_chan)
  = Ok [(1, MLX5_SNAP_SC_SUCCESS); (2, MLX5_SNAP_SC_SUCCESS); (1, MLX5_SNAP_SC_ALREADY_STARTED_LOG)].
Proof. by_run. Qed.
