(* ===== verification/ChanCtrl.v ===== *)
(** The controller of Ctrl.v and CtrlState.v as the controller of a migration channel
    (the table [snap_virtio_ctrl_migration_ops] of src/ctrl/snap_virtio_common_ctrl.c), and a
    migration over the channel. *)

From stdpp Require Import gmap.
From S2P Require Import Prelude Effects Bytes PollGroups Ctrl CtrlInv CtrlProps CtrlRun CtrlState.
From S2P Require Import Chan ChanSys ChanRun.

Section Ops.
Context {W D Q : Type} `{!CtrlOps W D Q, !StateOps W D Q}.
#[local] Abbreviation sys := (cstate W D Q).
#[local] Abbreviation C := (M sys).
(** What the other threads of the process do while [snap_virtio_ctrl_quiesce] sleeps, and how
    many times it sleeps at most. *)
Context (others : C unit) (turns : nat).

(** [while (!snap_virtio_ctrl_is_suspended(ctrl))], with the lock released during the sleep. *)
Fixpoint quiesce_wait (n : nat) : C unit :=
  let! c := ctrl in
  if snap_virtio_ctrl_is_suspended c then mreturn tt
  else match n with
       | O => never_returns
       | S n =>
           do! snap_virtio_ctrl_progress_unlock in
           do! others in
           do! snap_virtio_ctrl_progress_lock in
           quiesce_wait n
       end.

Definition snap_virtio_ctrl_quiesce : C Z :=
  with_lock (
    let! c := ctrl in
    if negb (lm_running c) then mreturn (- EINVAL)
    else if snap_virtio_ctrl_is_stopped c then
      do! snap_virtio_ctrl_set_lm_state SNAP_VIRTIO_CTRL_LM_QUIESCED in mreturn 0
    else
      let! ret := snap_virtio_ctrl_suspend in
      if negb (ret =? 0) then mreturn ret
      else
        do! quiesce_wait turns in
        do! snap_virtio_ctrl_set_lm_state SNAP_VIRTIO_CTRL_LM_QUIESCED in mreturn 0).

Definition snap_virtio_ctrl_migration_ops : MigOps sys := {|
  mo_quiesce := snap_virtio_ctrl_quiesce;
  mo_unquiesce := snap_virtio_ctrl_unquiesce;
  mo_freeze := snap_virtio_ctrl_freeze;
  mo_unfreeze := snap_virtio_ctrl_unfreeze;
  mo_get_state_size := snap_virtio_ctrl_get_state_size_v1;
  mo_copy_state := snap_virtio_ctrl_copy_state;
  mo_start_dirty_pages_track := snap_virtio_ctrl_start_dirty_pages_track;
  mo_stop_dirty_pages_track := snap_virtio_ctrl_stop_dirty_pages_track
|}.

(** * Quiescing *)

(** A result, unless the wait does not end. *)
Definition partly {A} (m : C A) (P : A -> sys -> Prop) (s : sys) : Prop := match m s with Ok (s', a) => P a s' | OutOfFuel => True | _ => False end.
Lemma partly_post {A} (m : C A) P s : post m P s -> partly m P s.
Proof. unfold post, partly. by destruct (m s) as [[]| | |]. Qed.
Lemma partly_bind {A B} (m : C A) (f : A -> C B) P R s : partly m P s -> (forall a s', P a s' -> partly (f a) R s') -> partly (m_bind m f) R s.
Proof. unfold partly, m_bind. destruct (m s) as [[s' a]| | |]; cbn [res_bind]; try done. intros Hp Hf. by apply Hf. Qed.

Context `{!CtrlLaws} (u0 : nat -> Z).
(** The other threads keep the invariant of the controller. *)
Context (Hothers : forall s, ctrl_ok u0 s -> post others (fun _ => ctrl_ok_to True u0 s) s).

Definition waited (s : sys) : unit -> sys -> Prop := fun _ s' =>
  alive u0 s' /\ progress_lock (cs_ctrl s') = true /\ c_state (cs_ctrl s') = SNAP_VIRTIO_CTRL_SUSPENDED /\ (lm_ok (cs_ctrl s) -> lm_ok (cs_ctrl s')).

Lemma wait_ok n s : alive u0 s -> progress_lock (cs_ctrl s) = true -> partly (quiesce_wait n) (waited s) s.
Proof.
  revert s. induction n as [|n IH]; intros s Hal Hl; unfold partly; cbn [quiesce_wait]; unfold m_bind at 1, ctrl, gets; cbn [res_bind]; unfold snap_virtio_ctrl_is_suspended;
    case_bool_decide as Hs; try done.
  unfold snap_virtio_ctrl_progress_unlock. set (s1 := s ⦇ cs_ctrl := (cs_ctrl s) ⦇ progress_lock := false ⦈ ⦈).
  apply (partly_bind _ _ (fun _ s' => s' = s1)).
  { unfold partly, m_bind, ctrl, gets. cbn [res_bind]. by rewrite Hl. }
  intros _ s' ->. assert (ctrl_ok u0 s1) as Hok by (split; [subst s1; same|done]).
  eapply partly_bind; [apply partly_post; by apply Hothers|]. intros [] s2 [[Hal2 Hl2] Hlm2].
  set (s3 := s2 ⦇ cs_ctrl := (cs_ctrl s2) ⦇ progress_lock := true ⦈ ⦈).
  apply (partly_bind _ _ (fun _ s' => s' = s3)).
  { unfold partly, snap_virtio_ctrl_progress_lock, m_bind, ctrl, gets. cbn [res_bind]. by rewrite Hl2. }
  intros _ s' ->. assert (alive u0 s3) as Hal3 by (subst s3; same).
  assert (partly (quiesce_wait n) (waited s3) s3) as Hw by by apply IH. unfold partly in *. destruct (quiesce_wait n s3) as [[s4 []]| | |]; try done.
  destruct Hw as (Ha & Hb & Hc & Hd). split_and!; [done..|]. intros Hlm. apply Hd. by apply Hlm2.
Qed.

(** Quiescing has no undefined behaviour and keeps the invariant; when it returns 0, the
    controller is at rest. *)
Lemma ctrl_quiesce_ok s : ctrl_ok u0 s ->
  partly snap_virtio_ctrl_quiesce (fun r s' => ctrl_ok_to True u0 s s' /\ (r = 0 -> lm_state (cs_ctrl s') = SNAP_VIRTIO_CTRL_LM_QUIESCED /\ at_rest (cs_ctrl s'))) s.
Proof.
  intros [Hal Hlock]. unfold snap_virtio_ctrl_quiesce, with_lock. set (s1 := s ⦇ cs_ctrl := (cs_ctrl s) ⦇ progress_lock := true ⦈ ⦈).
  assert (alive u0 s1) as Hal1 by (subst s1; same).
  apply (partly_bind _ _ (fun _ s' => s' = s1)).
  { unfold partly, snap_virtio_ctrl_progress_lock, m_bind, ctrl, gets. cbn [res_bind]. by rewrite Hlock. }
  intros _ s' ->. apply (partly_bind _ _ (fun r s' => alive u0 s' /\ progress_lock (cs_ctrl s') = true /\ (lm_ok (cs_ctrl s) -> lm_ok (cs_ctrl s')) /\
    (r = 0 -> lm_state (cs_ctrl s') = SNAP_VIRTIO_CTRL_LM_QUIESCED /\ at_rest (cs_ctrl s')))).
  - unfold partly at 1. unfold m_bind at 1, ctrl, gets. cbn [res_bind]. destruct (lm_running (cs_ctrl s1)) eqn:Hrun; cbn [negb].
    2: { split_and!; [done..|]. by intros ?. }
    unfold snap_virtio_ctrl_is_stopped. case_bool_decide as Hst.
    + split_and!; [same|done| |]; [intros [? _]; split; [done|by left]|split; [done|by left]].
    + eapply partly_bind; [apply partly_post; by apply (suspend_ok u0)|]. intros ret s2 (Hal2 & Hc2 & Hlm2 & _). destruct (core_phys _ _ Hc2) as [Hp2 Hr2].
      assert (progress_lock (cs_ctrl s2) = true) as Hl2 by (unfold phys in Hp2; subst s1; crec in *; congruence).
      assert (lm_ok (cs_ctrl s) -> lm_ok (cs_ctrl s2)) as Hlm.
      { intros [Hre _]. split; [by rewrite Hr2|]. unfold lm_quiet. rewrite Hlm2. unfold lm_running in Hrun. intros [Hx|Hx]; rewrite Hx in Hrun; done. }
      destruct (Z.eqb_spec ret 0) as [->|Hret]; cbn [negb]; [|by split_and!].
      eapply partly_bind; [by apply wait_ok|]. intros [] s3 (Hal3 & Hl3 & Hs3 & Hlm3). split_and!; [same|done| |].
      * intros Hx. destruct (Hlm3 (Hlm Hx)) as [? _]. split; [done|]. intros _. by right.
      * intros _. split; [done|by right].
  - intros r s2 (Hal2 & Hl2 & Hlm2 & Hr). unfold partly, snap_virtio_ctrl_progress_unlock, m_bind, ctrl, gets. cbn [res_bind]. rewrite Hl2. cbn.
    split; [split; [split; [same|done]|intros _; exact Hlm2]|exact Hr].
Qed.
End Ops.

(** * A migration over the channel

    The device of CtrlRun.v, whose state is two bytes; like the block device, it refuses a
    buffer that is too short. *)

Module ChanCtrlRun.
Import CtrlRun.

#[local] Instance short_refused : StateOps host unit dev_queue := {|
  bar_get_state_size := Some 2;
  bar_get_state := Some (fun b mem len => if len <? 2 then Ok (mem, - EINVAL) else Ok ([7; 8] ++ drop 2 mem, 2));
  bar_set_state := Some (fun w c b qs mem len => if negb (bool_decide (is_Some mem)) || (len <? 2) then Ok (w, b, - EINVAL) else Ok (w, b, 0));
  q_get_state := Some (fun w q st => (w, st ⦇ hw_available_index := 9 ⦈ ⦇ hw_used_index := 5 ⦈, 0));
  uninit := zero_qstate
|}.
#[local] Existing Instance good_ops.

(** Meanwhile the groups are polled and the admin thread runs. *)
Definition meanwhile : M (cstate host unit dev_queue) unit := do! snap_virtio_ctrl_io_progress in snap_virtio_ctrl_progress 1.
#[local] Instance dev_mig : MigOps (cstate host unit dev_queue) := snap_virtio_ctrl_migration_ops meanwhile 3.

(** A controller that the driver has started, and its channel. *)
Definition driven : res (snap_rdma_channel (cstate host unit dev_queue)) :=
  match boot false host_start with
  | None => Oob
  | Some s =>
      let? s := run_all [OpProgress; OpProgress; OpIo] s in
      Ok (mk_chan s (dirty_pages idle_chan) (ch_state idle_chan) (rsp_buf idle_chan) (rsp_wr idle_chan) (recv_buf idle_chan) ∅ ∅ 0 [] [] (seq 0 64))
  end.
Definition cmd (op id len : Z) : mlx5_snap_common_command := mk_cmd op id 65536 len 7 0 0.
(** A command and what follows from it. *)
Definition exchange (c : mlx5_snap_common_command) (moves : nat) : list chan_call :=
  CArrive c 72 :: CCq :: concat (replicate moves [CNic (fun _ => 0); CCq]).
Definition migration : list chan_call :=
  exchange (cmd MLX5_SNAP_CMD_QUIESCE_DEV 1 0) 1 ++ exchange (cmd MLX5_SNAP_CMD_FREEZE_DEV 2 0) 1 ++
  exchange (cmd MLX5_SNAP_CMD_GET_STATE_SZ 3 0) 1 ++ exchange (cmd MLX5_SNAP_CMD_READ_STATE 4 182) 2.
Definition seen (e : list hevent) : list (Z + Z) :=
  omap (fun e => match e with HRsp c => Some (inl (cqe_status c)) | HWrite _ _ len _ _ => Some (inr len) | _ => None end) e.
Definition observed {A} (l : list chan_call) (f : cstate host unit dev_queue -> list hevent -> A) : res A :=
  let? s := driven in let? r := chan_run all_well l s in Ok (f (ch_env (fst r)) (snd r)).

(** The controller is quiesced and frozen, and the 182 bytes that are transferred are those
    that saving its state gives. *)
Definition sent_is_saved (s : cstate host unit dev_queue) (e : list hevent) : bool :=
  match snap_virtio_ctrl_copy_state (replicate 182 0) 182 false s, omap (fun e => match e with HWrite _ x n _ _ => Some (bytes_of x n) | _ => None end) e with
  | Ok (_, (l, 0)), [l'] => bool_decide (l = l')
  | _, _ => false
  end.
Example state_over_channel :
  observed migration (fun s e => (seen e, lm_state (cs_ctrl s), sent_is_saved s e)) = Ok ([inl 0; inl 0; inl 0; inr 182; inl 0], SNAP_VIRTIO_CTRL_LM_FREEZED, true).
Proof. vm_compute. reflexivity. Qed.

(** Writing the state back: the controller is given zeros, clears the attributes of its queues
    and then refuses the state, since the device part of the zeros has no length.  The peer
    gets two responses, both of which say so. *)
Definition write_back : list chan_call :=
  exchange (cmd MLX5_SNAP_CMD_QUIESCE_DEV 1 0) 1 ++ exchange (cmd MLX5_SNAP_CMD_FREEZE_DEV 2 0) 1 ++ exchange (cmd MLX5_SNAP_CMD_WRITE_STATE 3 182) 3.
Example restore_over_channel_fails :
  observed write_back (fun s e => (seen e, c_state (cs_ctrl s), map qa_size (q_attrs (bar_curr (cs_ctrl s)))))
  = Ok ([inl 0; inl 0; inl MLX5_SNAP_SC_INTERNAL; inl MLX5_SNAP_SC_INTERNAL], SNAP_VIRTIO_CTRL_STOPPED, [0; 0]).
Proof. vm_compute. reflexivity. Qed.

(** A state that is shorter than the headers: the controller reads beyond the buffer. *)
Example short_state_overread :
  observed (exchange (cmd MLX5_SNAP_CMD_QUIESCE_DEV 1 0) 1 ++ exchange (cmd MLX5_SNAP_CMD_WRITE_STATE 3 17) 0) (fun _ _ => tt) = Oob.
Proof. vm_compute. reflexivity. Qed.

End ChanCtrlRun.
