(* ===== verification/DpaRt.v ===== *)
(** The runtime of the DPA (src/src/snap_dpa_rt.c): which core a thread gets, and what the
    creation of a thread acquires and releases. *)

From stdpp Require Import gmap sets list.
From S2P Require Import Prelude Effects.

(** * Acquisitions and releases *)

Inductive res_event (R : Type) := Acquire (r : R) | Release (r : R).
Arguments Acquire {R} r.
Arguments Release {R} r.

Section Track.
Context {R : Type} `{EqDecision R}.

Fixpoint remove_one (r : R) (l : list R) : option (list R) :=
  match l with
  | [] => None
  | x :: l => if decide (r = x) then Some l else l' ← remove_one r l; Some (x :: l')
  end.

(** What is held after some events; [None] when something is released that is not held. *)
Fixpoint held_after (es : list (res_event R)) (held : list R) : option (list R) :=
  match es with
  | [] => Some held
  | Acquire r :: es => held_after es (r :: held)
  | Release r :: es => held' ← remove_one r held; held_after es held'
  end.

Lemma held_after_app es es' : forall held, held_after (es ++ es') held = (held' ← held_after es held; held_after es' held').
Proof.
  induction es as [|[r|r] es IH]; intros held; cbn [app held_after]; [done|apply IH|]. destruct (remove_one r held); cbn; [apply IH|done].
Qed.
End Track.

(** * Cores *)

Definition SNAP_DPA_HW_THREADS_COUNT : Z := 170.

(** [struct snap_dpa_rt]: its cores.  [allowed] is the set that the process may use. *)
Record snap_dpa_rt := mk_rt { polling_cores : gset Z; next_polling_core : Z; next_event_core : Z; allowed : gset Z }.
#[export] Instance rt_settable : Settable snap_dpa_rt := fun r => mk_rt (polling_cores r) (next_polling_core r) (next_event_core r) (allowed r).

Definition next_core (hart : Z) : Z := (hart + 1) mod SNAP_DPA_HW_THREADS_COUNT.

(** The loop, with [n] turns left. *)
Fixpoint polling_core_loop (n : nat) (hart : Z) (rt : snap_dpa_rt) : snap_dpa_rt * Z :=
  match n with
  | O => (rt, -1)
  | S n =>
      if bool_decide (hart ∉ polling_cores rt) && bool_decide (hart ∈ allowed rt) then
        (rt ⦇ polling_cores := polling_cores rt ∪ {[hart]} ⦈ ⦇ next_polling_core := next_core hart ⦈, hart)
      else polling_core_loop n (next_core hart) rt
  end.
Definition snap_dpa_rt_polling_core_get (rt : snap_dpa_rt) : snap_dpa_rt * Z :=
  polling_core_loop (Z.to_nat SNAP_DPA_HW_THREADS_COUNT) (next_polling_core rt) rt.

Definition snap_dpa_rt_polling_core_put (i : Z) (rt : snap_dpa_rt) : snap_dpa_rt := rt ⦇ polling_cores := polling_cores rt ∖ {[i]} ⦈.

Fixpoint event_core_loop (n : nat) (rt : snap_dpa_rt) : snap_dpa_rt * Z :=
  match n with
  | O => (rt, -1)
  | S n =>
      let core := next_event_core rt in
      let rt' := rt ⦇ next_event_core := next_core core ⦈ in
      if bool_decide (core ∈ allowed rt) then (rt', core) else event_core_loop n rt'
  end.
Definition snap_dpa_rt_event_core_get (rt : snap_dpa_rt) : snap_dpa_rt * Z := event_core_loop (Z.to_nat SNAP_DPA_HW_THREADS_COUNT) rt.
Definition snap_dpa_rt_event_core_put (i : Z) (rt : snap_dpa_rt) : snap_dpa_rt := rt.

(** * Threads *)

Inductive snap_dpa_rt_thr_mode := SNAP_DPA_RT_THR_POLLING | SNAP_DPA_RT_THR_EVENT.
#[export] Instance thr_mode_eq_dec : EqDecision snap_dpa_rt_thr_mode.
Proof. solve_decision. Defined.

(** What a thread is made of. *)
Inductive rt_obj := OMem | OThread | ODbCq | OMsixCq | ODpuQ | ODpaQ.
#[export] Instance rt_obj_eq_dec : EqDecision rt_obj.
Proof. solve_decision. Defined.

(** [struct snap_dpa_rt_thread]; [has_msix_cq] is whether its pointer is set. *)
Record snap_dpa_rt_thread := mk_rthr { th_mode : snap_dpa_rt_thr_mode; th_hart : Z; has_msix_cq : bool }.
#[export] Instance rthr_settable : Settable snap_dpa_rt_thread := fun r => mk_rthr (th_mode r) (th_hart r) (has_msix_cq r).

Record rt_state := mk_rts { rs_rt : snap_dpa_rt; rs_log : list (res_event rt_obj) }.
#[export] Instance rts_settable : Settable rt_state := fun r => mk_rts (rs_rt r) (rs_log r).

(** The operations of a creation that can fail: those that make something, the conversions of
    the completion queues, the copies to the thread, the connection. *)
Inductive rt_step := MakeObj (o : rt_obj) | ToHwCq (o : rt_obj) | CopyCq (o : rt_obj) | ConnectEp | CopyEp.

Section Rt.
(** Whether a step fails. *)
Context (fails : rt_step -> bool).
#[local] Abbreviation V := (M rt_state).

Definition log_obj (e : res_event rt_obj) : V unit := modify (fun s => s ⦇ rs_log := rs_log s ++ [e] ⦈).
Definition on_rt {A} (f : snap_dpa_rt -> snap_dpa_rt * A) : V A := fun s => Ok (s ⦇ rs_rt := fst (f (rs_rt s)) ⦈, snd (f (rs_rt s))).
Definition make (o : rt_obj) : V bool := if fails (MakeObj o) then mreturn false else do! log_obj (Acquire o) in mreturn true.

(** The two ends of the channel and their connection. *)
Definition snap_dpa_rt_p2p_queue_create : V Z :=
  let! ok := make ODpuQ in
  if negb ok then mreturn (-1)
  else
    let! ok := make ODpaQ in
    if negb ok then mreturn (-1) else if fails ConnectEp then mreturn (-1) else mreturn 0.

(** The core, or a negative value. *)
Definition get_core (m : snap_dpa_rt_thr_mode) : V Z :=
  match m with
  | SNAP_DPA_RT_THR_POLLING => on_rt snap_dpa_rt_polling_core_get
  | SNAP_DPA_RT_THR_EVENT => on_rt snap_dpa_rt_event_core_get
  end.

Definition free_dpa_thread : V (option snap_dpa_rt_thread) := do! log_obj (Release OThread) in mreturn None.
Definition free_db_cq : V (option snap_dpa_rt_thread) := do! log_obj (Release ODbCq) in free_dpa_thread.

(** The attributes are read first, through a pointer; [has_attr] is whether there is one. *)
Definition rt_thread_init (has_attr : bool) (m : snap_dpa_rt_thr_mode) : V (option snap_dpa_rt_thread) :=
  if negb has_attr then undefined else
  let! hart := get_core m in
  if hart <? 0 then mreturn None
  else
    let! ok := make OThread in
    if negb ok then mreturn None
    else
      let! ok := make ODbCq in
      if negb ok then free_dpa_thread
      else if fails (ToHwCq ODbCq) then free_db_cq
      else if fails (CopyCq ODbCq) then free_db_cq
      else
        let! ret := snap_dpa_rt_p2p_queue_create in
        if negb (ret =? 0) then free_db_cq
        else if fails CopyEp then free_db_cq
        else mreturn (Some (mk_rthr m hart false)).

Definition snap_dpa_rt_thread_get (has_attr : bool) (m : snap_dpa_rt_thr_mode) : V (option snap_dpa_rt_thread) :=
  let! ok := make OMem in
  if negb ok then mreturn None
  else
    let! t := rt_thread_init has_attr m in
    match t with None => do! log_obj (Release OMem) in mreturn None | Some t => mreturn (Some t) end.

Definition rt_thread_reset (t : snap_dpa_rt_thread) : V unit :=
  do! m_when (has_msix_cq t) (log_obj (Release OMsixCq)) in
  do! log_obj (Release ODbCq) in
  do! log_obj (Release ODpaQ) in
  do! log_obj (Release ODpuQ) in
  do! log_obj (Release OThread) in
  match th_mode t with
  | SNAP_DPA_RT_THR_POLLING => on_rt (fun rt => (snap_dpa_rt_polling_core_put (th_hart t) rt, tt))
  | SNAP_DPA_RT_THR_EVENT => on_rt (fun rt => (snap_dpa_rt_event_core_put (th_hart t) rt, tt))
  end.

Definition snap_dpa_rt_thread_put (t : snap_dpa_rt_thread) : V unit := do! rt_thread_reset t in log_obj (Release OMem).

(** The pointer to the queue is set before the steps that can still fail. *)
Definition snap_dpa_rt_thread_msix_add (t : snap_dpa_rt_thread) : V (snap_dpa_rt_thread * Z) :=
  let! ok := make OMsixCq in
  if negb ok then mreturn (t ⦇ has_msix_cq := false ⦈, - EINVAL)
  else
    let t := t ⦇ has_msix_cq := true ⦈ in
    if fails (ToHwCq OMsixCq) || fails (CopyCq OMsixCq) then do! log_obj (Release OMsixCq) in mreturn (t, - EINVAL)
    else mreturn (t, 0).

Definition snap_dpa_rt_thread_msix_remove (t : snap_dpa_rt_thread) : V snap_dpa_rt_thread :=
  if negb (has_msix_cq t) then mreturn t else do! log_obj (Release OMsixCq) in mreturn (t ⦇ has_msix_cq := false ⦈).
End Rt.

(** * Cores are given to one thread each *)

Lemma next_core_range h : 0 <= next_core h < SNAP_DPA_HW_THREADS_COUNT.
Proof. by apply Z.mod_pos_bound. Qed.

Lemma polling_loop_ok n : forall h rt rt' c, 0 <= h < SNAP_DPA_HW_THREADS_COUNT -> polling_core_loop n h rt = (rt', c) ->
  c = -1 /\ rt' = rt /\ (forall i, (i < n)%nat -> (h + Z.of_nat i) mod SNAP_DPA_HW_THREADS_COUNT ∈ allowed rt -> (h + Z.of_nat i) mod SNAP_DPA_HW_THREADS_COUNT ∈ polling_cores rt) \/
  0 <= c < SNAP_DPA_HW_THREADS_COUNT /\ c ∈ allowed rt /\ c ∉ polling_cores rt /\
  rt' = rt ⦇ polling_cores := polling_cores rt ∪ {[c]} ⦈ ⦇ next_polling_core := next_core c ⦈.
Proof.
  induction n as [|n IH]; intros h rt rt' c Hh; cbn [polling_core_loop].
  { intros [= <- <-]. left. split; [done|]. split; [done|]. lia. }
  destruct (bool_decide (h ∉ polling_cores rt) && bool_decide (h ∈ allowed rt)) eqn:E.
  - intros [= <- <-]. apply andb_prop in E as [E1%bool_decide_eq_true E2%bool_decide_eq_true]. by right.
  - intros [(-> & -> & Hall)|Hfound]%IH; [|by right|apply next_core_range]. left. split; [done|]. split; [done|]. intros i Hi Ha.
    destruct i as [|i].
    + change (Z.of_nat 0) with 0 in *. rewrite Z.add_0_r, (Z.mod_small h) in * by done. apply andb_false_iff in E as [E|E]; apply bool_decide_eq_false in E; [|contradiction].
      destruct (decide (h ∈ polling_cores rt)); [done|]. by destruct E.
    + specialize (Hall i ltac:(lia)). unfold next_core in Hall. rewrite Zplus_mod_idemp_l in Hall. replace (h + Z.of_nat (S i)) with (h + 1 + Z.of_nat i) in * by lia. by apply Hall.
Qed.

(** The search gives a core that the process may use and that no polling thread has, marks it
    and starts behind it the next time; it gives none exactly when all of them are taken, and
    then it changes nothing. *)
Theorem polling_core_get_ok rt rt' c :
  0 <= next_polling_core rt < SNAP_DPA_HW_THREADS_COUNT -> snap_dpa_rt_polling_core_get rt = (rt', c) ->
  0 <= next_polling_core rt' < SNAP_DPA_HW_THREADS_COUNT /\
  (c = -1 /\ rt' = rt /\ (forall h, 0 <= h < SNAP_DPA_HW_THREADS_COUNT -> h ∈ allowed rt -> h ∈ polling_cores rt) \/
   0 <= c < SNAP_DPA_HW_THREADS_COUNT /\ c ∈ allowed rt /\ c ∉ polling_cores rt /\ polling_cores rt' = polling_cores rt ∪ {[c]}).
Proof.
  intros Hn Hget. destruct (polling_loop_ok _ _ _ _ _ Hn Hget) as [(-> & -> & Hall)|(Hc & Ha & Hp & ->)].
  - split; [done|left]. split; [done|]. split; [done|]. intros h Hh. specialize (Hall (Z.to_nat ((h - next_polling_core rt) mod SNAP_DPA_HW_THREADS_COUNT))).
    pose proof (Z.mod_pos_bound (h - next_polling_core rt) SNAP_DPA_HW_THREADS_COUNT ltac:(done)). rewrite Z2Nat.id in Hall by lia.
    rewrite Zplus_mod_idemp_r, Zplus_minus, (Z.mod_small h) in Hall by done. apply Hall. lia.
  - split; [apply next_core_range|by right].
Qed.

(** * What a thread holds *)

Definition thread_objs (msix : bool) : list rt_obj := (if msix then [OMsixCq] else []) ++ [ODpaQ; ODpuQ; ODbCq; OThread; OMem].

(** The result of a creation: the thread and all its objects, or nothing but, when they were
    made, the ends of the channel. *)
Definition get_result (l0 : list (res_event rt_obj)) (r : option snap_dpa_rt_thread) (s : rt_state) : Prop :=
  exists es, rs_log s = l0 ++ es /\
  match r with
  | Some t => held_after es [] = Some (thread_objs false) /\ has_msix_cq t = false
  | None => held_after es [] ∈ [Some []; Some [ODpuQ]; Some [ODpaQ; ODpuQ]]
  end.

(** The events since [l0]. *)
Definition since (l0 es : list (res_event rt_obj)) (s : rt_state) : Prop := rs_log s = l0 ++ es.

Lemma post_make_obj {B} fails o (k : bool -> M rt_state B) P l0 es s :
  since l0 es s -> post (k false) P s -> (forall s', since l0 (es ++ [Acquire o]) s' -> post (k true) P s') -> post (let! ok := make fails o in k ok) P s.
Proof.
  intros Hs Hf Ht. apply post_bind. unfold make. destruct (fails (MakeObj o)); [done|]. apply Ht. unfold since in *. cbn. by rewrite Hs, (assoc_L (++)).
Qed.

Lemma post_log {B} e (k : unit -> M rt_state B) P l0 es s :
  since l0 es s -> (forall s', since l0 (es ++ [e]) s' -> post (k tt) P s') -> post (m_bind (log_obj e) k) P s.
Proof. intros Hs Hk. apply post_modify, Hk. unfold since in *. cbn. by rewrite Hs, (assoc_L (++)). Qed.

(** A creation that ends here. *)
Lemma get_failed l0 es s : since l0 es s -> held_after es [] ∈ [Some []; Some [ODpuQ]; Some [ODpaQ; ODpuQ]] -> get_result l0 None s.
Proof. intros Hs Ht. by exists es. Qed.

Lemma free_db_cq_ok l0 es s (k : option snap_dpa_rt_thread -> M rt_state (option snap_dpa_rt_thread)) P :
  since l0 es s -> (forall s', since l0 (es ++ [Release ODbCq; Release OThread]) s' -> post (k None) P s') -> post (let! t := free_db_cq in k t) P s.
Proof.
  intros Hs Hk. unfold free_db_cq, free_dpa_thread. apply post_assoc. eapply post_log; [done|]. intros s1 Hs1. apply post_assoc. eapply post_log; [done|].
  intros s2 Hs2. apply post_bind, post_return, Hk. by rewrite <- !(assoc_L (++)) in Hs2.
Qed.

Lemma p2p_create_ok {B} fails (k : Z -> M rt_state B) P l0 es s :
  since l0 es s ->
  (forall es' s', since l0 (es ++ es') s' -> es' ∈ [[]; [Acquire ODpuQ]; [Acquire ODpuQ; Acquire ODpaQ]] -> post (k (-1)) P s') ->
  (forall s', since l0 (es ++ [Acquire ODpuQ; Acquire ODpaQ]) s' -> post (k 0) P s') ->
  post (let! ret := snap_dpa_rt_p2p_queue_create fails in k ret) P s.
Proof.
  intros Hs Hf Hk. unfold snap_dpa_rt_p2p_queue_create. apply post_assoc. eapply post_make_obj; [done|..].
  - apply post_bind, post_return, (Hf []); [by rewrite app_nil_r|]. in_list.
  - intros s1 Hs1. cbn [negb]. apply post_assoc. eapply post_make_obj; [done|..].
    + apply post_bind, post_return, (Hf [Acquire ODpuQ]); [done|]. in_list.
    + intros s2 Hs2. cbn [negb]. rewrite <- (assoc_L (++)) in Hs2. destruct (fails ConnectEp); apply post_bind, post_return; [|by apply Hk].
      apply (Hf _ _ Hs2); in_list.
Qed.

(** The creation of a thread gives a thread that holds exactly its objects, or fails; then
    the thread, its memory and its doorbell queue are released, each once, but the ends of the
    channel that were made by then are not. *)
Theorem thread_get_result fails m s : post (snap_dpa_rt_thread_get fails true m) (get_result (rs_log s)) s.
Proof.
  assert (H0 : since (rs_log s) [] s) by (unfold since; by rewrite app_nil_r).
  unfold snap_dpa_rt_thread_get. eapply post_make_obj; [exact H0|eapply get_failed; [exact H0|in_list]|]. intros s1 H1. cbn [negb app].
  unfold rt_thread_init. cbn [negb]. apply post_assoc. eapply post_bind_mono with (P := fun _ s' => since (rs_log s) [Acquire OMem] s'); [by destruct m|]. intros hart s2 H2. cbn beta.
  assert (Hend : forall es s', since (rs_log s) es s' -> held_after (es ++ [Release OMem]) [] ∈ [Some []; Some [ODpuQ]; Some [ODpaQ; ODpuQ]] ->
            post (do! log_obj (Release OMem) in mreturn None) (get_result (rs_log s)) s').
  { intros es s' Hs' Ht. eapply post_log; [exact Hs'|]. intros s3 H3. by eapply get_failed. }
  destruct (hart <? 0); [apply post_bind, post_return; eapply Hend; [exact H2|in_list]|].
  apply post_assoc. eapply post_make_obj; [exact H2|apply post_bind, post_return; eapply Hend; [exact H2|in_list]|]. intros s3 H3. cbn [negb app].
  apply post_assoc. eapply post_make_obj; [exact H3|..].
  { cbn [negb]. unfold free_dpa_thread. apply post_assoc. eapply post_log; [exact H3|]. intros s4 H4. apply post_bind, post_return. eapply Hend; [exact H4|in_list]. }
  intros s4 H4. cbn [negb app].
  assert (Hfree : forall es' s', since (rs_log s) ([Acquire OMem; Acquire OThread; Acquire ODbCq] ++ es') s' -> es' ∈ [[]; [Acquire ODpuQ]; [Acquire ODpuQ; Acquire ODpaQ]] ->
            post (let! t := free_db_cq in match t with Some t => mreturn (Some t) | None => do! log_obj (Release OMem) in mreturn None end) (get_result (rs_log s)) s').
  { intros es' s' Hs' Hes. eapply free_db_cq_ok; [exact Hs'|]. intros s5 H5. eapply Hend; [exact H5|].
    apply list_elem_of_In in Hes. destruct Hes as [<-|[<-|[<-|[]]]]; in_list. }
  destruct (fails (ToHwCq ODbCq)); [apply (Hfree [] s4); [done|in_list]|].
  destruct (fails (CopyCq ODbCq)); [apply (Hfree [] s4); [done|in_list]|].
  apply post_assoc. eapply p2p_create_ok; [exact H4|..].
  - intros es' s' Hs' Hes. cbn [Z.eqb negb]. by apply (Hfree es').
  - intros s5 H5. cbn [Z.eqb negb]. destruct (fails CopyEp).
    + apply (Hfree _ _ H5); in_list.
    + apply post_bind, post_return. eexists. split; [exact H5|]. done.
Qed.

(** The release of a thread destroys each of its objects once, and gives a polling core back. *)
Theorem thread_put_result t s :
  post (snap_dpa_rt_thread_put t)
    (fun _ s' => exists es, since (rs_log s) es s' /\ held_after es (thread_objs (has_msix_cq t)) = Some [] /\
       (th_mode t = SNAP_DPA_RT_THR_POLLING -> polling_cores (rs_rt s') = polling_cores (rs_rt s) ∖ {[th_hart t]})) s.
Proof.
  unfold snap_dpa_rt_thread_put, rt_thread_reset.
  destruct (has_msix_cq t), (th_mode t); (eexists; split; [unfold since; cbn; rewrite <- !(assoc_L (++)); reflexivity|done]).
Qed.

(** ** Examples *)

Module DpaRtRun.

Definition rt0 : snap_dpa_rt := mk_rt ∅ 0 0 (list_to_set [0; 3; 5]).
Definition st0 : rt_state := mk_rts rt0 [].

(** Three polling threads get the three cores; a fourth gets none. *)
Example cores_run_out :
  let '(r1, c1) := snap_dpa_rt_polling_core_get rt0 in
  let '(r2, c2) := snap_dpa_rt_polling_core_get r1 in
  let '(r3, c3) := snap_dpa_rt_polling_core_get r2 in
  [c1; c2; c3; snd (snap_dpa_rt_polling_core_get r3); snd (snap_dpa_rt_polling_core_get (snap_dpa_rt_polling_core_put 3 r3))] = [0; 3; 5; -1; 3].
Proof. vm_compute. reflexivity. Qed.

(** Without attributes, which is how the virtqueue asks for a thread, a null pointer is read. *)
Example no_attributes_no_thread : snap_dpa_rt_thread_get (fun _ => false) false SNAP_DPA_RT_THR_EVENT st0 = Oob.
Proof. vm_compute. reflexivity. Qed.

(** The last step of a creation fails: both ends of the channel stay, and the core. *)
Example failed_creation_leaks :
  match snap_dpa_rt_thread_get (fun x => match x with CopyEp => true | _ => false end) true SNAP_DPA_RT_THR_POLLING st0 with
  | Ok (s, None) => held_after (rs_log s) [] = Some [ODpaQ; ODpuQ] /\ bool_decide (0 ∈ polling_cores (rs_rt s)) = true
  | _ => False
  end.
Proof. vm_compute. split; reflexivity. Qed.

(** The interrupt queue could not be copied to the thread: it is destroyed then, and once more
    with the thread. *)
Example msix_cq_destroyed_twice :
  match (let! t := snap_dpa_rt_thread_get (fun _ => false) true SNAP_DPA_RT_THR_EVENT in
         match t with
         | Some t => let! r := snap_dpa_rt_thread_msix_add (fun x => match x with CopyCq OMsixCq => true | _ => false end) t in snap_dpa_rt_thread_put (fst r)
         | None => mreturn tt
         end) st0 with
  | Ok (s, _) => held_after (rs_log s) [] = None
  | _ => False
  end.
Proof. vm_compute. reflexivity. Qed.

End DpaRtRun.
