(* ===== verification/DpaVq.v ===== *)
(** Virtqueues served by the DPA (src/src/snap_dpa_p2p.c, src/dpa/dpa_virtq_split.c,
    src/src/snap_dpa_virtq.c).

    A thread of the DPA watches the doorbell of a queue.  When the driver has made new
    descriptor chains available it sends their heads to the DPU, in messages that take the
    heads directly from the available ring of the host; the DPU turns the messages into
    requests, and writes completions to the used ring.  The DMA queues between them are lists
    of what was posted; the answers of the device to the posts are [ans]. *)

From stdpp Require Import list.
From S2P Require Import Prelude Effects.

(** * Messages *)

Definition SNAP_DPA_P2P_MSG_CR_UPDATE : Z := 1.
Definition SNAP_DPA_P2P_MSG_P2P_Q_FLUSH : Z := 2.
Definition SNAP_DPA_P2P_MSG_VQ_HEADS : Z := 20.
Definition SNAP_DPA_P2P_MSG_VQ_TABLE : Z := 21.
Definition SNAP_DPA_P2P_MSG_VQ_TABLE_CONT : Z := 22.
Definition SNAP_DPA_P2P_MSG_VQ_MSIX : Z := 30.
Definition SNAP_DPA_P2P_MSG_NVME_SQ_TAIL : Z := 40.
Definition SNAP_DPA_P2P_MSG_NVME_CQ_HEAD : Z := 41.
Definition SNAP_DPA_P2P_MSG_LEN : Z := 64.
(** [sizeof(struct snap_dpa_p2p_msg_base)] *)
Definition sizeof_base : Z := 6.
Definition SNAP_DPA_P2P_VQ_MAX_HEADS : Z := (SNAP_DPA_P2P_MSG_LEN - sizeof_base) / 2 - 2.
Definition SNAP_DPA_DESC_SIZE : Z := 16.
Definition SNAP_DPA_NVME_SQE_SIZE : Z := 64.

(** [struct snap_dpa_p2p_msg_base], and the value after it of the messages that have one. *)
Record p2p_msg := mk_pmsg { pm_type : Z; pm_credit_delta : Z; pm_qid : Z; pm_value : Z }.

(** The data of a short write: elements of the used ring (identifier and length), an index, or
    bytes. *)
Inductive short_data := Elems (l : list (Z * Z)) | Index (v : Z) | Bytes (l : list Z).

(** What is posted on a DMA queue: a message; the header of an update of a virtqueue with
    [count] heads that the device reads at [raddr]; a write; a submission queue entry with
    immediate data; a short write. *)
Inductive p2p_post :=
| PMsg (m : p2p_msg)
| PHeads (type qid credit_delta avail_index count raddr rkey : Z)
| PWrite (laddr len lkey raddr rkey : Z)
| PImm (raddr len rkey imm : Z)
| PShort (d : short_data) (raddr : Z).

(** [struct snap_dpa_p2p_q] and its DMA queue. *)
Record snap_dpa_p2p_q := mk_p2p { p2_qid : Z; credit_count : Z; p2_posts : list p2p_post; p2_tick : nat }.
#[export] Instance p2p_settable : Settable snap_dpa_p2p_q := fun r => mk_p2p (p2_qid r) (credit_count r) (p2_posts r) (p2_tick r).

Section P2p.
(** What the k-th post returns. *)
Context (ans : nat -> Z).
#[local] Abbreviation V := (M snap_dpa_p2p_q).

Definition p2_post (p : p2p_post) : V Z :=
  let! k := gets p2_tick in
  do! modify (fun s => s ⦇ p2_tick := S k ⦈) in
  if negb (ans k =? 0) then mreturn (ans k)
  else do! modify (fun s => s ⦇ p2_posts := p2_posts s ++ [p] ⦈) in mreturn 0.

Definition snap_dpa_p2p_send_msg (msg : p2p_msg) : V Z :=
  let! q := gets id in
  if credit_count q =? 0 then mreturn (- EAGAIN) else p2_post (PMsg msg).

Definition snap_dpa_p2p_send_cr_update (credit : Z) : V Z :=
  let! q := gets id in
  snap_dpa_p2p_send_msg (mk_pmsg SNAP_DPA_P2P_MSG_CR_UPDATE (u16 credit) (u16 (p2_qid q)) 0).
Definition snap_dpa_p2p_send_cq_head (cq_head : Z) : V Z :=
  let! q := gets id in
  snap_dpa_p2p_send_msg (mk_pmsg SNAP_DPA_P2P_MSG_NVME_CQ_HEAD 1 (u16 (p2_qid q)) cq_head).
Definition snap_dpa_p2p_send_msix (credit : Z) : V Z :=
  let! q := gets id in
  snap_dpa_p2p_send_msg (mk_pmsg SNAP_DPA_P2P_MSG_VQ_MSIX (u16 credit) (u16 (p2_qid q)) 0).
Definition snap_dpa_p2p_send_flush : V Z := snap_dpa_p2p_send_msg (mk_pmsg SNAP_DPA_P2P_MSG_P2P_Q_FLUSH 0 0 0).

(** The number of heads of the next message, and the place of the first one. *)
Definition heads_count (vqsize last_avail_index avail_index : Z) : Z * Z :=
  let desc_heads_count := u16 (avail_index - last_avail_index) in
  let desc_heads_count := if SNAP_DPA_P2P_VQ_MAX_HEADS <? desc_heads_count then SNAP_DPA_P2P_VQ_MAX_HEADS else desc_heads_count in
  let avail_pos := u16 (Z.land last_avail_index (vqsize - 1)) in
  (if vqsize <? avail_pos + desc_heads_count then u16 (vqsize - avail_pos) else desc_heads_count, avail_pos).

Definition send_vq_update (cr_delta type vqid vqsize last_avail_index avail_index driver driver_mkey : Z) : V Z :=
  let '(desc_heads_count, avail_pos) := heads_count vqsize last_avail_index avail_index in
  let desc_hdr_idx_addr := u64 (driver + 4 + 2 * avail_pos) in
  let! rc := p2_post (PHeads type vqid cr_delta avail_index desc_heads_count desc_hdr_idx_addr driver_mkey) in
  if negb (rc =? 0) then mreturn rc else mreturn desc_heads_count.

Definition snap_dpa_p2p_send_vq_heads (vqid vqsize last_avail_index avail_index driver driver_mkey : Z) : V Z :=
  send_vq_update 1 SNAP_DPA_P2P_MSG_VQ_HEADS vqid vqsize last_avail_index avail_index driver driver_mkey.
Definition snap_dpa_p2p_send_vq_table_cont (vqid vqsize last_avail_index avail_index driver driver_mkey : Z) : V Z :=
  send_vq_update 1 SNAP_DPA_P2P_MSG_VQ_TABLE_CONT vqid vqsize last_avail_index avail_index driver driver_mkey.
Definition snap_dpa_p2p_send_vq_table (vqid vqsize last_avail_index avail_index driver driver_mkey descs shadow_descs shadow_descs_mkey : Z) : V Z :=
  let! rc := p2_post (PWrite descs (vqsize * SNAP_DPA_DESC_SIZE) driver_mkey shadow_descs shadow_descs_mkey) in
  if negb (rc =? 0) then mreturn rc
  else send_vq_update 1 SNAP_DPA_P2P_MSG_VQ_TABLE vqid vqsize last_avail_index avail_index driver driver_mkey.

Definition snap_dpa_p2p_send_sq_tail (sqid sq_tail sqe_table driver_mkey shadow_sqes shadow_sqes_mkey old_sq_tail depth : Z) : V Z :=
  let sqe_offset := u32 (old_sq_tail * SNAP_DPA_NVME_SQE_SIZE) in
  let '(sqes_to_write, wrap_around_sqes) :=
    if sq_tail <? old_sq_tail then (i32 (depth - old_sq_tail), sq_tail) else (i32 (sq_tail - old_sq_tail), 0) in
  let! rc := p2_post (PWrite (u64 (sqe_table + sqe_offset)) (SNAP_DPA_NVME_SQE_SIZE * sqes_to_write) driver_mkey (u64 (shadow_sqes + sqe_offset)) shadow_sqes_mkey) in
  if negb (rc =? 0) then mreturn rc
  else
    let! r := (if negb (wrap_around_sqes =? 0) then
                 let! rc := p2_post (PWrite sqe_table (SNAP_DPA_NVME_SQE_SIZE * wrap_around_sqes) driver_mkey shadow_sqes shadow_sqes_mkey) in
                 mreturn (rc, wrap_around_sqes)
               else mreturn (0, sqes_to_write)) in
    let '(rc, sqes_to_write) := r in
    if negb (rc =? 0) then mreturn rc
    else if (sqes_to_write =? 1) && (wrap_around_sqes =? 0) then
      p2_post (PImm (u64 (sqe_table + sqe_offset)) SNAP_DPA_NVME_SQE_SIZE driver_mkey 1)
    else snap_dpa_p2p_send_msg (mk_pmsg SNAP_DPA_P2P_MSG_NVME_SQ_TAIL 1 sqid sq_tail).
End P2p.

(** * The DPA thread of a queue *)

Inductive dpa_virtq_state := DPA_VIRTQ_STATE_INIT | DPA_VIRTQ_STATE_RDY | DPA_VIRTQ_STATE_SUSPEND | DPA_VIRTQ_STATE_ERR.
#[export] Instance dpa_state_eq_dec : EqDecision dpa_virtq_state.
Proof. solve_decision. Defined.

(** [struct snap_dpa_virtq_common] *)
Record snap_dpa_virtq_common := mk_dcommon { dc_idx : Z; dc_size : Z; dc_desc : Z; dc_driver : Z; dc_device : Z; dc_msix_vector : Z }.

(** [struct dpa_virtq_stats] *)
Record dpa_virtq_stats := mk_dstats {
  n_polls : Z; n_msix_rcvd : Z; n_msix_sent : Z; n_db_cqes : Z; n_db_empty : Z; n_io_submited : Z; n_vq_heads : Z; n_vq_tables : Z; n_sends : Z; n_long_sends : Z
}.
#[export] Instance dstats_settable : Settable dpa_virtq_stats := fun r =>
  mk_dstats (n_polls r) (n_msix_rcvd r) (n_msix_sent r) (n_db_cqes r) (n_db_empty r) (n_io_submited r) (n_vq_heads r) (n_vq_tables r) (n_sends r) (n_long_sends r).

(** [struct dpa_virtq] *)
Record dpa_virtq := mk_dvq {
  dv_common : snap_dpa_virtq_common; dv_available_index : Z; dv_used_index : Z; dpa_xmkey : Z; dpu_xmkey : Z;
  dpu_desc_shadow_mkey : Z; dpu_desc_shadow_addr : Z; dv_msix_cqnum : Z; dv_state : dpa_virtq_state; dv_pending : bool; dv_do_recovery : bool;
  dv_stats : dpa_virtq_stats
}.
#[export] Instance dvq_settable : Settable dpa_virtq := fun r =>
  mk_dvq (dv_common r) (dv_available_index r) (dv_used_index r) (dpa_xmkey r) (dpu_xmkey r) (dpu_desc_shadow_mkey r) (dpu_desc_shadow_addr r)
    (dv_msix_cqnum r) (dv_state r) (dv_pending r) (dv_do_recovery r) (dv_stats r).

(** Accesses to the hardware. *)
Inductive dpa_io := ArmRxCq | ArmDbCq | ArmMsixCq | DuarArm | MsixSend (cqnum : Z) | ProgressTx | DmaFlush.

(** The response to a command that carries a state: the state and the two indices; the health
    check adds the indices of the host and the number of messages. *)
Inductive dpa_virtq_rsp := RspNone | RspState (st : dpa_virtq_state) (avail used : Z) | RspHealth (st : dpa_virtq_state) (avail host_avail host_used n_msix : Z)
| RspStats (st : dpa_virtq_stats).

(** The thread: its queue, its channel to the DPU, the key of the window, and what it has not
    seen yet: messages of the DPU, completions of doorbells and of interrupts; the two indices
    in the memory of the host. *)
Record dpa_thread := mk_dthr {
  dt_vq : dpa_virtq; dt_chan : snap_dpa_p2p_q; dt_mkey : Z; dt_rx : nat; dt_db : nat; dt_msix : nat; host_avail : Z; host_used : Z;
  dt_io : list dpa_io; dt_rsp : dpa_virtq_rsp; cmd_last_sn : Z
}.
#[export] Instance dthr_settable : Settable dpa_thread := fun r =>
  mk_dthr (dt_vq r) (dt_chan r) (dt_mkey r) (dt_rx r) (dt_db r) (dt_msix r) (host_avail r) (host_used r) (dt_io r) (dt_rsp r) (cmd_last_sn r).

(** [struct dpa_virtq_cmd_modify] *)
Record dpa_virtq_cmd_modify := mk_dmod { md_state : dpa_virtq_state; md_used_index : Z; md_available_index : Z; set_hw_indexes : bool }.

Definition VIRTQ_DPA_NUM_P2P_MSGS : nat := 32.
Definition DPA_TABLE_THRESHOLD : Z := 4.
Definition SNAP_DPA_RT_THR_SINGLE_DB_CQE_CNT : nat := 2.
Definition SNAP_DPA_RT_THR_MSIX_CQE_CNT : nat := 2.
Definition SNAP_DPA_RSP_OK : Z := 0.
Definition SNAP_DPA_RSP_ERR : Z := 1.

Section Dpa.
(** The answers to the posts; whether the thread runs in event mode; the key of the mailbox. *)
Context (ans : nat -> Z) (is_event_mode : bool) (mbox_lkey : Z).
#[local] Abbreviation V := (M dpa_thread).

Definition get_vq : V dpa_virtq := gets dt_vq.
Definition upd_dvq (f : dpa_virtq -> dpa_virtq) : V unit := modify (fun s => s ⦇ dt_vq := f (dt_vq s) ⦈).
Definition upd_stats (f : dpa_virtq_stats -> dpa_virtq_stats) : V unit := upd_dvq (fun q => q ⦇ dv_stats := f (dv_stats q) ⦈).
Definition do_io (i : dpa_io) : V unit := modify (fun s => s ⦇ dt_io := dt_io s ++ [i] ⦈).
Definition event_io (i : dpa_io) : V unit := m_when is_event_mode (do_io i).
Definition on_p2p {A} (m : M snap_dpa_p2p_q A) : V A := fun s => let? r := m (dt_chan s) in Ok (s ⦇ dt_chan := fst r ⦈, snd r).
Definition dpa_window_set_active_mkey (k : Z) : V unit := modify (fun s => s ⦇ dt_mkey := k ⦈).
Definition set_rsp (r : dpa_virtq_rsp) : V unit := modify (fun s => s ⦇ dt_rsp := r ⦈).

Definition dpa_virtq_duar_arm : V unit := do! event_io ArmDbCq in do_io DuarArm.

(** The loop takes up to [n] completions. *)
Definition dpa_virtq_msix_arm : V unit :=
  do! do_io ArmMsixCq in
  modify (fun s => s ⦇ dt_msix := (dt_msix s - SNAP_DPA_RT_THR_MSIX_CQE_CNT)%nat ⦈).

Definition dpa_virtq_write_rsp : V unit :=
  let! q := get_vq in set_rsp (RspState (dv_state q) (dv_available_index q) (dv_used_index q)).

Definition recv_msg : V nat :=
  let! n := gets dt_rx in
  let got := Nat.min n VIRTQ_DPA_NUM_P2P_MSGS in
  do! modify (fun s => s ⦇ dt_rx := (n - got)%nat ⦈) in mreturn got.
Fixpoint recv_all (fuel : nat) (count : Z) : V Z :=
  match fuel with
  | O => never_returns
  | S fuel =>
      let! n := recv_msg in
      if (n =? 0)%nat then mreturn count else recv_all fuel (count + Z.of_nat n)
  end.
(** Every turn but the last takes a message. *)
Definition dpa_virtq_msix_recv : V Z :=
  do! event_io ArmRxCq in
  let! waiting := gets dt_rx in
  let! msix_count := recv_all (S waiting) 0 in
  if msix_count =? 0 then mreturn 0
  else do! upd_stats (fun t => t ⦇ n_msix_rcvd := u32 (n_msix_rcvd t + msix_count) ⦈) in mreturn msix_count.

Definition dpa_virtq_msix_raise : V unit :=
  let! q := get_vq in
  do! dpa_virtq_msix_arm in
  do! do_io (MsixSend (dv_msix_cqnum q)) in
  upd_stats (fun t => t ⦇ n_msix_sent := u32 (n_msix_sent t + 1) ⦈).

(** ** Commands *)

Definition dpa_virtq_create (v : dpa_virtq) (do_recovery : bool) : V Z :=
  do! upd_dvq (fun _ => v) in
  do! m_when do_recovery (
        do! dpa_window_set_active_mkey (dpa_xmkey v) in
        let! idx := gets host_used in
        do! upd_dvq (fun q => q ⦇ dv_used_index := idx ⦈ ⦇ dv_available_index := idx ⦈ ⦇ dv_do_recovery := true ⦈) in
        dpa_window_set_active_mkey mbox_lkey) in
  let! q := get_vq in
  do! (if bool_decide (dv_state q = DPA_VIRTQ_STATE_RDY) then
         do! upd_dvq (fun q => q ⦇ dv_pending := true ⦈) in dpa_virtq_duar_arm
       else upd_dvq (fun q => q ⦇ dv_state := DPA_VIRTQ_STATE_INIT ⦈)) in
  do! dpa_virtq_write_rsp in mreturn SNAP_DPA_RSP_OK.

Definition dpa_virtq_destroy : V Z :=
  do! dpa_virtq_msix_recv in
  do! upd_dvq (fun q => q ⦇ dv_state := DPA_VIRTQ_STATE_ERR ⦈) in mreturn SNAP_DPA_RSP_OK.

Definition modify_done (next : dpa_virtq_state) : V Z :=
  do! upd_dvq (fun q => q ⦇ dv_state := next ⦈) in
  do! dpa_virtq_write_rsp in mreturn SNAP_DPA_RSP_OK.

Definition dpa_virtq_modify (c : dpa_virtq_cmd_modify) : V Z :=
  let next_state := md_state c in
  let! q := get_vq in
  if bool_decide (dv_state q = next_state) then mreturn SNAP_DPA_RSP_OK
  else if bool_decide (next_state = DPA_VIRTQ_STATE_ERR) then modify_done next_state
  else
    match dv_state q with
    | DPA_VIRTQ_STATE_INIT =>
        if negb (bool_decide (next_state = DPA_VIRTQ_STATE_RDY)) then mreturn SNAP_DPA_RSP_ERR
        else
          do! upd_dvq (fun q => q ⦇ dv_pending := true ⦈) in
          do! dpa_virtq_duar_arm in
          do! m_when (negb (dc_msix_vector (dv_common q) =? 65535)) (
                do! m_when (dv_do_recovery q) dpa_virtq_msix_raise in event_io ArmRxCq) in
          modify_done next_state
    | DPA_VIRTQ_STATE_RDY =>
        if negb (bool_decide (next_state = DPA_VIRTQ_STATE_SUSPEND)) then mreturn SNAP_DPA_RSP_ERR
        else
          do! m_when (set_hw_indexes c) (
                upd_dvq (fun q => q ⦇ dv_available_index := md_available_index c ⦈ ⦇ dv_used_index := md_used_index c ⦈)) in
          do! do_io DmaFlush in
          modify_done next_state
    | _ => if negb (bool_decide (next_state = DPA_VIRTQ_STATE_ERR)) then mreturn SNAP_DPA_RSP_ERR else modify_done next_state
    end.

Definition dpa_virtq_query : V Z := do! dpa_virtq_write_rsp in mreturn SNAP_DPA_RSP_OK.

Definition dpa_virtq_health_check : V Z :=
  let! q := get_vq in
  do! dpa_window_set_active_mkey (dpa_xmkey q) in
  let! host_available_index := gets host_avail in
  let! host_used_index := gets host_used in
  do! dpa_window_set_active_mkey mbox_lkey in
  do! m_when (negb (host_available_index =? dv_available_index q) && bool_decide (dv_state q = DPA_VIRTQ_STATE_RDY))
        (upd_dvq (fun q => q ⦇ dv_pending := true ⦈)) in
  let! msix_count := dpa_virtq_msix_recv in
  do! m_when ((0 <? msix_count) && negb (dc_msix_vector (dv_common q) =? 65535) && bool_decide (dv_state q = DPA_VIRTQ_STATE_RDY)) dpa_virtq_msix_raise in
  do! set_rsp (RspHealth (dv_state q) (dv_available_index q) host_available_index host_used_index (u16 msix_count)) in
  mreturn SNAP_DPA_RSP_OK.

Definition dpa_virtq_get_stats : V Z := let! q := get_vq in do! set_rsp (RspStats (dv_stats q)) in mreturn SNAP_DPA_RSP_OK.

Inductive dpa_cmd :=
| CmdStop
| CmdCreate (v : dpa_virtq) (do_recovery : bool)
| CmdDestroy
| CmdModify (c : dpa_virtq_cmd_modify)
| CmdQuery
| CmdHealthCheck
| CmdGetStats
| CmdOther.

(** A command with its sequence number, when its completion is there.  The value: whether the
    thread is to stop, and the status of the response, when one is sent. *)
Definition do_command (c : option (Z * dpa_cmd)) : V (bool * option Z) :=
  match c with
  | None => mreturn (false, None)
  | Some (sn, cmd) =>
      do! dpa_window_set_active_mkey mbox_lkey in
      let! last := gets cmd_last_sn in
      let! r := (if sn =? last then mreturn (false, None)
                 else
                   do! modify (fun s => s ⦇ cmd_last_sn := sn ⦈) in
                   match cmd with
                   | CmdStop => mreturn (true, Some SNAP_DPA_RSP_OK)
                   | CmdCreate v rec => let! st := dpa_virtq_create v rec in mreturn (false, Some st)
                   | CmdDestroy => let! st := dpa_virtq_destroy in mreturn (false, Some st)
                   | CmdModify c => let! st := dpa_virtq_modify c in mreturn (false, Some st)
                   | CmdQuery => let! st := dpa_virtq_query in mreturn (false, Some st)
                   | CmdHealthCheck => let! st := dpa_virtq_health_check in mreturn (false, Some st)
                   | CmdGetStats => let! st := dpa_virtq_get_stats in mreturn (false, Some st)
                   | CmdOther => mreturn (false, Some SNAP_DPA_RSP_OK)
                   end) in
      let! q := get_vq in
      do! m_when (bool_decide (dv_state q = DPA_VIRTQ_STATE_RDY)) (dpa_window_set_active_mkey (dpa_xmkey q)) in
      mreturn r
  end.

(** ** Progress *)

Definition fatal_err : V unit := upd_dvq (fun q => q ⦇ dv_state := DPA_VIRTQ_STATE_ERR ⦈).

(** The loop [again]: [n] heads were sent, from the available index of the queue on.  Every
    turn sends a head at least, so as many turns as there are heads are enough. *)
Fixpoint send_again (fuel : nat) (n delta host_avail_idx : Z) : V bool :=
  match fuel with
  | O => never_returns
  | S fuel =>
      do! upd_dvq (fun q => q ⦇ dv_available_index := u16 (dv_available_index q + n) ⦈) in
      let! q := get_vq in
      let c := dv_common q in
      let! n := (if delta <? DPA_TABLE_THRESHOLD then
                   let! n := on_p2p (snap_dpa_p2p_send_vq_heads ans (dc_idx c) (dc_size c) (dv_available_index q) host_avail_idx (dc_driver c) (dpu_xmkey q)) in
                   do! upd_stats (fun t => t ⦇ n_vq_heads := u32 (n_vq_heads t + 1) ⦈) in mreturn n
                 else
                   let! n := on_p2p (snap_dpa_p2p_send_vq_table_cont ans (dc_idx c) (dc_size c) (dv_available_index q) host_avail_idx (dc_driver c) (dpu_xmkey q)) in
                   do! upd_stats (fun t => t ⦇ n_vq_tables := u32 (n_vq_tables t + 1) ⦈) in mreturn n) in
      if n <=? 0 then do! fatal_err in mreturn false
      else
        do! upd_stats (fun t => t ⦇ n_sends := u32 (n_sends t + 1) ⦈ ⦇ n_long_sends := u32 (n_long_sends t + 1) ⦈) in
        if negb (u16 (dv_available_index q + u16 n) =? host_avail_idx) then send_again fuel n delta host_avail_idx else mreturn true
  end.

(** The first message: the heads alone, or the table of descriptors and the heads. *)
Definition send_first (delta host_avail_idx : Z) : V Z :=
  let! q := get_vq in
  let c := dv_common q in
  if delta <? DPA_TABLE_THRESHOLD then
    let! n := on_p2p (snap_dpa_p2p_send_vq_heads ans (dc_idx c) (dc_size c) (dv_available_index q) host_avail_idx (dc_driver c) (dpu_xmkey q)) in
    do! m_when (0 <? n) (upd_stats (fun t => t ⦇ n_vq_heads := u32 (n_vq_heads t + 1) ⦈)) in mreturn n
  else
    let! n := on_p2p (snap_dpa_p2p_send_vq_table ans (dc_idx c) (dc_size c) (dv_available_index q) host_avail_idx (dc_driver c) (dpu_xmkey q)
                        (dc_desc c) (dpu_desc_shadow_addr q) (dpu_desc_shadow_mkey q)) in
    do! m_when (0 <? n) (upd_stats (fun t => t ⦇ n_vq_tables := u32 (n_vq_tables t + 1) ⦈)) in mreturn n.

(** From the read of the available index of the host on. *)
Definition send_new_heads : V unit :=
  let! host_avail_idx := gets host_avail in
  let! q := get_vq in
  if dv_available_index q =? host_avail_idx then mreturn tt
  else
    let delta := u16 (host_avail_idx - dv_available_index q) in
    if dc_size (dv_common q) <? delta then fatal_err
    else
      do! upd_stats (fun t => t ⦇ n_io_submited := u32 (n_io_submited t + delta) ⦈) in
      let! n := send_first delta host_avail_idx in
      if n <=? 0 then fatal_err
      else
        do! upd_stats (fun t => t ⦇ n_sends := u32 (n_sends t + 1) ⦈) in
        let! ok := (if negb (n =? delta) then send_again (Z.to_nat delta) n delta host_avail_idx else mreturn true) in
        if negb ok then mreturn tt
        else
          do! upd_dvq (fun q => q ⦇ dv_available_index := host_avail_idx ⦈) in
          do_io ProgressTx.

Definition virtq_progress : V unit :=
  let! q := get_vq in
  if negb (bool_decide (dv_state q = DPA_VIRTQ_STATE_RDY)) then mreturn tt
  else
    do! upd_stats (fun t => t ⦇ n_polls := u32 (n_polls t + 1) ⦈) in
    let! msix_count := dpa_virtq_msix_recv in
    do! m_when (negb (msix_count =? 0)) dpa_virtq_msix_raise in
    do! event_io ArmDbCq in
    let! db := gets dt_db in
    let n := Nat.min db SNAP_DPA_RT_THR_SINGLE_DB_CQE_CNT in
    do! modify (fun s => s ⦇ dt_db := (db - n)%nat ⦈) in
    do! upd_stats (fun t => if (n =? 0)%nat then t ⦇ n_db_empty := u32 (n_db_empty t + 1) ⦈ else t ⦇ n_db_cqes := u32 (n_db_cqes t + Z.of_nat n) ⦈) in
    do! do_io DuarArm in
    let! q := get_vq in
    if (n =? 0)%nat && negb (dv_pending q) then mreturn tt
    else
      do! upd_dvq (fun q => q ⦇ dv_pending := false ⦈) in
      send_new_heads.
End Dpa.
