(* ===== verification/DpaVqProps.v ===== *)
(** What the DPA thread of a virtqueue sends: the entries of the available ring that are new,
    each once and in order, whatever wraps around. *)

From stdpp Require Import list.
From S2P Require Import Prelude Effects DpaVq.

(** * The places of a ring *)

(** The addresses of [n] entries of a ring of [size] entries of [width] bytes, from index [a] on. *)
Definition ring_slots (base width size a : Z) (n : nat) : list Z :=
  map (fun i => base + width * ((a + Z.of_nat i) mod size)) (seq 0 n).

(** Those of the available ring. *)
Definition slots (driver size a : Z) (n : nat) : list Z := ring_slots (driver + 4) 2 size a n.

(** The addresses of the heads that the device puts in a message. *)
Definition head_addrs (p : p2p_post) : list Z :=
  match p with
  | PHeads _ _ _ _ count raddr _ => map (fun i => raddr + 2 * Z.of_nat i) (seq 0 (Z.to_nat count))
  | _ => []
  end.
Definition all_heads (ps : list p2p_post) : list Z := concat (map head_addrs ps).

Definition head_types : list Z := [SNAP_DPA_P2P_MSG_VQ_HEADS; SNAP_DPA_P2P_MSG_VQ_TABLE; SNAP_DPA_P2P_MSG_VQ_TABLE_CONT].

(** A message of heads fits: at least one, no more than there is room for, and a type that the
    DPU knows. *)
Definition post_fits (p : p2p_post) : Prop :=
  match p with
  | PHeads ty _ _ _ count _ _ =>
      1 <= count <= SNAP_DPA_P2P_VQ_MAX_HEADS /\ ty ∈ head_types
  | _ => True
  end.

Lemma slots_app base width size a n m : ring_slots base width size a (n + m) = ring_slots base width size a n ++ ring_slots base width size (a + Z.of_nat n) m.
Proof.
  unfold ring_slots. rewrite seq_app, map_app. f_equal. rewrite <- (Nat.add_0_r (0 + n)), <- map_add_seq, map_map.
  apply map_ext. intros i. do 3 f_equal. lia.
Qed.

Lemma mod_u16 k a : 0 <= k <= 16 -> u16 a mod 2 ^ k = a mod 2 ^ k.
Proof.
  intros Hk. unfold u16, uwrap. apply Z.mod_mod_divide. exists (2 ^ (16 - k)). rewrite <- Z.pow_add_r by lia. f_equal. lia.
Qed.

Lemma slots_u16 base width k a n : 0 <= k <= 16 -> ring_slots base width (2 ^ k) (u16 a) n = ring_slots base width (2 ^ k) a n.
Proof.
  intros Hk. unfold ring_slots. apply map_ext. intros i. do 2 f_equal. by rewrite Zplus_mod, mod_u16, <- Zplus_mod.
Qed.

(** No wrap in the middle of a message. *)
Lemma slots_message base width size a n : 0 < size -> a mod size + Z.of_nat n <= size ->
  ring_slots base width size a n = map (fun i => base + width * (a mod size) + width * Z.of_nat i) (seq 0 n).
Proof.
  intros Hs Hn. unfold ring_slots. apply map_ext_in. intros i Hi%in_seq.
  rewrite <- Zplus_mod_idemp_l, (Z.mod_small (a mod size + _)); [lia|]. pose proof (Z.mod_pos_bound a size Hs). lia.
Qed.

Lemma all_heads_app ps ps' : all_heads (ps ++ ps') = all_heads ps ++ all_heads ps'.
Proof. unfold all_heads. by rewrite map_app, concat_app. Qed.

(** ** A message *)

Lemma heads_count_spec k a h : 0 <= k <= 15 -> 0 < u16 (h - a) ->
  exists n, heads_count (2 ^ k) a h = (n, a mod 2 ^ k) /\ 1 <= n <= SNAP_DPA_P2P_VQ_MAX_HEADS /\ n <= u16 (h - a) /\ a mod 2 ^ k + n <= 2 ^ k.
Proof.
  intros Hk Hd. assert (Hs : 0 < 2 ^ k <= 2 ^ 15) by (split; [lia|apply Z.pow_le_mono_r; lia]).
  pose proof (Z.mod_pos_bound a (2 ^ k) (proj1 Hs)) as Hm. assert (Hp : u16 (Z.land a (2 ^ k - 1)) = a mod 2 ^ k).
  { rewrite land_mask by lia. apply u16_small. lia. }
  unfold heads_count. cbv zeta. rewrite Hp. eexists. split; [reflexivity|]. change SNAP_DPA_P2P_VQ_MAX_HEADS with 27.
  destruct (27 <? u16 (h - a)) eqn:E1; bool_to_prop; (destruct (2 ^ k <? _) eqn:E2; bool_to_prop; [rewrite u16_small by lia|]; lia).
Qed.

(** * A turn of the thread *)

(** What a driver sets up: a power of two for the size, and a ring inside the address space;
    the indices are 16 bits wide. *)
Record vq_ok (s : dpa_thread) : Prop := mk_vq_ok {
  ok_size : exists k, 0 <= k <= 15 /\ dc_size (dv_common (dt_vq s)) = 2 ^ k;
  ok_driver : 0 <= dc_driver (dv_common (dt_vq s)) /\ dc_driver (dv_common (dt_vq s)) + 4 + 2 * dc_size (dv_common (dt_vq s)) <= 2 ^ 64;
  ok_avail : 0 <= dv_available_index (dt_vq s) < 2 ^ 16;
  ok_host : 0 <= host_avail s < 2 ^ 16
}.

(** From [s] to [s'], [ps] was posted; the queue is the same but for its progress. *)
Record sent (s s' : dpa_thread) (ps : list p2p_post) : Prop := mk_sent {
  sent_common : dv_common (dt_vq s') = dv_common (dt_vq s);
  sent_host : host_avail s' = host_avail s;
  sent_posts : p2_posts (dt_chan s') = p2_posts (dt_chan s) ++ ps;
  sent_tick : (p2_tick (dt_chan s) <= p2_tick (dt_chan s'))%nat;
  sent_fits : Forall post_fits ps
}.

Lemma sent_same s s' : dv_common (dt_vq s') = dv_common (dt_vq s) -> host_avail s' = host_avail s ->
  dt_chan s' = dt_chan s -> sent s s' [].
Proof. intros Hc Hh Hp. split; [done..|by rewrite Hp, app_nil_r|by rewrite Hp|done]. Qed.

Lemma sent_refused s s' : dv_common (dt_vq s') = dv_common (dt_vq s) -> host_avail s' = host_avail s ->
  p2_posts (dt_chan s') = p2_posts (dt_chan s) -> p2_tick (dt_chan s') = S (p2_tick (dt_chan s)) -> sent s s' [].
Proof. intros Hc Hh Hp Ht. split; [done..|by rewrite Hp, app_nil_r|lia|done]. Qed.

Lemma sent_trans s1 s2 s3 ps ps' : sent s1 s2 ps -> sent s2 s3 ps' -> sent s1 s3 (ps ++ ps').
Proof.
  intros [Hc Hh Hp Ht Hf] [Hc' Hh' Hp' Ht' Hf']. split; [congruence..| |lia|by apply Forall_app].
  by rewrite Hp', Hp, (assoc_L (++)).
Qed.

Definition delta_of (s : dpa_thread) (a : Z) : nat := Z.to_nat (u16 (host_avail s - a)).
Definition slots_of (s : dpa_thread) (a : Z) (n : nat) : list Z :=
  slots (dc_driver (dv_common (dt_vq s))) (dc_size (dv_common (dt_vq s))) a n.

Section Send.
Context (ans : nat -> Z) (Hans : forall k, ans k <= 0).

(** The last post from [s] to [s'] was refused. *)
Definition refused (s s' : dpa_thread) : Prop :=
  exists k, (p2_tick (dt_chan s) <= k)%nat /\ p2_tick (dt_chan s') = S k /\ ans k <> 0.
Lemma refused_chan s s1 s' : dt_chan s1 = dt_chan s -> refused s1 s' <-> refused s s'.
Proof. unfold refused. by intros ->. Qed.
Lemma refused_before s s1 s' ps : sent s s1 ps -> refused s1 s' -> refused s s'.
Proof. intros [_ _ _ Ht _] (k & Hk & Hl & Ha). exists k. split; [lia|done]. Qed.

(** A message of heads from index [a] on: it is refused, or it carries the next entries. *)
Definition send_result (s : dpa_thread) (a n : Z) (s' : dpa_thread) : Prop :=
  dv_available_index (dt_vq s') = dv_available_index (dt_vq s) /\ dv_state (dt_vq s') = dv_state (dt_vq s) /\
  exists ps, sent s s' ps /\
  (n < 0 /\ all_heads ps = [] /\ refused s s' \/
   1 <= n <= u16 (host_avail s - a) /\ all_heads ps = slots_of s a (Z.to_nat n)).

Lemma send_update_ok ty s a :
  vq_ok s -> 0 <= a < 2 ^ 16 -> 0 < u16 (host_avail s - a) ->
  ty ∈ head_types ->
  post (on_p2p (send_vq_update ans 1 ty (dc_idx (dv_common (dt_vq s))) (dc_size (dv_common (dt_vq s))) a (host_avail s)
                  (dc_driver (dv_common (dt_vq s))) (dpu_xmkey (dt_vq s))))
    (fun n s' => send_result s a n s') s.
Proof.
  intros [(k & Hk & Hsz) Hdrv Hav Hh] Ha Hd Hty. rewrite Hsz in *.
  destruct (heads_count_spec k a (host_avail s) Hk Hd) as (n & En & Hn & Hnd & Hpos).
  pose proof (Z.mod_pos_bound a (2 ^ k) ltac:(lia)) as Hm.
  unfold post, on_p2p, send_vq_update, p2_post. rewrite En. unfold m_bind, gets, modify. cbn [res_bind fst snd].
  pose proof (Hans (p2_tick (dt_chan s))) as Hle. destruct (ans (p2_tick (dt_chan s)) =? 0) eqn:Ea; cbn [negb].
  - unfold mreturn. cbn [res_bind fst snd negb Z.eqb]. do 2 (split; [done|]). eexists. split; [split; [done..| | |]|right; split; [lia|]].
    + reflexivity.
    + cbn. lia.
    + apply Forall_singleton. split; [lia|done].
    + unfold all_heads. cbn [map concat head_addrs]. rewrite app_nil_r, u64_small by lia. unfold slots_of. rewrite Hsz.
      symmetry. apply slots_message; lia.
  - cbn [res_bind fst snd]. unfold mreturn. cbn [res_bind negb]. rewrite Ea. cbn [negb res_bind fst snd]. bool_to_prop. do 2 (split; [done|]). exists []. split; [by apply sent_refused|left].
    split; [lia|]. split; [done|]. by exists (p2_tick (dt_chan s)).
Qed.

(** A change that leaves the ring, the index and the state of the queue as they are. *)
Lemma send_result_upd s a n s' s1 :
  send_result s a n s' -> dv_common (dt_vq s1) = dv_common (dt_vq s') -> host_avail s1 = host_avail s' -> dt_chan s1 = dt_chan s' ->
  dv_available_index (dt_vq s1) = dv_available_index (dt_vq s') -> dv_state (dt_vq s1) = dv_state (dt_vq s') -> send_result s a n s1.
Proof.
  intros (Ha & Hst & ps & [Hc Hh Hp Ht Hf] & Hn) Hc1 Hh1 Hp1 Ha1 Hst1. split; [congruence|]. split; [congruence|].
  exists ps. split; [|unfold refused; by rewrite Hp1]. split; [congruence..|by rewrite Hp1|by rewrite Hp1|done].
Qed.

Lemma post_on_p2p_bind {A B} (m : M snap_dpa_p2p_q A) (f : A -> M snap_dpa_p2p_q B) P s :
  post (let! a := on_p2p m in on_p2p (f a)) P s -> post (on_p2p (m_bind m f)) P s.
Proof.
  unfold post, on_p2p, m_bind. destruct (m (dt_chan s)) as [[q a]| | |]; cbn [res_bind fst snd]; done.
Qed.

Lemma send_table_ok s a desc shadow shadow_mkey :
  vq_ok s -> 0 <= a < 2 ^ 16 -> 0 < u16 (host_avail s - a) ->
  post (on_p2p (snap_dpa_p2p_send_vq_table ans (dc_idx (dv_common (dt_vq s))) (dc_size (dv_common (dt_vq s))) a (host_avail s)
                  (dc_driver (dv_common (dt_vq s))) (dpu_xmkey (dt_vq s)) desc shadow shadow_mkey))
    (fun n s' => send_result s a n s') s.
Proof.
  intros Hok Ha Hd. unfold snap_dpa_p2p_send_vq_table. apply post_on_p2p_bind.
  unfold post, m_bind at 1, on_p2p at 1, p2_post, gets, modify. unfold m_bind. cbn [res_bind fst snd].
  pose proof (Hans (p2_tick (dt_chan s))) as Hle. destruct (ans (p2_tick (dt_chan s)) =? 0) eqn:Ea; cbn [negb].
  - cbn [res_bind fst snd]. unfold mreturn at 1. cbn [res_bind fst snd negb Z.eqb].
    match goal with |- match on_p2p _ ?x with _ => _ end => set (s1 := x) end.
    assert (Hs1 : vq_ok s1) by (destruct Hok; by split).
    pose proof (send_update_ok SNAP_DPA_P2P_MSG_VQ_TABLE s1 a Hs1 Ha Hd ltac:(by in_list)) as Hsend.
    unfold post in Hsend. change (dt_vq s1) with (dt_vq s) in Hsend. change (host_avail s1) with (host_avail s) in Hsend.
    destruct (on_p2p _ s1) as [[s2 n]| | |]; try done. destruct Hsend as (Hav & Hst & ps & Hsent & Hn). do 2 (split; [done|]).
    eexists (_ :: ps). split; [apply (sent_trans s s1 s2 [_] ps); [|exact Hsent]; split; [done..| | |]|].
    + reflexivity.
    + cbn. lia.
    + by apply Forall_singleton.
    + destruct Hn as [(Hn & Hh & k & Hk & Hl & Hne)|Hn]; [left|by right]. split; [done|]. split; [done|]. exists k. split; [cbn in Hk; lia|done].
  - unfold mreturn. cbn [res_bind fst snd negb]. rewrite Ea. unfold on_p2p. cbn [negb res_bind fst snd]. bool_to_prop.
    do 2 (split; [done|]). exists []. split; [by apply sent_refused|left]. split; [lia|]. split; [done|]. by exists (p2_tick (dt_chan s)).
Qed.

Lemma send_first_ok s :
  vq_ok s -> 0 < u16 (host_avail s - dv_available_index (dt_vq s)) ->
  post (send_first ans (u16 (host_avail s - dv_available_index (dt_vq s))) (host_avail s)) (fun n s' => send_result s (dv_available_index (dt_vq s)) n s') s.
Proof.
  intros Hok Hd. pose proof (ok_avail s Hok) as Ha. unfold send_first. apply post_gets. cbv zeta.
  destruct (_ <? DPA_TABLE_THRESHOLD).
  - eapply post_bind_mono; [apply send_update_ok; [done..|by in_list]|]. intros n s' Hr. cbn beta in Hr.
    apply post_bind. destruct (0 <? n); apply post_return; [|done]. eapply send_result_upd; [exact Hr|done..].
  - eapply post_bind_mono; [by apply send_table_ok|]. intros n s' Hr. cbn beta in Hr.
    apply post_bind. destruct (0 <? n); apply post_return; [|done]. eapply send_result_upd; [exact Hr|done..].
Qed.

(** ** The loop *)

Lemma delta_step h a n : 0 <= h < 2 ^ 16 -> 1 <= n <= u16 (h - a) ->
  u16 (h - u16 (a + n)) = u16 (h - a) - n /\ (u16 (a + n) = h <-> u16 (h - a) = n).
Proof. unfold u16, uwrap. intros Hh Hn. Z.div_mod_to_equations. lia. Qed.

(** All the entries from [a] on were sent, or the queue failed after some of them. *)
Definition turn_result (s : dpa_thread) (a : Z) (ok : bool) (s' : dpa_thread) : Prop :=
  exists ps m, sent s s' ps /\ all_heads ps = slots_of s a m /\
  if ok then dv_state (dt_vq s') = dv_state (dt_vq s) /\ m = delta_of s a
  else dv_state (dt_vq s') = DPA_VIRTQ_STATE_ERR /\ (m <= delta_of s a)%nat /\ refused s s'.

Lemma turn_result_failed s a n s' s1 :
  send_result s a n s' -> n <= 0 -> sent s' s1 [] -> dt_chan s1 = dt_chan s' -> dv_state (dt_vq s1) = DPA_VIRTQ_STATE_ERR -> turn_result s a false s1.
Proof.
  intros (_ & _ & ps & Hs & [(_ & Hh & Hk)|?]) Hn Hs1 Hch Hst; [|lia]. exists (ps ++ []), 0%nat. split; [by eapply sent_trans|].
  rewrite app_nil_r. split; [done|]. split; [done|]. split; [lia|]. unfold refused. by rewrite Hch.
Qed.

Lemma turn_result_more s a n s' ok s2 :
  vq_ok s -> send_result s a n s' -> 0 < n -> turn_result s' (u16 (a + n)) ok s2 -> turn_result s a ok s2.
Proof.
  intros Hok (_ & Hst & ps & Hs & Hcase) Hn (ps' & m & Hs' & Hh' & Hr). destruct Hcase as [?|[Hb Hh]]; [lia|].
  destruct (delta_step _ a n (ok_host s Hok) Hb) as [Hd _]. pose proof (ok_size s Hok) as (k & Hk & Hsz).
  assert (Hdel : delta_of s a = (Z.to_nat n + delta_of s' (u16 (a + n)))%nat).
  { unfold delta_of. rewrite (sent_host _ _ _ Hs), Hd. lia. }
  exists (ps ++ ps'), (Z.to_nat n + m)%nat. split; [by eapply sent_trans|]. split.
  - rewrite all_heads_app, Hh, Hh'. unfold slots_of, slots. rewrite (sent_common _ _ _ Hs), slots_app. f_equal. rewrite Hsz, slots_u16 by lia. f_equal. lia.
  - destruct ok; [destruct Hr; split; [congruence|lia]|]. destruct Hr as (Hst' & Hm & Hk'). split; [done|]. split; [lia|by eapply refused_before].
Qed.

Lemma turn_result_last s a n s' s1 :
  vq_ok s -> send_result s a n s' -> 0 < n -> u16 (a + n) = host_avail s -> sent s' s1 [] -> dv_state (dt_vq s1) = dv_state (dt_vq s') -> turn_result s a true s1.
Proof.
  intros Hok (_ & Hst & ps & Hs & Hcase) Hn Hlast Hs1 Hst1. destruct Hcase as [?|[Hb Hh]]; [lia|].
  apply (delta_step _ a n (ok_host s Hok) Hb) in Hlast. exists (ps ++ []), (Z.to_nat n). split; [by eapply sent_trans|].
  rewrite app_nil_r. split; [done|]. split; [congruence|]. unfold delta_of. by rewrite Hlast.
Qed.

(** The state of the queue between two messages. *)
Lemma vq_ok_move s s' ps a :
  vq_ok s -> sent s s' ps -> dv_available_index (dt_vq s') = u16 a -> vq_ok s'.
Proof.
  intros [Hs Hd Ha Hh] [Hc Hh' _ _ _] Ha'. split; rewrite ?Hc, ?Hh'; [done..| |done]. rewrite Ha'. apply u16_range.
Qed.

Lemma send_more_ok s delta :
  vq_ok s -> 0 < u16 (host_avail s - dv_available_index (dt_vq s)) ->
  let q := dt_vq s in let c := dv_common q in
  post (if delta <? DPA_TABLE_THRESHOLD then
          let! n := on_p2p (snap_dpa_p2p_send_vq_heads ans (dc_idx c) (dc_size c) (dv_available_index q) (host_avail s) (dc_driver c) (dpu_xmkey q)) in
          do! upd_stats (fun t => t ⦇ n_vq_heads := u32 (n_vq_heads t + 1) ⦈) in mreturn n
        else
          let! n := on_p2p (snap_dpa_p2p_send_vq_table_cont ans (dc_idx c) (dc_size c) (dv_available_index q) (host_avail s) (dc_driver c) (dpu_xmkey q)) in
          do! upd_stats (fun t => t ⦇ n_vq_tables := u32 (n_vq_tables t + 1) ⦈) in mreturn n)
    (fun n s' => send_result s (dv_available_index q) n s') s.
Proof.
  intros Hok Hd. pose proof (ok_avail s Hok) as Ha. cbv zeta.
  destruct (delta <? DPA_TABLE_THRESHOLD);
    (eapply post_bind_mono; [apply send_update_ok; [done..|by in_list]|]; intros n s' Hr; cbn beta in Hr;
     eapply send_result_upd; [exact Hr|done..]).
Qed.

Lemma send_again_ok delta fuel : forall s n,
  vq_ok s -> 0 < u16 (host_avail s - u16 (dv_available_index (dt_vq s) + n)) <= Z.of_nat fuel ->
  post (send_again ans fuel n delta (host_avail s)) (turn_result s (u16 (dv_available_index (dt_vq s) + n))) s.
Proof.
  induction fuel as [|fuel IH]; intros s n Hok Hd; [lia|]. cbn [send_again]. apply post_modify. set (a := u16 (dv_available_index (dt_vq s) + n)) in *.
  set (s1 := s ⦇ dt_vq := _ ⦈).
  assert (Hs1 : sent s s1 []) by by apply sent_same.
  assert (Hok1 : vq_ok s1) by (by eapply vq_ok_move).
  eapply post_mono with (P := turn_result s1 a); [|intros ok s2 (ps & m & Hs & Hh & Hr); exists ps, m; split; [exact (sent_trans _ _ _ [] _ Hs1 Hs)|split; [done|]; destruct ok; [done|]; destruct Hr as (? & ? & ?); split_and!; [done..|by eapply refused_before]]].
  apply post_gets. cbv zeta. eapply post_bind_mono; [exact (send_more_ok s1 delta Hok1 (proj1 Hd))|]. intros n1 s2 Hr. cbn beta in Hr.
  change (dv_available_index (dt_vq s1)) with a in Hr. change (dv_available_index (dt_vq s1)) with a.
  destruct (n1 <=? 0) eqn:En; bool_to_prop.
  - apply post_modify, post_return. by eapply turn_result_failed; [exact Hr|done|apply sent_same| |].
  - apply post_modify. set (s3 := s2 ⦇ dt_vq := _ ⦈).
    assert (Hr3 : send_result s1 a n1 s3) by (eapply send_result_upd; [exact Hr|done..]). pose proof Hr3 as (Ha3 & _ & ps & Hs3 & Hcase).
    destruct Hcase as [?|[Hb Hh]]; [lia|]. pose proof (u16_range (host_avail s1 - a)). rewrite (u16_small n1) by lia.
    destruct (u16 (a + n1) =? host_avail s) eqn:Ee; bool_to_prop; cbn [negb].
    + apply post_return. by eapply turn_result_last; [done|exact Hr3|lia|done|apply sent_same|].
    + assert (Hok3 : vq_ok s3) by (eapply vq_ok_move; [exact Hok1|exact Hs3|exact Ha3]).
      destruct (delta_step (host_avail s1) a n1 (ok_host _ Hok1) Hb) as [Hstep Hlast].
      assert (Hh3 : host_avail s3 = host_avail s) by apply (sent_host _ _ _ Hs3).
      rewrite <- Hh3. eapply post_mono; [apply IH; [done|]|].
      * rewrite Ha3, Hh3. change (dv_available_index (dt_vq s1)) with a. change (host_avail s1) with (host_avail s) in *. lia.
      * intros ok s4. rewrite Ha3. intros Ht. by eapply turn_result_more; [exact Hok1|exact Hr3|lia|].
Qed.

(** ** From the read of the index on *)

Definition progress_result (s s' : dpa_thread) : Prop :=
  exists ok, turn_result s (dv_available_index (dt_vq s)) ok s' /\ (ok = true -> dv_available_index (dt_vq s') = host_avail s).

Lemma turn_result_before s s1 a ok s' : sent s s1 [] -> dv_state (dt_vq s1) = dv_state (dt_vq s) -> turn_result s1 a ok s' -> turn_result s a ok s'.
Proof.
  intros Hs Hst (ps & m & Hs1 & Hh & Hr). exists ps, m. split; [exact (sent_trans _ _ _ [] _ Hs Hs1)|].
  unfold slots_of, delta_of in *. rewrite (sent_common _ _ _ Hs), (sent_host _ _ _ Hs), Hst in *. split; [done|].
  destruct ok; [done|]. destruct Hr as (? & ? & ?). split_and!; [done..|by eapply refused_before].
Qed.

Lemma turn_result_after s a s1 s' : turn_result s a true s1 -> sent s1 s' [] -> dv_state (dt_vq s') = dv_state (dt_vq s1) -> turn_result s a true s'.
Proof.
  intros (ps & m & Hs & Hh & Hst & Hm) Hs1 Hst1. exists (ps ++ []), m. split; [by eapply sent_trans|]. rewrite app_nil_r.
  split; [done|]. split; [congruence|done].
Qed.

Lemma progress_nothing s : vq_ok s -> dv_available_index (dt_vq s) = host_avail s -> progress_result s s.
Proof.
  intros Hok Heq. exists true. split; [|done]. exists [], 0%nat. split; [by apply sent_same|]. split; [done|]. split; [done|].
  unfold delta_of. by rewrite Heq, Z.sub_diag.
Qed.

Lemma delta_pos h a : 0 <= h < 2 ^ 16 -> 0 <= a < 2 ^ 16 -> a <> h -> 0 < u16 (h - a).
Proof. unfold u16, uwrap. intros Hh Ha Hne. Z.div_mod_to_equations. lia. Qed.

(** The messages after the first one. *)
Lemma send_rest_ok s a n s2 :
  vq_ok s -> dv_available_index (dt_vq s) = a -> send_result s a n s2 -> 0 < n ->
  post (if negb (n =? u16 (host_avail s - a)) then send_again ans (Z.to_nat (u16 (host_avail s - a))) n (u16 (host_avail s - a)) (host_avail s) else mreturn true)
    (turn_result s a) s2.
Proof.
  intros Hok Ha Hr Hn. pose proof Hr as (Ha2 & _ & ps & Hs & Hcase). destruct Hcase as [?|[Hb Hh]]; [lia|].
  destruct (delta_step _ a n (ok_host s Hok) Hb) as [Hstep Hlast].
  destruct (n =? u16 (host_avail s - a)) eqn:Ee; bool_to_prop; cbn [negb].
  - apply post_return. eapply turn_result_last; [done|exact Hr|done|by apply Hlast|by apply sent_same|done].
  - assert (Hok2 : vq_ok s2).
    { eapply (vq_ok_move s s2 ps a); [done..|]. rewrite Ha2, Ha, u16_small; [done|]. rewrite <- Ha. apply ok_avail, Hok. }
    pose proof (sent_host _ _ _ Hs) as Hh2. rewrite <- Hh2. eapply post_mono; [apply send_again_ok; [done|]|].
    + rewrite Ha2, Ha, Hh2. lia.
    + intros ok s4. rewrite Ha2, Ha. intros Ht. by eapply turn_result_more; [exact Hok|exact Hr|lia|].
Qed.

Lemma send_new_heads_ok s :
  vq_ok s -> Z.of_nat (delta_of s (dv_available_index (dt_vq s))) <= dc_size (dv_common (dt_vq s)) ->
  post (send_new_heads ans) (fun _ s' => progress_result s s') s.
Proof.
  intros Hok Hd. unfold send_new_heads. apply post_gets, post_gets. set (a := dv_available_index (dt_vq s)) in *.
  destruct (a =? host_avail s) eqn:Ea; bool_to_prop; [by apply post_return, progress_nothing|]. cbv zeta.
  pose proof (delta_pos _ a (ok_host s Hok) (ok_avail s Hok) Ea) as Hpos. unfold delta_of in Hd.
  destruct (_ <? u16 _) eqn:El; bool_to_prop; [lia|]. apply post_modify. set (s1 := s ⦇ dt_vq := _ ⦈).
  assert (Hs1 : sent s s1 []) by (by apply sent_same). assert (Hok1 : vq_ok s1) by (destruct Hok; by split).
  eapply post_mono with (P := fun _ s' => progress_result s1 s').
  2:{ intros _ s' (ok & Ht & Hend). exists ok. split; [|done]. by eapply turn_result_before. }
  eapply post_bind_mono; [exact (send_first_ok s1 Hok1 Hpos)|]. intros n s2 Hr. cbn beta in Hr.
  destruct (n <=? 0) eqn:En; bool_to_prop.
  { exists false. split; [|done]. by eapply turn_result_failed; [exact Hr|done|apply sent_same| |]. }
  apply post_modify. set (s3 := s2 ⦇ dt_vq := _ ⦈).
  assert (Hr3 : send_result s1 a n s3) by (eapply send_result_upd; [exact Hr|done..]).
  eapply post_bind_mono; [exact (send_rest_ok s1 a n s3 Hok1 eq_refl Hr3 ltac:(lia))|]. intros ok s4 Ht. destruct ok; cbn [negb].
  - exists true. split; [|done]. eapply turn_result_after; [exact Ht|by apply sent_same|done].
  - apply post_return. by exists false.
Qed.
End Send.

(** ** Interrupts *)

(** What the reception and the delivery of interrupts leave alone. *)
Definition ring_view (s : dpa_thread) :=
  (dv_common (dt_vq s), dv_available_index (dt_vq s), dv_state (dt_vq s), dv_pending (dt_vq s), dt_db s, host_avail s, dt_chan s).

Lemma recv_all_ok fuel : forall s c,
  (dt_rx s < fuel)%nat -> post (recv_all fuel c) (fun n s' => n = c + Z.of_nat (dt_rx s) /\ dt_rx s' = 0%nat) s.
Proof.
  induction fuel as [|fuel IH]; intros s c Hf; [lia|]. cbn [recv_all]. apply post_assoc, post_gets. cbv zeta. apply post_assoc, post_modify, post_bind, post_return.
  destruct (Nat.min (dt_rx s) VIRTQ_DPA_NUM_P2P_MSGS =? 0)%nat eqn:E.
  - apply Nat.eqb_eq in E. unfold VIRTQ_DPA_NUM_P2P_MSGS in *. apply post_return. cbn. lia.
  - apply Nat.eqb_neq in E. unfold VIRTQ_DPA_NUM_P2P_MSGS in *.
    eapply post_mono; [apply IH; cbn; lia|]. cbn. lia.
Qed.

Lemma recv_all_view fuel : forall c, preserves ring_view (recv_all fuel c).
Proof. induction fuel as [|fuel IH]; intros c; cbn [recv_all]; unfold recv_msg; solve_preserves. Qed.
#[export] Hint Resolve recv_all_view : preserves.

Lemma msix_recv_view event : preserves ring_view (dpa_virtq_msix_recv event).
Proof. unfold dpa_virtq_msix_recv, event_io, m_when, do_io, upd_stats, upd_dvq. solve_preserves. Qed.
Lemma msix_raise_view : preserves ring_view dpa_virtq_msix_raise.
Proof. unfold dpa_virtq_msix_raise, dpa_virtq_msix_arm, do_io, upd_stats, upd_dvq, get_vq. solve_preserves. Qed.
Lemma event_io_view event i : preserves ring_view (event_io event i).
Proof. unfold event_io, m_when, do_io. solve_preserves. Qed.
#[export] Hint Resolve msix_recv_view msix_raise_view event_io_view : preserves.

Lemma msix_recv_returns event s : post (dpa_virtq_msix_recv event) (fun n s' => n = Z.of_nat (dt_rx s) /\ dt_rx s' = 0%nat) s.
Proof.
  unfold dpa_virtq_msix_recv. apply post_bind. assert (Hev : post (event_io event ArmRxCq) (fun _ s' => dt_rx s' = dt_rx s) s) by (by destruct event).
  eapply post_mono; [exact Hev|]. cbn beta. intros _ s1 Hrx. apply post_gets. eapply post_bind_mono; [apply recv_all_ok; lia|].
  intros n s2 [-> Hrx2]. cbn beta. rewrite <- Hrx, Z.add_0_l. destruct (Z.of_nat (dt_rx s1) =? 0) eqn:E; bool_to_prop; [apply post_return; lia|]. done.
Qed.

(** ** The turn *)

(** Everything of [virtq_progress] before the read of the index. *)
Lemma progress_prelude ans event (P : unit -> dpa_thread -> Prop) s :
  dv_state (dt_vq s) = DPA_VIRTQ_STATE_RDY ->
  (forall s1, dv_common (dt_vq s1) = dv_common (dt_vq s) -> dv_available_index (dt_vq s1) = dv_available_index (dt_vq s) ->
     dv_state (dt_vq s1) = DPA_VIRTQ_STATE_RDY -> host_avail s1 = host_avail s -> dt_chan s1 = dt_chan s ->
     if (dt_db s =? 0)%nat && negb (dv_pending (dt_vq s)) then P tt s1 else post (send_new_heads ans) P s1) ->
  post (virtq_progress ans event) P s.
Proof.
  intros Hst Hk. unfold virtq_progress. apply post_gets. rewrite bool_decide_eq_true_2 by done. cbn [negb]. apply post_modify.
  set (s0 := s ⦇ dt_vq := _ ⦈). assert (Hv0 : ring_view s0 = ring_view s) by done.
  eapply post_bind_mono; [apply (post_preserves ring_view); [apply msix_recv_view|apply msix_recv_returns]|]. intros n s1 [_ Hv1]. cbn beta.
  eapply post_bind_mono with (P := fun _ s2 => ring_view s2 = ring_view s).
  { destruct (negb (n =? 0)); [|apply post_return; congruence]. rewrite <- Hv0, <- Hv1. done. }
  intros _ s2 Hv2. cbn beta. eapply post_bind_mono with (P := fun _ s3 => ring_view s3 = ring_view s); [by destruct event|].
  intros _ s3 Hv3. cbn beta. apply post_gets. cbv zeta. apply post_modify, post_modify, post_modify, post_gets.
  unfold ring_view in Hv3. injection Hv3 as Hc Ha Hs Hp Hdb Hh Hch.
  assert (Hn : (Nat.min (dt_db s3) SNAP_DPA_RT_THR_SINGLE_DB_CQE_CNT =? 0)%nat = (dt_db s =? 0)%nat).
  { rewrite Hdb. unfold SNAP_DPA_RT_THR_SINGLE_DB_CQE_CNT. destruct (dt_db s) as [|[|?]]; done. }
  destruct (Nat.min _ _ =? 0)%nat eqn:En; cbn [andb].
  - change (dv_pending (dt_vq _)) with (dv_pending (dt_vq s3)). rewrite Hp. destruct (dv_pending (dt_vq s)); cbn [negb].
    + apply post_modify. rewrite <- Hn in Hk. apply Hk; cbn; congruence.
    + apply post_return. rewrite <- Hn in Hk. apply Hk; cbn; congruence.
  - apply post_modify. rewrite <- Hn in Hk. apply Hk; cbn; congruence.
Qed.

(** The new entries of the available ring, as the thread sees them. *)
Definition new_slots (s : dpa_thread) (n : nat) : list Z := slots_of s (dv_available_index (dt_vq s)) n.
Definition new_count (s : dpa_thread) : nat := delta_of s (dv_available_index (dt_vq s)).

Lemma progress_sends ans event s
  (Hans : forall k, ans k <= 0) (Hok : vq_ok s) (Hrdy : dv_state (dt_vq s) = DPA_VIRTQ_STATE_RDY)
  (Hwork : dt_db s <> 0%nat \/ dv_pending (dt_vq s) = true) (Hnew : Z.of_nat (new_count s) <= dc_size (dv_common (dt_vq s))) :
  post (virtq_progress ans event)
    (fun _ s' => exists ps n,
       p2_posts (dt_chan s') = p2_posts (dt_chan s) ++ ps /\ Forall post_fits ps /\ all_heads ps = new_slots s n /\
       (dv_state (dt_vq s') = DPA_VIRTQ_STATE_RDY /\ dv_available_index (dt_vq s') = host_avail s /\ n = new_count s \/
        dv_state (dt_vq s') = DPA_VIRTQ_STATE_ERR /\ (n <= new_count s)%nat /\ refused ans s s')) s.
Proof.
  apply progress_prelude; [done|]. intros s1 Hc Ha Hst Hh Hch.
  destruct ((dt_db s =? 0)%nat && negb (dv_pending (dt_vq s))) eqn:Ew.
  { apply andb_prop in Ew as [Ed%Nat.eqb_eq Ep%negb_true_iff]. destruct Hwork; congruence. }
  assert (Hok1 : vq_ok s1) by (destruct Hok; split; rewrite ?Hc, ?Ha, ?Hh; done).
  unfold new_slots, new_count, slots_of, delta_of in *. rewrite <- Hc, <- Ha, <- Hh in *.
  eapply post_mono; [apply send_new_heads_ok; done|]. intros _ s' (ok & (ps & n & [_ _ Hp _ Hf] & Hheads & Hr) & Hend).
  exists ps, n. rewrite <- Hch. split; [done|]. split; [done|]. split; [done|].
  destruct ok; [left|right; by rewrite <- (refused_chan ans s s1)]. destruct Hr as [Hr ->]. split; [congruence|]. split; [by apply Hend|done].
Qed.

(** An index of the driver that is further ahead than the size of the queue. *)
Lemma progress_too_far ans event s
  (Hrdy : dv_state (dt_vq s) = DPA_VIRTQ_STATE_RDY) (Hwork : dt_db s <> 0%nat \/ dv_pending (dt_vq s) = true)
  (Hsize : 0 < dc_size (dv_common (dt_vq s))) (Hbig : dc_size (dv_common (dt_vq s)) < Z.of_nat (new_count s)) :
  post (virtq_progress ans event) (fun _ s' => dt_chan s' = dt_chan s /\ dv_state (dt_vq s') = DPA_VIRTQ_STATE_ERR) s.
Proof.
  apply progress_prelude; [done|]. intros s1 Hc Ha Hst Hh Hch.
  destruct ((dt_db s =? 0)%nat && negb (dv_pending (dt_vq s))) eqn:Ew.
  { apply andb_prop in Ew as [Ed%Nat.eqb_eq Ep%negb_true_iff]. destruct Hwork; congruence. }
  unfold new_count, delta_of in *. rewrite <- Hc, <- Ha, <- Hh in *. pose proof (u16_range (host_avail s1 - dv_available_index (dt_vq s1))).
  unfold send_new_heads. apply post_gets, post_gets. destruct (_ =? host_avail s1) eqn:Ee; bool_to_prop.
  { rewrite Ee, Z.sub_diag in Hbig. change (u16 0) with 0 in Hbig. lia. }
  cbv zeta. destruct (_ <? _) eqn:El; bool_to_prop; [|lia]. by split.
Qed.

(** C21: A turn of the DPA thread of a ready queue with a doorbell or work pending returns,
    whatever the device answers to the posts (0 or an error below 0).  The heads it sends are
    read from the available ring at the new entries, each entry once and in order, across the
    end of the ring, in messages of 1 to 27 heads.  There are three ends: all the new entries
    were sent and the thread has caught up with the index of the driver; or the last post of
    the turn was refused, a beginning of the entries was sent and the queue is disabled; or
    the index of the driver was further ahead than the size of the queue, nothing was sent and
    the queue is disabled. *)
Theorem progress_sends_new_heads ans event s
  (Hans : forall k, ans k <= 0) (Hok : vq_ok s) (Hrdy : dv_state (dt_vq s) = DPA_VIRTQ_STATE_RDY)
  (Hwork : dt_db s <> 0%nat \/ dv_pending (dt_vq s) = true) :
  post (virtq_progress ans event)
    (fun _ s' => exists ps n,
       p2_posts (dt_chan s') = p2_posts (dt_chan s) ++ ps /\ Forall post_fits ps /\ all_heads ps = new_slots s n /\
       if Z.of_nat (new_count s) <=? dc_size (dv_common (dt_vq s)) then
         dv_state (dt_vq s') = DPA_VIRTQ_STATE_RDY /\ dv_available_index (dt_vq s') = host_avail s /\ n = new_count s \/
         dv_state (dt_vq s') = DPA_VIRTQ_STATE_ERR /\ (n <= new_count s)%nat /\ refused ans s s'
       else dv_state (dt_vq s') = DPA_VIRTQ_STATE_ERR /\ ps = []) s.
Proof.
  destruct (Z.leb_spec (Z.of_nat (new_count s)) (dc_size (dv_common (dt_vq s)))) as [Hle|Hgt]; [by apply progress_sends|].
  assert (0 < dc_size (dv_common (dt_vq s))) as Hpos by (destruct (ok_size s Hok) as (k & Hk & ->); apply Z.pow_pos_nonneg; lia).
  eapply post_mono; [by apply progress_too_far|]. intros _ s' [Hch Hst]. exists [], 0%nat. by rewrite Hch, app_nil_r.
Qed.

(** A turn posts nothing when the queue is not ready, when there is neither a doorbell nor
    work pending, and when the driver's index is further ahead than the size of the queue; in
    the last case the queue is disabled. *)
Theorem progress_posts_nothing ans event s
  (Hidle : dv_state (dt_vq s) <> DPA_VIRTQ_STATE_RDY \/ dt_db s = 0%nat /\ dv_pending (dt_vq s) = false \/
           dc_size (dv_common (dt_vq s)) < Z.of_nat (new_count s)) :
  post (virtq_progress ans event)
    (fun _ s' => dt_chan s' = dt_chan s /\ dv_available_index (dt_vq s') = dv_available_index (dt_vq s) /\
       (dv_state (dt_vq s') = dv_state (dt_vq s) \/
        dv_state (dt_vq s') = DPA_VIRTQ_STATE_ERR /\ dc_size (dv_common (dt_vq s)) < Z.of_nat (new_count s))) s.
Proof.
  destruct (decide (dv_state (dt_vq s) = DPA_VIRTQ_STATE_RDY)) as [Hr|Hr].
  2:{ unfold virtq_progress. apply post_gets. rewrite bool_decide_eq_false_2 by done. apply post_return. auto. }
  apply progress_prelude; [done|]. intros s1 Hc Ha Hst Hh Hch.
  destruct ((dt_db s =? 0)%nat && negb (dv_pending (dt_vq s))) eqn:Ew; [split; [done|]; split; [done|left; congruence]|].
  destruct Hidle as [?|[[Hd Hp]|Hbig]]; [done|by rewrite Hd, Hp in Ew|]. unfold new_count, delta_of in *. rewrite <- Hc, <- Ha, <- Hh in *.
  pose proof (u16_range (host_avail s1 - dv_available_index (dt_vq s1))).
  unfold send_new_heads. apply post_gets, post_gets. destruct (_ =? host_avail s1) eqn:Ee; bool_to_prop; [apply post_return; split; [done|]; split; [done|left; congruence]|].
  cbv zeta. destruct (_ <? _) eqn:El; bool_to_prop; [|lia]. split; [done|]. split; [done|]. right. split; [done|lia].
Qed.

(** * A queue that was stopped *)

(** The steps of the thread and of what it sees: a turn, a command other than a creation, and
    new doorbells, messages and indices. *)
Inductive thread_step (event : bool) (mbox : Z) : dpa_thread -> dpa_thread -> Prop :=
| ts_turn ans s s' : virtq_progress ans event s = Ok (s', tt) -> thread_step event mbox s s'
| ts_command c s s' r :
    (forall sn v rec, c <> Some (sn, CmdCreate v rec)) -> do_command event mbox c s = Ok (s', r) -> thread_step event mbox s s'
| ts_world s avail used rx db msix :
    thread_step event mbox s (s ⦇ host_avail := avail ⦈ ⦇ host_used := used ⦈ ⦇ dt_rx := rx ⦈ ⦇ dt_db := db ⦈ ⦇ dt_msix := msix ⦈).

Definition is_stopped (s : dpa_thread) : Prop := dv_state (dt_vq s) = DPA_VIRTQ_STATE_SUSPEND \/ dv_state (dt_vq s) = DPA_VIRTQ_STATE_ERR.

(** Stopped, with what was posted and the index as in [s0]. *)
Definition silent (s0 s : dpa_thread) : Prop :=
  is_stopped s /\ dt_chan s = dt_chan s0 /\ dv_available_index (dt_vq s) = dv_available_index (dt_vq s0).

Lemma stopped_not_rdy s : is_stopped s -> bool_decide (dv_state (dt_vq s) = DPA_VIRTQ_STATE_RDY) = false.
Proof. intros [H|H]; by rewrite H. Qed.

Lemma silent_view s0 s s' : silent s0 s -> ring_view s' = ring_view s -> silent s0 s'.
Proof. unfold silent, is_stopped, ring_view. intros (Hst & Hc & Ha) [= _ Ha' Hs' _ _ _ Hc']. by rewrite Hs', Hc', Ha'. Qed.

Lemma silent_turn s0 s ans event : silent s0 s -> post (virtq_progress ans event) (fun _ s' => silent s0 s') s.
Proof. intros Hs. unfold virtq_progress. apply post_gets. rewrite stopped_not_rdy by apply Hs. by apply post_return. Qed.

Lemma silent_destroy s0 s event : silent s0 s -> post (dpa_virtq_destroy event) (fun _ s' => silent s0 s') s.
Proof.
  intros Hs. unfold dpa_virtq_destroy. eapply post_bind_mono; [apply (post_preserves ring_view); [apply msix_recv_view|apply msix_recv_returns]|].
  intros n s1 [_ Hv]. destruct (silent_view _ _ _ Hs Hv) as (_ & Hc & Ha). split; [by right|done].
Qed.

Lemma silent_modify s0 s event c : silent s0 s -> post (dpa_virtq_modify event c) (fun _ s' => silent s0 s') s.
Proof.
  intros Hs. unfold dpa_virtq_modify. apply post_gets. destruct (bool_decide (_ = md_state c)); [by apply post_return|].
  destruct (bool_decide (md_state c = DPA_VIRTQ_STATE_ERR)) eqn:Ee.
  { apply bool_decide_eq_true in Ee. rewrite Ee. destruct Hs as (_ & Hc & Ha). split; [by right|done]. }
  pose proof Hs as ([Hst|Hst] & _); rewrite Hst; exact Hs.
Qed.

Lemma silent_health s0 s event mbox : silent s0 s -> post (dpa_virtq_health_check event mbox) (fun _ s' => silent s0 s') s.
Proof.
  intros Hs. unfold dpa_virtq_health_check. apply post_gets, post_modify, post_gets, post_gets, post_modify.
  rewrite stopped_not_rdy by apply Hs. rewrite !andb_false_r. apply post_bind, post_return.
  eapply post_bind_mono; [apply (post_preserves ring_view); [apply msix_recv_view|apply msix_recv_returns]|].
  intros n s1 [_ Hv]. cbn beta. rewrite !andb_false_r. apply post_bind, post_return, post_modify, post_return. exact (silent_view _ _ _ Hs Hv).
Qed.

Lemma silent_command s0 s event mbox c : silent s0 s -> (forall sn v rec, c <> Some (sn, CmdCreate v rec)) ->
  post (do_command event mbox c) (fun _ s' => silent s0 s') s.
Proof.
  intros Hs Hc. unfold do_command. destruct c as [[sn cmd]|]; [|by apply post_return]. apply post_modify, post_gets.
  eapply post_bind_mono with (P := fun _ s' => silent s0 s').
  2:{ intros r s1 Hs1. cbn beta. apply post_gets. rewrite stopped_not_rdy by apply Hs1. by apply post_bind, post_return, post_return. }
  destruct (sn =? _); [by apply post_return|]. apply post_modify. set (s1 := s ⦇ dt_mkey := _ ⦈ ⦇ cmd_last_sn := _ ⦈). assert (Hs1 : silent s0 s1) by done.
  destruct cmd; try done.
  - by destruct (Hc sn v do_recovery).
  - eapply post_bind_mono; [by apply silent_destroy|]. intros r s2 Hs2. exact Hs2.
  - eapply post_bind_mono; [by apply silent_modify|]. intros r s2 Hs2. exact Hs2.
  - eapply post_bind_mono; [by apply silent_health|]. intros r s2 Hs2. exact Hs2.
Qed.

(** C22: once a queue is suspended, destroyed or disabled, its thread sends nothing and its
    available index does not move, whatever the driver rings and whatever commands arrive,
    until the queue is created again. *)
Theorem stopped_queue_is_silent event mbox s0 s :
  is_stopped s0 -> star (thread_step event mbox) s0 s ->
  is_stopped s /\ dt_chan s = dt_chan s0 /\ dv_available_index (dt_vq s) = dv_available_index (dt_vq s0).
Proof.
  intros Hst Hrun. apply (star_invariant (thread_step event mbox) (silent s0) s0 s); [|by repeat split|done].
  intros s1 s2 Hs1 Hstep. destruct Hstep as [ans s1 s2 Hrun1|c s1 s2 r Hc Hrun1|s1].
  - exact (run_post _ _ _ _ _ (silent_turn s0 s1 ans event Hs1) Hrun1).
  - exact (run_post _ _ _ _ _ (silent_command s0 s1 event mbox c Hs1 Hc) Hrun1).
  - done.
Qed.

(** * Submission queues *)

(** The entries that a write copies, at its source and at its destination. *)
Definition sqes_read (p : p2p_post) : list Z :=
  match p with PWrite laddr len _ _ _ => map (fun i => laddr + SNAP_DPA_NVME_SQE_SIZE * Z.of_nat i) (seq 0 (Z.to_nat (len / SNAP_DPA_NVME_SQE_SIZE))) | _ => [] end.
Definition sqes_written (p : p2p_post) : list Z :=
  match p with PWrite _ len _ raddr _ => map (fun i => raddr + SNAP_DPA_NVME_SQE_SIZE * Z.of_nat i) (seq 0 (Z.to_nat (len / SNAP_DPA_NVME_SQE_SIZE))) | _ => [] end.

(** A write of [n] entries from entry [old] on. *)
Lemma sqes_slots base depth old n : 0 <= old < depth -> 0 <= n -> old + n <= depth ->
  map (fun i => base + old * 64 + 64 * Z.of_nat i) (seq 0 (Z.to_nat (64 * n / 64))) = ring_slots base 64 depth old (Z.to_nat n).
Proof.
  intros Ho Hn Hfit. replace (64 * n / 64) with n by (rewrite Z.mul_comm, Z.div_mul; done).
  rewrite slots_message; rewrite ?Z.mod_small; [|lia..]. by rewrite (Z.mul_comm old).
Qed.

Lemma slots_turn base width depth n : 0 < depth -> ring_slots base width depth depth n = ring_slots base width depth 0 n.
Proof.
  intros Hd. unfold ring_slots. apply map_ext. intros i. do 2 f_equal. by rewrite <- Zplus_mod_idemp_l, Z_mod_same_full.
Qed.

(** A write up to the end of the queue, and one from its beginning on. *)
Lemma sqes_around base depth old tail : 0 <= old < depth -> 0 <= tail < depth ->
  map (fun i => base + old * 64 + 64 * Z.of_nat i) (seq 0 (Z.to_nat (64 * (depth - old) / 64))) ++
  map (fun i => base + 64 * Z.of_nat i) (seq 0 (Z.to_nat (64 * tail / 64))) = ring_slots base 64 depth old (Z.to_nat (tail - old + depth)).
Proof.
  intros Ho Ht. rewrite (sqes_slots base depth) by lia. replace (Z.to_nat (tail - old + depth)) with (Z.to_nat (depth - old) + Z.to_nat tail)%nat by lia.
  rewrite slots_app, Z2Nat.id, Zplus_minus, slots_turn by lia. f_equal.
  pose proof (sqes_slots base depth 0 tail ltac:(lia) ltac:(lia) ltac:(lia)) as H. by rewrite Z.mul_0_l, Z.add_0_r in H.
Qed.

Section SqTail.
Context (ans : nat -> Z) (Hans : forall k, ans k = 0).

Lemma p2_post_run p q : p2_post ans p q = Ok (q ⦇ p2_tick := S (p2_tick q) ⦈ ⦇ p2_posts := p2_posts q ++ [p] ⦈, 0).
Proof. unfold p2_post, m_bind, gets, modify. cbn [res_bind]. by rewrite Hans. Qed.

(** The post that tells the DPU. *)
Lemma sq_tell_ok (b : bool) raddr len rkey imm m q :
  post (if b then p2_post ans (PImm raddr len rkey imm) else snap_dpa_p2p_send_msg ans m)
    (fun _ q' => exists last, p2_posts q' = p2_posts q ++ last /\ (length last <= 1)%nat /\ concat (map sqes_read last) = [] /\
       concat (map sqes_written last) = []) q.
Proof.
  destruct b; [|unfold snap_dpa_p2p_send_msg; apply post_gets; destruct (credit_count _ =? 0)].
  - unfold post. rewrite p2_post_run. eexists [_]. split; [reflexivity|]. split; [cbn; lia|done].
  - exists []. rewrite app_nil_r. split; [done|]. split; [cbn; lia|done].
  - unfold post. rewrite p2_post_run. eexists [_]. split; [reflexivity|]. split; [cbn; lia|done].
Qed.
End SqTail.

(** A new tail of a submission queue.  The entries from the old tail up to the new one,
    around the end of the queue, and no others, are copied from the queue of the host to the
    same places of its shadow, in order, before the message that tells the DPU. *)
Theorem sq_tail_copies_new_entries ans q sqid tail table mkey shadow shadow_mkey old depth
  (Hans : forall k, ans k = 0) (Hdepth : 0 < depth <= 2 ^ 16) (Htail : 0 <= tail < depth) (Hold : 0 <= old < depth)
  (Htable : 0 <= table /\ table + 64 * depth <= 2 ^ 64) (Hshadow : 0 <= shadow /\ shadow + 64 * depth <= 2 ^ 64) :
  post (snap_dpa_p2p_send_sq_tail ans sqid tail table mkey shadow shadow_mkey old depth)
    (fun _ q' => exists ps last, p2_posts q' = p2_posts q ++ ps ++ last /\ (length last <= 1)%nat /\
       let n := Z.to_nat ((tail - old) mod depth) in
       concat (map sqes_read ps) = ring_slots table 64 depth old n /\ concat (map sqes_written ps) = ring_slots shadow 64 depth old n /\
       concat (map sqes_read last) = [] /\ concat (map sqes_written last) = []) q.
Proof.
  unfold snap_dpa_p2p_send_sq_tail. cbv zeta. change SNAP_DPA_NVME_SQE_SIZE with 64. rewrite (u32_small (old * 64)), (u64_small (table + _)), (u64_small (shadow + _)) by lia.
  destruct (tail <? old) eqn:E; bool_to_prop; rewrite i32_small by lia; unfold post, m_bind at 1; rewrite p2_post_run by done; cbn [res_bind Z.eqb negb].
  - rewrite <- (Z_mod_plus_full (tail - old) 1 depth), (Z.mod_small (tail - old + 1 * depth)), Z.mul_1_l by lia.
    destruct (tail =? 0) eqn:E0; bool_to_prop; cbn [negb andb].
    + eapply post_mono; [apply (sq_tell_ok ans Hans)|]. intros _ q' (last & Hq & Hl & Hr). eexists [_], last. rewrite (assoc_L (++)). split; [exact Hq|]. split; [done|].
      subst tail. cbn [map concat sqes_read sqes_written app]. rewrite !app_nil_r. change SNAP_DPA_NVME_SQE_SIZE with 64. split; [|split; [|done]].
      all: rewrite (sqes_slots _ depth) by lia; f_equal; lia.
    + unfold m_bind at 1 2. rewrite p2_post_run by done. unfold mreturn at 1. cbn [res_bind Z.eqb negb]. rewrite andb_false_r.
      eapply post_mono; [apply (sq_tell_ok ans Hans false 0 0 0 0)|]. intros _ q' (last & Hq & Hl & Hr). eexists ([_] ++ [_]), last. rewrite !(assoc_L (++)).
      split; [exact Hq|]. split; [done|].
      cbn [app map concat sqes_read sqes_written]. rewrite !app_nil_r. change SNAP_DPA_NVME_SQE_SIZE with 64. split; [|split; [|done]]; apply sqes_around; lia.
  - rewrite (Z.mod_small (tail - old)) by lia. eapply post_mono; [apply (sq_tell_ok ans Hans)|]. intros _ q' (last & Hq & Hl & Hr). eexists [_], last.
    rewrite (assoc_L (++)). split; [exact Hq|]. split; [done|]. cbn [map concat sqes_read sqes_written]. rewrite !app_nil_r. change SNAP_DPA_NVME_SQE_SIZE with 64.
    split; [|split; [|done]]; apply sqes_slots; lia.
Qed.
