(* ===== verification/DpaUsed.v ===== *)
(** The DPU side of a virtqueue served by the DPA (src/src/snap_dpa_virtq.c): the messages of
    the DPA become requests, and completions are gathered and written to the used ring. *)

From stdpp Require Import list.
From S2P Require Import Prelude Effects DpaVq.

(** [struct vring_used_elem] *)
Definition vring_used_elem : Type := Z * Z.
Definition sizeof_used_elem : Z := 8.
(** [offsetof(struct vring_used, idx)] and [offsetof(struct vring_used, ring[0])] *)
Definition used_idx_off : Z := 2.
Definition used_ring_off : Z := 4.
Definition VQ_TABLE_REC : Z := 5.

(** [struct snap_dpa_p2p_msg_vq_update], as it is received. *)
Record vq_update := mk_vqu { vu_type : Z; descr_head_count : Z; descr_heads : list Z }.

(** [struct virtq_split_tunnel_req]; [tunnel_descs] is the address of a table. *)
Record virtq_split_tunnel_req := mk_treq { descr_head_idx : Z; num_desc : Z; dpa_vq_table_flag : Z; tunnel_descs : Z }.
#[export] Instance treq_settable : Settable virtq_split_tunnel_req := fun r =>
  mk_treq (descr_head_idx r) (num_desc r) (dpa_vq_table_flag r) (tunnel_descs r).

(** [struct snap_dpa_virtq]; [pending_comps] has 16 entries.  [dq_chan] is the channel of its
    thread, [dq_rx] the messages that wait in it, [dq_kicks] the calls of [progress_tx]. *)
Record snap_dpa_virtq := mk_dq {
  dq_common : snap_dpa_virtq_common; desc_shadow : Z; msix_eq : bool; hw_used_index : Z; last_hw_used_index : Z; host_used_index : Z;
  pending_comps : list vring_used_elem; num_pending_comps : Z; debug_count : Z; n_io_completed : Z; n_compl_updates : Z; n_used_updates : Z;
  dq_chan : snap_dpa_p2p_q; dq_rx : list vq_update; dq_kicks : nat
}.
#[export] Instance dq_settable : Settable snap_dpa_virtq := fun r =>
  mk_dq (dq_common r) (desc_shadow r) (msix_eq r) (hw_used_index r) (last_hw_used_index r) (host_used_index r) (pending_comps r) (num_pending_comps r)
    (debug_count r) (n_io_completed r) (n_compl_updates r) (n_used_updates r) (dq_chan r) (dq_rx r) (dq_kicks r).

Definition MAX_PENDING_COMPS : Z := 16.

(** The states of a queue, and those of its thread. *)
Inductive snap_virtq_state := SNAP_VIRTQ_STATE_INIT | SNAP_VIRTQ_STATE_RDY | SNAP_VIRTQ_STATE_SUSPEND | SNAP_VIRTQ_STATE_ERR.
Definition to_dpa_virtq_state (s : snap_virtq_state) : dpa_virtq_state :=
  match s with
  | SNAP_VIRTQ_STATE_INIT => DPA_VIRTQ_STATE_INIT
  | SNAP_VIRTQ_STATE_RDY => DPA_VIRTQ_STATE_RDY
  | SNAP_VIRTQ_STATE_SUSPEND => DPA_VIRTQ_STATE_SUSPEND
  | SNAP_VIRTQ_STATE_ERR => DPA_VIRTQ_STATE_ERR
  end.
Definition to_snap_virtq_state (s : dpa_virtq_state) : snap_virtq_state :=
  match s with
  | DPA_VIRTQ_STATE_INIT => SNAP_VIRTQ_STATE_INIT
  | DPA_VIRTQ_STATE_RDY => SNAP_VIRTQ_STATE_RDY
  | DPA_VIRTQ_STATE_SUSPEND => SNAP_VIRTQ_STATE_SUSPEND
  | DPA_VIRTQ_STATE_ERR => SNAP_VIRTQ_STATE_ERR
  end.

Section Dpu.
(** What the k-th post returns. *)
Context (ans : nat -> Z).
#[local] Abbreviation V := (M snap_dpa_virtq).

Definition on_dpu_chan {A} (m : M snap_dpa_p2p_q A) : V A := fun s => let? r := m (dq_chan s) in Ok (s ⦇ dq_chan := fst r ⦈, snd r).
Definition dpu_write_short (d : short_data) (raddr : Z) : V Z := on_dpu_chan (p2_post ans (PShort d raddr)).

(** ** Requests *)

(** The request of the i-th head: a table message also sets the table. *)
Definition poll_req (q : snap_dpa_virtq) (msg : vq_update) (head : Z) (r : virtq_split_tunnel_req) : virtq_split_tunnel_req :=
  let r := r ⦇ num_desc := 0 ⦈ ⦇ descr_head_idx := head ⦈ in
  if vu_type msg =? SNAP_DPA_P2P_MSG_VQ_HEADS then r ⦇ dpa_vq_table_flag := 0 ⦈
  else r ⦇ dpa_vq_table_flag := VQ_TABLE_REC ⦈ ⦇ tunnel_descs := desc_shadow q ⦈.

(** The loop over the heads from [i] on, [n] of them; a head that is not in the message, or a
    request that is not in [reqs], is undefined behaviour. *)
Fixpoint poll_heads (q : snap_dpa_virtq) (msg : vq_update) (n i : nat) (reqs : list virtq_split_tunnel_req) : V (list virtq_split_tunnel_req) :=
  match n with
  | O => mreturn reqs
  | S n =>
      match descr_heads msg !! i, reqs !! i with
      | Some h, Some r => poll_heads q msg n (S i) (<[i := poll_req q msg h r]> reqs)
      | _, _ => undefined
      end
  end.

Definition virtq_blk_dpa_poll (reqs : list virtq_split_tunnel_req) (num_reqs : Z) : V (list virtq_split_tunnel_req * Z) :=
  let! rx := gets dq_rx in
  match rx with
  | [] => mreturn (reqs, 0)
  | msg :: rx =>
      do! modify (fun s => s ⦇ dq_rx := rx ⦈) in
      if num_reqs <=? descr_head_count msg then mreturn (reqs, - ENOMEM)
      else
        do! modify (fun s => s ⦇ debug_count := i32 (debug_count s + 1) ⦈) in
        if (vu_type msg =? SNAP_DPA_P2P_MSG_VQ_HEADS) || (vu_type msg =? SNAP_DPA_P2P_MSG_VQ_TABLE) || (vu_type msg =? SNAP_DPA_P2P_MSG_VQ_TABLE_CONT) then
          let! q := gets id in
          let! reqs := poll_heads q msg (Z.to_nat (descr_head_count msg)) 0 reqs in
          mreturn (reqs, descr_head_count msg)
        else mreturn (reqs, - ENOTSUP)
  end.

(** ** Completions *)

Definition used_elem_addr (q : snap_dpa_virtq) : Z :=
  u64 (dc_device (dq_common q) + used_ring_off + sizeof_used_elem * Z.land (host_used_index q) (dc_size (dq_common q) - 1)).

Definition flush_completions : V Z :=
  let! q := gets id in
  let! ret := dpu_write_short (Elems (take (Z.to_nat (num_pending_comps q)) (pending_comps q))) (used_elem_addr q) in
  if negb (ret =? 0) then mreturn ret
  else
    do! modify (fun q => q ⦇ host_used_index := u16 (host_used_index q + u16 (num_pending_comps q)) ⦈) in
    do! modify (fun q => q ⦇ num_pending_comps := 0 ⦈ ⦇ n_compl_updates := u32 (n_compl_updates q + 1) ⦈) in
    mreturn ret.

Definition virtq_blk_dpa_complete (comp : vring_used_elem) : V Z :=
  let! q := gets id in
  if MAX_PENDING_COMPS <=? num_pending_comps q then undefined
  else
    do! modify (fun q => q ⦇ pending_comps := <[Z.to_nat (num_pending_comps q) := comp]> (pending_comps q) ⦈) in
    do! modify (fun q => q ⦇ num_pending_comps := num_pending_comps q + 1 ⦈ ⦇ hw_used_index := u16 (hw_used_index q + 1) ⦈
                           ⦇ n_io_completed := u32 (n_io_completed q + 1) ⦈) in
    let! q := gets id in
    if 8 <=? num_pending_comps q then flush_completions
    else if Z.land (hw_used_index q) (dc_size (dq_common q) - 1) =? 0 then flush_completions
    else mreturn 0.

(** The index, the interrupt and the doorbell, after the entries. *)
Definition send_used_index : V Z :=
  let! q := gets id in
  if last_hw_used_index q =? hw_used_index q then mreturn 0
  else
    let! ret := dpu_write_short (Index (hw_used_index q)) (u64 (dc_device (dq_common q) + used_idx_off)) in
    if negb (ret =? 0) then mreturn ret
    else
      do! modify (fun q => q ⦇ last_hw_used_index := hw_used_index q ⦈ ⦇ n_used_updates := u32 (n_used_updates q + 1) ⦈) in
      let! ret := (if msix_eq q then on_dpu_chan (snap_dpa_p2p_send_msix ans 0) else mreturn 0) in
      do! modify (fun q => q ⦇ dq_kicks := S (dq_kicks q) ⦈) in mreturn ret.

Definition virtq_blk_dpa_send_completions : V Z :=
  let! q := gets id in
  let! ret := (if negb (num_pending_comps q =? 0) then flush_completions else mreturn 0) in
  if negb (ret =? 0) then mreturn ret else send_used_index.

Definition virtq_blk_dpa_send_status (data : list Z) (raddr : Z) : V Z := dpu_write_short (Bytes data) raddr.
End Dpu.
