(* ===== verification/DpaServe.v ===== *)
(** The heads that the DPA sends become the requests of the DPU. *)

From stdpp Require Import list.
From S2P Require Import Prelude Effects DpaVq DpaVqProps DpaUsed.

(** The messages that arrive: the device reads the heads of a message in the memory of the
    host, [mem], two bytes at a time. *)
Definition deliver_msg (mem : Z -> Z) (p : p2p_post) : list vq_update :=
  match p with
  | PHeads ty _ _ _ count _ _ => [mk_vqu ty count (map mem (head_addrs p))]
  | _ => []
  end.

(** A poll of [virtq_progress] of the virtqueue, which VIRTIO_QUEUE_POLL_ENABLED enables: [reqs]
    is the array on the stack, the value the requests that are given to the queue. *)
Definition poll_turn (reqs : list virtq_split_tunnel_req) : M snap_dpa_virtq (list virtq_split_tunnel_req) :=
  let! r := virtq_blk_dpa_poll reqs 64 in
  let '(reqs, n) := r in mreturn (take (Z.to_nat n) reqs).

Fixpoint poll_turns (n : nat) (stack : nat -> list virtq_split_tunnel_req) : M snap_dpa_virtq (list virtq_split_tunnel_req) :=
  match n with
  | O => mreturn []
  | S n => let! l := poll_turn (stack n) in let! l' := poll_turns n stack in mreturn (l ++ l')
  end.

(** A message that the thread sends, as it arrives. *)
Definition msg_ok (m : vq_update) : Prop :=
  1 <= descr_head_count m <= SNAP_DPA_P2P_VQ_MAX_HEADS /\ length (descr_heads m) = Z.to_nat (descr_head_count m) /\ vu_type m ∈ head_types.

(** A request that refers to a descriptor table that the DPU has: the table of the host, or
    the shadow of the queue. *)
Definition req_ok (q : snap_dpa_virtq) (r : virtq_split_tunnel_req) : Prop :=
  num_desc r = 0 /\ (dpa_vq_table_flag r = 0 \/ dpa_vq_table_flag r = VQ_TABLE_REC /\ tunnel_descs r = desc_shadow q).

Lemma poll_req_ok q m h r : req_ok q (poll_req q m h r) /\ descr_head_idx (poll_req q m h r) = h.
Proof. unfold poll_req. cbv zeta. destruct (vu_type m =? _); (split; [split; [done|]|done]); [by left|by right]. Qed.

Lemma poll_heads_ok q m n : forall i reqs s,
  (i + n <= length (descr_heads m))%nat -> (i + n <= length reqs)%nat ->
  exists reqs', poll_heads q m n i reqs s = Ok (s, reqs') /\ length reqs' = length reqs /\ take i reqs' = take i reqs /\
    forall j, (i <= j < i + n)%nat -> exists h r, descr_heads m !! j = Some h /\ reqs' !! j = Some r /\ req_ok q r /\ descr_head_idx r = h.
Proof.
  induction n as [|n IH]; intros i reqs s Hh Hr; cbn [poll_heads].
  { exists reqs. repeat split. intros j ?. lia. }
  destruct (lookup_lt_is_Some_2 (descr_heads m) i ltac:(lia)) as [h Eh]. destruct (lookup_lt_is_Some_2 reqs i ltac:(lia)) as [r Er].
  rewrite Eh, Er. destruct (IH (S i) (<[i := poll_req q m h r]> reqs) s) as (reqs' & Hrun & Hlen & Htk & Hj); [lia|rewrite length_insert; lia|].
  rewrite length_insert in Hlen. exists reqs'. split; [done|]. split; [done|].
  assert (Hi : forall j, (j < S i)%nat -> reqs' !! j = <[i := poll_req q m h r]> reqs !! j).
  { intros j Hj'. by rewrite <- (lookup_take_lt reqs' (S i)), Htk, lookup_take_lt by lia. }
  split.
  - apply list_eq. intros j. destruct (decide (j < i)%nat).
    + rewrite !lookup_take_lt by lia. rewrite Hi by lia. by rewrite list_lookup_insert_ne by lia.
    + rewrite !lookup_take_ge by lia. done.
  - intros j Hj'. destruct (decide (j = i)) as [->|Hne]; [|apply Hj; lia]. exists h, (poll_req q m h r). split; [done|].
    split; [rewrite Hi by lia; apply list_lookup_insert_eq; lia|]. apply poll_req_ok.
Qed.

Lemma poll_turn_ok reqs s m rx :
  dq_rx s = m :: rx -> msg_ok m -> length reqs = 64%nat ->
  post (poll_turn reqs) (fun l s' => map descr_head_idx l = descr_heads m /\ Forall (req_ok s) l /\ dq_rx s' = rx /\ desc_shadow s' = desc_shadow s) s.
Proof.
  intros Hrx (Hc & Hl & Hty) Hreqs. change SNAP_DPA_P2P_VQ_MAX_HEADS with 27 in Hc. unfold poll_turn, virtq_blk_dpa_poll. apply post_assoc, post_gets. rewrite Hrx.
  apply post_assoc, post_modify. destruct (64 <=? descr_head_count m) eqn:E; bool_to_prop; [lia|]. apply post_assoc, post_modify.
  replace (_ || _ || _) with true.
  2:{ unfold head_types in Hty. rewrite !elem_of_cons, elem_of_nil in Hty. by destruct Hty as [->|[->|[->|[]]]]. }
  apply post_assoc, post_gets. match goal with |- post _ _ ?x => set (s1 := x) end. unfold id.
  destruct (poll_heads_ok s1 m (Z.to_nat (descr_head_count m)) 0 reqs s1) as (reqs' & Hrun & Hlen & _ & Hj); [lia..|].
  unfold post, m_bind. rewrite Hrun. cbn [res_bind]. unfold mreturn. cbn [res_bind]. split; [|split; [|done]].
  - apply list_eq. intros j. rewrite list_lookup_fmap. destruct (decide (j < Z.to_nat (descr_head_count m))%nat) as [Hlt|Hge].
    + destruct (Hj j ltac:(lia)) as (h & r & Eh & Er & _ & Hd). rewrite lookup_take_lt, Er, Eh by lia. cbn. by rewrite Hd.
    + rewrite lookup_take_ge by lia. cbn. symmetry. apply lookup_ge_None_2. lia.
  - apply Forall_lookup_2. intros j r Er. apply lookup_take_Some in Er as [Er Hlt]. destruct (Hj j ltac:(lia)) as (h & r' & _ & Er' & Hok & _).
    rewrite Er in Er'. injection Er' as ->. exact Hok.
Qed.

(** As many polls as there are messages take all their heads, in order. *)
Lemma poll_turns_ok stack : (forall i, length (stack i) = 64%nat) -> forall ms s,
  dq_rx s = ms -> Forall msg_ok ms ->
  post (poll_turns (length ms) stack)
    (fun l s' => map descr_head_idx l = concat (map descr_heads ms) /\ Forall (req_ok s) l /\ dq_rx s' = []) s.
Proof.
  intros Hst. induction ms as [|m ms IH]; intros s Hrx Hok; cbn [poll_turns length]; [by apply post_return|].
  apply Forall_cons in Hok as [Hm Hok]. eapply post_bind_mono; [by apply (poll_turn_ok _ s m ms)|]. intros l s1 (Hl & Hf & Hrx1 & Hsh). cbn beta.
  eapply post_bind_mono; [by apply IH|]. intros l' s2 (Hl' & Hf' & Hrx2). cbn beta. apply post_return.
  split; [cbn [map concat]; by rewrite map_app, Hl, Hl'|]. split; [|done]. apply Forall_app. split; [done|].
  eapply Forall_impl; [exact Hf'|]. intros r. unfold req_ok. by rewrite Hsh.
Qed.

Lemma deliver_msg_ok mem ps : Forall post_fits ps ->
  Forall msg_ok (concat (map (deliver_msg mem) ps)) /\ concat (map descr_heads (concat (map (deliver_msg mem) ps))) = map mem (all_heads ps).
Proof.
  unfold all_heads. induction 1 as [|p ps Hp Hps [IH IH']]; [done|]. cbn [map concat]. rewrite !map_app, concat_app, IH'. destruct p as [|ty q cr av n a k| | |]; try done.
  destruct Hp as [Hn Hty]. cbn [deliver_msg map concat descr_heads]. rewrite app_nil_r. split; [|done]. apply Forall_app. split; [|done]. apply Forall_singleton.
  split; [done|]. split; [|done]. cbn [descr_heads head_addrs descr_head_count]. by rewrite !length_map, length_seq.
Qed.

(** C14: From the available ring to the requests.  When the posts of a turn of the DPA
    thread are accepted, for a ready queue with work whose driver is at most the queue size
    ahead, the DPU takes, in as many polls as messages arrived, one request for each new
    entry of the available ring, in order, with the head that the driver put there; every
    request has its descriptors in the table of the host or in the shadow of the queue. *)
Theorem new_heads_become_requests ans event mem stack s s' d
  (Hans : forall k, ans k = 0) (Hok : vq_ok s) (Hrdy : dv_state (dt_vq s) = DPA_VIRTQ_STATE_RDY)
  (Hwork : dt_db s <> 0%nat \/ dv_pending (dt_vq s) = true) (Hnew : Z.of_nat (new_count s) <= dc_size (dv_common (dt_vq s)))
  (Hstack : forall i, length (stack i) = 64%nat) (Hrun : virtq_progress ans event s = Ok (s', tt)) :
  exists ps, p2_posts (dt_chan s') = p2_posts (dt_chan s) ++ ps /\
  let arrived := concat (map (deliver_msg mem) ps) in
  post (poll_turns (length arrived) stack)
    (fun l d' => map descr_head_idx l = map mem (new_slots s (new_count s)) /\ Forall (req_ok d) l /\ dq_rx d' = []) (d ⦇ dq_rx := arrived ⦈).
Proof.
  assert (Hle : forall k, ans k <= 0) by (intros k; by rewrite Hans). apply (progress_sends ans event s Hle Hok Hrdy Hwork) in Hnew.
  destruct (run_post _ _ _ _ _ Hnew Hrun) as (ps & n & Hp & Hf & Hh & Hcase). exists ps. split; [done|]. cbv zeta.
  destruct (deliver_msg_ok mem ps Hf) as [Hms Hheads]. destruct Hcase as [(_ & _ & ->)|(_ & _ & k & _ & _ & Hk)]; [|by rewrite Hans in Hk].
  eapply post_mono; [by apply (poll_turns_ok stack Hstack)|]. intros l d' (Hl & Hr & Hrx). rewrite Hl, Hheads, Hh. done.
Qed.
