(* ===== verification/DpaUsedProps.v ===== *)
(** Completions of the DPU reach the used ring of the host in order, each once, and the index
    never runs ahead of the entries. *)

From stdpp Require Import list.
From S2P Require Import Prelude Effects DpaVq DpaVqProps DpaUsed.

(** * What the host sees *)

(** The addresses of [n] entries of the used ring, from index [u] on. *)
Definition used_slots (c : snap_dpa_virtq_common) (u : Z) (n : nat) : list Z :=
  ring_slots (dc_device c + used_ring_off) sizeof_used_elem (dc_size c) u n.

(** The entries that a post writes, with their addresses. *)
Definition entries (p : p2p_post) : list (Z * vring_used_elem) :=
  match p with
  | PShort (Elems l) raddr => zip (map (fun i => raddr + sizeof_used_elem * Z.of_nat i) (seq 0 (length l))) l
  | _ => []
  end.
Definition all_entries (ps : list p2p_post) : list (Z * vring_used_elem) := concat (map entries ps).

(** Every index that is written counts the entries that were written before it, from [u] on. *)
Definition used_index_ok (c : snap_dpa_virtq_common) (u : Z) (ps : list p2p_post) : Prop :=
  forall ps1 v a ps2, ps = ps1 ++ PShort (Index v) a :: ps2 ->
  v = u16 (u + Z.of_nat (length (all_entries ps1))) /\ a = dc_device c + used_idx_off.

(** The requests of the controller: complete a command, tell the driver. *)
Inductive comp_op := Complete (c : vring_used_elem) | SendCompletions.

Fixpoint run_comps (ans : nat -> Z) (ops : list comp_op) : M snap_dpa_virtq unit :=
  match ops with
  | [] => mreturn tt
  | Complete c :: ops => do! virtq_blk_dpa_complete ans c in run_comps ans ops
  | SendCompletions :: ops => do! virtq_blk_dpa_send_completions ans in run_comps ans ops
  end.

Definition op_comps (op : comp_op) : list vring_used_elem := match op with Complete c => [c] | SendCompletions => [] end.
Definition comps_of (ops : list comp_op) : list vring_used_elem := concat (map op_comps ops).

(** A ring that a driver sets up. *)
Definition used_ring_ok (c : snap_dpa_virtq_common) : Prop :=
  (exists k, 0 <= k <= 15 /\ dc_size c = 2 ^ k) /\ 0 <= dc_device c /\ dc_device c + used_ring_off + sizeof_used_elem * dc_size c <= 2 ^ 64.

(** A queue that starts at index [u]. *)
Definition starts_at (u : Z) (d : snap_dpa_virtq) : Prop :=
  used_ring_ok (dq_common d) /\ 0 <= u < 2 ^ 16 /\ hw_used_index d = u /\ last_hw_used_index d = u /\ host_used_index d = u /\
  num_pending_comps d = 0 /\ length (pending_comps d) = 16%nat.

(** * Lists of posts *)

Lemma all_entries_app ps ps' : all_entries (ps ++ ps') = all_entries ps ++ all_entries ps'.
Proof. unfold all_entries. by rewrite map_app, concat_app. Qed.

Lemma used_slots_length c u n : length (used_slots c u n) = n.
Proof. unfold used_slots, ring_slots. by rewrite length_map, length_seq. Qed.

Lemma used_slots_zip_app c u (l l' : list vring_used_elem) :
  zip (used_slots c u (length (l ++ l'))) (l ++ l') = zip (used_slots c u (length l)) l ++ zip (used_slots c (u + Z.of_nat (length l)) (length l')) l'.
Proof.
  unfold used_slots at 1. rewrite length_app, slots_app. fold (used_slots c u (length l)) (used_slots c (u + Z.of_nat (length l)) (length l')).
  rewrite zip_with_app; [done|]. apply used_slots_length.
Qed.

Lemma index_ok_nil c u : used_index_ok c u [].
Proof. intros [|? ?] v a ps2 H; discriminate. Qed.

Lemma index_ok_snoc c u ps p :
  used_index_ok c u ps -> (forall v a, p = PShort (Index v) a -> v = u16 (u + Z.of_nat (length (all_entries ps))) /\ a = dc_device c + used_idx_off) ->
  used_index_ok c u (ps ++ [p]).
Proof.
  intros Hok Hp ps1 v a ps2 Heq. destruct ps2 as [|p2 ps2] using rev_ind.
  - apply app_inj_tail in Heq as [<- ->]. by apply Hp.
  - rewrite app_comm_cons, (assoc_L (++)) in Heq. apply app_inj_tail in Heq as [Heq _]. by eapply Hok.
Qed.

(** * The invariant *)

(** [cw] was written to the ring and [cp] waits, since [d0] at index [u]. *)
Record used_core (d0 : snap_dpa_virtq) (u : Z) (cw cp : list vring_used_elem) (d : snap_dpa_virtq) : Prop := mk_used_core {
  uc_common : dq_common d = dq_common d0;
  uc_num : num_pending_comps d = Z.of_nat (length cp);
  uc_len : length (pending_comps d) = 16%nat;
  uc_take : take (length cp) (pending_comps d) = cp;
  uc_hw : hw_used_index d = u16 (u + Z.of_nat (length (cw ++ cp)));
  uc_host : host_used_index d = u16 (u + Z.of_nat (length cw));
  uc_posts : exists ps, p2_posts (dq_chan d) = p2_posts (dq_chan d0) ++ ps /\
    all_entries ps = zip (used_slots (dq_common d0) u (length cw)) cw /\ used_index_ok (dq_common d0) u ps
}.

(** Between two calls fewer than eight completions wait, and they end before the end of the
    ring. *)
Definition used_inv (d0 : snap_dpa_virtq) (u : Z) (cs : list vring_used_elem) (d : snap_dpa_virtq) : Prop :=
  exists cw cp, cs = cw ++ cp /\ used_core d0 u cw cp d /\ (length cp <= 7)%nat /\
  (cp = [] \/ (u + Z.of_nat (length cw)) mod dc_size (dq_common d0) + Z.of_nat (length cp) < dc_size (dq_common d0)).

Section Used.
Context (ans : nat -> Z) (Hans : forall k, ans k = 0).
Context (d0 : snap_dpa_virtq) (u : Z) (Hring : used_ring_ok (dq_common d0)).
#[local] Abbreviation size := (dc_size (dq_common d0)).

Lemma write_short_run d a s :
  dpu_write_short ans d a s =
  Ok (s ⦇ dq_chan := (dq_chan s) ⦇ p2_tick := S (p2_tick (dq_chan s)) ⦈ ⦇ p2_posts := p2_posts (dq_chan s) ++ [PShort d a] ⦈ ⦈, 0).
Proof. unfold dpu_write_short, on_dpu_chan, p2_post, m_bind, gets, modify. cbn [res_bind]. by rewrite Hans. Qed.

Lemma flush_addr d cw cp : used_core d0 u cw cp d -> 
  used_elem_addr d = dc_device (dq_common d0) + used_ring_off + sizeof_used_elem * ((u + Z.of_nat (length cw)) mod size).
Proof.
  intros H. destruct Hring as ((k & Hk & Hsz) & Hdev & Hend). unfold used_elem_addr. rewrite (uc_common _ _ _ _ _ H), (uc_host _ _ _ _ _ H), Hsz, land_mask, mod_u16 by lia.
  rewrite Hsz in Hend. pose proof (Z.mod_pos_bound (u + Z.of_nat (length cw)) (2 ^ k) ltac:(lia)). unfold sizeof_used_elem, used_ring_off in *. apply u64_small. lia.
Qed.

Lemma flush_ok d cw cp :
  used_core d0 u cw cp d -> (u + Z.of_nat (length cw)) mod size + Z.of_nat (length cp) <= size -> (length cp <= 16)%nat ->
  post (flush_completions ans) (fun r d' => r = 0 /\ used_core d0 u (cw ++ cp) [] d' /\ last_hw_used_index d' = last_hw_used_index d) d.
Proof.
  intros H Hfit Hlen. pose proof (flush_addr d cw cp H) as Haddr. destruct H as [Hc Hn Hl Ht Hhw Hh (ps & Hps & Hent & Hidx)].
  assert (Hs : 0 < size) by (destruct Hring as ((k & Hk & ->) & _); lia).
  unfold flush_completions. apply post_gets. unfold id, post, m_bind at 1. rewrite write_short_run, Hn, Nat2Z.id, Ht, Haddr. cbn [res_bind Z.eqb negb].
  split; [done|]. split; [|done]. split; try done.
  - cbn. rewrite Hhw. f_equal. by rewrite app_nil_r.
  - cbn. rewrite Hh, Hn, length_app, (u16_small (Z.of_nat (length cp))) by lia. unfold u16. rewrite uwrap_add_l. f_equal. lia.
  - exists (ps ++ [PShort (Elems cp) (dc_device (dq_common d0) + used_ring_off + sizeof_used_elem * ((u + Z.of_nat (length cw)) mod size))]).
    split; [cbn; by rewrite Hps, (assoc_L (++))|]. split.
    + rewrite all_entries_app, Hent, used_slots_zip_app. f_equal. unfold all_entries. cbn [map concat entries]. rewrite app_nil_r. unfold used_slots.
      by rewrite slots_message.
    + by apply index_ok_snoc.
Qed.

Lemma inv_flushed cw d : used_core d0 u cw [] d -> used_inv d0 u cw d.
Proof. intros H. exists cw, []. split; [by rewrite app_nil_r|]. split; [done|]. split; [cbn; lia|by left]. Qed.

(** Adding a completion to those that wait. *)
Lemma core_add d cw cp c : used_core d0 u cw cp d -> (length cp <= 15)%nat ->
  used_core d0 u cw (cp ++ [c])
    (d ⦇ pending_comps := <[Z.to_nat (num_pending_comps d) := c]> (pending_comps d) ⦈ ⦇ num_pending_comps := num_pending_comps d + 1 ⦈
       ⦇ hw_used_index := u16 (hw_used_index d + 1) ⦈ ⦇ n_io_completed := u32 (n_io_completed d + 1) ⦈).
Proof.
  intros [Hc Hn Hl Ht Hhw Hh Hps] Hlen. split; try done; cbn.
  - rewrite Hn, length_app. cbn. lia.
  - by rewrite length_insert.
  - rewrite Hn, Nat2Z.id, length_app. cbn [length]. rewrite Nat.add_1_r, (take_S_r _ _ c); [|apply list_lookup_insert_eq; lia]. by rewrite take_insert_ge, Ht by lia.
  - rewrite Hhw, !length_app. unfold u16. rewrite uwrap_add_l. f_equal. cbn. lia.
Qed.

Lemma dpa_complete_ok cs c d : used_inv d0 u cs d ->
  post (virtq_blk_dpa_complete ans c) (fun r d' => r = 0 /\ used_inv d0 u (cs ++ [c]) d') d.
Proof.
  intros (cw & cp & -> & H & Hlen & Hfit). unfold virtq_blk_dpa_complete. apply post_gets. unfold id.
  destruct (MAX_PENDING_COMPS <=? num_pending_comps d) eqn:E; bool_to_prop.
  { rewrite (uc_num _ _ _ _ _ H) in E. unfold MAX_PENDING_COMPS in E. lia. }
  apply post_modify, post_modify, post_gets. pose proof (core_add d cw cp c H ltac:(lia)) as H1. match type of H1 with used_core _ _ _ _ ?x => set (d1 := x) in * end.
  destruct Hring as ((k & Hk & Hsz) & _). pose proof (Z.mod_pos_bound (u + Z.of_nat (length cw)) size ltac:(lia)) as Hm.
  assert (Hle : (u + Z.of_nat (length cw)) mod size + Z.of_nat (length (cp ++ [c])) <= size).
  { rewrite length_app. cbn [length]. destruct Hfit as [->|?]; cbn [length] in *; lia. }
  rewrite <- (assoc_L (++)).
  assert (Hflush : post (flush_completions ans) (fun r d' => r = 0 /\ used_inv d0 u (cw ++ cp ++ [c]) d') d1).
  { eapply post_mono; [apply (flush_ok d1 cw (cp ++ [c])); [done..|rewrite length_app; cbn; lia]|]. intros r d' (Hr & Hcore & _). split; [done|]. by apply inv_flushed. }
  destruct (8 <=? _) eqn:E8; bool_to_prop; [exact Hflush|]. destruct (Z.land _ _ =? 0) eqn:Ew; bool_to_prop; [exact Hflush|].
  apply post_return. split; [done|]. exists cw, (cp ++ [c]). split; [done|]. split; [done|].
  change (num_pending_comps d1 < 8) in E8. rewrite (uc_num _ _ _ _ _ H1) in E8. split; [lia|]. right.
  change (Z.land (hw_used_index d1) (dc_size (dq_common d1) - 1) <> 0) in Ew. rewrite (uc_common _ _ _ _ _ H1), (uc_hw _ _ _ _ _ H1), Hsz, land_mask, mod_u16 in Ew by lia.
  rewrite Hsz in *. apply Z.le_neq. split; [done|]. intros Heq. apply Ew. rewrite length_app, Nat2Z.inj_add, Z.add_assoc, <- Zplus_mod_idemp_l, Heq. apply Z_mod_same_full.
Qed.

(** The index is written when everything was flushed. *)
Lemma send_index_ok cs d : used_core d0 u cs [] d ->
  post (send_used_index ans) (fun _ d' => used_core d0 u cs [] d' /\ last_hw_used_index d' = hw_used_index d') d.
Proof.
  intros H. unfold send_used_index. apply post_gets. unfold id. destruct (last_hw_used_index d =? hw_used_index d) eqn:E; bool_to_prop; [by apply post_return|].
  unfold post, m_bind at 1. rewrite write_short_run. cbn [res_bind Z.eqb negb].
  assert (Haddr : u64 (dc_device (dq_common d) + used_idx_off) = dc_device (dq_common d0) + used_idx_off).
  { rewrite (uc_common _ _ _ _ _ H). destruct Hring as ((k & Hk & Hsz) & Hdev & Hend). rewrite Hsz in Hend. unfold used_idx_off, used_ring_off, sizeof_used_elem in *. apply u64_small. lia. }
  rewrite Haddr. set (v := hw_used_index d). set (d1 := d ⦇ dq_chan := _ ⦈).
  assert (H1 : used_core d0 u cs [] d1).
  { destruct H as [Hc Hn Hl Ht Hhw Hh (ps & Hps & Hent & Hidx)]. split; try done. eexists (ps ++ [_]). split; [cbn; rewrite Hps, <- (assoc_L (++)); reflexivity|].
    split; [by rewrite all_entries_app, Hent, app_nil_r|]. apply index_ok_snoc; [done|]. intros v' a' [= <- <-]. split; [|done].
    unfold v. rewrite Hhw, app_nil_r. do 2 f_equal. rewrite Hent, length_zip_with, used_slots_length. lia. }
  apply post_modify. set (d2 := d1 ⦇ last_hw_used_index := _ ⦈ ⦇ n_used_updates := _ ⦈).
  assert (H2 : used_core d0 u cs [] d2) by (destruct H1; by split). assert (Hlast : last_hw_used_index d2 = hw_used_index d2) by done.
  eapply post_bind_mono with (P := fun _ d' => used_core d0 u cs [] d' /\ last_hw_used_index d' = hw_used_index d').
  2:{ intros r d3 [H3 Hl3]. apply post_modify, post_return. split; [destruct H3; by split|done]. }
  destruct (msix_eq d); [|by apply post_return]. unfold snap_dpa_p2p_send_msix, snap_dpa_p2p_send_msg, on_dpu_chan, p2_post, post, m_bind, gets, modify. cbn [res_bind].
  destruct (credit_count _ =? 0); cbn [res_bind]; [split; [destruct H2; by split|done]|]. rewrite Hans. cbn [negb Z.eqb res_bind]. unfold mreturn. cbn [res_bind fst snd].
  split; [|done]. destruct H2 as [Hc Hn Hl Ht Hhw Hh (ps & Hps & Hent & Hidx)]. split; try done. eexists (ps ++ [_]). split; [cbn in *; rewrite Hps, <- (assoc_L (++)); reflexivity|].
  split; [by rewrite all_entries_app, Hent, app_nil_r|]. by apply index_ok_snoc.
Qed.

Lemma send_completions_ok cs d : used_inv d0 u cs d ->
  post (virtq_blk_dpa_send_completions ans) (fun _ d' => used_core d0 u cs [] d' /\ last_hw_used_index d' = hw_used_index d') d.
Proof.
  intros (cw & cp & -> & H & Hlen & Hfit). unfold virtq_blk_dpa_send_completions. apply post_gets. unfold id.
  eapply post_bind_mono with (P := fun r d' => r = 0 /\ used_core d0 u (cw ++ cp) [] d').
  - rewrite (uc_num _ _ _ _ _ H). destruct (Z.of_nat (length cp) =? 0) eqn:E; bool_to_prop; cbn [negb].
    + destruct cp; [|cbn in E; lia]. apply post_return. by rewrite app_nil_r.
    + eapply post_mono; [apply (flush_ok d cw cp H); [|lia]|by intros r d' (Hr & Hcore & _)]. destruct Hfit as [->|?]; [done|lia].
  - intros r d1 [-> H1]. cbn [Z.eqb negb]. by apply send_index_ok.
Qed.

Lemma run_comps_ok ops : forall cs d, used_inv d0 u cs d -> post (run_comps ans ops) (fun _ d' => used_inv d0 u (cs ++ comps_of ops) d') d.
Proof.
  unfold comps_of. induction ops as [|op ops IH]; intros cs d H; cbn [run_comps map concat]; [apply post_return; by rewrite app_nil_r|].
  rewrite (assoc_L (++)). destruct op as [c|]; cbn [op_comps].
  - eapply post_bind_mono; [by apply dpa_complete_ok|]. intros r d1 [_ H1]. by apply IH.
  - rewrite app_nil_r. eapply post_bind_mono; [by apply send_completions_ok|]. intros r d1 [H1 _]. by apply IH, inv_flushed.
Qed.
End Used.

Lemma run_comps_app ans l l' s : run_comps ans (l ++ l') s = (do! run_comps ans l in run_comps ans l') s.
Proof.
  revert s. induction l as [|[c|] l IH]; intros s; cbn [app run_comps]; [done|..]; unfold m_bind.
  - destruct (virtq_blk_dpa_complete ans c s) as [[s1 r]| | |]; cbn [res_bind]; [apply IH|done..].
  - destruct (virtq_blk_dpa_send_completions ans s) as [[s1 r]| | |]; cbn [res_bind]; [apply IH|done..].
Qed.

Lemma starts_core u d : starts_at u d -> used_core d u [] [] d.
Proof.
  intros (_ & Hu & Hhw & _ & Hh & Hn & Hl). split; try done; [cbn; rewrite Z.add_0_r, u16_small; done..|].
  exists []. split; [by rewrite app_nil_r|]. split; [done|apply index_ok_nil].
Qed.

(** C15: Completions of a DPA queue that starts in a consistent state.  When the posts are
    accepted, any sequence of completions and updates returns without undefined behaviour. 
    The entries written to the used ring and the fewer than eight that wait are the
    completions so far, in order; they are written to consecutive entries of the ring,
    around its end; every index that the driver sees counts the entries that were written
    before it. *)
Theorem completions_fill_used_ring ans d u ops
  (Hans : forall k, ans k = 0) (Hd : starts_at u d) :
  post (run_comps ans ops)
    (fun _ d' => exists cw cp ps, comps_of ops = cw ++ cp /\ take (Z.to_nat (num_pending_comps d')) (pending_comps d') = cp /\
       num_pending_comps d' <= 7 /\ p2_posts (dq_chan d') = p2_posts (dq_chan d) ++ ps /\
       all_entries ps = zip (used_slots (dq_common d) u (length cw)) cw /\ used_index_ok (dq_common d) u ps) d.
Proof.
  pose proof (inv_flushed d u [] d (starts_core u d Hd)) as Hinv.
  eapply post_mono; [exact (run_comps_ok ans Hans d u (proj1 Hd) ops [] d Hinv)|]. intros _ d' (cw & cp & Heq & H & Hlen & _).
  destruct (uc_posts _ _ _ _ _ H) as (ps & Hps & Hent & Hidx). exists cw, cp, ps. split; [done|]. pose proof (uc_num _ _ _ _ _ H) as Hn.
  split; [rewrite Hn, Nat2Z.id; apply H|]. split; [lia|]. done.
Qed.

(** After an update nothing waits: all completions so far are in the used ring, and the
    index of the queue, which is the last one the driver was told, counts them. *)
Theorem update_tells_all_completions ans d u ops
  (Hans : forall k, ans k = 0) (Hd : starts_at u d) :
  post (run_comps ans (ops ++ [SendCompletions]))
    (fun _ d' => exists ps, num_pending_comps d' = 0 /\ p2_posts (dq_chan d') = p2_posts (dq_chan d) ++ ps /\
       all_entries ps = zip (used_slots (dq_common d) u (length (comps_of ops))) (comps_of ops) /\
       last_hw_used_index d' = u16 (u + Z.of_nat (length (comps_of ops)))) d.
Proof.
  pose proof (inv_flushed d u [] d (starts_core u d Hd)) as Hinv. unfold post. rewrite run_comps_app.
  eapply post_bind_mono; [exact (run_comps_ok ans Hans d u (proj1 Hd) ops [] d Hinv)|]. intros r d1 H1. cbn beta in H1. cbn [run_comps].
  eapply post_bind_mono; [apply (send_completions_ok ans Hans d u (proj1 Hd) _ d1 H1)|]. intros _ d2 [H2 Hlast]. apply post_return.
  destruct (uc_posts _ _ _ _ _ H2) as (ps & Hps & Hent & _). exists ps. split; [apply (uc_num _ _ _ _ _ H2)|]. split; [done|]. split; [done|].
  rewrite Hlast, (uc_hw _ _ _ _ _ H2), app_nil_r. done.
Qed.
