(* ===== verification/DpaCmd.v ===== *)
(** The commands of the DPU to the thread of a virtqueue, over its mailbox
    (src/src/snap_dpa_virtq.c, src/src/snap_dpa.c): creation with all its resources, changes of
    state, queries, destruction.

    The functions of the runtime that a creation calls give their resource or fail, as
    [fails] says.  (The creation asks for its thread without attributes, which DpaRt shows to
    read a null pointer, and it names a variable that is not declared; it is modelled as it
    behaves once these are mended.) *)

From stdpp Require Import list.
From S2P Require Import Prelude Effects DpaRt DpaVq DpaVqProps DpaUsed.

(** * The system *)

(** What the creation of a queue acquires. *)
Inductive dpa_res := RVq | RRt | RThread | RMbox | RShadow | RShadowMr | RDuar | RMsixEq | RMsixCq | RCrossMkey.
#[export] Instance dpa_res_eq_dec : EqDecision dpa_res.
Proof. solve_decision. Defined.

(** The payload of the mailbox from its fifth byte on, as a change of state reads it: the
    indices, and the flag that says whether they are meant. *)
Record mbox_tail := mk_tail { mt_used : Z; mt_avail : Z; mt_set : bool }.

(** The DPU, the thread, the mailbox (sequence number and payload) and the resources. *)
Record dpa_sys := mk_dsys { sy_dq : snap_dpa_virtq; sy_thr : dpa_thread; mb_sn : Z; mb_tail : mbox_tail; sy_log : list (res_event dpa_res) }.
#[export] Instance dsys_settable : Settable dpa_sys := fun r => mk_dsys (sy_dq r) (sy_thr r) (mb_sn r) (mb_tail r) (sy_log r).

Definition SNAP_DPA_RSP_TO : Z := 2.
Definition VIRTIO_MSI_NO_VECTOR : Z := 65535.
Definition SNAP_VIRTIO_BLK_QUEUE_MOD_STATE : Z := 1.

(** What the attributes of a queue say. *)
Record dpa_queue_attr := mk_dattr { qa_common : snap_dpa_virtq_common; qa_hw_available_index : Z; qa_hw_used_index : Z }.

(** The bytes of [struct snap_dpa_virtq_common] at the place of the indices and of the flag:
    padding, which is zero, and the first byte of the address of the descriptors. *)
Definition tail_of_create (c : snap_dpa_virtq_common) : mbox_tail := mk_tail 0 0 (negb (Z.land (dc_desc c) 255 =? 0)).

Section Cmd.
(** Whether the thread runs in event mode, the key of the mailbox, whether the thread answers a
    command in time; whether an acquisition fails, and the conversion of the doorbell queue. *)
Context (event : bool) (mbox_lkey : Z) (answers : bool) (fails : dpa_res -> bool) (hw_cq_fails : bool).
#[local] Abbreviation V := (M dpa_sys).

Definition on_thread {A} (m : M dpa_thread A) : V A := fun s => let? r := m (sy_thr s) in Ok (s ⦇ sy_thr := fst r ⦈, snd r).
Definition log (e : res_event dpa_res) : V unit := modify (fun s => s ⦇ sy_log := sy_log s ++ [e] ⦈).
Definition log_all (l : list (res_event dpa_res)) : V unit := modify (fun s => s ⦇ sy_log := sy_log s ++ l ⦈).

(** [snap_dpa_cmd_send] and [snap_dpa_rsp_wait]: the status. *)
Definition dpa_call (cmd : dpa_cmd) : V Z :=
  do! modify (fun s => s ⦇ mb_sn := u32 (mb_sn s + 1) ⦈) in
  let! sn := gets mb_sn in
  if negb answers then mreturn SNAP_DPA_RSP_TO
  else
    let! r := on_thread (do_command event mbox_lkey (Some (sn, cmd))) in
    match snd r with Some st => mreturn st | None => mreturn SNAP_DPA_RSP_TO end.

(** The resources are acquired in order; [held] are those to release when this one is not to
    be had. *)
Definition acquire_res (r : dpa_res) (held : list dpa_res) (k : V (option Z)) : V (option Z) :=
  if fails r then do! log_all (map Release held) in mreturn None else do! log (Acquire r) in k.

(** A new queue on the DPU side. *)
Definition new_dq (a : dpa_queue_attr) (shadow : Z) (chan : snap_dpa_p2p_q) : snap_dpa_virtq :=
  mk_dq (qa_common a) shadow (negb (dc_msix_vector (qa_common a) =? VIRTIO_MSI_NO_VECTOR)) 0 0 0 (replicate 16 (0, 0)) 0 0 0 0 0 chan [] 0.

(** The queue of the thread, as the command carries it. *)
Definition new_vq (a : dpa_queue_attr) (shadow shadow_mkey cqnum mkey : Z) : dpa_virtq :=
  mk_dvq (qa_common a) (qa_hw_available_index a) (qa_hw_used_index a) mkey mkey shadow_mkey shadow cqnum DPA_VIRTQ_STATE_INIT false false
    (mk_dstats 0 0 0 0 0 0 0 0 0 0).

Definition held_msix (msix : bool) : list dpa_res := if msix then [RMsixCq; RMsixEq] else [].

(** The steps from the doorbell mapping on; the value is 0, or [None] on an error. *)
Definition create_msix (msix : bool) (k : V (option Z)) : V (option Z) :=
  if msix then
    acquire_res RMsixEq [RDuar; RShadowMr; RShadow; RMbox; RThread; RRt; RVq] (
    acquire_res RMsixCq [RMsixEq; RDuar; RShadowMr; RShadow; RMbox; RThread; RRt; RVq] k)
  else k.

Definition snap_dpa_virtq_create (a : dpa_queue_attr) (shadow shadow_mkey cqnum mkey : Z) (chan : snap_dpa_p2p_q) : V (option Z) :=
  let msix := negb (dc_msix_vector (qa_common a) =? VIRTIO_MSI_NO_VECTOR) in
  acquire_res RVq [] (
  acquire_res RRt [RVq] (
  acquire_res RThread [RRt; RVq] (
  do! log (Acquire RMbox) in
  do! modify (fun s => s ⦇ sy_dq := new_dq a shadow chan ⦈) in
  acquire_res RShadow [RMbox; RThread; RRt; RVq] (
  acquire_res RShadowMr [RShadow; RMbox; RThread; RRt; RVq] (
  do! modify (fun s => s ⦇ mb_tail := tail_of_create (qa_common a) ⦈) in
  if hw_cq_fails then do! log_all (map Release [RShadowMr; RShadow; RMbox; RThread; RRt; RVq]) in mreturn None
  else
  acquire_res RDuar [RShadowMr; RShadow; RMbox; RThread; RRt; RVq] (
  create_msix msix (
  acquire_res RCrossMkey (held_msix msix ++ [RDuar; RShadowMr; RShadow; RMbox; RThread; RRt; RVq]) (
  let! st := dpa_call (CmdCreate (new_vq a shadow shadow_mkey cqnum mkey) false) in
  if negb (st =? SNAP_DPA_RSP_OK) then
    do! log_all (map Release (RCrossMkey :: held_msix msix ++ [RDuar; RShadowMr; RShadow; RMbox; RThread; RRt; RVq])) in mreturn None
  else do! log (Release RMbox) in mreturn (Some 0))))))))).

Definition snap_dpa_virtq_destroy : V unit :=
  do! log (Acquire RMbox) in
  do! dpa_call CmdDestroy in
  do! log (Release RMbox) in
  let! q := gets sy_dq in
  log_all (map Release (held_msix (msix_eq q) ++ [RDuar; RThread; RRt; RCrossMkey; RShadowMr; RShadow; RVq])).

(** The state and the available index that a response shows; [None] when the mailbox holds the
    response to a command of another kind. *)
Definition rsp_state (r : dpa_virtq_rsp) : option (dpa_virtq_state * Z) :=
  match r with RspState st avail _ => Some (st, avail) | RspHealth st avail _ _ _ => Some (st, avail) | _ => None end.

(** The value: the state, the available index and the used index. *)
Definition snap_dpa_virtq_query : V (option (snap_virtq_state * Z) * Z) :=
  do! log (Acquire RMbox) in
  do! dpa_call CmdQuery in
  let! r := gets (fun s => dt_rsp (sy_thr s)) in
  let! q := gets sy_dq in
  do! log (Release RMbox) in
  mreturn ((fun x => (to_snap_virtq_state (fst x), snd x)) <$> rsp_state r, hw_used_index q).

(** Only the state is written to the mailbox. *)
Definition snap_dpa_virtq_modify (st : snap_virtq_state) : V Z :=
  do! log (Acquire RMbox) in
  let! t := gets mb_tail in
  do! dpa_call (CmdModify (mk_dmod (to_dpa_virtq_state st) (mt_used t) (mt_avail t) (mt_set t))) in
  do! log (Release RMbox) in mreturn 0.

Definition virtq_blk_dpa_modify (mask : Z) (st : snap_virtq_state) : V Z :=
  if negb (mask =? SNAP_VIRTIO_BLK_QUEUE_MOD_STATE) then mreturn (- EINVAL) else snap_dpa_virtq_modify st.
End Cmd.
