(* ===== verification/DpaCmdProps.v ===== *)
(** The commands to a virtqueue of the DPA: nothing leaks, a suspended queue reports its
    indices. *)

From stdpp Require Import list.
From S2P Require Import Prelude Effects DpaRt DpaVq DpaVqProps DpaUsed DpaCmd.

(** * Resources *)

(** ** Every command returns *)

Lemma event_io_returns event i s : post (event_io event i) (fun _ _ => True) s.
Proof. by destruct event. Qed.

Lemma any_returns {S A B} (m : M S A) (k : A -> M S B) s :
  post m (fun _ _ => True) s -> (forall a s', post (k a) (fun _ _ => True) s') -> post (m_bind m k) (fun _ _ => True) s.
Proof. intros Hm Hk. eapply post_bind_mono; [exact Hm|]. intros a s' _. apply Hk. Qed.

Lemma recv_returns event s : post (dpa_virtq_msix_recv event) (fun _ _ => True) s.
Proof. by eapply post_mono; [apply msix_recv_returns|]. Qed.

Create HintDb returns discriminated.
#[export] Hint Resolve event_io_returns recv_returns : returns.

(** Decompose an operation; what is left computes. *)
Ltac solve_returns :=
  repeat (first
    [ solve [auto 2 with returns nocore]
    | apply any_returns; [|intros ? ?]
    | match goal with |- post (match ?x with _ => _ end) _ _ => destruct x end
    | exact I ]).

Lemma modify_returns event c s : post (dpa_virtq_modify event c) (fun _ _ => True) s.
Proof.
  unfold dpa_virtq_modify, modify_done, dpa_virtq_write_rsp, dpa_virtq_duar_arm, dpa_virtq_msix_raise, dpa_virtq_msix_arm, m_when, upd_stats, upd_dvq, get_vq, set_rsp, do_io.
  solve_returns.
Qed.
#[export] Hint Resolve modify_returns : returns.

Lemma do_command_returns event mbox c s : post (do_command event mbox c) (fun _ _ => True) s.
Proof.
  unfold do_command, dpa_virtq_create, dpa_virtq_destroy, dpa_virtq_query, dpa_virtq_health_check, dpa_virtq_get_stats, dpa_virtq_write_rsp, dpa_virtq_duar_arm,
    dpa_virtq_msix_raise, dpa_virtq_msix_arm, m_when, upd_stats, upd_dvq, get_vq, set_rsp, do_io, dpa_window_set_active_mkey.
  solve_returns.
Qed.

(** A command changes neither the resources nor the queue of the DPU. *)
Lemma dpa_call_ok event mbox answers cmd s :
  post (dpa_call event mbox answers cmd) (fun _ s' => sy_log s' = sy_log s /\ sy_dq s' = sy_dq s /\ mb_tail s' = mb_tail s) s.
Proof.
  unfold dpa_call. apply post_modify, post_gets. destruct answers; cbn [negb]; [|by apply post_return].
  set (s1 := s ⦇ mb_sn := _ ⦈). pose proof (do_command_returns event mbox (Some (mb_sn s1, cmd)) (sy_thr s1)) as Hr.
  unfold post, on_thread, m_bind in *. destruct (do_command _ _ _ (sy_thr s1)) as [[t r]| | |]; try done. cbn [res_bind fst snd]. by destruct (snd r).
Qed.

(** ** Creation and destruction *)

(** What a queue holds. *)
Definition queue_resources (msix : bool) : list dpa_res := RCrossMkey :: held_msix msix ++ [RDuar; RShadowMr; RShadow; RThread; RRt; RVq].

Definition create_result (msix : bool) (l0 : list (res_event dpa_res)) (r : option Z) (s : dpa_sys) : Prop :=
  exists es, sy_log s = l0 ++ es /\
  match r with
  | None => held_after es [] = Some []
  | Some _ => held_after es [] = Some (queue_resources msix) /\ msix_eq (sy_dq s) = msix
  end.

Lemma acquire_ok fails r held k P s :
  P None (s ⦇ sy_log := sy_log s ++ map Release held ⦈) -> post k P (s ⦇ sy_log := sy_log s ++ [Acquire r] ⦈) -> post (acquire_res fails r held k) P s.
Proof. intros Hf Hk. unfold acquire_res. by destruct (fails r). Qed.

(** A failure: the events so far are [l], and all that was acquired is released. *)
Lemma failed_create msix l0 l s : sy_log s = l0 ++ l -> held_after l [] = Some [] -> create_result msix l0 None s.
Proof. intros Hl Ht. by exists l. Qed.

Ltac failed := eapply failed_create; [cbn; rewrite <- ?(assoc_L (++)); reflexivity|reflexivity].

Lemma create_last_ok msix l0 es event mbox answers cmd s :
  sy_log s = l0 ++ es -> held_after es [] = Some (RCrossMkey :: held_msix msix ++ [RDuar; RShadowMr; RShadow; RMbox; RThread; RRt; RVq]) -> msix_eq (sy_dq s) = msix ->
  post (let! st := dpa_call event mbox answers cmd in
        if negb (st =? SNAP_DPA_RSP_OK) then
          do! log_all (map Release (RCrossMkey :: held_msix msix ++ [RDuar; RShadowMr; RShadow; RMbox; RThread; RRt; RVq])) in mreturn None
        else do! log (Release RMbox) in mreturn (Some 0)) (create_result msix l0) s.
Proof.
  intros Hl Ht Hm. eapply post_bind_mono; [apply dpa_call_ok|]. intros st s1 (Hl1 & Hq1 & _). cbn beta.
  destruct (negb _).
  - eexists (es ++ _). split; [cbn; rewrite Hl1, Hl, <- (assoc_L (++)); reflexivity|]. rewrite held_after_app, Ht. by destruct msix.
  - eexists (es ++ _). split; [cbn; rewrite Hl1, Hl, <- (assoc_L (++)); reflexivity|]. rewrite held_after_app, Ht. split; [by destruct msix|]. cbn. congruence.
Qed.

Lemma dpa_create_ok event mbox answers fails hw_cq_fails a shadow shadow_mkey cqnum mkey chan s :
  post (snap_dpa_virtq_create event mbox answers fails hw_cq_fails a shadow shadow_mkey cqnum mkey chan)
    (create_result (negb (dc_msix_vector (qa_common a) =? VIRTIO_MSI_NO_VECTOR)) (sy_log s)) s.
Proof.
  unfold snap_dpa_virtq_create. cbv zeta. remember (negb (dc_msix_vector (qa_common a) =? VIRTIO_MSI_NO_VECTOR)) as msix eqn:Hmsix.
  do 3 (apply acquire_ok; [failed|]). apply post_modify, post_modify. do 2 (apply acquire_ok; [failed|]). apply post_modify.
  destruct hw_cq_fails; [apply post_modify, post_return; failed|]. apply acquire_ok; [failed|]. unfold create_msix. destruct msix.
  - do 3 (apply acquire_ok; [failed|]). eapply create_last_ok; [cbn; rewrite <- ?(assoc_L (++)); reflexivity|reflexivity|]. cbn. congruence.
  - apply acquire_ok; [failed|]. eapply create_last_ok; [cbn; rewrite <- ?(assoc_L (++)); reflexivity|reflexivity|]. cbn. congruence.
Qed.

(** The creation of a queue, whichever acquisition, conversion or command fails, releases
    each thing it acquired once and nothing else; when it succeeds the queue holds exactly its
    resources, the mailbox is free again, and a destruction, answered or not, releases them
    all, each once. *)
Theorem create_destroy_balanced event mbox answers answers' fails hw_cq_fails a shadow shadow_mkey cqnum mkey chan s :
  post (let! r := snap_dpa_virtq_create event mbox answers fails hw_cq_fails a shadow shadow_mkey cqnum mkey chan in
        match r with Some _ => snap_dpa_virtq_destroy event mbox answers' | None => mreturn tt end)
    (fun _ s' => exists es, sy_log s' = sy_log s ++ es /\ held_after es [] = Some []) s.
Proof.
  eapply post_bind_mono; [apply dpa_create_ok|]. intros r s1 (es & Hl & Hr). destruct r as [r|]; [|apply post_return; by exists es].
  destruct Hr as [Ht Hm]. unfold snap_dpa_virtq_destroy. apply post_modify. eapply post_bind_mono; [apply dpa_call_ok|]. intros st s2 (Hl2 & Hq2 & _). cbn beta.
  apply post_modify, post_gets. eexists (es ++ [Acquire RMbox] ++ [Release RMbox] ++ map Release _). split.
  - cbn. rewrite Hl2. cbn. rewrite Hl, <- !(assoc_L (++)). reflexivity.
  - rewrite held_after_app, Ht. cbn -[held_after]. rewrite Hq2. cbn -[held_after queue_resources held_msix]. rewrite Hm. by destruct (negb _).
Qed.

(** * Suspend, and ask *)

(** The thread of a ready queue that has answered all commands, and whose mailbox still holds
    the payload of its creation. *)
Record served (s : dpa_sys) : Prop := mk_served {
  sv_rdy : dv_state (dt_vq (sy_thr s)) = DPA_VIRTQ_STATE_RDY;
  sv_sn : cmd_last_sn (sy_thr s) = mb_sn s /\ 0 <= mb_sn s < 2 ^ 32;
  sv_tail : mb_tail s = tail_of_create (dv_common (dt_vq (sy_thr s)))
}.

Lemma next_sn x : 0 <= x < 2 ^ 32 -> (u32 (x + 1) =? x) = false.
Proof. intros Hx. unfold u32, uwrap. apply Z.eqb_neq. Z.div_mod_to_equations. lia. Qed.

Lemma dpa_call_new event mbox cmd s P :
  cmd_last_sn (sy_thr s) = mb_sn s -> 0 <= mb_sn s < 2 ^ 32 ->
  match do_command event mbox (Some (u32 (mb_sn s + 1), cmd)) (sy_thr s) with
  | Ok (t, (_, Some st)) => P st (s ⦇ mb_sn := u32 (mb_sn s + 1) ⦈ ⦇ sy_thr := t ⦈)
  | _ => False
  end -> post (dpa_call event mbox true cmd) P s.
Proof.
  intros Hl Hsn. unfold dpa_call, post, on_thread, m_bind, modify, gets. cbn [res_bind negb].
  change (sy_thr (s ⦇ mb_sn := u32 (mb_sn s + 1) ⦈)) with (sy_thr s). change (mb_sn (s ⦇ mb_sn := u32 (mb_sn s + 1) ⦈)) with (u32 (mb_sn s + 1)).
  destruct (do_command _ _ _ (sy_thr s)) as [[t [d [st|]]]| | |]; cbn [res_bind fst snd]; try done.
Qed.

Lemma suspend_command event mbox sn used avail set t :
  dv_state (dt_vq t) = DPA_VIRTQ_STATE_RDY -> (sn =? cmd_last_sn t) = false ->
  exists t', do_command event mbox (Some (sn, CmdModify (mk_dmod DPA_VIRTQ_STATE_SUSPEND used avail set))) t = Ok (t', (false, Some SNAP_DPA_RSP_OK)) /\
    dv_state (dt_vq t') = DPA_VIRTQ_STATE_SUSPEND /\ cmd_last_sn t' = sn /\
    dv_available_index (dt_vq t') = if set then avail else dv_available_index (dt_vq t).
Proof.
  intros Hst Hsn. unfold do_command, dpa_window_set_active_mkey. unfold m_bind at 1 2, modify at 1, gets at 1. cbn [res_bind].
  change (cmd_last_sn (t ⦇ dt_mkey := mbox ⦈)) with (cmd_last_sn t). rewrite Hsn. unfold dpa_virtq_modify, get_vq, m_bind, gets, modify. cbn [res_bind md_state].
  change (dv_state (dt_vq (t ⦇ dt_mkey := mbox ⦈ ⦇ cmd_last_sn := sn ⦈))) with (dv_state (dt_vq t)). rewrite Hst. destruct set; eexists; repeat split.
Qed.

Lemma query_command event mbox sn t :
  (sn =? cmd_last_sn t) = false ->
  exists t', do_command event mbox (Some (sn, CmdQuery)) t = Ok (t', (false, Some SNAP_DPA_RSP_OK)) /\
    dt_rsp t' = RspState (dv_state (dt_vq t)) (dv_available_index (dt_vq t)) (dv_used_index (dt_vq t)).
Proof.
  intros Hsn. unfold do_command, dpa_window_set_active_mkey. unfold m_bind at 1 2, modify at 1, gets at 1. cbn [res_bind].
  change (cmd_last_sn (t ⦇ dt_mkey := mbox ⦈)) with (cmd_last_sn t). rewrite Hsn. unfold dpa_virtq_query, dpa_virtq_write_rsp, set_rsp, get_vq, m_when, m_bind, gets, modify, mreturn.
  cbn [res_bind]. destruct (bool_decide _); eexists; split; reflexivity.
Qed.

(** C40: A ready queue that is suspended and asked reports the available index it has
    reached when the address of its descriptors is a multiple of 256, and 0 when it is not,
    when the thread answers and the mailbox still holds the rest of the creation: only the
    state is written to the mailbox, and the flag and the indices of the command are then
    the bytes of the creation. *)
Theorem suspended_queue_reports event mbox s
  (Hs : served s) :
  let q := dt_vq (sy_thr s) in
  post (do! virtq_blk_dpa_modify event mbox true SNAP_VIRTIO_BLK_QUEUE_MOD_STATE SNAP_VIRTQ_STATE_SUSPEND in snap_dpa_virtq_query event mbox true)
    (fun r _ => r = (Some (SNAP_VIRTQ_STATE_SUSPEND, if dc_desc (dv_common q) mod 2 ^ 8 =? 0 then dv_available_index q else 0), hw_used_index (sy_dq s))) s.
Proof.
  destruct Hs as [Hr [Hl Hsn] Ht]. cbv zeta. unfold virtq_blk_dpa_modify, snap_dpa_virtq_modify. cbn [Z.eqb SNAP_VIRTIO_BLK_QUEUE_MOD_STATE negb].
  apply post_assoc, post_modify, post_assoc, post_gets, post_assoc. apply post_bind.
  apply dpa_call_new; [done..|]. change (sy_thr (s ⦇ sy_log := _ ⦈)) with (sy_thr s). change (mb_sn (s ⦇ sy_log := _ ⦈)) with (mb_sn s). change (mb_tail (s ⦇ sy_log := _ ⦈)) with (mb_tail s).
  destruct (suspend_command event mbox (u32 (mb_sn s + 1)) (mt_used (mb_tail s)) (mt_avail (mb_tail s)) (mt_set (mb_tail s)) (sy_thr s) Hr) as (t & Hrun & Hst & Hl' & Ha).
  { rewrite Hl. by apply next_sn. }
  cbn [to_dpa_virtq_state]. rewrite Hrun. apply post_assoc, post_modify. apply post_bind, post_return. unfold snap_dpa_virtq_query. apply post_modify. apply post_bind.
  apply dpa_call_new; [exact Hl'|apply u32_range|].
  match goal with |- match do_command _ _ (Some (?n, _)) ?x with _ => _ end => change x with t; set (sn := n) end.
  destruct (query_command event mbox sn t) as (t2 & Hrun2 & Hrsp); [rewrite Hl'; apply next_sn, u32_range|]. rewrite Hrun2. apply post_gets, post_gets, post_modify, post_return.
  change (dt_rsp (sy_thr (_ ⦇ sy_thr := t2 ⦈))) with (dt_rsp t2). rewrite Hrsp, Hst, Ha, Ht. cbn -[Z.modulo Z.land Z.pow].
  change 255 with (2 ^ 8 - 1). rewrite land_mask by lia. by destruct (_ =? 0).
Qed.
