(* ===== verification/DpaRun.v ===== *)
(** Runs of a DPA virtqueue: a queue of eight entries whose new heads wrap around, its
    completions, and what a refused write or a command leads to. *)

From stdpp Require Import list.
From S2P Require Import Prelude Effects DpaVq DpaVqProps DpaUsed DpaServe DpaUsedProps DpaRt DpaCmd DpaCmdProps.

Module DpaRun.

(** ** The thread *)

Definition common0 : snap_dpa_virtq_common := mk_dcommon 1 8 4096 8192 12288 65535.
Definition stats0 : dpa_virtq_stats := mk_dstats 0 0 0 0 0 0 0 0 0 0.
(** The thread has sent the heads up to index 65534; the driver is at 5. *)
Definition vq0 : dpa_virtq := mk_dvq common0 65534 0 7 7 9 20480 0 DPA_VIRTQ_STATE_RDY false false stats0.
Definition chan0 : snap_dpa_p2p_q := mk_p2p 0 1024 [] 0.
Definition thr0 : dpa_thread := mk_dthr vq0 chan0 7 2 1 0 5 0 [] RspNone 0.
Definition accept (k : nat) : Z := 0.

Lemma thr0_ok : vq_ok thr0.
Proof. split; try (cbn; lia). exists 3. split; [lia|reflexivity]. Qed.

(** Seven heads in two messages, after the table of descriptors. *)
Example turn_of_thr0 :
  match virtq_progress accept true thr0 with
  | Ok (s, _) =>
      p2_posts (dt_chan s) = [PWrite 4096 128 7 20480 9; PHeads 21 1 1 5 2 8208 7; PHeads 22 1 1 5 5 8196 7] /\ dv_available_index (dt_vq s) = 5
  | _ => False
  end.
Proof. vm_compute. split; reflexivity. Qed.

(** The third post is refused. *)
Definition refuse_third (k : nat) : Z := if (k =? 2)%nat then - EAGAIN else 0.
Lemma progress_sends_new_heads_witness :
  post (virtq_progress refuse_third true)
    (fun _ s' => exists ps n,
       p2_posts (dt_chan s') = p2_posts (dt_chan thr0) ++ ps /\ Forall post_fits ps /\ all_heads ps = new_slots thr0 n /\
       if Z.of_nat (new_count thr0) <=? dc_size (dv_common (dt_vq thr0)) then
         dv_state (dt_vq s') = DPA_VIRTQ_STATE_RDY /\ dv_available_index (dt_vq s') = host_avail thr0 /\ n = new_count thr0 \/
         dv_state (dt_vq s') = DPA_VIRTQ_STATE_ERR /\ (n <= new_count thr0)%nat /\ refused refuse_third thr0 s'
       else dv_state (dt_vq s') = DPA_VIRTQ_STATE_ERR /\ ps = []) thr0 /\
  new_slots thr0 (new_count thr0) = [8208; 8210; 8196; 8198; 8200; 8202; 8204].
Proof.
  split; [|vm_compute; reflexivity]. apply (progress_sends_new_heads refuse_third true thr0).
  - intros k. unfold refuse_third. case_match; unfold EAGAIN; lia.
  - apply thr0_ok.
  - reflexivity.
  - left. discriminate.
Defined.

(** The index of the driver is nine ahead of a queue of eight: the queue is disabled. *)
Example index_too_far :
  match virtq_progress accept true (thr0 ⦇ host_avail := 7 ⦈) with
  | Ok (s, _) => dv_state (dt_vq s) = DPA_VIRTQ_STATE_ERR /\ p2_posts (dt_chan s) = []
  | _ => False
  end.
Proof. vm_compute. split; reflexivity. Qed.

(** The second message is refused: the two heads that were sent stay sent. *)
Example second_message_refused :
  match virtq_progress (fun k => if (k =? 2)%nat then - EAGAIN else 0) true thr0 with
  | Ok (s, _) => dv_state (dt_vq s) = DPA_VIRTQ_STATE_ERR /\ all_heads (p2_posts (dt_chan s)) = [8208; 8210]
  | _ => False
  end.
Proof. vm_compute. split; reflexivity. Qed.

(** ** Stopped *)

Definition thr_susp : dpa_thread := thr0 ⦇ dt_vq := vq0 ⦇ dv_state := DPA_VIRTQ_STATE_SUSPEND ⦈ ⦈.
Definition cmd_rdy : option (Z * dpa_cmd) := Some (1, CmdModify (mk_dmod DPA_VIRTQ_STATE_RDY 0 0 false)).
Definition thr_after : dpa_thread := match do_command true 3 cmd_rdy thr_susp with Ok (s, _) => s | _ => thr_susp end.

(** A suspended queue is asked to run and gets a turn with a doorbell waiting. *)
Lemma stopped_queue_is_silent_witness :
  is_stopped thr_after /\ dt_chan thr_after = dt_chan thr_susp /\ dv_available_index (dt_vq thr_after) = 65534.
Proof.
  apply (stopped_queue_is_silent true 3 thr_susp thr_after); [left; reflexivity|].
  apply (star_step _ _ thr_after); [|apply (star_step _ _ thr_after); [|apply star_refl]].
  - apply (ts_command true 3 cmd_rdy _ _ (false, Some SNAP_DPA_RSP_ERR)); [intros sn v rec; discriminate|vm_compute; reflexivity].
  - apply (ts_turn true 3 accept). vm_compute. reflexivity.
Defined.

(** ** Requests *)

(** The heads in the available ring: the place of an entry, for the example. *)
Definition mem0 (a : Z) : Z := (a - 8196) / 2.
Definition dq0 : snap_dpa_virtq := mk_dq common0 20480 false 65534 65534 65534 (replicate 16 (0, 0)) 0 0 0 0 0 chan0 [] 0.
Definition stack0 (i : nat) : list virtq_split_tunnel_req := replicate 64 (mk_treq 0 0 0 0).
Definition thr1 : dpa_thread := match virtq_progress accept true thr0 with Ok (s, _) => s | _ => thr0 end.

Lemma new_heads_become_requests_witness :
  exists ps, p2_posts (dt_chan thr1) = p2_posts (dt_chan thr0) ++ ps /\
  let arrived := concat (map (deliver_msg mem0) ps) in
  post (poll_turns (length arrived) stack0)
    (fun l d' => map descr_head_idx l = map mem0 (new_slots thr0 (new_count thr0)) /\ Forall (req_ok dq0) l /\ dq_rx d' = []) (dq0 ⦇ dq_rx := arrived ⦈).
Proof.
  apply (new_heads_become_requests accept true mem0 stack0 thr0 thr1 dq0).
  - intros k. reflexivity.
  - apply thr0_ok.
  - reflexivity.
  - left. discriminate.
  - vm_compute. discriminate.
  - intros i. reflexivity.
  - vm_compute. reflexivity.
Defined.

Example requests_of_thr0 :
  match poll_turns 2 stack0 (dq0 ⦇ dq_rx := concat (map (deliver_msg mem0) (p2_posts (dt_chan thr1))) ⦈) with
  | Ok (_, l) => map descr_head_idx l = [6; 7; 0; 1; 2; 3; 4]
  | _ => False
  end.
Proof. vm_compute. reflexivity. Qed.

(** A caller with room for one request never gets one: the message is taken and lost. *)
Example one_request_loses_message :
  match virtq_blk_dpa_poll (replicate 1 (mk_treq 0 0 0 0)) 1 (dq0 ⦇ dq_rx := [mk_vqu SNAP_DPA_P2P_MSG_VQ_HEADS 1 [4]] ⦈) with
  | Ok (d, (_, n)) => n = - ENOMEM /\ dq_rx d = []
  | _ => False
  end.
Proof. vm_compute. split; reflexivity. Qed.

(** ** Completions *)

Definition ops0 : list comp_op := [Complete (6, 512); Complete (7, 512); Complete (0, 1); SendCompletions; Complete (1, 1)].

Lemma dq0_starts : starts_at 65534 dq0.
Proof. split; [split; [exists 3; split; [lia|reflexivity]|split; vm_compute; discriminate]|]. repeat split; try (vm_compute; discriminate). Qed.

Lemma completions_fill_used_ring_witness :
  post (run_comps accept ops0)
    (fun _ d' => exists cw cp ps, comps_of ops0 = cw ++ cp /\ take (Z.to_nat (num_pending_comps d')) (pending_comps d') = cp /\
       num_pending_comps d' <= 7 /\ p2_posts (dq_chan d') = p2_posts (dq_chan dq0) ++ ps /\
       all_entries ps = zip (used_slots (dq_common dq0) 65534 (length cw)) cw /\ used_index_ok (dq_common dq0) 65534 ps) dq0.
Proof. apply (completions_fill_used_ring accept dq0 65534 ops0); [intros k; reflexivity|apply dq0_starts]. Defined.

Example posts_of_ops0 :
  match run_comps accept ops0 dq0 with
  | Ok (d, _) =>
      p2_posts (dq_chan d) = [PShort (Elems [(6, 512); (7, 512)]) 12340; PShort (Elems [(0, 1)]) 12292; PShort (Index 1) 12290] /\ num_pending_comps d = 1
  | _ => False
  end.
Proof. vm_compute. split; reflexivity. Qed.

(** The writes are refused from now on: nine completions for a ring of eight wait in one
    piece, and the seventeenth is written behind the array. *)
Example refused_flush_overflows :
  let refuse (k : nat) := - EAGAIN in
  match run_comps refuse (replicate 9 (Complete (1, 1))) dq0 with Ok (d, _) => num_pending_comps d = 9 | _ => False end /\
  run_comps refuse (replicate 17 (Complete (1, 1))) dq0 = Oob.
Proof. vm_compute. split; reflexivity. Qed.

(** After the refusals the write of the ninth completion starts at entry 6 of the used
    ring and runs behind its end. *)
Example late_flush_runs_over_ring :
  match run_comps (fun k => if (k <? 3)%nat then - EAGAIN else 0) (replicate 9 (Complete (1, 1)) ++ [SendCompletions]) dq0 with
  | Ok (d, _) => match p2_posts (dq_chan d) with PShort (Elems l) a :: _ => a + 8 * Z.of_nat (length l) > 12288 + 4 + 8 * 8 | _ => False end
  | _ => False
  end.
Proof. vm_compute. reflexivity. Qed.

(** ** Commands *)

Definition sys0 : dpa_sys := mk_dsys dq0 thr0 0 (tail_of_create common0) [].

Lemma sys0_served : served sys0.
Proof. split; [reflexivity|split; [reflexivity|cbn; lia]|reflexivity]. Qed.

Lemma suspended_queue_reports_witness :
  post (do! virtq_blk_dpa_modify true 3 true SNAP_VIRTIO_BLK_QUEUE_MOD_STATE SNAP_VIRTQ_STATE_SUSPEND in snap_dpa_virtq_query true 3 true)
    (fun r _ => r = (Some (SNAP_VIRTQ_STATE_SUSPEND, if dc_desc common0 mod 2 ^ 8 =? 0 then 65534 else 0), 65534)) sys0.
Proof. apply (suspended_queue_reports true 3 sys0), sys0_served. Defined.

(** A change of state that the thread refuses is reported as done. *)
Example refused_modify_succeeds :
  match virtq_blk_dpa_modify true 3 true SNAP_VIRTIO_BLK_QUEUE_MOD_STATE SNAP_VIRTQ_STATE_INIT sys0 with
  | Ok (s, r) => r = 0 /\ dv_state (dt_vq (sy_thr s)) = DPA_VIRTQ_STATE_RDY
  | _ => False
  end.
Proof. vm_compute. split; reflexivity. Qed.

(** A queue that is created to go on from index 5 starts to complete at index 0. *)
Example created_queue_starts_at_zero :
  match snap_dpa_virtq_create true 3 true (fun _ => false) false (mk_dattr common0 5 5) 20480 9 0 7 chan0 sys0 with
  | Ok (s, r) => r = Some 0 /\ dv_available_index (dt_vq (sy_thr s)) = 5 /\ hw_used_index (sy_dq s) = 0
  | _ => False
  end.
Proof. vm_compute. repeat split. Qed.

End DpaRun.
