(* ===== verification/DpaNvme.v ===== *)
(** Submission queues served by the DPA (src/dpa/dpa_nvme.c): the thread of a completion queue
    reads the doorbells of its submission queues, copies the new entries to the DPU and tells
    it. *)

From stdpp Require Import list.
From S2P Require Import Prelude Effects DpaVq DpaVqProps.

(** * State *)

Inductive dpa_nvme_state := DPA_NVME_STATE_INIT | DPA_NVME_STATE_RDY | DPA_NVME_STATE_ERR | DPA_NVME_STATE_SUSPEND.
#[export] Instance nvme_state_eq_dec : EqDecision dpa_nvme_state.
Proof. solve_decision. Defined.

(** [struct dpa_nvme_sq] *)
Record dpa_nvme_sq := mk_nsq {
  nsq_id : Z; dpu_sqe_shadow_mkey : Z; dpu_sqe_shadow_addr : Z; base_addr : Z; queue_depth : Z; nsq_duar : Z; dpu_mkey : Z; host_sq_tail : Z; nsq_state : dpa_nvme_state
}.
#[export] Instance nsq_settable : Settable dpa_nvme_sq := fun r =>
  mk_nsq (nsq_id r) (dpu_sqe_shadow_mkey r) (dpu_sqe_shadow_addr r) (base_addr r) (queue_depth r) (nsq_duar r) (dpu_mkey r) (host_sq_tail r) (nsq_state r).

(** [struct dpa_nvme_cq] *)
Record dpa_nvme_cq := mk_ncq { ncq_sqs : list dpa_nvme_sq; ncq_state : dpa_nvme_state; cq_head_duar : Z; host_cq_head : Z; ncq_msix_cqnum : Z }.
#[export] Instance ncq_settable : Settable dpa_nvme_cq := fun r => mk_ncq (ncq_sqs r) (ncq_state r) (cq_head_duar r) (host_cq_head r) (ncq_msix_cqnum r).

(** Accesses to the hardware. *)
Inductive nvme_io := NArmRxCq | NArmMsixCq | NDuarArm (duar : Z) | NMsixSend (cqnum : Z) | NProgressTx.

(** The thread: its queue, its channel, the messages and interrupt completions that wait, what
    the doorbells read, and the state and the value of the last response. *)
Record nvme_thread := mk_nthr {
  nt_cq : dpa_nvme_cq; nt_chan : snap_dpa_p2p_q; nt_rx : nat; nt_msix : nat; nt_db : Z -> Z; nt_io : list nvme_io; nt_rsp : option (dpa_nvme_state * Z); nt_last_sn : Z;
  nt_mkey : Z
}.
#[export] Instance nthr_settable : Settable nvme_thread := fun r =>
  mk_nthr (nt_cq r) (nt_chan r) (nt_rx r) (nt_msix r) (nt_db r) (nt_io r) (nt_rsp r) (nt_last_sn r) (nt_mkey r).

(** The commands; a change carries what its mask selects. *)
Inductive nvme_cmd :=
| NCmdStop
| NCqCreate (c : dpa_nvme_cq)
| NCqDestroy
| NCqModify (st : option dpa_nvme_state)
| NCqQuery
| NSqCreate (q : dpa_nvme_sq)
| NSqDestroy
| NSqModify (sqid : Z) (st : option dpa_nvme_state) (tail : option Z)
| NSqQuery (sqid : Z)
| NCmdOther.

Section Nvme.
(** The answers to the posts; whether the thread runs in event mode; the key of the mailbox. *)
Context (ans : nat -> Z) (event : bool) (mbox_lkey : Z).
#[local] Abbreviation V := (M nvme_thread).

Definition upd_cq (f : dpa_nvme_cq -> dpa_nvme_cq) : V unit := modify (fun s => s ⦇ nt_cq := f (nt_cq s) ⦈).
Definition nvme_do (i : nvme_io) : V unit := modify (fun s => s ⦇ nt_io := nt_io s ++ [i] ⦈).
Definition on_nchan {A} (m : M snap_dpa_p2p_q A) : V A := fun s => let? r := m (nt_chan s) in Ok (s ⦇ nt_chan := fst r ⦈, snd r).
Definition dpa_write_rsp (st : dpa_nvme_state) (db_value : Z) : V unit := modify (fun s => s ⦇ nt_rsp := Some (st, u32 db_value) ⦈).
Definition dpa_ctx_read (duar : Z) : V Z := gets (fun s => nt_db s duar).

(** ** Commands *)

Definition dpa_nvme_cq_create (c : dpa_nvme_cq) : V Z := do! upd_cq (fun _ => c) in mreturn SNAP_DPA_RSP_OK.
(** The list is initialised for every queue. *)
Definition dpa_nvme_sq_create (q : dpa_nvme_sq) : V Z := do! upd_cq (fun c => c ⦇ ncq_sqs := [q] ⦈) in mreturn SNAP_DPA_RSP_OK.
Definition dpa_nvme_sq_destroy : V Z :=
  do! upd_cq (fun c => c ⦇ ncq_sqs := map (fun q => q ⦇ nsq_state := DPA_NVME_STATE_ERR ⦈) (ncq_sqs c) ⦈) in mreturn SNAP_DPA_RSP_OK.

(** The first queue with the number, changed by [f]. *)
Fixpoint change_first (sqid : Z) (f : dpa_nvme_sq -> dpa_nvme_sq) (l : list dpa_nvme_sq) : list dpa_nvme_sq :=
  match l with
  | [] => []
  | q :: l => if nsq_id q =? sqid then f q :: l else q :: change_first sqid f l
  end.

Definition dpa_nvme_sq_modify (sqid : Z) (st : option dpa_nvme_state) (tail : option Z) : V Z :=
  let f q :=
    let q := match st with Some st => q ⦇ nsq_state := st ⦈ | None => q end in
    match tail with Some t => q ⦇ host_sq_tail := t ⦈ | None => q end in
  let! c := gets nt_cq in
  match find (fun q => nsq_id q =? sqid) (ncq_sqs c) with
  | Some q =>
      do! upd_cq (fun c => c ⦇ ncq_sqs := change_first sqid f (ncq_sqs c) ⦈) in
      do! m_when (bool_decide (st = Some DPA_NVME_STATE_RDY)) (nvme_do (NDuarArm (nsq_duar q))) in
      mreturn SNAP_DPA_RSP_OK
  | None => mreturn SNAP_DPA_RSP_OK
  end.

Definition dpa_nvme_sq_query (sqid : Z) : V Z :=
  let! c := gets nt_cq in
  match find (fun q => nsq_id q =? sqid) (ncq_sqs c) with
  | Some q =>
      do! m_when (bool_decide (nsq_state q = DPA_NVME_STATE_RDY)) (nvme_do (NDuarArm (nsq_duar q))) in
      let! tail := dpa_ctx_read (nsq_duar q) in
      do! dpa_write_rsp (nsq_state q) tail in mreturn SNAP_DPA_RSP_OK
  | None => mreturn SNAP_DPA_RSP_ERR
  end.

Definition dpa_nvme_cq_query : V Z :=
  let! c := gets nt_cq in
  let! head := dpa_ctx_read (cq_head_duar c) in
  do! dpa_write_rsp (ncq_state c) head in mreturn SNAP_DPA_RSP_OK.

Definition dpa_nvme_cq_destroy : V Z :=
  do! on_nchan (snap_dpa_p2p_send_flush ans) in
  do! nvme_do NProgressTx in
  do! upd_cq (fun c => c ⦇ ncq_state := DPA_NVME_STATE_ERR ⦈) in mreturn SNAP_DPA_RSP_OK.

Definition dpa_nvme_cq_modify (st : option dpa_nvme_state) : V Z :=
  do! m_when (bool_decide (is_Some st)) (upd_cq (fun c => c ⦇ ncq_state := default (ncq_state c) st ⦈)) in mreturn SNAP_DPA_RSP_OK.

Definition nvme_run_cmd (cmd : nvme_cmd) : V (bool * Z) :=
  match cmd with
  | NCmdStop => mreturn (true, SNAP_DPA_RSP_OK)
  | NCqCreate c => let! st := dpa_nvme_cq_create c in mreturn (false, st)
  | NCqDestroy => let! st := dpa_nvme_cq_destroy in mreturn (false, st)
  | NCqModify st => let! st := dpa_nvme_cq_modify st in mreturn (false, st)
  | NCqQuery => let! st := dpa_nvme_cq_query in mreturn (false, st)
  | NSqCreate q => let! st := dpa_nvme_sq_create q in mreturn (false, st)
  | NSqDestroy => let! st := dpa_nvme_sq_destroy in mreturn (false, st)
  | NSqModify sqid st tail => let! st := dpa_nvme_sq_modify sqid st tail in mreturn (false, st)
  | NSqQuery sqid => let! st := dpa_nvme_sq_query sqid in mreturn (false, st)
  | NCmdOther => mreturn (false, SNAP_DPA_RSP_OK)
  end.

(** A command with its sequence number, when its completion is there.  The value: whether the
    thread is to stop, and the status of the response, when one is sent. *)
Definition nvme_do_command (c : option (Z * nvme_cmd)) : V (bool * option Z) :=
  match c with
  | None => mreturn (false, None)
  | Some (sn, cmd) =>
      do! modify (fun s => s ⦇ nt_mkey := mbox_lkey ⦈) in
      let! last := gets nt_last_sn in
      if sn =? last then mreturn (false, None)
      else
        do! modify (fun s => s ⦇ nt_last_sn := sn ⦈) in
        let! r := nvme_run_cmd cmd in
        mreturn (fst r, Some (snd r))
  end.

(** ** Progress *)

Definition nvme_recv_msg : V nat :=
  let! n := gets nt_rx in
  let got := Nat.min n 16 in
  do! modify (fun s => s ⦇ nt_rx := (n - got)%nat ⦈) in mreturn got.
Fixpoint nvme_recv_all (fuel : nat) (count : Z) : V Z :=
  match fuel with
  | O => never_returns
  | S fuel =>
      let! n := nvme_recv_msg in
      if (n =? 0)%nat then mreturn count else nvme_recv_all fuel (count + Z.of_nat n)
  end.
(** Every turn but the last takes a message. *)
Definition dpa_p2p_recv : V Z :=
  do! m_when event (nvme_do NArmRxCq) in
  let! waiting := gets nt_rx in
  nvme_recv_all (S waiting) 0.

Definition dpa_msix_arm : V unit :=
  do! nvme_do NArmMsixCq in
  modify (fun s => s ⦇ nt_msix := (nt_msix s - SNAP_DPA_RT_THR_MSIX_CQE_CNT)%nat ⦈).
Definition dpa_msix_raise : V unit :=
  let! c := gets nt_cq in
  do! dpa_msix_arm in nvme_do (NMsixSend (ncq_msix_cqnum c)).

(** A submission queue: what is left of it after its turn. *)
Definition sq_turn (q : dpa_nvme_sq) : V dpa_nvme_sq :=
  if negb (bool_decide (nsq_state q = DPA_NVME_STATE_RDY)) then mreturn q
  else
    do! nvme_do (NDuarArm (nsq_duar q)) in
    let! sq_tail := dpa_ctx_read (nsq_duar q) in
    let! q' := (if negb (sq_tail =? host_sq_tail q) then
                  do! on_nchan (snap_dpa_p2p_send_sq_tail ans (u16 (nsq_id q)) (u16 sq_tail) (base_addr q) (dpu_mkey q) (dpu_sqe_shadow_addr q)
                                  (dpu_sqe_shadow_mkey q) (host_sq_tail q) (queue_depth q)) in
                  mreturn (q ⦇ host_sq_tail := u32 sq_tail ⦈)
                else mreturn q) in
    do! nvme_do NProgressTx in mreturn q'.

Fixpoint sqs_turn (l : list dpa_nvme_sq) : V (list dpa_nvme_sq) :=
  match l with
  | [] => mreturn []
  | q :: l => let! q' := sq_turn q in let! l' := sqs_turn l in mreturn (q' :: l')
  end.

Definition nvme_progress : V unit :=
  let! c := gets nt_cq in
  if negb (bool_decide (ncq_state c = DPA_NVME_STATE_RDY)) then mreturn tt
  else
    let! msix_count := dpa_p2p_recv in
    do! m_when (negb (msix_count =? 0)) dpa_msix_raise in
    let! sqs := sqs_turn (ncq_sqs c) in
    do! upd_cq (fun c => c ⦇ ncq_sqs := sqs ⦈) in
    do! nvme_do (NDuarArm (cq_head_duar c)) in
    let! cq_head := dpa_ctx_read (cq_head_duar c) in
    do! (if negb (host_cq_head c =? cq_head) then
           do! on_nchan (snap_dpa_p2p_send_cq_head ans (u16 cq_head)) in
           upd_cq (fun c => c ⦇ host_cq_head := u32 cq_head ⦈)
         else mreturn tt) in
    nvme_do NProgressTx.
End Nvme.
