(* ===== verification/DpaNvmeProps.v ===== *)
(** What the DPA sends for the submission queues of a completion queue. *)

From stdpp Require Import list.
From S2P Require Import Prelude Effects DpaVq DpaVqProps DpaNvme.

(** A ready queue as a driver uses it: the doorbell and the last tail are inside the queue, and
    the queue and its shadow in the address space. *)
Definition nsq_ok (db : Z -> Z) (q : dpa_nvme_sq) : Prop :=
  0 < queue_depth q < 2 ^ 16 /\ 0 <= db (nsq_duar q) < queue_depth q /\ 0 <= host_sq_tail q < queue_depth q /\
  0 <= base_addr q /\ base_addr q + 64 * queue_depth q <= 2 ^ 64 /\ 0 <= dpu_sqe_shadow_addr q /\ dpu_sqe_shadow_addr q + 64 * queue_depth q <= 2 ^ 64.

(** The new entries of a queue, in the host and in the shadow. *)
Definition is_ready (q : dpa_nvme_sq) : bool := bool_decide (nsq_state q = DPA_NVME_STATE_RDY).
Definition new_sqes (db : Z -> Z) (base : dpa_nvme_sq -> Z) (q : dpa_nvme_sq) : list Z :=
  if is_ready q then ring_slots (base q) 64 (queue_depth q) (host_sq_tail q) (Z.to_nat ((db (nsq_duar q) - host_sq_tail q) mod queue_depth q)) else [].
Definition caught_up (db : Z -> Z) (q : dpa_nvme_sq) : dpa_nvme_sq := if is_ready q then q ⦇ host_sq_tail := db (nsq_duar q) ⦈ else q.

(** From [s] to [s'] the entries [rd] were copied to [wr]. *)
Definition copied (rd wr : list Z) (s s' : nvme_thread) : Prop :=
  nt_cq s' = nt_cq s /\ nt_db s' = nt_db s /\
  exists ps, p2_posts (nt_chan s') = p2_posts (nt_chan s) ++ ps /\ concat (map sqes_read ps) = rd /\ concat (map sqes_written ps) = wr.

Lemma copied_same s s' : nt_cq s' = nt_cq s -> nt_db s' = nt_db s -> p2_posts (nt_chan s') = p2_posts (nt_chan s) -> copied [] [] s s'.
Proof. intros Hc Hd Hp. split; [done|]. split; [done|]. exists []. by rewrite app_nil_r. Qed.

Lemma copied_trans rd wr rd' wr' s1 s2 s3 : copied rd wr s1 s2 -> copied rd' wr' s2 s3 -> copied (rd ++ rd') (wr ++ wr') s1 s3.
Proof.
  intros (Hc & Hd & ps & Hp & Hr & Hw) (Hc' & Hd' & ps' & Hp' & Hr' & Hw'). split; [congruence|]. split; [congruence|]. exists (ps ++ ps').
  rewrite Hp', Hp, !map_app, !concat_app, Hr, Hr', Hw, Hw', (assoc_L (++)). done.
Qed.

Section Turn.
Context (ans : nat -> Z) (Hans : forall k, ans k = 0).

Lemma send_tail_copied s q : nsq_ok (nt_db s) q -> is_ready q = true -> 
  post (on_nchan (snap_dpa_p2p_send_sq_tail ans (u16 (nsq_id q)) (u16 (nt_db s (nsq_duar q))) (base_addr q) (dpu_mkey q) (dpu_sqe_shadow_addr q)
          (dpu_sqe_shadow_mkey q) (host_sq_tail q) (queue_depth q)))
    (fun _ s' => copied (new_sqes (nt_db s) base_addr q) (new_sqes (nt_db s) dpu_sqe_shadow_addr q) s s') s.
Proof.
  intros (Hd & Hdb & Ht & Hb & Hb' & Hs & Hs') Hr. rewrite (u16_small (nt_db s _)) by lia.
  pose proof (sq_tail_copies_new_entries ans (nt_chan s) (u16 (nsq_id q)) (nt_db s (nsq_duar q)) (base_addr q) (dpu_mkey q) (dpu_sqe_shadow_addr q)
    (dpu_sqe_shadow_mkey q) (host_sq_tail q) (queue_depth q) Hans ltac:(lia) Hdb Ht (conj Hb Hb') (conj Hs Hs')) as Hsend.
  unfold post, on_nchan in *. destruct (snap_dpa_p2p_send_sq_tail _ _ _ _ _ _ _ _ _ _) as [[c r]| | |]; try done. cbn [res_bind fst snd].
  destruct Hsend as (ps & last & Hp & _ & Hrd & Hwr & Hl & Hl'). split; [done|]. split; [done|]. exists (ps ++ last). cbn. split; [done|].
  unfold new_sqes. by rewrite Hr, !map_app, !concat_app, Hl, Hl', !app_nil_r, Hrd, Hwr.
Qed.

Lemma sq_turn_ok s q : nsq_ok (nt_db s) q ->
  post (sq_turn ans q)
    (fun q' s' => q' = caught_up (nt_db s) q /\ copied (new_sqes (nt_db s) base_addr q) (new_sqes (nt_db s) dpu_sqe_shadow_addr q) s s') s.
Proof.
  intros Hok. unfold sq_turn. destruct (bool_decide _) eqn:Er; cbn [negb].
  2:{ apply post_return. unfold caught_up, new_sqes, is_ready. rewrite Er. split; [done|by apply copied_same]. }
  apply post_modify. set (s1 := s ⦇ nt_io := _ ⦈). assert (H1 : copied [] [] s s1) by by apply copied_same. apply post_gets. change (nt_db s1) with (nt_db s).
  destruct (nt_db s (nsq_duar q) =? host_sq_tail q) eqn:Ee; bool_to_prop; cbn [negb].
  - apply post_bind, post_return, post_modify, post_return. unfold caught_up, new_sqes, is_ready. rewrite Er, Ee, Z.sub_diag, Zmod_0_l. split; [|by apply copied_same]. by destruct q.
  - apply post_assoc. eapply post_bind_mono; [apply (send_tail_copied s1 q Hok Er)|]. intros r s2 H2. apply post_bind, post_return, post_modify, post_return.
    destruct Hok as (Hd & Hdb & _). unfold caught_up, is_ready at 1. rewrite Er, u32_small by lia. split; [done|].
    change (nt_db s1) with (nt_db s) in H2. destruct (copied_trans _ _ _ _ _ _ _ H1 H2) as (Hc & Hdb' & Hps). by split.
Qed.

Lemma sqs_turn_ok l : forall s, Forall (nsq_ok (nt_db s)) l ->
  post (sqs_turn ans l)
    (fun l' s' => l' = map (caught_up (nt_db s)) l /\
       copied (concat (map (new_sqes (nt_db s) base_addr) l)) (concat (map (new_sqes (nt_db s) dpu_sqe_shadow_addr) l)) s s') s.
Proof.
  induction l as [|q l IH]; intros s Hok; cbn [sqs_turn map concat]; [apply post_return; split; [done|by apply copied_same]|].
  apply Forall_cons in Hok as [Hq Hok]. eapply post_bind_mono; [by apply sq_turn_ok|]. intros q' s1 [-> H1]. cbn beta.
  assert (Hdb : nt_db s1 = nt_db s) by apply H1. rewrite <- Hdb in Hok. eapply post_bind_mono; [by apply IH|]. intros l' s2 [-> H2]. cbn beta. apply post_return.
  rewrite Hdb in *. split; [done|]. by eapply copied_trans.
Qed.

Lemma send_head_copied s h : post (on_nchan (snap_dpa_p2p_send_cq_head ans h)) (fun _ s' => copied [] [] s s') s.
Proof.
  unfold post, on_nchan, snap_dpa_p2p_send_cq_head, snap_dpa_p2p_send_msg, m_bind, gets. cbn [res_bind].
  destruct (credit_count _ =? 0); [by apply copied_same|]. rewrite p2_post_run by done. cbn [res_bind fst snd].
  split; [done|]. split; [done|]. eexists [_]. split; [reflexivity|done].
Qed.
End Turn.

(** ** Messages from the DPU *)

Lemma nvme_recv_ok fuel : forall s c, (nt_rx s < fuel)%nat -> post (nvme_recv_all fuel c) (fun _ s' => copied [] [] s s') s.
Proof.
  induction fuel as [|fuel IH]; intros s c Hf; [lia|]. cbn [nvme_recv_all]. apply post_assoc, post_gets. cbv zeta. apply post_assoc, post_modify, post_bind, post_return.
  set (s1 := s ⦇ nt_rx := _ ⦈). assert (H1 : copied [] [] s s1) by by apply copied_same.
  destruct (Nat.min (nt_rx s) 16 =? 0)%nat eqn:E; [by apply post_return|]. apply Nat.eqb_neq in E.
  eapply post_mono; [apply IH; cbn; lia|]. intros n s2 H2. exact (copied_trans _ _ _ _ _ _ _ H1 H2).
Qed.

Lemma dpa_p2p_recv_ok event s : post (dpa_p2p_recv event) (fun _ s' => copied [] [] s s') s.
Proof.
  unfold dpa_p2p_recv. eapply post_bind_mono with (P := fun _ s' => copied [] [] s s'); [destruct event; by apply copied_same|].
  intros r s1 H1. apply post_gets. eapply post_mono; [apply nvme_recv_ok; lia|]. intros n s2 H2. exact (copied_trans _ _ _ _ _ _ _ H1 H2).
Qed.

(** C23: A turn of the DPA thread of a ready NVMe completion queue whose posts are all
    accepted, with tails and doorbells inside their submission queues (and queues inside
    the address space): for every submission queue that is ready it copies the entries from
    the last tail up to the doorbell, around the end of the queue, from the host to the
    same places of the shadow, queue by queue and in order, and no others; afterwards the
    tails are those of the doorbells.  (The tail moves also when the write is refused,
    dpa_nvme.c:287, and the entries are then lost: [refused_write_loses_entries].) *)
Theorem nvme_turn_copies_new_entries ans event s
  (Hans : forall k, ans k = 0) (Hrdy : ncq_state (nt_cq s) = DPA_NVME_STATE_RDY) (Hok : Forall (nsq_ok (nt_db s)) (ncq_sqs (nt_cq s))) :
  post (nvme_progress ans event)
    (fun _ s' => ncq_sqs (nt_cq s') = map (caught_up (nt_db s)) (ncq_sqs (nt_cq s)) /\
       exists ps, p2_posts (nt_chan s') = p2_posts (nt_chan s) ++ ps /\
         concat (map sqes_read ps) = concat (map (new_sqes (nt_db s) base_addr) (ncq_sqs (nt_cq s))) /\
         concat (map sqes_written ps) = concat (map (new_sqes (nt_db s) dpu_sqe_shadow_addr) (ncq_sqs (nt_cq s)))) s.
Proof.
  unfold nvme_progress. apply post_gets. rewrite bool_decide_eq_true_2 by done. cbn [negb].
  eapply post_bind_mono; [apply dpa_p2p_recv_ok|]. intros n s1 H1. cbn beta.
  eapply post_bind_mono with (P := fun _ s' => copied [] [] s s').
  { destruct (negb (n =? 0)); [|by apply post_return]. destruct H1 as (Hc & Hd & Hps). split; [done|]. by split. }
  clear s1 H1. intros r s1 H1. cbn beta. assert (Hdb : nt_db s1 = nt_db s) by apply H1. rewrite <- Hdb in *.
  eapply post_bind_mono; [by apply sqs_turn_ok|]. intros l s2 [-> H2]. cbn beta. destruct (copied_trans _ _ _ _ _ _ _ H1 H2) as (Hc & Hd & ps & Hp & Hr & Hw). cbn [app] in Hr, Hw.
  apply post_modify, post_modify, post_gets. match goal with |- post _ _ ?x => set (s3 := x) end.
  assert (H3 : copied [] [] s3 s3) by by apply copied_same.
  eapply post_bind_mono with (P := fun _ s' => ncq_sqs (nt_cq s') = ncq_sqs (nt_cq s3) /\ exists ps', p2_posts (nt_chan s') = p2_posts (nt_chan s3) ++ ps' /\
    concat (map sqes_read ps') = [] /\ concat (map sqes_written ps') = []).
  - destruct (negb _); [|apply post_return; split; [done|apply H3]].
    eapply post_bind_mono; [by apply send_head_copied|]. intros r' s4 (Hc4 & _ & Hps4). cbn beta. split; [cbn; by rewrite Hc4|done].
  - intros r' s4 (Hc4 & ps' & Hp' & Hr' & Hw'). split; [exact Hc4|]. exists (ps ++ ps'). rewrite !map_app, !concat_app, Hr, Hw, Hr', Hw', !app_nil_r.
    split; [|done]. cbn. rewrite Hp'. cbn. by rewrite Hp, (assoc_L (++)).
Qed.

(** * Runs *)

Module NvmeRun.

(** A queue of eight entries, at entry 6; its doorbell says 3. *)
Definition nsq0 : dpa_nvme_sq := mk_nsq 1 11 65536 4096 8 100 12 6 DPA_NVME_STATE_RDY.
Definition db0 (d : Z) : Z := if d =? 100 then 3 else 0.
Definition nthr0 : nvme_thread := mk_nthr (mk_ncq [nsq0] DPA_NVME_STATE_RDY 101 0 5) (mk_p2p 0 1024 [] 0) 1 0 db0 [] None 0 0.
Definition accepted (k : nat) : Z := 0.

Lemma nsq0_ok : nsq_ok db0 nsq0.
Proof. repeat split; try (vm_compute; discriminate). Qed.

Lemma nvme_turn_copies_new_entries_witness :
  post (nvme_progress accepted true)
    (fun _ s' => ncq_sqs (nt_cq s') = map (caught_up db0) [nsq0] /\
       exists ps, p2_posts (nt_chan s') = [] ++ ps /\
         concat (map sqes_read ps) = concat (map (new_sqes db0 base_addr) [nsq0]) /\
         concat (map sqes_written ps) = concat (map (new_sqes db0 dpu_sqe_shadow_addr) [nsq0])) nthr0 /\
  new_sqes db0 base_addr nsq0 = [4480; 4544; 4096; 4160; 4224].
Proof.
  split; [|vm_compute; reflexivity]. apply (nvme_turn_copies_new_entries accepted true nthr0).
  - intros k. reflexivity.
  - reflexivity.
  - apply Forall_singleton, nsq0_ok.
Defined.

Example turn_of_nthr0 :
  match nvme_progress accepted true nthr0 with
  | Ok (s, _) =>
      p2_posts (nt_chan s) = [PWrite 4480 128 12 65920 11; PWrite 4096 192 12 65536 11; PMsg (mk_pmsg SNAP_DPA_P2P_MSG_NVME_SQ_TAIL 1 1 3)] /\
      map host_sq_tail (ncq_sqs (nt_cq s)) = [3]
  | _ => False
  end.
Proof. vm_compute. split; reflexivity. Qed.

(** The first write is refused: nothing was sent, but the tail has moved, so the entries are
    never sent. *)
Example refused_write_loses_entries :
  match nvme_progress (fun k => if (k =? 0)%nat then - EAGAIN else 0) true nthr0 with
  | Ok (s, _) =>
      p2_posts (nt_chan s) = [] /\ map host_sq_tail (ncq_sqs (nt_cq s)) = [3] /\
      match nvme_progress accepted true s with Ok (s', _) => p2_posts (nt_chan s') = [] | _ => False end
  | _ => False
  end.
Proof. vm_compute. repeat split. Qed.

(** A second submission queue takes the place of the first one. *)
Example second_queue_replaces_first :
  match nvme_do_command accepted 7 (Some (1, NSqCreate (nsq0 ⦇ nsq_id := 2 ⦈))) nthr0 with
  | Ok (s, r) => r = (false, Some SNAP_DPA_RSP_OK) /\ map nsq_id (ncq_sqs (nt_cq s)) = [2]
  | _ => False
  end.
Proof. vm_compute. split; reflexivity. Qed.

End NvmeRun.
