(* ===== verification/Env.v ===== *)
(** Environment variables (src/src/snap_env.c): a table of variables with default values that
    the environment of the process overrides. *)

From Stdlib Require Import Ascii.
From stdpp Require Import strings list.
From S2P Require Import Prelude.

Definition ERANGE : Z := 34.
Definition SNAP_ENV_MAX_ENTRIES_NUM : nat := 32.
Definition ULLONG_MAX : Z := 2 ^ 64 - 1.

(** * [strtoull] in base ten *)

Definition is_space (c : ascii) : bool := let n := nat_of_ascii c in (n =? 32)%nat || ((9 <=? n)%nat && (n <=? 13)%nat).
Definition digit (c : ascii) : option Z :=
  let n := Z.of_nat (nat_of_ascii c) in if (48 <=? n) && (n <=? 57) then Some (n - 48) else None.

Fixpoint skip_spaces (s : string) : string :=
  match s with
  | String c s' => if is_space c then skip_spaces s' else s
  | EmptyString => s
  end.

(** The digits of [s] after a number [acc], and what follows them. *)
Fixpoint read_digits (acc : Z) (s : string) : Z * string :=
  match s with
  | String c s' => match digit c with Some d => read_digits (10 * acc + d) s' | None => (acc, s) end
  | EmptyString => (acc, s)
  end.

Definition has_digit (s : string) : bool := match s with String c _ => bool_decide (is_Some (digit c)) | EmptyString => false end.

(** The value, the rest of the string, and whether the value is out of range. *)
Definition strtoull (s : string) : Z * string * bool :=
  let t := skip_spaces s in
  let '(neg, t) := match t with
                   | String "-" t' => (true, t')
                   | String "+" t' => (false, t')
                   | _ => (false, t)
                   end in
  if negb (has_digit t) then (0, s, false)
  else
    let '(v, rest) := read_digits 0 t in
    if ULLONG_MAX <? v then (ULLONG_MAX, rest, true) else (if neg then u64 (- v) else v, rest, false).

(** * The table *)

(** [struct mlnx_snap_env] *)
Record mlnx_snap_env := mk_env { en_name : string; en_defined : bool; default_val : Z; en_error : Z }.
#[export] Instance env_settable : Settable mlnx_snap_env := fun r => mk_env (en_name r) (en_defined r) (default_val r) (en_error r).

Section Env.
(** The environment of the process, and [errno] before the call. *)
Context (getenv : string -> option string) (errno : Z).

(** The unit of a suffix, and what follows it. *)
Definition suffix_unit (s : string) : option (Z * string) :=
  match s with
  | EmptyString => Some (1, s)
  | String "K" s' | String "k" s' => Some (1024, s')
  | String "M" s' | String "m" s' => Some (1024 * 1024, s')
  | String "G" s' | String "g" s' => Some (1024 * 1024 * 1024, s')
  | _ => None
  end.

Definition snap_env_set_val (env : mlnx_snap_env) : mlnx_snap_env :=
  match getenv (en_name env) with
  | None => env
  | Some env_str =>
      let env := env ⦇ en_defined := true ⦈ ⦇ en_error := 0 ⦈ in
      let '(env_val, end_, out_of_range) := strtoull env_str in
      let errno := if out_of_range : bool then ERANGE else errno in
      if (env_val =? ULLONG_MAX) && (errno =? ERANGE) then env ⦇ en_error := ERANGE ⦈
      else
        match suffix_unit end_ with
        | None => env ⦇ en_error := EINVAL ⦈
        | Some (u, end_) =>
            let env_val := u64 (env_val * u) in
            match end_ with
            | EmptyString => env ⦇ default_val := env_val ⦈
            | _ => env ⦇ en_error := EINVAL ⦈
            end
        end
  end.

Definition snap_env_find (name : string) (arr : list mlnx_snap_env) : option mlnx_snap_env := find (fun e => bool_decide (en_name e = name)) arr.

Definition snap_env_add (name : string) (dflt : Z) (arr : list mlnx_snap_env) : list mlnx_snap_env * Z :=
  match snap_env_find name arr with
  | Some _ => (arr, 0)
  | None =>
      if (length arr <? SNAP_ENV_MAX_ENTRIES_NUM)%nat then (arr ++ [snap_env_set_val (mk_env name false (u64 dflt) 0)], 0)
      else (arr, - EINVAL)
  end.
End Env.

Definition i64 (x : Z) : Z := uwrap 64 (x + 2 ^ 63) - 2 ^ 63.

Definition snap_env_getenv (name : string) (arr : list mlnx_snap_env) : Z :=
  match snap_env_find name arr with
  | Some env => if en_error env =? 0 then i64 (default_val env) else - EINVAL
  | None => - EINVAL
  end.

Definition snap_env_is_set (name : string) (arr : list mlnx_snap_env) : bool :=
  match snap_env_find name arr with Some env => en_defined env | None => false end.

(** * Numbers are read as they are written *)

(** A decimal numeral, its value, and the suffixes with their units. *)
Definition digit_char (d : Z) : ascii := ascii_of_nat (Z.to_nat (48 + d)).
Definition numeral (ds : list Z) : string := foldr (fun d s => String (digit_char d) s) EmptyString ds.
Definition value (ds : list Z) : Z := foldl (fun a d => 10 * a + d) 0 ds.
Definition is_digit (d : Z) : Prop := 0 <= d <= 9.
Definition units : list (string * Z) :=
  [(""%string, 1); ("K"%string, 2 ^ 10); ("k"%string, 2 ^ 10); ("M"%string, 2 ^ 20); ("m"%string, 2 ^ 20); ("G"%string, 2 ^ 30); ("g"%string, 2 ^ 30)].

Lemma digit_of_char d : is_digit d -> digit (digit_char d) = Some d /\ is_space (digit_char d) = false /\ digit_char d <> "-"%char /\ digit_char d <> "+"%char.
Proof.
  intros Hd. unfold is_digit in Hd. assert (Hcase : d = 0 \/ d = 1 \/ d = 2 \/ d = 3 \/ d = 4 \/ d = 5 \/ d = 6 \/ d = 7 \/ d = 8 \/ d = 9) by lia.
  destruct Hcase as [->|[->|[->|[->|[->|[->|[->|[->|[->| ->]]]]]]]]]; repeat split; discriminate.
Qed.

Lemma read_numeral ds t : forall acc, Forall is_digit ds -> has_digit t = false -> read_digits acc (numeral ds +:+ t) = (foldl (fun a d => 10 * a + d) acc ds, t).
Proof.
  induction ds as [|d ds IH]; intros acc Hds Ht.
  - change (numeral [] +:+ t) with t. destruct t as [|c t]; [done|]. cbn in *. destruct (digit c); [|done]. by rewrite bool_decide_eq_true_2 in Ht.
  - apply Forall_cons in Hds as [Hd Hds]. change (numeral (d :: ds) +:+ t) with (String (digit_char d) (numeral ds +:+ t)).
    cbn [read_digits]. rewrite (proj1 (digit_of_char d Hd)). by apply IH.
Qed.

Lemma strtoull_numeral d ds t : Forall is_digit (d :: ds) -> has_digit t = false -> value (d :: ds) <= ULLONG_MAX ->
  strtoull (numeral (d :: ds) +:+ t) = (value (d :: ds), t, false).
Proof.
  intros Hds Ht Hv. pose proof (read_numeral (d :: ds) t 0 Hds Ht) as Hread. apply Forall_cons in Hds as [Hd _]. destruct (digit_of_char d Hd) as (Hdg & Hsp & Hm & Hp).
  unfold strtoull. change (numeral (d :: ds) +:+ t) with (String (digit_char d) (numeral ds +:+ t)).
  cbn [skip_spaces]. rewrite Hsp. cbv zeta. 
  assert (Hsign : match String (digit_char d) (numeral ds +:+ t) with String "-" t' => (true, t') | String "+" t' => (false, t') | _ => (false, String (digit_char d) (numeral ds +:+ t)) end
                  = (false, String (digit_char d) (numeral ds +:+ t))).
  { destruct (digit_char d) as [[] [] [] [] [] [] [] []]; try reflexivity; [by destruct Hm|by destruct Hp]. }
  rewrite Hsign. cbn [has_digit]. rewrite Hdg. cbn [negb bool_decide]. rewrite bool_decide_eq_true_2 by done. cbn [negb].
  change (String (digit_char d) (numeral ds +:+ t)) with (numeral (d :: ds) +:+ t). rewrite Hread. change (foldl _ 0 (d :: ds)) with (value (d :: ds)).
  destruct (ULLONG_MAX <? value (d :: ds)) eqn:E; bool_to_prop; [lia|done].
Qed.

Lemma suffix_ok suf u : (suf, u) ∈ units -> has_digit suf = false /\ suffix_unit suf = Some (u, EmptyString).
Proof.
  intros Hin%list_elem_of_In. cbn in Hin.
  repeat (destruct Hin as [[= <- <-]|Hin]; [by split|]). done.
Qed.

Lemma set_val_numeral getenv errno env d ds suf u :
  getenv (en_name env) = Some (numeral (d :: ds) +:+ suf) -> Forall is_digit (d :: ds) -> (suf, u) ∈ units -> value (d :: ds) < ULLONG_MAX ->
  snap_env_set_val getenv errno env = mk_env (en_name env) true (u64 (value (d :: ds) * u)) 0.
Proof.
  intros Henv Hds Hsuf Hv. destruct (suffix_ok suf u Hsuf) as [Hns Hu]. unfold snap_env_set_val. rewrite Henv, strtoull_numeral by (done || lia).
  destruct (value (d :: ds) =? ULLONG_MAX) eqn:E; bool_to_prop; [lia|]. cbn [andb]. by rewrite Hu.
Qed.

Lemma i64_u64 x : i64 (u64 x) = i64 x.
Proof. unfold i64, u64. by rewrite uwrap_add_l. Qed.

(** ** The table *)

Lemma find_app name arr e : snap_env_find name (arr ++ [e]) =
  match snap_env_find name arr with Some x => Some x | None => if bool_decide (en_name e = name) then Some e else None end.
Proof.
  unfold snap_env_find. induction arr as [|x arr IH]; cbn [app find]; [done|]. by destruct (bool_decide (en_name x = name)).
Qed.

Lemma set_val_name getenv errno env : en_name (snap_env_set_val getenv errno env) = en_name env.
Proof.
  unfold snap_env_set_val. destruct (getenv (en_name env)) as [s|]; [|done]. destruct (strtoull s) as [[v rest] o]. destruct (_ && _); [done|].
  destruct (suffix_unit rest) as [[u e]|]; [|done]. by destruct e.
Qed.

(** A new variable that there is room for is found with what the environment and the default
    say; the others are as before. *)
Lemma add_new getenv errno name dflt arr :
  snap_env_find name arr = None -> (length arr < SNAP_ENV_MAX_ENTRIES_NUM)%nat ->
  let arr' := fst (snap_env_add getenv errno name dflt arr) in
  snap_env_find name arr' = Some (snap_env_set_val getenv errno (mk_env name false (u64 dflt) 0)) /\
  forall other, other <> name -> snap_env_find other arr' = snap_env_find other arr.
Proof.
  intros Hf Hlen. unfold snap_env_add. rewrite Hf. rewrite (proj2 (Nat.ltb_lt _ _) Hlen). cbn [fst]. split.
  - rewrite find_app, Hf, set_val_name. by rewrite bool_decide_eq_true_2.
  - intros other Hne. rewrite find_app, set_val_name. destruct (snap_env_find other arr); [done|]. rewrite bool_decide_eq_false_2; [done|]. cbn. congruence.
Qed.

(** A variable that the environment sets to a numeral with a suffix has the number times the
    unit, in 64 bits; one that it does not set has its default; other variables are not
    affected. *)
Theorem variable_value getenv errno name dflt arr :
  snap_env_find name arr = None -> (length arr < SNAP_ENV_MAX_ENTRIES_NUM)%nat ->
  let arr' := fst (snap_env_add getenv errno name dflt arr) in
  (getenv name = None -> snap_env_getenv name arr' = i64 dflt /\ snap_env_is_set name arr' = false) /\
  (forall d ds suf u, getenv name = Some (numeral (d :: ds) +:+ suf) -> Forall is_digit (d :: ds) -> (suf, u) ∈ units -> value (d :: ds) < ULLONG_MAX ->
     snap_env_getenv name arr' = i64 (value (d :: ds) * u) /\ snap_env_is_set name arr' = true) /\
  (forall other, other <> name -> snap_env_getenv other arr' = snap_env_getenv other arr).
Proof.
  intros Hf Hlen. cbv zeta. destruct (add_new getenv errno name dflt arr Hf Hlen) as [Hn Ho]. cbv zeta in Hn, Ho. unfold snap_env_getenv, snap_env_is_set. rewrite Hn. split; [|split].
  - intros Hg. unfold snap_env_set_val. cbn [en_name]. rewrite Hg. cbn. by rewrite i64_u64.
  - intros d ds suf u Hg Hds Hsuf Hv. rewrite (set_val_numeral _ _ _ d ds suf u) by done. cbn [en_error default_val en_defined]. by rewrite i64_u64.
  - intros other Hne. by rewrite Ho.
Qed.

(** ** Examples *)

Module EnvRun.

Definition env1 (v : string) (name : string) : option string := Some v.
Definition read (v : string) : Z := snap_env_getenv "X"%string (fst (snap_env_add (env1 v) 0 "X"%string 7 [])).

(** Units, a sign that wraps, a product that wraps, a number out of range, an empty value and
    rubbish. *)
Example values_read :
  map read ["64"; "4K"; " +2m"; "-1"; "17179869184G"; "99999999999999999999"; ""; "4KB"; "abc"]%string =
  [64; 4096; 2 ^ 21; -1; 0; - EINVAL; 0; - EINVAL; - EINVAL].
Proof. vm_compute. reflexivity. Qed.

End EnvRun.
